(* ===== verification/_CoqProject ===== *)
-Q . S2P
Prelude.v
IntBase.v
FullMath.v
TickMath.v
TickInverse.v
LiquidityAmounts.v
JsValue.v
Database.v
Json.v
Engine.v
Search.v
Table.v
World.v
Schemas.v
KvStore.v
MissingBlocks.v
Chain.v
PoolAddress.v
Stake.v
Rewards.v
Balances.v
Processors.v
ProcessorsSpec.v
Dex.v
Dispatch.v
DexSpec.v
BlockIndex.v
BlockIndexSpec.v
Regex.v
Mapper.v
GatewayMappings.v
GatewaySources.v
Gateway.v
GatewayApi.v
GatewaySpec.v
Methods.v
DataQuery.v
RangeSpec.v
RequestAll.v
Coordinator.v
FeeEstimator.v
TransactionStats.v
Route.v
PriceIndex.v
TokenFactory.v
TransactionQuery.v
Genesis.v
GenesisSpec.v
Validators.v
Files.v
Http.v
Export.v
ExportSpec.v
Service.v
BlockQuery.v
AccountQuery.v
EstimateFees.v
Controllers.v
Registry.v
RegistrySpec.v
RegistryClean.v
Market.v
MarketSpec.v
DexQueryText.v
DexQuery.v
DexQuerySpec.v
ConnectorTables.v
ConnectorPool.v
Connector.v
ConnectorEvents.v
ConnectorSpec.v
Snapshot.v
Indexer.v
IndexerSpec.v
GatewayServer.v
GatewayServerSpec.v
Microservice.v
MicroserviceSpec.v
Framework.v
FeeChain.v
