(* ===== verification/Prelude.v ===== *)
(** * Swaptoshi Service: a verified model of the indexer and its services

    Swaptoshi Service is a set of JavaScript microservices around a Klayr
    blockchain node with a DEX module.  The service [blockchain-connector]
    talks to the node, [blockchain-indexer] reads
    blocks, transactions and events through it and keeps them in MySQL
    tables; [blockchain-coordinator] gives it its jobs, [gateway] answers the
    requests of clients from it, [fee-estimator] and
    [transaction-statistics] derive data from it, [export] writes the
    history of an account into files, [market] collects prices of exchanges,
    and [blockchain-app-registry] mirrors the
    metadata of applications from GitHub.  This development models these services
    and the framework code they stand on.

    ** Parts of the program and their files

    - [framework/src/database/util.js], the table layer over [knex]:
      [JsValue] has JavaScript values and conversions, [Database] the schema
      loading, casting and query building, [Engine] the interface to the SQL
      engine (classes [SqlEngine], [SqlLaws]) with an executable instance,
      [Table] the operations [upsert], [delete], [deleteByPrimaryKey],
      [update], [find], [count], [increment] and [decrement], [Search] the
      search parameters.
    - [framework/src/database/mysql/kvStore.js]: [KvStore].
    - [blockchain-indexer/shared/database/schema]: [Schemas], one definition
      per table.
    - the state a handler works on: [World], a state and error monad over the
      transaction of the block ([dbTrx]), the committed database, the redis
      sets and the jobs given to queues.
    - [shared/constants.js], [utils/], [indexer/utils/events.js] and the node
      behind the connector service: [Chain] (class [NodeApi]).
    - [indexer/transactionProcessor]: [Stake] and [Processors] have one pair
      [*_apply], [*_revert] per command file, [Dex] the DEX module with
      [indexer/utils/swapProcess.js] and [dexSync.js], [TokenFactory] the token
      factory, [Dispatch] the choice of the processor
      ([transactionProcessor/index.js]).
    - [indexer/genesisBlock.js] and the connector's
      [shared/sdk/genesisBlock.js] that pages through the assets: [Genesis].
    - [indexer/utils/validator.js]: [Rewards].  [indexer/accountBalanceIndex.js]:
      [Balances].
    - [indexer/blockchainIndex.js]: [BlockIndex] (index jobs, delete jobs, new
      blocks, queries) and [MissingBlocks] (the search for gaps).
    - [indexer/utils/poolAddress.js] and [tradingPath.js]: [PoolAddress].
    - [indexer/utils/dexLib], the fixed-width integers and the price math of
      the DEX: [IntBase], [FullMath], [TickMath], [LiquidityAmounts].
    - [shared/dataService/dex]: [Route] has [timestamp.js] and the routes and
      prices of [priceQuoter.js], [PriceIndex] the stored prices
      ([priceIndexer.js] and the queries of [priceQuoter.js]).
    - [shared/dataService/business/blocks.js], [transactions.js] and
      [utils/param.js], the queries of the indexer: [DataQuery].
      [utils/requestAll.js]: [RequestAll].
    - the queries that merge tables, node and caches: [TransactionQuery]
      (pending transactions, posting, dry runs) and [Validators] (validators,
      generators, [utils/array.js]).
    - the other queries of [shared/dataService]: [Service] has the state of a
      request (record [service]), what the service keeps of the node
      ([constants.js]) and the small queries; [BlockQuery] the events and
      blocks as clients see them, [AccountQuery] tokens, PoS and
      interoperability, [EstimateFees] the fee estimate of a transaction
      ([transactionsEstimateFees.js]), [Controllers] the methods of
      [methods/dataService/controllers].  [Json] has [JSON.parse].
    - the method tables of all services ([methods/**]): [Methods].
    - [gateway]: [Regex] has the patterns of [shared/regex.js] as texts, a
      parser and a matcher for them; [Mapper] is [shared/customMapper.js];
      [GatewayMappings], [GatewaySources] and [GatewayApi] have one definition
      per file of [sources/version3] and [apis]; [Gateway] has [apiUtils.js],
      [paramValidator.js], [registerHttpApi.js] and [registerRpcApi.js];
      [GatewayServer] has the handler of requests over sockets
      ([moleculer-io]), the end of HTTP requests ([moleculer-web]), the key of
      the rate limiter and the events of [app.js], [ready.js] and [status.js].
    - [blockchain-coordinator/shared]: [Coordinator].
      [fee-estimator/shared]: [FeeEstimator] and, for what it knows of the
      chain, [FeeChain].
      [transaction-statistics/shared]: [TransactionStats].
    - [framework/src/fs.js], [csvCache.js] and [export/shared/helpers/file.js],
      the directories of a service on disk: [Files]; its module [ObjectStore]
      is [export/shared/helpers/s3.js].
      [framework/src/http.js]: [Http].
    - [framework/src/microservice.js], the job tables of all services and
      [app.js] of the indexer: [Microservice].  Caches, queues, signals and the
      mapper of the framework and its connections to the database: [Framework].
    - [export/shared] with its helpers and its API methods: [Export].
    - [blockchain-app-registry]: [Registry] (queries, index, synchronisation
      with GitHub, jobs and controllers), over the files of [Files] and the
      state of a request of [Service].
    - [blockchain-connector]: [ConnectorTables] has the names, event topics and
      engine endpoints of [shared/sdk/constants]; [Connector] the requests with
      their retries ([invokeEndpoint] of [sdk/client.js]), [schema.js],
      [formatter.js], [encoder.js], [cache.js], [blocksUtils.js],
      [genesisBlock.js] and the queries of every module; [ConnectorPool] the
      pool of API clients of [sdk/client.js] as a state machine whose events
      are pings, timers, lost connections, requests, resets and settled
      promises; [ConnectorEvents] peers, locations and the events of the node.
    - the DEX queries ([dataService/dex/methods], [klyPrices.js],
      [dataService/tokenFactory] and their controllers): [DexQueryText] has the
      SQL statements as they are written, [DexQuery] the methods that complete
      and send them.
    - the indexer as a process ([indexer/indexStatus.js],
      [dataService/indexStatus.js], [messageProcessor.js], [events], [jobs],
      [status.js], [init.js]): [Indexer]; [utils/snapshot.js]: [Snapshot].
    - [market]: [Market] has the sources of prices with their caches, the
      computation of the target pairs and the answers, with JavaScript's
      reading and rounding of numbers.

    A definition has the name of the function it models; where a file exports
    [applyTransaction] and [revertTransaction] the command is put in front.  A
    long function is split into definitions that follow its statements.

    ** What the theorems show

    - The index of blocks ([BlockIndexSpec]): while index jobs, delete jobs,
      new blocks and other work take turns between the checks, the statements
      and the commits of a job, with errors anywhere and a node that changes
      forks, the committed heights have no gap and every row belongs to its
      height, as long as an index job and a delete job are never under way at
      the same time; [overlap_makes_gap] is the race that the code allows.  The
      transaction of an index job publishes exactly the rows it changed, or
      nothing; what happens to a deletion that fails.
    - The table layer ([Table], [Search], [KvStore]): table operations, and
      with arbitrary values the statements of the indexer
      ([IndexerSpec.statements_preserve_tables]), keep rows under their keys
      and of their types, an upserted row is found again, search input is
      taken literally, and the key value store implements a map of the values
      as they are read back.
    - Genesis assets ([GenesisSpec]): every account, lock and stake of the
      genesis block reaches the tables it belongs to.
    - Merged answers ([TransactionQuery], [Validators]): when the index pages
      through its list, a page of pending and stored transactions is a prefix
      of the page of their concatenation, and the ranks of the validators are
      exactly the positions of their order.
    - Transaction processors ([Stake], [ProcessorsSpec], [DexSpec]): applying
      a transaction records it and reverting it restores the tables, for all
      stakes of a block, multisignature groups, token supplies and DEX
      liquidity.
    - Derived data ([Rewards], [Balances], [MissingBlocks]): rewards are never
      over-distributed, the balances of the node are stored and no refresh is
      lost, missing blocks are found.
    - DEX arithmetic ([IntBase], [FullMath], [TickMath], [TickInverse],
      [LiquidityAmounts], [PoolAddress]): integer objects stay in range and their methods compute
      modulo the width, [mulDiv] is exact and throws exactly on overflow and
      division by zero, tick prices are those of the unbounded computation,
      bounded and strictly increasing, the tick of a price is the greatest one not above
      it, liquidity never costs more than was offered, pool
      addresses decode to what they encode.
    - DEX prices ([Route], [PriceIndex]): a price is the product along a
      shortest route of pools, and the jobs for the price history cover it
      without overlap.
    - The gateway ([GatewaySpec], [RangeSpec]): a request that is accepted
      reaches the service with exactly the declared parameters (under their
      public names when a null stops the renaming), no endpoint hides another,
      an answer has the declared fields with the values of the service at their
      paths, cast to the declared types, and the ranges the
      patterns accept can be read by the indexer.  [Regex.regex_test_correct]
      relates the matcher to the language of a pattern.  A request over a
      socket that the rate limiter lets pass is answered with its own id and
      the outcome of its own method, except in a batch with a callback
      ([GatewayServerSpec]).
    - Services ([MicroserviceSpec]): every job of every service gets the timer
      that its settings name, and the indexer offers the methods of its tables.
      The blocks the fee estimator works with are those of the current chain
      ([FeeChain.fee_blocks_current]).
    - The methods behind the gateway ([Methods]): what version 3 forwards goes
      to a method that exists, with parameters of the declared types.
    - Answers of the data service ([BlockQuery], [EstimateFees]): the totals of
      a block are those of its transactions, a stored event is presented as it
      was ([Json.json_roundtrip]), and a fee estimate is the node's fee for the
      transaction as it will be sent.
    - Jobs and derived data of the other services ([Coordinator],
      [RequestAll], [FeeEstimator], [TransactionStats]): which missing blocks
      get their jobs, paging returns the whole answer, the fee computation ends
      with an estimate for the tip unless the cached one is at or above it, and
      the daily statistics count exactly.
    - The export ([ExportSpec]): from any state of the directories that its own
      runs can reach, a job writes the history of the account over the days
      asked for, as the indexer gave it then or when a day was cached.
    - The application registry ([RegistrySpec], [RegistryClean]): the committed
      index changes only together with the commit hash it stands for, a page of
      applications is a page of the defaults followed by the others, and the
      cleaning job ends and keeps exactly the metadata files, the pictures and
      the directories that lead to them.
    - The connector ([ConnectorSpec], [ConnectorPool]): a request is repeated
      exactly after timeouts and ends when each attempt finds a client alive
      some time and an answer, the cache of blocks implements a pair of
      maps, blocks come in the order of the ids asked for, and the slots of the
      client pool are consistent through every order of events.
    - The DEX queries ([DexQuerySpec]): a search text without quotes changes a
      statement only between quotes, and a quote in it is enough to change the
      statement.
    - The indexer as a process ([IndexerSpec], [Snapshot]): the index is
      announced as ready exactly when it is complete, and a snapshot of the
      database is loaded only after its checksum was verified, with the outcome
      of the command that loads it.
    - The market ([MarketSpec]): what the service answers after any jobs is the
      first direct price of every pair, or else the first composed one.

    Lemmas that show a deviation of the code from its intent stand next to the
    definitions they are about, with a comment.

    ** Assumptions

    Code outside the repository is a parameter: MySQL and [knex] ([SqlEngine],
    with the laws [SqlLaws] that [MemDB] satisfies), the node and the
    connector ([NodeApi], [node_view], [DexApi]), [@klayr/cryptography]
    ([Crypto]), Klayr's [Q96] numbers, [fastest-validator] ([FastestValidator],
    with the rule for texts [StringRule]), the dates of [moment] ([DateCasts]
    and parameters), the decimal numbers of MySQL ([DecimalArith],
    [DecimalOrder]), the prices of the market service and
    [http-status-codes], [@klayr/validator], the endpoints of the token factory and of the genesis
    assets ([FactoryApi], [GenesisApi]), the answers of the services the
    export asks ([ExportApi]) with the calendar of [moment] ([Calendar]), the
    answers of other services to the data service ([Rpc]), the packages and
    settings it reads ([Packages]), GitHub and its archives ([GitHub]),
    the answers of the node to the connector ([Node]), the codec of Klayr
    ([Codec]), what MySQL answers to a statement that is given as a text
    ([RawSql]), what the exchanges answer ([Exchanges]), the servers and the
    shell behind snapshots ([Remote]), the services the gateway calls
    ([Broker]), the readers of definitions and cron patterns ([Definitions]),
    [js-signals] ([SignalLib]), [bull] ([Bull]), the client of object storages
    ([Minio]), the outcomes of [axios], the workbooks of [node-xlsx] and the
    order [localeCompare].  The block index takes the genesis assets and the DEX price index as parameters
    that leave the table of blocks alone, which
    [GenesisSpec.indexGenesisBlockAssets_keeps] and
    [PriceIndex.addPriceIndex_keeps] prove of the code that is put there; in
    the same way the dispatcher takes the processors of the token factory and
    of the cross-chain updates from [TokenFactory.with_factory] and
    [TransactionQuery.with_ccu].  Numbers are integers, rounded as doubles where [Number]
    rounds; [Number] of a text reads decimal integers (a text with a fraction,
    blanks or a hexadecimal number counts as not a number, except in [Market],
    which reads decimal numbers).  Work that the source starts
    concurrently runs in list order, and the transactions of a block one after
    the other; the index and delete jobs of [BlockIndexSpec] and the events of
    the client pool interleave.  Texts of MySQL are compared by their bytes
    (the collation of the tables, [utf8mb4_unicode_ci], also identifies
    letters of different case), BIGINT values are read exactly (the driver
    gives doubles above 2^53), a row whose columns have the declared types is
    always accepted (no limits on the length or range of a column), and a
    commit publishes the rows of a transaction over those committed meanwhile
    ([commit_law]; two writers of one row, which MySQL makes wait for each
    other, are not told apart).
    Logging is left out, and so are caches and signals where nothing that is
    proved depends on them.

    Loops over data are recursions on lists.  Fuel is used by the parser of
    patterns (the length of the text; [patterns_parse] shows that it is
    enough for all of them), by the paging loops (the number of pages the
    source computes beforehand), by the routes (the rounds up to the allowed
    length, after which none is left), by the price along a route (the length
    of its text; [price_along_shortest_route] shows that it returns), by the
    JSON parser (twice the length of the text, which [json_roundtrip] shows to
    be enough for what the service writes), by the walk of the cleaning job
    (the number of entries on disk; [clean_keeps_metadata] shows that it ends),
    by the loop over the blocks that wait for the cache (their number and the
    five errors that end it; [block_cache_refines]), by the recursion over
    block ids (their number; [blocks_in_order])
    and by the fee computation (one round per
    block up to the tip, which [fee_estimation_ends] shows to be enough).  A
    wait that would poll forever is the outcome [never_returns], which no
    [catch] sees; the coordinator's waits consume the list of job counts they
    would see and give [None] when it ends.

    ** What is not modelled

    The drawing of sparklines, the set-up of queues, timers and of the HTTP and
    socket servers of the gateway, its documentation, and the timers of the
    connector that refresh locations.

    This file: outcomes of JavaScript code, the state and error monad [eff],
    shared automation and lemmas. *)
From Stdlib Require Export ZArith Lia.
From stdpp Require Export base gmap strings pretty option numbers.
From stdpp Require Export list.

#[global] Open Scope Z_scope.
#[global] Set Default Goal Selector "!".

(** ** Outcomes of JavaScript code

    A JavaScript function either returns a value or throws.  [Throw] carries
    the message of the [Error] object. *)
Inductive result (A : Type) : Type :=
| Ok (a : A)
| Throw (msg : string).
Arguments Ok {A} a.
Arguments Throw {A} msg.

#[export] Instance result_ret : MRet result := fun A a => Ok a.
#[export] Instance result_bind : MBind result := fun A B f m =>
  match m with Ok a => f a | Throw e => Throw e end.
#[export] Instance result_fmap : FMap result := fun A B f m =>
  match m with Ok a => Ok (f a) | Throw e => Throw e end.

#[export] Instance result_eq_dec `{EqDecision A} : EqDecision (result A).
Proof. solve_decision. Defined.

(** Did the computation return? *)
Definition is_ok {A} (m : result A) : bool :=
  match m with Ok _ => true | Throw _ => false end.

(** Runs a list of effectful steps left to right, stopping at the first throw:
    the meaning of [for ... of] with an [await]ed body, and of
    [BluebirdPromise.map(..., { concurrency: 1 })]. *)
Fixpoint foldM {A S} (f : S -> A -> result S) (s : S) (l : list A) : result S :=
  match l with
  | [] => Ok s
  | x :: l => s' ← f s x; foldM f s' l
  end.

Fixpoint mapM_result {A B} (f : A -> result B) (l : list A) : result (list B) :=
  match l with
  | [] => Ok []
  | x :: l => y ← f x; ys ← mapM_result f l; Ok (y :: ys)
  end.

(** ** Hint databases and tactics *)
Create HintDb js.
Create Rewrite HintDb js.
Create HintDb js_bounds.

Lemma bind_ok {A B} (a : A) (f : A -> result B) : (Ok a ≫= f) = f a.
Proof. done. Qed.

Lemma bind_throw {A B} e (f : A -> result B) : (Throw e ≫= f) = Throw e.
Proof. done. Qed.

Lemma bind_Ok_inv {A B} (m : result A) (f : A -> result B) b :
  (m ≫= f) = Ok b -> exists a, m = Ok a /\ f a = Ok b.
Proof. destruct m; simpl; [eauto | discriminate]. Qed.

Lemma bind_assoc {A B C} (m : result A) (f : A -> result B) (g : B -> result C) :
  ((m ≫= f) ≫= g) = (m ≫= fun a => f a ≫= g).
Proof. by destruct m. Qed.

#[export] Hint Rewrite @bind_ok @bind_throw : js.

(** [inv_ok H] peels every bind of a computation known to return. *)
Ltac inv_ok H :=
  repeat match type of H with
  | (_ ≫= _) = Ok _ =>
      let a := fresh "a" in let Ha := fresh "Ha" in
      apply bind_Ok_inv in H; destruct H as (a & Ha & H)
  end.

(** ** State and errors

    Code that changes a state next to returning or throwing: an effect that
    happened before a throw has happened, so the state is returned next to the
    outcome. *)
Definition eff (S A : Type) : Type := S -> result A * S.

#[export] Instance eff_ret {S} : MRet (eff S) := fun A a s => (Ok a, s).
#[export] Instance eff_bind {S} : MBind (eff S) := fun A B f m s =>
  match m s with
  | (Ok a, s') => f a s'
  | (Throw e, s') => (Throw e, s')
  end.

Section Effects.
Context {S : Type}.

Definition ret {A} (a : A) : eff S A := fun s => (Ok a, s).
Definition throw {A} (e : string) : eff S A := fun s => (Throw e, s).
Definition lift {A} (r : result A) : eff S A := fun s => (r, s).
Definition gets {A} (f : S -> A) : eff S A := fun s => (Ok (f s), s).
Definition modify (f : S -> S) : eff S unit := fun s => (Ok tt, f s).

(** A call that never returns ends with the outcome [Throw never_returns],
    which no [catch] sees. *)
Definition never_returns : string := "(never returns)".

(** [try { m } catch (err) { h(err.message) }] *)
Definition try_catch {A} (m : eff S A) (h : string -> eff S A) : eff S A := fun s =>
  match m s with
  | (Ok a, s') => (Ok a, s')
  | (Throw e, s') => if String.eqb e never_returns then (Throw e, s') else h e s'
  end.

(** An error in the handler of an event is not caught, and the promise it
    should settle never is. *)
Definition uncaught {A} (m : eff S A) : eff S A := fun s =>
  match m s with (Ok a, s') => (Ok a, s') | (Throw _, s') => (Throw never_returns, s') end.

(** [for (const x of l) await f(x)] *)
Fixpoint for_each {A} (l : list A) (f : A -> eff S unit) : eff S unit :=
  match l with
  | [] => ret tt
  | x :: l => f x ≫= fun _ => for_each l f
  end.

Fixpoint map_each {A B} (l : list A) (f : A -> eff S B) : eff S (list B) :=
  match l with
  | [] => ret []
  | x :: l => y ← f x; ys ← map_each l f; ret (y :: ys)
  end.

Lemma M_bind_ok {A B} (m : eff S A) (f : A -> eff S B) s a s' :
  m s = (Ok a, s') -> (m ≫= f) s = f a s'.
Proof. intros H. unfold mbind, eff_bind. by rewrite H. Qed.

Lemma M_bind_throw {A B} (m : eff S A) (f : A -> eff S B) s e s' :
  m s = (Throw e, s') -> (m ≫= f) s = (Throw e, s').
Proof. intros H. unfold mbind, eff_bind. by rewrite H. Qed.

Lemma M_bind_inv {A B} (m : eff S A) (f : A -> eff S B) s b s' :
  (m ≫= f) s = (Ok b, s') -> exists a s1, m s = (Ok a, s1) /\ f a s1 = (Ok b, s').
Proof. unfold mbind, eff_bind. destruct (m s) as [[a|e] s1]; [eauto|discriminate]. Qed.

Lemma ret_inv {A} (a b : A) s s' : ret a s = (Ok b, s') -> a = b /\ s' = s.
Proof. unfold ret. by intros [= -> ->]. Qed.

Lemma lift_inv {A} (r : result A) s a s' : lift r s = (Ok a, s') -> r = Ok a /\ s' = s.
Proof. unfold lift. by intros [= -> ->]. Qed.

Lemma lift_ok {A B} (r : result A) (f : A -> eff S B) s a : r = Ok a -> (lift r ≫= f) s = f a s.
Proof. by intros ->. Qed.

(** A computation that, returning or throwing, only takes steps of a preorder. *)
Section Steps.
Context (R : S -> S -> Prop) `{!PreOrder R}.

Definition steps {A} (m : eff S A) : Prop := forall s, R s (snd (m s)).

Lemma steps_bind {A B} (m : eff S A) (f : A -> eff S B) : steps m -> (forall a, steps (f a)) -> steps (m ≫= f).
Proof.
  intros Hm Hf s. unfold mbind, eff_bind. specialize (Hm s). destruct (m s) as [[a|e] s1]; [|done].
  etransitivity; [exact Hm|apply Hf].
Qed.

Lemma steps_pure {A} (f : S -> result A) : steps (fun s => (f s, s)).
Proof. intros s. reflexivity. Qed.

Lemma steps_if {A} (b : bool) (m1 m2 : eff S A) : steps m1 -> steps m2 -> steps (if b then m1 else m2).
Proof. by destruct b. Qed.

Lemma steps_for_each {A} (l : list A) (f : A -> eff S unit) : (forall a, steps (f a)) -> steps (for_each l f).
Proof. intros Hf. induction l as [|x l IH]; simpl; [intros s; reflexivity|]. by apply steps_bind. Qed.

Lemma steps_map_each {A B} (l : list A) (f : A -> eff S B) : (forall a, steps (f a)) -> steps (map_each l f).
Proof.
  intros Hf. induction l as [|x l IH]; simpl; [intros s; reflexivity|]. apply steps_bind; [done|]. intros y.
  apply steps_bind; [done|]. intros ys s. reflexivity.
Qed.

Lemma steps_try {A} (m : eff S A) h : steps m -> (forall e, steps (h e)) -> steps (try_catch m h).
Proof.
  intros Hm Hh s. unfold try_catch. specialize (Hm s). destruct (m s) as [[a|e] s1]; [done|].
  destruct (String.eqb e never_returns); [done|]. etransitivity; [exact Hm|apply Hh].
Qed.
End Steps.

End Effects.

(** [inv_M H] peels every bind of a stateful computation known to return. *)
Ltac inv_M H :=
  repeat match type of H with
  | (_ ≫= _) _ = (Ok _, _) =>
      let a := fresh "a" in let w := fresh "w" in let Ha := fresh "Ha" in
      apply M_bind_inv in H; destruct H as (a & w & Ha & H)
  end.

(** Case analysis on the boolean comparisons of [Z] in the goal or context. *)
Ltac zbool :=
  repeat match goal with
  | H : context [Z.eqb ?a ?b] |- _ => destruct (Z.eqb_spec a b); try discriminate
  | H : context [Z.ltb ?a ?b] |- _ => destruct (Z.ltb_spec a b); try discriminate
  | H : context [Z.leb ?a ?b] |- _ => destruct (Z.leb_spec a b); try discriminate
  | |- context [Z.eqb ?a ?b] => destruct (Z.eqb_spec a b)
  | |- context [Z.ltb ?a ?b] => destruct (Z.ltb_spec a b)
  | |- context [Z.leb ?a ?b] => destruct (Z.leb_spec a b)
  end.

Lemma foldM_app {A S} (f : S -> A -> result S) s l1 l2 :
  foldM f s (l1 ++ l2) = (foldM f s l1 ≫= fun s' => foldM f s' l2).
Proof.
  revert s; induction l1 as [|x l1 IH]; intros s; simpl; [done|].
  destruct (f s x); simpl; [apply IH | done].
Qed.

(** An invariant kept by every step is kept by the loop. *)
Lemma foldM_inv {A S} (P : S -> Prop) (f : S -> A -> result S) s l s' :
  (forall s x s', x ∈ l -> P s -> f s x = Ok s' -> P s') ->
  P s -> foldM f s l = Ok s' -> P s'.
Proof.
  revert s; induction l as [|x l IH]; simpl; intros s Hf Hs H.
  - by simplify_eq.
  - inv_ok H. eapply IH; [|eapply Hf; [left|..]; done|done].
    intros; eapply Hf; [by right|done..].
Qed.

Lemma mapM_result_elem {A B} (f : A -> result B) l l' y :
  mapM_result f l = Ok l' -> y ∈ l' -> exists x, x ∈ l /\ f x = Ok y.
Proof.
  revert l'; induction l as [|x l IH]; simpl; intros l' H.
  - injection H as <-. by intros ?%not_elem_of_nil.
  - inv_ok H. injection H as <-. intros [->|Hy]%elem_of_cons.
    + exists x. split; [by left|done].
    + destruct (IH _ Ha0 Hy) as (z & Hz & E). exists z. split; [by right|done].
Qed.

Lemma mapM_result_fmap {A B C} (f : B -> result C) (g : A -> B) (h : A -> C) l :
  (forall x, x ∈ l -> f (g x) = Ok (h x)) -> mapM_result f (g <$> l) = Ok (h <$> l).
Proof.
  induction l as [|x l IH]; intros Hf; [done|]. rewrite !fmap_cons. cbn [mapM_result].
  rewrite Hf by (by left). cbn [mbind result_bind]. rewrite IH; [done|].
  intros y Hy. apply Hf. by right.
Qed.

(** ** Filters *)
Lemma filter_all {A} (P : A -> Prop) `{forall x, Decision (P x)} (l : list A) : (forall x, x ∈ l -> P x) -> filter P l = l.
Proof.
  induction l as [|x l IH]; intros Hl; [done|]. rewrite filter_cons_True by (apply Hl; by left).
  f_equal. apply IH. intros y Hy. apply Hl. by right.
Qed.

Lemma filter_none {A} (P : A -> Prop) `{forall x, Decision (P x)} (l : list A) : (forall x, x ∈ l -> ~ P x) -> filter P l = [].
Proof.
  induction l as [|x l IH]; intros Hl; [done|]. rewrite filter_cons_False by (apply Hl; by left).
  apply IH. intros y Hy. apply Hl. by right.
Qed.

Lemma filter_same {A} (P Q : A -> Prop) `{forall x, Decision (P x)} `{forall x, Decision (Q x)} (l : list A) :
  (forall x, x ∈ l -> P x <-> Q x) -> filter P l = filter Q l.
Proof.
  induction l as [|x l IH]; intros Hl; [done|].
  assert (filter P l = filter Q l) as El by (apply IH; intros y Hy; apply Hl; by right).
  rewrite !filter_cons, El. destruct (Hl x) as [H1 H2]; [by left|].
  destruct (decide (P x)), (decide (Q x)); tauto.
Qed.

(** ** Texts *)
Lemma string_app_assoc (a b c : string) : (a +:+ b) +:+ c = a +:+ b +:+ c.
Proof. induction a as [|x a IH]; [done|]. exact (f_equal (String x) IH). Qed.

Lemma string_app_nil_r (s : string) : s +:+ "" = s.
Proof. induction s as [|c s IH]; [done|]. change (String c s +:+ "") with (String c (s +:+ "")). by rewrite IH. Qed.

Lemma string_length_app (a b : string) : String.length (a +:+ b) = (String.length a + String.length b)%nat.
Proof. induction a as [|x a IH]; [done|]. exact (f_equal S IH). Qed.

Lemma substring_all (s : string) : String.substring 0 (String.length s) s = s.
Proof. induction s as [|x s IH]; [done|]. exact (f_equal (String x) IH). Qed.

Lemma substring_skip (a b : string) n k : String.length a = n -> String.substring n k (a +:+ b) = String.substring 0 k b.
Proof. intros <-. induction a as [|x a IH]; [done|]. exact IH. Qed.

Lemma substring_prefix (a b : string) n : String.length a = n -> String.substring 0 n (a +:+ b) = a.
Proof.
  intros <-. induction a as [|x a IH]; [by destruct b|]. exact (f_equal (String x) IH).
Qed.

(** ** Integers *)
Lemma shiftr_div2n a n : 0 <= n -> Z.shiftr a n = a / 2 ^ n.
Proof. intros. by apply Z.shiftr_div_pow2. Qed.

Lemma div_le_mono_pos a b c : 0 < c -> a <= b -> a / c <= b / c.
Proof. intros. by apply Z.div_le_mono. Qed.

Lemma mul_div_le_r a c : 0 < c -> (a / c) * c <= a.
Proof. intros. pose proof (Z.mul_div_le a c). lia. Qed.

Lemma mul_div_gt_r a c : 0 < c -> a < (a / c) * c + c.
Proof. intros. pose proof (Z.mul_succ_div_gt a c). lia. Qed.

(** A function that increases at every step of an interval is strictly
    increasing on it. *)
Lemma strict_mono_steps (f : Z -> Z) lo hi :
  (forall t, lo <= t -> t + 1 <= hi -> f t < f (t + 1)) ->
  forall t u, lo <= t -> t < u -> u <= hi -> f t < f u.
Proof.
  intros Hs t u Hlo Htu Hhi.
  assert (forall d, 0 <= d -> t + 1 + d <= hi -> f t < f (t + 1 + d)) as H.
  { apply (natlike_ind (fun d => t + 1 + d <= hi -> f t < f (t + 1 + d))).
    - rewrite Z.add_0_r. auto.
    - intros d Hd IH Hle. replace (t + 1 + Z.succ d) with (t + 1 + d + 1) in * by lia.
      specialize (Hs (t + 1 + d)). lia. }
  replace u with (t + 1 + (u - t - 1)) by lia. apply H; lia.
Qed.
