(* ===== verification/IntBase.v ===== *)
(** * BigInt wrapper classes of the DEX library

    Models [dexLib/int]: the [BigIntBase] class with its fixed-width
    subclasses [Uint8] ... [Uint256], [Int8] ... [Int256] and the unbounded
    [Uint].  A JavaScript [BigInt] is a [Z]; a numeric literal or numeric
    string argument is the integer it denotes.  An object is its class
    (signedness and bit size, from which [setup] derives [max] and [min]) and
    its [_value].  Every operation that builds an object goes through the
    constructor, which throws on a value outside the class's range. *)
From S2P Require Import Prelude.
Local Open Scope Z_scope.

(** ** limit.js *)
Definition maxUnsigned : list (Z * Z) :=
  [(8, 255);
   (16, 65535);
   (24, 16777215);
   (32, 4294967295);
   (40, 1099511627775);
   (48, 281474976710655);
   (56, 72057594037927935);
   (64, 18446744073709551615);
   (72, 4722366482869645213695);
   (80, 1208925819614629174706175);
   (88, 309485009821345068724781055);
   (96, 79228162514264337593543950335);
   (104, 20282409603651670423947251286015);
   (112, 5192296858534827628530496329220095);
   (120, 1329227995784915872903807060280344575);
   (128, 340282366920938463463374607431768211455);
   (136, 87112285931760246646623899502532662132735);
   (144, 22300745198530623141535718272648361505980415);
   (152, 5708990770823839524233143877797980545530986495);
   (160, 1461501637330902918203684832716283019655932542975);
   (168, 374144419156711147060143317175368453031918731001855);
   (176, 95780971304118053647396689196894323976171195136475135);
   (184, 24519928653854221733733552434404946937899825954937634815);
   (192, 6277101735386680763835789423207666416102355444464034512895);
   (200, 1606938044258990275541962092341162602522202993782792835301375);
   (208, 411376139330301510538742295639337626245683966408394965837152255);
   (216, 105312291668557186697918027683670432318895095400549111254310977535);
   (224, 26959946667150639794667015087019630673637144422540572481103610249215);
   (232, 6901746346790563787434755862277025452451108972170386555162524223799295);
   (240, 1766847064778384329583297500742918515827483896875618958121606201292619775);
   (248, 452312848583266388373324160190187140051835877600158453279131187530910662655);
   (256, 115792089237316195423570985008687907853269984665640564039457584007913129639935)].

Definition maxSigned : list (Z * Z) :=
  [(8, 127);
   (16, 32767);
   (24, 8388607);
   (32, 2147483647);
   (40, 549755813887);
   (48, 140737488355327);
   (56, 36028797018963967);
   (64, 9223372036854775807);
   (72, 2361183241434822606847);
   (80, 604462909807314587353087);
   (88, 154742504910672534362390527);
   (96, 39614081257132168796771975167);
   (104, 10141204801825835211973625643007);
   (112, 2596148429267413814265248164610047);
   (120, 664613997892457936451903530140172287);
   (128, 170141183460469231731687303715884105727);
   (136, 43556142965880123323311949751266331066367);
   (144, 11150372599265311570767859136324180752990207);
   (152, 2854495385411919762116571938898990272765493247);
   (160, 730750818665451459101842416358141509827966271487);
   (168, 187072209578355573530071658587684226515959365500927);
   (176, 47890485652059026823698344598447161988085597568237567);
   (184, 12259964326927110866866776217202473468949912977468817407);
   (192, 3138550867693340381917894711603833208051177722232017256447);
   (200, 803469022129495137770981046170581301261101496891396417650687);
   (208, 205688069665150755269371147819668813122841983204197482918576127);
   (216, 52656145834278593348959013841835216159447547700274555627155488767);
   (224, 13479973333575319897333507543509815336818572211270286240551805124607);
   (232, 3450873173395281893717377931138512726225554486085193277581262111899647);
   (240, 883423532389192164791648750371459257913741948437809479060803100646309887);
   (248, 226156424291633194186662080095093570025917938800079226639565593765455331327);
   (256, 57896044618658097711785492504343953926634992332820282019728792003956564819967)].

Definition minSigned : list (Z * Z) :=
  [(8, -128);
   (16, -32768);
   (24, -8388608);
   (32, -2147483648);
   (40, -549755813888);
   (48, -140737488355328);
   (56, -36028797018963968);
   (64, -9223372036854775808);
   (72, -2361183241434822606848);
   (80, -604462909807314587353088);
   (88, -154742504910672534362390528);
   (96, -39614081257132168796771975168);
   (104, -10141204801825835211973625643008);
   (112, -2596148429267413814265248164610048);
   (120, -664613997892457936451903530140172288);
   (128, -170141183460469231731687303715884105728);
   (136, -43556142965880123323311949751266331066368);
   (144, -11150372599265311570767859136324180752990208);
   (152, -2854495385411919762116571938898990272765493248);
   (160, -730750818665451459101842416358141509827966271488);
   (168, -187072209578355573530071658587684226515959365500928);
   (176, -47890485652059026823698344598447161988085597568237568);
   (184, -12259964326927110866866776217202473468949912977468817408);
   (192, -3138550867693340381917894711603833208051177722232017256448);
   (200, -803469022129495137770981046170581301261101496891396417650688);
   (208, -205688069665150755269371147819668813122841983204197482918576128);
   (216, -52656145834278593348959013841835216159447547700274555627155488768);
   (224, -13479973333575319897333507543509815336818572211270286240551805124608);
   (232, -3450873173395281893717377931138512726225554486085193277581262111899648);
   (240, -883423532389192164791648750371459257913741948437809479060803100646309888);
   (248, -226156424291633194186662080095093570025917938800079226639565593765455331328);
   (256, -57896044618658097711785492504343953926634992332820282019728792003956564819968)].

(** ** base/index.js: objects, limits and construction *)

(** A class of the library: what its [from] passes to [BigIntFactory]. *)
Record IntClass := mkClass { signed : bool; bitSize : Z }.

#[export] Instance IntClass_eq_dec : EqDecision IntClass.
Proof. solve_decision. Defined.

(** A frozen object of such a class. *)
Record BigIntBase := mkBigInt { class_of : IntClass; _value : Z }.

#[export] Instance BigIntBase_eq_dec : EqDecision BigIntBase.
Proof. solve_decision. Defined.

(** The [max]/[min] properties: the empty string ([BEmpty]), a decimal string
    ([BVal]), or [undefined] when the table has no entry for the size. *)
Inductive bound := BEmpty | BVal (z : Z) | BUndef.

Fixpoint lookup_limit (tbl : list (Z * Z)) (bits : Z) : bound :=
  match tbl with
  | [] => BUndef
  | (b, v) :: tbl => if b =? bits then BVal v else lookup_limit tbl bits
  end.

(** [setup(signed, bitSize)]: the class name and the limits. *)
Record limits := mkLimits { lname : string; lmax : bound; lmin : bound }.

Definition setup (c : IntClass) : limits :=
  if 0 <? bitSize c then
    mkLimits ((if signed c then "" else "u") +:+ "int" +:+ pretty (bitSize c))
      (if signed c then lookup_limit maxSigned (bitSize c)
       else lookup_limit maxUnsigned (bitSize c))
      (if signed c then lookup_limit minSigned (bitSize c) else BVal 0)
  else mkLimits "" BEmpty BEmpty.

(** [BigInt(this.max)], for a bound that is not the empty string. *)
Definition bound_bigint (b : bound) : result Z :=
  match b with
  | BVal z => Ok z
  | BEmpty => Ok 0
  | BUndef => Throw "Cannot convert undefined to a BigInt"
  end.

Definition is_empty_bound (b : bound) : bool :=
  match b with BEmpty => true | _ => false end.

(** The constructor: the range checks against [max] and [min]. *)
Definition construct (c : IntClass) (value : Z) : result BigIntBase :=
  let l := setup c in
  over ← (if is_empty_bound (lmax l) then Ok false
          else m ← bound_bigint (lmax l); Ok (m <? value));
  if over : bool then
    m ← bound_bigint (lmax l);
    Throw ("value " +:+ pretty value +:+ " exceeds " +:+ lname l
             +:+ " maximum value of " +:+ pretty m)
  else
    under ← (if is_empty_bound (lmin l) then Ok false
             else m ← bound_bigint (lmin l); Ok (value <? m));
    if under : bool then
      m ← bound_bigint (lmin l);
      Throw ("value " +:+ pretty value +:+ " exceeds " +:+ lname l
               +:+ " minimum value of " +:+ pretty m)
    else Ok (mkBigInt c value).

(** An argument of [from] or of an operation: a number, string or BigInt
    ([Lit]), or an object of the library ([Obj]). *)
Inductive numlike := Lit (z : Z) | Obj (o : BigIntBase).

(** [BigInt(other.toString())] *)
Definition to_bigint (n : numlike) : Z :=
  match n with Lit z => z | Obj o => _value o end.

(** [BigIntFactory.bind(this)(value, signed, bitSize)] *)
Definition BigIntFactory (c : IntClass) (value : numlike) : result BigIntBase :=
  match value with
  | Obj o => if decide (class_of o = c) then Ok o else construct c (_value o)
  | Lit z => construct c z
  end.

(** ** The classes *)
Definition Uint : IntClass := mkClass false 0.
Definition Int8 : IntClass := mkClass true 8.
Definition Int16 : IntClass := mkClass true 16.
Definition Int24 : IntClass := mkClass true 24.
Definition Int56 : IntClass := mkClass true 56.
Definition Int128 : IntClass := mkClass true 128.
Definition Int256 : IntClass := mkClass true 256.
Definition Uint8 : IntClass := mkClass false 8.
Definition Uint16 : IntClass := mkClass false 16.
Definition Uint24 : IntClass := mkClass false 24.
Definition Uint32 : IntClass := mkClass false 32.
Definition Uint64 : IntClass := mkClass false 64.
Definition Uint80 : IntClass := mkClass false 80.
Definition Uint96 : IntClass := mkClass false 96.
Definition Uint128 : IntClass := mkClass false 128.
Definition Uint160 : IntClass := mkClass false 160.
Definition Uint176 : IntClass := mkClass false 176.
Definition Uint192 : IntClass := mkClass false 192.
Definition Uint256 : IntClass := mkClass false 256.

(** [hof(value)]: wraps a value into the range of the receiver's class. *)
Definition hof (c : IntClass) (value : Z) : result Z :=
  let l := setup c in
  if is_empty_bound (lmax l) || is_empty_bound (lmin l) then Ok value
  else
    mn ← bound_bigint (lmin l);
    mx ← bound_bigint (lmax l);
    if (value <? mn) || (mx <? value) then
      let range := mx - mn + 1 in
      Ok (Z.rem (Z.rem (value - mn) range + range) range + mn)
    else Ok value.

(** [this.toBigNumber(value)]: [from] of the receiver's own class. *)
Definition toBigNumber (c : IntClass) (value : Z) : result BigIntBase :=
  BigIntFactory c (Lit value).

(** ** Operations *)
Definition wrapping (a : BigIntBase) (v : Z) : result BigIntBase :=
  w ← hof (class_of a) v; toBigNumber (class_of a) w.

Definition abs (a : BigIntBase) : result BigIntBase :=
  if _value a <? 0 then toBigNumber (class_of a) (_value a * -1) else Ok a.

Definition add (a : BigIntBase) (o : numlike) := wrapping a (_value a + to_bigint o).
Definition sub (a : BigIntBase) (o : numlike) := wrapping a (_value a - to_bigint o).
Definition mul (a : BigIntBase) (o : numlike) := wrapping a (_value a * to_bigint o).

Definition div (a : BigIntBase) (other : numlike) : result BigIntBase :=
  let o := to_bigint other in
  if o =? 0 then Throw "div: division-by-zero" else wrapping a (Z.quot (_value a) o).

Definition mod_ (a : BigIntBase) (other : numlike) : result BigIntBase :=
  let v := to_bigint other in
  if v =? 0 then Throw "mod: division-by-zero"
  else wrapping a (Z.rem (Z.rem (_value a) v + v) v).

Definition pow (a : BigIntBase) (other : numlike) : result BigIntBase :=
  let v := to_bigint other in
  if v <? 0 then Throw "pow: negative-power" else wrapping a (_value a ^ v).

Definition and_ (a : BigIntBase) (o : numlike) := wrapping a (Z.land (_value a) (to_bigint o)).
Definition not_ (a : BigIntBase) := wrapping a (Z.lnot (_value a)).
Definition or_ (a : BigIntBase) (o : numlike) := wrapping a (Z.lor (_value a) (to_bigint o)).
Definition xor_ (a : BigIntBase) (o : numlike) := wrapping a (Z.lxor (_value a) (to_bigint o)).
Definition shl (a : BigIntBase) (o : numlike) := wrapping a (Z.shiftl (_value a) (to_bigint o)).
Definition shr (a : BigIntBase) (o : numlike) := wrapping a (Z.shiftr (_value a) (to_bigint o)).

Definition eq_ (a : BigIntBase) (o : numlike) : bool := _value a =? to_bigint o.
Definition neq_ (a : BigIntBase) (o : numlike) : bool := negb (_value a =? to_bigint o).
Definition lt_ (a : BigIntBase) (o : numlike) : bool := _value a <? to_bigint o.
Definition lte_ (a : BigIntBase) (o : numlike) : bool := _value a <=? to_bigint o.
Definition gt_ (a : BigIntBase) (o : numlike) : bool := to_bigint o <? _value a.
Definition gte_ (a : BigIntBase) (o : numlike) : bool := to_bigint o <=? _value a.
Definition isNegative (a : BigIntBase) : bool := _value a <? 0.
Definition isZero (a : BigIntBase) : bool := _value a =? 0.
Definition toBigInt (a : BigIntBase) : Z := _value a.

(** ** Specification: ranges and wrap-around *)

(** The sizes the limit tables cover. *)
Definition sized (c : IntClass) : Prop :=
  0 < bitSize c <= 256 /\ bitSize c mod 8 = 0.

Definition minZ (c : IntClass) : Z := if signed c then - 2 ^ (bitSize c - 1) else 0.
Definition maxZ (c : IntClass) : Z :=
  if signed c then 2 ^ (bitSize c - 1) - 1 else 2 ^ bitSize c - 1.

(** An unbounded class ([bitSize] 0) accepts every integer. *)
Definition in_range (c : IntClass) (z : Z) : Prop :=
  bitSize c = 0 \/ minZ c <= z <= maxZ c.

Definition valid (a : BigIntBase) : Prop := in_range (class_of a) (_value a).

(** Two's complement wrap-around at the width of the class. *)
Definition wrap (c : IntClass) (z : Z) : Z :=
  if bitSize c =? 0 then z else (z - minZ c) mod 2 ^ bitSize c + minZ c.

(** A class the library exports: unbounded, or of a size in the tables. *)
Definition wf_class (c : IntClass) : Prop := bitSize c = 0 \/ sized c.

(** The tables agree with the powers of two, for every size. *)
Definition limit_ok (c : IntClass) : bool :=
  match lmax (setup c), lmin (setup c) with
  | BVal mx, BVal mn => (mx =? maxZ c) && (mn =? minZ c)
  | _, _ => false
  end.

Lemma limit_tables_checked :
  forallb (fun n => limit_ok (mkClass true (8 * Z.of_nat n)) &&
                    limit_ok (mkClass false (8 * Z.of_nat n))) (seq 1 32) = true.
Proof. vm_compute. reflexivity. Qed.

Lemma limit_ok_sized c : sized c -> limit_ok c = true.
Proof.
  intros [Hb Hm]. pose proof limit_tables_checked as H.
  rewrite forallb_forall in H.
  specialize (H (Z.to_nat (bitSize c / 8))).
  assert (bitSize c = 8 * (bitSize c / 8)) as E
    by (pose proof (Z_div_mod_eq_full (bitSize c) 8); lia).
  rewrite Z2Nat.id in H by (apply Z.div_pos; lia). rewrite <- E in H.
  assert (In (Z.to_nat (bitSize c / 8)) (seq 1 32)) as Hin.
  { apply in_seq. pose proof (Z.div_le_mono (bitSize c) 256 8). 
    change (256 / 8) with 32 in *.
    assert (0 < bitSize c / 8) by lia. lia. }
  apply H, andb_prop in Hin as [H1 H2].
  destruct c as [[] b]; done.
Qed.

Lemma setup_sized c : sized c ->
  lmax (setup c) = BVal (maxZ c) /\ lmin (setup c) = BVal (minZ c).
Proof.
  intros Hs. pose proof (limit_ok_sized c Hs) as H. unfold limit_ok in H.
  destruct (lmax (setup c)), (lmin (setup c)); try discriminate.
  apply andb_prop in H as [?%Z.eqb_eq ?%Z.eqb_eq]. by subst.
Qed.

Lemma setup_unbounded c : bitSize c = 0 -> setup c = mkLimits "" BEmpty BEmpty.
Proof. intros H. unfold setup. by rewrite H. Qed.

Lemma range_width c : 0 < bitSize c -> maxZ c - minZ c + 1 = 2 ^ bitSize c.
Proof.
  intros Hb. unfold maxZ, minZ. destruct (signed c); [|lia].
  replace (bitSize c) with (Z.succ (bitSize c - 1)) at 3 by lia.
  rewrite Z.pow_succ_r by lia. lia.
Qed.

Lemma minZ_le_maxZ c : 0 < bitSize c -> minZ c <= 0 /\ 0 <= maxZ c.
Proof.
  intros Hb. unfold maxZ, minZ.
  assert (0 < 2 ^ (bitSize c - 1)) by (apply Z.pow_pos_nonneg; lia).
  assert (0 < 2 ^ bitSize c) by (apply Z.pow_pos_nonneg; lia).
  destruct (signed c); lia.
Qed.

Lemma rem_rem_mod a n : 0 < n -> Z.rem (Z.rem a n + n) n = a mod n.
Proof.
  intros Hn. pose proof (Z.rem_bound_abs a n ltac:(lia)) as Hb.
  rewrite Z.rem_mod_nonneg by lia.
  rewrite (Z.quot_rem' a n) at 2.
  rewrite <- Z.add_mod_idemp_r, Z_mod_same_full, Z.add_0_r by lia.
  rewrite (Z.mul_comm n), Z.add_comm, Z_mod_plus_full. done.
Qed.

Lemma wrap_in_range c z : wf_class c -> in_range c (wrap c z).
Proof.
  intros [H0|[Hb _]]; [by left|right]. unfold wrap.
  destruct (Z.eqb_spec (bitSize c) 0); [lia|].
  pose proof (range_width c ltac:(lia)).
  pose proof (Z.mod_pos_bound (z - minZ c) (2 ^ bitSize c)). lia.
Qed.

Lemma wrap_id c z : in_range c z -> wf_class c -> wrap c z = z.
Proof.
  intros Hr [H0|[Hb _]]; unfold wrap; destruct (Z.eqb_spec (bitSize c) 0); try lia.
  destruct Hr as [?|Hr]; [lia|]. pose proof (range_width c ltac:(lia)).
  rewrite Z.mod_small; lia.
Qed.

Lemma wrap_unsigned c z : signed c = false -> 0 < bitSize c -> wrap c z = z mod 2 ^ bitSize c.
Proof.
  intros Hs Hb. unfold wrap, minZ. rewrite Hs.
  destruct (Z.eqb_spec (bitSize c) 0); [lia|]. by rewrite Z.sub_0_r, Z.add_0_r.
Qed.

(** ** Functional behaviour *)
Lemma hof_wrap c z : wf_class c -> hof c z = Ok (wrap c z).
Proof.
  intros Hw. destruct (Z.eqb_spec (bitSize c) 0) as [H0|H0].
  - unfold hof, wrap. rewrite setup_unbounded by done. by rewrite H0.
  - destruct Hw as [?|Hs]; [done|]. pose proof Hs as [Hb _].
    pose proof (setup_sized c Hs) as [Emx Emn]. unfold hof. rewrite Emx, Emn. simpl.
    pose proof (range_width c ltac:(lia)) as HR.
    destruct ((z <? minZ c) || (maxZ c <? z)) eqn:E.
    + rewrite rem_rem_mod by lia. unfold wrap. rewrite HR.
      destruct (Z.eqb_spec (bitSize c) 0); [lia|done].
    + rewrite wrap_id; [done| |by right]. right. zbool; simpl in *; try discriminate; lia.
Qed.

Lemma construct_in_range c z : wf_class c -> in_range c z -> construct c z = Ok (mkBigInt c z).
Proof.
  intros Hw Hr. unfold construct. destruct (Z.eqb_spec (bitSize c) 0) as [H0|H0].
  - by rewrite setup_unbounded.
  - destruct Hw as [?|Hs]; [done|]. destruct Hr as [?|Hr]; [done|].
    pose proof (setup_sized c Hs) as [-> ->]. simpl. zbool; try lia; done.
Qed.

Lemma construct_out_of_range c z :
  wf_class c -> ~ in_range c z -> exists e, construct c z = Throw e.
Proof.
  intros Hw Hr. unfold construct. destruct (Z.eqb_spec (bitSize c) 0) as [H0|H0].
  - destruct Hr. by left.
  - destruct Hw as [?|Hs]; [done|].
    pose proof (setup_sized c Hs) as [-> ->]. simpl.
    zbool; simpl; zbool; simpl; eauto. destruct Hr. right. lia.
Qed.

Lemma wrapping_ok a v :
  wf_class (class_of a) -> wrapping a v = Ok (mkBigInt (class_of a) (wrap (class_of a) v)).
Proof.
  intros Hw. unfold wrapping. rewrite hof_wrap by done. simpl.
  apply construct_in_range; [done|]. by apply wrap_in_range.
Qed.

Lemma rem_rem_mod_neg a n : n < 0 -> Z.rem (Z.rem a n + n) n = a mod n.
Proof.
  intros Hn. remember (- n) as m. remember (- a) as b.
  assert (n = - m) as -> by lia. assert (a = - b) as -> by lia.
  rewrite Z.rem_opp_opp by lia. rewrite <- Z.opp_add_distr, Z.rem_opp_opp by lia.
  rewrite rem_rem_mod by lia. by rewrite Z.mod_opp_opp by lia.
Qed.

Lemma js_mod_spec a n : n <> 0 -> Z.rem (Z.rem a n + n) n = a mod n.
Proof.
  intros. destruct (Z.lt_total n 0) as [?|[?|?]]; [|lia|].
  - by apply rem_rem_mod_neg.
  - by apply rem_rem_mod.
Qed.

(** The two-operand methods, by name, and the integer each one computes
    before wrapping ([None] where the method throws). *)
Inductive method := MAdd | MSub | MMul | MDiv | MMod | MPow | MAnd | MOr | MXor | MShl | MShr.

Definition call (m : method) : BigIntBase -> numlike -> result BigIntBase :=
  match m with
  | MAdd => add | MSub => sub | MMul => mul | MDiv => div | MMod => mod_ | MPow => pow
  | MAnd => and_ | MOr => or_ | MXor => xor_ | MShl => shl | MShr => shr
  end.

Definition exact (m : method) (x y : Z) : option Z :=
  match m with
  | MAdd => Some (x + y) | MSub => Some (x - y) | MMul => Some (x * y)
  | MDiv => if y =? 0 then None else Some (Z.quot x y)
  | MMod => if y =? 0 then None else Some (x mod y)
  | MPow => if y <? 0 then None else Some (x ^ y)
  | MAnd => Some (Z.land x y) | MOr => Some (Z.lor x y) | MXor => Some (Z.lxor x y)
  | MShl => Some (Z.shiftl x y) | MShr => Some (Z.shiftr x y)
  end.

Lemma call_exact m a o : wf_class (class_of a) ->
  match exact m (_value a) (to_bigint o) with
  | Some v => call m a o = Ok (mkBigInt (class_of a) (wrap (class_of a) v))
  | None => exists e, call m a o = Throw e
  end.
Proof.
  intros Hw.
  destruct m; cbn -[wrapping Z.pow Z.quot Z.modulo];
    try (apply wrapping_ok; done); unfold div, mod_, pow; zbool;
    try (eexists; reflexivity); rewrite ?js_mod_spec by done; by apply wrapping_ok.
Qed.

(** Every object that code outside the library can obtain: the result of
    [from], of a method, of [abs] or of [not] on such objects. *)
Inductive obtainable : BigIntBase -> Prop :=
| obt_from c v a :
    wf_class c -> (forall o, v = Obj o -> obtainable o) -> BigIntFactory c v = Ok a ->
    obtainable a
| obt_call m a o b : obtainable a -> call m a o = Ok b -> obtainable b
| obt_abs a b : obtainable a -> abs a = Ok b -> obtainable b
| obt_not a b : obtainable a -> not_ a = Ok b -> obtainable b.

Lemma construct_valid c z a :
  wf_class c -> construct c z = Ok a -> class_of a = c /\ valid a.
Proof.
  intros Hw H.
  assert (in_range c z \/ ~ in_range c z) as [Hr|Hr]
    by (unfold in_range; lia).
  - rewrite construct_in_range in H by done. by simplify_eq.
  - destruct (construct_out_of_range c z Hw Hr) as [e E]. congruence.
Qed.

Lemma factory_valid c v a :
  wf_class c -> (forall o, v = Obj o -> valid o) -> BigIntFactory c v = Ok a ->
  class_of a = c /\ valid a.
Proof.
  intros Hw Hv H. destruct v as [z|o]; simpl in H; [by apply construct_valid in H|].
  case_decide; [simplify_eq; eauto|by apply construct_valid in H].
Qed.

Lemma call_valid m a o b :
  wf_class (class_of a) -> call m a o = Ok b -> class_of b = class_of a /\ valid b.
Proof.
  intros Hw H. pose proof (call_exact m a o Hw) as Hc.
  destruct (exact m (_value a) (to_bigint o)).
  - rewrite Hc in H. simplify_eq. split; [done|]. by apply wrap_in_range.
  - destruct Hc as [e E]. congruence.
Qed.

Lemma abs_valid a b :
  wf_class (class_of a) -> valid a -> abs a = Ok b -> class_of b = class_of a /\ valid b.
Proof.
  unfold abs. intros Hw Hv H. destruct (_value a <? 0); [|by simplify_eq].
  by apply construct_valid in H.
Qed.

(** [C9] Type invariant of the integer library: every object that can be
    obtained through [from] and the arithmetic, bitwise and shift methods of
    the exported classes belongs to a well-formed class and its value lies in
    the range of that class ([0 .. 2^n-1] or [-2^(n-1) .. 2^(n-1)-1]). *)
Theorem obtainable_valid a : obtainable a -> wf_class (class_of a) /\ valid a.
Proof.
  induction 1 as [c v a Hw _ IH Hf|m a o b _ [Hw Hv] Hc|a b _ [Hw Hv] Ha|a b _ [Hw Hv] Hn].
  - apply factory_valid in Hf as [-> ?]; [done|done|]. intros o ->. by apply IH.
  - apply call_valid in Hc as [-> ?]; done.
  - apply abs_valid in Ha as [-> ?]; done.
  - unfold not_ in Hn. rewrite wrapping_ok in Hn by done. simplify_eq.
    split; [done|]. by apply wrap_in_range.
Qed.

Lemma obtainable_valid_witness :
  obtainable (mkBigInt Uint8 44) /\ wf_class Uint8 /\ valid (mkBigInt Uint8 44).
Proof.
  assert (obtainable (mkBigInt Uint8 44)) as H.
  { apply (obt_call MAdd (mkBigInt Uint8 200) (Lit 100)); [|reflexivity].
    apply (obt_from Uint8 (Lit 200)); [right; split; [simpl; lia|reflexivity]|done|reflexivity]. }
  split; [exact H|]. exact (obtainable_valid (mkBigInt Uint8 44) H).
Defined.

(** [C10] Functional behaviour of the two-operand methods: on an object of an
    exported class the method returns an object of the same class whose value
    is the exact integer result wrapped modulo [2^n] into the class's range;
    it throws exactly on a zero divisor ([div], [mod]) or a negative exponent
    ([pow]).  [div] truncates, [mod] is the Euclidean-floor remainder. *)
Theorem methods_spec m a o :
  wf_class (class_of a) ->
  (exists v, exact m (_value a) (to_bigint o) = Some v /\
     call m a o = Ok (mkBigInt (class_of a) (wrap (class_of a) v)) /\
     (0 < bitSize (class_of a) ->
        exists k, wrap (class_of a) v = v + k * 2 ^ bitSize (class_of a)) /\
     (in_range (class_of a) v -> wrap (class_of a) v = v)) \/
  (exact m (_value a) (to_bigint o) = None /\ exists e, call m a o = Throw e).
Proof.
  intros Hw. pose proof (call_exact m a o Hw) as Hc.
  destruct (exact m (_value a) (to_bigint o)) as [v|]; [left|by right].
  exists v. split_and!; [done|done| |intros; by apply wrap_id].
  intros Hb. exists (- ((v - minZ (class_of a)) / 2 ^ bitSize (class_of a))).
  unfold wrap. destruct (Z.eqb_spec (bitSize (class_of a)) 0); [lia|].
  pose proof (Z_div_mod_eq_full (v - minZ (class_of a)) (2 ^ bitSize (class_of a))). lia.
Qed.

Lemma methods_spec_witness :
  wf_class (class_of (mkBigInt Uint8 200)) /\
  call MAdd (mkBigInt Uint8 200) (Lit 100) = Ok (mkBigInt Uint8 44).
Proof.
  assert (wf_class (class_of (mkBigInt Uint8 200))) as Hw
    by (right; split; [simpl; lia|reflexivity]).
  split; [exact Hw|].
  destruct (methods_spec MAdd (mkBigInt Uint8 200) (Lit 100) Hw)
    as [(v & Hv & -> & _)|[H _]]; [|discriminate].
  injection Hv as <-. reflexivity.
Defined.

(** ** Rewriting facts for clients *)
Lemma wf_Uint : wf_class Uint. Proof. by left. Qed.
Lemma wf_Uint128 : wf_class Uint128. Proof. right; split; [simpl; lia|done]. Qed.
Lemma wf_Uint160 : wf_class Uint160. Proof. right; split; [simpl; lia|done]. Qed.
Lemma wf_Uint256 : wf_class Uint256. Proof. right; split; [simpl; lia|done]. Qed.
Lemma wf_Int24 : wf_class Int24. Proof. right; split; [simpl; lia|done]. Qed.
Lemma wf_Int256 : wf_class Int256. Proof. right; split; [simpl; lia|done]. Qed.
#[export] Hint Resolve wf_Uint wf_Uint128 wf_Uint160 wf_Uint256 wf_Int24 wf_Int256 : js.

Lemma factory_lit c z : wf_class c -> in_range c z ->
  BigIntFactory c (Lit z) = Ok (mkBigInt c z).
Proof. intros. by apply construct_in_range. Qed.

Lemma factory_obj c o : wf_class c -> in_range c (_value o) ->
  BigIntFactory c (Obj o) = Ok (mkBigInt c (_value o)).
Proof.
  intros Hw Hr. simpl. case_decide as E; [|by apply construct_in_range].
  destruct o. simpl in *. by subst.
Qed.

(** A wrapped operation whose exact result is already in range is exact. *)
Lemma wrapping_exact c x v : wf_class c -> in_range c v ->
  wrapping (mkBigInt c x) v = Ok (mkBigInt c v).
Proof. intros Hw Hr. rewrite wrapping_ok by done. simpl. by rewrite wrap_id. Qed.

Lemma in_range_U c z : signed c = false -> 0 <= z < 2 ^ bitSize c -> in_range c z.
Proof. intros Hs Hz. right. unfold minZ, maxZ. rewrite Hs. lia. Qed.

Lemma in_range_U_inv c z :
  signed c = false -> bitSize c <> 0 -> in_range c z -> 0 <= z < 2 ^ bitSize c.
Proof. intros Hs Hb [?|Hz]; [done|]. unfold minZ, maxZ in Hz. rewrite Hs in Hz. lia. Qed.

Lemma in_range_Uint z : in_range Uint z.
Proof. by left. Qed.

(** Discharges [in_range c v] for an unsigned class [c] and linear bounds. *)
Ltac in_range_tac :=
  first [ apply in_range_Uint
        | apply in_range_U; [reflexivity | cbn [bitSize Uint128 Uint160 Uint256 _value]; lia ] ].

(** The static [MAX] of a class. *)
Definition MAX (c : IntClass) : Z :=
  match lookup_limit (if signed c then maxSigned else maxUnsigned) (bitSize c) with
  | BVal z => z | _ => 0
  end.
