(* ===== verification/FullMath.v ===== *)
(** * dexLib/core: fixed-point constants and full-precision multiply-divide

    Amounts, ratios and liquidities travel between these functions as decimal
    strings; here they are the integers the strings denote. *)
From S2P Require Import Prelude IntBase.
Local Open Scope Z_scope.

Definition Q128 : Z := 0x100000000000000000000000000000000.
Definition RESOLUTION : Z := 96.
Definition Q96 : Z := 0x1000000000000000000000000.

Definition mulDiv (a b denominator : Z) : result Z :=
  if denominator =? 0 then Throw "Denominator must be greater than zero"
  else
    a1 ← BigIntFactory Uint (Lit a);
    ab1 ← mul a1 (Lit b);
    q1 ← div ab1 (Lit denominator);
    if gt_ q1 (Lit (MAX Uint256)) then Throw "overflow"
    else if (a =? 0) || (b =? 0) then Ok 0
    else
      a2 ← BigIntFactory Uint (Lit a);
      ab2 ← mul a2 (Lit b);
      q2 ← div ab2 (Lit denominator);
      Ok (_value q2).

Definition mulDivRoundingUp (a b denominator : Z) : result Z :=
  m ← mulDiv a b denominator;
  res ← BigIntFactory Uint256 (Lit m);
  a1 ← BigIntFactory Uint (Lit a);
  ab ← mul a1 (Lit b);
  rest ← mod_ ab (Lit denominator);
  if gt_ rest (Lit 0) then
    if gte_ res (Lit (MAX Uint256))
    then Throw "Result exceeds the maximum value for uint256"
    else res' ← add res (Lit 1); Ok (_value res')
  else Ok (_value res).

(** ** Properties *)
Lemma MAX_Uint256 : MAX Uint256 = 2 ^ 256 - 1.
Proof. vm_compute. reflexivity. Qed.

Lemma uint_mul x o : mul (mkBigInt Uint x) o = Ok (mkBigInt Uint (x * to_bigint o)).
Proof. unfold mul. apply wrapping_exact; [auto with js|apply in_range_Uint]. Qed.

Lemma uint_div x o : to_bigint o <> 0 ->
  div (mkBigInt Uint x) o = Ok (mkBigInt Uint (Z.quot x (to_bigint o))).
Proof.
  intros. unfold div. zbool; [done|].
  apply wrapping_exact; [auto with js|apply in_range_Uint].
Qed.

Lemma uint_mod x o : to_bigint o <> 0 ->
  mod_ (mkBigInt Uint x) o = Ok (mkBigInt Uint (x mod to_bigint o)).
Proof.
  intros. unfold mod_. zbool; [done|]. rewrite js_mod_spec by done.
  apply wrapping_exact; [auto with js|apply in_range_Uint].
Qed.

Lemma mulDiv_unfold a b d : d <> 0 ->
  mulDiv a b d =
    (if 2 ^ 256 - 1 <? Z.quot (a * b) d then Throw "overflow" else Ok (Z.quot (a * b) d)).
Proof.
  intros Hd. unfold mulDiv. destruct (Z.eqb_spec d 0); [done|].
  rewrite factory_lit by (auto with js; apply in_range_Uint). rewrite bind_ok.
  rewrite uint_mul, bind_ok, uint_div, bind_ok by done.
  unfold gt_. rewrite MAX_Uint256. simpl to_bigint. simpl _value.
  destruct (_ <? _); [done|].
  destruct (Z.eqb_spec a 0) as [->|]; [by rewrite Z.mul_0_l, Z.quot_0_l|].
  destruct (Z.eqb_spec b 0) as [->|]; simpl orb; cbv iota.
  { by rewrite Z.mul_0_r, Z.quot_0_l. }
  by rewrite bind_ok, uint_mul, bind_ok, uint_div, bind_ok by done.
Qed.

Lemma mulDiv_nonneg a b d : 0 <= a -> 0 <= b -> 0 < d ->
  mulDiv a b d =
    (if a * b / d <? 2 ^ 256 then Ok (a * b / d) else Throw "overflow").
Proof.
  intros Ha Hb Hd. rewrite mulDiv_unfold by lia.
  rewrite Z.quot_div_nonneg by nia. zbool; try lia; done.
Qed.

Lemma mulDiv_floor a b d : 0 <= a -> 0 <= b -> 0 < d -> a * b / d < 2 ^ 256 ->
  mulDiv a b d = Ok (a * b / d).
Proof. intros. rewrite mulDiv_nonneg by done. zbool; [done|lia]. Qed.

Lemma mulDiv_Ok_inv a b d q : 0 <= a -> 0 <= b -> 0 < d ->
  mulDiv a b d = Ok q -> q = a * b / d /\ 0 <= q < 2 ^ 256.
Proof.
  intros Ha Hb Hd H. rewrite mulDiv_nonneg in H by done. zbool; simplify_eq.
  split; [done|]. split; [apply Z.div_pos; nia|done].
Qed.

(** [mulDivRoundingUp] as a case distinction on the exact quotient and rest. *)
Lemma mulDivRoundingUp_unfold a b d : 0 <= a -> 0 <= b -> 0 < d ->
  mulDivRoundingUp a b d =
    (if a * b / d <? 2 ^ 256 then
       if 0 <? (a * b) mod d then
         if 2 ^ 256 - 1 <=? a * b / d
         then Throw "Result exceeds the maximum value for uint256"
         else Ok (a * b / d + 1)
       else Ok (a * b / d)
     else Throw "overflow").
Proof.
  intros Ha Hb Hd. unfold mulDivRoundingUp. rewrite mulDiv_nonneg by done.
  destruct (Z.ltb_spec (a * b / d) (2 ^ 256)) as [Hq|Hq]; [|done].
  assert (0 <= a * b / d) by (apply Z.div_pos; nia). rewrite bind_ok.
  rewrite (factory_lit Uint256), bind_ok by (auto with js; in_range_tac).
  rewrite (factory_lit Uint), bind_ok by (auto with js; in_range_tac).
  rewrite uint_mul, bind_ok, uint_mod, bind_ok by (simpl; lia).
  unfold gt_, gte_. rewrite MAX_Uint256. cbn [to_bigint _value].
  destruct (0 <? _); [|done].
  destruct (Z.leb_spec (2 ^ 256 - 1) (a * b / d)); [done|].
  unfold add. cbn [to_bigint _value].
  by rewrite wrapping_exact by (auto with js; in_range_tac).
Qed.

Lemma ceil_floor x d : 0 < d -> - (- x / d) = x / d + (if 0 <? x mod d then 1 else 0).
Proof.
  intros Hd. pose proof (Z.mod_pos_bound x d Hd).
  destruct (Z.ltb_spec 0 (x mod d)).
  - rewrite Z.div_opp_l_nz by lia. lia.
  - rewrite Z.div_opp_l_z by lia. lia.
Qed.

(** [C11] On non-negative operands [mulDiv] computes the floor of
    [a*b/denominator] in full precision when it fits in 256 bits, and throws
    "overflow" when it does not; [mulDivRoundingUp] computes the ceiling of
    the same quotient when it fits in 256 bits, and throws when it does not,
    also where the floor still fits; both throw on a zero denominator. *)
Theorem mulDiv_correct a b d :
  0 <= a -> 0 <= b -> 0 <= d ->
  (d = 0 -> (exists e, mulDiv a b d = Throw e) /\ exists e, mulDivRoundingUp a b d = Throw e) /\
  (0 < d -> a * b / d < 2 ^ 256 -> mulDiv a b d = Ok (a * b / d)) /\
  (0 < d -> 2 ^ 256 <= a * b / d -> mulDiv a b d = Throw "overflow") /\
  (0 < d -> - (- (a * b) / d) < 2 ^ 256 ->
     mulDivRoundingUp a b d = Ok (- (- (a * b) / d))) /\
  (0 < d -> 2 ^ 256 <= - (- (a * b) / d) ->
     exists e, mulDivRoundingUp a b d = Throw e).
Proof.
  intros Ha Hb Hd. split_and!.
  - intros ->. split; eexists; reflexivity.
  - intros. by apply mulDiv_floor.
  - intros. rewrite mulDiv_nonneg by lia. zbool; [lia|done].
  - intros Hd' Hc. rewrite mulDivRoundingUp_unfold by done.
    rewrite ceil_floor in Hc |- * by done. zbool; f_equal; lia.
  - intros Hd' Hc. rewrite mulDivRoundingUp_unfold by done.
    rewrite ceil_floor in Hc by done. zbool; try lia; eauto.
Qed.

Lemma mulDiv_correct_witness :
  mulDiv 7 5 2 = Ok 17 /\ mulDivRoundingUp 7 5 2 = Ok 18 /\
  (exists e, mulDivRoundingUp (2 ^ 256 - 1) (2 ^ 256 - 1) (2 ^ 256 - 2) = Throw e).
Proof.
  destruct (mulDiv_correct 7 5 2) as (_ & H1 & _ & H2 & _); try lia.
  split_and!.
  - apply H1; [lia|reflexivity].
  - apply H2; [lia|reflexivity].
  - apply (mulDiv_correct (2 ^ 256 - 1) (2 ^ 256 - 1) (2 ^ 256 - 2)); [lia..|].
    vm_compute. discriminate.
Defined.
