(* ===== verification/TickMath.v ===== *)
(** * dexLib/tick_math.js: ticks and square-root prices

    [getSqrtRatioAtTick] multiplies, for every set bit of the absolute tick,
    a 128-bit constant; the nineteen conditional multiplications of the source
    have one shape and are folded over the table [ratio_factors].
    [getTickAtSqrtRatio] finds the most significant bit with seven identical
    rounds ([msb_rounds]) and one last comparison, then fourteen squaring
    rounds ([log_rounds]). *)
From S2P Require Import Prelude IntBase.
Local Open Scope Z_scope.

Definition MIN_TICK : Z := -887272.
Definition MAX_TICK : Z := 887272.
Definition MIN_SQRT_RATIO : Z := 4295128739.
Definition MAX_SQRT_RATIO : Z := 1461446703485210103287273052203988822378723970342.

(** The masks and factors of lines 27 to 45, in order. *)
Definition ratio_factors : list (Z * Z) :=
  [(0x2, 0xfff97272373d413259a46990580e213a);
   (0x4, 0xfff2e50f5f656932ef12357cf3c7fdcc);
   (0x8, 0xffe5caca7e10e4e61c3624eaa0941cd0);
   (0x10, 0xffcb9843d60f6159c9db58835c926644);
   (0x20, 0xff973b41fa98c081472e6896dfb254c0);
   (0x40, 0xff2ea16466c96a3843ec78b326b52861);
   (0x80, 0xfe5dee046a99a2a811c461f1969c3053);
   (0x100, 0xfcbe86c7900a88aedcffc83b479aa3a4);
   (0x200, 0xf987a7253ac413176f2b074cf7815e54);
   (0x400, 0xf3392b0822b70005940c7a398e4b70f3);
   (0x800, 0xe7159475a2c29b7443b29c7fa6e889d9);
   (0x1000, 0xd097f3bdfd2022b8845ad8f792aa5825);
   (0x2000, 0xa9f746462d870fdf8a65dc1f90e061e5);
   (0x4000, 0x70d869a156d2a1b890bb3df62baf32f7);
   (0x8000, 0x31be135f97d08fd981231505542fcfa6);
   (0x10000, 0x9aa508b5b7a84e1c677de54f3e99bc9);
   (0x20000, 0x5d6af8dedb81196699c329225ee604);
   (0x40000, 0x2216e584f5fa1ea926041bedfe98);
   (0x80000, 0x48a170391f7dc42444e8fa2)].

(** [if (!absTick.and(mask).eq(0)) ratio = ratio.mul(factor).shr(128)] *)
Definition ratio_step (absTick ratio : BigIntBase) (mf : Z * Z) : result BigIntBase :=
  b ← and_ absTick (Lit (fst mf));
  if negb (eq_ b (Lit 0)) then
    p ← mul ratio (Lit (snd mf)); shr p (Lit 128)
  else Ok ratio.

Definition getSqrtRatioAtTick (tick : Z) : result Z :=
  sqrtPriceX96_0 ← BigIntFactory Uint160 (Lit 0);
  t24 ← BigIntFactory Int24 (Lit tick);
  at24 ← abs t24;
  absTick ← BigIntFactory Uint256 (Obj at24);
  maxTick ← BigIntFactory Uint256 (Lit MAX_TICK);
  if gt_ absTick (Obj maxTick) then Throw "T"
  else
    b0 ← and_ absTick (Lit 0x1);
    ratio0 ← (if negb (eq_ b0 (Lit 0))
              then BigIntFactory Uint256 (Lit 0xfffcb933bd6fad37aa2d162d1a594001)
              else BigIntFactory Uint256 (Lit 0x100000000000000000000000000000000));
    ratio1 ← foldM (ratio_step absTick) ratio0 ratio_factors;
    t24' ← BigIntFactory Int24 (Lit tick);
    ratio ← (if gt_ t24' (Lit 0)
             then mx ← BigIntFactory Uint256 (Lit (MAX Uint256)); div mx (Obj ratio1)
             else Ok ratio1);
    hi ← shr ratio (Lit 32);
    hi160 ← BigIntFactory Uint160 (Obj hi);
    one ← BigIntFactory Uint256 (Lit 1);
    two32 ← shl one (Lit 32);
    lo ← mod_ ratio (Obj two32);
    sqrtPriceX96 ← add hi160 (Lit (if eq_ lo (Lit 0) then 0 else 1));
    Ok (_value sqrtPriceX96).

(** [f = Uint256.from(r.gt(threshold) ? 1 : 0).shl(k); msb = msb.or(f); r = r.shr(f)] *)
Definition msb_round (st : BigIntBase * BigIntBase) (tk : Z * Z)
  : result (BigIntBase * BigIntBase) :=
  let '(r, msb) := st in
  f0 ← BigIntFactory Uint256 (Lit (if gt_ r (Lit (fst tk)) then 1 else 0));
  f ← shl f0 (Lit (snd tk));
  msb' ← or_ msb (Obj f);
  r' ← shr r (Obj f);
  Ok (r', msb').

Definition msb_rounds : list (Z * Z) :=
  [(0xFFFFFFFFFFFFFFFFFFFFFFFFFFFFFFFF, 7);
   (0xFFFFFFFFFFFFFFFF, 6); (0xFFFFFFFF, 5); (0xFFFF, 4); (0xFF, 3); (0xF, 2); (0x3, 1)].

(** [r = r.mul(r).shr(127); f = r.shr(128); log_2 = log_2.or(f.shl(k)); r = r.shr(f)] *)
Definition log_round (st : BigIntBase * BigIntBase) (k : Z)
  : result (BigIntBase * BigIntBase) :=
  let '(r, log_2) := st in
  sq ← mul r (Obj r);
  r1 ← shr sq (Lit 127);
  f ← shr r1 (Lit 128);
  fk ← shl f (Lit k);
  log_2' ← or_ log_2 (Obj fk);
  r2 ← shr r1 (Obj f);
  Ok (r2, log_2').

Definition log_rounds : list Z := [63; 62; 61; 60; 59; 58; 57; 56; 55; 54; 53; 52; 51].

(** The last round (lines 143 to 145) leaves [r] as it is. *)
Definition log_round_last (st : BigIntBase * BigIntBase) (k : Z) : result BigIntBase :=
  let '(r, log_2) := st in
  sq ← mul r (Obj r);
  r1 ← shr sq (Lit 127);
  f ← shr r1 (Lit 128);
  fk ← shl f (Lit k);
  or_ log_2 (Obj fk).

Definition getTickAtSqrtRatio (sqrtPriceX96 : Z) : result Z :=
  p1 ← BigIntFactory Uint160 (Lit sqrtPriceX96);
  in_bounds ← (if gte_ p1 (Lit MIN_SQRT_RATIO)
               then p2 ← BigIntFactory Uint160 (Lit sqrtPriceX96);
                    Ok (lt_ p2 (Lit MAX_SQRT_RATIO))
               else Ok false);
  if negb in_bounds then Throw "R"
  else
    p256 ← BigIntFactory Uint256 (Lit sqrtPriceX96);
    ratio ← shl p256 (Lit 32);
    r0 ← BigIntFactory Uint256 (Obj ratio);
    msb0 ← BigIntFactory Uint256 (Lit 0);
    st ← foldM msb_round (r0, msb0) msb_rounds;
    f ← BigIntFactory Uint256 (Lit (if gt_ (fst st) (Lit 0x1) then 1 else 0));
    msb ← or_ (snd st) (Obj f);
    r ← (if gte_ msb (Lit 128)
         then k ← sub msb (Lit 127); shr ratio (Obj k)
         else c ← BigIntFactory Uint256 (Lit 127); k ← sub c (Obj msb); shl ratio (Obj k));
    m256 ← BigIntFactory Int256 (Obj msb);
    m128 ← sub m256 (Lit 128);
    log_2_0 ← shl m128 (Lit 64);
    st' ← foldM log_round (r, log_2_0) log_rounds;
    log_2 ← log_round_last st' 50;
    log_sqrt10001 ← mul log_2 (Lit 255738958999603826347141);
    lowS ← sub log_sqrt10001 (Lit 3402992956809132418596140100660247210);
    low ← shr lowS (Lit 128);
    tickLow ← BigIntFactory Int24 (Obj low);
    hiS ← add log_sqrt10001 (Lit 291339464771989622907027621153398088495);
    hi ← shr hiS (Lit 128);
    tickHi ← BigIntFactory Int24 (Obj hi);
    if eq_ tickLow (Obj tickHi) then Ok (_value tickLow)
    else
      p ← getSqrtRatioAtTick (_value tickHi);
      p256' ← BigIntFactory Int256 (Lit p);
      if lte_ p256' (Lit sqrtPriceX96) then Ok (_value tickHi) else Ok (_value tickLow).

Example sqrt_min : getSqrtRatioAtTick MIN_TICK = Ok MIN_SQRT_RATIO.
Proof. vm_compute. reflexivity. Qed.
Example sqrt_max : getSqrtRatioAtTick MAX_TICK = Ok MAX_SQRT_RATIO.
Proof. vm_compute. reflexivity. Qed.
Example tick_at_min : getTickAtSqrtRatio MIN_SQRT_RATIO = Ok MIN_TICK.
Proof. vm_compute. reflexivity. Qed.
Example tick_at_max : getTickAtSqrtRatio (MAX_SQRT_RATIO - 1) = Ok (MAX_TICK - 1).
Proof. vm_compute. reflexivity. Qed.
Example tick_at_1 : getTickAtSqrtRatio (2 ^ 96) = Ok 0.
Proof. vm_compute. reflexivity. Qed.

(** ** The ratio as a function of the bits of the absolute tick *)

Abbreviation K0 := 0xfffcb933bd6fad37aa2d162d1a594001 (only parsing).

(** Consumes the bits of [n] from the lowest, one factor per bit. *)
Fixpoint rbits (ks : list Z) (n r : Z) : Z :=
  match ks with
  | [] => r
  | k :: ks => rbits ks (n / 2) (if Z.odd n then r * k / 2 ^ 128 else r)
  end.

Definition factors : list Z := K0 :: (snd <$> ratio_factors).

(** The Q128 ratio the code holds after the multiplications. *)
Definition ratioAt (n : Z) : Z := rbits factors n (2 ^ 128).

Definition small_factors (ks : list Z) : Prop := Forall (fun k => 0 < k < 2 ^ 128) ks.

Lemma factors_small : small_factors factors.
Proof. apply (bool_decide_unpack _). vm_compute. exact I. Qed.

Lemma step_bounds r k : 0 <= r -> 0 < k < 2 ^ 128 -> 0 <= r * k / 2 ^ 128 <= r.
Proof.
  intros Hr Hk. split; [apply Z.div_pos; lia|].
  apply Z.div_le_upper_bound; [lia|]. nia.
Qed.

Lemma rbits_mono ks n r r' : small_factors ks -> 0 <= r <= r' ->
  0 <= rbits ks n r <= rbits ks n r'.
Proof.
  intros Hk. revert n r r'. induction Hk as [|k ks Hk _ IH]; simpl; intros n r r' Hr; [lia|].
  apply IH. destruct (Z.odd n); [|lia]. split; [apply Z.div_pos; lia|].
  apply Z.div_le_mono; [lia|]. nia.
Qed.

Lemma rbits_le ks n r : small_factors ks -> 0 <= r -> 0 <= rbits ks n r <= r.
Proof.
  intros Hk. revert n r. induction Hk as [|k ks Hk _ IH]; simpl; intros n r Hr; [lia|].
  pose proof (step_bounds r k Hr Hk). destruct (Z.odd n).
  - specialize (IH (n / 2) (r * k / 2 ^ 128)). lia.
  - by apply IH.
Qed.

(** Applying every factor gives a lower bound for all bit patterns. *)
Lemma rbits_all_ones ks n r : small_factors ks -> 0 <= r ->
  rbits ks (-1) r <= rbits ks n r.
Proof.
  intros Hk. revert n r. induction Hk as [|k ks Hk Hks IH]; simpl; intros n r Hr; [lia|].
  pose proof (step_bounds r k Hr Hk) as Hs.
  change (-1 / 2) with (-1). destruct (Z.odd n); [apply IH; lia|].
  etransitivity; [apply IH; lia|]. by apply rbits_mono.
Qed.

(** A relative gap survives the remaining, identical multiplications up to
    one unit of rounding per factor. *)
Lemma rbits_gap_same ks n a b e :
  small_factors ks -> 0 <= a -> 0 <= b -> 0 <= e ->
  1000049 * b - e <= 1000000 * a ->
  1000049 * rbits ks n b - (e + 1000000 * Z.of_nat (length ks))
    <= 1000000 * rbits ks n a.
Proof.
  intros Hk. revert n a b e.
  induction Hk as [|k ks Hk _ IH]; cbn [rbits length]; intros n a b e Ha Hb He H; [lia|].
  destruct (Z.odd n).
  - pose proof (step_bounds a k Ha Hk). pose proof (step_bounds b k Hb Hk).
    specialize (IH (n / 2) (a * k / 2 ^ 128) (b * k / 2 ^ 128) (e + 1000000)).
    assert (1000049 * (b * k / 2 ^ 128) - (e + 1000000) <= 1000000 * (a * k / 2 ^ 128)).
    { pose proof (mul_div_le_r (b * k) (2 ^ 128) ltac:(lia)).
      pose proof (mul_div_gt_r (a * k) (2 ^ 128) ltac:(lia)). nia. }
    lia.
  - specialize (IH (n / 2) a b e). lia.
Qed.

(** [r] is the product over an all-ones prefix; each next factor is below it
    by the relative gap. *)
Fixpoint gaps_ok (ks : list Z) (r : Z) : bool :=
  match ks with
  | [] => true
  | k :: ks => (1000049 * k <=? 1000000 * r) && gaps_ok ks (r * k / 2 ^ 128)
  end.

Lemma rbits_gap ks m r :
  small_factors ks -> 0 <= r -> gaps_ok ks r = true ->
  0 <= m -> m + 1 < 2 ^ Z.of_nat (length ks) ->
  1000049 * rbits ks (m + 1) (2 ^ 128) - 1000000 * Z.of_nat (length ks)
    <= 1000000 * rbits ks m r.
Proof.
  intros Hk. revert m r.
  induction Hk as [|k ks Hk Hks IH]; cbn [rbits length gaps_ok]; intros m r Hr Hg Hm Hlt.
  { change (2 ^ Z.of_nat 0) with 1 in Hlt. lia. }
  rewrite Nat2Z.inj_succ, Z.pow_succ_r in Hlt by lia.
  apply andb_prop in Hg as [Hg1%Z.leb_le Hg2].
  rewrite Z.odd_add. change (Z.odd 1) with true.
  destruct (Z.odd m) eqn:Eo; simpl xorb.
  - apply Zodd_bool_iff, Zodd_ex in Eo as [q ->].
    replace (2 * q + 1 + 1) with ((q + 1) * 2) by lia.
    replace (2 * q + 1) with (1 + q * 2) by lia.
    rewrite Z.div_mul, Z.div_add by lia. change (1 / 2) with 0. rewrite Z.add_0_l.
    pose proof (step_bounds r k Hr Hk).
    specialize (IH q (r * k / 2 ^ 128) ltac:(lia) Hg2 ltac:(lia) ltac:(lia)). lia.
  - assert (Z.even m = true) as Ev by (rewrite <- Z.negb_odd, Eo; done).
    apply Zeven_bool_iff, Zeven_ex in Ev as [q ->].
    replace (2 * q + 1) with (1 + q * 2) by lia. replace (2 * q) with (q * 2) by lia.
    rewrite Z.div_mul, Z.div_add by lia. change (1 / 2) with 0. rewrite Z.add_0_l.
    rewrite (Z.mul_comm (2 ^ 128) k), Z.div_mul by lia.
    pose proof (rbits_gap_same ks q r k 0 Hks). lia.
Qed.

(** Consecutive ratios: the gap in the whole range of 20-bit ticks. *)
Lemma ratioAt_gap n : 0 <= n -> n + 1 < 2 ^ 20 ->
  1000049 * ratioAt (n + 1) - 20000000 <= 1000000 * ratioAt n.
Proof.
  intros Hn Hlt.
  pose proof (rbits_gap factors n (2 ^ 128) factors_small) as H.
  change (Z.of_nat (length factors)) with 20 in H. apply H; try lia.
  vm_compute. reflexivity.
Qed.

Lemma ratioAt_lower n : 2 ^ 52 <= ratioAt n.
Proof.
  pose proof (rbits_all_ones factors n (2 ^ 128) factors_small ltac:(lia)) as H.
  assert ((2 ^ 52 <=? rbits factors (-1) (2 ^ 128)) = true) as Hc by (vm_compute; reflexivity).
  apply Z.leb_le in Hc. unfold ratioAt. lia.
Qed.

Lemma ratioAt_upper n : ratioAt n <= 2 ^ 128.
Proof. exact (proj2 (rbits_le factors n (2 ^ 128) factors_small ltac:(lia))). Qed.

Lemma ratioAt_decr n : 0 <= n -> n + 1 < 2 ^ 20 -> ratioAt (n + 1) + 2 ^ 32 <= ratioAt n.
Proof.
  intros Hn Hlt. pose proof (ratioAt_gap n Hn Hlt). pose proof (ratioAt_lower (n + 1)). lia.
Qed.

Lemma ratioAt_antitone n m : 0 <= n <= m -> m < 2 ^ 20 -> ratioAt m <= ratioAt n.
Proof.
  intros [Hn Hm] Hlt. destruct (Z.eq_dec n m) as [->|]; [lia|].
  pose proof (strict_mono_steps (fun x => - ratioAt x) 0 (2 ^ 20 - 1)) as H.
  simpl in H. specialize (H ltac:(intros t ? ?; pose proof (ratioAt_decr t); lia) n m). lia.
Qed.

(** ** The square-root price *)

Definition ceil32 (x : Z) : Z := x / 2 ^ 32 + (if x mod 2 ^ 32 =? 0 then 0 else 1).

(** The Q128 price ratio: inverted for positive ticks. *)
Definition tickRatio (t : Z) : Z :=
  if 0 <? t then (2 ^ 256 - 1) / ratioAt t else ratioAt (- t).

(** The Q96 square-root price of a tick. *)
Definition sqrtPrice (t : Z) : Z := ceil32 (tickRatio t).

Lemma ceil32_lt x y : x + 2 ^ 32 <= y -> ceil32 x < ceil32 y.
Proof.
  intros H. unfold ceil32.
  pose proof (Z_div_mod_eq_full x (2 ^ 32)). pose proof (Z_div_mod_eq_full y (2 ^ 32)).
  pose proof (Z.mod_pos_bound x (2 ^ 32)). pose proof (Z.mod_pos_bound y (2 ^ 32)).
  zbool; lia.
Qed.

(** Inverting a descending step of at least 2^32 below 2^128. *)
Lemma inverse_gap m a b :
  0 < a -> 1000049 * a - 20000000 <= 1000000 * b -> 2 ^ 52 <= a -> b <= 2 ^ 128 -> m = 2 ^ 256 - 1 ->
  m / b + 2 ^ 32 <= m / a.
Proof.
  intros Ha Hg Hl Hu ->.
  assert (0 < b) by lia.
  apply Z.div_le_lower_bound; [done|].
  pose proof (mul_div_le_r (2 ^ 256 - 1) b ltac:(lia)) as Hb.
  set (q := (2 ^ 256 - 1) / b) in *.
  assert (0 <= q) by (apply Z.div_pos; lia).
  assert (2 ^ 128 - 1 <= q) by (apply Z.div_le_lower_bound; nia).
  nia.
Qed.

Lemma tickRatio_incr t : -2 ^ 20 < t -> t + 1 < 2 ^ 20 -> tickRatio t + 2 ^ 32 <= tickRatio (t + 1).
Proof.
  intros Hl Hu. unfold tickRatio. destruct (Z.ltb_spec 0 t), (Z.ltb_spec 0 (t + 1)); try lia.
  - eapply inverse_gap; [| |apply ratioAt_lower|apply ratioAt_upper|reflexivity].
    + pose proof (ratioAt_lower (t + 1)). lia.
    + apply ratioAt_gap; lia.
  - assert (t = 0) as -> by lia. apply Z.leb_le. vm_compute. reflexivity.
  - replace (- t) with (- (t + 1) + 1) by lia. apply ratioAt_decr; lia.
Qed.

Lemma sqrtPrice_incr t : -2 ^ 20 < t -> t + 1 < 2 ^ 20 -> sqrtPrice t < sqrtPrice (t + 1).
Proof. intros. apply ceil32_lt. by apply tickRatio_incr. Qed.

Lemma sqrtPrice_mono t u : -2 ^ 20 < t -> t < u -> u < 2 ^ 20 -> sqrtPrice t < sqrtPrice u.
Proof.
  intros. apply (strict_mono_steps sqrtPrice (-2 ^ 20 + 1) (2 ^ 20 - 1)); try lia.
  intros. apply sqrtPrice_incr; lia.
Qed.

(** ** The code computes [sqrtPrice] *)

Lemma u256_small z : 0 <= z < 2 ^ 256 -> in_range Uint256 z.
Proof. intros. by apply in_range_U. Qed.
#[local] Hint Resolve u256_small : js.

Lemma land_pow2_zero n i : 0 <= i -> (Z.land n (2 ^ i) =? 0) = negb (Z.odd (n / 2 ^ i)).
Proof.
  intros Hi. rewrite <- Z.shiftr_div_pow2, <- Z.testbit_odd by done.
  destruct (Z.testbit n i) eqn:E; simpl.
  - apply Z.eqb_neq. intros H. apply (f_equal (fun z => Z.testbit z i)) in H.
    rewrite Z.land_spec, E, Z.pow2_bits_true, Z.bits_0 in H by done. done.
  - apply Z.eqb_eq. apply Z.bits_inj'. intros j Hj.
    rewrite Z.land_spec, Z.bits_0, Z.pow2_bits_eqb by done.
    destruct (Z.eqb_spec i j) as [->|]; [by rewrite E|apply andb_false_r].
Qed.

Lemma ratio_step_eq n r i k :
  0 <= n < 2 ^ 256 -> 0 <= r <= 2 ^ 128 -> 0 < k < 2 ^ 128 -> 0 <= i < 256 ->
  ratio_step (mkBigInt Uint256 n) (mkBigInt Uint256 r) (2 ^ i, k) =
    Ok (mkBigInt Uint256 (if Z.odd (n / 2 ^ i) then r * k / 2 ^ 128 else r)).
Proof.
  intros Hn Hr Hk Hi. unfold ratio_step. cbn [fst snd].
  assert (0 <= Z.land n (2 ^ i) < 2 ^ 256) as Hland.
  { assert (0 <= Z.land n (2 ^ i)) by (apply Z.land_nonneg; lia).
    destruct (Z.eq_dec (Z.land n (2 ^ i)) 0) as [->|]; [lia|]. split; [done|].
    apply Z.log2_lt_pow2; [lia|].
    pose proof (Z.log2_land n (2 ^ i) ltac:(lia) ltac:(lia)) as Hl.
    rewrite Z.log2_pow2 in Hl by lia. lia. }
  unfold and_. cbn [_value to_bigint]. rewrite wrapping_exact, bind_ok by (auto with js).
  unfold eq_. cbn [_value to_bigint]. rewrite land_pow2_zero, negb_involutive by lia.
  destruct (Z.odd (n / 2 ^ i)); [|done].
  unfold mul, shr. cbn [_value to_bigint].
  rewrite wrapping_exact, bind_ok by (auto with js; apply u256_small; nia).
  cbn [_value]. rewrite Z.shiftr_div_pow2 by lia.
  pose proof (step_bounds r k ltac:(lia) Hk).
  apply wrapping_exact; [auto with js|]. apply u256_small. lia.
Qed.

(** Folding the source's table from bit [i] on is [rbits]. *)
Fixpoint masked (i : Z) (ks : list Z) : list (Z * Z) :=
  match ks with [] => [] | k :: ks => (2 ^ i, k) :: masked (i + 1) ks end.

Lemma ratio_factors_masked : ratio_factors = masked 1 (snd <$> ratio_factors).
Proof. vm_compute. reflexivity. Qed.

Lemma fold_ratio_step n r i ks :
  0 <= n < 2 ^ 256 -> 0 <= r <= 2 ^ 128 -> small_factors ks ->
  0 <= i -> i + Z.of_nat (length ks) <= 256 ->
  foldM (ratio_step (mkBigInt Uint256 n)) (mkBigInt Uint256 r) (masked i ks) =
    Ok (mkBigInt Uint256 (rbits ks (n / 2 ^ i) r)).
Proof.
  intros Hn Hr Hk. revert i r Hr.
  induction Hk as [|k ks Hk _ IH]; cbn [masked foldM rbits length]; intros i r Hr Hi Hl; [done|].
  rewrite ratio_step_eq, bind_ok by lia.
  pose proof (step_bounds r k ltac:(lia) Hk).
  rewrite IH by (try lia; destruct (Z.odd _); lia).
  rewrite Z.pow_add_r, <- Z.div_div by lia. done.
Qed.

Lemma abs_int24 t : -2 ^ 23 < t < 2 ^ 23 ->
  abs (mkBigInt Int24 t) = Ok (mkBigInt Int24 (Z.abs t)).
Proof.
  intros Ht. unfold abs. cbn [_value class_of]. zbool.
  - rewrite construct_in_range; [do 2 f_equal; lia|auto with js|].
    right. cbn. lia.
  - do 2 f_equal. lia.
Qed.

Lemma int24_from t : -2 ^ 23 <= t < 2 ^ 23 ->
  BigIntFactory Int24 (Lit t) = Ok (mkBigInt Int24 t).
Proof. intros. apply factory_lit; [auto with js|]. right. cbn. lia. Qed.

Lemma ratioAt_max : 2 ^ 64 < ratioAt MAX_TICK.
Proof. apply Z.ltb_lt. vm_compute. reflexivity. Qed.

Lemma tickRatio_bounds t : - MAX_TICK <= t <= MAX_TICK ->
  2 ^ 64 < tickRatio t <= (2 ^ 256 - 1) / ratioAt MAX_TICK.
Proof.
  unfold MAX_TICK. intros Ht.
  assert (2 ^ 128 <= (2 ^ 256 - 1) / ratioAt 887272) as Hm
    by (apply Z.leb_le; vm_compute; reflexivity).
  pose proof ratioAt_max as Hmx. unfold MAX_TICK in Hmx.
  unfold tickRatio. destruct (Z.ltb_spec 0 t).
  - pose proof (ratioAt_antitone t 887272 ltac:(lia) ltac:(lia)).
    pose proof (ratioAt_upper t). split.
    + apply Z.lt_le_trans with (2 ^ 127); [lia|].
      apply Z.div_le_lower_bound; lia.
    + apply Z.div_le_compat_l; lia.
  - pose proof (ratioAt_antitone (- t) 887272 ltac:(lia) ltac:(lia)).
    pose proof (ratioAt_upper (- t)). lia.
Qed.

Lemma sqrtPrice_fits t : - MAX_TICK <= t <= MAX_TICK ->
  0 <= tickRatio t / 2 ^ 32 /\ tickRatio t / 2 ^ 32 + 1 < 2 ^ 160 /\ tickRatio t < 2 ^ 256.
Proof.
  intros Ht. destruct (tickRatio_bounds t Ht) as [Hl Hu].
  assert ((2 ^ 256 - 1) / ratioAt MAX_TICK / 2 ^ 32 + 1 < 2 ^ 160) as Hc
    by (apply Z.ltb_lt; vm_compute; reflexivity).
  assert ((2 ^ 256 - 1) / ratioAt MAX_TICK < 2 ^ 256) as Hc'
    by (apply Z.ltb_lt; vm_compute; reflexivity).
  pose proof (Z.div_le_mono _ _ (2 ^ 32) ltac:(lia) Hu).
  split_and!; [apply Z.div_pos; lia|lia|lia].
Qed.

(** The multiplications of lines 24 to 45. *)
Lemma ratio_phase n : 0 <= n < 2 ^ 20 ->
  (b0 ← and_ (mkBigInt Uint256 n) (Lit 0x1);
   ratio0 ← (if negb (eq_ b0 (Lit 0))
             then BigIntFactory Uint256 (Lit K0)
             else BigIntFactory Uint256 (Lit 0x100000000000000000000000000000000));
   foldM (ratio_step (mkBigInt Uint256 n)) ratio0 ratio_factors)
  = Ok (mkBigInt Uint256 (ratioAt n)).
Proof.
  intros Hn.
  pose proof (fold_ratio_step n (2 ^ 128) 0 factors ltac:(lia) ltac:(lia) factors_small
                ltac:(lia) ltac:(cbn; lia)) as H.
  change (2 ^ 0) with 1 in H. rewrite Z.div_1_r in H.
  rewrite ratio_factors_masked. unfold ratioAt. rewrite <- H. unfold factors.
  cbn [masked foldM]. change (0 + 1) with 1. change (2 ^ 0) with 0x1.
  generalize (foldM (ratio_step (mkBigInt Uint256 n))) as F. intros F.
  unfold ratio_step. cbn [fst snd].
  destruct (and_ (mkBigInt Uint256 n) (Lit 1)) as [b|e]; [|done]. rewrite !bind_ok.
  destruct (negb (eq_ b (Lit 0))); [|done].
  assert ((p ← mul (mkBigInt Uint256 (2 ^ 128)) (Lit K0); shr p (Lit 128)) = Ok (mkBigInt Uint256 K0))
    as -> by (vm_compute; reflexivity).
  done.
Qed.

Lemma getSqrtRatioAtTick_eq t : - MAX_TICK <= t <= MAX_TICK ->
  getSqrtRatioAtTick t = Ok (sqrtPrice t).
Proof.
  intros Ht. pose proof (sqrtPrice_fits t Ht) as (Hf1 & Hf2 & Hf3).
  pose proof (tickRatio_bounds t Ht) as [Hlow _]. unfold MAX_TICK in Ht.
  unfold getSqrtRatioAtTick.
  rewrite (factory_lit Uint160), bind_ok by (auto with js; in_range_tac).
  rewrite !int24_from, bind_ok by lia. rewrite abs_int24, bind_ok by lia.
  rewrite factory_obj, bind_ok by (auto with js; apply u256_small; cbn [_value]; lia).
  cbn [_value].
  rewrite (factory_lit Uint256 MAX_TICK), bind_ok by (auto with js; apply u256_small; unfold MAX_TICK; lia).
  unfold gt_ at 1. cbn [_value to_bigint]. unfold MAX_TICK at 1.
  destruct (Z.ltb_spec 887272 (Z.abs t)); [lia|].
  pose proof (ratio_phase (Z.abs t) ltac:(lia)) as HR. revert HR.
  destruct (and_ (mkBigInt Uint256 (Z.abs t)) (Lit 1)) as [b0|]; [|discriminate].
  rewrite !bind_ok.
  destruct (if negb (eq_ b0 (Lit 0)) then _ else _) as [ratio0|]; [|discriminate].
  rewrite !bind_ok. intros ->. rewrite !bind_ok. clear b0 ratio0.
  unfold gt_. cbn [_value to_bigint].
  set (ratio := if 0 <? t then _ else _).
  assert (ratio = Ok (mkBigInt Uint256 (tickRatio t))) as ->.
  { subst ratio. unfold tickRatio in *. destruct (Z.ltb_spec 0 t).
    - change (MAX Uint256) with (2 ^ 256 - 1).
      rewrite (factory_lit Uint256), bind_ok by (auto with js; apply u256_small; lia).
      rewrite Z.abs_eq by lia. unfold div. cbn [_value to_bigint].
      pose proof (ratioAt_lower t). destruct (Z.eqb_spec (ratioAt t) 0); [lia|].
      rewrite Z.quot_div_nonneg by lia. apply wrapping_exact; [auto with js|].
      apply u256_small. lia.
    - rewrite Z.abs_neq by lia. done. }
  rewrite bind_ok. unfold shr. cbn [_value to_bigint]. rewrite Z.shiftr_div_pow2 by lia.
  rewrite wrapping_exact, bind_ok by (auto with js; apply u256_small; lia).
  rewrite factory_obj, bind_ok by (auto with js; in_range_tac). cbn [_value].
  assert ((one ← BigIntFactory Uint256 (Lit 1); shl one (Lit 32)) = Ok (mkBigInt Uint256 (2 ^ 32)))
    as E32 by (vm_compute; reflexivity).
  revert E32. destruct (BigIntFactory Uint256 (Lit 1)) as [one|]; [|discriminate].
  rewrite !bind_ok. intros ->. rewrite bind_ok. unfold mod_. cbn [_value to_bigint].
  change (2 ^ 32 =? 0) with false. cbv iota. rewrite js_mod_spec by lia.
  pose proof (Z.mod_pos_bound (tickRatio t) (2 ^ 32) ltac:(lia)).
  rewrite wrapping_exact, bind_ok by (auto with js; apply u256_small; lia).
  unfold eq_, add. cbn [_value to_bigint]. unfold sqrtPrice, ceil32.
  rewrite wrapping_exact; [done|auto with js|].
  apply in_range_U; [done|]. cbn [bitSize Uint160]. zbool; lia.
Qed.

Lemma getSqrtRatioAtTick_throws t : t < - MAX_TICK \/ MAX_TICK < t ->
  exists e, getSqrtRatioAtTick t = Throw e.
Proof.
  unfold MAX_TICK. intros Ht. unfold getSqrtRatioAtTick.
  rewrite (factory_lit Uint160), bind_ok by (auto with js; in_range_tac).
  destruct (decide (-2 ^ 23 < t < 2 ^ 23)) as [Hr|Hr].
  - rewrite int24_from, bind_ok by lia. rewrite abs_int24, bind_ok by lia.
    rewrite factory_obj, bind_ok by (auto with js; in_range_tac).
    rewrite (factory_lit Uint256 MAX_TICK), bind_ok
      by (auto with js; unfold MAX_TICK; in_range_tac).
    unfold gt_. cbn [_value to_bigint]. unfold MAX_TICK. zbool; [eauto|lia].
  - destruct (decide (t = -2 ^ 23)) as [->|Hne]; [eexists; vm_compute; reflexivity|].
    assert (~ in_range Int24 t) as Ho
      by (intros [?|[? ?]]; unfold minZ, maxZ in *; cbn in *; lia).
    destruct (construct_out_of_range Int24 t ltac:(auto with js) Ho) as [e E].
    exists e. cbn [BigIntFactory]. by rewrite E.
Qed.

(** [C12] [getSqrtRatioAtTick] never wraps around: for a tick between
    [MIN_TICK] and [MAX_TICK] every checked 256-bit and 160-bit operation of
    the code gives the same as integer arithmetic without bounds
    ([sqrtPrice]: the product of the factors of the set bits of the absolute
    tick, each shifted by 128, inverted for a positive tick, rounded up to
    96 fractional bits); the prices run from [MIN_SQRT_RATIO] at [MIN_TICK]
    over 2^96 at 0 to [MAX_SQRT_RATIO] at [MAX_TICK] and are strictly
    increasing in the tick; any other tick makes the function throw. *)
Theorem getSqrtRatioAtTick_total :
  (forall t, MIN_TICK <= t <= MAX_TICK ->
     getSqrtRatioAtTick t = Ok (sqrtPrice t) /\
     MIN_SQRT_RATIO <= sqrtPrice t <= MAX_SQRT_RATIO) /\
  (forall t u p q, MIN_TICK <= t < u /\ u <= MAX_TICK ->
     getSqrtRatioAtTick t = Ok p -> getSqrtRatioAtTick u = Ok q -> p < q) /\
  getSqrtRatioAtTick MIN_TICK = Ok MIN_SQRT_RATIO /\
  getSqrtRatioAtTick 0 = Ok (2 ^ 96) /\
  getSqrtRatioAtTick MAX_TICK = Ok MAX_SQRT_RATIO /\
  (forall t, t < MIN_TICK \/ MAX_TICK < t -> exists e, getSqrtRatioAtTick t = Throw e).
Proof.
  split_and!; [intros t Ht|intros t u p q [Ht Hu] Hp Hq|vm_compute; reflexivity..|
               intros t; apply getSqrtRatioAtTick_throws].
  - split; [by apply getSqrtRatioAtTick_eq|].
    assert (sqrtPrice MIN_TICK = MIN_SQRT_RATIO) as <- by (vm_compute; reflexivity).
    assert (sqrtPrice MAX_TICK = MAX_SQRT_RATIO) as <- by (vm_compute; reflexivity).
    unfold MIN_TICK, MAX_TICK in *.
    split; [destruct (Z.eq_dec t (-887272)) as [->|]|destruct (Z.eq_dec t 887272) as [->|]];
      try lia; apply Z.lt_le_incl, sqrtPrice_mono; lia.
  - unfold MIN_TICK, MAX_TICK in *.
    rewrite getSqrtRatioAtTick_eq in Hp, Hq by (unfold MAX_TICK; lia).
    simplify_eq. apply sqrtPrice_mono; lia.
Qed.

Lemma getSqrtRatioAtTick_total_witness :
  getSqrtRatioAtTick 5 = Ok (sqrtPrice 5) /\
  79228162514264337593543950336 < 79232123823359799118286999568.
Proof.
  split.
  - apply getSqrtRatioAtTick_total. unfold MIN_TICK, MAX_TICK. lia.
  - apply (proj1 (proj2 getSqrtRatioAtTick_total) 0 1); [|vm_compute; reflexivity..].
    unfold MIN_TICK, MAX_TICK. lia.
Defined.
