(* ===== verification/TickInverse.v ===== *)
(** * dexLib/tick_math.js: the tick of a price

    [getTickAtSqrtRatio] takes a binary logarithm bit by bit, scales it to
    ticks and decides between two candidates.  This file shows that it returns
    the greatest tick whose price is not above the given one.  Logarithms are
    real numbers here: [lg] of the prices of ticks is bounded by interval
    computations on the table of factors, and [lg] of the given price by the
    rounds of the code, which are the same computation. *)
From Stdlib Require Import Reals Lra.
From S2P Require Import Prelude IntBase TickMath.
Local Open Scope Z_scope.

(** ** Binary logarithms of integers *)

Definition lg (x : Z) : R := (ln (IZR x) / ln 2)%R.

Lemma ln2_pos : (/ 2 < ln 2)%R.
Proof. exact ln_lt_2. Qed.

Lemma IZR_pos x : 0 < x -> (0 < IZR x)%R.
Proof. intros. by apply (IZR_lt 0). Qed.

Lemma lg_mul a b : 0 < a -> 0 < b -> lg (a * b) = (lg a + lg b)%R.
Proof.
  intros Ha Hb. unfold lg. rewrite mult_IZR, ln_mult by (by apply IZR_pos). pose proof ln2_pos. field. lra.
Qed.

Lemma lg_2 : lg 2 = 1%R.
Proof. unfold lg. pose proof ln2_pos. field. lra. Qed.

Lemma lg_pow2 n : 0 <= n -> lg (2 ^ n) = IZR n.
Proof.
  revert n; apply natlike_ind.
  - unfold lg. change (2 ^ 0) with 1. rewrite ln_1. pose proof ln2_pos. field. lra.
  - intros n Hn IH. rewrite Z.pow_succ_r, lg_mul, IH, lg_2, succ_IZR by lia. lra.
Qed.

Lemma lg_lt a b : 0 < a -> a < b -> (lg a < lg b)%R.
Proof.
  intros Ha Hab. unfold lg. pose proof ln2_pos. apply Rmult_lt_compat_r; [apply Rinv_0_lt_compat; lra|].
  apply ln_increasing; [by apply IZR_pos|by apply IZR_lt].
Qed.

Lemma lg_le a b : 0 < a -> a <= b -> (lg a <= lg b)%R.
Proof. intros Ha [Hlt| ->]%Z.le_lteq; [|lra]. pose proof (lg_lt a b Ha Hlt). lra. Qed.

Lemma lg_lt_inv a b : 0 < a -> 0 < b -> (lg a < lg b)%R -> a < b.
Proof. intros Ha Hb Hlt. apply Z.nle_gt. intros Hle%lg_le; [lra|done]. Qed.

Lemma lg_le_inv a b : 0 < a -> 0 < b -> (lg a <= lg b)%R -> a <= b.
Proof. intros Ha Hb Hle. apply Z.nlt_ge. intros Hlt%lg_lt; [lra|done]. Qed.

(** A small relative change. *)
Lemma lg_add a d : 0 < a -> 0 <= d -> (lg (a + d) <= lg a + 2 * (IZR d / IZR a))%R.
Proof.
  intros Ha Hd. pose proof (IZR_pos a Ha) as Ha'. pose proof (IZR_le 0 d Hd) as Hd'. pose proof ln2_pos.
  assert (Hq : (0 <= IZR d / IZR a)%R) by (apply Rmult_le_pos; [lra|left; by apply Rinv_0_lt_compat]).
  assert (Hln : (ln (IZR (a + d)) <= ln (IZR a) + IZR d / IZR a)%R).
  { rewrite plus_IZR. replace (IZR a + IZR d)%R with (IZR a * (1 + IZR d / IZR a))%R by (field; lra).
    rewrite ln_mult by lra. apply Rplus_le_compat_l.
    destruct (Req_dec (IZR d / IZR a) 0) as [-> |Hne]; [rewrite Rplus_0_r, ln_1; lra|].
    apply Rlt_le. rewrite <- (ln_exp (IZR d / IZR a)) at 2. apply ln_increasing; [lra|]. by apply exp_ineq1. }
  unfold lg. apply Rmult_le_reg_r with (ln 2); [lra|]. rewrite Rmult_plus_distr_r.
  unfold Rdiv at 1 2. rewrite !Rmult_assoc, Rinv_l, !Rmult_1_r by lra.
  apply Rle_trans with (1 := Hln). apply Rplus_le_compat_l. unfold Rdiv in *. nra.
Qed.

(** ** Logarithms scaled to integers *)

Abbreviation scale := 1208925819614629174706176%R (only parsing).

Lemma scale_pow2 : scale = IZR (2 ^ 80).
Proof. reflexivity. Qed.

Definition lgs (x : Z) : R := (scale * lg x)%R.

Lemma lgs_mul a b : 0 < a -> 0 < b -> lgs (a * b) = (lgs a + lgs b)%R.
Proof. intros. unfold lgs. rewrite lg_mul by done. ring. Qed.

Lemma lgs_pow2 n : 0 <= n -> lgs (2 ^ n) = IZR (n * 2 ^ 80).
Proof. intros. unfold lgs. rewrite lg_pow2, mult_IZR, <- scale_pow2 by done. ring. Qed.

Lemma lgs_le a b : 0 < a -> a <= b -> (lgs a <= lgs b)%R.
Proof. intros Ha Hab. unfold lgs. pose proof (lg_le a b Ha Hab). lra. Qed.

Lemma lgs_lt_inv a b : 0 < a -> 0 < b -> (lgs a < lgs b)%R -> a < b.
Proof. intros Ha Hb Hlt. apply lg_lt_inv; [done|done|]. unfold lgs in Hlt. lra. Qed.

Lemma lgs_le_inv a b : 0 < a -> 0 < b -> (lgs a <= lgs b)%R -> a <= b.
Proof. intros Ha Hb Hle. apply lg_le_inv; [done|done|]. unfold lgs in Hle. lra. Qed.

(** An error of [d] in a number of at least [2^m]. *)
Lemma lgs_add a d e : 0 < a -> 0 <= d -> d * 2 ^ 81 <= e * a -> (lgs (a + d) <= lgs a + IZR e)%R.
Proof.
  intros Ha Hd He. pose proof (lg_add a d Ha Hd) as Hl. unfold lgs. pose proof (IZR_pos a Ha).
  apply IZR_le in He. rewrite !mult_IZR in He. change (IZR (2 ^ 81)) with 2417851639229258349412352%R in He.
  assert (Hx : (scale * (2 * (IZR d / IZR a)) <= IZR e)%R).
  { apply Rmult_le_reg_r with (IZR a); [lra|]. unfold Rdiv. 
    replace (scale * (2 * (IZR d * / IZR a)) * IZR a)%R with (IZR d * 2417851639229258349412352)%R by (field; lra). lra. }
  lra.
Qed.

(** ** Logarithms bit by bit *)

(** One round: the square of a number in [[2^127, 2^128)], its leading bit, and
    the number to go on with. *)
Definition sq (r : Z) : Z := r * r / 2 ^ 127.
Definition log_bit (r : Z) : Z := sq r / 2 ^ 128.
Definition log_rest (r : Z) : Z := sq r / 2 ^ log_bit r.

Fixpoint lg_loop (n : nat) (r L : Z) : Z * Z :=
  match n with
  | O => (r, L)
  | S n => lg_loop n (log_rest r) (2 * L + log_bit r)
  end.

Definition normal (r : Z) : Prop := 2 ^ 127 <= r < 2 ^ 128.

Lemma sq_bounds r : normal r -> 2 ^ 127 <= sq r < 2 ^ 129.
Proof.
  unfold normal, sq. intros Hr. split; [apply Z.div_le_lower_bound; nia|apply Z.div_lt_upper_bound; nia].
Qed.

Lemma log_bit_cases r : normal r ->
  (log_bit r = 0 /\ sq r < 2 ^ 128 /\ log_rest r = sq r) \/
  (log_bit r = 1 /\ 2 ^ 128 <= sq r /\ log_rest r = sq r / 2).
Proof.
  intros Hr%sq_bounds. unfold log_rest, log_bit. destruct (Z.lt_ge_cases (sq r) (2 ^ 128)).
  - left. rewrite (Z.div_small (sq r)) by lia. change (2 ^ 0) with 1. rewrite Z.div_1_r. lia.
  - right. assert (sq r / 2 ^ 128 = 1) as -> by (symmetry; apply Z.div_unique with (sq r - 2 ^ 128); lia).
    change (2 ^ 1) with 2. lia.
Qed.

Lemma log_rest_normal r : normal r -> normal (log_rest r).
Proof.
  intros Hr. pose proof (sq_bounds r Hr). unfold normal.
  destruct (log_bit_cases r Hr) as [(_ & ? & ->)|(_ & ? & ->)]; [lia|].
  pose proof (Z.div_mod (sq r) 2 ltac:(lia)). pose proof (Z.mod_pos_bound (sq r) 2 ltac:(lia)). lia.
Qed.

(** The logarithm of a number in [[2^127, 2^128)] above that of [2^127]. *)
Definition lgn (r : Z) : R := (lg r - 127)%R.
Abbreviation delta := (/ 42535295865117307932921825928971026432)%R (only parsing).

Lemma lgn_bounds r : normal r -> (0 <= lgn r <= 1)%R.
Proof.
  unfold normal, lgn. intros Hr. pose proof (lg_le (2 ^ 127) r ltac:(lia) ltac:(lia)) as H1.
  pose proof (lg_le r (2 ^ 128) ltac:(lia) ltac:(lia)) as H2. rewrite lg_pow2 in H1, H2 by lia. lra.
Qed.

Lemma log_round_spec r : normal r ->
  (IZR (log_bit r) + lgn (log_rest r) <= 2 * lgn r <= IZR (log_bit r) + lgn (log_rest r) + delta)%R.
Proof.
  intros Hr. pose proof (log_rest_normal r Hr) as Hn. unfold normal in Hr, Hn. pose proof (sq_bounds r Hr) as Hs.
  assert (Hq : sq r * 2 ^ 127 <= r * r < (sq r + 1) * 2 ^ 127).
  { unfold sq. pose proof (Z.div_mod (r * r) (2 ^ 127) ltac:(lia)). pose proof (Z.mod_pos_bound (r * r) (2 ^ 127) ltac:(lia)). lia. }
  assert (Hf : 0 <= log_bit r <= 1 /\ log_rest r * 2 ^ log_bit r <= sq r /\ sq r + 1 <= log_rest r * 2 ^ log_bit r + 2).
  { destruct (log_bit_cases r Hr) as [(-> & _ & ->)|(-> & _ & ->)].
    - change (2 ^ 0) with 1. lia.
    - change (2 ^ 1) with 2. pose proof (Z.div_mod (sq r) 2 ltac:(lia)). pose proof (Z.mod_pos_bound (sq r) 2 ltac:(lia)). lia. }
  destruct Hf as (Hf & Hlo & Hhi). set (x := log_rest r * 2 ^ log_bit r) in *.
  assert (Hp : 1 <= 2 ^ log_bit r) by (apply (Z.pow_le_mono_r 2 0); lia). assert (Hx : 2 ^ 127 <= x) by (unfold x; nia).
  assert (Hlx : lg x = (lg (log_rest r) + IZR (log_bit r))%R) by (unfold x; rewrite lg_mul, lg_pow2 by lia; done).
  assert (H1 : (lg x + 127 <= lg r + lg r)%R).
  { rewrite <- lg_mul, <- (lg_pow2 127) by lia. rewrite <- lg_mul by lia. apply lg_le; nia. }
  assert (H2 : (lg r + lg r <= lg (x + 2) + 127)%R).
  { rewrite <- lg_mul, <- (lg_pow2 127) by lia. rewrite <- lg_mul by lia. apply lg_le; nia. }
  pose proof (lg_add x 2 ltac:(lia) ltac:(lia)) as H3. unfold lgn.
  assert (H4 : (2 * (2 / IZR x) <= delta)%R).
  { apply IZR_le in Hx. change (IZR (2 ^ 127)) with 170141183460469231731687303715884105728%R in Hx.
    apply Rmult_le_reg_r with (IZR x); [lra|]. unfold Rdiv. rewrite !Rmult_assoc, Rinv_l by lra. lra. }
  rewrite Hlx in *. lra.
Qed.

Lemma lg_loop_spec n r L : normal r -> let '(r', L') := lg_loop n r L in
  normal r' /\ (IZR L' + lgn r' <= IZR (2 ^ Z.of_nat n) * (IZR L + lgn r)
                <= IZR L' + lgn r' + (IZR (2 ^ Z.of_nat n) - 1) * delta)%R.
Proof.
  revert r L; induction n as [|n IH]; intros r L Hr; cbn [lg_loop].
  - split; [done|]. change (2 ^ Z.of_nat 0) with 1. lra.
  - specialize (IH (log_rest r) (2 * L + log_bit r) (log_rest_normal r Hr)).
    destruct (lg_loop n (log_rest r) (2 * L + log_bit r)) as [r' L']. destruct IH as [Hn [Hlo Hhi]]. split; [done|].
    pose proof (log_round_spec r Hr) as Hround. rewrite plus_IZR, mult_IZR in Hlo, Hhi.
    replace (Z.of_nat (S n)) with (Z.succ (Z.of_nat n)) by lia. rewrite Z.pow_succ_r, mult_IZR by lia.
    assert (Hp : (1 <= IZR (2 ^ Z.of_nat n))%R) by (apply IZR_le; apply (Z.pow_le_mono_r 2 0); lia).
    set (P := IZR (2 ^ Z.of_nat n)) in *. set (a := IZR (log_bit r)) in *. set (b := lgn (log_rest r)) in *. split; nra.
Qed.

(** ** The logarithms of the factors *)

Definition factor_log (k : Z) : Z :=
  snd (lg_loop 40 (k * 2 ^ (127 - Z.log2 k)) 0) * 2 ^ 40 + (Z.log2 k - 128) * 2 ^ 80.

Lemma factor_log_spec k : 0 < k < 2 ^ 128 ->
  (IZR (factor_log k) <= lgs k - IZR (128 * 2 ^ 80) <= IZR (factor_log k + 2 ^ 41))%R.
Proof.
  intros Hk. pose proof (Z.log2_spec k ltac:(lia)) as Hl. pose proof (Z.log2_nonneg k).
  assert (Hlog : Z.log2 k < 128) by (apply Z.log2_lt_pow2; lia).
  set (j := 127 - Z.log2 k). assert (Hj : 0 <= j) by lia. pose proof (Z.pow_pos_nonneg 2 j ltac:(lia) Hj) as Hpj.
  assert (Hn : normal (k * 2 ^ j)).
  { unfold normal. replace (2 ^ 127) with (2 ^ Z.log2 k * 2 ^ j) by (rewrite <- Z.pow_add_r by lia; f_equal; lia).
    replace (2 ^ 128) with (2 ^ Z.succ (Z.log2 k) * 2 ^ j) by (rewrite <- Z.pow_add_r by lia; f_equal; lia). nia. }
  pose proof (lg_loop_spec 40 (k * 2 ^ j) 0 Hn) as Hs. unfold factor_log. fold j.
  destruct (lg_loop 40 (k * 2 ^ j) 0) as [r' L]. cbn [snd]. destruct Hs as [Hn' Hs].
  pose proof (lgn_bounds r' Hn') as Hb. change (IZR (2 ^ Z.of_nat 40)) with 1099511627776%R in Hs.
  unfold lgn in Hs at 2 3. rewrite lg_mul, lg_pow2 in Hs by lia. unfold lgs.
  rewrite !plus_IZR, !mult_IZR, minus_IZR. change (IZR (2 ^ 80)) with scale. change (IZR (2 ^ 40)) with 1099511627776%R.
  change (IZR (2 ^ 41)) with 2199023255552%R.
  replace (IZR j) with (127 - IZR (Z.log2 k))%R in Hs by (unfold j; rewrite minus_IZR; lra). lra.
Qed.

(** The logarithm of one tick: the twentieth factor is that of [2^19] ticks. *)
Definition tick_lg : Z := Eval vm_compute in - factor_log (List.last factors 0) / 2 ^ 19.

Definition factor_err : Z := 2 ^ 42.

(** The factor of bit [i] has the logarithm of [2^i] ticks. *)
Definition factor_near (i k : Z) : Prop :=
  0 < k < 2 ^ 128 /\ (- IZR (2 ^ i * tick_lg) - IZR factor_err <= lgs k - IZR (128 * 2 ^ 80) <= - IZR (2 ^ i * tick_lg) + IZR factor_err)%R.

Fixpoint factors_near (i : Z) (ks : list Z) : Prop :=
  match ks with [] => True | k :: ks => factor_near i k /\ factors_near (i + 1) ks end.

Fixpoint factors_checked (i : Z) (ks : list Z) : bool :=
  match ks with
  | [] => true
  | k :: ks => (0 <? k) && (k <? 2 ^ 128) && (Z.abs (factor_log k + 2 ^ i * tick_lg) + 2 ^ 41 <=? factor_err) && factors_checked (i + 1) ks
  end.

Lemma factors_checked_near i ks : factors_checked i ks = true -> factors_near i ks.
Proof.
  revert i; induction ks as [|k ks IH]; intros i; cbn [factors_checked factors_near]; [done|].
  intros [[[H1%Z.ltb_lt H2%Z.ltb_lt]%andb_true_iff H3%Z.leb_le]%andb_true_iff Hks]%andb_true_iff.
  split; [|by apply IH]. split; [done|]. pose proof (factor_log_spec k ltac:(lia)) as Hs.
  assert (Hlo : (IZR (- (2 ^ i * tick_lg) - factor_err) <= IZR (factor_log k))%R) by (apply IZR_le; lia).
  assert (Hhi : (IZR (factor_log k + 2 ^ 41) <= IZR (- (2 ^ i * tick_lg) + factor_err))%R) by (apply IZR_le; lia).
  rewrite minus_IZR, opp_IZR in Hlo. rewrite (plus_IZR (- _)), opp_IZR in Hhi. lra.
Qed.

Lemma factors_all_near : factors_near 0 factors.
Proof. apply factors_checked_near. vm_compute. reflexivity. Qed.

(** ** The logarithm of the price of a tick *)

(** A quotient of at least [2^60] is near the exact one. *)
Lemma lgs_div x d m : 0 < m -> d = 2 ^ m -> 2 ^ 60 <= x / d ->
  (lgs (x / d) <= lgs x - IZR (m * 2 ^ 80) <= lgs (x / d) + IZR (2 ^ 21))%R.
Proof.
  intros Hm -> Hq. pose proof (Z.pow_pos_nonneg 2 m ltac:(lia) ltac:(lia)) as Hp.
  pose proof (Z.div_mod x (2 ^ m) ltac:(lia)) as Hd. pose proof (Z.mod_pos_bound x (2 ^ m) Hp) as Hr. set (q := x / 2 ^ m) in *.
  rewrite <- (lgs_pow2 m) by lia.
  assert (H1 : (lgs (q * 2 ^ m) <= lgs x)%R) by (apply lgs_le; nia).
  assert (H2 : (lgs x <= lgs ((q + 1) * 2 ^ m))%R) by (apply lgs_le; nia).
  rewrite lgs_mul in H1, H2 by lia. pose proof (lgs_add q 1 (2 ^ 21) ltac:(lia) ltac:(lia) ltac:(lia)). lra.
Qed.

Lemma rbits_lgs ks i n r : 0 <= i -> factors_near i ks -> 0 <= n < 2 ^ Z.of_nat (length ks) -> 0 < r ->
  2 ^ 60 <= rbits ks n r ->
  (- IZR (2 ^ i * n * tick_lg) - IZR (Z.of_nat (length ks) * 2 ^ 43) <= lgs (rbits ks n r) - lgs r
   <= - IZR (2 ^ i * n * tick_lg) + IZR (Z.of_nat (length ks) * 2 ^ 43))%R.
Proof.
  revert i n r; induction ks as [|k ks IH]; intros i n r Hi Hnear Hn Hr Hlow; cbn [rbits] in *.
  - cbn [length] in *. assert (n = 0) as -> by (change (2 ^ Z.of_nat 0) with 1 in Hn; lia). change (Z.of_nat 0) with 0. rewrite Z.mul_0_r, !Z.mul_0_l. lra.
  - destruct Hnear as [[Hk Hkl] Hnear]. set (r1 := if Z.odd n then r * k / 2 ^ 128 else r) in *.
    assert (Hsm : small_factors ks).
    { clear -Hnear. revert i Hnear. induction ks as [|k' ks IH']; intros i; [by constructor|]. intros [[Hk' _] Hnear].
      constructor; [done|by eapply IH']. }
    assert (Hr0 : 0 <= r1) by (unfold r1; destruct (Z.odd n); [apply Z.div_pos; lia|lia]).
    pose proof (rbits_le ks (n / 2) r1 Hsm Hr0) as Hle.
    assert (Hn2 : 0 <= n / 2 < 2 ^ Z.of_nat (length ks)).
    { split; [apply Z.div_pos; lia|]. apply Z.div_lt_upper_bound; [lia|]. rewrite <- Z.pow_succ_r by lia.
      replace (Z.succ (Z.of_nat (length ks))) with (Z.of_nat (length (k :: ks))) by (cbn [length]; lia). lia. }
    specialize (IH (i + 1) (n / 2) r1 ltac:(lia) Hnear Hn2 ltac:(lia) Hlow).
    assert (Hstep : (- IZR (2 ^ i * (n mod 2) * tick_lg) - IZR (2 ^ 43) <= lgs r1 - lgs r
                     <= - IZR (2 ^ i * (n mod 2) * tick_lg) + IZR (2 ^ 43))%R).
    { assert (Hr1 : 2 ^ 60 <= r1) by lia. rewrite Zmod_odd. unfold r1 in *. destruct (Z.odd n) eqn:Eo.
      - rewrite Z.mul_1_r. assert (Hd : (lgs (r * k / 2 ^ 128) <= lgs (r * k) - IZR (128 * 2 ^ 80)
            <= lgs (r * k / 2 ^ 128) + IZR (2 ^ 21))%R).
        { by apply lgs_div. }
        rewrite lgs_mul in Hd by lia. change (IZR factor_err) with 4398046511104%R in Hkl.
        change (IZR (2 ^ 21)) with 2097152%R in Hd. change (IZR (2 ^ 43)) with 8796093022208%R. lra.
      - rewrite Z.mul_0_r, Z.mul_0_l. change (IZR (2 ^ 43)) with 8796093022208%R. lra. }
    assert (Hsplit : 2 ^ i * n * tick_lg = 2 ^ i * (n mod 2) * tick_lg + 2 ^ (i + 1) * (n / 2) * tick_lg).
    { pose proof (Z.div_mod n 2 ltac:(lia)) as Hdm. rewrite Z.pow_add_r by lia. change (2 ^ 1) with 2.
      transitivity (2 ^ i * (2 * (n / 2) + n mod 2) * tick_lg); [by rewrite <- Hdm|ring]. }
    rewrite Hsplit. cbn [length]. replace (Z.of_nat (S (length ks)) * 2 ^ 43) with (2 ^ 43 + Z.of_nat (length ks) * 2 ^ 43) by lia.
    rewrite !(plus_IZR _ (_ * _)). lra.
Qed.

Lemma ratioAt_lgs n : 0 <= n <= MAX_TICK ->
  (- IZR (n * tick_lg) - IZR (2 ^ 48) <= lgs (ratioAt n) - IZR (128 * 2 ^ 80) <= - IZR (n * tick_lg) + IZR (2 ^ 48))%R.
Proof.
  intros Hn. pose proof ratioAt_max as Hmax. pose proof (ratioAt_antitone n MAX_TICK Hn ltac:(unfold MAX_TICK; lia)) as Ha.
  assert (Hlen : Z.of_nat (length factors) = 20) by reflexivity. unfold MAX_TICK in Hn.
  assert (Hlow : 2 ^ 60 <= rbits factors n (2 ^ 128)) by (unfold ratioAt in Ha at 2; lia).
  pose proof (rbits_lgs factors 0 n (2 ^ 128) ltac:(lia) factors_all_near ltac:(rewrite Hlen; lia) ltac:(lia) Hlow) as H.
  rewrite Hlen in H. unfold ratioAt. rewrite lgs_pow2 in H by lia. change (2 ^ 0) with 1 in H. rewrite Z.mul_1_l in H.
  assert (Hl : (IZR (20 * 2 ^ 43) <= IZR (2 ^ 48))%R) by (apply IZR_le; lia). lra.
Qed.

(** The reciprocal that positive ticks use. *)
Lemma inverse_lgs x : 2 ^ 60 <= x <= 2 ^ 128 ->
  (IZR (256 * 2 ^ 80) - lgs x - 1 <= lgs ((2 ^ 256 - 1) / x) <= IZR (256 * 2 ^ 80) - lgs x)%R.
Proof.
  intros Hx. pose proof (Z.div_mod (2 ^ 256 - 1) x ltac:(lia)) as Hd. pose proof (Z.mod_pos_bound (2 ^ 256 - 1) x ltac:(lia)) as Hr.
  set (y := (2 ^ 256 - 1) / x) in *. assert (Hy : 2 ^ 127 <= y) by (apply Z.div_le_lower_bound; lia).
  rewrite <- (lgs_pow2 256) by lia.
  assert (H1 : (lgs (x * y) <= lgs (2 ^ 256))%R) by (apply lgs_le; nia).
  assert (H2 : (lgs (2 ^ 256) <= lgs (x * (y + 1)))%R) by (apply lgs_le; nia).
  rewrite lgs_mul in H1, H2 by lia. pose proof (lgs_add y 1 1 ltac:(lia) ltac:(lia) ltac:(lia)). lra.
Qed.

Lemma tickRatio_lgs t : - MAX_TICK <= t <= MAX_TICK ->
  (IZR (t * tick_lg) - IZR (2 ^ 49) <= lgs (tickRatio t) - IZR (128 * 2 ^ 80) <= IZR (t * tick_lg) + IZR (2 ^ 49))%R.
Proof.
  intros Ht. unfold tickRatio. destruct (Z.ltb_spec 0 t).
  - pose proof (ratioAt_lgs t ltac:(lia)) as Hl. pose proof (ratioAt_upper t).
    pose proof (ratioAt_antitone t MAX_TICK ltac:(lia) ltac:(unfold MAX_TICK; lia)). pose proof ratioAt_max.
    pose proof (inverse_lgs (ratioAt t) ltac:(lia)) as Hi.
    assert (E : IZR (256 * 2 ^ 80) = (2 * IZR (128 * 2 ^ 80))%R) by (rewrite <- mult_IZR; f_equal; lia).
    assert (IZR (2 ^ 49) = 2 * IZR (2 ^ 48))%R by (rewrite <- mult_IZR; f_equal; lia).
    assert (1 <= IZR (2 ^ 48))%R by (apply IZR_le; lia). rewrite E in Hi. lra.
  - pose proof (ratioAt_lgs (- t) ltac:(lia)) as Hl. rewrite Z.mul_opp_l, opp_IZR in Hl.
    assert (IZR (2 ^ 48) <= IZR (2 ^ 49))%R by (apply IZR_le; lia). lra.
Qed.

(** The price of a tick has the logarithm of its ticks, up to [2^50] units. *)
Lemma sqrtPrice_lgs t : - MAX_TICK <= t <= MAX_TICK ->
  0 < sqrtPrice t /\
  (IZR (t * tick_lg) - IZR (2 ^ 50) <= lgs (sqrtPrice t) - IZR (96 * 2 ^ 80) <= IZR (t * tick_lg) + IZR (2 ^ 50))%R.
Proof.
  intros Ht. pose proof (tickRatio_lgs t Ht) as Hl. destruct (tickRatio_bounds t Ht) as [Hlow _].
  unfold sqrtPrice, ceil32. set (T := tickRatio t) in *. pose proof (Z.div_mod T (2 ^ 32) ltac:(lia)) as Hd.
  pose proof (Z.mod_pos_bound T (2 ^ 32) ltac:(lia)) as Hr. set (s := T / 2 ^ 32 + _).
  assert (Hs : T <= s * 2 ^ 32 < T + 2 ^ 32) by (unfold s; destruct (Z.eqb_spec (T mod 2 ^ 32) 0); lia).
  assert (Hs0 : 0 < s) by nia. split; [done|].
  assert (H1 : (lgs T <= lgs (s * 2 ^ 32))%R) by (apply lgs_le; lia).
  assert (H2 : (lgs (s * 2 ^ 32) <= lgs (T + 2 ^ 32))%R) by (apply lgs_le; lia).
  pose proof (lgs_add T (2 ^ 32) (2 ^ 49) ltac:(lia) ltac:(lia) ltac:(lia)) as H3.
  rewrite lgs_mul, lgs_pow2 in H1, H2 by lia.
  assert (E : IZR (128 * 2 ^ 80) = (IZR (96 * 2 ^ 80) + IZR (32 * 2 ^ 80))%R) by (rewrite <- plus_IZR; f_equal; lia).
  assert (IZR (2 ^ 50) = 2 * IZR (2 ^ 49))%R by (rewrite <- mult_IZR; f_equal; lia). 
  assert (0 <= IZR (2 ^ 49))%R by (apply IZR_le; lia). rewrite E in Hl. lra.
Qed.

(** ** The candidates *)

(** The number with the leading bit of the price at bit 127. *)
Definition leading (x : Z) : Z :=
  if 128 <=? Z.log2 x then x / 2 ^ (Z.log2 x - 127) else x * 2 ^ (127 - Z.log2 x).

Definition log_2_of (x : Z) : Z := (Z.log2 x - 128) * 2 ^ 64 + snd (lg_loop 14 (leading x) 0) * 2 ^ 50.

Lemma leading_spec x : 0 < x -> normal (leading x) /\
  (lgn (leading x) <= lg x - IZR (Z.log2 x) <= lgn (leading x) + delta)%R.
Proof.
  intros Hx. pose proof (Z.log2_spec x Hx) as Hl. pose proof (Z.log2_nonneg x) as H0. set (m := Z.log2 x) in *.
  unfold leading, lgn. fold m. destruct (Z.leb_spec 128 m).
  - set (e := m - 127). pose proof (Z.pow_pos_nonneg 2 e ltac:(lia) ltac:(lia)) as Hp.
    assert (E1 : 2 ^ m = 2 ^ 127 * 2 ^ e) by (rewrite <- Z.pow_add_r by lia; f_equal; lia).
    assert (E2 : 2 ^ Z.succ m = 2 ^ 128 * 2 ^ e) by (rewrite <- Z.pow_add_r by lia; f_equal; lia).
    pose proof (Z.div_mod x (2 ^ e) ltac:(lia)) as Hd. pose proof (Z.mod_pos_bound x (2 ^ e) Hp) as Hr. set (q := x / 2 ^ e) in *.
    assert (Hn : normal q) by (unfold normal; nia). split; [done|]. unfold normal in Hn.
    assert (H1 : (lg (q * 2 ^ e) <= lg x)%R) by (apply lg_le; nia).
    assert (H2 : (lg x <= lg ((q + 1) * 2 ^ e))%R) by (apply lg_le; nia).
    rewrite lg_mul, lg_pow2 in H1, H2 by lia. pose proof (lg_add q 1 ltac:(lia) ltac:(lia)) as H3.
    assert (H4 : (2 * (1 / IZR q) <= delta)%R).
    { destruct Hn as [Hn _]. apply IZR_le in Hn. change (IZR (2 ^ 127)) with 170141183460469231731687303715884105728%R in Hn.
      apply Rmult_le_reg_r with (IZR q); [lra|]. unfold Rdiv. rewrite !Rmult_assoc, Rinv_l by lra. lra. }
    replace (IZR m) with (IZR e + 127)%R by (unfold e; rewrite minus_IZR; lra). lra.
  - set (e := 127 - m). pose proof (Z.pow_pos_nonneg 2 e ltac:(lia) ltac:(lia)) as Hp.
    assert (E1 : 2 ^ 127 = 2 ^ m * 2 ^ e) by (rewrite <- Z.pow_add_r by lia; f_equal; lia).
    assert (E2 : 2 ^ 128 = 2 ^ Z.succ m * 2 ^ e) by (rewrite <- Z.pow_add_r by lia; f_equal; lia).
    split; [unfold normal; nia|]. rewrite lg_mul, lg_pow2 by lia.
    replace (IZR m) with (127 - IZR e)%R by (unfold e; rewrite minus_IZR; lra). lra.
Qed.

(** The rounds of the code give the logarithm up to its fourteenth binary
    digit. *)
Lemma log_2_of_spec x : 0 < x ->
  (IZR (log_2_of x * 2 ^ 16) <= lgs x - IZR (128 * 2 ^ 80) <= IZR ((log_2_of x + 2 ^ 50) * 2 ^ 16 + 1))%R.
Proof.
  intros Hx. destruct (leading_spec x Hx) as [Hn Hle]. pose proof (lg_loop_spec 14 (leading x) 0 Hn) as Hs.
  unfold log_2_of. destruct (lg_loop 14 (leading x) 0) as [r' L]. cbn [snd]. destruct Hs as [Hn' Hs].
  pose proof (lgn_bounds r' Hn') as Hb. change (IZR (2 ^ Z.of_nat 14)) with 16384%R in Hs. unfold lgs.
  rewrite !plus_IZR, !mult_IZR, !plus_IZR, !mult_IZR, minus_IZR. change (IZR (2 ^ 16)) with 65536%R. change (IZR (2 ^ 64)) with 18446744073709551616%R.
  change (IZR (2 ^ 50)) with 1125899906842624%R. change (IZR (2 ^ 80)) with scale. lra.
Qed.

Lemma lg_loop_bits n r L : normal r -> 2 ^ Z.of_nat n * L <= snd (lg_loop n r L) < 2 ^ Z.of_nat n * (L + 1).
Proof.
  revert r L; induction n as [|n IH]; intros r L Hr; cbn [lg_loop snd]; [change (2 ^ Z.of_nat 0) with 1; lia|].
  specialize (IH (log_rest r) (2 * L + log_bit r) (log_rest_normal r Hr)).
  replace (Z.of_nat (S n)) with (Z.succ (Z.of_nat n)) by lia. rewrite Z.pow_succ_r by lia.
  assert (0 <= log_bit r <= 1) by (destruct (log_bit_cases r Hr) as [(-> & _)|(-> & _)]; lia).
  pose proof (Z.pow_pos_nonneg 2 (Z.of_nat n) ltac:(lia) ltac:(lia)). nia.
Qed.

Definition log_scale : Z := 255738958999603826347141.
Definition low_margin : Z := 3402992956809132418596140100660247210.
Definition high_margin : Z := 291339464771989622907027621153398088495.

Definition tick_low (l : Z) : Z := (l * log_scale - low_margin) / 2 ^ 128.
Definition tick_high (l : Z) : Z := (l * log_scale + high_margin) / 2 ^ 128.

Section Candidates.
Variable p : Z.
Hypothesis p_range : MIN_SQRT_RATIO <= p < MAX_SQRT_RATIO.

Let l : Z := log_2_of (p * 2 ^ 32).

Lemma log_2_range : - 2 ^ 70 <= l < 2 ^ 70.
Proof.
  unfold l, log_2_of. set (x := p * 2 ^ 32). unfold MIN_SQRT_RATIO, MAX_SQRT_RATIO in p_range.
  assert (Hlog : 64 <= Z.log2 x < 192).
  { split; [apply Z.log2_le_pow2; lia|apply Z.log2_lt_pow2; lia]. }
  destruct (leading_spec x ltac:(lia)) as [Hn _]. pose proof (lg_loop_bits 14 (leading x) 0 Hn) as Hb.
  change (2 ^ Z.of_nat 14) with 16384 in Hb. lia.
Qed.

(** The price in the units of the logarithm. *)
Lemma price_lgs :
  (IZR (l * 2 ^ 16) <= lgs p - IZR (96 * 2 ^ 80) <= IZR ((l + 2 ^ 50) * 2 ^ 16 + 1))%R.
Proof.
  unfold MIN_SQRT_RATIO in p_range. pose proof (log_2_of_spec (p * 2 ^ 32) ltac:(lia)) as H. fold l in H.
  rewrite lgs_mul, lgs_pow2 in H by lia.
  assert (E : IZR (128 * 2 ^ 80) = (IZR (96 * 2 ^ 80) + IZR (32 * 2 ^ 80))%R) by (rewrite <- plus_IZR; f_equal; lia). lra.
Qed.

Lemma low_spec : (tick_low l * 2 ^ 128 <= l * log_scale - low_margin < (tick_low l + 1) * 2 ^ 128).
Proof.
  unfold tick_low. pose proof (Z.div_mod (l * log_scale - low_margin) (2 ^ 128) ltac:(lia)).
  pose proof (Z.mod_pos_bound (l * log_scale - low_margin) (2 ^ 128) ltac:(lia)). lia.
Qed.

Lemma high_spec : (tick_high l * 2 ^ 128 <= l * log_scale + high_margin < (tick_high l + 1) * 2 ^ 128).
Proof.
  unfold tick_high. pose proof (Z.div_mod (l * log_scale + high_margin) (2 ^ 128) ltac:(lia)).
  pose proof (Z.mod_pos_bound (l * log_scale + high_margin) (2 ^ 128) ltac:(lia)). lia.
Qed.

Lemma candidates_near : tick_low l <= tick_high l <= tick_low l + 1.
Proof. pose proof low_spec. pose proof high_spec. unfold low_margin, high_margin in *. lia. Qed.

Lemma low_not_above : - MAX_TICK <= tick_low l <= MAX_TICK -> sqrtPrice (tick_low l) <= p.
Proof.
  intros Ht. destruct (sqrtPrice_lgs (tick_low l) Ht) as [H0 Hl]. pose proof price_lgs as Hp.
  apply lgs_le_inv; [done|unfold MIN_SQRT_RATIO in p_range; lia|].
  assert (Hc : tick_low l * tick_lg + 2 ^ 50 <= l * 2 ^ 16).
  { pose proof low_spec. pose proof log_2_range. unfold low_margin, log_scale, tick_lg in *. lia. }
  apply IZR_le in Hc. rewrite plus_IZR in Hc. lra.
Qed.

Lemma high_next_above : - MAX_TICK <= tick_high l + 1 <= MAX_TICK -> p < sqrtPrice (tick_high l + 1).
Proof.
  intros Ht. destruct (sqrtPrice_lgs (tick_high l + 1) Ht) as [H0 Hl]. pose proof price_lgs as Hp.
  apply lgs_lt_inv; [unfold MIN_SQRT_RATIO in p_range; lia|done|].
  assert (Hc : (l + 2 ^ 50) * 2 ^ 16 + 1 < (tick_high l + 1) * tick_lg - 2 ^ 50).
  { pose proof high_spec. pose proof log_2_range. unfold high_margin, log_scale, tick_lg in *. lia. }
  apply IZR_lt in Hc. rewrite (minus_IZR ((tick_high l + 1) * tick_lg)) in Hc. lra.
Qed.

Lemma candidates_in_range : - MAX_TICK <= tick_high l <= MAX_TICK /\ tick_low l <= MAX_TICK - 1.
Proof.
  pose proof price_lgs as Hp. pose proof log_2_range.
  assert (Hmin : (- MAX_TICK * tick_lg - 2 ^ 50 <= (l + 2 ^ 50) * 2 ^ 16 + 1)).
  { destruct (sqrtPrice_lgs (- MAX_TICK) ltac:(unfold MAX_TICK; lia)) as [H0 Hl].
    assert (E : sqrtPrice (- MAX_TICK) = MIN_SQRT_RATIO) by (vm_compute; reflexivity). rewrite E in *.
    pose proof (lgs_le MIN_SQRT_RATIO p H0 ltac:(lia)). apply le_IZR. rewrite minus_IZR. lra. }
  assert (Hmax : l * 2 ^ 16 <= MAX_TICK * tick_lg + 2 ^ 50).
  { destruct (sqrtPrice_lgs MAX_TICK ltac:(unfold MAX_TICK; lia)) as [H0 Hl].
    assert (E : sqrtPrice MAX_TICK = MAX_SQRT_RATIO) by (vm_compute; reflexivity). rewrite E in *.
    pose proof (lgs_le p MAX_SQRT_RATIO ltac:(unfold MIN_SQRT_RATIO in p_range; lia) ltac:(lia)). apply le_IZR. rewrite plus_IZR. lra. }
  pose proof low_spec. pose proof high_spec. unfold MAX_TICK, low_margin, high_margin, log_scale, tick_lg in *. lia.
Qed.
End Candidates.

(** ** The code computes the candidates *)

Lemma lor_add a b m : 0 <= m -> a mod 2 ^ m = 0 -> 0 <= b < 2 ^ m -> Z.lor a b = a + b.
Proof.
  intros Hm Ha Hb. rewrite <- Z.add_lor_land.
  assert (Z.land a b = 0) as ->; [|lia]. apply Z.bits_inj'. intros i Hi. rewrite Z.land_spec, Z.bits_0.
  destruct (Z.lt_ge_cases i m).
  - rewrite <- (Z.mod_pow2_bits_low a m) by lia. by rewrite Ha, Z.bits_0.
  - rewrite <- (Z.mod_small b (2 ^ m)) by lia. by rewrite Z.mod_pow2_bits_high, andb_false_r by lia.
Qed.

Lemma u256 z : 0 <= z < 2 ^ 256 -> in_range Uint256 z.
Proof. intros. by apply in_range_U. Qed.
Lemma i256 z : - 2 ^ 255 <= z < 2 ^ 255 -> in_range Int256 z.
Proof. intros. right. cbn. lia. Qed.
#[local] Hint Resolve u256 i256 : js.

Abbreviation U z := (mkBigInt Uint256 z).
Abbreviation I z := (mkBigInt Int256 z).

(** The rounds that find the leading bit, from the bit [k] of its position down. *)
Fixpoint msb_list (k : nat) : list (Z * Z) :=
  match k with
  | O => []
  | S k' => (2 ^ 2 ^ Z.of_nat k - 1, Z.of_nat k) :: msb_list k'
  end.

Lemma msb_rounds_list : msb_rounds = msb_list 7.
Proof. vm_compute. reflexivity. Qed.

Lemma log2_div_pow2 r e : 0 <= e -> 2 ^ e <= r -> Z.log2 (r / 2 ^ e) = Z.log2 r - e.
Proof.
  intros He Hr. rewrite <- Z.shiftr_div_pow2, Z.log2_shiftr by (pose proof (Z.pow_pos_nonneg 2 e); lia).
  pose proof (Z.log2_le_mono _ _ Hr) as Hl. rewrite Z.log2_pow2 in Hl by done. lia.
Qed.

Lemma msb_round_eq k r msb : 0 <= k <= 7 -> 0 < r < 2 ^ 2 ^ (k + 1) -> 0 <= msb -> msb mod 2 ^ (k + 1) = 0 -> msb + Z.log2 r < 256 ->
  exists r' msb', msb_round (U r, U msb) (2 ^ 2 ^ k - 1, k) = Ok (U r', U msb') /\
    0 < r' < 2 ^ 2 ^ k /\ 0 <= msb' /\ msb' mod 2 ^ k = 0 /\ msb' + Z.log2 r' = msb + Z.log2 r.
Proof.
  intros Hk Hr Hmsb Hmod Hsum. pose proof (Z.log2_nonneg r).
  set (e := 2 ^ k). assert (He : 1 <= e <= 128) by (unfold e; pose proof (Z.pow_le_mono_r 2 0 k); pose proof (Z.pow_le_mono_r 2 k 7); lia).
  assert (E2 : 2 ^ (k + 1) = 2 * e) by (unfold e; rewrite Z.pow_add_r by lia; change (2 ^ 1) with 2; lia).
  assert (Er : 2 ^ 2 ^ (k + 1) = 2 ^ e * 2 ^ e) by (rewrite E2, <- Z.pow_add_r by lia; f_equal; lia).
  pose proof (Z.pow_pos_nonneg 2 e ltac:(lia) ltac:(lia)) as Hpe.
  set (b := if 2 ^ e - 1 <? r then 1 else 0). set (f := b * e).
  assert (Hb : b = 1 /\ 2 ^ e <= r \/ b = 0 /\ r < 2 ^ e) by (unfold b; destruct (Z.ltb_spec (2 ^ e - 1) r); lia).
  assert (Hr256 : r < 2 ^ 256) by (apply Z.log2_lt_cancel; rewrite Z.log2_pow2 by lia; lia).
  assert (Hf : 0 <= f < 2 ^ (k + 1)) by (unfold f; lia).
  assert (Hmf : msb + f < 256).
  { unfold f. destruct Hb as [[-> Hb]|[-> Hb]]; [|lia]. apply Z.log2_le_mono in Hb. rewrite Z.log2_pow2 in Hb by lia. lia. }
  exists (r / 2 ^ f), (msb + f). split; [|split; [|split; [lia|]]].
  - unfold msb_round. cbn [fst snd]. unfold gt_. cbn [_value to_bigint]. fold e. fold b.
    rewrite factory_lit, bind_ok by (auto with js; apply u256; lia).
    unfold shl. cbn [_value to_bigint]. rewrite Z.shiftl_mul_pow2 by lia. fold e. fold f.
    rewrite wrapping_exact, bind_ok by (auto with js; apply u256; lia).
    unfold or_. cbn [_value to_bigint]. rewrite (lor_add msb f (k + 1)) by (lia || done).
    rewrite wrapping_exact, bind_ok by (auto with js; apply u256; lia).
    unfold shr. cbn [_value to_bigint]. rewrite Z.shiftr_div_pow2 by lia. 
    assert (0 <= r / 2 ^ f <= r) by (pose proof (Z.pow_pos_nonneg 2 f ltac:(lia) ltac:(lia)); split; [apply Z.div_pos; lia|apply Z.div_le_upper_bound; nia]).
    rewrite wrapping_exact, bind_ok by (auto with js; apply u256; lia). done.
  - unfold f. destruct Hb as [[-> Hb]|[-> Hb]].
    + rewrite Z.mul_1_l. split; [apply Z.div_str_pos; lia|apply Z.div_lt_upper_bound; lia].
    + rewrite Z.mul_0_l. change (2 ^ 0) with 1. rewrite Z.div_1_r. lia.
  - fold e in Hf |- *. rewrite E2 in Hmod. apply Z.mod_divide in Hmod as [c Hc]; [|lia]. split.
    + subst msb. unfold f. replace (c * (2 * e) + b * e) with ((c * 2 + b) * e) by lia. apply Z.mod_mul. lia.
    + unfold f. destruct Hb as [[-> Hb]|[-> Hb]].
      * rewrite Z.mul_1_l, log2_div_pow2 by lia. lia.
      * rewrite Z.mul_0_l. change (2 ^ 0) with 1. rewrite Z.div_1_r. lia.
Qed.

Lemma msb_rounds_eq k r msb : (k <= 7)%nat -> 0 < r < 2 ^ 2 ^ (Z.of_nat k + 1) -> 0 <= msb -> msb mod 2 ^ (Z.of_nat k + 1) = 0 ->
  msb + Z.log2 r < 256 ->
  exists r' msb', foldM msb_round (U r, U msb) (msb_list k) = Ok (U r', U msb') /\
    0 < r' < 4 /\ 0 <= msb' /\ msb' mod 2 = 0 /\ msb' + Z.log2 r' = msb + Z.log2 r.
Proof.
  revert r msb; induction k as [|k IH]; intros r msb Hk Hr Hmsb Hmod Hsum; cbn [msb_list foldM].
  - exists r, msb. split; [done|]. change (2 ^ 2 ^ (Z.of_nat 0 + 1)) with 4 in Hr. change (2 ^ (Z.of_nat 0 + 1)) with 2 in Hmod. lia.
  - destruct (msb_round_eq (Z.of_nat (S k)) r msb) as (r1 & m1 & -> & Hr1 & Hm1 & Hmod1 & Hs1); [lia|done..|]. rewrite bind_ok.
    replace (Z.of_nat (S k)) with (Z.of_nat k + 1) in Hr1, Hmod1 by lia.
    destruct (IH r1 m1) as (r2 & m2 & -> & H2); [lia|done|done|done|lia|]. exists r2, m2. split; [done|]. lia.
Qed.

(** The rounds of the logarithm from bit [k] down, [n] of them. *)
Fixpoint countdown (k : Z) (n : nat) : list Z :=
  match n with O => [] | S n => k :: countdown (k - 1) n end.

Lemma log_rounds_countdown : log_rounds = countdown 63 13.
Proof. reflexivity. Qed.

Definition small_log (L k : Z) : Prop := - 2 ^ 80 <= L * 2 ^ k /\ (L + 1) * 2 ^ k <= 2 ^ 80.

Lemma small_log_next L b k : 0 <= k -> 0 <= b <= 1 -> small_log L (k + 1) -> small_log (2 * L + b) k.
Proof.
  unfold small_log. intros Hk Hb. rewrite Z.pow_add_r by lia. change (2 ^ 1) with 2.
  pose proof (Z.pow_pos_nonneg 2 k ltac:(lia) Hk). nia.
Qed.

(** The parts of one round. *)
Lemma log_or_eq r L k : normal r -> 0 <= k <= 63 -> small_log L (k + 1) ->
  (sq ← mul (U r) (Obj (U r)); r1 ← shr sq (Lit 127); f ← shr r1 (Lit 128); fk ← shl f (Lit k);
   l ← or_ (I (L * 2 ^ (k + 1))) (Obj fk); Ok (r1, f, l))
  = Ok (U (sq r), U (log_bit r), I ((2 * L + log_bit r) * 2 ^ k)).
Proof.
  intros Hr Hk HL. pose proof (sq_bounds r Hr) as Hs. pose proof (log_bit_cases r Hr) as Hc. unfold normal in Hr.
  assert (Hb : 0 <= log_bit r <= 1) by lia. pose proof (small_log_next L _ k ltac:(lia) Hb HL) as HL'.
  pose proof (Z.pow_pos_nonneg 2 k ltac:(lia) ltac:(lia)) as Hp. pose proof (Z.pow_le_mono_r 2 k 63 ltac:(lia) ltac:(lia)).
  unfold mul. cbn [_value to_bigint]. rewrite wrapping_exact, bind_ok by (auto with js; apply u256; nia).
  unfold shr. cbn [_value to_bigint]. rewrite Z.shiftr_div_pow2 by lia. fold (sq r).
  rewrite wrapping_exact, bind_ok by (auto with js; apply u256; lia). cbn [_value]. rewrite Z.shiftr_div_pow2 by lia. fold (log_bit r).
  rewrite wrapping_exact, bind_ok by (auto with js; apply u256; lia).
  unfold shl. cbn [_value to_bigint]. rewrite Z.shiftl_mul_pow2 by lia.
  rewrite wrapping_exact, bind_ok by (auto with js; apply u256; nia).
  unfold or_. cbn [_value to_bigint].
  assert (Hpk : 2 ^ (k + 1) = 2 * 2 ^ k) by (rewrite Z.pow_add_r by lia; change (2 ^ 1) with 2; lia).
  rewrite (lor_add _ _ (k + 1)); [|lia|apply Z.mod_mul; lia|nia].
  replace (L * 2 ^ (k + 1) + log_bit r * 2 ^ k) with ((2 * L + log_bit r) * 2 ^ k) by (rewrite Hpk; ring).
  unfold small_log in HL'. rewrite wrapping_exact, bind_ok by (auto with js; apply i256; lia). done.
Qed.

(** Goes through the same bind in [H] and in the goal. *)
Ltac peel H :=
  match type of H with
  | (?m ≫= _) = Ok _ => destruct m; [rewrite bind_ok in H; rewrite ?bind_ok|discriminate H]
  end.

Lemma log_round_eq r L k : normal r -> 0 <= k <= 63 -> small_log L (k + 1) ->
  log_round (U r, I (L * 2 ^ (k + 1))) k = Ok (U (log_rest r), I ((2 * L + log_bit r) * 2 ^ k)).
Proof.
  intros Hr Hk HL. pose proof (log_or_eq r L k Hr Hk HL) as H. unfold log_round.
  repeat peel H. injection H as -> -> ->.
  unfold shr. cbn [_value to_bigint]. pose proof (log_rest_normal r Hr) as Hn. unfold normal in Hn.
  assert (0 <= log_bit r) by (destruct (log_bit_cases r Hr) as [(-> & _)|(-> & _)]; lia).
  rewrite Z.shiftr_div_pow2 by done. fold (log_rest r). rewrite wrapping_exact, bind_ok by (auto with js; apply u256; lia). done.
Qed.

Lemma log_round_last_eq r L k : normal r -> 0 <= k <= 63 -> small_log L (k + 1) ->
  log_round_last (U r, I (L * 2 ^ (k + 1))) k = Ok (I ((2 * L + log_bit r) * 2 ^ k)).
Proof.
  intros Hr Hk HL. pose proof (log_or_eq r L k Hr Hk HL) as H. unfold log_round_last.
  repeat peel H. by injection H as -> -> ->.
Qed.

Lemma log_rounds_eq n k r L : normal r -> Z.of_nat n <= k + 1 -> k <= 63 -> small_log L (k + 1) ->
  let '(r', L') := lg_loop n r L in
  foldM log_round (U r, I (L * 2 ^ (k + 1))) (countdown k n) = Ok (U r', I (L' * 2 ^ (k + 1 - Z.of_nat n))) /\
  normal r' /\ small_log L' (k + 1 - Z.of_nat n).
Proof.
  revert k r L; induction n as [|n IH]; intros k r L Hr Hn Hk HL; cbn [lg_loop countdown foldM].
  - change (Z.of_nat 0) with 0. by rewrite Z.sub_0_r.
  - assert (Hb : 0 <= log_bit r <= 1) by (destruct (log_bit_cases r Hr) as [(-> & _)|(-> & _)]; lia).
    rewrite log_round_eq, bind_ok by (done || lia). replace k with (k - 1 + 1) at 1 by lia.
    specialize (IH (k - 1) (log_rest r) (2 * L + log_bit r) (log_rest_normal r Hr) ltac:(lia) ltac:(lia)).
    replace (k - 1 + 1) with k in * by lia. specialize (IH (small_log_next L _ k ltac:(lia) Hb HL)).
    replace (k + 1 - Z.of_nat (S n)) with (k - Z.of_nat n) by lia. exact IH.
Qed.

Lemma lg_loop_snoc n r L : snd (lg_loop (S n) r L) = let '(r', L') := lg_loop n r L in 2 * L' + log_bit r'.
Proof. revert r L; induction n as [|n IH]; intros r L; [done|]. exact (IH (log_rest r) (2 * L + log_bit r)). Qed.

Lemma lg_loop_shift n r L : snd (lg_loop n r L) = 2 ^ Z.of_nat n * L + snd (lg_loop n r 0).
Proof.
  revert r L; induction n as [|n IH]; intros r L; [cbn [lg_loop snd]; change (2 ^ Z.of_nat 0) with 1; lia|]. cbn [lg_loop].
  rewrite (IH _ (2 * L + _)), (IH _ (2 * 0 + _)). replace (Z.of_nat (S n)) with (Z.succ (Z.of_nat n)) by lia.
  rewrite Z.pow_succ_r by lia. ring.
Qed.

(** Methods whose results fit their class. *)
Section Exact.
Context (c : IntClass) (wf : wf_class c).

Lemma shl_exact z o : 0 <= to_bigint o -> in_range c (z * 2 ^ to_bigint o) ->
  shl (mkBigInt c z) o = Ok (mkBigInt c (z * 2 ^ to_bigint o)).
Proof. intros Ho Hz. unfold shl. cbn [_value]. rewrite Z.shiftl_mul_pow2 by done. by apply wrapping_exact. Qed.

Lemma shr_exact z o : 0 <= to_bigint o -> in_range c (z / 2 ^ to_bigint o) ->
  shr (mkBigInt c z) o = Ok (mkBigInt c (z / 2 ^ to_bigint o)).
Proof. intros Ho Hz. unfold shr. cbn [_value]. rewrite Z.shiftr_div_pow2 by done. by apply wrapping_exact. Qed.

Lemma sub_exact z o : in_range c (z - to_bigint o) -> sub (mkBigInt c z) o = Ok (mkBigInt c (z - to_bigint o)).
Proof. intros Hz. unfold sub. by apply wrapping_exact. Qed.

Lemma add_exact z o : in_range c (z + to_bigint o) -> add (mkBigInt c z) o = Ok (mkBigInt c (z + to_bigint o)).
Proof. intros Hz. unfold add. by apply wrapping_exact. Qed.

Lemma mul_exact z o : in_range c (z * to_bigint o) -> mul (mkBigInt c z) o = Ok (mkBigInt c (z * to_bigint o)).
Proof. intros Hz. unfold mul. by apply wrapping_exact. Qed.
End Exact.

(** The choice of the code between the candidates. *)
Definition tick_of (p : Z) : Z :=
  let l := log_2_of (p * 2 ^ 32) in
  if tick_low l =? tick_high l then tick_low l
  else if sqrtPrice (tick_high l) <=? p then tick_high l else tick_low l.

Lemma log2_bits x : 0 < x < 2 ^ 256 ->
  exists st f, foldM msb_round (U x, U 0) msb_rounds = Ok st /\
    BigIntFactory Uint256 (Lit (if gt_ (fst st) (Lit 0x1) then 1 else 0)) = Ok f /\ or_ (snd st) (Obj f) = Ok (U (Z.log2 x)).
Proof.
  intros Hx. assert (Hl : Z.log2 x < 256) by (apply Z.log2_lt_pow2; lia).
  destruct (msb_rounds_eq 7 x 0) as (r & msb & E & Hr & Hm & Hmod & Hs); [lia|exact Hx|lia|done|lia|].
  rewrite msb_rounds_list, E. set (b := if 1 <? r then 1 else 0). exists (U r, U msb), (U b). split; [done|].
  assert (Hb : 0 <= b < 2) by (unfold b; destruct (1 <? r); lia).
  split; [unfold gt_; cbn [fst _value to_bigint]; apply factory_lit; auto with js; apply u256; lia|].
  unfold or_. cbn [snd _value to_bigint]. rewrite (lor_add msb b 1) by (done || lia).
  assert (msb + b = Z.log2 x) as ->.
  { unfold b. destruct (Z.ltb_spec 1 r).
    - assert (Z.log2 r = 1) by (apply Z.log2_unique; lia). lia.
    - assert (r = 1) as -> by lia. change (Z.log2 1) with 0 in Hs. lia. }
  pose proof (Z.log2_nonneg x). apply wrapping_exact; auto with js. apply u256. lia.
Qed.

Lemma getTickAtSqrtRatio_eq p : MIN_SQRT_RATIO <= p < MAX_SQRT_RATIO -> getTickAtSqrtRatio p = Ok (tick_of p).
Proof.
  intros Hp. pose proof (log_2_range p Hp) as Hlr. pose proof (candidates_in_range p Hp) as [Hhi Hlow].
  pose proof (candidates_near p) as Hnear. unfold MAX_TICK in Hhi, Hlow. pose proof Hp as Hp'. unfold MIN_SQRT_RATIO, MAX_SQRT_RATIO in Hp'.
  set (x := p * 2 ^ 32). assert (Hx : 2 ^ 64 <= x < 2 ^ 192) by (unfold x; lia).
  assert (Hlog : 64 <= Z.log2 x < 192) by (split; [apply Z.log2_le_pow2; lia|apply Z.log2_lt_pow2; lia]).
  destruct (leading_spec x ltac:(lia)) as [Hn _].
  unfold getTickAtSqrtRatio. rewrite (factory_lit Uint160 p), bind_ok by (first [solve [auto with js] | apply in_range_U; [done|cbn; lia]]).
  unfold gte_. cbn [_value to_bigint]. rewrite (proj2 (Z.leb_le MIN_SQRT_RATIO p)) by lia. rewrite bind_ok.
  unfold lt_. cbn [_value to_bigint]. rewrite (proj2 (Z.ltb_lt p MAX_SQRT_RATIO)) by lia. rewrite bind_ok. cbn [negb].
  rewrite (factory_lit Uint256 p), bind_ok by (auto with js; apply u256; lia).
  rewrite shl_exact, bind_ok by (auto with js; cbn [to_bigint]; try apply u256; lia). cbn [to_bigint]. fold x.
  rewrite factory_obj, bind_ok by (auto with js; apply u256; cbn [_value]; lia). cbn [_value].
  rewrite (factory_lit Uint256 0), bind_ok by (auto with js; apply u256; lia).
  destruct (log2_bits x ltac:(lia)) as (st & f & -> & Hf & Hor). rewrite bind_ok, Hf, bind_ok, Hor, bind_ok. clear st f Hf Hor.
  unfold gte_. cbn [_value to_bigint].
  set (lead := if 128 <=? Z.log2 x then _ else _). assert (lead = Ok (U (leading x))) as ->.
  { unfold lead, leading. unfold normal, leading in Hn. destruct (Z.leb_spec 128 (Z.log2 x)).
    - rewrite sub_exact, bind_ok by (auto with js; apply u256; cbn [to_bigint]; lia). apply shr_exact; cbn [to_bigint _value]; auto with js; try apply u256; lia.
    - rewrite (factory_lit Uint256 127), bind_ok by (auto with js; apply u256; lia).
      rewrite sub_exact, bind_ok by (auto with js; apply u256; cbn [to_bigint _value]; lia). apply shl_exact; cbn [to_bigint _value]; auto with js; try apply u256; lia. }
  rewrite bind_ok. rewrite factory_obj, bind_ok by (auto with js; apply i256; cbn [_value]; lia). cbn [_value].
  rewrite sub_exact, bind_ok by (auto with js; apply i256; cbn [to_bigint]; lia). cbn [to_bigint].
  rewrite shl_exact, bind_ok by (auto with js; cbn [to_bigint]; try apply i256; lia). cbn [to_bigint].
  rewrite log_rounds_countdown. set (m := Z.log2 x - 128).
  assert (HL : small_log m 64) by (unfold small_log, m; lia).
  pose proof (log_rounds_eq 13 63 (leading x) m Hn ltac:(lia) ltac:(lia) HL) as Hrounds.
  assert (Hl : log_2_of x = let '(r', L') := lg_loop 13 (leading x) m in (2 * L' + log_bit r') * 2 ^ 50).
  { pose proof (lg_loop_snoc 13 (leading x) m) as Hsnoc. pose proof (lg_loop_shift 14 (leading x) m) as Hlin.
    destruct (lg_loop 13 (leading x) m) as [r' L']. rewrite <- Hsnoc, Hlin.
    unfold log_2_of, m. change (2 ^ Z.of_nat 14) with 16384. lia. }
  destruct (lg_loop 13 (leading x) m) as [r' L']. destruct Hrounds as (E & Hn' & HL').
  change (63 + 1) with 64 in E. rewrite E, bind_ok. change (64 - Z.of_nat 13) with (50 + 1) in *.
  rewrite log_round_last_eq, bind_ok by (done || lia). rewrite <- Hl. clear E Hl HL HL' Hn' r' L'. unfold tick_of. cbv zeta. fold x.
  fold x in Hlr, Hhi, Hlow, Hnear. set (l := log_2_of x) in *.
  rewrite mul_exact, bind_ok by (auto with js; apply i256; cbn [to_bigint]; lia). cbn [to_bigint]. fold log_scale.
  rewrite sub_exact, bind_ok by (auto with js; apply i256; cbn [to_bigint]; unfold log_scale; lia). cbn [to_bigint]. fold low_margin.
  rewrite shr_exact, bind_ok by (auto with js; cbn [to_bigint]; try (apply i256; fold (tick_low l)); lia). cbn [to_bigint]. fold (tick_low l).
  rewrite factory_obj, bind_ok by (auto with js; right; cbn; lia). cbn [_value].
  rewrite add_exact, bind_ok by (auto with js; apply i256; cbn [to_bigint]; unfold log_scale; lia). cbn [to_bigint]. fold high_margin.
  rewrite shr_exact, bind_ok by (auto with js; cbn [to_bigint]; try (apply i256; fold (tick_high l)); lia). cbn [to_bigint]. fold (tick_high l).
  rewrite factory_obj, bind_ok by (auto with js; right; cbn; lia). cbn [_value]. unfold eq_. cbn [_value to_bigint].
  destruct (tick_low l =? tick_high l); [done|].
  assert (Hr : - MAX_TICK <= tick_high l <= MAX_TICK) by (unfold MAX_TICK; lia).
  rewrite getSqrtRatioAtTick_eq, bind_ok by exact Hr. destruct (sqrtPrice_fits _ Hr) as (Hf1 & Hf2 & _).
  rewrite factory_lit, bind_ok.
  - unfold lte_. cbn [_value to_bigint]. by destruct (sqrtPrice (tick_high l) <=? p).
  - auto with js.
  - apply i256. unfold sqrtPrice, ceil32. destruct (_ =? 0); lia.
Qed.

Lemma tick_of_spec p : MIN_SQRT_RATIO <= p < MAX_SQRT_RATIO ->
  MIN_TICK <= tick_of p < MAX_TICK /\ sqrtPrice (tick_of p) <= p < sqrtPrice (tick_of p + 1).
Proof.
  intros Hp. destruct (candidates_in_range p Hp) as [Hhi Hlow]. pose proof (candidates_near p) as Hnear.
  pose proof (low_not_above p Hp) as Hl. pose proof (high_next_above p Hp) as Hh.
  assert (Emin : sqrtPrice (- MAX_TICK) = MIN_SQRT_RATIO) by (vm_compute; reflexivity).
  assert (Emax : sqrtPrice MAX_TICK = MAX_SQRT_RATIO) by (vm_compute; reflexivity).
  change MIN_TICK with (- MAX_TICK). unfold tick_of. set (l := log_2_of (p * 2 ^ 32)) in *.
  destruct (Z.eqb_spec (tick_low l) (tick_high l)) as [E|Hne]; [rewrite E in *; lia|].
  assert (E : tick_high l = tick_low l + 1) by lia. destruct (Z.leb_spec (sqrtPrice (tick_high l)) p) as [Hle|Hgt].
  - assert (tick_high l <> MAX_TICK) by (intros E'; rewrite E', Emax in Hle; lia). lia.
  - assert (tick_low l <> - MAX_TICK - 1) by (intros E'; rewrite E, E' in Hgt; replace (- MAX_TICK - 1 + 1) with (- MAX_TICK) in Hgt by lia; lia).
    rewrite E in *. lia.
Qed.

(** [C32] [getTickAtSqrtRatio] inverts [getSqrtRatioAtTick]: for every price in
    the allowed range it returns the greatest tick whose price is not above
    it, and in particular the price of a tick leads back to the tick. *)
Theorem getTickAtSqrtRatio_greatest p : MIN_SQRT_RATIO <= p < MAX_SQRT_RATIO ->
  exists t a b, getTickAtSqrtRatio p = Ok t /\ MIN_TICK <= t < MAX_TICK /\
    getSqrtRatioAtTick t = Ok a /\ getSqrtRatioAtTick (t + 1) = Ok b /\ a <= p < b /\
    forall u, getSqrtRatioAtTick u = Ok p -> u = t.
Proof.
  intros Hp. destruct (tick_of_spec p Hp) as [Ht Hs]. change MIN_TICK with (- MAX_TICK) in *.
  exists (tick_of p), (sqrtPrice (tick_of p)), (sqrtPrice (tick_of p + 1)).
  rewrite getTickAtSqrtRatio_eq, !getSqrtRatioAtTick_eq by lia. split_and!; try done; try lia.
  intros u Hu. destruct (decide (- MAX_TICK <= u <= MAX_TICK)) as [Hr|Hr].
  - rewrite getSqrtRatioAtTick_eq in Hu by done. injection Hu as Hu. unfold MAX_TICK in *.
    destruct (Z.lt_trichotomy u (tick_of p)) as [Hlt|[?|Hgt]]; [|done|].
    + pose proof (sqrtPrice_mono u (tick_of p) ltac:(lia) Hlt ltac:(lia)). lia.
    + destruct (Z.eq_dec u (tick_of p + 1)) as [->|]; [lia|].
      pose proof (sqrtPrice_mono (tick_of p + 1) u ltac:(lia) ltac:(lia) ltac:(lia)). lia.
  - destruct (getSqrtRatioAtTick_throws u ltac:(lia)) as (e & He). congruence.
Qed.

Lemma getTickAtSqrtRatio_greatest_witness :
  exists t a b, getTickAtSqrtRatio (2 ^ 100 + 12345) = Ok t /\ MIN_TICK <= t < MAX_TICK /\
    getSqrtRatioAtTick t = Ok a /\ getSqrtRatioAtTick (t + 1) = Ok b /\ a <= 2 ^ 100 + 12345 < b /\
    forall u, getSqrtRatioAtTick u = Ok (2 ^ 100 + 12345) -> u = t.
Proof. apply (getTickAtSqrtRatio_greatest (2 ^ 100 + 12345)). split; [vm_compute; discriminate|vm_compute; reflexivity]. Defined.
