(* ===== verification/LiquidityAmounts.v ===== *)
(** * dexLib/liquidity_amounts.js: liquidity from amounts and back *)
From S2P Require Import Prelude IntBase FullMath.
Local Open Scope Z_scope.

Definition toUint128 (x : Z) : result Z :=
  u ← BigIntFactory Uint128 (Lit x); Ok (_value u).

(** The prologue all six functions share: [A] and [B] swapped when [A > B]. *)
Definition sortRatios (sqrtRatioAX96 sqrtRatioBX96 : Z) : result (Z * Z) :=
  a ← BigIntFactory Uint160 (Lit sqrtRatioAX96);
  if gt_ a (Lit sqrtRatioBX96) then Ok (sqrtRatioBX96, sqrtRatioAX96)
  else Ok (sqrtRatioAX96, sqrtRatioBX96).

(** [Uint160.from(b).sub(a).toString()] *)
Definition ratioDiff (a b : Z) : result Z :=
  b160 ← BigIntFactory Uint160 (Lit b); d ← sub b160 (Lit a); Ok (_value d).

Definition getLiquidityForAmount0 (sqrtRatioAX96 sqrtRatioBX96 amount0 : Z) : result Z :=
  '(_sqrtRatioAX96, _sqrtRatioBX96) ← sortRatios sqrtRatioAX96 sqrtRatioBX96;
  intermediate ← mulDiv _sqrtRatioAX96 _sqrtRatioBX96 Q96;
  d ← ratioDiff _sqrtRatioAX96 _sqrtRatioBX96;
  m ← mulDiv amount0 intermediate d;
  toUint128 m.

Definition getLiquidityForAmount1 (sqrtRatioAX96 sqrtRatioBX96 amount1 : Z) : result Z :=
  '(_sqrtRatioAX96, _sqrtRatioBX96) ← sortRatios sqrtRatioAX96 sqrtRatioBX96;
  d ← ratioDiff _sqrtRatioAX96 _sqrtRatioBX96;
  m ← mulDiv amount1 Q96 d;
  toUint128 m.

Definition getLiquidityForAmounts
    (sqrtRatioX96 sqrtRatioAX96 sqrtRatioBX96 amount0 amount1 : Z) : result Z :=
  '(_sqrtRatioAX96, _sqrtRatioBX96) ← sortRatios sqrtRatioAX96 sqrtRatioBX96;
  x1 ← BigIntFactory Uint160 (Lit sqrtRatioX96);
  if lte_ x1 (Lit _sqrtRatioAX96) then
    getLiquidityForAmount0 _sqrtRatioAX96 _sqrtRatioBX96 amount0
  else
    x2 ← BigIntFactory Uint160 (Lit sqrtRatioX96);
    if lt_ x2 (Lit _sqrtRatioBX96) then
      liquidity0 ← getLiquidityForAmount0 sqrtRatioX96 _sqrtRatioBX96 amount0;
      liquidity1 ← getLiquidityForAmount1 _sqrtRatioAX96 sqrtRatioX96 amount1;
      l0 ← BigIntFactory Uint128 (Lit liquidity0);
      Ok (if lt_ l0 (Lit liquidity1) then liquidity0 else liquidity1)
    else getLiquidityForAmount1 _sqrtRatioAX96 _sqrtRatioBX96 amount1.

Definition getAmount0ForLiquidity (sqrtRatioAX96 sqrtRatioBX96 liquidity : Z) : result Z :=
  '(_sqrtRatioAX96, _sqrtRatioBX96) ← sortRatios sqrtRatioAX96 sqrtRatioBX96;
  l256 ← BigIntFactory Uint256 (Lit liquidity);
  lx96 ← shl l256 (Lit RESOLUTION);
  d ← ratioDiff _sqrtRatioAX96 _sqrtRatioBX96;
  m ← mulDiv (_value lx96) d _sqrtRatioBX96;
  m256 ← BigIntFactory Uint256 (Lit m);
  q ← div m256 (Lit _sqrtRatioAX96);
  Ok (_value q).

Definition getAmount1ForLiquidity (sqrtRatioAX96 sqrtRatioBX96 liquidity : Z) : result Z :=
  '(_sqrtRatioAX96, _sqrtRatioBX96) ← sortRatios sqrtRatioAX96 sqrtRatioBX96;
  d ← ratioDiff _sqrtRatioAX96 _sqrtRatioBX96;
  mulDiv liquidity d Q96.

Definition getAmountsForLiquidity
    (sqrtRatioX96 sqrtRatioAX96 sqrtRatioBX96 liquidity : Z) : result (Z * Z) :=
  '(_sqrtRatioAX96, _sqrtRatioBX96) ← sortRatios sqrtRatioAX96 sqrtRatioBX96;
  x1 ← BigIntFactory Uint160 (Lit sqrtRatioX96);
  if lte_ x1 (Lit _sqrtRatioAX96) then
    amount0 ← getAmount0ForLiquidity _sqrtRatioAX96 _sqrtRatioBX96 liquidity;
    Ok (amount0, 0)
  else
    x2 ← BigIntFactory Uint160 (Lit sqrtRatioX96);
    if lt_ x2 (Lit _sqrtRatioBX96) then
      amount0 ← getAmount0ForLiquidity sqrtRatioX96 _sqrtRatioBX96 liquidity;
      amount1 ← getAmount1ForLiquidity _sqrtRatioAX96 sqrtRatioX96 liquidity;
      Ok (amount0, amount1)
    else
      amount1 ← getAmount1ForLiquidity _sqrtRatioAX96 _sqrtRatioBX96 liquidity;
      Ok (0, amount1).

(** ** Closed forms *)
Definition price_ok (p : Z) : Prop := 0 < p < 2 ^ 160.

Definition liq0 (a b x : Z) : Z := x * (a * b / 2 ^ 96) / (b - a).
Definition liq1 (a b x : Z) : Z := x * 2 ^ 96 / (b - a).
Definition amt0 (a b l : Z) : Z := l * 2 ^ 96 * (b - a) / b / a.
Definition amt1 (a b l : Z) : Z := l * (b - a) / 2 ^ 96.

Lemma u160_from p : price_ok p -> BigIntFactory Uint160 (Lit p) = Ok (mkBigInt Uint160 p).
Proof. intros [? ?]. apply factory_lit; [auto with js|in_range_tac]. Qed.

Lemma sortRatios_eq a b : price_ok a -> sortRatios a b = Ok (Z.min a b, Z.max a b).
Proof.
  intros Ha. unfold sortRatios. rewrite u160_from, bind_ok by done.
  unfold gt_. cbn [_value to_bigint]. zbool; repeat f_equal; lia.
Qed.

Lemma ratioDiff_eq a b : 0 <= a <= b -> price_ok b -> ratioDiff a b = Ok (b - a).
Proof.
  intros Ha Hb. unfold ratioDiff. rewrite u160_from, bind_ok by done.
  unfold sub. cbn [_value to_bigint]. destruct Hb.
  rewrite wrapping_exact; [done|auto with js|in_range_tac].
Qed.

Lemma toUint128_eq x : 0 <= x ->
  (x < 2 ^ 128 -> toUint128 x = Ok x) /\ (2 ^ 128 <= x -> exists e, toUint128 x = Throw e).
Proof.
  intros Hx. unfold toUint128. split; intros H.
  - rewrite factory_lit; [done|auto with js|in_range_tac].
  - destruct (construct_out_of_range Uint128 x ltac:(auto with js)) as [e E].
    { intros Hr%in_range_U_inv; [cbn in Hr; lia|done|done]. }
    exists e. cbn [BigIntFactory]. by rewrite E.
Qed.

Lemma toUint128_Ok_inv x l : 0 <= x -> toUint128 x = Ok l -> l = x /\ x < 2 ^ 128.
Proof.
  intros Hx H. destruct (toUint128_eq x Hx) as [H1 H2].
  destruct (Z.lt_ge_cases x (2 ^ 128)) as [Hlt|Hge].
  - rewrite H1 in H by done. by simplify_eq.
  - destruct (H2 Hge) as [e E]. congruence.
Qed.

Section Forms.
Context (a b : Z) (Ha : price_ok a) (Hb : price_ok b) (Hab : a < b).

Lemma minmax_lt : Z.min a b = a /\ Z.max a b = b.
Proof. lia. Qed.

Lemma liquidity0_Ok_inv x l : 0 <= x ->
  getLiquidityForAmount0 a b x = Ok l -> l = liq0 a b x /\ 0 <= l < 2 ^ 128.
Proof.
  intros Hx H. unfold getLiquidityForAmount0 in H.
  rewrite sortRatios_eq, bind_ok in H by done. destruct minmax_lt as [E1 E2].
  rewrite E1, E2 in H. destruct Ha, Hb.
  rewrite (mulDiv_floor a b) in H; [|lia|lia|unfold Q96; lia|].
  2: { change Q96 with (2 ^ 96). apply Z.div_lt_upper_bound; nia. }
  rewrite bind_ok, ratioDiff_eq, bind_ok in H by (lia || done).
  assert (0 <= a * b / Q96) by (apply Z.div_pos; [nia|unfold Q96; lia]).
  inv_ok H. apply mulDiv_Ok_inv in Ha0 as [-> ?]; [|lia..].
  apply toUint128_Ok_inv in H; [|lia]. unfold liq0. change Q96 with (2 ^ 96) in *. lia.
Qed.

Lemma liquidity1_Ok_inv x l : 0 <= x ->
  getLiquidityForAmount1 a b x = Ok l -> l = liq1 a b x /\ 0 <= l < 2 ^ 128.
Proof.
  intros Hx H. unfold getLiquidityForAmount1 in H.
  rewrite sortRatios_eq, bind_ok in H by done. destruct minmax_lt as [E1 E2].
  rewrite E1, E2 in H. destruct Ha, Hb.
  rewrite ratioDiff_eq, bind_ok in H by (lia || done).
  inv_ok H. apply mulDiv_Ok_inv in Ha0 as [-> ?]; [|unfold Q96; lia..].
  apply toUint128_Ok_inv in H; [|lia]. unfold liq1. change Q96 with (2 ^ 96) in *. lia.
Qed.

Lemma amount0_eq l : 0 <= l < 2 ^ 128 -> getAmount0ForLiquidity a b l = Ok (amt0 a b l).
Proof.
  intros Hl. unfold getAmount0ForLiquidity. destruct Ha, Hb.
  rewrite sortRatios_eq, bind_ok by done. destruct minmax_lt as [-> ->].
  rewrite (factory_lit Uint256), bind_ok by (auto with js; in_range_tac).
  unfold shl. cbn [_value to_bigint]. unfold RESOLUTION. rewrite Z.shiftl_mul_pow2 by lia.
  rewrite wrapping_exact, bind_ok by (auto with js; in_range_tac).
  rewrite ratioDiff_eq, bind_ok by (lia || done). cbn [_value].
  assert (0 <= l * 2 ^ 96 * (b - a)) by nia.
  assert (l * 2 ^ 96 * (b - a) / b <= l * 2 ^ 96) by (apply Z.div_le_upper_bound; nia).
  assert (0 <= l * 2 ^ 96 * (b - a) / b) by (apply Z.div_pos; lia).
  rewrite mulDiv_floor, bind_ok by lia.
  rewrite (factory_lit Uint256), bind_ok by (auto with js; in_range_tac).
  unfold div. cbn [_value to_bigint]. destruct (Z.eqb_spec a 0); [lia|].
  rewrite Z.quot_div_nonneg by lia.
  assert (l * 2 ^ 96 * (b - a) / b / a <= l * 2 ^ 96) by (apply Z.div_le_upper_bound; nia).
  assert (0 <= l * 2 ^ 96 * (b - a) / b / a) by (apply Z.div_pos; lia).
  rewrite wrapping_exact by (auto with js; in_range_tac). done.
Qed.

Lemma amount1_eq l : 0 <= l < 2 ^ 128 -> getAmount1ForLiquidity a b l = Ok (amt1 a b l).
Proof.
  intros Hl. unfold getAmount1ForLiquidity. destruct Ha, Hb.
  rewrite sortRatios_eq, bind_ok by done. destruct minmax_lt as [-> ->].
  rewrite ratioDiff_eq, bind_ok by (lia || done). apply mulDiv_floor; try lia; [unfold Q96; lia|].
  change Q96 with (2 ^ 96). apply Z.div_lt_upper_bound; nia.
Qed.

(** The pool never asks for more than was offered. *)
Lemma amt0_le x l : 0 <= x -> 0 <= l <= liq0 a b x -> amt0 a b l <= x.
Proof.
  intros Hx Hl. unfold liq0, amt0 in *. destruct Ha, Hb.
  pose proof (mul_div_le_r (a * b) (2 ^ 96) ltac:(lia)) as E1.
  pose proof (mul_div_le_r (x * (a * b / 2 ^ 96)) (b - a) ltac:(lia)) as E2.
  set (i := a * b / 2 ^ 96) in *. set (m := x * i / (b - a)) in *.
  apply Z.div_le_upper_bound; [lia|]. apply Z.div_le_upper_bound; [lia|].
  assert (l * (b - a) <= x * i) by nia. nia.
Qed.

Lemma amt1_le x l : 0 <= x -> 0 <= l <= liq1 a b x -> amt1 a b l <= x.
Proof.
  intros Hx Hl. unfold liq1, amt1 in *.
  pose proof (mul_div_le_r (x * 2 ^ 96) (b - a) ltac:(lia)) as E2.
  set (m := x * 2 ^ 96 / (b - a)) in *. apply Z.div_le_upper_bound; [lia|]. nia.
Qed.

End Forms.

(** ** Properties *)

Lemma getLiquidityForAmounts_sorted p a b x0 x1 : price_ok a -> price_ok b ->
  getLiquidityForAmounts p a b x0 x1
    = getLiquidityForAmounts p (Z.min a b) (Z.max a b) x0 x1.
Proof.
  intros Ha Hb. unfold getLiquidityForAmounts.
  rewrite sortRatios_eq, sortRatios_eq by (unfold price_ok in *; lia).
  by replace (Z.min (Z.min a b) (Z.max a b)) with (Z.min a b) by lia;
    replace (Z.max (Z.min a b) (Z.max a b)) with (Z.max a b) by lia.
Qed.

Lemma getAmountsForLiquidity_sorted p a b l : price_ok a -> price_ok b ->
  getAmountsForLiquidity p a b l = getAmountsForLiquidity p (Z.min a b) (Z.max a b) l.
Proof.
  intros Ha Hb. unfold getAmountsForLiquidity.
  rewrite sortRatios_eq, sortRatios_eq by (unfold price_ok in *; lia).
  by replace (Z.min (Z.min a b) (Z.max a b)) with (Z.min a b) by lia;
    replace (Z.max (Z.min a b) (Z.max a b)) with (Z.max a b) by lia.
Qed.

(** The two calls, for an ordered range. *)
Lemma mint_amounts_bounded p a b x0 x1 l :
  price_ok p -> price_ok a -> price_ok b -> a < b -> 0 <= x0 -> 0 <= x1 ->
  getLiquidityForAmounts p a b x0 x1 = Ok l ->
  exists y0 y1, getAmountsForLiquidity p a b l = Ok (y0, y1) /\ y0 <= x0 /\ y1 <= x1.
Proof.
  intros Hp Ha Hb Hab Hx0 Hx1 H.
  unfold getLiquidityForAmounts, getAmountsForLiquidity in *.
  rewrite sortRatios_eq, bind_ok in H by done. rewrite sortRatios_eq, bind_ok by done.
  replace (Z.min a b) with a in * by lia. replace (Z.max a b) with b in * by lia.
  rewrite !u160_from, !bind_ok in H by done. rewrite !u160_from, !bind_ok by done.
  unfold lte_, lt_ in *. cbn [_value to_bigint] in *.
  destruct (Z.leb_spec p a); [|destruct (Z.ltb_spec p b)].
  - apply liquidity0_Ok_inv in H as [-> ?]; try done.
    rewrite amount0_eq by done. eexists _, _. split_and!; [reflexivity|apply amt0_le; try done; lia|done].
  - inv_ok H. apply liquidity0_Ok_inv in Ha0 as [-> Hb0]; try done.
    apply liquidity1_Ok_inv in Ha1 as [-> Hb1]; try done.
    injection H as <-. rewrite factory_lit in Ha2; [|auto with js|in_range_tac].
    injection Ha2 as <-. cbn [_value].
    set (l0 := liq0 p b x0) in *. set (l1 := liq1 a p x1) in *.
    assert (0 <= (if l0 <? l1 then l0 else l1) < 2 ^ 128) by (zbool; lia).
    rewrite amount0_eq, bind_ok, amount1_eq, bind_ok by done.
    eexists _, _. split_and!; [reflexivity| |].
    + apply amt0_le; try done. fold l0. zbool; lia.
    + apply amt1_le; try done. fold l1. zbool; lia.
  - apply liquidity1_Ok_inv in H as [-> ?]; try done.
    rewrite amount1_eq by done. eexists _, _. split_and!; [reflexivity|done|apply amt1_le; try done; lia].
Qed.

(** [C14] Adding liquidity never takes more than was offered: whenever
    [getLiquidityForAmounts] turns the offered amounts into a liquidity, for a
    price range given in either order, [getAmountsForLiquidity] of that
    liquidity returns and both amounts are at most the offered ones. *)
Theorem liquidity_amounts_safe p a b x0 x1 l :
  price_ok p -> price_ok a -> price_ok b -> a <> b -> 0 <= x0 -> 0 <= x1 ->
  getLiquidityForAmounts p a b x0 x1 = Ok l ->
  exists y0 y1, getAmountsForLiquidity p a b l = Ok (y0, y1) /\ y0 <= x0 /\ y1 <= x1.
Proof.
  intros Hp Ha Hb Hab Hx0 Hx1 H.
  rewrite getLiquidityForAmounts_sorted in H by done.
  rewrite getAmountsForLiquidity_sorted by done.
  apply (mint_amounts_bounded p (Z.min a b) (Z.max a b) x0 x1 l); try done;
    unfold price_ok in *; lia.
Qed.

Lemma liquidity_amounts_safe_witness :
  exists y0 y1,
    getAmountsForLiquidity 79228162514264337593543950336 79623317895830914510639640423
      78833030112140176575862854579 201498756 = Ok (y0, y1) /\ y0 <= 1000000 /\ y1 <= 2000000.
Proof.
  apply (liquidity_amounts_safe _ _ _ 1000000 2000000);
    [unfold price_ok; lia|unfold price_ok; lia|unfold price_ok; lia|lia|lia|lia|].
  vm_compute. reflexivity.
Defined.
