(* ===== verification/JsValue.v ===== *)
(** * JavaScript values

    The values the services pass around: the data of transactions, events and
    query parameters.  A [number] is an integer ([Num]) or [NaN]; numbers with
    a fractional part do not occur in the modelled code.  Integers beyond
    [2^53] are rounded by [Number] as IEEE doubles are ([to_double]).  An
    object is the list of its own enumerable properties in insertion order. *)
From S2P Require Import Prelude.
From Stdlib Require Import Ascii DecimalString DecimalZ DecimalPos.
Set Warnings "-register-all".
Local Open Scope Z_scope.

Inductive val : Type :=
| Undef
| Null
| Bool (b : bool)
| Num (z : Z)
| NaN
| BigI (z : Z)
| Str (s : string)
| Arr (l : list val)
| Object (o : list (string * val)).

Abbreviation obj := (list (string * val)).

Section val_ind'.
Context (P : val -> Prop).
Hypotheses (HU : P Undef) (HN : P Null) (HB : forall b, P (Bool b)) (HZ : forall z, P (Num z))
  (HNaN : P NaN) (HBi : forall z, P (BigI z)) (HS : forall s, P (Str s))
  (HA : forall l, Forall P l -> P (Arr l))
  (HO : forall o, Forall (fun kv => P (snd kv)) o -> P (Object o)).

Fixpoint val_ind' (v : val) : P v :=
  match v with
  | Undef => HU | Null => HN | Bool b => HB b | Num z => HZ z | NaN => HNaN
  | BigI z => HBi z | Str s => HS s
  | Arr l => HA l ((fix go l : Forall P l :=
                     match l with
                     | [] => Forall_nil_2 _
                     | v :: l => Forall_cons_2 _ _ _ (val_ind' v) (go l)
                     end) l)
  | Object o => HO o ((fix go o : Forall (fun kv => P (snd kv)) o :=
                     match o with
                     | [] => Forall_nil_2 _
                     | kv :: o => Forall_cons_2 (fun kv => P (snd kv)) kv o (val_ind' (snd kv)) (go o)
                     end) o)
  end.
End val_ind'.

Lemma val_dec : forall x y : val, {x = y} + {x <> y}.
Proof.
  fix go 1. intros x y.
  assert (EqDecision val) as Hgo by exact go.
  decide equality; try apply (decide (_ = _)); apply go.
Defined.
#[export] Instance val_eq_dec : EqDecision val := val_dec.

(** ** Properties of objects *)

(** [o[key]]: [undefined] when there is no such property. *)
Fixpoint prop (o : obj) (key : string) : val :=
  match o with
  | [] => Undef
  | (k, v) :: o => if String.eqb k key then v else prop o key
  end.

(** [key in o] *)
Definition has_prop (o : obj) (key : string) : bool :=
  existsb (fun kv => String.eqb (fst kv) key) o.

(** [o[key] = v]: replaces in place or appends. *)
Fixpoint set_prop (o : obj) (key : string) (v : val) : obj :=
  match o with
  | [] => [(key, v)]
  | (k, w) :: o => if String.eqb k key then (k, v) :: o else (k, w) :: set_prop o key v
  end.

(** [{ ...a, ...b }] *)
Definition spread (a b : obj) : obj :=
  foldl (fun acc kv => set_prop acc (fst kv) (snd kv)) a b.

(** [v.key], which throws on [undefined] and [null]. *)
Definition get (v : val) (key : string) : result val :=
  match v with
  | Object o => Ok (prop o key)
  | Undef => Throw ("Cannot read properties of undefined (reading '" +:+ key +:+ "')")
  | Null => Throw ("Cannot read properties of null (reading '" +:+ key +:+ "')")
  | _ => Ok Undef
  end.

(** ** Conversions *)

Definition string_of_Z (z : Z) : string := NilZero.string_of_int (Z.to_int z).
Definition parse_Z (s : string) : option Z := Z.of_int <$> NilZero.int_of_string s.

(** The nearest double of an integer, ties to even (53 significant bits). *)
Definition to_double (z : Z) : Z :=
  let n := Z.abs z in
  if n <? 2 ^ 53 then z
  else
    let e := Z.log2 n - 52 in
    let q := n / 2 ^ e in
    let r := n mod 2 ^ e in
    let q' := if (2 ^ (e - 1) <? r) || ((r =? 2 ^ (e - 1)) && Z.odd q) then q + 1 else q in
    Z.sgn z * (q' * 2 ^ e).

(** [Boolean(v)] *)
Definition truthy (v : val) : bool :=
  match v with
  | Undef | Null | NaN => false
  | Bool b => b
  | Num z | BigI z => negb (z =? 0)
  | Str s => negb (String.eqb s "")
  | Arr _ | Object _ => true
  end.

(** [Number(v)] *)
Definition js_Number (v : val) : val :=
  match v with
  | Undef | NaN | Arr _ | Object _ => NaN
  | Null => Num 0
  | Bool b => Num (if b then 1 else 0)
  | Num z => Num z
  | BigI z => Num (to_double z)
  | Str s => if String.eqb s "" then Num 0
             else match parse_Z s with Some z => Num (to_double z) | None => NaN end
  end.

(** [String(v)] *)
Fixpoint js_String (v : val) : string :=
  match v with
  | Undef => "undefined" | Null => "null" | NaN => "NaN"
  | Bool b => if b then "true" else "false"
  | Num z | BigI z => string_of_Z z
  | Str s => s
  | Arr l =>
      (fix join l := match l with
        | [] => ""
        | [v] => match v with Undef | Null => "" | _ => js_String v end
        | v :: l => match v with Undef | Null => "" | _ => js_String v end +:+ "," +:+ join l
        end) l
  | Object _ => "[object Object]"
  end.

(** [BigInt(v)] *)
Definition js_BigInt (v : val) : result Z :=
  match v with
  | Num z | BigI z => Ok z
  | Bool b => Ok (if b then 1 else 0)
  | Str s => if String.eqb s "" then Ok 0
             else match parse_Z s with
                  | Some z => Ok z
                  | None => Throw ("Cannot convert " +:+ s +:+ " to a BigInt")
                  end
  | NaN => Throw "The number NaN cannot be converted to a BigInt because it is not an integer"
  | Undef => Throw "Cannot convert undefined to a BigInt"
  | Null => Throw "Cannot convert null to a BigInt"
  | Arr _ | Object _ => Throw "Cannot convert object to a BigInt"
  end.

(** [typeof v] *)
Definition typeof (v : val) : string :=
  match v with
  | Undef => "undefined" | Bool _ => "boolean" | Num _ | NaN => "number"
  | BigI _ => "bigint" | Str _ => "string"
  | Null | Arr _ | Object _ => "object"
  end.

Definition is_array (v : val) : bool := match v with Arr _ => true | _ => false end.

(** [Array.isArray(v) ? v : [v]] *)
Definition as_array (v : val) : list val := match v with Arr l => l | _ => [v] end.

(** ** Texts *)

(** [s.split(c)] for a separator of one character. *)
Fixpoint split_on (c : ascii) (s : string) : list string :=
  match s with
  | EmptyString => [""]
  | String a s' =>
      if Ascii.eqb a c then "" :: split_on c s'
      else match split_on c s' with
           | w :: ws => String a w :: ws
           | [] => [String a ""]
           end
  end.

Fixpoint join (sep : string) (l : list string) : string :=
  match l with
  | [] => ""
  | [s] => s
  | s :: l => s +:+ sep +:+ join sep l
  end.

(** [s.includes(p)] *)
Fixpoint str_includes (p s : string) : bool :=
  String.prefix p s || match s with EmptyString => false | String _ s => str_includes p s end.

(** Does the character occur in the text? *)
Fixpoint has_char (c : ascii) (s : string) : bool :=
  match s with EmptyString => false | String a s' => Ascii.eqb a c || has_char c s' end.

(** ** Facts *)
Lemma to_int_nonnil z : Z.to_int z <> Decimal.Pos Decimal.Nil /\ Z.to_int z <> Decimal.Neg Decimal.Nil.
Proof.
  pose proof (fun p => Unsigned.to_uint_nonnil p) as Hp.
  split; intros H; destruct z as [|p|p]; cbn in H; try discriminate;
    injection H as H; by apply (Hp p).
Qed.

Lemma parse_string_of_Z z : parse_Z (string_of_Z z) = Some z.
Proof.
  unfold parse_Z, string_of_Z. destruct (to_int_nonnil z) as [H1 H2].
  rewrite NilZero.isi by done. simpl. by rewrite DecimalZ.of_to.
Qed.

Lemma string_of_Z_nonempty z : string_of_Z z <> "".
Proof. intros H. pose proof (parse_string_of_Z z) as E. rewrite H in E. discriminate. Qed.

Lemma string_of_Z_inj a b : string_of_Z a = string_of_Z b -> a = b.
Proof.
  intros H. apply (f_equal parse_Z) in H. rewrite !parse_string_of_Z in H. by simplify_eq.
Qed.

Lemma to_double_exact z : Z.abs z < 2 ^ 53 -> to_double z = z.
Proof. intros. unfold to_double. by rewrite (proj2 (Z.ltb_lt _ _)) by done. Qed.

Lemma js_BigInt_String z : js_BigInt (Str (string_of_Z z)) = Ok z.
Proof.
  simpl. destruct (String.eqb_spec (string_of_Z z) "") as [E|_].
  - by apply string_of_Z_nonempty in E.
  - by rewrite parse_string_of_Z.
Qed.

Lemma js_Number_String z : js_Number (Str (string_of_Z z)) = Num (to_double z).
Proof.
  simpl. destruct (String.eqb_spec (string_of_Z z) "") as [E|_].
  - by apply string_of_Z_nonempty in E.
  - by rewrite parse_string_of_Z.
Qed.

Lemma prop_set_eq o k v : prop (set_prop o k v) k = v.
Proof.
  induction o as [|[k' w] o IH]; simpl; [by rewrite String.eqb_refl|].
  destruct (String.eqb k' k) eqn:E; simpl; by rewrite E.
Qed.

Lemma prop_set_ne o k k' v : k <> k' -> prop (set_prop o k v) k' = prop o k'.
Proof.
  intros Hne. induction o as [|[j w] o IH]; simpl.
  - by destruct (String.eqb_spec k k').
  - destruct (String.eqb_spec j k) as [->|]; simpl.
    + by destruct (String.eqb_spec k k').
    + by rewrite IH.
Qed.

Lemma has_prop_set_eq o k v : has_prop (set_prop o k v) k = true.
Proof.
  induction o as [|[j w] o IH]; simpl; [by rewrite String.eqb_refl|].
  destruct (String.eqb j k) eqn:E; simpl; rewrite E; [done|]. exact IH.
Qed.

Lemma has_prop_set_ne o k k' v : k <> k' -> has_prop (set_prop o k v) k' = has_prop o k'.
Proof.
  intros Hne. induction o as [|[j w] o IH]; simpl.
  - by destruct (String.eqb_spec k k').
  - destruct (String.eqb_spec j k) as [->|]; simpl; [done|]. by rewrite <- IH.
Qed.

(** ** Names of properties *)
Lemma keys_set_prop o k v : fst <$> set_prop o k v = if has_prop o k then fst <$> o else (fst <$> o) ++ [k].
Proof.
  induction o as [|[j w] o IH]; [done|]. unfold has_prop in *. cbn [set_prop existsb fst].
  destruct (String.eqb j k) eqn:E; [done|]. rewrite !fmap_cons, IH. cbn [orb]. by destruct (existsb _ o).
Qed.

Lemma has_prop_elem o k : has_prop o k = true <-> k ∈ fst <$> o.
Proof.
  unfold has_prop. rewrite existsb_exists. setoid_rewrite <- list_elem_of_In. rewrite list_elem_of_fmap.
  split.
  - intros ([j w] & Hin & E). apply String.eqb_eq in E. simpl in E. subst. by exists (k, w).
  - intros ([j w] & -> & Hin). exists (j, w). split; [done|]. apply String.eqb_refl.
Qed.

Lemma elem_of_set_prop o k v j w : NoDup (fst <$> o) -> (j, w) ∈ set_prop o k v ->
  (j = k /\ w = v) \/ (j <> k /\ (j, w) ∈ o).
Proof.
  induction o as [|[i u] o IH]; simpl; intros Hnd.
  - intros [[= -> ->]|Hn%not_elem_of_nil]%elem_of_cons; [by left|done].
  - apply NoDup_cons in Hnd as [Hni Hnd]. destruct (String.eqb_spec i k) as [->|Hik].
    + intros [[= -> ->]|Hin]%elem_of_cons; [by left|]. right. split; [|by right].
      intros ->. apply Hni. apply list_elem_of_fmap. by exists (k, w).
    + intros [[= -> ->]|Hin]%elem_of_cons; [right; split; [done|by left]|].
      destruct (IH Hnd Hin) as [?|[? ?]]; [by left|]. right. split; [done|by right].
Qed.

Lemma set_prop_fresh (o : obj) k v : k ∉ (fst <$> o) -> set_prop o k v = o ++ [(k, v)].
Proof.
  induction o as [|[k' w] o IH]; [done|]. rewrite fmap_cons, not_elem_of_cons. simpl.
  intros [Hne Ho]. destruct (String.eqb_spec k' k); [congruence|]. by rewrite IH.
Qed.

Lemma NoDup_set_prop o k v : NoDup (fst <$> o) -> NoDup (fst <$> set_prop o k v).
Proof.
  intros Hnd. rewrite keys_set_prop. destruct (has_prop o k) eqn:E; [done|].
  apply NoDup_app. split; [done|]. split; [|apply NoDup_singleton].
  intros j Hj ->%list_elem_of_singleton. apply has_prop_elem in Hj. congruence.
Qed.
Lemma prop_elem (o : obj) k v : NoDup (fst <$> o) -> (k, v) ∈ o -> prop o k = v.
Proof.
  induction o as [|[k' v'] o IH]; intros Hu Hin; [by apply not_elem_of_nil in Hin|].
  rewrite fmap_cons in Hu. apply NoDup_cons in Hu as [Hn Hu]. simpl.
  apply elem_of_cons in Hin as [[= <- <-]|Hin]; [by rewrite String.eqb_refl|].
  destruct (String.eqb_spec k' k) as [->|]; [|by apply IH].
  destruct Hn. apply list_elem_of_fmap. by exists (k, v).
Qed.

Lemma elem_of_keys_set_prop (o : obj) k v j : j ∈ fst <$> (set_prop o k v) <-> j = k \/ j ∈ fst <$> o.
Proof.
  rewrite keys_set_prop. destruct (has_prop o k) eqn:E.
  - split; [by right|]. intros [->|?]; [by apply has_prop_elem|done].
  - rewrite elem_of_app, list_elem_of_singleton. tauto.
Qed.

Lemma keys_spread a b j : j ∈ fst <$> (spread a b) <-> j ∈ fst <$> a \/ j ∈ fst <$> b.
Proof.
  unfold spread. revert a; induction b as [|[k v] b IH]; intros a.
  - simpl. rewrite elem_of_nil. tauto.
  - cbn [foldl fst snd]. rewrite IH, elem_of_keys_set_prop, fmap_cons, elem_of_cons. cbn [fst]. tauto.
Qed.

Lemma prop_not_key (o : obj) k : k ∉ fst <$> o -> prop o k = Undef.
Proof.
  induction o as [|[j w] o IH]; [done|]. rewrite fmap_cons, not_elem_of_cons. cbn [fst prop]. intros [Hne Hni].
  destruct (String.eqb_spec j k) as [->|]; [done|by apply IH].
Qed.

Lemma prop_keys (o : obj) k : prop o k <> Undef -> k ∈ fst <$> o.
Proof. intros Hp. destruct (decide (k ∈ fst <$> o)) as [|Hn]; [done|]. by apply prop_not_key in Hn. Qed.

Lemma prop_spread a b k : NoDup (fst <$> b) ->
  prop (spread a b) k = if decide (k ∈ fst <$> b) then prop b k else prop a k.
Proof.
  unfold spread. revert a. induction b as [|[j v] b IH]; intros a; cbn [foldl fmap list_fmap fst snd prop].
  { intros _. case_decide as Hd; [by apply not_elem_of_nil in Hd|done]. }
  intros [Hj Hnd]%NoDup_cons. rewrite IH by done.
  destruct (String.eqb_spec j k) as [->|Hne].
  - rewrite (decide_False (P := k ∈ fst <$> b)) by done. rewrite decide_True by (by left). apply prop_set_eq.
  - rewrite prop_set_ne by done. case_decide as H1; case_decide as H2; try done.
    + destruct H2. by right.
    + apply elem_of_cons in H2 as [->|]; done.
Qed.


#[export] Hint Rewrite parse_string_of_Z js_BigInt_String prop_set_eq : js.

(** ** Splitting and joining texts *)
Lemma has_char_app c s t : has_char c (s +:+ t) = has_char c s || has_char c t.
Proof. induction s as [|a s IH]; [done|]. simpl. by rewrite IH, orb_assoc. Qed.

Lemma split_on_none c s : has_char c s = false -> split_on c s = [s].
Proof.
  induction s as [|a s IH]; simpl; [done|]. intros [Ha Hs]%orb_false_iff. by rewrite Ha, IH.
Qed.

Lemma split_on_cons c s t : has_char c s = false -> split_on c (s +:+ String c t) = s :: split_on c t.
Proof.
  induction s as [|a s IH]; simpl; [by rewrite Ascii.eqb_refl|].
  intros [Ha Hs]%orb_false_iff. by rewrite Ha, IH.
Qed.

Lemma split_on_app c s t : split_on c (s +:+ String c t) = split_on c s ++ split_on c t.
Proof.
  induction s as [|a s IH]; simpl; [by rewrite Ascii.eqb_refl|].
  rewrite IH. destruct (Ascii.eqb a c); [done|]. destruct (split_on c s) as [|w ws] eqn:E; [|done].
  destruct s as [|b s]; simpl in E; [done|]. destruct (Ascii.eqb b c); [done|]. by destruct (split_on c s).
Qed.

(** Splitting undoes joining. *)
Lemma split_join c l : Forall (fun s => has_char c s = false) l -> l <> [] -> split_on c (join (String c "") l) = l.
Proof.
  induction 1 as [|s l Hs Hl IH]; [done|]. intros _. destruct l as [|t l]; [by apply split_on_none|].
  change (split_on c (s +:+ String c (join (String c "") (t :: l))) = s :: t :: l).
  rewrite split_on_cons by done. by rewrite IH.
Qed.
