(* ===== verification/Database.v ===== *)
(** * framework/src/database/util.js: tables, rows and queries

    The operations a service performs on a table.  [knex] and MySQL are not
    part of the repository: what [util.js] asks of them is a list of
    query-builder calls ([clause]), and the engine that executes statements is
    a parameter ([SqlEngine]) whose documented behaviour is stated in
    [SqlLaws] (file Engine).  Parameters ([params], [where], rows) are the
    JavaScript objects the callers pass. *)
From S2P Require Import Prelude JsValue.
From Stdlib Require Import Ascii.
Local Open Scope Z_scope.
Set Warnings "-register-all".

(** ** Strings *)

(** [s.split(sep)] for a one-character separator. *)
Fixpoint js_split (sep : ascii) (s : string) : list string :=
  match s with
  | EmptyString => [""%string]
  | String c s =>
      if Ascii.eqb c sep then ""%string :: js_split sep s
      else match js_split sep s with
           | w :: ws => String c w :: ws
           | [] => [String c EmptyString]
           end
  end.

(** [CHAR_ESCAPE_MAP] and [escapeUserInput]: [%] and [_] lose their meaning
    in a [LIKE] pattern. *)
Fixpoint escapeUserInput (s : string) : string :=
  match s with
  | EmptyString => EmptyString
  | String c s =>
      if Ascii.eqb c "%" then String "\" (String "%" (escapeUserInput s))
      else if Ascii.eqb c "_" then String "\" (String "_" (escapeUserInput s))
      else String c (escapeUserInput s)
  end.

(** ** Table definitions *)
Record column := mkCol {
  ctype : string;
  cprec : option (Z * Z);
  cincrements : bool;
  cnull : option bool;
  cdefault : option val
}.

Record table := mkTable {
  tableName : string;
  primaryKey : val;
  charset : option string;
  schema : list (string * column);
  indexes : list (string * string);
  compositeIndexes : list (string * list (string * string))
}.

(** [{ type: t }], with [null: n], [defaultValue: d] or a decimal precision. *)
Definition col (t : string) : column := mkCol t None false None None.
Definition coln (t : string) (n : bool) : column := mkCol t None false (Some n) None.
Definition cold (t : string) (n : option bool) (d : val) : column := mkCol t None false n (Some d).
Definition dec (p s : Z) : column := mkCol "decimal" (Some (p, s)) false None None.

(** The statements [loadSchema] issues for a table that does not exist. *)
Inductive ddl :=
| DCharset (c : string)
| DColumn (name type : string) (precision : option (Z * Z)) (notNull : bool) (dflt : option val)
    (indexed : bool)
| DPrimary (pk : val)
| DRaw (statement : string).

Definition column_ddl (t : table) (cc : string * column) : ddl :=
  let '(p, c) := cc in
  DColumn p (if String.eqb (ctype c) "decimal" then "decimal"
             else if cincrements c then "increments" else ctype c)
    (if String.eqb (ctype c) "decimal" then cprec c else None)
    (bool_decide (cnull c = Some false)) (cdefault c)
    (existsb (fun kv => String.eqb (fst kv) p) (indexes t)).

Definition index_ddl (t : table) (kd : string * list (string * string)) : ddl :=
  let '(key, directions) := kd in
  let indexColumns :=
    String.concat ", " ((fun d => "`" +:+ fst d +:+ "` " +:+ snd d) <$> directions) in
  DRaw ("ALTER TABLE " +:+ tableName t +:+ " ADD INDEX " +:+ tableName t +:+ "_index_" +:+ key
        +:+ " (" +:+ indexColumns +:+ ")").

Definition loadSchema (hasTable : bool) (t : table) : list ddl :=
  if hasTable then []
  else match charset t with Some c => [DCharset c] | None => [] end
       ++ (column_ddl t <$> schema t) ++ [DPrimary (primaryKey t)]
       ++ (index_ddl t <$> compositeIndexes t).

(** The columns of the primary key. *)
Definition pk_columns (t : table) : list string := js_String <$> as_array (primaryKey t).

(** ** Rows *)

(** [JSON.stringify]: quotes, backslashes and control characters are escaped. *)
Definition hex_char (n : nat) : ascii := default "0"%char (String.get n "0123456789abcdef").

Definition escape_char (c : ascii) : string :=
  let n := nat_of_ascii c in
  if Ascii.eqb c "034" || Ascii.eqb c "\" then String "\" (String c "")
  else if (n =? 8)%nat then "\b" else if (n =? 9)%nat then "\t" else if (n =? 10)%nat then "\n"
  else if (n =? 12)%nat then "\f" else if (n =? 13)%nat then "\r"
  else if (n <? 32)%nat then "\u00" +:+ String (hex_char (n / 16)) (String (hex_char (n mod 16)) "")
  else String c "".

Fixpoint escape (s : string) : string :=
  match s with EmptyString => "" | String c s => escape_char c +:+ escape s end.

Definition quote (s : string) : string := String "034" (escape s +:+ String "034" "").

Fixpoint json_stringify (v : val) : result (option string) :=
  match v with
  | Undef => Ok None
  | Null | NaN => Ok (Some "null")
  | Bool b => Ok (Some (if b then "true" else "false"))
  | Num z => Ok (Some (string_of_Z z))
  | BigI _ => Throw "Do not know how to serialize a BigInt"
  | Str s => Ok (Some (quote s))
  | Arr l =>
      items ← (fix go l := match l with
        | [] => Ok []
        | v :: l => s ← json_stringify v; ss ← go l; Ok (default "null" s :: ss)
        end) l;
      Ok (Some ("[" +:+ String.concat "," items +:+ "]"))
  | Object o =>
      items ← (fix go o := match o with
        | [] => Ok []
        | (k, v) :: o => s ← json_stringify v; ss ← go o;
            Ok (match s with Some s => (quote k +:+ ":" +:+ s) :: ss | None => ss end)
        end) o;
      Ok (Some ("{" +:+ String.concat "," items +:+ "}"))
  end.

(** [cast(val, type)] *)
Definition cast (v : val) (type : string) : result val :=
  match v with
  | Undef => Ok Null
  | _ =>
      if String.eqb type "number" then Ok (js_Number v)
      else if String.eqb type "integer" then Ok (js_Number v)
      else if String.eqb type "string" then Ok (Str (js_String v))
      else if String.eqb type "boolean" then Ok (Bool (truthy v))
      else if String.eqb type "bigInteger" then z ← js_BigInt v; Ok (BigI z)
      else if String.eqb type "json" then
        s ← json_stringify v; Ok (match s with Some s => Str s | None => Undef end)
      else Ok v
  end.

(** [getValue(val)] *)
Definition getValue (v : val) : val :=
  match v with Undef => Null | NaN => Null | _ => v end.

(** [mapRowsBySchema]: the columns of the schema that the item has, cast. *)
Definition mapRowBySchema (item : obj) (sch : list (string * column)) : result obj :=
  foldM (fun row cc =>
    let '(column, c) := cc in
    if has_prop item column then
      v ← cast (prop item column) (ctype c);
      Ok (set_prop row column (getValue v))
    else Ok row) [] sch.

Definition mapRowsBySchema (rawRows : list obj) (sch : list (string * column)) : result (list obj) :=
  mapM_result (fun item => mapRowBySchema item sch) rawRows.

(** ** Queries *)
Definition KNOWN_QUERY_PARAMS : list string :=
  ["sort"; "limit"; "offset"; "propBetweens"; "andWhere"; "orWhere"; "orWhereWith"; "whereNot";
   "whereIn"; "whereNotIn"; "orWhereIn"; "whereBetween"; "whereJsonSupersetOf"; "search";
   "aggregate"; "distinct"; "order"; "orSearch"; "whereNull"; "whereNotNull"; "leftOuterJoin";
   "rightOuterJoin"; "innerJoin"; "groupBy"; "orderByRaw"; "havingRaw"].

(** [resolveQueryParams]: the properties that are column equalities. *)
Definition resolveQueryParams (params : obj) : obj :=
  foldl (fun acc kv =>
    if existsb (String.eqb (fst kv)) KNOWN_QUERY_PARAMS then acc
    else set_prop acc (fst kv) (snd kv)) [] params.

(** The calls made on a [knex] query. *)
Inductive clause :=
| KSelect (cols : val)
| KCount (col : string)
| KCountDistinct (col : string)
| KDistinct (cols : list string)
| KGroupBy (cols : val)
| KOrderBy (col : string) (dir : val)
| KOrderByRaw (s : string)
| KHaving (s : val)
| KSum (col : string)
| KLimit (n : val)
| KOffset (n : val)
| KWhere (eqs : val)
| KWhereOp (col op : string) (v : val)
| KWhereIn (col : val) (values : val)
| KOrWhereIn (col : val) (values : val)
| KWhereNotIn (col : val) (values : val)
| KWhereNot (col : val) (v : val)
| KWhereBetween (col : val) (values : val)
| KWhereNull (col : val)
| KWhereNotNull (col : string)
| KWhereJsonSupersetOf (col : val) (values : val)
| KJoin (kind : string) (target left right : val)
| KGroup (alternatives : list (list clause)).

(** An entry of [propBetweens]. *)
Definition propBetween_clauses (pb : val) : result (list clause) :=
  p ← get pb "property";
  let c := js_String p in
  let o := match pb with Object o => o | _ => [] end in
  let when key op := if has_prop o key then [KWhereOp c op (prop o key)] else [] in
  Ok (when "from" ">=" ++ when "to" "<=" ++ when "greaterThanEqualTo" ">="
      ++ when "lowerThanEqualTo" "<=" ++ when "greaterThan" ">" ++ when "lowerThan" "<").

(** The [LIKE] tests of one [search] or [orSearch] entry. *)
Definition search_clauses (s : val) : result (list clause) :=
  property ← get s "property";
  pattern ← get s "pattern";
  startsWith ← get s "startsWith";
  endsWith ← get s "endsWith";
  allowWildCards ← get s "allowWildCards";
  let esc := if bool_decide (allowWildCards = Bool true) then id else escapeUserInput in
  let c := js_String property in
  let like v pre post :=
    if truthy v then [KWhereOp c "like" (Str (pre +:+ esc (js_String v) +:+ post))] else [] in
  Ok (like pattern "%" "%" ++ like startsWith "" "%" ++ like endsWith "%" "").

(** [orSearch]: the tests of the first entry together, then each later test
    as an alternative of its own. *)
Definition orSearch_group (entries : list val) : result (list clause) :=
  css ← mapM_result search_clauses entries;
  let alts := match css with
              | [] => []
              | first :: rest => first :: ((fun c => [c]) <$> concat rest)
              end in
  let alts := filter (fun a => a <> []) alts in
  Ok (match alts with [] => [] | _ => [KGroup alts] end).

Definition join_clauses (kind : string) (v : val) : result (list clause) :=
  mapM_result (fun join =>
    targetTable ← get join "targetTable";
    leftColumn ← get join "leftColumn";
    rightColumn ← get join "rightColumn";
    Ok (KJoin kind targetTable leftColumn rightColumn)) (as_array v).

(** [const [column, direction] = s.split(':'); query.whereNotNull(column);
     query.select(column).orderBy(column, direction)] *)
Definition order_clauses (s : val) : list clause :=
  let parts := js_split ":" (js_String s) in
  let c := hd EmptyString parts in
  let dir := match parts with _ :: d :: _ => Str d | _ => Undef end in
  [KWhereNotNull c; KSelect (Str c); KOrderBy c dir].

(** The non-count part of [queryBuilder] (lines 200 to 243). *)
Definition select_clauses (params : obj) (columns : val) : list clause :=
  let p := prop params in
  (if truthy columns then [KSelect columns] else [])
  ++ (if truthy (p "distinct") then [KDistinct (js_split "," (js_String (p "distinct")))] else [])
  ++ (if truthy (p "groupBy") then [KGroupBy (p "groupBy")] else [])
  ++ (if truthy (p "sort") then order_clauses (p "sort") else [])
  ++ (if truthy (p "order") then order_clauses (p "order") else [])
  ++ (if truthy (p "orderByRaw") then
        orderBy ← as_array (p "orderByRaw");
        [KSelect (Str (hd EmptyString (js_split " " (js_String orderBy))));
         KOrderByRaw (js_String orderBy)]
      else [])
  ++ (if truthy (p "havingRaw") then [KHaving (p "havingRaw")] else [])
  ++ (if truthy (p "aggregate") then [KSum (js_String (p "aggregate"))] else [])
  ++ (if truthy (p "limit") then [KLimit (js_Number (p "limit"))] else [])
  ++ (if truthy (p "offset") then [KOffset (js_Number (p "offset"))] else []).

Definition count_clauses (params : obj) (columns : val) : list clause :=
  if truthy columns && negb (truthy (prop params "distinct")) then
    [KCount (js_String (hd Undef (as_array columns)))]
  else if truthy (prop params "distinct") then [KCountDistinct (js_String (prop params "distinct"))]
  else [].

(** A destructured two-property parameter: [const { a, b } = params.key]. *)
Definition pair_clause (params : obj) (key a b : string) (k : val -> val -> clause)
  : result (list clause) :=
  if truthy (prop params key) then
    x ← get (prop params key) a; y ← get (prop params key) b; Ok [k x y]
  else Ok [].

(** The filters of [queryBuilder] (lines 246 to 421), in call order. *)
Definition where_clauses (params : obj) : result (list clause) :=
  let p := prop params in
  let queryParams := resolveQueryParams params in
  let base := if truthy (p "where") then [KWhere (p "where")] else [KWhere (Object queryParams)] in
  between ← (if truthy (p "propBetweens")
             then css ← mapM_result propBetween_clauses (as_array (p "propBetweens"));
                  Ok (concat css)
             else Ok []);
  whereIn ← (if truthy (p "whereIn")
             then mapM_result (fun param =>
                    property ← get param "property"; values ← get param "values";
                    Ok (KWhereIn property values)) (as_array (p "whereIn"))
             else Ok []);
  superset ← (if truthy (p "whereJsonSupersetOf")
              then property ← get (p "whereJsonSupersetOf") "property";
                   values ← get (p "whereJsonSupersetOf") "values";
                   Ok [KGroup ((fun v => [KWhereJsonSupersetOf property (Arr [v])])
                                 <$> match as_array values with [] => [Undef] | l => l end)]
              else Ok []);
  notIn ← pair_clause params "whereNotIn" "column" "values" KWhereNotIn;
  whereNot ← pair_clause params "whereNot" "column" "value" KWhereNot;
  whereBetween ← pair_clause params "whereBetween" "column" "values" KWhereBetween;
  let andWhere := if truthy (p "andWhere") then [KGroup [[KWhere (p "andWhere")]]] else [] in
  let orWhere := if truthy (p "orWhere")
                 then [KGroup [[KWhere (p "orWhere")]; [KWhere (p "orWhereWith")]]] else [] in
  orWhereIn ← pair_clause params "orWhereIn" "property" "values" KOrWhereIn;
  leftJ ← (if truthy (p "leftOuterJoin") then join_clauses "left outer" (p "leftOuterJoin") else Ok []);
  rightJ ← (if truthy (p "rightOuterJoin") then join_clauses "right outer" (p "rightOuterJoin") else Ok []);
  innerJ ← (if truthy (p "innerJoin") then join_clauses "inner" (p "innerJoin") else Ok []);
  search ← (if truthy (p "search")
            then css ← mapM_result search_clauses (as_array (p "search")); Ok (concat css)
            else Ok []);
  orSearch ← (if truthy (p "orSearch") then orSearch_group (as_array (p "orSearch")) else Ok []);
  let isNull := if truthy (p "whereNull") then KWhereNull <$> as_array (p "whereNull") else [] in
  let notNull := if truthy (p "whereNotNull")
                 then (fun v => KWhereNotNull (js_String v)) <$> as_array (p "whereNotNull") else [] in
  Ok (base ++ between ++ whereIn ++ superset ++ notIn ++ whereNot ++ whereBetween ++ andWhere
      ++ orWhere ++ orWhereIn ++ leftJ ++ rightJ ++ innerJ ++ search ++ orSearch ++ isNull ++ notNull).

Definition queryBuilder (params : obj) (columns : val) (isCountQuery : bool) : result (list clause) :=
  let head := if isCountQuery then count_clauses params columns else select_clauses params columns in
  filters ← where_clauses params;
  Ok (head ++ filters).
