(* ===== verification/Json.v ===== *)
(** * JSON texts

    [JSON.parse], which the data service and the caches use to read what
    [JSON.stringify] ([json_stringify]) wrote.  Numbers are integers; a text
    with a fraction or an exponent, which the services do not write, is not
    read.  The fuel of the parser is twice the length of the text plus one:
    every second call of a nested value consumes a character, and
    [json_roundtrip] shows that it is enough for every written text. *)
From S2P Require Import Prelude JsValue Database.
From Stdlib Require Import Ascii.
Local Open Scope Z_scope.
Set Warnings "-register-all".

(** ** The parser *)
Definition is_space (c : ascii) : bool :=
  let n := nat_of_ascii c in ((n =? 32) || (n =? 9) || (n =? 10) || (n =? 13))%nat.

Fixpoint skip_ws (s : string) : string :=
  match s with String c s' => if is_space c then skip_ws s' else s | EmptyString => "" end.

Definition hex_digit (c : ascii) : option nat :=
  let n := nat_of_ascii c in
  if ((48 <=? n) && (n <=? 57))%nat then Some (n - 48)%nat
  else if ((97 <=? n) && (n <=? 102))%nat then Some (n - 87)%nat
  else if ((65 <=? n) && (n <=? 70))%nat then Some (n - 55)%nat
  else None.

(** The bytes of a code unit; pairs of surrogates are not combined. *)
Definition utf8 (n : nat) : string :=
  if (n <? 128)%nat then String (ascii_of_nat n) ""
  else if (n <? 2048)%nat then String (ascii_of_nat (192 + n / 64)) (String (ascii_of_nat (128 + n mod 64)) "")
  else String (ascii_of_nat (224 + n / 4096)) (String (ascii_of_nat (128 + n / 64 mod 64))
         (String (ascii_of_nat (128 + n mod 64)) "")).

Definition unescape (c : ascii) : option ascii :=
  if Ascii.eqb c "034" || Ascii.eqb c "\" || Ascii.eqb c "/" then Some c
  else if Ascii.eqb c "b" then Some "008"%char else if Ascii.eqb c "t" then Some "009"%char
  else if Ascii.eqb c "n" then Some "010"%char else if Ascii.eqb c "f" then Some "012"%char
  else if Ascii.eqb c "r" then Some "013"%char else None.

(** The text up to the closing quote, and what follows it. *)
Fixpoint parse_string (s : string) : option (string * string) :=
  match s with
  | EmptyString => None
  | String c s =>
      if Ascii.eqb c "034" then Some ("", s)
      else if Ascii.eqb c "\" then
        match s with
        | EmptyString => None
        | String e s =>
            if Ascii.eqb e "u" then
              match s with
              | String a (String b (String c (String d s))) =>
                  a ← hex_digit a; b ← hex_digit b; c ← hex_digit c; d ← hex_digit d;
                  '(t, r) ← parse_string s;
                  Some (utf8 (((a * 16 + b) * 16 + c) * 16 + d)%nat +:+ t, r)
              | _ => None
              end
            else x ← unescape e; '(t, r) ← parse_string s; Some (String x t, r)
        end
      else if (nat_of_ascii c <? 32)%nat then None
      else '(t, r) ← parse_string s; Some (String c t, r)
  end.

(** The characters a number starts with. *)
Definition number_char (c : ascii) : bool := has_char c "-0123456789".
Fixpoint number_token (s : string) : string * string :=
  match s with
  | String c s' => if number_char c then let (t, r) := number_token s' in (String c t, r) else ("", s)
  | EmptyString => ("", "")
  end.

Definition parse_number (s : string) : option (val * string) :=
  let (t, r) := number_token s in
  z ← parse_Z t;
  if String.eqb (string_of_Z z) t || String.eqb t "-0" then Some (Num (to_double z), r) else None.

(** The rest after a word *)
Fixpoint after (w s : string) : option string :=
  match w, s with
  | EmptyString, _ => Some s
  | String a w, String b s => if Ascii.eqb a b then after w s else None
  | _, _ => None
  end.

Fixpoint parse_value (n : nat) (s : string) : option (val * string) :=
  match n with
  | O => None
  | S n =>
      let s := skip_ws s in
      match s with
      | EmptyString => None
      | String c r =>
          if Ascii.eqb c "034" then '(t, r) ← parse_string r; Some (Str t, r)
          else if Ascii.eqb c "[" then
            match after "]" (skip_ws r) with
            | Some r => Some (Arr [], r)
            | None => '(l, r) ← parse_items n r; Some (Arr l, r)
            end
          else if Ascii.eqb c "{" then
            match after "}" (skip_ws r) with
            | Some r => Some (Object [], r)
            | None => '(o, r) ← parse_fields n r; Some (Object (spread [] o), r)
            end
          else if Ascii.eqb c "t" then r ← after "rue" r; Some (Bool true, r)
          else if Ascii.eqb c "f" then r ← after "alse" r; Some (Bool false, r)
          else if Ascii.eqb c "n" then r ← after "ull" r; Some (Null, r)
          else parse_number s
      end
  end
with parse_items (n : nat) (s : string) : option (list val * string) :=
  match n with
  | O => None
  | S n =>
      '(v, r) ← parse_value n s;
      match after "," (skip_ws r) with
      | Some r => '(l, r) ← parse_items n r; Some (v :: l, r)
      | None => r ← after "]" (skip_ws r); Some ([v], r)
      end
  end
with parse_fields (n : nat) (s : string) : option (obj * string) :=
  match n with
  | O => None
  | S n =>
      r ← after (String "034" "") (skip_ws s);
      '(k, r) ← parse_string r;
      r ← after ":" (skip_ws r);
      '(v, r) ← parse_value n r;
      match after "," (skip_ws r) with
      | Some r => '(o, r) ← parse_fields n r; Some ((k, v) :: o, r)
      | None => r ← after "}" (skip_ws r); Some ([(k, v)], r)
      end
  end.

Definition json_parse (s : string) : result val :=
  match parse_value (2 * String.length s + 1) s with
  | Some (v, r) => if String.eqb (skip_ws r) "" then Ok v else Throw "Unexpected token in JSON"
  | None => Throw "Unexpected token in JSON"
  end.

(** ** What is written can be read *)

(** The values JSON keeps: no [undefined], [NaN] or big integer, numbers a
    double holds exactly, and every property once. *)
Inductive json_kept : val -> Prop :=
| kept_null : json_kept Null
| kept_bool b : json_kept (Bool b)
| kept_num z : Z.abs z < 2 ^ 53 -> json_kept (Num z)
| kept_str s : json_kept (Str s)
| kept_arr l : Forall json_kept l -> json_kept (Arr l)
| kept_object o : Forall (fun kv => json_kept kv.2) o -> NoDup o.*1 -> json_kept (Object o).

Fixpoint all_chars (f : ascii -> bool) (s : string) : bool :=
  match s with EmptyString => true | String c s => f c && all_chars f s end.

(** A number, and any value, ends where this text begins. *)
Definition ends (rest : string) : bool :=
  match rest with EmptyString => true | String c _ => has_char c ",]}" end.

(** The first character of a written value. *)
Definition value_start (t : string) : bool :=
  match t with EmptyString => false | String c _ => negb (is_space c) && negb (Ascii.eqb c "]") end.

(** [t] is a text from which [v] is read, whatever follows. *)
Definition written (v : val) (t : string) : Prop :=
  value_start t = true /\
  forall n rest, ends rest = true -> (2 * String.length t <= n)%nat -> parse_value n (t +:+ rest) = Some (v, rest).

(** One step of the parser. *)
Lemma parse_value_quote n r : parse_value (S n) (String "034" r) = ('(t, r) ← parse_string r; Some (Str t, r)).
Proof. done. Qed.

Lemma parse_value_array n r :
  parse_value (S n) (String "[" r) =
  match after "]" (skip_ws r) with
  | Some r => Some (Arr [], r)
  | None => '(l, r) ← parse_items n r; Some (Arr l, r)
  end.
Proof. done. Qed.

Lemma parse_value_object n r :
  parse_value (S n) (String "{" r) =
  match after "}" (skip_ws r) with
  | Some r => Some (Object [], r)
  | None => '(o, r) ← parse_fields n r; Some (Object (spread [] o), r)
  end.
Proof. done. Qed.

Lemma parse_items_step n s :
  parse_items (S n) s =
  ('(v, r) ← parse_value n s;
   match after "," (skip_ws r) with
   | Some r => '(l, r) ← parse_items n r; Some (v :: l, r)
   | None => r ← after "]" (skip_ws r); Some ([v], r)
   end).
Proof. done. Qed.

Lemma parse_fields_step n s :
  parse_fields (S n) (String "034" s) =
  ('(k, r) ← parse_string s;
   r ← after ":" (skip_ws r);
   '(v, r) ← parse_value n r;
   match after "," (skip_ws r) with
   | Some r => '(o, r) ← parse_fields n r; Some ((k, v) :: o, r)
   | None => r ← after "}" (skip_ws r); Some ([(k, v)], r)
   end).
Proof. done. Qed.

Lemma parse_string_escape c s :
  parse_string (escape_char c +:+ s) = ('(t, r) ← parse_string s; Some (String c t, r)).
Proof. by destruct c as [[] [] [] [] [] [] [] []]. Qed.

Lemma parse_string_quote t rest : parse_string (escape t +:+ String "034" rest) = Some (t, rest).
Proof.
  induction t as [|c t IH]; [done|]. cbn [escape]. by rewrite string_app_assoc, parse_string_escape, IH.
Qed.

Lemma quote_app k rest : quote k +:+ rest = String "034" (escape k +:+ String "034" rest).
Proof. unfold quote. change (String ?c ?s +:+ ?r) with (String c (s +:+ r)). by rewrite string_app_assoc. Qed.

Lemma number_token_all t rest :
  all_chars number_char t = true -> ends rest = true -> number_token (t +:+ rest) = (t, rest).
Proof.
  intros Ht Hr. induction t as [|c t IH]; simpl in *.
  - destruct rest as [|c rest]; [done|]. simpl. destruct (number_char c) eqn:E; [|done].
    by destruct c as [[] [] [] [] [] [] [] []].
  - apply andb_true_iff in Ht as [-> Ht]. by rewrite (IH Ht).
Qed.

Lemma number_chars z : all_chars number_char (string_of_Z z) = true.
Proof.
  assert (Hu : forall d, all_chars number_char (DecimalString.NilEmpty.string_of_uint d) = true)
    by (induction d; simpl; auto).
  unfold string_of_Z. destruct (Z.to_int z) as [d|d]; destruct d; simpl; rewrite ?Hu; done.
Qed.

Lemma number_start c s n : number_char c = true -> parse_value (S n) (String c s) = parse_number (String c s).
Proof. destruct c as [[] [] [] [] [] [] [] []]; done. Qed.

Lemma written_num z : Z.abs z < 2 ^ 53 -> written (Num z) (string_of_Z z).
Proof.
  intros Hz. pose proof (number_chars z) as Hc. pose proof (string_of_Z_nonempty z) as Hne.
  destruct (string_of_Z z) as [|c t] eqn:Et; [done|]. rewrite <- Et in *. split.
  - rewrite Et in *. simpl in *. apply andb_true_iff in Hc as [Hc _].
    by destruct c as [[] [] [] [] [] [] [] []].
  - intros n rest Hr Hn. rewrite Et in Hn. destruct n as [|n]; [simpl in Hn; lia|].
    rewrite Et. change (String c t +:+ rest) with (String c (t +:+ rest)).
    rewrite number_start by (rewrite Et in Hc; simpl in Hc; by apply andb_true_iff in Hc as [? _]).
    change (String c (t +:+ rest)) with (String c t +:+ rest). rewrite <- Et.
    unfold parse_number. rewrite number_token_all by done. rewrite parse_string_of_Z. simpl.
    rewrite String.eqb_refl. simpl. by rewrite to_double_exact.
Qed.

Lemma written_str s : written (Str s) (quote s).
Proof.
  split; [done|]. intros n rest Hr Hn. destruct n as [|n]; [simpl in Hn; lia|].
  by rewrite quote_app, parse_value_quote, parse_string_quote.
Qed.

(** The elements of an array and the properties of an object as texts. *)
Fixpoint json_items (l : list val) : result (list string) :=
  match l with
  | [] => Ok []
  | v :: l => s ← json_stringify v; ss ← json_items l; Ok (default "null" s :: ss)
  end.

Fixpoint json_fields (o : obj) : result (list string) :=
  match o with
  | [] => Ok []
  | (k, v) :: o => s ← json_stringify v; ss ← json_fields o;
      Ok (match s with Some s => (quote k +:+ ":" +:+ s) :: ss | None => ss end)
  end.

Lemma stringify_arr l :
  json_stringify (Arr l) = (items ← json_items l; Ok (Some ("[" +:+ String.concat "," items +:+ "]"))).
Proof. done. Qed.

Lemma stringify_object o :
  json_stringify (Object o) = (items ← json_fields o; Ok (Some ("{" +:+ String.concat "," items +:+ "}"))).
Proof. done. Qed.

(** Its only error is the one for big integers. *)
Lemma stringify_error v e : json_stringify v = Throw e -> e = "Do not know how to serialize a BigInt".
Proof.
  revert e. induction v as [| |b|z| |z|s|l IH|o IH] using val_ind'; intros e; try done; [by intros [= <-]|..].
  - rewrite stringify_arr. assert (forall e, json_items l = Throw e -> e = "Do not know how to serialize a BigInt") as Hl.
    { induction IH as [|v l Hv _ IHl]; [done|]. intros e'. cbn [json_items]. destruct (json_stringify v) as [s|e1]; cbn.
      - destruct (json_items l); cbn; [done|]. intros [= <-]. by apply IHl.
      - intros [= <-]. by apply Hv. }
    destruct (json_items l); cbn; [done|]. intros [= <-]. by apply Hl.
  - rewrite stringify_object. assert (forall e, json_fields o = Throw e -> e = "Do not know how to serialize a BigInt") as Hl.
    { induction IH as [|[k v] o Hv _ IHl]; [done|]. intros e'. cbn [json_fields]. cbn [snd] in Hv. destruct (json_stringify v) as [s|e1]; cbn.
      - destruct (json_fields o); cbn; [done|]. intros [= <-]. by apply IHl.
      - intros [= <-]. by apply Hv. }
    destruct (json_fields o); cbn; [done|]. intros [= <-]. by apply Hl.
Qed.

Lemma stringify_ends v : json_stringify v <> Throw never_returns.
Proof. intros E%stringify_error. discriminate E. Qed.

Lemma skip_ws_start t rest : value_start t = true -> skip_ws (t +:+ rest) = t +:+ rest.
Proof. destruct t as [|c t]; [done|]. simpl. intros [H _]%andb_true_iff. apply negb_true_iff in H. by rewrite H. Qed.

Lemma after_start t rest : value_start t = true -> after "]" (t +:+ rest) = None.
Proof.
  destruct t as [|c t]; [done|]. intros [_ H]%andb_true_iff. apply negb_true_iff in H.
  change (after "]" (String c t +:+ rest)) with (if Ascii.eqb "]" c then Some (t +:+ rest) else None).
  by rewrite Ascii.eqb_sym, H.
Qed.

Lemma concat_cons sep (t : string) ts : ts <> [] -> String.concat sep (t :: ts) = t +:+ sep +:+ String.concat sep ts.
Proof. by destruct ts. Qed.

Lemma bind_Some_l {A B} (x : A) (f : A -> option B) : (Some x ≫= f) = f x.
Proof. done. Qed.

Lemma skip_comma r : after "," (skip_ws ("," +:+ r)) = Some r.
Proof. done. Qed.

Lemma skip_colon r : after ":" (skip_ws (":" +:+ r)) = Some r.
Proof. done. Qed.

Lemma parse_items_written l ts rest n :
  Forall2 written l ts -> l <> [] -> (2 * String.length (String.concat "," ts) + 1 <= n)%nat ->
  parse_items n (String.concat "," ts +:+ "]" +:+ rest) = Some (l, rest).
Proof.
  intros Hl. revert n. induction Hl as [|v t l ts Hv Hl IH]; [done|]. intros n _ Hn.
  destruct n as [|n]; [lia|]. destruct Hv as [_ Hv]. destruct l as [|v' l].
  - apply Forall2_nil_inv_l in Hl as ->. cbn [String.concat] in *.
    rewrite parse_items_step, Hv; [done|done|lia].
  - destruct ts as [|t' ts]; [by apply Forall2_nil_inv_r in Hl|].
    rewrite concat_cons in * by done. rewrite !string_length_app in Hn. rewrite !string_app_assoc.
    rewrite parse_items_step, Hv; [|done|lia]. rewrite bind_Some_l, skip_comma.
    rewrite IH; [done|done|]. cbn [String.length] in Hn. lia.
Qed.

Lemma parse_fields_written o ts rest n :
  Forall2 (fun kv t => exists u, t = quote kv.1 +:+ ":" +:+ u /\ written kv.2 u) o ts -> o <> [] ->
  (2 * String.length (String.concat "," ts) + 1 <= n)%nat ->
  parse_fields n (String.concat "," ts +:+ "}" +:+ rest) = Some (o, rest).
Proof.
  intros Hl. revert n. induction Hl as [|[k v] t o ts (u & -> & Hv) Hl IH]; [done|]. intros n _ Hn.
  destruct n as [|n]; [lia|]. destruct Hv as [Hs Hv]. destruct o as [|kv' o].
  - apply Forall2_nil_inv_l in Hl as ->. cbn [String.concat fst snd] in *. rewrite !string_length_app in Hn.
    rewrite !string_app_assoc, quote_app, parse_fields_step, parse_string_quote, bind_Some_l, skip_colon, bind_Some_l.
    rewrite Hv; [done|done|lia].
  - destruct ts as [|t' ts]; [inversion Hl|].
    rewrite concat_cons in * by done. rewrite !string_length_app in Hn. cbn [fst snd] in *.
    rewrite !string_app_assoc, quote_app, parse_fields_step, parse_string_quote, bind_Some_l, skip_colon, bind_Some_l.
    rewrite Hv; [|done|lia]. rewrite bind_Some_l, skip_comma.
    rewrite IH; [done|done|]. cbn [String.length] in Hn. lia.
Qed.

Lemma json_items_written l :
  Forall (fun v => json_kept v -> exists t, json_stringify v = Ok (Some t) /\ written v t) l -> Forall json_kept l ->
  exists ts, json_items l = Ok ts /\ Forall2 written l ts.
Proof.
  induction 1 as [|v l Hv _ IH]; intros Hk; [by exists []|].
  apply Forall_cons in Hk as [Hk Hkl]. destruct (Hv Hk) as (t & E & Ht). destruct (IH Hkl) as (ts & Es & Hts).
  exists (t :: ts). cbn [json_items]. rewrite E, bind_ok, Es. split; [done|by constructor].
Qed.

Lemma json_fields_written o :
  Forall (fun kv => json_kept kv.2 -> exists t, json_stringify kv.2 = Ok (Some t) /\ written kv.2 t) o ->
  Forall (fun kv => json_kept kv.2) o ->
  exists ts, json_fields o = Ok ts /\
    Forall2 (fun kv t => exists u, t = quote kv.1 +:+ ":" +:+ u /\ written kv.2 u) o ts.
Proof.
  induction 1 as [|[k v] o Hv _ IH]; intros Hk; [by exists []|].
  apply Forall_cons in Hk as [Hk Hkl]. destruct (Hv Hk) as (t & E & Ht). destruct (IH Hkl) as (ts & Es & Hts).
  exists ((quote k +:+ ":" +:+ t) :: ts). cbn [json_fields snd] in *. rewrite E, bind_ok, Es, bind_ok. split; [done|].
  constructor; [by exists t|done].
Qed.

Lemma spread_nodup o : NoDup o.*1 -> spread [] o = o.
Proof.
  intros Ho. unfold spread. cut (forall acc : obj, NoDup (acc ++ o).*1 -> foldl (fun acc kv => set_prop acc kv.1 kv.2) acc o = acc ++ o).
  { intros Hc. by apply (Hc []). }
  clear Ho. induction o as [|[k v] o IH]; intros acc Ha; cbn [foldl]; [by rewrite app_nil_r|].
  rewrite set_prop_fresh.
  - rewrite IH; rewrite <- app_assoc; done.
  - rewrite fmap_app in Ha. apply NoDup_app in Ha as (_ & Ha & _). intros Hin. apply (Ha k Hin). simpl. set_solver.
Qed.

Lemma json_written v : json_kept v -> exists t, json_stringify v = Ok (Some t) /\ written v t.
Proof.
  induction v as [| |b|z| |z|s|l IH|o IH] using val_ind'; intros Hk; inversion Hk; subst.
  - exists "null". split; [done|]. split; [done|]. intros [|n] rest _ Hn; [simpl in Hn; lia|done].
  - exists (if b then "true" else "false"). split; [done|]. split; [by destruct b|].
    intros [|n] rest _ Hn; destruct b; simpl in Hn; [lia..|done|done].
  - exists (string_of_Z z). by split; [|apply written_num].
  - exists (quote s). by split; [|apply written_str].
  - destruct (json_items_written l IH) as (ts & E & Hts); [done|].
    exists ("[" +:+ String.concat "," ts +:+ "]"). rewrite stringify_arr, E. split; [done|]. split; [done|].
    intros [|n] rest _ Hn; [simpl in Hn; lia|]. rewrite !string_length_app in Hn. cbn [String.length] in Hn.
    rewrite !string_app_assoc. change ("[" +:+ ?r) with (String "[" r). rewrite parse_value_array.
    destruct Hts as [|v t l ts Hv Hts]; [done|].
    assert (value_start (String.concat "," (t :: ts)) = true) as Hstart.
    { destruct Hv as [Hv _]. destruct ts; [done|]. cbn [String.concat]. by destruct t. }
    rewrite skip_ws_start, after_start by done.
    rewrite (parse_items_written (v :: l)); [done|by constructor|done|lia].
  - destruct (json_fields_written o IH) as (ts & E & Hts); [done|].
    exists ("{" +:+ String.concat "," ts +:+ "}"). rewrite stringify_object, E. split; [done|]. split; [done|].
    intros [|n] rest _ Hn; [simpl in Hn; lia|]. rewrite !string_length_app in Hn. cbn [String.length] in Hn.
    rewrite !string_app_assoc. change ("{" +:+ ?r) with (String "{" r). rewrite parse_value_object.
    destruct Hts as [|kv t o ts Hv Hts]; [done|].
    assert (exists r, String.concat "," (t :: ts) = String "034" r) as [r Er].
    { destruct Hv as (u & -> & _). destruct ts; [|rewrite concat_cons by done]; rewrite ?string_app_assoc, quote_app; by eexists. }
    replace (after "}" (skip_ws (String.concat "," (t :: ts) +:+ "}" +:+ rest))) with (@None string) by (by rewrite Er).
    rewrite (parse_fields_written (kv :: o)); [|by constructor|done|lia]. rewrite bind_Some_l.
    by rewrite spread_nodup.
Qed.

(** What [JSON.stringify] writes of a value it keeps, [JSON.parse] reads. *)
Lemma json_roundtrip v : json_kept v -> exists t, json_stringify v = Ok (Some t) /\ json_parse t = Ok v.
Proof.
  intros (t & E & _ & Ht)%json_written. exists t. split; [done|]. unfold json_parse.
  specialize (Ht (2 * String.length t + 1)%nat "" eq_refl). rewrite string_app_nil_r in Ht.
  rewrite Ht by lia. done.
Qed.
