(* ===== verification/Engine.v ===== *)
(** * The SQL engine: an interface with its documented behaviour

    [knex] and MySQL execute the statements that [util.js] builds.  They are
    not part of the repository; the development relies on them through the
    class [SqlEngine] (the statements) and the class [SqlLaws] (what the
    statements do to the rows of a table, for the clauses the services use).
    [MemEngine] is an executable instance of both. *)
From S2P Require Import Prelude JsValue Database.
From stdpp Require Import sorting.
From Stdlib Require Import Ascii.
Local Open Scope Z_scope.

(** ** Stored values *)
Inductive sql := SNull | SInt (z : Z) | SStr (s : string) | SBool (b : bool).

#[export] Instance sql_eq_dec : EqDecision sql.
Proof. solve_decision. Defined.
#[export] Instance sql_countable : Countable sql.
Proof.
  refine (inj_countable'
    (fun v => match v with
      | SNull => inl tt | SInt z => inr (inl z)
      | SStr s => inr (inr (inl s)) | SBool b => inr (inr (inr b)) end)
    (fun x => match x with
      | inl _ => SNull | inr (inl z) => SInt z
      | inr (inr (inl s)) => SStr s | inr (inr (inr b)) => SBool b end) _).
  by intros [].
Defined.

Abbreviation row := (gmap string sql).
Abbreviation rows :=
  (@gmap (list sql) (@list_eq_dec sql sql_eq_dec) (@list_countable sql sql_eq_dec sql_countable)
     (gmap string sql)).

(** How the driver binds a JavaScript value, and how it returns one.
    [BOOLEAN] columns come back as [0] or [1]. *)
Definition to_sql (v : val) : sql :=
  match v with
  | Undef | Null | NaN => SNull
  | Bool b => SBool b
  | Num z | BigI z => SInt z
  | Str s => SStr s
  | Arr _ | Object _ => SStr (js_String v)
  end.

Definition of_sql (v : sql) : val :=
  match v with
  | SNull => Null | SInt z => Num z | SStr s => Str s
  | SBool b => Num (if b then 1 else 0)
  end.

Definition row_of (o : obj) : row :=
  foldl (fun r kv => <[fst kv := to_sql (snd kv)]> r) ∅ o.

Definition cell (r : row) (c : string) : sql := default SNull (r !! c).

(** ** Comparisons *)
Definition sql_num (v : sql) : option Z :=
  match v with
  | SNull => None
  | SInt z => Some z
  | SBool b => Some (if b then 1 else 0)
  | SStr s => parse_Z s
  end.

(** [NULL] compares with nothing; two strings compare as strings, any other
    pair as numbers. *)
Definition sql_compare (a b : sql) : option comparison :=
  match a, b with
  | SNull, _ | _, SNull => None
  | SStr x, SStr y => Some (String.compare x y)
  | _, _ => x ← sql_num a; y ← sql_num b; Some (x ?= y)
  end.

Definition sql_test (op : string) (a b : sql) : bool :=
  match sql_compare a b with
  | None => false
  | Some c =>
      if String.eqb op "=" then match c with Eq => true | _ => false end
      else if String.eqb op ">=" then match c with Lt => false | _ => true end
      else if String.eqb op "<=" then match c with Gt => false | _ => true end
      else if String.eqb op ">" then match c with Gt => true | _ => false end
      else if String.eqb op "<" then match c with Lt => true | _ => false end
      else false
  end.

(** [LIKE]: [%] matches any text, [_] any character, a backslash quotes. *)
Fixpoint like (p s : string) : bool :=
  match p with
  | EmptyString => match s with EmptyString => true | _ => false end
  | String c p' =>
      if Ascii.eqb c "%" then
        (fix any s := like p' s || match s with EmptyString => false | String _ s' => any s' end) s
      else if Ascii.eqb c "_" then match s with EmptyString => false | String _ s' => like p' s' end
      else if Ascii.eqb c "\" then
        match p' with
        | EmptyString => match s with String d EmptyString => Ascii.eqb d "\" | _ => false end
        | String q p'' => match s with String d s' => Ascii.eqb d q && like p'' s' | _ => false end
        end
      else match s with String d s' => Ascii.eqb d c && like p' s' | _ => false end
  end.

(** [column = value], with [IS NULL] for [null] as knex writes it. *)
Definition eq_test (r : row) (kv : string * val) : bool :=
  match to_sql (snd kv) with
  | SNull => bool_decide (cell r (fst kv) = SNull)
  | v => sql_test "=" (cell r (fst kv)) v
  end.

Definition in_test (r : row) (c : val) (vs : list val) : bool :=
  match c with
  | Arr cs => existsb (fun v => forallb (fun cv => sql_test "=" (cell r (js_String (fst cv))) (to_sql (snd cv)))
                                   (zip cs (as_array v))) vs
  | _ => existsb (fun v => sql_test "=" (cell r (js_String c)) (to_sql v)) vs
  end.

Definition matches1 (r : row) (c : clause) : bool :=
  match c with
  | KWhere (Object eqs) => forallb (eq_test r) eqs
  | KWhereOp c op v =>
      if String.eqb op "like"
      then match cell r c, to_sql v with SStr s, SStr p => like p s | _, _ => false end
      else sql_test op (cell r c) (to_sql v)
  | KWhereIn c (Arr vs) => in_test r c vs
  | KWhereNull c => bool_decide (cell r (js_String c) = SNull)
  | KWhereNotNull c => bool_decide (cell r c <> SNull)
  | _ => true
  end.

(** The conjunction of the filters of a query. *)
Definition matches (q : list clause) (r : row) : bool := forallb (matches1 r) q.

(** The clauses whose meaning [SqlLaws] fixes. *)
Definition supported1 (c : clause) : bool :=
  match c with
  | KWhereIn (Arr cs) (Arr vs) =>
      forallb (fun v => is_array v && Nat.eqb (length (as_array v)) (length cs)) vs
  | KWhere (Object _) | KWhereOp _ _ _ | KWhereIn (Str _) (Arr _) | KWhereNull _ | KWhereNotNull _
  | KSelect _ | KOrderBy _ _ | KLimit _ | KOffset _ | KCount _ => true
  | _ => false
  end.
Definition supported (q : list clause) : bool := forallb supported1 q.

(** ** Ordering, limits and projection of a [SELECT] *)
Definition sql_le (a b : sql) : Prop :=
  match a, b with
  | SNull, _ => True
  | _, SNull => False
  | SStr x, SStr y => String.le x y
  | SStr _, _ => False
  | _, SStr _ => True
  | _, _ => default 0 (sql_num a) <= default 0 (sql_num b)
  end.

#[export] Instance sql_le_dec a b : Decision (sql_le a b).
Proof. destruct a, b; simpl; apply _. Defined.

Fixpoint order_of (q : list clause) : option (string * bool) :=
  match q with
  | [] => None
  | KOrderBy c d :: _ => Some (c, bool_decide (d = Str "desc"))
  | _ :: q => order_of q
  end.

(** [r1] may come before [r2] in the result. *)
Definition row_le (q : list clause) (r1 r2 : row) : Prop :=
  match order_of q with
  | None => True
  | Some (c, true) => sql_le (cell r2 c) (cell r1 c)
  | Some (c, false) => sql_le (cell r1 c) (cell r2 c)
  end.

#[export] Instance row_le_dec q r1 r2 : Decision (row_le q r1 r2).
Proof. unfold row_le. destruct (order_of q) as [[c []]|]; apply _. Defined.

Fixpoint limit_of (q : list clause) : option nat :=
  match q with
  | [] => None
  | KLimit (Num n) :: _ => Some (Z.to_nat n)
  | _ :: q => limit_of q
  end.

Fixpoint offset_of (q : list clause) : nat :=
  match q with
  | [] => 0%nat
  | KOffset (Num n) :: _ => Z.to_nat n
  | _ :: q => offset_of q
  end.

Definition take_limit {A} (q : list clause) (l : list A) : list A :=
  match limit_of q with Some n => take n (drop (offset_of q) l) | None => drop (offset_of q) l end.

Definition selected (q : list clause) : list string :=
  c ← q; match c with KSelect v => js_String <$> as_array v | _ => [] end.

Definition project (q : list clause) (r : row) : obj :=
  foldl (fun o c => set_prop o c (of_sql (cell r c))) [] (selected q).

Definition matching (q : list clause) (t : rows) : list row :=
  filter (fun r => matches q r = true) (snd <$> map_to_list t).

(** ** The engine *)
Definition key_of (t : table) (r : row) : list sql := cell r <$> pk_columns t.

(** The row a fresh insertion starts from: the column defaults. *)
Definition defaults (t : table) : row :=
  foldl (fun r cc => <[fst cc := match cdefault (snd cc) with Some d => to_sql d | None => SNull end]> r)
    ∅ (schema t).

(** Every [NOT NULL] column without a default is given. *)
Definition row_complete (t : table) (r : row) : bool :=
  forallb (fun cc =>
    match cnull (snd cc), cdefault (snd cc) with
    | Some false, None => bool_decide (cell r (fst cc) <> SNull)
    | _, _ => true
    end) (schema t)
  && forallb (fun c => bool_decide (cell r c <> SNull)) (pk_columns t).

(** The values a column of a [knex] type holds. *)
Definition cell_ok (ty : string) (v : sql) : bool :=
  match v with
  | SNull => true
  | SInt _ => existsb (String.eqb ty) ["integer"; "bigInteger"; "number"; "decimal"]
  | SStr _ => existsb (String.eqb ty) ["string"; "text"; "json"]
  | SBool _ => String.eqb ty "boolean"
  end.

Definition row_typed (t : table) (r : row) : bool :=
  forallb (fun cc => cell_ok (ctype (snd cc)) (cell r (fst cc))) (schema t).

(** A row the engine accepts for insertion. *)
Definition insertable (t : table) (r : row) : bool := row_complete t r && row_typed t r.

(** [column = column + delta]: [NULL] stays [NULL]. *)
Definition sql_add (v : sql) (d : Z) : sql :=
  match v with SInt z => SInt (z + d) | SNull => SNull | _ => default SNull (SInt ∘ Z.add d <$> sql_num v) end.

Definition add_cells (ds : list (string * Z)) (r : row) : row :=
  foldl (fun r cd => <[fst cd := sql_add (cell r (fst cd)) (snd cd)]> r) r ds.

Definition on_matching (q : list clause) (f : row -> row) (t : rows) : rows :=
  (fun r => if matches q r then f r else r) <$> t.

Definition count_matching (q : list clause) (t : rows) : Z := Z.of_nat (length (matching q t)).

Class SqlEngine (St : Type) := {
  eng_table : St -> string -> rows;
  eng_insert_merge : table -> row -> St -> result St;
  eng_select : table -> list clause -> St -> result (list obj);
  eng_count : table -> list clause -> St -> result Z;
  eng_delete : table -> list clause -> St -> result (St * Z);
  eng_update : table -> list clause -> row -> St -> result (St * Z);
  eng_add : table -> list clause -> list (string * Z) -> St -> result (St * Z);
  (** [eng_commit base trx auto]: a transaction that started on [base] and
      sees [trx] is committed while the committed state is [auto]. *)
  eng_commit : St -> St -> St -> St;
}.

(** The rows of a table. *)
Definition rows_of {St} `{SqlEngine St} (s : St) (t : table) : rows := eng_table s (tableName t).

(** [s'] is [s] with the rows of one table replaced. *)
Definition table_set {St} `{SqlEngine St} (s s' : St) (t : table) (r : rows) : Prop :=
  rows_of s' t = r /\ forall tn', tn' <> tableName t -> eng_table s' tn' = eng_table s tn'.

(** The assigned columns are not part of the primary key. *)
Definition spares_key (t : table) (cs : list string) : bool :=
  forallb (fun c => negb (existsb (String.eqb c) (pk_columns t))) cs.

(** The columns hold integers. *)
Definition numeric (t : table) (cs : list string) : bool :=
  forallb (fun cc => if existsb (String.eqb (fst cc)) cs then cell_ok (ctype (snd cc)) (SInt 0) else true)
    (schema t).

Class SqlLaws (St : Type) `{SqlEngine St} := {
  insert_merge_law t r s :
    insertable t r = true ->
    exists s', eng_insert_merge t r s = Ok s' /\
      table_set s s' t
        (<[key_of t r := r ∪ default (defaults t) (rows_of s t !! key_of t r)]> (rows_of s t));
  insert_incomplete_law t r s :
    row_complete t r = false -> exists e, eng_insert_merge t r s = Throw e;
  select_law t q s :
    supported q = true ->
    exists l, l ≡ₚ matching q (rows_of s t) /\ StronglySorted (row_le q) l /\
      eng_select t q s = Ok (project q <$> take_limit q l);
  count_law t q s :
    supported q = true -> eng_count t q s = Ok (count_matching q (rows_of s t));
  delete_law t q s :
    supported q = true ->
    exists s', eng_delete t q s = Ok (s', count_matching q (rows_of s t)) /\
      table_set s s' t (filter (fun kr => matches q (snd kr) = false) (rows_of s t));
  update_law t q u s :
    supported q = true -> spares_key t (fst <$> map_to_list u) = true -> row_typed t u = true ->
    exists s', eng_update t q u s = Ok (s', count_matching q (rows_of s t)) /\
      table_set s s' t (on_matching q (fun r => u ∪ r) (rows_of s t));
  add_law t q ds s :
    supported q = true -> spares_key t (fst <$> ds) = true -> numeric t (fst <$> ds) = true ->
    exists s', eng_add t q ds s = Ok (s', count_matching q (rows_of s t)) /\
      table_set s s' t (on_matching q (add_cells ds) (rows_of s t));
  (** A statement changes no other table. *)
  insert_frame t r s s' tn :
    eng_insert_merge t r s = Ok s' -> tn <> tableName t -> eng_table s' tn = eng_table s tn;
  delete_frame t q s s' n tn :
    eng_delete t q s = Ok (s', n) -> tn <> tableName t -> eng_table s' tn = eng_table s tn;
  update_frame t q u s s' n tn :
    eng_update t q u s = Ok (s', n) -> tn <> tableName t -> eng_table s' tn = eng_table s tn;
  add_frame t q ds s s' n tn :
    eng_add t q ds s = Ok (s', n) -> tn <> tableName t -> eng_table s' tn = eng_table s tn;
  (** A commit publishes the rows the transaction has changed; every other row
      stays as it was committed by others meanwhile. *)
  commit_law base trx auto tn k :
    eng_table (eng_commit base trx auto) tn !! k =
    (if decide (eng_table trx tn !! k = eng_table base tn !! k)
     then eng_table auto tn !! k else eng_table trx tn !! k);
}.

Section Commit.
Context {St : Type} `{SqlLaws St}.

(** Nobody else has changed the table: the commit gives the table of the
    transaction. *)
Lemma commit_table base trx auto tn :
  eng_table auto tn = eng_table base tn -> eng_table (eng_commit base trx auto) tn = eng_table trx tn.
Proof. intros E. apply map_eq. intros k. rewrite commit_law, E. by case_decide. Qed.

(** The transaction has not changed the table: the commit leaves it. *)
Lemma commit_untouched base trx auto tn :
  eng_table trx tn = eng_table base tn -> eng_table (eng_commit base trx auto) tn = eng_table auto tn.
Proof. intros E. apply map_eq. intros k. rewrite commit_law, E. by rewrite decide_True. Qed.
End Commit.

(** ** An executable engine: each table a finite map from keys to rows *)
Abbreviation MemDB := (gmap string (gmap (list sql) (gmap string sql))).

Definition mem_rows (s : MemDB) (tn : string) : rows := default ∅ (s !! tn).

(** The rows that differ, a deleted one as [None]; and the rows with changes
    carried over. *)
Definition changes_of (trx base : rows) : gmap (list sql) (option row) :=
  merge (fun x y => if decide (x = y) then None else Some x) trx base.
Definition apply_changes (changes : gmap (list sql) (option row)) (auto : rows) : rows :=
  merge (fun c x => match c with Some r => r | None => x end) changes auto.

#[export] Instance MemEngine : SqlEngine MemDB := {
  eng_table := mem_rows;
  eng_insert_merge t r s :=
    if insertable t r then
      let rs := mem_rows s (tableName t) in
      Ok (<[tableName t := <[key_of t r := r ∪ default (defaults t) (rs !! key_of t r)]> rs]> s)
    else Throw "ER_NO_DEFAULT_FOR_FIELD";
  eng_select t q s :=
    Ok (project q <$> take_limit q (merge_sort (row_le q) (matching q (mem_rows s (tableName t)))));
  eng_count t q s := Ok (count_matching q (mem_rows s (tableName t)));
  eng_delete t q s :=
    let rs := mem_rows s (tableName t) in
    Ok (<[tableName t := filter (fun kr => matches q (snd kr) = false) rs]> s, count_matching q rs);
  eng_update t q u s :=
    let rs := mem_rows s (tableName t) in
    Ok (<[tableName t := on_matching q (fun r => u ∪ r) rs]> s, count_matching q rs);
  eng_add t q ds s :=
    let rs := mem_rows s (tableName t) in
    Ok (<[tableName t := on_matching q (add_cells ds) rs]> s, count_matching q rs);
  eng_commit base trx auto :=
    merge (fun d rs => Some (apply_changes (default ∅ d) (default ∅ rs)))
      (merge (fun rt rb => Some (changes_of (default ∅ rt) (default ∅ rb))) trx base) auto;
}.

Lemma mem_table_set (s : MemDB) (t : table) (r : rows) :
  table_set s (<[tableName t := r]> s : MemDB) t r.
Proof.
  split.
  - unfold rows_of. simpl. unfold mem_rows. by rewrite lookup_insert_eq.
  - intros tn' Hne. simpl. unfold mem_rows. by rewrite lookup_insert_ne.
Qed.

Lemma sql_le_total a b : sql_le a b \/ sql_le b a.
Proof.
  destruct a, b; simpl; auto; try lia.
  apply (total String.le).
Qed.

Lemma sql_le_trans a b c : sql_le a b -> sql_le b c -> sql_le a c.
Proof.
  destruct a, b, c; simpl; try done; try lia.
  apply transitivity.
Qed.

#[export] Instance row_le_total q : Total (row_le q).
Proof.
  intros r1 r2. unfold row_le. destruct (order_of q) as [[c []]|]; [..|by left].
  - apply sql_le_total.
  - apply sql_le_total.
Qed.

#[export] Instance row_le_trans q : Transitive (row_le q).
Proof.
  intros r1 r2 r3. unfold row_le. destruct (order_of q) as [[c []]|]; [..|done].
  - intros. by eapply sql_le_trans.
  - intros. by eapply sql_le_trans.
Qed.

Lemma apply_changes_of (base trx auto : rows) k :
  apply_changes (changes_of trx base) auto !! k = if decide (trx !! k = base !! k) then auto !! k else trx !! k.
Proof.
  unfold apply_changes, changes_of. rewrite lookup_merge, lookup_merge. unfold diag_None.
  destruct (trx !! k), (base !! k), (auto !! k); repeat case_decide; simplify_eq; done.
Qed.

Lemma mem_commit_rows (base trx auto : MemDB) tn :
  mem_rows (eng_commit base trx auto) tn = apply_changes (changes_of (mem_rows trx tn) (mem_rows base tn)) (mem_rows auto tn).
Proof.
  unfold mem_rows. simpl. rewrite lookup_merge, lookup_merge. unfold diag_None.
  destruct (trx !! tn), (base !! tn), (auto !! tn); simpl; try done.
Qed.

#[export] Instance MemLaws : SqlLaws MemDB.
Proof.
  assert (forall (s : MemDB) (tn tn' : string) (rs : rows), tn' <> tn -> mem_rows (<[tn := rs]> s) tn' = mem_rows s tn')
    as Hframe by (intros; unfold mem_rows; by rewrite lookup_insert_ne).
  split; intros; simpl in *.
  - rewrite H. eexists. split; [done|]. apply mem_table_set.
  - unfold insertable. rewrite H. by eexists.
  - eexists. split_and!; [|apply (StronglySorted_merge_sort (row_le q))|done].
    apply merge_sort_Permutation.
  - done.
  - eexists. split; [done|]. apply mem_table_set.
  - eexists. split; [done|]. apply mem_table_set.
  - eexists. split; [done|]. apply mem_table_set.
  - destruct (insertable t r); simplify_eq. auto.
  - simplify_eq. auto.
  - simplify_eq. auto.
  - simplify_eq. auto.
  - change (mem_rows (eng_commit base trx auto) tn !! k =
      if decide (mem_rows trx tn !! k = mem_rows base tn !! k) then mem_rows auto tn !! k else mem_rows trx tn !! k).
    rewrite mem_commit_rows. apply apply_changes_of.
Qed.
