(* ===== verification/Search.v ===== *)
(** * Text search: [search] parameters match literally

    The [search] option of a query builds [LIKE] patterns from user input.
    [escapeUserInput] is meant to keep the input literal: the theorems say for
    which inputs it does. *)
From S2P Require Import Prelude JsValue Database Engine.
From Stdlib Require Import Ascii.
Local Open Scope Z_scope.

Lemma append_nil_l s : "" +:+ s = s.
Proof. done. Qed.

Lemma append_cons c (a b : string) : String c a +:+ b = String c (a +:+ b).
Proof. done. Qed.

(** ** Reading patterns *)
Fixpoint strip_prefix (p s : string) : option string :=
  match p, s with
  | EmptyString, _ => Some s
  | String c p, String d s => if Ascii.eqb d c then strip_prefix p s else None
  | _, _ => None
  end.

Fixpoint no_backslash (s : string) : bool :=
  match s with
  | EmptyString => true
  | String c s => negb (Ascii.eqb c "\") && no_backslash s
  end.

Lemma strip_prefix_spec p s s' : strip_prefix p s = Some s' <-> s = p +:+ s'.
Proof.
  revert s. induction p as [|c p IH]; intros s; simpl.
  - split; [by intros [= ->]|by intros ->].
  - destruct s as [|d s]; [done|]. destruct (Ascii.eqb_spec d c) as [->|Hne].
    + rewrite IH. split; [by intros ->|by intros [= ->]].
    + split; [done|]. intros [= -> _]. done.
Qed.

Lemma like_escape p rest s :
  no_backslash p = true ->
  like (escapeUserInput p +:+ rest) s
  = match strip_prefix p s with Some s' => like rest s' | None => false end.
Proof.
  revert s. induction p as [|c p IH]; intros s Hp; [done|].
  simpl in Hp. apply andb_prop in Hp as [Hc%negb_true_iff Hp]. simpl.
  destruct (Ascii.eqb_spec c "%") as [->|H1]; simpl.
  { destruct s as [|d s]; [done|]. rewrite IH by done. by destruct (Ascii.eqb d "%"). }
  destruct (Ascii.eqb_spec c "_") as [->|H2]; simpl.
  { destruct s as [|d s]; [done|]. rewrite IH by done. by destruct (Ascii.eqb d "_"). }
  rewrite (proj2 (Ascii.eqb_neq c "%") H1), (proj2 (Ascii.eqb_neq c "_") H2), Hc.
  destruct s as [|d s]; [done|]. rewrite IH by done. by destruct (Ascii.eqb d c).
Qed.

Lemma like_any rest s :
  like (String "%" rest) s = true <-> exists a b, s = a +:+ b /\ like rest b = true.
Proof.
  cbn [like]. change (Ascii.eqb "%" "%") with true. cbn iota.
  induction s as [|d s IH].
  - rewrite orb_false_r. split; [intros H; by exists EmptyString, EmptyString|].
    intros (a & b & E & H). destruct a; rewrite ?append_nil_l, ?append_cons in E; [by subst|discriminate].
  - rewrite orb_true_iff, IH. split.
    + intros [H|(a & b & -> & H)]; [by exists EmptyString, (String d s)|by exists (String d a), b].
    + intros (a & b & E & H). destruct a as [|d' a]; rewrite ?append_nil_l, ?append_cons in E.
      * left. by rewrite E.
      * injection E as -> ->. right. by exists a, b.
Qed.

Lemma like_all s : like "%" s = true.
Proof. apply like_any. exists s, EmptyString. split; [|done]. induction s as [|d s IH]; [done|]. rewrite append_cons. by rewrite <- IH. Qed.

Lemma like_end s : like "" s = true <-> s = EmptyString.
Proof. by destruct s. Qed.

(** ** Searches *)

(** The row selected by a search entry. *)
Definition found (entry : obj) (r : row) : result bool :=
  cs ← search_clauses (Object entry); Ok (matches cs r).

(** The text [s] contains, begins with or ends with [p]. *)
Definition contains (p s : string) : Prop := exists a b, s = a +:+ p +:+ b.
Definition begins (p s : string) : Prop := exists b, s = p +:+ b.
Definition ends (p s : string) : Prop := exists a, s = a +:+ p.

Lemma like_begins p s : no_backslash p = true -> like (escapeUserInput p +:+ "%") s = true <-> begins p s.
Proof.
  intros Hp. rewrite like_escape by done. unfold begins. split.
  - destruct (strip_prefix p s) as [s'|] eqn:E; [|done]. intros _. exists s'. by apply strip_prefix_spec.
  - intros (b & Hs%strip_prefix_spec). rewrite Hs. apply like_all.
Qed.

Lemma like_contains p s :
  no_backslash p = true -> like ("%" +:+ escapeUserInput p +:+ "%") s = true <-> contains p s.
Proof.
  intros Hp. change ("%" +:+ ?x) with (String "%" x). rewrite like_any. unfold contains. split.
  - intros (a & b & -> & (c & ->)%like_begins); [|done]. by exists a, c.
  - intros (a & b & ->). exists a, (p +:+ b). split; [done|]. apply like_begins; [done|]. by exists b.
Qed.

Lemma like_ends p s : no_backslash p = true -> like ("%" +:+ escapeUserInput p) s = true <-> ends p s.
Proof.
  intros Hp. change ("%" +:+ ?x) with (String "%" x). rewrite like_any. unfold ends. split.
  - intros (a & b & -> & H). rewrite <- (string_app_nil_r (escapeUserInput p)), like_escape in H by done.
    destruct (strip_prefix p b) as [s'|] eqn:E; [|done]. apply like_end in H as ->.
    apply strip_prefix_spec in E as ->. exists a. by rewrite string_app_nil_r.
  - intros (a & ->). exists a, p. split; [done|].
    rewrite <- (string_app_nil_r (escapeUserInput p)), like_escape by done.
    assert (strip_prefix p p = Some "") as -> by (apply strip_prefix_spec; by rewrite string_app_nil_r).
    done.
Qed.

(** Searching by [pattern], [startsWith] and [endsWith] treats the input
    as literal text: a row is selected exactly when the text of the column
    contains, begins with and ends with the inputs, whatever [%] and [_] they
    hold, as long as they hold no backslash. *)
Theorem search_literal (c pat pre suf s : string) (r : row) :
  no_backslash pat = true -> no_backslash pre = true -> no_backslash suf = true ->
  pat <> "" -> pre <> "" -> suf <> "" -> cell r c = SStr s ->
  exists b,
    found [("property", Str c); ("pattern", Str pat); ("startsWith", Str pre); ("endsWith", Str suf)] r = Ok b
    /\ (b = true <-> contains pat s /\ begins pre s /\ ends suf s).
Proof.
  intros Hp1 Hp2 Hp3 Hn1%String.eqb_neq Hn2%String.eqb_neq Hn3%String.eqb_neq Hc.
  exists (like ("%" +:+ escapeUserInput pat +:+ "%") s && (like ("" +:+ escapeUserInput pre +:+ "%") s
          && (like ("%" +:+ escapeUserInput suf +:+ "") s && true))). split.
  - unfold found, search_clauses. simpl. rewrite Hn1, Hn2, Hn3. simpl.
    unfold matches. simpl. by rewrite Hc.
  - rewrite append_nil_l, string_app_nil_r, andb_true_r, !andb_true_iff.
    by rewrite like_contains, like_begins, like_ends.
Qed.

Lemma search_literal_witness :
  exists b,
    found [("property", Str "name"); ("pattern", Str "0%"); ("startsWith", Str "1"); ("endsWith", Str "_x")]
      (<["name" := SStr "100%_x"]> (∅ : row)) = Ok b
    /\ (b = true <-> contains "0%" "100%_x" /\ begins "1" "100%_x" /\ ends "_x" "100%_x").
Proof. apply (search_literal "name" "0%" "1" "_x" "100%_x"); (reflexivity || discriminate). Defined.

(** A backslash is not escaped: it quotes the next character of the pattern,
    so a search for text with a backslash misses it. *)
Lemma search_backslash_misses :
  let r := <["name" := SStr "a\b"]> (∅ : row) in
  begins "a\" "a\b" /\ found [("property", Str "name"); ("startsWith", Str "a\")] r = Ok false.
Proof. split; [by exists "b"|reflexivity]. Qed.
