(* ===== verification/Table.v ===== *)
(** * The table operations of util.js: [getTableInstance]

    Each operation takes the state of the transaction it runs in.  Without a
    [trx] argument the source opens a transaction of its own and commits it on
    success or rolls it back on an error: the same function applied to the
    committed state, whose result replaces that state only on [Ok]. *)
From S2P Require Import Prelude JsValue Database Engine.
From stdpp Require Import list.
Local Open Scope Z_scope.

Definition as_obj (v : val) : obj := match v with Object o => o | _ => [] end.

Section Table.
Context {St : Type} `{SqlEngine St}.

Definition upsert (t : table) (inputRows : val) (s : St) : result St :=
  rows ← mapRowsBySchema (as_obj <$> as_array inputRows) (schema t);
  foldM (fun s row => eng_insert_merge t (row_of row) s) s rows.

Definition deleteByParams (t : table) (params : obj) (s : St) : result (St * Z) :=
  q ← queryBuilder params (primaryKey t) false;
  eng_delete t q s.

Definition deleteByPrimaryKey (t : table) (ids : val) (s : St) : result (St * Z) :=
  eng_delete t [KWhereIn (primaryKey t) (Arr (as_array ids))] s.

Definition update (t : table) (where_ updates : obj) (s : St) : result (St * Z) :=
  q ← queryBuilder where_ (primaryKey t) false;
  eng_update t q (row_of updates) s.

Definition find (t : table) (params : obj) (columns : val) (s : St) : result (list obj) :=
  let columns := if truthy columns then columns else Arr (as_array (primaryKey t)) in
  q ← queryBuilder params columns false;
  eng_select t q s.

Definition count (t : table) (params : obj) (column : val) (s : St) : result Z :=
  let column :=
    if truthy column then Arr [hd Undef (as_array column)]
    else Arr [hd Undef (as_array (primaryKey t))] in
  q ← queryBuilder params column true;
  eng_count t q s.

(** The column deltas of [params.increment]. *)
Definition deltas (o : obj) : result (list (string * Z)) :=
  mapM_result (fun kv => d ← js_BigInt (snd kv); Ok (fst kv, d)) o.

Definition increment (t : table) (params : obj) (s : St) : result (St * Z) :=
  q ← queryBuilder params (Bool false) false;
  ds ← deltas (as_obj (prop params "increment"));
  eng_add t q ds s.

Definition decrement (t : table) (params : obj) (s : St) : result (St * Z) :=
  q ← queryBuilder params (Bool false) false;
  ds ← deltas (as_obj (prop params "decrement"));
  eng_add t q ((fun cd => (fst cd, - snd cd)) <$> ds) s.

End Table.

(** ** Facts about rows *)
Lemma cell_union_l (u r : row) c : c ∈ dom u -> cell (u ∪ r) c = cell u c.
Proof.
  intros [v Hv]%elem_of_dom. unfold cell.
  by rewrite (lookup_union_Some_l u r c v Hv), Hv.
Qed.

Lemma cell_union_r (u r : row) c : u !! c = None -> cell (u ∪ r) c = cell r c.
Proof. intros Hu. unfold cell. by rewrite lookup_union_r. Qed.

Lemma cell_insert_eq (r : row) c v : cell (<[c := v]> r) c = v.
Proof. unfold cell. by rewrite lookup_insert_eq. Qed.

Lemma cell_insert_ne (r : row) c c' v : c <> c' -> cell (<[c := v]> r) c' = cell r c'.
Proof. intros. unfold cell. by rewrite lookup_insert_ne. Qed.

Lemma cell_nonnull_dom (r : row) c : cell r c <> SNull -> c ∈ dom r.
Proof. unfold cell. intros Hc. apply elem_of_dom. destruct (r !! c); [eauto|done]. Qed.

Lemma string_compare_refl s : String.compare s s = Eq.
Proof.
  pose proof (String.compare_antisym s s) as E.
  destruct (String.compare s s); by simpl in E.
Qed.

Lemma sql_test_eq_str a b : sql_test "=" (SStr a) (SStr b) = true <-> a = b.
Proof.
  unfold sql_test. simpl. split.
  - destruct (String.compare a b) eqn:E; try discriminate.
    intros _. by apply String.compare_eq_iff.
  - intros ->. by rewrite string_compare_refl.
Qed.

Lemma sql_test_eq_int a b : sql_test "=" (SInt a) (SInt b) = true <-> a = b.
Proof.
  unfold sql_test. simpl. split.
  - destruct (Z.compare_spec a b); [done|discriminate..].
  - intros ->. by rewrite Z.compare_refl.
Qed.

(** ** The invariant of a table

    Every row is stored under its primary key, its key columns are not null
    and every column holds a value of its declared type. *)
Definition wf_table (t : table) : bool :=
  row_typed t (defaults t) && bool_decide (NoDup (fst <$> schema t))
  && forallb (fun c => existsb (String.eqb c) (fst <$> schema t)) (pk_columns t).

Definition row_in (t : table) (k : list sql) (r : row) : Prop :=
  key_of t r = k /\ row_typed t r = true /\ Forall (fun v => v <> SNull) k.

Definition table_ok (t : table) (rs : rows) : Prop :=
  forall k r, rs !! k = Some r -> row_in t k r.

Lemma row_typed_cell (t : table) r c col :
  row_typed t r = true -> (c, col) ∈ schema t -> cell_ok (ctype col) (cell r c) = true.
Proof.
  unfold row_typed. rewrite forallb_forall. intros H Hin.
  apply (H (c, col)). by apply list_elem_of_In.
Qed.

Lemma row_typed_intro (t : table) r :
  (forall c col, (c, col) ∈ schema t -> cell_ok (ctype col) (cell r c) = true) -> row_typed t r = true.
Proof.
  intros H. unfold row_typed. rewrite forallb_forall. intros [c col] Hin.
  apply H. by apply list_elem_of_In.
Qed.

Lemma row_typed_union (t : table) (u r : row) :
  row_typed t u = true -> row_typed t r = true -> row_typed t (u ∪ r) = true.
Proof.
  intros Hu Hr. apply row_typed_intro. intros c col Hin.
  destruct (u !! c) eqn:E.
  - rewrite cell_union_l by (by apply elem_of_dom). by apply (row_typed_cell t).
  - rewrite cell_union_r by done. by apply (row_typed_cell t).
Qed.

Lemma row_complete_key (t : table) r c :
  row_complete t r = true -> c ∈ pk_columns t -> cell r c <> SNull.
Proof.
  unfold row_complete. intros [_ Hp]%andb_prop Hc.
  rewrite forallb_forall in Hp. specialize (Hp c). rewrite <- list_elem_of_In in Hp.
  specialize (Hp Hc). by apply bool_decide_eq_true in Hp.
Qed.

Lemma key_of_union (t : table) (u r : row) :
  row_complete t u = true -> key_of t (u ∪ r) = key_of t u.
Proof.
  intros Hu. unfold key_of. apply list_fmap_ext. intros i c Hc.
  apply cell_union_l, cell_nonnull_dom, (row_complete_key t); [done|].
  by apply list_elem_of_lookup_2 in Hc.
Qed.

Lemma key_of_ext (t : table) r r' :
  (forall c, c ∈ pk_columns t -> cell r' c = cell r c) -> key_of t r' = key_of t r.
Proof.
  intros Hc. unfold key_of. apply list_fmap_ext. intros i c Hi.
  by apply Hc, (list_elem_of_lookup_2 _ i).
Qed.

Lemma key_nonnull (t : table) r :
  row_complete t r = true -> Forall (fun v => v <> SNull) (key_of t r).
Proof.
  intros Hr. unfold key_of. rewrite Forall_forall. intros v.
  intros (c & -> & Hc)%list_elem_of_fmap. by apply (row_complete_key t).
Qed.

Lemma table_ok_insert (t : table) (rs : rows) r :
  wf_table t = true -> table_ok t rs -> insertable t r = true ->
  table_ok t (<[key_of t r := r ∪ default (defaults t) (rs !! key_of t r)]> rs).
Proof.
  intros [[Hd _]%andb_prop _]%andb_prop Hk [Hc Ht]%andb_prop k r'.
  destruct (decide (key_of t r = k)) as [<-|Hne].
  - rewrite lookup_insert_eq. intros [= <-]. split_and!.
    + by apply key_of_union.
    + apply row_typed_union; [done|].
      destruct (rs !! key_of t r) eqn:E; simpl; [by apply (Hk _ _ E)|done].
    + by apply key_nonnull.
  - rewrite lookup_insert_ne by done. apply Hk.
Qed.

Lemma table_ok_filter (t : table) (rs : rows) (P : list sql * row -> Prop) `{forall x, Decision (P x)} :
  table_ok t rs -> table_ok t (filter P rs).
Proof. intros Hk k r [Hl _]%map_lookup_filter_Some. by apply Hk. Qed.

Lemma table_ok_on_matching (t : table) (rs : rows) q f :
  table_ok t rs ->
  (forall r, key_of t (f r) = key_of t r) ->
  (forall r, row_typed t r = true -> row_typed t (f r) = true) ->
  table_ok t (on_matching q f rs).
Proof.
  intros Hk Hf Ht k r. unfold on_matching. rewrite lookup_fmap.
  destruct (rs !! k) as [r0|] eqn:E; simpl; [|done]. intros [= <-].
  destruct (Hk _ _ E) as (? & ? & ?). unfold row_in.
  destruct (matches q r0); [rewrite Hf|]; auto.
Qed.

Lemma spares_key_spec (t : table) cs c :
  spares_key t cs = true -> c ∈ cs -> c ∉ pk_columns t.
Proof.
  unfold spares_key. rewrite forallb_forall. intros H Hc Hp.
  specialize (H c (proj1 (list_elem_of_In _ _) Hc)). apply negb_true_iff in H.
  apply not_true_iff_false in H. apply H, existsb_exists. exists c. split; [by apply list_elem_of_In|apply String.eqb_refl].
Qed.

Lemma key_of_update (t : table) (u r : row) :
  spares_key t (fst <$> map_to_list u) = true -> key_of t (u ∪ r) = key_of t r.
Proof.
  intros Hs. apply key_of_ext. intros c Hc. apply cell_union_r.
  destruct (u !! c) as [v|] eqn:E; [|done]. exfalso.
  apply (spares_key_spec t _ c Hs); [|done].
  apply list_elem_of_fmap. exists (c, v). split; [done|]. by apply elem_of_map_to_list.
Qed.

Lemma cell_add_cells_ne ds (r : row) c : c ∉ (fst <$> ds) -> cell (add_cells ds r) c = cell r c.
Proof.
  unfold add_cells. revert r. induction ds as [|[c' d] ds IH]; intros r; simpl; [done|].
  rewrite not_elem_of_cons. intros [Hne Hd]. rewrite IH by done. by apply cell_insert_ne.
Qed.

Lemma key_of_add_cells (t : table) ds r :
  spares_key t (fst <$> ds) = true -> key_of t (add_cells ds r) = key_of t r.
Proof.
  intros Hs. apply key_of_ext. intros c Hc. apply cell_add_cells_ne.
  intros Hin. by apply (spares_key_spec t _ c Hs).
Qed.

Lemma sql_add_ok ty v d :
  cell_ok ty (SInt 0) = true -> cell_ok ty v = true -> cell_ok ty (sql_add v d) = true.
Proof. destruct v; simpl; auto. destruct (parse_Z s); simpl; auto. Qed.

Lemma row_typed_add_cells (t : table) ds r :
  numeric t (fst <$> ds) = true -> row_typed t r = true -> row_typed t (add_cells ds r) = true.
Proof.
  intros Hn. unfold add_cells.
  assert (forall ds' r, fst <$> ds' ⊆ fst <$> ds -> row_typed t r = true ->
    row_typed t (foldl (fun r cd => <[fst cd := sql_add (cell r (fst cd)) (snd cd)]> r) r ds') = true)
    as H; [|by apply H].
  induction ds' as [|[c d] ds' IH]; intros r' Hsub Hr; simpl; [done|].
  apply IH; [by intros x Hx; apply Hsub; right|]. apply row_typed_intro. intros c' col Hin.
  destruct (String.eq_dec c c') as [<-|Hne].
  - rewrite cell_insert_eq. apply sql_add_ok; [|by apply (row_typed_cell t)].
    unfold numeric in Hn. rewrite forallb_forall in Hn.
    specialize (Hn (c, col) (proj1 (list_elem_of_In _ _) Hin)). simpl in Hn.
    rewrite (proj2 (existsb_exists _ _)) in Hn; [done|].
    exists c. split; [apply list_elem_of_In, Hsub; by left|apply String.eqb_refl].
  - rewrite cell_insert_ne by done. by apply (row_typed_cell t).
Qed.

(** No row of the table matches. *)
Lemma matching_nil (q : list clause) (rs : rows) :
  (forall k r, rs !! k = Some r -> matches q r = false) -> matching q rs = [].
Proof.
  intros Hf. unfold matching.
  assert (Forall (fun r => matches q r = false) (snd <$> map_to_list rs)) as Hall.
  { apply Forall_forall. intros r.
    intros ([k r'] & -> & Hin)%list_elem_of_fmap.
    apply elem_of_map_to_list in Hin. by eapply Hf. }
  induction Hall as [|r l Hr _ IH]; [done|].
  by rewrite filter_cons_False by (by rewrite Hr).
Qed.

(** The rows a query selects, when it singles out one key. *)
Lemma matching_unique (q : list clause) (rs : rows) k0 :
  (forall k r, rs !! k = Some r -> matches q r = true <-> k = k0) ->
  matching q rs = option_list (rs !! k0).
Proof.
  intros Hq. destruct (rs !! k0) as [r0|] eqn:E; simpl.
  - apply Permutation_singleton_r.
    unfold matching. rewrite <- (insert_delete_id rs k0 r0 E) at 1.
    rewrite map_to_list_insert by apply lookup_delete_eq. simpl.
    rewrite filter_cons_True by (by apply (Hq k0 r0 E)).
    apply Permutation_cons; [done|]. apply Permutation_nil_r.
    apply (matching_nil q (delete k0 rs)). intros k r [Hne Hr]%lookup_delete_Some.
    destruct (matches q r) eqn:Em; [|done]. by apply (Hq k r Hr) in Em.
  - apply matching_nil. intros k r Hr. destruct (matches q r) eqn:Em; [|done].
    apply (Hq k r Hr) in Em. congruence.
Qed.

(** ** Rows that [upsert] sends are well typed

    [cast] brings every value to the type of its column, for the column types
    it knows. *)
Definition cast_type (ty : string) : bool :=
  existsb (String.eqb ty) ["integer"; "number"; "bigInteger"; "string"; "boolean"; "json"].

Lemma cast_typed v ty w :
  cast_type ty = true -> cast v ty = Ok w -> cell_ok ty (to_sql (getValue w)) = true.
Proof.
  unfold cast_type. simpl. rewrite !orb_true_iff, !String.eqb_eq.
  intros Hty. unfold cast.
  destruct Hty as [-> | [-> | [-> | [-> | [-> | [-> | [=]]]]]]]; simpl.
  all: destruct v; simpl; intros H; simplify_eq; simpl; try done.
  all: try (destruct (String.eqb s ""); simplify_eq; simpl; try done;
            destruct (parse_Z s); simplify_eq; simpl; done).
  all: apply bind_Ok_inv in H as (a & Ha & H); simplify_eq; try done.
  all: by destruct a.
Qed.

(** ** The row stored for an object *)
Definition keys_unique (o : obj) : Prop := NoDup (fst <$> o).

Lemma keys_unique_set o k v : keys_unique o -> keys_unique (set_prop o k v).
Proof. apply NoDup_set_prop. Qed.

Lemma row_of_fold o (r : row) c :
  keys_unique o ->
  foldl (fun r kv => <[fst kv := to_sql (snd kv)]> r) r o !! c
  = if has_prop o c then Some (to_sql (prop o c)) else r !! c.
Proof.
  revert r. induction o as [|[k v] o IH]; intros r Ho; [done|].
  apply NoDup_cons in Ho as [Hn Ho]. simpl. rewrite IH by done.
  change (has_prop ((k, v) :: o) c) with (String.eqb k c || has_prop o c).
  destruct (String.eqb_spec k c) as [<-|Hne]; simpl.
  - destruct (has_prop o k) eqn:E; [by apply has_prop_elem in E|]. by rewrite lookup_insert_eq.
  - destruct (has_prop o c); [done|]. by rewrite lookup_insert_ne.
Qed.

Lemma row_of_lookup o c :
  keys_unique o -> row_of o !! c = if has_prop o c then Some (to_sql (prop o c)) else None.
Proof. intros. unfold row_of. by rewrite row_of_fold. Qed.

Lemma prop_absent o c : has_prop o c = false -> prop o c = Undef.
Proof.
  induction o as [|[k v] o IH]; simpl; [done|]. intros [Hk Ho]%orb_false_iff.
  rewrite Hk. by apply IH.
Qed.

Lemma cell_row_of o c : keys_unique o -> cell (row_of o) c = to_sql (prop o c).
Proof.
  intros Ho. unfold cell. rewrite row_of_lookup by done.
  destruct (has_prop o c) eqn:E; [done|]. by rewrite prop_absent.
Qed.

(** A stored object matches the query for its own values. *)
Lemma eq_tests_own (o : obj) (old : row) :
  keys_unique o -> Forall (fun kv => match to_sql (snd kv) with SStr _ | SInt _ => True | _ => False end) o ->
  forallb (eq_test (row_of o ∪ old)) o = true.
Proof.
  intros Hu Hv. apply forallb_forall. intros [k v] Hin%list_elem_of_In.
  rewrite Forall_forall in Hv. specialize (Hv _ Hin). simpl in Hv.
  assert (cell (row_of o ∪ old) k = to_sql v) as E.
  { rewrite <- (prop_elem o k v Hu Hin), <- cell_row_of by done. apply cell_union_l, elem_of_dom.
    rewrite row_of_lookup by done. rewrite (proj2 (has_prop_elem o k)); [by eexists|].
    apply list_elem_of_fmap. by exists (k, v). }
  unfold eq_test. cbn [fst snd]. rewrite E.
  destruct (to_sql v); try done; [by apply sql_test_eq_int|by apply sql_test_eq_str].
Qed.

(** What [mapRowsBySchema] puts under a column. *)
Definition mapped (item : obj) (cc : string * column) (ro : obj) : Prop :=
  if has_prop item (fst cc)
  then exists w, cast (prop item (fst cc)) (ctype (snd cc)) = Ok w /\
         has_prop ro (fst cc) = true /\ prop ro (fst cc) = getValue w
  else has_prop ro (fst cc) = false.

Lemma mapRow_fold item sch acc ro :
  NoDup (fst <$> sch) -> keys_unique acc -> (forall c, c ∈ (fst <$> sch) -> has_prop acc c = false) ->
  foldM (fun row cc =>
    let '(column, c) := cc in
    if has_prop item column then
      v ← cast (prop item column) (ctype c);
      Ok (set_prop row column (getValue v))
    else Ok row) acc sch = Ok ro ->
  keys_unique ro /\ Forall (fun cc => mapped item cc ro) sch /\
  forall c, c ∉ (fst <$> sch) -> has_prop ro c = has_prop acc c /\ prop ro c = prop acc c.
Proof.
  revert acc. induction sch as [|[c col] sch IH]; intros acc Hnd Hacc Hfree H; simpl in H.
  { simplify_eq. split_and!; [done|constructor|done]. }
  rewrite fmap_cons in Hnd. apply NoDup_cons in Hnd as [Hc Hnd]. rewrite fmap_cons in Hfree. simpl in Hc, Hfree.
  assert (forall c', c' ∈ sch.*1 -> has_prop acc c' = false) as Hfree'
    by (intros c' Hin; apply Hfree; by right).
  assert (has_prop acc c = false) as Hacc0 by (apply Hfree; by left).
  unfold mapped. destruct (has_prop item c) eqn:Eh.
  - apply bind_Ok_inv in H as (acc' & (w & Hw & Ha)%bind_Ok_inv & H). simplify_eq.
    assert (forall c', c' ∈ (fst <$> sch) -> c <> c') as Hne by (intros c' ? ->; done).
    apply IH in H as (Hu & Hall & Hrest); [|done|by apply keys_unique_set|].
    2:{ intros c' Hin. rewrite has_prop_set_ne by auto. auto. }
    split_and!; [done| |].
    + constructor; [|done]. simpl. rewrite Eh. exists w. destruct (Hrest c Hc) as [-> ->].
      by rewrite has_prop_set_eq, prop_set_eq.
    + intros c'. rewrite fmap_cons. intros [Hn1 Hn2]%not_elem_of_cons. destruct (Hrest c' Hn2) as [-> ->].
      by rewrite has_prop_set_ne, prop_set_ne.
  - apply bind_Ok_inv in H as (acc' & Ha & H). simplify_eq.
    apply IH in H as (Hu & Hall & Hrest); [|done..].
    split_and!; [done| |].
    + constructor; [|done]. simpl. rewrite Eh. by destruct (Hrest c Hc) as [-> _].
    + intros c'. rewrite fmap_cons. intros [Hn1 Hn2]%not_elem_of_cons. by apply Hrest.
Qed.

Lemma mapRow_spec (item : obj) sch ro :
  NoDup (fst <$> sch) -> mapRowBySchema item sch = Ok ro ->
  keys_unique ro /\ Forall (fun cc => mapped item cc ro) sch /\
  forall c, c ∉ (fst <$> sch) -> has_prop ro c = false.
Proof.
  intros Hnd H. apply mapRow_fold in H as (Hu & Hall & Hrest); [|done|constructor|done].
  split_and!; [done..|]. intros c Hc. by apply Hrest.
Qed.

Lemma mapRow_typed (t : table) item ro :
  wf_table t = true -> forallb (fun cc => cast_type (ctype (snd cc))) (schema t) = true ->
  mapRowBySchema item (schema t) = Ok ro -> row_typed t (row_of ro) = true.
Proof.
  intros [[_ Hnd%bool_decide_eq_true]%andb_prop _]%andb_prop Hct H.
  apply mapRow_spec in H as (Hu & Hall & _); [|done].
  apply row_typed_intro. intros c col Hin. rewrite cell_row_of by done.
  rewrite forallb_forall in Hct. specialize (Hct _ (proj1 (list_elem_of_In _ _) Hin)). simpl in Hct.
  rewrite Forall_forall in Hall. specialize (Hall _ Hin).
  unfold mapped in Hall. simpl in Hall. destruct (has_prop item c).
  - destruct Hall as (w & Hw & _ & ->). by eapply cast_typed.
  - by rewrite prop_absent.
Qed.

(** ** Operations on a database of well-formed tables *)
Section Operations.
Context {St : Type} `{SqlLaws St}.

Inductive op :=
| OUpsert (t : table) (inputRows : val)
| ODeleteByParams (t : table) (params : obj)
| ODeleteByPrimaryKey (t : table) (ids : val)
| OUpdate (t : table) (where_ updates : obj)
| OIncrement (t : table) (params : obj)
| ODecrement (t : table) (params : obj).

Definition run_op (o : op) (s : St) : result St :=
  match o with
  | OUpsert t rows => upsert t rows s
  | ODeleteByParams t params => fst <$> deleteByParams t params s
  | ODeleteByPrimaryKey t ids => fst <$> deleteByPrimaryKey t ids s
  | OUpdate t w u => fst <$> update t w u s
  | OIncrement t params => fst <$> increment t params s
  | ODecrement t params => fst <$> decrement t params s
  end.

Definition op_table (o : op) : table :=
  match o with
  | OUpsert t _ | ODeleteByParams t _ | ODeleteByPrimaryKey t _ | OUpdate t _ _
  | OIncrement t _ | ODecrement t _ => t
  end.

(** A query the engine's laws speak about. *)
Definition query_ok (params : obj) (columns : val) : bool :=
  match queryBuilder params columns false with Ok q => supported q | Throw _ => true end.

Definition delta_ok (t : table) (params : obj) (key : string) : bool :=
  query_ok params (Bool false) &&
  match deltas (as_obj (prop params key)) with
  | Ok ds => spares_key t (fst <$> ds) && numeric t (fst <$> ds)
  | Throw _ => true
  end.

(** The caller's side: queries within the laws, assignments to columns that
    are not part of the key and of the column's type. *)
Definition op_ok (o : op) : bool :=
  match o with
  | OUpsert t _ => forallb (fun cc => cast_type (ctype (snd cc))) (schema t)
  | ODeleteByParams t params => query_ok params (primaryKey t)
  | ODeleteByPrimaryKey t ids => supported1 (KWhereIn (primaryKey t) (Arr (as_array ids)))
  | OUpdate t w u =>
      query_ok w (primaryKey t) && spares_key t (fst <$> map_to_list (row_of u)) && row_typed t (row_of u)
  | OIncrement t params => delta_ok t params "increment"
  | ODecrement t params => delta_ok t params "decrement"
  end.

(** All tables of the database keep their invariant. *)
Definition db_ok (ts : list table) (s : St) : Prop := forall t, t ∈ ts -> table_ok t (rows_of s t).

Lemma db_ok_set ts s s' (t : table) rs :
  NoDup (tableName <$> ts) -> t ∈ ts -> db_ok ts s -> table_set s s' t rs -> table_ok t rs -> db_ok ts s'.
Proof.
  intros Hnd Ht Hs [Hr Ho] Hrs t' Ht'.
  destruct (decide (tableName t' = tableName t)) as [E|Hne].
  - assert (t' = t) as ->; [|by rewrite Hr].
    apply list_elem_of_lookup in Ht as [i Hi]. apply list_elem_of_lookup in Ht' as [j Hj].
    assert (j = i) as ->; [|congruence].
    eapply (NoDup_lookup (tableName <$> ts)); [done|..].
    + by rewrite list_lookup_fmap, Hj.
    + rewrite list_lookup_fmap, Hi. simpl. by rewrite E.
  - unfold rows_of. rewrite (Ho _ Hne). by apply Hs.
Qed.

Lemma insert_merge_ok ts s s' (t : table) r :
  NoDup (tableName <$> ts) -> t ∈ ts -> wf_table t = true -> db_ok ts s ->
  row_typed t r = true -> eng_insert_merge t r s = Ok s' -> db_ok ts s'.
Proof.
  intros Hnd Ht Hwf Hs Hty E. destruct (row_complete t r) eqn:Ec.
  - assert (insertable t r = true) as Hi by (unfold insertable; by rewrite Ec, Hty).
    destruct (insert_merge_law t r s Hi) as (s1 & E1 & Hset). rewrite E1 in E. simpl in E. simplify_eq.
    eapply db_ok_set; [exact Hnd|exact Ht|exact Hs|exact Hset|]. apply table_ok_insert; auto.
  - destruct (insert_incomplete_law t r s Ec) as [e E1]. congruence.
Qed.

Lemma run_op_ok ts s s' o :
  NoDup (tableName <$> ts) -> op_table o ∈ ts -> wf_table (op_table o) = true -> op_ok o = true ->
  db_ok ts s -> run_op o s = Ok s' -> db_ok ts s'.
Proof.
  intros Hnd Ht Hwf Hok Hs. pose proof (Hs _ Ht) as Hto.
  destruct o; simpl in *; intros E.
  - unfold upsert in E. apply bind_Ok_inv in E as (rws & Hrws & E).
    eapply (foldM_inv (db_ok ts)); [|exact Hs|exact E].
    intros s0 ro s1 Hin Hs0 E1. eapply insert_merge_ok; [exact Hnd|exact Ht|exact Hwf|exact Hs0| |exact E1].
    destruct (mapM_result_elem _ _ _ _ Hrws Hin) as (it & _ & Hit). by eapply mapRow_typed.
  - unfold deleteByParams, query_ok in *. destruct (queryBuilder params (primaryKey t) false) as [q|]; [|done].
    simpl in *. destruct (delete_law t q s Hok) as (s1 & E1 & Hset). rewrite E1 in E. simpl in E. simplify_eq.
    eapply db_ok_set; [exact Hnd|exact Ht|exact Hs|exact Hset|]. by apply table_ok_filter.
  - unfold deleteByPrimaryKey in E.
    destruct (delete_law t [KWhereIn (primaryKey t) (Arr (as_array ids))] s) as (s1 & E1 & Hset).
    { unfold supported. cbn [forallb]. rewrite andb_true_r. exact Hok. }
    rewrite E1 in E. simpl in E. simplify_eq. eapply db_ok_set; [exact Hnd|exact Ht|exact Hs|exact Hset|]. by apply table_ok_filter.
  - apply andb_prop in Hok as [[Hq Hk]%andb_prop Hu]. unfold update, query_ok in *.
    destruct (queryBuilder where_ (primaryKey t) false) as [q|]; [|done].
    simpl in *. destruct (update_law t q (row_of updates) s Hq Hk Hu) as (s1 & E1 & Hset).
    rewrite E1 in E. simpl in E. simplify_eq. eapply db_ok_set; [exact Hnd|exact Ht|exact Hs|exact Hset|]. apply table_ok_on_matching; [done|..].
    + intros r. by apply key_of_update.
    + intros r Hr. by apply row_typed_union.
  - apply andb_prop in Hok as [Hq Hd]. unfold increment, query_ok in *.
    destruct (queryBuilder params (Bool false) false) as [q|]; [|done].
    destruct (deltas _) as [ds|]; [|done]. simpl in *. apply andb_prop in Hd as [Hk Hn].
    destruct (add_law t q ds s Hq Hk Hn) as (s1 & E1 & Hset). rewrite E1 in E. simpl in E. simplify_eq.
    eapply db_ok_set; [exact Hnd|exact Ht|exact Hs|exact Hset|]. apply table_ok_on_matching; [done|..].
    + intros r. by apply key_of_add_cells.
    + intros r Hr. by apply row_typed_add_cells.
  - apply andb_prop in Hok as [Hq Hd]. unfold decrement, query_ok in *.
    destruct (queryBuilder params (Bool false) false) as [q|]; [|done].
    destruct (deltas _) as [ds|]; [|done]. simpl in *. apply andb_prop in Hd as [Hk Hn].
    assert (fst <$> ((fun cd => (fst cd, - snd cd)) <$> ds) = fst <$> ds) as Ef
      by (by rewrite <- list_fmap_compose).
    destruct (add_law t q ((fun cd => (fst cd, - snd cd)) <$> ds) s Hq) as (s1 & E1 & Hset); [by rewrite Ef..|].
    rewrite E1 in E. simpl in E. simplify_eq. eapply db_ok_set; [exact Hnd|exact Ht|exact Hs|exact Hset|]. apply table_ok_on_matching; [done|..].
    + intros r. apply key_of_add_cells. by rewrite Ef.
    + intros r Hr. apply row_typed_add_cells; [by rewrite Ef|done].
Qed.

(** Whatever sequence of table operations succeeds on a database of
    well-formed tables, when values assigned by updates and increments fit
    their columns ([op_ok]), every row of every table stays stored under its own
    primary key, with no null in the key and every column holding a value of
    its declared type. *)
Theorem operations_preserve_tables ts ops s s' :
  NoDup (tableName <$> ts) -> Forall (fun t => wf_table t = true) ts ->
  Forall (fun o => op_table o ∈ ts /\ op_ok o = true) ops ->
  db_ok ts s -> foldM (fun s o => run_op o s) s ops = Ok s' -> db_ok ts s'.
Proof.
  intros Hnd Hwf Hops Hs E. eapply (foldM_inv (db_ok ts)); [|exact Hs|exact E].
  intros s0 o s1 Hin Hs0 E1. rewrite Forall_forall in Hops. destruct (Hops o Hin) as [Ht Ho].
  eapply run_op_ok; eauto. rewrite Forall_forall in Hwf. auto.
Qed.

End Operations.

(** ** Reading a row by its key *)

(** A query value that compares with the stored values of a column type. *)
Definition comparable (ty : string) (v : val) : bool :=
  cell_ok ty (to_sql v) && match to_sql v with SStr _ | SInt _ => true | _ => false end.

Lemma cell_ok_exclusive ty a z s b :
  cell_ok ty a = true ->
  (a = SInt z -> cell_ok ty (SStr s) = false) /\ (a = SStr s -> cell_ok ty (SInt z) = false) /\
  (a = SBool b -> cell_ok ty (SStr s) = false /\ cell_ok ty (SInt z) = false).
Proof.
  intros Ha. split_and!; intros ->; simpl in *; rewrite ?orb_true_iff, ?String.eqb_eq in Ha.
  - by destruct Ha as [-> | [-> | [-> | [-> | [=]]]]].
  - by destruct Ha as [-> | [-> | [-> | [=]]]].
  - by subst.
Qed.

Lemma eq_test_typed (r : row) c v ty :
  cell_ok ty (cell r c) = true -> cell r c <> SNull -> comparable ty v = true ->
  eq_test r (c, v) = true <-> cell r c = to_sql v.
Proof.
  unfold comparable, eq_test. simpl. intros Hc Hn [Hv Hk]%andb_prop.
  destruct (cell r c) as [|z|x|b] eqn:E; [done|..]; destruct (to_sql v) as [|z'|x'|b'] eqn:Ev; try done.
  - rewrite sql_test_eq_int. naive_solver.
  - destruct (cell_ok_exclusive ty (SInt z) z x' true Hc) as (H1 & _). rewrite H1 in Hv; done.
  - destruct (cell_ok_exclusive ty (SStr x) z' x true Hc) as (_ & H1 & _). rewrite H1 in Hv; done.
  - rewrite sql_test_eq_str. naive_solver.
  - destruct (cell_ok_exclusive ty (SBool b) z' "" b Hc) as (_ & _ & H1). destruct H1 as [_ H1]; [done|].
    by rewrite H1 in Hv.
  - destruct (cell_ok_exclusive ty (SBool b) 0 x' b Hc) as (_ & _ & H1). destruct H1 as [H1 _]; [done|].
    by rewrite H1 in Hv.
Qed.

(** The values [vals] name a key of the table. *)
Definition key_values (t : table) (vals : list val) : Prop :=
  Forall2 (fun c v => exists col, (c, col) ∈ schema t /\ comparable (ctype col) v = true)
    (pk_columns t) vals.

Lemma eq_tests_key (t : table) k r vals :
  row_in t k r -> key_values t vals ->
  forallb (eq_test r) (zip (pk_columns t) vals) = true <-> k = to_sql <$> vals.
Proof.
  intros (<- & Hty & Hnn) Hv. unfold key_values in Hv. unfold key_of in *.
  induction Hv as [|c v cs vs (col & Hin & Hc) Hv IH]; [done|].
  cbn [zip zip_with forallb]. rewrite !fmap_cons in *. apply Forall_cons in Hnn as [Hn Hnn].
  rewrite andb_true_iff, IH by done.
  rewrite (eq_test_typed r c v (ctype col)) by (done || by apply (row_typed_cell t)).
  split; [intros [-> ->]; done|]. by intros [= -> ->].
Qed.

Lemma matching_key (t : table) (rs : rows) q vals :
  table_ok t rs -> key_values t vals ->
  (forall r, matches q r = forallb (eq_test r) (zip (pk_columns t) vals)) ->
  matching q rs = option_list (rs !! (to_sql <$> vals)).
Proof.
  intros Hrs Hv Hq. apply matching_unique. intros k r Hr. rewrite Hq.
  apply (eq_tests_key t); auto.
Qed.

Definition limit_positive (q : list clause) : bool :=
  match limit_of q, offset_of q with Some 0%nat, _ | _, S _ => false | _, O => true end.

Lemma take_limit_option {A} q (x : option A) :
  limit_positive q = true -> take_limit q (option_list x) = option_list x.
Proof.
  unfold limit_positive, take_limit. destruct (limit_of q) as [[|n]|], (offset_of q); try done.
  intros _. destruct x; simpl; by rewrite ?take_nil.
Qed.

Lemma prop_project q r c : c ∈ selected q -> prop (project q r) c = of_sql (cell r c).
Proof.
  unfold project. generalize (selected q). intros l.
  assert (forall o, c ∈ l \/ prop o c = of_sql (cell r c) ->
    prop (foldl (fun o c => set_prop o c (of_sql (cell r c))) o l) c = of_sql (cell r c)) as H; [|auto].
  induction l as [|c' l IH]; intros o [Hc|Ho]; simpl; try done.
  - by apply not_elem_of_nil in Hc.
  - apply IH. apply elem_of_cons in Hc as [->|Hc]; [right; apply prop_set_eq|by left].
  - apply IH. right. destruct (String.eq_dec c' c) as [->|Hne]; [apply prop_set_eq|].
    by rewrite prop_set_ne.
Qed.

(** A query that names one key changes one row. *)
Lemma on_matching_key (t : table) (rs : rows) q vals f :
  table_ok t rs -> key_values t vals ->
  (forall r, matches q r = forallb (eq_test r) (zip (pk_columns t) vals)) ->
  on_matching q f rs = alter f (to_sql <$> vals) rs.
Proof.
  intros Hrs Hv Hq. apply map_eq. intros k. unfold on_matching. rewrite lookup_fmap.
  destruct (rs !! k) as [r|] eqn:E; simpl.
  - pose proof (eq_tests_key t k r vals (Hrs _ _ E) Hv) as Hk. rewrite <- Hq in Hk.
    destruct (decide (k = to_sql <$> vals)) as [->|Hne].
    + rewrite lookup_alter_eq, E. simpl. by rewrite (proj2 Hk eq_refl).
    + rewrite lookup_alter_ne, E by done. destruct (matches q r); [|done]. by destruct Hne; apply Hk.
  - symmetry. destruct (decide (k = to_sql <$> vals)) as [->|Hne].
    + by rewrite lookup_alter_eq, E.
    + by rewrite lookup_alter_ne, E.
Qed.

Section Lookup.
Context {St : Type} `{SqlLaws St}.

(** [increment] and [decrement] at a key. *)
Lemma add_key (t : table) (s : St) q vals ds :
  table_ok t (rows_of s t) -> key_values t vals -> supported q = true ->
  spares_key t (fst <$> ds) = true -> numeric t (fst <$> ds) = true ->
  (forall r, matches q r = forallb (eq_test r) (zip (pk_columns t) vals)) ->
  exists s', eng_add t q ds s =
      Ok (s', Z.of_nat (length (option_list (rows_of s t !! (to_sql <$> vals))))) /\
    table_set s s' t (alter (add_cells ds) (to_sql <$> vals) (rows_of s t)).
Proof.
  intros Hrs Hv Hsup Hsp Hnum Hq. destruct (add_law t q ds s Hsup Hsp Hnum) as (s' & E & Hset).
  exists s'. unfold count_matching in E. rewrite (matching_key t _ q vals) in E by done.
  rewrite (on_matching_key t _ q vals) in Hset by done. done.
Qed.

Lemma table_ok_alter (t : table) rs k f :
  table_ok t rs -> (forall r, key_of t (f r) = key_of t r) ->
  (forall r, row_typed t r = true -> row_typed t (f r) = true) -> table_ok t (alter f k rs).
Proof.
  intros Hrs Hk Ht k' r. destruct (decide (k = k')) as [<-|Hne].
  - rewrite lookup_alter_eq. destruct (rs !! k) as [r0|] eqn:E; simpl; [|done]. intros [= <-].
    destruct (Hrs _ _ E) as (? & ? & ?). unfold row_in. rewrite Hk. auto.
  - rewrite lookup_alter_ne by done. apply Hrs.
Qed.

Lemma select_key (t : table) (s : St) q vals :
  table_ok t (rows_of s t) -> key_values t vals -> supported q = true -> limit_positive q = true ->
  (forall r, matches q r = forallb (eq_test r) (zip (pk_columns t) vals)) ->
  eng_select t q s = Ok (project q <$> option_list (rows_of s t !! (to_sql <$> vals))).
Proof.
  intros Hrs Hv Hsup Hlim Hq. destruct (select_law t q s Hsup) as (l & Hp & _ & ->).
  rewrite (matching_key t _ q vals) in Hp by done.
  assert (l = option_list (rows_of s t !! (to_sql <$> vals))) as ->.
  { destruct (rows_of s t !! (to_sql <$> vals)); simpl in *.
    - by apply Permutation_singleton_r.
    - by apply Permutation_nil_r. }
  by rewrite take_limit_option.
Qed.

End Lookup.

(** ** [upsert] then [find] *)

(** Parameters that are only column equalities. *)
Definition plain (names : list string) : bool :=
  forallb (fun c => negb (existsb (String.eqb c) ("where" :: KNOWN_QUERY_PARAMS))) names.

Lemma plain_absent (params : obj) k :
  plain (fst <$> params) = true -> k ∈ ("where" :: KNOWN_QUERY_PARAMS) -> prop params k = Undef.
Proof.
  unfold plain. rewrite forallb_forall. intros Hp Hk. apply prop_absent.
  destruct (has_prop params k) eqn:E; [|done]. apply has_prop_elem, list_elem_of_In, Hp in E.
  apply negb_true_iff, not_true_iff_false in E. exfalso. apply E, existsb_exists.
  exists k. split; [by apply list_elem_of_In|apply String.eqb_refl].
Qed.

Lemma resolve_plain (params : obj) :
  plain (fst <$> params) = true -> keys_unique params -> resolveQueryParams params = params.
Proof.
  unfold resolveQueryParams. intros Hp Hu.
  assert (forall acc, NoDup (fst <$> (acc ++ params)) ->
    foldl (fun acc kv => if existsb (String.eqb (fst kv)) KNOWN_QUERY_PARAMS then acc
                         else set_prop acc (fst kv) (snd kv)) acc params = acc ++ params) as H; [|by apply H].
  clear Hu. induction params as [|[k v] params IH]; intros acc Hu; cbn [foldl]; [by rewrite app_nil_r|].
  unfold plain in Hp. rewrite fmap_cons in Hp. apply andb_prop in Hp as [Hk Hp].
  cbn [fst snd] in Hk |- *.
  destruct (existsb (String.eqb k) KNOWN_QUERY_PARAMS) eqn:E.
  { simpl in Hk, E. rewrite E, orb_true_r in Hk. discriminate. }
  rewrite set_prop_fresh; [rewrite IH; [by rewrite <- app_assoc|done|by rewrite <- app_assoc]|].
  rewrite fmap_app, fmap_cons in Hu. apply NoDup_app in Hu as (_ & Hd & _).
  intros Hin. apply (Hd k Hin). by left.
Qed.

Lemma queryBuilder_plain (params : obj) columns :
  plain (fst <$> params) = true -> keys_unique params -> truthy columns = true ->
  queryBuilder params columns false = Ok [KSelect columns; KWhere (Object params)].
Proof.
  intros Hp Hu Hc. pose proof (fun k => plain_absent params k Hp) as Ha.
  unfold queryBuilder, select_clauses, where_clauses, pair_clause.
  rewrite Hc, (resolve_plain _ Hp Hu).
  rewrite !Ha by (apply (bool_decide_unpack _); vm_compute; exact I).
  reflexivity.
Qed.

(** The key columns of a table hold strings or numbers and are not named like
    a query option. *)
Definition simple_key (t : table) : bool :=
  plain (pk_columns t) && bool_decide (NoDup (pk_columns t))
  && forallb (fun cc => negb (existsb (String.eqb (fst cc)) (pk_columns t))
                        || negb (String.eqb (ctype (snd cc)) "boolean")) (schema t).

Definition key_params (t : table) (ro : obj) : obj := (fun c => (c, prop ro c)) <$> pk_columns t.

Lemma key_params_values (t : table) ro :
  wf_table t = true -> simple_key t = true -> keys_unique ro -> insertable t (row_of ro) = true ->
  key_values t (prop ro <$> pk_columns t).
Proof.
  intros [_ Hpk]%andb_prop [_ Hsk]%andb_prop Hu [Hc Ht]%andb_prop.
  apply Forall2_fmap_r, Forall_Forall2_diag, Forall_forall. intros c Hin.
  rewrite forallb_forall in Hpk. apply list_elem_of_In in Hin as Hin'.
  apply Hpk, existsb_exists in Hin' as (c' & Hc' & <-%String.eqb_eq).
  apply list_elem_of_In, list_elem_of_fmap in Hc' as ([c0 col] & -> & Hcol). simpl in *.
  exists col. split; [done|]. unfold comparable.
  pose proof (row_typed_cell t _ _ _ Ht Hcol) as Hty. rewrite cell_row_of in Hty by done.
  pose proof (row_complete_key t _ _ Hc Hin) as Hnn. rewrite cell_row_of in Hnn by done.
  rewrite Hty. destruct (to_sql (prop ro c0)) as [| | |b] eqn:E; try done.
  rewrite forallb_forall in Hsk. specialize (Hsk _ (proj1 (list_elem_of_In _ _) Hcol)).
  simpl in *. rewrite Hty, orb_false_r in Hsk. apply negb_true_iff, not_true_iff_false in Hsk.
  exfalso. apply Hsk, existsb_exists. exists c0. split; [by apply list_elem_of_In|apply String.eqb_refl].
Qed.

Lemma key_params_key (t : table) ro :
  keys_unique ro -> to_sql <$> (prop ro <$> pk_columns t) = key_of t (row_of ro).
Proof.
  intros Hu. unfold key_of. rewrite <- list_fmap_compose. apply list_fmap_ext.
  intros i c _. simpl. by rewrite cell_row_of.
Qed.

Lemma zip_key_params (t : table) ro : zip (pk_columns t) (prop ro <$> pk_columns t) = key_params t ro.
Proof.
  unfold key_params. induction (pk_columns t) as [|c cs IH]; [done|].
  rewrite !fmap_cons. cbn [zip zip_with]. by rewrite IH.
Qed.

Section RoundTrip.
Context {St : Type} `{SqlLaws St}.


End RoundTrip.

(** ** A counter in a column *)
Definition counter (rs : rows) (k : list sql) (c : string) : option Z :=
  match rs !! k with
  | Some r => match cell r c with SInt z => Some z | _ => None end
  | None => None
  end.

Definition bump (k : list sql) (c : string) (n : Z) (rs : rows) : rows := alter (add_cells [(c, n)]) k rs.

Lemma counter_bump (rs : rows) k c n z : counter rs k c = Some z -> counter (bump k c n rs) k c = Some (z + n).
Proof.
  unfold counter, bump. rewrite lookup_alter_eq. destruct (rs !! k) as [r|]; [|done]. simpl.
  destruct (cell r c) as [|z'| |] eqn:Ec; try done. intros [= ->].
  unfold add_cells. simpl. by rewrite cell_insert_eq, ?Ec.
Qed.

(** Adding and subtracting the same amount restores the table. *)
Lemma bump_back (rs : rows) k c n z : counter rs k c = Some z -> bump k c (- n) (bump k c n rs) = rs.
Proof.
  unfold counter, bump. destruct (rs !! k) as [r|] eqn:Er; [|done].
  destruct (cell r c) as [|z'| |] eqn:Ec; try done. intros [= ->]. apply map_eq. intros k'.
  destruct (decide (k' = k)) as [->|Hne]; [|by rewrite !lookup_alter_ne].
  rewrite !lookup_alter_eq, Er. simpl. f_equal. unfold add_cells. simpl.
  rewrite cell_insert_eq, insert_insert_eq, Ec. simpl.
  apply insert_id. unfold cell in Ec. destruct (r !! c); simpl in Ec; [|done]. subst. do 2 f_equal. lia.
Qed.

(** ** Several rows at once *)
Definition insert_row (t : table) (rs : rows) (ro : obj) : rows :=
  <[key_of t (row_of ro) := row_of ro ∪ default (defaults t) (rs !! key_of t (row_of ro))]> rs.

Section Batches.
Context {St : Type} `{SqlLaws St}.

Lemma upsert_fold (t : table) (ros : list obj) (s : St) :
  Forall (fun ro => insertable t (row_of ro) = true) ros ->
  exists s', foldM (fun s row => eng_insert_merge t (row_of row) s) s ros = Ok s' /\
    table_set s s' t (foldl (insert_row t) (rows_of s t) ros).
Proof.
  intros Hins. revert s. induction Hins as [|ro ros Hro _ IH]; intros s; simpl.
  { exists s. by split. }
  destruct (insert_merge_law t (row_of ro) s Hro) as (s1 & -> & Hs1 & Hr1). simpl.
  destruct (IH s1) as (s2 & -> & Hs2 & Hr2). exists s2. split; [done|]. split.
  - rewrite Hs2, Hs1. done.
  - intros tn Htn. by rewrite (Hr2 tn Htn), (Hr1 tn Htn).
Qed.

Lemma upsert_items (t : table) (items ros : list obj) (s : St) :
  mapRowsBySchema items (schema t) = Ok ros ->
  Forall (fun ro => insertable t (row_of ro) = true) ros ->
  exists s', upsert t (Arr (Object <$> items)) s = Ok s' /\
    table_set s s' t (foldl (insert_row t) (rows_of s t) ros).
Proof.
  intros Hm Hins. unfold upsert. cbn [as_array].
  replace (as_obj <$> (Object <$> items)) with items
    by (rewrite <- list_fmap_compose; symmetry; apply list_fmap_id).
  rewrite Hm. by apply upsert_fold.
Qed.

(** [upsert] of one object. *)
Lemma upsert_one (t : table) (item ro : obj) (s : St) :
  mapRowBySchema item (schema t) = Ok ro -> insertable t (row_of ro) = true ->
  exists s', upsert t (Object item) s = Ok s' /\ table_set s s' t (insert_row t (rows_of s t) ro).
Proof.
  intros Hm Hins. destruct (upsert_items t [item] [ro] s) as (s' & E & Hset).
  - unfold mapRowsBySchema. simpl. by rewrite Hm.
  - by constructor.
  - exists s'. split; [exact E|exact Hset].
Qed.

(** What a successful [upsert] of one object did. *)
Lemma upsert_one_inv (t : table) (item : obj) (s s' : St) :
  wf_table t = true -> forallb (fun cc => cast_type (ctype (snd cc))) (schema t) = true ->
  upsert t (Object item) s = Ok s' ->
  exists ro, mapRowBySchema item (schema t) = Ok ro /\ insertable t (row_of ro) = true /\
    rows_of s' t = insert_row t (rows_of s t) ro.
Proof.
  intros Hwf Hct E. unfold upsert in E. cbn in E. apply bind_Ok_inv in E as (ros & Hros & E).
  unfold mapRowsBySchema in Hros. cbn in Hros. apply bind_Ok_inv in Hros as (ro & Hro & [= <-]).
  cbn in E. apply bind_Ok_inv in E as (s1 & E & [= <-]).
  pose proof (mapRow_typed t _ _ Hwf Hct Hro) as Hty.
  destruct (row_complete t (row_of ro)) eqn:Hc.
  - assert (insertable t (row_of ro) = true) as Hi by (unfold insertable; by rewrite Hc, Hty).
    exists ro. split_and!; [done|done|]. destruct (insert_merge_law t (row_of ro) s Hi) as (s2 & E2 & Hset & _).
    rewrite E in E2. by simplify_eq.
  - destruct (insert_incomplete_law t (row_of ro) s Hc) as [e E2]. congruence.
Qed.

(** Deleting by a primary key that is one text column. *)
Lemma delete_keys (t : table) c col (ids : list string) (s : St) :
  primaryKey t = Str c -> (c, col) ∈ schema t -> cell_ok (ctype col) (SStr "") = true ->
  table_ok t (rows_of s t) ->
  exists s' n, deleteByPrimaryKey t (Arr (Str <$> ids)) s = Ok (s', n) /\
    table_set s s' t (filter (fun kr => kr.1 ∉ ((fun i => [SStr i]) <$> ids)) (rows_of s t)).
Proof.
  intros Hpk Hcol Hty Hok. unfold deleteByPrimaryKey. rewrite Hpk. cbn [as_array].
  destruct (delete_law t [KWhereIn (Str c) (Arr (Str <$> ids))] s) as (s' & E & Hset & Hrest); [done|].
  exists s'. eexists. split; [exact E|]. split; [|done]. rewrite Hset. apply map_eq. intros k.
  apply option_eq. intros r. rewrite !map_lookup_filter_Some. cbn [fst snd].
  split; intros [Hr Hm]; (split; [done|]).
  - intros (i & -> & Hi)%list_elem_of_fmap. apply not_true_iff_false in Hm. apply Hm.
    pose proof (Hok _ _ Hr) as (Hk & _). unfold key_of, pk_columns in Hk. rewrite Hpk in Hk.
    simpl in Hk. injection Hk as Hk. unfold matches. simpl. rewrite andb_true_r. apply existsb_exists.
    exists (Str i). split; [by apply list_elem_of_In, list_elem_of_fmap_2|]. rewrite Hk. simpl.
    by apply sql_test_eq_str.
  - apply not_true_iff_false. intros Ht. apply Hm. unfold matches in Ht. simpl in Ht. rewrite andb_true_r in Ht.
    apply existsb_exists in Ht as (v & (i & -> & Hi)%list_elem_of_In%list_elem_of_fmap & Ht).
    apply list_elem_of_fmap. exists i. split; [|done].
    pose proof (Hok _ _ Hr) as (Hk & Htyp & Hnn). unfold key_of, pk_columns in Hk. rewrite Hpk in Hk.
    simpl in Hk. subst k. apply Forall_cons in Hnn as [Hnn _]. f_equal.
    apply (eq_test_typed r c (Str i) (ctype col)); [by apply (row_typed_cell t)|done| |done].
    unfold comparable. simpl in *. by rewrite Hty.
Qed.

End Batches.

(** The empty database satisfies every table invariant. *)
Lemma db_ok_empty ts : db_ok ts (∅ : MemDB).
Proof.
  intros t _ k r. unfold rows_of. simpl. unfold mem_rows. rewrite lookup_empty. simpl.
  by rewrite lookup_empty.
Qed.
