(* ===== verification/World.v ===== *)
(** * The state a request handler works on

    A handler runs against two views of the database: the transaction it was
    given ([Trx], the [dbTrx] argument) and, for the calls that do not pass
    it, the committed state ([Auto]: a transaction of its own, committed at
    once).  Redis sets ([sadd]) and the jobs added to queues are recorded.
    An effect that happened before a throw has happened: a computation returns
    the world next to its outcome. *)
From S2P Require Import Prelude JsValue Database Engine Table.
Local Open Scope Z_scope.

(** Which connection a statement runs on. *)
Inductive conn := Trx | Auto.

Section World.
Context {St : Type}.

Record world := mkWorld {
  w_trx : St;
  w_auto : St;
  w_redis : gmap string (gset string);
  w_jobs : list (string * val);
  (** The committed state the transaction of [Trx] started on *)
  w_base : St;
}.

Definition db (c : conn) (w : world) : St := match c with Trx => w_trx w | Auto => w_auto w end.
Definition set_db (c : conn) (s : St) (w : world) : world :=
  match c with
  | Trx => mkWorld s (w_auto w) (w_redis w) (w_jobs w) (w_base w)
  | Auto => mkWorld (w_trx w) s (w_redis w) (w_jobs w) (w_base w)
  end.

(** A statement: its new state is kept only if it succeeds. *)
Definition write (c : conn) (f : St -> result St) : eff world unit := fun w =>
  match f (db c w) with
  | Ok s => (Ok tt, set_db c s w)
  | Throw e => (Throw e, w)
  end.

Definition write_count (c : conn) (f : St -> result (St * Z)) : eff world Z := fun w =>
  match f (db c w) with
  | Ok (s, n) => (Ok n, set_db c s w)
  | Throw e => (Throw e, w)
  end.

Definition read {A} (c : conn) (f : St -> result A) : eff world A := fun w => (f (db c w), w).

(** [redis.sadd(set, member)] *)
Definition sadd (key : string) (members : list string) : eff world unit := fun w =>
  (Ok tt, mkWorld (w_trx w) (w_auto w)
            (<[key := list_to_set members ∪ default ∅ (w_redis w !! key)]> (w_redis w)) (w_jobs w) (w_base w)).

(** [queue.add(params)] *)
Definition add_job (queue : string) (params : val) : eff world unit := fun w =>
  (Ok tt, mkWorld (w_trx w) (w_auto w) (w_redis w) (w_jobs w ++ [(queue, params)]) (w_base w)).

Lemma write_inv c f w u w' : write c f w = (Ok u, w') -> exists s, f (db c w) = Ok s /\ w' = set_db c s w.
Proof. unfold write. destruct (f (db c w)) as [s|e]; [|discriminate]. intros [= <- <-]. by exists s. Qed.

Lemma write_ok c f w s : f (db c w) = Ok s -> write c f w = (Ok tt, set_db c s w).
Proof. intros E. unfold write. by rewrite E. Qed.

Lemma write_count_ok c f w s n : f (db c w) = Ok (s, n) -> write_count c f w = (Ok n, set_db c s w).
Proof. intros E. unfold write_count. by rewrite E. Qed.

Lemma read_ok {A} c (f : St -> result A) w a : f (db c w) = Ok a -> read c f w = (Ok a, w).
Proof. intros E. unfold read. by rewrite E. Qed.

Lemma db_set_db c s w : db c (set_db c s w) = s.
Proof. by destruct c. Qed.

Lemma db_set_db_ne c c' s w : c <> c' -> db c (set_db c' s w) = db c w.
Proof. by destruct c, c'. Qed.

End World.

Arguments world : clear implicits.

#[export] Hint Rewrite @db_set_db : js.

(** What a handler does: it reads and changes the world, and may throw. *)
Abbreviation M St := (eff (world St)).

(** ** Transactions of the database

    A transaction sees the state it started on and its own statements.  A
    commit publishes the rows it changed; what others committed meanwhile
    stays.  (Two writers of one row do not meet here: MySQL makes the second
    wait for the first.) *)
Section Trx.
Context {St : Type} `{SqlEngine St}.

Definition on_committed (s : St) (w : world St) : world St := mkWorld s s (w_redis w) (w_jobs w) s.

Definition startDBTransaction : M St unit := fun w => (Ok tt, on_committed (w_auto w) w).
Definition commitDBTransaction : M St unit := fun w =>
  (Ok tt, on_committed (eng_commit (w_base w) (w_trx w) (w_auto w)) w).
Definition rollbackDBTransaction : M St unit := fun w => (Ok tt, on_committed (w_auto w) w).
End Trx.

(** ** Computations that leave a table alone *)
Section Frame.
Context {St : Type} `{SqlLaws St}.

Definition same_table (tn : string) (w w' : world St) : Prop :=
  eng_table (w_trx w') tn = eng_table (w_trx w) tn /\ eng_table (w_auto w') tn = eng_table (w_auto w) tn /\
  eng_table (w_base w') tn = eng_table (w_base w) tn.

(** Whatever happens, the rows of the table [tn] stay. *)
Definition keeps (tn : string) {A} (m : M St A) : Prop := forall w, same_table tn w (snd (m w)).

Lemma same_table_refl tn w : same_table tn w w.
Proof. by split_and!. Qed.

Lemma same_table_trans tn w1 w2 w3 : same_table tn w1 w2 -> same_table tn w2 w3 -> same_table tn w1 w3.
Proof. intros (? & ? & ?) (? & ? & ?). split_and!; congruence. Qed.

Lemma keeps_bind tn {A B} (m : M St A) (f : A -> M St B) :
  keeps tn m -> (forall a, keeps tn (f a)) -> keeps tn (m ≫= f).
Proof.
  intros Hm Hf w. unfold mbind, eff_bind. specialize (Hm w). destruct (m w) as [[a|e] w1]; simpl in *; [|done].
  eapply same_table_trans; [done|apply Hf].
Qed.

Lemma keeps_ret tn {A} (a : A) : keeps tn (ret (S := world St) a).
Proof. intros w. apply same_table_refl. Qed.

Lemma keeps_throw tn {A} e : keeps tn (throw (S := world St) (A := A) e).
Proof. intros w. apply same_table_refl. Qed.

Lemma keeps_lift tn {A} (r : result A) : keeps tn (lift (S := world St) r).
Proof. intros w. apply same_table_refl. Qed.

Lemma keeps_read tn {A} c (f : St -> result A) : keeps tn (read c f).
Proof. intros w. apply same_table_refl. Qed.

Lemma keeps_sadd tn k l : keeps tn (sadd (St := St) k l).
Proof. intros w. by split_and!. Qed.

Lemma keeps_add_job tn k v : keeps tn (add_job (St := St) k v).
Proof. intros w. by split_and!. Qed.

Lemma keeps_if tn {A} (b : bool) (m1 m2 : M St A) : keeps tn m1 -> keeps tn m2 -> keeps tn (if b then m1 else m2).
Proof. by destruct b. Qed.

Lemma keeps_for_each tn {A} (l : list A) (f : A -> M St unit) :
  (forall a, keeps tn (f a)) -> keeps tn (for_each l f).
Proof. intros Hf. induction l as [|x l IH]; simpl; [apply keeps_ret|]. by apply keeps_bind. Qed.

Lemma keeps_map_each tn {A B} (l : list A) (f : A -> M St B) :
  (forall a, keeps tn (f a)) -> keeps tn (map_each l f).
Proof.
  intros Hf. induction l as [|x l IH]; simpl; [apply keeps_ret|]. apply keeps_bind; [done|]. intros y.
  apply keeps_bind; [done|]. intros ys. apply keeps_ret.
Qed.

Lemma keeps_try tn {A} (m : M St A) h : keeps tn m -> (forall e, keeps tn (h e)) -> keeps tn (try_catch m h).
Proof.
  intros Hm Hh w. unfold try_catch. specialize (Hm w). destruct (m w) as [[a|e] w1]; simpl in *; [done|].
  destruct (String.eqb e never_returns); [done|]. eapply same_table_trans; [done|apply Hh].
Qed.

Lemma keeps_write tn c (f : St -> result St) :
  (forall s s', f s = Ok s' -> eng_table s' tn = eng_table s tn) -> keeps tn (write c f).
Proof.
  intros Hf w. unfold write. destruct (f (db c w)) as [s'|e] eqn:E; [|apply same_table_refl].
  apply Hf in E. unfold same_table. by destruct c.
Qed.

Lemma keeps_write_count tn c (f : St -> result (St * Z)) :
  (forall s s' n, f s = Ok (s', n) -> eng_table s' tn = eng_table s tn) -> keeps tn (write_count c f).
Proof.
  intros Hf w. unfold write_count. destruct (f (db c w)) as [[s' n]|e] eqn:E; [|apply same_table_refl].
  apply Hf in E. unfold same_table. by destruct c.
Qed.

Lemma upsert_frame tn (t : table) v (s s' : St) :
  tn <> tableName t -> upsert t v s = Ok s' -> eng_table s' tn = eng_table s tn.
Proof.
  intros Hne E. unfold upsert in E. apply bind_Ok_inv in E as (rs & _ & E).
  revert s E. induction rs as [|r rs IH]; simpl; intros s E; [by simplify_eq|].
  apply bind_Ok_inv in E as (s1 & E1 & E). rewrite (IH _ E). by eapply insert_frame.
Qed.

Lemma deleteByParams_frame tn (t : table) p (s s' : St) n :
  tn <> tableName t -> deleteByParams t p s = Ok (s', n) -> eng_table s' tn = eng_table s tn.
Proof. intros Hne (q & _ & E)%bind_Ok_inv. by eapply delete_frame. Qed.

Lemma deleteByPrimaryKey_frame tn (t : table) v (s s' : St) n :
  tn <> tableName t -> deleteByPrimaryKey t v s = Ok (s', n) -> eng_table s' tn = eng_table s tn.
Proof. intros Hne E. by eapply delete_frame. Qed.

Lemma update_op_frame tn (t : table) p u (s s' : St) n :
  tn <> tableName t -> update t p u s = Ok (s', n) -> eng_table s' tn = eng_table s tn.
Proof. intros Hne (q & _ & E)%bind_Ok_inv. by eapply update_frame. Qed.

Lemma increment_frame tn (t : table) p (s s' : St) n :
  tn <> tableName t -> increment t p s = Ok (s', n) -> eng_table s' tn = eng_table s tn.
Proof. intros Hne (q & _ & (ds & _ & E)%bind_Ok_inv)%bind_Ok_inv. by eapply add_frame. Qed.

Lemma decrement_frame tn (t : table) p (s s' : St) n :
  tn <> tableName t -> decrement t p s = Ok (s', n) -> eng_table s' tn = eng_table s tn.
Proof. intros Hne (q & _ & (ds & _ & E)%bind_Ok_inv)%bind_Ok_inv. by eapply add_frame. Qed.

End Frame.

(** The database [frame] holds the basic cases of [keeps]; [solve_frame] goes
    through the structure of a computation. *)
Create HintDb frame.
#[export] Hint Resolve keeps_ret keeps_throw keeps_lift keeps_read keeps_sadd keeps_add_job : frame.

Ltac frame_write :=
  match goal with
  | |- keeps _ (write _ (upsert _ _)) => apply keeps_write; intros ? ?; apply upsert_frame; discriminate
  | |- keeps _ (write_count _ (increment _ _)) => apply keeps_write_count; intros ? ? ?; apply increment_frame; discriminate
  | |- keeps _ (write_count _ (decrement _ _)) => apply keeps_write_count; intros ? ? ?; apply decrement_frame; discriminate
  | |- keeps _ (write_count _ (deleteByParams _ _)) =>
      apply keeps_write_count; intros ? ? ?; apply deleteByParams_frame; discriminate
  | |- keeps _ (write_count _ (deleteByPrimaryKey _ _)) =>
      apply keeps_write_count; intros ? ? ?; apply deleteByPrimaryKey_frame; discriminate
  | |- keeps _ (write_count _ (update _ _ _)) =>
      apply keeps_write_count; intros ? ? ?; apply update_op_frame; discriminate
  end.

Ltac solve_frame :=
  repeat first
    [ solve [auto with frame]
    | apply keeps_bind; [|intros ?]
    | apply keeps_for_each; intros ?
    | apply keeps_map_each; intros ?
    | apply keeps_try; [|intros ?]
    | frame_write
    | match goal with
      | |- keeps _ (if ?b then _ else _) => destruct b
      | |- keeps _ (match ?x with _ => _ end) => destruct x
      end
    | progress cbv beta zeta ].
