(* ===== verification/Schemas.v ===== *)
(** * Table definitions of the indexer and of the key-value store

    One definition per file of [blockchain-indexer/shared/database/schema],
    of [database/dynamic-schema] and [framework/src/database/mysql/schema]. *)
From S2P Require Import Prelude JsValue Database Engine Table.
Local Open Scope Z_scope.

Definition accountBalancesTableSchema : table :=
  mkTable "account_balances" (Arr [Str "address"; Str "tokenID"]) None
    [("address", coln "string" false);
     ("tokenID", coln "string" false);
     ("balance", cold "bigInteger" (Some false) (BigI 0))]
    [("address", "key"); ("tokenID", "key")]
    [].

Definition accountsTableSchema : table :=
  mkTable "accounts" (Str "address") None
    [("address", col "string");
     ("publicKey", cold "string" (Some true) Null);
     ("name", cold "string" (Some true) Null);
     ("isValidator", cold "boolean" (Some false) (Bool false))]
    []
    [].

Definition blockchainAppsTableSchema : table :=
  mkTable "blockchain_apps" (Str "chainID") None
    [("chainID", col "string");
     ("chainName", col "string");
     ("status", col "string");
     ("address", col "string");
     ("lastUpdated", col "string");
     ("lastCertificateHeight", col "string")]
    [("chainID", "key"); ("status", "key"); ("name", "key")]
    [].

Definition blocksTableSchema : table :=
  mkTable "blocks" (Str "height") None
    [("id", col "string");
     ("height", col "integer");
     ("timestamp", col "integer");
     ("generatorAddress", col "string");
     ("size", col "integer");
     ("isFinal", cold "boolean" None (Bool false));
     ("assetsModules", col "json");
     ("numberOfEvents", cold "integer" None (Num 0));
     ("reward", cold "bigInteger" None (BigI 0))]
    [("id", "key"); ("height", "range"); ("timestamp", "range"); ("generatorAddress", "key"); ("size", "range"); ("isFinal", "key")]
    [].

Definition ccuTableSchema : table :=
  mkTable "ccu" (Str "transactionID") None
    [("transactionID", coln "string" false);
     ("height", coln "integer" false);
     ("sendingChainID", cold "string" (Some true) Null)]
    [("height", "range"); ("sendingChainID", "key")]
    [].

Definition commissionsTableSchema : table :=
  mkTable "commissions" (Arr [Str "address"; Str "height"]) None
    [("address", coln "string" false);
     ("commission", coln "string" false);
     ("height", coln "string" false)]
    [("address", "key"); ("commission", "range"); ("height", "range")]
    [].

Definition eventTopicsTableSchema : table :=
  mkTable "event_topics" (Arr [Str "eventID"; Str "topic"]) None
    [("eventID", col "string");
     ("topic", col "string")]
    [("eventID", "key"); ("topic", "key")]
    [].

Definition eventsTableSchema : table :=
  mkTable "events" (Str "id") None
    [("id", col "string");
     ("name", col "string");
     ("module", col "string");
     ("blockID", col "string");
     ("height", col "integer");
     ("index", col "integer");
     ("eventStr", col "text");
     ("timestamp", col "integer")]
    [("height", "range"); ("blockID", "key"); ("index", "range"); ("timestamp", "range")]
    [("timestamp_desc_index_asc", [("timestamp", "DESC"); ("index", "ASC")]);
     ("timestamp_asc_index_asc", [("timestamp", "ASC"); ("index", "ASC")]);
     ("timestamp_desc_index_desc", [("timestamp", "DESC"); ("index", "DESC")]);
     ("timestamp_asc_index_desc", [("timestamp", "ASC"); ("index", "DESC")]);
     ("height_desc_index_asc", [("height", "DESC"); ("index", "ASC")]);
     ("height_asc_index_asc", [("height", "ASC"); ("index", "ASC")]);
     ("height_desc_index_desc", [("height", "DESC"); ("index", "DESC")]);
     ("height_asc_index_desc", [("height", "ASC"); ("index", "DESC")])].

Definition lastPriceTableSchema : table :=
  mkTable "last_price" (Arr [Str "tokenId"]) None
    [("tokenId", col "string");
     ("updatedOn", col "integer");
     ("current", dec 50 8);
     ("1h", dec 50 8);
     ("24h", dec 50 8);
     ("7d", dec 50 8);
     ("30d", dec 50 8);
     ("1y", dec 50 8)]
    [("tokenId", "key"); ("updatedOn", "key")]
    [].

Definition multisignatureTableSchema : table :=
  mkTable "multisignature" (Str "id") None
    [("id", col "string");
     ("groupAddress", col "string");
     ("memberAddress", col "string")]
    [("groupAddress", "key"); ("memberAddress", "key")]
    [].

Definition poolTableSchema : table :=
  mkTable "pool" (Arr [Str "token0"; Str "token1"; Str "fee"]) None
    [("token0", col "string");
     ("token1", col "string");
     ("fee", col "integer");
     ("inverted", col "boolean");
     ("created", col "integer");
     ("poolAddress", col "string");
     ("collectionId", col "string");
     ("feeHex", col "string");
     ("tickSpacing", col "integer");
     ("tick", col "integer");
     ("liquidity", dec 40 0);
     ("price", dec 50 8)]
    [("poolAddress", "key"); ("collectionId", "key"); ("created", "key"); ("token0", "key"); ("token1", "key"); ("fee", "key"); ("inverted", "key")]
    [].

Definition positionTableSchema : table :=
  mkTable "position" (Arr [Str "tokenId"]) None
    [("tokenId", col "string");
     ("collectionId", col "string");
     ("owner", coln "string" true);
     ("name", col "string");
     ("description", col "text");
     ("image", col "text");
     ("tickUpper", col "integer");
     ("tickLower", col "integer");
     ("liquidity", dec 40 0);
     ("tokenURI", col "string")]
    [("tokenId", "key"); ("collectionId", "key"); ("owner", "key")]
    [].

Definition registeredDexTokenTableSchema : table :=
  mkTable "registered_dex_token" (Arr [Str "tokenId"]) None
    [("tokenId", col "string");
     ("symbol", col "string");
     ("decimal", col "integer");
     ("logo", cold "string" (Some true) Null)]
    [("tokenId", "key"); ("symbol", "key")]
    [].

Definition stakesTableSchema : table :=
  mkTable "stakes" (Arr [Str "validatorAddress"; Str "stakerAddress"]) None
    [("stakerAddress", col "string");
     ("validatorAddress", col "string");
     ("amount", col "bigInteger")]
    [("validatorAddress", "key"); ("stakerAddress", "key")]
    [].

Definition tickTableSchema : table :=
  mkTable "tick" (Arr [Str "poolAddress"; Str "tick"]) None
    [("poolAddress", col "string");
     ("tick", col "integer");
     ("liquidityNet", dec 40 0)]
    [("poolAddress", "key"); ("tick", "key")]
    [].

Definition tokenFactoryTableSchema : table :=
  mkTable "token_factory" (Arr [Str "tokenID"]) None
    [("tokenID", col "string");
     ("owner", col "string");
     ("supply", dec 40 0);
     ("tokenName", coln "string" true);
     ("description", coln "string" true);
     ("decimal", coln "integer" true);
     ("baseDenom", coln "string" true);
     ("symbol", coln "string" true);
     ("logoPng", coln "string" true);
     ("logoSvg", coln "string" true)]
    [("tokenID", "key")]
    [].

Definition tokenMetadataTableSchema : table :=
  mkTable "token_metadata" (Arr [Str "tokenID"]) None
    [("chainName", col "string");
     ("network", col "string");
     ("tokenName", col "string");
     ("tokenID", col "string")]
    [("chainName", "key"); ("tokenName", "key"); ("network", "key")]
    [].

Definition transactionsTableSchema : table :=
  mkTable "transactions" (Str "id") (Some "utf8mb4")
    [("id", coln "string" false);
     ("height", coln "integer" false);
     ("moduleCommand", coln "string" false);
     ("nonce", coln "integer" false);
     ("blockID", coln "string" false);
     ("timestamp", coln "integer" false);
     ("senderAddress", coln "string" false);
     ("recipientAddress", cold "string" (Some true) Null);
     ("tokenID", cold "string" (Some true) Null);
     ("amount", cold "bigInteger" (Some true) Null);
     ("receivingChainID", cold "string" (Some true) Null);
     ("messageFee", cold "bigInteger" (Some true) Null);
     ("data", cold "string" (Some true) Null);
     ("size", coln "integer" false);
     ("fee", coln "bigInteger" false);
     ("minFee", coln "bigInteger" false);
     ("executionStatus", coln "string" false);
     ("index", coln "integer" false)]
    [("height", "range"); ("moduleCommand", "key"); ("nonce", "range"); ("blockID", "key"); ("timestamp", "range"); ("amount", "range"); ("data", "key"); ("senderAddress", "key"); ("receivingChainID", "key"); ("executionStatus", "key")]
    [].

Definition tvlTableSchema : table :=
  mkTable "tvl" (Arr [Str "transactionId"; Str "index"]) None
    [("transactionId", col "string");
     ("index", col "integer");
     ("time", col "integer");
     ("sender", col "string");
     ("poolAddress", col "string");
     ("amount", dec 40 0);
     ("tokenId", col "string")]
    [("time", "key"); ("sender", "key"); ("poolAddress", "key")]
    [].

Definition validatorsTableSchema : table :=
  mkTable "validators" (Str "address") None
    [("address", col "string");
     ("name", col "string");
     ("blsKey", coln "string" true);
     ("proofOfPossession", coln "string" true);
     ("generatorKey", coln "string" true);
     ("generatedBlocks", cold "integer" (Some false) (Num 0));
     ("totalCommission", cold "bigInteger" (Some false) (Num 0));
     ("totalSelfStakeRewards", cold "bigInteger" (Some false) (Num 0))]
    [("name", "key"); ("generatorKey", "key"); ("blsKey", "key")]
    [].

Definition volumeTableSchema : table :=
  mkTable "volume" (Arr [Str "height"; Str "index"]) None
    [("height", col "integer");
     ("index", col "integer");
     ("poolAddress", col "string");
     ("sender", col "string");
     ("recipient", col "string");
     ("time", col "integer");
     ("amount0", dec 40 0);
     ("amount1", dec 40 0);
     ("feeGrowth0", dec 40 0);
     ("feeGrowth1", dec 40 0)]
    [("poolAddress", "key"); ("sender", "key"); ("recipient", "key"); ("time", "key")]
    [].

Definition getOhlcTableSchema (pair : string) (timeframe : string) : table :=
  mkTable ("ohlc_" +:+ pair +:+ "_" +:+ timeframe) (Arr [Str "time"]) None
    [("time", col "integer");
     ("open", dec 50 8);
     ("high", dec 50 8);
     ("low", dec 50 8);
     ("close", dec 50 8)]
    [("time", "key")]
    [].

Definition getPoolTickTableSchema (poolAddress : string) : table :=
  mkTable ("tick_pool_" +:+ poolAddress) (Arr [Str "tick"]) None
    [("tick", col "integer");
     ("liquidity", dec 40 0)]
    [("tick", "key")]
    [].

Definition getTickPriceTableSchema (pair : string) : table :=
  mkTable ("tick_" +:+ pair) (Arr [Str "time"]) None
    [("time", col "integer");
     ("value", mkCol "decimal" (Some (50, 8)) false (Some true) None)]
    [("time", "key")]
    [].

Definition keyValueStoreSchema : table :=
  mkTable "key_value_store" (Str "key") None
    [("key", col "string");
     ("value", col "string");
     ("type", col "string")]
    []
    [].


(** The static tables of the indexer's database. *)
Definition static_tables : list table :=
  [accountBalancesTableSchema; accountsTableSchema; blockchainAppsTableSchema; blocksTableSchema;
   ccuTableSchema; commissionsTableSchema; eventTopicsTableSchema; eventsTableSchema;
   lastPriceTableSchema; multisignatureTableSchema; poolTableSchema; positionTableSchema;
   registeredDexTokenTableSchema; stakesTableSchema; tickTableSchema; tokenFactoryTableSchema;
   tokenMetadataTableSchema; transactionsTableSchema; tvlTableSchema; validatorsTableSchema;
   volumeTableSchema; keyValueStoreSchema].

(** ** The tables are well formed *)
Lemma static_tables_names : NoDup (tableName <$> static_tables).
Proof. apply (bool_decide_unpack _). vm_compute. exact I. Qed.

Lemma static_tables_wf : Forall (fun t => wf_table t = true) static_tables.
Proof. apply (bool_decide_unpack _). vm_compute. exact I. Qed.

Lemma static_tables_keys : Forall (fun t => simple_key t = true) static_tables.
Proof. apply (bool_decide_unpack _). vm_compute. exact I. Qed.

(** [indexes] of [blockchain_apps] names a column [name] that the table does
    not have, so [loadSchema] never creates that index. *)
Definition index_missing (t : table) : list string :=
  filter (fun c => c ∉ (fst <$> schema t)) (fst <$> indexes t).

Lemma blockchainApps_index_missing :
  index_missing blockchainAppsTableSchema = ["name"] /\
  forallb (fun d => match d with DColumn n _ _ _ _ true => existsb (String.eqb n) ["chainID"; "status"] | _ => true end)
    (loadSchema false blockchainAppsTableSchema) = true.
Proof. split; reflexivity. Qed.

(** A run of operations on the empty database of the indexer. *)
Definition sample_ops : list op :=
  [OUpsert blocksTableSchema
     (Arr [Object [("id", Str "b1"); ("height", Num 1); ("reward", Str "100")];
           Object [("id", Str "b2"); ("height", Str "2"); ("isFinal", Bool true)]]);
   OUpdate blocksTableSchema [("height", Num 1)] [("isFinal", Bool true)];
   OIncrement blocksTableSchema [("increment", Object [("reward", Num 5)]); ("where", Object [("height", Num 1)])];
   ODeleteByPrimaryKey blocksTableSchema (Num 2)].

Lemma sample_ops_run : is_ok (foldM (fun s o => run_op o s) (∅ : MemDB) sample_ops) = true.
Proof. vm_compute. reflexivity. Qed.

Lemma sample_ops_ok : Forall (fun o => op_table o ∈ static_tables /\ op_ok o = true) sample_ops.
Proof.
  repeat (apply Forall_cons; split;
    [split; [do 3 apply list_elem_of_further; apply list_elem_of_here|vm_compute; reflexivity]|]).
  apply Forall_nil_2.
Qed.

Lemma operations_preserve_tables_witness :
  exists s', foldM (fun s o => run_op o s) (∅ : MemDB) sample_ops = Ok s' /\ db_ok static_tables s'.
Proof.
  pose proof sample_ops_run as Hrun.
  destruct (foldM (fun s o => run_op o s) (∅ : MemDB) sample_ops) as [s'|e] eqn:E; [|discriminate Hrun].
  exists s'. split; [reflexivity|].
  exact (operations_preserve_tables static_tables sample_ops (∅ : MemDB) s'
    static_tables_names static_tables_wf sample_ops_ok (db_ok_empty static_tables) E).
Defined.

