(* ===== verification/KvStore.v ===== *)
(** * framework/src/database/mysql/kvStore.js: the key-value store

    A table of strings tagged with the JavaScript type of the stored value.
    [prefix] is [kvStoreConfig.prefix].  The operations are shown to implement
    a map from keys to values, [undefined] where nothing is stored. *)
From S2P Require Import Prelude JsValue Database Engine Search Table Schemas.
Local Open Scope Z_scope.

Definition KV_STORE_ALLOWED_VALUE_TYPES : list string :=
  ["boolean"; "number"; "bigint"; "string"; "undefined"].

Definition formatValue (value type : val) : result val :=
  if decide (type = Str "boolean") then Ok (Bool (truthy value))
  else if decide (type = Str "number") then Ok (js_Number value)
  else if decide (type = Str "bigint") then z ← js_BigInt value; Ok (BigI z)
  else if decide (type = Str "string") then Ok (Str (js_String value))
  else if decide (type = Str "undefined") then Ok Undef
  else Ok value.

(** [s.slice(n)] *)
Fixpoint js_slice (n : nat) (s : string) : string :=
  match n, s with
  | O, _ => s
  | S n, EmptyString => EmptyString
  | S n, String _ s => js_slice n s
  end.

Section KvStore.
Context {St : Type} `{SqlLaws St}.
Variable prefix : string.

Definition kv_key (key : string) : string := prefix +:+ "_" +:+ key.

(** [set(key, value, dbTrx)].  A value of another type is only logged. *)
Definition kv_row (key : string) (value : val) : obj :=
  let finalValue := if decide (value = Undef) then value else Str (js_String value) in
  [("key", Str (kv_key key)); ("value", finalValue); ("type", Str (typeof value))].

Definition kv_set (key : string) (value : val) (s : St) : result St :=
  upsert keyValueStoreSchema (Object (kv_row key value)) s.

(** [get(key, dbTrx)] *)
Definition kv_get (key : string) (s : St) : result val :=
  rows ← find keyValueStoreSchema [("key", Str (kv_key key)); ("limit", Num 1)]
           (Arr [Str "value"; Str "type"]) s;
  let row := hd [] rows in
  formatValue (prop row "value") (prop row "type").

(** [getByPattern(pattern, dbTrx)] *)
Definition kv_getByPattern (pattern : val) (s : St) : result (list obj) :=
  rows ← find keyValueStoreSchema
           [("search", Object [("property", Str "key"); ("pattern", pattern)])]
           (Arr [Str "key"; Str "value"; Str "type"]) s;
  mapM_result (fun row =>
    match prop row "key" with
    | Str k => v ← formatValue (prop row "value") (prop row "type");
               Ok [("key", Str (js_slice (String.length prefix + 1) k)); ("value", v)]
    | _ => Throw "row.key.slice is not a function"
    end) rows.

(** [delete(key, dbTrx)] *)
Definition kv_delete (key : string) (s : St) : result (St * Z) :=
  deleteByPrimaryKey keyValueStoreSchema (Arr [Str (kv_key key)]) s.

(** ** The map the store implements *)

(** The values that survive the trip through a string. *)
Definition storable (v : val) : bool :=
  match v with
  | Undef | NaN | BigI _ | Str _ => true
  | Num z => Z.abs z <? 2 ^ 53
  | Bool b => b
  | Null | Arr _ | Object _ => false
  end.

(** What [get] gives for a key to which [v] was set: any boolean is read as
    [true], a number as the double nearest to its text, and [null], arrays and
    objects as the text they were stored as. *)
Definition readback (v : val) : val :=
  match v with
  | Bool _ => Bool true
  | Num z => Num (to_double z)
  | Null | Arr _ | Object _ => Str (js_String v)
  | _ => v
  end.

Lemma readback_storable v : storable v = true -> readback v = v.
Proof.
  destruct v as [| |b|z| |z|t|l|o]; simpl; try done; [by destruct b|].
  intros Hz%Z.ltb_lt. by rewrite to_double_exact.
Qed.

Definition stored_row (key : string) (v : val) : row :=
  row_of [("key", Str (kv_key key));
          ("value", if decide (v = Undef) then Null else Str (js_String v));
          ("type", Str (typeof v))].

(** The rows [rs] hold [m]: every key with a value has the row of something
    that is read back as the value, the others have none. *)
Definition kv_rep (rs : rows) (m : gmap string val) : Prop :=
  table_ok keyValueStoreSchema rs /\
  forall key, match m !! key with
         | Some v => exists w old, readback w = v /\ rs !! [SStr (kv_key key)] = Some (stored_row key w ∪ old)
         | None => rs !! [SStr (kv_key key)] = None
         end.

Definition kv_ok (s : St) (m : gmap string val) : Prop := kv_rep (rows_of s keyValueStoreSchema) m.

Lemma kv_key_inj k k' : kv_key k = kv_key k' -> k = k'.
Proof.
  unfold kv_key. induction prefix as [|c p IH]; rewrite ?append_nil_l, ?append_cons.
  - intros [= E]. exact E.
  - intros [= E]. by apply IH.
Qed.

Lemma format_stored v :
  formatValue (of_sql (to_sql (if decide (v = Undef) then Null else Str (js_String v)))) (Str (typeof v)) = Ok (readback v).
Proof.
  unfold formatValue. destruct v as [| |b|z| |z|s|l|o]; try done.
  - by destruct b.
  - change (Ok (js_Number (Str (string_of_Z z))) = Ok (Num (to_double z))). by rewrite js_Number_String.
  - change ((x ← js_BigInt (Str (string_of_Z z)); Ok (BigI x)) = Ok (BigI z)).
    by rewrite js_BigInt_String.
Qed.

Lemma stored_cells key v old :
  cell (stored_row key v ∪ old) "value" = to_sql (if decide (v = Undef) then Null else Str (js_String v)) /\
  cell (stored_row key v ∪ old) "type" = SStr (typeof v).
Proof.
  split; (rewrite cell_union_l; [reflexivity|]); apply elem_of_dom; eexists; reflexivity.
Qed.

Lemma kv_find_rows key s m :
  kv_ok s m ->
  find keyValueStoreSchema [("key", Str (kv_key key)); ("limit", Num 1)] (Arr [Str "value"; Str "type"]) s
  = Ok ((fun r => [("value", of_sql (cell r "value")); ("type", of_sql (cell r "type"))])
          <$> option_list (rows_of s keyValueStoreSchema !! [SStr (kv_key key)])).
Proof.
  intros [Hok _]. unfold find. simpl.
  rewrite (select_key keyValueStoreSchema s _ [Str (kv_key key)]); [done|done| |done|done|].
  - constructor; [|constructor]. exists (col "string"). split; [by left|done].
  - intros r. unfold matches. simpl. by rewrite !andb_true_r.
Qed.

Lemma kv_get_ok key s m : kv_ok s m -> kv_get key s = Ok (default Undef (m !! key)).
Proof.
  intros Hm. unfold kv_get. rewrite (kv_find_rows key s m Hm). simpl.
  destruct Hm as [_ Hm]. specialize (Hm key). destruct (m !! key) as [v|].
  - destruct Hm as (w & old & <- & ->). simpl. destruct (stored_cells key w old) as [-> ->].
    by apply format_stored.
  - rewrite Hm. reflexivity.
Qed.

Lemma kv_set_insert key v s :
  kv_set key v s = eng_insert_merge keyValueStoreSchema (stored_row key v) s.
Proof.
  unfold kv_set, kv_row, upsert, mapRowsBySchema, mapRowBySchema, stored_row.
  destruct (decide (v = Undef)) as [->|]; simpl; by destruct (eng_insert_merge _ _ s).
Qed.

Lemma stored_row_insertable key v : insertable keyValueStoreSchema (stored_row key v) = true.
Proof. unfold stored_row. by destruct (decide (v = Undef)). Qed.

Lemma stored_row_key key v : key_of keyValueStoreSchema (stored_row key v) = [SStr (kv_key key)].
Proof. reflexivity. Qed.

Lemma kv_set_ok key v s m :
  kv_ok s m ->
  exists s', kv_set key v s = Ok s' /\ kv_ok s' (<[key := readback v]> m) /\
    forall tn, tn <> tableName keyValueStoreSchema -> eng_table s' tn = eng_table s tn.
Proof.
  intros [Hok Hm].
  destruct (insert_merge_law keyValueStoreSchema (stored_row key v) s (stored_row_insertable key v))
    as (s' & E & Hset & Hrest).
  exists s'. rewrite kv_set_insert. split_and!; [done| |done].
  split; rewrite Hset.
  - apply table_ok_insert; [reflexivity|done|apply stored_row_insertable].
  - rewrite stored_row_key. intros key'. destruct (decide (key = key')) as [<-|Hne].
    + rewrite !lookup_insert_eq. by do 2 eexists.
    + rewrite !lookup_insert_ne; [apply Hm|first [done|by intros [= E1%kv_key_inj]]..].
Qed.

Lemma kv_where_key (rs : rows) k r key :
  table_ok keyValueStoreSchema rs -> rs !! k = Some r ->
  matches [KWhereIn (Str "key") (Arr [Str (kv_key key)])] r = true <-> k = [SStr (kv_key key)].
Proof.
  intros Hok Hr. specialize (Hok k r Hr).
  rewrite <- (eq_tests_key keyValueStoreSchema k r [Str (kv_key key)] Hok).
  - unfold matches. simpl. unfold eq_test. simpl. by rewrite orb_false_r.
  - constructor; [|constructor]. exists (col "string"). split; [by left|done].
Qed.

Lemma kv_delete_ok key s m :
  kv_ok s m ->
  exists s' n, kv_delete key s = Ok (s', n) /\ kv_ok s' (delete key m) /\
    forall tn, tn <> tableName keyValueStoreSchema -> eng_table s' tn = eng_table s tn.
Proof.
  intros [Hok Hm]. unfold kv_delete, deleteByPrimaryKey. simpl.
  destruct (delete_law keyValueStoreSchema [KWhereIn (Str "key") (Arr [Str (kv_key key)])] s eq_refl)
    as (s' & E & Hset & Hrest).
  exists s', (count_matching [KWhereIn (Str "key") (Arr [Str (kv_key key)])] (rows_of s keyValueStoreSchema)).
  split_and!; [done| |done]. split; rewrite Hset; [by apply table_ok_filter|].
  intros key'. destruct (decide (key = key')) as [<-|Hne].
  - rewrite lookup_delete_eq. apply map_lookup_filter_None. right. intros r Hr. cbn [snd].
    by rewrite (proj2 (kv_where_key _ _ r key Hok Hr) eq_refl).
  - rewrite lookup_delete_ne by done. specialize (Hm key').
    destruct (m !! key') as [v|].
    + destruct Hm as (w & old & Hv & Hr). exists w, old. split; [done|].
      apply map_lookup_filter_Some. split; [done|]. cbn [snd].
      apply not_true_iff_false. intros [= E1]%(kv_where_key _ _ _ key Hok Hr).
      apply Hne. symmetry. by apply kv_key_inj.
    + apply map_lookup_filter_None. by left.
Qed.


(** [false] does not survive: [Boolean("false")] is [true]. *)
Lemma kv_false_reads_true s m key :
  kv_ok s m -> exists s', kv_set key (Bool false) s = Ok s' /\ kv_get key s' = Ok (Bool true).
Proof.
  intros Hm. destruct (kv_set_ok key (Bool false) s m Hm) as (s' & E & Hok & _). exists s'.
  split; [done|]. by rewrite (kv_get_ok key _ _ Hok), lookup_insert_eq.
Qed.

End KvStore.

Lemma kv_ok_empty prefix : kv_ok prefix (∅ : MemDB) ∅.
Proof.
  split; [by apply (db_ok_empty [keyValueStoreSchema]); left|].
  intros key. rewrite lookup_empty. unfold rows_of. simpl. unfold mem_rows.
  rewrite lookup_empty. simpl. by rewrite lookup_empty.
Qed.

