(* ===== verification/MissingBlocks.v ===== *)
(** * indexer/blockchainIndex.js: the search for missing blocks

    [findMissingBlocksInRange] and [getMissingBlocks], with [range] of
    [utils/array.js].  The index is given by the heights in the table of
    blocks; the raw query of the source is written out on that list. *)
From S2P Require Import Prelude.
Local Open Scope Z_scope.

(** [range(start, end, step)] for integers with [start <= end]: [end] is not
    included, and an [end] of 0 counts as missing. *)
Definition range (start end_ step : Z) : list Z :=
  let '(start, end_) := if end_ =? 0 then (0, start) else (start, end_) in
  (fun i => start + i * step) <$> seqZ 0 ((end_ - start) / step).

Definition BATCH_SIZE : Z := 25000.

Section Missing.
Variable heights : list Z.

(** [SELECT MAX(b0.height) FROM blocks b0 WHERE b0.height < h] *)
Definition max_below (h : Z) : option Z :=
  foldr (fun x m => if x <? h then Some (match m with Some y => Z.max x y | None => x end) else m) None heights.

(** The rows of the query for one batch: for every indexed height of the batch
    except its end whose predecessor is not indexed, the range below it. *)
Definition missing_rows (batchStart batchEnd : Z) : list (Z * Z) :=
  b1 ← heights;
  if (batchStart + 1 <=? b1) && (b1 <=? batchEnd) && negb (b1 =? batchEnd)
     && bool_decide ((b1 - 1) ∉ heights)
  then [(match max_below b1 with Some h => h + 1 | None => batchStart end, b1 - 1)]
  else [].

(** [Math.ceil((to - from) / BATCH_SIZE)] *)
Definition numBatches (fromHeight toHeight : Z) : Z := (toHeight - fromHeight + BATCH_SIZE - 1) / BATCH_SIZE.

Definition batch_rows (fromHeight toHeight i : Z) : list (Z * Z) :=
  let batchStart := fromHeight + i * BATCH_SIZE in
  missing_rows batchStart (Z.min (batchStart + BATCH_SIZE) toHeight).

Definition indexedBlockCount (fromHeight toHeight : Z) : Z :=
  Z.of_nat (length (filter (fun h => fromHeight <= h <= toHeight) heights)).

Definition findMissingBlocksInRange (fromHeight toHeight : Z) : list (Z * Z) :=
  let count := indexedBlockCount fromHeight toHeight in
  if count <? 3 then [(fromHeight, toHeight)]
  else if count =? toHeight - fromHeight + 1 then []
  else i ← seqZ 0 (numBatches fromHeight toHeight); batch_rows fromHeight toHeight i.

Definition getMissingBlocks (fromHeight toHeight : Z) : list Z :=
  e ← findMissingBlocksInRange fromHeight toHeight; range (fst e) (snd e + 1) 1.

(** ** Facts *)
Lemma elem_of_range a b x : b <> 0 -> x ∈ range a b 1 <-> a <= x < b.
Proof.
  intros Hb. unfold range. rewrite (proj2 (Z.eqb_neq _ _) Hb). rewrite list_elem_of_fmap, Z.div_1_r. split.
  - intros (i & -> & Hi%elem_of_seqZ). lia.
  - intros Hx. exists (x - a). split; [lia|]. apply elem_of_seqZ. lia.
Qed.

Lemma max_below_spec h :
  match max_below h with
  | Some m => m ∈ heights /\ m < h /\ forall x, x ∈ heights -> x < h -> x <= m
  | None => forall x, x ∈ heights -> h <= x
  end.
Proof.
  unfold max_below. induction heights as [|y l IH]; simpl.
  - intros x Hx. by apply not_elem_of_nil in Hx.
  - destruct (foldr _ None l) as [m|].
    + destruct IH as (Hm & Hlt & Hmax). destruct (Z.ltb_spec y h).
      * split; [destruct (Z.max_spec y m) as [[_ ->]|[_ ->]]; [by right|by left]|]. split; [lia|].
        intros x [->|Hx]%elem_of_cons Hxh; [lia|]. specialize (Hmax x Hx Hxh). lia.
      * split; [by right|]. split; [done|]. intros x [->|Hx]%elem_of_cons Hxh; [lia|]. auto.
    + destruct (Z.ltb_spec y h).
      * split; [by left|]. split; [done|]. intros x [->|Hx]%elem_of_cons Hxh; [lia|]. specialize (IH x Hx). lia.
      * intros x [->|Hx]%elem_of_cons; [done|]. auto.
Qed.

Lemma elem_of_missing_rows s e a b :
  (a, b) ∈ missing_rows s e <->
  exists n, n ∈ heights /\ s + 1 <= n < e /\ ((n - 1) ∉ heights) /\ b = n - 1 /\
    a = match max_below n with Some h => h + 1 | None => s end.
Proof.
  unfold missing_rows. rewrite list_elem_of_bind. split.
  - intros (n & Hin & Hn). exists n. revert Hin. case_match eqn:E; [|by intros ?%not_elem_of_nil].
    intros [= -> ->]%list_elem_of_singleton.
    apply andb_prop in E as [[[E1%Z.leb_le E2%Z.leb_le]%andb_prop E3%negb_true_iff]%andb_prop E4%bool_decide_eq_true].
    apply Z.eqb_neq in E3. split_and!; done || lia.
  - intros (n & Hn & Hr & Hp & -> & ->). exists n. split; [|done].
    rewrite (proj2 (Z.leb_le _ _)), (proj2 (Z.leb_le n e)), (proj2 (Z.eqb_neq n e)), bool_decide_eq_true_2 by (done || lia).
    by left.
Qed.

(** The batch that looks at the height [n]: not one of the batch ends. *)
Lemma batch_of fromHeight toHeight n :
  fromHeight < n < toHeight -> (n - fromHeight) mod BATCH_SIZE <> 0 ->
  let i := (n - fromHeight) / BATCH_SIZE in
  let s := fromHeight + i * BATCH_SIZE in
  i ∈ seqZ 0 (numBatches fromHeight toHeight) /\ s + 1 <= n < Z.min (s + BATCH_SIZE) toHeight.
Proof.
  intros Hn Hmod. cbv zeta. unfold numBatches, BATCH_SIZE in *.
  pose proof (Z.div_mod (n - fromHeight) 25000 ltac:(lia)) as E.
  pose proof (Z.mod_pos_bound (n - fromHeight) 25000 ltac:(lia)) as B.
  set (i := (n - fromHeight) / 25000) in *. split; [|lia].
  apply elem_of_seqZ. split; [apply Z.div_pos; lia|]. simpl.
  assert (i + 1 <= (toHeight - fromHeight + 25000 - 1) / 25000); [|lia]. apply Z.div_le_lower_bound; lia.
Qed.

(** A gap makes the count differ. *)
Lemma gap_count fromHeight toHeight m :
  NoDup heights -> fromHeight <= m <= toHeight -> m ∉ heights ->
  indexedBlockCount fromHeight toHeight < toHeight - fromHeight + 1.
Proof.
  intros Hnd Hm Hout. unfold indexedBlockCount. set (l := filter _ heights).
  assert (NoDup (m :: l)) as Hnd'.
  { constructor; [|by apply NoDup_filter]. by intros [_ Hin]%list_elem_of_filter. }
  assert (m :: l ⊆ seqZ fromHeight (toHeight - fromHeight + 1)) as Hsub.
  { intros x Hx. apply elem_of_seqZ. apply elem_of_cons in Hx as [->|[Hr _]%list_elem_of_filter]; lia. }
  pose proof (NoDup_submseteq _ _ Hnd' Hsub) as Hle%submseteq_length.
  rewrite length_seqZ in Hle. simpl in Hle. lia.
Qed.

Lemma found_in_batches fromHeight toHeight a b :
  3 <= indexedBlockCount fromHeight toHeight ->
  (a, b) ∈ findMissingBlocksInRange fromHeight toHeight ->
  exists i, 0 <= i /\ (a, b) ∈ batch_rows fromHeight toHeight i.
Proof.
  intros Hc. unfold findMissingBlocksInRange. rewrite (proj2 (Z.ltb_ge _ _)) by done.
  destruct (_ =? _); [by intros ?%not_elem_of_nil|].
  intros (i & Hin & Hi%elem_of_seqZ)%list_elem_of_bind. exists i. split; [lia|done].
Qed.

(** A reported range lies strictly between two indexed heights, or below the
    first one. *)
Lemma missing_row_gap s e a b x :
  (a, b) ∈ missing_rows s e -> a <= x <= b -> x ∉ heights.
Proof.
  intros (n & Hn & Hr & Hp & -> & ->)%elem_of_missing_rows Hx Hin.
  pose proof (max_below_spec n) as Hm. destruct (max_below n) as [m|].
  - destruct Hm as (_ & _ & Hmax). specialize (Hmax x Hin). lia.
  - specialize (Hm x Hin). lia.
Qed.

Lemma missing_found fromHeight toHeight :
  NoDup heights -> (forall h, h ∈ heights -> 0 <= h) -> 0 <= fromHeight ->
  3 <= indexedBlockCount fromHeight toHeight ->
  (forall m, m ∈ getMissingBlocks fromHeight toHeight -> m ∉ heights) /\
  (forall l m n, l ∈ heights -> n ∈ heights -> m ∉ heights -> fromHeight <= m -> l < m < n ->
     (forall h, h ∈ heights -> h <= m \/ n <= h) -> n < toHeight -> (n - fromHeight) mod BATCH_SIZE <> 0 ->
     m ∈ getMissingBlocks fromHeight toHeight).
Proof.
  intros Hnd Hpos Hfrom Hc. split.
  - intros m ([a b] & Hm & Hin)%list_elem_of_bind.
    destruct (found_in_batches _ _ _ _ Hc Hin) as (i & Hi & Hrow).
    pose proof Hrow as (n & Hn & Hr & _ & -> & _)%elem_of_missing_rows.
    cbn [fst snd] in Hm. rewrite elem_of_range in Hm by (specialize (Hpos n Hn); unfold BATCH_SIZE in *; lia).
    eapply missing_row_gap; [exact Hrow|lia].
  - intros l m n Hl Hn Hm Hfm Hlmn Hnext Hto Hmod.
    destruct (batch_of fromHeight toHeight n) as [Hi Hs]; [lia|done|]. set (i := (n - fromHeight) / BATCH_SIZE) in *.
    pose proof (max_below_spec n) as Hmax. destruct (max_below n) as [p|] eqn:Ep; [|specialize (Hmax l Hl); lia].
    destruct Hmax as (Hp & Hpn & Hmax).
    assert (p < m) as Hpm.
    { destruct (Hnext p Hp) as [Hle|Hge]; [|lia]. destruct (Z.eq_dec p m) as [->|]; [done|lia]. }
    apply list_elem_of_bind. exists (p + 1, n - 1). split.
    + cbn [fst snd]. apply elem_of_range; lia.
    + unfold findMissingBlocksInRange. rewrite (proj2 (Z.ltb_ge _ _)) by done.
      pose proof (gap_count fromHeight toHeight m Hnd ltac:(lia) Hm).
      rewrite (proj2 (Z.eqb_neq _ _)) by lia. apply list_elem_of_bind. exists i. split; [|done].
      apply elem_of_missing_rows. exists n. rewrite Ep. split_and!; try done; try lia.
      intros Hin. destruct (Hnext (n - 1) Hin); [|lia]. destruct (Z.eq_dec (n - 1) m) as [E|]; [by rewrite E in Hin|lia].
Qed.

(** The height [m] belongs to a gap the query sees: the next indexed height
    [n] above it lies above the start and below the end of the range, and [m]
    is not below the range, or some lower height is indexed. *)
Definition in_gap (fromHeight toHeight m : Z) : Prop :=
  exists n, n ∈ heights /\ fromHeight < n < toHeight /\ m < n /\
    (forall h, h ∈ heights -> h < m \/ n <= h) /\
    (fromHeight <= m \/ exists l, l ∈ heights /\ l < m).

Lemma elem_of_single_batch fromHeight toHeight m :
  (forall h, h ∈ heights -> 0 <= h) -> 0 <= fromHeight ->
  (exists e, e ∈ missing_rows fromHeight toHeight /\ m ∈ range (fst e) (snd e + 1) 1) <->
  in_gap fromHeight toHeight m.
Proof.
  intros Hpos Hfrom. split.
  - intros ([a b] & Hrow & Hm). pose proof Hrow as (n & Hn & Hr & _ & -> & Ea)%elem_of_missing_rows.
    cbn [fst snd] in Hm. rewrite elem_of_range in Hm by lia. exists n.
    pose proof (max_below_spec n) as Hmax. destruct (max_below n) as [p|]; subst a.
    + destruct Hmax as (Hp & Hpn & Hmax). split_and!; try done; try lia.
      * intros h Hh. destruct (decide (h < n)) as [Hlt|]; [specialize (Hmax h Hh Hlt)|]; lia.
      * right. exists p. split; [done|lia].
    + split_and!; try done; try lia. intros h Hh. right. auto.
  - intros (n & Hn & Hr & Hmn & Hgap & Hlow). pose proof (max_below_spec n) as Hmax.
    exists (match max_below n with Some h => h + 1 | None => fromHeight end, n - 1). split.
    + apply elem_of_missing_rows. exists n. split_and!; try done; try lia.
      intros Hin. destruct (Hgap (n - 1) Hin); lia.
    + cbn [fst snd]. apply elem_of_range; [lia|]. split; [|lia]. destruct (max_below n) as [p|].
      * destruct Hmax as (Hp & Hpn & _). destruct (Hgap p Hp); lia.
      * destruct Hlow as [|(l & Hl & Hlm)]; [done|]. specialize (Hmax l Hl). lia.
Qed.

(** The answer for a range of at most one batch, height by height: fewer than
    three indexed heights give the whole range, otherwise the gaps that end
    below the end of the range. *)
Lemma elem_of_getMissingBlocks fromHeight toHeight m :
  (forall h, h ∈ heights -> 0 <= h) -> NoDup heights ->
  0 <= fromHeight < toHeight -> toHeight <= fromHeight + BATCH_SIZE ->
  m ∈ getMissingBlocks fromHeight toHeight <->
  (if indexedBlockCount fromHeight toHeight <? 3 then fromHeight <= m <= toHeight
   else in_gap fromHeight toHeight m).
Proof.
  intros Hpos Hnd Hft Hsize. unfold getMissingBlocks, findMissingBlocksInRange.
  destruct (indexedBlockCount fromHeight toHeight <? 3) eqn:E3.
  - cbn. rewrite app_nil_r, elem_of_range by lia. lia.
  - destruct (Z.eqb_spec (indexedBlockCount fromHeight toHeight) (toHeight - fromHeight + 1)) as [E|E].
    + split; [by intros ?%not_elem_of_nil|]. intros (n & Hn & Hr & Hmn & Hgap & _). exfalso.
      pose proof (gap_count fromHeight toHeight (n - 1) Hnd ltac:(lia)) as Hc.
      destruct (decide (n - 1 ∈ heights)) as [Hin|Hout]; [destruct (Hgap _ Hin); lia|specialize (Hc Hout); lia].
    + assert (numBatches fromHeight toHeight = 1) as ->.
      { unfold numBatches, BATCH_SIZE in *. symmetry. apply Z.div_unique with (toHeight - fromHeight - 1); lia. }
      change (seqZ 0 1) with [0]. cbn [mbind list_bind]. rewrite app_nil_r. unfold batch_rows.
      rewrite Z.mul_0_l, Z.add_0_r, Z.min_r by done. rewrite <- elem_of_single_batch, list_elem_of_bind by (done || lia).
      split; intros (e & H1 & H2); by exists e.
Qed.

(** The search for missing blocks is sound, and complete up to the
    boundaries of its batches.  With at least three blocks of the range in the
    index, no indexed height is reported as missing; and a missing height is
    reported when some block below it is indexed and the next indexed block
    above it lies inside the range and is not the last height of a batch. *)
Theorem missing_blocks_found fromHeight toHeight :
  NoDup heights -> (forall h, h ∈ heights -> 0 <= h) -> 0 <= fromHeight ->
  3 <= indexedBlockCount fromHeight toHeight ->
  (forall m, m ∈ getMissingBlocks fromHeight toHeight -> m ∉ heights) /\
  (forall l m n, l ∈ heights -> n ∈ heights -> m ∉ heights -> fromHeight <= m -> l < m < n ->
     (forall h, h ∈ heights -> h <= m \/ n <= h) -> n < toHeight -> (n - fromHeight) mod BATCH_SIZE <> 0 ->
     m ∈ getMissingBlocks fromHeight toHeight).
Proof. apply missing_found. Qed.
End Missing.

Lemma missing_blocks_found_witness : 4 ∈ getMissingBlocks [0; 1; 2; 3; 6; 7] 0 7.
Proof.
  apply (proj2 (missing_blocks_found [0; 1; 2; 3; 6; 7] 0 7
    ltac:(apply (bool_decide_unpack _); vm_compute; exact I)
    ltac:(intros h Hh; apply list_elem_of_In in Hh; simpl in Hh; lia) ltac:(lia) ltac:(vm_compute; discriminate)) 3 4 6).
  - by do 3 right; left.
  - by do 4 right; left.
  - intros Hh. apply list_elem_of_In in Hh. simpl in Hh. lia.
  - lia.
  - lia.
  - intros h Hh. apply list_elem_of_In in Hh. simpl in Hh. lia.
  - lia.
  - vm_compute. discriminate.
Defined.

(** A gap directly below the end of a batch is not found: the height 6 is
    missing from the index and from the answer. *)
Lemma gap_before_end_missed : getMissingBlocks [0; 1; 2; 3; 4; 5; 7] 0 7 = [].
Proof. reflexivity. Qed.
