(* ===== verification/Chain.v ===== *)
(** * Constants, node interface, events and transaction helpers of the indexer

    [shared/constants.js], [shared/utils/transactions.js],
    [shared/utils/parser.js], [shared/utils/account.js],
    [dataService/business/pos/constants.js] and [indexer/utils/events.js].
    What comes from the blockchain node, through the connector service, and
    from the cryptography package is the class [NodeApi]. *)
From S2P Require Import Prelude JsValue Database Engine Table World Schemas KvStore.
Local Open Scope Z_scope.

(** ** The node and the cryptography package *)
Class NodeApi := {
  (** [getKlayr32AddressFromPublicKey] of [@klayr/cryptography]. *)
  klayr32_of_public_key : val -> result val;
  (** [requestConnector('getPosConstants')] *)
  request_pos_constants : result val;
  (** [requestConnector('formatTransaction', { transaction, additionalFee })] *)
  request_format_transaction : obj -> val -> result val;
  (** [requestConnector('getMainchainID')] *)
  request_mainchain_id : result val;
  (** [getChainAccount({ chainID })], answered by the node. *)
  request_chain_account : val -> result val;
  (** [config.db.isPersistEvents] *)
  is_persist_events : bool;
}.

(** ** Constants *)
Definition SUCCESSFUL : val := Str "successful".
Definition FAILED : val := Str "failed".
Definition TOTAL_LOCKED : string := "total_locked_".
Definition TOTAL_STAKED : string := "total_staked_".
Definition TOTAL_SELF_STAKED : string := "total_self_staked_".
Definition COMMAND_EXECUTION_RESULT : string := "commandExecutionResult".
Definition REWARDS_ASSIGNED : string := "rewardsAssigned".
Definition TX_ID : string := "04".
Definition CCM_ID : string := "05".
Definition LENGTH_ID : nat := 64.

(** ** Arrays *)

(** [l.find(f)] and [l.filter(f)] for a predicate that may throw. *)
Fixpoint js_find {A} (f : A -> result bool) (l : list A) : result (option A) :=
  match l with
  | [] => Ok None
  | x :: l => b ← f x; if b : bool then Ok (Some x) else js_find f l
  end.

Fixpoint js_filter {A} (f : A -> result bool) (l : list A) : result (list A) :=
  match l with
  | [] => Ok []
  | x :: l => b ← f x; r ← js_filter f l; Ok (if b : bool then x :: r else r)
  end.

(** [f() && g()] *)
Definition andR (a b : result bool) : result bool := x ← a; if x : bool then b else Ok false.

(** [v.includes(x)] on an array of topics. *)
Definition topics_include (e : val) (x : string) : result bool :=
  ts ← get e "topics";
  match ts with
  | Arr l => Ok (bool_decide (Str x ∈ l))
  | _ => Throw "Cannot read properties of undefined (reading 'includes')"
  end.

Definition prop_is (e : val) (key : string) (v : val) : result bool :=
  x ← get e key; Ok (bool_decide (x = v)).

(** The elements of an array value. *)
Definition elements (v : val) : result (list val) :=
  match v with Arr l => Ok l | _ => Throw "not iterable" end.

(** ** parser.js *)

(** [parseToJSONCompatObj]: big integers become strings, except a falsy value
    that is the argument itself or an element of an array. *)
Fixpoint parseToJSONCompatObj (v : val) : val :=
  match v with
  | Undef | Null | Bool _ | NaN | Num _ | Str _ => v
  | BigI z => if z =? 0 then v else Str (string_of_Z z)
  | Arr l => Arr ((fix go l := match l with
                     | [] => []
                     | x :: l => parseToJSONCompatObj x :: go l
                     end) l)
  | Object o => Object ((fix go o := match o with
                     | [] => []
                     | (k, x) :: o =>
                         (k, match x with
                             | BigI z => Str (string_of_Z z)
                             | _ => parseToJSONCompatObj x
                             end) :: go o
                     end) o)
  end.

(** ** transactions.js *)
Definition normalizeTransaction (tx : obj) : val :=
  parseToJSONCompatObj (Object (set_prop tx "moduleCommand"
    (Str (js_String (prop tx "module") +:+ ":" +:+ js_String (prop tx "command"))))).

Definition getTransactionExecutionStatus (tx : obj) (events : list val) : result val :=
  let expectedEventName := js_String (prop tx "module") +:+ ":" +:+ COMMAND_EXECUTION_RESULT in
  commandExecResultEvents ← js_filter (fun e =>
    m ← get e "module"; n ← get e "name";
    Ok (String.eqb (js_String m +:+ ":" +:+ js_String n) expectedEventName)) events;
  txExecResultEvent ← js_find (fun e =>
    let id := js_String (prop tx "id") in
    b ← topics_include e (TX_ID +:+ id);
    if b : bool then Ok true else topics_include e id) commandExecResultEvents;
  match txExecResultEvent with
  | None => Throw ("Event unavailable to determine execution status for transaction: "
                   +:+ js_String (prop tx "id") +:+ ".")
  | Some e => d ← get e "data"; ok ← get d "success"; Ok (if truthy ok then SUCCESSFUL else FAILED)
  end.

(** ** events.js *)
Definition event_matches (module name topic : val) (t : val) : result bool :=
  if negb (truthy t) then Ok false
  else andR (prop_is t "module" module)
         (andR (prop_is t "name" name)
           (if decide (topic = Undef) then Ok true else topics_include t (TX_ID +:+ js_String topic))).

Definition parseSingleEvent (events : list val) (module name topic : val) : result val :=
  e ← js_find (event_matches module name topic) events;
  Ok (default Undef e).

Definition parseEvents (events : list val) (module name topic : val) : result (list val) :=
  js_filter (event_matches module name topic) events.

(** [topic.startsWith(CCM_ID) && topic.length === CCM_ID.length + LENGTH_ID] *)
Definition is_ccm_topic (topic : string) : bool :=
  String.prefix CCM_ID topic && Nat.eqb (String.length topic) (String.length CCM_ID + LENGTH_ID).

(** The transaction ID of the command execution result that closes the
    transaction the event belongs to. *)
Definition ccm_transaction_id (later : list val) : result val :=
  r ← js_find (fun e => prop_is e "name" (Str COMMAND_EXECUTION_RESULT)) later;
  match r with
  | None => Throw "Cannot read properties of undefined (reading 'topics')"
  | Some e =>
      ts ← get e "topics"; l ← elements ts;
      match hd Undef l with
      | Str t => Ok (Str (if Nat.eqb (String.length t) (String.length TX_ID + LENGTH_ID)
                          then js_slice (String.length TX_ID) t else t))
      | _ => Throw "Cannot read properties of undefined (reading 'length')"
      end
  end.

Section Events.
Context `{NodeApi}.

(** The topic rows of one event; [later] are the events from this one on. *)
Definition event_topic_rows (event : val) (later : list val) : result (list obj) :=
  id ← get event "id";
  ts ← get event "topics";
  l ← elements ts;
  rows ← mapM_result (fun topic =>
    match topic with
    | Str t =>
        if is_ccm_topic t then
          txid ← ccm_transaction_id later;
          Ok [[("eventID", id); ("topic", topic)]; [("eventID", id); ("topic", txid)]]
        else Ok [[("eventID", id); ("topic", topic)]]
    | _ => Throw "topic.startsWith is not a function"
    end) l;
  m ← get event "module"; n ← get event "name";
  extra ← (if decide (m = Str "pos" /\ n = Str REWARDS_ASSIGNED) then
             d ← get event "data"; va ← get d "validatorAddress";
             Ok [[("eventID", id); ("topic", va)]]
           else Ok []);
  Ok (concat rows ++ extra).

Definition event_row (block : obj) (event : val) : result obj :=
  id ← get event "id"; name ← get event "name"; module ← get event "module"; index ← get event "index";
  let eventInfo := [("id", id); ("name", name); ("module", module); ("height", prop block "height");
                    ("index", index); ("blockID", prop block "id"); ("timestamp", prop block "timestamp")] in
  if negb (truthy (prop block "isFinal")) || is_persist_events then
    s ← json_stringify event;
    Ok (eventInfo ++ [("eventStr", match s with Some s => Str s | None => Undef end)])
  else Ok eventInfo.

(** [event && event.topics] *)
Definition event_indexed (event : val) : result bool :=
  if truthy event then t ← get event "topics"; Ok (truthy t) else Ok false.

Fixpoint getEventsInfoToIndex (block : obj) (events : list val) : result (list obj * list obj) :=
  match events with
  | [] => Ok ([], [])
  | event :: rest =>
      ix ← event_indexed event;
      here ← (if ix : bool then
                info ← event_row block event;
                topics ← event_topic_rows event events;
                Ok ([info], topics)
              else Ok ([], []));
      tail ← getEventsInfoToIndex block rest;
      Ok (fst here ++ fst tail, snd here ++ snd tail)
  end.

(** ** account.js and pos/constants.js *)
Definition getKlayr32AddressFromPublicKey (publicKey : val) : result val :=
  klayr32_of_public_key publicKey.

Definition getPosConstants : result val :=
  match request_pos_constants with
  | Ok c => Ok (Object [("data", c); ("meta", Object [])])
  | Throw e => Throw ("Unable to fetch the PoS constants from connector due to: " +:+ e)
  end.

Definition getPosTokenID : result val :=
  c ← getPosConstants; d ← get c "data"; get d "posTokenID".

End Events.

(** A node for the examples: a public key is its own address. *)
Definition sample_node : NodeApi := {|
  klayr32_of_public_key pk := match pk with Str _ => Ok pk | _ => Throw "Invalid public key" end;
  request_pos_constants := Ok (Object [("posTokenID", Str "0400000100000000")]);
  request_format_transaction tx fee := Ok (Object [("minFee", fee)]);
  request_mainchain_id := Ok (Str "04000000");
  request_chain_account id := Ok (Object [("name", Str "app"); ("status", Num 1)]);
  is_persist_events := false;
|}.
