(* ===== verification/PoolAddress.v ===== *)
(** * indexer/utils/poolAddress.js and tradingPath.js

    Node buffers as lists of bytes, the hexadecimal encoding, and the addresses
    of DEX pools, which are the two token ids and the fee in 20 bytes.  The
    Klayr32 encoding of addresses and the hash come from
    [@klayr/cryptography]: the class [Crypto]. *)
From S2P Require Import Prelude JsValue.
From Stdlib Require Import Ascii DecimalString.
Local Open Scope Z_scope.

Abbreviation buffer := (list Z).

(** ** Hexadecimal text *)
Definition digit_chars : string := "0123456789abcdef".

Definition hex_char (d : Z) : ascii := default "0"%char (String.get (Z.to_nat d) digit_chars).

Definition hex_value (c : ascii) : option Z :=
  let n := Z.of_nat (nat_of_ascii c) in
  if (48 <=? n) && (n <=? 57) then Some (n - 48)
  else if (97 <=? n) && (n <=? 102) then Some (n - 87)
  else if (65 <=? n) && (n <=? 70) then Some (n - 55)
  else None.

(** [Buffer.from(s, 'hex')]: decoding stops at the first pair that is not
    hexadecimal, a single last digit is dropped. *)
Fixpoint from_hex (s : string) : buffer :=
  match s with
  | String a (String b s') =>
      match hex_value a, hex_value b with
      | Some x, Some y => (16 * x + y) :: from_hex s'
      | _, _ => []
      end
  | _ => []
  end.

(** [buffer.toString('hex')] *)
Fixpoint to_hex (b : buffer) : string :=
  match b with
  | [] => ""
  | x :: b => String (hex_char (x / 16)) (String (hex_char (x mod 16)) (to_hex b))
  end.

(** [buffer.readUIntBE(0, n)] *)
Definition read_uint_be (n : nat) (b : buffer) : result Z :=
  if Nat.ltb (length b) n then Throw "Attempt to access memory outside buffer bounds"
  else Ok (foldl (fun acc x => 256 * acc + x) 0 (take n b)).

(** [buffer.writeUIntBE(v, 0, n)] on a fresh buffer of [n] bytes. *)
Fixpoint be_bytes (n : nat) (v : Z) : buffer :=
  match n with
  | O => []
  | S n => (v / 256 ^ Z.of_nat n) mod 256 :: be_bytes n v
  end.

Definition write_uint_be (n : nat) (v : val) : result buffer :=
  match v with
  | Num z =>
      if (0 <=? z) && (z <? 256 ^ Z.of_nat n) then Ok (be_bytes n z)
      else Throw "ERR_OUT_OF_RANGE"
  | _ => Ok (be_bytes n 0)
  end.

(** [parseInt(s, 10)]: the leading decimal digits (of a text that does not
    begin with white space). *)
Fixpoint leading_digits (s : string) : string :=
  match s with
  | EmptyString => ""
  | String c s' =>
      let n := Z.of_nat (nat_of_ascii c) in
      if (48 <=? n) && (n <=? 57) then String c (leading_digits s') else ""
  end.

Definition js_parseInt (v : val) : val :=
  let s := js_String v in
  let '(neg, s) := match s with
                   | String c s' => if Ascii.eqb c "-" then (true, s') else if Ascii.eqb c "+" then (false, s') else (false, s)
                   | EmptyString => (false, s)
                   end in
  match parse_Z (leading_digits s) with
  | Some z => Num (if neg : bool then - z else z)
  | None => NaN
  end.

(** ** Addresses *)
Class Crypto := {
  getKlayr32AddressFromAddress : buffer -> result string;
  getAddressFromKlayr32Address : string -> result buffer;
  sha256 : buffer -> buffer;
}.

(** Klayr32 addresses are 41 characters and encode 20 bytes. *)
Class CryptoLaws `{Crypto} := {
  klayr32_roundtrip b :
    length b = 20%nat -> Forall (fun x => 0 <= x < 256) b ->
    exists s, getKlayr32AddressFromAddress b = Ok s /\ String.length s = 41%nat /\
      getAddressFromKlayr32Address s = Ok b;
}.

(** The operand of [Buffer.from(x, 'hex')]: a text, or a buffer, which is copied. *)
Inductive hex_or_buffer := Hex (s : string) | Buf (b : buffer).

Record PoolKey := mkPoolKey { token0 : string; token1 : string; fee : val }.

(** [a < b] of two texts. *)
Definition str_lt (a b : string) : bool := String.ltb a b.

Definition getPoolKey (tokenA tokenB : string) (fee : val) : result PoolKey :=
  if String.eqb tokenA tokenB then Throw "same token address"
  else
    let t0 := if str_lt tokenA tokenB then tokenA else tokenB in
    let t1 := if str_lt tokenA tokenB then tokenB else tokenA in
    Ok (mkPoolKey t0 t1 fee).

Definition zero16 : string := "0000000000000000".

Definition computePoolAddress (key : PoolKey) : result buffer :=
  if String.eqb (token0 key) zero16 && String.eqb (token1 key) zero16 && bool_decide (fee key = Str "0")
  then Throw "zero"
  else if str_lt (token1 key) (token0 key) then Throw "invalid token0/token1"
  else if String.eqb (token0 key) "" then Throw "invalid token0"
  else
    feeBuf ← write_uint_be 4 (js_parseInt (fee key));
    Ok (from_hex (token0 key) ++ from_hex (token1 key) ++ feeBuf).

Section Pools.
Context `{Crypto}.

Definition getKlayr32AddressFromHexAddress (address : hex_or_buffer) : result string :=
  getKlayr32AddressFromAddress (match address with Hex s => from_hex s | Buf b => b end).

Definition decodePoolAddress (poolAddress : hex_or_buffer) : result PoolKey :=
  pool ← match poolAddress with
         | Hex s => if Nat.eqb (String.length s) 41 then getAddressFromKlayr32Address s else Ok (from_hex s)
         | Buf b => Ok b
         end;
  f ← read_uint_be 4 (drop 16 pool);
  Ok (mkPoolKey (to_hex (take 8 pool)) (to_hex (take 8 (drop 8 pool))) (Str (string_of_Z f))).

Definition computePoolId (poolAddress : hex_or_buffer) : result string :=
  pool ← match poolAddress with Hex s => getAddressFromKlayr32Address s | Buf b => Ok b end;
  if negb (Nat.eqb (length pool) 20) then Throw "invalid poolAddress"
  else Ok (to_hex (take 4 (sha256 pool))).

End Pools.

Record NftId := mkNftId { chainId : string; collectionId : string; index : Z }.

Definition decodeNFTId (nftId : string) : result NftId :=
  let nft := from_hex nftId in
  i ← read_uint_be 8 (drop 8 nft);
  Ok (mkNftId (to_hex (take 4 nft)) (to_hex (take 4 (drop 4 nft))) i).

(** ** tradingPath.js: a path of token ids (8 bytes) and fees (3 bytes) as
    hexadecimal text *)
Definition ADDR_SIZE : nat := 8.
Definition FEE_SIZE : nat := 3.
Definition NEXT_OFFSET : nat := ADDR_SIZE + FEE_SIZE.
Definition POP_OFFSET : nat := NEXT_OFFSET + ADDR_SIZE.
Definition MULTIPLE_POOLS_MIN_LENGTH : nat := POP_OFFSET + NEXT_OFFSET.

(** [s.substring(a, b)] and [s.substring(a)], for [a <= b]. *)
Definition js_substring (a b : nat) (s : string) : string := String.substring a (b - a) s.
Definition js_substring_from (a : nat) (s : string) : string := String.substring a (String.length s - a) s.

Definition hasMultiplePools (path : string) : bool :=
  Nat.leb (MULTIPLE_POOLS_MIN_LENGTH * 2) (String.length path).

(** The quotient of [numPools] when it is an integer. *)
Definition numPools (path : string) : option Z :=
  let n := Z.of_nat (String.length path) - Z.of_nat ADDR_SIZE * 2 in
  let d := Z.of_nat NEXT_OFFSET * 2 in
  if n mod d =? 0 then Some (n / d) else None.

(** The bytes of a text ([Buffer.from(s)] with the default encoding). *)
Fixpoint utf8 (s : string) : buffer :=
  match s with
  | EmptyString => []
  | String c s => Z.of_nat (nat_of_ascii c) :: utf8 s
  end.

Definition decodeFirstPool (path : string) : result (string * string * string) :=
  f ← read_uint_be 3 (utf8 (js_substring (ADDR_SIZE * 2) (ADDR_SIZE * 2 + 6) path));
  Ok (js_substring 0 16 path, js_substring (NEXT_OFFSET * 2) (NEXT_OFFSET * 2 + 16) path, string_of_Z f).

Definition getFirstPool (path : string) : string := js_substring 0 (POP_OFFSET * 2) path.
Definition skipToken (path : string) : string := js_substring_from (NEXT_OFFSET * 2) path.

(** ** Facts about hexadecimal text *)
Definition is_byte (x : Z) : Prop := 0 <= x < 256.

(** Text as [toString('hex')] writes it. *)
Fixpoint lower_hex (s : string) : bool :=
  match s with
  | EmptyString => true
  | String c s => match hex_value c with Some d => Ascii.eqb c (hex_char d) | None => false end && lower_hex s
  end.

(** Texts two characters at a time. *)
Lemma string_pair_ind (P : string -> Prop) :
  P "" -> (forall a, P (String a "")) -> (forall a b s, P s -> P (String a (String b s))) -> forall s, P s.
Proof.
  intros H0 H1 H2. fix go 1. intros [|a [|b s]]; [exact H0|apply H1|apply H2, go].
Qed.

Lemma hex_value_range c d : hex_value c = Some d -> 0 <= d < 16.
Proof.
  unfold hex_value. set (n := Z.of_nat _).
  repeat (destruct (_ && _) eqn:E; [intros [= <-]; apply andb_prop in E as [?%Z.leb_le ?%Z.leb_le]; lia|clear E]).
  discriminate.
Qed.

Lemma from_hex_bytes s : Forall is_byte (from_hex s).
Proof.
  induction s as [|a|a b s IH] using string_pair_ind; simpl; [constructor..|].
  destruct (hex_value a) as [x|] eqn:Ea; [|constructor]. destruct (hex_value b) as [y|] eqn:Eb; [|constructor].
  apply hex_value_range in Ea, Eb. constructor; [unfold is_byte; lia|done].
Qed.

Lemma lower_hex_value c s :
  lower_hex (String c s) = true -> exists d, hex_value c = Some d /\ c = hex_char d /\ lower_hex s = true.
Proof.
  simpl. destruct (hex_value c) as [d|]; [|discriminate]. intros [->%Ascii.eqb_eq Hs]%andb_prop. by exists d.
Qed.

Lemma to_from_hex s : lower_hex s = true -> Nat.Even (String.length s) -> to_hex (from_hex s) = s.
Proof.
  induction s as [|a|a b s IH] using string_pair_ind; intros Hl He.
  - done.
  - destruct He as [k Hk]. simpl in Hk. lia.
  - apply lower_hex_value in Hl as (x & Ex & Hx & (y & Ey & Hy & Hl)%lower_hex_value).
    simpl. rewrite Ex, Ey. apply hex_value_range in Ex, Ey. simpl.
    replace ((16 * x + y) / 16) with x by (rewrite Z.add_comm, Z.mul_comm, Z.div_add, Z.div_small; lia).
    replace ((16 * x + y) mod 16) with y by (rewrite Z.add_comm, Z.mul_comm, Z.mod_add, Z.mod_small; lia).
    rewrite <- Hx, <- Hy, IH; [done..|]. destruct He as [k Hk]. simpl in Hk. exists (k - 1)%nat. lia.
Qed.

Lemma from_hex_length s : lower_hex s = true -> length (from_hex s) = Nat.div2 (String.length s).
Proof.
  induction s as [|a|a b s IH] using string_pair_ind; intros Hl; [done..|].
  apply lower_hex_value in Hl as (x & Ex & _ & (y & Ey & _ & Hl)%lower_hex_value).
  simpl. rewrite Ex, Ey. simpl. by rewrite IH.
Qed.

(** ** Big-endian numbers *)
Lemma be_bytes_length n v : length (be_bytes n v) = n.
Proof. induction n; simpl; congruence. Qed.

Lemma be_bytes_bytes n v : Forall is_byte (be_bytes n v).
Proof.
  induction n; simpl; constructor; [|done]. apply Z.mod_pos_bound. lia.
Qed.

Lemma be_bytes_fold n v acc :
  foldl (fun acc x => 256 * acc + x) acc (be_bytes n v) = acc * 256 ^ Z.of_nat n + v mod 256 ^ Z.of_nat n.
Proof.
  revert acc. induction n as [|n IH]; intros acc; simpl.
  - rewrite Z.mod_1_r. lia.
  - rewrite IH, Nat2Z.inj_succ, Z.pow_succ_r by lia.
    rewrite (Z.mul_comm 256 (256 ^ Z.of_nat n)), Z.rem_mul_r by lia. lia.
Qed.

Lemma read_be_bytes n v l : 0 <= v < 256 ^ Z.of_nat n -> read_uint_be n (be_bytes n v ++ l) = Ok v.
Proof.
  intros Hv. unfold read_uint_be. rewrite length_app, be_bytes_length.
  rewrite (proj2 (Nat.ltb_ge _ _)) by lia.
  rewrite take_app_length' by (by rewrite be_bytes_length). rewrite be_bytes_fold, Z.mod_small by lia. by f_equal.
Qed.

(** ** [parseInt] of a decimal number *)
Lemma leading_digits_uint u : leading_digits (NilEmpty.string_of_uint u) = NilEmpty.string_of_uint u.
Proof. induction u; simpl; congruence. Qed.

Lemma string_of_nonneg n : 0 <= n -> exists c s, string_of_Z n = String c s /\ leading_digits (string_of_Z n) = string_of_Z n /\
  Ascii.eqb c "-" = false /\ Ascii.eqb c "+" = false.
Proof.
  intros Hn. unfold string_of_Z. destruct n as [|p|p]; [by eexists _, _| |lia].
  cbn [Z.to_int NilZero.string_of_int]. unfold NilZero.string_of_uint.
  pose proof (leading_digits_uint (Pos.to_uint p)) as E.
  destruct (Pos.to_uint p) eqn:Eu; eexists _, _; repeat split; simpl in E |- *; exact E || reflexivity.
Qed.

Lemma js_parseInt_string n : 0 <= n -> js_parseInt (Str (string_of_Z n)) = Num n.
Proof.
  intros Hn. destruct (string_of_nonneg n Hn) as (c & s & E & El & Em & Ep).
  unfold js_parseInt. cbn [js_String]. rewrite E, Em, Ep. rewrite <- E, El. by rewrite parse_string_of_Z.
Qed.

Lemma hex_value_char d : 0 <= d < 16 -> hex_value (hex_char d) = Some d.
Proof.
  intros Hd. assert (Forall (fun d => hex_value (hex_char d) = Some d) (seqZ 0 16)) as Hall
    by (apply (bool_decide_unpack _); vm_compute; exact I).
  rewrite Forall_forall in Hall. apply Hall, elem_of_seqZ. lia.
Qed.

Lemma from_to_hex b : Forall is_byte b -> from_hex (to_hex b) = b.
Proof.
  induction 1 as [|x b Hx Hb IH]; [done|]. unfold is_byte in Hx. simpl.
  rewrite !hex_value_char, IH by (split; [apply Z.div_pos || apply Z.mod_pos_bound|apply Z.div_lt_upper_bound || apply Z.mod_pos_bound]; lia).
  f_equal. symmetry. apply Z.div_mod. lia.
Qed.

Lemma to_hex_length b : String.length (to_hex b) = (2 * length b)%nat.
Proof. induction b as [|x b IH]; simpl; [done|]. rewrite IH. lia. Qed.

(** ** Pool addresses *)
Definition token_id (s : string) : Prop := String.length s = 16%nat /\ lower_hex s = true.

Lemma str_lt_flip a b : a <> b -> str_lt b a = negb (str_lt a b).
Proof.
  intros Hne. unfold str_lt, String.ltb. rewrite (String.compare_antisym a b).
  destruct (String.compare b a) eqn:E; [|done..]. by apply String.compare_eq_iff in E.
Qed.

Lemma getPoolKey_sorted a b f :
  a <> b -> exists t0 t1, getPoolKey a b f = Ok (mkPoolKey t0 t1 f) /\ getPoolKey b a f = Ok (mkPoolKey t0 t1 f) /\
    str_lt t1 t0 = false /\ t0 <> t1 /\ ((t0 = a /\ t1 = b) \/ (t0 = b /\ t1 = a)).
Proof.
  intros Hne. unfold getPoolKey. rewrite (str_lt_flip a b Hne).
  rewrite (proj2 (String.eqb_neq a b)), (proj2 (String.eqb_neq b a)) by done.
  destruct (str_lt a b) eqn:E; simpl; eexists _, _; (split; [reflexivity|]); (split; [reflexivity|]).
  - rewrite (str_lt_flip a b Hne), E. auto.
  - rewrite E. auto.
Qed.

Lemma decode_pool_bytes t0 t1 n :
  token_id t0 -> token_id t1 -> 0 <= n < 2 ^ 32 ->
  let pool := from_hex t0 ++ from_hex t1 ++ be_bytes 4 n in
  length pool = 20%nat /\ Forall is_byte pool /\
  to_hex (take 8 pool) = t0 /\ to_hex (take 8 (drop 8 pool)) = t1 /\ read_uint_be 4 (drop 16 pool) = Ok n.
Proof.
  intros [L0 H0] [L1 H1] Hn pool.
  assert (length (from_hex t0) = 8%nat) as F0 by (by rewrite from_hex_length, L0).
  assert (length (from_hex t1) = 8%nat) as F1 by (by rewrite from_hex_length, L1).
  unfold pool. split_and!.
  - by rewrite !length_app, F0, F1, be_bytes_length.
  - rewrite !Forall_app. split_and!; auto using from_hex_bytes, be_bytes_bytes.
  - rewrite take_app_length' by done. apply to_from_hex; [done|]. rewrite L0. by exists 8%nat.
  - rewrite drop_app_length' by done. rewrite take_app_length' by done. apply to_from_hex; [done|]. rewrite L1. by exists 8%nat.
  - rewrite (app_assoc (from_hex t0)), drop_app_length' by (by rewrite length_app, F0, F1).
    rewrite <- (app_nil_r (be_bytes 4 n)). by apply read_be_bytes.
Qed.

(** [C15] The address of a pool determines the pool: for two different token
    ids and a fee of at most four bytes, in whichever order the tokens are
    given, the same key and 20-byte address are computed, and decoding the
    Klayr32 or the hexadecimal form of that address gives the key back. *)
Theorem pool_address_roundtrip `{CryptoLaws} (a b : string) (n : Z) :
  token_id a -> token_id b -> a <> b -> 0 <= n < 2 ^ 32 ->
  exists key pool addr,
    getPoolKey a b (Str (string_of_Z n)) = Ok key /\ getPoolKey b a (Str (string_of_Z n)) = Ok key /\
    computePoolAddress key = Ok pool /\ length pool = 20%nat /\
    getKlayr32AddressFromHexAddress (Buf pool) = Ok addr /\
    decodePoolAddress (Hex addr) = Ok key /\ decodePoolAddress (Hex (to_hex pool)) = Ok key.
Proof.
  intros Ha Hb Hne Hn. destruct (getPoolKey_sorted a b (Str (string_of_Z n)) Hne) as (t0 & t1 & E1 & E2 & Hlt & Hd & Ht).
  assert (token_id t0 /\ token_id t1) as [T0 T1] by (by destruct Ht as [[-> ->]|[-> ->]]).
  destruct (decode_pool_bytes t0 t1 n T0 T1 Hn) as (Hlen & Hby & D0 & D1 & Df). set (pool := _ ++ _) in *.
  destruct (klayr32_roundtrip pool Hlen Hby) as (addr & Ea & La & Ed).
  exists (mkPoolKey t0 t1 (Str (string_of_Z n))), pool, addr. split_and!; [done|done| |done|done|..].
  - unfold computePoolAddress. cbn [token0 token1 fee]. rewrite Hlt.
    destruct (String.eqb_spec t0 zero16), (String.eqb_spec t1 zero16); [congruence|..]; simpl;
      (destruct (String.eqb_spec t0 "") as [->|_]; [by destruct T0|]);
      rewrite js_parseInt_string by lia; simpl; rewrite (proj2 (Z.leb_le _ _)), (proj2 (Z.ltb_lt _ _)) by lia; done.
  - unfold decodePoolAddress. rewrite La, Ed. simpl. rewrite D0, D1. unfold pool in *. by rewrite Df.
  - unfold decodePoolAddress. rewrite to_hex_length, Hlen. simpl. rewrite from_to_hex by done. rewrite Df. simpl. by rewrite D0, D1.
Qed.

(** An encoding with the documented properties. *)
Definition plain_crypto : Crypto := {|
  getKlayr32AddressFromAddress b := Ok (String "k" (to_hex b));
  getAddressFromKlayr32Address s := match s with String _ s => Ok (from_hex s) | EmptyString => Throw "invalid address" end;
  sha256 b := take 32 (b ++ replicate 32 0);
|}.

Lemma plain_crypto_laws : @CryptoLaws plain_crypto.
Proof.
  constructor. intros b Hlen Hb. exists (String "k" (to_hex b)). split; [done|]. split.
  - simpl. by rewrite to_hex_length, Hlen.
  - simpl. by rewrite from_to_hex.
Qed.

Lemma pool_address_roundtrip_witness :
  exists pool, computePoolAddress (mkPoolKey "0000000000000000" "0000000100000000" (Str "3000")) = Ok pool /\
    decodePoolAddress (H := plain_crypto) (Hex (to_hex pool)) = Ok (mkPoolKey "0000000000000000" "0000000100000000" (Str "3000")).
Proof.
  destruct (@pool_address_roundtrip plain_crypto plain_crypto_laws "0000000100000000" "0000000000000000" 3000)
    as (key & pool & addr & E1 & _ & E2 & _ & _ & _ & E3).
  - split; reflexivity.
  - split; reflexivity.
  - discriminate.
  - lia.
  - injection E1 as <-. exists pool. split; [exact E2|exact E3].
Defined.

(** [decodeFirstPool] reads the fee from the characters of the path instead of
    the bytes they encode: a fee of 3000 ([000bb8]) comes out as 3158064. *)
Lemma decodeFirstPool_fee_text :
  decodeFirstPool "0000000000000000000bb80000000100000000" = Ok ("0000000000000000", "0000000100000000", "3158064").
Proof. reflexivity. Qed.
