(* ===== verification/Stake.v ===== *)
(** * transactionProcessor/pos/stake.js: indexing of stakes

    The amount each staker has on each validator is a row of the [stakes]
    table; the totals are kept in the key-value store.  The totals are read
    without the transaction of the caller ([Auto]) and written within it. *)
From S2P Require Import Prelude JsValue Database Engine Table World Schemas KvStore Chain.
Local Open Scope Z_scope.

Section Stake.
Context {St : Type} `{SqlLaws St} `{NodeApi}.
Variable prefix : string.

Definition getStakeIndexingInfo (tx : obj) : result (list obj) :=
  stakes ← get (prop tx "params") "stakes";
  l ← elements stakes;
  mapM_result (fun stake =>
    stakerAddress ← getKlayr32AddressFromPublicKey (prop tx "senderPublicKey");
    validatorAddress ← get stake "validatorAddress";
    a ← get stake "amount"; amount ← js_BigInt a;
    Ok [("stakerAddress", stakerAddress); ("validatorAddress", validatorAddress);
        ("amount", BigI amount)]) l.

Definition stake_param (how : string) (stake : obj) (amount : Z) : obj :=
  [(how, Object [("amount", BigI amount)]);
   ("where", Object [("stakerAddress", prop stake "stakerAddress");
                     ("validatorAddress", prop stake "validatorAddress")])].

Definition incrementStakeTrx (stake : obj) : M St unit :=
  amount ← lift (js_BigInt (prop stake "amount"));
  numRowsAffected ← write_count Trx (increment stakesTableSchema (stake_param "increment" stake amount));
  if numRowsAffected =? 0 then write Trx (upsert stakesTableSchema (Object stake)) else ret tt.

Definition decrementStakeTrx (stake : obj) : M St unit :=
  amount ← lift (js_BigInt (prop stake "amount"));
  _ ← write_count Trx (decrement stakesTableSchema (stake_param "decrement" stake amount));
  ret tt.

(** [BigInt((await keyValueTable.get(key)) || 0)], outside the transaction. *)
Definition committed_amount (key : string) : M St Z :=
  v ← read Auto (kv_get prefix key);
  lift (js_BigInt (if truthy v then v else Num 0)).

Definition updateTotalStake (changeAmount : Z) : M St unit :=
  tokenID ← lift getPosTokenID;
  let tokenKey := TOTAL_STAKED +:+ js_String tokenID in
  curStakedAmount ← committed_amount tokenKey;
  write Trx (kv_set prefix tokenKey (BigI (curStakedAmount + changeAmount))).

Definition updateTotalSelfStake (changeAmount : Z) : M St unit :=
  tokenID ← lift getPosTokenID;
  let tokenKey := TOTAL_SELF_STAKED +:+ js_String tokenID in
  curStakedAmount ← committed_amount tokenKey;
  write Trx (kv_set prefix tokenKey (BigI (curStakedAmount + changeAmount))).

(** The changes of the totals, accumulated while the stakes are written. *)
Fixpoint stake_changes (sign : Z) (stakes : list obj) (total self : Z) : result (Z * Z) :=
  match stakes with
  | [] => Ok (total, self)
  | stake :: stakes =>
      a ← js_BigInt (prop stake "amount");
      stake_changes sign stakes (total + sign * a)
        (if decide (prop stake "stakerAddress" = prop stake "validatorAddress") then self + sign * a else self)
  end.

Definition stake_applyTransaction (tx : obj) : M St unit :=
  if negb (bool_decide (prop tx "executionStatus" = SUCCESSFUL)) then ret tt
  else
    stakes ← lift (getStakeIndexingInfo tx);
    for_each stakes incrementStakeTrx ≫= fun _ =>
    changes ← lift (stake_changes 1 stakes 0 0);
    updateTotalStake (fst changes) ≫= fun _ =>
    updateTotalSelfStake (snd changes).

Definition stake_revertTransaction (tx : obj) : M St unit :=
  if negb (bool_decide (prop tx "executionStatus" = SUCCESSFUL)) then ret tt
  else
    stakes ← lift (getStakeIndexingInfo tx);
    for_each stakes decrementStakeTrx ≫= fun _ =>
    changes ← lift (stake_changes (-1) stakes 0 0);
    updateTotalStake (fst changes) ≫= fun _ =>
    updateTotalSelfStake (snd changes).

(** ** What the [stakes] table says *)
Definition stake_key (a v : string) : list sql := [SStr v; SStr a].

(** The amount [a] has staked on [v]: none without a row. *)
Definition staked (rs : rows) (a v : string) : Z :=
  match rs !! stake_key a v with
  | Some r => match cell r "amount" with SInt z => z | _ => 0 end
  | None => 0
  end.

(** Rows are well formed and carry an amount. *)
Definition stakes_ok (rs : rows) : Prop :=
  table_ok stakesTableSchema rs /\ forall k r, rs !! k = Some r -> exists z, cell r "amount" = SInt z.

Definition stake_obj (a v : string) (n : Z) : obj :=
  [("stakerAddress", Str a); ("validatorAddress", Str v); ("amount", BigI n)].

Lemma stake_key_values a v : key_values stakesTableSchema [Str v; Str a].
Proof.
  repeat constructor; exists (col "string"); split; try done.
  - by right; left.
  - by left.
Qed.

Lemma stake_key_inj a v a' v' : stake_key a v = stake_key a' v' -> a = a' /\ v = v'.
Proof. by intros [= -> ->]. Qed.

(** [where] of a stake names the row of the staker and the validator. *)
Lemma stake_query how a v n :
  how = "increment" \/ how = "decrement" ->
  queryBuilder (stake_param how (stake_obj a v n) n) (Bool false) false
  = Ok [KWhere (Object [("stakerAddress", Str a); ("validatorAddress", Str v)])].
Proof. by intros [-> | ->]. Qed.

Lemma stake_matches a v r :
  matches [KWhere (Object [("stakerAddress", Str a); ("validatorAddress", Str v)])] r
  = forallb (eq_test r) (zip (pk_columns stakesTableSchema) [Str v; Str a]).
Proof. unfold matches. simpl. rewrite !andb_true_r. apply andb_comm. Qed.

Lemma add_amount_ok rs k n :
  stakes_ok rs -> stakes_ok (alter (add_cells [("amount", n)]) k rs).
Proof.
  intros [Hok Ham]. split.
  - apply table_ok_alter; [done|..].
    + intros r. by apply key_of_add_cells.
    + intros r. by apply row_typed_add_cells.
  - intros k' r. destruct (decide (k = k')) as [<-|Hne].
    + rewrite lookup_alter_eq. destruct (rs !! k) as [r0|] eqn:E; [|done]. simpl. intros [= <-].
      destruct (Ham _ _ E) as [z Hz]. exists (z + n). unfold add_cells. simpl.
      by rewrite cell_insert_eq, Hz.
    + rewrite lookup_alter_ne by done. apply Ham.
Qed.

Lemma staked_alter rs a v n a' v' :
  stakes_ok rs ->
  staked (alter (add_cells [("amount", n)]) (stake_key a v) rs) a' v'
  = staked rs a' v' + (if decide (a = a' /\ v = v') then match rs !! stake_key a v with Some _ => n | None => 0 end else 0).
Proof.
  intros [_ Ham]. unfold staked. case_decide as Hd.
  - destruct Hd as [<- <-]. rewrite lookup_alter_eq.
    destruct (rs !! stake_key a v) as [r|] eqn:E; simpl; [|done].
    destruct (Ham _ _ E) as [z Hz]. unfold add_cells. simpl. by rewrite cell_insert_eq, Hz.
  - rewrite lookup_alter_ne by (intros E1%stake_key_inj; by apply Hd). lia.
Qed.

Lemma increment_stake s a v n :
  table_ok stakesTableSchema (rows_of s stakesTableSchema) ->
  exists s1, increment stakesTableSchema (stake_param "increment" (stake_obj a v n) n) s
      = Ok (s1, Z.of_nat (length (option_list (rows_of s stakesTableSchema !! stake_key a v)))) /\
    table_set s s1 stakesTableSchema
      (alter (add_cells [("amount", n)]) (stake_key a v) (rows_of s stakesTableSchema)).
Proof.
  intros Hok. unfold increment. rewrite stake_query by auto.
  apply (add_key stakesTableSchema s _ [Str v; Str a] [("amount", n)]);
    [done|apply stake_key_values|done..|apply stake_matches].
Qed.

Lemma decrement_stake s a v n :
  table_ok stakesTableSchema (rows_of s stakesTableSchema) ->
  exists s1, decrement stakesTableSchema (stake_param "decrement" (stake_obj a v n) n) s
      = Ok (s1, Z.of_nat (length (option_list (rows_of s stakesTableSchema !! stake_key a v)))) /\
    table_set s s1 stakesTableSchema
      (alter (add_cells [("amount", - n)]) (stake_key a v) (rows_of s stakesTableSchema)).
Proof.
  intros Hok. unfold decrement. rewrite stake_query by auto.
  apply (add_key stakesTableSchema s _ [Str v; Str a] [("amount", - n)]);
    [done|apply stake_key_values|done..|apply stake_matches].
Qed.

Definition stake_row (a v : string) (n : Z) : row :=
  row_of [("stakerAddress", Str a); ("validatorAddress", Str v); ("amount", BigI n)].

Lemma upsert_stake s a v n :
  table_ok stakesTableSchema (rows_of s stakesTableSchema) ->
  exists s1, upsert stakesTableSchema (Object (stake_obj a v n)) s = Ok s1 /\
    table_set s s1 stakesTableSchema
      (<[stake_key a v := stake_row a v n ∪ default (defaults stakesTableSchema)
                            (rows_of s stakesTableSchema !! stake_key a v)]> (rows_of s stakesTableSchema)).
Proof.
  intros Hok. destruct (insert_merge_law stakesTableSchema (stake_row a v n) s eq_refl) as (s1 & E & Hset).
  exists s1. split; [|exact Hset]. unfold upsert. simpl. unfold stake_row in E. by rewrite E.
Qed.

Lemma stakes_ok_insert rs a v n old :
  stakes_ok rs -> row_typed stakesTableSchema old = true ->
  stakes_ok (<[stake_key a v := stake_row a v n ∪ old]> rs).
Proof.
  intros [Hok Ham] Hold. split; intros k r.
  - destruct (decide (stake_key a v = k)) as [<-|Hne]; [|rewrite lookup_insert_ne by done; apply Hok].
    rewrite lookup_insert_eq. intros [= <-]. split_and!.
    + by apply (key_of_union stakesTableSchema).
    + by apply row_typed_union.
    + by repeat constructor.
  - destruct (decide (stake_key a v = k)) as [<-|Hne]; [|rewrite lookup_insert_ne by done; apply Ham].
    rewrite lookup_insert_eq. intros [= <-]. exists n.
    rewrite cell_union_l; [done|]. apply elem_of_dom. by eexists.
Qed.

Lemma staked_insert rs a v n old a' v' :
  staked (<[stake_key a v := stake_row a v n ∪ old]> rs) a' v'
  = if decide (a = a' /\ v = v') then n else staked rs a' v'.
Proof.
  unfold staked. case_decide as Hd.
  - destruct Hd as [<- <-]. rewrite lookup_insert_eq.
    rewrite cell_union_l; [done|]. apply elem_of_dom. by eexists.
  - rewrite lookup_insert_ne; [done|]. intros E%stake_key_inj. by apply Hd.
Qed.

(** Only the [stakes] table of the transaction changes, and its rows become [rs]. *)
Definition stakes_become (w w' : world St) (rs : rows) : Prop :=
  rows_of (w_trx w') stakesTableSchema = rs /\
  (forall tn, tn <> "stakes" -> eng_table (w_trx w') tn = eng_table (w_trx w) tn) /\
  w_auto w' = w_auto w /\ w_base w' = w_base w.

Lemma incrementStakeTrx_ok w a v n :
  let rs := rows_of (w_trx w) stakesTableSchema in
  stakes_ok rs ->
  exists w' rs', incrementStakeTrx (stake_obj a v n) w = (Ok tt, w') /\ stakes_become w w' rs' /\
    stakes_ok rs' /\ (forall k, is_Some (rs !! k) \/ k = stake_key a v -> is_Some (rs' !! k)) /\
    forall a' v', staked rs' a' v' = staked rs a' v' + (if decide (a = a' /\ v = v') then n else 0).
Proof.
  intros rs Hok. pose proof Hok as [Htab Ham].
  destruct (increment_stake (w_trx w) a v n Htab) as (s1 & E1 & Hset1 & Hrest1). fold rs in E1, Hset1.
  unfold incrementStakeTrx. rewrite (M_bind_ok _ _ _ n w) by reflexivity.
  rewrite (M_bind_ok _ _ _ _ _ (write_count_ok Trx _ w _ _ E1)).
  destruct (rs !! stake_key a v) as [r|] eqn:Er; simpl in E1; cbn [option_list length].
  - exists (set_db Trx s1 w), (alter (add_cells [("amount", n)]) (stake_key a v) rs).
    refine (conj eq_refl (conj _ (conj (add_amount_ok _ _ _ Hok) (conj _ _)))).
    + split_and!; [done| |done..]. exact Hrest1.
    + intros k [Hk | ->]; apply lookup_alter_is_Some; [done|by rewrite Er].
    + intros a' v'. by rewrite staked_alter, Er.
  - assert (Hsame : alter (add_cells [("amount", n)]) (stake_key a v) rs = rs).
    { apply map_eq. intros k. destruct (decide (stake_key a v = k)) as [<-|Hne].
      - by rewrite lookup_alter_eq, Er.
      - by rewrite lookup_alter_ne. }
    rewrite Hsame in Hset1.
    destruct (upsert_stake s1 a v n) as (s2 & E2 & Hset2 & Hrest2); [by rewrite Hset1|].
    rewrite Hset1, Er in Hset2. simpl in Hset2.
    exists (set_db Trx s2 w), (<[stake_key a v := stake_row a v n ∪ defaults stakesTableSchema]> rs).
    refine (conj _ (conj _ (conj (stakes_ok_insert _ _ _ _ (defaults stakesTableSchema) Hok eq_refl) (conj _ _)))).
    + apply (write_ok Trx _ (set_db Trx s1 w) s2). by rewrite db_set_db.
    + split_and!; [done| |done..]. intros tn Htn. simpl. by rewrite (Hrest2 tn Htn), (Hrest1 tn Htn).
    + intros k [Hk | ->]; [|by rewrite lookup_insert_eq].
      destruct (decide (stake_key a v = k)) as [<-|Hne]; [by rewrite lookup_insert_eq|by rewrite lookup_insert_ne].
    + intros a' v'. rewrite staked_insert. case_decide as Hd; [|lia]. destruct Hd as [<- <-].
      unfold staked. rewrite Er. lia.
Qed.

Lemma decrementStakeTrx_ok w a v n :
  let rs := rows_of (w_trx w) stakesTableSchema in
  stakes_ok rs -> is_Some (rs !! stake_key a v) ->
  exists w' rs', decrementStakeTrx (stake_obj a v n) w = (Ok tt, w') /\ stakes_become w w' rs' /\
    stakes_ok rs' /\ (forall k, is_Some (rs !! k) -> is_Some (rs' !! k)) /\
    forall a' v', staked rs' a' v' = staked rs a' v' - (if decide (a = a' /\ v = v') then n else 0).
Proof.
  intros rs Hok [r Er]. pose proof Hok as [Htab Ham].
  destruct (decrement_stake (w_trx w) a v n Htab) as (s1 & E1 & Hset1 & Hrest1). fold rs in E1, Hset1.
  unfold decrementStakeTrx. rewrite (M_bind_ok _ _ _ n w) by reflexivity.
  rewrite (M_bind_ok _ _ _ _ _ (write_count_ok Trx _ w _ _ E1)).
  exists (set_db Trx s1 w), (alter (add_cells [("amount", - n)]) (stake_key a v) rs).
  refine (conj eq_refl (conj _ (conj (add_amount_ok _ _ _ Hok) (conj _ _)))).
  - split_and!; [done| |done..]. exact Hrest1.
  - intros k Hk. by apply lookup_alter_is_Some.
  - intros a' v'. rewrite staked_alter, Er by done. case_decide; lia.
Qed.

(** The amount a list of stakes of [a] moves from [a'] to [v']. *)
Fixpoint stake_delta (a : string) (l : list (string * Z)) (a' v' : string) : Z :=
  match l with
  | [] => 0
  | (v, n) :: l => (if decide (a = a' /\ v = v') then n else 0) + stake_delta a l a' v'
  end.

Definition stake_objs (a : string) (l : list (string * Z)) : list obj :=
  (fun vn => stake_obj a (fst vn) (snd vn)) <$> l.

Lemma stakes_become_trans w w1 w2 rs1 rs2 :
  stakes_become w w1 rs1 -> stakes_become w1 w2 rs2 -> stakes_become w w2 rs2.
Proof.
  intros (_ & Hr1 & Ha1 & Hb1) (Hs2 & Hr2 & Ha2 & Hb2). split_and!; [done| |congruence..].
  intros tn Htn. by rewrite (Hr2 tn Htn), (Hr1 tn Htn).
Qed.

Lemma increment_stakes a l w :
  let rs := rows_of (w_trx w) stakesTableSchema in
  stakes_ok rs ->
  exists w' rs', for_each (stake_objs a l) incrementStakeTrx w = (Ok tt, w') /\ stakes_become w w' rs' /\
    stakes_ok rs' /\
    (forall k, is_Some (rs !! k) \/ (exists v, v ∈ (fst <$> l) /\ k = stake_key a v) -> is_Some (rs' !! k)) /\
    forall a' v', staked rs' a' v' = staked rs a' v' + stake_delta a l a' v'.
Proof.
  revert w. induction l as [|[v n] l IH]; intros w rs Hok.
  { exists w, rs. refine (conj eq_refl (conj _ (conj Hok (conj _ _)))).
    - by split_and!.
    - intros k [Hk|(v & Hv & _)]; [done|by apply not_elem_of_nil in Hv].
    - intros. simpl. lia. }
  destruct (incrementStakeTrx_ok w a v n Hok) as (w1 & rs1 & E1 & Hb1 & Hok1 & Hk1 & Hs1).
  destruct (IH w1) as (w2 & rs2 & E2 & Hb2 & Hok2 & Hk2 & Hs2); [by destruct Hb1 as [-> _]|].
  pose proof Hb1 as [Er1 _]. rewrite Er1 in Hk2, Hs2.
  exists w2, rs2. refine (conj _ (conj (stakes_become_trans _ _ _ _ _ Hb1 Hb2) (conj Hok2 (conj _ _)))).
  - cbn [stake_objs fmap list_fmap for_each]. by rewrite (M_bind_ok _ _ _ _ _ E1).
  - intros k Hk. apply Hk2. rewrite fmap_cons in Hk.
    destruct Hk as [Hk|(v' & [->|Hv]%elem_of_cons & ->)]; [left; apply Hk1; auto..|]. right. by exists v'.
  - intros a' v'. rewrite Hs2, Hs1. cbn [stake_delta]. fold rs. lia.
Qed.

Lemma decrement_stakes a l w :
  let rs := rows_of (w_trx w) stakesTableSchema in
  stakes_ok rs -> (forall v, v ∈ (fst <$> l) -> is_Some (rs !! stake_key a v)) ->
  exists w' rs', for_each (stake_objs a l) decrementStakeTrx w = (Ok tt, w') /\ stakes_become w w' rs' /\
    stakes_ok rs' /\ (forall k, is_Some (rs !! k) -> is_Some (rs' !! k)) /\
    forall a' v', staked rs' a' v' = staked rs a' v' - stake_delta a l a' v'.
Proof.
  revert w. induction l as [|[v n] l IH]; intros w rs Hok Hin.
  { exists w, rs. refine (conj eq_refl (conj _ (conj Hok (conj _ _)))); [by split_and!|done|]. intros. simpl. lia. }
  rewrite fmap_cons in Hin.
  destruct (decrementStakeTrx_ok w a v n Hok) as (w1 & rs1 & E1 & Hb1 & Hok1 & Hk1 & Hs1).
  { apply Hin. by left. }
  pose proof Hb1 as [Er1 _].
  destruct (IH w1) as (w2 & rs2 & E2 & Hb2 & Hok2 & Hk2 & Hs2); [by rewrite Er1|..].
  { intros v' Hv'. rewrite Er1. apply Hk1, Hin. by right. }
  rewrite Er1 in Hk2, Hs2.
  exists w2, rs2. refine (conj _ (conj (stakes_become_trans _ _ _ _ _ Hb1 Hb2) (conj Hok2 (conj _ _)))).
  - cbn [stake_objs fmap list_fmap for_each]. by rewrite (M_bind_ok _ _ _ _ _ E1).
  - intros k Hk. apply Hk2, Hk1, Hk.
  - intros a' v'. rewrite Hs2, Hs1. cbn [stake_delta]. fold rs. lia.
Qed.

(** ** The totals *)
Definition stake_total (l : list (string * Z)) : Z := foldr (fun vn t => snd vn + t) 0 l.
Definition stake_self (a : string) (l : list (string * Z)) : Z :=
  foldr (fun vn t => (if decide (a = fst vn) then snd vn else 0) + t) 0 l.

Lemma stake_changes_ok sign a l t u :
  stake_changes sign (stake_objs a l) t u = Ok (t + sign * stake_total l, u + sign * stake_self a l).
Proof.
  revert t u. induction l as [|[v n] l IH]; intros t u; simpl.
  - do 2 f_equal; lia.
  - unfold stake_objs in IH. rewrite IH. do 2 f_equal; [lia|].
    destruct (decide (a = v)) as [->|Hne].
    + rewrite decide_True by done. lia.
    + rewrite decide_False by congruence. lia.
Qed.

(** The key holds the amount [z]; nothing stored is [0]. *)
Definition kv_amount (m : gmap string val) (key : string) (z : Z) : Prop :=
  m !! key = Some (BigI z) \/ m !! key = None /\ z = 0.

Lemma committed_amount_ok w m key z :
  kv_ok prefix (w_auto w) m -> kv_amount m key z -> committed_amount key w = (Ok z, w).
Proof.
  intros Hm Hz. unfold committed_amount.
  rewrite (M_bind_ok _ _ _ (default Undef (m !! key)) w) by (apply read_ok; by apply kv_get_ok).
  unfold lift. destruct Hz as [-> | [-> ->]]; simpl; [|done].
  destruct (Z.eqb_spec z 0) as [->|]; done.
Qed.

(** The token of the PoS module. *)
Definition pos_token (id : string) : Prop :=
  exists c, request_pos_constants = Ok c /\ get c "posTokenID" = Ok (Str id).

Lemma getPosTokenID_ok id : pos_token id -> getPosTokenID = Ok (Str id).
Proof. intros (c & E & Hc). unfold getPosTokenID, getPosConstants. rewrite E. exact Hc. Qed.

Definition total_key (id : string) : string := TOTAL_STAKED +:+ id.
Definition self_key (id : string) : string := TOTAL_SELF_STAKED +:+ id.

Lemma total_keys_differ id : total_key id <> self_key id.
Proof. unfold total_key, self_key, TOTAL_STAKED, TOTAL_SELF_STAKED. by intros [=]. Qed.

(** The transaction's view of the store becomes [m]. *)
Definition kv_becomes (w w' : world St) (m : gmap string val) : Prop :=
  kv_ok prefix (w_trx w') m /\
  (forall tn, tn <> tableName keyValueStoreSchema -> eng_table (w_trx w') tn = eng_table (w_trx w) tn) /\
  w_auto w' = w_auto w /\ w_base w' = w_base w.

Lemma kv_write_total w m key z :
  kv_ok prefix (w_trx w) m ->
  exists w', write Trx (kv_set prefix key (BigI z)) w = (Ok tt, w') /\ kv_becomes w w' (<[key := BigI z]> m).
Proof.
  intros Hm. destruct (kv_set_ok prefix key (BigI z) (w_trx w) m Hm) as (s' & E & Hok & Hrest).
  exists (set_db Trx s' w). split; [by apply write_ok|]. by split_and!.
Qed.

Lemma updateTotals_ok w m mc id dt ds t u :
  pos_token id -> kv_ok prefix (w_trx w) m -> kv_ok prefix (w_auto w) mc ->
  kv_amount mc (total_key id) t -> kv_amount mc (self_key id) u ->
  exists w', (updateTotalStake dt ≫= fun _ => updateTotalSelfStake ds) w = (Ok tt, w') /\
    kv_becomes w w' (<[self_key id := BigI (u + ds)]> (<[total_key id := BigI (t + dt)]> m)).
Proof.
  intros Hid Hm Hmc Ht Hu. pose proof (getPosTokenID_ok id Hid) as Ek.
  destruct (kv_write_total w m (total_key id) (t + dt) Hm) as (w1 & E1 & Hm1 & Hr1 & Ha1 & Hb1).
  destruct (kv_write_total w1 _ (self_key id) (u + ds) Hm1) as (w2 & E2 & Hm2 & Hr2 & Ha2 & Hb2).
  exists w2. split.
  - rewrite (M_bind_ok _ _ w tt w1).
    + unfold updateTotalSelfStake, lift. rewrite Ek. unfold mbind at 1, eff_bind at 1. simpl.
      rewrite (M_bind_ok _ _ w1 u w1); [exact E2|]. apply (committed_amount_ok _ mc); [by rewrite Ha1|exact Hu].
    + unfold updateTotalStake, lift. rewrite Ek. unfold mbind at 1, eff_bind at 1. simpl.
      rewrite (M_bind_ok _ _ w t w); [exact E1|]. by apply (committed_amount_ok _ mc).
  - split_and!; [exact Hm2| |congruence..]. intros tn Htn. by rewrite (Hr2 tn Htn), (Hr1 tn Htn).
Qed.

(** ** Applying and reverting a transaction *)

(** [tx] is a successful stake transaction of [a] with the stakes [l]. *)
Definition stake_tx (tx : obj) (a : string) (l : list (string * Z)) : Prop :=
  prop tx "executionStatus" = SUCCESSFUL /\
  klayr32_of_public_key (prop tx "senderPublicKey") = Ok (Str a) /\
  get (prop tx "params") "stakes" =
    Ok (Arr ((fun vn => Object [("validatorAddress", Str (fst vn)); ("amount", Str (string_of_Z (snd vn)))]) <$> l)).

Lemma getStakeIndexingInfo_ok tx a l :
  stake_tx tx a l -> getStakeIndexingInfo tx = Ok (stake_objs a l).
Proof.
  intros (_ & Ha & Hl). unfold getStakeIndexingInfo. rewrite Hl. simpl. clear Hl.
  apply mapM_result_fmap. intros [v n] _. unfold getKlayr32AddressFromPublicKey. rewrite Ha.
  cbn -[js_BigInt]. by rewrite js_BigInt_String.
Qed.

(** The state of a world the handlers start from. *)
Definition stake_world (w : world St) (m mc : gmap string val) (id : string) (t u : Z) : Prop :=
  stakes_ok (rows_of (w_trx w) stakesTableSchema) /\ kv_ok prefix (w_trx w) m /\ kv_ok prefix (w_auto w) mc /\
  kv_amount mc (total_key id) t /\ kv_amount mc (self_key id) u.

Lemma kv_ok_stakes w w' rs m :
  stakes_become w w' rs -> kv_ok prefix (w_trx w) m -> kv_ok prefix (w_trx w') m.
Proof. intros (_ & Hr & _) Hm. unfold kv_ok, rows_of in *. by rewrite (Hr (tableName keyValueStoreSchema)). Qed.

(** A stake transaction with its staker and its stakes. *)
Abbreviation stake_item := (obj * string * list (string * Z))%type.
Definition stake_item_ok (x : stake_item) : Prop := stake_tx x.1.1 x.1.2 x.2.

(** What the transactions of a block move from [a'] to [v']. *)
Definition block_delta (bs : list stake_item) (a' v' : string) : Z :=
  foldr (fun x z => stake_delta x.1.2 x.2 a' v' + z) 0 bs.

Lemma block_delta_cons x bs a' v' : block_delta (x :: bs) a' v' = stake_delta x.1.2 x.2 a' v' + block_delta bs a' v'.
Proof. done. Qed.

(** The totals as a transaction leaves them: the committed ones, moved by its
    own stakes. *)
Definition set_totals (sign : Z) (id : string) (t u : Z) (m : gmap string val) (x : stake_item) : gmap string val :=
  <[self_key id := BigI (u + sign * stake_self x.1.2 x.2)]> (<[total_key id := BigI (t + sign * stake_total x.2)]> m).

(** From [w] to [w'] the amounts move by the stakes of [bs], and the store of
    the transaction becomes [m']. *)
Definition stakes_moved (sign : Z) (w w' : world St) (bs : list stake_item) (m' : gmap string val) : Prop :=
  let rs := rows_of (w_trx w) stakesTableSchema in
  let rs' := rows_of (w_trx w') stakesTableSchema in
  stakes_ok rs' /\ (forall k, is_Some (rs !! k) -> is_Some (rs' !! k)) /\
  (forall a' v', staked rs' a' v' = staked rs a' v' + sign * block_delta bs a' v') /\
  kv_ok prefix (w_trx w') m' /\ w_auto w' = w_auto w /\ w_base w' = w_base w.

Definition has_stakes (w : world St) (x : stake_item) : Prop :=
  forall v, v ∈ (fst <$> x.2) -> is_Some (rows_of (w_trx w) stakesTableSchema !! stake_key x.1.2 v).

Lemma stake_apply_ok w x m mc id t u :
  stake_item_ok x -> pos_token id -> stake_world w m mc id t u ->
  exists w', stake_applyTransaction x.1.1 w = (Ok tt, w') /\
    stakes_moved 1 w w' [x] (set_totals 1 id t u m x) /\ has_stakes w' x.
Proof.
  destruct x as [[tx a] l]. unfold stake_item_ok, stakes_moved, has_stakes, set_totals. cbn [fst snd block_delta foldr].
  intros Htx Hid (Hok & Hm & Hmc & Ht & Hu). pose proof Htx as (Hst & _).
  destruct (increment_stakes a l w Hok) as (w1 & rs1 & E1 & Hb & Hok1 & Hk1 & Hs1).
  pose proof Hb as (Er1 & _ & Ha1 & Hb1).
  destruct (updateTotals_ok w1 m mc id (stake_total l) (stake_self a l) t u)
    as (w2 & E2 & Hm2 & Hr2 & Ha2 & Hb2); [done|by eapply kv_ok_stakes|by rewrite Ha1|done..|].
  exists w2. unfold stake_applyTransaction. rewrite Hst.
  assert (rows_of (w_trx w2) stakesTableSchema = rs1) as Er2
    by (unfold rows_of; rewrite Hr2 by done; exact Er1).
  rewrite Er2, !Z.mul_1_l. split; [|split; [split_and!; [done|auto| |done|congruence..]|]].
  - rewrite bool_decide_eq_true_2 by done. cbn [negb].
    unfold lift. rewrite (getStakeIndexingInfo_ok tx a l Htx).
    unfold mbind at 1, eff_bind at 1. rewrite (M_bind_ok _ _ _ _ _ E1).
    rewrite stake_changes_ok. unfold mbind at 1, eff_bind at 1. cbn [fst snd].
    replace (0 + 1 * stake_total l) with (stake_total l) by lia.
    replace (0 + 1 * stake_self a l) with (stake_self a l) by lia. exact E2.
  - intros a' v'. rewrite Hs1. lia.
  - intros v Hv. apply Hk1. right. by exists v.
Qed.

Lemma stake_revert_ok w x m mc id t u :
  stake_item_ok x -> pos_token id -> stake_world w m mc id t u -> has_stakes w x ->
  exists w', stake_revertTransaction x.1.1 w = (Ok tt, w') /\
    stakes_moved (-1) w w' [x] (set_totals (-1) id t u m x).
Proof.
  destruct x as [[tx a] l]. unfold stake_item_ok, stakes_moved, has_stakes, set_totals. cbn [fst snd block_delta foldr].
  intros Htx Hid (Hok & Hm & Hmc & Ht & Hu) Hin. pose proof Htx as (Hst & _).
  destruct (decrement_stakes a l w Hok Hin) as (w1 & rs1 & E1 & Hb & Hok1 & Hk1 & Hs1).
  pose proof Hb as (Er1 & _ & Ha1 & Hb1).
  replace (-1 * stake_total l) with (- stake_total l) by lia.
  replace (-1 * stake_self a l) with (- stake_self a l) by lia.
  destruct (updateTotals_ok w1 m mc id (- stake_total l) (- stake_self a l) t u)
    as (w2 & E2 & Hm2 & Hr2 & Ha2 & Hb2); [done|by eapply kv_ok_stakes|by rewrite Ha1|done..|].
  exists w2. unfold stake_revertTransaction. rewrite Hst.
  assert (rows_of (w_trx w2) stakesTableSchema = rs1) as Er2
    by (unfold rows_of; rewrite Hr2 by done; exact Er1).
  rewrite Er2. split; [|split_and!; [done|done| |done|congruence..]].
  - rewrite bool_decide_eq_true_2 by done. cbn [negb].
    unfold lift. rewrite (getStakeIndexingInfo_ok tx a l Htx).
    unfold mbind at 1, eff_bind at 1. rewrite (M_bind_ok _ _ _ _ _ E1).
    rewrite stake_changes_ok. unfold mbind at 1, eff_bind at 1. cbn [fst snd].
    replace (0 + -1 * stake_total l) with (- stake_total l) by lia.
    replace (0 + -1 * stake_self a l) with (- stake_self a l) by lia. exact E2.
  - intros a' v'. rewrite Hs1. lia.
Qed.

(** *** The stake transactions of a block, one after the other *)
Lemma stakes_moved_world sign w w' bs m' mc id t u :
  stakes_moved sign w w' bs m' -> kv_ok prefix (w_auto w) mc ->
  kv_amount mc (total_key id) t -> kv_amount mc (self_key id) u -> stake_world w' m' mc id t u.
Proof. intros (Hok & _ & _ & Hm & Ha & _) Hmc Ht Hu. split_and!; try done. by rewrite Ha. Qed.

Lemma stakes_moved_cons sign w w1 w2 x bs m1 m2 :
  stakes_moved sign w w1 [x] m1 -> stakes_moved sign w1 w2 bs m2 -> stakes_moved sign w w2 (x :: bs) m2.
Proof.
  intros (_ & Hk1 & Hs1 & _ & Ha1 & Hb1) (Hok2 & Hk2 & Hs2 & Hm2 & Ha2 & Hb2).
  split_and!; [done|auto| |done|congruence..].
  intros a' v'. rewrite Hs2, Hs1, !block_delta_cons. cbn [block_delta foldr]. lia.
Qed.

Lemma stakes_apply_all bs w m mc id t u :
  Forall stake_item_ok bs -> pos_token id -> stake_world w m mc id t u ->
  exists w', for_each ((fun x => x.1.1) <$> bs) stake_applyTransaction w = (Ok tt, w') /\
    stakes_moved 1 w w' bs (foldl (set_totals 1 id t u) m bs) /\ Forall (has_stakes w') bs.
Proof.
  intros Hbs Hid. revert w m. induction Hbs as [|x bs Hx _ IH]; intros w m Hw; pose proof Hw as (Hok & Hm & Hmc & Ht & Hu).
  { exists w. split; [done|]. split; [|done]. split_and!; try done. intros. simpl. lia. }
  destruct (stake_apply_ok w x m mc id t u Hx Hid Hw) as (w1 & E1 & Hm1 & Hh1).
  destruct (IH w1 (set_totals 1 id t u m x)) as (w2 & E2 & Hm2 & Hh2); [by eapply stakes_moved_world|].
  exists w2. split; [|split; [by eapply stakes_moved_cons|]].
  - cbn [fmap list_fmap for_each]. by rewrite (M_bind_ok _ _ _ _ _ E1).
  - constructor; [|done]. intros v Hv. apply Hm2. by apply Hh1.
Qed.

Lemma stakes_revert_all bs w m mc id t u :
  Forall stake_item_ok bs -> pos_token id -> stake_world w m mc id t u -> Forall (has_stakes w) bs ->
  exists w', for_each ((fun x => x.1.1) <$> bs) stake_revertTransaction w = (Ok tt, w') /\
    stakes_moved (-1) w w' bs (foldl (set_totals (-1) id t u) m bs).
Proof.
  intros Hbs Hid. revert w m. induction Hbs as [|x bs Hx _ IH]; intros w m Hw Hh; pose proof Hw as (Hok & Hm & Hmc & Ht & Hu).
  { exists w. split; [done|]. split_and!; try done. intros. simpl. lia. }
  apply Forall_cons in Hh as [Hhx Hh].
  destruct (stake_revert_ok w x m mc id t u Hx Hid Hw Hhx) as (w1 & E1 & Hm1).
  destruct (IH w1 (set_totals (-1) id t u m x)) as (w2 & E2 & Hm2); [by eapply stakes_moved_world|..].
  { eapply Forall_impl; [exact Hh|]. intros y Hy v Hv. apply Hm1. by apply Hy. }
  exists w2. split; [|by eapply stakes_moved_cons].
  cbn [fmap list_fmap for_each]. by rewrite (M_bind_ok _ _ _ _ _ E1).
Qed.

(** The last transaction decides the totals. *)
Lemma totals_last sign id t u m bs x :
  last bs = Some x ->
  foldl (set_totals sign id t u) m bs !! total_key id = Some (BigI (t + sign * stake_total x.2)) /\
  foldl (set_totals sign id t u) m bs !! self_key id = Some (BigI (u + sign * stake_self x.1.2 x.2)).
Proof.
  intros Hx. destruct bs as [|y bs _] using rev_ind; [done|]. rewrite last_snoc in Hx. simplify_eq.
  rewrite foldl_app. cbn [foldl]. unfold set_totals at 1 3. pose proof (total_keys_differ id).
  by rewrite lookup_insert_ne, !lookup_insert_eq by done.
Qed.

Lemma block_delta_perm bs bs' a v : bs ≡ₚ bs' -> block_delta bs a v = block_delta bs' a v.
Proof. induction 1; rewrite ?block_delta_cons in *; lia. Qed.

(** The transaction is committed and a later one starts. *)
Definition next_trx : M St unit := commitDBTransaction ≫= fun _ => startDBTransaction.

(** Nobody else has changed the stakes and the totals since the transaction
    started. *)
Definition alone (w : world St) : Prop :=
  forall tn, tn = "stakes" \/ tn = tableName keyValueStoreSchema -> eng_table (w_auto w) tn = eng_table (w_base w) tn.

Lemma next_trx_alone w :
  alone w -> exists w', next_trx w = (Ok tt, w') /\
    (forall tn, tn = "stakes" \/ tn = tableName keyValueStoreSchema ->
       eng_table (w_trx w') tn = eng_table (w_trx w) tn /\ eng_table (w_auto w') tn = eng_table (w_trx w) tn).
Proof.
  intros Ha. eexists. split; [reflexivity|]. intros tn Htn. cbn.
  by rewrite (commit_table _ _ _ tn (Ha tn Htn)).
Qed.


End Stake.

(** ** Examples *)
Definition empty_world : world MemDB := mkWorld ∅ ∅ ∅ [] ∅.

Definition sample_stake (v : string) (n : Z) : obj :=
  [("executionStatus", SUCCESSFUL); ("senderPublicKey", Str "alice");
   ("params", Object [("stakes", Arr [Object [("validatorAddress", Str v); ("amount", Str (string_of_Z n))]])])].

Lemma empty_stake_world id : stake_world "p" empty_world ∅ ∅ id 0 0.
Proof.
  assert (rows_of (∅ : MemDB) stakesTableSchema = ∅) as E by reflexivity.
  refine (conj _ (conj (kv_ok_empty "p") (conj (kv_ok_empty "p") (conj _ _)))); [|by right..].
  split; [by apply (db_ok_empty [stakesTableSchema]); left|]. intros k r. cbn [w_trx empty_world].
  by rewrite E, lookup_empty.
Qed.


(** Two stake transactions of one database transaction: the second reads the
    committed total, without the first, so the first is lost from the total
    while both are in the [stakes] table. *)
Definition two_stakes : result unit * world MemDB :=
  (stake_applyTransaction (H1 := sample_node) "p" (sample_stake "bob" 70) ≫= fun _ =>
   stake_applyTransaction (H1 := sample_node) "p" (sample_stake "carol" 30)) empty_world.

Lemma stake_total_lost_update :
  fst two_stakes = Ok tt /\
  staked (rows_of (w_trx (snd two_stakes)) stakesTableSchema) "alice" "bob" = 70 /\
  staked (rows_of (w_trx (snd two_stakes)) stakesTableSchema) "alice" "carol" = 30 /\
  kv_get "p" (total_key "0400000100000000") (w_trx (snd two_stakes)) = Ok (BigI 30).
Proof. split_and!; vm_compute; reflexivity. Qed.
