(* ===== verification/Rewards.v ===== *)
(** * indexer/utils/validator.js: how a block reward is split

    The generator takes its commission, and of the rest the share of its own
    stake.  The fixed-point numbers of [@klayr/utils] are the class [Q96]. *)
From S2P Require Import Prelude JsValue Database Engine Table World Schemas KvStore Chain Stake.
Local Open Scope Z_scope.

(** [math.q96] of [@klayr/utils]: 96 fractional bits. *)
Class Q96 := {
  q : Type;
  q96 : Z -> q;
  q_muldiv : q -> q -> q -> q;
  q_sub : q -> q -> q;
  q_floor : q -> Z;
}.

Class Q96Laws `{Q96} := {
  q_floor_muldiv x a b :
    0 <= x -> 0 <= a -> 0 < b -> q_floor (q_muldiv (q96 x) (q96 a) (q96 b)) = x * a / b;
  q_sub_int x y : q_sub (q96 x) (q96 y) = q96 (x - y);
}.

#[export] Instance RawQ96 : Q96 := {
  q := Z;
  q96 x := x * 2 ^ 96;
  q_muldiv x a b := x * a / b;
  q_sub x y := x - y;
  q_floor x := x / 2 ^ 96;
}.

#[export] Instance RawQ96Laws : Q96Laws.
Proof.
  split; intros; cbn [q96 q_muldiv q_sub q_floor RawQ96]; [|lia].
  replace (x * 2 ^ 96 * (a * 2 ^ 96)) with (x * a * 2 ^ 96 * 2 ^ 96) by lia.
  rewrite Z.div_mul_cancel_r by lia. rewrite Z.div_div by lia.
  rewrite Z.div_mul_cancel_r by lia. done.
Qed.

Definition MAX_COMMISSION : Z := 10000.

Section Rewards.
Context {St : Type} `{SqlLaws St} `{Q96Laws}.

Definition commission_query (generatorAddress : string) (blockHeight : Z) : obj :=
  [("address", Str generatorAddress);
   ("propBetweens", Arr [Object [("property", Str "height"); ("lowerThan", Num blockHeight)]]);
   ("sort", Str "height:desc"); ("limit", Num 1)].

Definition calcCommissionAmount (generatorAddress : string) (blockHeight blockReward : Z) : M St Z :=
  rows ← read Auto (find commissionsTableSchema (commission_query generatorAddress blockHeight)
                      (Arr [Str "commission"]));
  let commission := match rows with row :: _ => prop row "commission" | [] => Num 0 end in
  c ← lift (js_BigInt commission);
  ret (q_floor (q_muldiv (q96 blockReward) (q96 c) (q96 MAX_COMMISSION))).

(** [l.reduce((a, b) => ({ amount: BigInt(a.amount) + BigInt(b.amount) }), { amount: 0 }).amount] *)
Definition sum_amounts (l : list obj) : result Z :=
  foldM (fun acc row => n ← js_BigInt (prop row "amount"); Ok (acc + n)) 0 l.

Definition calcSelfStakeReward (generatorAddress : string) (blockReward commissionAmount : Z) : M St Z :=
  stakerInfo ← read Auto (find stakesTableSchema [("validatorAddress", Str generatorAddress)]
                            (Arr [Str "stakerAddress"; Str "amount"]));
  match stakerInfo with
  | [] => ret 0
  | _ =>
      selfStakes ← lift (sum_amounts (filter (fun s => prop s "stakerAddress" = Str generatorAddress) stakerInfo));
      totalStakes ← lift (sum_amounts stakerInfo);
      if totalStakes <=? 0 then ret 0
      else
        let remBlockRewardQ := q_sub (q96 blockReward) (q96 commissionAmount) in
        ret (q_floor (q_muldiv remBlockRewardQ (q96 selfStakes) (q96 totalStakes)))
  end.

(** ** The amounts *)

(** Recorded commissions are percentages in hundredths, and stakes are not negative. *)
Definition commissions_ok (rs : rows) : Prop :=
  forall k r, rs !! k = Some r -> exists z, cell r "commission" = SStr (string_of_Z z) /\ 0 <= z <= MAX_COMMISSION.

Definition stakes_nonneg (rs : rows) : Prop :=
  forall k r, rs !! k = Some r -> exists z, cell r "amount" = SInt z /\ 0 <= z.

Lemma matching_elem (qq : list clause) (rs : rows) r :
  r ∈ matching qq rs -> exists k, rs !! k = Some r.
Proof.
  unfold matching. rewrite list_elem_of_filter, list_elem_of_fmap.
  intros (_ & [k r'] & -> & Hin%elem_of_map_to_list). by exists k.
Qed.

(** What a query returns are projections of rows of the table. *)
Lemma select_rows (t : table) (s : St) qq :
  supported qq = true ->
  exists l, eng_select t qq s = Ok (project qq <$> l) /\
    Forall (fun r => exists k, rows_of s t !! k = Some r) l.
Proof.
  intros Hs. destruct (select_law t qq s Hs) as (l & Hp & _ & E). exists (take_limit qq l). split; [done|].
  apply Forall_forall. intros r Hr. eapply matching_elem. rewrite <- Hp.
  assert (Hd : r ∈ drop (offset_of qq) l).
  { unfold take_limit in Hr. destruct (limit_of qq); [|done]. by eapply elem_of_take in Hr as (? & ? & _);
      eapply list_elem_of_lookup_2. }
  by apply subseteq_drop in Hd.
Qed.

Lemma sum_amounts_ok (l : list obj) :
  Forall (fun o => exists z, prop o "amount" = Num z /\ 0 <= z) l ->
  exists n, sum_amounts l = Ok n /\ 0 <= n.
Proof.
  unfold sum_amounts. intros Hl.
  assert (forall acc, 0 <= acc -> exists n,
    foldM (fun acc row => n ← js_BigInt (prop row "amount"); Ok (acc + n)) acc l = Ok n /\ acc <= n) as Hgen.
  { induction Hl as [|o l (z & Hz & Hpos) _ IH]; intros acc Hacc; simpl; [by exists acc|].
    rewrite Hz. simpl. destruct (IH (acc + z)) as (n & -> & Hn); [lia|]. exists n. split; [done|lia]. }
  destruct (Hgen 0) as (n & E & Hn); [lia|]. by exists n.
Qed.

(** A part of the stakes sums to at most all of them. *)
Lemma sum_filter_le (l : list obj) (P : obj -> Prop) `{forall x, Decision (P x)} n m :
  Forall (fun o => exists z, prop o "amount" = Num z /\ 0 <= z) l ->
  sum_amounts (filter P l) = Ok n -> sum_amounts l = Ok m -> n <= m.
Proof.
  unfold sum_amounts. intros Hl.
  assert (forall a b, a <= b -> forall n m,
    foldM (fun acc row => n ← js_BigInt (prop row "amount"); Ok (acc + n)) a (filter P l) = Ok n ->
    foldM (fun acc row => n ← js_BigInt (prop row "amount"); Ok (acc + n)) b l = Ok m -> n <= m) as Hgen.
  { clear n m. induction Hl as [|o l (z & Hz & Hpos) _ IH]; intros a b Hab n m; simpl.
    { intros [= <-] [= <-]. done. }
    rewrite filter_cons. rewrite Hz. case_decide; simpl; [rewrite Hz; simpl|].
    - apply IH. lia.
    - apply IH. lia. }
  apply Hgen. done.
Qed.

Lemma calcCommissionAmount_ok w g h reward :
  commissions_ok (rows_of (w_auto w) commissionsTableSchema) -> 0 <= reward ->
  exists c, calcCommissionAmount g h reward w = (Ok c, w) /\ 0 <= c <= reward.
Proof.
  intros Hc Hr. unfold calcCommissionAmount, find.
  set (qq := [KSelect (Arr [Str "commission"]); KWhereNotNull "height"; KSelect (Str "height");
              KOrderBy "height" (Str "desc"); KLimit (Num 1); KWhere (Object [("address", Str g)]);
              KWhereOp "height" "<" (Num h)]).
  destruct (select_rows commissionsTableSchema (w_auto w) qq eq_refl) as (l & E & Hl).
  rewrite (M_bind_ok _ _ _ _ _ (read_ok Auto _ w _ E)).
  assert (exists z, js_BigInt match project qq <$> l with row :: _ => prop row "commission" | [] => Num 0 end
    = Ok z /\ 0 <= z <= MAX_COMMISSION) as (z & Ez & Hz).
  { destruct Hl as [|r l (k & Hk) _]; simpl; [exists 0; split; [done|unfold MAX_COMMISSION; lia]|].
    destruct (Hc _ _ Hk) as (z & Hz & Hb). exists z. split; [|done].
    rewrite Hz. apply js_BigInt_String. }
  unfold lift. rewrite Ez. unfold mbind, eff_bind.
  eexists. split; [reflexivity|]. rewrite q_floor_muldiv by (unfold MAX_COMMISSION in *; lia).
  split; [apply Z.div_pos; unfold MAX_COMMISSION in *; nia|].
  apply Z.div_le_upper_bound; unfold MAX_COMMISSION in *; nia.
Qed.

Lemma calcSelfStakeReward_ok w g reward c :
  stakes_nonneg (rows_of (w_auto w) stakesTableSchema) -> 0 <= c <= reward ->
  exists x, calcSelfStakeReward g reward c w = (Ok x, w) /\ 0 <= x <= reward - c.
Proof.
  intros Hs Hc. unfold calcSelfStakeReward, find.
  set (qq := [KSelect (Arr [Str "stakerAddress"; Str "amount"]); KWhere (Object [("validatorAddress", Str g)])]).
  destruct (select_rows stakesTableSchema (w_auto w) qq eq_refl) as (l & E & Hl).
  rewrite (M_bind_ok _ _ _ _ _ (read_ok Auto _ w _ E)).
  set (info := project qq <$> l).
  assert (Forall (fun o => exists z, prop o "amount" = Num z /\ 0 <= z) info) as Hinfo.
  { apply Forall_fmap. eapply Forall_impl; [exact Hl|]. intros r (k & Hk).
    destruct (Hs _ _ Hk) as (z & Hz & Hpos). exists z. split; [|done]. simpl. by rewrite Hz. }
  clearbody info. clear Hl E. destruct info as [|o info]; [exists 0; split; [done|lia]|].
  set (all := o :: info) in *.
  destruct (sum_amounts_ok all Hinfo) as (t & Et & Ht).
  destruct (sum_amounts_ok (filter (fun s => prop s "stakerAddress" = Str g) all)) as (u & Eu & Hu).
  { apply Forall_forall. intros x [_ Hx]%list_elem_of_filter. rewrite Forall_forall in Hinfo. auto. }
  pose proof (sum_filter_le _ _ _ _ Hinfo Eu Et) as Hle.
  unfold lift. rewrite Eu, Et. unfold mbind, eff_bind.
  destruct (Z.leb_spec t 0) as [Hz|Hz]; [exists 0; split; [done|lia]|].
  eexists. split; [reflexivity|]. rewrite q_sub_int, q_floor_muldiv by lia. split.
  - apply Z.div_pos; nia.
  - apply Z.div_le_upper_bound; nia.
Qed.

(** The split of a block reward never pays out more than the reward:
    the commission and the reward of the generator's own stake are computed,
    are not negative, and together are at most the block reward. *)
Theorem reward_split_bounded (w : world St) (g : string) (h reward : Z) :
  commissions_ok (rows_of (w_auto w) commissionsTableSchema) ->
  stakes_nonneg (rows_of (w_auto w) stakesTableSchema) -> 0 <= reward ->
  exists c x, calcCommissionAmount g h reward w = (Ok c, w) /\
    calcSelfStakeReward g reward c w = (Ok x, w) /\ 0 <= c /\ 0 <= x /\ c + x <= reward.
Proof.
  intros Hc Hs Hr. destruct (calcCommissionAmount_ok w g h reward Hc Hr) as (c & Ec & Hcb).
  destruct (calcSelfStakeReward_ok w g reward c Hs Hcb) as (x & Ex & Hxb).
  exists c, x. split_and!; [done|done|lia..].
Qed.

End Rewards.

(** ** Examples *)
Definition commission_rows (l : list (string * Z * Z)) : MemDB :=
  foldl (fun s x => match upsert commissionsTableSchema
      (Object [("address", Str (fst (fst x))); ("height", Num (snd (fst x))); ("commission", Num (snd x))]) s with
    | Ok s => s | Throw _ => s end) (∅ : MemDB) l.

Lemma reward_split_bounded_witness :
  exists c x, calcCommissionAmount "gen" 100 1000 (empty_world) = (Ok c, empty_world) /\
    calcSelfStakeReward "gen" 1000 c empty_world = (Ok x, empty_world) /\ 0 <= c /\ 0 <= x /\ c + x <= 1000.
Proof.
  apply (reward_split_bounded empty_world "gen" 100 1000).
  - intros k r. unfold rows_of, empty_world. simpl. unfold mem_rows. rewrite lookup_empty. simpl.
    rewrite lookup_empty. discriminate.
  - intros k r. unfold rows_of, empty_world. simpl. unfold mem_rows. rewrite lookup_empty. simpl.
    rewrite lookup_empty. discriminate.
  - lia.
Defined.

(** The [height] column of [commissions] is text, so the latest commission is
    chosen in alphabetical order: of commissions set at heights 9 and 10, a
    block at height 11 uses the older one. *)
Lemma commission_order_alphabetical :
  let s := commission_rows [("gen", 9, 2000); ("gen", 10, 0)] in
  fst (calcCommissionAmount "gen" 11 1000 (mkWorld s s ∅ [] s)) = Ok 200.
Proof. vm_compute. reflexivity. Qed.
