(* ===== verification/Balances.v ===== *)
(** * indexer/accountBalanceIndex.js: which balances to refresh, and refreshing them

    Token events name the addresses whose balances changed.  They wait in a
    Redis set; [triggerAccountsBalanceUpdate] takes some of them, asks the
    node for the balances and stores them. *)
From S2P Require Import Prelude JsValue Database Engine Table World Schemas KvStore Chain.
From Stdlib Require Import Ascii.
Local Open Scope Z_scope.

(** ** Addresses in events *)
Definition ascii_lower (c : ascii) : ascii :=
  let n := nat_of_ascii c in
  if (Nat.leb 65 n && Nat.leb n 90)%bool then ascii_of_nat (n + 32) else c.

(** [s.toLowerCase()], on ASCII text. *)
Fixpoint toLowerCase (s : string) : string :=
  match s with
  | EmptyString => EmptyString
  | String c s => String (ascii_lower c) (toLowerCase s)
  end.

(** The entries of one event's data. *)
Definition event_addresses (eventData : obj) : list string :=
  '(key, address) ← eventData;
  if str_includes "address" (toLowerCase key) then
    let tokenID := if truthy (prop eventData "tokenID") then prop eventData "tokenID"
                   else prop eventData "messageFeeTokenID" in
    [if truthy tokenID then js_String address +:+ "_" +:+ js_String tokenID else js_String address]
  else [].

Definition getAddressesFromTokenEvents (events : list val) : result (list string) :=
  tokenModuleEvents ← js_filter (fun event =>
    if truthy event then prop_is event "module" (Str "token") else Ok false) events;
  l ← mapM_result (fun event =>
    d ← get event "data";
    match d with
    | Null => Throw "Cannot convert undefined or null to object"
    | _ => Ok (event_addresses (as_obj d))
    end) tokenModuleEvents;
  Ok (concat l).

(** ** Refreshing *)
Section Balances.
Context {St : Type} `{SqlLaws St}.

(** [getTokenBalances(params)], answered by the node; [config.set.accountBalanceUpdate.name]. *)
Variable getTokenBalances : obj -> result val.
Definition BALANCE_SET : string := "AccountBalanceUpdate".

Definition scheduleAddressesBalanceUpdate (addressTokens : list string) : M St unit :=
  match addressTokens with [] => ret tt | _ => sadd BALANCE_SET addressTokens end.

Definition balance_row (address : string) (balanceInfo : val) : result obj :=
  tokenID ← get balanceInfo "tokenID";
  availableBalance ← get balanceInfo "availableBalance";
  lockedBalances ← get balanceInfo "lockedBalances";
  locked ← elements lockedBalances;
  totalLockedBalance ← foldM (fun acc entry => a ← get entry "amount"; n ← js_BigInt a; Ok (acc + n)) 0 locked;
  available ← js_BigInt availableBalance;
  Ok [("address", Str address); ("tokenID", tokenID); ("balance", BigI (available + totalLockedBalance))].

Definition balance_params (addressTokenID : string) : obj :=
  match js_split "_" addressTokenID with
  | address :: cTokenID :: _ =>
      if String.eqb cTokenID "" then [("address", Str address)]
      else [("address", Str address); ("tokenID", Str cTokenID)]
  | address :: _ => [("address", Str address)]
  | [] => [("address", Undef)]
  end.

Definition updateAccountBalances (addressTokenID : string) : M St unit :=
  let params := balance_params addressTokenID in
  response ← lift (getTokenBalances params);
  data ← lift (get response "data");
  balanceInfos ← lift (elements data);
  updatedTokenBalances ← lift (mapM_result (balance_row (js_String (prop params "address"))) balanceInfos);
  write Auto (upsert accountBalancesTableSchema (Arr (Object <$> updatedTokenBalances))).

(** The loop of [triggerAccountsBalanceUpdate]: [shift] an entry, update it; on
    an error the entry is pushed back and the loop stops.  Returns the entries
    that were updated and those that are left. *)
Fixpoint balance_loop (entries done : list string) : M St (list string * list string) := fun w =>
  match entries with
  | [] => (Ok (done, []), w)
  | addressToken :: entries =>
      match updateAccountBalances addressToken w with
      | (Ok _, w') => balance_loop entries (done ++ [addressToken]) w'
      | (Throw _, w') => (Ok (done, entries ++ [addressToken]), w')
      end
  end.

(** [popped] is what [redis.spop] removed from the set. *)
Definition triggerAccountsBalanceUpdate (popped : list string) : M St (list string) :=
  r ← balance_loop popped [];
  scheduleAddressesBalanceUpdate (snd r) ≫= fun _ => ret (fst r).

(** The addresses waiting for an update. *)
Definition waiting (w : world St) : gset string := default ∅ (w_redis w !! BALANCE_SET).

(** *** What the node answers *)
Record token_balance := TokenBalance { tb_token : string; tb_available : Z; tb_locked : list Z }.

Definition balance_val (b : token_balance) : val :=
  Object [("tokenID", Str (tb_token b)); ("availableBalance", Str (string_of_Z (tb_available b)));
          ("lockedBalances", Arr ((fun n => Object [("amount", Str (string_of_Z n))]) <$> tb_locked b))].

(** What a token is worth to its owner: the available and the locked part. *)
Definition tb_total (b : token_balance) : Z := tb_available b + foldr Z.add 0 (tb_locked b).

(** The node answers the request for the entry [a] with the balances [bs]. *)
Definition answered (a : string) (bs : list token_balance) : Prop :=
  exists v, getTokenBalances (balance_params a) = Ok v /\ get v "data" = Ok (Arr (balance_val <$> bs)).

(** Every answer is an error or a list of balances. *)
Hypothesis node_answers : forall a, (exists e, getTokenBalances (balance_params a) = Throw e) \/ exists bs, answered a bs.

Definition address_of (a : string) : string := js_String (prop (balance_params a) "address").

Definition stored_balance (address : string) (b : token_balance) : obj :=
  [("address", Str address); ("tokenID", Str (tb_token b)); ("balance", BigI (tb_total b))].

Lemma sum_locked_amounts l acc :
  foldM (fun acc entry => a ← get entry "amount"; n ← js_BigInt a; Ok (acc + n)) acc
    ((fun n => Object [("amount", Str (string_of_Z n))]) <$> l) = Ok (acc + foldr Z.add 0 l).
Proof.
  revert acc. induction l as [|n l IH]; intros acc; [simpl; f_equal; lia|].
  rewrite fmap_cons. cbn [foldM foldr]. change (get (Object [("amount", Str (string_of_Z n))]) "amount") with (Ok (Str (string_of_Z n))).
  rewrite bind_ok, js_BigInt_String, !bind_ok, IH. f_equal. lia.
Qed.

Lemma balance_row_ok address b : balance_row address (balance_val b) = Ok (stored_balance address b).
Proof.
  unfold balance_row, balance_val. cbn -[js_BigInt foldM]. rewrite sum_locked_amounts, bind_ok, js_BigInt_String, bind_ok.
  unfold stored_balance, tb_total. by rewrite Z.add_0_l.
Qed.

(** *** What is stored *)
Definition balances_table (w : world St) : rows := rows_of (w_auto w) accountBalancesTableSchema.
Definition balance_in (rs : rows) (address token : string) : option sql :=
  (fun r => cell r "balance") <$> rs !! [SStr address; SStr token].

(** The last of the balances written for an address and a token. *)
Definition last_balance (l : list (string * token_balance)) (address token : string) : option Z :=
  last (omap (fun ab => if decide (fst ab = address /\ tb_token (snd ab) = token) then Some (tb_total (snd ab)) else None) l).

Definition written (a : string) (bs : list token_balance) : list (string * token_balance) := pair (address_of a) <$> bs.

Definition insert_balances (rs : rows) (l : list (string * token_balance)) : rows :=
  foldl (insert_row accountBalancesTableSchema) rs ((fun ab => stored_balance (fst ab) (snd ab)) <$> l).

Lemma balance_in_insert rs a b address token :
  balance_in (insert_row accountBalancesTableSchema rs (stored_balance a b)) address token
  = if decide (a = address /\ tb_token b = token) then Some (SInt (tb_total b)) else balance_in rs address token.
Proof.
  unfold balance_in, insert_row.
  change (key_of accountBalancesTableSchema (row_of (stored_balance a b))) with [SStr a; SStr (tb_token b)].
  case_decide as Hd.
  - destruct Hd as [<- <-]. rewrite lookup_insert_eq. cbn. f_equal. rewrite cell_union_l; [done|].
    apply elem_of_dom. by eexists.
  - rewrite lookup_insert_ne; [done|]. intros [= E1 E2]. by apply Hd.
Qed.

Lemma balance_in_inserts rs l address token :
  balance_in (insert_balances rs l) address token
  = match last_balance l address token with Some z => Some (SInt z) | None => balance_in rs address token end.
Proof.
  unfold insert_balances, last_balance. revert rs. induction l as [|[a b] l IH] using rev_ind; intros rs; [done|].
  rewrite fmap_app, foldl_app, omap_app. cbn [fmap list_fmap foldl omap list_omap fst snd].
  rewrite balance_in_insert, IH. case_decide; [by rewrite last_snoc|by rewrite app_nil_r].
Qed.

(** The balances of one entry are stored, and nothing else changes. *)
Definition stores (w w' : world St) (l : list (string * token_balance)) : Prop :=
  balances_table w' = insert_balances (balances_table w) l /\ w_redis w' = w_redis w /\ w_trx w' = w_trx w /\
  forall tn, tn <> tableName accountBalancesTableSchema -> eng_table (w_auto w') tn = eng_table (w_auto w) tn.

Lemma stores_trans w w1 w2 l1 l2 : stores w w1 l1 -> stores w1 w2 l2 -> stores w w2 (l1 ++ l2).
Proof.
  intros (T1 & R1 & X1 & F1) (T2 & R2 & X2 & F2). split_and!; [|congruence..|].
  - rewrite T2, T1. unfold insert_balances. by rewrite fmap_app, foldl_app.
  - intros tn Htn. by rewrite (F2 tn Htn), (F1 tn Htn).
Qed.

Lemma updateAccountBalances_ok a bs w : answered a bs ->
  exists w', updateAccountBalances a w = (Ok tt, w') /\ stores w w' (written a bs).
Proof.
  intros (v & Ev & Ed). unfold updateAccountBalances. cbv zeta. fold (address_of a).
  set (objs := stored_balance (address_of a) <$> bs).
  destruct (upsert_items accountBalancesTableSchema objs objs (w_auto w)) as (s & Es & Hs & Hf).
  { unfold mapRowsBySchema, objs. clear. induction bs as [|b bs IH]; [done|].
    rewrite fmap_cons. cbn [mapM_result]. assert (mapRowBySchema (stored_balance (address_of a) b) (schema accountBalancesTableSchema)
      = Ok (stored_balance (address_of a) b)) as -> by reflexivity. by rewrite bind_ok, IH. }
  { apply Forall_fmap, Forall_true. by intros b. }
  exists (set_db Auto s w). split.
  - unfold lift at 1. rewrite Ev. unfold mbind at 1, eff_bind at 1. unfold lift at 1. rewrite Ed.
    unfold mbind at 1, eff_bind at 1. unfold lift at 1. cbn [elements]. unfold mbind at 1, eff_bind at 1. unfold lift at 1.
    rewrite (mapM_result_fmap (balance_row (address_of a)) balance_val (stored_balance (address_of a)) bs)
      by (intros; apply balance_row_ok).
    unfold mbind at 1, eff_bind at 1. by apply write_ok.
  - split_and!; [|done|done|exact Hf]. unfold balances_table, insert_balances, written. cbn [set_db w_auto].
    rewrite Hs, <- list_fmap_compose. done.
Qed.

Lemma updateAccountBalances_fails a e w :
  getTokenBalances (balance_params a) = Throw e -> updateAccountBalances a w = (Throw e, w).
Proof. intros E. unfold updateAccountBalances, lift, mbind, eff_bind. by rewrite E. Qed.

Definition all_written (l : list (string * list token_balance)) : list (string * token_balance) :=
  abs ← l; written (fst abs) (snd abs).

Lemma balance_loop_ok entries acc w :
  exists fresh left w', balance_loop entries acc w = (Ok (acc ++ (fst <$> fresh), left), w') /\
    entries ≡ₚ (fst <$> fresh) ++ left /\ stores w w' (all_written fresh) /\
    Forall (fun abs => answered (fst abs) (snd abs)) fresh /\
    (left = [] \/ exists a e, a ∈ left /\ getTokenBalances (balance_params a) = Throw e).
Proof.
  revert acc w. induction entries as [|a entries IH]; intros acc w; cbn [balance_loop].
  { exists [], [], w. rewrite app_nil_r. split_and!; auto; done. }
  destruct (node_answers a) as [[e E]|[bs Hbs]].
  - rewrite (updateAccountBalances_fails a e w E). exists [], (entries ++ [a]), w. rewrite app_nil_r.
    split_and!; auto; try done.
    + apply Permutation_cons_append.
    + right. exists a, e. split; [|done]. apply elem_of_app. right. by left.
  - destruct (updateAccountBalances_ok a bs w Hbs) as (w1 & E1 & S1). rewrite E1.
    destruct (IH (acc ++ [a]) w1) as (fresh & left & w' & E & Hp & Hs & Hf & Hl).
    exists ((a, bs) :: fresh), left, w'. rewrite E, <- app_assoc. split_and!; auto.
    + simpl. by rewrite <- Hp.
    + by apply (stores_trans w w1).
Qed.

(** [C16] No balance update is lost.  The node answers every request with an
    error or with a list of balances.  [triggerAccountsBalanceUpdate] ends
    without an error; every address taken from the set is either updated or
    waiting again, at most once each, and addresses that were waiting stay;
    one waits again only if the node failed for one of them.  What the node
    answered for the updated addresses is in the table of balances: the
    balance of an address and a token is the available and locked amount of
    the last answer about them, or what it was without such an answer; no other
    table changes. *)
Theorem balance_updates_not_lost (popped : list string) (w : world St) :
  exists fresh left w', triggerAccountsBalanceUpdate popped w = (Ok (fst <$> fresh), w') /\
    popped ≡ₚ (fst <$> fresh) ++ left /\ waiting w' = list_to_set left ∪ waiting w /\
    (left = [] \/ exists a e, a ∈ left /\ getTokenBalances (balance_params a) = Throw e) /\
    Forall (fun abs => answered (fst abs) (snd abs)) fresh /\
    (forall address token, balance_in (balances_table w') address token =
       match last_balance (all_written fresh) address token with
       | Some z => Some (SInt z)
       | None => balance_in (balances_table w) address token
       end) /\
    forall tn, tn <> tableName accountBalancesTableSchema -> eng_table (w_auto w') tn = eng_table (w_auto w) tn.
Proof.
  destruct (balance_loop_ok popped [] w) as (fresh & left & w' & E & Hp & (Ht & Hw & _ & Hr) & Hf & Hl).
  unfold triggerAccountsBalanceUpdate. rewrite (M_bind_ok _ _ _ _ _ E). cbn [fst snd app].
  exists fresh, left, (snd (scheduleAddressesBalanceUpdate left w')).
  assert (w_auto (snd (scheduleAddressesBalanceUpdate left w')) = w_auto w') as Ea by by destruct left.
  unfold balances_table. rewrite Ea. fold (balances_table w'). rewrite Ht. split_and!; try done.
  - by destruct left.
  - destruct left as [|a left]; unfold waiting; cbn.
    + by rewrite Hw, (left_id_L ∅ (∪)).
    + by rewrite lookup_insert_eq, Hw.
  - intros. apply balance_in_inserts.
Qed.

End Balances.

(** ** A run: the node knows the balance of one account and fails for the other *)
Definition sample_balances (params : obj) : result val :=
  if bool_decide (prop params "address" = Str "lskalice")
  then Ok (Object [("data", Arr [balance_val (TokenBalance "0400" 70 [20; 10])])])
  else Throw "node is not reachable".
Definition sample_balance_world : world MemDB := mkWorld ∅ ∅ ∅ [] ∅.

Lemma sample_balances_answers a :
  (exists e, sample_balances (balance_params a) = Throw e) \/ exists bs, answered sample_balances a bs.
Proof.
  unfold answered, sample_balances. destruct (bool_decide _).
  - right. exists [TokenBalance "0400" 70 [20; 10]]. by eexists.
  - left. by eexists.
Qed.

Lemma balance_updates_not_lost_witness :
  exists w', triggerAccountsBalanceUpdate sample_balances ["lskalice_0400"; "lskbob"] sample_balance_world
             = (Ok ["lskalice_0400"], w') /\
    waiting w' = {["lskbob"]} /\ balance_in (balances_table w') "lskalice" "0400" = Some (SInt 100).
Proof.
  destruct (balance_updates_not_lost sample_balances sample_balances_answers ["lskalice_0400"; "lskbob"] sample_balance_world)
    as (fresh & left & w' & E & Hp & Hw & _ & Hf & Hb & _).
  assert (fst (triggerAccountsBalanceUpdate sample_balances ["lskalice_0400"; "lskbob"] sample_balance_world) = Ok ["lskalice_0400"])
    as E1 by (vm_compute; reflexivity).
  rewrite E in E1. cbn [fst] in E1. injection E1 as E1. rewrite E1 in E, Hp.
  apply (Permutation_app_inv_l ["lskalice_0400"] ["lskbob"]) in Hp. apply Permutation_singleton_l in Hp as <-.
  exists w'. split; [exact E|]. split; [rewrite Hw; vm_compute; reflexivity|].
  rewrite Hb. destruct fresh as [|[a bs] [|x fresh]]; try discriminate. injection E1 as ->.
  apply Forall_cons in Hf as [(v & Ev & Ed) _]. injection Ev as <-. injection Ed as Ed.
  destruct bs as [|[t av l] [|b' bs]]; [discriminate| |discriminate]. injection Ed as Et Ea El. subst t.
  apply (string_of_Z_inj 70) in Ea as <-. destruct l as [|n1 [|n2 [|n3 l]]]; try discriminate.
  injection El as E2 E3. apply (string_of_Z_inj 20) in E2 as <-. apply (string_of_Z_inj 10) in E3 as <-. vm_compute. reflexivity.
Defined.
