(* ===== verification/Processors.v ===== *)
(** * Transaction processors of the PoS, token, auth, legacy, interoperability,
      NFT and token factory modules

    One pair of handlers per file of [indexer/transactionProcessor/<module>].
    A handler gets the block header, the transaction and the events of the
    block and works within the database transaction of the block. *)
From S2P Require Import Prelude JsValue Database Engine Table World Schemas KvStore Chain Stake.
Local Open Scope Z_scope.

(** ** Common steps *)
Section Steps.
Context {St : Type} `{SqlEngine St}.

Definition when_successful (tx : obj) (m : M St unit) : M St unit :=
  if bool_decide (prop tx "executionStatus" = SUCCESSFUL) then m else ret tt.

Definition t_upsert (t : table) (row : val) : M St unit := write Trx (upsert t row).

Definition t_delete (t : table) (params : obj) : M St unit :=
  _ ← write_count Trx (deleteByParams t params); ret tt.

Definition t_deleteByPrimaryKey (t : table) (ids : val) : M St unit :=
  _ ← write_count Trx (deleteByPrimaryKey t ids); ret tt.

(** accountIndex.js *)
Definition indexAccountAddress (address : val) : M St unit :=
  sadd "PendingAddressUpdates" [js_String address].

Definition indexAccountPublicKey (publicKey : val) : M St unit :=
  sadd "PendingPublickeyUpdates" [js_String publicKey].

Context `{NodeApi}.

Definition updateAccountInfoPk (publicKey : val) : M St unit :=
  try_catch
    (address ← lift (getKlayr32AddressFromPublicKey publicKey);
     write Auto (upsert accountsTableSchema (Object [("address", address); ("publicKey", publicKey)])))
    (fun _ => indexAccountPublicKey publicKey).

Definition updateAccountInfoAddr (address : val) : M St unit :=
  try_catch
    (write Auto (upsert accountsTableSchema (Object [("address", address)])))
    (fun _ => indexAccountAddress address).

End Steps.

(** ** pos *)
Section Pos.
Context {St : Type} `{SqlEngine St} `{NodeApi}.

Definition changeCommission_info (blockHeader tx : obj) : result obj :=
  newCommission ← get (prop tx "params") "newCommission";
  address ← getKlayr32AddressFromPublicKey (prop tx "senderPublicKey");
  Ok [("address", address); ("commission", newCommission); ("height", prop blockHeader "height")].

Definition changeCommission_apply (blockHeader tx : obj) : M St unit :=
  when_successful tx (
    commissionInfo ← lift (changeCommission_info blockHeader tx);
    t_upsert commissionsTableSchema (Object commissionInfo)).

Definition changeCommission_revert (blockHeader tx : obj) : M St unit :=
  when_successful tx (
    commissionInfo ← lift (changeCommission_info blockHeader tx);
    t_delete commissionsTableSchema commissionInfo).

(** claimRewards.js and unlock.js: nothing to index. *)
Definition claimRewards_apply (blockHeader tx : obj) : M St unit := ret tt.
Definition claimRewards_revert (blockHeader tx : obj) : M St unit := ret tt.
Definition unlock_apply (blockHeader tx : obj) : M St unit := ret tt.
Definition unlock_revert (blockHeader tx : obj) : M St unit := ret tt.

Definition registerValidator_commission (blockHeader tx : obj) : result obj :=
  c ← getPosConstants; d ← get c "data"; defaultCommission ← get d "defaultCommission";
  Ok [("address", prop tx "senderAddress"); ("commission", defaultCommission);
      ("height", prop blockHeader "height")].

Definition registerValidator_apply (blockHeader tx : obj) : M St unit :=
  when_successful tx (
    name ← lift (get (prop tx "params") "name");
    blsKey ← lift (get (prop tx "params") "blsKey");
    proofOfPossession ← lift (get (prop tx "params") "proofOfPossession");
    generatorKey ← lift (get (prop tx "params") "generatorKey");
    let account := [("address", prop tx "senderAddress"); ("publicKey", prop tx "senderPublicKey");
                    ("name", name); ("isValidator", Bool true); ("blsKey", blsKey);
                    ("proofOfPossession", proofOfPossession); ("generatorKey", generatorKey)] in
    t_upsert accountsTableSchema (Object account) ≫= fun _ =>
    t_upsert validatorsTableSchema (Object account) ≫= fun _ =>
    c ← lift getPosConstants;
    d ← lift (get c "data");
    fee ← lift (get d "validatorRegistrationFee");
    formattedTransaction ← lift (request_format_transaction tx fee);
    minFee ← lift (get formattedTransaction "minFee");
    t_upsert transactionsTableSchema (Object (set_prop tx "minFee" minFee)) ≫= fun _ =>
    commissionInfo ← lift (registerValidator_commission blockHeader tx);
    t_upsert commissionsTableSchema (Object commissionInfo)).

Definition registerValidator_revert (blockHeader tx : obj) : M St unit :=
  when_successful tx (
    let account := [("address", prop tx "senderAddress"); ("publicKey", prop tx "senderPublicKey");
                    ("name", Null); ("isValidator", Bool false); ("blsKey", Null);
                    ("proofOfPossession", Null); ("generatorKey", Null)] in
    t_upsert accountsTableSchema (Object account) ≫= fun _ =>
    let validatorPK := prop account (js_String (primaryKey validatorsTableSchema)) in
    t_deleteByPrimaryKey validatorsTableSchema validatorPK ≫= fun _ =>
    commissionInfo ← lift (registerValidator_commission blockHeader tx);
    t_delete commissionsTableSchema commissionInfo).

Definition updateGeneratorKey_apply (blockHeader tx : obj) : M St unit :=
  when_successful tx (
    address ← lift (getKlayr32AddressFromPublicKey (prop tx "senderPublicKey"));
    generatorKey ← lift (get (prop tx "params") "generatorKey");
    let validator := [("address", address); ("publicKey", prop tx "senderPublicKey");
                      ("isValidator", Bool true); ("generatorKey", generatorKey)] in
    t_upsert accountsTableSchema (Object validator) ≫= fun _ =>
    t_upsert validatorsTableSchema (Object validator)).

Definition updateGeneratorKey_revert (blockHeader tx : obj) : M St unit :=
  when_successful tx (
    address ← lift (getKlayr32AddressFromPublicKey (prop tx "senderPublicKey"));
    t_upsert validatorsTableSchema (Object [("address", address); ("generatorKey", Null)])).

(** legacy/registerKeys.js and legacy/reclaimLSK.js *)
Definition registerKeys_apply (blockHeader tx : obj) : M St unit :=
  when_successful tx (
    address ← lift (getKlayr32AddressFromPublicKey (prop tx "senderPublicKey"));
    blsKey ← lift (get (prop tx "params") "blsKey");
    proofOfPossession ← lift (get (prop tx "params") "proofOfPossession");
    generatorKey ← lift (get (prop tx "params") "generatorKey");
    let account := [("address", address); ("publicKey", prop tx "senderPublicKey");
                    ("isValidator", Bool true); ("blsKey", blsKey);
                    ("proofOfPossession", proofOfPossession); ("generatorKey", generatorKey)] in
    t_upsert accountsTableSchema (Object account) ≫= fun _ =>
    t_upsert validatorsTableSchema (Object account)).

Definition registerKeys_revert (blockHeader tx : obj) : M St unit :=
  when_successful tx (
    address ← lift (getKlayr32AddressFromPublicKey (prop tx "senderPublicKey"));
    let account := [("address", address); ("publicKey", prop tx "senderPublicKey");
                    ("isValidator", Bool true); ("blsKey", Null);
                    ("proofOfPossession", Null); ("generatorKey", Null)] in
    t_upsert accountsTableSchema (Object account) ≫= fun _ =>
    let validatorPK := prop account (js_String (primaryKey validatorsTableSchema)) in
    t_deleteByPrimaryKey validatorsTableSchema validatorPK).

Definition reclaimLSK_apply (blockHeader tx : obj) : M St unit := ret tt.
Definition reclaimLSK_revert (blockHeader tx : obj) : M St unit := ret tt.

End Pos.

(** ** token and auth *)
Section Token.
Context {St : Type} `{SqlEngine St} `{NodeApi}.

(** The event that announces the fee of a new account, for the recipient and
    this transaction.  The topics are compared with the bare transaction id. *)
Definition init_event (name : string) (tx : obj) (events : list val) : result (option val) :=
  js_find (fun event =>
    andR (prop_is event "name" (Str name))
      (andR (d ← get event "data"; r ← get (prop tx "params") "recipientAddress"; prop_is d "address" r)
        (topics_include event (js_String (prop tx "id"))))) events.

Definition transfer_with (eventName : string) (tx : obj) (events : list val) : M St unit :=
  recipient ← lift (get (prop tx "params") "recipientAddress");
  indexAccountAddress recipient ≫= fun _ =>
  when_successful tx (
    let tx := spread tx (as_obj (prop tx "params")) in
    e ← lift (init_event eventName tx events);
    tx ← match e with
         | None => ret tx
         | Some e =>
             d ← lift (get e "data");
             fee ← lift (get d "initializationFee");
             f ← lift (request_format_transaction tx fee);
             minFee ← lift (get f "minFee");
             ret (set_prop tx "minFee" minFee)
         end;
    t_upsert transactionsTableSchema (Object tx)).

Definition transfer_apply (blockHeader tx : obj) (events : list val) : M St unit :=
  transfer_with "initializeUserAccount" tx events.

Definition transferCrossChain_apply (blockHeader tx : obj) (events : list val) : M St unit :=
  transfer_with "initializeEscrowAccount" tx events.

Definition transfer_revert (blockHeader tx : obj) : M St unit :=
  recipient ← lift (get (prop tx "params") "recipientAddress");
  indexAccountAddress recipient.

Definition transferCrossChain_revert (blockHeader tx : obj) : M St unit :=
  recipient ← lift (get (prop tx "params") "recipientAddress");
  indexAccountAddress recipient.

Definition multisig_keys (tx : obj) : result (list val) :=
  m ← get (prop tx "params") "mandatoryKeys"; ml ← elements m;
  o ← get (prop tx "params") "optionalKeys"; ol ← elements o;
  Ok (ml ++ ol).

Definition resolveMultisignatureMemberships (tx : obj) : result (list obj) :=
  allKeys ← multisig_keys tx;
  mapM_result (fun key =>
    memberAddress ← getKlayr32AddressFromPublicKey key;
    Ok [("id", Str (js_String (prop tx "senderAddress") +:+ "_" +:+ js_String memberAddress));
        ("memberAddress", memberAddress); ("groupAddress", prop tx "senderAddress")]) allKeys.

(** [tx.params.mandatoryKeys.forEach(...)], then the optional keys. *)
Definition index_multisig_keys (tx : obj) : M St unit :=
  m ← lift (get (prop tx "params") "mandatoryKeys"); ml ← lift (elements m);
  for_each ml indexAccountPublicKey ≫= fun _ =>
  o ← lift (get (prop tx "params") "optionalKeys"); ol ← lift (elements o);
  for_each ol indexAccountPublicKey.

Definition registerMultisignature_apply (blockHeader tx : obj) : M St unit :=
  index_multisig_keys tx ≫= fun _ =>
  when_successful tx (
    multisignatureInfoToIndex ← lift (resolveMultisignatureMemberships tx);
    t_upsert multisignatureTableSchema (Arr (Object <$> multisignatureInfoToIndex))).

Definition registerMultisignature_revert (blockHeader tx : obj) : M St unit :=
  index_multisig_keys tx ≫= fun _ =>
  when_successful tx (
    multisignatureInfo ← lift (resolveMultisignatureMemberships tx);
    t_deleteByPrimaryKey multisignatureTableSchema (Arr ((fun i => prop i "id") <$> multisignatureInfo))).

End Token.

(** ** interoperability *)
Section Interoperability.
Context {St : Type} `{SqlEngine St} `{NodeApi}.

Definition CHAIN_STATUS : obj :=
  [("0", Str "registered"); ("1", Str "activated"); ("2", Str "terminated")].

Definition getMainchainID : result val := request_mainchain_id.

Definition getChainInfo (chainID : val) : result obj :=
  chainAccount ← request_chain_account chainID;
  chainStatusInt ← get chainAccount "status";
  name ← get chainAccount "name";
  Ok [("name", name); ("status", prop CHAIN_STATUS (js_String chainStatusInt))].

Definition registerMainchain_apply (blockHeader tx : obj) : M St unit :=
  when_successful tx (
    mainchainID ← lift getMainchainID;
    mainchainInfo ← lift (getChainInfo mainchainID);
    address ← lift (getKlayr32AddressFromPublicKey (prop tx "senderPublicKey"));
    t_upsert blockchainAppsTableSchema (Object
      [("chainID", mainchainID); ("chainName", prop mainchainInfo "name");
       ("status", prop mainchainInfo "status"); ("address", address);
       ("lastUpdated", prop blockHeader "timestamp");
       ("lastCertificateHeight", prop blockHeader "height")])).

Definition registerMainchain_revert (blockHeader tx : obj) : M St unit :=
  when_successful tx (
    mainchainID ← lift getMainchainID;
    t_deleteByPrimaryKey blockchainAppsTableSchema mainchainID).

Definition registerSidechain_apply (blockHeader tx : obj) : M St unit :=
  when_successful tx (
    chainID ← lift (get (prop tx "params") "chainID");
    chainInfo ← lift (getChainInfo chainID);
    name ← lift (get (prop tx "params") "name");
    address ← lift (getKlayr32AddressFromPublicKey (prop tx "senderPublicKey"));
    t_upsert blockchainAppsTableSchema (Object
      [("chainID", chainID); ("chainName", name); ("status", prop chainInfo "status");
       ("address", address); ("lastUpdated", prop blockHeader "timestamp");
       ("lastCertificateHeight", prop blockHeader "height")])).

Definition registerSidechain_revert (blockHeader tx : obj) : M St unit :=
  when_successful tx (
    chainID ← lift (get (prop tx "params") "chainID");
    t_deleteByPrimaryKey blockchainAppsTableSchema chainID).

Definition terminateSidechainForLiveness_apply (blockHeader tx : obj) : M St unit :=
  when_successful tx (
    chainID ← lift (get (prop tx "params") "chainID");
    chainInfo ← lift (getChainInfo chainID);
    t_upsert blockchainAppsTableSchema (Object [("chainID", chainID); ("status", prop chainInfo "status")])).

Definition terminateSidechainForLiveness_revert (blockHeader tx : obj) : M St unit :=
  terminateSidechainForLiveness_apply blockHeader tx.

(** [submitMainchainCrossChainUpdate.js] exports the same handler. *)
Definition submitSidechainCrossChainUpdate_apply (blockHeader tx : obj) : M St unit :=
  when_successful tx (
    sendingChainID ← lift (get (prop tx "params") "sendingChainID");
    chainInfo ← lift (getChainInfo sendingChainID);
    t_upsert blockchainAppsTableSchema (Object
      [("chainID", sendingChainID); ("status", prop chainInfo "status");
       ("lastUpdated", prop blockHeader "timestamp");
       ("lastCertificateHeight", prop blockHeader "height")]) ≫= fun _ =>
    t_upsert ccuTableSchema (Object
      [("height", prop tx "height"); ("sendingChainID", sendingChainID); ("transactionID", prop tx "id")])).

(** The four recovery commands index nothing. *)
Definition recovery_apply (blockHeader tx : obj) : M St unit := ret tt.
Definition recovery_revert (blockHeader tx : obj) : M St unit := ret tt.

End Interoperability.

(** ** nft and tokenFactory *)
Section Nft.
Context {St : Type} `{SqlEngine St}.

(** [EVENT_NAME_NFT_TRANSFER]: the position changes its owner. *)
Definition nft_transfer_to (who : string) (tx : obj) (events : list val) : M St unit :=
  when_successful tx (
    transferEvent ← lift (parseSingleEvent events (Str "nft") (Str "transfer") (prop tx "id"));
    d ← lift (get transferEvent "data");
    nftID ← lift (get d "nftID");
    owner ← lift (get d who);
    t_upsert positionTableSchema (Object [("tokenId", nftID); ("owner", owner)])).

Definition nft_transfer_apply (blockHeader tx : obj) (events : list val) : M St unit :=
  nft_transfer_to "recipientAddress" tx events.

Definition nft_transfer_revert (blockHeader tx : obj) (events : list val) : M St unit :=
  nft_transfer_to "senderAddress" tx events.

Definition supply_param (how : string) (tokenId : val) (amount : Z) : obj :=
  [(how, Object [("supply", BigI amount)]); ("where", Object [("tokenID", tokenId)])].

Definition tokenBurn_apply (blockHeader tx : obj) : M St unit :=
  when_successful tx (
    a ← lift (get (prop tx "params") "amount");
    amount ← lift (js_BigInt a);
    tokenId ← lift (get (prop tx "params") "tokenId");
    _ ← write_count Trx (decrement tokenFactoryTableSchema (supply_param "decrement" tokenId amount));
    ret tt).

Definition tokenBurn_revert (blockHeader tx : obj) : M St unit :=
  when_successful tx (
    a ← lift (get (prop tx "params") "amount");
    amount ← lift (js_BigInt a);
    tokenId ← lift (get (prop tx "params") "tokenId");
    _ ← write_count Trx (increment tokenFactoryTableSchema (supply_param "increment" tokenId amount));
    ret tt).

(** The sum of the amounts of [tx.params.distribution]. *)
Definition distributed (tx : obj) : result Z :=
  d ← get (prop tx "params") "distribution";
  l ← elements d;
  foldM (fun acc x => a ← get x "amount"; n ← js_BigInt a; Ok (acc + n)) 0 l.

Definition tokenMint_apply (blockHeader tx : obj) : M St unit :=
  when_successful tx (
    increasedSupply ← lift (distributed tx);
    tokenId ← lift (get (prop tx "params") "tokenId");
    _ ← write_count Trx (increment tokenFactoryTableSchema (supply_param "increment" tokenId increasedSupply));
    ret tt).

Definition tokenMint_revert (blockHeader tx : obj) : M St unit :=
  when_successful tx (
    increasedSupply ← lift (distributed tx);
    tokenId ← lift (get (prop tx "params") "tokenId");
    _ ← write_count Trx (decrement tokenFactoryTableSchema (supply_param "decrement" tokenId increasedSupply));
    ret tt).

End Nft.
