(* ===== verification/ProcessorsSpec.v ===== *)
(** * What the transaction processors do to the index

    Applying a transaction records it, and reverting it takes the record back:
    multisignature memberships and the supply of factory tokens. *)
From S2P Require Import Prelude JsValue Database Engine Search Table World Schemas KvStore Chain Stake Processors.
Local Open Scope Z_scope.

(** ** Multisignature groups *)
Section Multisig.
Context {St : Type} `{SqlLaws St} `{NodeApi}.

Definition member_id (g a : string) : string := g +:+ "_" +:+ a.

Definition member_obj (g a : string) : obj :=
  [("id", Str (member_id g a)); ("memberAddress", Str a); ("groupAddress", Str g)].

(** [tx] registers the group [g] of [members], mandatory ones first. *)
Definition multisig_tx (tx : obj) (g : string) (mandatory optional : list val) (members : list string) : Prop :=
  prop tx "executionStatus" = SUCCESSFUL /\ prop tx "senderAddress" = Str g /\
  get (prop tx "params") "mandatoryKeys" = Ok (Arr mandatory) /\
  get (prop tx "params") "optionalKeys" = Ok (Arr optional) /\
  Forall2 (fun k a => klayr32_of_public_key k = Ok (Str a)) (mandatory ++ optional) members.

Lemma memberships_ok tx g ma op members :
  multisig_tx tx g ma op members ->
  resolveMultisignatureMemberships tx = Ok (member_obj g <$> members).
Proof.
  intros (_ & Hg & Hm & Ho & Hk). unfold resolveMultisignatureMemberships, multisig_keys.
  rewrite Hm, Ho. simpl. rewrite Hg. clear Hm Ho.
  induction Hk as [|k a ks members Hka Hk IH]; [done|].
  cbn [mapM_result]. unfold getKlayr32AddressFromPublicKey in *. rewrite Hka. simpl.
  cbn in IH. rewrite IH. done.
Qed.

Lemma index_keys_ok (ks : list val) (w : world St) :
  exists w', for_each ks indexAccountPublicKey w = (Ok tt, w') /\ w_trx w' = w_trx w.
Proof.
  revert w. induction ks as [|k ks IH]; intros w; [by exists w|].
  cbn [for_each]. unfold indexAccountPublicKey, sadd, mbind at 1, eff_bind at 1.
  destruct (IH (mkWorld (w_trx w) (w_auto w)
    (<["PendingPublickeyUpdates" := list_to_set [js_String k] ∪ default ∅ (w_redis w !! "PendingPublickeyUpdates")]> (w_redis w))
    (w_jobs w) (w_base w))) as (w' & E & Ht).
  exists w'. split; [exact E|exact Ht].
Qed.

Lemma index_multisig_keys_ok tx g ma op members (w : world St) :
  multisig_tx tx g ma op members ->
  exists w', index_multisig_keys tx w = (Ok tt, w') /\ w_trx w' = w_trx w.
Proof.
  intros (_ & _ & Hm & Ho & _). unfold index_multisig_keys, lift. rewrite Hm, Ho.
  destruct (index_keys_ok ma w) as (w1 & E1 & Ht1). destruct (index_keys_ok op w1) as (w2 & E2 & Ht2).
  exists w2. split; [|congruence].
  do 2 (unfold mbind at 1, eff_bind at 1). cbn [elements].
  rewrite (M_bind_ok _ _ _ _ _ E1). do 2 (unfold mbind at 1, eff_bind at 1). cbn [elements]. exact E2.
Qed.

(** The object in the column order of the table. *)
Definition member_stored (g a : string) : obj :=
  [("id", Str (member_id g a)); ("groupAddress", Str g); ("memberAddress", Str a)].

Lemma members_map g members :
  mapRowsBySchema (member_obj g <$> members) (schema multisignatureTableSchema) = Ok (member_stored g <$> members).
Proof. unfold mapRowsBySchema. by apply mapM_result_fmap. Qed.

Lemma members_insertable g members :
  Forall (fun ro => insertable multisignatureTableSchema (row_of ro) = true) (member_stored g <$> members).
Proof. apply Forall_fmap, Forall_true. by intros a. Qed.

Definition member_keys (g : string) (members : list string) : list (list sql) :=
  (fun i => [SStr i]) <$> (member_id g <$> members).

Lemma member_id_inj g a a' : member_id g a = member_id g a' -> a = a'.
Proof.
  unfold member_id. induction g as [|c g IH]; rewrite ?append_cons, ?append_nil_l; intros [= E]; auto.
Qed.

Lemma member_keys_spec g members k :
  k ∈ member_keys g members <-> exists a, a ∈ members /\ k = [SStr (member_id g a)].
Proof.
  unfold member_keys. rewrite list_elem_of_fmap. split.
  - intros (i & -> & (a & -> & Ha)%list_elem_of_fmap). by exists a.
  - intros (a & Ha & ->). exists (member_id g a). split; [done|]. by apply list_elem_of_fmap_2.
Qed.

(** The rows after the group was recorded. *)
Definition with_members (g : string) (members : list string) (rs : rows) : rows :=
  foldl (insert_row multisignatureTableSchema) rs (member_stored g <$> members).

Lemma with_members_snoc g members a rs :
  with_members g (members ++ [a]) rs
  = insert_row multisignatureTableSchema (with_members g members rs) (member_stored g a).
Proof. unfold with_members. by rewrite fmap_app, foldl_app. Qed.

Lemma with_members_in g members rs a :
  a ∈ members ->
  exists old, with_members g members rs !! [SStr (member_id g a)] = Some (row_of (member_stored g a) ∪ old).
Proof.
  induction members as [|a' members IH] using rev_ind; [by intros ?%not_elem_of_nil|].
  rewrite with_members_snoc. unfold insert_row.
  change (key_of multisignatureTableSchema (row_of (member_stored g a'))) with [SStr (member_id g a')].
  intros Ha. destruct (decide (a' = a)) as [<-|Hne].
  - rewrite lookup_insert_eq. by eexists.
  - rewrite lookup_insert_ne by (by intros [= E%member_id_inj]). apply IH.
    apply elem_of_app in Ha as [Ha|Ha%list_elem_of_singleton]; [done|congruence].
Qed.

Lemma with_members_out g members rs k :
  k ∉ member_keys g members -> with_members g members rs !! k = rs !! k.
Proof.
  rewrite member_keys_spec. induction members as [|a members IH] using rev_ind; [done|].
  rewrite with_members_snoc. unfold insert_row. intros Hk.
  change (key_of multisignatureTableSchema (row_of (member_stored g a))) with [SStr (member_id g a)].
  rewrite lookup_insert_ne.
  - apply IH. intros (a' & Ha' & ->). apply Hk. exists a'. split; [apply elem_of_app; by left|done].
  - intros <-. apply Hk. exists a. split; [apply elem_of_app; right; by left|done].
Qed.

Lemma with_members_ok g members (rs : rows) :
  table_ok multisignatureTableSchema rs -> table_ok multisignatureTableSchema (with_members g members rs).
Proof.
  unfold with_members. revert rs. induction members as [|a members IH]; intros rs Hok; [done|].
  rewrite fmap_cons. cbn [foldl]. apply IH. by apply table_ok_insert.
Qed.

Lemma multisig_apply_ok (w : world St) hdr tx g ma op members :
  multisig_tx tx g ma op members ->
  exists w1, registerMultisignature_apply hdr tx w = (Ok tt, w1) /\
    rows_of (w_trx w1) multisignatureTableSchema
    = with_members g members (rows_of (w_trx w) multisignatureTableSchema).
Proof.
  intros Htx. pose proof Htx as (Hst & _).
  destruct (index_multisig_keys_ok tx g ma op members w Htx) as (w0 & E0 & Ht0).
  destruct (upsert_items multisignatureTableSchema (member_obj g <$> members) _ (w_trx w0)
    (members_map g members) (members_insertable g members)) as (s1 & E1 & Hs1 & _).
  rewrite Ht0 in Hs1. exists (set_db Trx s1 w0). split; [|exact Hs1].
  unfold registerMultisignature_apply. rewrite (M_bind_ok _ _ _ _ _ E0).
  unfold when_successful. rewrite bool_decide_eq_true_2 by done.
  unfold lift. rewrite (memberships_ok _ _ _ _ _ Htx). unfold mbind at 1, eff_bind at 1.
  by apply write_ok.
Qed.

Lemma multisig_revert_ok (w : world St) hdr tx g ma op members :
  multisig_tx tx g ma op members ->
  table_ok multisignatureTableSchema (rows_of (w_trx w) multisignatureTableSchema) ->
  exists w1, registerMultisignature_revert hdr tx w = (Ok tt, w1) /\
    rows_of (w_trx w1) multisignatureTableSchema
    = filter (fun kr => kr.1 ∉ member_keys g members) (rows_of (w_trx w) multisignatureTableSchema).
Proof.
  intros Htx Hok. pose proof Htx as (Hst & _).
  destruct (index_multisig_keys_ok tx g ma op members w Htx) as (w0 & E0 & Ht0).
  destruct (delete_keys multisignatureTableSchema "id" (col "string") (member_id g <$> members) (w_trx w0))
    as (s2 & n & E2 & Hs2 & _); [done|by left|done|by rewrite Ht0|].
  rewrite Ht0 in Hs2. exists (set_db Trx s2 w0). split; [|exact Hs2].
  unfold registerMultisignature_revert. rewrite (M_bind_ok _ _ _ _ _ E0).
  unfold when_successful. rewrite bool_decide_eq_true_2 by done.
  unfold lift. rewrite (memberships_ok _ _ _ _ _ Htx). unfold mbind at 1, eff_bind at 1.
  unfold t_deleteByPrimaryKey. rewrite (M_bind_ok _ _ _ n (set_db Trx s2 w0)); [done|].
  apply write_count_ok. cbn [db].
  replace ((fun i => prop i "id") <$> (member_obj g <$> members)) with (Str <$> (member_id g <$> members));
    [done|]. by rewrite <- !list_fmap_compose.
Qed.

(** Registering a multisignature group records each member of the group
    once under the group, and leaves all other memberships alone.  Reverting
    the registration removes the memberships it recorded and nothing else. *)
Theorem multisig_apply_revert (w : world St) hdr tx g ma op members :
  multisig_tx tx g ma op members ->
  table_ok multisignatureTableSchema (rows_of (w_trx w) multisignatureTableSchema) ->
  let rs w := rows_of (w_trx w) multisignatureTableSchema in
  exists w1 w2,
    registerMultisignature_apply hdr tx w = (Ok tt, w1) /\
    (forall a, a ∈ members -> exists r, rs w1 !! [SStr (member_id g a)] = Some r /\
       cell r "memberAddress" = SStr a /\ cell r "groupAddress" = SStr g) /\
    (forall k, k ∉ member_keys g members -> rs w1 !! k = rs w !! k) /\
    registerMultisignature_revert hdr tx w1 = (Ok tt, w2) /\
    (forall k, rs w2 !! k = if decide (k ∈ member_keys g members) then None else rs w !! k).
Proof.
  intros Htx Hok rs.
  destruct (multisig_apply_ok w hdr tx g ma op members Htx) as (w1 & E1 & Hr1).
  destruct (multisig_revert_ok w1 hdr tx g ma op members Htx) as (w2 & E2 & Hr2).
  { rewrite Hr1. by apply with_members_ok. }
  exists w1, w2. unfold rs. rewrite Hr1, Hr2, Hr1. split_and!; [done| |by apply with_members_out|done|].
  - intros a Ha. destruct (with_members_in g members (rows_of (w_trx w) multisignatureTableSchema) a Ha)
      as [old ->]. eexists. split; [done|].
    split; (rewrite cell_union_l; [reflexivity|]); apply elem_of_dom; by eexists.
  - intros k. case_decide as Hk.
    + apply map_lookup_filter_None. right. by intros r _ Hn.
    + rewrite map_lookup_filter, (with_members_out _ _ _ _ Hk).
      destruct (rows_of (w_trx w) multisignatureTableSchema !! k); simpl; [|done].
      by rewrite option_guard_True.
Qed.

End Multisig.

(** ** The supply of factory tokens *)
Section Supply.
Context {St : Type} `{SqlLaws St}.

Lemma supply_key id : key_values tokenFactoryTableSchema [Str id].
Proof. constructor; [|constructor]. exists (col "string"). split; [by left|done]. Qed.

Lemma supply_increment (s : St) id n :
  table_ok tokenFactoryTableSchema (rows_of s tokenFactoryTableSchema) ->
  exists s' k, increment tokenFactoryTableSchema (supply_param "increment" (Str id) n) s = Ok (s', k) /\
    table_set s s' tokenFactoryTableSchema
      (alter (add_cells [("supply", n)]) [SStr id] (rows_of s tokenFactoryTableSchema)).
Proof.
  intros Hok. destruct (add_key tokenFactoryTableSchema s [KWhere (Object [("tokenID", Str id)])] [Str id] [("supply", n)])
    as (s' & E & Hset); [done|apply supply_key|done..| |].
  - intros r. unfold matches. simpl. by rewrite !andb_true_r.
  - exists s'. eexists. split; [exact E|done].
Qed.

Lemma supply_decrement (s : St) id n :
  table_ok tokenFactoryTableSchema (rows_of s tokenFactoryTableSchema) ->
  exists s' k, decrement tokenFactoryTableSchema (supply_param "decrement" (Str id) n) s = Ok (s', k) /\
    table_set s s' tokenFactoryTableSchema
      (alter (add_cells [("supply", - n)]) [SStr id] (rows_of s tokenFactoryTableSchema)).
Proof.
  intros Hok. destruct (add_key tokenFactoryTableSchema s [KWhere (Object [("tokenID", Str id)])] [Str id] [("supply", - n)])
    as (s' & E & Hset); [done|apply supply_key|done..| |].
  - intros r. unfold matches. simpl. by rewrite !andb_true_r.
  - exists s'. eexists. split; [exact E|done].
Qed.

(** The supply recorded for a token. *)
Definition supply_of (rs : rows) (id : string) : option Z := counter rs [SStr id] "supply".

Lemma add_supply_back (rs : rows) id n z :
  supply_of rs id = Some z ->
  alter (add_cells [("supply", - n)]) [SStr id] (alter (add_cells [("supply", n)]) [SStr id] rs) = rs /\
  supply_of (alter (add_cells [("supply", n)]) [SStr id] rs) id = Some (z + n).
Proof.
  intros Hz. split; [exact (bump_back rs [SStr id] "supply" n z Hz)|exact (counter_bump rs [SStr id] "supply" n z Hz)].
Qed.

Lemma supply_table_ok (rs : rows) id n :
  table_ok tokenFactoryTableSchema rs ->
  table_ok tokenFactoryTableSchema (alter (add_cells [("supply", n)]) [SStr id] rs).
Proof.
  intros Hok. apply table_ok_alter; [done|..].
  - intros r. by apply key_of_add_cells.
  - intros r. by apply row_typed_add_cells.
Qed.

(** [tx] mints the amounts [l] of the token [id]. *)
Definition mint_tx (tx : obj) (id : string) (l : list Z) : Prop :=
  prop tx "executionStatus" = SUCCESSFUL /\
  get (prop tx "params") "tokenId" = Ok (Str id) /\
  get (prop tx "params") "distribution" = Ok (Arr ((fun n => Object [("amount", Str (string_of_Z n))]) <$> l)).

Definition burn_tx (tx : obj) (id : string) (n : Z) : Prop :=
  prop tx "executionStatus" = SUCCESSFUL /\
  get (prop tx "params") "tokenId" = Ok (Str id) /\ get (prop tx "params") "amount" = Ok (Str (string_of_Z n)).

Lemma distributed_ok tx id l : mint_tx tx id l -> distributed tx = Ok (foldr Z.add 0 l).
Proof.
  intros (_ & _ & Hl). unfold distributed. rewrite Hl. simpl. clear Hl.
  assert (forall acc, foldM (fun acc x => a ← get x "amount"; n ← js_BigInt a; Ok (acc + n)) acc
    ((fun n => Object [("amount", Str (string_of_Z n))]) <$> l) = Ok (acc + foldr Z.add 0 l)) as H1; [|apply H1].
  induction l as [|n l IH]; intros acc; simpl; [by rewrite Z.add_0_r|].
  destruct (String.eqb_spec (string_of_Z n) "") as [E|_]; [by apply string_of_Z_nonempty in E|].
  rewrite parse_string_of_Z. simpl. cbn in IH. rewrite IH. f_equal. lia.
Qed.

(** Runs the successful branch of a handler whose last step is a statement
    that returns a row count. *)
Lemma count_step (w : world St) (f : St -> result (St * Z)) s n :
  f (w_trx w) = Ok (s, n) -> (_ ← write_count Trx f; ret tt) w = (Ok tt, set_db Trx s w).
Proof. intros E. by rewrite (M_bind_ok _ _ _ _ _ (write_count_ok Trx f w s n E)). Qed.

(** Minting and burning a factory token change its recorded supply by
    the minted sum and the burnt amount, and reverting either restores the
    whole table. *)
Theorem supply_apply_revert (w : world St) hdr mtx btx id l n z :
  let rs w := rows_of (w_trx w) tokenFactoryTableSchema in
  table_ok tokenFactoryTableSchema (rs w) -> supply_of (rs w) id = Some z ->
  mint_tx mtx id l -> burn_tx btx id n ->
  (exists w1 w2, tokenMint_apply hdr mtx w = (Ok tt, w1) /\ supply_of (rs w1) id = Some (z + foldr Z.add 0 l) /\
     tokenMint_revert hdr mtx w1 = (Ok tt, w2) /\ rs w2 = rs w) /\
  (exists w1 w2, tokenBurn_apply hdr btx w = (Ok tt, w1) /\ supply_of (rs w1) id = Some (z - n) /\
     tokenBurn_revert hdr btx w1 = (Ok tt, w2) /\ rs w2 = rs w).
Proof.
  intros rs Hok Hz Hm Hb. split.
  - pose proof Hm as (Hst & Hid & _). pose proof (distributed_ok _ _ _ Hm) as Hd.
    set (d := foldr Z.add 0 l) in *. destruct (add_supply_back _ id d z Hz) as [Hback Hsup].
    destruct (supply_increment (w_trx w) id d Hok) as (s1 & k1 & E1 & Hs1 & _).
    destruct (supply_decrement s1 id d) as (s2 & k2 & E2 & Hs2 & _); [rewrite Hs1; by apply supply_table_ok|].
    exists (set_db Trx s1 w), (set_db Trx s2 (set_db Trx s1 w)).
    unfold tokenMint_apply, tokenMint_revert, when_successful, lift.
    rewrite !bool_decide_eq_true_2, Hd, Hid by done.
    split_and!; [by apply (count_step _ _ _ k1)|unfold rs; simpl; by rewrite Hs1
      |by apply (count_step _ _ _ k2)|unfold rs; simpl; by rewrite Hs2, Hs1].
  - pose proof Hb as (Hst & Hid & Ha). destruct (add_supply_back _ id (- n) z Hz) as [Hback Hsup].
    destruct (supply_decrement (w_trx w) id n Hok) as (s1 & k1 & E1 & Hs1 & _).
    destruct (supply_increment s1 id n) as (s2 & k2 & E2 & Hs2 & _); [rewrite Hs1; by apply supply_table_ok|].
    exists (set_db Trx s1 w), (set_db Trx s2 (set_db Trx s1 w)).
    unfold tokenBurn_apply, tokenBurn_revert, when_successful, lift.
    rewrite !bool_decide_eq_true_2, Ha, Hid by done.
    do 2 (unfold mbind at 1, eff_bind at 1). rewrite js_BigInt_String.
    rewrite Z.opp_involutive in Hback.
    split_and!; [by apply (count_step _ _ _ k1)|unfold rs; simpl; by rewrite Hs1, <- Z.add_opp_r
      | |unfold rs; simpl; by rewrite Hs2, Hs1].
    do 2 (unfold mbind at 1, eff_bind at 1). rewrite js_BigInt_String. by apply (count_step _ _ _ k2).
Qed.

End Supply.

(** ** Examples *)
Definition sample_group : obj :=
  [("executionStatus", SUCCESSFUL); ("senderAddress", Str "grp");
   ("params", Object [("mandatoryKeys", Arr [Str "ann"]); ("optionalKeys", Arr [Str "ben"])])].

Lemma multisig_apply_revert_witness :
  exists w1 w2, registerMultisignature_apply (H0 := sample_node) [] sample_group empty_world = (Ok tt, w1) /\
    (exists r, rows_of (w_trx w1) multisignatureTableSchema !! [SStr "grp_ben"] = Some r /\
       cell r "memberAddress" = SStr "ben") /\
    registerMultisignature_revert (H0 := sample_node) [] sample_group w1 = (Ok tt, w2) /\
    rows_of (w_trx w2) multisignatureTableSchema !! [SStr "grp_ben"] = None.
Proof.
  destruct (multisig_apply_revert (H1 := sample_node) empty_world [] sample_group "grp" [Str "ann"] [Str "ben"]
    ["ann"; "ben"]) as (w1 & w2 & E1 & A1 & _ & E2 & A2).
  - split_and!; try reflexivity. repeat constructor.
  - apply (db_ok_empty [multisignatureTableSchema]). by left.
  - exists w1, w2. split; [exact E1|]. split.
    + destruct (A1 "ben") as (r & Hr & Hc & _); [by right; left|]. by exists r.
    + split; [exact E2|]. rewrite A2. reflexivity.
Defined.

Definition sample_tokens : MemDB :=
  match upsert tokenFactoryTableSchema
          (Object [("tokenID", Str "t1"); ("owner", Str "o"); ("supply", BigI 100)]) (∅ : MemDB) with
  | Ok s => s
  | Throw _ => ∅
  end.

Lemma sample_tokens_ok : table_ok tokenFactoryTableSchema (rows_of sample_tokens tokenFactoryTableSchema).
Proof.
  apply (table_ok_insert tokenFactoryTableSchema ∅ (row_of [("tokenID", Str "t1"); ("owner", Str "o"); ("supply", BigI 100)]));
    [reflexivity| |vm_compute; reflexivity].
  intros k r. by rewrite lookup_empty.
Qed.

Lemma supply_apply_revert_witness :
  let mtx := [("executionStatus", SUCCESSFUL);
              ("params", Object [("tokenId", Str "t1"); ("distribution", Arr [Object [("amount", Str "5")]])])] in
  let w := mkWorld sample_tokens sample_tokens ∅ [] sample_tokens in
  exists w1 w2, tokenMint_apply [] mtx w = (Ok tt, w1) /\
    supply_of (rows_of (w_trx w1) tokenFactoryTableSchema) "t1" = Some 105 /\
    tokenMint_revert [] mtx w1 = (Ok tt, w2) /\
    rows_of (w_trx w2) tokenFactoryTableSchema = rows_of sample_tokens tokenFactoryTableSchema.
Proof.
  intros mtx w.
  destruct (supply_apply_revert w [] mtx
    [("executionStatus", SUCCESSFUL); ("params", Object [("tokenId", Str "t1"); ("amount", Str "7")])]
    "t1" [5] 7 100) as [(w1 & w2 & E1 & A1 & E2 & A2) _].
  - exact sample_tokens_ok.
  - vm_compute. reflexivity.
  - split_and!; reflexivity.
  - split_and!; reflexivity.
  - exists w1, w2. split; [exact E1|]. split; [exact A1|]. split; [exact E2|exact A2].
Defined.

(** Reverting an update of the generator key does not restore the key before
    it: the column gets the text [null], since [cast] makes a string of the
    [null] the handler passes. *)
Definition key_update (k : string) : obj :=
  [("executionStatus", SUCCESSFUL); ("senderPublicKey", Str "val"); ("params", Object [("generatorKey", Str k)])].

Definition generator_key (w : world MemDB) : option sql :=
  (fun r => cell r "generatorKey") <$> (rows_of (w_trx w) validatorsTableSchema !! [SStr "val"]).

Lemma updateGeneratorKey_revert_null_text :
  let w1 := snd (updateGeneratorKey_apply (H0 := sample_node) [] (key_update "k1") empty_world) in
  let w2 := snd (updateGeneratorKey_apply (H0 := sample_node) [] (key_update "k2") w1) in
  let w3 := snd (updateGeneratorKey_revert (H0 := sample_node) [] (key_update "k2") w2) in
  generator_key w1 = Some (SStr "k1") /\ generator_key w2 = Some (SStr "k2") /\ generator_key w3 = Some (SStr "null").
Proof. vm_compute. split_and!; reflexivity. Qed.

(** The same happens to every text column a row sets to [null]. *)
Lemma cast_null_text (t : table) (c : string) item ro :
  NoDup (fst <$> schema t) -> (exists col, (c, col) ∈ schema t /\ ctype col = "string") ->
  has_prop item c = true -> prop item c = Null ->
  mapRowBySchema item (schema t) = Ok ro -> prop ro c = Str "null".
Proof.
  intros Hnd (col & Hin & Hty) Hh Hp Hro. apply mapRow_spec in Hro as (_ & Hall & _); [|done].
  rewrite Forall_forall in Hall. specialize (Hall _ Hin). unfold mapped in Hall. simpl in Hall.
  rewrite Hh, Hp, Hty in Hall. by destruct Hall as (w & [= <-] & _ & ->).
Qed.
