(* ===== verification/Dex.v ===== *)
(** * The DEX module: transaction processors, swap events and pool sync

    [indexer/transactionProcessor/dex/*.js], [indexer/utils/swapProcess.js] and
    [indexer/utils/dexSync.js].  Answers of the node's DEX endpoints, prices
    computed with [decimal.js] and the token registry are the class [DexApi].
    The events of a block are handled one after the other.  Several statements
    run without the transaction of the block (on [Auto]), as in the source. *)
From S2P Require Import Prelude JsValue Database Engine Table World Schemas KvStore Chain Stake.
From S2P Require Import Processors PoolAddress.
From Stdlib Require Import Ascii.
Local Open Scope Z_scope.

Class DexApi := {
  (** [invokeEndpoint({ endpoint: 'dex_getMetadata', params: { poolAddress, tokenId } })] *)
  dex_getMetadata : string -> string -> result val;
  (** [invokeEndpoint({ endpoint: 'dex_getPool', params: { tokenA, tokenB, fee } })] *)
  dex_getPool : PoolKey -> result val;
  (** tickFormatter.js: [getPriceAtTick(tick, decimals0, decimals1, inverted)] *)
  getPriceAtTick : val -> val -> val -> bool -> result val;
  (** [getTokenFactoriesMeta({ tokenIds, registry: true })] *)
  getTokenFactoriesMeta : val -> result val;
  (** priceQuoter.js: [getPrice(base, quote)] *)
  getPrice : string -> string -> result val;
  (** [invokeEndpoint({ endpoint: 'dex_getConfig' })] *)
  dex_getConfig : result val;
}.

Definition MODULE_NAME_DEX : val := Str "dex".

Section Dex.
Context {St : Type} `{SqlEngine St} `{NodeApi} `{Crypto} `{DexApi}.

(** [parseSingleEvent(events, MODULE_NAME_DEX, name, tx.id)] *)
Definition dex_event (name : string) (tx : obj) (events : list val) : result val :=
  parseSingleEvent events MODULE_NAME_DEX (Str name) (prop tx "id").

(** [const [token] = await tokenTable.find({ tokenId, limit: 1 }, columns, dbTrx)] *)
Definition find_token (c : conn) (tokenId : string) (columns : list val) : M St val :=
  rows ← read c (find registeredDexTokenTableSchema [("tokenId", Str tokenId); ("limit", Num 1)] (Arr columns));
  ret (match rows with r :: _ => Object r | [] => Undef end).

(** ** dexSync.js *)
Definition syncPoolData (poolAddress : string) : M St unit :=
  pool ← lift (decodePoolAddress (Hex poolAddress));
  poolData ← lift (dex_getPool pool);
  data ← lift (get poolData "data");
  liquidity ← lift (get data "liquidity");
  slot0 ← lift (get data "slot0");
  tick ← lift (get slot0 "tick");
  let updates := [("liquidity", liquidity); ("tick", tick)] in
  _ ← write_count Auto (update poolTableSchema [("poolAddress", Str poolAddress); ("inverted", Bool false)] updates);
  _ ← write_count Auto (update poolTableSchema [("poolAddress", Str poolAddress); ("inverted", Bool true)] updates);
  ret tt.

(** ** Total value locked, ticks and positions *)
Definition tvl_row (blockHeader tx : obj) (index : Z) (sender poolAddress : val) (amount : val) (tokenId : string) : obj :=
  [("transactionId", prop tx "id"); ("index", Num index); ("time", prop blockHeader "timestamp");
   ("sender", sender); ("poolAddress", poolAddress); ("amount", amount); ("tokenId", Str tokenId)].

(** [Number(data.amount)], or [Number(`-${data.amount}`)] for a withdrawal. *)
Definition tvl_amount (withdraw : bool) (data : val) (key : string) : result val :=
  a ← get data key;
  Ok (js_Number (if withdraw then Str ("-" +:+ js_String a) else a)).

(** The two rows of a change of liquidity.  [store] is [upsert] or [delete];
    the symbol of the token is read for the log after each statement. *)
Definition tvl_rows (store : obj -> M St unit) (withdraw : bool) (blockHeader tx : obj) (event sender poolAddress : val)
    (poolKey : PoolKey) : M St unit :=
  tok0 ← find_token Trx (token0 poolKey) [Str "symbol"];
  tok1 ← find_token Trx (token1 poolKey) [Str "symbol"];
  data ← lift (get event "data");
  amount0 ← lift (tvl_amount withdraw data "amount0");
  store (tvl_row blockHeader tx 0 sender poolAddress amount0 (token0 poolKey)) ≫= fun _ =>
  _ ← lift (get tok0 "symbol");
  amount1 ← lift (tvl_amount withdraw data "amount1");
  store (tvl_row blockHeader tx 1 sender poolAddress amount1 (token1 poolKey)) ≫= fun _ =>
  _ ← lift (get tok1 "symbol");
  ret tt.

Definition tvl_add (row : obj) : M St unit := t_upsert tvlTableSchema (Object row).
Definition tvl_remove (row : obj) : M St unit := t_delete tvlTableSchema row.

(** The net liquidity at the two ticks of a position, as the event [mint] or
    [burn] reports it after ([suffix] empty) or before the change. *)
Definition set_tick (poolAddress event : val) (tickKey netKey : string) : M St unit :=
  d ← lift (get event "data");
  tick ← lift (get d tickKey);
  net ← lift (get d netKey);
  write Auto (upsert tickTableSchema (Object [("poolAddress", poolAddress); ("tick", js_Number tick);
                                              ("liquidityNet", js_Number net)])).

Definition set_ticks (poolAddress event : val) (suffix : string) : M St unit :=
  set_tick poolAddress event "tickLower" ("lowerLiquidityNet" +:+ suffix) ≫= fun _ =>
  set_tick poolAddress event "tickUpper" ("upperLiquidityNet" +:+ suffix).

(** [{ [how]: { liquidity: Number(data.liquidity) }, where: { tokenId: data.tokenId } }] *)
Definition position_param (how : string) (liquidity tokenId : val) : obj :=
  [(how, Object [("liquidity", js_Number liquidity)]); ("where", Object [("tokenId", tokenId)])].

Definition change_position (up : bool) (event : val) : M St unit :=
  data ← lift (get event "data");
  liquidity ← lift (get data "liquidity");
  tokenId ← lift (get data "tokenId");
  _ ← write_count Trx
        (if up then increment positionTableSchema (position_param "increment" liquidity tokenId)
         else decrement positionTableSchema (position_param "decrement" liquidity tokenId));
  ret tt.

(** The end of a handler: refresh two accounts and the pool. *)
Definition refresh (sender poolAddress : val) : M St unit :=
  indexAccountAddress sender ≫= fun _ =>
  indexAccountAddress poolAddress ≫= fun _ =>
  syncPoolData (js_String poolAddress).

(** ** increaseLiquidity.js and decreaseLiquidity.js

    The two files differ in the events they read, the sign of the amounts and
    the direction of the change. *)
Definition change_liquidity (tickEvent changeEvent suffix : string) (withdraw up : bool)
    (store : obj -> M St unit) (blockHeader tx : obj) (events : list val) : M St unit :=
  when_successful tx (
    te ← lift (dex_event tickEvent tx events);
    ce ← lift (dex_event changeEvent tx events);
    poolAddress ← lift (get (prop tx "params") "poolAddress");
    poolKey ← lift (decodePoolAddress (Hex (js_String poolAddress)));
    sender ← lift (getKlayr32AddressFromPublicKey (prop tx "senderPublicKey"));
    tvl_rows store withdraw blockHeader tx ce sender poolAddress poolKey ≫= fun _ =>
    set_ticks poolAddress te suffix ≫= fun _ =>
    change_position up ce ≫= fun _ =>
    refresh sender poolAddress).

Definition increaseLiquidity_apply : obj -> obj -> list val -> M St unit :=
  change_liquidity "mint" "increaseLiquidity" "" false true tvl_add.
Definition increaseLiquidity_revert : obj -> obj -> list val -> M St unit :=
  change_liquidity "mint" "increaseLiquidity" "Before" false false tvl_remove.
Definition decreaseLiquidity_apply : obj -> obj -> list val -> M St unit :=
  change_liquidity "burn" "decreaseLiquidity" "" true false tvl_add.
Definition decreaseLiquidity_revert : obj -> obj -> list val -> M St unit :=
  change_liquidity "burn" "decreaseLiquidity" "Before" true true tvl_remove.

(** ** mint.js *)

(** The key and the address of the pool a transaction names. *)
Definition mint_pool (tx : obj) : result (PoolKey * val * string) :=
  t0 ← get (prop tx "params") "token0";
  t1 ← get (prop tx "params") "token1";
  f ← get (prop tx "params") "fee";
  poolKey ← getPoolKey (js_String t0) (js_String t1) f;
  sender ← getKlayr32AddressFromPublicKey (prop tx "senderPublicKey");
  pool ← computePoolAddress poolKey;
  poolAddress ← getKlayr32AddressFromHexAddress (Buf pool);
  Ok (poolKey, sender, poolAddress).

(** [Buffer.from(JSON.stringify(v, null, 0), 'utf8').toString('hex')] *)
Definition json_hex (v : val) : result string :=
  s ← json_stringify v;
  match s with
  | Some s => Ok (to_hex (utf8 s))
  | None => Throw "The first argument must be of type string or an instance of Buffer"
  end.

Definition position_row (tokenId : val) (nft : NftId) (ownerAddress md tickUpper tickLower liquidity tokenURI : val) : result obj :=
  name ← get md "name"; description ← get md "description"; image ← get md "image";
  Ok [("tokenId", tokenId); ("collectionId", Str (collectionId nft)); ("owner", ownerAddress); ("name", name);
      ("description", description); ("image", image); ("tickUpper", tickUpper); ("tickLower", tickLower);
      ("liquidity", js_Number liquidity); ("tokenURI", tokenURI)].

Definition mint_position (mintEvent uriEvent incEvent : val) (poolAddress : string) : M St unit :=
  inc ← lift (get incEvent "data");
  tokenId ← lift (get inc "tokenId");
  nft ← lift (decodeNFTId (js_String tokenId));
  metadata ← lift (dex_getMetadata poolAddress (string_of_Z (index nft)));
  md ← lift (get metadata "data");
  h ← lift (json_hex md);
  add_job "NFTStorageUpload" (Object [("data", Str h)]) ≫= fun _ =>
  ownerAddress ← lift (get inc "ownerAddress");
  mintData ← lift (get mintEvent "data");
  tickUpper ← lift (get mintData "tickUpper");
  tickLower ← lift (get mintData "tickLower");
  liquidity ← lift (get inc "liquidity");
  uriData ← lift (get uriEvent "data");
  tokenURI ← lift (get uriData "tokenURI");
  row ← lift (position_row tokenId nft ownerAddress md tickUpper tickLower liquidity tokenURI);
  t_upsert positionTableSchema (Object row).

Definition mint_apply (blockHeader tx : obj) (events : list val) : M St unit :=
  when_successful tx (
    mintEvent ← lift (dex_event "mint" tx events);
    uriEvent ← lift (dex_event "tokenURICreated" tx events);
    incEvent ← lift (dex_event "increaseLiquidity" tx events);
    ksa ← lift (mint_pool tx);
    let '(poolKey, sender, poolAddress) := ksa in
    mint_position mintEvent uriEvent incEvent poolAddress ≫= fun _ =>
    tvl_rows tvl_add false blockHeader tx incEvent sender (Str poolAddress) poolKey ≫= fun _ =>
    set_ticks (Str poolAddress) mintEvent "" ≫= fun _ =>
    refresh sender (Str poolAddress)).

Definition mint_revert (blockHeader tx : obj) (events : list val) : M St unit :=
  when_successful tx (
    mintEvent ← lift (dex_event "mint" tx events);
    incEvent ← lift (dex_event "increaseLiquidity" tx events);
    inc ← lift (get incEvent "data");
    tokenId ← lift (get inc "tokenId");
    t_deleteByPrimaryKey positionTableSchema tokenId ≫= fun _ =>
    ksa ← lift (mint_pool tx);
    let '(poolKey, sender, poolAddress) := ksa in
    tvl_rows tvl_remove false blockHeader tx incEvent sender (Str poolAddress) poolKey ≫= fun _ =>
    set_ticks (Str poolAddress) mintEvent "Before" ≫= fun _ =>
    refresh sender (Str poolAddress)).

(** ** burn.js, collect.js, treasurify.js and the swap commands *)
Definition burn_set_owner (tx : obj) (events : list val) (owner : val) : M St unit :=
  e ← lift (dex_event "tokenURIDestroyed" tx events);
  d ← lift (get e "data");
  tokenId ← lift (get d "tokenId");
  t_upsert positionTableSchema (Object [("tokenId", tokenId); ("owner", owner)]).

Definition burn_apply (blockHeader tx : obj) (events : list val) : M St unit :=
  when_successful tx (burn_set_owner tx events Null).

Definition burn_revert (blockHeader tx : obj) (events : list val) : M St unit :=
  when_successful tx (
    sender ← lift (getKlayr32AddressFromPublicKey (prop tx "senderPublicKey"));
    burn_set_owner tx events sender).

Definition collect_apply (blockHeader tx : obj) : M St unit :=
  when_successful tx (
    recipient ← lift (get (prop tx "params") "recipient");
    poolAddress ← lift (get (prop tx "params") "poolAddress");
    indexAccountAddress recipient ≫= fun _ => indexAccountAddress poolAddress).
Definition collect_revert : obj -> obj -> M St unit := collect_apply.

Definition treasurify_apply (blockHeader tx : obj) (events : list val) : M St unit :=
  when_successful tx (
    e ← lift (dex_event "treasurify" tx events);
    d ← lift (get e "data");
    t ← lift (get d "treasuryAddress");
    treasuryAddress ← lift (getKlayr32AddressFromHexAddress (Hex (js_String t)));
    p ← lift (get d "poolAddress");
    poolAddress ← lift (getKlayr32AddressFromHexAddress (Hex (js_String p)));
    indexAccountAddress (Str treasuryAddress) ≫= fun _ => indexAccountAddress (Str poolAddress)).
Definition treasurify_revert : obj -> obj -> list val -> M St unit := treasurify_apply.

(** exactInput, exactInputSingle, exactOutput and exactOutputSingle. *)
Definition swap_command_apply (blockHeader tx : obj) : M St unit := ret tt.
Definition swap_command_revert (blockHeader tx : obj) : M St unit := ret tt.

(** ** createPool.js *)

(** The logo of a token from the registry, [null] on any error. *)
Definition token_logo (tokenId : val) : val :=
  match (m ← getTokenFactoriesMeta tokenId;
         d ← get m "data";
         match d with
         | Arr (x :: _) => l ← get x "logo"; get l "svg"
         | _ => Ok Null
         end) with
  | Ok v => v
  | Throw _ => Null
  end.

Definition register_token (event : val) : M St unit :=
  d ← lift (get event "data");
  tokenId ← lift (get d "tokenId");
  symbol ← lift (get d "symbol");
  decimal ← lift (get d "decimal");
  t_upsert registeredDexTokenTableSchema
    (Object [("tokenId", tokenId); ("symbol", symbol); ("decimal", decimal); ("logo", token_logo tokenId)]).

(** [tokenRegisteredEvent.find(t => t.data.tokenId === id)]: the event itself
    takes the place of the missing token row. *)
Definition token_or_event (token : val) (registered : list val) (id : val) : result val :=
  if truthy token then Ok token
  else e ← js_find (fun t => d ← get t "data"; prop_is d "tokenId" id) registered; Ok (default Undef e).

Record created_pool := mkCreated {
  cp_token0 : val; cp_token1 : val; cp_fee : val; cp_poolAddress : val; cp_tickSpacing : val; cp_tick : val;
  cp_feeHex : string; cp_collectionId : string;
}.

Definition pool_row (blockHeader : obj) (p : created_pool) (inverted : bool) (price : val) : obj :=
  [("token0", if inverted then cp_token1 p else cp_token0 p);
   ("token1", if inverted then cp_token0 p else cp_token1 p);
   ("fee", js_Number (cp_fee p)); ("inverted", Bool inverted); ("created", prop blockHeader "timestamp");
   ("poolAddress", cp_poolAddress p); ("collectionId", Str (cp_collectionId p)); ("feeHex", Str (cp_feeHex p));
   ("tickSpacing", cp_tickSpacing p); ("tick", cp_tick p); ("liquidity", Num 0); ("price", price)].

Definition created_pool_of (created initialized : val) : result created_pool :=
  d ← get created "data";
  t0 ← get d "token0"; t1 ← get d "token1"; f ← get d "fee"; a ← get d "poolAddress"; sp ← get d "tickSpacing";
  i ← get initialized "data"; tick ← get i "tick";
  feeHex ← write_uint_be 3 (js_parseInt f);
  cid ← computePoolId (Hex (js_String a));
  Ok (mkCreated t0 t1 f a sp tick (to_hex feeHex) cid).

Definition createPool_apply (blockHeader tx : obj) (events : list val) : M St unit :=
  when_successful tx (
    registered ← lift (parseEvents events MODULE_NAME_DEX (Str "tokenRegistered") (prop tx "id"));
    for_each registered register_token ≫= fun _ =>
    created ← lift (dex_event "poolCreated" tx events);
    initialized ← lift (dex_event "poolInitialized" tx events);
    p ← lift (created_pool_of created initialized);
    tok0 ← find_token Auto (js_String (cp_token0 p)) [Str "decimal"];
    tok1 ← find_token Auto (js_String (cp_token1 p)) [Str "decimal"];
    tok0 ← lift (token_or_event tok0 registered (cp_token0 p));
    tok1 ← lift (token_or_event tok1 registered (cp_token1 p));
    d0 ← lift (get tok0 "decimal");
    d1 ← lift (get tok1 "decimal");
    price ← lift (getPriceAtTick (cp_tick p) d0 d1 false);
    t_upsert poolTableSchema (Object (pool_row blockHeader p false price)) ≫= fun _ =>
    priceInverse ← lift (getPriceAtTick (cp_tick p) d0 d1 true);
    t_upsert poolTableSchema (Object (pool_row blockHeader p true priceInverse))).

Definition unregister_token (event : val) : M St unit :=
  d ← lift (get event "data");
  tokenId ← lift (get d "tokenId");
  t_deleteByPrimaryKey registeredDexTokenTableSchema tokenId.

Definition createPool_revert (blockHeader tx : obj) (events : list val) : M St unit :=
  when_successful tx (
    registered ← lift (parseEvents events MODULE_NAME_DEX (Str "tokenRegistered") (prop tx "id"));
    for_each registered unregister_token ≫= fun _ =>
    created ← lift (dex_event "poolCreated" tx events);
    d ← lift (get created "data");
    t0 ← lift (get d "token0"); t1 ← lift (get d "token1"); f ← lift (get d "fee");
    t_deleteByPrimaryKey poolTableSchema (Arr [t0; t1; js_Number f]) ≫= fun _ =>
    t_deleteByPrimaryKey poolTableSchema (Arr [t1; t0; js_Number f])).

(** ** swapProcess.js *)
Definition EXCLUDED_ADDRESS : list val :=
  [Str "klywcryfecu7yyyggmuyqcetwxzgnz73ra5hf8cde"; Str "klyo5pdmf2zvezocqfyoejt37so5myqzqxfdke6go"].

(** [mainchainID.substring(0, 2).padEnd(16, '0')] *)
Fixpoint pad_end (n : nat) (s : string) : string :=
  match n, s with
  | O, _ => s
  | S n, EmptyString => String "0"%char (pad_end n "")
  | S n, String c s => String c (pad_end n s)
  end.

Definition getKLYTokenID : result string :=
  mainchainID ← getMainchainID;
  Ok (pad_end 16 (js_substring 0 2 (js_String mainchainID))).

Definition getTreasuryAddress : result val :=
  config ← dex_getConfig; d ← get config "data"; get d "feeProtocolPool".

Definition topic1 (event : val) : result val :=
  t ← get event "topics"; l ← elements t; Ok (nth 1 l Undef).

(** [new Set()]: in insertion order, without repetitions. *)
Definition set_add (l : list val) (v : val) : list val := if decide (v ∈ l) then l else l ++ [v].

Definition swap_addresses (treasuryAddress : val) (swaps : list val) : result (list val) :=
  foldM (fun acc event =>
    d ← get event "data";
    sender ← get d "senderAddress";
    recipient ← get d "recipientAddress";
    pool ← topic1 event;
    let acc := if decide (sender ∈ EXCLUDED_ADDRESS) then acc else set_add acc sender in
    let acc := if decide (recipient ∈ EXCLUDED_ADDRESS) then acc else set_add acc recipient in
    let acc := set_add acc pool in
    Ok (if truthy treasuryAddress then set_add acc treasuryAddress else acc)) [] swaps.

(** priceFormatter.js: [decodeFeeGrowth], the division of [bigint]s. *)
Definition decodeFeeGrowth (feeGrowthX128 : Z) (liquidity : val) : result val :=
  l ← js_BigInt liquidity; Ok (Str (string_of_Z (Z.quot (feeGrowthX128 * l) (2 ^ 128)))).

Definition fee_growth (data : val) (key : string) : result val :=
  a ← get data key; x ← js_BigInt a;
  b ← get data (key +:+ "Before"); y ← js_BigInt b;
  liquidity ← get data "liquidity";
  decodeFeeGrowth (x - y) liquidity.

Definition volume_row (blockHeader : obj) (event data pool : val) : result obj :=
  height ← get event "height"; index ← get event "index";
  sender ← get data "senderAddress"; recipient ← get data "recipientAddress";
  amount0 ← get data "amount0"; amount1 ← get data "amount1";
  feeGrowth0 ← fee_growth data "feeGrowthGlobal0X128";
  feeGrowth1 ← fee_growth data "feeGrowthGlobal1X128";
  Ok [("height", height); ("index", index); ("poolAddress", pool); ("sender", sender); ("recipient", recipient);
      ("time", prop blockHeader "timestamp"); ("amount0", amount0); ("amount1", amount1);
      ("feeGrowth0", feeGrowth0); ("feeGrowth1", feeGrowth1)].

Definition update_pool (t0 t1 : string) (f price tick liquidity : val) : M St unit :=
  _ ← write_count Auto (update poolTableSchema [("token0", Str t0); ("token1", Str t1); ("fee", f)]
                          [("price", price); ("tick", tick); ("liquidity", liquidity)]);
  ret tt.

Definition update_last_price (klyTokenId tokenId : string) : M St unit :=
  if String.eqb tokenId klyTokenId then ret tt
  else
    price ← lift (getPrice tokenId klyTokenId);
    _ ← write_count Auto (update lastPriceTableSchema [("tokenId", Str tokenId)] [("current", price)]);
    ret tt.

(** One swap event: [store] adds or removes the volume row, [suffix] selects
    the state of the pool after ([""]) or before ([Before]) the swap. *)
Definition swap_event (store : obj -> M St unit) (suffix : string) (klyTokenId : string) (blockHeader : obj) (event : val)
  : M St unit :=
  pool ← lift (topic1 event);
  poolKey ← lift (decodePoolAddress (Hex (js_String pool)));
  tok0 ← find_token Trx (token0 poolKey) [Str "symbol"; Str "decimal"];
  tok1 ← find_token Trx (token1 poolKey) [Str "symbol"; Str "decimal"];
  data ← lift (get event "data");
  row ← lift (volume_row blockHeader event data pool);
  store row ≫= fun _ =>
  _ ← lift (get tok0 "symbol");
  _ ← lift (get tok1 "symbol");
  tick ← lift (get data ("tick" +:+ suffix));
  d0 ← lift (get tok0 "decimal");
  d1 ← lift (get tok1 "decimal");
  price ← lift (getPriceAtTick tick d0 d1 false);
  priceInverse ← lift (getPriceAtTick tick d0 d1 true);
  liquidity ← lift (get data ("liquidity" +:+ suffix));
  update_pool (token0 poolKey) (token1 poolKey) (fee poolKey) price tick liquidity ≫= fun _ =>
  update_pool (token1 poolKey) (token0 poolKey) (fee poolKey) priceInverse tick liquidity ≫= fun _ =>
  update_last_price klyTokenId (token0 poolKey) ≫= fun _ =>
  update_last_price klyTokenId (token1 poolKey).

Definition swap_events (store : obj -> M St unit) (suffix : string) (blockHeader : obj) (events : list val) : M St unit :=
  swaps ← lift (parseEvents events MODULE_NAME_DEX (Str "swap") Undef);
  klyTokenId ← lift getKLYTokenID;
  treasuryAddress ← lift getTreasuryAddress;
  addressToIndex ← lift (swap_addresses treasuryAddress swaps);
  for_each swaps (swap_event store suffix klyTokenId blockHeader) ≫= fun _ =>
  for_each addressToIndex indexAccountAddress.

Definition volume_add (row : obj) : M St unit := t_upsert volumeTableSchema (Object row).
Definition volume_remove (row : obj) : M St unit := t_delete volumeTableSchema row.

Definition applySwapEvent : obj -> list val -> M St unit := swap_events volume_add "".
Definition revertSwapEvent : obj -> list val -> M St unit := swap_events volume_remove "Before".

End Dex.
