(* ===== verification/Dispatch.v ===== *)
(** * transactionProcessor/index.js: choosing the processor of a transaction

    [moduleProcessorMap] maps a module to the handlers of its commands; it is
    built from the directories of processors and the modules the node has
    registered.  The processors of the DEX module ([Dex]), of the token factory
    ([TokenFactory]), of the cross-chain updates ([TransactionQuery]) and of
    [reportMisbehavior] ([Validators]) need more of the node than these, and
    are the parameter [other]. *)
From S2P Require Import Prelude JsValue Database Engine Table World Schemas KvStore Chain Stake Processors.
Local Open Scope Z_scope.

Section Dispatch.
Context {St : Type} `{SqlEngine St} `{NodeApi}.
Variable prefix : string.

(** [applyTransaction] and [revertTransaction] of a command: the block
    header, the transaction and the events of the block. *)
Definition handler : Type := obj -> obj -> list val -> M St unit.
Definition pair_of (apply revert : obj -> obj -> M St unit) : handler * handler :=
  (fun h tx _ => apply h tx, fun h tx _ => revert h tx).

Variable other : string -> string -> option (handler * handler).

(** The processors of a module directory, by [COMMAND_NAME]. *)
Definition pos_processors : list (string * (handler * handler)) :=
  [("stake", ((fun _ tx _ => stake_applyTransaction prefix tx), (fun _ tx _ => stake_revertTransaction prefix tx)));
   ("changeCommission", pair_of changeCommission_apply changeCommission_revert);
   ("claimRewards", pair_of claimRewards_apply claimRewards_revert);
   ("unlock", pair_of unlock_apply unlock_revert);
   ("registerValidator", pair_of registerValidator_apply registerValidator_revert);
   ("updateGeneratorKey", pair_of updateGeneratorKey_apply updateGeneratorKey_revert)].

Definition token_processors : list (string * (handler * handler)) :=
  [("transfer", (transfer_apply, fun h tx _ => transfer_revert h tx));
   ("transferCrossChain", (transferCrossChain_apply, fun h tx _ => transferCrossChain_revert h tx))].

Definition auth_processors : list (string * (handler * handler)) :=
  [("registerMultisignature", pair_of registerMultisignature_apply registerMultisignature_revert)].

Definition legacy_processors : list (string * (handler * handler)) :=
  [("registerKeys", pair_of registerKeys_apply registerKeys_revert);
   ("reclaimKLY", pair_of reclaimLSK_apply reclaimLSK_revert)].

Definition interoperability_processors : list (string * (handler * handler)) :=
  [("registerMainchain", pair_of registerMainchain_apply registerMainchain_revert);
   ("registerSidechain", pair_of registerSidechain_apply registerSidechain_revert);
   ("terminateSidechainForLiveness",
      pair_of terminateSidechainForLiveness_apply terminateSidechainForLiveness_revert);
   ("initializeMessageRecovery", pair_of recovery_apply recovery_revert);
   ("initializeStateRecovery", pair_of recovery_apply recovery_revert);
   ("recoverMessage", pair_of recovery_apply recovery_revert);
   ("recoverState", pair_of recovery_apply recovery_revert)].

Definition nft_processors : list (string * (handler * handler)) :=
  [("transfer", (nft_transfer_apply, nft_transfer_revert))].

Definition tokenFactory_processors : list (string * (handler * handler)) :=
  [("burn", pair_of tokenBurn_apply tokenBurn_revert); ("tokenMint", pair_of tokenMint_apply tokenMint_revert)].

Definition module_directories : list (string * list (string * (handler * handler))) :=
  [("pos", pos_processors); ("token", token_processors); ("auth", auth_processors);
   ("legacy", legacy_processors); ("interoperability", interoperability_processors);
   ("nft", nft_processors); ("tokenFactory", tokenFactory_processors)].

Fixpoint assoc {A} (l : list (string * A)) (k : string) : option A :=
  match l with
  | [] => None
  | (k', a) :: l => if String.eqb k' k then Some a else assoc l k
  end.

(** [moduleProcessorMap] after [buildModuleCommandProcessorMap]. *)
Definition processor (registeredModules : list string) (module command : string) : option (handler * handler) :=
  if existsb (String.eqb module) registeredModules then
    match assoc module_directories module ≫= fun ps => assoc ps command with
    | Some p => Some p
    | None => other module command
    end
  else None.

Definition applyTransaction (registeredModules : list string) (blockHeader tx : obj) (events : list val) : M St unit :=
  match processor registeredModules (js_String (prop tx "module")) (js_String (prop tx "command")) with
  | None => ret tt
  | Some p => fst p blockHeader tx events
  end.

Definition revertTransaction (registeredModules : list string) (blockHeader tx : obj) (events : list val) : M St unit :=
  match processor registeredModules (js_String (prop tx "module")) (js_String (prop tx "command")) with
  | None => ret tt
  | Some p => snd p blockHeader tx events
  end.

End Dispatch.

(** ** What processors leave alone *)
Section DispatchFrame.
Context {St : Type} `{SqlLaws St} `{NodeApi}.
Variable prefix : string.

Definition pair_keeps (tn : string) (p : handler (St := St) * handler (St := St)) : Prop :=
  (forall h tx ev, keeps tn (fst p h tx ev)) /\ (forall h tx ev, keeps tn (snd p h tx ev)).

Lemma kv_set_keeps c key v : keeps "blocks" (write c (kv_set (St := St) prefix key v)).
Proof. apply keeps_write. intros s s'. by apply upsert_frame. Qed.

Lemma stake_keeps tx : keeps "blocks" (stake_applyTransaction (St := St) prefix tx)
  /\ keeps "blocks" (stake_revertTransaction (St := St) prefix tx).
Proof.
  pose proof kv_set_keeps.
  unfold stake_applyTransaction, stake_revertTransaction, incrementStakeTrx, decrementStakeTrx,
    updateTotalStake, updateTotalSelfStake, committed_amount.
  split; solve_frame.
Qed.

Lemma transfer_keeps name tx ev : keeps "blocks" (transfer_with (St := St) name tx ev).
Proof. unfold transfer_with, when_successful, t_upsert, indexAccountAddress. solve_frame. Qed.

(** Every processor leaves the index of blocks to the indexer itself. *)
Lemma processors_keep_blocks :
  Forall (fun m => Forall (fun cp => pair_keeps "blocks" (snd cp)) (snd m)) (module_directories prefix).
Proof.
  unfold module_directories, pos_processors, token_processors, auth_processors, legacy_processors,
    interoperability_processors, nft_processors, tokenFactory_processors.
  repeat first [apply Forall_cons; split; cbn [snd] | apply Forall_nil_2].
  all: split; intros h tx ev; cbn [fst snd pair_of]; try apply stake_keeps; try apply transfer_keeps.
  all: unfold changeCommission_apply, changeCommission_revert, claimRewards_apply, claimRewards_revert,
    unlock_apply, unlock_revert, recovery_apply, recovery_revert, reclaimLSK_apply, reclaimLSK_revert,
    registerValidator_apply, registerValidator_revert, updateGeneratorKey_apply, updateGeneratorKey_revert,
    transfer_revert, transferCrossChain_revert, registerMultisignature_apply, registerMultisignature_revert,
    index_multisig_keys, registerKeys_apply, registerKeys_revert, registerMainchain_apply, registerMainchain_revert,
    registerSidechain_apply, registerSidechain_revert, terminateSidechainForLiveness_revert,
    terminateSidechainForLiveness_apply, nft_transfer_apply, nft_transfer_revert, nft_transfer_to,
    tokenBurn_apply, tokenBurn_revert, tokenMint_apply, tokenMint_revert,
    indexAccountAddress, indexAccountPublicKey, when_successful, t_upsert, t_delete, t_deleteByPrimaryKey.
  all: solve_frame.
Qed.

Lemma assoc_elem {A} (l : list (string * A)) k a : assoc l k = Some a -> (k, a) ∈ l.
Proof.
  induction l as [|[k' a'] l IH]; simpl; [done|]. destruct (String.eqb_spec k' k) as [->|].
  - intros [= ->]. by left.
  - intros E. right. auto.
Qed.

Variable other : string -> string -> option (handler (St := St) * handler (St := St)).
Hypothesis other_keeps : forall m c p, other m c = Some p -> pair_keeps "blocks" p.

Lemma processor_keeps ms m c p : processor prefix other ms m c = Some p -> pair_keeps "blocks" p.
Proof.
  unfold processor. destruct (existsb _ _); [|done].
  destruct (assoc (module_directories prefix) m ≫= fun ps => assoc ps c) as [p'|] eqn:E; [|apply other_keeps].
  intros [= <-]. destruct (assoc (module_directories prefix) m) as [ps|] eqn:Em; [|done]. simpl in E.
  pose proof processors_keep_blocks as Hall. rewrite Forall_forall in Hall.
  specialize (Hall _ (assoc_elem _ _ _ Em)). rewrite Forall_forall in Hall.
  exact (Hall _ (assoc_elem _ _ _ E)).
Qed.

Lemma applyTransaction_keeps ms h tx ev : keeps "blocks" (applyTransaction prefix other ms h tx ev).
Proof.
  unfold applyTransaction. destruct (processor _ _ _ _ _) as [p|] eqn:E; [|apply keeps_ret].
  apply (processor_keeps _ _ _ _ E).
Qed.

Lemma revertTransaction_keeps ms h tx ev : keeps "blocks" (revertTransaction prefix other ms h tx ev).
Proof.
  unfold revertTransaction. destruct (processor _ _ _ _ _) as [p|] eqn:E; [|apply keeps_ret].
  apply (processor_keeps _ _ _ _ E).
Qed.

End DispatchFrame.
