(* ===== verification/DexSpec.v ===== *)
(** * What the DEX processors do to the index

    The processors leave the index of blocks alone, so the block index works
    with them; and a change of liquidity is undone by its revert. *)
From S2P Require Import Prelude JsValue Database Engine Table World Schemas KvStore Chain Stake.
From S2P Require Import Processors PoolAddress Dex Dispatch.
Local Open Scope Z_scope.

(** ** The processors of the module *)
Section DexDispatch.
Context {St : Type} `{SqlEngine St} `{NodeApi} `{Crypto} `{DexApi}.

Definition dex_processors : list (string * (handler (St := St) * handler (St := St))) :=
  [("mint", (mint_apply, mint_revert));
   ("increaseLiquidity", (increaseLiquidity_apply, increaseLiquidity_revert));
   ("decreaseLiquidity", (decreaseLiquidity_apply, decreaseLiquidity_revert));
   ("burn", (burn_apply, burn_revert));
   ("collect", pair_of collect_apply collect_revert);
   ("createPool", (createPool_apply, createPool_revert));
   ("treasurify", (treasurify_apply, treasurify_revert));
   ("exactInput", pair_of swap_command_apply swap_command_revert);
   ("exactInputSingle", pair_of swap_command_apply swap_command_revert);
   ("exactOutput", pair_of swap_command_apply swap_command_revert);
   ("exactOutputSingle", pair_of swap_command_apply swap_command_revert)].

(** The DEX module in front of the remaining processors. *)
Definition with_dex (rest : string -> string -> option (handler (St := St) * handler (St := St)))
    (module command : string) : option (handler (St := St) * handler (St := St)) :=
  if String.eqb module "dex" then assoc dex_processors command else rest module command.

End DexDispatch.

Section DexFrame.
Context {St : Type} `{SqlLaws St} `{NodeApi} `{Crypto} `{DexApi}.

Lemma find_token_keeps c t l : keeps "blocks" (find_token (St := St) c t l).
Proof. unfold find_token. solve_frame. Qed.

Lemma sync_keeps a : keeps "blocks" (syncPoolData (St := St) a).
Proof. unfold syncPoolData. solve_frame. Qed.

Lemma tvl_rows_keeps store wd h tx e s a k :
  (forall r, keeps "blocks" (store r)) -> keeps "blocks" (tvl_rows (St := St) store wd h tx e s a k).
Proof. intros Hs. pose proof find_token_keeps. unfold tvl_rows. solve_frame. Qed.

Lemma ticks_keeps a e x : keeps "blocks" (set_ticks (St := St) a e x).
Proof. unfold set_ticks, set_tick. solve_frame. Qed.

Lemma refresh_keeps s a : keeps "blocks" (refresh (St := St) s a).
Proof. pose proof sync_keeps. unfold refresh, indexAccountAddress. solve_frame. Qed.

Lemma tvl_add_keeps r : keeps "blocks" (tvl_add (St := St) r).
Proof. unfold tvl_add, t_upsert. solve_frame. Qed.

Lemma tvl_remove_keeps r : keeps "blocks" (tvl_remove (St := St) r).
Proof. unfold tvl_remove, t_delete. solve_frame. Qed.

Lemma change_liquidity_keeps te ce x wd up store h tx ev :
  (forall r, keeps "blocks" (store r)) -> keeps "blocks" (change_liquidity (St := St) te ce x wd up store h tx ev).
Proof.
  intros Hs. pose proof ticks_keeps. pose proof refresh_keeps. pose proof tvl_rows_keeps.
  unfold change_liquidity, when_successful, change_position. destruct up; solve_frame.
Qed.

Lemma mint_keeps h tx ev : keeps "blocks" (mint_apply (St := St) h tx ev) /\ keeps "blocks" (mint_revert (St := St) h tx ev).
Proof.
  pose proof ticks_keeps. pose proof refresh_keeps. pose proof tvl_add_keeps. pose proof tvl_remove_keeps.
  pose proof (fun h tx e s a k => tvl_rows_keeps tvl_add false h tx e s a k tvl_add_keeps).
  pose proof (fun h tx e s a k => tvl_rows_keeps tvl_remove false h tx e s a k tvl_remove_keeps).
  unfold mint_apply, mint_revert, when_successful, mint_position, t_upsert, t_deleteByPrimaryKey. split; solve_frame.
Qed.

Lemma createPool_keeps h tx ev :
  keeps "blocks" (createPool_apply (St := St) h tx ev) /\ keeps "blocks" (createPool_revert (St := St) h tx ev).
Proof.
  pose proof find_token_keeps.
  unfold createPool_apply, createPool_revert, when_successful, register_token, unregister_token, t_upsert, t_deleteByPrimaryKey.
  split; solve_frame.
Qed.

Lemma dex_processors_keep : Forall (fun cp => pair_keeps "blocks" (snd cp)) (dex_processors (St := St)).
Proof.
  pose proof tvl_add_keeps. pose proof tvl_remove_keeps.
  unfold dex_processors. repeat first [apply Forall_cons; split; cbn [snd] | apply Forall_nil_2].
  all: split; intros h tx ev; cbn [fst snd pair_of];
    lazymatch goal with
    | |- keeps _ (mint_apply _ _ _) => apply mint_keeps
    | |- keeps _ (mint_revert _ _ _) => apply mint_keeps
    | |- keeps _ (createPool_apply _ _ _) => apply createPool_keeps
    | |- keeps _ (createPool_revert _ _ _) => apply createPool_keeps
    | |- keeps _ (increaseLiquidity_apply _ _ _) => apply change_liquidity_keeps; assumption
    | |- keeps _ (increaseLiquidity_revert _ _ _) => apply change_liquidity_keeps; assumption
    | |- keeps _ (decreaseLiquidity_apply _ _ _) => apply change_liquidity_keeps; assumption
    | |- keeps _ (decreaseLiquidity_revert _ _ _) => apply change_liquidity_keeps; assumption
    | _ => idtac
    end.
  all: unfold burn_apply, burn_revert, burn_set_owner, collect_revert, collect_apply, treasurify_revert, treasurify_apply,
    swap_command_apply, swap_command_revert, when_successful, t_upsert, indexAccountAddress; solve_frame.
Qed.

Lemma with_dex_keeps rest m c p :
  (forall m c p, rest m c = Some p -> pair_keeps "blocks" p) ->
  with_dex (St := St) rest m c = Some p -> pair_keeps "blocks" p.
Proof.
  intros Hrest. unfold with_dex. destruct (String.eqb m "dex"); [|apply Hrest].
  intros E%assoc_elem. pose proof dex_processors_keep as Hall. rewrite Forall_forall in Hall. apply (Hall _ E).
Qed.

Lemma swap_keeps store x h ev :
  (forall r, keeps "blocks" (store r)) -> keeps "blocks" (swap_events (St := St) store x h ev).
Proof.
  intros Hs. pose proof find_token_keeps.
  unfold swap_events, swap_event, update_pool, update_last_price, indexAccountAddress. solve_frame.
Qed.

Lemma applySwapEvent_keeps h ev : keeps "blocks" (applySwapEvent (St := St) h ev).
Proof. apply swap_keeps. intros r. unfold volume_add, t_upsert. solve_frame. Qed.

Lemma revertSwapEvent_keeps h ev : keeps "blocks" (revertSwapEvent (St := St) h ev).
Proof. apply swap_keeps. intros r. unfold volume_remove, t_delete. solve_frame. Qed.

End DexFrame.

(** ** A change of liquidity and its revert *)
Section Liquidity.
Context {St : Type} `{SqlLaws St} `{NodeApi} `{Crypto} `{DexApi}.

(** What a transaction that changes liquidity says. *)
Record change := mkChange {
  ch_tx : string; ch_time : Z; ch_sender : string; ch_pool : string; ch_key : PoolKey;
  ch_amount0 : Z; ch_amount1 : Z; ch_liquidity : Z; ch_position : string;
}.

(** The node reports the pool with numbers. *)
Definition pool_reported (k : PoolKey) : Prop :=
  exists pd d s0 l t, dex_getPool k = Ok pd /\ get pd "data" = Ok d /\ get d "liquidity" = Ok (Num l) /\
    get d "slot0" = Ok s0 /\ get s0 "tick" = Ok (Num t).

(** The event [te] reports ticks and their liquidity after and before. *)
Definition ticks_reported (te : string) (tx : obj) (ev : list val) : Prop :=
  exists e d, dex_event te tx ev = Ok e /\ get e "data" = Ok (Object d) /\
    forall k, k ∈ ["tickLower"; "tickUpper"; "lowerLiquidityNet"; "upperLiquidityNet"; "lowerLiquidityNetBefore";
                   "upperLiquidityNetBefore"] -> exists z, js_Number (prop d k) = Num z.

Definition changes (te ce : string) (withdraw : bool) (h tx : obj) (ev : list val) (c : change) : Prop :=
  prop tx "executionStatus" = SUCCESSFUL /\ prop tx "id" = Str (ch_tx c) /\ prop h "timestamp" = Num (ch_time c) /\
  get (prop tx "params") "poolAddress" = Ok (Str (ch_pool c)) /\
  getKlayr32AddressFromPublicKey (prop tx "senderPublicKey") = Ok (Str (ch_sender c)) /\
  decodePoolAddress (Hex (ch_pool c)) = Ok (ch_key c) /\ pool_reported (ch_key c) /\ ticks_reported te tx ev /\
  exists e d, dex_event ce tx ev = Ok e /\ get e "data" = Ok (Object d) /\
    tvl_amount withdraw (Object d) "amount0" = Ok (Num (ch_amount0 c)) /\
    tvl_amount withdraw (Object d) "amount1" = Ok (Num (ch_amount1 c)) /\
    js_Number (prop d "liquidity") = Num (ch_liquidity c) /\ prop d "tokenId" = Str (ch_position c).

(** Both tokens of the pool are registered. *)
Definition tokens_known (s : St) (k : PoolKey) : Prop :=
  table_ok registeredDexTokenTableSchema (rows_of s registeredDexTokenTableSchema) /\
  is_Some (rows_of s registeredDexTokenTableSchema !! [SStr (token0 k)]) /\
  is_Some (rows_of s registeredDexTokenTableSchema !! [SStr (token1 k)]).

(** *** The steps of the handler *)
Lemma token_key t : key_values registeredDexTokenTableSchema [Str t].
Proof. constructor; [|constructor]. exists (col "string"). split; [by left|done]. Qed.

Lemma find_token_ok c t (w : world St) :
  table_ok registeredDexTokenTableSchema (rows_of (db c w) registeredDexTokenTableSchema) ->
  is_Some (rows_of (db c w) registeredDexTokenTableSchema !! [SStr t]) ->
  exists o, find_token c t [Str "symbol"] w = (Ok (Object o), w).
Proof.
  intros Hok [r Hr]. unfold find_token, find. cbn [truthy].
  eexists. erewrite (M_bind_ok _ _ _ _ w).
  2:{ apply read_ok. cbn. apply (select_key registeredDexTokenTableSchema (db c w) _ [Str t]);
        [exact Hok|apply token_key|done|done|]. intros r'. unfold matches. simpl. by rewrite !andb_true_r. }
  change (to_sql <$> [Str t]) with [SStr t]. rewrite Hr. reflexivity.
Qed.

(** The row of the table [tvl] with the given index. *)
Definition tvl_obj (c : change) (i : Z) : obj :=
  [("transactionId", Str (ch_tx c)); ("index", Num i); ("time", Num (ch_time c)); ("sender", Str (ch_sender c));
   ("poolAddress", Str (ch_pool c)); ("amount", Num (if i =? 0 then ch_amount0 c else ch_amount1 c));
   ("tokenId", Str (if i =? 0 then token0 (ch_key c) else token1 (ch_key c)))].

Lemma tvl_row_obj h tx c i :
  prop tx "id" = Str (ch_tx c) -> prop h "timestamp" = Num (ch_time c) ->
  tvl_row h tx i (Str (ch_sender c)) (Str (ch_pool c)) (Num (if i =? 0 then ch_amount0 c else ch_amount1 c))
    (if i =? 0 then token0 (ch_key c) else token1 (ch_key c)) = tvl_obj c i.
Proof. intros E1 E2. unfold tvl_row, tvl_obj. by rewrite E1, E2. Qed.

Lemma tvl_mapRow c i : mapRowBySchema (tvl_obj c i) (schema tvlTableSchema) = Ok (tvl_obj c i).
Proof. done. Qed.

Lemma tvl_insertable c i : insertable tvlTableSchema (row_of (tvl_obj c i)) = true.
Proof. done. Qed.

Lemma tvl_key_of c i : key_of tvlTableSchema (row_of (tvl_obj c i)) = [SStr (ch_tx c); SInt i].
Proof. done. Qed.

Lemma tvl_add_ok c i (w : world St) :
  exists s, tvl_add (tvl_obj c i) w = (Ok tt, set_db Trx s w) /\
    table_set (w_trx w) s tvlTableSchema (insert_row tvlTableSchema (rows_of (w_trx w) tvlTableSchema) (tvl_obj c i)).
Proof.
  destruct (upsert_one tvlTableSchema (tvl_obj c i) _ (w_trx w) (tvl_mapRow c i) (tvl_insertable c i)) as (s & E & Hs).
  exists s. split; [by apply write_ok|done].
Qed.

(** The statement [delete] of a row: only the row of that transaction and
    index can match. *)
Definition tvl_gone (c : change) (i : Z) (rs : rows) : rows :=
  filter (fun kr => matches [KSelect (primaryKey tvlTableSchema); KWhere (Object (tvl_obj c i))] (snd kr) = false) rs.

Lemma tvl_remove_ok c i (w : world St) :
  exists s, tvl_remove (tvl_obj c i) w = (Ok tt, set_db Trx s w) /\
    table_set (w_trx w) s tvlTableSchema (tvl_gone c i (rows_of (w_trx w) tvlTableSchema)).
Proof.
  destruct (delete_law tvlTableSchema [KSelect (primaryKey tvlTableSchema); KWhere (Object (tvl_obj c i))] (w_trx w) eq_refl)
    as (s & E & Hs). exists s. split; [|exact Hs].
  unfold tvl_remove, t_delete. by erewrite M_bind_ok by (by apply write_count_ok).
Qed.

Lemma tvl_rows_ok (store : obj -> M St unit) (G : Z -> rows -> rows) wd h tx e d c (w : world St) :
  (forall i w, exists s, store (tvl_obj c i) w = (Ok tt, set_db Trx s w) /\
     table_set (w_trx w) s tvlTableSchema (G i (rows_of (w_trx w) tvlTableSchema))) ->
  prop tx "id" = Str (ch_tx c) -> prop h "timestamp" = Num (ch_time c) -> get e "data" = Ok (Object d) ->
  tvl_amount wd (Object d) "amount0" = Ok (Num (ch_amount0 c)) ->
  tvl_amount wd (Object d) "amount1" = Ok (Num (ch_amount1 c)) -> tokens_known (w_trx w) (ch_key c) ->
  exists s, tvl_rows store wd h tx e (Str (ch_sender c)) (Str (ch_pool c)) (ch_key c) w = (Ok tt, set_db Trx s w) /\
    table_set (w_trx w) s tvlTableSchema (G 1 (G 0 (rows_of (w_trx w) tvlTableSchema))).
Proof.
  intros Hst Hid Ht Hd Ha0 Ha1 (Hok & Hk0 & Hk1).
  pose proof (tvl_row_obj h tx c 0 Hid Ht) as R0. pose proof (tvl_row_obj h tx c 1 Hid Ht) as R1.
  change (0 =? 0) with true in R0. change (1 =? 0) with false in R1. cbv iota in R0, R1.
  destruct (find_token_ok Trx (token0 (ch_key c)) w Hok Hk0) as [o0 E0].
  destruct (find_token_ok Trx (token1 (ch_key c)) w Hok Hk1) as [o1 E1].
  destruct (Hst 0 w) as (s1 & S1 & T1). destruct (Hst 1 (set_db Trx s1 w)) as (s2 & S2 & T2).
  exists s2. split.
  - unfold tvl_rows. rewrite (M_bind_ok _ _ _ _ _ E0), (M_bind_ok _ _ _ _ _ E1).
    rewrite (lift_ok _ _ _ _ Hd), (lift_ok _ _ _ _ Ha0).
    rewrite R0, (M_bind_ok _ _ _ _ _ S1).
    rewrite (lift_ok (get (Object o0) "symbol") _ _ _ eq_refl), (lift_ok _ _ _ _ Ha1).
    by rewrite R1, (M_bind_ok _ _ _ _ _ S2).
  - destruct T1 as [T1 F1], T2 as [T2 F2]. split.
    + rewrite T2. cbn [db w_trx set_db]. by rewrite T1.
    + intros tn Hne. rewrite (F2 tn Hne). cbn [w_trx set_db]. by apply F1.
Qed.

Lemma set_tick_ok pool e d tk nk z n (w : world St) :
  get e "data" = Ok (Object d) -> js_Number (prop d tk) = Num z -> js_Number (prop d nk) = Num n ->
  exists s, set_tick (Str pool) e tk nk w = (Ok tt, set_db Auto s w).
Proof.
  intros Hd Hz Hn. unfold set_tick. rewrite (lift_ok _ _ _ _ Hd).
  rewrite (lift_ok (get (Object d) tk) _ _ _ eq_refl), (lift_ok (get (Object d) nk) _ _ _ eq_refl), Hz, Hn.
  set (o := [("poolAddress", Str pool); ("tick", Num z); ("liquidityNet", Num n)]).
  destruct (upsert_one tickTableSchema o o (w_auto w) eq_refl eq_refl) as (s & E & _).
  exists s. by apply write_ok.
Qed.

Lemma set_ticks_ok te tx ev pool x (w : world St) :
  ticks_reported te tx ev -> x = "" \/ x = "Before" ->
  exists e s, dex_event te tx ev = Ok e /\ set_ticks (Str pool) e x w = (Ok tt, set_db Auto s w).
Proof.
  intros (e & d & He & Hd & Hk) Hx.
  assert (forall k, In k ["tickLower"; "tickUpper"; "lowerLiquidityNet" +:+ x; "upperLiquidityNet" +:+ x] ->
    exists z, js_Number (prop d k) = Num z) as Hk'.
  { intros k Hin. apply Hk, list_elem_of_In. destruct Hx as [-> | ->]; simpl in *; tauto. }
  destruct (Hk' "tickLower") as [zl Hl]; [by left|]. destruct (Hk' "tickUpper") as [zu Hu]; [by right; left|].
  destruct (Hk' ("lowerLiquidityNet" +:+ x)) as [nl Hnl]; [by do 2 right; left|].
  destruct (Hk' ("upperLiquidityNet" +:+ x)) as [nu Hnu]; [by do 3 right; left|].
  destruct (set_tick_ok pool e d _ _ zl nl w Hd Hl Hnl) as (s1 & E1).
  destruct (set_tick_ok pool e d _ _ zu nu (set_db Auto s1 w) Hd Hu Hnu) as (s2 & E2).
  exists e, s2. split; [done|]. unfold set_ticks. by rewrite (M_bind_ok _ _ _ _ _ E1).
Qed.

Lemma position_key t : key_values positionTableSchema [Str t].
Proof. constructor; [|constructor]. exists (col "string"). split; [by left|done]. Qed.

(** The position [id] with its liquidity changed by [z]. *)
Definition moved (id : string) (z : Z) (rs : rows) : rows := bump [SStr id] "liquidity" z rs.

Lemma change_position_ok (up : bool) e d id n (w : world St) :
  get e "data" = Ok (Object d) -> js_Number (prop d "liquidity") = Num n -> prop d "tokenId" = Str id ->
  table_ok positionTableSchema (rows_of (w_trx w) positionTableSchema) ->
  exists s, change_position up e w = (Ok tt, set_db Trx s w) /\
    table_set (w_trx w) s positionTableSchema (moved id (if up then n else - n) (rows_of (w_trx w) positionTableSchema)).
Proof.
  intros Hd Hn Hid Hok. unfold change_position. rewrite (lift_ok _ _ _ _ Hd).
  rewrite (lift_ok (get (Object d) "liquidity") _ _ _ eq_refl), (lift_ok (get (Object d) "tokenId") _ _ _ eq_refl).
  unfold position_param. rewrite Hn, Hid.
  destruct (add_key positionTableSchema (w_trx w) [KWhere (Object [("tokenId", Str id)])] [Str id]
    [("liquidity", if up then n else - n)]) as (s & E & Hs); [done|apply position_key|done..| |].
  - intros r. unfold matches. simpl. by rewrite !andb_true_r.
  - exists s. split; [|exact Hs]. destruct up; by erewrite M_bind_ok by (apply write_count_ok; exact E).
Qed.

Lemma refresh_ok sender pool k (w : world St) :
  decodePoolAddress (Hex pool) = Ok k -> pool_reported k ->
  exists w', refresh (Str sender) (Str pool) w = (Ok tt, w') /\ w_trx w' = w_trx w.
Proof.
  intros Hk (pd & d & s0 & l & t & Hpd & Hd & Hl & Hs0 & Ht). unfold refresh.
  set (w1 := snd (indexAccountAddress (Str sender) w)). set (w2 := snd (indexAccountAddress (Str pool) w1)).
  rewrite (M_bind_ok (indexAccountAddress (Str sender)) _ w tt w1) by done.
  rewrite (M_bind_ok (indexAccountAddress (Str pool)) _ w1 tt w2) by done.
  assert (forall (b : bool) s, exists s' n, update poolTableSchema [("poolAddress", Str pool); ("inverted", Bool b)]
    [("liquidity", Num l); ("tick", Num t)] s = Ok (s', n)) as Hup.
  { intros b s. destruct (update_law poolTableSchema [KSelect (primaryKey poolTableSchema);
      KWhere (Object [("poolAddress", Str pool); ("inverted", Bool b)])] (row_of [("liquidity", Num l); ("tick", Num t)]) s)
      as (s' & E & _); [done..|]. exists s'. eexists. exact E. }
  destruct (Hup false (w_auto w2)) as (s1 & n1 & E1). destruct (Hup true s1) as (s2 & n2 & E2).
  exists (set_db Auto s2 (set_db Auto s1 w2)). split; [|done].
  unfold syncPoolData. cbn [js_String].
  rewrite (lift_ok _ _ _ _ Hk), (lift_ok _ _ _ _ Hpd), (lift_ok _ _ _ _ Hd), (lift_ok _ _ _ _ Hl),
    (lift_ok _ _ _ _ Hs0), (lift_ok _ _ _ _ Ht).
  rewrite (M_bind_ok _ _ _ _ _ (write_count_ok Auto _ w2 s1 n1 E1)).
  by rewrite (M_bind_ok _ _ _ _ _ (write_count_ok Auto _ (set_db Auto s1 w2) s2 n2 E2)).
Qed.

(** *** The whole handler *)

(** One run: the rows of [tvl] become [G 1 (G 0 _)], the liquidity of the
    position moves by [z], the registered tokens stay. *)
Lemma change_liquidity_run te ce x wd up (store : obj -> M St unit) (G : Z -> rows -> rows) h tx ev c (w : world St) :
  (forall i w, exists s, store (tvl_obj c i) w = (Ok tt, set_db Trx s w) /\
     table_set (w_trx w) s tvlTableSchema (G i (rows_of (w_trx w) tvlTableSchema))) ->
  x = "" \/ x = "Before" -> changes te ce wd h tx ev c -> tokens_known (w_trx w) (ch_key c) ->
  table_ok positionTableSchema (rows_of (w_trx w) positionTableSchema) ->
  exists w', change_liquidity te ce x wd up store h tx ev w = (Ok tt, w') /\
    rows_of (w_trx w') tvlTableSchema = G 1 (G 0 (rows_of (w_trx w) tvlTableSchema)) /\
    rows_of (w_trx w') positionTableSchema
    = moved (ch_position c) (if up then ch_liquidity c else - ch_liquidity c) (rows_of (w_trx w) positionTableSchema) /\
    rows_of (w_trx w') registeredDexTokenTableSchema = rows_of (w_trx w) registeredDexTokenTableSchema.
Proof.
  intros Hst Hx (Hs & Hid & Ht & Hp & Hse & Hk & Hpr & Htk & e & d & He & Hd & Ha0 & Ha1 & Hl & Hpos) Htok Hok.
  destruct (tvl_rows_ok store G wd h tx e d c w Hst Hid Ht Hd Ha0 Ha1 Htok) as (s1 & E1 & T1 & F1).
  destruct (set_ticks_ok te tx ev (ch_pool c) x (set_db Trx s1 w) Htk Hx) as (e' & s2 & He' & E2).
  set (w2 := set_db Auto s2 (set_db Trx s1 w)).
  assert (rows_of (w_trx w2) positionTableSchema = rows_of (w_trx w) positionTableSchema) as Ep by (by apply F1).
  destruct (change_position_ok up e d (ch_position c) (ch_liquidity c) w2 Hd Hl Hpos) as (s3 & E3 & T3 & F3);
    [by rewrite Ep|].
  destruct (refresh_ok (ch_sender c) (ch_pool c) (ch_key c) (set_db Trx s3 w2) Hk Hpr) as (w' & E4 & Hw').
  exists w'. split_and!.
  - unfold change_liquidity, when_successful. rewrite bool_decide_eq_true_2 by done.
    rewrite (lift_ok _ _ _ _ He'), (lift_ok _ _ _ _ He), (lift_ok _ _ _ _ Hp). cbn [js_String].
    rewrite (lift_ok _ _ _ _ Hk), (lift_ok _ _ _ _ Hse).
    by rewrite (M_bind_ok _ _ _ _ _ E1), (M_bind_ok _ _ _ _ _ E2), (M_bind_ok _ _ _ _ _ E3).
  - rewrite Hw'. etrans; [by apply F3|]. exact T1.
  - rewrite Hw'. etrans; [exact T3|]. by rewrite Ep.
  - rewrite Hw'. etrans; [by apply F3|]. by apply F1.
Qed.

(** *** Undoing the rows *)
Lemma tvl_key c i : key_values tvlTableSchema [Str (ch_tx c); Num i].
Proof.
  constructor; [|constructor; [|constructor]].
  - exists (col "string"). split; [by left|done].
  - exists (col "integer"). split; [by right; left|done].
Qed.

Lemma tvl_match c i k r :
  row_in tvlTableSchema k r -> forallb (eq_test r) (tvl_obj c i) = true -> k = [SStr (ch_tx c); SInt i].
Proof.
  intros Hr Hm. apply (eq_tests_key tvlTableSchema k r [Str (ch_tx c); Num i] Hr (tvl_key c i)).
  rewrite forallb_forall in *. intros kv Hin. apply Hm. destruct Hin as [<-|[<-|[]]]; [by left|by right; left].
Qed.

Lemma tvl_gone_spec c i rs :
  table_ok tvlTableSchema rs -> tvl_gone c i rs !! [SStr (ch_tx c); SInt i] = None ->
  tvl_gone c i rs = delete [SStr (ch_tx c); SInt i] rs.
Proof.
  intros Hok Hgone. apply map_eq. intros k. destruct (decide (k = [SStr (ch_tx c); SInt i])) as [->|Hne].
  - by rewrite Hgone, lookup_delete_eq.
  - rewrite lookup_delete_ne by done. apply option_eq. intros r. unfold tvl_gone.
    rewrite map_lookup_filter_Some. split; [by intros [? _]|]. intros Hr. split; [done|]. cbn [snd].
    apply not_true_iff_false. intros Hm. apply Hne. apply (tvl_match c i k r); [by apply Hok|].
    unfold matches in Hm. cbn [forallb matches1 andb] in Hm. by rewrite andb_true_r in Hm.
Qed.

Lemma tvl_gone_own c i rs old :
  table_ok tvlTableSchema rs -> rs !! [SStr (ch_tx c); SInt i] = Some (row_of (tvl_obj c i) ∪ old) ->
  tvl_gone c i rs = delete [SStr (ch_tx c); SInt i] rs.
Proof.
  intros Hok Hr. apply tvl_gone_spec; [done|]. apply map_lookup_filter_None. right. rewrite Hr.
  intros r [= <-]. cbn [snd]. apply not_false_iff_true. unfold matches. cbn [forallb matches1 andb].
  rewrite andb_true_r. apply eq_tests_own; [|repeat constructor].
  apply (bool_decide_unpack _). vm_compute. exact I.
Qed.

(** The two rows of a change in the table. *)
Definition tvl_both (c : change) (rs : rows) : rows :=
  insert_row tvlTableSchema (insert_row tvlTableSchema rs (tvl_obj c 0)) (tvl_obj c 1).

Lemma tvl_both_row c rs i :
  i = 0 \/ i = 1 -> exists old, tvl_both c rs !! [SStr (ch_tx c); SInt i] = Some (row_of (tvl_obj c i) ∪ old).
Proof.
  unfold tvl_both. unfold insert_row at 1. rewrite tvl_key_of. intros [-> | ->].
  - rewrite lookup_insert_ne by done. unfold insert_row. rewrite tvl_key_of, lookup_insert_eq. by eexists.
  - rewrite lookup_insert_eq. by eexists.
Qed.

Lemma tvl_both_ok c rs : table_ok tvlTableSchema rs -> table_ok tvlTableSchema (tvl_both c rs).
Proof. intros Hok. apply table_ok_insert; [done| |done]. by apply table_ok_insert. Qed.

Lemma tvl_both_gone c rs :
  table_ok tvlTableSchema rs -> (forall i, i = 0 \/ i = 1 -> rs !! [SStr (ch_tx c); SInt i] = None) ->
  tvl_gone c 1 (tvl_gone c 0 (tvl_both c rs)) = rs.
Proof.
  intros Hok Hfree. pose proof (tvl_both_ok c rs Hok) as Hb.
  destruct (tvl_both_row c rs 0 (or_introl eq_refl)) as [o0 R0]. destruct (tvl_both_row c rs 1 (or_intror eq_refl)) as [o1 R1].
  rewrite (tvl_gone_own c 0 _ o0 Hb R0). rewrite (tvl_gone_own c 1 _ o1).
  - unfold tvl_both. unfold insert_row at 1. rewrite tvl_key_of. unfold insert_row. rewrite tvl_key_of.
    rewrite delete_insert_ne, delete_insert_eq, delete_insert_eq by done.
    rewrite (delete_id rs) by (apply Hfree; by left). apply delete_id, Hfree. by right.
  - intros k r [_ Hr]%lookup_delete_Some. by apply Hb.
  - by rewrite lookup_delete_ne.
Qed.

(** [C7] A change of liquidity in a pool is recorded and can be taken back:
    applying an [increaseLiquidity] (or [decreaseLiquidity]) transaction adds
    the two rows of its token amounts to the total value locked and moves the
    liquidity of the position by the reported amount; reverting the
    transaction restores the tables of positions and of locked value. *)
Theorem liquidity_apply_revert (increase : bool) h tx ev c z (w : world St) :
  let tvl w := rows_of (w_trx w) tvlTableSchema in
  let positions w := rows_of (w_trx w) positionTableSchema in
  let apply := if increase then increaseLiquidity_apply else decreaseLiquidity_apply in
  let revert := if increase then increaseLiquidity_revert else decreaseLiquidity_revert in
  changes (if increase then "mint" else "burn") (if increase then "increaseLiquidity" else "decreaseLiquidity")
    (negb increase) h tx ev c ->
  tokens_known (w_trx w) (ch_key c) -> table_ok positionTableSchema (positions w) -> table_ok tvlTableSchema (tvl w) ->
  counter (positions w) [SStr (ch_position c)] "liquidity" = Some z ->
  (forall i, i = 0 \/ i = 1 -> tvl w !! [SStr (ch_tx c); SInt i] = None) ->
  exists w1 w2, apply h tx ev w = (Ok tt, w1) /\
    counter (positions w1) [SStr (ch_position c)] "liquidity"
    = Some (if increase then z + ch_liquidity c else z - ch_liquidity c) /\
    counter (tvl w1) [SStr (ch_tx c); SInt 0] "amount" = Some (ch_amount0 c) /\
    counter (tvl w1) [SStr (ch_tx c); SInt 1] "amount" = Some (ch_amount1 c) /\
    revert h tx ev w1 = (Ok tt, w2) /\ positions w2 = positions w /\ tvl w2 = tvl w.
Proof.
  intros tvl positions apply revert Hch Htok Hpos Htvl Hz Hfree. unfold positions, tvl in Hz, Hpos, Htvl, Hfree.
  destruct (change_liquidity_run _ _ "" _ increase tvl_add (fun i rs => insert_row tvlTableSchema rs (tvl_obj c i)) h tx ev c w
    (tvl_add_ok c) (or_introl eq_refl) Hch Htok Hpos) as (w1 & E1 & T1 & P1 & K1).
  destruct (change_liquidity_run _ _ "Before" _ (negb increase) tvl_remove (tvl_gone c) h tx ev c w1
    (tvl_remove_ok c) (or_intror eq_refl) Hch) as (w2 & E2 & T2 & P2 & _).
  { unfold tokens_known. by rewrite K1. }
  { rewrite P1. apply table_ok_alter; [done|..]; intros r; [by apply key_of_add_cells|by apply row_typed_add_cells]. }
  exists w1, w2. unfold positions, tvl. rewrite T1, P1, T2, T1, P2, P1. fold (tvl_both c (rows_of (w_trx w) tvlTableSchema)).
  assert (forall i, i = 0 \/ i = 1 -> counter (tvl_both c (rows_of (w_trx w) tvlTableSchema)) [SStr (ch_tx c); SInt i] "amount"
    = Some (if i =? 0 then ch_amount0 c else ch_amount1 c)) as Hamt.
  { intros i Hi. unfold counter. destruct (tvl_both_row c (rows_of (w_trx w) tvlTableSchema) i Hi) as [old ->].
    rewrite cell_union_l; [done|]. apply elem_of_dom. by eexists. }
  pose proof (counter_bump _ _ _ (if increase then ch_liquidity c else - ch_liquidity c) _ Hz) as Hb.
  pose proof (bump_back _ _ _ (if increase then ch_liquidity c else - ch_liquidity c) _ Hz) as Hbb.
  split_and!; [by destruct increase| |by apply (Hamt 0); left|by apply (Hamt 1); right|by destruct increase| |by apply tvl_both_gone].
  - unfold moved. rewrite Hb. f_equal. by destruct increase.
  - unfold moved. destruct increase; [done|]. rewrite Z.opp_involutive in Hbb. exact Hbb.
Qed.
End Liquidity.

(** ** An example *)
Definition sample_dex : DexApi := {|
  dex_getMetadata _ _ := Ok Undef;
  dex_getPool _ := Ok (Object [("data", Object [("liquidity", Num 60); ("slot0", Object [("tick", Num 7)])])]);
  getPriceAtTick _ _ _ _ := Ok (Num 1);
  getTokenFactoriesMeta _ := Throw "not found";
  getPrice _ _ := Ok (Num 1);
  dex_getConfig := Ok (Object [("data", Object [("feeProtocolPool", Undef)])]);
|}.

Definition sample_pool : string := "0000000000000000000000010000000000000bb8".

Definition dex_sample_event (name : string) (data : obj) : val :=
  Object [("module", Str "dex"); ("name", Str name); ("topics", Arr [Str "04t1"]); ("data", Object data)].

Definition sample_events : list val :=
  [dex_sample_event "mint" [("tickLower", Str "-60"); ("tickUpper", Str "60"); ("lowerLiquidityNet", Str "50");
     ("upperLiquidityNet", Str "-50"); ("lowerLiquidityNetBefore", Str "10"); ("upperLiquidityNetBefore", Str "-10")];
   dex_sample_event "increaseLiquidity" [("tokenId", Str "nft1"); ("liquidity", Str "40"); ("amount0", Str "11"); ("amount1", Str "12")]].

Definition sample_increase : obj :=
  [("id", Str "t1"); ("executionStatus", SUCCESSFUL); ("senderPublicKey", Str "alice");
   ("params", Object [("poolAddress", Str sample_pool)])].

Definition sample_header : obj := [("timestamp", Num 1000)].

Definition sample_token (id : string) : obj := [("tokenId", Str id); ("symbol", Str "T"); ("decimal", Num 8)].
Definition sample_position : obj := [("tokenId", Str "nft1"); ("owner", Str "alice"); ("liquidity", Num 20)].

(** Two registered tokens and a position. *)
Definition sample_tokens_rows : rows :=
  insert_row registeredDexTokenTableSchema
    (insert_row registeredDexTokenTableSchema ∅ (sample_token "0000000000000000")) (sample_token "0000000100000000").
Definition sample_position_rows : rows := insert_row positionTableSchema ∅ sample_position.
Definition sample_dex_db : MemDB :=
  <["registered_dex_token" := sample_tokens_rows]> (<["position" := sample_position_rows]> ∅).
Definition sample_dex_world : world MemDB := mkWorld sample_dex_db sample_dex_db ∅ [] sample_dex_db.

Lemma table_ok_empty (t : table) : table_ok t ∅.
Proof. intros k r. by rewrite lookup_empty. Qed.

Lemma sample_tokens_rows_ok : table_ok registeredDexTokenTableSchema sample_tokens_rows.
Proof.
  apply table_ok_insert; [reflexivity| |vm_compute; reflexivity].
  apply table_ok_insert; [reflexivity|apply table_ok_empty|vm_compute; reflexivity].
Qed.

Lemma sample_tokens_known :
  tokens_known (w_trx sample_dex_world) (mkPoolKey "0000000000000000" "0000000100000000" (Str "3000")).
Proof.
  split; [exact sample_tokens_rows_ok|]. split; apply (bool_decide_unpack _); vm_compute; exact I.
Qed.

Lemma sample_changes :
  changes (H1 := sample_node) (H2 := plain_crypto) (H3 := sample_dex) "mint" "increaseLiquidity" false sample_header
    sample_increase sample_events
    (mkChange "t1" 1000 "alice" sample_pool (mkPoolKey "0000000000000000" "0000000100000000" (Str "3000")) 11 12 40 "nft1").
Proof.
  do 6 (split; [reflexivity|]). split.
  { eexists _, _, _, _, _. split_and!; reflexivity. }
  split.
  { eexists _, _. split; [reflexivity|]. split; [reflexivity|]. intros k Hk.
    apply list_elem_of_In in Hk. repeat destruct Hk as [<-|Hk]; try (eexists; reflexivity). destruct Hk. }
  eexists _, _. split_and!; reflexivity.
Qed.

Lemma liquidity_apply_revert_witness :
  exists w1 w2, increaseLiquidity_apply (H0 := sample_node) (H1 := plain_crypto) (H2 := sample_dex) sample_header
      sample_increase sample_events sample_dex_world = (Ok tt, w1) /\
    counter (rows_of (w_trx w1) positionTableSchema) [SStr "nft1"] "liquidity" = Some 60 /\
    increaseLiquidity_revert (H0 := sample_node) (H1 := plain_crypto) (H2 := sample_dex) sample_header
      sample_increase sample_events w1 = (Ok tt, w2) /\
    rows_of (w_trx w2) positionTableSchema = sample_position_rows.
Proof.
  destruct (liquidity_apply_revert (H1 := sample_node) (H2 := plain_crypto) (H3 := sample_dex) true sample_header
    sample_increase sample_events _ 20 sample_dex_world sample_changes) as (w1 & w2 & E1 & A1 & _ & _ & E2 & A2 & _).
  - exact sample_tokens_known.
  - apply (table_ok_insert positionTableSchema ∅); [reflexivity|apply table_ok_empty|vm_compute; reflexivity].
  - apply table_ok_empty.
  - vm_compute. reflexivity.
  - intros i _. reflexivity.
  - exists w1, w2. split; [exact E1|]. split; [exact A1|]. split; [exact E2|exact A2].
Defined.

(** The net liquidity of ticks is written outside the transaction of the
    block: it is committed even when the block is rolled back later. *)
Lemma ticks_outside_transaction :
  let w := snd (increaseLiquidity_apply (H0 := sample_node) (H1 := plain_crypto) (H2 := sample_dex) sample_header
                  sample_increase sample_events sample_dex_world) in
  counter (rows_of (w_auto w) tickTableSchema) [SStr sample_pool; SInt (-60)] "liquidityNet" = Some 50 /\
  rows_of (w_trx w) tickTableSchema = ∅.
Proof. vm_compute. split; reflexivity. Qed.
