(* ===== verification/BlockIndex.v ===== *)
(** * indexer/blockchainIndex.js: indexing and deleting blocks

    Jobs of the queues [IndexBlocks] and [DeleteIndexedBlocks].  A job works
    in a database transaction that it commits at the end or rolls back on an
    error; its checks, its statements and its commit are definitions of their
    own, between which jobs of other queues may run.  The transactions of a block are processed one after the other.
    What the node answers is a [node_view], which may differ from job to job;
    the genesis assets and the DEX price and swap indexes are parameters of
    the section. *)
From S2P Require Import Prelude JsValue Database Engine Table World Schemas KvStore Chain Stake.
From S2P Require Import Rewards Balances Processors Dispatch.
Local Open Scope Z_scope.

(** ** Polling and loops *)
Section Trx.
Context {St : Type}.

(** [waitForIt(check)] polls until [check] answers, also after an error.
    Nothing changes between two polls, so a check without an answer never gets
    one. *)
Definition waitForIt (check : M St (option bool)) : M St unit := fun w =>
  match check w with
  | (Ok (Some _), w') => (Ok tt, w')
  | (_, w') => (Throw never_returns, w')
  end.

(** A loop with a variable: [let s; for (const x of l) s = await f(s, x)]. *)
Fixpoint fold_each {A S} (l : list A) (f : S -> A -> M St S) (s : S) : M St S :=
  match l with
  | [] => ret s
  | x :: l => s' ← f s x; fold_each l f s'
  end.

End Trx.

(** What the node and the job queue answer during a job. *)
Record node_view := mkNode {
  nv_genesisHeight : Z;
  nv_currentHeight : Z;
  nv_finalizedHeight : Z;
  nv_block : Z -> result obj;
  nv_events : Z -> result (list val);
  nv_registeredModules : list string;
  nv_liveJobs : Z;
}.

Definition scheduledJobsMaxCount : Z := 100000.

Definition validateBlock (block : obj) : bool :=
  match prop block "height" with Num h => 0 <=? h | _ => false end.

Section BlockIndex.
Context {St : Type} `{SqlEngine St} `{NodeApi} `{Q96}.
Variable prefix : string.
Variable other : string -> string -> option (handler (St := St) * handler (St := St)).
(** genesisBlock.js, dexSync.js, swapProcess.js and priceIndexer.js *)
Variable indexGenesisBlockAssets : obj -> M St unit.
Variable addGenesisPriceIndex addPriceIndex deletePriceIndex : obj -> M St unit.
Variable applySwapEvent revertSwapEvent : obj -> list val -> M St unit.
(** dataService: the transactions and events of an indexed block. *)
Variable getTransactionsByBlockID : val -> M St val.
Variable getTransactionIDsByBlockID : val -> M St (list val).
Variable getEventsByBlockID : val -> M St (list val).

(** ** Queries on the index *)
Definition find_blocks (params : obj) (columns : list val) : M St (list obj) :=
  read Auto (find blocksTableSchema params (Arr columns)).

Definition checkBlockHeightIndexStatusInDB (blockHeight : val) (isCommit : bool) : M St (option bool) :=
  rows ← find_blocks [("height", blockHeight)] [Str "height"];
  let height := match rows with r :: _ => prop r "height" | [] => Undef end in
  ret (if if isCommit then bool_decide (height = blockHeight) else bool_decide (height = Undef)
       then Some true else None).

Definition checkBlockIDsDeleteStatusInDB (blockIDs : list val) (isCommit : bool) : M St (option bool) :=
  rows ← read Auto (find blocksTableSchema
           [("whereIn", Object [("property", Str "id"); ("values", Arr blockIDs)])] Undef);
  ret (if (if isCommit then Nat.eqb (length rows) 0 else negb (Nat.eqb (length rows) 0))
       then Some true else None).

(** The height of the highest indexed block. *)
Definition lastIndexedHeight : M St (option Z) :=
  rows ← find_blocks [("sort", Str "height:desc"); ("limit", Num 1)] [Str "height"];
  ret (match rows with
       | r :: _ => match prop r "height" with Num h => Some h | _ => None end
       | [] => None
       end).

Definition block_in_db (height : Z) : M St (option obj) :=
  rows ← find_blocks [("where", Object [("height", Num height)]); ("limit", Num 1)] [Str "id"; Str "height"];
  ret (head rows).

(** ** Scheduling *)
Definition scheduleBlockDeletion (blocks : val) : M St unit :=
  add_job "DeleteIndexedBlocks" (Object [("blocks", Arr (as_array blocks))]).

Definition addHeightToIndexBlocksQueue (nv : node_view) (height : val) : M St unit :=
  if scheduledJobsMaxCount <? nv_liveJobs nv then ret tt
  else add_job "IndexBlocks" (Object [("height", height)]).

(** ** Parts of [indexBlock] *)

(** The header: the block without its transactions and assets. *)
Definition block_header (block : obj) : obj :=
  filter (fun kv => kv.1 <> "transactions" /\ kv.1 <> "assets") block.

Definition indexTransaction (nv : node_view) (block : obj) (events : list val) (itx : nat * val) : M St unit :=
  let tx := as_obj (snd itx) in
  let tx := set_prop tx "index" (Num (Z.of_nat (fst itx))) in
  let tx := set_prop tx "moduleCommand"
              (Str (js_String (prop tx "module") +:+ ":" +:+ js_String (prop tx "command"))) in
  let tx := set_prop tx "blockID" (prop block "id") in
  let tx := set_prop tx "height" (prop block "height") in
  senderAddress ← lift (getKlayr32AddressFromPublicKey (prop tx "senderPublicKey"));
  let tx := set_prop tx "senderAddress" senderAddress in
  let tx := set_prop tx "timestamp" (prop block "timestamp") in
  executionStatus ← lift (getTransactionExecutionStatus tx events);
  let tx := set_prop tx "executionStatus" executionStatus in
  indexAccountPublicKey (prop tx "senderPublicKey") ≫= fun _ =>
  t_upsert transactionsTableSchema (Object tx) ≫= fun _ =>
  applyTransaction prefix other (nv_registeredModules nv) (block_header block) tx events.

Definition validator_param (how column : string) (amount : Z) (address : val) : obj :=
  [(how, Object [(column, BigI amount)]); ("where", Object [("address", address)])].

Definition count_generated_block (block : obj) : M St unit :=
  numRowsAffected ← write_count Trx (increment validatorsTableSchema
    (validator_param "increment" "generatedBlocks" 1 (prop block "generatorAddress")));
  if numRowsAffected =? 0 then
    t_upsert validatorsTableSchema
      (Object [("address", prop block "generatorAddress"); ("generatedBlocks", Num 1)])
  else ret tt.

(** [events.find(e => [REWARD, DYNAMIC_REWARD].includes(e.module) && e.name === REWARD_MINTED)];
    the deletion of blocks guards against missing events. *)
Definition blockRewardEvent (guarded : bool) (events : list val) : result (option val) :=
  js_find (fun e =>
    if guarded && negb (truthy e) then Ok false
    else
      m ← get e "module";
      andR (Ok (bool_decide (m = Str "reward" \/ m = Str "dynamicReward"))) (prop_is e "name" (Str "rewardMinted")))
    events.

(** [BigInt(blockRewardEvent.data.amount || '0')] *)
Definition reward_amount (e : val) : result Z :=
  d ← get e "data"; a ← get d "amount"; js_BigInt (if truthy a then a else Str "0").

(** The commission and self-stake reward of a block, added to or taken from
    the generator's totals. *)
Definition updateGeneratorRewards (how : string) (block : obj) (blockReward : Z) : M St unit :=
  let address := prop block "generatorAddress" in
  let height := match prop block "height" with Num h => h | _ => 0 end in
  let change := if String.eqb how "increment" then increment else decrement in
  commissionAmount ← calcCommissionAmount (js_String address) height blockReward;
  selfStakeReward ← calcSelfStakeReward (js_String address) blockReward commissionAmount;
  _ ← write_count Trx (change validatorsTableSchema (validator_param how "totalCommission" commissionAmount address));
  _ ← write_count Trx (change validatorsTableSchema (validator_param how "totalSelfStakeRewards" selfStakeReward address));
  ret tt.

(** [tokenIDLockedAmountChangeMap] *)
Fixpoint add_amount (l : list (string * Z)) (k : string) (z : Z) : list (string * Z) :=
  match l with
  | [] => [(k, z)]
  | (k', x) :: l => if String.eqb k' k then (k', x + z) :: l else (k', x) :: add_amount l k z
  end.

Definition lockedAmountChanges (guarded : bool) (sign : Z) (events : list val) : result (list (string * Z)) :=
  foldM (fun acc event =>
    if guarded && negb (truthy event) then Ok acc
    else
      d ← get event "data"; name ← get event "name";
      if bool_decide (name = Str "lock" \/ name = Str "unlock") then
        tokenID ← get d "tokenID"; a ← get d "amount"; n ← js_BigInt a;
        Ok (add_amount acc (js_String tokenID) (if bool_decide (name = Str "lock") then sign * n else - (sign * n)))
      else Ok acc) [] events.

Definition updateTotalLockedAmounts (changes : list (string * Z)) : M St unit :=
  for_each changes (fun kc =>
    let tokenKey := TOTAL_LOCKED +:+ fst kc in
    curLockedAmount ← committed_amount prefix tokenKey;
    write Trx (kv_set prefix tokenKey (BigI (curLockedAmount + snd kc)))).

(** The part of [indexBlock] that handles the events of a block: returns the
    reward and the addresses to refresh. *)
Definition indexEvents (block : obj) (events : list val) : M St (Z * list string) :=
  match events with
  | [] => ret (0, [])
  | _ =>
      info ← lift (getEventsInfoToIndex block events);
      t_upsert eventsTableSchema (Arr (Object <$> fst info)) ≫= fun _ =>
      t_upsert eventTopicsTableSchema (Arr (Object <$> snd info)) ≫= fun _ =>
      re ← lift (blockRewardEvent false events);
      blockReward ← match re with
                    | None => ret 0
                    | Some e =>
                        r ← lift (reward_amount e);
                        (if r =? 0 then ret tt else updateGeneratorRewards "increment" block r) ≫= fun _ => ret r
                    end;
      changes ← lift (lockedAmountChanges false 1 events);
      updateTotalLockedAmounts changes ≫= fun _ =>
      addresses ← lift (getAddressesFromTokenEvents events);
      ret (blockReward, addresses)
  end.

(** The block row: the block with the columns the index adds. *)
Definition block_to_index (block : obj) (numberOfEvents : nat) (reward : Z) : result obj :=
  assets ← elements (prop block "assets");
  assetsModules ← mapM_result (fun asset => get asset "module") assets;
  Ok (spread block [("assetsModules", Arr assetsModules); ("numberOfEvents", Num (Z.of_nat numberOfEvents));
                    ("reward", BigI reward)]).

(** Lines 226 to 377: everything that happens in the transaction before the
    [upsert] of the block.  Returns the block row and the addresses to refresh. *)
Definition indexBlockParts (nv : node_view) (block : obj) : M St (obj * list string) :=
  let isGenesis := bool_decide (prop block "height" = Num (nv_genesisHeight nv)) in
  (if isGenesis then indexGenesisBlockAssets block else ret tt) ≫= fun _ =>
  let height := match prop block "height" with Num h => h | _ => 0 end in
  events ← lift (nv_events nv height);
  transactions ← lift (elements (prop block "transactions"));
  for_each (imap pair transactions) (indexTransaction nv block events) ≫= fun _ =>
  count_generated_block block ≫= fun _ =>
  ra ← indexEvents block events;
  blockToIndex ← lift (block_to_index block (length events) (fst ra));
  (if isGenesis then addGenesisPriceIndex blockToIndex else addPriceIndex blockToIndex) ≫= fun _ =>
  applySwapEvent blockToIndex events ≫= fun _ =>
  ret (blockToIndex, snd ra).

(** [s.includes(p)] for the error messages of the database. *)
Definition is_deadlock (e : string) : bool :=
  str_includes "Deadlock found when trying to get lock" e || str_includes "ER_LOCK_DEADLOCK" e.

(** [failedBlockInfo] in the message of an error. *)
Definition failed_block (block : obj) : string :=
  if truthy (prop block "id")
  then "block " +:+ js_String (prop block "id") +:+ " at height " +:+ js_String (prop block "height")
  else "block at height " +:+ js_String (prop block "height").

(** [Deadlock ...] errors are renamed, others are passed on. *)
Definition index_error (block : obj) (e : string) : string :=
  if is_deadlock e then "Deadlock encountered while indexing " +:+ failed_block block +:+ ". Will retry." else e.

(** The statements of the transaction of an index job, up to the commit:
    returns the addresses to refresh. *)
Definition indexBlockStatements (nv : node_view) (block : obj) : M St (list string) :=
  parts ← indexBlockParts nv block;
  t_upsert blocksTableSchema (Object (fst parts)) ≫= fun _ => ret (snd parts).

(** The commit and what follows it. *)
Definition indexBlockFinish (block : obj) (addressesToUpdateBalance : list string) : M St unit :=
  commitDBTransaction ≫= fun _ =>
  waitForIt (checkBlockHeightIndexStatusInDB (prop block "height") true) ≫= fun _ =>
  scheduleAddressesBalanceUpdate addressesToUpdateBalance.

(** The catch block. *)
Definition indexBlockFailed (block : obj) (e : string) : M St unit :=
  rollbackDBTransaction ≫= fun _ =>
  waitForIt (checkBlockHeightIndexStatusInDB (prop block "height") false) ≫= fun _ =>
  throw (index_error block e).

(** The transaction of an index job: commit, or roll back and fail. *)
Definition indexBlockTransaction (nv : node_view) (block : obj) : M St unit :=
  startDBTransaction ≫= fun _ =>
  try_catch
    (addressesToUpdateBalance ← indexBlockStatements nv block;
     indexBlockFinish block addressesToUpdateBalance)
    (indexBlockFailed block).

(** [prevBlockInDB]: not asked for ([{}]), not found ([undefined]) or found. *)
Inductive prev_block := PNone | PMissing | PFound (b : obj).

Definition find_prev (nv : node_view) (height : Z) : M St prev_block :=
  if nv_genesisHeight nv + 1 <? height then
    p ← block_in_db (height - 1); ret (match p with Some p => PFound p | None => PMissing end)
  else ret PNone.

(** The checks on the block of the node against the index (lines 191 to 217):
    the block, if it is to be indexed. *)
Definition indexBlockChecked (nv : node_view) (last : option Z) (cur : option obj) (prev : prev_block) (block : obj)
  : M St (option obj) :=
  let already := match cur, last with Some _, Some h => nv_currentHeight nv <=? h | _, _ => false end in
  if match cur with Some c => negb (bool_decide (prop block "id" = prop c "id")) | None => false end then
    let c := default [] cur in
    scheduleBlockDeletion (Object c) ≫= fun _ => addHeightToIndexBlocksQueue nv (prop c "height") ≫= fun _ => ret None
  else
    match prev with
    | PMissing => throw "Cannot convert undefined or null to object"
    | PFound p =>
        if negb (bool_decide (prop p "id" = prop block "previousBlockID")) then
          scheduleBlockDeletion (Object p) ≫= fun _ => addHeightToIndexBlocksQueue nv (prop p "height") ≫= fun _ => ret None
        else ret (if already then None else Some block)
    | PNone => ret (if already then None else Some block)
    end.

(** Everything before the transaction: always the block above the highest
    indexed one, or the height of the job when nothing is indexed.  (The
    renaming of database deadlocks before the transaction starts is left
    out.) *)
Definition indexBlockPrepare (nv : node_view) (jobHeight : Z) : M St (option obj) :=
  last ← lastIndexedHeight;
  let blockHeightToIndex := match last with Some h => h + 1 | None => jobHeight end in
  if match last with Some _ => nv_currentHeight nv <? blockHeightToIndex | None => false end then ret None
  else
    cur ← block_in_db blockHeightToIndex;
    prev ← find_prev nv blockHeightToIndex;
    block ← lift (nv_block nv blockHeightToIndex);
    if negb (validateBlock block) then
      throw ("Invalid block " +:+ js_String (prop block "id") +:+ " at height "
             +:+ js_String (prop block "height") +:+ ".")
    else indexBlockChecked nv last cur prev block.

(** [indexBlock(job)] *)
Definition indexBlock (nv : node_view) (jobHeight : Z) : M St unit :=
  b ← indexBlockPrepare nv jobHeight;
  match b with
  | None => ret tt
  | Some block => indexBlockTransaction nv block
  end.

(** ** Deleting blocks *)

(** [Math.min(...heights)] *)
Definition min_height (blocks : list obj) : option Z :=
  foldr (fun b m => match prop b "height", m with
                    | Num h, Some x => Some (Z.min h x)
                    | Num h, None => Some h
                    | _, m => m
                    end) None blocks.

Definition getBlocksToDelete (blocks : list obj) : M St (list obj) :=
  match blocks with
  | [] => ret blocks
  | _ =>
      let minBlockHeight := match min_height blocks with Some h => Num h | None => NaN end in
      find_blocks
        [("propBetweens", Arr [Object [("property", Str "height"); ("greaterThanEqualTo", minBlockHeight)]]);
         ("sort", Str "height:desc")]
        [Str "id"; Str "height"; Str "generatorAddress"; Str "timestamp"; Str "isFinal"]
  end.

(** The events of a deleted block (lines 554 to 643): returns the addresses to refresh. *)
Definition deleteEvents (block : obj) (events : list val) : M St (list string) :=
  info ← lift (getEventsInfoToIndex block events);
  let eventIDs := (fun e => prop e "id") <$> fst info in
  t_delete eventTopicsTableSchema
    [("whereIn", Object [("property", Str "eventID"); ("values", Arr eventIDs)])] ≫= fun _ =>
  t_deleteByPrimaryKey eventsTableSchema (Arr eventIDs) ≫= fun _ =>
  re ← lift (blockRewardEvent true events);
  match re with
  | None => ret tt
  | Some e =>
      r ← lift (reward_amount e);
      if r =? 0 then ret tt else updateGeneratorRewards "decrement" block r
  end ≫= fun _ =>
  changes ← lift (lockedAmountChanges true (-1) events);
  updateTotalLockedAmounts changes ≫= fun _ =>
  lift (getAddressesFromTokenEvents events).

(** One block of the job (the signal [deleteTransactions] and the cache of
    events are left out): [addresses] is the variable [addressesToUpdateBalance],
    which every block with events overwrites. *)
Definition deleteBlock (nv : node_view) (addresses : list string) (block : obj) : M St (list string) :=
  blockFromDB ← read Auto (find blocksTableSchema [("height", prop block "height"); ("limit", Num 1)] Undef);
  match blockFromDB with
  | [] => ret addresses
  | _ =>
      forkedTransactions ← getTransactionsByBlockID (prop block "id");
      events ← getEventsByBlockID (prop block "id");
      match forkedTransactions with
      | Arr txs => for_each txs (fun tx =>
                     revertTransaction prefix other (nv_registeredModules nv) block (as_obj tx) events)
      | _ => ret tt
      end ≫= fun _ =>
      forkedTransactionIDs ← getTransactionIDsByBlockID (prop block "id");
      match forkedTransactionIDs with
      | [] => ret tt
      | _ => t_deleteByPrimaryKey transactionsTableSchema (Arr forkedTransactionIDs)
      end ≫= fun _ =>
      write_count Trx (decrement validatorsTableSchema
        (validator_param "decrement" "generatedBlocks" 1 (prop block "generatorAddress"))) ≫= fun _ =>
      addresses' ← match events with [] => ret addresses | _ => deleteEvents block events end;
      revertSwapEvent block events ≫= fun _ =>
      deletePriceIndex block ≫= fun _ =>
      ret addresses'
  end.

(** The statements of the transaction of a delete job, up to the commit. *)
Definition deleteBlocksStatements (nv : node_view) (blocksToDelete : list obj) : M St (list string) :=
  addressesToUpdateBalance ← fold_each blocksToDelete (deleteBlock nv) [];
  t_delete blocksTableSchema
    [("whereIn", Object [("property", Str "id"); ("values", Arr ((fun b => prop b "id") <$> blocksToDelete))])] ≫= fun _ =>
  ret addressesToUpdateBalance.

Definition deleteBlocksFinish (blocksToDelete : list obj) (addressesToUpdateBalance : list string) : M St unit :=
  commitDBTransaction ≫= fun _ =>
  waitForIt (checkBlockIDsDeleteStatusInDB ((fun b => prop b "id") <$> blocksToDelete) true) ≫= fun _ =>
  scheduleAddressesBalanceUpdate addressesToUpdateBalance.

Definition deleteBlocksFailed (blocksToDelete : list obj) (e : string) : M St unit :=
  let blockIDs := (fun b => prop b "id") <$> blocksToDelete in
  rollbackDBTransaction ≫= fun _ =>
  waitForIt (checkBlockIDsDeleteStatusInDB blockIDs false) ≫= fun _ =>
  throw (if str_includes "ER_LOCK_DEADLOCK" e
         then "Deadlock encountered while deleting block(s) with ID(s): "
              +:+ js_String (Arr blockIDs) +:+ ". Will retry later."
         else e).

Definition deleteIndexedBlocks (nv : node_view) (blocksFromJob : list obj) : M St unit :=
  blocksToDelete ← getBlocksToDelete blocksFromJob;
  startDBTransaction ≫= fun _ =>
  try_catch
    (addressesToUpdateBalance ← deleteBlocksStatements nv blocksToDelete;
     deleteBlocksFinish blocksToDelete addressesToUpdateBalance)
    (deleteBlocksFailed blocksToDelete).

(** The job of the queue [DeleteIndexedBlocks].  Calls on the queue of index
    jobs are recorded with the jobs; [isPaused] and [pendingDeleteJobs] are
    what the queues answer. *)
Definition deleteIndexedBlocksWrapper (nv : node_view) (isPaused : bool) (pendingDeleteJobs attemptsMade attempts : Z)
    (blocks : list obj) : M St unit :=
  try_catch
    ((if isPaused then ret tt else add_job "IndexBlocks.pause" Undef) ≫= fun _ =>
     deleteIndexedBlocks nv blocks)
    (fun _ => if attemptsMade =? attempts - 1 then scheduleBlockDeletion (Arr (Object <$> blocks)) else ret tt)
  ≫= fun _ =>
  if pendingDeleteJobs =? 0 then add_job "IndexBlocks.resume" Undef else ret tt.

(** ** New blocks *)
Definition indexNewBlock (nv : node_view) (block : obj) : M St unit :=
  rows ← find_blocks [("height", prop block "height"); ("limit", Num 1)]
           [Str "id"; Str "height"; Str "generatorAddress"; Str "timestamp"; Str "isFinal"];
  let same := match rows with b :: _ => bool_decide (prop b "id" = prop block "id") | [] => false end in
  match rows with
  | b :: _ => if same then ret tt else scheduleBlockDeletion (Object b)
  | [] => ret tt
  end ≫= fun _ =>
  (if same then ret tt else add_job "IndexBlocks" (Object [("height", prop block "height")])) ≫= fun _ =>
  _ ← write_count Auto (update blocksTableSchema
        [("isFinal", Bool false);
         ("propBetweens", Arr [Object [("property", Str "height"); ("lowerThanEqualTo", Num (nv_finalizedHeight nv))]])]
        [("isFinal", Bool true)]);
  ret tt.

(** ** The verified height *)
Definition getIndexVerifiedHeight : M St val :=
  rows ← find_blocks [("isFinal", Bool true); ("sort", Str "height:desc"); ("limit", Num 1)] [Str "height"];
  let h := match rows with r :: _ => prop r "height" | [] => Undef end in
  ret (if truthy h then h else Null).

Definition isGenesisBlockIndexed (nv : node_view) : M St bool :=
  rows ← find_blocks [("height", Num (nv_genesisHeight nv)); ("limit", Num 1)] [Str "height"];
  ret (match rows with r :: _ => negb (bool_decide (prop r "height" = Undef)) | [] => false end).

End BlockIndex.
