(* ===== verification/BlockIndexSpec.v ===== *)
(** * The index of blocks stays a chain

    Whatever the index and delete jobs do, in whatever order, and whatever the
    node answers in between, the heights of the indexed blocks form a run
    without gaps, and every block was linked to its predecessor when it was
    indexed. *)
From S2P Require Import Prelude JsValue Database Engine Table World Schemas KvStore Chain Stake.
From S2P Require Import Rewards Balances Processors PoolAddress Dex Dispatch DexSpec BlockIndex.
Local Open Scope Z_scope.

Section Spec.
Context {St : Type} `{SqlLaws St} `{NodeApi} `{Q96}.
Variable prefix : string.
Variable other : string -> string -> option (handler (St := St) * handler (St := St)).
Variable indexGenesisBlockAssets : obj -> M St unit.
Variable addGenesisPriceIndex addPriceIndex deletePriceIndex : obj -> M St unit.
Variable applySwapEvent revertSwapEvent : obj -> list val -> M St unit.
Variable getTransactionsByBlockID : val -> M St val.
Variable getTransactionIDsByBlockID : val -> M St (list val).
Variable getEventsByBlockID : val -> M St (list val).

(** The other parts of the indexer work on their own tables. *)
Hypothesis other_keeps : forall m c p, other m c = Some p -> pair_keeps "blocks" p.
Hypothesis genesis_keeps : forall b, keeps "blocks" (indexGenesisBlockAssets b).
Hypothesis genesis_price_keeps : forall b, keeps "blocks" (addGenesisPriceIndex b).
Hypothesis price_keeps : forall b, keeps "blocks" (addPriceIndex b).
Hypothesis price_delete_keeps : forall b, keeps "blocks" (deletePriceIndex b).
Hypothesis swap_keeps : forall b ev, keeps "blocks" (applySwapEvent b ev).
Hypothesis swap_revert_keeps : forall b ev, keeps "blocks" (revertSwapEvent b ev).
Hypothesis txs_keep : forall i, keeps "blocks" (getTransactionsByBlockID i).
Hypothesis ids_keep : forall i, keeps "blocks" (getTransactionIDsByBlockID i).
Hypothesis events_keep : forall i, keeps "blocks" (getEventsByBlockID i).

Abbreviation t_indexBlock :=
  (indexBlock (St := St) prefix other indexGenesisBlockAssets addGenesisPriceIndex addPriceIndex applySwapEvent).
Abbreviation t_indexBlockTransaction :=
  (indexBlockTransaction (St := St) prefix other indexGenesisBlockAssets addGenesisPriceIndex addPriceIndex applySwapEvent).
Abbreviation t_indexBlockParts :=
  (indexBlockParts (St := St) prefix other indexGenesisBlockAssets addGenesisPriceIndex addPriceIndex applySwapEvent).
Abbreviation t_statements :=
  (indexBlockStatements (St := St) prefix other indexGenesisBlockAssets addGenesisPriceIndex addPriceIndex applySwapEvent).
Abbreviation t_delete_statements :=
  (deleteBlocksStatements (St := St) prefix other deletePriceIndex revertSwapEvent
     getTransactionsByBlockID getTransactionIDsByBlockID getEventsByBlockID).
Abbreviation t_deleteIndexedBlocks :=
  (deleteIndexedBlocks (St := St) prefix other deletePriceIndex revertSwapEvent
     getTransactionsByBlockID getTransactionIDsByBlockID getEventsByBlockID).
Abbreviation t_deleteBlock :=
  (deleteBlock (St := St) prefix other deletePriceIndex revertSwapEvent
     getTransactionsByBlockID getTransactionIDsByBlockID getEventsByBlockID).

(** ** Everything but the last statement leaves the blocks alone *)
Lemma locked_keeps l : keeps "blocks" (updateTotalLockedAmounts (St := St) prefix l).
Proof.
  unfold updateTotalLockedAmounts, committed_amount. pose proof (kv_set_keeps (St := St) prefix). solve_frame.
Qed.

Lemma rewards_keep how b r :
  how = "increment" \/ how = "decrement" -> keeps "blocks" (updateGeneratorRewards (St := St) how b r).
Proof.
  intros [-> | ->]; unfold updateGeneratorRewards, calcCommissionAmount, calcSelfStakeReward; cbn [String.eqb Ascii.eqb Bool.eqb];
    solve_frame.
Qed.

Lemma events_index_keeps b ev : keeps "blocks" (indexEvents (St := St) prefix b ev).
Proof.
  unfold indexEvents, t_upsert. pose proof locked_keeps.
  pose proof (fun r => rewards_keep "increment" b r (or_introl eq_refl)). solve_frame.
Qed.

Lemma parts_keep nv b : keeps "blocks" (t_indexBlockParts nv b).
Proof.
  unfold indexBlockParts, indexTransaction, count_generated_block, t_upsert, indexAccountPublicKey.
  pose proof events_index_keeps.
  pose proof (fun ms h tx ev => applyTransaction_keeps (St := St) prefix other other_keeps ms h tx ev).
  solve_frame.
Qed.

Lemma delete_events_keep b ev : keeps "blocks" (deleteEvents (St := St) prefix b ev).
Proof.
  unfold deleteEvents, t_delete, t_deleteByPrimaryKey. pose proof locked_keeps.
  pose proof (fun r => rewards_keep "decrement" b r (or_intror eq_refl)). solve_frame.
Qed.

Lemma delete_block_keeps nv a b : keeps "blocks" (t_deleteBlock nv a b).
Proof.
  unfold deleteBlock, t_deleteByPrimaryKey. pose proof delete_events_keep.
  pose proof (fun ms h tx ev => revertTransaction_keeps (St := St) prefix other other_keeps ms h tx ev).
  solve_frame.
Qed.

Lemma fold_each_keeps {A S} (l : list A) (f : S -> A -> M St S) s :
  (forall s x, keeps "blocks" (f s x)) -> keeps "blocks" (fold_each l f s).
Proof.
  intros Hf. revert s. induction l as [|x l IH]; intros s; simpl; [apply keeps_ret|].
  apply keeps_bind; [apply Hf|]. intros s'. apply IH.
Qed.

(** ** Rows of the index *)
Definition committed (w : world St) : rows := rows_of (w_auto w) blocksTableSchema.
Definition indexed (rs : rows) (h : Z) : Prop := is_Some (rs !! [SInt h]).

(** [height_of] is the height a block id stands for: ids are hashes of
    headers, which contain the height. *)
Variable height_of : string -> Z.
(** The height of the genesis block. *)
Variable g : Z.

(** What the node promises: the block it returns for a height has that height,
    a text id that belongs to it, and is not below genesis. *)
Definition node_ok (nv : node_view) : Prop :=
  nv_genesisHeight nv = g /\
  forall h b, nv_block nv h = Ok b ->
    g <= h /\ prop b "height" = Num h /\ exists i, prop b "id" = Str i /\ height_of i = h.

(** The invariant of the index. *)
Definition chain_ok (rs : rows) : Prop :=
  table_ok blocksTableSchema rs /\
  (forall k r, rs !! k = Some r -> exists h i, k = [SInt h] /\ cell r "id" = SStr i /\ height_of i = h) /\
  (forall h, indexed rs h -> g <= h /\ (g + 1 < h -> indexed rs (h - 1))).

Lemma read_only {A} (f : St -> result A) (w : world St) : read Auto f w = (f (w_auto w), w).
Proof. done. Qed.

Lemma check_height_reads h c (w : world St) : snd (checkBlockHeightIndexStatusInDB h c w) = w.
Proof.
  unfold checkBlockHeightIndexStatusInDB, find_blocks, mbind, eff_bind. rewrite read_only.
  by destruct (find _ _ _ _).
Qed.

Lemma wait_reads (m : M St (option bool)) w : snd (m w) = w -> snd (waitForIt m w) = w.
Proof.
  intros Hm. unfold waitForIt. destruct (m w) as [[[b|]|e] w1]; simpl in *; by subst.
Qed.

Lemma check_ids_reads ids c (w : world St) : snd (checkBlockIDsDeleteStatusInDB ids c w) = w.
Proof.
  unfold checkBlockIDsDeleteStatusInDB, mbind, eff_bind. rewrite read_only. by destruct (find _ _ _ _).
Qed.

Lemma schedule_balance_auto l (w : world St) : w_auto (snd (scheduleAddressesBalanceUpdate l w)) = w_auto w.
Proof. by destruct l. Qed.

(** After the commit a job waits and schedules the refresh of balances. *)
Lemma after_commit_auto (check : M St (option bool)) l (w : world St) :
  (forall w', snd (check w') = w') ->
  w_auto (snd ((waitForIt check ≫= fun _ => scheduleAddressesBalanceUpdate l) w)) = w_auto w.
Proof.
  intros Hc. pose proof (wait_reads check w (Hc w)) as Hw. unfold mbind, eff_bind.
  destruct (waitForIt check w) as [[u|e] w1]; simpl in Hw; subst w1; [apply schedule_balance_auto|done].
Qed.

(** The commit of a job publishes its transaction; a failed job rolls back. *)
Lemma index_finish_auto block ad (w : world St) :
  w_auto (snd (indexBlockFinish block ad w)) = eng_commit (w_base w) (w_trx w) (w_auto w).
Proof.
  unfold indexBlockFinish. set (c := on_committed (eng_commit (w_base w) (w_trx w) (w_auto w)) w).
  rewrite (M_bind_ok commitDBTransaction _ w tt c) by done.
  by rewrite after_commit_auto by apply check_height_reads.
Qed.

Lemma delete_finish_auto bl ad (w : world St) :
  w_auto (snd (deleteBlocksFinish bl ad w)) = eng_commit (w_base w) (w_trx w) (w_auto w).
Proof.
  unfold deleteBlocksFinish. set (c := on_committed (eng_commit (w_base w) (w_trx w) (w_auto w)) w).
  rewrite (M_bind_ok commitDBTransaction _ w tt c) by done.
  by rewrite after_commit_auto by apply check_ids_reads.
Qed.

Lemma rollback_auto (check : M St (option bool)) (e : string) (w : world St) :
  (forall w', snd (check w') = w') ->
  w_auto (snd ((rollbackDBTransaction ≫= fun _ => waitForIt check ≫= fun _ => throw (A := unit) e) w)) = w_auto w.
Proof.
  intros Hc. set (c := on_committed (w_auto w) w). rewrite (M_bind_ok rollbackDBTransaction _ w tt c) by done.
  pose proof (wait_reads check c (Hc c)) as Hw. unfold mbind, eff_bind.
  destruct (waitForIt check c) as [[u|e'] w1]; simpl in Hw; by subst w1.
Qed.

Lemma index_failed_auto block e (w : world St) : w_auto (snd (indexBlockFailed block e w)) = w_auto w.
Proof. apply rollback_auto, check_height_reads. Qed.

Lemma delete_failed_auto bl e (w : world St) : w_auto (snd (deleteBlocksFailed bl e w)) = w_auto w.
Proof. apply rollback_auto, check_ids_reads. Qed.

(** ** One index job *)
Lemma prop_has (o : obj) k : prop o k <> Undef -> has_prop o k = true.
Proof. intros Hp. destruct (has_prop o k) eqn:E; [done|]. by rewrite prop_absent in Hp. Qed.

Lemma block_to_index_props block n r b k :
  block_to_index block n r = Ok b -> k <> "assetsModules" -> k <> "numberOfEvents" -> k <> "reward" ->
  prop b k = prop block k.
Proof.
  unfold block_to_index. intros E H1' H2' H3'. inv_ok E. simplify_eq. unfold spread. cbn [foldl fst snd].
  by rewrite !prop_set_ne.
Qed.

Lemma parts_block nv block w b ad w' k :
  t_indexBlockParts nv block w = (Ok (b, ad), w') ->
  k <> "assetsModules" -> k <> "numberOfEvents" -> k <> "reward" -> prop b k = prop block k.
Proof.
  intros E. unfold indexBlockParts in E. inv_M E. injection E as <- <- <-.
  repeat match goal with H : lift _ _ = (Ok _, _) |- _ => apply lift_inv in H as [H _] end.
  by eapply block_to_index_props.
Qed.

(** The row of a block. *)
Definition block_row (rs : rows) (h : Z) (i : string) (rs' : rows) : Prop :=
  exists ro, insertable blocksTableSchema (row_of ro) = true /\
    key_of blocksTableSchema (row_of ro) = [SInt h] /\ cell (row_of ro) "id" = SStr i /\
    rs' = insert_row blocksTableSchema rs ro.

Lemma mapRow_block b ro h i :
  prop b "height" = Num h -> prop b "id" = Str i ->
  mapRowBySchema b (schema blocksTableSchema) = Ok ro ->
  key_of blocksTableSchema (row_of ro) = [SInt h] /\ cell (row_of ro) "id" = SStr i.
Proof.
  intros Hh Hi E. apply mapRow_spec in E as (Hu & Hall & _); [|apply (bool_decide_unpack _); vm_compute; exact I].
  rewrite Forall_forall in Hall.
  pose proof (Hall ("height", col "integer")) as Mh. pose proof (Hall ("id", col "string")) as Mi.
  unfold mapped in Mh, Mi. cbn [fst snd] in Mh, Mi.
  rewrite prop_has in Mh by (by rewrite Hh). rewrite prop_has in Mi by (by rewrite Hi).
  destruct Mh as (x & Ex & _ & Px); [by right; left|]. destruct Mi as (y & Ey & _ & Py); [by left|].
  rewrite Hh in Ex. rewrite Hi in Ey. injection Ex as <-. injection Ey as <-.
  split.
  - change (key_of blocksTableSchema (row_of ro)) with [cell (row_of ro) "height"].
    by rewrite cell_row_of, Px.
  - by rewrite cell_row_of, Py.
Qed.

(** The rows of blocks a transaction sees *)
Definition rows_in (s : St) : rows := rows_of s blocksTableSchema.

(** The statements add the block to the transaction and leave the committed
    blocks alone. *)
Lemma index_statements_row nv block w h i ad w1 :
  prop block "height" = Num h -> prop block "id" = Str i ->
  t_statements nv block w = (Ok ad, w1) -> block_row (rows_in (w_trx w)) h i (rows_in (w_trx w1)).
Proof.
  intros Hh Hi E. unfold indexBlockStatements in E. inv_M E. destruct a as [b ad']. cbn [fst snd] in *.
  injection E as _ <-. pose proof (parts_keep nv block w) as [Kt _].
  rewrite Ha in Kt. cbn [snd] in Kt. apply write_inv in Ha0 as (s & Es & ->).
  destruct (upsert_one_inv blocksTableSchema b _ s eq_refl eq_refl Es) as (ro & Hro & Hins & Hrows).
  destruct (mapRow_block b ro h i) as [Hk Hid]; [..|done|].
  { by rewrite (parts_block _ _ _ _ _ _ "height" Ha). }
  { by rewrite (parts_block _ _ _ _ _ _ "id" Ha). }
  exists ro. split_and!; [done..|]. etrans; [exact Hrows|]. unfold rows_in, rows_of. cbn [db tableName blocksTableSchema]. by rewrite Kt.
Qed.

Lemma index_statements_keep nv block w :
  committed (snd (t_statements nv block w)) = committed w /\
  rows_in (w_base (snd (t_statements nv block w))) = rows_in (w_base w).
Proof.
  unfold indexBlockStatements. pose proof (parts_keep nv block w) as (_ & Ka & Kb).
  destruct (t_indexBlockParts nv block w) as [[b|e] w1] eqn:E; simpl in Ka, Kb.
  - rewrite (M_bind_ok _ _ _ _ _ E). unfold t_upsert, write, mbind, eff_bind.
    destruct (upsert _ _ _); split; [exact Ka|exact Kb|exact Ka|exact Kb].
  - rewrite (M_bind_throw _ _ _ _ _ E). split; [exact Ka|exact Kb].
Qed.

(** ** What the queries of a job find *)
Lemma chain_row rs k r :
  chain_ok rs -> rs !! k = Some r -> exists h i, k = [SInt h] /\ cell r "height" = SInt h /\ cell r "id" = SStr i /\ height_of i = h.
Proof.
  intros (Ht & Hr & _) E. destruct (Hr _ _ E) as (h & i & -> & Hi & Hh). exists h, i.
  destruct (Ht _ _ E) as (Hk & _). by injection Hk as Hk.
Qed.

Lemma matching_intro (qq : list clause) (rs : rows) k r :
  rs !! k = Some r -> matches qq r = true -> r ∈ matching qq rs.
Proof.
  intros E Hm. unfold matching. apply list_elem_of_filter. split; [done|].
  apply list_elem_of_fmap. exists (k, r). split; [done|]. by apply elem_of_map_to_list.
Qed.

Lemma lastIndexedHeight_ok (w : world St) :
  chain_ok (committed w) ->
  exists o, lastIndexedHeight w = (Ok o, w) /\
    match o with
    | None => committed w = ∅
    | Some m => indexed (committed w) m /\ forall h, indexed (committed w) h -> h <= m
    end.
Proof.
  intros Hc. unfold lastIndexedHeight, find_blocks.
  set (qq := [KSelect (Arr [Str "height"]); KWhereNotNull "height"; KSelect (Str "height");
              KOrderBy "height" (Str "desc"); KLimit (Num 1); KWhere (Object [])]).
  destruct (select_law blocksTableSchema qq (w_auto w) eq_refl) as (l & Hp & Hsort & E).
  assert (forall k r, committed w !! k = Some r -> matches qq r = true) as Hm.
  { intros k r Hr. destruct (chain_row _ _ _ Hc Hr) as (h & i & _ & Hh & _).
    unfold matches, qq. simpl. by rewrite Hh. }
  rewrite (M_bind_ok _ _ _ _ _ (read_ok Auto _ w _ E)).
  eexists. split; [reflexivity|]. fold (committed w) in Hp. destruct l as [|r l]; simpl.
  - apply map_empty. intros k. destruct (committed w !! k) as [r|] eqn:Er; [|done].
    pose proof (matching_intro qq _ _ _ Er (Hm _ _ Er)) as Hin. rewrite <- Hp in Hin.
    by apply not_elem_of_nil in Hin.
  - assert (r ∈ matching qq (committed w)) as Hin by (rewrite <- Hp; by left).
    apply matching_elem in Hin as (k & Hk). destruct (chain_row _ _ _ Hc Hk) as (m & i & -> & Hh & _).
    rewrite Hh. simpl. split; [by eexists|]. intros h [r' Hr'].
    pose proof (matching_intro qq _ _ _ Hr' (Hm _ _ Hr')) as Hin. rewrite <- Hp in Hin.
    destruct (chain_row _ _ _ Hc Hr') as (h' & i' & [= <-] & Hh' & _).
    apply elem_of_cons in Hin as [->|Hin]; [rewrite Hh in Hh'; by injection Hh' as ->|].
    inversion Hsort as [|? ? _ Hall]; subst. rewrite Forall_forall in Hall.
    specialize (Hall _ Hin). unfold row_le in Hall. simpl in Hall. by rewrite Hh, Hh' in Hall.
Qed.

Lemma blocks_key h : key_values blocksTableSchema [Num h].
Proof. constructor; [|constructor]. exists (col "integer"). split; [by right; left|done]. Qed.

Definition id_height (r : row) : obj := [("id", of_sql (cell r "id")); ("height", of_sql (cell r "height"))].

Lemma block_in_db_ok h (w : world St) :
  chain_ok (committed w) -> block_in_db h w = (Ok (id_height <$> (committed w !! [SInt h])), w).
Proof.
  intros Hc. unfold block_in_db, find_blocks, find. cbn [truthy].
  erewrite (M_bind_ok _ _ _ _ w).
  2:{ apply read_ok. cbn. apply (select_key blocksTableSchema (w_auto w) _ [Num h]);
        [apply Hc|apply blocks_key|done|done|]. intros r. unfold matches. simpl. by rewrite !andb_true_r. }
  unfold ret, committed. change (to_sql <$> [Num h]) with [SInt h].
  by destruct (rows_of (w_auto w) blocksTableSchema !! [SInt h]).
Qed.

(** What [find_prev] finds. *)
Lemma find_prev_ok nv h (w : world St) :
  node_ok nv -> chain_ok (committed w) ->
  exists p, find_prev nv h w = (Ok p, w) /\
    match p with
    | PNone => h <= g + 1
    | PMissing => g + 1 < h /\ ~ indexed (committed w) (h - 1)
    | PFound o => g + 1 < h /\ exists r, committed w !! [SInt (h - 1)] = Some r /\ o = id_height r
    end.
Proof.
  intros [Hg _] Hc. unfold find_prev. rewrite Hg. destruct (Z.ltb_spec (g + 1) h).
  - rewrite (M_bind_ok _ _ _ _ _ (block_in_db_ok (h - 1) w Hc)).
    destruct (committed w !! [SInt (h - 1)]) as [r|] eqn:E; simpl.
    + eexists. split; [reflexivity|]. split; [done|]. by exists r.
    + eexists. split; [reflexivity|]. split; [done|]. intros [r Hr]. congruence.
  - eexists. split; [reflexivity|]. simpl. lia.
Qed.

(** ** The block an index job is going to add *)

(** The block comes from the node, belongs above all indexed blocks, and the
    block below it, unless it is the first one above genesis, carries the id
    that it names as its predecessor. *)
Definition pending (rs : rows) (block : obj) (h : Z) (i : string) : Prop :=
  prop block "height" = Num h /\ prop block "id" = Str i /\ g <= h /\ height_of i = h /\
  (forall h', indexed rs h' -> h' < h) /\
  (g + 1 < h -> exists r, rs !! [SInt (h - 1)] = Some r /\ of_sql (cell r "id") = prop block "previousBlockID").

Lemma reschedule_auto nv v x (w : world St) :
  w_auto (snd ((scheduleBlockDeletion v ≫= fun _ => addHeightToIndexBlocksQueue nv x ≫= fun _ => ret (None : option obj)) w)) = w_auto w.
Proof. unfold addHeightToIndexBlocksQueue, mbind, eff_bind. simpl. by destruct (_ <? _). Qed.

Lemma prepare_ok nv job (w : world St) :
  node_ok nv -> chain_ok (committed w) ->
  w_auto (snd (indexBlockPrepare nv job w)) = w_auto w /\
  forall block w', indexBlockPrepare nv job w = (Ok (Some block), w') -> exists h i, pending (committed w) block h i.
Proof.
  intros Hn Hc. destruct (lastIndexedHeight_ok w Hc) as (last & El & Hlast).
  unfold indexBlockPrepare. rewrite (M_bind_ok _ _ _ _ _ El).
  set (h := match last with Some h => h + 1 | None => job end).
  assert (forall h', indexed (committed w) h' -> h' < h) as Habove.
  { intros h' Hh'. unfold h. destruct last as [m|].
    - apply Hlast in Hh'. lia.
    - destruct Hh' as [r Hr]. rewrite Hlast, lookup_empty in Hr. done. }
  destruct (match last with Some _ => nv_currentHeight nv <? h | None => false end); [done|].
  rewrite (M_bind_ok _ _ _ _ _ (block_in_db_ok h w Hc)).
  destruct (find_prev_ok nv h w Hn Hc) as (p & Ep & Hp). rewrite (M_bind_ok _ _ _ _ _ Ep).
  destruct (nv_block nv h) as [block|e] eqn:Eb; [|done].
  rewrite (M_bind_ok (lift (Ok block)) _ w block w) by done.
  destruct (negb (validateBlock block)); [done|].
  destruct (proj2 Hn h block Eb) as (Hgh & Hh & i & Hi & Hhi).
  assert (committed w !! [SInt h] = None) as Hfree.
  { destruct (committed w !! [SInt h]) as [r|] eqn:Er; [|done]. pose proof (Habove h (ex_intro _ r Er)). lia. }
  rewrite Hfree. unfold indexBlockChecked. cbn [fmap option_fmap option_map].
  destruct p as [| |o]; [|done|].
  - split; [done|]. intros b w' [= <- <-]. exists h, i. split_and!; try done. lia.
  - destruct Hp as (Hgt & r & Hr & ->).
    destruct (bool_decide_reflect (prop (id_height r) "id" = prop block "previousBlockID")) as [E|E].
    + split; [done|]. intros b w' [= <- <-]. exists h, i. split_and!; try done. intros _. by exists r.
    + cbn [negb]. split; [apply reschedule_auto|]. intros b w'. unfold addHeightToIndexBlocksQueue.
      destruct (_ <? _); discriminate.
Qed.

Lemma block_row_lookup rs h i rs' :
  block_row rs h i rs' ->
  (exists r, rs' !! [SInt h] = Some r /\ cell r "id" = SStr i) /\
  (forall k, k <> [SInt h] -> rs' !! k = rs !! k).
Proof.
  intros (ro & Hins & Hk & Hi & ->). unfold insert_row. rewrite Hk. split.
  - eexists. rewrite lookup_insert_eq. split; [done|]. rewrite cell_union_l; [done|].
    apply cell_nonnull_dom. by rewrite Hi.
  - intros k Hne. by rewrite lookup_insert_ne.
Qed.

(** A new row for the height [h], on top. *)
Definition adds_block (rs : rows) (h : Z) (i : string) (rs' : rows) : Prop :=
  exists r, rs' = <[[SInt h] := r]> rs /\ row_in blocksTableSchema [SInt h] r /\ cell r "id" = SStr i.

Lemma adds_block_ok rs block h i rs' :
  chain_ok rs -> pending rs block h i -> adds_block rs h i rs' -> chain_ok rs'.
Proof.
  intros (Ht & Hrows & Hcont) (_ & _ & Hgh & Hhi & Habove & Hlink) (r & -> & Hr & Hid).
  assert (forall h', indexed rs h' -> indexed (<[[SInt h] := r]> rs) h') as Hmono.
  { intros h' [r' Hr']. exists r'. rewrite lookup_insert_ne; [done|]. intros [= ->].
    pose proof (Habove _ (ex_intro _ _ Hr')). lia. }
  split_and!.
  - intros k r'. destruct (decide ([SInt h] = k)) as [<-|Hne].
    + rewrite lookup_insert_eq. by intros [= <-].
    + rewrite lookup_insert_ne by done. apply Ht.
  - intros k r'. destruct (decide ([SInt h] = k)) as [<-|Hne].
    + rewrite lookup_insert_eq. intros [= <-]. by exists h, i.
    + rewrite lookup_insert_ne by done. apply Hrows.
  - intros h' Hh'. destruct (decide (h = h')) as [<-|Hne].
    + split; [done|]. intros Hgt. destruct (Hlink Hgt) as (p & Hp & _). apply Hmono. by eexists.
    + unfold indexed in Hh'. rewrite lookup_insert_ne in Hh' by congruence. destruct (Hcont h' Hh') as [Hg' Hprev].
      split; [done|]. intros Hgt. apply Hmono. auto.
Qed.

(** Rows with the same ids under the same keys: the other columns of a block,
    as [isFinal], may differ. *)
Definition same_ids (rs rs' : rows) : Prop := (fun r => cell r "id") <$> rs = (fun r => cell r "id") <$> rs'.

Lemma same_ids_lookup rs rs' k r :
  same_ids rs rs' -> rs !! k = Some r -> exists r', rs' !! k = Some r' /\ cell r' "id" = cell r "id".
Proof.
  intros E Hr. apply (f_equal (.!! k)) in E. rewrite !lookup_fmap, Hr in E. cbn in E.
  destruct (rs' !! k) as [r'|]; [|discriminate]. exists r'. split; [done|]. by injection E.
Qed.

Lemma same_ids_indexed rs rs' h : same_ids rs rs' -> indexed rs h -> indexed rs' h.
Proof. intros E [r Hr]. destruct (same_ids_lookup _ _ _ _ E Hr) as (r' & Hr' & _). by exists r'. Qed.

Lemma pending_same rs rs' block h i : same_ids rs rs' -> pending rs block h i -> pending rs' block h i.
Proof.
  intros E (? & ? & ? & ? & Habove & Hlink). split_and!; try done.
  - intros h' Hh'. apply Habove. by eapply same_ids_indexed.
  - intros Hgt. destruct (Hlink Hgt) as (r & Hr & Hid). destruct (same_ids_lookup _ _ _ _ E Hr) as (r' & Hr' & Hid').
    exists r'. by rewrite Hid'.
Qed.

(** The commit of an index job adds its block to the blocks that are committed
    by then. *)
Lemma commit_adds_block base trx auto block h i :
  chain_ok (rows_in base) -> same_ids (rows_in base) (rows_in auto) ->
  block_row (rows_in base) h i (rows_in trx) -> pending (rows_in auto) block h i ->
  adds_block (rows_in auto) h i (rows_in (eng_commit base trx auto)).
Proof.
  intros Hc Hsame Hrow (_ & _ & _ & _ & Habove & _).
  destruct (block_row_lookup _ _ _ _ Hrow) as [(r & Hr & Hid) Hother]. exists r.
  assert (rows_in base !! [SInt h] = None) as Hfree.
  { destruct (rows_in base !! [SInt h]) as [r0|] eqn:E0; [|done].
    pose proof (Habove h (same_ids_indexed _ _ _ Hsame (ex_intro _ _ E0))). lia. }
  split_and!; [|destruct Hrow as (ro & Hins & Hk & _ & E)|done].
  - apply map_eq. intros k. unfold rows_in, rows_of in *. rewrite commit_law.
    destruct (decide ([SInt h] = k)) as [<-|Hne].
    + rewrite Hr, Hfree, decide_False, lookup_insert_eq by done. done.
    + rewrite lookup_insert_ne by done. rewrite Hother by done. by rewrite decide_True.
  - apply (table_ok_insert blocksTableSchema (rows_in base) (row_of ro) eq_refl (proj1 Hc) Hins).
    rewrite <- Hr, E. reflexivity.
Qed.

(** ** One delete job *)

(** What is left when the blocks from height [m] on are removed. *)
Definition kept (m : Z) (r : row) : bool :=
  match cell r "height" with SInt h => h <? m | _ => true end.
Definition cut (m : Z) (rs : rows) : rows := filter (fun kr => kept m (snd kr) = true) rs.

(** The ids of a job name the rows from the lowest height of its blocks on. *)
Definition ids_from (blocks : list obj) (rs : rows) (ids : list val) : Prop :=
  forall k r, rs !! k = Some r ->
    in_test r (Str "id") ids = match min_height blocks with Some m => negb (kept m r) | None => false end.

Lemma in_ids rs (l : list row) k r :
  chain_ok rs -> (forall r', r' ∈ l -> exists k', rs !! k' = Some r') -> rs !! k = Some r ->
  in_test r (Str "id") ((fun r' => of_sql (cell r' "id")) <$> l) = true <-> r ∈ l.
Proof.
  intros Hc Hl Hr. destruct (chain_row _ _ _ Hc Hr) as (h & i & -> & Hh & Hi & Hhi).
  unfold in_test. rewrite existsb_exists. change (js_String (Str "id")) with "id". split.
  - intros (v & Hv & E). apply list_elem_of_In, list_elem_of_fmap in Hv as (r' & -> & Hin).
    destruct (Hl _ Hin) as (k' & Hk'). destruct (chain_row _ _ _ Hc Hk') as (h' & i' & -> & Hh' & Hi' & Hhi').
    rewrite Hi, Hi' in E. apply sql_test_eq_str in E as <-. rewrite <- Hhi, Hhi' in Hr. congruence.
  - intros Hin. exists (Str i). split; [|rewrite Hi; by apply sql_test_eq_str].
    apply list_elem_of_In, list_elem_of_fmap. exists r. by rewrite Hi.
Qed.

Lemma getBlocksToDelete_ok blocks (w : world St) :
  chain_ok (committed w) ->
  exists bl, getBlocksToDelete blocks w = (Ok bl, w) /\
    ids_from blocks (committed w) ((fun b => prop b "id") <$> bl).
Proof.
  intros Hc. unfold getBlocksToDelete. destruct blocks as [|b blocks].
  { exists []. split; [done|]. by intros k r Hr. }
  set (bs := b :: blocks). set (v := match min_height bs with Some h => Num h | None => NaN end).
  set (cols := [Str "id"; Str "height"; Str "generatorAddress"; Str "timestamp"; Str "isFinal"]).
  set (qq := [KSelect (Arr cols); KWhereNotNull "height"; KSelect (Str "height"); KOrderBy "height" (Str "desc");
              KWhere (Object []); KWhereOp "height" ">=" v]).
  destruct (select_law blocksTableSchema qq (w_auto w) eq_refl) as (l & Hp & _ & E).
  exists (project qq <$> l). split; [by apply read_ok|].
  rewrite <- list_fmap_compose.
  rewrite (list_fmap_ext _ (fun r' => of_sql (cell r' "id")) l).
  2:{ intros j r' _. apply prop_project. by left. }
  intros k r Hr. destruct (chain_row _ _ _ Hc Hr) as (h & i & -> & Hh & _).
  apply eq_bool_prop_intro. rewrite !Is_true_true.
  rewrite (in_ids _ l _ r Hc) by (done || (intros r' Hin; rewrite Hp in Hin; by apply matching_elem in Hin)).
  rewrite Hp. unfold kept. rewrite Hh. split.
  - intros Hin. apply list_elem_of_filter in Hin as [Hm _]. unfold matches, qq in Hm. simpl in Hm.
    rewrite Hh in Hm. unfold v, sql_test in Hm. destruct (min_height bs) as [m|]; [|done]. simpl in Hm.
    destruct (Z.compare_spec h m), (Z.ltb_spec h m); done || lia.
  - intros Hm. apply (matching_intro qq _ _ _ Hr). unfold matches, qq. simpl. rewrite Hh. unfold v.
    destruct (min_height bs) as [m|]; [|done]. apply negb_true_iff in Hm. unfold sql_test. simpl.
    destruct (Z.compare_spec h m), (Z.ltb_spec h m); done || lia.
Qed.

Lemma fold_delete_keeps nv bl ad : keeps "blocks" (fold_each bl (t_deleteBlock nv) ad).
Proof. apply fold_each_keeps. intros. apply delete_block_keeps. Qed.

Lemma filter_ids blocks rs ids :
  ids_from blocks rs ids ->
  filter (fun kr => matches [KSelect (Str "height"); KWhere (Object []); KWhereIn (Str "id") (Arr ids)] (snd kr) = false) rs
  = match min_height blocks with Some m => cut m rs | None => rs end.
Proof.
  intros Hids. apply map_eq. intros k. apply option_eq. intros r.
  assert (matches [KSelect (Str "height"); KWhere (Object []); KWhereIn (Str "id") (Arr ids)] r
          = in_test r (Str "id") ids) as Em by apply andb_true_r.
  rewrite map_lookup_filter_Some. cbn [snd]. rewrite Em. split.
  - intros [Hr Hm]. rewrite (Hids _ _ Hr) in Hm. destruct (min_height blocks) as [m|]; [|done].
    unfold cut. apply map_lookup_filter_Some. split; [done|]. by apply negb_false_iff.
  - intros Hr. assert (rs !! k = Some r) as Hr'.
    { destruct (min_height blocks); [by apply map_lookup_filter_Some in Hr as [??]|done]. }
    split; [done|]. rewrite (Hids _ _ Hr'). destruct (min_height blocks) as [m|]; [|done].
    apply map_lookup_filter_Some in Hr as [_ Hk]. simpl in Hk. by rewrite Hk.
Qed.

(** [whereIn] on the ids: the statement that removes the block rows. *)
Lemma delete_ids_rows blocks ids (w : world St) :
  ids_from blocks (rows_of (w_trx w) blocksTableSchema) ids ->
  exists s, t_delete blocksTableSchema [("whereIn", Object [("property", Str "id"); ("values", Arr ids)])] w
              = (Ok tt, set_db Trx s w) /\
    rows_of s blocksTableSchema
    = match min_height blocks with
      | Some m => cut m (rows_of (w_trx w) blocksTableSchema)
      | None => rows_of (w_trx w) blocksTableSchema
      end.
Proof.
  intros Hids. unfold t_delete.
  destruct (delete_law blocksTableSchema [KSelect (Str "height"); KWhere (Object []); KWhereIn (Str "id") (Arr ids)]
              (w_trx w) eq_refl) as (s & E & Hs & _).
  exists s. split.
  - erewrite M_bind_ok by (by apply write_count_ok). done.
  - rewrite Hs. by apply filter_ids.
Qed.

Lemma delete_statements_keep nv bl (w : world St) :
  committed (snd (t_delete_statements nv bl w)) = committed w /\
  rows_in (w_base (snd (t_delete_statements nv bl w))) = rows_in (w_base w).
Proof.
  unfold deleteBlocksStatements. pose proof (fold_delete_keeps nv bl [] w) as (_ & Ka & Kb).
  destruct (fold_each bl (t_deleteBlock nv) [] w) as [[ad|e] w1] eqn:Ef; simpl in Ka, Kb.
  - rewrite (M_bind_ok _ _ _ _ _ Ef). unfold t_delete, write_count, mbind, eff_bind.
    destruct (deleteByParams _ _ _) as [[s n]|e]; split; [exact Ka|exact Kb|exact Ka|exact Kb].
  - rewrite (M_bind_throw _ _ _ _ _ Ef). split; [exact Ka|exact Kb].
Qed.

Lemma delete_statements_rows nv blocks bl (w : world St) ad w1 :
  ids_from blocks (rows_in (w_trx w)) ((fun b => prop b "id") <$> bl) ->
  t_delete_statements nv bl w = (Ok ad, w1) ->
  rows_in (w_trx w1) = match min_height blocks with Some m => cut m (rows_in (w_trx w)) | None => rows_in (w_trx w) end.
Proof.
  intros Hids. unfold deleteBlocksStatements. pose proof (fold_delete_keeps nv bl [] w) as (Kt & _).
  destruct (fold_each bl (t_deleteBlock nv) [] w) as [[ad'|e] w2] eqn:Ef; simpl in Kt.
  2:{ by rewrite (M_bind_throw _ _ _ _ _ Ef). }
  rewrite (M_bind_ok _ _ _ _ _ Ef).
  assert (rows_in (w_trx w2) = rows_in (w_trx w)) as E0 by exact Kt.
  destruct (delete_ids_rows blocks ((fun b => prop b "id") <$> bl) w2) as (s & Es & Hs).
  { fold (rows_in (w_trx w2)). by rewrite E0. }
  rewrite (M_bind_ok _ _ _ _ _ Es). intros [= _ <-]. cbn [set_db w_trx]. fold (rows_in s) in Hs.
  rewrite Hs. fold (rows_in (w_trx w2)). by rewrite E0.
Qed.

Lemma cut_lookup m rs k r :
  chain_ok rs -> cut m rs !! k = Some r <-> rs !! k = Some r /\ exists h, k = [SInt h] /\ h < m.
Proof.
  intros Hc. unfold cut. rewrite map_lookup_filter_Some. simpl. split.
  - intros [Hr Hk]. split; [done|]. destruct (chain_row _ _ _ Hc Hr) as (h & i & -> & Hh & _).
    exists h. split; [done|]. unfold kept in Hk. rewrite Hh in Hk. by apply Z.ltb_lt.
  - intros (Hr & h & -> & Hlt). split; [done|]. destruct (chain_row _ _ _ Hc Hr) as (h' & i & [= <-] & Hh & _).
    unfold kept. rewrite Hh. by apply Z.ltb_lt.
Qed.

Lemma cut_ok m rs : chain_ok rs -> chain_ok (cut m rs).
Proof.
  intros Hc. pose proof Hc as (Ht & Hrows & Hcont). split_and!.
  - by apply table_ok_filter.
  - intros k r [Hr _]%cut_lookup; [|done]. by eapply Hrows.
  - intros h [r [Hr (h' & [= <-] & Hlt)]%cut_lookup]; [|done].
    destruct (Hcont h) as [Hg Hprev]; [by eexists|]. split; [done|]. intros Hgt.
    destruct (Hprev Hgt) as [p Hp]. exists p. apply cut_lookup; [done|]. split; [done|].
    exists (h - 1). split; [done|lia].
Qed.

Lemma ids_from_same blocks rs rs' ids :
  chain_ok rs -> chain_ok rs' -> same_ids rs rs' -> ids_from blocks rs ids -> ids_from blocks rs' ids.
Proof.
  intros Hc Hc' E Hids k r' Hr'. symmetry in E. destruct (same_ids_lookup _ _ _ _ E Hr') as (r & Hr & Hid).
  transitivity (in_test r (Str "id") ids); [unfold in_test; change (js_String (Str "id")) with "id"; by rewrite Hid|].
  rewrite (Hids _ _ Hr). destruct (min_height blocks) as [m|]; [|done]. unfold kept.
  destruct (chain_row _ _ _ Hc Hr) as (h & i & -> & -> & _).
  by destruct (chain_row _ _ _ Hc' Hr') as (h' & i' & [= <-] & -> & _).
Qed.

(** The commit of a delete job removes the heights of its transaction from the
    blocks that are committed by then. *)
Lemma commit_cuts base trx auto m :
  chain_ok (rows_in base) -> chain_ok (rows_in auto) -> same_ids (rows_in base) (rows_in auto) ->
  rows_in trx = cut m (rows_in base) -> rows_in (eng_commit base trx auto) = cut m (rows_in auto).
Proof.
  intros Hb Ha E Ht. apply map_eq. intros k.
  assert (rows_in (eng_commit base trx auto) !! k =
    if decide (cut m (rows_in base) !! k = rows_in base !! k) then rows_in auto !! k else cut m (rows_in base) !! k) as ->.
  { rewrite <- Ht. apply commit_law. }
  apply option_eq. intros r. rewrite cut_lookup by done. case_decide as Hd.
  - split; [|by intros [? _]]. intros Hr. split; [done|]. symmetry in E.
    destruct (same_ids_lookup _ _ _ _ E Hr) as (r0 & Hr0 & _). rewrite Hr0 in Hd.
    apply cut_lookup in Hd as (_ & Hd); [exact Hd|done].
  - split.
    + intros Hr. exfalso. apply Hd. rewrite Hr. apply cut_lookup in Hr as [Hr _]; [by rewrite Hr|done].
    + intros (Hr & Hlt). exfalso. apply Hd. symmetry in E.
      destruct (same_ids_lookup _ _ _ _ E Hr) as (r0 & Hr0 & _). rewrite Hr0. apply cut_lookup; [done|]. by split.
Qed.

Lemma commit_same base trx auto : rows_in trx = rows_in base -> rows_in (eng_commit base trx auto) = rows_in auto.
Proof. apply commit_untouched. Qed.

(** ** New blocks *)
Definition finalize (qq : list clause) (rs : rows) : rows :=
  on_matching qq (fun r => row_of [("isFinal", Bool true)] ∪ r) rs.

Lemma indexNewBlock_outcome nv block (w : world St) :
  committed (snd (indexNewBlock nv block w)) = committed w \/
  exists qq, committed (snd (indexNewBlock nv block w)) = finalize qq (committed w).
Proof.
  unfold indexNewBlock. set (f := find_blocks _ _). destruct (f w) as [[rs|e] w0] eqn:Ef.
  2:{ left. rewrite (M_bind_throw _ _ _ _ _ Ef). by injection Ef as _ <-. }
  rewrite (M_bind_ok _ _ _ _ _ Ef). injection Ef as _ <-. cbv zeta. set (b := match rs with [] => _ | _ => _ end).
  set (m1 := match rs with [] => _ | _ => _ end).
  assert (exists w1, m1 w = (Ok tt, w1) /\ committed w1 = committed w) as (w1 & E1 & <-).
  { unfold m1. destruct rs, b; eexists; (split; [reflexivity|done]). }
  rewrite (M_bind_ok _ _ _ _ _ E1).
  set (m2 := if b then ret tt else add_job _ _).
  assert (exists w2, m2 w1 = (Ok tt, w2) /\ committed w2 = committed w1) as (w2 & E2 & <-).
  { unfold m2. destruct b; eexists; (split; [reflexivity|done]). }
  rewrite (M_bind_ok _ _ _ _ _ E2). right.
  set (qq := [KSelect (Str "height"); KWhere (Object [("isFinal", Bool false)]);
              KWhereOp "height" "<=" (Num (nv_finalizedHeight nv))]).
  destruct (update_law blocksTableSchema qq (row_of [("isFinal", Bool true)]) (w_auto w2))
    as (s & E & Hs & _); [done..|].
  exists qq. erewrite M_bind_ok by (apply write_count_ok; exact E). exact Hs.
Qed.

Lemma finalize_ok qq rs : chain_ok rs -> chain_ok (finalize qq rs).
Proof.
  intros (Ht & Hrows & Hcont).
  assert (forall h, indexed (finalize qq rs) h <-> indexed rs h) as Hix.
  { intros h. unfold indexed, finalize, on_matching. by rewrite lookup_fmap, fmap_is_Some. }
  split_and!.
  - apply table_ok_on_matching; [done|..].
    + intros r. by apply key_of_update.
    + intros r Hr. by apply row_typed_union.
  - intros k r. unfold finalize, on_matching. rewrite lookup_fmap.
    destruct (rs !! k) as [r0|] eqn:E; simpl; [|done]. intros [= <-].
    destruct (Hrows _ _ E) as (h & i & ? & Hi & ?). exists h, i. split_and!; [done| |done].
    destruct (matches qq r0); [by rewrite cell_union_r|done].
  - intros h. rewrite !Hix. apply Hcont.
Qed.

Lemma finalize_same qq rs : same_ids rs (finalize qq rs).
Proof.
  apply map_eq. intros k. unfold finalize, on_matching. rewrite !lookup_fmap.
  destruct (rs !! k) as [r|]; simpl; [|done]. destruct (matches qq r); [|done]. f_equal. by rewrite cell_union_r.
Qed.

(** ** Runs of the indexer

    Each of the two queues runs one job at a time, but a job of one queue and
    one of the other, new blocks and every other part of the service run side
    by side.  The steps are what happens between two points where a job waits:
    its checks, the statements of its transaction, its commit.  A job that is
    under way keeps its transaction ([trx]) and the state that was committed
    when the transaction started ([base]). *)
Inductive index_phase :=
| IIdle
| IChecked (nv : node_view) (block : obj)
| IStatements (trx base : St) (block : obj) (addresses : list string).

Inductive delete_phase :=
| DIdle
| DChecked (nv : node_view) (blocks blocksToDelete : list obj)
| DStatements (trx base : St) (blocks blocksToDelete : list obj) (addresses : list string).

Record service_state := mkState { s_world : world St; s_index : index_phase; s_delete : delete_phase }.

(** The connection of a job *)
Definition enter (trx base : St) (w : world St) : world St := mkWorld trx (w_auto w) (w_redis w) (w_jobs w) base.

(** A step of the queue of index jobs.  A job starts, with [exclusive] only
    while no delete job is under way; an error ends it (never_returns: it hangs). *)
Definition index_checks (nv : node_view) (height : Z) (w : world St) : world St * index_phase :=
  match indexBlockPrepare nv height w with
  | (Ok (Some block), w') => (w', IChecked nv block)
  | (_, w') => (w', IIdle)
  end.
Definition index_statements (nv : node_view) (block : obj) (w : world St) : world St * index_phase :=
  match t_statements nv block (on_committed (w_auto w) w) with
  | (Ok ad, w') => (w', IStatements (w_trx w') (w_base w') block ad)
  | (Throw e, w') => (if String.eqb e never_returns then w' else snd (indexBlockFailed block e w'), IIdle)
  end.
Definition delete_checks (nv : node_view) (blocks : list obj) (w : world St) : world St * delete_phase :=
  match getBlocksToDelete blocks w with
  | (Ok bl, w') => (w', DChecked nv blocks bl)
  | (_, w') => (w', DIdle)
  end.
Definition delete_statements (nv : node_view) (blocks bl : list obj) (w : world St) : world St * delete_phase :=
  match t_delete_statements nv bl (on_committed (w_auto w) w) with
  | (Ok ad, w') => (w', DStatements (w_trx w') (w_base w') blocks bl ad)
  | (Throw e, w') => (if String.eqb e never_returns then w' else snd (deleteBlocksFailed bl e w'), DIdle)
  end.

Inductive step (exclusive : bool) : service_state -> service_state -> Prop :=
| step_index_start nv height w d : node_ok nv -> (exclusive = true -> d = DIdle) ->
    step exclusive (mkState w IIdle d) (let '(w', i) := index_checks nv height w in mkState w' i d)
| step_index_statements nv block w d :
    step exclusive (mkState w (IChecked nv block) d) (let '(w', i) := index_statements nv block w in mkState w' i d)
| step_index_commit trx base block ad w d :
    step exclusive (mkState w (IStatements trx base block ad) d)
      (mkState (snd (indexBlockFinish block ad (enter trx base w))) IIdle d)
| step_delete_start nv blocks w i : (exclusive = true -> i = IIdle) ->
    step exclusive (mkState w i DIdle) (let '(w', d) := delete_checks nv blocks w in mkState w' i d)
| step_delete_statements nv blocks bl w i :
    step exclusive (mkState w i (DChecked nv blocks bl)) (let '(w', d) := delete_statements nv blocks bl w in mkState w' i d)
| step_delete_commit trx base blocks bl ad w i :
    step exclusive (mkState w i (DStatements trx base blocks bl ad))
      (mkState (snd (deleteBlocksFinish bl ad (enter trx base w))) i DIdle)
| step_new_block nv block w i d :
    step exclusive (mkState w i d) (mkState (snd (indexNewBlock nv block w)) i d)
| step_other w w' i d : committed w' = committed w -> step exclusive (mkState w i d) (mkState w' i d).

(** What a job under way relies on *)
Definition index_phase_ok (rs : rows) (i : index_phase) : Prop :=
  match i with
  | IIdle => True
  | IChecked _ block => exists h id, pending rs block h id
  | IStatements trx base block _ => exists h id, pending rs block h id /\
      chain_ok (rows_in base) /\ same_ids (rows_in base) rs /\ block_row (rows_in base) h id (rows_in trx)
  end.

Definition delete_phase_ok (rs : rows) (d : delete_phase) : Prop :=
  match d with
  | DIdle => True
  | DChecked _ blocks bl => ids_from blocks rs ((fun b => prop b "id") <$> bl)
  | DStatements trx base blocks _ _ => chain_ok (rows_in base) /\ same_ids (rows_in base) rs /\
      rows_in trx = match min_height blocks with Some m => cut m (rows_in base) | None => rows_in base end
  end.

Definition state_ok (c : service_state) : Prop :=
  chain_ok (committed (s_world c)) /\ (s_index c = IIdle \/ s_delete c = DIdle) /\
  index_phase_ok (committed (s_world c)) (s_index c) /\ delete_phase_ok (committed (s_world c)) (s_delete c).

(** Changes of other columns do not disturb a job. *)
Lemma index_phase_same rs rs' i : same_ids rs rs' -> index_phase_ok rs i -> index_phase_ok rs' i.
Proof.
  intros E. destruct i as [|nv block|trx base block ad]; simpl; [done|..].
  - intros (h & id & Hp). exists h, id. by eapply pending_same.
  - intros (h & id & Hp & Hb & Hs & Hr). exists h, id. split_and!; [by eapply pending_same|done| |done]. by transitivity ((fun r => cell r "id") <$> rs).
Qed.

Lemma delete_phase_same rs rs' d :
  chain_ok rs -> chain_ok rs' -> same_ids rs rs' -> delete_phase_ok rs d -> delete_phase_ok rs' d.
Proof.
  intros Hc Hc' E. destruct d as [|nv blocks bl|trx base blocks bl ad]; simpl; [done|..].
  - by apply ids_from_same.
  - intros (Hb & Hs & Hr). split_and!; [done| |done]. by transitivity ((fun r => cell r "id") <$> rs).
Qed.

Lemma state_ok_same w w' i d :
  chain_ok (committed w') -> same_ids (committed w) (committed w') -> state_ok (mkState w i d) -> state_ok (mkState w' i d).
Proof.
  intros Hc' E (Hc & Hx & Hi & Hd). split_and!; try done; simpl in *; [by eapply index_phase_same|by eapply delete_phase_same].
Qed.

Lemma chain_ok_empty : chain_ok ∅.
Proof.
  split_and!.
  - intros k r Hr. by rewrite lookup_empty in Hr.
  - intros k r Hr. by rewrite lookup_empty in Hr.
  - intros h [r Hr]. by rewrite lookup_empty in Hr.
Qed.

Lemma chain_no_gap rs a b h :
  chain_ok rs -> indexed rs a -> indexed rs b -> a <= h <= b -> indexed rs h.
Proof.
  intros (_ & _ & Hcont) Ha Hb Hh. destruct (Hcont a Ha) as [Hga _].
  assert (forall n : nat, g < b - Z.of_nat n -> indexed rs (b - Z.of_nat n)) as Hdown.
  { induction n as [|n IH]; intros Hn; [by rewrite Z.sub_0_r|].
    replace (b - Z.of_nat (S n)) with (b - Z.of_nat n - 1) by lia. apply Hcont; [apply IH; lia|lia]. }
  destruct (Z.eq_dec a h) as [<-|Hne]; [done|].
  replace h with (b - Z.of_nat (Z.to_nat (b - h))) by lia. apply Hdown. lia.
Qed.

Lemma index_start_ok nv height w :
  node_ok nv -> chain_ok (committed w) ->
  state_ok (let '(w', i) := index_checks nv height w in mkState w' i DIdle).
Proof.
  intros Hn Hc. destruct (prepare_ok nv height w Hn Hc) as [Ha Hp]. unfold index_checks.
  assert (committed (snd (indexBlockPrepare nv height w)) = committed w) as E by (unfold committed; by rewrite Ha).
  destruct (indexBlockPrepare nv height w) as [[[block|]|e] w1]; simpl in E; split_and!; simpl; rewrite ?E; auto.
  destruct (Hp block w1 eq_refl) as (h & i & H'). by exists h, i.
Qed.

Lemma index_statements_ok nv block w :
  state_ok (mkState w (IChecked nv block) DIdle) ->
  state_ok (let '(w', i) := index_statements nv block w in mkState w' i DIdle).
Proof.
  intros (Hc & _ & (h & i & Hp) & _). cbn [s_world s_index] in *. unfold index_statements.
  set (w0 := on_committed (w_auto w) w). destruct (index_statements_keep nv block w0) as [Ka Kb].
  destruct (t_statements nv block w0) as [[ad|e] w1] eqn:E; cbn [snd] in Ka, Kb.
  - assert (committed w1 = committed w) as Ec by exact Ka.
    assert (rows_in (w_base w1) = committed w) as Eb by exact Kb.
    destruct Hp as (Hh & Hi & Hrest). split_and!; cbn [s_world s_index s_delete]; rewrite ?Ec; auto; simpl; [|done].
    exists h, i. rewrite Eb. split_and!; [done..|].
    exact (index_statements_row nv block w0 h i ad w1 Hh Hi E).
  - set (w2 := if String.eqb e never_returns then w1 else _).
    assert (committed w2 = committed w) as Ec.
    { unfold w2. destruct (String.eqb e never_returns); [exact Ka|].
      unfold committed. rewrite index_failed_auto. exact Ka. }
    split_and!; cbn [s_world s_index s_delete]; rewrite ?Ec; auto; done.
Qed.

Lemma index_commit_ok trx base block ad w :
  state_ok (mkState w (IStatements trx base block ad) DIdle) ->
  state_ok (mkState (snd (indexBlockFinish block ad (enter trx base w))) IIdle DIdle).
Proof.
  intros (Hc & _ & (h & i & Hp & Hb & Hs & Hr) & _). cbn [s_world s_index] in *.
  assert (chain_ok (committed (snd (indexBlockFinish block ad (enter trx base w))))) as Hc'.
  { unfold committed. rewrite index_finish_auto. cbn [enter w_base w_trx w_auto].
    eapply adds_block_ok; [exact Hc|exact Hp|]. by eapply commit_adds_block. }
  split_and!; auto; done.
Qed.

Lemma delete_start_ok nv blocks w :
  chain_ok (committed w) -> state_ok (let '(w', d) := delete_checks nv blocks w in mkState w' IIdle d).
Proof.
  intros Hc. destruct (getBlocksToDelete_ok blocks w Hc) as (bl & E & Hids). unfold delete_checks. rewrite E.
  split_and!; auto; done.
Qed.

Lemma delete_statements_ok nv blocks bl w :
  state_ok (mkState w IIdle (DChecked nv blocks bl)) ->
  state_ok (let '(w', d) := delete_statements nv blocks bl w in mkState w' IIdle d).
Proof.
  intros (Hc & _ & _ & Hids). cbn [s_world s_delete delete_phase_ok] in *. unfold delete_statements.
  set (w0 := on_committed (w_auto w) w). destruct (delete_statements_keep nv bl w0) as [Ka Kb].
  destruct (t_delete_statements nv bl w0) as [[ad|e] w1] eqn:E; cbn [snd] in Ka, Kb.
  - assert (committed w1 = committed w) as Ec by exact Ka.
    assert (rows_in (w_base w1) = committed w) as Eb by exact Kb.
    split_and!; cbn [s_world s_index s_delete]; rewrite ?Ec; auto; simpl; [done|].
    rewrite Eb. split_and!; [done..|]. exact (delete_statements_rows nv blocks bl w0 ad w1 Hids E).
  - set (w2 := if String.eqb e never_returns then w1 else _).
    assert (committed w2 = committed w) as Ec.
    { unfold w2. destruct (String.eqb e never_returns); [exact Ka|].
      unfold committed. rewrite delete_failed_auto. exact Ka. }
    split_and!; cbn [s_world s_index s_delete]; rewrite ?Ec; auto; done.
Qed.

Lemma delete_commit_ok trx base blocks bl ad w :
  state_ok (mkState w IIdle (DStatements trx base blocks bl ad)) ->
  state_ok (mkState (snd (deleteBlocksFinish bl ad (enter trx base w))) IIdle DIdle).
Proof.
  intros (Hc & _ & _ & Hb & Hs & Hr). cbn [s_world s_delete] in *.
  assert (chain_ok (committed (snd (deleteBlocksFinish bl ad (enter trx base w))))) as Hc'.
  { unfold committed. rewrite delete_finish_auto. cbn [enter w_base w_trx w_auto].
    fold (rows_in (eng_commit base trx (w_auto w))). destruct (min_height blocks) as [m|].
    - rewrite (commit_cuts base trx (w_auto w) m) by done. by apply cut_ok.
    - rewrite (commit_same base trx (w_auto w) Hr). exact Hc. }
  split_and!; auto; done.
Qed.

Lemma new_block_ok nv block w i d :
  state_ok (mkState w i d) -> state_ok (mkState (snd (indexNewBlock nv block w)) i d).
Proof.
  intros Hok. destruct (indexNewBlock_outcome nv block w) as [E|[qq E]]; (apply (state_ok_same w); [rewrite E|rewrite E|exact Hok]).
  - apply Hok.
  - done.
  - apply finalize_ok, Hok.
  - apply finalize_same.
Qed.

Lemma step_ok c c' : step true c c' -> state_ok c -> state_ok c'.
Proof.
  intros [nv height w d Hn Hx|nv block w d|trx base block ad w d|nv blocks w i Hx|nv blocks bl w i|trx base blocks bl ad w i
         |nv block w i d|w w' i d E] Hok; pose proof Hok as (Hc & Hex & _); cbn [s_world s_index s_delete] in *.
  - rewrite (Hx eq_refl). by apply index_start_ok.
  - destruct Hex as [?| ->]; [done|]. by apply index_statements_ok.
  - destruct Hex as [?| ->]; [done|]. by apply index_commit_ok.
  - rewrite (Hx eq_refl). by apply delete_start_ok.
  - destruct Hex as [->|?]; [|done]. by apply delete_statements_ok.
  - destruct Hex as [->|?]; [|done]. by eapply delete_commit_ok.
  - by apply new_block_ok.
  - apply (state_ok_same w); [by rewrite E|by rewrite E|exact Hok].
Qed.

Lemma steps_ok c c' : rtc (step true) c c' -> state_ok c -> state_ok c'.
Proof. induction 1; eauto using step_ok. Qed.

(** [C1] Start with an empty index and let the index queue, the delete queue,
    new blocks and the other parts of the service work side by side: any part
    may take a step between the checks, the statements and the commit of a job,
    every job gets its own answers of the node (which may have switched to
    another fork in between) and may fail at any point.  As long as no delete
    job starts while an index job is under way and the other way round, the
    heights of the committed blocks never have a gap, none is below the genesis
    height, and every block is stored under the height its id stands for.
    ([overlap_makes_gap] shows that the condition is needed: the delete job
    pauses the index queue, which does not stop the job under way.) *)
Theorem index_never_has_gaps (w : world St) (c : service_state) :
  committed w = ∅ -> rtc (step true) (mkState w IIdle DIdle) c ->
  let rs := committed (s_world c) in
  (forall a b h, indexed rs a -> indexed rs b -> a <= h <= b -> indexed rs h) /\
  (forall h, indexed rs h -> g <= h) /\
  (forall h r, rs !! [SInt h] = Some r -> exists i, cell r "id" = SStr i /\ height_of i = h).
Proof.
  intros Hw Hsteps rs. assert (chain_ok rs) as Hc.
  { apply (steps_ok _ _ Hsteps). split_and!; simpl; auto. rewrite Hw. apply chain_ok_empty. }
  split_and!.
  - intros a b h. by apply chain_no_gap.
  - intros h Hh. by apply Hc.
  - intros h r Hr. destruct (chain_row _ _ _ Hc Hr) as (h' & i & [= <-] & _ & ? & ?). by exists i.
Qed.

(** ** Jobs that nothing interrupts *)
Inductive job := JIndex (height : Z) | JDelete (blocks : list obj) | JNew (block : obj).

Definition run_job (nv : node_view) (j : job) : M St unit :=
  match j with
  | JIndex h => t_indexBlock nv h
  | JDelete bs => t_deleteIndexedBlocks nv bs
  | JNew b => indexNewBlock nv b
  end.

Lemma enter_own (w : world St) : enter (w_trx w) (w_base w) w = w.
Proof. by destruct w. Qed.

(** After a commit a job can only hang. *)
Lemma wait_schedule_hangs (check : M St (option bool)) l w e w' :
  (waitForIt check ≫= fun _ => scheduleAddressesBalanceUpdate l) w = (Throw e, w') -> e = never_returns.
Proof.
  unfold mbind, eff_bind, waitForIt. destruct (check w) as [[[b|]|e'] w1]; [|by intros [= <- _]..].
  by destruct l.
Qed.

Lemma index_finish_hangs block ad w e w' : indexBlockFinish block ad w = (Throw e, w') -> e = never_returns.
Proof.
  unfold indexBlockFinish. set (c := on_committed (eng_commit (w_base w) (w_trx w) (w_auto w)) w).
  rewrite (M_bind_ok commitDBTransaction _ w tt c) by done. apply wait_schedule_hangs.
Qed.

Lemma delete_finish_hangs bl ad w e w' : deleteBlocksFinish bl ad w = (Throw e, w') -> e = never_returns.
Proof.
  unfold deleteBlocksFinish. set (c := on_committed (eng_commit (w_base w) (w_trx w) (w_auto w)) w).
  rewrite (M_bind_ok commitDBTransaction _ w tt c) by done. apply wait_schedule_hangs.
Qed.

(** The transaction of a job, in one go, is its statements and its end. *)
Lemma transaction_world (statements : M St (list string)) (finish : list string -> M St unit) (failed : string -> M St unit) w :
  (forall ad w1 e w2, finish ad w1 = (Throw e, w2) -> e = never_returns) ->
  snd ((startDBTransaction ≫= fun _ => try_catch (ad ← statements; finish ad) failed) w) =
  match statements (on_committed (w_auto w) w) with
  | (Ok ad, w1) => snd (finish ad w1)
  | (Throw e, w1) => if String.eqb e never_returns then w1 else snd (failed e w1)
  end.
Proof.
  intros Hf. set (w0 := on_committed (w_auto w) w). rewrite (M_bind_ok startDBTransaction _ w tt w0) by done.
  unfold try_catch, mbind, eff_bind. destruct (statements w0) as [[ad|e] w1].
  - destruct (finish ad w1) as [[u|e] w2] eqn:E; [done|]. by rewrite (Hf _ _ _ _ E), String.eqb_refl.
  - by destruct (String.eqb e never_returns).
Qed.

(** A whole delete job, next to an index job under way if jobs may overlap. *)
Lemma delete_steps exclusive nv bs w i : (exclusive = true -> i = IIdle) ->
  rtc (step exclusive) (mkState w i DIdle) (mkState (snd (t_deleteIndexedBlocks nv bs w)) i DIdle).
Proof.
  intros Hx. eapply rtc_l; [by apply (step_delete_start _ nv bs)|]. unfold delete_checks, deleteIndexedBlocks.
  unfold mbind at 1, eff_bind at 1. destruct (getBlocksToDelete bs w) as [[bl|e] w1]; [|apply rtc_refl].
  rewrite transaction_world by apply delete_finish_hangs.
  eapply rtc_l; [apply step_delete_statements|]. unfold delete_statements.
  destruct (t_delete_statements nv bl _) as [[ad|e] w2]; [|apply rtc_refl].
  eapply rtc_l; [apply step_delete_commit|]. rewrite enter_own. apply rtc_refl.
Qed.

(** An uninterrupted job is a run of steps. *)
Lemma run_job_steps exclusive nv j w :
  node_ok nv -> rtc (step exclusive) (mkState w IIdle DIdle) (mkState (snd (run_job nv j w)) IIdle DIdle).
Proof.
  intros Hn. destruct j as [h|bs|b]; cbn [run_job]; [..|apply rtc_once, step_new_block].
  - eapply rtc_l; [by apply (step_index_start _ nv h)|]. unfold index_checks, indexBlock, mbind, eff_bind.
    destruct (indexBlockPrepare nv h w) as [[[block|]|e] w1]; [|apply rtc_refl..].
    unfold indexBlockTransaction. rewrite transaction_world by apply index_finish_hangs.
    eapply rtc_l; [apply step_index_statements|]. unfold index_statements.
    destruct (t_statements nv block _) as [[ad|e] w2]; [|apply rtc_refl].
    eapply rtc_l; [apply step_index_commit|]. rewrite enter_own. apply rtc_refl.
  - by apply delete_steps.
Qed.

(** ** The transaction of an index job *)
Lemma check_height_ok h c (w : world St) :
  table_ok blocksTableSchema (committed w) ->
  checkBlockHeightIndexStatusInDB (Num h) c w
  = (Ok (if Bool.eqb c (bool_decide (indexed (committed w) h)) then Some true else None), w).
Proof.
  intros Hc. unfold checkBlockHeightIndexStatusInDB, find_blocks, find. cbn [truthy].
  erewrite (M_bind_ok _ _ _ _ w).
  2:{ apply read_ok. cbn. apply (select_key blocksTableSchema (w_auto w) _ [Num h]);
        [exact Hc|apply blocks_key|done|done|]. intros r. unfold matches. simpl. by rewrite !andb_true_r. }
  change (to_sql <$> [Num h]) with [SInt h]. unfold indexed, committed, ret.
  destruct (rows_of (w_auto w) blocksTableSchema !! [SInt h]) as [r|] eqn:Er.
  - change (option_list (Some r)) with [r]. destruct (Hc _ _ Er) as ([= Hh] & _).
    rewrite fmap_cons, prop_project by (by left). rewrite Hh. cbn [of_sql].
    rewrite (bool_decide_eq_true_2 (is_Some (Some r))) by done.
    destruct c; [by rewrite bool_decide_eq_true_2|by rewrite bool_decide_eq_false_2].
  - rewrite (bool_decide_eq_false_2 (is_Some None)) by (by intros []).
    destruct c; [by rewrite bool_decide_eq_false_2|by rewrite bool_decide_eq_true_2].
Qed.

(** What a commit leaves, row by row, in every table: the row of the
    transaction where it differs from the one the transaction started on, the
    committed row elsewhere. *)
Definition published (base trx auto s : St) : Prop :=
  forall tn k, eng_table s tn !! k =
    if decide (eng_table trx tn !! k = eng_table base tn !! k) then eng_table auto tn !! k else eng_table trx tn !! k.

Lemma index_finish_ok block h i ad (w : world St) :
  table_ok blocksTableSchema (committed w) -> prop block "height" = Num h ->
  rows_in (w_base w) = committed w -> block_row (committed w) h i (rows_in (w_trx w)) ->
  exists w', indexBlockFinish block ad w = (Ok tt, w') /\
    published (w_base w) (w_trx w) (w_auto w) (w_auto w') /\ block_row (committed w) h i (committed w').
Proof.
  intros Ht Hh Hb Hrow. set (c := on_committed (eng_commit (w_base w) (w_trx w) (w_auto w)) w).
  assert (committed c = rows_in (w_trx w)) as Ec by (apply commit_table; symmetry; exact Hb).
  assert (block_row (committed w) h i (committed c)) as Hc by by rewrite Ec.
  assert (indexed (committed c) h) as Hix.
  { destruct (block_row_lookup _ _ _ _ Hc) as [(r & Hr & _) _]. by exists r. }
  assert (table_ok blocksTableSchema (committed c)) as Ht2.
  { destruct Hc as (ro & Hins & _ & _ & ->). by apply table_ok_insert. }
  unfold indexBlockFinish. rewrite (M_bind_ok commitDBTransaction _ w tt c) by done. rewrite Hh.
  rewrite (M_bind_ok (waitForIt _) _ c tt c).
  2:{ unfold waitForIt. rewrite check_height_ok by done. by rewrite bool_decide_eq_true_2. }
  exists (snd (scheduleAddressesBalanceUpdate ad c)).
  assert (w_auto (snd (scheduleAddressesBalanceUpdate ad c)) = w_auto c) as Ea by apply schedule_balance_auto.
  split; [by destruct ad|]. unfold committed. rewrite Ea. split; [|exact Hc]. intros tn k. apply commit_law.
Qed.

Lemma index_failed_ok block h e (w : world St) :
  table_ok blocksTableSchema (committed w) -> prop block "height" = Num h -> ~ indexed (committed w) h ->
  indexBlockFailed block e w = (Throw (index_error block e), on_committed (w_auto w) w).
Proof.
  intros Ht Hh Hfree. unfold indexBlockFailed. set (c := on_committed (w_auto w) w).
  rewrite (M_bind_ok rollbackDBTransaction _ w tt c) by done.
  rewrite (M_bind_ok (waitForIt _) _ c tt c); [reflexivity|].
  unfold waitForIt. rewrite Hh, check_height_ok by done. change (committed c) with (committed w).
  by rewrite bool_decide_eq_false_2.
Qed.

(** [C2] The transaction of an index job for a block whose height is not
    indexed yet is atomic, whatever its statements do.  When they succeed, the
    job returns, the commit publishes exactly the rows they changed in the
    transaction and leaves every other row as it is committed by then, and the
    table of blocks gains the row of the block; this holds just as well when
    others commit to rows of other tables between the last statement and the
    commit.  When a statement throws, the job throws that error (deadlocks
    renamed), nothing of the transaction is committed (what the job wrote
    outside of it stays) and the committed blocks are what they were.  When a
    statement never returns, neither does the job, and nothing of the
    transaction is committed. *)
Theorem index_job_atomic (nv : node_view) (block : obj) (h : Z) (i : string) (w : world St) :
  table_ok blocksTableSchema (committed w) -> prop block "height" = Num h -> prop block "id" = Str i ->
  ~ indexed (committed w) h ->
  let '(r, w1) := t_statements nv block (on_committed (w_auto w) w) in
  match r with
  | Ok ad =>
      (exists w', t_indexBlockTransaction nv block w = (Ok tt, w') /\
         published (w_base w1) (w_trx w1) (w_auto w1) (w_auto w') /\ block_row (committed w) h i (committed w')) /\
      (forall w2, w_trx w2 = w_trx w1 -> w_base w2 = w_base w1 -> committed w2 = committed w ->
         exists w', indexBlockFinish block ad w2 = (Ok tt, w') /\
           published (w_base w1) (w_trx w1) (w_auto w2) (w_auto w') /\ block_row (committed w) h i (committed w'))
  | Throw e => exists w',
      t_indexBlockTransaction nv block w = (Throw (if String.eqb e never_returns then e else index_error block e), w') /\
      w_auto w' = w_auto w1 /\ committed w' = committed w
  end.
Proof.
  intros Ht Hh Hi Hfree. set (w0 := on_committed (w_auto w) w).
  destruct (index_statements_keep nv block w0) as [Ka Kb].
  change (committed w0) with (committed w) in Ka. change (rows_in (w_base w0)) with (committed w) in Kb.
  unfold indexBlockTransaction, try_catch. rewrite (M_bind_ok startDBTransaction _ w tt w0) by done.
  destruct (t_statements nv block w0) as [[ad|e] w1] eqn:E; cbn [snd] in Ka, Kb.
  - rewrite (M_bind_ok _ _ _ _ _ E).
    pose proof (index_statements_row nv block w0 h i ad w1 Hh Hi E) as Hrow. change (rows_in (w_trx w0)) with (committed w) in Hrow.
    assert (forall w2, w_trx w2 = w_trx w1 -> w_base w2 = w_base w1 -> committed w2 = committed w ->
         exists w', indexBlockFinish block ad w2 = (Ok tt, w') /\
           published (w_base w1) (w_trx w1) (w_auto w2) (w_auto w') /\ block_row (committed w) h i (committed w')) as Hfin.
    { intros w2 E1 E2 E3. rewrite <- E1, <- E2, <- E3 in *.
      apply (index_finish_ok block h i ad w2); [done|done|by rewrite Kb|done]. }
    split; [|exact Hfin]. destruct (Hfin w1 eq_refl eq_refl Ka) as (w' & Ef & H'). exists w'. by rewrite Ef.
  - rewrite (M_bind_throw _ _ _ _ _ E). destruct (String.eqb e never_returns); [by exists w1|].
    exists (on_committed (w_auto w1) w1). rewrite (index_failed_ok block h e w1) by (rewrite Ka || idtac; done). by split_and!.
Qed.

(** ** A deletion job that fails *)
Abbreviation t_wrapper :=
  (deleteIndexedBlocksWrapper (St := St) prefix other deletePriceIndex revertSwapEvent
     getTransactionsByBlockID getTransactionIDsByBlockID getEventsByBlockID).

Definition deletion_job (blocks : list obj) : string * val :=
  ("DeleteIndexedBlocks", Object [("blocks", Arr (Object <$> blocks))]).

(** The job of the deletion queue hides every error of the deletion: it
    returns normally with the committed database the failed deletion left,
    and schedules the deletion again exactly when this was the last of the
    allowed attempts.  So after an error in an earlier attempt, which the
    queue takes for success, the deletion is not tried again. *)
Theorem failed_deletion_rescheduled (nv : node_view) (isPaused : bool) (pending made attempts : Z) (blocks : list obj)
    (w w0 w1 : world St) (e : string) :
  w0 = (if isPaused then w else snd (add_job "IndexBlocks.pause" Undef w)) ->
  t_deleteIndexedBlocks nv blocks w0 = (Throw e, w1) -> e <> never_returns ->
  exists w' new, t_wrapper nv isPaused pending made attempts blocks w = (Ok tt, w') /\
    w_auto w' = w_auto w1 /\ w_jobs w' = w_jobs w1 ++ new /\ (deletion_job blocks ∈ new <-> made = attempts - 1).
Proof.
  intros Hw0 E Hne. unfold deleteIndexedBlocksWrapper.
  set (retry := if made =? attempts - 1 then scheduleBlockDeletion (Arr (Object <$> blocks)) else ret tt).
  set (w2 := snd (retry w1)).
  rewrite (M_bind_ok (try_catch _ _) _ w tt w2).
  - exists (snd ((if pending =? 0 then add_job "IndexBlocks.resume" Undef else ret tt) w2)).
    exists ((if made =? attempts - 1 then [deletion_job blocks] else [])
            ++ (if pending =? 0 then [("IndexBlocks.resume", Undef)] else [])).
    subst w2 retry. destruct (Z.eqb_spec made (attempts - 1)) as [Hm|Hm], (pending =? 0); simpl; split_and!; try done.
    all: rewrite ?app_nil_r, <- ?app_assoc; try done.
    + split; [done|]. by left.
    + split; [done|]. by left.
    + split; [|done]. intros Hin%list_elem_of_singleton. discriminate.
    + split; [|done]. by intros Hin%not_elem_of_nil.
  - unfold try_catch. rewrite (M_bind_ok _ _ w tt w0) by (subst w0; by destruct isPaused).
    rewrite E. rewrite (proj2 (String.eqb_neq _ _) Hne). subst w2 retry. by destruct (_ =? _).
Qed.

End Spec.

(** ** A run on concrete blocks *)
Definition sample_id (h : Z) : string := if h =? 0 then "b0" else if h =? 1 then "b1" else "b2".
Definition sample_height (i : string) : Z :=
  if String.eqb i "b0" then 0 else if String.eqb i "b1" then 1 else 2.

Definition sample_block (h : Z) : obj :=
  [("id", Str (sample_id h)); ("height", Num h); ("timestamp", Num (10 * h)); ("generatorAddress", Str "gen");
   ("previousBlockID", Str (sample_id (h - 1))); ("size", Num 0); ("transactions", Arr []); ("assets", Arr [])].

Definition sample_view : node_view :=
  mkNode 0 2 0 (fun h => if (0 <=? h) && (h <=? 2) then Ok (sample_block h) else Throw "no such block")
    (fun _ => Ok []) [] 0.

Definition no_handler (_ _ : string) : option (handler (St := MemDB) * handler (St := MemDB)) := None.
(** The DEX processors and the swap index of the repository. *)
Definition sample_other : string -> string -> option (handler (St := MemDB) * handler (St := MemDB)) :=
  with_dex (H0 := sample_node) (H1 := plain_crypto) (H2 := sample_dex) no_handler.
Definition sample_swap : obj -> list val -> M MemDB unit :=
  applySwapEvent (H0 := sample_node) (H1 := plain_crypto) (H2 := sample_dex).
Definition sample_unswap : obj -> list val -> M MemDB unit :=
  revertSwapEvent (H0 := sample_node) (H1 := plain_crypto) (H2 := sample_dex).
Definition skip (_ : obj) : M MemDB unit := ret tt.
Definition no_transactions (_ : val) : M MemDB val := ret (Arr []).
Definition no_elements (_ : val) : M MemDB (list val) := ret [].

Definition sample_job (j : job) : M MemDB unit :=
  run_job (H1 := sample_node) (H2 := RawQ96) "p" sample_other skip skip skip skip sample_swap sample_unswap
    no_transactions no_elements no_elements sample_view j.

Lemma sample_view_ok : node_ok sample_height 0 sample_view.
Proof.
  split; [done|]. intros h b. simpl. destruct (Z.leb_spec 0 h), (Z.leb_spec h 2); simpl; try discriminate.
  intros [= <-]. split; [done|]. split; [done|]. exists (sample_id h). split; [done|].
  assert (h = 0 \/ h = 1 \/ h = 2) as [-> | [-> | ->]] by lia; reflexivity.
Qed.

(** Genesis, the next block and a third one are indexed; then the third is
    deleted again. *)
Definition sample_run : list job := [JIndex 0; JIndex 0; JIndex 0; JDelete [sample_block 2]].
Definition sample_world (js : list job) : world MemDB := foldl (fun w j => snd (sample_job j w)) empty_world js.

Lemma sample_other_keeps m c p : sample_other m c = Some p -> pair_keeps (St := MemDB) "blocks" p.
Proof. by apply with_dex_keeps. Qed.

Lemma skip_keeps b : keeps "blocks" (skip b).
Proof. apply keeps_ret. Qed.

Lemma sample_swap_keeps b ev : keeps "blocks" (sample_swap b ev).
Proof. apply applySwapEvent_keeps. Qed.

Lemma sample_unswap_keeps b ev : keeps "blocks" (sample_unswap b ev).
Proof. apply revertSwapEvent_keeps. Qed.

Abbreviation sample_step :=
  (step (H1 := sample_node) (H2 := RawQ96) "p" sample_other skip skip skip skip sample_swap sample_unswap
    no_transactions no_elements no_elements sample_height 0).

Abbreviation sample_state w := (mkState w IIdle DIdle).

Lemma sample_steps exclusive js : rtc (sample_step exclusive) (sample_state empty_world) (sample_state (sample_world js)).
Proof.
  induction js as [|j js IH] using rev_ind; [apply rtc_refl|].
  unfold sample_world. rewrite foldl_snoc. etrans; [exact IH|].
  apply (run_job_steps (H1 := sample_node) (H2 := RawQ96) "p" sample_other skip skip skip skip sample_swap sample_unswap
    no_transactions no_elements no_elements sample_height 0 exclusive sample_view j), sample_view_ok.
Qed.

Lemma sample_chain js : chain_ok sample_height 0 (committed (sample_world js)).
Proof.
  apply (steps_ok (H1 := sample_node) (H2 := RawQ96) "p" sample_other skip skip skip skip sample_swap sample_unswap
    no_transactions no_elements no_elements sample_other_keeps skip_keeps skip_keeps skip_keeps skip_keeps
    sample_swap_keeps sample_unswap_keeps (fun _ => keeps_ret _ _) (fun _ => keeps_ret _ _) (fun _ => keeps_ret _ _)
    sample_height 0 _ _ (sample_steps true js)).
  split_and!; simpl; auto. apply chain_ok_empty.
Qed.

Lemma index_never_has_gaps_witness :
  size (committed (sample_world sample_run)) = 2%nat /\
  forall h, indexed (committed (sample_world sample_run)) h -> 0 <= h.
Proof.
  destruct (index_never_has_gaps (H1 := sample_node) (H2 := RawQ96) "p"
    sample_other skip skip skip skip sample_swap sample_unswap
    no_transactions no_elements no_elements
    sample_other_keeps skip_keeps skip_keeps skip_keeps skip_keeps
    sample_swap_keeps sample_unswap_keeps (fun _ => keeps_ret _ _) (fun _ => keeps_ret _ _) (fun _ => keeps_ret _ _)
    sample_height 0 empty_world (sample_state (sample_world sample_run)) eq_refl (sample_steps true sample_run)) as (_ & Hg & _).
  split; [vm_compute; reflexivity|exact Hg].
Defined.

(** A delete job that starts while an index job is under way: genesis and
    block 1 are indexed and an index job has found that block 2 comes next when
    block 1 is deleted; the job goes on and commits block 2 above a gap. *)
Definition overlap_start : world MemDB * index_phase (St := MemDB) :=
  index_checks sample_view 0 (sample_world [JIndex 0; JIndex 0]).
Definition overlap_deleted : world MemDB := snd (sample_job (JDelete [sample_block 1]) (fst overlap_start)).
Definition overlap_statements : world MemDB * index_phase (St := MemDB) :=
  index_statements (H1 := sample_node) (H2 := RawQ96) "p" sample_other skip skip skip sample_swap
    sample_view (sample_block 2) overlap_deleted.
Definition overlap_end : world MemDB :=
  match snd overlap_statements with
  | IStatements trx base block ad => snd (indexBlockFinish block ad (enter trx base (fst overlap_statements)))
  | _ => fst overlap_statements
  end.

Lemma overlap_start_phase : snd overlap_start = IChecked sample_view (sample_block 2).
Proof.
  assert (fst (indexBlockPrepare sample_view 0 (sample_world [JIndex 0; JIndex 0])) = Ok (Some (sample_block 2))) as E
    by (vm_compute; reflexivity).
  unfold overlap_start, index_checks. destruct (indexBlockPrepare _ _ _) as [r w]. cbn [fst] in E. by rewrite E.
Qed.

Lemma overlap_makes_gap :
  exists c, rtc (sample_step false) (sample_state empty_world) c /\
    let rs := committed (s_world c) in indexed rs 0 /\ indexed rs 2 /\ ~ indexed rs 1.
Proof.
  exists (sample_state overlap_end). split.
  - etrans; [apply (sample_steps false [JIndex 0; JIndex 0])|].
    eapply rtc_l; [apply (step_index_start (H1 := sample_node) (H2 := RawQ96)) with (nv := sample_view) (height := 0);
      [apply sample_view_ok|done]|].
    fold overlap_start. rewrite (surjective_pairing overlap_start), overlap_start_phase.
    etrans; [by apply (delete_steps (H1 := sample_node) (H2 := RawQ96) "p" sample_other skip skip skip skip sample_swap
      sample_unswap no_transactions no_elements no_elements sample_height 0 false sample_view [sample_block 1])|].
    eapply rtc_l; [apply step_index_statements|].
    change (index_statements _ _ _ _ _ _ _ _ _) with overlap_statements. unfold overlap_end.
    rewrite (surjective_pairing overlap_statements). cbn [fst snd].
    destruct (snd overlap_statements) as [|nv b|trx base b ad] eqn:E; [apply rtc_refl| |].
    + exfalso. revert E. unfold overlap_statements, index_statements. by destruct (indexBlockStatements _ _ _ _ _ _ _ _ _) as [[ad|e] w].
    + eapply rtc_l; [apply step_index_commit|]. apply rtc_refl.
  - cbn [s_world]. split_and!; [apply (bool_decide_unpack _); vm_compute; exact I..|].
    apply (bool_decide_unpack _). vm_compute. exact I.
Qed.

Lemma index_job_atomic_witness :
  exists w', indexBlockTransaction (H0 := sample_node) (H1 := RawQ96) "p" sample_other skip skip skip sample_swap
      sample_view (sample_block 0) empty_world = (Ok tt, w') /\ block_row (committed empty_world) 0 "b0" (committed w').
Proof.
  pose proof (index_job_atomic (H1 := sample_node) (H2 := RawQ96) "p" sample_other skip skip skip sample_swap
    sample_other_keeps skip_keeps skip_keeps skip_keeps sample_swap_keeps sample_view (sample_block 0) 0 "b0" empty_world
    (proj1 (chain_ok_empty sample_height 0)) eq_refl eq_refl) as A.
  assert (is_ok (fst (indexBlockStatements (H0 := sample_node) (H1 := RawQ96) "p" sample_other skip skip skip sample_swap
    sample_view (sample_block 0) (on_committed (w_auto empty_world) empty_world))) = true) as Hok by (vm_compute; reflexivity).
  destruct (indexBlockStatements _ _ _ _ _ _ _ _ _) as [[ad|e] w1]; [|discriminate].
  destruct A as [(w' & Ew & _ & Hrow) _].
  - intros [r Hr]. discriminate Hr.
  - exists w'. split; [exact Ew|exact Hrow].
Defined.

(** The deletion fails since the node's answer about the transactions of the
    block does: the error is hidden in the first of five attempts. *)
Definition failing_transactions (_ : val) : M MemDB val := throw "node is not reachable".

Lemma failed_deletion_rescheduled_witness :
  exists w' new, deleteIndexedBlocksWrapper (H0 := sample_node) (H1 := RawQ96) "p" sample_other skip sample_unswap
      failing_transactions no_elements no_elements sample_view true 0 0 5 [sample_block 1]
      (sample_world [JIndex 0; JIndex 0]) = (Ok tt, w') /\ w_jobs w' = new /\ ~ (deletion_job [sample_block 1] ∈ new).
Proof.
  set (w := sample_world [JIndex 0; JIndex 0]).
  set (d := deleteIndexedBlocks (H0 := sample_node) (H1 := RawQ96) "p" sample_other skip sample_unswap
    failing_transactions no_elements no_elements sample_view [sample_block 1] w).
  destruct (failed_deletion_rescheduled (H1 := sample_node) (H2 := RawQ96) "p" sample_other skip sample_unswap
    failing_transactions no_elements no_elements sample_view true 0 0 5 [sample_block 1] w w (snd d)
    "node is not reachable") as (w' & new & E & _ & Hj & Hin).
  - reflexivity.
  - assert (fst d = Throw "node is not reachable") as Hd by (vm_compute; reflexivity).
    rewrite <- Hd. unfold d. apply surjective_pairing.
  - discriminate.
  - exists w', new. split; [exact E|]. split.
    + assert (w_jobs (snd d) = []) as Hd by (vm_compute; reflexivity). rewrite Hd in Hj. exact Hj.
    + intros H. apply Hin in H. discriminate.
Defined.
