(* ===== verification/Regex.v ===== *)
(** * Regular expressions of the gateway

    The patterns of [gateway/shared/regex.js] and an executable matcher for
    them.  Every pattern is anchored ([^...$]), so [RegExp.prototype.test] asks
    for a match of the whole input.  The constructs are those the patterns use:
    character classes, concatenation, alternatives, counted repetition and the
    word boundary.  A subject in the middle of a match is the character before
    the position and the rest of the input. *)
From S2P Require Import Prelude.
From Stdlib Require Import Ascii.
Local Open Scope nat_scope.

Inductive regex : Type :=
| Empty                                            (* matches the empty text *)
| Class (ranges : list (ascii * ascii))            (* [a-z0-9] *)
| Seq (r1 r2 : regex)
| Alt (r1 r2 : regex)
| Rep (r : regex) (lo : nat) (hi : option nat)     (* r{lo,hi}, r{lo,} *)
| Boundary.                                        (* \b *)

#[export] Instance regex_eq_dec : EqDecision regex.
Proof. solve_decision. Defined.

(** A position: the character before it, and what follows. *)
Abbreviation pos := (option ascii * list ascii)%type.

Definition in_range (c : ascii) (r : ascii * ascii) : bool :=
  (nat_of_ascii (fst r) <=? nat_of_ascii c) && (nat_of_ascii c <=? nat_of_ascii (snd r)).
Definition in_class (rs : list (ascii * ascii)) (c : ascii) : bool := existsb (in_range c) rs.

(** [\w] *)
Definition word_ranges : list (ascii * ascii) :=
  [("a", "z"); ("A", "Z"); ("0", "9"); ("_", "_")]%char.
Definition is_word (c : option ascii) : bool :=
  match c with Some c => in_class word_ranges c | None => false end.

Definition at_boundary (p : pos) : bool :=
  negb (Bool.eqb (is_word (fst p)) (is_word (head (snd p)))).

(** ** What a pattern means *)
Fixpoint iter_rel (n : nat) (R : pos -> pos -> Prop) (p q : pos) : Prop :=
  match n with
  | O => p = q
  | S n => exists p', R p p' /\ iter_rel n R p' q
  end.

(** The pattern matches the text between two positions. *)
Fixpoint matches (r : regex) (p q : pos) : Prop :=
  match r with
  | Empty => p = q
  | Class rs => exists c s, snd p = c :: s /\ in_class rs c = true /\ q = (Some c, s)
  | Seq r1 r2 => exists p', matches r1 p p' /\ matches r2 p' q
  | Alt r1 r2 => matches r1 p q \/ matches r2 p q
  | Rep r lo hi => exists n, lo <= n /\ (forall h, hi = Some h -> n <= h) /\ iter_rel n (matches r) p q
  | Boundary => at_boundary p = true /\ p = q
  end.

(** ** The matcher *)

(** [n] times [f]; then at most [m] times more. *)
Fixpoint exactly (n : nat) (f : pos -> list pos) (p : pos) : list pos :=
  match n with O => [p] | S n => f p ≫= exactly n f end.
Fixpoint at_most (m : nat) (f : pos -> list pos) (p : pos) : list pos :=
  p :: match m with O => [] | S m => f p ≫= at_most m f end.

(** The positions where a match that starts at [p] can end.  A repetition
    without upper bound needs no more rounds than there are characters left. *)
Fixpoint ends (r : regex) (p : pos) : list pos :=
  match r with
  | Empty => [p]
  | Class rs => match snd p with
                | c :: s => if in_class rs c then [(Some c, s)] else []
                | [] => []
                end
  | Seq r1 r2 => ends r1 p ≫= ends r2
  | Alt r1 r2 => ends r1 p ++ ends r2 p
  | Rep r lo None => exactly lo (ends r) p ≫= fun q => at_most (length (snd q)) (ends r) q
  | Rep r lo (Some hi) => if hi <? lo then [] else exactly lo (ends r) p ≫= at_most (hi - lo) (ends r)
  | Boundary => if at_boundary p then [p] else []
  end.

(** [/^r$/.test(s)] *)
Definition regex_test (r : regex) (s : string) : bool :=
  existsb (fun q => match snd q with [] => true | _ => false end) (ends r (None, String.list_ascii_of_string s)).

(** ** The matcher finds exactly the matches *)

(** A match consumes a prefix; one that consumes nothing stays in place. *)
Definition advances (p q : pos) : Prop :=
  exists w, snd p = w ++ snd q /\ (w = [] -> p = q).

Lemma advances_refl p : advances p p.
Proof. by exists []. Qed.

Lemma advances_trans p q r : advances p q -> advances q r -> advances p r.
Proof.
  intros (u & Hu & Hu') (v & Hv & Hv'). exists (u ++ v). split.
  - by rewrite Hu, Hv, (assoc (++)).
  - intros [-> ->]%app_nil. rewrite Hu' by done. auto.
Qed.

Lemma iter_rel_advances (R : pos -> pos -> Prop) n p q :
  (forall p q, R p q -> advances p q) -> iter_rel n R p q -> advances p q.
Proof.
  intros HR. revert p. induction n as [|n IH]; simpl; intros p.
  - intros ->. apply advances_refl.
  - intros (p' & H1 & H2). eapply advances_trans; [by apply HR|by apply IH].
Qed.

Lemma matches_advances r p q : matches r p q -> advances p q.
Proof.
  revert p q; induction r as [|rs|r1 IH1 r2 IH2|r1 IH1 r2 IH2|r IH lo hi|]; simpl; intros p q.
  - intros ->. apply advances_refl.
  - intros (c & s & E & _ & ->). exists [c]. split; [done|discriminate].
  - intros (p' & H1 & H2). eapply advances_trans; [by apply IH1|by apply IH2].
  - intros [H|H]; [by apply IH1|by apply IH2].
  - intros (n & _ & _ & H). by eapply iter_rel_advances.
  - intros [_ ->]. apply advances_refl.
Qed.

Section Iteration.
Context (f : pos -> list pos) (R : pos -> pos -> Prop).
Hypothesis Hf : forall p q, q ∈ f p <-> R p q.
Hypothesis HR : forall p q, R p q -> advances p q.

Lemma elem_of_exactly n p q : q ∈ exactly n f p <-> iter_rel n R p q.
Proof.
  revert p; induction n as [|n IH]; simpl; intros p.
  - rewrite list_elem_of_singleton. naive_solver.
  - rewrite list_elem_of_bind. setoid_rewrite IH. setoid_rewrite Hf. naive_solver.
Qed.

Lemma elem_of_at_most m p q : q ∈ at_most m f p <-> exists n, n <= m /\ iter_rel n R p q.
Proof.
  revert p; induction m as [|m IH]; simpl; intros p; rewrite elem_of_cons.
  - split; [intros [->|?%not_elem_of_nil]; [by exists 0|done]|].
    intros ([|n] & ? & H); [by left|lia].
  - rewrite list_elem_of_bind. split.
    + intros [->|(p' & Hq & Hp)]; [by exists 0; split; [lia|]|].
      apply IH in Hq as (n & Hn & Hq). exists (S n). split; [lia|]. exists p'. by rewrite <- Hf.
    + intros ([|n] & Hn & H); [by left|]. right. destruct H as (p' & H1 & H2).
      exists p'. split; [apply IH; exists n; split; [lia|done]|by apply Hf].
Qed.

(** Rounds that consume nothing can be dropped. *)
Lemma iter_rel_bounded n p q :
  iter_rel n R p q -> exists n', n' <= length (snd p) /\ iter_rel n' R p q.
Proof.
  revert p; induction n as [|n IH]; simpl; intros p.
  - intros ->. exists 0. split; [lia|done].
  - intros (p' & H1 & H2). destruct (IH _ H2) as (n' & Hn' & H').
    destruct (HR _ _ H1) as (w & Hw & Hstay). destruct w as [|c w].
    + rewrite Hstay by done. by exists n'.
    + exists (S n'). split; [|by exists p']. rewrite Hw. simpl. rewrite length_app. lia.
Qed.

Lemma elem_of_at_most_all p q :
  q ∈ at_most (length (snd p)) f p <-> exists n, iter_rel n R p q.
Proof.
  rewrite elem_of_at_most. split; [naive_solver|]. intros (n & H). by apply iter_rel_bounded in H.
Qed.
End Iteration.

Lemma iter_rel_add (R : pos -> pos -> Prop) n m p q :
  iter_rel (n + m) R p q <-> exists p', iter_rel n R p p' /\ iter_rel m R p' q.
Proof.
  revert p; induction n as [|n IH]; simpl; intros p.
  - naive_solver.
  - setoid_rewrite IH. naive_solver.
Qed.

Lemma elem_of_ends r p q : q ∈ ends r p <-> matches r p q.
Proof.
  revert p q; induction r as [|rs|r1 IH1 r2 IH2|r1 IH1 r2 IH2|r IH lo hi|]; simpl; intros p q.
  - rewrite list_elem_of_singleton. naive_solver.
  - destruct p as [c0 [|c s]]; simpl.
    + split; [by intros ?%not_elem_of_nil|by intros (? & ? & ? & _)].
    + destruct (in_class rs c) eqn:E; [rewrite list_elem_of_singleton|]; split.
      * intros ->. by exists c, s.
      * by intros (c' & s' & [= <- <-] & _ & ->).
      * by intros ?%not_elem_of_nil.
      * intros (c' & s' & [= <- <-] & E' & _). by rewrite E in E'.
  - rewrite list_elem_of_bind. setoid_rewrite IH1. setoid_rewrite IH2. naive_solver.
  - rewrite elem_of_app, IH1, IH2. done.
  - destruct hi as [hi|].
    + destruct (Nat.ltb_spec hi lo).
      * rewrite elem_of_nil. split; [done|]. intros (n & ? & Hn & _). specialize (Hn hi eq_refl). lia.
      * rewrite list_elem_of_bind. setoid_rewrite (elem_of_at_most _ _ IH). setoid_rewrite (elem_of_exactly _ _ IH).
        split.
        -- intros (p' & (n & Hn & H2) & H1). exists (lo + n). split; [lia|]. split; [intros h [= ->]; lia|].
           apply iter_rel_add. eauto.
        -- intros (n & Hlo & Hhi & H3). specialize (Hhi hi eq_refl).
           replace n with (lo + (n - lo)) in H3 by lia. apply iter_rel_add in H3 as (p' & H1 & H2).
           exists p'. split; [exists (n - lo); split; [lia|done]|done].
    + rewrite list_elem_of_bind.
      setoid_rewrite (elem_of_at_most_all _ _ IH (matches_advances r)). setoid_rewrite (elem_of_exactly _ _ IH).
      split.
      * intros (p' & (n & H2) & H1). exists (lo + n). split; [lia|]. split; [discriminate|].
        apply iter_rel_add. eauto.
      * intros (n & Hlo & _ & H3). replace n with (lo + (n - lo)) in H3 by lia.
        apply iter_rel_add in H3 as (p' & H1 & H2). eauto.
  - destruct (at_boundary p).
    + rewrite list_elem_of_singleton. naive_solver.
    + split; [by intros ?%not_elem_of_nil|by intros [? _]].
Qed.

(** The matcher decides the language of a pattern: the test succeeds
    exactly when the pattern matches the text from its first to its last
    character, for every pattern and every text, counted and unbounded
    repetitions and word boundaries included. *)
Lemma regex_test_correct r s :
  regex_test r s = true <-> exists c, matches r (None, String.list_ascii_of_string s) (c, []).
Proof.
  unfold regex_test. rewrite existsb_exists. setoid_rewrite <- list_elem_of_In. setoid_rewrite elem_of_ends.
  split.
  - intros ([c [|]] & H & E); [by exists c|discriminate].
  - intros (c & H). by exists (c, []).
Qed.

(** ** Characters a pattern does not accept *)
Fixpoint avoids (c : ascii) (r : regex) : bool :=
  match r with
  | Empty | Boundary => true
  | Class rs => negb (in_class rs c)
  | Seq r1 r2 | Alt r1 r2 => avoids c r1 && avoids c r2
  | Rep r _ _ => avoids c r
  end.

Lemma matches_avoids c r p q : avoids c r = true -> matches r p q -> exists w, snd p = w ++ snd q /\ c ∉ w.
Proof.
  revert p q; induction r as [|rs|r1 IH1 r2 IH2|r1 IH1 r2 IH2|r IH lo hi|]; simpl; intros p q Ha.
  - intros ->. exists []. split; [done|apply not_elem_of_nil].
  - intros (d & t & E & Hd & ->). exists [d]. split; [done|]. intros ->%list_elem_of_singleton. by rewrite Hd in Ha.
  - apply andb_true_iff in Ha as [Ha1 Ha2]. intros (p' & (w & E & Hw)%IH1 & (w' & E' & Hw')%IH2); try done.
    exists (w ++ w'). rewrite E, E', (assoc (++)). split; [done|]. by rewrite not_elem_of_app.
  - apply andb_true_iff in Ha as [Ha1 Ha2]. intros [H|H]; [by apply IH1|by apply IH2].
  - intros (n & _ & _ & H). revert p H. induction n as [|n IHn]; simpl; intros p.
    + intros ->. exists []. split; [done|apply not_elem_of_nil].
    + intros (p' & (w & E & Hw)%(IH _ _ Ha) & (w' & E' & Hw')%IHn).
      exists (w ++ w'). rewrite E, E', (assoc (++)). split; [done|]. by rewrite not_elem_of_app.
  - intros [_ ->]. exists []. split; [done|apply not_elem_of_nil].
Qed.

Lemma regex_test_avoids c r s : avoids c r = true -> regex_test r s = true -> c ∉ String.list_ascii_of_string s.
Proof.
  intros Ha (d & (w & E & Hw)%(matches_avoids c))%regex_test_correct; [|done]. simpl in E. rewrite app_nil_r in E. by subst.
Qed.

(** ** Regular expression literals *)

(** The characters a class escape stands for. *)
Definition escape_ranges (c : ascii) : option (list (ascii * ascii)) :=
  if Ascii.eqb c "d" then Some [("0", "9")]%char
  else if Ascii.eqb c "w" then Some word_ranges else None.

(** The inside of [[...]], up to the closing bracket. *)
Fixpoint parse_class (fuel : nat) (s : list ascii) : option (list (ascii * ascii) * list ascii) :=
  match fuel with O => None | S fuel =>
    match s with
    | "]"%char :: s => Some ([], s)
    | "\"%char :: c :: s =>
        '(rs, s) ← parse_class fuel s; Some (default [(c, c)] (escape_ranges c) ++ rs, s)
    | a :: "-"%char :: b :: s =>
        if Ascii.eqb b "]" then Some ([(a, a); ("-", "-")]%char, s)
        else '(rs, s) ← parse_class fuel s; Some ((a, b) :: rs, s)
    | a :: s => '(rs, s) ← parse_class fuel s; Some ((a, a) :: rs, s)
    | [] => None
    end
  end.

Fixpoint parse_digits (fuel : nat) (acc : option nat) (s : list ascii) : option nat * list ascii :=
  match fuel, s with
  | S fuel, c :: s' =>
      if in_range c ("0", "9")%char
      then parse_digits fuel (Some (10 * default 0 acc + (nat_of_ascii c - 48))) s'
      else (acc, s)
  | _, _ => (acc, s)
  end.

(** A quantifier after [r], when there is one. *)
Definition parse_quantifier (r : regex) (s : list ascii) : option (regex * list ascii) :=
  match s with
  | "*"%char :: s => Some (Rep r 0 None, s)
  | "+"%char :: s => Some (Rep r 1 None, s)
  | "?"%char :: s => Some (Rep r 0 (Some 1), s)
  | "{"%char :: s =>
      match parse_digits (length s) None s with
      | (Some lo, "}"%char :: s) => Some (Rep r lo (Some lo), s)
      | (Some lo, ","%char :: s) =>
          match parse_digits (length s) None s with
          | (hi, "}"%char :: s) => Some (Rep r lo hi, s)
          | _ => None
          end
      | _ => None
      end
  | _ => Some (r, s)
  end.

(** Alternatives, sequences and atoms; every call uses up one unit of fuel and
    the length of the text is enough. *)
Fixpoint parse_alt (fuel : nat) (s : list ascii) : option (regex * list ascii) :=
  match fuel with O => None | S fuel =>
    '(r, s) ← parse_seq fuel s;
    match s with
    | "|"%char :: s => '(r', s) ← parse_alt fuel s; Some (Alt r r', s)
    | _ => Some (r, s)
    end
  end
with parse_seq (fuel : nat) (s : list ascii) : option (regex * list ascii) :=
  match fuel with O => None | S fuel =>
    match s with
    | [] | "|"%char :: _ | ")"%char :: _ => Some (Empty, s)
    | _ => '(r, s) ← parse_atom fuel s; '(r, s) ← parse_quantifier r s;
           '(r', s) ← parse_seq fuel s; Some (match r' with Empty => r | _ => Seq r r' end, s)
    end
  end
with parse_atom (fuel : nat) (s : list ascii) : option (regex * list ascii) :=
  match fuel with O => None | S fuel =>
    match s with
    | "("%char :: s =>
        let s := match s with "?"%char :: ":"%char :: s => s | _ => s end in
        '(r, s) ← parse_alt fuel s;
        match s with ")"%char :: s => Some (r, s) | _ => None end
    | "["%char :: s => '(rs, s) ← parse_class fuel s; Some (Class rs, s)
    | "\"%char :: "b"%char :: s => Some (Boundary, s)
    | "\"%char :: c :: s => Some (Class (default [(c, c)] (escape_ranges c)), s)
    | c :: s => if in_class [("(", "+"); (".", "."); ("?", "?"); ("[", "^"); ("{", "}"); ("$", "$")]%char c then None
                else Some (Class [(c, c)], s)
    | [] => None
    end
  end.

(** [/^...$/]: both anchors are required, and the text must be used up. *)
Definition parse_regex (text : string) : option regex :=
  match String.list_ascii_of_string text with
  | "^"%char :: s =>
      match reverse s with
      | "$"%char :: s =>
          '(r, rest) ← parse_alt (3 * length s + 3) (reverse s);
          match rest with [] => Some r | _ => None end
      | _ => None
      end
  | _ => None
  end.

(** A pattern given by its text; an unreadable one would match nothing. *)
Definition regex_of (text : string) : regex := default (Class []) (parse_regex text).

(** ** gateway/shared/regex.js *)

Definition HASH_SHA256_text : string :=
  "^\b(?:[A-Fa-f0-9]){64}\b$".
Definition HASH_SHA256 : regex := Eval vm_compute in regex_of HASH_SHA256_text.
Definition HASH_SHA512_text : string :=
  "^\b(?:[A-Fa-f0-9]){128}\b$".
Definition HASH_SHA512 : regex := Eval vm_compute in regex_of HASH_SHA512_text.
Definition ADDRESS_KLAYR32_text : string :=
  "^kly[a-hjkm-z2-9]{38}$".
Definition ADDRESS_KLAYR32 : regex := Eval vm_compute in regex_of ADDRESS_KLAYR32_text.
Definition ADDRESS_KLAYR32_CSV_text : string :=
  "^\b(?:kly[a-hjkm-z2-9]{38}|,)+\b$".
Definition ADDRESS_KLAYR32_CSV : regex := Eval vm_compute in regex_of ADDRESS_KLAYR32_CSV_text.
Definition PUBLIC_KEY : regex := HASH_SHA256.
Definition BLOCK_ID : regex := HASH_SHA256.
Definition NONCE_text : string :=
  "^\d+$".
Definition NONCE : regex := Eval vm_compute in regex_of NONCE_text.
Definition FEE : regex := NONCE.
Definition PARTIAL_SEARCH_text : string :=
  "^[\w!@$&.]{1,64}$".
Definition PARTIAL_SEARCH : regex := Eval vm_compute in regex_of PARTIAL_SEARCH_text.
Definition PARTIAL_SEARCH_NAME_text : string :=
  "^[\w!@$&.]{1,20}$".
Definition PARTIAL_SEARCH_NAME : regex := Eval vm_compute in regex_of PARTIAL_SEARCH_NAME_text.
Definition TIMESTAMP_RANGE_text : string :=
  "^(?:(?:\d+)|(?::(?:\d+))|(?:(?:\d+):(?:\d+)?))$".
Definition TIMESTAMP_RANGE : regex := Eval vm_compute in regex_of TIMESTAMP_RANGE_text.
Definition HEIGHT_RANGE_text : string :=
  "^(?:(?:\d+)|(?::(?:\d+))|(?:(?:\d+):(?:\d+)?))$".
Definition HEIGHT_RANGE : regex := Eval vm_compute in regex_of HEIGHT_RANGE_text.
Definition IP_text : string :=
  "^(?:(?:25[0-5]|2[0-4][0-9]|[01]?[0-9][0-9]?)\.){3}(?:25[0-5]|2[0-4][0-9]|[01]?[0-9][0-9]?)$".
Definition IP : regex := Eval vm_compute in regex_of IP_text.
Definition LIMIT_text : string :=
  "^\b(?:(?:[1-9][0-9]?)|100)\b$".
Definition LIMIT : regex := Eval vm_compute in regex_of LIMIT_text.
Definition OFFSET_text : string :=
  "^\b([0-9][0-9]*)\b$".
Definition OFFSET : regex := Eval vm_compute in regex_of OFFSET_text.
Definition NAME_text : string :=
  "^[a-z0-9!@$&_.]{1,20}$".
Definition NAME : regex := Eval vm_compute in regex_of NAME_text.
Definition NAME_CSV_text : string :=
  "^\b[\w!@$&.,]{3,}\b$".
Definition NAME_CSV : regex := Eval vm_compute in regex_of NAME_CSV_text.
Definition NETWORK_VERSION_text : string :=
  "^\d+\.\d+((\.\d+)?(?:-[a-zA-Z\d]+(?:\.\d+)?)?)?(?:\+[a-zA-Z\d]+)?$".
Definition NETWORK_VERSION : regex := Eval vm_compute in regex_of NETWORK_VERSION_text.
Definition TRANSACTION_text : string :=
  "^\b[0-9a-fA-F]+\b$".
Definition TRANSACTION : regex := Eval vm_compute in regex_of TRANSACTION_text.
Definition TRANSACTION_EXECUTION_STATUS_text : string :=
  "^\b(?:pending|successful|failed|,){0,5}\b$".
Definition TRANSACTION_EXECUTION_STATUS : regex := Eval vm_compute in regex_of TRANSACTION_EXECUTION_STATUS_text.
Definition POS_VALIDATOR_STATUS_text : string :=
  "^\b(?:active|standby|banned|punished|ineligible|,){0,9}\b$".
Definition POS_VALIDATOR_STATUS : regex := Eval vm_compute in regex_of POS_VALIDATOR_STATUS_text.
Definition CCM_STATUS_text : string :=
  "^\b(?:ok|module_not_supported|module_not_supported|channel_unavailable|recovered|,){0,9}\b$".
Definition CCM_STATUS : regex := Eval vm_compute in regex_of CCM_STATUS_text.
Definition DATE_INTERVAL_text : string :=
  "^\b(?:(?:\d{4})-(?:(?:1[012])|(?:0?[1-9]))-(?:(?:[012][1-9])|(?:[123]0)|31))(?::(?:(?:\d{4})-(?:(?:1[012])|(?:0?[1-9]))-(?:(?:[012][1-9])|(?:[123]0)|31)))?\b$".
Definition DATE_INTERVAL : regex := Eval vm_compute in regex_of DATE_INTERVAL_text.
Definition NETWORK_CSV_text : string :=
  "^\b(?:mainnet|testnet|betanet|devnet|,){0,7}\b$".
Definition NETWORK_CSV : regex := Eval vm_compute in regex_of NETWORK_CSV_text.
Definition APPLICATION_STATUS_text : string :=
  "^\b(?:registered|activated|terminated|unregistered|,){1,7}\b$".
Definition APPLICATION_STATUS : regex := Eval vm_compute in regex_of APPLICATION_STATUS_text.
Definition MODULE_COMMAND_text : string :=
  "^[0-9a-zA-Z]{0,32}:[0-9a-zA-Z]{0,32}$".
Definition MODULE_COMMAND : regex := Eval vm_compute in regex_of MODULE_COMMAND_text.
Definition CHAIN_ID_text : string :=
  "^\b[a-fA-F0-9]{8}\b$".
Definition CHAIN_ID : regex := Eval vm_compute in regex_of CHAIN_ID_text.
Definition CHAIN_ID_CSV_text : string :=
  "^\b(?:[a-fA-F0-9]{8}|,)+\b$".
Definition CHAIN_ID_CSV : regex := Eval vm_compute in regex_of CHAIN_ID_CSV_text.
Definition CHAIN_NAME_text : string :=
  "^[A-Za-z0-9!@$&_.]{1,32}$".
Definition CHAIN_NAME : regex := Eval vm_compute in regex_of CHAIN_NAME_text.
Definition TOKEN_ID_text : string :=
  "^\b[a-fA-F0-9]{16}\b$".
Definition TOKEN_ID : regex := Eval vm_compute in regex_of TOKEN_ID_text.
Definition TOKEN_ID_CSV_text : string :=
  "^\b(?:[a-fA-F0-9]{16}|,)+\b$".
Definition TOKEN_ID_CSV : regex := Eval vm_compute in regex_of TOKEN_ID_CSV_text.
Definition BLS_KEY_text : string :=
  "^\b[a-fA-F0-9]{96}\b$".
Definition BLS_KEY : regex := Eval vm_compute in regex_of BLS_KEY_text.
Definition PROOF_OF_POSSESSION_text : string :=
  "^\b[a-fA-F0-9]{192}\b$".
Definition PROOF_OF_POSSESSION : regex := Eval vm_compute in regex_of PROOF_OF_POSSESSION_text.
Definition MODULE_text : string :=
  "^[0-9a-zA-Z]{1,32}$".
Definition MODULE : regex := Eval vm_compute in regex_of MODULE_text.
Definition COMMAND : regex := MODULE.
Definition MODULE_CSV_text : string :=
  "^(?:[0-9a-zA-Z]{1,32})(?:,[0-9a-zA-Z]{1,32})*$".
Definition MODULE_CSV : regex := Eval vm_compute in regex_of MODULE_CSV_text.
Definition COMMAND_CSV : regex := MODULE_CSV.
Definition TOPIC_CSV_text : string :=
  "^\b(?:(?:04|05)?[0-9a-fA-F]{64}|kly[a-hjkm-z2-9]{38})(?:,(?:(?:04|05)?[0-9a-fA-F]{64}|kly[a-hjkm-z2-9]{38}))*\b$".
Definition TOPIC_CSV : regex := Eval vm_compute in regex_of TOPIC_CSV_text.
Definition HEX_STRING_text : string :=
  "^\b[a-fA-F0-9]+\b$".
Definition HEX_STRING : regex := Eval vm_compute in regex_of HEX_STRING_text.
Definition EXCEL_EXPORT_FILENAME_text : string :=
  "^\btransactions_([a-fA-F0-9]{8})_(kly[a-hjkm-z2-9]{38})_((\d{4})-((1[012])|(0?[1-9]))-(([012][1-9])|([123]0)|31))_((\d{4})-((1[012])|(0?[1-9]))-(([012][1-9])|([123]0)|31))\.xlsx\b$".
Definition EXCEL_EXPORT_FILENAME : regex := Eval vm_compute in regex_of EXCEL_EXPORT_FILENAME_text.
Definition EVENT_NAME_text : string :=
  "^[\w!@$&. ]{1,32}$".
Definition EVENT_NAME : regex := Eval vm_compute in regex_of EVENT_NAME_text.

(** Every pattern text is readable. *)
Lemma patterns_parse :
  Forall (fun text => is_Some (parse_regex text))
    [HASH_SHA256_text; HASH_SHA512_text; ADDRESS_KLAYR32_text; ADDRESS_KLAYR32_CSV_text; NONCE_text; PARTIAL_SEARCH_text; PARTIAL_SEARCH_NAME_text; TIMESTAMP_RANGE_text; HEIGHT_RANGE_text; IP_text; LIMIT_text; OFFSET_text; NAME_text; NAME_CSV_text; NETWORK_VERSION_text; TRANSACTION_text; TRANSACTION_EXECUTION_STATUS_text; POS_VALIDATOR_STATUS_text; CCM_STATUS_text; DATE_INTERVAL_text; NETWORK_CSV_text; APPLICATION_STATUS_text; MODULE_COMMAND_text; CHAIN_ID_text; CHAIN_ID_CSV_text; CHAIN_NAME_text; TOKEN_ID_text; TOKEN_ID_CSV_text; BLS_KEY_text; PROOF_OF_POSSESSION_text; MODULE_text; MODULE_CSV_text; TOPIC_CSV_text; HEX_STRING_text; EXCEL_EXPORT_FILENAME_text; EVENT_NAME_text].
Proof. repeat constructor; vm_compute; eexists; reflexivity. Qed.
