(* ===== verification/Mapper.v ===== *)
(** * gateway/shared/customMapper.js

    Responses are rewritten by a definition: an object whose fields name a path
    into the data and a type to cast to, or hold definitions of arrays and
    nested objects.  Definitions and data are JavaScript values. *)
From S2P Require Import Prelude JsValue.
From Stdlib Require Import Ascii.
Local Open Scope Z_scope.

(** [isObject(obj)] *)
Definition isObject (v : val) : bool := match v with Object _ => true | _ => false end.
Definition isEmptyObj (v : val) : bool := match v with Object [] => true | _ => false end.
Definition isEmptyArr (v : val) : bool := match v with Arr [] => true | _ => false end.
Definition validate (v : val) : bool := negb (isEmptyObj v || isEmptyArr v).
Definition isObjectWithValues (v : val) : bool :=
  match v with
  | Object o => existsb (fun kv => negb (bool_decide (snd kv = Undef))) o
  | _ => false
  end.

(** ** Casts *)

(** [Buffer.from(input)]: the bytes of a text or of an array of numbers. *)
Definition buffer_from (v : val) : result (list Z) :=
  match v with
  | Str s => Ok ((fun c => Z.of_nat (nat_of_ascii c)) <$> String.list_ascii_of_string s)
  | Arr l => Ok ((fun v => match js_Number v with Num z => z mod 256 | _ => 0 end) <$> l)
  | _ => Throw "The first argument must be of type string or an instance of Buffer, ArrayBuffer, or Array or an Array-like Object."
  end.

Definition hex_digit (n : Z) : ascii :=
  ascii_of_nat (Z.to_nat (if n <? 10 then 48 + n else 87 + n)).
Definition to_hex (bytes : list Z) : string :=
  String.string_of_list_ascii (b ← bytes; [hex_digit (b / 16); hex_digit (b mod 16)]).

Definition base64_digit (n : Z) : ascii :=
  ascii_of_nat (Z.to_nat (if n <? 26 then 65 + n else if n <? 52 then 71 + n
                          else if n <? 62 then n - 4 else if n =? 62 then 43 else 47)).
Fixpoint to_base64_chars (bytes : list Z) : list ascii :=
  match bytes with
  | a :: b :: c :: rest =>
      base64_digit (a / 4) :: base64_digit (a mod 4 * 16 + b / 16)
      :: base64_digit (b mod 16 * 4 + c / 64) :: base64_digit (c mod 64) :: to_base64_chars rest
  | [a; b] => [base64_digit (a / 4); base64_digit (a mod 4 * 16 + b / 16); base64_digit (b mod 16 * 4); "="%char]
  | [a] => [base64_digit (a / 4); base64_digit (a mod 4 * 16); "="%char; "="%char]
  | [] => []
  end.

(** Date formatting is done by the engine's [Date] and by [moment]. *)
Class DateCasts := {
  isodate : val -> result val;
  epoch : val -> result val;
  datetime : val -> result val;
}.

Section Mapper.
Context `{DateCasts}.

(** [cast[type](input)]; calling a cast that does not exist throws. *)
Definition cast (type : string) (input : val) : result val :=
  if String.eqb type "number" then Ok (js_Number input)
  else if String.eqb type "string" then Ok (Str (js_String input))
  else if String.eqb type "boolean" then
    Ok (Bool (if bool_decide (input = Str "0") then false else truthy input))
  else if String.eqb type "isodate" then isodate input
  else if String.eqb type "epoch" then epoch input
  else if String.eqb type "datetime" then datetime input
  else if String.eqb type "hex" then
    if truthy input then b ← buffer_from input; Ok (Str (to_hex b)) else Ok Undef
  else if String.eqb type "base64" then
    if truthy input then b ← buffer_from input; Ok (Str (String.string_of_list_ascii (to_base64_chars b)))
    else Ok Undef
  else Throw "cast[type] is not a function".

(** [subObj && subObj[prop] !== undefined ? subObj[prop] : undefined]: a path
    never throws.  Paths lead through objects; no definition indexes an array
    or a text. *)
Definition resolve_step (sub : val) (p : string) : val :=
  match sub with Object o => prop o p | _ => Undef end.

Definition resolvePath (obj : val) (path : string) : val :=
  foldl resolve_step obj (split_on "." path).

(** [const [path, type] = text.split(',')] *)
Definition split_definition (text : string) : string * string :=
  match split_on "," text with
  | path :: type :: _ => (path, type)
  | [path] => (path, "")
  | [] => ("", "")
  end.

(** The value a text definition selects. *)
Definition select (rootObj subObj : val) (key path : string) : result val :=
  if String.eqb path "=" then get subObj key else Ok (resolvePath rootObj path).

(** ** customMapper.js *)

(** The field of a text definition. *)
Definition mapLeaf (rootObj subObj : val) (key text : string) : result val :=
  let '(path, type) := split_definition text in
  v ← select rootObj subObj key path;
  if (truthy v || bool_decide (v = Num 0)) && negb (String.eqb type "") then cast type v else Ok v.

Definition single (c : ascii) : string := String c "".

(** [rootObj && rootObj[key] !== null] *)
Definition not_null_in (rootObj : val) (key : string) : bool :=
  truthy rootObj &&
  match rootObj with Object o => negb (bool_decide (prop o key = Null)) | _ => true end.

(** A missing [subObj] argument defaults to [rootObj]. *)
Definition or_root (rootObj subObj : val) : val :=
  match subObj with Undef => rootObj | _ => subObj end.

(** [acc[key] = v] when a value is given. *)
Definition set_some (acc : obj) (key : string) (v : option val) : obj :=
  match v with Some v => set_prop acc key v | None => acc end.

(** The array an array definition reads: [path.split] of a path that is not a
    text throws inside the [try] of [resolvePath]. *)
Definition data_source (rootObj source : val) : val :=
  match source with
  | Str path => if String.eqb path "" then rootObj else resolvePath rootObj path
  | _ => Undef
  end.

Fixpoint mapObject (rootObj definition subObj : val) {struct definition} : result val :=
  let field key d : result (option val) :=
    match d with
    | Str text => v ← mapLeaf rootObj subObj key text; Ok (Some v)
    | Arr [source; innerDef] =>
        match data_source rootObj source with
        | Arr items =>
            mapped ← mapM_result (fun item => mapObject item innerDef item) items;
            Ok (Some (Arr (filter (fun v => validate v) mapped)))
        | _ => Ok None
        end
    | Arr [innerDef] =>
        tempObj ← mapObject rootObj innerDef rootObj;
        Ok (if validate tempObj then Some (Arr [tempObj]) else None)
    | Arr _ => Ok None
    | Object _ | Null =>
        if not_null_in rootObj key then
          sub ← get subObj key;
          tempObj ← mapObject rootObj d (or_root rootObj sub);
          Ok (if isObjectWithValues tempObj then Some tempObj else None)
        else Ok None
    | _ => Ok None
    end in
  match definition with
  | Object o =>
      acc ← (fix go o acc : result obj :=
        match o with
        | [] => Ok acc
        | (key, d) :: o => v ← field key d; go o (set_some acc key v)
        end) o [];
      Ok (Object acc)
  | Arr l =>
      acc ← (fix go l (i : Z) acc : result obj :=
        match l with
        | [] => Ok acc
        | d :: l => v ← field (string_of_Z i) d; go l (i + 1) (set_some acc (string_of_Z i) v)
        end) l 0 [];
      Ok (Object acc)
  | Str s =>
      acc ← foldM (fun acc '(i, c) =>
          v ← mapLeaf rootObj subObj (string_of_Z (Z.of_nat i)) (single c);
          Ok (set_prop acc (string_of_Z (Z.of_nat i)) v))
        [] (imap pair (String.list_ascii_of_string s));
      Ok (Object acc)
  | Undef | Null => Throw "Cannot convert undefined or null to object"
  | _ => Ok (Object [])
  end.

Definition mapArray (rootObj : val) (definition : list val) : result (list val) :=
  match definition with
  | [] => Ok []
  | item0 :: rest =>
      first ← if isObject item0 then mapObject rootObj item0 rootObj else Ok item0;
      match rest with
      | Object o :: _ =>
          second ← mapObject rootObj
                     (Object [(js_String first, match o with [] => Undef | (_, v) :: _ => v end)]) rootObj;
          Ok [first; second]
      | _ => Ok [first]
      end
  end.

(** [mapper(data, def)] *)
Definition mapper (data def : val) : result val :=
  if bool_decide (def = Str "=") then Ok data
  else match def with
       | Arr l => v ← mapArray data l; Ok (Arr v)
       | Object _ => mapObject data def data
       | _ => Ok (Object [])
       end.
End Mapper.

(** ** What a response looks like *)

(** The casts that the definitions of version 3 use *)
Definition cast_types : list string := ["number"; "string"; "boolean"; "hex"].

Definition type_of_definition (text : string) : string := snd (split_definition text).

(** Definitions the mapper understands: fields with known casts, arrays of one
    or two entries whose inner definition is an object, and nested objects. *)
Fixpoint wf_definition (d : val) : bool :=
  match d with
  | Object o =>
      bool_decide (NoDup (fst <$> o)) &&
      forallb (fun kv =>
        match snd kv with
        | Str text => bool_decide (type_of_definition text ∈ "" :: cast_types)
        | Arr [] => true
        | Arr [Str _; d'] => wf_definition d'
        | Arr [d'] => wf_definition d'
        | Object _ => wf_definition (snd kv)
        | _ => false
        end) o
  | _ => false
  end.

(** The values a cast returns. *)
Definition has_type (type : string) (v : val) : Prop :=
  if String.eqb type "number" then (exists z, v = Num z) \/ v = NaN
  else if String.eqb type "string" then exists s, v = Str s
  else if String.eqb type "boolean" then exists b, v = Bool b
  else if String.eqb type "hex" then v = Undef \/ exists bytes, Forall (fun b => 0 <= b < 256) bytes /\ v = Str (to_hex bytes)
  else False.

(** The data has a value for a field: an absent, null or empty one is passed on
    as it is. *)
Definition given (x : val) : bool := truthy x || bool_decide (x = Num 0).

Section Conforms.
Context `{DateCasts}.

(** The field of a text definition is the value at its path, under the name of
    the field in the object at hand for ["="] and from the root of the data
    otherwise, cast to the type of the definition, which it then has. *)
Definition leaf_ok (root sub : val) (key text : string) (v : val) : Prop :=
  exists x, select root sub key (fst (split_definition text)) = Ok x /\
    if given x && negb (String.eqb (type_of_definition text) "")
    then cast (type_of_definition text) x = Ok v /\ has_type (type_of_definition text) v
    else v = x.

(** [conforms root sub d o]: [o] presents the data [root], whose part at hand is
    [sub], the way [d] describes. *)
Inductive conforms : val -> val -> val -> val -> Prop :=
| conforms_object root sub ds o :
    NoDup (fst <$> o) ->
    (forall k v, (k, v) ∈ o -> exists d, (k, d) ∈ ds /\ conforms_field root sub k d v) ->
    (forall k d, (k, d) ∈ ds -> k ∈ fst <$> o \/ absent root sub k d) ->
    conforms root sub (Object ds) (Object o)
with conforms_field : val -> val -> string -> val -> val -> Prop :=
| conforms_leaf root sub k text v : leaf_ok root sub k text v -> conforms_field root sub k (Str text) v
| conforms_items root sub k source d items outs :
    data_source root source = Arr items -> Forall2 (fun item out => conforms item item d out) items outs ->
    conforms_field root sub k (Arr [source; d]) (Arr (filter (fun out => validate out) outs))
| conforms_one root sub k d v : conforms root root d v -> validate v = true -> conforms_field root sub k (Arr [d]) (Arr [v])
| conforms_nested root sub k ds part v :
    get sub k = Ok part -> conforms root (or_root root part) (Object ds) v -> isObjectWithValues v = true ->
    conforms_field root sub k (Object ds) v
(** Only arrays and nested objects that the data has not, or that are empty, are
    left out. *)
with absent : val -> val -> string -> val -> Prop :=
| absent_items root sub k source d : (forall items, data_source root source <> Arr items) -> absent root sub k (Arr [source; d])
| absent_one root sub k d v : conforms root root d v -> validate v = false -> absent root sub k (Arr [d])
| absent_nothing root sub k : absent root sub k (Arr [])
| absent_null root sub k ds : not_null_in root k = false -> absent root sub k (Object ds)
| absent_empty root sub k ds part v :
    get sub k = Ok part -> conforms root (or_root root part) (Object ds) v -> isObjectWithValues v = false ->
    absent root sub k (Object ds).
End Conforms.

Section Conformance.
Context `{DateCasts}.

Lemma buffer_from_bytes v bytes : buffer_from v = Ok bytes -> Forall (fun b => 0 <= b < 256) bytes.
Proof.
  destruct v as [| | | | | |s|l|]; try done; intros [= <-]; apply Forall_fmap, Forall_true; intros x; cbn.
  - pose proof (nat_ascii_bounded x). lia.
  - destruct (js_Number x); try lia. by apply Z.mod_pos_bound.
Qed.

Lemma cast_has_type type v w : type ∈ cast_types -> cast type v = Ok w -> has_type type w.
Proof.
  intros Ht. unfold cast_types in Ht. rewrite !elem_of_cons, elem_of_nil in Ht.
  destruct Ht as [->|[->|[->|[->|[]]]]]; unfold cast, has_type; cbn [String.eqb Ascii.eqb Bool.eqb].
  - intros [= <-]. destruct v; simpl; eauto. repeat case_match; eauto.
  - intros [= <-]. eauto.
  - intros [= <-]. eauto.
  - destruct (truthy v) eqn:E.
    + intros Hc. inv_ok Hc. injection Hc as <-. right. eexists. split; [by eapply buffer_from_bytes|done].
    + intros [= <-]. by left.
Qed.

Lemma mapLeaf_ok root sub key text v : type_of_definition text ∈ "" :: cast_types ->
  mapLeaf root sub key text = Ok v -> leaf_ok root sub key text v.
Proof.
  unfold mapLeaf, leaf_ok, type_of_definition. destruct (split_definition text) as [path type]. cbn [fst snd].
  intros Ht H1. inv_ok H1. exists a. split; [done|]. fold (given a) in H1. destruct (given a) eqn:Eg; [|by injection H1].
  destruct (String.eqb_spec type "") as [->|Hne]; cbn [negb andb] in *; [by injection H1|].
  split; [done|]. apply elem_of_cons in Ht as [?|Ht]; [done|]. by eapply cast_has_type.
Qed.

(** One field of an object definition, and all of them in order. *)
Definition map_field (rootObj subObj : val) (key : string) (d : val) : result (option val) :=
  match d with
  | Str text => v ← mapLeaf rootObj subObj key text; Ok (Some v)
  | Arr [source; innerDef] =>
      match data_source rootObj source with
      | Arr items =>
          mapped ← mapM_result (fun item => mapObject item innerDef item) items;
          Ok (Some (Arr (filter (fun v => validate v) mapped)))
      | _ => Ok None
      end
  | Arr [innerDef] =>
      tempObj ← mapObject rootObj innerDef rootObj;
      Ok (if validate tempObj then Some (Arr [tempObj]) else None)
  | Arr _ => Ok None
  | Object _ | Null =>
      if not_null_in rootObj key then
        sub ← get subObj key;
        tempObj ← mapObject rootObj d (or_root rootObj sub);
        Ok (if isObjectWithValues tempObj then Some tempObj else None)
      else Ok None
  | _ => Ok None
  end.

Definition map_fields (rootObj subObj : val) (acc : obj) (o : obj) : result obj :=
  foldM (fun acc kv => v ← map_field rootObj subObj (fst kv) (snd kv); Ok (set_some acc (fst kv) v)) acc o.

Lemma mapObject_fields root o sub :
  mapObject root (Object o) sub = (acc ← map_fields root sub [] o; Ok (Object acc)).
Proof.
  unfold map_fields. simpl.
  match goal with |- (?go o [] ≫= _) = _ => assert (Hgo : forall acc,
    go o acc = foldM (fun acc kv => v ← map_field root sub (fst kv) (snd kv); Ok (set_some acc (fst kv) v)) acc o) end.
  { induction o as [|[k d] o IH]; intros acc; [done|]. simpl. rewrite bind_assoc.
    unfold map_field at 1. destruct d as [| | | | | | |[|? [|? [|]]]|]; simpl; try done.
    all: rewrite ?IH; try done.
    all: match goal with |- (?a ≫= _) = (?a ≫= _) => destruct a; simpl; by rewrite ?IH | _ => idtac end. }
  by rewrite Hgo.
Qed.
(** What a field definition promises: the field is right, and it is left out
    only where it may be. *)
Definition field_right (root sub : val) (k : string) (d : val) : Prop :=
  (forall v, map_field root sub k d = Ok (Some v) -> conforms_field root sub k d v) /\
  (map_field root sub k d = Ok None -> absent root sub k d).

Lemma map_fields_conform (ds : obj) root sub o acc acc' :
  (forall k d, (k, d) ∈ o -> (k, d) ∈ ds /\ field_right root sub k d) ->
  NoDup (fst <$> acc) -> (forall k v, (k, v) ∈ acc -> exists d, (k, d) ∈ ds /\ conforms_field root sub k d v) ->
  map_fields root sub acc o = Ok acc' ->
  NoDup (fst <$> acc') /\ (forall k v, (k, v) ∈ acc' -> exists d, (k, d) ∈ ds /\ conforms_field root sub k d v) /\
  (forall k, k ∈ fst <$> acc -> k ∈ fst <$> acc') /\
  (forall k d, (k, d) ∈ o -> k ∈ fst <$> acc' \/ absent root sub k d).
Proof.
  revert acc; induction o as [|[k d] o IH]; intros acc Hf Hnd Hacc Hm.
  - injection Hm as <-. split; [done|]. split; [done|]. split; [done|]. by intros k d ?%not_elem_of_nil.
  - unfold map_fields in Hm. cbn [foldM] in Hm. inv_ok Hm. cbn [fst snd] in Ha. apply bind_Ok_inv in Ha as (v & Hv & [= <-]).
    destruct (Hf k d ltac:(by left)) as [Hds [Hsome Hnone]].
    assert (Hkeys : forall j, j ∈ fst <$> acc -> j ∈ fst <$> set_some acc k v).
    { intros j Hj. destruct v; [|done]. cbn [set_some]. apply has_prop_elem. destruct (decide (k = j)) as [->|].
      - apply has_prop_set_eq.
      - rewrite has_prop_set_ne by done. by apply has_prop_elem. }
    edestruct (IH (set_some acc k v)) as (H1 & H2 & H3 & H4); [| | |exact Hm|].
    + intros; apply Hf; by right.
    + destruct v; [by apply NoDup_set_prop|done].
    + intros j w Hin. destruct v as [v|]; [|by apply Hacc]. cbn [set_some] in Hin.
      apply elem_of_set_prop in Hin as [[-> ->]|[_ Hin]]; [|by apply Hacc|done].
      exists d. split; [done|]. by apply Hsome.
    + split; [done|]. split; [done|]. split; [intros; apply H3; auto|].
      intros j d' [[= -> ->]|Hin]%elem_of_cons; [|by apply H4].
      destruct v as [v|]; [left|right; by apply Hnone]. apply H3. cbn [set_some]. apply has_prop_elem, has_prop_set_eq.
Qed.

(** What mapping by a definition promises: the result conforms to it. *)
Definition maps_to_conforming (d : val) : Prop :=
  forall root sub v, wf_definition d = true -> mapObject root d sub = Ok v -> conforms root sub d v.

Lemma items_conform d items outs : maps_to_conforming d -> wf_definition d = true ->
  mapM_result (fun item => mapObject item d item) items = Ok outs -> Forall2 (fun item out => conforms item item d out) items outs.
Proof.
  intros Hd Hwf. revert outs. induction items as [|item items IH]; intros outs Hm; cbn [mapM_result] in Hm; [injection Hm as <-; constructor|].
  inv_ok Hm. inv_ok Hm. injection Hm as <-. constructor; [by apply Hd|by apply IH].
Qed.

Definition wf_field (d : val) : bool :=
  match d with
  | Str text => bool_decide (type_of_definition text ∈ "" :: cast_types)
  | Arr [] => true
  | Arr [Str _; d'] => wf_definition d'
  | Arr [d'] => wf_definition d'
  | Object _ => wf_definition d
  | _ => false
  end.

Lemma map_field_conform root sub k d :
  maps_to_conforming d -> (forall l, d = Arr l -> Forall maps_to_conforming l) -> wf_field d = true -> field_right root sub k d.
Proof.
  intros Hd Hl Hwf. destruct d as [| | | | | |text|l|o]; try discriminate.
  - split; cbn [map_field]; intros; destruct (mapLeaf _ _ _ _) as [x|] eqn:E; try discriminate.
    injection H0 as <-. constructor. apply mapLeaf_ok; [by apply bool_decide_eq_true in Hwf|done].
  - specialize (Hl l eq_refl). destruct l as [|a [|b [|]]]; cbn [wf_field] in Hwf; try (destruct a; discriminate).
    + split; [done|]. constructor.
    + apply Forall_cons_1 in Hl as [Hl _]. assert (wf_definition a = true) as Hwa by (by destruct a).
      split; cbn [map_field]; intros; destruct (mapObject root a root) as [x|] eqn:E; try discriminate; cbn in *;
        destruct (validate x) eqn:Ev; try discriminate.
      * injection H0 as <-. constructor; [by apply Hl|done].
      * by apply (absent_one _ _ _ _ x); [apply Hl|].
    + destruct a as [| | | | | |source| |]; try discriminate. apply Forall_cons_1 in Hl as [_ [Hl _]%Forall_cons_1].
      split; cbn [map_field]; intros; destruct (data_source root _) as [| | | | | | |items|] eqn:Es; try discriminate;
        try (constructor; congruence).
      * destruct (mapM_result _ items) as [outs|] eqn:Em; [|discriminate]. injection H0 as <-.
        eapply conforms_items; [exact Es|by apply items_conform].
      * destruct (mapM_result _ items) as [outs|] eqn:Em; discriminate.
  - split; cbn [map_field]; intros; destruct (not_null_in root k) eqn:En; try discriminate; [..|by constructor];
      destruct (get sub k) as [part|] eqn:Eg; try discriminate; cbn [mbind result_bind] in *;
      destruct (mapObject root (Object o) (or_root root part)) as [x|] eqn:E; try discriminate; cbn [mbind result_bind] in *;
      destruct (isObjectWithValues x) eqn:Ei; try discriminate.
    + injection H0 as <-. eapply conforms_nested; [exact Eg|by apply Hd|done].
    + eapply absent_empty; [exact Eg|by apply Hd|done].
Qed.

Lemma mapObject_conforms d : maps_to_conforming d /\ (forall l, d = Arr l -> Forall maps_to_conforming l).
Proof.
  induction d as [| | | | | | |l IH|o IH] using val_ind'; try (split; [by intros ? ? ? ?|discriminate]).
  - split; [by intros ? ? ? ?|]. intros ? [= <-]. eapply Forall_impl; [exact IH|]. by intros ? [? _].
  - split; [|discriminate]. intros root sub v Hwf Hm. rewrite mapObject_fields in Hm. inv_ok Hm. injection Hm as <-.
    cbn [wf_definition] in Hwf. apply andb_true_iff in Hwf as [_ Hwf]. rewrite forallb_forall in Hwf.
    rewrite Forall_forall in IH.
    eapply (map_fields_conform o) in Ha as (H1 & H2 & _ & H4); [by constructor| |constructor|].
    + intros k d Hin. split; [done|]. destruct (IH _ Hin) as [Hd Hl].
      apply map_field_conform; [exact Hd|exact Hl|]. apply list_elem_of_In, Hwf in Hin. exact Hin.
    + by intros ? ? ?%not_elem_of_nil.
Qed.
End Conformance.
