(* ===== verification/GatewayMappings.v ===== *)
(** * Response mappings of the gateway

    [gateway/sources/version3/mappings] and the event mappers of
    [gateway/apis/socketio-blockchain-updates/mappers]: the definitions the
    mapper follows, as JavaScript values, one per file. *)
From S2P Require Import Prelude JsValue.
Local Open Scope Z_scope.

Definition mapping_escrowedAmount : val := Object [("escrowChainID", Str "=,string"); ("tokenID", Str "=,string"); ("amount", Str "=,string")].
Definition mapping_supportedToken : val := Object [
    ("isSupportAllTokens", Str "data.supportedTokens.isSupportAllTokens,boolean");
    ("patternTokenIDs", Str "data.supportedTokens.patternTokenIDs");
    ("exactTokenIDs", Str "data.supportedTokens.exactTokenIDs")].
Definition mapping_totalSupplyByToken : val := Object [("tokenID", Str "=,string"); ("amount", Str "totalSupply,string")].
Definition mapping_amountEntry : val := Object [("tokenID", Str "=,string"); ("amount", Str "=,string")].
Definition mapping_auth : val := Object [
    ("nonce", Str "=,string");
    ("numberOfSignatures", Str "=,number");
    ("mandatoryKeys", Str "=");
    ("optionalKeys", Str "=")].
Definition mapping_block : val := Object [
    ("id", Str "=,string");
    ("version", Str "=,number");
    ("timestamp", Str "=,number");
    ("height", Str "=,number");
    ("previousBlockID", Str "=,string");
    ("generator", Object [("address", Str "=,string"); ("name", Str "=,string"); ("publicKey", Str "=,string")]);
    ("transactionRoot", Str "=,string");
    ("assetRoot", Str "=,string");
    ("stateRoot", Str "=,string");
    ("eventRoot", Str "=,string");
    ("maxHeightPrevoted", Str "=,number");
    ("maxHeightGenerated", Str "=,number");
    ("validatorsHash", Str "=,string");
    ("aggregateCommit", Object [
      ("height", Str "=,number");
      ("aggregationBits", Str "=,string");
      ("certificateSignature", Str "=,string")]);
    ("numberOfTransactions", Str "=,number");
    ("numberOfAssets", Str "=,number");
    ("numberOfEvents", Str "=,number");
    ("totalForged", Str "=,string");
    ("totalBurnt", Str "=,string");
    ("networkFee", Str "=,string");
    ("signature", Str "=,string");
    ("reward", Str "=,string");
    ("isFinal", Str "=,boolean")].
Definition mapping_blockAsset : val := Object [
    ("block", Object [("id", Str "=,string"); ("height", Str "=,number"); ("timestamp", Str "=,number")]);
    ("assets", Arr [Str "assets"; Object [("module", Str "=,string"); ("data", Str "=")]])].
Definition mapping_blockchainApp : val := Object [
    ("chainName", Str "=,string");
    ("chainID", Str "=,string");
    ("status", Str "=,string");
    ("address", Str "=,string");
    ("lastCertificateHeight", Str "=,number");
    ("lastUpdated", Str "=,number");
    ("escrowedKLY", Str "=,string");
    ("escrow", Arr [Str "escrow"; Object [("tokenID", Str "=,string"); ("amount", Str "=,string")]])].
Definition mapping_blockchainAppMetaList : val := Object [
    ("chainName", Str "=,string");
    ("chainID", Str "=,string");
    ("networkType", Str "network,string")].
Definition mapping_blockchainAppMetadata : val := Object [
    ("chainName", Str "=,string");
    ("displayName", Str "=,string");
    ("chainID", Str "=,string");
    ("title", Str "=,string");
    ("description", Str "=,string");
    ("networkType", Str "=,string");
    ("isDefault", Str "=,boolean");
    ("status", Str "=,string");
    ("genesisURL", Str "=,string");
    ("projectPage", Str "=,string");
    ("appPage", Str "=,string");
    ("serviceURLs", Arr [Str "serviceURLs"; Object [
        ("http", Str "=,string");
        ("ws", Str "=,string");
        ("apiCertificatePublicKey", Str "=,string")]]);
    ("logo", Object [("png", Str "=,string"); ("svg", Str "=,string")]);
    ("explorers", Arr [Str "explorers"; Object [("url", Str "=,string"); ("txnPage", Str "=,string")]]);
    ("appNodes", Arr [Str "appNodes"; Object [
        ("url", Str "=,string");
        ("apiCertificatePublicKey", Str "=,string");
        ("maintainer", Str "=,string")]]);
    ("backgroundColor", Str "=,string")].
Definition mapping_blockchainAppTokenMetadata : val := Object [
    ("chainID", Str "=,string");
    ("chainName", Str "=,string");
    ("tokenID", Str "=,string");
    ("tokenName", Str "=,string");
    ("networkType", Str "network,string");
    ("description", Str "=,string");
    ("logo", Object [("png", Str "=,string"); ("svg", Str "=,string")]);
    ("symbol", Str "=,string");
    ("displayDenom", Str "=,string");
    ("baseDenom", Str "=,string");
    ("denomUnits", Arr [Str "denomUnits"; Object [("denom", Str "=,string"); ("decimals", Str "=,number"); ("aliases", Str "=")]])].
Definition mapping_crossChainMessage : val := Object [
    ("moduleCrossChainCommandID", Str "=,string");
    ("moduleCrossChainCommandName", Str "=,string");
    ("sendingChainID", Str "=,string");
    ("receivingChainID", Str "=,string");
    ("nonce", Str "=,string");
    ("fee", Str "=,string");
    ("status", Str "=,string");
    ("params", Str "=");
    ("block", Object [
      ("id", Str "=,string");
      ("height", Str "=,number");
      ("timestamp", Str "=,number");
      ("transactionID", Str "=,string")]);
    ("ccms", Str "=")].
Definition mapping_dexPool : val := Object [
    ("poolAddress", Str "=,string");
    ("token0", Str "=,string");
    ("token0Decimal", Str "=,number");
    ("token0Symbol", Str "=,string");
    ("token0Logo", Str "=,string");
    ("token1", Str "=,string");
    ("token1Decimal", Str "=,number");
    ("token1Symbol", Str "=,string");
    ("token1Logo", Str "=,string");
    ("fee", Str "=,number");
    ("liquidity", Str "=,number");
    ("price", Str "=,number");
    ("feeGrowth0", Str "=,number");
    ("feeGrowth0USD", Str "=,number");
    ("feeGrowth1", Str "=,number");
    ("feeGrowth1USD", Str "=,number");
    ("token0Price", Str "=,number");
    ("token0PriceUSD", Str "=,number");
    ("token1Price", Str "=,number");
    ("token1PriceUSD", Str "=,number");
    ("tick", Str "=,number");
    ("volumeToken0", Str "=,number");
    ("volumeToken0USD", Str "=,number");
    ("volumeToken1", Str "=,number");
    ("volumeToken1USD", Str "=,number");
    ("txCount", Str "=,number");
    ("totalTvlToken0", Str "=,number");
    ("totalTvlToken0USD", Str "=,number");
    ("totalTvlToken1", Str "=,number");
    ("totalTvlToken1USD", Str "=,number");
    ("positionCount", Str "=,number")].
Definition mapping_dexPoolTick : val := Object [("tick", Str "=,number"); ("liquidityNet", Str "=,number")].
Definition mapping_dexPosition : val := Object [
    ("poolAddress", Str "=,string");
    ("poolTick", Str "=,number");
    ("fee", Str "=,number");
    ("token0", Str "=,string");
    ("token0Symbol", Str "=,string");
    ("token0Logo", Str "=,string");
    ("token0Decimal", Str "=,number");
    ("token1", Str "=,string");
    ("token1Symbol", Str "=,string");
    ("token1Logo", Str "=,string");
    ("token1Decimal", Str "=,number");
    ("tokenId", Str "=,string");
    ("owner", Str "=,string");
    ("collectionId", Str "=,string");
    ("tickLower", Str "=,number");
    ("tickUpper", Str "=,number");
    ("liquidity", Str "=,number");
    ("tokenURI", Str "=,string");
    ("status", Str "=,number")].
Definition mapping_dexPositionMetadata : val := Object [("name", Str "=,string"); ("description", Str "=,string"); ("image", Str "=,string")].
Definition mapping_dexPositionValue : val := Object [
    ("token0", Str "=,string");
    ("token1", Str "=,string");
    ("fee", Str "=,string");
    ("tickLower", Str "=,number");
    ("tickUpper", Str "=,number");
    ("value", Object [
      ("principal0", Str "=,string");
      ("principal1", Str "=,string");
      ("fees0", Str "=,string");
      ("fees1", Str "=,string")])].
Definition mapping_dexPriceOhlc : val := Object [
    ("time", Str "=,number");
    ("open", Str "=,number");
    ("high", Str "=,number");
    ("low", Str "=,number");
    ("close", Str "=,number")].
Definition mapping_dexPriceTick : val := Object [("time", Str "=,number"); ("value", Str "=,number")].
Definition mapping_dexQuotePrice : val := Object [("price", Str "=,number")].
Definition mapping_dexQuoteSwap : val := Object [
    ("path", Str "=,string");
    ("amount", Str "=,string");
    ("sqrtPriceX96AfterList", Arr [Str "sqrtPriceX96AfterList"; Str "=,string"]);
    ("initializedTicksCrossedList", Arr [Str "initializedTicksCrossedList"; Str "=,string"])].
Definition mapping_dexRoute : val := Object [("totalFee", Str "=,number"); ("path", Str "=,string")].
Definition mapping_dexStatistics : val := Object [
    ("totalVolumeUSD", Str "=,number");
    ("totalFeeGrowthUSD", Str "=,number");
    ("swapCount", Str "=,number");
    ("totalPoolCount", Str "=,number");
    ("totalTvlUSD", Str "=,number")].
Definition mapping_dexToken : val := Object [
    ("rank", Str "=,number");
    ("tokenId", Str "=,string");
    ("symbol", Str "=,string");
    ("tokenName", Str "=,string");
    ("logo", Str "=,string");
    ("decimal", Str "=,number");
    ("volume", Str "=,number");
    ("volumeUSD", Str "=,number");
    ("feeGrowth", Str "=,number");
    ("feeGrowthUSD", Str "=,number");
    ("swapCount", Str "=,number");
    ("poolCount", Str "=,number");
    ("totalTvl", Str "=,number");
    ("totalTvlUSD", Str "=,number");
    ("price", Str "=,number");
    ("priceUSD", Str "=,number");
    ("priceChange", Str "=,number");
    ("priceChangeUSD", Str "=,number")].
Definition mapping_dexTokenCompact : val := Object [
    ("tokenId", Str "=,string");
    ("symbol", Str "=,string");
    ("tokenName", Str "=,string");
    ("logo", Str "=,string");
    ("decimal", Str "=,number")].
Definition mapping_event : val := Object [
    ("id", Str "=,string");
    ("module", Str "=,string");
    ("name", Str "=,string");
    ("data", Str "=");
    ("topics", Str "=");
    ("index", Str "=,number");
    ("block", Object [("id", Str "=,string"); ("height", Str "=,number"); ("timestamp", Str "=,number")])].
Definition mapping_generators : val := Object [
    ("address", Str "=,string");
    ("name", Str "=,string");
    ("publicKey", Str "=,string");
    ("nextAllocatedTime", Str "=,number");
    ("status", Str "=,string")].
Definition mapping_marketPrice : val := Object [
    ("code", Str "=,string");
    ("from", Str "=,string");
    ("rate", Str "=,string");
    ("to", Str "=,string");
    ("updateTimestamp", Str "=,number");
    ("sources", Str "=")].
Definition mapping_meta : val := Object [("count", Str "=,number"); ("offset", Str "=,number"); ("total", Str "=,number")].
Definition mapping_networkPeer : val := Object [
    ("ip", Str "=,string");
    ("port", Str "=,number");
    ("networkVersion", Str "=,string");
    ("state", Str "=,string");
    ("height", Str "=,number");
    ("chainID", Str "=,string");
    ("location", Object [
      ("countryCode", Str "location.country_code,string");
      ("latitude", Str "location.latitude,string");
      ("longitude", Str "location.longitude,string")])].
Definition mapping_posClaimableReward : val := Object [("reward", Str "=,string"); ("tokenID", Str "=,string")].
Definition mapping_posConstants : val := Object [
    ("factorSelfStakes", Str "=,number");
    ("maxLengthName", Str "=,number");
    ("maxNumberSentStakes", Str "=,number");
    ("maxNumberPendingUnlocks", Str "=,number");
    ("failSafeMissedBlocks", Str "=,number");
    ("failSafeInactiveWindow", Str "=,number");
    ("punishmentWindowStaking", Str "=,number");
    ("punishmentWindowSelfStaking", Str "=,number");
    ("punishmentWindow", Str "=,number");
    ("roundLength", Str "=,number");
    ("minWeightStandby", Str "=,string");
    ("numberActiveValidators", Str "=,number");
    ("numberStandbyValidators", Str "=,number");
    ("posTokenID", Str "=,string");
    ("maxBFTWeightCap", Str "=,number");
    ("commissionIncreasePeriod", Str "=,number");
    ("maxCommissionIncreaseRate", Str "=,number");
    ("useInvalidBLSKey", Str "=,boolean");
    ("baseStakeAmount", Str "=,string");
    ("lockingPeriodStaking", Str "=,number");
    ("lockingPeriodSelfStaking", Str "=,number");
    ("reportMisbehaviorReward", Str "=,string");
    ("reportMisbehaviorLimitBanned", Str "=,number");
    ("weightScaleFactor", Str "=,string");
    ("extraCommandFees", Object [("validatorRegistrationFee", Str "data.validatorRegistrationFee,string")])].
Definition mapping_posRewardsLocked : val := Object [("reward", Str "=,string"); ("tokenID", Str "=,string")].
Definition mapping_posStake : val := Object [("address", Str "=,string"); ("amount", Str "=,string"); ("name", Str "=,string")].
Definition mapping_posStaker : val := Object [("address", Str "=,string"); ("amount", Str "=,string"); ("name", Str "=,string")].
Definition mapping_posUnlock : val := Object [
    ("address", Str "=,string");
    ("publicKey", Str "=,string");
    ("name", Str "=,string");
    ("pendingUnlocks", Arr [Str "data.pendingUnlocks"; Object [
        ("validatorAddress", Str "=,string");
        ("amount", Str "=,string");
        ("tokenID", Str "=,string");
        ("unstakeHeight", Str "=,number");
        ("expectedUnlockableHeight", Str "=,number");
        ("expectedUnlockTime", Str "=,number");
        ("isLocked", Str "=,boolean")]])].
Definition mapping_posValidator : val := Object [
    ("name", Str "=,string");
    ("totalStake", Str "=,string");
    ("selfStake", Str "=,string");
    ("validatorWeight", Str "=,string");
    ("address", Str "=,string");
    ("publicKey", Str "=,string");
    ("lastGeneratedHeight", Str "=,number");
    ("status", Str "=,string");
    ("isBanned", Str "=,boolean");
    ("reportMisbehaviorHeights", Str "=");
    ("punishmentPeriods", Arr [Str "punishmentPeriods"; Object [("start", Str "=,number"); ("end", Str "=,number")]]);
    ("consecutiveMissedBlocks", Str "=,number");
    ("commission", Str "=,number");
    ("lastCommissionIncreaseHeight", Str "=,number");
    ("sharingCoefficients", Arr [Str "sharingCoefficients"; Object [("tokenID", Str "=,string"); ("coefficient", Str "=,string")]]);
    ("rank", Str "=,number");
    ("generatedBlocks", Str "=,number");
    ("totalCommission", Str "=,string");
    ("totalSelfStakeRewards", Str "=,string");
    ("earnedRewards", Str "=,string")].
Definition mapping_scheduleExport : val := Object [
    ("address", Str "=,string");
    ("publicKey", Str "=,string");
    ("interval", Str "=,string");
    ("fileName", Str "=,string");
    ("fileUrl", Str "=,string")].
Definition mapping_schema : val := Object [
    ("block", Object [("schema", Str "=")]);
    ("header", Object [("schema", Str "=")]);
    ("asset", Object [("schema", Str "=")]);
    ("transaction", Object [("schema", Str "=")]);
    ("event", Object [("schema", Str "=")]);
    ("standardEvent", Object [("schema", Str "=")]);
    ("ccm", Object [("schema", Str "=")]);
    ("events", Arr [Str "data.events"; Object [("module", Str "=,string"); ("name", Str "=,string"); ("schema", Str "=")]]);
    ("assets", Arr [Str "data.assets"; Object [("module", Str "=,string"); ("version", Str "=,string"); ("schema", Str "=")]]);
    ("commands", Arr [Str "data.commands"; Object [("moduleCommand", Str "=,string"); ("schema", Str "=")]]);
    ("messages", Arr [Str "data.messages"; Object [("moduleCommand", Str "=,string"); ("param", Str "=,string"); ("schema", Str "=")]])].
Definition mapping_stdEnvelope : val := Object [("data", Arr []); ("meta", Object [])].
Definition mapping_token : val := Object [
    ("tokenID", Str "=,string");
    ("availableBalance", Str "=,string");
    ("lockedBalances", Arr [Str "lockedBalances"; Object [("module", Str "=,string"); ("amount", Str "=,string")]])].
Definition mapping_tokenConstants : val := Object [
    ("extraCommandFees", Object [
      ("userAccountInitializationFee", Str "=,string");
      ("escrowAccountInitializationFee", Str "=,string")])].
Definition mapping_tokenFactoryAvailable : val := Object [("available", Str "=,boolean")].
Definition mapping_tokenFactoryCreate : val := Object [("message", Str "=,string"); ("transactionID", Str "=,string"); ("logoCid", Str "=,string")].
Definition mapping_tokenFactoryMeta : val := Object [
    ("chainID", Str "=,string");
    ("chainName", Str "=,string");
    ("tokenID", Str "=,string");
    ("tokenName", Str "=,string");
    ("networkType", Str "network,string");
    ("description", Str "=,string");
    ("logo", Object [("png", Str "=,string"); ("svg", Str "=,string")]);
    ("symbol", Str "=,string");
    ("displayDenom", Str "=,string");
    ("baseDenom", Str "=,string");
    ("denomUnits", Arr [Str "denomUnits"; Object [("denom", Str "=,string"); ("decimals", Str "=,number"); ("aliases", Str "=")]])].
Definition mapping_tokenFactoryStatistic : val := Object [
    ("tokenCreated", Str "=,number");
    ("totalMarketCap", Str "=,number");
    ("totalMarketCapUSD", Str "=,number")].
Definition mapping_tokenFactoryToken : val := Object [
    ("tokenID", Str "=,string");
    ("owner", Str "=,string");
    ("supply", Str "=,number");
    ("price", Str "=,number");
    ("priceUSD", Str "=,number");
    ("marketCap", Str "=,number");
    ("marketCapUSD", Str "=,number")].
Definition mapping_transaction : val := Object [
    ("id", Str "=,string");
    ("moduleCommand", Str "=,string");
    ("nonce", Str "=,string");
    ("fee", Str "=,string");
    ("minFee", Str "=,string");
    ("size", Str "=,number");
    ("block", Object [
      ("id", Str "block.id,string");
      ("height", Str "block.height,number");
      ("timestamp", Str "block.timestamp,number");
      ("isFinal", Str "block.isFinal,boolean")]);
    ("sender", Object [
      ("address", Str "sender.address,string");
      ("publicKey", Str "sender.publicKey,string");
      ("name", Str "sender.name,string")]);
    ("params", Str "=");
    ("signatures", Str "=");
    ("executionStatus", Str "=,string");
    ("index", Str "=,number");
    ("meta", Object [
      ("recipient", Object [
        ("address", Str "meta.recipient.address,string");
        ("publicKey", Str "meta.recipient.publicKey,string");
        ("name", Str "meta.recipient.name,string")])])].
Definition mapping_transactionsStatistics : val := Object [("distributionByType", Str "="); ("distributionByAmount", Str "="); ("timeline", Str "=")].
Definition mapping_validator : val := Object [
    ("generatorKey", Str "=,string");
    ("blsKey", Str "=,string");
    ("proofOfPossession", Str "=,string")].

(** ** Event mappers *)
Definition mapper_httpTransaction : val := Object [
    ("id", Str "=,string");
    ("amount", Str "=,string");
    ("fee", Str "=,string");
    ("type", Str "=,number");
    ("height", Str "=,number");
    ("blockId", Str "=,string");
    ("timestamp", Str "unixTimestamp,number");
    ("senderId", Str "=,string");
    ("senderPublicKey", Str "=,string");
    ("senderSecondPublicKey", Str "asset.signature.publicKey,string");
    ("recipientId", Str "=,string");
    ("recipientPublicKey", Str "=,string");
    ("signature", Str "=,string");
    ("signSignature", Str "=,string");
    ("signatures", Str "=");
    ("confirmations", Str "=,number");
    ("asset", Str "=");
    ("receivedAt", Str "=,string");
    ("relays", Str "=,number");
    ("ready", Str "=,boolean")].
Definition mapper_postgresBlock : val := Object [
    ("version", Str "=,string");
    ("reward", Str "=,number");
    ("payloadHash", Str "=,hex");
    ("timestamp", Str "unixtime,number");
    ("previousBlock", Str "=,string");
    ("generatorAddress", Str "senderId,string");
    ("generatorPublicKey", Str "=,hex");
    ("generatorUsername", Str "username,string");
    ("blockSignature", Str "=,hex");
    ("height", Str "=,number");
    ("id", Str "=,string");
    ("relays", Str "=,number");
    ("totalAmount", Str "=,string");
    ("totalFee", Str "=,string");
    ("numberOfTransactions", Str "=,number");
    ("payloadLength", Str "=,number");
    ("transactions", Arr [])].
Definition mapper_postgresConfirmedTransaction : val := Object [
    ("amount", Str "=,string");
    ("recipientId", Str "=,string");
    ("senderPublicKey", Str "=,hex");
    ("timestamp", Str "unnixtime,number");
    ("type", Str "=,number");
    ("fee", Str "=,string");
    ("signature", Str "=,hex");
    ("id", Str "=,string");
    ("senderId", Str "=,string")].
Definition mapper_socketBlock : val := Object [
    ("id", Str "=,string");
    ("height", Str "=,number");
    ("version", Str "=,number");
    ("timestamp", Str "unixTimestamp,number");
    ("generatorAddress", Str "=,string");
    ("generatorPublicKey", Str "=,string");
    ("generatorUsername", Str "=,string");
    ("payloadLength", Str "=,number");
    ("payloadHash", Str "=,string");
    ("blockSignature", Str "=,string");
    ("confirmations", Str "=,number");
    ("previousBlockId", Str "=,string");
    ("numberOfTransactions", Str "=,number");
    ("totalAmount", Str "=,string");
    ("totalFee", Str "=,string");
    ("reward", Str "=,string");
    ("totalForged", Str "=,string")].
Definition mapper_socketDelegate : val := Object [
    ("address", Str "account.address,string");
    ("publicKey", Str "account.publicKey,string");
    ("username", Str "=,string")].
Definition mapper_socketNewTransactions : val := Object [
    ("amount", Str "=,string");
    ("recipientId", Str "=,string");
    ("senderPublicKey", Str "=,string");
    ("timestamp", Str "unnixtime,number");
    ("type", Str "=,number");
    ("fee", Str "=,string");
    ("asset", Object [("data", Str "=,string")]);
    ("signature", Str "=,string");
    ("id", Str "=,string");
    ("senderId", Str "=,string");
    ("ready", Str "=");
    ("relays", Str "=,number")].
Definition mapper_socketRound : val := Object [("number", Str "=,number")].
Definition mapper_socketUnconfirmedTransaction : val := Object [
    ("amount", Str "=,string");
    ("recipientId", Str "=,string");
    ("senderPublicKey", Str "=,string");
    ("timestamp", Str "unnixtime,number");
    ("type", Str "=,number");
    ("fee", Str "=,string");
    ("asset", Object [("data", Str "=,string")]);
    ("signature", Str "=,string");
    ("id", Str "=,string");
    ("senderId", Str "=,string");
    ("ready", Str "=");
    ("relays", Str "=,number")].
