(* ===== verification/GatewaySources.v ===== *)
(** * Sources of the gateway

    [gateway/sources/version3]: for every kind of request the service method it
    is sent to, how its parameters are renamed and converted, and the
    definition of the response. *)
From S2P Require Import Prelude JsValue GatewayMappings.
Local Open Scope Z_scope.

Record source := Source {
  src_type : string;
  src_method : string;
  src_params : val;
  src_definition : val;
}.

Definition source_auth : source := {|
  src_type := "moleculer";
  src_method := "indexer.auth";
  src_params := Object [("address", Str "=,string")];
  src_definition := Object [
    ("data", mapping_auth);
    ("meta", Object [("address", Str "=,string"); ("publicKey", Str "=,string"); ("name", Str "=,string")])] |}.
Definition source_blockAssets : source := {|
  src_type := "moleculer";
  src_method := "indexer.blocks.assets";
  src_params := Object [
    ("blockID", Str "=,string");
    ("height", Str "=,string");
    ("module", Str "=,string");
    ("timestamp", Str "=,string");
    ("offset", Str "=,number");
    ("limit", Str "=,number");
    ("sort", Str "=,string")];
  src_definition := Object [
    ("data", Arr [Str "data"; mapping_blockAsset]);
    ("meta", Object [("count", Str "=,number"); ("offset", Str "=,number"); ("total", Str "=,number")])] |}.
Definition source_blockchainAppsMetaListSchema : source := {|
  src_type := "moleculer";
  src_method := "app-registry.blockchain.apps.meta.list";
  src_params := Object [
    ("chainName", Str "=,string");
    ("network", Str "=,string");
    ("search", Str "=,string");
    ("offset", Str "=,number");
    ("limit", Str "=,number");
    ("sort", Str "=,string")];
  src_definition := Object [
    ("data", Arr [Str "data"; mapping_blockchainAppMetaList]);
    ("meta", Object [("count", Str "=,number"); ("offset", Str "=,number"); ("total", Str "=,number")])] |}.
Definition source_blockchainAppsMetadataSchema : source := {|
  src_type := "moleculer";
  src_method := "app-registry.blockchain.apps.meta";
  src_params := Object [
    ("chainName", Str "=,string");
    ("displayName", Str "=,string");
    ("chainID", Str "=,string");
    ("isDefault", Str "=,boolean");
    ("network", Str "=,string");
    ("search", Str "=,string");
    ("offset", Str "=,number");
    ("limit", Str "=,number");
    ("sort", Str "=,string")];
  src_definition := Object [
    ("data", Arr [Str "data"; mapping_blockchainAppMetadata]);
    ("meta", Object [("count", Str "=,number"); ("offset", Str "=,number"); ("total", Str "=,number")])] |}.
Definition source_blockchainAppsSchema : source := {|
  src_type := "moleculer";
  src_method := "indexer.blockchain.apps";
  src_params := Object [
    ("chainID", Str "=,string");
    ("chainName", Str "=,string");
    ("search", Str "=,string");
    ("status", Str "=,string");
    ("offset", Str "=,number");
    ("limit", Str "=,number")];
  src_definition := Object [
    ("data", Arr [Str "data"; mapping_blockchainApp]);
    ("meta", Object [("count", Str "=,number"); ("offset", Str "=,number"); ("total", Str "=,number")])] |}.
Definition source_blockchainAppsStatsSchema : source := {|
  src_type := "moleculer";
  src_method := "indexer.blockchain.apps.statistics";
  src_params := Object [];
  src_definition := Object [
    ("data", Object [
      ("registered", Str "=,number");
      ("activated", Str "=,number");
      ("terminated", Str "=,number");
      ("totalSupplyKLY", Str "=,string");
      ("totalStakedKLY", Str "=,string");
      ("currentAnnualInflationRate", Str "=,string")]);
    ("meta", Object [])] |}.
Definition source_blockchainAppsTokenMetadataSchema : source := {|
  src_type := "moleculer";
  src_method := "app-registry.blockchain.apps.meta.tokens";
  src_params := Object [
    ("chainName", Str "=,string");
    ("chainID", Str "=,string");
    ("tokenName", Str "=,string");
    ("tokenID", Str "=,string");
    ("network", Str "=,string");
    ("search", Str "=,string");
    ("offset", Str "=,number");
    ("limit", Str "=,number");
    ("sort", Str "=,string");
    ("noFactory", Str "=,boolean")];
  src_definition := Object [
    ("data", Arr [Str "data"; mapping_blockchainAppTokenMetadata]);
    ("meta", Object [("count", Str "=,number"); ("offset", Str "=,number"); ("total", Str "=,number")])] |}.
Definition source_blockchainAppsTokenSupportedMetadataSchema : source := {|
  src_type := "moleculer";
  src_method := "app-registry.blockchain.apps.meta.tokens.supported";
  src_params := Object [
    ("chainID", Str "=,string");
    ("offset", Str "=,number");
    ("limit", Str "=,number");
    ("sort", Str "=,string")];
  src_definition := Object [
    ("data", Arr [Str "data"; mapping_blockchainAppTokenMetadata]);
    ("meta", Object [("count", Str "=,number"); ("offset", Str "=,number"); ("total", Str "=,number")])] |}.
Definition source_blocks : source := {|
  src_type := "moleculer";
  src_method := "indexer.blocks";
  src_params := Object [
    ("blockID", Str "=,string");
    ("height", Str "=,string");
    ("generatorAddress", Str "=,string");
    ("timestamp", Str "=,string");
    ("offset", Str "=,number");
    ("limit", Str "=,number");
    ("sort", Str "=,string")];
  src_definition := Object [
    ("data", Arr [Str "data"; mapping_block]);
    ("meta", Object [("count", Str "=,number"); ("offset", Str "=,number"); ("total", Str "=,number")])] |}.
Definition source_crossChainMessages : source := {|
  src_type := "moleculer";
  src_method := "indexer.ccm";
  src_params := Object [
    ("id", Str "=,string");
    ("transactionID", Str "=,string");
    ("moduleCrossChainCommandID", Str "=,string");
    ("moduleCrossChainCommandName", Str "=,string");
    ("senderAddress", Str "=,string");
    ("status", Str "=,string");
    ("timestamp", Str "=,string");
    ("nonce", Str "=");
    ("limit", Str "=,number");
    ("offset", Str "=,number");
    ("sort", Str "=,string")];
  src_definition := Object [
    ("data", Arr [Str "data"; mapping_crossChainMessage]);
    ("meta", Object [("count", Str "=,number"); ("offset", Str "=,number"); ("total", Str "=,number")])] |}.
Definition source_dexPool : source := {|
  src_type := "moleculer";
  src_method := "indexer.dex.pools";
  src_params := Object [
    ("search", Str "=,string");
    ("offset", Str "=,number");
    ("limit", Str "=,number");
    ("start", Str "=,number");
    ("end", Str "=,number");
    ("sortBy", Str "=,string");
    ("sortOrder", Str "=,string")];
  src_definition := Object [
    ("data", Arr [Str "data"; mapping_dexPool]);
    ("meta", Object [("count", Str "=,number"); ("offset", Str "=,number"); ("total", Str "=,number")])] |}.
Definition source_dexPoolTick : source := {|
  src_type := "moleculer";
  src_method := "indexer.dex.pools.tick";
  src_params := Object [("poolAddress", Str "=,string")];
  src_definition := Object [("data", Arr [Str "data"; mapping_dexPoolTick]); ("meta", Object [])] |}.
Definition source_dexPosition : source := {|
  src_type := "moleculer";
  src_method := "indexer.dex.positions";
  src_params := Object [
    ("search", Str "=,string");
    ("offset", Str "=,number");
    ("limit", Str "=,number");
    ("sortBy", Str "=,string");
    ("sortOrder", Str "=,string")];
  src_definition := Object [
    ("data", Arr [Str "data"; mapping_dexPosition]);
    ("meta", Object [("count", Str "=,number"); ("offset", Str "=,number"); ("total", Str "=,number")])] |}.
Definition source_dexPositionMetadata : source := {|
  src_type := "moleculer";
  src_method := "indexer.dex.positions.metadata";
  src_params := Object [("tokenId", Str "=,string")];
  src_definition := Object [("data", mapping_dexPositionMetadata); ("meta", Object [])] |}.
Definition source_dexPositionValue : source := {|
  src_type := "moleculer";
  src_method := "indexer.dex.positions.value";
  src_params := Object [("tokenId", Str "=,string")];
  src_definition := Object [("data", mapping_dexPositionValue); ("meta", Object [])] |}.
Definition source_dexPriceOhlc : source := {|
  src_type := "moleculer";
  src_method := "indexer.dex.price.ohlc";
  src_params := Object [
    ("base", Str "=,string");
    ("quote", Str "=,string");
    ("timeframe", Str "=,string");
    ("start", Str "=,number");
    ("end", Str "=,number");
    ("offset", Str "=,number");
    ("limit", Str "=,number")];
  src_definition := Object [
    ("data", Arr [Str "data"; mapping_dexPriceOhlc]);
    ("meta", Object [("count", Str "=,number"); ("offset", Str "=,number"); ("total", Str "=,number")])] |}.
Definition source_dexPriceTick : source := {|
  src_type := "moleculer";
  src_method := "indexer.dex.price.tick";
  src_params := Object [
    ("base", Str "=,string");
    ("quote", Str "=,string");
    ("start", Str "=,number");
    ("end", Str "=,number");
    ("offset", Str "=,number");
    ("limit", Str "=,number");
    ("interval", Str "=,number")];
  src_definition := Object [
    ("data", Arr [Str "data"; mapping_dexPriceTick]);
    ("meta", Object [("count", Str "=,number"); ("offset", Str "=,number"); ("total", Str "=,number")])] |}.
Definition source_dexQuotePrice : source := {|
  src_type := "moleculer";
  src_method := "indexer.dex.quote.price";
  src_params := Object [("baseTokenId", Str "=,string"); ("quoteTokenId", Str "=,string")];
  src_definition := Object [("data", mapping_dexQuotePrice); ("meta", Object [])] |}.
Definition source_dexQuoteSwap : source := {|
  src_type := "moleculer";
  src_method := "indexer.dex.quote.swap";
  src_params := Object [
    ("path", Str "=,string");
    ("base", Str "=,string");
    ("quote", Str "=,string");
    ("amountIn", Str "=,string");
    ("amountOut", Str "=,string")];
  src_definition := Object [("data", mapping_dexQuoteSwap); ("meta", Object [])] |}.
Definition source_dexRoute : source := {|
  src_type := "moleculer";
  src_method := "indexer.dex.route";
  src_params := Object [
    ("tokenIn", Str "=,string");
    ("tokenOut", Str "=,string");
    ("recursion", Str "=,number");
    ("limit", Str "=,number")];
  src_definition := Object [("data", Arr [Str "data"; mapping_dexRoute]); ("meta", Object [])] |}.
Definition source_dexStatistics : source := {|
  src_type := "moleculer";
  src_method := "indexer.dex.statistics";
  src_params := Object [("start", Str "=,number"); ("end", Str "=,number")];
  src_definition := Object [("data", mapping_dexStatistics); ("meta", Object [])] |}.
Definition source_dexToken : source := {|
  src_type := "moleculer";
  src_method := "indexer.dex.tokens";
  src_params := Object [
    ("search", Str "=,string");
    ("offset", Str "=,number");
    ("limit", Str "=,number");
    ("changeWindow", Str "=,string");
    ("start", Str "=,number");
    ("end", Str "=,number");
    ("sortBy", Str "=,string");
    ("sortOrder", Str "=,string")];
  src_definition := Object [
    ("data", Arr [Str "data"; mapping_dexToken]);
    ("meta", Object [("count", Str "=,number"); ("offset", Str "=,number"); ("total", Str "=,number")])] |}.
Definition source_dexTokenCompact : source := {|
  src_type := "moleculer";
  src_method := "indexer.dex.tokens.compact";
  src_params := Object [("search", Str "=,string"); ("offset", Str "=,number"); ("limit", Str "=,number")];
  src_definition := Object [
    ("data", Arr [Str "data"; mapping_dexTokenCompact]);
    ("meta", Object [("count", Str "=,number"); ("offset", Str "=,number"); ("total", Str "=,number")])] |}.
Definition source_events : source := {|
  src_type := "moleculer";
  src_method := "indexer.events";
  src_params := Object [
    ("transactionID", Str "=,string");
    ("senderAddress", Str "=,string");
    ("topic", Str "=,string");
    ("module", Str "=,string");
    ("name", Str "=,string");
    ("blockID", Str "=,string");
    ("height", Str "=,string");
    ("timestamp", Str "=,string");
    ("limit", Str "=,number");
    ("offset", Str "=,number");
    ("sort", Str "=,string");
    ("order", Str "=,string")];
  src_definition := Object [
    ("data", Arr [Str "data"; mapping_event]);
    ("meta", Object [("count", Str "=,number"); ("offset", Str "=,number"); ("total", Str "=,number")])] |}.
Definition source_export : source := {|
  src_type := "moleculer";
  src_method := "export.transactions.csv";
  src_params := Object [("filename", Str "=,string")];
  src_definition := Undef |}.
Definition source_fees : source := {|
  src_type := "moleculer";
  src_method := "fees.estimates";
  src_params := Object [];
  src_definition := Object [
    ("data", Object [
      ("feeEstimatePerByte", Object [("low", Str "=,number"); ("medium", Str "med,number"); ("high", Str "=,number")]);
      ("minFeePerByte", Str "=,number");
      ("feeTokenID", Str "=,string")]);
    ("meta", Object [
      ("lastUpdate", Str "updated,number");
      ("lastBlockHeight", Str "blockHeight,number");
      ("lastBlockID", Str "blockID,string")])] |}.
Definition source_generators : source := {|
  src_type := "moleculer";
  src_method := "indexer.generators";
  src_params := Object [("search", Str "=,string"); ("limit", Str "=,number"); ("offset", Str "=,number")];
  src_definition := Object [
    ("data", Arr [Str "data"; mapping_generators]);
    ("meta", Object [("count", Str "=,number"); ("offset", Str "=,number"); ("total", Str "=,number")])] |}.
Definition source_indexStatus : source := {|
  src_type := "moleculer";
  src_method := "indexer.index.status";
  src_params := Object [];
  src_definition := Object [
    ("data", Object [
      ("genesisHeight", Str "=,number");
      ("lastBlockHeight", Str "=,number");
      ("lastIndexedBlockHeight", Str "=,number");
      ("chainLength", Str "=,number");
      ("numBlocksIndexed", Str "=,number");
      ("percentageIndexed", Str "=,number");
      ("isIndexingInProgress", Str "=,boolean")]);
    ("meta", Object [("lastUpdate", Str "=,number")])] |}.
Definition source_invoke : source := {|
  src_type := "moleculer";
  src_method := "indexer.invokeEndpoint";
  src_params := Object [("endpoint", Str "=,string"); ("params", Str "=,object")];
  src_definition := Object [("data", Str "="); ("meta", Object [("endpoint", Str "=,string"); ("params", Str "=")])] |}.
Definition source_legacyAccountsSchema : source := {|
  src_type := "moleculer";
  src_method := "indexer.legacy";
  src_params := Object [("publicKey", Str "=,string")];
  src_definition := Object [
    ("data", Object [("legacyAddress", Str "=,string"); ("balance", Str "=,string")]);
    ("meta", Object [("address", Str "=,string"); ("publicKey", Str "=,string")])] |}.
Definition source_marketPrices : source := {|
  src_type := "moleculer";
  src_method := "market.prices";
  src_params := Object [];
  src_definition := Object [("data", Arr [Str "data"; mapping_marketPrice]); ("meta", Object [("count", Str "=,number")])] |}.
Definition source_networkPeers : source := {|
  src_type := "moleculer";
  src_method := "indexer.network.peers";
  src_params := Object [
    ("ip", Str "=,string");
    ("networkVersion", Str "=,string");
    ("state", Str "=,string");
    ("height", Str "=,number");
    ("limit", Str "=,number");
    ("offset", Str "=,number");
    ("sort", Str "=,string")];
  src_definition := Object [
    ("data", Arr [Str "data"; mapping_networkPeer]);
    ("meta", Object [("count", Str "=,number"); ("offset", Str "=,number"); ("total", Str "=,number")])] |}.
Definition source_networkStatistics : source := {|
  src_type := "moleculer";
  src_method := "indexer.network.statistics";
  src_params := Object [];
  src_definition := Object [
    ("data", Object [
      ("basic", Str "=");
      ("height", Str "=");
      ("networkVersion", Str "=");
      ("totalLocked", Arr [Str "data.totalLocked"; mapping_amountEntry]);
      ("totalStaked", mapping_amountEntry);
      ("totalSelfStaked", mapping_amountEntry)]);
    ("meta", Object [])] |}.
Definition source_networkStatus : source := {|
  src_type := "moleculer";
  src_method := "indexer.network.status";
  src_params := Object [];
  src_definition := Object [
    ("data", Object [
      ("version", Str "=,string");
      ("networkVersion", Str "=,string");
      ("chainID", Str "=,string");
      ("lastBlockID", Str "=,string");
      ("height", Str "=,number");
      ("finalizedHeight", Str "=,number");
      ("syncing", Str "=,boolean");
      ("unconfirmedTransactions", Str "=,number");
      ("genesis", Str "=");
      ("genesisHeight", Str "=");
      ("registeredModules", Str "=");
      ("moduleCommands", Str "=");
      ("network", Str "=")]);
    ("meta", Object [
      ("lastUpdate", Str "=,number");
      ("lastBlockHeight", Str "=,number");
      ("lastBlockID", Str "=,string")])] |}.
Definition source_posClaimableRewards : source := {|
  src_type := "moleculer";
  src_method := "indexer.pos.rewards.claimable";
  src_params := Object [
    ("address", Str "=,string");
    ("publicKey", Str "=,string");
    ("name", Str "=,string");
    ("limit", Str "=,number");
    ("offset", Str "=,number")];
  src_definition := Object [("data", Arr [Str "data"; mapping_posClaimableReward]); ("meta", mapping_meta)] |}.
Definition source_posConstants : source := {|
  src_type := "moleculer";
  src_method := "indexer.pos.constants";
  src_params := Object [];
  src_definition := Object [("data", mapping_posConstants); ("meta", Object [])] |}.
Definition source_posRewardsLocked : source := {|
  src_type := "moleculer";
  src_method := "indexer.pos.rewards.locked";
  src_params := Object [
    ("address", Str "=,string");
    ("publicKey", Str "=,string");
    ("name", Str "=,string");
    ("limit", Str "=,number");
    ("offset", Str "=,number")];
  src_definition := Object [
    ("data", Arr [Str "data"; mapping_posRewardsLocked]);
    ("meta", Object [("count", Str "=,number"); ("offset", Str "=,number"); ("total", Str "=,number")])] |}.
Definition source_posStakers : source := {|
  src_type := "moleculer";
  src_method := "indexer.pos.stakers";
  src_params := Object [
    ("address", Str "=,string");
    ("publicKey", Str "=,string");
    ("name", Str "=,string");
    ("search", Str "=,string");
    ("limit", Str "=,number");
    ("offset", Str "=,number")];
  src_definition := Object [
    ("data", Object [("stakers", Arr [Str "data.stakers"; mapping_posStaker])]);
    ("meta", Object [
      ("validator", Object [("address", Str "=,string"); ("publicKey", Str "=,string"); ("name", Str "=,string")]);
      ("count", Str "=,number");
      ("offset", Str "=,number");
      ("total", Str "=,number")])] |}.
Definition source_posStakes : source := {|
  src_type := "moleculer";
  src_method := "indexer.pos.stakes";
  src_params := Object [
    ("address", Str "=,string");
    ("publicKey", Str "=,string");
    ("name", Str "=,string");
    ("search", Str "=,string")];
  src_definition := Object [
    ("data", Object [("stakes", Arr [Str "data.stakes"; mapping_posStake])]);
    ("meta", Object [
      ("staker", Object [("address", Str "=,string"); ("publicKey", Str "=,string"); ("name", Str "=,string")]);
      ("count", Str "=,number")])] |}.
Definition source_posUnlocks : source := {|
  src_type := "moleculer";
  src_method := "indexer.pos.unlocks";
  src_params := Object [
    ("address", Str "=,string");
    ("name", Str "=,string");
    ("publicKey", Str "=,string");
    ("isLocked", Str "=,boolean");
    ("limit", Str "=,number");
    ("offset", Str "=,number")];
  src_definition := Object [
    ("data", mapping_posUnlock);
    ("meta", Object [("count", Str "=,number"); ("offset", Str "=,number"); ("total", Str "=,number")])] |}.
Definition source_posValidators : source := {|
  src_type := "moleculer";
  src_method := "indexer.pos.validators";
  src_params := Object [
    ("address", Str "=,string");
    ("publicKey", Str "=,string");
    ("name", Str "=,string");
    ("status", Str "=,string");
    ("search", Str "=,string");
    ("offset", Str "=,number");
    ("limit", Str "=,number");
    ("sort", Str "=,string")];
  src_definition := Object [
    ("data", Arr [Str "data"; mapping_posValidator]);
    ("meta", Object [("count", Str "=,number"); ("offset", Str "=,number"); ("total", Str "=,number")])] |}.
Definition source_postTransactions : source := {|
  src_type := "moleculer";
  src_method := "indexer.transactions.post";
  src_params := Object [("transaction", Str "=,string")];
  src_definition := Object [("message", Str "="); ("transactionID", Str "=")] |}.
Definition source_rewardAnnualInflation : source := {|
  src_type := "moleculer";
  src_method := "indexer.reward.annualInflation";
  src_params := Object [("height", Str "=,number")];
  src_definition := Object [("data", Object [("tokenID", Str "=,string"); ("rate", Str "=,string")]); ("meta", Object [])] |}.
Definition source_rewardConstants : source := {|
  src_type := "moleculer";
  src_method := "indexer.reward.constants";
  src_params := Object [];
  src_definition := Object [("data", Object [("rewardTokenID", Str "=,string")]); ("meta", Object [])] |}.
Definition source_rewardDefault : source := {|
  src_type := "moleculer";
  src_method := "indexer.reward.default";
  src_params := Object [("height", Str "=,number")];
  src_definition := Object [
    ("data", Object [("defaultReward", Str "=,string"); ("tokenID", Str "=,string")]);
    ("meta", Object [])] |}.
Definition source_scheduleExport : source := {|
  src_type := "moleculer";
  src_method := "export.transactions.schedule";
  src_params := Object [("address", Str "=,string"); ("publicKey", Str "=,string"); ("interval", Str "=,string")];
  src_definition := Object [("data", mapping_scheduleExport); ("meta", Object [("ready", Str "=,boolean")])] |}.
Definition source_schemas : source := {|
  src_type := "moleculer";
  src_method := "indexer.schemas";
  src_params := Object [];
  src_definition := Object [
    ("data", mapping_schema);
    ("meta", Object [("count", Str "=,number"); ("offset", Str "=,number"); ("total", Str "=,number")])] |}.
Definition source_tokenAccountExists : source := {|
  src_type := "moleculer";
  src_method := "indexer.token.account.exists";
  src_params := Object [
    ("address", Str "=,string");
    ("publicKey", Str "=,string");
    ("name", Str "=,string");
    ("tokenID", Str "=,string")];
  src_definition := Object [("data", Object [("isExists", Str "=,boolean")]); ("meta", Object [])] |}.
Definition source_tokenAvailableIDs : source := {|
  src_type := "moleculer";
  src_method := "indexer.token.available-ids";
  src_params := Object [("sort", Str "=,string"); ("offset", Str "=,number"); ("limit", Str "=,number")];
  src_definition := Object [
    ("data", Object [("tokenIDs", Str "=")]);
    ("meta", Object [("count", Str "=,number"); ("offset", Str "=,number"); ("total", Str "=,number")])] |}.
Definition source_tokenBalances : source := {|
  src_type := "moleculer";
  src_method := "indexer.token.balances";
  src_params := Object [
    ("address", Str "=,string");
    ("tokenID", Str "=,string");
    ("offset", Str "=,number");
    ("limit", Str "=,number")];
  src_definition := Object [
    ("data", Arr [Str "data"; mapping_token]);
    ("meta", Object [
      ("address", Str "=,string");
      ("count", Str "=,number");
      ("offset", Str "=,number");
      ("total", Str "=,number")])] |}.
Definition source_tokenConstants : source := {|
  src_type := "moleculer";
  src_method := "indexer.token.constants";
  src_params := Object [];
  src_definition := Object [("data", mapping_tokenConstants); ("meta", Object [])] |}.
Definition source_tokenFactoryAvailable : source := {|
  src_type := "moleculer";
  src_method := "indexer.factory.available";
  src_params := Object [("tokenName", Str "=,string"); ("symbol", Str "=,string")];
  src_definition := Object [("data", mapping_tokenFactoryAvailable); ("meta", Object [])] |}.
Definition source_tokenFactoryMeta : source := {|
  src_type := "moleculer";
  src_method := "indexer.factory.token.meta";
  src_params := Object [
    ("tokenIds", Str "=,string");
    ("registry", Str "=,boolean");
    ("offset", Str "=,number");
    ("limit", Str "=,number")];
  src_definition := Object [
    ("data", Arr [Str "data"; mapping_tokenFactoryMeta]);
    ("meta", Object [("count", Str "=,number"); ("offset", Str "=,number"); ("total", Str "=,number")])] |}.
Definition source_tokenFactoryStatistic : source := {|
  src_type := "moleculer";
  src_method := "indexer.factory.statistics";
  src_params := Object [];
  src_definition := Object [("data", mapping_tokenFactoryStatistic); ("meta", Object [])] |}.
Definition source_tokenFactoryToken : source := {|
  src_type := "moleculer";
  src_method := "indexer.factory.token";
  src_params := Object [("tokenIds", Str "=,string"); ("offset", Str "=,number"); ("limit", Str "=,number")];
  src_definition := Object [
    ("data", Arr [Str "data"; mapping_tokenFactoryToken]);
    ("meta", Object [("count", Str "=,number"); ("offset", Str "=,number"); ("total", Str "=,number")])] |}.
Definition source_tokenSummary : source := {|
  src_type := "moleculer";
  src_method := "indexer.token.summary";
  src_params := Object [("offset", Str "=,number"); ("limit", Str "=,number")];
  src_definition := Object [
    ("data", Object [
      ("escrowedAmounts", Arr [Str "data.escrowedAmounts"; mapping_escrowedAmount]);
      ("supportedTokens", mapping_supportedToken);
      ("totalSupply", Arr [Str "data.totalSupply"; mapping_totalSupplyByToken])]);
    ("meta", Object [])] |}.
Definition source_tokenTopBalances : source := {|
  src_type := "moleculer";
  src_method := "indexer.token.balances.top";
  src_params := Object [
    ("address", Str "=,string");
    ("tokenID", Str "=,string");
    ("search", Str "=,string");
    ("offset", Str "=,number");
    ("limit", Str "=,number");
    ("sort", Str "=,string")];
  src_definition := Object [
    ("data", Str "=");
    ("meta", Object [("count", Str "=,number"); ("offset", Str "=,number"); ("total", Str "=,number")])] |}.
Definition source_transactions : source := {|
  src_type := "moleculer";
  src_method := "indexer.transactions";
  src_params := Object [
    ("id", Str "transactionID,string");
    ("moduleCommand", Str "=,string");
    ("senderAddress", Str "=,string");
    ("recipientAddress", Str "=,string");
    ("receivingChainID", Str "=,string");
    ("address", Str "=,string");
    ("blockID", Str "=,string");
    ("height", Str "=,string");
    ("timestamp", Str "=,string");
    ("executionStatus", Str "=,string");
    ("nonce", Str "=,string");
    ("limit", Str "=,number");
    ("offset", Str "=,number");
    ("sort", Str "=,string");
    ("order", Str "=,string")];
  src_definition := Object [
    ("data", Arr [Str "data"; mapping_transaction]);
    ("meta", Object [("count", Str "=,number"); ("offset", Str "=,number"); ("total", Str "=,number")])] |}.
Definition source_transactionsDryRun : source := {|
  src_type := "moleculer";
  src_method := "indexer.transactions.dryrun";
  src_params := Object [
    ("transaction", Str "=");
    ("skipVerify", Str "=,boolean");
    ("skipDecode", Str "=,boolean");
    ("strict", Str "=,boolean")];
  src_definition := Object [
    ("data", Object [
      ("result", Str "=,number");
      ("status", Str "=,string");
      ("events", Arr [Str "data.events"; Object [
          ("data", Str "=");
          ("index", Str "=,number");
          ("module", Str "=,string");
          ("name", Str "=,string");
          ("topics", Str "=");
          ("height", Str "=,number");
          ("id", Str "=,string")]]);
      ("errorMessage", Str "=,string")]);
    ("meta", Object [])] |}.
Definition source_transactionsEstimateFees : source := {|
  src_type := "moleculer";
  src_method := "indexer.transactions.estimate-fees";
  src_params := Object [("transaction", Str "=")];
  src_definition := Object [
    ("data", Object [
      ("transaction", Object [
        ("fee", Object [
          ("tokenID", Str "=,string");
          ("minimum", Str "=,string");
          ("priority", Object [("low", Str "=,string"); ("medium", Str "=,string"); ("high", Str "=,string")])]);
        ("params", Object [("messageFee", Object [("tokenID", Str "=,string"); ("amount", Str "=,string")])])])]);
    ("meta", Object [
      ("breakdown", Object [
        ("fee", Object [("minimum", Object [("byteFee", Str "=,string"); ("additionalFees", Str "=")])]);
        ("params", Object [("messageFee", Object [("ccmByteFee", Str "=,string"); ("additionalFees", Str "=")])])])])] |}.
Definition source_transactionsStatistics : source := {|
  src_type := "moleculer";
  src_method := "statistics.transactions.statistics";
  src_params := Object [("interval", Str "=,string"); ("offset", Str "=,number"); ("limit", Str "=,number")];
  src_definition := Object [
    ("data", mapping_transactionsStatistics);
    ("meta", Object [
      ("limit", Str "=,number");
      ("offset", Str "=,number");
      ("total", Str "=,number");
      ("duration", Object [("format", Str "=,string"); ("from", Str "=,string"); ("to", Str "=,string")])])] |}.
Definition source_validator : source := {|
  src_type := "moleculer";
  src_method := "indexer.validator";
  src_params := Object [("address", Str "=,string")];
  src_definition := Object [
    ("data", mapping_validator);
    ("meta", Object [("address", Str "=,string"); ("publicKey", Str "=,string"); ("name", Str "=,string")])] |}.
Definition source_validatorValidateBLSKey : source := {|
  src_type := "moleculer";
  src_method := "indexer.validateBLSKey";
  src_params := Object [("blsKey", Str "=,string"); ("proofOfPossession", Str "=,string")];
  src_definition := Object [("data", Object [("isValid", Str "=,boolean")]); ("meta", Object [])] |}.
