(* ===== verification/Gateway.v ===== *)
(** * The request pipeline of the gateway

    [gateway/shared/paramValidator.js], [apiUtils.js], [registerHttpApi.js],
    [registerRpcApi.js] and the documentation helpers of [utils.js]: how a
    request is checked and rewritten before it goes to a service, and how the
    answer is rewritten before it goes to the client.  The validation library
    [fastest-validator] is the class [FastestValidator]. *)
From S2P Require Import Prelude JsValue Regex Mapper GatewaySources.
From Stdlib Require Import Ascii.
Local Open Scope Z_scope.

(** ** Parameter specifications *)

(** An object literal that may hold regular expressions. *)
Inductive spec : Type :=
| SV (v : val)
| SRe (r : regex)
| SO (o : list (string * spec))
| SA (l : list spec).

Abbreviation specs := (list (string * spec)).

(** Association lists as JavaScript objects: lookup, assignment and keys. *)
Fixpoint aget {A} (o : list (string * A)) (key : string) : option A :=
  match o with
  | [] => None
  | (k, v) :: o => if String.eqb k key then Some v else aget o key
  end.
Fixpoint aset {A} (o : list (string * A)) (key : string) (v : A) : list (string * A) :=
  match o with
  | [] => [(key, v)]
  | (k, w) :: o => if String.eqb k key then (k, v) :: o else (k, w) :: aset o key v
  end.
Abbreviation keys o := (fmap fst o).

(** [s[key]] as a plain value; a pattern or a nested object is not one. *)
Definition sprop (s : spec) (key : string) : val :=
  match s with
  | SO o => match aget o key with Some (SV v) => v | _ => Undef end
  | _ => Undef
  end.

(** ** Endpoints *)

Inductive doc_parameters : Type :=
| FromParams                     (* transformParams(type, this.params) *)
| Listed (l : list val)
| NoParameters.

Record endpoint := {
  version : string;
  swaggerApiPath : string;
  httpMethod : option string;
  rpcMethod : option string;
  tags : list string;
  params : specs;
  paramsRequired : bool;
  validParamPairings : list (list string);
  esource : source;
  envelope : obj;
  eTag : val;
  doc_method : string;
  doc_summary : string;
  doc_description : string;
  doc_params : doc_parameters;
  doc_first_param : option val;  (* replaces parameters[0] *)
  doc_responses : obj;
  doc_bad_request : bool;        (* Object.assign(responses, response) *)
}.

Definition strings (l : list string) : val := Arr (Str <$> l).

(** ** utils.js *)

Definition transformParam (paramKey : string) (p : spec) : val :=
  if truthy (sprop p "altSwaggerKey")
  then Object [("$ref", Str ("#/parameters/" +:+ js_String (sprop p "altSwaggerKey")))]
  else if String.eqb paramKey "sort" then
    Object [("name", Str "sort"); ("in", Str "query");
            ("description", Str "Fields to sort results by.");
            ("required", Bool false); ("type", sprop p "type");
            ("enum", sprop p "enum"); ("default", sprop p "default")]
  else if String.eqb paramKey "order" then
    Object [("name", Str "order"); ("in", Str "query");
            ("description", Str "Fields to order results by. The order condition is applied after the sort condition, usually to break ties when the sort condition results in collision.");
            ("required", Bool false); ("type", sprop p "type");
            ("enum", sprop p "enum"); ("default", sprop p "default")]
  else Object [("$ref", Str ("#/parameters/" +:+ paramKey))].

Definition transformSwaggerParams (params : specs) : list val :=
  (fun '(k, p) => transformParam k p) <$> params.

Definition bad_request_response : obj :=
  [("400", Object [("description", Str "Bad request");
                   ("schema", Object [("$ref", Str "#/definitions/badRequest")])])].

Definition newline : string := String (ascii_of_nat 10) "".

Definition getSwaggerDescription (rpcMethod : option string) (description : string) : string :=
  description +:+ newline +:+ " RPC => " +:+ match rpcMethod with Some m => m | None => "undefined" end.

Definition isValidNonEmptyResponse (res : obj) : bool :=
  match prop res "data" with
  | Arr (_ :: _) => true
  | Object (_ :: _) => true
  | _ => false
  end.

(** [get schema()] of an endpoint file. *)
Definition schema (e : endpoint) : val :=
  let parameters :=
    match doc_params e with
    | FromParams => Some (transformSwaggerParams (params e))
    | Listed l => Some l
    | NoParameters => None
    end in
  let parameters := match doc_first_param e, parameters with
                    | Some p, Some l => Some (p :: tail l)
                    | _, l => l
                    end in
  let responses := if doc_bad_request e then spread (doc_responses e) bad_request_response else doc_responses e in
  Object [(swaggerApiPath e,
    Object [(doc_method e,
      Object ([("tags", strings (tags e)); ("summary", Str (doc_summary e));
               ("description", Str (getSwaggerDescription (rpcMethod e) (doc_description e)))]
              ++ match parameters with Some l => [("parameters", Arr l)] | None => [] end
              ++ [("responses", Object responses)]))])].

(** ** apiUtils.js *)

Definition dropOneSlashAtBeginning (str : string) : string :=
  match str with String "/" s => s | _ => str end.

Fixpoint curlyBracketsToColon (str : string) : string :=
  match str with
  | "" => ""
  | String c s =>
      if Ascii.eqb c "{" then String ":" (curlyBracketsToColon s)
      else if Ascii.eqb c "}" then curlyBracketsToColon s
      else String c (curlyBracketsToColon s)
  end.

Definition transformPath (url : string) : string := curlyBracketsToColon (dropOneSlashAtBeginning url).

(** [str.toLowerCase()] *)
Definition lower (c : ascii) : ascii :=
  let n := nat_of_ascii c in if ((65 <=? n) && (n <=? 90))%nat then ascii_of_nat (n + 32) else c.
Definition toLowerCase (s : string) : string :=
  String.string_of_list_ascii (lower <$> String.list_ascii_of_string s).
Definition upper (c : ascii) : ascii :=
  let n := nat_of_ascii c in if ((97 <=? n) && (n <=? 122))%nat then ascii_of_nat (n - 32) else c.
Definition toUpperCase (s : string) : string :=
  String.string_of_list_ascii (upper <$> String.list_ascii_of_string s).

(** [typeof item === 'object' && item.constructor.name === 'Array' ? 'array' : typeof item] *)
Definition fromType (item : val) : result string :=
  match item with
  | Null => Throw "Cannot read properties of null (reading 'constructor')"
  | Arr _ => Ok "array"
  | _ => Ok (typeof item)
  end.

Definition convertType (item : val) (toType : string) : result val :=
  from ← fromType item;
  let typeMatch := from +:+ "_" +:+ toType in
  if String.eqb typeMatch "string_number" then Ok (js_Number item)
  else if String.eqb typeMatch "number_string" then Ok (Str (js_String item))
  else if String.eqb typeMatch "array_string" then Ok (Str (js_String item))
  else if String.eqb typeMatch "string_boolean" then Ok (Bool (String.eqb (toLowerCase (js_String item)) "true"))
  else Ok item.

Definition mapParam (source : obj) (originalKey mappingKey : string) : option (string * val) :=
  if String.eqb mappingKey "" then None
  else Some (mappingKey, prop source (if String.eqb originalKey "=" then mappingKey else originalKey)).

Definition mapParamWithType (source : obj) (originalSetup mappingKey : string) : result (option (string * val)) :=
  match split_on "," originalSetup with
  | originalKey :: dataType :: _ =>
      let value := match mapParam source originalKey mappingKey with Some kv => snd kv | None => Undef end in
      v ← convertType value dataType;
      Ok (if String.eqb mappingKey "" then None else Some (mappingKey, v))
  | originalKey :: _ => Ok (mapParam source originalKey mappingKey)
  | [] => Ok None
  end.

(** [specs] is the [params] object of a source; a value that is not a text has
    no [split]. *)
Definition transformParams (params : obj) (specs : val) : result obj :=
  match specs with
  | Object o =>
      foldM (fun output '(specParam, setup) =>
        match setup with
        | Str originalSetup =>
            r ← mapParamWithType params originalSetup specParam;
            Ok (match r with Some (k, v) => set_prop output k v | None => output end)
        | _ => Throw "originalSetup.split is not a function"
        end) [] o
  | Undef | Null => Throw "Cannot convert undefined or null to object"
  | _ => Ok []
  end.

Definition transformRequest (methodDef : endpoint) (params : obj) : obj :=
  match transformParams params (src_params (esource methodDef)) with
  | Ok transformedParams => transformedParams
  | Throw _ => params
  end.

(** The properties a spread copies. *)
Definition own_props (v : val) : obj :=
  match v with
  | Object o => o
  | Arr l => imap (fun i v => (string_of_Z (Z.of_nat i), v)) l
  | _ => []
  end.

Section Responses.
Context `{DateCasts}.

Definition transformResponse (methodDef : option endpoint) (data : val) : result val :=
  match methodDef with
  | None => Ok data
  | Some e =>
      transformedData ← mapper data (src_definition (esource e));
      Ok (Object (spread (envelope e) (own_props transformedData)))
  end.
End Responses.

(** ** paramValidator.js *)

(** [fastest-validator]: the messages of the rules a request breaks; none when
    [validate] returns [true]. *)
Class FastestValidator := fv_validate : obj -> specs -> list string.

(** A [MoleculerClientError] with its code, or an internal error. *)
Inductive rpc_result (A : Type) : Type :=
| RpcOk (a : A)
| RpcError (code : Z) (message : val)
| RpcThrow (msg : string).
Arguments RpcOk {A} a.
Arguments RpcError {A} code message.
Arguments RpcThrow {A} msg.

Section Requests.
Context `{FastestValidator}.

Definition mapObjectWithProperty (o : specs) (propName : string) : obj :=
  foldl (fun acc '(cur, s) =>
    if bool_decide (sprop s propName = Undef) then acc else set_prop acc cur (sprop s propName)) [] o.

Definition arrDiff (arr1 arr2 : list string) : list string := filter (fun x => x ∉ arr1) arr2.

Definition dropEmptyProps (p : obj) : obj :=
  foldl (fun acc '(cur, v) => if bool_decide (v = Str "") then acc else set_prop acc cur v) [] p.

Definition parseDefaultParams (p : specs) : obj := mapObjectWithProperty p "default".

Definition parseAllParams (routeParams : specs) (requestParams : obj) : obj :=
  foldl (fun acc '(cur, s) =>
    let acc := if bool_decide (sprop s "default" = Undef) then acc else set_prop acc cur (sprop s "default") in
    let input := prop requestParams cur in
    if bool_decide (input = Undef) then acc
    else if bool_decide (sprop s "type" = Str "number")
         then set_prop acc cur (if bool_decide (input = Str "") then prop acc cur else js_Number input)
         else set_prop acc cur input) [] routeParams.

Definition isNaN (v : val) : bool := bool_decide (v = NaN).

(** The valid and the unknown parameters. *)
Definition parseParams (swaggerParams inputParams : obj) : obj * obj :=
  let combinedParams := spread swaggerParams inputParams in
  let invalidParamsList := filter (fun k => k ∉ keys swaggerParams) (keys combinedParams) in
  let invalidParams := foldl (fun acc k => set_prop acc k (prop inputParams k)) [] invalidParamsList in
  let validParamsList := filter (fun k => prop swaggerParams k <> Undef) (keys swaggerParams) in
  let validParams := foldl (fun acc param =>
      let defaultVal := prop swaggerParams param in
      let inputVal := prop swaggerParams param in
      set_prop acc param
        (if isNaN (js_Number inputVal) && negb (isNaN (js_Number defaultVal)) then defaultVal else inputVal))
    [] validParamsList in
  (validParams, invalidParams).

Definition validateFromParamPairings (paramsRequired : bool) (inputParamKeys : list string)
    (paramPairings : list (list string)) : list (list string) :=
  if negb paramsRequired then []
  else
    let filtered := filter (fun el => existsb (fun sub => bool_decide (el ∈ sub)) paramPairings) inputParamKeys in
    match find (fun arr => (length arr =? length filtered)%nat && forallb (fun el => bool_decide (el ∈ filtered)) arr)
               paramPairings with
    | Some _ => []
    | None => paramPairings
    end.

Definition checkMissingParams (routeParams : specs) (requestParams : obj) : list string :=
  arrDiff (keys requestParams)
    (keys (filter (fun kv => sprop (snd kv) "required" = Bool true) routeParams)).

Definition looseSpecParams (specPar : specs) : specs :=
  (fun '(cur, s) =>
    (cur, if bool_decide (sprop s "type" = Str "number") || bool_decide (sprop s "type" = Str "boolean")
          then match s with
               | SO o => SO (foldl (fun acc kv => aset acc (fst kv) (snd kv)) [("convert", SV (Bool true))] o)
               | _ => s
               end
          else s)) <$> specPar.

Record report := Report {
  valid : obj;
  unknown : obj;
  required : list (list string);
  missing : list string;
  invalid : option (list string);
}.

(** [validateInputParams]; [invalid] stays unset when an earlier check fails. *)
Definition validateInputParams (inputParams : obj) (e : endpoint) : report :=
  let '(valid, unknown) := parseParams (parseAllParams (params e) inputParams)
                             (spread (parseDefaultParams (params e)) inputParams) in
  let required := validateFromParamPairings (paramsRequired e) (keys inputParams) (validParamPairings e) in
  let missing := checkMissingParams (params e) inputParams in
  let early := negb (Nat.eqb (length missing) 0) || negb (Nat.eqb (length unknown) 0)
               || negb (Nat.eqb (length required) 0) in
  Report valid unknown required missing
    (if early then None else Some (fv_validate (dropEmptyProps inputParams) (looseSpecParams (params e)))).

(** ** registerHttpApi.js *)

Definition getMethodName (e : endpoint) : string := default "GET" (httpMethod e).

(** Which endpoints of the loaded files are served. *)
Definition getAllAPIs (allMethods : list (string * endpoint)) : list (string * endpoint) :=
  filter (fun kv => version (snd kv) = "2.0" /\ src_method (esource (snd kv)) <> "" /\ swaggerApiPath (snd kv) <> "")
    allMethods.

(** [registerApi]: the endpoints with the default ETag share one route. *)
Definition strong_apis (methods : list (string * endpoint)) : list (string * endpoint) :=
  filter (fun kv => eTag (snd kv) = Str "strong") methods.

(** The path part of an alias: endpoints with their own ETag setting are
    registered under a path of their own. *)
Definition route_alias (strong : bool) (e : endpoint) : string :=
  getMethodName e +:+ " " +:+ (if strong then transformPath (swaggerApiPath e) else "").
Definition route_alias_registered (strong : bool) (e : endpoint) : string :=
  getMethodName e +:+ " " +:+ (if strong then transformPath (swaggerApiPath e) else "/").

Definition whitelist (methods : list (string * endpoint)) : list string :=
  (fun kv => src_method (esource (snd kv))) <$> methods.
Definition aliases (strong : bool) (methods : list (string * endpoint)) : list (string * string) :=
  foldl (fun acc kv => aset acc (route_alias_registered strong (snd kv)) (src_method (esource (snd kv)))) [] methods.
Definition methodPaths (strong : bool) (methods : list (string * endpoint)) : list (string * endpoint) :=
  foldl (fun acc kv => aset acc (route_alias strong (snd kv)) (snd kv)) [] methods.

(** The parameters sent to the service, or the error of the first check that
    fails. *)
Definition onBeforeCall (paths : list (string * endpoint)) (routeAlias : string) (inputParams : obj) : result obj :=
  match aget paths routeAlias with
  | None => Throw "Cannot read properties of undefined (reading 'params')"
  | Some e =>
      let paramReport := validateInputParams inputParams e in
      if negb (Nat.eqb (length (missing paramReport)) 0)
      then Throw ("Missing parameter(s): " +:+ join "; " (missing paramReport))
      else if negb (Nat.eqb (length (unknown paramReport)) 0)
      then Throw ("Unknown input parameter(s): " +:+ join "; " (keys (unknown paramReport)))
      else if negb (Nat.eqb (length (required paramReport)) 0)
      then Throw ("Require only one of the following parameter combination(s): "
                  +:+ join "; " (join "," <$> required paramReport))
      else match invalid paramReport with
           | Some [] => Ok (transformRequest e (dropEmptyProps (valid paramReport)))
           | Some l => Throw ("Invalid input: " +:+ join "; " l)
           | None => Throw "Cannot read properties of undefined (reading 'length')"
           end
  end.

(** ** registerRpcApi.js *)

Definition INVALID_REQUEST : Z := -32600.
Definition INVALID_PARAMS : Z := -32602.
Definition SERVICE_UNAVAILABLE : Z := -32002.

Definition rpc_apis (allMethods : list (string * endpoint)) : list (string * endpoint) :=
  filter (fun kv => version (snd kv) = "2.0" /\ src_method (esource (snd kv)) <> ""
                    /\ default "" (rpcMethod (snd kv)) <> "") allMethods.

Definition rpc_methodPaths (methods : list (string * endpoint)) : list (string * endpoint) :=
  foldl (fun acc kv => aset acc (transformPath (default "" (rpcMethod (snd kv)))) (snd kv)) [] methods.
Definition rpc_aliases (methods : list (string * endpoint)) : list (string * string) :=
  foldl (fun acc kv => aset acc (transformPath (default "" (rpcMethod (snd kv)))) (src_method (esource (snd kv))))
    [] methods.

Definition rpc_onBeforeCall (paths : list (string * endpoint)) (method : string) (inputParams : obj) : rpc_result obj :=
  match aget paths method with
  | None => RpcThrow "Cannot read properties of undefined (reading 'params')"
  | Some e =>
      let paramReport := validateInputParams inputParams e in
      if negb (Nat.eqb (length (missing paramReport)) 0)
      then RpcError INVALID_PARAMS (Str ("Missing parameter(s): " +:+ join ", " (missing paramReport)))
      else if negb (Nat.eqb (length (unknown paramReport)) 0)
      then RpcError INVALID_PARAMS (Str ("Unknown input parameter(s): " +:+ join ", " (keys (unknown paramReport))))
      else if negb (Nat.eqb (length (required paramReport)) 0)
      then RpcError INVALID_REQUEST (Str ("Require one of the following parameter combination(s): "
                                     +:+ join ", " (join "," <$> required paramReport)))
      else match invalid paramReport with
           | Some [] => RpcOk (transformRequest e (valid paramReport))
           | Some l => RpcError INVALID_PARAMS (Str ("Invalid input parameter values: " +:+ join ", " l))
           | None => RpcThrow "Cannot read properties of undefined (reading 'length')"
           end
  end.
End Requests.

(** ** Answers *)
Section AfterCall.
Context `{DateCasts}.
(** [http-status-codes], and the [Cache-Control] setting of the gateway. *)
Variable StatusCodes : string -> option Z.
Variable cacheControl : option string.

Definition quote : string := String (ascii_of_nat 34) "".

(** What the HTTP server sends. *)
Inductive http_answer : Type :=
| SendFile (headers : obj) (body : option val)
| SendBody (headers : obj) (status : option val) (body : val).

Fixpoint ends_with (suffix s : string) : bool :=
  String.eqb s suffix || match s with "" => false | String _ s => ends_with suffix s end.

(** [v.key] of a value known to be truthy. *)
Definition field (v : val) (key : string) : val := match v with Object o => prop o key | _ => Undef end.

Definition file_answer (data : val) : http_answer :=
  let filename := js_String (field (field data "meta") "filename") in
  let disposition := ("Content-Disposition", Str ("attachment; filename=" +:+ quote +:+ filename +:+ quote)) in
  if ends_with ".xlsx" filename || ends_with ".xls" filename
  then SendFile [disposition; ("Content-Type", Str "application/vnd.ms-excel")] (Some (field data "data"))
  else if ends_with ".csv" filename
  then SendFile [disposition; ("Content-Type", Str "text/csv")] (Some (field data "data"))
  else SendFile [disposition] None.

Definition onAfterCall (e : option endpoint) (data : val) : result http_answer :=
  let headers := match cacheControl with Some d => [("Cache-Control", Str d)] | None => [] end in
  if truthy (field data "data") && truthy (field data "meta") && truthy (field (field data "meta") "filename")
  then Ok (file_answer data)
  else if truthy (field data "data") && truthy (field data "status") then
    let headers := if bool_decide (field data "status" = Str "SERVICE_UNAVAILABLE")
                   then [("Retry-After", Num 30)] else headers in
    let status := if bool_decide (field data "status" = Str "INVALID_PARAMS")
                  then Str "BAD_REQUEST" else field data "status" in
    let data := match data with Object o => Object (set_prop o "status" status) | _ => data end in
    let statusCode := match StatusCodes (js_String status) with Some c => Num c | None => status end in
    if bool_decide (status = Str "ACCEPTED")
    then body ← transformResponse e data; Ok (SendBody headers (Some statusCode) body)
    else
      let message := match field (field data "data") "error" with
                     | Str m => m
                     | _ => "The request ended up with " +:+ js_String status +:+ " error"
                     end in
      Ok (SendBody headers (Some statusCode) (Object [("error", Bool true); ("message", Str message)]))
  else body ← transformResponse e data; Ok (SendBody headers None body).

Definition rpc_onAfterCall (e : option endpoint) (data : val) : rpc_result val :=
  let answer := match transformResponse e data with Ok v => RpcOk v | Throw m => RpcThrow m end in
  match data with
  | Undef => RpcThrow "Cannot read properties of undefined (reading 'data')"
  | Null => RpcThrow "Cannot read properties of null (reading 'data')"
  | _ =>
      if truthy (field data "data") && truthy (field data "status") then
        let message := field (field data "data") "error" in
        if bool_decide (field data "status" = Str "INVALID_PARAMS") then RpcError INVALID_PARAMS message
        else if bool_decide (field data "status" = Str "SERVICE_UNAVAILABLE") then RpcError SERVICE_UNAVAILABLE message
        else if negb (bool_decide (field data "status" = Str "ACCEPTED")) then RpcError INVALID_REQUEST message
        else answer
      else answer
  end.
End AfterCall.
