(* ===== verification/GatewayApi.v ===== *)
(** * The endpoints of the gateway

    One definition per file of [gateway/apis/*/methods]: path, method names,
    parameter rules, source, envelope and documentation, and the sets of files
    that the routes of [gateway/routes.js] load. *)
From S2P Require Import Prelude JsValue Regex Mapper GatewayMappings GatewaySources Gateway.
Local Open Scope Z_scope.

(** [sources/version3/mappings/stdEnvelope.js] *)
Definition std_envelope : obj := match mapping_stdEnvelope with Object o => o | _ => [] end.

Definition api_export : endpoint := {|
  version := "2.0";
  swaggerApiPath := "/export/download";
  httpMethod := None;
  rpcMethod := None;
  tags := ["Account History Export"];
  params := [
    ("filename", SO [("optional", SV (Bool false)); ("type", SV (Str "string")); ("pattern", SRe Regex.EXCEL_EXPORT_FILENAME)])];
  paramsRequired := false;
  validParamPairings := [];
  esource := source_export;
  envelope := std_envelope;
  eTag := Str "strong";
  doc_method := "get";
  doc_summary := "Requests transaction history for a given account";
  doc_description := "Returns transaction history";
  doc_params := FromParams;
  doc_first_param := None;
  doc_responses := [("200", Object [("description", Str "CSV file")])];
  doc_bad_request := true |}.
Definition api_scheduleExport : endpoint := {|
  version := "2.0";
  swaggerApiPath := "/export/transactions";
  httpMethod := None;
  rpcMethod := Some "get.export.transactions";
  tags := ["Account History Export"];
  params := [
    ("address", SO [("optional", SV (Bool true)); ("type", SV (Str "string")); ("min", SV (Num 3)); ("max", SV (Num 41)); ("pattern", SRe Regex.ADDRESS_KLAYR32)]);
    ("publicKey", SO [("optional", SV (Bool true)); ("type", SV (Str "string")); ("min", SV (Num 64)); ("max", SV (Num 64)); ("pattern", SRe Regex.PUBLIC_KEY)]);
    ("interval", SO [("optional", SV (Bool true)); ("type", SV (Str "string")); ("min", SV (Num 10)); ("max", SV (Num 21)); ("pattern", SRe Regex.DATE_INTERVAL)])];
  paramsRequired := true;
  validParamPairings := [["address"]; ["publicKey"]; ["address"; "interval"]; ["publicKey"; "interval"]];
  esource := source_scheduleExport;
  envelope := std_envelope;
  eTag := Str "strong";
  doc_method := "get";
  doc_summary := "Requests to schedule export of transaction history for a given account";
  doc_description := "Returns transaction history export scheduling information";
  doc_params := FromParams;
  doc_first_param := None;
  doc_responses := [
      ("200", Object [
        ("description", Str "CSV file to download");
        ("schema", Object [("$ref", Str "#/definitions/ExportFileUrlWithEnvelope")])]);
      ("202", Object [
        ("description", Str "Schedule transaction history export");
        ("schema", Object [("$ref", Str "#/definitions/ExportScheduledWithEnvelope")])])];
  doc_bad_request := true |}.
Definition api_ready : endpoint := {|
  version := "2.0";
  swaggerApiPath := "/ready";
  httpMethod := None;
  rpcMethod := Some "get.ready";
  tags := [];
  params := [];
  paramsRequired := false;
  validParamPairings := [];
  esource := {|
    src_type := "moleculer";
    src_method := "gateway.ready";
    src_params := Object [];
    src_definition := Object [("services", Str "=")] |};
  envelope := [];
  eTag := Str "strong";
  doc_method := "";
  doc_summary := "";
  doc_description := "";
  doc_params := NoParameters;
  doc_first_param := None;
  doc_responses := [];
  doc_bad_request := false |}.
Definition api_status : endpoint := {|
  version := "2.0";
  swaggerApiPath := "/status";
  httpMethod := None;
  rpcMethod := Some "get.status";
  tags := [];
  params := [];
  paramsRequired := false;
  validParamPairings := [];
  esource := {|
    src_type := "moleculer";
    src_method := "gateway.status";
    src_params := Object [];
    src_definition := Object [
      ("build", Str "=");
      ("description", Str "=");
      ("name", Str "=");
      ("version", Str "=");
      ("networkNodeVersion", Str "=");
      ("chainID", Str "=")] |};
  envelope := [];
  eTag := Str "strong";
  doc_method := "";
  doc_summary := "";
  doc_description := "";
  doc_params := NoParameters;
  doc_first_param := None;
  doc_responses := [];
  doc_bad_request := false |}.
Definition api_errorClient : endpoint := {|
  version := "2.0";
  swaggerApiPath := "/client_error";
  httpMethod := None;
  rpcMethod := Some "get.client_error";
  tags := [];
  params := [];
  paramsRequired := false;
  validParamPairings := [];
  esource := {|
    src_type := "moleculer";
    src_method := "template.client.error";
    src_params := Object [];
    src_definition := Object [("error", Str "=,string"); ("status", Str "=,number")] |};
  envelope := [];
  eTag := Str "strong";
  doc_method := "";
  doc_summary := "";
  doc_description := "";
  doc_params := NoParameters;
  doc_first_param := None;
  doc_responses := [];
  doc_bad_request := false |}.
Definition api_errorServer : endpoint := {|
  version := "2.0";
  swaggerApiPath := "/server_error";
  httpMethod := None;
  rpcMethod := Some "get.server_error";
  tags := [];
  params := [];
  paramsRequired := false;
  validParamPairings := [];
  esource := {|
    src_type := "moleculer";
    src_method := "template.server.error";
    src_params := Object [];
    src_definition := Object [("error", Str "=,string"); ("status", Str "=,number")] |};
  envelope := [];
  eTag := Str "strong";
  doc_method := "";
  doc_summary := "";
  doc_description := "";
  doc_params := NoParameters;
  doc_first_param := None;
  doc_responses := [];
  doc_bad_request := false |}.
Definition api_helloAsync : endpoint := {|
  version := "2.0";
  swaggerApiPath := "/async_hello";
  httpMethod := None;
  rpcMethod := Some "get.hello.async";
  tags := [];
  params := [];
  paramsRequired := false;
  validParamPairings := [];
  esource := {|
    src_type := "moleculer";
    src_method := "template.asynchronous.hello";
    src_params := Object [];
    src_definition := Object [("data", Str "="); ("meta", Str "=")] |};
  envelope := [];
  eTag := Str "strong";
  doc_method := "";
  doc_summary := "";
  doc_description := "";
  doc_params := NoParameters;
  doc_first_param := None;
  doc_responses := [];
  doc_bad_request := false |}.
Definition api_helloGeneric : endpoint := {|
  version := "2.0";
  swaggerApiPath := "/hello";
  httpMethod := None;
  rpcMethod := Some "get.hello";
  tags := [];
  params := [];
  paramsRequired := false;
  validParamPairings := [];
  esource := {|
    src_type := "moleculer";
    src_method := "template.generic.hello";
    src_params := Object [];
    src_definition := Object [
      ("data", Arr [Str "data"; Object [("message", Str "="); ("name", Str "=")]]);
      ("meta", Object [
        ("count", Str "meta.count,number");
        ("offset", Str "=,number");
        ("total", Str "meta.total,number")]);
      ("links", Object [])] |};
  envelope := [("data", Arr []); ("meta", Object []); ("links", Object [])];
  eTag := Str "strong";
  doc_method := "";
  doc_summary := "";
  doc_description := "";
  doc_params := NoParameters;
  doc_first_param := None;
  doc_responses := [];
  doc_bad_request := false |}.
Definition api_helloParams : endpoint := {|
  version := "2.0";
  swaggerApiPath := "/hello/{path_name}";
  httpMethod := None;
  rpcMethod := Some "get.hello.param";
  tags := [];
  params := [
    ("path_name", SO [("optional", SV (Bool false)); ("type", SV (Str "string")); ("min", SV (Num 3))])];
  paramsRequired := false;
  validParamPairings := [];
  esource := {|
    src_type := "moleculer";
    src_method := "template.parametrized.hello";
    src_params := Object [("name", Str "path_name")];
    src_definition := Object [
      ("data", Arr [Str "data"; Object [("message", Str "="); ("name", Str "=")]]);
      ("meta", Object [
        ("count", Str "meta.count,number");
        ("offset", Str "=,number");
        ("total", Str "meta.total,number")]);
      ("links", Object [])] |};
  envelope := [("data", Arr []); ("meta", Object []); ("links", Object [])];
  eTag := Str "strong";
  doc_method := "";
  doc_summary := "";
  doc_description := "";
  doc_params := NoParameters;
  doc_first_param := None;
  doc_responses := [];
  doc_bad_request := false |}.
Definition api_blockAssets : endpoint := {|
  version := "2.0";
  swaggerApiPath := "/blocks/assets";
  httpMethod := None;
  rpcMethod := Some "get.blocks.assets";
  tags := ["Blocks"];
  params := [
    ("blockID", SO [("optional", SV (Bool true)); ("type", SV (Str "string")); ("min", SV (Num 64)); ("max", SV (Num 64)); ("pattern", SRe Regex.BLOCK_ID)]);
    ("height", SO [("optional", SV (Bool true)); ("type", SV (Str "string")); ("min", SV (Num 0)); ("pattern", SRe Regex.HEIGHT_RANGE)]);
    ("timestamp", SO [("optional", SV (Bool true)); ("type", SV (Str "string")); ("min", SV (Num 1)); ("pattern", SRe Regex.TIMESTAMP_RANGE)]);
    ("module", SO [("optional", SV (Bool true)); ("type", SV (Str "string")); ("min", SV (Num 1)); ("pattern", SRe Regex.MODULE_CSV)]);
    ("limit", SO [("optional", SV (Bool true)); ("type", SV (Str "number")); ("min", SV (Num 1)); ("max", SV (Num 100)); ("default", SV (Num 10))]);
    ("offset", SO [("optional", SV (Bool true)); ("type", SV (Str "number")); ("min", SV (Num 0)); ("default", SV (Num 0))]);
    ("sort", SO [("optional", SV (Bool true)); ("type", SV (Str "string")); ("enum", SV (Arr [Str "height:asc"; Str "height:desc"; Str "timestamp:asc"; Str "timestamp:desc"])); ("default", SV (Str "height:desc"))])];
  paramsRequired := false;
  validParamPairings := [];
  esource := source_blockAssets;
  envelope := std_envelope;
  eTag := Str "strong";
  doc_method := "get";
  doc_summary := "Requests block assets data.";
  doc_description := "Returns block assets data. Assets are always returned empty for the genesis height.";
  doc_params := FromParams;
  doc_first_param := None;
  doc_responses := [
      ("200", Object [
        ("description", Str "Returns a list of block assets.");
        ("schema", Object [("$ref", Str "#/definitions/BlocksAssetsWithEnvelope")])])];
  doc_bad_request := true |}.
Definition api_blockchainApps : endpoint := {|
  version := "2.0";
  swaggerApiPath := "/blockchain/apps";
  httpMethod := None;
  rpcMethod := Some "get.blockchain.apps";
  tags := ["Interoperability"];
  params := [
    ("chainID", SO [("optional", SV (Bool true)); ("type", SV (Str "string")); ("pattern", SRe Regex.CHAIN_ID_CSV); ("altSwaggerKey", SV (Str "chainIDCSV"))]);
    ("chainName", SO [("optional", SV (Bool true)); ("type", SV (Str "string")); ("pattern", SRe Regex.CHAIN_NAME)]);
    ("status", SO [("optional", SV (Bool true)); ("type", SV (Str "string")); ("pattern", SRe Regex.APPLICATION_STATUS); ("altSwaggerKey", SV (Str "blockchainAppStatus"))]);
    ("search", SO [("optional", SV (Bool true)); ("type", SV (Str "string")); ("pattern", SRe Regex.PARTIAL_SEARCH_NAME); ("altSwaggerKey", SV (Str "searchByChainName"))]);
    ("limit", SO [("optional", SV (Bool true)); ("type", SV (Str "number")); ("min", SV (Num 1)); ("max", SV (Num 100)); ("default", SV (Num 10))]);
    ("offset", SO [("optional", SV (Bool true)); ("type", SV (Str "number")); ("min", SV (Num 0)); ("default", SV (Num 0))])];
  paramsRequired := false;
  validParamPairings := [];
  esource := source_blockchainAppsSchema;
  envelope := std_envelope;
  eTag := Str "strong";
  doc_method := "get";
  doc_summary := "Requests list of blockchain applications";
  doc_description := "Returns a list of blockchain applications";
  doc_params := FromParams;
  doc_first_param := None;
  doc_responses := [
      ("200", Object [
        ("description", Str "Returns a list of blockchain applications in the Klayr ecosystem");
        ("schema", Object [("$ref", Str "#/definitions/BlockchainAppsWithEnvelope")])])];
  doc_bad_request := true |}.
Definition api_blockchainAppsMetaList : endpoint := {|
  version := "2.0";
  swaggerApiPath := "/blockchain/apps/meta/list";
  httpMethod := None;
  rpcMethod := Some "get.blockchain.apps.meta.list";
  tags := ["Application Off-Chain Metadata"];
  params := [
    ("chainName", SO [("optional", SV (Bool true)); ("type", SV (Str "string")); ("pattern", SRe Regex.CHAIN_NAME)]);
    ("network", SO [("optional", SV (Bool true)); ("type", SV (Str "string")); ("pattern", SRe Regex.NETWORK_CSV)]);
    ("search", SO [("optional", SV (Bool true)); ("type", SV (Str "string")); ("pattern", SRe Regex.PARTIAL_SEARCH_NAME); ("altSwaggerKey", SV (Str "searchByChainName"))]);
    ("limit", SO [("optional", SV (Bool true)); ("type", SV (Str "number")); ("min", SV (Num 1)); ("max", SV (Num 100)); ("default", SV (Num 10))]);
    ("offset", SO [("optional", SV (Bool true)); ("type", SV (Str "number")); ("min", SV (Num 0)); ("default", SV (Num 0))]);
    ("sort", SO [("optional", SV (Bool true)); ("type", SV (Str "string")); ("enum", SV (Arr [Str "chainName:asc"; Str "chainName:desc"])); ("default", SV (Str "chainName:asc"))])];
  paramsRequired := false;
  validParamPairings := [];
  esource := source_blockchainAppsMetaListSchema;
  envelope := std_envelope;
  eTag := Str "strong";
  doc_method := "get";
  doc_summary := "Requests list of blockchain applications for which the off-chain metadata is available";
  doc_description := "Returns a list of blockchain applications for which the off-chain metadata is available";
  doc_params := FromParams;
  doc_first_param := None;
  doc_responses := [
      ("200", Object [
        ("description", Str "Returns a list of blockchain applications for which the off-chain metadata is available");
        ("schema", Object [("$ref", Str "#/definitions/BlockchainAppsMetaListWithEnvelope")])])];
  doc_bad_request := true |}.
Definition api_blockchainAppsMetadata : endpoint := {|
  version := "2.0";
  swaggerApiPath := "/blockchain/apps/meta";
  httpMethod := None;
  rpcMethod := Some "get.blockchain.apps.meta";
  tags := ["Application Off-Chain Metadata"];
  params := [
    ("chainName", SO [("optional", SV (Bool true)); ("type", SV (Str "string")); ("pattern", SRe Regex.CHAIN_NAME)]);
    ("displayName", SO [("optional", SV (Bool true)); ("type", SV (Str "string")); ("min", SV (Num 3)); ("max", SV (Num 20)); ("pattern", SRe Regex.NAME)]);
    ("chainID", SO [("optional", SV (Bool true)); ("type", SV (Str "string")); ("pattern", SRe Regex.CHAIN_ID_CSV); ("altSwaggerKey", SV (Str "chainIDCSV"))]);
    ("isDefault", SO [("optional", SV (Bool true)); ("type", SV (Str "boolean"))]);
    ("network", SO [("optional", SV (Bool true)); ("type", SV (Str "string")); ("min", SV (Num 1)); ("pattern", SRe Regex.NETWORK_CSV)]);
    ("search", SO [("optional", SV (Bool true)); ("type", SV (Str "string")); ("pattern", SRe Regex.PARTIAL_SEARCH_NAME); ("altSwaggerKey", SV (Str "searchByChainAndDisplayName"))]);
    ("limit", SO [("optional", SV (Bool true)); ("type", SV (Str "number")); ("min", SV (Num 1)); ("max", SV (Num 100)); ("default", SV (Num 10))]);
    ("offset", SO [("optional", SV (Bool true)); ("type", SV (Str "number")); ("min", SV (Num 0)); ("default", SV (Num 0))]);
    ("sort", SO [("optional", SV (Bool true)); ("type", SV (Str "string")); ("enum", SV (Arr [Str "chainName:asc"; Str "chainName:desc"; Str "chainID:asc"; Str "chainID:desc"])); ("default", SV (Str "chainName:asc"))])];
  paramsRequired := false;
  validParamPairings := [];
  esource := source_blockchainAppsMetadataSchema;
  envelope := std_envelope;
  eTag := Str "strong";
  doc_method := "get";
  doc_summary := "Requests blockchain applications off-chain metadata";
  doc_description := "Returns a list of blockchain applications off-chain metadata";
  doc_params := FromParams;
  doc_first_param := None;
  doc_responses := [
      ("200", Object [
        ("description", Str "Returns a list of blockchain applications off-chain metadata");
        ("schema", Object [("$ref", Str "#/definitions/BlockchainAppsMetadataWithEnvelope")])])];
  doc_bad_request := true |}.
Definition api_blockchainAppsStatistics : endpoint := {|
  version := "2.0";
  swaggerApiPath := "/blockchain/apps/statistics";
  httpMethod := None;
  rpcMethod := Some "get.blockchain.apps.statistics";
  tags := ["Interoperability"];
  params := [];
  paramsRequired := false;
  validParamPairings := [];
  esource := source_blockchainAppsStatsSchema;
  envelope := std_envelope;
  eTag := Str "strong";
  doc_method := "get";
  doc_summary := "Requests blockchain application statistics";
  doc_description := "Returns blockchain applications statistics";
  doc_params := NoParameters;
  doc_first_param := None;
  doc_responses := [
      ("200", Object [
        ("description", Str "Returns statistics for the blockchain applications in the Klayr ecosystem");
        ("schema", Object [("$ref", Str "#/definitions/blockchainAppsStatsEnvelope")])])];
  doc_bad_request := false |}.
Definition api_blockchainAppsTokenMetadata : endpoint := {|
  version := "2.0";
  swaggerApiPath := "/blockchain/apps/meta/tokens";
  httpMethod := None;
  rpcMethod := Some "get.blockchain.apps.meta.tokens";
  tags := ["Application Off-Chain Metadata"];
  params := [
    ("chainName", SO [("optional", SV (Bool true)); ("type", SV (Str "string")); ("pattern", SRe Regex.CHAIN_NAME)]);
    ("chainID", SO [("optional", SV (Bool true)); ("type", SV (Str "string")); ("pattern", SRe Regex.CHAIN_ID)]);
    ("tokenName", SO [("optional", SV (Bool true)); ("type", SV (Str "string")); ("pattern", SRe Regex.NAME_CSV)]);
    ("tokenID", SO [("optional", SV (Bool true)); ("type", SV (Str "string")); ("pattern", SRe Regex.TOKEN_ID_CSV); ("altSwaggerKey", SV (Str "tokenIDCSV"))]);
    ("network", SO [("optional", SV (Bool true)); ("type", SV (Str "string")); ("pattern", SRe Regex.NETWORK_CSV)]);
    ("search", SO [("optional", SV (Bool true)); ("type", SV (Str "string")); ("pattern", SRe Regex.PARTIAL_SEARCH_NAME); ("altSwaggerKey", SV (Str "searchByChainName"))]);
    ("limit", SO [("optional", SV (Bool true)); ("type", SV (Str "number")); ("min", SV (Num 1)); ("max", SV (Num 100)); ("default", SV (Num 10))]);
    ("offset", SO [("optional", SV (Bool true)); ("type", SV (Str "number")); ("min", SV (Num 0)); ("default", SV (Num 0))]);
    ("sort", SO [("optional", SV (Bool true)); ("type", SV (Str "string")); ("enum", SV (Arr [Str "chainName:asc"; Str "chainName:desc"])); ("default", SV (Str "chainName:asc"))]);
    ("noFactory", SO [("optional", SV (Bool true)); ("type", SV (Str "boolean")); ("default", SV (Bool false))])];
  paramsRequired := false;
  validParamPairings := [];
  esource := source_blockchainAppsTokenMetadataSchema;
  envelope := std_envelope;
  eTag := Str "strong";
  doc_method := "get";
  doc_summary := "Requests blockchain applications off-chain metadata for tokens";
  doc_description := "Returns blockchain applications off-chain metadata for tokens";
  doc_params := FromParams;
  doc_first_param := None;
  doc_responses := [
      ("200", Object [
        ("description", Str "Returns a list of blockchain applications off-chain metadata for tokens");
        ("schema", Object [("$ref", Str "#/definitions/BlockchainAppsTokenMetadataWithEnvelope")])])];
  doc_bad_request := true |}.
Definition api_blockchainAppsTokenSupportedMetadata : endpoint := {|
  version := "2.0";
  swaggerApiPath := "/blockchain/apps/meta/tokens/supported";
  httpMethod := None;
  rpcMethod := Some "get.blockchain.apps.meta.tokens.supported";
  tags := ["Application Off-Chain Metadata"];
  params := [
    ("chainID", SO [("optional", SV (Bool false)); ("type", SV (Str "string")); ("pattern", SRe Regex.CHAIN_ID)]);
    ("limit", SO [("optional", SV (Bool true)); ("type", SV (Str "number")); ("min", SV (Num 1)); ("max", SV (Num 100)); ("default", SV (Num 10))]);
    ("offset", SO [("optional", SV (Bool true)); ("type", SV (Str "number")); ("min", SV (Num 0)); ("default", SV (Num 0))]);
    ("sort", SO [("optional", SV (Bool true)); ("type", SV (Str "string")); ("enum", SV (Arr [Str "tokenID:asc"; Str "tokenID:desc"])); ("default", SV (Str "tokenID:asc"))])];
  paramsRequired := false;
  validParamPairings := [];
  esource := source_blockchainAppsTokenSupportedMetadataSchema;
  envelope := std_envelope;
  eTag := Str "strong";
  doc_method := "get";
  doc_summary := "Requests blockchain applications off-chain metadata for tokens supported on the specified chainID.";
  doc_description := "Returns blockchain applications off-chain metadata for tokens supported on the specified chainID.";
  doc_params := FromParams;
  doc_first_param := None;
  doc_responses := [
      ("200", Object [
        ("description", Str "Returns a list of blockchain applications off-chain metadata for tokens supported on the specified chainID.");
        ("schema", Object [("$ref", Str "#/definitions/BlockchainAppsTokenMetadataWithEnvelope")])])];
  doc_bad_request := true |}.
Definition api_blocks : endpoint := {|
  version := "2.0";
  swaggerApiPath := "/blocks";
  httpMethod := None;
  rpcMethod := Some "get.blocks";
  tags := ["Blocks"];
  params := [
    ("blockID", SO [("optional", SV (Bool true)); ("type", SV (Str "string")); ("min", SV (Num 64)); ("max", SV (Num 64)); ("pattern", SRe Regex.BLOCK_ID)]);
    ("height", SO [("optional", SV (Bool true)); ("type", SV (Str "string")); ("min", SV (Num 0)); ("pattern", SRe Regex.HEIGHT_RANGE)]);
    ("timestamp", SO [("optional", SV (Bool true)); ("type", SV (Str "string")); ("min", SV (Num 1)); ("pattern", SRe Regex.TIMESTAMP_RANGE)]);
    ("generatorAddress", SO [("optional", SV (Bool true)); ("type", SV (Str "string")); ("min", SV (Num 41)); ("max", SV (Num 41)); ("pattern", SRe Regex.ADDRESS_KLAYR32)]);
    ("limit", SO [("optional", SV (Bool true)); ("type", SV (Str "number")); ("min", SV (Num 1)); ("max", SV (Num 100)); ("default", SV (Num 10)); ("pattern", SRe Regex.LIMIT)]);
    ("offset", SO [("optional", SV (Bool true)); ("type", SV (Str "number")); ("min", SV (Num 0)); ("default", SV (Num 0)); ("pattern", SRe Regex.OFFSET)]);
    ("sort", SO [("optional", SV (Bool true)); ("type", SV (Str "string")); ("enum", SV (Arr [Str "height:asc"; Str "height:desc"; Str "timestamp:asc"; Str "timestamp:desc"])); ("default", SV (Str "height:desc"))])];
  paramsRequired := false;
  validParamPairings := [];
  esource := source_blocks;
  envelope := std_envelope;
  eTag := Str "strong";
  doc_method := "get";
  doc_summary := "Requests blocks data";
  doc_description := "Returns block data";
  doc_params := FromParams;
  doc_first_param := None;
  doc_responses := [
      ("200", Object [
        ("description", Str "Returns a list of blocks");
        ("schema", Object [("$ref", Str "#/definitions/BlocksWithEnvelope")])])];
  doc_bad_request := true |}.
Definition api_events : endpoint := {|
  version := "2.0";
  swaggerApiPath := "/events";
  httpMethod := None;
  rpcMethod := Some "get.events";
  tags := ["Events"];
  params := [
    ("transactionID", SO [("optional", SV (Bool true)); ("type", SV (Str "string")); ("min", SV (Num 64)); ("max", SV (Num 64)); ("pattern", SRe Regex.HASH_SHA256)]);
    ("senderAddress", SO [("optional", SV (Bool true)); ("type", SV (Str "string")); ("min", SV (Num 41)); ("max", SV (Num 41)); ("pattern", SRe Regex.ADDRESS_KLAYR32)]);
    ("topic", SO [("optional", SV (Bool true)); ("type", SV (Str "string")); ("pattern", SRe Regex.TOPIC_CSV)]);
    ("module", SO [("optional", SV (Bool true)); ("type", SV (Str "string")); ("min", SV (Num 1)); ("pattern", SRe Regex.MODULE)]);
    ("name", SO [("optional", SV (Bool true)); ("type", SV (Str "string")); ("min", SV (Num 1)); ("pattern", SRe Regex.EVENT_NAME); ("altSwaggerKey", SV (Str "eventName"))]);
    ("blockID", SO [("optional", SV (Bool true)); ("type", SV (Str "string")); ("min", SV (Num 64)); ("max", SV (Num 64)); ("pattern", SRe Regex.BLOCK_ID)]);
    ("height", SO [("optional", SV (Bool true)); ("type", SV (Str "string")); ("min", SV (Num 1)); ("pattern", SRe Regex.HEIGHT_RANGE)]);
    ("timestamp", SO [("optional", SV (Bool true)); ("type", SV (Str "string")); ("min", SV (Num 1)); ("pattern", SRe Regex.TIMESTAMP_RANGE)]);
    ("limit", SO [("optional", SV (Bool true)); ("type", SV (Str "number")); ("min", SV (Num 1)); ("max", SV (Num 100)); ("default", SV (Num 10))]);
    ("offset", SO [("optional", SV (Bool true)); ("type", SV (Str "number")); ("min", SV (Num 0)); ("default", SV (Num 0))]);
    ("sort", SO [("optional", SV (Bool true)); ("type", SV (Str "string")); ("enum", SV (Arr [Str "height:asc"; Str "height:desc"; Str "timestamp:asc"; Str "timestamp:desc"])); ("default", SV (Str "timestamp:desc"))]);
    ("order", SO [("optional", SV (Bool true)); ("type", SV (Str "string")); ("enum", SV (Arr [Str "index:asc"; Str "index:desc"])); ("default", SV (Str "index:asc"))])];
  paramsRequired := false;
  validParamPairings := [];
  esource := source_events;
  envelope := std_envelope;
  eTag := Str "strong";
  doc_method := "get";
  doc_summary := "Requests events data";
  doc_description := "Returns events data";
  doc_params := FromParams;
  doc_first_param := None;
  doc_responses := [
      ("200", Object [
        ("description", Str "Returns a list of events");
        ("schema", Object [("$ref", Str "#/definitions/eventsWithEnvelope")])])];
  doc_bad_request := true |}.
Definition api_fees : endpoint := {|
  version := "2.0";
  swaggerApiPath := "/fees";
  httpMethod := None;
  rpcMethod := Some "get.fees";
  tags := ["Fee"];
  params := [];
  paramsRequired := false;
  validParamPairings := [];
  esource := source_fees;
  envelope := std_envelope;
  eTag := Str "strong";
  doc_method := "get";
  doc_summary := "Requests fee estimates";
  doc_description := "Returns fee estimates";
  doc_params := NoParameters;
  doc_first_param := None;
  doc_responses := [
      ("200", Object [
        ("description", Str "Returns the fee estimate per byte used for transaction fee calculation");
        ("schema", Object [("$ref", Str "#/definitions/FeeEstimateEnvelope")])]);
      ("503", Object [
        ("description", Str "Service Unavailable");
        ("schema", Object [("$ref", Str "#/definitions/serviceUnavailable")])])];
  doc_bad_request := false |}.
Definition api_generators : endpoint := {|
  version := "2.0";
  swaggerApiPath := "/generators";
  httpMethod := None;
  rpcMethod := Some "get.generators";
  tags := ["Generators"];
  params := [
    ("search", SO [("optional", SV (Bool true)); ("type", SV (Str "string")); ("pattern", SRe Regex.PARTIAL_SEARCH); ("altSwaggerKey", SV (Str "searchByNameAddressPubKey"))]);
    ("limit", SO [("optional", SV (Bool true)); ("type", SV (Str "number")); ("min", SV (Num 1)); ("max", SV (Num 103)); ("default", SV (Num 10))]);
    ("offset", SO [("optional", SV (Bool true)); ("type", SV (Str "number")); ("min", SV (Num 0)); ("default", SV (Num 0))])];
  paramsRequired := false;
  validParamPairings := [];
  esource := source_generators;
  envelope := std_envelope;
  eTag := Str "strong";
  doc_method := "get";
  doc_summary := "Requests generators list";
  doc_description := "Returns generators list";
  doc_params := FromParams;
  doc_first_param := None;
  doc_responses := [
      ("200", Object [
        ("description", Str "Returns a list of generators");
        ("schema", Object [("$ref", Str "#/definitions/generatorsWithEnvelope")])])];
  doc_bad_request := true |}.
Definition api_indexStatus : endpoint := {|
  version := "2.0";
  swaggerApiPath := "/index/status";
  httpMethod := None;
  rpcMethod := Some "get.index.status";
  tags := ["Index Status"];
  params := [];
  paramsRequired := false;
  validParamPairings := [];
  esource := source_indexStatus;
  envelope := std_envelope;
  eTag := Str "strong";
  doc_method := "get";
  doc_summary := "Requests current indexing status.";
  doc_description := "Returns current indexing status.";
  doc_params := NoParameters;
  doc_first_param := None;
  doc_responses := [
      ("200", Object [
        ("description", Str "Returns the current index status information.");
        ("schema", Object [("$ref", Str "#/definitions/IndexStatus")])])];
  doc_bad_request := false |}.
Definition api_invoke : endpoint := {|
  version := "2.0";
  swaggerApiPath := "/invoke";
  httpMethod := Some "POST";
  rpcMethod := Some "post.invoke";
  tags := ["Proxy"];
  params := [
    ("endpoint", SO [("optional", SV (Bool false)); ("type", SV (Str "string"))]);
    ("params", SO [("optional", SV (Bool true)); ("type", SV (Str "object"))])];
  paramsRequired := false;
  validParamPairings := [];
  esource := source_invoke;
  envelope := [];
  eTag := Str "strong";
  doc_method := "post";
  doc_summary := "Proxy request to directly invoke application endpoint";
  doc_description := "Returns endpoint response from the blockchain application in its original form.";
  doc_params := Listed [Object [("$ref", Str "#/parameters/invokeParams")]];
  doc_first_param := None;
  doc_responses := [
      ("200", Object [
        ("description", Str "Returns endpoint response from the blockchain application in its original form.");
        ("schema", Object [("$ref", Str "#/definitions/invokeWithEnvelope")])]);
      ("400", Object [
        ("description", Str "Bad request");
        ("schema", Object [("$ref", Str "#/definitions/badRequest")])]);
      ("503", Object [
        ("description", Str "Service Unavailable");
        ("schema", Object [("$ref", Str "#/definitions/serviceUnavailable")])])];
  doc_bad_request := false |}.
Definition api_market : endpoint := {|
  version := "2.0";
  swaggerApiPath := "/market/prices";
  httpMethod := None;
  rpcMethod := Some "get.market.prices";
  tags := ["Market"];
  params := [];
  paramsRequired := false;
  validParamPairings := [];
  esource := source_marketPrices;
  envelope := std_envelope;
  eTag := Str "strong";
  doc_method := "get";
  doc_summary := "Requests market prices";
  doc_description := "Returns market prices";
  doc_params := FromParams;
  doc_first_param := None;
  doc_responses := [
      ("200", Object [
        ("description", Str "Returns a list of market prices by currency pairs");
        ("schema", Object [("$ref", Str "#/definitions/MarketPricesWithEnvelope")])]);
      ("503", Object [
        ("description", Str "Service Unavailable");
        ("schema", Object [("$ref", Str "#/definitions/serviceUnavailable")])])];
  doc_bad_request := true |}.
Definition api_auth : endpoint := {|
  version := "2.0";
  swaggerApiPath := "/auth";
  httpMethod := None;
  rpcMethod := Some "get.auth";
  tags := ["Auth"];
  params := [
    ("address", SO [("optional", SV (Bool false)); ("type", SV (Str "string")); ("min", SV (Num 41)); ("max", SV (Num 41)); ("pattern", SRe Regex.ADDRESS_KLAYR32); ("altSwaggerKey", SV (Str "addressRequired"))])];
  paramsRequired := false;
  validParamPairings := [];
  esource := source_auth;
  envelope := [];
  eTag := Str "strong";
  doc_method := "get";
  doc_summary := "Requests auth details by address";
  doc_description := "Returns auth details by address";
  doc_params := FromParams;
  doc_first_param := None;
  doc_responses := [
      ("200", Object [
        ("description", Str "Auth details");
        ("schema", Object [("$ref", Str "#/definitions/authWithEnvelope")])])];
  doc_bad_request := true |}.
Definition api_dexPool : endpoint := {|
  version := "2.0";
  swaggerApiPath := "/dex/pool";
  httpMethod := None;
  rpcMethod := Some "get.dex.pool";
  tags := ["DEX"];
  params := [
    ("search", SO [("optional", SV (Bool true)); ("type", SV (Str "string")); ("altSwaggerKey", SV (Str "dexPoolSearch"))]);
    ("offset", SO [("optional", SV (Bool true)); ("type", SV (Str "number"))]);
    ("limit", SO [("optional", SV (Bool true)); ("type", SV (Str "number"))]);
    ("start", SO [("optional", SV (Bool true)); ("type", SV (Str "number"))]);
    ("end", SO [("optional", SV (Bool true)); ("type", SV (Str "number"))]);
    ("sortBy", SO [("optional", SV (Bool true)); ("type", SV (Str "string")); ("enum", SV (Arr [Str "poolAddress"; Str "token0"; Str "token1"; Str "fee"; Str "liquidity"; Str "price"; Str "feeGrowth0"; Str "feeGrowth0USD"; Str "feeGrowth1"; Str "feeGrowth1USD"; Str "token0Price"; Str "token0PriceUSD"; Str "token1Price"; Str "token1PriceUSD"; Str "tick"; Str "volumeToken0"; Str "volumeToken0USD"; Str "volumeToken1"; Str "volumeToken1USD"; Str "swapCount"; Str "totalTvlToken0"; Str "totalTvlToken0USD"; Str "totalTvlToken1"; Str "totalTvlToken1USD"; Str "positionCount"])); ("default", SV (Str "poolAddress"))]);
    ("sortOrder", SO [("optional", SV (Bool true)); ("type", SV (Str "string")); ("enum", SV (Arr [Str "asc"; Str "desc"])); ("default", SV (Str "desc"))])];
  paramsRequired := false;
  validParamPairings := [];
  esource := source_dexPool;
  envelope := std_envelope;
  eTag := Str "strong";
  doc_method := "get";
  doc_summary := "Returns list of pools";
  doc_description := "Returns list of pools";
  doc_params := FromParams;
  doc_first_param := None;
  doc_responses := [
      ("200", Object [
        ("description", Str "Returns list of pools");
        ("schema", Object [("$ref", Str "#/definitions/DexPoolsWithEnvelope")])])];
  doc_bad_request := true |}.
Definition api_dexPoolTick : endpoint := {|
  version := "2.0";
  swaggerApiPath := "/dex/pool/tick";
  httpMethod := None;
  rpcMethod := Some "get.dex.pool.tick";
  tags := ["DEX"];
  params := [
    ("poolAddress", SO [("optional", SV (Bool false)); ("type", SV (Str "string"))])];
  paramsRequired := false;
  validParamPairings := [];
  esource := source_dexPoolTick;
  envelope := std_envelope;
  eTag := Str "strong";
  doc_method := "get";
  doc_summary := "Returns list of ticks on pools";
  doc_description := "Returns list of ticks on pools";
  doc_params := FromParams;
  doc_first_param := None;
  doc_responses := [
      ("200", Object [
        ("description", Str "Returns list of ticks on pools");
        ("schema", Object [("$ref", Str "#/definitions/DexPoolTickWithEnvelope")])])];
  doc_bad_request := true |}.
Definition api_dexPosition : endpoint := {|
  version := "2.0";
  swaggerApiPath := "/dex/position";
  httpMethod := None;
  rpcMethod := Some "get.dex.position";
  tags := ["DEX"];
  params := [
    ("search", SO [("optional", SV (Bool true)); ("type", SV (Str "string")); ("altSwaggerKey", SV (Str "dexPositionSearch"))]);
    ("offset", SO [("optional", SV (Bool true)); ("type", SV (Str "number"))]);
    ("limit", SO [("optional", SV (Bool true)); ("type", SV (Str "number"))]);
    ("sortBy", SO [("optional", SV (Bool true)); ("type", SV (Str "string")); ("enum", SV (Arr [Str "poolAddress"; Str "token0"; Str "token1"; Str "tokenId"; Str "owner"; Str "collectionId"; Str "tickLower"; Str "tickUpper"; Str "liquidity"; Str "status"])); ("default", SV (Str "status"))]);
    ("sortOrder", SO [("optional", SV (Bool true)); ("type", SV (Str "string"))])];
  paramsRequired := false;
  validParamPairings := [];
  esource := source_dexPosition;
  envelope := std_envelope;
  eTag := Str "strong";
  doc_method := "get";
  doc_summary := "Returns list of liquidity position";
  doc_description := "Returns list of liquidity position";
  doc_params := FromParams;
  doc_first_param := None;
  doc_responses := [
      ("200", Object [
        ("description", Str "Returns list of liquidity position");
        ("schema", Object [("$ref", Str "#/definitions/DexPositionWithEnvelope")])])];
  doc_bad_request := true |}.
Definition api_dexPositionMetadata : endpoint := {|
  version := "2.0";
  swaggerApiPath := "/dex/position/metadata";
  httpMethod := None;
  rpcMethod := Some "get.dex.position.metadata";
  tags := ["DEX"];
  params := [
    ("tokenId", SO [("optional", SV (Bool false)); ("type", SV (Str "string"))])];
  paramsRequired := false;
  validParamPairings := [];
  esource := source_dexPositionMetadata;
  envelope := std_envelope;
  eTag := Str "strong";
  doc_method := "get";
  doc_summary := "Returns LP NFT metadata";
  doc_description := "Returns LP NFT metadata";
  doc_params := FromParams;
  doc_first_param := None;
  doc_responses := [
      ("200", Object [
        ("description", Str "Returns LP NFT metadata");
        ("schema", Object [("$ref", Str "#/definitions/DexPositionMetadataWithEnvelope")])])];
  doc_bad_request := true |}.
Definition api_dexPositionValue : endpoint := {|
  version := "2.0";
  swaggerApiPath := "/dex/position/value";
  httpMethod := None;
  rpcMethod := Some "get.dex.position.value";
  tags := ["DEX"];
  params := [
    ("tokenId", SO [("optional", SV (Bool false)); ("type", SV (Str "string"))])];
  paramsRequired := false;
  validParamPairings := [];
  esource := source_dexPositionValue;
  envelope := std_envelope;
  eTag := Str "strong";
  doc_method := "get";
  doc_summary := "Returns liquidity position value information";
  doc_description := "Returns liquidity position value information";
  doc_params := FromParams;
  doc_first_param := None;
  doc_responses := [
      ("200", Object [
        ("description", Str "Returns liquidity position value information");
        ("schema", Object [("$ref", Str "#/definitions/DexPositionValueWithEnvelope")])])];
  doc_bad_request := true |}.
Definition api_dexPriceOhlc : endpoint := {|
  version := "2.0";
  swaggerApiPath := "/dex/price/ohlc";
  httpMethod := None;
  rpcMethod := Some "get.dex.price.ohlc";
  tags := ["DEX"];
  params := [
    ("base", SO [("optional", SV (Bool false)); ("type", SV (Str "string")); ("altSwaggerKey", SV (Str "baseSymbol"))]);
    ("quote", SO [("optional", SV (Bool false)); ("type", SV (Str "string")); ("altSwaggerKey", SV (Str "quoteSymbol"))]);
    ("timeframe", SO [("optional", SV (Bool false)); ("type", SV (Str "string")); ("enum", SV (Arr [Str "1h"; Str "4h"; Str "1d"; Str "1w"; Str "1M"]))]);
    ("start", SO [("optional", SV (Bool true)); ("type", SV (Str "number"))]);
    ("end", SO [("optional", SV (Bool true)); ("type", SV (Str "number"))]);
    ("offset", SO [("optional", SV (Bool true)); ("type", SV (Str "number"))]);
    ("limit", SO [("optional", SV (Bool true)); ("type", SV (Str "number"))])];
  paramsRequired := false;
  validParamPairings := [];
  esource := source_dexPriceOhlc;
  envelope := std_envelope;
  eTag := Str "strong";
  doc_method := "get";
  doc_summary := "Returns price in OHLC/Candlestick format";
  doc_description := "Returns price in OHLC/Candlestick format";
  doc_params := FromParams;
  doc_first_param := None;
  doc_responses := [
      ("200", Object [
        ("description", Str "Returns price in OHLC/Candlestick format");
        ("schema", Object [("$ref", Str "#/definitions/DexPriceOhlcWithEnvelope")])])];
  doc_bad_request := true |}.
Definition api_dexPriceTick : endpoint := {|
  version := "2.0";
  swaggerApiPath := "/dex/price/tick";
  httpMethod := None;
  rpcMethod := Some "get.dex.price.tick";
  tags := ["DEX"];
  params := [
    ("base", SO [("optional", SV (Bool false)); ("type", SV (Str "string")); ("altSwaggerKey", SV (Str "baseSymbol"))]);
    ("quote", SO [("optional", SV (Bool false)); ("type", SV (Str "string")); ("altSwaggerKey", SV (Str "quoteSymbol"))]);
    ("start", SO [("optional", SV (Bool true)); ("type", SV (Str "number"))]);
    ("end", SO [("optional", SV (Bool true)); ("type", SV (Str "number"))]);
    ("offset", SO [("optional", SV (Bool true)); ("type", SV (Str "number"))]);
    ("limit", SO [("optional", SV (Bool true)); ("type", SV (Str "number"))]);
    ("interval", SO [("optional", SV (Bool true)); ("type", SV (Str "number"))])];
  paramsRequired := false;
  validParamPairings := [];
  esource := source_dexPriceTick;
  envelope := std_envelope;
  eTag := Str "strong";
  doc_method := "get";
  doc_summary := "Returns price tick";
  doc_description := "Returns price tick";
  doc_params := FromParams;
  doc_first_param := None;
  doc_responses := [
      ("200", Object [
        ("description", Str "Returns price tick");
        ("schema", Object [("$ref", Str "#/definitions/DexPriceTickWithEnvelope")])])];
  doc_bad_request := true |}.
Definition api_dexQuotePrice : endpoint := {|
  version := "2.0";
  swaggerApiPath := "/dex/price";
  httpMethod := None;
  rpcMethod := Some "get.dex.quote.price";
  tags := ["DEX"];
  params := [
    ("baseTokenId", SO [("optional", SV (Bool false)); ("type", SV (Str "string"))]);
    ("quoteTokenId", SO [("optional", SV (Bool false)); ("type", SV (Str "string"))])];
  paramsRequired := false;
  validParamPairings := [];
  esource := source_dexQuotePrice;
  envelope := std_envelope;
  eTag := Str "strong";
  doc_method := "get";
  doc_summary := "Returns current base/quote token price";
  doc_description := "Returns current base/quote token price";
  doc_params := FromParams;
  doc_first_param := None;
  doc_responses := [
      ("200", Object [
        ("description", Str "Returns current base/quote token price");
        ("schema", Object [("$ref", Str "#/definitions/QuotePriceWithEnvelope")])])];
  doc_bad_request := true |}.
Definition api_dexQuoteSwap : endpoint := {|
  version := "2.0";
  swaggerApiPath := "/dex/quote";
  httpMethod := None;
  rpcMethod := Some "get.dex.quote";
  tags := ["DEX"];
  params := [
    ("path", SO [("optional", SV (Bool true)); ("type", SV (Str "string"))]);
    ("base", SO [("optional", SV (Bool true)); ("type", SV (Str "string"))]);
    ("quote", SO [("optional", SV (Bool true)); ("type", SV (Str "string"))]);
    ("amountIn", SO [("optional", SV (Bool true)); ("type", SV (Str "string"))]);
    ("amountOut", SO [("optional", SV (Bool true)); ("type", SV (Str "string"))])];
  paramsRequired := false;
  validParamPairings := [];
  esource := source_dexQuoteSwap;
  envelope := std_envelope;
  eTag := Str "strong";
  doc_method := "get";
  doc_summary := "Returns DEX swap quote by exactIn or exactOut";
  doc_description := "Returns DEX swap quote by exactIn or exactOut";
  doc_params := FromParams;
  doc_first_param := None;
  doc_responses := [
      ("200", Object [
        ("description", Str "Returns DEX swap quote by exactIn or exactOut");
        ("schema", Object [("$ref", Str "#/definitions/QuoteSwapWithEnvelope")])])];
  doc_bad_request := true |}.
Definition api_dexRoute : endpoint := {|
  version := "2.0";
  swaggerApiPath := "/dex/route";
  httpMethod := None;
  rpcMethod := Some "get.dex.route";
  tags := ["DEX"];
  params := [
    ("tokenIn", SO [("optional", SV (Bool false)); ("type", SV (Str "string"))]);
    ("tokenOut", SO [("optional", SV (Bool false)); ("type", SV (Str "string"))]);
    ("recursion", SO [("optional", SV (Bool true)); ("type", SV (Str "number")); ("default", SV (Num 5))]);
    ("limit", SO [("optional", SV (Bool true)); ("type", SV (Str "number")); ("default", SV (Num 1))])];
  paramsRequired := false;
  validParamPairings := [];
  esource := source_dexRoute;
  envelope := std_envelope;
  eTag := Str "strong";
  doc_method := "get";
  doc_summary := "Returns swap route with estimated total pool fee";
  doc_description := "Returns swap route with estimated total pool fee";
  doc_params := FromParams;
  doc_first_param := None;
  doc_responses := [
      ("200", Object [
        ("description", Str "Returns swap route with estimated total pool fee");
        ("schema", Object [("$ref", Str "#/definitions/SwapRouteWithEnvelope")])])];
  doc_bad_request := true |}.
Definition api_dexStatistics : endpoint := {|
  version := "2.0";
  swaggerApiPath := "/dex/statistic";
  httpMethod := None;
  rpcMethod := Some "get.dex.statistic";
  tags := ["DEX"];
  params := [
    ("start", SO [("optional", SV (Bool true)); ("type", SV (Str "number"))]);
    ("end", SO [("optional", SV (Bool true)); ("type", SV (Str "number"))])];
  paramsRequired := false;
  validParamPairings := [];
  esource := source_dexStatistics;
  envelope := std_envelope;
  eTag := Str "strong";
  doc_method := "get";
  doc_summary := "Returns DEX statistics summary";
  doc_description := "Returns DEX statistics summary";
  doc_params := FromParams;
  doc_first_param := None;
  doc_responses := [
      ("200", Object [
        ("description", Str "Returns DEX statistics summary");
        ("schema", Object [("$ref", Str "#/definitions/DexStatisticsSummaryWithEnvelope")])])];
  doc_bad_request := true |}.
Definition api_dexToken : endpoint := {|
  version := "2.0";
  swaggerApiPath := "/dex/token";
  httpMethod := None;
  rpcMethod := Some "get.dex.token";
  tags := ["DEX"];
  params := [
    ("search", SO [("optional", SV (Bool true)); ("type", SV (Str "string")); ("altSwaggerKey", SV (Str "dexTokenSearch"))]);
    ("offset", SO [("optional", SV (Bool true)); ("type", SV (Str "number"))]);
    ("limit", SO [("optional", SV (Bool true)); ("type", SV (Str "number"))]);
    ("changeWindow", SO [("optional", SV (Bool true)); ("type", SV (Str "string")); ("enum", SV (Arr [Str "1h"; Str "24h"; Str "7d"; Str "30d"; Str "1y"])); ("default", SV (Str "24h"))]);
    ("start", SO [("optional", SV (Bool true)); ("type", SV (Str "number"))]);
    ("end", SO [("optional", SV (Bool true)); ("type", SV (Str "number"))]);
    ("sortBy", SO [("optional", SV (Bool true)); ("type", SV (Str "string")); ("enum", SV (Arr [Str "tokenId"; Str "symbol"; Str "tokenName"; Str "decimal"; Str "volume"; Str "volumeUSD"; Str "feeGrowth"; Str "feeGrowthUSD"; Str "txCount"; Str "poolCount"; Str "totalTvl"; Str "totalTvlUSD"; Str "price"; Str "priceUSD"; Str "priceChange"; Str "priceChangeUSD"])); ("default", SV (Str "totalTvlUSD"))]);
    ("sortOrder", SO [("optional", SV (Bool true)); ("type", SV (Str "string")); ("enum", SV (Arr [Str "asc"; Str "desc"])); ("default", SV (Str "desc"))])];
  paramsRequired := false;
  validParamPairings := [];
  esource := source_dexToken;
  envelope := std_envelope;
  eTag := Str "strong";
  doc_method := "get";
  doc_summary := "Returns list of tradable tokens on DEX";
  doc_description := "Returns list of tradable tokens on DEX";
  doc_params := FromParams;
  doc_first_param := None;
  doc_responses := [
      ("200", Object [
        ("description", Str "Returns list of tradable tokens on DEX");
        ("schema", Object [("$ref", Str "#/definitions/DexTokensWithEnvelope")])])];
  doc_bad_request := true |}.
Definition api_dexTokenCompact : endpoint := {|
  version := "2.0";
  swaggerApiPath := "/dex/token/compact";
  httpMethod := None;
  rpcMethod := Some "get.dex.token.compact";
  tags := ["DEX"];
  params := [
    ("search", SO [("optional", SV (Bool true)); ("type", SV (Str "string")); ("altSwaggerKey", SV (Str "dexTokenSearch"))]);
    ("offset", SO [("optional", SV (Bool true)); ("type", SV (Str "number"))]);
    ("limit", SO [("optional", SV (Bool true)); ("type", SV (Str "number"))])];
  paramsRequired := false;
  validParamPairings := [];
  esource := source_dexTokenCompact;
  envelope := std_envelope;
  eTag := Str "strong";
  doc_method := "get";
  doc_summary := "Returns list of compact tradable tokens on DEX";
  doc_description := "Returns list of compact tradable tokens on DEX";
  doc_params := FromParams;
  doc_first_param := None;
  doc_responses := [
      ("200", Object [
        ("description", Str "Returns list of compact tradable tokens on DEX");
        ("schema", Object [("$ref", Str "#/definitions/DEXTokenCompactsWithEnvelope")])])];
  doc_bad_request := true |}.
Definition api_rewardAnnualInflation : endpoint := {|
  version := "2.0";
  swaggerApiPath := "/reward/annual-inflation";
  httpMethod := None;
  rpcMethod := Some "get.reward.annual-inflation";
  tags := ["(Dynamic) Reward"];
  params := [
    ("height", SO [("optional", SV (Bool false)); ("type", SV (Str "number")); ("min", SV (Num 0)); ("integer", SV (Bool true)); ("altSwaggerKey", SV (Str "blockHeightRequired"))])];
  paramsRequired := false;
  validParamPairings := [];
  esource := source_rewardAnnualInflation;
  envelope := std_envelope;
  eTag := Str "strong";
  doc_method := "get";
  doc_summary := "Requests inflation rate.";
  doc_description := "Returns inflation rate.";
  doc_params := FromParams;
  doc_first_param := None;
  doc_responses := [
      ("200", Object [
        ("description", Str "Returns current inflation rate.");
        ("schema", Object [("$ref", Str "#/definitions/rewardInflationWithEnvelope")])])];
  doc_bad_request := true |}.
Definition api_rewardConstants : endpoint := {|
  version := "2.0";
  swaggerApiPath := "/reward/constants";
  httpMethod := None;
  rpcMethod := Some "get.reward.constants";
  tags := ["(Dynamic) Reward"];
  params := [];
  paramsRequired := false;
  validParamPairings := [];
  esource := source_rewardConstants;
  envelope := std_envelope;
  eTag := Str "strong";
  doc_method := "get";
  doc_summary := "Requests reward constants.";
  doc_description := "Returns reward constants.";
  doc_params := NoParameters;
  doc_first_param := None;
  doc_responses := [
      ("200", Object [
        ("description", Str "Returns reward constants.");
        ("schema", Object [("$ref", Str "#/definitions/rewardConstantsWithEnvelope")])])];
  doc_bad_request := false |}.
Definition api_rewardDefault : endpoint := {|
  version := "2.0";
  swaggerApiPath := "/reward/default";
  httpMethod := None;
  rpcMethod := Some "get.reward.default";
  tags := ["(Dynamic) Reward"];
  params := [
    ("height", SO [("optional", SV (Bool false)); ("type", SV (Str "number")); ("min", SV (Num 0)); ("integer", SV (Bool true)); ("altSwaggerKey", SV (Str "blockHeightRequired"))])];
  paramsRequired := false;
  validParamPairings := [];
  esource := source_rewardDefault;
  envelope := std_envelope;
  eTag := Str "strong";
  doc_method := "get";
  doc_summary := "Requests default block generation reward at a specified height.";
  doc_description := "Returns default block generation reward at the specified height.";
  doc_params := FromParams;
  doc_first_param := None;
  doc_responses := [
      ("200", Object [
        ("description", Str "Returns the default block generation reward at the specified height.");
        ("schema", Object [("$ref", Str "#/definitions/rewardDefaultWithEnvelope")])])];
  doc_bad_request := false |}.
Definition api_legacyAccounts : endpoint := {|
  version := "2.0";
  swaggerApiPath := "/legacy";
  httpMethod := None;
  rpcMethod := Some "get.legacy";
  tags := ["Legacy"];
  params := [
    ("publicKey", SO [("optional", SV (Bool false)); ("type", SV (Str "string")); ("min", SV (Num 64)); ("max", SV (Num 64)); ("pattern", SRe Regex.PUBLIC_KEY); ("altSwaggerKey", SV (Str "publicKeyRequired"))])];
  paramsRequired := false;
  validParamPairings := [];
  esource := source_legacyAccountsSchema;
  envelope := [];
  eTag := Str "strong";
  doc_method := "get";
  doc_summary := "Requests legacy account details";
  doc_description := "Returns legacy account details";
  doc_params := FromParams;
  doc_first_param := None;
  doc_responses := [
      ("200", Object [
        ("description", Str "Returns legacy account details for the specified publicKey");
        ("schema", Object [("$ref", Str "#/definitions/legacyAccountWithEnvelope")])])];
  doc_bad_request := true |}.
Definition api_posClaimableRewards : endpoint := {|
  version := "2.0";
  swaggerApiPath := "/pos/rewards/claimable";
  httpMethod := None;
  rpcMethod := Some "get.pos.rewards.claimable";
  tags := ["PoS"];
  params := [
    ("address", SO [("optional", SV (Bool true)); ("type", SV (Str "string")); ("pattern", SRe Regex.ADDRESS_KLAYR32)]);
    ("publicKey", SO [("optional", SV (Bool true)); ("type", SV (Str "string")); ("pattern", SRe Regex.PUBLIC_KEY)]);
    ("name", SO [("optional", SV (Bool true)); ("type", SV (Str "string")); ("pattern", SRe Regex.NAME); ("altSwaggerKey", SV (Str "validatorName"))]);
    ("limit", SO [("optional", SV (Bool true)); ("type", SV (Str "number")); ("min", SV (Num 1)); ("max", SV (Num 100)); ("default", SV (Num 10))]);
    ("offset", SO [("optional", SV (Bool true)); ("type", SV (Str "number")); ("min", SV (Num 0)); ("default", SV (Num 0))])];
  paramsRequired := true;
  validParamPairings := [["address"]; ["name"]; ["publicKey"]];
  esource := source_posClaimableRewards;
  envelope := std_envelope;
  eTag := Str "strong";
  doc_method := "get";
  doc_summary := "Requests claimable rewards data from the PoS module.";
  doc_description := "Returns claimable rewards data from the PoS module.";
  doc_params := FromParams;
  doc_first_param := None;
  doc_responses := [
      ("200", Object [
        ("description", Str "Returns a list of claimable rewards from the PoS module for the specified address, publicKey or validator name.");
        ("schema", Object [("$ref", Str "#/definitions/posClaimableRewardsWithEnvelope")])])];
  doc_bad_request := true |}.
Definition api_posConstants : endpoint := {|
  version := "2.0";
  swaggerApiPath := "/pos/constants";
  httpMethod := None;
  rpcMethod := Some "get.pos.constants";
  tags := ["PoS"];
  params := [];
  paramsRequired := false;
  validParamPairings := [];
  esource := source_posConstants;
  envelope := std_envelope;
  eTag := Str "strong";
  doc_method := "get";
  doc_summary := "Requests PoS Module Constants.";
  doc_description := "Requests all the configured constants for the PoS module.";
  doc_params := NoParameters;
  doc_first_param := None;
  doc_responses := [
      ("200", Object [
        ("description", Str "Returns all the configured constants for the PoS module.");
        ("schema", Object [("$ref", Str "#/definitions/posConstantsWithEnvelope")])])];
  doc_bad_request := true |}.
Definition api_posRewardsLocked : endpoint := {|
  version := "2.0";
  swaggerApiPath := "/pos/rewards/locked";
  httpMethod := None;
  rpcMethod := Some "get.pos.rewards.locked";
  tags := ["PoS"];
  params := [
    ("address", SO [("optional", SV (Bool true)); ("type", SV (Str "string")); ("pattern", SRe Regex.ADDRESS_KLAYR32)]);
    ("publicKey", SO [("optional", SV (Bool true)); ("type", SV (Str "string")); ("pattern", SRe Regex.PUBLIC_KEY)]);
    ("name", SO [("optional", SV (Bool true)); ("type", SV (Str "string")); ("pattern", SRe Regex.NAME); ("altSwaggerKey", SV (Str "validatorName"))]);
    ("limit", SO [("optional", SV (Bool true)); ("type", SV (Str "number")); ("min", SV (Num 1)); ("max", SV (Num 100)); ("default", SV (Num 10))]);
    ("offset", SO [("optional", SV (Bool true)); ("type", SV (Str "number")); ("min", SV (Num 0)); ("default", SV (Num 0))])];
  paramsRequired := true;
  validParamPairings := [["address"]; ["name"]; ["publicKey"]];
  esource := source_posRewardsLocked;
  envelope := std_envelope;
  eTag := Str "strong";
  doc_method := "get";
  doc_summary := "Requests locked rewards data.";
  doc_description := "Returns locked rewards data.";
  doc_params := FromParams;
  doc_first_param := None;
  doc_responses := [
      ("200", Object [
        ("description", Str "Returns a list of rewards locked by the PoS module for the specified address, publicKey or validator name.");
        ("schema", Object [("$ref", Str "#/definitions/posRewardsLockedWithEnvelope")])])];
  doc_bad_request := true |}.
Definition api_posStakers : endpoint := {|
  version := "2.0";
  swaggerApiPath := "/pos/stakers";
  httpMethod := None;
  rpcMethod := Some "get.pos.stakers";
  tags := ["PoS"];
  params := [
    ("address", SO [("optional", SV (Bool true)); ("type", SV (Str "string")); ("pattern", SRe Regex.ADDRESS_KLAYR32)]);
    ("publicKey", SO [("optional", SV (Bool true)); ("type", SV (Str "string")); ("pattern", SRe Regex.PUBLIC_KEY)]);
    ("name", SO [("optional", SV (Bool true)); ("type", SV (Str "string")); ("pattern", SRe Regex.NAME); ("altSwaggerKey", SV (Str "accountName"))]);
    ("search", SO [("optional", SV (Bool true)); ("type", SV (Str "string")); ("min", SV (Num 1)); ("pattern", SRe Regex.PARTIAL_SEARCH); ("altSwaggerKey", SV (Str "searchByNameAddressPubKey"))]);
    ("limit", SO [("optional", SV (Bool true)); ("type", SV (Str "number")); ("min", SV (Num 1)); ("max", SV (Num 100)); ("default", SV (Num 10))]);
    ("offset", SO [("optional", SV (Bool true)); ("type", SV (Str "number")); ("min", SV (Num 0)); ("default", SV (Num 0))])];
  paramsRequired := true;
  validParamPairings := [["address"]; ["publicKey"]; ["name"]];
  esource := source_posStakers;
  envelope := std_envelope;
  eTag := Str "strong";
  doc_method := "get";
  doc_summary := "Requests the list of stakers for the specified validator.";
  doc_description := "Returns a list of stakers for the specified validator.";
  doc_params := FromParams;
  doc_first_param := None;
  doc_responses := [
      ("200", Object [
        ("description", Str "Returns a list of stakers for the specified validator address, publicKey or name.");
        ("schema", Object [("$ref", Str "#/definitions/posStakersWithEnvelope")])])];
  doc_bad_request := true |}.
Definition api_posStakes : endpoint := {|
  version := "2.0";
  swaggerApiPath := "/pos/stakes";
  httpMethod := None;
  rpcMethod := Some "get.pos.stakes";
  tags := ["PoS"];
  params := [
    ("address", SO [("optional", SV (Bool true)); ("type", SV (Str "string")); ("pattern", SRe Regex.ADDRESS_KLAYR32)]);
    ("publicKey", SO [("optional", SV (Bool true)); ("type", SV (Str "string")); ("pattern", SRe Regex.PUBLIC_KEY)]);
    ("name", SO [("optional", SV (Bool true)); ("type", SV (Str "string")); ("pattern", SRe Regex.NAME); ("altSwaggerKey", SV (Str "validatorName"))]);
    ("search", SO [("optional", SV (Bool true)); ("type", SV (Str "string")); ("min", SV (Num 1)); ("pattern", SRe Regex.PARTIAL_SEARCH); ("altSwaggerKey", SV (Str "searchByNameAddressPubKey"))])];
  paramsRequired := true;
  validParamPairings := [["address"]; ["publicKey"]; ["name"]];
  esource := source_posStakes;
  envelope := std_envelope;
  eTag := Str "strong";
  doc_method := "get";
  doc_summary := "Requests the list of stakes for the specified staker.";
  doc_description := "Returns a list of stakes for the specified staker.";
  doc_params := FromParams;
  doc_first_param := None;
  doc_responses := [
      ("200", Object [
        ("description", Str "Returns a list of stakes for the specified staker address, publicKey or name.");
        ("schema", Object [("$ref", Str "#/definitions/posStakesWithEnvelope")])])];
  doc_bad_request := true |}.
Definition api_posUnlocks : endpoint := {|
  version := "2.0";
  swaggerApiPath := "/pos/unlocks";
  httpMethod := None;
  rpcMethod := Some "get.pos.unlocks";
  tags := ["PoS"];
  params := [
    ("address", SO [("optional", SV (Bool true)); ("type", SV (Str "string")); ("pattern", SRe Regex.ADDRESS_KLAYR32)]);
    ("publicKey", SO [("optional", SV (Bool true)); ("type", SV (Str "string")); ("pattern", SRe Regex.PUBLIC_KEY)]);
    ("name", SO [("optional", SV (Bool true)); ("type", SV (Str "string")); ("pattern", SRe Regex.NAME); ("altSwaggerKey", SV (Str "accountName"))]);
    ("isLocked", SO [("optional", SV (Bool true)); ("type", SV (Str "boolean"))]);
    ("limit", SO [("optional", SV (Bool true)); ("type", SV (Str "number")); ("min", SV (Num 1)); ("max", SV (Num 100)); ("default", SV (Num 10))]);
    ("offset", SO [("optional", SV (Bool true)); ("type", SV (Str "number")); ("min", SV (Num 0)); ("default", SV (Num 0))])];
  paramsRequired := true;
  validParamPairings := [["address"]; ["name"]; ["publicKey"]; ["address"; "isLocked"]; ["name"; "isLocked"]; ["publicKey"; "isLocked"]];
  esource := source_posUnlocks;
  envelope := std_envelope;
  eTag := Str "strong";
  doc_method := "get";
  doc_summary := "Requests PoS unlocks data.";
  doc_description := "Returns unlocks information for the specified address, name or publicKey.";
  doc_params := FromParams;
  doc_first_param := None;
  doc_responses := [
      ("200", Object [
        ("description", Str "Returns unlocks information for the specified address, name or publicKey.");
        ("schema", Object [("$ref", Str "#/definitions/posUnlocksWithEnvelope")])])];
  doc_bad_request := true |}.
Definition api_posValidators : endpoint := {|
  version := "2.0";
  swaggerApiPath := "/pos/validators";
  httpMethod := None;
  rpcMethod := Some "get.pos.validators";
  tags := ["PoS"];
  params := [
    ("address", SO [("optional", SV (Bool true)); ("type", SV (Str "string")); ("pattern", SRe Regex.ADDRESS_KLAYR32_CSV); ("max", SV (Num 419)); ("altSwaggerKey", SV (Str "addressCsv"))]);
    ("publicKey", SO [("optional", SV (Bool true)); ("type", SV (Str "string")); ("pattern", SRe Regex.PUBLIC_KEY)]);
    ("name", SO [("optional", SV (Bool true)); ("type", SV (Str "string")); ("pattern", SRe Regex.NAME_CSV); ("max", SV (Num 209)); ("altSwaggerKey", SV (Str "validatorNameCsv"))]);
    ("status", SO [("optional", SV (Bool true)); ("type", SV (Str "string")); ("pattern", SRe Regex.POS_VALIDATOR_STATUS); ("altSwaggerKey", SV (Str "validatorStatus"))]);
    ("search", SO [("optional", SV (Bool true)); ("type", SV (Str "string")); ("min", SV (Num 1)); ("pattern", SRe Regex.PARTIAL_SEARCH); ("altSwaggerKey", SV (Str "searchByNameAddressPubKey"))]);
    ("limit", SO [("optional", SV (Bool true)); ("type", SV (Str "number")); ("min", SV (Num 1)); ("max", SV (Num 103)); ("default", SV (Num 10))]);
    ("offset", SO [("optional", SV (Bool true)); ("type", SV (Str "number")); ("min", SV (Num 0)); ("default", SV (Num 0))]);
    ("sort", SO [("optional", SV (Bool true)); ("type", SV (Str "string")); ("enum", SV (Arr [Str "commission:asc"; Str "commission:desc"; Str "validatorWeight:desc"; Str "validatorWeight:asc"; Str "rank:asc"; Str "rank:desc"; Str "name:asc"; Str "name:desc"])); ("default", SV (Str "commission:asc"))])];
  paramsRequired := false;
  validParamPairings := [];
  esource := source_posValidators;
  envelope := std_envelope;
  eTag := Str "strong";
  doc_method := "get";
  doc_summary := "Requests validators list.";
  doc_description := "Returns validators list.";
  doc_params := FromParams;
  doc_first_param := None;
  doc_responses := [
      ("200", Object [
        ("description", Str "Returns a list of validators.");
        ("schema", Object [("$ref", Str "#/definitions/validatorsWithEnvelope")])])];
  doc_bad_request := true |}.
Definition api_tokenAccountExists : endpoint := {|
  version := "2.0";
  swaggerApiPath := "/token/account/exists";
  httpMethod := None;
  rpcMethod := Some "get.token.account.exists";
  tags := ["Token"];
  params := [
    ("address", SO [("optional", SV (Bool true)); ("type", SV (Str "string")); ("pattern", SRe Regex.ADDRESS_KLAYR32)]);
    ("publicKey", SO [("optional", SV (Bool true)); ("type", SV (Str "string")); ("pattern", SRe Regex.PUBLIC_KEY)]);
    ("name", SO [("optional", SV (Bool true)); ("type", SV (Str "string")); ("pattern", SRe Regex.NAME); ("altSwaggerKey", SV (Str "accountName"))]);
    ("tokenID", SO [("optional", SV (Bool false)); ("type", SV (Str "string")); ("pattern", SRe Regex.TOKEN_ID); ("altSwaggerKey", SV (Str "tokenIDRequired"))])];
  paramsRequired := true;
  validParamPairings := [["address"; "tokenID"]; ["publicKey"; "tokenID"]; ["name"; "tokenID"]];
  esource := source_tokenAccountExists;
  envelope := std_envelope;
  eTag := Str "strong";
  doc_method := "get";
  doc_summary := "Requests to check existence of an account for the specified token.";
  doc_description := "Returns existence of an account for the specified token.";
  doc_params := FromParams;
  doc_first_param := None;
  doc_responses := [
      ("200", Object [
        ("description", Str "Returns existence of an account for the specified token.");
        ("schema", Object [("$ref", Str "#/definitions/tokenAccountExistsWithEnvelope")])])];
  doc_bad_request := true |}.
Definition api_tokenAvailableIDs : endpoint := {|
  version := "2.0";
  swaggerApiPath := "/token/available-ids";
  httpMethod := None;
  rpcMethod := Some "get.token.available-ids";
  tags := ["Token"];
  params := [
    ("sort", SO [("optional", SV (Bool true)); ("type", SV (Str "string")); ("enum", SV (Arr [Str "tokenID:desc"; Str "tokenID:asc"])); ("default", SV (Str "tokenID:asc"))]);
    ("limit", SO [("optional", SV (Bool true)); ("type", SV (Str "number")); ("min", SV (Num 1)); ("max", SV (Num 100)); ("default", SV (Num 10))]);
    ("offset", SO [("optional", SV (Bool true)); ("type", SV (Str "number")); ("min", SV (Num 0)); ("default", SV (Num 0))])];
  paramsRequired := false;
  validParamPairings := [];
  esource := source_tokenAvailableIDs;
  envelope := std_envelope;
  eTag := Str "strong";
  doc_method := "get";
  doc_summary := "Requests the list of available tokens identifiers.";
  doc_description := "Returns all the available token identifiers.";
  doc_params := FromParams;
  doc_first_param := None;
  doc_responses := [
      ("200", Object [
        ("description", Str "Returns all the available token identifiers.");
        ("schema", Object [("$ref", Str "#/definitions/tokenAvailableIDsWithEnvelope")])])];
  doc_bad_request := true |}.
Definition api_tokenBalances : endpoint := {|
  version := "2.0";
  swaggerApiPath := "/token/balances";
  httpMethod := None;
  rpcMethod := Some "get.token.balances";
  tags := ["Token"];
  params := [
    ("address", SO [("optional", SV (Bool false)); ("type", SV (Str "string")); ("pattern", SRe Regex.ADDRESS_KLAYR32); ("altSwaggerKey", SV (Str "addressRequired"))]);
    ("tokenID", SO [("optional", SV (Bool true)); ("type", SV (Str "string")); ("pattern", SRe Regex.TOKEN_ID)]);
    ("limit", SO [("optional", SV (Bool true)); ("type", SV (Str "number")); ("min", SV (Num 1)); ("max", SV (Num 100)); ("default", SV (Num 10)); ("pattern", SRe Regex.LIMIT)]);
    ("offset", SO [("optional", SV (Bool true)); ("type", SV (Str "number")); ("min", SV (Num 0)); ("default", SV (Num 0)); ("pattern", SRe Regex.OFFSET)])];
  paramsRequired := false;
  validParamPairings := [];
  esource := source_tokenBalances;
  envelope := std_envelope;
  eTag := Bool false;
  doc_method := "get";
  doc_summary := "Requests tokens information";
  doc_description := "Returns tokens information";
  doc_params := FromParams;
  doc_first_param := None;
  doc_responses := [
      ("200", Object [
        ("description", Str "Returns a list of supported tokens by the blockchain application");
        ("schema", Object [("$ref", Str "#/definitions/tokenWithEnvelope")])])];
  doc_bad_request := true |}.
Definition api_tokenConstants : endpoint := {|
  version := "2.0";
  swaggerApiPath := "/token/constants";
  httpMethod := None;
  rpcMethod := Some "get.token.constants";
  tags := ["Token"];
  params := [];
  paramsRequired := false;
  validParamPairings := [];
  esource := source_tokenConstants;
  envelope := std_envelope;
  eTag := Str "strong";
  doc_method := "get";
  doc_summary := "Requests Token module constants.";
  doc_description := "Requests all the configured constants for the Token module.";
  doc_params := NoParameters;
  doc_first_param := None;
  doc_responses := [
      ("200", Object [
        ("description", Str "Returns all the configured constants for the Token module.");
        ("schema", Object [("$ref", Str "#/definitions/tokenConstantsWithEnvelope")])])];
  doc_bad_request := true |}.
Definition api_tokenSummary : endpoint := {|
  version := "2.0";
  swaggerApiPath := "/token/summary";
  httpMethod := None;
  rpcMethod := Some "get.token.summary";
  tags := ["Token"];
  params := [];
  paramsRequired := false;
  validParamPairings := [];
  esource := source_tokenSummary;
  envelope := std_envelope;
  eTag := Str "strong";
  doc_method := "get";
  doc_summary := "Requests the tokens summary for the current blockchain application.";
  doc_description := "Returns the token summary. The 'supportedTokens' is an empty list when all the tokens are supported on the blockchain application.";
  doc_params := FromParams;
  doc_first_param := None;
  doc_responses := [
      ("200", Object [
        ("description", Str "Returns the token summary. The 'supportedTokens' is an empty list when all the tokens are supported on the blockchain application.");
        ("schema", Object [("$ref", Str "#/definitions/tokenSummaryWithEnvelope")])])];
  doc_bad_request := true |}.
Definition api_tokenTopBalances : endpoint := {|
  version := "2.0";
  swaggerApiPath := "/token/balances/top";
  httpMethod := None;
  rpcMethod := Some "get.token.balances.top";
  tags := ["Token"];
  params := [
    ("tokenID", SO [("optional", SV (Bool false)); ("type", SV (Str "string")); ("pattern", SRe Regex.TOKEN_ID); ("altSwaggerKey", SV (Str "tokenIDRequired"))]);
    ("search", SO [("optional", SV (Bool true)); ("type", SV (Str "string")); ("min", SV (Num 1)); ("pattern", SRe Regex.PARTIAL_SEARCH); ("altSwaggerKey", SV (Str "searchByNameAddressPubKey"))]);
    ("limit", SO [("optional", SV (Bool true)); ("type", SV (Str "number")); ("min", SV (Num 1)); ("max", SV (Num 100)); ("default", SV (Num 10))]);
    ("offset", SO [("optional", SV (Bool true)); ("type", SV (Str "number")); ("min", SV (Num 0)); ("default", SV (Num 0))]);
    ("sort", SO [("optional", SV (Bool true)); ("type", SV (Str "string")); ("enum", SV (Arr [Str "balance:desc"; Str "balance:asc"])); ("default", SV (Str "balance:desc"))])];
  paramsRequired := false;
  validParamPairings := [];
  esource := source_tokenTopBalances;
  envelope := std_envelope;
  eTag := Str "strong";
  doc_method := "get";
  doc_summary := "Requests the list of top accounts for the specified tokenID.";
  doc_description := "Returns the list of top accounts for the specified tokenID.";
  doc_params := FromParams;
  doc_first_param := None;
  doc_responses := [
      ("200", Object [
        ("description", Str "Returns the list of top accounts for the specified tokenID.");
        ("schema", Object [("$ref", Str "#/definitions/tokenTopBalancesWithEnvelope")])])];
  doc_bad_request := false |}.
Definition api_tokenFactoryAvailable : endpoint := {|
  version := "2.0";
  swaggerApiPath := "/factory/token/available";
  httpMethod := None;
  rpcMethod := Some "get.factory.token.available";
  tags := ["TokenFactory"];
  params := [
    ("tokenName", SO [("optional", SV (Bool false)); ("type", SV (Str "string"))]);
    ("symbol", SO [("optional", SV (Bool false)); ("type", SV (Str "string"))])];
  paramsRequired := false;
  validParamPairings := [];
  esource := source_tokenFactoryAvailable;
  envelope := std_envelope;
  eTag := Str "strong";
  doc_method := "get";
  doc_summary := "Returns whether specified tokenName and/or symbol is already registered on service off-chain data";
  doc_description := "Returns whether specified tokenName and/or symbol is already registered on service off-chain data";
  doc_params := FromParams;
  doc_first_param := None;
  doc_responses := [
      ("200", Object [
        ("description", Str "Returns whether specified tokenName and/or symbol is already registered on service off-chain data");
        ("schema", Object [("$ref", Str "#/definitions/TokenFactoryAvailableWithEnvelope")])])];
  doc_bad_request := true |}.
Definition api_tokenFactoryMeta : endpoint := {|
  version := "2.0";
  swaggerApiPath := "/factory/token/meta";
  httpMethod := None;
  rpcMethod := Some "get.factory.token.meta";
  tags := ["TokenFactory"];
  params := [
    ("tokenIds", SO [("optional", SV (Bool true)); ("type", SV (Str "string"))]);
    ("registry", SO [("optional", SV (Bool true)); ("type", SV (Str "boolean"))]);
    ("offset", SO [("optional", SV (Bool true)); ("type", SV (Str "number"))]);
    ("limit", SO [("optional", SV (Bool true)); ("type", SV (Str "number"))])];
  paramsRequired := false;
  validParamPairings := [];
  esource := source_tokenFactoryMeta;
  envelope := std_envelope;
  eTag := Str "strong";
  doc_method := "get";
  doc_summary := "Returns list of token metadata which may include registered token on official registry, and/or created by token factory";
  doc_description := "Returns list of token metadata which may include registered token on official registry, and/or created by token factory";
  doc_params := FromParams;
  doc_first_param := None;
  doc_responses := [
      ("200", Object [
        ("description", Str "Returns list of token metadata which may include registered token on official registry, and/or created by token factory");
        ("schema", Object [("$ref", Str "#/definitions/TokenFactoryMetaWithEnvelope")])])];
  doc_bad_request := true |}.
Definition api_tokenFactoryStatistics : endpoint := {|
  version := "2.0";
  swaggerApiPath := "/factory/statistic";
  httpMethod := None;
  rpcMethod := Some "get.factory.statistic";
  tags := ["TokenFactory"];
  params := [];
  paramsRequired := false;
  validParamPairings := [];
  esource := source_tokenFactoryStatistic;
  envelope := std_envelope;
  eTag := Str "strong";
  doc_method := "get";
  doc_summary := "Returns token factory module statistics";
  doc_description := "Returns token factory module statistics";
  doc_params := FromParams;
  doc_first_param := None;
  doc_responses := [
      ("200", Object [
        ("description", Str "Returns token factory module statistics");
        ("schema", Object [("$ref", Str "#/definitions/TokenFactoryStatisticWithEnvelope")])])];
  doc_bad_request := true |}.
Definition api_tokenFactoryToken : endpoint := {|
  version := "2.0";
  swaggerApiPath := "/factory/token";
  httpMethod := None;
  rpcMethod := Some "get.factory.token";
  tags := ["TokenFactory"];
  params := [
    ("tokenIds", SO [("optional", SV (Bool true)); ("type", SV (Str "string"))]);
    ("offset", SO [("optional", SV (Bool true)); ("type", SV (Str "number"))]);
    ("limit", SO [("optional", SV (Bool true)); ("type", SV (Str "number"))])];
  paramsRequired := false;
  validParamPairings := [];
  esource := source_tokenFactoryToken;
  envelope := std_envelope;
  eTag := Str "strong";
  doc_method := "get";
  doc_summary := "Returns list of token which created by Token Factory module";
  doc_description := "Returns list of token which created by Token Factory module";
  doc_params := FromParams;
  doc_first_param := None;
  doc_responses := [
      ("200", Object [
        ("description", Str "Returns list of token which created by Token Factory module");
        ("schema", Object [("$ref", Str "#/definitions/TokenFactoryTokenWithEnvelope")])])];
  doc_bad_request := true |}.
Definition api_validator : endpoint := {|
  version := "2.0";
  swaggerApiPath := "/validator";
  httpMethod := None;
  rpcMethod := Some "get.validator";
  tags := ["Validator"];
  params := [
    ("address", SO [("optional", SV (Bool false)); ("type", SV (Str "string")); ("min", SV (Num 41)); ("max", SV (Num 41)); ("pattern", SRe Regex.ADDRESS_KLAYR32); ("altSwaggerKey", SV (Str "addressRequired"))])];
  paramsRequired := false;
  validParamPairings := [];
  esource := source_validator;
  envelope := [];
  eTag := Str "strong";
  doc_method := "get";
  doc_summary := "Requests validator information";
  doc_description := "Returns validator information";
  doc_params := FromParams;
  doc_first_param := None;
  doc_responses := [
      ("200", Object [
        ("description", Str "Returns validator information by address");
        ("schema", Object [("$ref", Str "#/definitions/validatorWithEnvelope")])])];
  doc_bad_request := true |}.
Definition api_validatorValidateBLSKey : endpoint := {|
  version := "2.0";
  swaggerApiPath := "/validator/validate-bls-key";
  httpMethod := Some "POST";
  rpcMethod := Some "post.validator.validate-bls-key";
  tags := ["Validator"];
  params := [
    ("blsKey", SO [("optional", SV (Bool false)); ("type", SV (Str "string")); ("pattern", SRe Regex.BLS_KEY)]);
    ("proofOfPossession", SO [("optional", SV (Bool false)); ("type", SV (Str "string")); ("pattern", SRe Regex.PROOF_OF_POSSESSION)])];
  paramsRequired := false;
  validParamPairings := [];
  esource := source_validatorValidateBLSKey;
  envelope := std_envelope;
  eTag := Str "strong";
  doc_method := "post";
  doc_summary := "Validates a BLS key against its corresponding Proof of Possession.";
  doc_description := "Validates a BLS key against its corresponding Proof of Possession.";
  doc_params := Listed [Object [("$ref", Str "#/parameters/validateBLSKeyParams")]];
  doc_first_param := None;
  doc_responses := [
      ("200", Object [
        ("description", Str "Returns a boolean representing the validity of the supplied BLS key and Proof of Possession.");
        ("schema", Object [("$ref", Str "#/definitions/blsKeyValidationWithEnvelope")])])];
  doc_bad_request := true |}.
Definition api_networkPeers : endpoint := {|
  version := "2.0";
  swaggerApiPath := "/network/peers";
  httpMethod := None;
  rpcMethod := Some "get.network.peers";
  tags := ["Network"];
  params := [
    ("ip", SO [("optional", SV (Bool true)); ("type", SV (Str "string")); ("pattern", SRe Regex.IP)]);
    ("networkVersion", SO [("optional", SV (Bool true)); ("type", SV (Str "string")); ("pattern", SRe Regex.NETWORK_VERSION)]);
    ("state", SO [("optional", SV (Bool true)); ("type", SV (Str "string")); ("enum", SV (Arr [Str "connected"; Str "disconnected"; Str "any"])); ("default", SV (Str "any")); ("lowercase", SV (Bool true))]);
    ("height", SO [("optional", SV (Bool true)); ("min", SV (Num 0)); ("type", SV (Str "number")); ("integer", SV (Bool true)); ("altSwaggerKey", SV (Str "heightWithoutRange"))]);
    ("limit", SO [("optional", SV (Bool true)); ("min", SV (Num 1)); ("max", SV (Num 100)); ("type", SV (Str "number")); ("integer", SV (Bool true)); ("default", SV (Num 10))]);
    ("offset", SO [("optional", SV (Bool true)); ("min", SV (Num 0)); ("type", SV (Str "number")); ("integer", SV (Bool true)); ("default", SV (Num 0))]);
    ("sort", SO [("optional", SV (Bool true)); ("type", SV (Str "string")); ("enum", SV (Arr [Str "height:asc"; Str "height:desc"; Str "networkVersion:asc"; Str "networkVersion:desc"])); ("default", SV (Str "height:desc"))])];
  paramsRequired := false;
  validParamPairings := [];
  esource := source_networkPeers;
  envelope := std_envelope;
  eTag := Str "strong";
  doc_method := "get";
  doc_summary := "Requests peers data";
  doc_description := "Returns peers data";
  doc_params := FromParams;
  doc_first_param := None;
  doc_responses := [
      ("200", Object [
        ("description", Str "Returns a list of peer nodes in the network");
        ("schema", Object [("$ref", Str "#/definitions/PeersWithEnvelope")])])];
  doc_bad_request := true |}.
Definition api_networkStatistics : endpoint := {|
  version := "2.0";
  swaggerApiPath := "/network/statistics";
  httpMethod := None;
  rpcMethod := Some "get.network.statistics";
  tags := ["Network"];
  params := [];
  paramsRequired := false;
  validParamPairings := [];
  esource := source_networkStatistics;
  envelope := std_envelope;
  eTag := Str "strong";
  doc_method := "get";
  doc_summary := "Requests network statistics";
  doc_description := "Returns network statistics data";
  doc_params := NoParameters;
  doc_first_param := None;
  doc_responses := [
      ("200", Object [
        ("description", Str "Returns the network statistics information");
        ("schema", Object [("$ref", Str "#/definitions/NetworkStatistics")])]);
      ("503", Object [
        ("description", Str "Service Unavailable");
        ("schema", Object [("$ref", Str "#/definitions/serviceUnavailable")])])];
  doc_bad_request := false |}.
Definition api_networkStatus : endpoint := {|
  version := "2.0";
  swaggerApiPath := "/network/status";
  httpMethod := None;
  rpcMethod := Some "get.network.status";
  tags := ["Network"];
  params := [];
  paramsRequired := false;
  validParamPairings := [];
  esource := source_networkStatus;
  envelope := [];
  eTag := Str "strong";
  doc_method := "get";
  doc_summary := "Requests network status";
  doc_description := "Returns network status";
  doc_params := NoParameters;
  doc_first_param := None;
  doc_responses := [
      ("200", Object [
        ("description", Str "Returns the network status information");
        ("schema", Object [("$ref", Str "#/definitions/NetworkStatus")])])];
  doc_bad_request := false |}.
Definition api_postTransactions : endpoint := {|
  version := "2.0";
  swaggerApiPath := "/transactions";
  httpMethod := Some "POST";
  rpcMethod := Some "post.transactions";
  tags := ["Transactions"];
  params := [
    ("transaction", SO [("optional", SV (Bool false)); ("type", SV (Str "string")); ("min", SV (Num 1)); ("pattern", SRe Regex.TRANSACTION)])];
  paramsRequired := false;
  validParamPairings := [];
  esource := source_postTransactions;
  envelope := [];
  eTag := Str "strong";
  doc_method := "post";
  doc_summary := "Post transactions";
  doc_description := "Post transactions and return transactionID";
  doc_params := Listed [Object [("$ref", Str "#/parameters/transaction")]];
  doc_first_param := None;
  doc_responses := [
      ("200", Object [
        ("description", Str "Broadcast transaction");
        ("schema", Object [("$ref", Str "#/definitions/postTransactionWithEnvelope")])]);
      ("400", Object [
        ("description", Str "Bad request");
        ("schema", Object [("$ref", Str "#/definitions/badRequestEnvelope")])]);
      ("500", Object [
        ("description", Str "Internal server error");
        ("schema", Object [("$ref", Str "#/definitions/serverErrorEnvelope")])])];
  doc_bad_request := false |}.
Definition api_schemas : endpoint := {|
  version := "2.0";
  swaggerApiPath := "/schemas";
  httpMethod := None;
  rpcMethod := Some "get.schemas";
  tags := ["Schemas"];
  params := [];
  paramsRequired := false;
  validParamPairings := [];
  esource := source_schemas;
  envelope := std_envelope;
  eTag := Str "strong";
  doc_method := "get";
  doc_summary := "Requests schemas.";
  doc_description := "Returns schemas.";
  doc_params := NoParameters;
  doc_first_param := None;
  doc_responses := [
      ("200", Object [
        ("description", Str "Returns a list of schemas.");
        ("schema", Object [("$ref", Str "#/definitions/SchemaWithEnvelope")])])];
  doc_bad_request := true |}.
Definition api_spec : endpoint := {|
  version := "2.0";
  swaggerApiPath := "/spec";
  httpMethod := None;
  rpcMethod := None;
  tags := [];
  params := [];
  paramsRequired := false;
  validParamPairings := [];
  esource := {|
    src_type := "moleculer";
    src_method := "gateway.spec";
    src_params := Object [];
    src_definition := Object [
      ("swagger", Str "=");
      ("info", Str "=");
      ("basePath", Str "=");
      ("tags", Str "=");
      ("schemes", Str "=");
      ("paths", Str "=");
      ("parameters", Str "=");
      ("definitions", Str "=");
      ("responses", Str "=")] |};
  envelope := [];
  eTag := Str "strong";
  doc_method := "";
  doc_summary := "";
  doc_description := "";
  doc_params := NoParameters;
  doc_first_param := None;
  doc_responses := [];
  doc_bad_request := false |}.
Definition api_transactions : endpoint := {|
  version := "2.0";
  swaggerApiPath := "/transactions";
  httpMethod := None;
  rpcMethod := Some "get.transactions";
  tags := ["Transactions"];
  params := [
    ("transactionID", SO [("optional", SV (Bool true)); ("type", SV (Str "string")); ("min", SV (Num 64)); ("max", SV (Num 64)); ("pattern", SRe Regex.HASH_SHA256)]);
    ("moduleCommand", SO [("optional", SV (Bool true)); ("type", SV (Str "string")); ("min", SV (Num 1)); ("pattern", SRe Regex.MODULE_COMMAND)]);
    ("senderAddress", SO [("optional", SV (Bool true)); ("type", SV (Str "string")); ("min", SV (Num 41)); ("max", SV (Num 41)); ("pattern", SRe Regex.ADDRESS_KLAYR32)]);
    ("address", SO [("optional", SV (Bool true)); ("type", SV (Str "string")); ("min", SV (Num 41)); ("max", SV (Num 41)); ("pattern", SRe Regex.ADDRESS_KLAYR32); ("altSwaggerKey", SV (Str "senderAndRecipientAddress"))]);
    ("recipientAddress", SO [("optional", SV (Bool true)); ("type", SV (Str "string")); ("min", SV (Num 41)); ("max", SV (Num 41)); ("pattern", SRe Regex.ADDRESS_KLAYR32)]);
    ("receivingChainID", SO [("optional", SV (Bool true)); ("type", SV (Str "string")); ("pattern", SRe Regex.CHAIN_ID)]);
    ("blockID", SO [("optional", SV (Bool true)); ("type", SV (Str "string")); ("min", SV (Num 64)); ("max", SV (Num 64)); ("pattern", SRe Regex.HASH_SHA256)]);
    ("height", SO [("optional", SV (Bool true)); ("type", SV (Str "string")); ("min", SV (Num 1)); ("pattern", SRe Regex.HEIGHT_RANGE)]);
    ("timestamp", SO [("optional", SV (Bool true)); ("type", SV (Str "string")); ("min", SV (Num 1)); ("pattern", SRe Regex.TIMESTAMP_RANGE)]);
    ("executionStatus", SO [("optional", SV (Bool true)); ("type", SV (Str "string")); ("pattern", SRe Regex.TRANSACTION_EXECUTION_STATUS); ("default", SV (Str "pending,successful,failed"))]);
    ("nonce", SO [("optional", SV (Bool true)); ("type", SV (Str "string")); ("min", SV (Num 1)); ("pattern", SRe Regex.NONCE)]);
    ("limit", SO [("optional", SV (Bool true)); ("type", SV (Str "number")); ("min", SV (Num 1)); ("max", SV (Num 100)); ("default", SV (Num 10))]);
    ("offset", SO [("optional", SV (Bool true)); ("type", SV (Str "number")); ("min", SV (Num 0)); ("default", SV (Num 0))]);
    ("sort", SO [("optional", SV (Bool true)); ("type", SV (Str "string")); ("enum", SV (Arr [Str "height:asc"; Str "height:desc"; Str "timestamp:asc"; Str "timestamp:desc"])); ("default", SV (Str "timestamp:desc"))]);
    ("order", SO [("optional", SV (Bool true)); ("type", SV (Str "string")); ("enum", SV (Arr [Str "index:asc"; Str "index:desc"])); ("default", SV (Str "index:asc"))])];
  paramsRequired := false;
  validParamPairings := [];
  esource := source_transactions;
  envelope := std_envelope;
  eTag := Str "strong";
  doc_method := "get";
  doc_summary := "Requests transactions data";
  doc_description := "Returns transactions data";
  doc_params := FromParams;
  doc_first_param := None;
  doc_responses := [
      ("200", Object [
        ("description", Str "Returns a list of transactions");
        ("schema", Object [("$ref", Str "#/definitions/TransactionsWithEnvelope")])])];
  doc_bad_request := true |}.
Definition api_transactionsDryRun : endpoint := {|
  version := "2.0";
  swaggerApiPath := "/transactions/dryrun";
  httpMethod := Some "POST";
  rpcMethod := Some "post.transactions.dryrun";
  tags := ["Transactions"];
  params := [
    ("transaction", SA [SO [("optional", SV (Bool false)); ("type", SV (Str "string"))]; SO [("optional", SV (Bool false)); ("type", SV (Str "object")); ("props", SO [("id", SO [("type", SV (Str "string")); ("pattern", SRe Regex.HASH_SHA256)]); ("module", SO [("type", SV (Str "string")); ("pattern", SRe Regex.MODULE)]); ("command", SO [("type", SV (Str "string")); ("pattern", SRe Regex.COMMAND)]); ("fee", SO [("type", SV (Str "string")); ("pattern", SRe Regex.FEE)]); ("nonce", SO [("type", SV (Str "string")); ("min", SV (Num 1)); ("pattern", SRe Regex.NONCE)]); ("senderPublicKey", SO [("type", SV (Str "string")); ("pattern", SRe Regex.PUBLIC_KEY)]); ("signatures", SO [("type", SV (Str "array")); ("optional", SV (Bool true)); ("min", SV (Num 0)); ("items", SO [("type", SV (Str "string")); ("pattern", SRe Regex.HASH_SHA512)])]); ("params", SO [("type", SV (Str "object")); ("optional", SV (Bool false)); ("minProps", SV (Num 0))])])]]);
    ("skipVerify", SO [("optional", SV (Bool true)); ("type", SV (Str "boolean")); ("default", SV (Bool false))]);
    ("skipDecode", SO [("optional", SV (Bool true)); ("type", SV (Str "boolean")); ("default", SV (Bool false))]);
    ("strict", SO [("optional", SV (Bool true)); ("type", SV (Str "boolean")); ("default", SV (Bool false))])];
  paramsRequired := false;
  validParamPairings := [];
  esource := source_transactionsDryRun;
  envelope := std_envelope;
  eTag := Str "strong";
  doc_method := "post";
  doc_summary := "Dry run transactions.";
  doc_description := "Dry run transactions.";
  doc_params := Listed [Object [("$ref", Str "#/parameters/dryrunTransaction")]];
  doc_first_param := None;
  doc_responses := [
      ("200", Object [
        ("description", Str "Dry run transactions. 'errorMessage' is available only when 'result: -1'.");
        ("schema", Object [("$ref", Str "#/definitions/dryTransactionWithEnvelope")])]);
      ("400", Object [
        ("description", Str "Bad request");
        ("schema", Object [("$ref", Str "#/definitions/badRequest")])]);
      ("500", Object [
        ("description", Str "Internal server error");
        ("schema", Object [("$ref", Str "#/definitions/serverErrorEnvelope")])])];
  doc_bad_request := false |}.
Definition api_transactionsEstimateFees : endpoint := {|
  version := "2.0";
  swaggerApiPath := "/transactions/estimate-fees";
  httpMethod := Some "POST";
  rpcMethod := Some "post.transactions.estimate-fees";
  tags := ["Transactions"];
  params := [
    ("transaction", SO [("optional", SV (Bool false)); ("type", SV (Str "object")); ("props", SO [("id", SO [("optional", SV (Bool true)); ("type", SV (Str "string")); ("pattern", SRe Regex.HASH_SHA256)]); ("module", SO [("optional", SV (Bool false)); ("type", SV (Str "string")); ("pattern", SRe Regex.MODULE)]); ("command", SO [("optional", SV (Bool false)); ("type", SV (Str "string")); ("pattern", SRe Regex.COMMAND)]); ("fee", SO [("optional", SV (Bool true)); ("type", SV (Str "string")); ("pattern", SRe Regex.FEE)]); ("nonce", SO [("optional", SV (Bool false)); ("type", SV (Str "string")); ("pattern", SRe Regex.NONCE)]); ("senderPublicKey", SO [("optional", SV (Bool false)); ("type", SV (Str "string")); ("pattern", SRe Regex.PUBLIC_KEY)]); ("signatures", SO [("optional", SV (Bool true)); ("type", SV (Str "array")); ("min", SV (Num 0)); ("items", SO [("type", SV (Str "string")); ("pattern", SRe Regex.HASH_SHA512)])]); ("params", SO [("optional", SV (Bool false)); ("type", SV (Str "object")); ("minProps", SV (Num 0))])]); ("altSwaggerKey", SV (Str "transactionEstimateFees"))])];
  paramsRequired := false;
  validParamPairings := [];
  esource := source_transactionsEstimateFees;
  envelope := std_envelope;
  eTag := Str "strong";
  doc_method := "post";
  doc_summary := "Requests estimated fees for the transaction.";
  doc_description := "Returns estimated fees for the transaction.";
  doc_params := Listed [Object [("$ref", Str "#/parameters/transactionEstimateFees")]];
  doc_first_param := None;
  doc_responses := [
      ("200", Object [
        ("description", Str "Returns estimated fees for the given transaction.");
        ("schema", Object [("$ref", Str "#/definitions/txEstimateFeesWithEnvelope")])]);
      ("400", Object [
        ("description", Str "Bad request");
        ("schema", Object [("$ref", Str "#/definitions/badRequest")])]);
      ("500", Object [
        ("description", Str "Internal server error");
        ("schema", Object [("$ref", Str "#/definitions/serverErrorEnvelope")])])];
  doc_bad_request := false |}.
Definition api_transactionsStatistics : endpoint := {|
  version := "2.0";
  swaggerApiPath := "/transactions/statistics";
  httpMethod := None;
  rpcMethod := Some "get.transactions.statistics";
  tags := ["Transactions"];
  params := [
    ("interval", SO [("optional", SV (Bool false)); ("type", SV (Str "string")); ("enum", SV (Arr [Str "day"; Str "month"]))]);
    ("limit", SO [("optional", SV (Bool true)); ("type", SV (Str "number")); ("min", SV (Num 1)); ("max", SV (Num 100)); ("default", SV (Num 10))]);
    ("offset", SO [("optional", SV (Bool true)); ("type", SV (Str "number")); ("min", SV (Num 0)); ("default", SV (Num 0))])];
  paramsRequired := false;
  validParamPairings := [];
  esource := source_transactionsStatistics;
  envelope := std_envelope;
  eTag := Str "strong";
  doc_method := "get";
  doc_summary := "Requests transaction statistics";
  doc_description := "Returns transaction statistics";
  doc_params := FromParams;
  doc_first_param := Some (Object [
    ("name", Str "interval");
    ("in", Str "query");
    ("description", Str "interval to query statistics");
    ("required", Bool true);
    ("type", Str "string");
    ("enum", Arr [Str "day"; Str "month"])]);
  doc_responses := [
      ("200", Object [
        ("description", Str "Returns a list of transactions statistics by date or month");
        ("schema", Object [("$ref", Str "#/definitions/TransactionsStatisticsWithEnvelope")])]);
      ("503", Object [
        ("description", Str "Service Unavailable");
        ("schema", Object [("$ref", Str "#/definitions/serviceUnavailable")])])];
  doc_bad_request := true |}.

(** ** The files a route loads: common endpoints, then those of the registered modules. *)
Definition exports_methods : list (string * endpoint) := [
  ("export", api_export);
  ("scheduleExport", api_scheduleExport)].
Definition status_methods : list (string * endpoint) := [
  ("ready", api_ready);
  ("status", api_status)].
Definition test_methods : list (string * endpoint) := [
  ("errorClient", api_errorClient);
  ("errorServer", api_errorServer);
  ("helloAsync", api_helloAsync);
  ("helloGeneric", api_helloGeneric);
  ("helloParams", api_helloParams)].
Definition version3_methods : list (string * endpoint) := [
  ("blockAssets", api_blockAssets);
  ("blockchainApps", api_blockchainApps);
  ("blockchainAppsMetaList", api_blockchainAppsMetaList);
  ("blockchainAppsMetadata", api_blockchainAppsMetadata);
  ("blockchainAppsStatistics", api_blockchainAppsStatistics);
  ("blockchainAppsTokenMetadata", api_blockchainAppsTokenMetadata);
  ("blockchainAppsTokenSupportedMetadata", api_blockchainAppsTokenSupportedMetadata);
  ("blocks", api_blocks);
  ("events", api_events);
  ("fees", api_fees);
  ("generators", api_generators);
  ("indexStatus", api_indexStatus);
  ("invoke", api_invoke);
  ("market", api_market);
  ("networkPeers", api_networkPeers);
  ("networkStatistics", api_networkStatistics);
  ("networkStatus", api_networkStatus);
  ("postTransactions", api_postTransactions);
  ("schemas", api_schemas);
  ("spec", api_spec);
  ("transactions", api_transactions);
  ("transactionsDryRun", api_transactionsDryRun);
  ("transactionsEstimateFees", api_transactionsEstimateFees);
  ("transactionsStatistics", api_transactionsStatistics)].
Definition version3_auth_methods : list (string * endpoint) := [
  ("auth", api_auth)].
Definition version3_dex_methods : list (string * endpoint) := [
  ("dexPool", api_dexPool);
  ("dexPoolTick", api_dexPoolTick);
  ("dexPosition", api_dexPosition);
  ("dexPositionMetadata", api_dexPositionMetadata);
  ("dexPositionValue", api_dexPositionValue);
  ("dexPriceOhlc", api_dexPriceOhlc);
  ("dexPriceTick", api_dexPriceTick);
  ("dexQuotePrice", api_dexQuotePrice);
  ("dexQuoteSwap", api_dexQuoteSwap);
  ("dexRoute", api_dexRoute);
  ("dexStatistics", api_dexStatistics);
  ("dexToken", api_dexToken);
  ("dexTokenCompact", api_dexTokenCompact)].
Definition version3_dynamicReward_methods : list (string * endpoint) := [
  ("rewardAnnualInflation", api_rewardAnnualInflation);
  ("rewardConstants", api_rewardConstants);
  ("rewardDefault", api_rewardDefault)].
Definition version3_legacy_methods : list (string * endpoint) := [
  ("legacyAccounts", api_legacyAccounts)].
Definition version3_pos_methods : list (string * endpoint) := [
  ("posClaimableRewards", api_posClaimableRewards);
  ("posConstants", api_posConstants);
  ("posRewardsLocked", api_posRewardsLocked);
  ("posStakers", api_posStakers);
  ("posStakes", api_posStakes);
  ("posUnlocks", api_posUnlocks);
  ("posValidators", api_posValidators)].
Definition version3_token_methods : list (string * endpoint) := [
  ("tokenAccountExists", api_tokenAccountExists);
  ("tokenAvailableIDs", api_tokenAvailableIDs);
  ("tokenBalances", api_tokenBalances);
  ("tokenConstants", api_tokenConstants);
  ("tokenSummary", api_tokenSummary);
  ("tokenTopBalances", api_tokenTopBalances)].
Definition version3_tokenFactory_methods : list (string * endpoint) := [
  ("tokenFactoryAvailable", api_tokenFactoryAvailable);
  ("tokenFactoryMeta", api_tokenFactoryMeta);
  ("tokenFactoryStatistics", api_tokenFactoryStatistics);
  ("tokenFactoryToken", api_tokenFactoryToken)].
Definition version3_validators_methods : list (string * endpoint) := [
  ("validator", api_validator);
  ("validatorValidateBLSKey", api_validatorValidateBLSKey)].

(** [/v3] with every module registered. *)
Definition v3_methods : list (string * endpoint) :=
  getAllAPIs (version3_methods ++ version3_auth_methods ++ version3_dex_methods ++ version3_dynamicReward_methods ++ version3_legacy_methods ++ version3_pos_methods ++ version3_token_methods ++ version3_tokenFactory_methods ++ version3_validators_methods ++ exports_methods).

