(* ===== verification/GatewaySpec.v ===== *)
(** * What the gateway promises

    Requests: which parameters reach a service, and with which values.
    Responses: every field has the shape and type its definition names.
    Routes: every endpoint is reachable under its own path and method. *)
From S2P Require Import Prelude JsValue Regex Mapper GatewayMappings GatewaySources Gateway GatewayApi.
From Stdlib Require Import Ascii.
Local Open Scope Z_scope.

(** ** Association lists *)
Lemma aget_aset_eq {A} (o : list (string * A)) k v : aget (aset o k v) k = Some v.
Proof.
  induction o as [|[j w] o IH]; simpl; [by rewrite String.eqb_refl|].
  destruct (String.eqb j k) eqn:E; simpl; by rewrite E.
Qed.

Lemma aget_aset_ne {A} (o : list (string * A)) k j v : k <> j -> aget (aset o k v) j = aget o j.
Proof.
  intros Hne. induction o as [|[i w] o IH]; simpl.
  - by destruct (String.eqb_spec k j).
  - destruct (String.eqb_spec i k) as [->|]; simpl; [by destruct (String.eqb_spec k j)|by rewrite IH].
Qed.

(** A table filled under distinct keys holds every entry under its key. *)
Lemma aget_fill {A B} (key : A -> string) (value : A -> B) (l : list A) (acc : list (string * B)) x :
  NoDup (key <$> l) -> x ∈ l ->
  aget (foldl (fun acc a => aset acc (key a) (value a)) acc l) (key x) = Some (value x).
Proof.
  assert (Hkeep : forall l acc k, k ∉ key <$> l ->
    aget (foldl (fun acc a => aset acc (key a) (value a)) acc l) k = aget acc k).
  { clear. induction l as [|a l IH]; intros acc k Hk; [done|]. simpl. rewrite fmap_cons, not_elem_of_cons in Hk.
    rewrite IH by tauto. apply aget_aset_ne. intros E; subst; tauto. }
  revert acc; induction l as [|a l IH]; intros acc Hnd; [by intros ?%not_elem_of_nil|].
  rewrite fmap_cons in Hnd. apply NoDup_cons in Hnd as [Hni Hnd].
  intros [->|Hx]%elem_of_cons; simpl.
  - rewrite Hkeep by done. apply aget_aset_eq.
  - by apply IH.
Qed.

(** ** Requests *)

(** The value of a declared parameter: the default when the request has none
    (an empty text counts as none for numbers), numbers converted. *)
Definition param_value (s : spec) (input : val) : val :=
  if bool_decide (input = Undef) then sprop s "default"
  else if bool_decide (sprop s "type" = Str "number")
       then if bool_decide (input = Str "") then sprop s "default" else js_Number input
       else input.

(** Empty texts are dropped before the request is forwarded. *)
Definition non_empty (v : val) : val := if bool_decide (v = Str "") then Undef else v.

(** What the endpoint makes of parameter [q] of a request. *)
Definition requested (e : endpoint) (input : obj) (q : string) : val :=
  match aget (params e) q with
  | Some s => non_empty (param_value s (prop input q))
  | None => Undef
  end.

(** The request parameter and the type a source parameter asks for. *)
Definition request_key (k setup : string) : string :=
  match split_on "," setup with
  | orig :: _ => if String.eqb orig "=" then k else orig
  | [] => k
  end.
Definition request_type (setup : string) : option string :=
  match split_on "," setup with _ :: ty :: _ => Some ty | _ => None end.

(** [convertType], where the source asks for a type *)
Definition converted (v : val) (ty : option string) : result val :=
  match ty with Some ty => convertType v ty | None => Ok v end.

Lemma aget_elem {A} (o : list (string * A)) k v : NoDup (keys o) -> (k, v) ∈ o -> aget o k = Some v.
Proof.
  induction o as [|[j w] o IH]; [by intros _ ?%not_elem_of_nil|]. rewrite fmap_cons, NoDup_cons. intros [Hni Hnd].
  intros [[= -> ->]|Hin]%elem_of_cons; cbn [aget]; [by rewrite String.eqb_refl|].
  destruct (String.eqb_spec j k) as [->|]; [|by apply IH].
  exfalso. apply Hni, list_elem_of_fmap. by exists (k, v).
Qed.

Lemma aget_None {A} (o : list (string * A)) k : aget o k = None <-> k ∉ keys o.
Proof.
  induction o as [|[j w] o IH]; [split; [by intros _ ?%not_elem_of_nil|done]|].
  rewrite fmap_cons, not_elem_of_cons. cbn [aget fst]. destruct (String.eqb_spec j k); [naive_solver|].
  rewrite IH. naive_solver.
Qed.

(** A loop that writes property [key x] for every [x]. *)
Lemma prop_fill {A} (key : A -> string) (upd : obj -> A -> obj) l acc k :
  (forall acc x, key x <> k -> prop (upd acc x) k = prop acc k) ->
  k ∉ key <$> l -> prop (foldl upd acc l) k = prop acc k.
Proof.
  intros Hupd. revert acc; induction l as [|x l IH]; intros acc Hk; [done|].
  rewrite fmap_cons, not_elem_of_cons in Hk. cbn [foldl]. rewrite IH by tauto. apply Hupd. intros E; subst; tauto.
Qed.

Lemma prop_fill_at {A} (key : A -> string) (upd : obj -> A -> obj) l x :
  (forall k acc x, key x <> k -> prop (upd acc x) k = prop acc k) ->
  NoDup (key <$> l) -> x ∈ l ->
  exists acc, prop acc (key x) = Undef /\ prop (foldl upd [] l) (key x) = prop (upd acc x) (key x).
Proof.
  intros Hupd Hnd Hx. apply list_elem_of_split in Hx as (l1 & l2 & ->).
  rewrite fmap_app, fmap_cons in Hnd. apply NoDup_app in Hnd as (_ & Hd & [Hn _]%NoDup_cons).
  exists (foldl upd [] l1). rewrite foldl_app. cbn [foldl]. split.
  - rewrite (prop_fill key) by (auto; intros Hin; apply (Hd _ Hin); by left). done.
  - by rewrite (prop_fill key) by auto.
Qed.

Lemma parseAllParams_value rp req k s :
  NoDup (keys rp) -> (k, s) ∈ rp -> prop (parseAllParams rp req) k = param_value s (prop req k).
Proof.
  intros Hnd Hin. unfold parseAllParams.
  match goal with |- prop (foldl ?u [] _) _ = _ =>
    destruct (prop_fill_at fst u rp (k, s)) as (acc & Hacc & E); [|exact Hnd|exact Hin|] end.
  - intros j acc' [k' s'] Hne. cbn [fst] in Hne. repeat case_bool_decide; by rewrite ?prop_set_ne by done.
  - cbn [fst] in *. rewrite E. unfold param_value. repeat case_bool_decide; rewrite ?prop_set_eq; congruence.
Qed.

Lemma parseAllParams_keys rp req k : k ∈ keys (parseAllParams rp req) -> k ∈ keys rp.
Proof.
  unfold parseAllParams.
  assert (H : forall acc, k ∈ keys (foldl (fun acc '(cur, s) =>
    let acc := if bool_decide (sprop s "default" = Undef) then acc else set_prop acc cur (sprop s "default") in
    let input := prop req cur in
    if bool_decide (input = Undef) then acc
    else if bool_decide (sprop s "type" = Str "number")
         then set_prop acc cur (if bool_decide (input = Str "") then prop acc cur else js_Number input)
         else set_prop acc cur input) acc rp) -> k ∈ keys acc \/ k ∈ keys rp).
  { induction rp as [|[j s] rp IH]; intros acc Hk; [by left|]. rewrite fmap_cons, elem_of_cons. cbn [foldl fst] in *.
    apply IH in Hk as [Hk|]; [|tauto]. cbv zeta in Hk.
    repeat case_bool_decide; rewrite ?elem_of_keys_set_prop in Hk; tauto. }
  intros [Hn|]%H; [by apply not_elem_of_nil in Hn|done].
Qed.

(** Writing properties keeps their names apart. *)
Lemma NoDup_fill {A} (upd : obj -> A -> obj) l acc :
  (forall acc x, NoDup (keys acc) -> NoDup (keys (upd acc x))) -> NoDup (keys acc) -> NoDup (keys (foldl upd acc l)).
Proof. intros Hu. revert acc; induction l as [|x l IH]; intros acc Hacc; [done|]. cbn [foldl]. auto. Qed.

Lemma NoDup_parseAllParams rp req : NoDup (keys (parseAllParams rp req)).
Proof.
  apply NoDup_fill; [|constructor]. intros acc [k s] Hacc. cbv zeta.
  repeat case_bool_decide; auto using NoDup_set_prop.
Qed.

(** The valid parameters are the declared ones that have a value. *)
Lemma parseParams_valid swagger input k : NoDup (keys swagger) ->
  prop (fst (parseParams swagger input)) k = prop swagger k.
Proof.
  intros Hnd. unfold parseParams. cbn [fst].
  set (upd := fun acc param => set_prop acc param _).
  assert (Hne : forall k acc x, id x <> k -> prop (upd acc x) k = prop acc k)
    by (intros j acc x Hj; apply prop_set_ne, Hj).
  destruct (decide (prop swagger k = Undef)) as [E|E].
  - rewrite E. rewrite (prop_fill id) by (auto; rewrite list_fmap_id, list_elem_of_filter; naive_solver). done.
  - assert (Hk : k ∈ filter (fun k => prop swagger k <> Undef) (keys swagger))
      by (apply list_elem_of_filter; split; [done|by apply prop_keys]).
    destruct (prop_fill_at id upd (filter (fun k => prop swagger k <> Undef) (keys swagger)) k Hne) as (acc & _ & Hp);
      [|exact Hk|].
    + rewrite list_fmap_id. by apply NoDup_filter.
    + cbn [id] in Hp. rewrite Hp. unfold upd. rewrite prop_set_eq. by destruct (_ && _).
Qed.

Lemma parseParams_unknown swagger input :
  length (snd (parseParams swagger input)) = 0%nat -> forall k, k ∈ keys input -> k ∈ keys swagger.
Proof.
  unfold parseParams. cbn [snd]. intros Hlen k Hk. apply nil_length_inv in Hlen.
  destruct (decide (k ∈ keys swagger)) as [|Hn]; [done|]. exfalso.
  assert (Hin : k ∈ filter (fun k => k ∉ keys swagger) (keys (spread swagger input)))
    by (apply list_elem_of_filter; split; [done|]; apply keys_spread; by right).
  assert (Hall : forall l acc, k ∈ l \/ k ∈ keys acc ->
    k ∈ keys (foldl (fun acc k => set_prop acc k (prop input k)) acc l)).
  { induction l as [|j l IH]; intros acc [H|H]; [by apply not_elem_of_nil in H|done|..]; cbn [foldl]; apply IH.
    - apply elem_of_cons in H as [->|H]; [|by left]. right. apply elem_of_keys_set_prop. by left.
    - right. apply elem_of_keys_set_prop. by right. }
  pose proof (Hall _ [] (or_introl Hin)) as H. rewrite Hlen in H. by apply not_elem_of_nil in H.
Qed.

Lemma prop_dropEmptyProps p k : NoDup (keys p) -> prop (dropEmptyProps p) k = non_empty (prop p k).
Proof.
  intros Hnd. unfold dropEmptyProps, non_empty.
  match goal with |- prop (foldl ?u [] _) _ = _ => set (upd := u) end.
  assert (Hne : forall k acc x, fst x <> k -> prop (upd acc x) k = prop acc k).
  { intros j acc [i v] Hj. unfold upd. case_bool_decide; [done|]. by apply prop_set_ne. }
  destruct (decide (k ∈ keys p)) as [Hk|Hk].
  - apply list_elem_of_fmap in Hk as ([j v] & -> & Hin). cbn [fst].
    destruct (prop_fill_at fst upd p (j, v) Hne Hnd Hin) as (acc & Hacc & E). cbn [fst] in E, Hacc. rewrite E.
    rewrite (prop_elem _ _ _ Hnd Hin). unfold upd. case_bool_decide; [done|]. by rewrite prop_set_eq.
  - rewrite (prop_fill fst) by auto. rewrite (prop_not_key p) by done. done.
Qed.

Lemma keys_dropEmptyProps p k : k ∈ keys (dropEmptyProps p) -> k ∈ keys p.
Proof.
  unfold dropEmptyProps.
  assert (H : forall acc, k ∈ keys (foldl (fun acc '(cur, v) =>
    if bool_decide (v = Str "") then acc else set_prop acc cur v) acc p) -> k ∈ keys acc \/ k ∈ keys p).
  { induction p as [|[j v] p IH]; intros acc Hk; [by left|]. rewrite fmap_cons, elem_of_cons. cbn [foldl fst] in *.
    apply IH in Hk as [Hk|]; [|tauto]. case_bool_decide; rewrite ?elem_of_keys_set_prop in Hk; tauto. }
  intros [Hn|]%H; [by apply not_elem_of_nil in Hn|done].
Qed.

Lemma convertType_ok v ty : v <> Null -> exists w, convertType v ty = Ok w.
Proof. intros Hv. unfold convertType. destruct v; try done; simpl; repeat case_match; eauto. Qed.

(** A source parameter cannot be converted: it has a type and its value is null. *)
Definition unconvertible (source : obj) (k setup : string) : Prop :=
  request_type setup <> None /\ prop source (request_key k setup) = Null.

Lemma split_not_nil c s : split_on c s <> [].
Proof. destruct s as [|a t]; simpl; [done|]. destruct (Ascii.eqb a c); [done|]. by destruct (split_on c t). Qed.

Lemma mapParamWithType_spec source setup k : k <> "" ->
  (~ unconvertible source k setup /\
   exists w, converted (prop source (request_key k setup)) (request_type setup) = Ok w /\
             mapParamWithType source setup k = Ok (Some (k, w))) \/
  (unconvertible source k setup /\ exists err, mapParamWithType source setup k = Throw err).
Proof.
  intros Hk. unfold unconvertible, mapParamWithType, mapParam, request_key, request_type, converted in *.
  rewrite (proj2 (String.eqb_neq k "")) by done.
  destruct (split_on "," setup) as [|orig [|ty l]] eqn:E; [by apply split_not_nil in E|left|].
  - split; [by intros [? _]|eauto].
  - cbn [snd]. destruct (decide (prop source (if String.eqb orig "=" then k else orig) = Null)) as [En|Hv].
    + right. split; [done|]. rewrite En. eauto.
    + left. split; [by intros [_ ?]|]. destruct (convertType_ok _ ty Hv) as (w & Hw). exists w. by rewrite Hw.
Qed.

(** Every source parameter is set, and nothing else, unless one of them cannot
    be converted. *)
Lemma transformParams_spec sp source :
  NoDup (keys sp) -> (forall k v, (k, v) ∈ sp -> k <> "" /\ exists setup, v = Str setup) ->
  ((forall k setup, (k, Str setup) ∈ sp -> ~ unconvertible source k setup) /\
   exists out, transformParams source (Object sp) = Ok out /\ keys out = keys sp /\
     forall k setup, (k, Str setup) ∈ sp ->
       converted (prop source (request_key k setup)) (request_type setup) = Ok (prop out k)) \/
  ((exists k setup, (k, Str setup) ∈ sp /\ unconvertible source k setup) /\
   exists err, transformParams source (Object sp) = Throw err).
Proof.
  intros Hnd Hsp. unfold transformParams. cbv zeta.
  match goal with |- context [foldM ?u _ _] => set (upd := u) end.
  assert (Hgo : forall l acc, NoDup (keys acc ++ keys l) ->
    (forall k v, (k, v) ∈ l -> k <> "" /\ exists setup, v = Str setup) ->
    ((forall k setup, (k, Str setup) ∈ l -> ~ unconvertible source k setup) /\
     exists out, foldM upd acc l = Ok out /\ keys out = keys acc ++ keys l /\
      (forall k, k ∉ keys l -> prop out k = prop acc k) /\
      forall k setup, (k, Str setup) ∈ l ->
        converted (prop source (request_key k setup)) (request_type setup) = Ok (prop out k)) \/
    ((exists k setup, (k, Str setup) ∈ l /\ unconvertible source k setup) /\ exists err, foldM upd acc l = Throw err)).
  { induction l as [|[k v] l IH]; intros acc Hd Hl.
    - left. split; [by intros ? ? ?%not_elem_of_nil|]. exists acc. rewrite app_nil_r. repeat split; try done. by intros ? ? ?%not_elem_of_nil.
    - destruct (Hl k v ltac:(by left)) as (Hk & setup & ->). cbn [foldM].
      destruct (mapParamWithType_spec source setup k Hk) as [(Hu & w & Hw & Hm)|(Hu & err & Hm)].
      2:{ right. split; [exists k, setup; split; [by left|done]|]. exists err.
          assert (upd acc (k, Str setup) = Throw err) as -> by (unfold upd; by rewrite Hm). done. }
      assert (upd acc (k, Str setup) = Ok (set_prop acc k w)) as -> by (unfold upd; by rewrite Hm).
      rewrite bind_ok.
      rewrite fmap_cons in Hd. pose proof Hd as (_ & Hdis & [Hni _]%NoDup_cons)%NoDup_app. cbn [fst] in *.
      assert (Hkey : keys (set_prop acc k w) = keys acc ++ [k]).
      { rewrite keys_set_prop. destruct (has_prop acc k) eqn:E; [|done].
        apply has_prop_elem, Hdis in E. destruct E. by left. }
      destruct (IH (set_prop acc k w)) as [(Hno & out & Hf & Hks & Hrest & Hvals)|[(j & su & Hj & Hju) Herr]].
      { by rewrite Hkey, <- (assoc (++)). }
      { intros j u Hj. apply Hl. by right. }
      + left. split; [intros j su [[= -> ->]|Hin]%elem_of_cons; auto|].
        exists out. split; [exact Hf|]. split; [by rewrite Hks, Hkey, <- (assoc (++)), fmap_cons|]. split.
        * intros j. rewrite fmap_cons, not_elem_of_cons. cbn [fst]. intros [Hj Hjl]. rewrite Hrest by done. by apply prop_set_ne.
        * intros j setup' [[= -> ->]|Hin]%elem_of_cons; [|by apply Hvals].
          rewrite Hrest by done. by rewrite prop_set_eq.
      + right. split; [exists j, su; split; [by right|done]|done]. }
  destruct (Hgo sp [] Hnd Hsp) as [(Hno & out & Hf & Hk & _ & Hv)|H]; [left; split; [done|by exists out]|by right].
Qed.

(** ** The endpoints of version 3 *)

(** What the request theorems need of an endpoint: distinct parameter names,
    and source parameters that are texts under distinct names. *)
Definition wf_request (e : endpoint) : bool :=
  bool_decide (NoDup (keys (params e))) &&
  match src_params (esource e) with
  | Object sp =>
      bool_decide (NoDup (keys sp)) &&
      forallb (fun kv => negb (String.eqb (fst kv) "") &&
                         match snd kv with Str _ => true | _ => false end) sp
  | _ => false
  end.

Definition v3_strong : list (string * endpoint) := strong_apis v3_methods.

Lemma v3_wf_request : forallb (fun kv => wf_request (snd kv)) v3_methods = true.
Proof. vm_compute. reflexivity. Qed.

Lemma v3_defaults :
  forallb (fun kv => forallb (fun p => negb (bool_decide (sprop (snd p) "default" = Null))) (params (snd kv))) v3_methods = true.
Proof. vm_compute. reflexivity. Qed.

Lemma v3_http_aliases : NoDup ((fun kv => route_alias true (snd kv)) <$> v3_strong).
Proof. apply (bool_decide_unpack _). vm_compute. exact I. Qed.

Lemma v3_rpc_aliases : NoDup ((fun kv => transformPath (default "" (rpcMethod (snd kv)))) <$> rpc_apis v3_methods).
Proof. apply (bool_decide_unpack _). vm_compute. exact I. Qed.

Lemma v3_strong_elem name e : (name, e) ∈ v3_strong -> (name, e) ∈ v3_methods.
Proof. unfold v3_strong, strong_apis. intros [_ H]%list_elem_of_filter. exact H. Qed.

Lemma v3_wf name e : (name, e) ∈ v3_methods -> wf_request e = true.
Proof. intros Hin%list_elem_of_In. pose proof v3_wf_request as H. rewrite forallb_forall in H. exact (H _ Hin). Qed.

Lemma v3_http_lookup name e : (name, e) ∈ v3_strong -> aget (methodPaths true v3_strong) (route_alias true e) = Some e.
Proof. intros Hin. exact (aget_fill (fun kv => route_alias true (snd kv)) snd _ [] _ v3_http_aliases Hin). Qed.

Section Requests.
Context `{FastestValidator}.

(** What the endpoint forwards, before renaming. *)
Lemma forwarded_value e input q : NoDup (keys (params e)) ->
  prop (dropEmptyProps (valid (validateInputParams input e))) q = requested e input q.
Proof.
  intros Hnd. unfold validateInputParams. cbv zeta.
  destruct (parseParams _ _) as [v u] eqn:E. cbn [valid].
  assert (Hv : forall k, prop v k = prop (parseAllParams (params e) input) k).
  { intros k. rewrite <- (parseParams_valid _ (spread (parseDefaultParams (params e)) input) k (NoDup_parseAllParams _ _)). by rewrite E. }
  assert (Hndv : NoDup (keys v)).
  { apply (f_equal fst) in E. cbn [fst] in E. rewrite <- E. unfold parseParams. cbn [fst].
    apply NoDup_fill; [|constructor]. intros. by apply NoDup_set_prop. }
  rewrite prop_dropEmptyProps by done. rewrite Hv. unfold requested.
  destruct (aget (params e) q) as [s|] eqn:Ea.
  - f_equal. apply parseAllParams_value; [done|]. clear -Ea. induction (params e) as [|[j w] l IH]; [done|].
    cbn [aget] in Ea. destruct (String.eqb_spec j q) as [->|]; [injection Ea as ->; by left|right; auto].
  - rewrite prop_not_key; [done|]. intros Hk%parseAllParams_keys. by apply aget_None in Ea.
Qed.

Lemma forwarded_keys e input q :
  q ∈ keys (dropEmptyProps (valid (validateInputParams input e))) -> q ∈ keys (params e).
Proof.
  intros Hq%keys_dropEmptyProps. revert Hq. unfold validateInputParams. cbv zeta. destruct (parseParams _ _) as [v u] eqn:E. cbn [valid].
  apply (f_equal fst) in E. cbn [fst] in E. rewrite <- E. unfold parseParams. cbn [fst].
  match goal with |- q ∈ keys (foldl ?f [] _) -> _ => assert (forall l acc, q ∈ keys (foldl f acc l) -> q ∈ keys acc \/ q ∈ l) as Hgo end.
  { induction l as [|j l IH]; intros acc Hk; [by left|]. cbn [foldl] in Hk. apply IH in Hk as [Hk|]; [|right; by right].
    apply elem_of_keys_set_prop in Hk as [->|]; [right; by left|by left]. }
  intros [Hn|[_ Hk]%list_elem_of_filter]%Hgo; [by apply not_elem_of_nil in Hn|]. by eapply parseAllParams_keys.
Qed.

(** The checks a request has passed when it is forwarded. *)
Lemma onBeforeCall_inv paths alias e input p :
  aget paths alias = Some e -> onBeforeCall paths alias input = Ok p ->
  (forall k, k ∈ keys input -> k ∈ keys (params e)) /\
  validateFromParamPairings (paramsRequired e) (keys input) (validParamPairings e) = [] /\
  checkMissingParams (params e) input = [] /\
  fv_validate (dropEmptyProps input) (looseSpecParams (params e)) = [] /\
  p = transformRequest e (dropEmptyProps (valid (validateInputParams input e))).
Proof.
  intros He. unfold onBeforeCall. rewrite He. cbv zeta.
  assert (Hunk : length (unknown (validateInputParams input e)) = 0%nat -> forall k, k ∈ keys input -> k ∈ keys (params e)).
  { unfold validateInputParams. cbv zeta. destruct (parseParams _ _) as [v u] eqn:E. cbn [unknown]. intros Hu k Hk.
    eapply parseAllParams_keys, parseParams_unknown; [by rewrite E|]. apply keys_spread. by right. }
  assert (Hreq : required (validateInputParams input e)
                 = validateFromParamPairings (paramsRequired e) (keys input) (validParamPairings e) /\
                 missing (validateInputParams input e) = checkMissingParams (params e) input /\
                 forall l, invalid (validateInputParams input e) = Some l ->
                           l = fv_validate (dropEmptyProps input) (looseSpecParams (params e))).
  { unfold validateInputParams. cbv zeta. destruct (parseParams _ _) as [v u]. cbn [required missing invalid].
    split; [done|]. split; [done|]. intros l. destruct (_ || _ || _); congruence. }
  destruct Hreq as (Hr & Hm & Hi). rewrite <- Hr, <- Hm.
  destruct (Nat.eqb_spec (length (missing (validateInputParams input e))) 0) as [E1|]; [apply nil_length_inv in E1|by cbn [negb]]; cbn [negb].
  destruct (Nat.eqb_spec (length (unknown (validateInputParams input e))) 0) as [E2|]; [|by cbn [negb]]; cbn [negb].
  destruct (Nat.eqb_spec (length (required (validateInputParams input e))) 0) as [E3|]; [apply nil_length_inv in E3|by cbn [negb]]; cbn [negb].
  destruct (invalid (validateInputParams input e)) as [[|]|]; [|done..]. intros [= <-].
  split; [by apply Hunk|]. split; [done|]. split; [done|]. split; [symmetry; by apply Hi|done].
Qed.

(** The route of an endpoint: the default ETag has one for all endpoints, every
    other endpoint has its own. *)
Definition paths_of (e : endpoint) : list (string * endpoint) :=
  if bool_decide (eTag e = Str "strong") then methodPaths true v3_strong else methodPaths false [("key", e)].
Definition alias_of (e : endpoint) : string := route_alias (bool_decide (eTag e = Str "strong")) e.

Lemma paths_lookup name e : (name, e) ∈ v3_methods -> aget (paths_of e) (alias_of e) = Some e.
Proof.
  intros Hin. unfold paths_of, alias_of. case_bool_decide as He.
  - apply (v3_http_lookup name). by apply list_elem_of_filter.
  - unfold methodPaths. cbn [foldl snd]. apply aget_aset_eq.
Qed.

(** What a request is forwarded as, by whether a parameter that is to be
    converted is null. *)
Definition forwarded (e : endpoint) (sp : obj) (input p : obj) : Prop :=
  let null k setup := request_type setup <> None /\ requested e input (request_key k setup) = Null in
  (forall k setup, (k, Str setup) ∈ sp -> ~ null k setup) /\ keys p = keys sp /\
  (forall k setup, (k, Str setup) ∈ sp ->
     converted (requested e input (request_key k setup)) (request_type setup) = Ok (prop p k)) \/
  (exists k setup, (k, Str setup) ∈ sp /\ null k setup) /\ (forall k, k ∈ keys p -> k ∈ keys (params e)) /\
  (forall q, prop p q = requested e input q).

Lemma request_forwarded name e sp input p :
  (name, e) ∈ v3_methods -> src_params (esource e) = Object sp ->
  onBeforeCall (paths_of e) (alias_of e) input = Ok p ->
  (forall k, k ∈ keys input -> k ∈ keys (params e)) /\
  fv_validate (dropEmptyProps input) (looseSpecParams (params e)) = [] /\ forwarded e sp input p.
Proof.
  intros Hin Hsp Hp.
  destruct (onBeforeCall_inv _ _ _ _ _ (paths_lookup _ _ Hin) Hp) as (Hdecl & _ & _ & Hv & ->).
  split; [done|]. split; [done|]. unfold transformRequest, forwarded. rewrite Hsp.
  pose proof (v3_wf _ _ Hin) as Hwf. unfold wf_request in Hwf. rewrite Hsp in Hwf.
  apply andb_true_iff in Hwf as [Hnd%bool_decide_eq_true_1 [Hndsp%bool_decide_eq_true_1 Hall]%andb_true_iff].
  destruct (transformParams_spec sp (dropEmptyProps (valid (validateInputParams input e))) Hndsp) as [(Hno & out & -> & Hk & Hvals)|[(k & su & Hks & Hu) [err ->]]].
  - intros k v Hkv%list_elem_of_In. rewrite forallb_forall in Hall. specialize (Hall _ Hkv). cbn [fst snd] in Hall.
    apply andb_true_iff in Hall as [Hk Hs]. split; [by apply negb_true_iff, String.eqb_neq in Hk|].
    destruct v; try discriminate. eauto.
  - left. split_and!; [|done|]; intros k setup Hks; rewrite <- forwarded_value by done; [by apply Hno|by apply Hvals].
  - right. split_and!; [|apply forwarded_keys|by intros q; apply forwarded_value].
    exists k, su. split; [done|]. rewrite <- forwarded_value by done. exact Hu.
Qed.

Lemma js_Number_not_null v : js_Number v <> Null.
Proof. destruct v; simpl; try done. repeat case_match; done. Qed.

Lemma aget_mem {A} (o : list (string * A)) k v : aget o k = Some v -> (k, v) ∈ o.
Proof.
  induction o as [|[j w] o IH]; [done|]. cbn [aget]. destruct (String.eqb_spec j k) as [->|]; [intros [= ->]; by left|].
  intros E. right. by apply IH.
Qed.

(** Defaults are not null, so that only the request can bring one. *)
Lemma requested_not_null name e input q :
  (name, e) ∈ v3_methods -> (forall k, prop input k <> Null) -> requested e input q <> Null.
Proof.
  unfold requested. intros Hin Hn. destruct (aget (params e) q) as [s|] eqn:E; [|done]. unfold non_empty, param_value.
  assert (Hs : sprop s "default" <> Null).
  { apply list_elem_of_In in Hin. pose proof v3_defaults as Hd. rewrite forallb_forall in Hd. specialize (Hd _ Hin). cbn [snd] in Hd.
    rewrite forallb_forall in Hd. apply aget_mem, list_elem_of_In, Hd in E. cbn [snd] in E.
    by apply negb_true_iff, bool_decide_eq_false_1 in E. }
  specialize (Hn q). repeat case_bool_decide; try done; apply js_Number_not_null.
Qed.

(** A request without nulls on the common route *)
Lemma v3_request_values name e sp input p :
  (name, e) ∈ v3_strong -> src_params (esource e) = Object sp -> (forall k, prop input k <> Null) ->
  onBeforeCall (methodPaths true v3_strong) (route_alias true e) input = Ok p ->
  (forall k, k ∈ keys input -> k ∈ keys (params e)) /\
  fv_validate (dropEmptyProps input) (looseSpecParams (params e)) = [] /\
  keys p = keys sp /\
  forall k setup, (k, Str setup) ∈ sp ->
    converted (requested e input (request_key k setup)) (request_type setup) = Ok (prop p k).
Proof.
  intros Hst Hsp Hnull Hp. pose proof Hst as [He Hin]%list_elem_of_filter. cbn [snd] in He.
  destruct (request_forwarded name e sp input p Hin Hsp) as (Hd & Hv & [(_ & Hk & Hvals)|[(k & su & _ & _ & Hq) _]]).
  - unfold paths_of, alias_of. by rewrite bool_decide_eq_true_2.
  - done.
  - by apply (requested_not_null name) in Hq.
Qed.

(** [C22] A request that the gateway accepts on an HTTP endpoint of version 3, of the
    route that its ETag setting puts it on, has only declared parameters and
    passed the validator.  When no parameter that is to be converted is null,
    the service gets exactly the parameters of the endpoint's source, each with
    the value the request gave for it, or its default, converted to the type
    the source names.  Otherwise nothing is renamed or converted, and the
    service gets the declared parameters under their public names.  In either
    case no other property can reach the query builders of the services. *)
Theorem v3_request_forwarded name e sp input p :
  (name, e) ∈ v3_methods -> src_params (esource e) = Object sp ->
  onBeforeCall (paths_of e) (alias_of e) input = Ok p ->
  let null k setup := request_type setup <> None /\ requested e input (request_key k setup) = Null in
  (forall k, k ∈ keys input -> k ∈ keys (params e)) /\
  fv_validate (dropEmptyProps input) (looseSpecParams (params e)) = [] /\
  ((forall k setup, (k, Str setup) ∈ sp -> ~ null k setup) /\ keys p = keys sp /\
   (forall k setup, (k, Str setup) ∈ sp ->
      converted (requested e input (request_key k setup)) (request_type setup) = Ok (prop p k)) \/
   (exists k setup, (k, Str setup) ∈ sp /\ null k setup) /\ (forall k, k ∈ keys p -> k ∈ keys (params e)) /\
   (forall q, prop p q = requested e input q)).
Proof. apply request_forwarded. Qed.
End Requests.

Definition sample_input : obj := [("transactionID", Str "ab"); ("limit", Str "5")].
Definition sample_request : result obj :=
  Eval vm_compute in onBeforeCall (H := fun _ _ => []) (paths_of api_transactions) (alias_of api_transactions) sample_input.

Lemma v3_request_forwarded_witness :
  match sample_request with
  | Ok p => prop p "id" = Str "ab" /\ prop p "limit" = Num 5 /\
            forall k, k ∈ keys sample_input -> k ∈ keys (params api_transactions)
  | Throw _ => False
  end.
Proof.
  assert (Hin : ("transactions", api_transactions) ∈ v3_methods).
  { apply v3_strong_elem, (list_elem_of_lookup_2 _ 20). vm_compute. reflexivity. }
  assert (Hr : onBeforeCall (H := fun _ _ => []) (paths_of api_transactions) (alias_of api_transactions) sample_input = sample_request)
    by (vm_compute; reflexivity).
  destruct sample_request as [p|] eqn:E; [|discriminate].
  destruct (v3_request_forwarded (H := fun _ _ => []) "transactions" api_transactions _ sample_input p Hin eq_refl Hr)
    as (Hd & _).
  injection E as <-. split; [reflexivity|]. split; [reflexivity|exact Hd].
Defined.

(** The endpoint with its own route *)
Example own_route : paths_of api_tokenBalances = methodPaths false [("key", api_tokenBalances)] /\ alias_of api_tokenBalances = "GET ".
Proof. split; vm_compute; reflexivity. Qed.

(** A parameter that is null makes the renaming throw, and the service gets
    the parameters under their public names: here the transaction to look up
    is not passed as [id]. *)
Lemma null_parameter_disables_mapping :
  match rpc_onBeforeCall (H := fun _ _ => []) (rpc_methodPaths (rpc_apis v3_methods)) "get.transactions"
          [("transactionID", Str "ab"); ("nonce", Null)] with
  | RpcOk p => prop p "id" = Undef /\ prop p "transactionID" = Str "ab"
  | _ => False
  end.
Proof. vm_compute. done. Qed.

(** No endpoint of version 3 hides another: each one is found under its
    HTTP method and path and under its RPC method, and both lead to the method
    of its source. *)
Theorem v3_routes_unambiguous :
  (forall name e, (name, e) ∈ v3_strong ->
     aget (methodPaths true v3_strong) (route_alias true e) = Some e /\
     aget (aliases true v3_strong) (route_alias_registered true e) = Some (src_method (esource e))) /\
  (forall name e, (name, e) ∈ rpc_apis v3_methods ->
     let key := transformPath (default "" (rpcMethod e)) in
     aget (rpc_methodPaths (rpc_apis v3_methods)) key = Some e /\
     aget (rpc_aliases (rpc_apis v3_methods)) key = Some (src_method (esource e))).
Proof.
  split; intros name e Hin; split.
  - exact (aget_fill (fun kv => route_alias true (snd kv)) snd _ [] _ v3_http_aliases Hin).
  - exact (aget_fill (fun kv => route_alias true (snd kv)) (fun kv => src_method (esource (snd kv))) _ [] _ v3_http_aliases Hin).
  - exact (aget_fill (fun kv => transformPath (default "" (rpcMethod (snd kv)))) snd _ [] _ v3_rpc_aliases Hin).
  - exact (aget_fill (fun kv => transformPath (default "" (rpcMethod (snd kv)))) (fun kv => src_method (esource (snd kv))) _ [] _ v3_rpc_aliases Hin).
Qed.

(** ** Responses *)

(** Definitions that use only the casts the response definitions use. *)
Definition response_wf (kv : string * endpoint) : bool :=
  wf_definition (src_definition (esource (snd kv))).

Lemma v3_definitions_wf :
  fst <$> filter (fun kv => response_wf kv = false) v3_methods = ["dexQuoteSwap"; "export"].
Proof. vm_compute. reflexivity. Qed.

Section Answers.
Context `{DateCasts}.

End Answers.

#[local] Instance no_dates : DateCasts := {| isodate := Ok; epoch := Ok; datetime := Ok |}.

Definition sample_answer : val :=
  Object [("data", Arr [Object [("id", Str "1f"); ("height", Str "7"); ("isFinal", Num 1);
                                ("generator", Object [("address", Str "kly1")])]]);
          ("meta", Object [("count", Num 1)])].


(** The lists of a swap quote are looked up next to [data] instead of inside
    it, and never reach the client. *)
Lemma swap_quote_loses_lists :
  transformResponse (Some api_dexQuoteSwap)
    (Object [("data", Object [("path", Str "00"); ("amount", Str "5");
                              ("sqrtPriceX96AfterList", Arr [Str "1"]);
                              ("initializedTicksCrossedList", Arr [Str "2"])]); ("meta", Object [])])
  = Ok (Object [("data", Object [("path", Str "00"); ("amount", Str "5")]); ("meta", Object [])]).
Proof. vm_compute. reflexivity. Qed.

(** A nested object the service left out takes its fields from the enclosing
    answer: here the height of a block appears as that of its commit. *)
Lemma missing_object_takes_outer_fields :
  match mapObject (Object [("height", Num 7)]) mapping_block (Object [("height", Num 7)]) with
  | Ok (Object o) => field (prop o "aggregateCommit") "height" = Num 7
  | _ => False
  end.
Proof. vm_compute. reflexivity. Qed.
