(* ===== verification/Methods.v ===== *)
(** * Methods of the services

    The tables of [methods/] of every service: the name under which the broker
    offers a method, the controller that answers it and the rules for its
    parameters ([fastest-validator] schemas; a pattern is the text of the
    regular expression).  [microservice.js] registers them as
    [<service>.<name>].  The endpoints the connector offers for the node's own
    endpoints ([methods/proxy/allEndpoints.js]) depend on the node. *)
From S2P Require Import Prelude JsValue Table GatewaySources Gateway GatewayApi GatewaySpec.
Local Open Scope Z_scope.

Record method_def := method { md_name : string; md_controller : string; md_params : list (string * val) }.

Definition methods_indexer_blockchainApps : list method_def := [
   method "blockchain.apps.statistics" "getBlockchainAppsStatistics" [];
   method "blockchain.apps" "getBlockchainApps" [
     ("chainID", Object [("optional", Bool true); ("type", Str "string")]);
     ("chainName", Object [("optional", Bool true); ("type", Str "string")]);
     ("status", Object [("optional", Bool true); ("type", Str "string")]);
     ("search", Object [("optional", Bool true); ("type", Str "string")]);
     ("limit", Object [("optional", Bool true); ("type", Str "number")]);
     ("offset", Object [("optional", Bool true); ("type", Str "number")])]].

Definition methods_indexer_blocks : list method_def := [
   method "blocks" "getBlocks" [
     ("blockID", Object [("optional", Bool true); ("type", Str "any")]);
     ("height", Object [("optional", Bool true); ("type", Str "any")]);
     ("generatorAddress", Object [("optional", Bool true); ("type", Str "any")]);
     ("timestamp", Object [("optional", Bool true); ("type", Str "any")]);
     ("limit", Object [("optional", Bool true); ("type", Str "any")]);
     ("offset", Object [("optional", Bool true); ("type", Str "any")]);
     ("sort", Object [("optional", Bool true); ("type", Str "any")])];
   method "blocks.assets" "getBlocksAssets" [
     ("blockID", Object [("optional", Bool true); ("type", Str "string")]);
     ("height", Object [("optional", Bool true); ("type", Str "string")]);
     ("moduleID", Object [("optional", Bool true); ("type", Str "string")]);
     ("timestamp", Object [("optional", Bool true); ("type", Str "string")]);
     ("limit", Object [("optional", Bool true); ("type", Str "number")]);
     ("offset", Object [("optional", Bool true); ("type", Str "number")]);
     ("sort", Object [("optional", Bool true); ("type", Str "string")])]].

Definition methods_indexer_chain : list method_def := [
   method "resolveMainchainServiceURL" "resolveMainchainServiceURL" []].

Definition methods_indexer_events : list method_def := [
   method "events" "getEvents" [
     ("transactionID", Object [("optional", Bool true); ("type", Str "string")]);
     ("senderAddress", Object [("optional", Bool true); ("type", Str "string")]);
     ("blockID", Object [("optional", Bool true); ("type", Str "string")]);
     ("timestamp", Object [("optional", Bool true); ("type", Str "string")]);
     ("topic", Object [("optional", Bool true); ("type", Str "string")]);
     ("module", Object [("optional", Bool true); ("type", Str "string")]);
     ("name", Object [("optional", Bool true); ("type", Str "string")]);
     ("height", Object [("optional", Bool true); ("type", Str "string")]);
     ("limit", Object [("optional", Bool true); ("type", Str "number")]);
     ("offset", Object [("optional", Bool true); ("type", Str "number")]);
     ("sort", Object [("optional", Bool true); ("type", Str "string")]);
     ("order", Object [("optional", Bool true); ("type", Str "string")])]].

Definition methods_indexer_generators : list method_def := [
   method "generators" "getGenerators" [
     ("search", Object [("type", Str "string"); ("optional", Bool true)]);
     ("limit", Object [("type", Str "number"); ("optional", Bool true)]);
     ("offset", Object [("type", Str "number"); ("optional", Bool true)])]].

Definition methods_indexer_indexStatus : list method_def := [
   method "index.status" "getIndexStatus" [];
   method "isBlockchainFullyIndexed" "isBlockchainFullyIndexed" []].

Definition methods_indexer_invoke : list method_def := [
   method "invokeEndpoint" "invokeEndpoint" [
     ("endpoint", Object [("optional", Bool false); ("type", Str "string")]);
     ("params", Object [("optional", Bool true); ("type", Str "object")])]].

Definition methods_indexer_auth : list method_def := [
   method "auth" "getAuthAccountInfo" [
     ("address", Object [("optional", Bool false); ("type", Str "string")])]].

Definition methods_indexer_dex : list method_def := [
   method "dex.quote.swap" "quoteSwap" [
     ("path", Object [("optional", Bool true); ("type", Str "string")]);
     ("base", Object [("optional", Bool true); ("type", Str "string")]);
     ("quote", Object [("optional", Bool true); ("type", Str "string")]);
     ("amountIn", Object [("optional", Bool true); ("type", Str "string")]);
     ("amountOut", Object [("optional", Bool true); ("type", Str "string")])];
   method "dex.quote.price" "quotePrice" [
     ("baseTokenId", Object [("optional", Bool false); ("type", Str "string")]);
     ("quoteTokenId", Object [("optional", Bool false); ("type", Str "string")])];
   method "dex.route" "getRoute" [
     ("tokenIn", Object [("optional", Bool false); ("type", Str "string")]);
     ("tokenOut", Object [("optional", Bool false); ("type", Str "string")]);
     ("recursion", Object [("optional", Bool true); ("type", Str "number")]);
     ("limit", Object [("optional", Bool true); ("type", Str "number")])];
   method "dex.tokens" "getDEXTokens" [
     ("search", Object [("optional", Bool true); ("type", Str "string")]);
     ("offset", Object [("optional", Bool true); ("type", Str "number")]);
     ("limit", Object [("optional", Bool true); ("type", Str "number")]);
     ("changeWindow", Object [("optional", Bool true); ("type", Str "string")]);
     ("start", Object [("optional", Bool true); ("type", Str "number")]);
     ("end", Object [("optional", Bool true); ("type", Str "number")]);
     ("sortBy", Object [("optional", Bool true); ("type", Str "string")]);
     ("sortOrder", Object [("optional", Bool true); ("type", Str "string")])];
   method "dex.tokens.compact" "getDEXTokensCompact" [
     ("search", Object [("optional", Bool true); ("type", Str "string")]);
     ("offset", Object [("optional", Bool true); ("type", Str "number")]);
     ("limit", Object [("optional", Bool true); ("type", Str "number")])];
   method "dex.pools" "getPools" [
     ("search", Object [("optional", Bool true); ("type", Str "string")]);
     ("offset", Object [("optional", Bool true); ("type", Str "number")]);
     ("limit", Object [("optional", Bool true); ("type", Str "number")]);
     ("start", Object [("optional", Bool true); ("type", Str "number")]);
     ("end", Object [("optional", Bool true); ("type", Str "number")]);
     ("sortBy", Object [("optional", Bool true); ("type", Str "string")]);
     ("sortOrder", Object [("optional", Bool true); ("type", Str "string")])];
   method "dex.pools.tick" "getPoolTicks" [
     ("poolAddress", Object [("optional", Bool false); ("type", Str "string")])];
   method "dex.positions" "getPositions" [
     ("search", Object [("optional", Bool true); ("type", Str "string")]);
     ("offset", Object [("optional", Bool true); ("type", Str "number")]);
     ("limit", Object [("optional", Bool true); ("type", Str "number")]);
     ("sortBy", Object [("optional", Bool true); ("type", Str "string")]);
     ("sortOrder", Object [("optional", Bool true); ("type", Str "string")])];
   method "dex.positions.value" "getPositionValue" [
     ("tokenId", Object [("optional", Bool false); ("type", Str "string")])];
   method "dex.positions.metadata" "getPositionMetadata" [
     ("tokenId", Object [("optional", Bool false); ("type", Str "string")])];
   method "dex.price.tick" "getTickPrice" [
     ("base", Object [("optional", Bool false); ("type", Str "string")]);
     ("quote", Object [("optional", Bool false); ("type", Str "string")]);
     ("start", Object [("optional", Bool true); ("type", Str "number")]);
     ("end", Object [("optional", Bool true); ("type", Str "number")]);
     ("offset", Object [("optional", Bool true); ("type", Str "number")]);
     ("limit", Object [("optional", Bool true); ("type", Str "number")])];
   method "dex.price.ohlc" "getOhlcPrice" [
     ("base", Object [("optional", Bool false); ("type", Str "string")]);
     ("quote", Object [("optional", Bool false); ("type", Str "string")]);
     ("timeframe", Object [("optional", Bool false); ("type", Str "string")]);
     ("start", Object [("optional", Bool true); ("type", Str "number")]);
     ("end", Object [("optional", Bool true); ("type", Str "number")]);
     ("offset", Object [("optional", Bool true); ("type", Str "number")]);
     ("limit", Object [("optional", Bool true); ("type", Str "number")])];
   method "dex.statistics" "getDEXStatisticSummary" [
     ("start", Object [("optional", Bool true); ("type", Str "number")]);
     ("end", Object [("optional", Bool true); ("type", Str "number")])];
   method "dex.sparkline.buffer" "generateSparklineBuffer" [
     ("base", Object [("optional", Bool false); ("type", Str "string")]);
     ("quote", Object [("optional", Bool false); ("type", Str "string")]);
     ("interval", Object [("optional", Bool false); ("type", Str "number")]);
     ("limit", Object [("optional", Bool false); ("type", Str "number")]);
     ("start", Object [("optional", Bool true); ("type", Str "number")]);
     ("end", Object [("optional", Bool true); ("type", Str "number")])]].

Definition methods_indexer_dynamicReward : list method_def := [
   method "reward.default" "getDefaultRewardAtHeight" [
     ("height", Object [("optional", Bool false); ("type", Str "number"); ("min", Num 0)])];
   method "reward.annualInflation" "getAnnualInflation" [
     ("height", Object [("optional", Bool false); ("type", Str "number"); ("min", Num 0)])];
   method "reward.constants" "getRewardConstants" []].

Definition methods_indexer_legacy : list method_def := [
   method "legacy" "getLegacyAccountInfo" [
     ("publicKey", Object [("optional", Bool false); ("type", Str "string")])]].

Definition methods_indexer_pos : list method_def := [
   method "pos.validators" "getPosValidators" [
     ("address", Object [("optional", Bool true); ("type", Str "string")]);
     ("publicKey", Object [("optional", Bool true); ("type", Str "string")]);
     ("name", Object [("optional", Bool true); ("type", Str "string")]);
     ("status", Object [("optional", Bool true); ("type", Str "string")]);
     ("search", Object [("optional", Bool true); ("type", Str "string")]);
     ("limit", Object [("optional", Bool true); ("type", Str "number")]);
     ("offset", Object [("optional", Bool true); ("type", Str "number")]);
     ("sort", Object [("optional", Bool true); ("type", Str "string")])];
   method "pos.constants" "getPosConstants" [];
   method "pos.unlocks" "getPosUnlocks" [
     ("address", Object [("optional", Bool true); ("type", Str "string")]);
     ("name", Object [("optional", Bool true); ("type", Str "string")]);
     ("publicKey", Object [("optional", Bool true); ("type", Str "string")]);
     ("isLocked", Object [("optional", Bool true); ("type", Str "boolean")]);
     ("limit", Object [("optional", Bool true); ("type", Str "number")]);
     ("offset", Object [("optional", Bool true); ("type", Str "number")])];
   method "pos.stakes" "getStakes" [
     ("address", Object [("optional", Bool true); ("type", Str "string")]);
     ("publicKey", Object [("optional", Bool true); ("type", Str "string")]);
     ("name", Object [("optional", Bool true); ("type", Str "string")]);
     ("search", Object [("optional", Bool true); ("type", Str "string")])];
   method "pos.stakers" "getStakers" [
     ("address", Object [("optional", Bool true); ("type", Str "string")]);
     ("publicKey", Object [("optional", Bool true); ("type", Str "string")]);
     ("name", Object [("optional", Bool true); ("type", Str "string")]);
     ("search", Object [("optional", Bool true); ("type", Str "string")]);
     ("limit", Object [("optional", Bool true); ("type", Str "number")]);
     ("offset", Object [("optional", Bool true); ("type", Str "number")])];
   method "pos.rewards.claimable" "getPosClaimableRewards" [
     ("address", Object [("optional", Bool true); ("type", Str "string")]);
     ("publicKey", Object [("optional", Bool true); ("type", Str "string")]);
     ("name", Object [("optional", Bool true); ("type", Str "string")]);
     ("limit", Object [("optional", Bool true); ("type", Str "number"); ("min", Num 1); ("max", Num 100)]);
     ("offset", Object [("optional", Bool true); ("type", Str "number"); ("min", Num 0)])];
   method "pos.rewards.locked" "getPosLockedRewards" [
     ("address", Object [("optional", Bool true); ("type", Str "string"); ("pattern", Str "^kly[a-hjkm-z2-9]{38}$")]);
     ("publicKey", Object [("optional", Bool true); ("type", Str "string"); ("pattern", Str "^([A-Fa-f0-9]{2}){32}$")]);
     ("name", Object [("optional", Bool true); ("type", Str "string"); ("pattern", Str "^[a-z0-9!@$&_.]{1,20}$")]);
     ("limit", Object [("optional", Bool true); ("type", Str "number"); ("min", Num 1); ("max", Num 100)]);
     ("offset", Object [("optional", Bool true); ("type", Str "number"); ("min", Num 0)])]].

Definition methods_indexer_token : list method_def := [
   method "token.balances" "getTokenBalances" [
     ("address", Object [("optional", Bool false); ("type", Str "string")]);
     ("tokenID", Object [("optional", Bool true); ("type", Str "string")]);
     ("limit", Object [("optional", Bool true); ("type", Str "number")]);
     ("offset", Object [("optional", Bool true); ("type", Str "number")])];
   method "token.balances.top" "getTokenTopBalances" [
     ("tokenID", Object [("optional", Bool false); ("type", Str "string")]);
     ("search", Object [("optional", Bool true); ("type", Str "string")]);
     ("limit", Object [("optional", Bool true); ("type", Str "number")]);
     ("offset", Object [("optional", Bool true); ("type", Str "number")]);
     ("sort", Object [("optional", Bool true); ("type", Str "string")])];
   method "token.summary" "getTokenSummary" [
     ("limit", Object [("optional", Bool true); ("type", Str "number")]);
     ("offset", Object [("optional", Bool true); ("type", Str "number")])];
   method "token.account.exists" "tokenHasUserAccount" [
     ("address", Object [("optional", Bool true); ("type", Str "string"); ("pattern", Str "^kly[a-hjkm-z2-9]{38}$")]);
     ("publicKey", Object [("optional", Bool true); ("type", Str "string"); ("pattern", Str "^([A-Fa-f0-9]{2}){32}$")]);
     ("name", Object [("optional", Bool true); ("type", Str "string"); ("pattern", Str "^[a-z0-9!@$&_.]{1,20}$")]);
     ("tokenID", Object [("optional", Bool true); ("type", Str "string"); ("pattern", Str "^\b[a-fA-F0-9]{16}\b$")])];
   method "token.constants" "getTokenConstants" [];
   method "token.available-ids" "getAvailableTokenIDs" [
     ("sort", Object [("optional", Bool true); ("type", Str "string")]);
     ("limit", Object [("optional", Bool true); ("type", Str "number")]);
     ("offset", Object [("optional", Bool true); ("type", Str "number")])]].

Definition methods_indexer_tokenFactory : list method_def := [
   method "factory.token.meta" "getTokenFactoriesMeta" [
     ("tokenIds", Object [("optional", Bool true); ("type", Str "string")]);
     ("registry", Object [("optional", Bool true); ("type", Str "boolean")]);
     ("offset", Object [("optional", Bool true); ("type", Str "number")]);
     ("limit", Object [("optional", Bool true); ("type", Str "number")])];
   method "factory.token" "getTokenFactories" [
     ("tokenIds", Object [("optional", Bool true); ("type", Str "string")]);
     ("offset", Object [("optional", Bool true); ("type", Str "number")]);
     ("limit", Object [("optional", Bool true); ("type", Str "number")])];
   method "factory.statistics" "getFactoryStatistics" [];
   method "factory.available" "isTokenAvailable" [
     ("tokenName", Object [("optional", Bool false); ("type", Str "string")]);
     ("symbol", Object [("optional", Bool false); ("type", Str "string")])]].

Definition methods_indexer_validators : list method_def := [
   method "validator" "getValidator" [
     ("address", Object [("optional", Bool false); ("type", Str "string")])];
   method "validateBLSKey" "validateBLSKey" [
     ("blsKey", Object [("optional", Bool false); ("type", Str "string"); ("pattern", Str "^\b[a-fA-F0-9]{96}\b$")]);
     ("proofOfPossession", Object [("optional", Bool false); ("type", Str "string"); ("pattern", Str "^\b[a-fA-F0-9]{192}\b$")])]].

Definition methods_indexer_network : list method_def := [
   method "network.status" "getNetworkStatus" [];
   method "network.statistics" "getNetworkStatistics" [];
   method "network.peers" "getNetworkPeers" [
     ("ip", Object [("optional", Bool true); ("type", Str "string")]);
     ("networkVersion", Object [("optional", Bool true); ("type", Str "string")]);
     ("state", Object [("optional", Bool true); ("type", Str "string")]);
     ("height", Object [("optional", Bool true); ("type", Str "number")]);
     ("limit", Object [("optional", Bool true); ("type", Str "number")]);
     ("offset", Object [("optional", Bool true); ("type", Str "number")]);
     ("sort", Object [("optional", Bool true); ("type", Str "string")])];
   method "network.peers.connected" "getNetworkConnectedPeers" [];
   method "network.peers.disconnected" "getNetworkDisconnectedPeers" []].

Definition methods_indexer_nftStorage : list method_def := [
   method "nft.storage.upload" "nftStorageUpload" [
     ("data", Object [("optional", Bool false); ("type", Str "string")])]].

Definition methods_indexer_transactions : list method_def := [
   method "transactions" "getTransactions" [
     ("transactionID", Object [("optional", Bool true); ("type", Str "string")]);
     ("moduleCommand", Object [("optional", Bool true); ("type", Str "string")]);
     ("address", Object [("optional", Bool true); ("type", Str "string")]);
     ("senderAddress", Object [("optional", Bool true); ("type", Str "string")]);
     ("recipientAddress", Object [("optional", Bool true); ("type", Str "string")]);
     ("receivingChainID", Object [("optional", Bool true); ("type", Str "string")]);
     ("timestamp", Object [("optional", Bool true); ("type", Str "string")]);
     ("nonce", Object [("optional", Bool true); ("type", Str "string")]);
     ("blockID", Object [("optional", Bool true); ("type", Str "string")]);
     ("height", Object [("optional", Bool true); ("type", Str "string")]);
     ("search", Object [("optional", Bool true); ("type", Str "string")]);
     ("limit", Object [("optional", Bool true); ("type", Str "number")]);
     ("offset", Object [("optional", Bool true); ("type", Str "number")]);
     ("executionStatus", Object [("optional", Bool true); ("type", Str "string")]);
     ("sort", Object [("optional", Bool true); ("type", Str "string")]);
     ("order", Object [("optional", Bool true); ("type", Str "string")])];
   method "transactions.pending" "getPendingTransactions" [];
   method "transactions.post" "postTransactions" [
     ("transaction", Object [("optional", Bool false); ("type", Str "string")])];
   method "schemas" "getSchemas" [];
   method "transactions.dryrun" "dryRunTransactions" [
     ("transaction", Object [("optional", Bool false); ("type", Str "any")]);
     ("skipVerify", Object [("optional", Bool true); ("type", Str "boolean"); ("default", Bool false)]);
     ("skipDecode", Object [("optional", Bool true); ("type", Str "boolean"); ("default", Bool false)]);
     ("strict", Object [("optional", Bool true); ("type", Str "boolean"); ("default", Bool false)])];
   method "transactions.estimate-fees" "estimateTransactionFees" [
     ("transaction", Object [("optional", Bool false); ("type", Str "object")])]].

Definition methods_indexer_indexer : list method_def := [
   method "getMissingBlocks" "getMissingBlocks" [
     ("from", Object [("optional", Bool false); ("type", Str "any")]);
     ("to", Object [("optional", Bool false); ("type", Str "any")])];
   method "getCurrentHeight" "getCurrentHeight" [];
   method "getGenesisHeight" "getGenesisHeight" [];
   method "getIndexVerifiedHeight" "getIndexVerifiedHeight" [];
   method "isGenesisBlockIndexed" "isGenesisBlockIndexed" [];
   method "getLiveIndexingJobCount" "getLiveIndexingJobCount" []].

Definition methods_indexer_status : list method_def := [
   method "status" "getStatus" []].

Definition methods_app_registry_metadata : list method_def := [
   method "blockchain.apps.meta" "getBlockchainAppsMetadata" [
     ("chainID", Object [("optional", Bool true); ("type", Str "string")]);
     ("chainName", Object [("optional", Bool true); ("type", Str "string")]);
     ("displayName", Object [("optional", Bool true); ("type", Str "string")]);
     ("isDefault", Object [("optional", Bool true); ("type", Str "boolean")]);
     ("network", Object [("optional", Bool true); ("type", Str "string"); ("pattern", Str "^\b(?:mainnet|testnet|devnet|,)+\b$")]);
     ("search", Object [("optional", Bool true); ("type", Str "string")]);
     ("limit", Object [("optional", Bool true); ("type", Str "number")]);
     ("offset", Object [("optional", Bool true); ("type", Str "number")]);
     ("sort", Object [("optional", Bool true); ("type", Str "string")])];
   method "blockchain.apps.meta.list" "getBlockchainAppsMetaList" [
     ("chainName", Object [("optional", Bool true); ("type", Str "string")]);
     ("network", Object [("optional", Bool true); ("type", Str "string")]);
     ("search", Object [("optional", Bool true); ("type", Str "string")]);
     ("limit", Object [("optional", Bool true); ("type", Str "number")]);
     ("offset", Object [("optional", Bool true); ("type", Str "number")]);
     ("sort", Object [("optional", Bool true); ("type", Str "string")])];
   method "blockchain.apps.meta.tokens" "getBlockchainAppsTokenMetadata" [
     ("chainName", Object [("optional", Bool true); ("type", Str "string")]);
     ("chainID", Object [("optional", Bool true); ("type", Str "string")]);
     ("tokenName", Object [("optional", Bool true); ("type", Str "string")]);
     ("tokenID", Object [("optional", Bool true); ("type", Str "string")]);
     ("network", Object [("optional", Bool true); ("type", Str "string"); ("pattern", Str "^\b(?:mainnet|testnet|devnet|,)+\b$")]);
     ("search", Object [("optional", Bool true); ("type", Str "string")]);
     ("limit", Object [("optional", Bool true); ("type", Str "number")]);
     ("offset", Object [("optional", Bool true); ("type", Str "number")]);
     ("sort", Object [("optional", Bool true); ("type", Str "string")]);
     ("noFactory", Object [("optional", Bool true); ("type", Str "boolean")])];
   method "blockchain.apps.meta.tokens.supported" "getBlockchainAppsTokensSupportedMetadata" [
     ("chainID", Object [("optional", Bool false); ("type", Str "string")]);
     ("limit", Object [("optional", Bool true); ("type", Str "number")]);
     ("offset", Object [("optional", Bool true); ("type", Str "number")]);
     ("sort", Object [("optional", Bool true); ("type", Str "string")])]].

Definition methods_app_registry_status : list method_def := [
   method "status" "getStatus" []].

Definition methods_connector_auth : list method_def := [
   method "getAuthAccount" "getAuthAccount" [
     ("address", Object [("optional", Bool false); ("type", Str "string")])];
   method "getAuthMultiSigRegMsgSchema" "getAuthMultiSigRegMsgSchema" []].

Definition methods_connector_blocks : list method_def := [
   method "getLastBlock" "getLastBlock" [];
   method "getBlockByID" "getBlockByID" [
     ("id", Object [("optional", Bool false); ("type", Str "string")])];
   method "getBlocksByIDs" "getBlocksByIDs" [
     ("ids", Object [("optional", Bool false); ("type", Str "array"); ("items", Str "string")])];
   method "getBlockByHeight" "getBlockByHeight" [
     ("height", Object [("optional", Bool false); ("type", Str "number")])];
   method "getBlocksByHeightBetween" "getBlocksByHeightBetween" [
     ("from", Object [("optional", Bool false); ("type", Str "number")]);
     ("to", Object [("optional", Bool false); ("type", Str "number")])];
   method "getGenesisHeight" "getGenesisHeight" [];
   method "getGenesisBlockID" "getGenesisBlockID" [];
   method "getGenesisBlock" "getGenesisBlock" [];
   method "getGenesisConfig" "getGenesisConfig" [];
   method "getGenesisAssetByModule" "getGenesisAssetByModule" [
     ("module", Object [("type", Str "string")]);
     ("subStore", Object [("type", Str "string"); ("optional", Bool true)]);
     ("limit", Object [("type", Str "number"); ("min", Num 1); ("default", Num 5000)]);
     ("offset", Object [("type", Str "number"); ("min", Num 0); ("default", Num 0)])];
   method "getGenesisAssetsLength" "getGenesisAssetsLength" [
     ("module", Object [("type", Str "string"); ("optional", Bool true)]);
     ("subStore", Object [("type", Str "string"); ("optional", Bool true)])]].

Definition methods_connector_dynamicReward : list method_def := [
   method "getRewardTokenID" "getRewardTokenID" [];
   method "getAnnualInflation" "getAnnualInflation" [];
   method "getDefaultRewardAtHeight" "getDefaultRewardAtHeight" [
     ("height", Object [("optional", Bool false); ("type", Str "number"); ("min", Num 0)])]].

Definition methods_connector_encoder : list method_def := [
   method "encodeCCM" "encodeCCM" [
     ("ccm", Object [("optional", Bool false); ("type", Str "object"); ("props", Object [("module", Object [("optional", Bool false); ("type", Str "string"); ("pattern", Str "^[0-9a-zA-Z]{1,32}$")]); ("crossChainCommand", Object [("optional", Bool false); ("type", Str "string"); ("pattern", Str "^[0-9a-zA-Z]{1,32}$")]); ("nonce", Object [("optional", Bool false); ("type", Str "string"); ("pattern", Str "^\d+$")]); ("fee", Object [("optional", Bool false); ("type", Str "string")]); ("sendingChainID", Object [("optional", Bool false); ("type", Str "string"); ("pattern", Str "^\b[a-fA-F0-9]{8}\b$")]); ("receivingChainID", Object [("optional", Bool false); ("type", Str "string"); ("pattern", Str "^\b[a-fA-F0-9]{8}\b$")]); ("params", Object [("optional", Bool false); ("type", Str "string"); ("pattern", Str "^([a-fA-F0-9]+)$")]); ("status", Object [("optional", Bool false); ("type", Str "number")])])])]].

Definition methods_connector_events : list method_def := [
   method "getEventsByHeight" "getEventsByHeight" [
     ("height", Object [("optional", Bool false); ("type", Str "number")])]].

Definition methods_connector_fee : list method_def := [
   method "getFeeTokenID" "getFeeTokenID" [];
   method "getMinFeePerByte" "getMinFeePerByte" []].

Definition methods_connector_formatter : list method_def := [
   method "formatTransaction" "formatTransaction" [
     ("transaction", Object [("optional", Bool false); ("type", Str "any")]);
     ("additionalFee", Object [("optional", Bool true); ("type", Str "string")])]].

Definition methods_connector_generators : list method_def := [
   method "getGenerators" "getGenerators" [];
   method "getGeneratorStatus" "getGeneratorStatus" [];
   method "updateGeneratorStatus" "updateGeneratorStatus" [
     ("address", Object [("optional", Bool false); ("type", Str "string")]);
     ("password", Object [("optional", Bool false); ("type", Str "string")]);
     ("forging", Object [("optional", Bool false); ("type", Str "boolean")]);
     ("height", Object [("optional", Bool true); ("type", Str "number")]);
     ("maxHeightPrevoted", Object [("optional", Bool true); ("type", Str "number")]);
     ("maxHeightPreviouslyForged", Object [("optional", Bool true); ("type", Str "number")]);
     ("override", Object [("optional", Bool true); ("type", Str "boolean")])]].

Definition methods_connector_interoperability : list method_def := [
   method "getChainAccount" "getChainAccount" [
     ("chainID", Object [("optional", Bool false); ("type", Str "string"); ("pattern", Str "^\b[a-fA-F0-9]{8}\b$")])];
   method "getMainchainID" "getMainchainID" [];
   method "getChannel" "getChannel" [
     ("chainID", Object [("optional", Bool false); ("type", Str "string"); ("pattern", Str "^\b[a-fA-F0-9]{8}\b$")])];
   method "getChainRegistrationFee" "getChainRegistrationFee" []].

Definition methods_connector_legacy : list method_def := [
   method "getLegacyAccount" "getLegacyAccount" [
     ("publicKey", Object [("optional", Bool false); ("type", Str "string")])]].

Definition methods_connector_network : list method_def := [
   method "getNetworkStatus" "getNetworkStatus" [];
   method "getNetworkPeers" "getNetworkPeers" [];
   method "getNetworkConnectedPeers" "getNetworkConnectedPeers" [];
   method "getNetworkDisconnectedPeers" "getNetworkDisconnectedPeers" [];
   method "getNetworkPeersStatistics" "getNetworkPeersStatistics" []].

Definition methods_connector_node : list method_def := [
   method "invokeEndpoint" "invokeEndpointProxy" [
     ("endpoint", Object [("optional", Bool false); ("type", Str "string")]);
     ("params", Object [("optional", Bool true); ("type", Str "object")])];
   method "getSchema" "getSchemas" [];
   method "getRegisteredEndpoints" "getRegisteredEndpoints" [];
   method "getRegisteredEvents" "getRegisteredEvents" [];
   method "getRegisteredModules" "getRegisteredModules" [];
   method "getNodeInfo" "getNodeInfo" [];
   method "getSystemMetadata" "getSystemMetadata" [];
   method "getEngineEndpoints" "getEngineEndpoints" []].

Definition methods_connector_pos : list method_def := [
   method "getPosValidator" "getPosValidator" [
     ("address", Object [("optional", Bool false); ("type", Str "string")])];
   method "getAllPosValidators" "getAllPosValidators" [];
   method "getPosValidatorsByStake" "getPosValidatorsByStake" [
     ("limit", Object [("optional", Bool true); ("type", Str "number")])];
   method "getPosConstants" "getPosConstants" [];
   method "getPosPendingUnlocks" "getPosPendingUnlocks" [
     ("address", Object [("optional", Bool true); ("type", Str "string")])];
   method "getStaker" "getStaker" [
     ("address", Object [("optional", Bool false); ("type", Str "string")])];
   method "getPosClaimableRewards" "getPosClaimableRewards" [
     ("address", Object [("optional", Bool false); ("type", Str "string")])];
   method "getPosLockedReward" "getPosLockedReward" [
     ("address", Object [("optional", Bool false); ("type", Str "string")]);
     ("tokenID", Object [("optional", Bool false); ("type", Str "string")])];
   method "getPoSGenesisStakers" "getPoSGenesisStakers" [];
   method "getPoSGenesisValidators" "getPoSGenesisValidators" []].

Definition methods_connector_status : list method_def := [
   method "status" "getStatus" []].

Definition methods_connector_token : list method_def := [
   method "getTokenBalance" "getTokenBalance" [
     ("address", Object [("optional", Bool false); ("type", Str "string")]);
     ("tokenID", Object [("optional", Bool false); ("type", Str "string")])];
   method "getTokenBalances" "getTokenBalances" [
     ("address", Object [("optional", Bool false); ("type", Str "string")])];
   method "getEscrowedAmounts" "getEscrowedAmounts" [];
   method "getSupportedTokens" "getSupportedTokens" [];
   method "getTotalSupply" "getTotalSupply" [];
   method "tokenHasUserAccount" "tokenHasUserAccount" [
     ("address", Object [("optional", Bool false); ("type", Str "string")]);
     ("tokenID", Object [("optional", Bool false); ("type", Str "string")])];
   method "tokenHasEscrowAccount" "tokenHasEscrowAccount" [
     ("tokenID", Object [("optional", Bool false); ("type", Str "string")]);
     ("escrowChainID", Object [("optional", Bool false); ("type", Str "string")])];
   method "getTokenInitializationFees" "getTokenInitializationFees" [];
   method "getTokenBalancesAtGenesis" "getTokenBalancesAtGenesis" [
     ("address", Object [("optional", Bool false); ("type", Str "string")])]].

Definition methods_connector_transactions : list method_def := [
   method "getTransactionByID" "getTransactionByID" [
     ("id", Object [("optional", Bool false); ("type", Str "string")])];
   method "getTransactionsByIDs" "getTransactionsByIDs" [
     ("ids", Object [("optional", Bool false); ("type", Str "array"); ("items", Str "string")])];
   method "getTransactionsFromPool" "getTransactionsFromPool" [];
   method "postTransaction" "postTransaction" [
     ("transaction", Object [("optional", Bool false); ("type", Str "string")])];
   method "dryRunTransaction" "dryRunTransaction" [
     ("transaction", Object [("optional", Bool false); ("type", Str "any")]);
     ("skipVerify", Object [("optional", Bool true); ("type", Str "boolean"); ("default", Bool false)]);
     ("skipDecode", Object [("optional", Bool true); ("type", Str "boolean"); ("default", Bool false)]);
     ("strict", Object [("optional", Bool true); ("type", Str "boolean"); ("default", Bool false)])]].

Definition methods_connector_validators : list method_def := [
   method "validateBLSKey" "validateBLSKey" [
     ("blsKey", Object [("optional", Bool false); ("type", Str "string"); ("pattern", Str "^\b[a-fA-F0-9]{96}\b$")]);
     ("proofOfPossession", Object [("optional", Bool false); ("type", Str "string"); ("pattern", Str "^\b[a-fA-F0-9]{192}\b$")])];
   method "getValidator" "getValidator" [
     ("address", Object [("optional", Bool false); ("type", Str "string")])]].

Definition methods_export_export : list method_def := [
   method "transactions.schedule" "scheduleTransactionHistoryExport" [
     ("address", Object [("type", Str "string"); ("optional", Bool true)]);
     ("publicKey", Object [("type", Str "string"); ("optional", Bool true)]);
     ("interval", Object [("type", Str "string"); ("optional", Bool true)])];
   method "transactions.csv" "downloadTransactionHistory" [
     ("filename", Object [("type", Str "string"); ("optional", Bool false)])]].

Definition methods_export_status : list method_def := [
   method "status" "status" []].

Definition methods_fees_fees : list method_def := [
   method "estimates" "getEstimateFeePerByte" []].

Definition methods_fees_status : list method_def := [
   method "status" "getStatus" []].

Definition methods_market_candlestick : list method_def := [
   method "candlestick" "getCandleStick" [
     ("symbol", Object [("optional", Bool false); ("type", Str "string")]);
     ("interval", Object [("optional", Bool false); ("type", Str "string")]);
     ("start", Object [("optional", Bool false); ("type", Str "number")]);
     ("end", Object [("optional", Bool false); ("type", Str "number")])]].

Definition methods_market_market : list method_def := [
   method "prices" "getMarketPrices" []].

Definition methods_market_status : list method_def := [
   method "status" "getStatus" []].

Definition methods_statistics_status : list method_def := [
   method "status" "getStatus" []].

Definition methods_statistics_transactions : list method_def := [
   method "transactions.statistics" "getTransactionsStatistics" [
     ("interval", Object [("optional", Bool false); ("type", Str "string")]);
     ("limit", Object [("optional", Bool true); ("type", Str "number")]);
     ("offset", Object [("optional", Bool true); ("type", Str "number")])]].

(** The methods of a service under their full names *)
Definition offered (service : string) (l : list (list method_def)) : list (string * method_def) :=
  (fun m => (service +:+ "." +:+ md_name m, m)) <$> mjoin l.

Definition methods_indexer : list (string * method_def) := offered "indexer" [methods_indexer_blockchainApps; methods_indexer_blocks; methods_indexer_chain; methods_indexer_events; methods_indexer_generators; methods_indexer_indexStatus; methods_indexer_invoke; methods_indexer_auth; methods_indexer_dex; methods_indexer_dynamicReward; methods_indexer_legacy; methods_indexer_pos; methods_indexer_token; methods_indexer_tokenFactory; methods_indexer_validators; methods_indexer_network; methods_indexer_nftStorage; methods_indexer_transactions; methods_indexer_indexer; methods_indexer_status].
Definition methods_app_registry : list (string * method_def) := offered "app-registry" [methods_app_registry_metadata; methods_app_registry_status].
Definition methods_connector : list (string * method_def) := offered "connector" [methods_connector_auth; methods_connector_blocks; methods_connector_dynamicReward; methods_connector_encoder; methods_connector_events; methods_connector_fee; methods_connector_formatter; methods_connector_generators; methods_connector_interoperability; methods_connector_legacy; methods_connector_network; methods_connector_node; methods_connector_pos; methods_connector_status; methods_connector_token; methods_connector_transactions; methods_connector_validators].
Definition methods_export : list (string * method_def) := offered "export" [methods_export_export; methods_export_status].
Definition methods_fees : list (string * method_def) := offered "fees" [methods_fees_fees; methods_fees_status].
Definition methods_market : list (string * method_def) := offered "market" [methods_market_candlestick; methods_market_market; methods_market_status].
Definition methods_statistics : list (string * method_def) := offered "statistics" [methods_statistics_status; methods_statistics_transactions].

Definition all_methods : list (string * method_def) :=
  methods_indexer ++ methods_app_registry ++ methods_connector ++ methods_export ++ methods_fees ++ methods_market ++ methods_statistics.

(** ** What the gateway asks of the services *)

(** The types whose values the rules of the methods tell apart *)
Definition simple_types : list string := ["string"; "number"; "boolean"].

(** The default of a parameter, converted to the type the source names, has
    that type. *)
Definition default_typed (ty : string) (d : val) : bool :=
  match d with
  | Undef => true
  | _ => match convertType (non_empty d) ty with Ok v => bool_decide (v = Undef) || String.eqb (typeof v) ty | Throw _ => false end
  end.

(** The source of a parameter converts every text to the declared type. *)
Definition param_typed (e : endpoint) (k setup : string) (ty : string) : bool :=
  bool_decide (request_type setup = Some ty) &&
  match aget (params e) (request_key k setup) with
  | Some s => default_typed ty (sprop s "default") && negb (bool_decide (sprop s "type" = Str "number") && String.eqb ty "boolean")
  | None => true
  end.

Definition rule_type (rule : val) : val := prop (as_obj rule) "type".

(** Every parameter an endpoint sends and the method declares has its type. *)
Definition call_typed (e : endpoint) (m : method_def) : bool :=
  match src_params (esource e) with
  | Object sp =>
      forallb (fun kr => match rule_type kr.2 with
        | Str ty => if bool_decide (ty ∈ simple_types)
                    then forallb (fun ks => negb (String.eqb ks.1 kr.1) ||
                           match ks.2 with Str setup => param_typed e ks.1 setup ty | _ => false end) sp
                    else true
        | _ => true
        end) (md_params m)
  | _ => true
  end.

Definition call_checked (e : endpoint) : bool :=
  String.eqb (src_method (esource e)) "gateway.spec" ||
  match aget all_methods (src_method (esource e)) with Some m => call_typed e m | None => false end.

Lemma v3_calls_checked : forallb (fun kv => call_checked kv.2) v3_methods = true.
Proof. vm_compute. reflexivity. Qed.

(** The parameters of a request in a URL *)
Definition text_request (input : obj) : Prop := forall k, prop input k = Undef \/ exists s, prop input k = Str s.

Lemma aget_in {A} (o : list (string * A)) k v : aget o k = Some v -> (k, v) ∈ o.
Proof.
  induction o as [|[j w] o IH]; [done|]. cbn [aget]. destruct (String.eqb_spec j k) as [->|].
  - intros [= ->]. by left.
  - intros E. right. auto.
Qed.

Lemma js_Number_typeof v : typeof (js_Number v) = "number".
Proof. destruct v; try done. cbn. destruct (String.eqb s ""); [done|]. by destruct (parse_Z s). Qed.

(** A text, or a number made from it, converts to a simple type. *)
Lemma convert_text ty v w : ty ∈ simple_types -> (exists s, v = Str s) \/ (typeof v = "number" /\ ty <> "boolean") ->
  convertType v ty = Ok w -> typeof w = ty.
Proof.
  intros Hty Hv E.
  apply elem_of_cons in Hty as [-> | [-> | ->%list_elem_of_singleton]%elem_of_cons];
    destruct Hv as [[s ->]|[Hn Hb]]; try done;
    try (destruct v; try discriminate); cbn -[js_Number] in E; injection E as <-; try done; exact (js_Number_typeof (Str _)).
Qed.

Section Accepted.
Context `{FastestValidator}.

Lemma requested_typed e input k setup ty w :
  text_request input -> ty ∈ simple_types -> param_typed e k setup ty = true ->
  converted (requested e input (request_key k setup)) (request_type setup) = Ok w -> w = Undef \/ typeof w = ty.
Proof.
  intros Hin Hty Hp. unfold param_typed in Hp. apply andb_true_iff in Hp as [Hr%bool_decide_eq_true_1 Hs].
  rewrite Hr. cbn [converted]. unfold requested.
  assert (forall x, convertType Undef ty = Ok x -> x = Undef) as Hu.
  { intros x Hx. apply elem_of_cons in Hty as [-> | [-> | ->%list_elem_of_singleton]%elem_of_cons]; by injection Hx as <-. }
  destruct (aget (params e) _) as [s|]; [|intros E; left; by apply Hu].
  apply andb_true_iff in Hs as [Hd Hn]. unfold param_value.
  assert (convertType (non_empty (sprop s "default")) ty = Ok w -> w = Undef \/ typeof w = ty) as Hdef.
  { intros E. unfold default_typed in Hd. destruct (sprop s "default"); try (left; by apply Hu);
      rewrite E in Hd; apply orb_true_iff in Hd as [Hd%bool_decide_eq_true_1|Hd%String.eqb_eq]; auto. }
  destruct (Hin (request_key k setup)) as [-> | [t ->]]; [by rewrite bool_decide_eq_true_2|].
  rewrite bool_decide_eq_false_2 by done. case_bool_decide as Hnum.
  - case_bool_decide as Ht; [done|]. intros E. right. eapply convert_text; [done| |exact E]. right.
    assert (non_empty (js_Number (Str t)) = js_Number (Str t)) as ->.
    { unfold non_empty. rewrite bool_decide_eq_false_2; [done|]. intros Hx. pose proof (js_Number_typeof (Str t)) as Hj.
      rewrite Hx in Hj. discriminate. }
    split; [apply js_Number_typeof|]. intros ->. cbn in Hn. discriminate.
  - unfold non_empty. case_bool_decide; [intros E; left; by apply Hu|]. intros E. right. eapply convert_text; eauto.
Qed.

(** [C39] What the gateway forwards fits what the services declare: a request
    with text parameters that the gateway accepts on an HTTP endpoint of
    version 3 goes to a method that a service offers (apart from the
    description of the API, which the gateway answers), and every parameter
    the method declares as a text, number or boolean is absent or has that
    type. *)
Theorem v3_request_typed name e sp input p :
  (name, e) ∈ v3_strong -> src_params (esource e) = Object sp -> text_request input ->
  onBeforeCall (methodPaths true v3_strong) (route_alias true e) input = Ok p ->
  src_method (esource e) = "gateway.spec" \/
  exists m, (src_method (esource e), m) ∈ all_methods /\
    forall k rule ty, (k, rule) ∈ md_params m -> rule_type rule = Str ty -> ty ∈ simple_types ->
      prop p k = Undef \/ typeof (prop p k) = ty.
Proof.
  intros Hin Hsp Htext Hp.
  assert (forall k, prop input k <> Null) as Hnull by (intros k; by destruct (Htext k) as [-> | [? ->]]).
  destruct (v3_request_values _ _ _ _ _ Hin Hsp Hnull Hp) as (_ & _ & Hkeys & Hvals).
  pose proof v3_calls_checked as Hc. rewrite forallb_forall in Hc.
  pose proof (v3_strong_elem _ _ Hin) as Hm%list_elem_of_In. specialize (Hc _ Hm). cbn [snd] in Hc.
  unfold call_checked in Hc. apply orb_true_iff in Hc as [Hc%String.eqb_eq|Hc]; [by left|right].
  destruct (aget all_methods _) as [m|] eqn:Em; [|done]. exists m. split; [by apply aget_in|].
  intros k rule ty Hk Hrule Hty. unfold call_typed in Hc. rewrite Hsp, forallb_forall in Hc.
  apply list_elem_of_In in Hk. specialize (Hc _ Hk). cbn [fst snd] in Hc.
  rewrite Hrule, bool_decide_eq_true_2, forallb_forall in Hc by done.
  destruct (decide (k ∈ keys sp)) as [Hks|Hks].
  - apply list_elem_of_fmap in Hks as ([k' v] & -> & Hkv). cbn [fst] in *.
    apply list_elem_of_In in Hkv as Hkv'. specialize (Hc _ Hkv'). cbn [fst snd] in Hc. rewrite String.eqb_refl in Hc.
    cbn [negb orb] in Hc. destruct v; try discriminate. eapply requested_typed; eauto.
  - left. apply prop_not_key. unfold keys in *. by rewrite Hkeys.
Qed.
End Accepted.

(** A request for the stakers of a validator *)
Definition stakers_request : obj := [("address", Str "klyvalidator"); ("limit", Str "5")].

Definition stakers_forwarded : obj :=
  Eval vm_compute in match onBeforeCall (H := fun _ _ => []) (methodPaths true v3_strong) (route_alias true api_posStakers)
                             stakers_request with Ok p => p | Throw _ => [] end.

Lemma v3_request_typed_witness :
  prop stakers_forwarded "limit" = Num 5 /\
  (src_method (esource api_posStakers) = "gateway.spec" \/
   exists m, ("indexer.pos.stakers", m) ∈ all_methods /\
     forall k rule ty, (k, rule) ∈ md_params m -> rule_type rule = Str ty -> ty ∈ simple_types ->
       prop stakers_forwarded k = Undef \/ typeof (prop stakers_forwarded k) = ty).
Proof.
  split; [reflexivity|].
  apply (v3_request_typed (H := fun _ _ => []) "posStakers" api_posStakers
           (as_obj (src_params (esource api_posStakers))) stakers_request stakers_forwarded).
  - apply (list_elem_of_lookup_2 _ 45). vm_compute. reflexivity.
  - reflexivity.
  - intros k. unfold stakers_request. cbn [prop]. do 2 (destruct (String.eqb _ k); [right; by eexists|]). by left.
  - vm_compute. reflexivity.
Defined.
