(* ===== verification/DataQuery.v ===== *)
(** * Queries of the data service

    [blockchain-indexer/shared/utils/param.js] and the queries for blocks,
    block assets and transactions of [dataService/business/blocks.js] and
    [transactions.js]: how the parameters of a request become a query of the
    index, and how the answer is put together.  Fetching and formatting a block
    or a transaction is a parameter. *)
From S2P Require Import Prelude JsValue Database Engine Table World Schemas Mapper.
From Stdlib Require Import Ascii.
Local Open Scope Z_scope.

(** [s.includes(c)] *)
Definition includes (c : ascii) (s : string) : bool :=
  existsb (Ascii.eqb c) (String.list_ascii_of_string s).

(** [const { key, ...rest } = o] *)
Definition omit (o : obj) (key : string) : obj := filter (fun kv => fst kv <> key) o.

(** ** utils/param.js *)

Definition num_gt (a b : val) : bool := match a, b with Num x, Num y => y <? x | _, _ => false end.

Definition normalizeRangeParam (params : obj) (property : string) : result obj :=
  let propBetweens := match prop params "propBetweens" with Arr l => l | _ => [] end in
  match prop params property with
  | Str s =>
      if includes ":" s then
        let fromStr := default "" (split_on ":" s !! 0%nat) in
        let toStr := default "" (split_on ":" s !! 1%nat) in
        let from := js_Number (Str fromStr) in
        let to := js_Number (Str toStr) in
        if bool_decide (from = NaN) || bool_decide (to = NaN)
        then Throw ("Invalid (non-numeric) '" +:+ property +:+ "' range values supplied: " +:+ s +:+ ".")
        else if negb (String.eqb fromStr "") && negb (String.eqb toStr "") && num_gt from to
        then Throw ("From " +:+ property +:+ " cannot be greater than to " +:+ property +:+ ".")
        else
          let between :=
            if String.eqb fromStr "" then [("property", Str property); ("to", to)]
            else if String.eqb toStr "" then [("property", Str property); ("from", from)]
            else [("property", Str property); ("from", from); ("to", to)] in
          Ok (spread (omit params property) [("propBetweens", Arr (propBetweens ++ [Object between]))])
      else Ok params
  | _ => Ok params
  end.

(** The range parameters of a request, one after the other. *)
Definition range_given (params : obj) (property : string) : bool :=
  match prop params property with Str s => includes ":" s | _ => false end.

(** [params.timestamp && params.timestamp.includes(':')] *)
Definition timestamp_range_given (params : obj) : result bool :=
  match prop params "timestamp" with
  | Str s => Ok (includes ":" s)
  | Arr _ => Ok false
  | v => if truthy v then Throw "params.timestamp.includes is not a function" else Ok false
  end.

Definition normalizeRanges (params : obj) : result obj :=
  params ← (if range_given params "height" then normalizeRangeParam params "height" else Ok params);
  given ← timestamp_range_given params;
  if given : bool then normalizeRangeParam params "timestamp" else Ok params.

(** ** business/blocks.js *)

Definition isQueryFromIndex (params : obj) : bool :=
  let paramProps := fst <$> params in
  let directQueryParams := ["id"; "height"; "heightBetween"] in
  let defaultQueryParams := ["limit"; "offset"; "sort"] in
  let isDirectQuery :=
    (length (filter (fun p => p ∈ directQueryParams) paramProps) =? 1)%nat
    && forallb (fun p => bool_decide (p ∈ directQueryParams ++ defaultQueryParams)) paramProps in
  let desc := match prop params "sort" with
              | Str s => bool_decide (split_on ":" s !! 1%nat = Some "desc")
              | _ => false
              end in
  let limit1 := bool_decide (prop params "limit" = Num 1) in
  let offset0 := bool_decide (prop params "offset" = Num 0) in
  let isLatestBlockFetch :=
    ((length paramProps =? 1)%nat && limit1)
    || ((length paramProps =? 2)%nat && ((limit1 && offset0) || (desc && (limit1 || offset0))))
    || ((length paramProps =? 3)%nat && limit1 && offset0 && desc) in
  negb isDirectQuery && negb isLatestBlockFetch.

(** [if (params.blockID) { const { blockID, ...remParams } = params; params.id = blockID }] *)
Definition blockID_to_id (params : obj) : obj :=
  if truthy (prop params "blockID")
  then set_prop (omit params "blockID") "id" (prop params "blockID") else params.

(** [arr.slice(offset, offset + limit)] when both are given. *)
Definition slice_answer (params : obj) (data : list val) : list val :=
  if has_prop params "offset" && truthy (prop params "limit")
  then match prop params "offset", prop params "limit" with
       | Num o, Num l => take (Z.to_nat l) (drop (Z.to_nat o) data)
       | _, _ => data
       end
  else data.

Section DataQuery.
Context {St : Type} `{SqlEngine St}.

(** Asking the node for blocks and formatting them. *)
Variable getBlocksByIDs : list val -> M St (list val).
Variable getBlockByID : val -> M St val.
Variable getBlockByHeight : val -> M St val.
Variable getLastBlock : M St val.
(** [err.message.includes('does not exist')] *)
Variable does_not_exist : string -> bool.

Definition getBlocks (params : obj) : M St (list val * obj) :=
  params ← lift (normalizeRanges (blockID_to_id params));
  total ← read Auto (count blocksTableSchema params Undef);
  ids ← (if isQueryFromIndex params
         then rows ← read Auto (find blocksTableSchema params (Arr [Str "id"])); ret (Some ((fun row => prop row "id") <$> rows))
         else ret (match prop params "ids" with Arr l => Some l | _ => None end));
  data ← try_catch
    (match ids with
     | Some [] => ret []
     | Some ids => getBlocksByIDs ids
     | None =>
         if truthy (prop params "id") then
           b ← getBlockByID (prop params "id"); ret (slice_answer params [b])
         else if truthy (prop params "height") then
           b ← getBlockByHeight (js_Number (prop params "height")); ret (slice_answer params [b])
         else b ← getLastBlock; ret [b]
     end)
    (fun e => if does_not_exist e then ret [] else throw e);
  ret (data, [("count", Num (Z.of_nat (length data))); ("offset", prop params "offset"); ("total", Num total)]).

Definition filterBlockAssets (modules : list string) (block : obj) : list val :=
  match prop block "assets" with
  | Arr assets =>
      match modules with
      | [] => assets
      | _ => filter (fun asset => js_String (match asset with Object o => prop o "module" | _ => Undef end) ∈ modules) assets
      end
  | _ => []
  end.

Definition getBlocksAssets (params : obj) : M St (list val * obj) :=
  params ← lift (normalizeRanges (blockID_to_id params));
  let '(modules, params) :=
    if truthy (prop params "module") then
      let modules := split_on "," (js_String (prop params "module")) in
      (modules, set_prop (omit params "module") "whereJsonSupersetOf"
                  (Object [("property", Str "assetsModules"); ("values", Arr (Str <$> modules))]))
    else ([], params) in
  total ← read Auto (count blocksTableSchema params Undef);
  blocksFromDB ← read Auto (find blocksTableSchema params (Arr [Str "id"]));
  data ← map_each blocksFromDB (fun row =>
    b ← getBlockByID (prop row "id");
    let o := as_obj b in
    ret (Object [("block", Object [("id", prop o "id"); ("height", prop o "height"); ("timestamp", prop o "timestamp")]);
                 ("assets", Arr (filterBlockAssets modules o))]));
  ret (data, [("count", Num (Z.of_nat (length data))); ("offset", prop params "offset"); ("total", Num total)]).

(** ** business/transactions.js *)

Variable currentChainID : result val.

(** [str.trim()] for blanks. *)
Fixpoint trim_left (s : string) : string :=
  match s with String " " s => trim_left s | _ => s end.
Definition rev_string (s : string) : string :=
  String.string_of_list_ascii (reverse (String.list_ascii_of_string s)).
Definition trim (s : string) : string := rev_string (trim_left (rev_string (trim_left s))).

Definition validateParams (params : obj) : result obj :=
  params ← normalizeRanges params;
  if truthy (prop params "nonce") && negb (truthy (prop params "senderAddress"))
  then Throw "Nonce based retrieval is only possible along with senderAddress"
  else
    params ← (if truthy (prop params "receivingChainID") then
                current ← currentChainID;
                Ok (if bool_decide (prop params "receivingChainID" = current)
                    then set_prop params "receivingChainID" Null else params)
              else Ok params);
    let params :=
      match prop params "executionStatus" with
      | Str statuses =>
          if String.eqb statuses "" then params
          else set_prop (omit params "executionStatus") "whereIn"
                 (Object [("property", Str "executionStatus");
                          ("values", Arr (Str <$> filter (fun s => s <> "any") (trim <$> split_on "," statuses)))])
      | _ => params
      end in
    Ok (if truthy (prop params "address") then
          let address := prop params "address" in
          set_prop (set_prop (omit params "address") "orWhere" (Object [("recipientAddress", address)]))
            "orWhereWith" (Object [("senderAddress", address)])
        else params).

Variable getTransactionsByIDs : list val -> M St (list val).
Definition TX_BATCH_SIZE : nat := 25.

(** The ids of the result, requested in batches. *)
Fixpoint batches (n : nat) (ids : list val) : M St (list val) :=
  match n with
  | O => ret []
  | S n => l ← getTransactionsByIDs (take TX_BATCH_SIZE ids); rest ← batches n (drop TX_BATCH_SIZE ids); ret (l ++ rest)
  end.

Definition transaction_columns : val :=
  Arr (Str <$> ["id"; "timestamp"; "height"; "blockID"; "executionStatus"; "index"; "minFee"]).

(** The index rows of a request and the transactions the node returned for
    them. *)
Definition findTransactions (params : obj) : M St (list obj * list val * Z) :=
  params ← lift (validateParams params);
  total ← read Auto (count transactionsTableSchema params Undef);
  let limit := if truthy (prop params "limit") then prop params "limit" else Num total in
  resultSet ← read Auto (find transactionsTableSchema (set_prop params "limit" limit) transaction_columns);
  let ids := (fun row => prop row "id") <$> resultSet in
  data ← batches (Z.to_nat ((Z.of_nat (length ids) + 24) / 25)) ids;
  ret (resultSet, data, total).
End DataQuery.
