(* ===== verification/RangeSpec.v ===== *)
(** * Ranges from the gateway to the index

    A height or timestamp range that the gateway's pattern accepts is one the
    query code of the indexer can read. *)
From S2P Require Import Prelude JsValue Regex Mapper GatewaySources Gateway GatewayApi GatewaySpec Database Engine Table World DataQuery.
From Stdlib Require Import Ascii DecimalString.
Local Open Scope Z_scope.

Abbreviation chars s := (String.list_ascii_of_string s).
Abbreviation text w := (String.string_of_list_ascii w).

Definition digits (w : list ascii) : Prop := Forall (fun c => in_class [("0", "9")]%char c = true) w.

(** ** Texts of digits are numbers *)

Lemma digit_not_colon c : in_class [("0", "9")]%char c = true -> c <> ":"%char.
Proof. by intros Hd ->. Qed.

Lemma digit_uint c s u : in_class [("0", "9")]%char c = true ->
  NilEmpty.uint_of_string s = Some u -> exists u', NilEmpty.uint_of_string (String c s) = Some u'.
Proof.
  intros Hc Hu. destruct c as [[] [] [] [] [] [] [] []]; try discriminate Hc; simpl; rewrite Hu; simpl; eauto.
Qed.

Lemma digits_uint w : digits w -> exists u, NilEmpty.uint_of_string (text w) = Some u.
Proof.
  induction w as [|c w IH]; [by exists Decimal.Nil|]. intros [Hc Hw]%Forall_cons_1. destruct (IH Hw) as (u & Hu).
  simpl. by eapply digit_uint.
Qed.

Lemma digits_number w : digits w -> exists z, js_Number (Str (text w)) = Num z.
Proof.
  intros Hw. simpl. destruct (String.eqb_spec (text w) "") as [|Hne]; [eauto|].
  destruct w as [|c w]; [done|]. destruct (digits_uint _ Hw) as (u & Hu).
  unfold parse_Z, NilZero.int_of_string. simpl (text _) in *.
  apply Forall_cons_1 in Hw as [Hc _].
  destruct (Ascii.eqb_spec c "-") as [->|Hm]; [discriminate Hc|].
  unfold NilZero.uint_of_string. rewrite Hu. simpl. eauto.
Qed.

(** ** Splitting at the colon *)

Lemma has_char_text c w : c ∉ w -> has_char c (text w) = false.
Proof.
  induction w as [|a w IH]; [done|]. rewrite not_elem_of_cons. intros [Ha Hw]. simpl.
  destruct (Ascii.eqb_spec a c); [congruence|]. by apply IH.
Qed.

Lemma split_on_first c u v : c ∉ u -> split_on c (text (u ++ c :: v)) = text u :: split_on c (text v).
Proof.
  intros Hu%has_char_text. rewrite <- split_on_cons by done. f_equal. clear Hu. by induction u as [|a u IH]; simpl; [|rewrite IH].
Qed.

Lemma digits_no_colon w : digits w -> ":"%char ∉ w.
Proof. intros Hw Hin. by apply (proj1 (Forall_forall _ _) Hw), digit_not_colon in Hin. Qed.

(** ** What the range patterns accept *)

Lemma matches_repeat rs lo hi p q :
  Regex.matches (Rep (Class rs) lo hi) p q -> exists w, snd p = w ++ snd q /\ Forall (fun c => in_class rs c = true) w /\ (lo <= length w)%nat.
Proof.
  intros (n & Hlo & _ & H). revert H. assert (exists m, m = n) as (m & ->) by eauto.
  enough (forall m p, iter_rel m (Regex.matches (Class rs)) p q ->
    exists w, snd p = w ++ snd q /\ Forall (fun c => in_class rs c = true) w /\ length w = m) as Hgo.
  { intros (w & Hw & Hf & Hl)%Hgo. exists w. split_and!; [done..|lia]. }
  clear. induction m as [|m IH]; intros p; simpl.
  - intros ->. by exists [].
  - intros (p' & (c & s & E & Hc & ->) & (w & Hw & Hf & Hl)%IH). exists (c :: w). cbn [snd] in Hw.
    split_and!; [by rewrite E, Hw|by constructor|simpl; lia].
Qed.

Lemma colon_class p q : Regex.matches (Class [(":", ":")]%char) p q -> snd p = ":"%char :: snd q.
Proof.
  intros (c & s & E & Hc & ->). rewrite E. cbn [snd]. f_equal.
  destruct c as [[] [] [] [] [] [] [] []]; try discriminate Hc; reflexivity.
Qed.

(** A number, [:to], [from:] or [from:to]. *)
Lemma height_range_shape s : regex_test HEIGHT_RANGE s = true ->
  digits (chars s) \/ exists u v, digits u /\ digits v /\ (u <> [] \/ v <> []) /\ chars s = u ++ ":"%char :: v.
Proof.
  rewrite regex_test_correct. intros (c & Hm). unfold HEIGHT_RANGE in Hm. cbn [Regex.matches] in Hm.
  destruct Hm as [Hm|[(p & Hc & Hm)|(p & Hm & (q & Hc & (n & _ & Hn & Hr)))]].
  - apply matches_repeat in Hm as (w & Hw & Hd & _). left. cbn [snd] in Hw. rewrite Hw, app_nil_r. exact Hd.
  - right. apply matches_repeat in Hm as (w & Hw & Hd & Hl). apply colon_class in Hc. cbn [snd] in *.
    exists [], w. split_and!; [constructor|exact Hd| |].
    + right. by destruct w; [simpl in Hl; lia|].
    + rewrite Hc, Hw, app_nil_r. done.
  - right. apply matches_repeat in Hm as (w & Hw & Hd & Hl). apply colon_class in Hc. cbn [snd] in *.
    assert (exists v, digits v /\ snd q = v) as (v & Hv & Hq).
    { specialize (Hn 1%nat eq_refl). destruct n as [|[|]]; [..|lia]; cbn [iter_rel] in Hr.
      - subst q. exists []. split; [constructor|done].
      - destruct Hr as (r & (w' & Hw' & Hd' & _)%matches_repeat & ->). exists w'. cbn [snd] in Hw'. by rewrite app_nil_r in Hw'. }
    exists w, v. split_and!; [exact Hd|exact Hv| |].
    + left. by destruct w; [simpl in Hl; lia|].
    + by rewrite Hw, Hc, Hq.
Qed.

(** ** Reading an accepted range *)

(** The bounds a query gets. *)
Definition between (property : string) (lo hi : option Z) : obj :=
  ("property", Str property)
  :: match lo with Some z => [("from", Num z)] | None => [] end
  ++ match hi with Some z => [("to", Num z)] | None => [] end.

(** A single value is left alone; a range becomes a bounded query, unless its
    ends are in the wrong order, which is reported. *)
Definition readable (params : obj) (property s : string) : Prop :=
  (includes ":" s = false /\ normalizeRangeParam params property = Ok params) \/
  exists lo hi,
    (lo <> None \/ hi <> None) /\
    if match lo, hi with Some a, Some b => b <? a | _, _ => false end
    then normalizeRangeParam params property = Throw ("From " +:+ property +:+ " cannot be greater than to " +:+ property +:+ ".")
    else normalizeRangeParam params property
         = Ok (spread (omit params property)
                 [("propBetweens", Arr (match prop params "propBetweens" with Arr l => l | _ => [] end
                                        ++ [Object (between property lo hi)]))]).

Lemma existsb_colon w : digits w -> existsb (Ascii.eqb ":") w = false.
Proof.
  intros Hw. apply not_true_is_false. rewrite existsb_exists. intros (c & Hin & E%Ascii.eqb_eq). subst c.
  by apply (digits_no_colon _ Hw), list_elem_of_In.
Qed.

Lemma text_eq_empty w : String.eqb (text w) "" = bool_decide (w = []).
Proof. by destruct w. Qed.

Lemma range_readable params property s :
  prop params property = Str s -> regex_test HEIGHT_RANGE s = true -> readable params property s.
Proof.
  intros Hp [Hd|(u & v & Hu & Hv & Hne & Hs)]%height_range_shape; unfold readable, normalizeRangeParam, includes; rewrite Hp.
  - left. rewrite existsb_colon by done. done.
  - right. assert (Hs' : s = text (u ++ ":"%char :: v)) by (by rewrite <- Hs, String.string_of_list_ascii_of_string).
    rewrite Hs, existsb_app. cbn [existsb]. rewrite Ascii.eqb_refl, orb_true_r. cbv zeta.
    rewrite Hs', split_on_first, split_on_none by (try apply has_char_text; by apply digits_no_colon). cbn [lookup list_lookup default id].
    destruct (digits_number _ Hu) as (zu & Eu), (digits_number _ Hv) as (zv & Ev).
    exists (if bool_decide (u = []) then None else Some zu), (if bool_decide (v = []) then None else Some zv).
    split; [repeat case_bool_decide; naive_solver|].
    rewrite Eu, Ev, !text_eq_empty. simpl. repeat case_bool_decide; subst; try (naive_solver); simpl; by destruct (zv <? zu).
Qed.

(** ** From the request to the query *)

(** The rule of [fastest-validator] for a text with a pattern: a value that is
    given is a text and the pattern accepts it. *)
Class StringRule `{FastestValidator} := string_rule o specs k fields r :
  fv_validate o specs = [] -> aget specs k = Some (SO fields) ->
  aget fields "type" = Some (SV (Str "string")) -> aget fields "pattern" = Some (SRe r) ->
  prop o k <> Undef -> prop o k <> Null -> exists s, prop o k = Str s /\ regex_test r s = true.

Lemma aget_loose ps k fields :
  aget ps k = Some (SO fields) -> aget fields "type" = Some (SV (Str "string")) ->
  aget (looseSpecParams ps) k = Some (SO fields).
Proof.
  induction ps as [|[j s] ps IH]; [done|]. unfold looseSpecParams. rewrite fmap_cons. cbn [aget].
  destruct (String.eqb_spec j k) as [->|]; [|exact IH]. intros [= ->] Ht. unfold sprop. by rewrite Ht.
Qed.

Section Accepted.
Context `{StringRule}.

(** A height or timestamp range that reaches the indexer through an
    HTTP endpoint of version 3 can be read: it never leads to the error for
    non-numeric ranges, a single value is passed on, and a range becomes the
    bounds it names, or the error for bounds in the wrong order. *)
Theorem accepted_range_readable name e sp input p property fields s :
  (name, e) ∈ v3_strong -> src_params (esource e) = Object sp ->
  NoDup (keys input) -> (forall k, prop input k <> Null) ->
  (property, SO fields) ∈ params e -> aget fields "type" = Some (SV (Str "string")) ->
  aget fields "default" = None ->
  aget fields "pattern" = Some (SRe HEIGHT_RANGE) \/ aget fields "pattern" = Some (SRe TIMESTAMP_RANGE) ->
  (property, Str "=,string") ∈ sp ->
  onBeforeCall (methodPaths true v3_strong) (route_alias true e) input = Ok p -> prop p property = Str s ->
  readable p property s.
Proof.
  intros Hin Hsp Hndi Hnull Hpar Ht Hdef Hpat Hset Hp Hs. apply range_readable; [done|].
  pose proof (v3_wf _ _ (v3_strong_elem _ _ Hin)) as Hwf. unfold wf_request in Hwf.
  apply andb_true_iff in Hwf as [Hnd%bool_decide_eq_true_1 _].
  destruct (v3_request_values _ _ _ _ _ Hin Hsp Hnull Hp) as (_ & Hv & _ & Hvals).
  specialize (Hvals _ _ Hset).
  change (request_key property "=,string") with property in Hvals. change (request_type "=,string") with (Some "string") in Hvals.
  unfold requested, param_value, sprop in Hvals.
  rewrite (aget_elem _ _ _ Hnd Hpar), Ht, Hdef, Hs in Hvals.
  assert (Hpat' : aget fields "pattern" = Some (SRe HEIGHT_RANGE)) by (by destruct Hpat).
  assert (Hdrop : prop (dropEmptyProps input) property = non_empty (prop input property)) by (by apply prop_dropEmptyProps).
  assert (Hgiven : exists t, non_empty (prop input property) = t /\ t <> Undef /\ t <> Null /\ converted t (Some "string") = Ok (Str s)).
  { exists (non_empty (prop input property)). split; [done|]. revert Hvals. unfold non_empty. specialize (Hnull property).
    repeat case_bool_decide; try done; simpl; intros Hc; split_and!; try done; by intros E; rewrite E in Hc. }
  destruct Hgiven as (t & Et & Hu & Hn & Hc).
  destruct (string_rule _ _ property fields HEIGHT_RANGE Hv (aget_loose _ _ _ (aget_elem _ _ _ Hnd Hpar) Ht) Ht Hpat')
    as (s' & Es & Hr); [congruence..|].
  assert (t = Str s') as -> by congruence. simpl in Hc. by injection Hc as <-.
Qed.
End Accepted.

(** A validator that checks the rule for texts. *)
Definition breaks_text_rule (v : val) (sp : spec) : bool :=
  match sp with
  | SO fields =>
      match aget fields "type", aget fields "pattern", v with
      | _, _, Undef | _, _, Null => false
      | Some (SV (Str ty)), Some (SRe r), Str s => String.eqb ty "string" && negb (regex_test r s)
      | Some (SV (Str ty)), Some (SRe r), _ => String.eqb ty "string"
      | _, _, _ => false
      end
  | _ => false
  end.

#[local] Instance check_texts : FastestValidator := fun o ps =>
  fst <$> filter (fun kv => breaks_text_rule (prop o (fst kv)) (snd kv) = true) ps.

#[local] Instance check_texts_rule : StringRule.
Proof.
  intros o ps k fields r Hv Hk Ht Hr Hu Hn.
  assert (Hin : (k, SO fields) ∈ ps).
  { clear -Hk. induction ps as [|[j s] ps IH]; [done|]. cbn [aget] in Hk.
    destruct (String.eqb_spec j k) as [->|]; [injection Hk as ->; by left|right; auto]. }
  assert (Hok : breaks_text_rule (prop o k) (SO fields) = false).
  { apply not_true_is_false. intros Hb.
    assert (k ∈ fv_validate o ps) as Hn'; [|rewrite Hv in Hn'; by apply not_elem_of_nil in Hn'].
    apply list_elem_of_fmap. exists (k, SO fields). split; [done|]. by apply list_elem_of_filter. }
  unfold breaks_text_rule in Hok. rewrite Ht, Hr in Hok. destruct (prop o k) as [| | | | | |s| |]; try done.
  exists s. split; [done|]. by destruct (regex_test r s).
Qed.

Definition range_input : obj := [("height", Str "5:12")].
Definition range_request : result obj :=
  Eval vm_compute in onBeforeCall (methodPaths true v3_strong) (route_alias true api_blocks) range_input.

Lemma accepted_range_readable_witness :
  match range_request with
  | Ok p => readable p "height" "5:12"
  | Throw _ => False
  end.
Proof.
  assert (Hr : onBeforeCall (methodPaths true v3_strong) (route_alias true api_blocks) range_input = range_request)
    by (vm_compute; reflexivity).
  destruct range_request as [p|] eqn:E; [|discriminate].
  eapply (accepted_range_readable "blocks" api_blocks _ range_input p "height").
  - apply (list_elem_of_lookup_2 _ 7). vm_compute. reflexivity.
  - reflexivity.
  - apply (bool_decide_unpack _). vm_compute. exact I.
  - intros k. unfold range_input. cbn [prop]. destruct (String.eqb _ k); discriminate.
  - apply (list_elem_of_lookup_2 _ 1). vm_compute. reflexivity.
  - reflexivity.
  - reflexivity.
  - left. reflexivity.
  - apply (list_elem_of_lookup_2 _ 1). vm_compute. reflexivity.
  - exact Hr.
  - injection E as <-. reflexivity.
Defined.
