(* ===== verification/RequestAll.v ===== *)
(** * Paged requests

    [blockchain-indexer/shared/utils/requestAll.js] (the same code as
    [requestAllCustom] of [export/shared/helpers/requestAll.js]) and
    [transaction-statistics/shared/utils/requestAll.js]: fetching a long answer
    in pages.  The function that sends one request is a parameter. *)
From S2P Require Import Prelude JsValue.
Local Open Scope Z_scope.

Definition MAX_SAFE_INTEGER : Z := 2 ^ 53 - 1.

(** [x || d] for a number that may be missing. *)
Definition number_or (v : val) (d : Z) : Z :=
  match v with Num z => if z =? 0 then d else z | _ => d end.

(** [Math.ceil(a / b)] *)
Definition ceil_div (a b : Z) : Z := (a + b - 1) / b.

(** [framework/src/data.js] *)
Definition isEmptyArray (v : val) : bool := match v with Arr [] => true | _ => false end.
Definition isEmptyObject (v : val) : bool := match v with Object [] | Arr [] => true | _ => false end.

(** [{ ...params, limit, offset }] *)
Definition page_params (params : obj) (limit offset : Z) : obj :=
  spread params [("limit", Num limit); ("offset", Num offset)].

(** [total.push(...result)] *)
Definition push_all (total : list val) (v : val) : result (list val) :=
  match v with
  | Arr l => Ok (total ++ l)
  | _ => Throw "Spread syntax requires ...iterable[Symbol.iterator] to be a function"
  end.

(** One more page is added to the answer so far: arrays grow, objects are
    merged property by property, and other values are replaced. *)
Definition merge_page (total page : val) : result val :=
  match total with
  | Arr l => l ← push_all l page; Ok (Arr l)
  | Object o =>
      o ← foldM (fun acc '(dataKey, dataVal) =>
            new ← get page dataKey;
            match dataVal with
            | Arr l => l ← push_all l new; Ok (set_prop acc dataKey (Arr l))
            | Object d => Ok (set_prop acc dataKey (Object (spread d (match new with Object n => n | _ => [] end))))
            | _ => Ok (set_prop acc dataKey new)
            end) o o;
      Ok (Object o)
  | _ => Ok total
  end.

Section RequestAll.
Variable fn : obj -> result val.

(** The pages from [page] on, [n] of them at most. *)
Fixpoint request_pages (params : obj) (oneRequestLimit maxAmount : Z) (n : nat) (page : Z) (total : val) : result val :=
  match n with
  | O => Ok total
  | S n =>
      let curOffset := oneRequestLimit * page in
      r ← fn (page_params params (Z.min oneRequestLimit (maxAmount - curOffset)) curOffset);
      if negb (truthy r) || isEmptyArray r || isEmptyObject r then Ok total
      else total ← merge_page total r; request_pages params oneRequestLimit maxAmount n (page + 1) total
  end.

Definition requestAll (params : obj) (limit : option Z) : result val :=
  let maxAmount := match limit with Some l => if l =? 0 then MAX_SAFE_INTEGER else l | None => MAX_SAFE_INTEGER end in
  let oneRequestLimit := number_or (prop params "limit") 100 in
  totalResponse ← fn (page_params params oneRequestLimit 0);
  error ← get totalResponse "error";
  if negb (truthy error) && (oneRequestLimit <? maxAmount)
  then request_pages params oneRequestLimit maxAmount
         (Z.to_nat (ceil_div maxAmount oneRequestLimit - 1)) 1 totalResponse
  else Ok totalResponse.

(** The variant of the statistics service: the answer's [data] is collected,
    and the first answer tells how much there is. *)
Fixpoint request_data_pages (params : obj) (oneRequestLimit : Z) (n : nat) (page : Z) (data : list val) : result (list val) :=
  match n with
  | O => Ok data
  | S n =>
      r ← fn (page_params params oneRequestLimit (oneRequestLimit * page));
      d ← get r "data";
      match d with
      | Arr [] => Ok data
      | _ => data ← push_all data d; request_data_pages params oneRequestLimit n (page + 1) data
      end
  end.

Definition requestAllData (params : obj) (limit : Z) : result val :=
  let defaultMaxAmount := if limit =? 0 then 1000 else limit in
  let oneRequestLimit := number_or (prop params "limit") 100 in
  firstRequest ← fn (page_params params oneRequestLimit 0);
  data ← get firstRequest "data";
  error ← get data "error";
  if truthy error then Ok data
  else
    meta ← get firstRequest "meta";
    total ← get meta "total";
    let maxAmount := match total with
                     | Num t => if (t =? 0) || (defaultMaxAmount <? t) then defaultMaxAmount else t
                     | _ => defaultMaxAmount
                     end in
    if oneRequestLimit <? maxAmount then
      match data with
      | Arr l => l ← request_data_pages params oneRequestLimit
                       (Z.to_nat (ceil_div maxAmount oneRequestLimit - 1)) 1 l; Ok (Arr l)
      | _ => Throw "data.push is not a function"
      end
    else Ok data.
End RequestAll.

(** ** All pages together are the whole answer *)

(** [xs.slice(offset, offset + limit)] *)
Definition slice {A} (limit offset : Z) (xs : list A) : list A :=
  take (Z.to_nat limit) (drop (Z.to_nat offset) xs).

(** A service that pages through one list, in a property of its answer. *)
Definition pages_of (key : string) (xs : list val) (params : obj) (fn : obj -> result val) : Prop :=
  forall limit offset, 0 < limit -> 0 <= offset ->
    fn (page_params params limit offset) = Ok (Object [(key, Arr (slice limit offset xs))]).

Lemma take_slice {A} (xs : list A) n limit : 0 <= n -> 0 <= limit ->
  take (Z.to_nat n) xs ++ slice limit n xs = take (Z.to_nat (n + limit)) xs.
Proof.
  intros Hn Hl. unfold slice. rewrite Z2Nat.inj_add by done.
  rewrite <- (take_drop (Z.to_nat n) (take (Z.to_nat n + Z.to_nat limit) xs)).
  rewrite take_take, <- take_drop_commute. by rewrite Nat.min_l by lia.
Qed.

Lemma request_pages_slices fn key xs params one maxAmount n page :
  pages_of key xs params fn -> 0 < one -> 1 <= page -> one * (page + Z.of_nat n - 1) < maxAmount ->
  request_pages fn params one maxAmount n page (Object [(key, Arr (take (Z.to_nat (one * page)) xs))])
  = Ok (Object [(key, Arr (take (Z.to_nat (Z.max (one * page) (Z.min maxAmount (one * (page + Z.of_nat n))))) xs))]).
Proof.
  intros Hfn Hone. revert page; induction n as [|n IH]; intros page Hpage Hmax; cbn [request_pages].
  - rewrite Z.add_0_r in *. do 6 f_equal. lia.
  - cbv zeta. rewrite Hfn by nia. rewrite bind_ok. cbn [truthy negb isEmptyArray isEmptyObject orb].
    unfold merge_page. cbn [foldM get prop]. rewrite String.eqb_refl. simpl (_ ≫= _).
    cbn [set_prop]. rewrite String.eqb_refl. simpl (_ ≫= _). rewrite take_slice by nia.
    destruct (decide (one * (page + 1) <= maxAmount)) as [Hle|Hgt].
    + rewrite (Z.min_l one) by nia. replace (one * page + one) with (one * (page + 1)) by lia.
      rewrite IH by nia. do 6 f_equal. nia.
    + destruct n as [|n]; [|nia]. rewrite (Z.min_r one) by nia. cbn [request_pages]. do 6 f_equal. nia.
Qed.

Lemma requestAll_take fn key xs params n :
  pages_of key xs params fn -> key <> "error" -> 0 < number_or (prop params "limit") 100 -> 0 < n ->
  requestAll fn params (Some n)
  = Ok (Object [(key, Arr (take (Z.to_nat (Z.max n (number_or (prop params "limit") 100))) xs))]).
Proof.
  intros Hfn Hkey Hone Hn. unfold requestAll. cbv zeta. set (one := number_or _ _) in *.
  rewrite Hfn by lia. rewrite bind_ok. cbn [get prop]. rewrite (proj2 (String.eqb_neq key "error")) by done.
  rewrite bind_ok. cbn [truthy negb andb]. rewrite (proj2 (Z.eqb_neq n 0)) by lia.
  assert (Hfirst : slice one 0 xs = take (Z.to_nat (one * 1)) xs)
    by (unfold slice; by rewrite Z.mul_1_r).
  destruct (Z.ltb_spec one n).
  - assert (Hc : one * (ceil_div n one - 1) < n <= one * ceil_div n one).
    { unfold ceil_div. pose proof (Z.div_mod (n + one - 1) one ltac:(lia)).
      pose proof (Z.mod_pos_bound (n + one - 1) one Hone). lia. }
    rewrite Hfirst, (request_pages_slices _ _ _ _ _ _ _ _ Hfn) by nia. do 6 f_equal. nia.
  - rewrite Hfirst. do 6 f_equal. lia.
Qed.

(** [C26] Fetching in pages ends after [ceil(n / limit)] requests and gives the
    first [n] entries of the list the service pages through (the first page,
    when that is more): nothing is skipped, repeated or reordered at the page
    boundaries, whatever the page size and the length of the list. *)
Theorem requestAll_complete fn key xs params n :
  pages_of key xs params fn -> key <> "error" -> 0 < number_or (prop params "limit") 100 -> 0 < n ->
  requestAll fn params (Some n)
  = Ok (Object [(key, Arr (take (Z.to_nat (Z.max n (number_or (prop params "limit") 100))) xs))]).
Proof. apply requestAll_take. Qed.

(** A node that pages through five validators, asked for all of them two at a
    time. *)
Definition sample_pages (params : obj) : result val :=
  match prop params "limit", prop params "offset" with
  | Num l, Num o => Ok (Object [("validators", Arr (slice l o (Num <$> [1; 2; 3; 4; 5])))])
  | _, _ => Throw "bad request"
  end.

Lemma requestAll_complete_witness :
  requestAll sample_pages [("module", Str "pos"); ("limit", Num 2)] (Some 5)
  = Ok (Object [("validators", Arr (Num <$> [1; 2; 3; 4; 5]))]).
Proof.
  rewrite (requestAll_complete sample_pages "validators" (Num <$> [1; 2; 3; 4; 5])
             [("module", Str "pos"); ("limit", Num 2)] 5); [vm_compute; reflexivity| |discriminate|reflexivity..].
  intros limit offset _ _. reflexivity.
Defined.
