(* ===== verification/Coordinator.v ===== *)
(** * blockchain-coordinator: scheduling index jobs

    [shared/scheduler.js], [shared/sources/indexer.js], [shared/constants.js],
    [shared/utils/array.js] and [shared/eventsScheduler.js].  The coordinator
    asks the indexer which blocks are missing and adds one job per height to
    the queue of blocks.  The answers of the other services are parameters.
    Successive answers to the same question (the number of running jobs, whether
    the genesis block is indexed) are a list that the polling loops consume; a
    loop that is still waiting when the list ends has no result. *)
From S2P Require Import Prelude JsValue RequestAll MissingBlocks.
From stdpp Require Import sorting.
Local Open Scope Z_scope.

Definition MAX_BATCH_SIZE : Z := 15000.
Definition MAX_QUERY_RANGE : Z := 10000.

(** The queue of blocks, the queue of accounts, the event queue, and the
    answers still to come. *)
Record coordinator := Coordinator {
  blockQueue : list Z;
  accountQueue : list val;
  eventQueue : list val;
  jobCounts : list Z;
}.

Definition add_blocks (heights : list Z) (s : coordinator) : coordinator :=
  Coordinator (blockQueue s ++ heights) (accountQueue s) (eventQueue s) (jobCounts s).
Definition add_event (job : val) (s : coordinator) : coordinator :=
  Coordinator (blockQueue s) (accountQueue s) (eventQueue s ++ [job]) (jobCounts s).

Section Scheduler.
(** [config.job.indexMissingBlocks] *)
Variable skipThreshold : Z.
Variable maxBlocksToSchedule : Z.

(** [getLiveIndexingJobCount]: jobs in the queue plus jobs of the indexer; when
    the indexer does not answer, the threshold. *)
Definition liveIndexingJobCount (messageQueueJobCount : Z) (indexerJobCount : option Z) : Z :=
  messageQueueJobCount + default skipThreshold indexerJobCount.

(** The next answer of [getLiveIndexingJobCount]. *)
Definition next_count (s : coordinator) : option (Z * coordinator) :=
  match jobCounts s with
  | [] => None
  | c :: cs => Some (c, Coordinator (blockQueue s) (accountQueue s) (eventQueue s) cs)
  end.

Fixpoint wait_counts (counts : list Z) : option (list Z) :=
  match counts with
  | [] => None
  | c :: cs => if c <? skipThreshold then Some cs else wait_counts cs
  end.

Definition waitForJobCountToFallBelowThreshold (s : coordinator) : option coordinator :=
  counts ← wait_counts (jobCounts s);
  Some (Coordinator (blockQueue s) (accountQueue s) (eventQueue s) counts).

(** [blockHeights.sort((h1, h2) => h1 - h2)] *)
Definition sort_heights (heights : list Z) : list Z := merge_sort Z.le heights.

(** Batch [i] and the ones after it, [n] in all. *)
Fixpoint schedule_batches (n : nat) (i : Z) (heights : list Z) (s : coordinator) : option coordinator :=
  match n with
  | O => Some s
  | S n =>
      s ← waitForJobCountToFallBelowThreshold s;
      let batch := take (Z.to_nat MAX_BATCH_SIZE) (drop (Z.to_nat (i * MAX_BATCH_SIZE)) heights) in
      schedule_batches n (i + 1) heights (add_blocks batch s)
  end.

Definition scheduleBlocksIndexing (heights : list Z) (s : coordinator) : option coordinator :=
  let blockHeights := sort_heights heights in
  let numBatches := ceil_div (Z.of_nat (length blockHeights)) MAX_BATCH_SIZE in
  schedule_batches (Z.to_nat numBatches) 0 blockHeights s.

(** Every validator becomes a job of the account queue. *)
Definition scheduleValidatorsIndexing (validators : list obj) (s : coordinator) : coordinator :=
  Coordinator (blockQueue s)
    (accountQueue s ++ ((fun v => Object [("account", Object (spread v [("isValidator", Bool true)]))]) <$> validators))
    (eventQueue s) (jobCounts s).

(** ** The genesis block *)

(** [indexGenesisBlock] and [waitForGenesisBlockIndexing]: [answers] are the
    successive answers to [isGenesisBlockIndexed].  While jobs are running the
    question is asked again; without jobs the indexing failed and the block is
    scheduled once more. *)
Fixpoint indexGenesisBlock (genesisHeight : Z) (waiting : bool) (answers : list bool) (s : coordinator) : option coordinator :=
  match answers with
  | [] => None
  | true :: _ => Some s
  | false :: answers =>
      if waiting then
        '(jobCount, s) ← next_count s;
        indexGenesisBlock genesisHeight (1 <=? jobCount) answers s
      else
        s ← scheduleBlocksIndexing [genesisHeight] s;
        indexGenesisBlock genesisHeight true answers s
  end.

(** ** Missing blocks *)

Section Missing.
(** [requestIndexer('getMissingBlocks', { from, to })]: an error is not an
    array and counts as no answer. *)
Variable askMissingBlocks : Z -> Z -> option (list Z).
Variable genesisHeight currentHeight : Z.
Variable verifiedHeight : option Z.

(** [x || y] on heights *)
Definition height_or (h : option Z) (d : Z) : Z :=
  match h with Some z => if z =? 0 then d else z | None => d end.

Definition initIndexingScheduler (validators : list obj) (s : coordinator) : option coordinator :=
  let s := match validators with [] => s | _ => scheduleValidatorsIndexing validators s end in
  '(jobCount, s) ← next_count s;
  if skipThreshold <? jobCount then Some s
  else
    let lastVerifiedHeight := height_or verifiedHeight (genesisHeight + 1) in
    match askMissingBlocks lastVerifiedHeight currentHeight with
    | Some (h :: hs) => scheduleBlocksIndexing (h :: hs) s
    | _ => Some s
    end.

Definition blockIndexLowerRange : Z := height_or verifiedHeight genesisHeight.
Definition blockIndexHigherRange : Z := Z.min (blockIndexLowerRange + maxBlocksToSchedule) currentHeight.

Definition NUM_BATCHES : Z := ceil_div (blockIndexHigherRange - blockIndexLowerRange) MAX_QUERY_RANGE.

Definition batchStartHeight (i : Z) : Z := blockIndexLowerRange + i * MAX_QUERY_RANGE.
Definition batchEndHeight (i : Z) : Z := Z.min (batchStartHeight i + MAX_QUERY_RANGE) blockIndexHigherRange.

Definition missingBlocksByHeight : list Z :=
  i ← seqZ 0 NUM_BATCHES;
  match askMissingBlocks (batchStartHeight i) (batchEndHeight i) with
  | Some result => result
  | None => []
  end.

(** [getIndexStatus().data]: chain length, number of indexed blocks, last
    height. *)
Variable indexStatus : option (Z * Z * Z).

(** Up to 100 blocks that no range reported are taken from the tip. *)
Definition stillMissing : list Z :=
  match indexStatus with
  | None => []
  | Some (chainLength, numBlocksIndexed, lastBlockHeight) =>
      let numStillMissingJobs := chainLength - numBlocksIndexed - Z.of_nat (length missingBlocksByHeight) in
      if (0 <? numStillMissingJobs) && (numStillMissingJobs <=? 100)
      then range (lastBlockHeight - numStillMissingJobs + 1) (lastBlockHeight + 1) 1
      else []
  end.

Definition scheduleMissingBlocksIndexing (isGenesisBlockIndexed : bool) (s : coordinator) : option coordinator :=
  if negb isGenesisBlockIndexed then Some s
  else
    '(jobCount, s) ← next_count s;
    if skipThreshold <? jobCount then Some s
    else
      match missingBlocksByHeight ++ stillMissing with
      | [] => Some s
      | heights => scheduleBlocksIndexing heights s
      end.
End Missing.
End Scheduler.

(** ** eventsScheduler.js *)
Definition scheduleUpdatesOnNewBlock (block : val) : coordinator -> coordinator :=
  add_event (Object [("block", block); ("isNewBlock", Bool true)]).
Definition scheduleDeleteBlock (header : val) : coordinator -> coordinator :=
  add_event (Object [("header", header); ("isDeleteBlock", Bool true)]).
Definition scheduleUpdatesOnNewRound (payload : obj) : coordinator -> coordinator :=
  add_event (Object (spread payload [("isNewRound", Bool true)])).
Definition scheduleUpdatesOnNewTransaction (payload : obj) : coordinator -> coordinator :=
  add_event (Object (spread payload [("isTxPoolNewTransaction", Bool true)])).

(** ** Facts *)
Section Facts.
Variable skipThreshold maxBlocksToSchedule : Z.

Lemma sort_heights_permutation l : sort_heights l ≡ₚ l.
Proof. apply merge_sort_Permutation. Qed.

Lemma sort_heights_sorted l : Sorted Z.le (sort_heights l).
Proof. apply (Sorted_merge_sort _). Qed.

(** The batches put together are the list. *)
Lemma schedule_batches_spec n i heights s s' :
  0 <= i -> schedule_batches skipThreshold n i heights s = Some s' ->
  blockQueue s' = blockQueue s ++ take (n * Z.to_nat MAX_BATCH_SIZE) (drop (Z.to_nat (i * MAX_BATCH_SIZE)) heights) /\
  accountQueue s' = accountQueue s /\ eventQueue s' = eventQueue s.
Proof.
  revert i s; induction n as [|n IH]; intros i s Hi; cbn [schedule_batches].
  - intros [= <-]. rewrite take_0, app_nil_r. done.
  - unfold waitForJobCountToFallBelowThreshold. destruct (wait_counts _ _) as [cs|]; [|done]. cbn [mbind option_bind].
    intros (Hq & Ha & He)%IH; [|lia]. rewrite Hq, Ha, He. cbn [add_blocks blockQueue accountQueue eventQueue]. split; [|done].
    rewrite <- (assoc (++)). f_equal. replace (Z.to_nat ((i + 1) * MAX_BATCH_SIZE))
      with (Z.to_nat (i * MAX_BATCH_SIZE) + Z.to_nat MAX_BATCH_SIZE)%nat by (unfold MAX_BATCH_SIZE; lia).
    rewrite <- drop_drop. rewrite <- (take_drop (Z.to_nat MAX_BATCH_SIZE) (take (S n * _) _)).
    rewrite take_take. replace (S n * Z.to_nat MAX_BATCH_SIZE)%nat
      with (Z.to_nat MAX_BATCH_SIZE + n * Z.to_nat MAX_BATCH_SIZE)%nat by lia.
    rewrite Nat.min_l by lia. by rewrite <- take_drop_commute.
Qed.

Lemma ceil_div_enough a b : 0 < b -> a <= ceil_div a b * b.
Proof.
  intros Hb. unfold ceil_div. pose proof (Z.div_mod (a + b - 1) b ltac:(lia)).
  pose proof (Z.mod_pos_bound (a + b - 1) b Hb). lia.
Qed.

Lemma scheduleBlocksIndexing_spec heights s s' :
  scheduleBlocksIndexing skipThreshold heights s = Some s' ->
  blockQueue s' = blockQueue s ++ sort_heights heights /\
  accountQueue s' = accountQueue s /\ eventQueue s' = eventQueue s.
Proof.
  unfold scheduleBlocksIndexing. intros (Hq & Ha & He)%schedule_batches_spec; [|lia]. split; [|done].
  rewrite Hq. f_equal. rewrite Z.mul_0_l. change (Z.to_nat 0) with 0%nat. rewrite drop_0. apply take_ge.
  pose proof (ceil_div_enough (Z.of_nat (length (sort_heights heights))) MAX_BATCH_SIZE ltac:(reflexivity)). unfold MAX_BATCH_SIZE in *. lia.
Qed.

(** As many polls below the threshold as there are batches are enough. *)
Definition low_counts (counts : list Z) : nat := length (filter (fun c => c < skipThreshold) counts).

Lemma wait_counts_some counts : (1 <= low_counts counts)%nat ->
  exists cs, wait_counts skipThreshold counts = Some cs /\ low_counts counts = S (low_counts cs).
Proof.
  unfold low_counts. induction counts as [|c counts IH]; cbn [wait_counts]; [cbn; lia|]. rewrite filter_cons.
  destruct (Z.ltb_spec c skipThreshold); destruct (decide (c < skipThreshold)); try lia; [by exists counts|exact IH].
Qed.

Lemma schedule_batches_returns n i heights s : (n <= low_counts (jobCounts s))%nat ->
  exists s', schedule_batches skipThreshold n i heights s = Some s'.
Proof.
  revert i s; induction n as [|n IH]; intros i s Hn; cbn [schedule_batches]; [eauto|].
  unfold waitForJobCountToFallBelowThreshold. destruct (wait_counts_some (jobCounts s)) as (cs & -> & E); [lia|].
  cbn [mbind option_bind]. apply IH. cbn [add_blocks jobCounts]. lia.
Qed.

Lemma scheduleBlocksIndexing_returns heights s :
  (Z.to_nat (ceil_div (Z.of_nat (length heights)) MAX_BATCH_SIZE) <= low_counts (jobCounts s))%nat ->
  exists s', scheduleBlocksIndexing skipThreshold heights s = Some s'.
Proof.
  intros Hn. apply schedule_batches_returns. by rewrite (Permutation_length (sort_heights_permutation heights)).
Qed.

Section Indexed.
Variable heights : list Z.
Variable genesisHeight currentHeight : Z.
Variable verifiedHeight : option Z.
Variable indexStatus : option (Z * Z * Z).

(** The indexer answers from the heights in its index. *)
Definition ask (fromHeight toHeight : Z) : option (list Z) := Some (getMissingBlocks heights fromHeight toHeight).

Definition to_schedule : list Z :=
  missingBlocksByHeight maxBlocksToSchedule ask genesisHeight currentHeight verifiedHeight
  ++ stillMissing maxBlocksToSchedule ask genesisHeight currentHeight verifiedHeight indexStatus.

Definition lower_range : Z := blockIndexLowerRange genesisHeight verifiedHeight.
Definition batch_start (i : Z) : Z := batchStartHeight genesisHeight verifiedHeight i.
Definition batch_end (i : Z) : Z := batchEndHeight maxBlocksToSchedule genesisHeight currentHeight verifiedHeight i.
Definition num_batches : Z := NUM_BATCHES maxBlocksToSchedule genesisHeight currentHeight verifiedHeight.

Lemma scheduleMissing_spec s c cs :
  jobCounts s = c :: cs -> c <= skipThreshold ->
  (Z.to_nat (ceil_div (Z.of_nat (length to_schedule)) MAX_BATCH_SIZE) <= low_counts cs)%nat ->
  exists s', scheduleMissingBlocksIndexing skipThreshold maxBlocksToSchedule ask genesisHeight currentHeight
               verifiedHeight indexStatus true s = Some s' /\
  blockQueue s' = blockQueue s ++ sort_heights to_schedule.
Proof.
  intros Hs Hc Hlow. unfold scheduleMissingBlocksIndexing, next_count. rewrite Hs. cbn [negb mbind option_bind].
  rewrite (proj2 (Z.ltb_ge _ _)) by done. fold to_schedule. destruct to_schedule as [|h hs] eqn:E.
  - eexists. split; [done|]. cbn [blockQueue]. by rewrite app_nil_r.
  - destruct (scheduleBlocksIndexing_returns (h :: hs)
               (Coordinator (blockQueue s) (accountQueue s) (eventQueue s) cs)) as (s' & Hs'); [done|].
    exists s'. split; [done|]. by apply scheduleBlocksIndexing_spec in Hs' as (Hq & _).
Qed.

Lemma num_batches_nonempty i : 0 <= i < num_batches -> batch_start i < batch_end i <= batch_start i + MAX_QUERY_RANGE.
Proof.
  unfold num_batches, NUM_BATCHES, batch_start, batch_end, batchEndHeight, batchStartHeight, ceil_div, MAX_QUERY_RANGE.
  intros Hi. set (d := blockIndexHigherRange _ _ _ _ - blockIndexLowerRange _ _) in Hi.
  pose proof (Z.div_mod (d + 10000 - 1) 10000 ltac:(lia)). pose proof (Z.mod_pos_bound (d + 10000 - 1) 10000 ltac:(lia)). lia.
Qed.

(** What the question for batch [i] finds missing: the whole batch when fewer
    than three of its heights are indexed, otherwise the heights of the gaps
    whose next indexed height is above the start and below the end. *)
Definition found_in_batch (i m : Z) : Prop :=
  if indexedBlockCount heights (batch_start i) (batch_end i) <? 3
  then batch_start i <= m <= batch_end i
  else in_gap heights (batch_start i) (batch_end i) m.

Lemma elem_of_to_schedule m :
  NoDup heights -> (forall h, h ∈ heights -> 0 <= h) -> 0 <= lower_range ->
  m ∈ to_schedule <->
  (exists i, 0 <= i < num_batches /\ found_in_batch i m) \/
  m ∈ stillMissing maxBlocksToSchedule ask genesisHeight currentHeight verifiedHeight indexStatus.
Proof.
  intros Hnd Hpos Hlr. unfold to_schedule. rewrite elem_of_app. apply or_iff_compat_r.
  unfold missingBlocksByHeight. rewrite list_elem_of_bind.
  assert (Hq : forall i, 0 <= i < num_batches -> m ∈ getMissingBlocks heights (batch_start i) (batch_end i) <-> found_in_batch i m).
  { intros i Hi. pose proof (num_batches_nonempty i Hi). unfold found_in_batch.
    apply elem_of_getMissingBlocks; try done; unfold MAX_QUERY_RANGE, BATCH_SIZE in *; [|lia].
    unfold batch_start, batchStartHeight in *. unfold lower_range in Hlr. unfold MAX_QUERY_RANGE in *. lia. }
  split; intros (i & H1 & H2).
  - apply elem_of_seqZ in H2. exists i. split; [unfold num_batches; lia|]. apply Hq; [unfold num_batches; lia|done].
  - exists i. split; [by apply Hq|]. apply elem_of_seqZ. unfold num_batches in H1. lia.
Qed.

(** [C27] The job for missing blocks, started with the genesis block indexed,
    no more running jobs than the threshold, and one later poll below the
    threshold for every batch of jobs, ends, and appends to the queue, in
    ascending order, exactly these heights: for every query range of the
    coordinator with fewer than three indexed heights the whole range; for
    every other query range the heights of the gaps whose next indexed height
    lies above the start and below the end of the range (a gap that is closed
    only by the end itself, or by no indexed height of the range, is left to a
    later run); and the up to 100 heights at the tip that the index status
    shows to be missing beyond those. *)
Theorem missing_blocks_scheduled s c cs :
  NoDup heights -> (forall h, h ∈ heights -> 0 <= h) -> 0 <= lower_range ->
  jobCounts s = c :: cs -> c <= skipThreshold ->
  (Z.to_nat (ceil_div (Z.of_nat (length to_schedule)) MAX_BATCH_SIZE) <= low_counts cs)%nat ->
  exists s' jobs,
    scheduleMissingBlocksIndexing skipThreshold maxBlocksToSchedule ask genesisHeight currentHeight
      verifiedHeight indexStatus true s = Some s' /\
    blockQueue s' = blockQueue s ++ jobs /\ Sorted Z.le jobs /\
    forall m, m ∈ jobs <->
      (exists i, 0 <= i < num_batches /\ found_in_batch i m) \/
      m ∈ stillMissing maxBlocksToSchedule ask genesisHeight currentHeight verifiedHeight indexStatus.
Proof.
  intros Hnd Hpos Hlr Hs Hc Hlow. destruct (scheduleMissing_spec s c cs Hs Hc Hlow) as (s' & Hrun & Hq).
  exists s', (sort_heights to_schedule). split; [done|]. split; [done|]. split; [apply sort_heights_sorted|].
  intros m. rewrite sort_heights_permutation. by apply elem_of_to_schedule.
Qed.
End Indexed.
End Facts.

(** Heights 4 and 5 are missing; one poll starts the job, one its batch. *)
Definition sample_index : list Z := [0; 1; 2; 3; 6; 7; 8].
Definition sample_state : coordinator := Coordinator [] [] [] [10; 0].

Lemma missing_blocks_scheduled_witness :
  exists s' jobs,
    scheduleMissingBlocksIndexing 1000 25000 (ask sample_index) 0 20 None None true sample_state = Some s' /\
    blockQueue s' = jobs /\ 4 ∈ jobs /\ Sorted Z.le jobs.
Proof.
  destruct (missing_blocks_scheduled 1000 25000 sample_index 0 20 None None sample_state 10 [0])
    as (s' & jobs & Hrun & Hq & Hsort & Hfound).
  - apply (bool_decide_unpack _). vm_compute. exact I.
  - intros h Hh. apply list_elem_of_In in Hh. simpl in Hh. lia.
  - vm_compute. discriminate.
  - reflexivity.
  - lia.
  - vm_compute. lia.
  - exists s', jobs. split; [exact Hrun|]. split; [exact Hq|]. split; [|exact Hsort].
    apply Hfound. left. exists 0. split; [vm_compute; split; [discriminate|reflexivity]|].
    exists 6. split_and!; [apply (bool_decide_unpack _); vm_compute; exact I|vm_compute; reflexivity..| |left; vm_compute; discriminate].
    intros h Hh. apply list_elem_of_In in Hh. simpl in Hh. lia.
Defined.
