(* ===== verification/FeeEstimator.v ===== *)
(** * fee-estimator: dynamic fee estimates

    [shared/utils/dynamicFeesLIP.js], [shared/utils/dynamicFees.js] and
    [shared/dynamicFees.js].  Numbers are IEEE doubles ([SpecFloat]); the blocks
    of the chain and the fee constants come from the connector and are
    parameters.  The decay factor [alpha] of the moving average is fixed by the
    configuration ([Math.pow] and [toFixed]) and is a parameter too. *)
From S2P Require Import Prelude.
From Stdlib Require Import SpecFloat.
From stdpp Require Import sorting.
Local Open Scope Z_scope.

(** ** Doubles *)
Abbreviation double := spec_float.
Definition f_add (a b : double) : double := SFadd 53 1024 a b.
Definition f_sub (a b : double) : double := SFsub 53 1024 a b.
Definition f_mul (a b : double) : double := SFmul 53 1024 a b.
Definition f_div (a b : double) : double := SFdiv 53 1024 a b.
Definition f_lt (a b : double) : bool := SFltb a b.
(** The nearest double of an integer, and of a quotient of small integers. *)
Definition f_of_Z (z : Z) : double := binary_normalize 53 1024 z 0 false.
Definition f_ratio (p q : Z) : double := f_div (f_of_Z p) (f_of_Z q).
Definition f_zero : double := S754_zero false.

(** [Math.max] of two numbers. *)
Definition f_max (a b : double) : double :=
  match SFcompare a b with None => S754_nan | Some Lt => b | Some _ => a end.

(** [Math.floor], [Math.ceil] of a finite number. *)
Definition f_floor (x : double) : Z :=
  match x with
  | S754_finite s m e =>
      let z := if s then - Z.pos m else Z.pos m in
      if 0 <=? e then z * 2 ^ e else z / 2 ^ (- e)
  | _ => 0
  end.
Definition f_ceil (x : double) : Z :=
  match x with
  | S754_finite s m e =>
      let z := if s then - Z.pos m else Z.pos m in
      if 0 <=? e then z * 2 ^ e else - ((- z) / 2 ^ (- e))
  | _ => 0
  end.

(** ** Data *)
Record transaction := Transaction { fee : Z; minFee : Z; size : Z }.
Record block := Block { height : Z; block_id : string; transactions : list transaction }.
Record fees := Fees { low : double; med : double; high : double }.
Record estimate := Estimate {
  est : fees;
  blockHeight : Z;
  updated : option Z;
  blockID : option string;
}.

Record config := Config {
  quickAlgorithmEnabled : bool;
  fullAlgorithmEnabled : bool;
  coldStartBatchSize : Z;
  defaultStartBlockHeight : Z;
  emaBatchSize : Z;
  wavgDecayPercentage : Z;
  alpha : double;
}.
Definition medEstLowerPercentile : Z := 25.
Definition medEstUpperPercentile : Z := 75.
Definition highEstLowerPercentile : Z := 80.
Definition highEstUpperPercentile : Z := 100.
Definition cacheKeyFeeEstFull : string := "lastFeeEstimateFull".
Definition cacheKeyFeeEstQuick : string := "lastFeeEstimateQuick".

(** ** dynamicFeesLIP.js *)

Inductive mode := MEDIUM | HIGH.

Definition calculateBlockSize (b : block) : Z := foldl (fun acc t => acc + size t) 0 (transactions b).

(** [15 * 2 ** 10] *)
Definition maxBlockSize : Z := 15 * 2 ^ 10.
Definition lowerBytePos (m : mode) : Z :=
  f_ceil (f_mul (f_ratio (match m with MEDIUM => medEstLowerPercentile | HIGH => highEstLowerPercentile end) 100)
            (f_of_Z maxBlockSize)).
Definition upperBytePos (m : mode) : Z :=
  f_floor (f_mul (f_ratio (match m with MEDIUM => medEstUpperPercentile | HIGH => highEstUpperPercentile end) 100)
             (f_of_Z maxBlockSize)).

(** A transaction with its fee priority. *)
Abbreviation detail := (transaction * double)%type.

(** One transaction: the bytes of it that fall into the range add to the
    total. *)
Definition avg_step (lo up : Z) (acc : Z * double) (t : detail) : Z * double :=
  let '(currentBytePos, total) := acc in
  let sz := size (fst t) in
  let total :=
    if (currentBytePos <=? lo) && (lo <? currentBytePos + sz) && (currentBytePos + sz <=? up)
    then f_add total (f_mul (snd t) (f_of_Z (currentBytePos + sz - lo + 1))) else total in
  let total :=
    if (lo <=? currentBytePos) && (currentBytePos + sz <=? up)
    then f_add total (f_mul (snd t) (f_of_Z sz)) else total in
  let total :=
    if (lo <=? currentBytePos) && (currentBytePos <=? up) && (up <=? currentBytePos + sz)
    then f_add total (f_mul (snd t) (f_of_Z (up - currentBytePos + 1))) else total in
  (currentBytePos + sz, total).

Definition calculateAvgFeePerByte (m : mode) (details : list detail) : double :=
  let lo := lowerBytePos m in
  let up := upperBytePos m in
  let total := snd (foldl (avg_step lo up) (0, f_zero) details) in
  f_div total (f_of_Z (up - lo + 1)).

(** Sum, total weight and weight of the next block. *)
Definition wavg_step (decayFactor : double) (acc : double * double * double) (blockSize : Z) : double * double * double :=
  let '(sum, totalWeight, weight) := acc in
  (f_add sum (f_mul (f_of_Z blockSize) weight), f_add totalWeight weight, f_mul weight decayFactor).

Section Estimator.
Variable cfg : config.

Definition calculateWeightedAvg (blocks : list block) : double :=
  let decayFactor := f_sub (f_of_Z 1) (f_ratio (wavgDecayPercentage cfg) 100) in
  let '(sum, totalWeight, _) :=
    foldl (wavg_step decayFactor) (f_zero, f_zero, f_of_Z 1) (calculateBlockSize <$> blocks) in
  f_div sum totalWeight.

(** [Number(BigInt(tx.fee) - BigInt(tx.minFee)) / tx.size] *)
Definition feePriority (t : transaction) : double := f_div (f_of_Z (fee t - minFee t)) (f_of_Z (size t)).

(** Not greater: the order of [(t1, t2) => t1.feePriority - t2.feePriority]. *)
Definition priority_le (a b : detail) : Prop := f_lt (snd b) (snd a) = false.
#[export] Instance priority_le_dec : RelDecision priority_le.
Proof. intros a b. unfold priority_le. apply _. Defined.

Definition calculateFeePerByte (b : block) : result fees :=
  let details := merge_sort priority_le ((fun t => (t, feePriority t)) <$> transactions b) in
  low ← (if calculateBlockSize b <? 12800 then Ok f_zero
         else match details with
              | t :: _ => Ok (snd t)
              | [] => Throw "Cannot read properties of undefined (reading 'feePriority')"
              end);
  let med := calculateAvgFeePerByte MEDIUM details in
  let high := f_max (calculateAvgFeePerByte HIGH details)
                (f_add (f_mul (f_ratio 13 10) med) (f_of_Z 1)) in
  Ok (Fees low med high).

Definition ema (new prev : double) : double :=
  f_add (f_mul (alpha cfg) new) (f_mul (f_sub (f_of_Z 1) (alpha cfg)) prev).

Definition EMAcalc (feePerByte prev : fees) : fees :=
  Fees (ema (low feePerByte) (low prev)) (ema (med feePerByte) (med prev)) (ema (high feePerByte) (high prev)).

(** [12.5 * 2 ** 10] and [14.8 * 2 ** 10] *)
Definition congested_avg : double := f_of_Z 12800.
Definition congested_last : double := f_mul (f_ratio 148 10) (f_of_Z 1024).

(** The newest block comes first in the batch. *)
Definition getEstimateFeePerByteForBlock (now : Z) (batch : list block) (prev : fees) : result estimate :=
  match batch with
  | [] => Throw "Cannot read properties of undefined (reading 'transactions')"
  | b :: _ =>
      let wavgBlockBatch := calculateWeightedAvg batch in
      let sizeLastBlock := f_of_Z (calculateBlockSize b) in
      feePerByte ← calculateFeePerByte b;
      let f := if f_lt congested_avg wavgBlockBatch || f_lt congested_last sizeLastBlock
               then EMAcalc feePerByte prev else Fees f_zero f_zero f_zero in
      Ok (Estimate f (height b) (Some now) (Some (block_id b)))
  end.

(** ** dynamicFees.js *)

Variable genesisHeight : Z.
(** [getBlockByHeight]: a height the chain does not have gives an error. *)
Variable getBlockByHeight : Z -> option block.
Variable now : Z.

Abbreviation cache := (gmap string estimate).

Definition finalEMABatchSize (prevHeight : Z) : Z :=
  let maxEMABasedOnHeight := prevHeight - genesisHeight in
  if maxEMABasedOnHeight <? emaBatchSize cfg then maxEMABasedOnHeight + 1 else emaBatchSize cfg.

(** The heights one round asks for, newest first. *)
Definition batch_heights (prevHeight : Z) : list Z :=
  (fun i => prevHeight + 1 - i) <$> seqZ 0 (finalEMABatchSize prevHeight).

Definition fetch (h : Z) : result block :=
  match getBlockByHeight h with Some b => Ok b | None => Throw "block does not exist" end.

(** The outcome of a loop that is still running when its fuel ends. *)
Definition still_running : string := "(still running)".

(** [do { ... } while (toHeight > prevFeeEstPerByte.blockHeight)], storing
    intermediate estimates. *)
Fixpoint estimate_loop (fuel : nat) (toHeight : Z) (key : string) (prev : estimate) (c : cache) : result estimate * cache :=
  match fuel with
  | O => (Throw still_running, c)
  | S fuel =>
      match mapM_result fetch (batch_heights (blockHeight prev)) ≫= fun batch =>
              getEstimateFeePerByteForBlock now batch (est prev) with
      | Throw e => (Throw e, c)
      | Ok next =>
          if blockHeight next <? toHeight
          then estimate_loop fuel toHeight key next (<[key := next]> c)
          else (Ok next, <[key := next]> c)
      end
  end.

(** [Math.max(defaultStartBlockHeight, genesisHeight + 1, fromHeight)] *)
Definition first_height (fromHeight : Z) : Z :=
  Z.max (defaultStartBlockHeight cfg) (Z.max (genesisHeight + 1) fromHeight).

(** Where the loop starts: below the first height, or at the cached estimate
    of the full algorithm. *)
Definition start_estimate (fromHeight : Z) (key : string) (c : cache) : option estimate :=
  let fromHeight := first_height fromHeight in
  let cachedFeeEstimateHeight :=
    if String.eqb key cacheKeyFeeEstQuick then 0
    else match c !! key with Some e => blockHeight e | None => 0 end in
  if cachedFeeEstimateHeight <? fromHeight
  then Some (Estimate (Fees f_zero f_zero f_zero) (fromHeight - 1) None None)
  else c !! key.

Definition getEstimateFeePerByteForBatch (fromHeight toHeight : Z) (key : string) (c : cache) : result estimate * cache :=
  match start_estimate fromHeight key c with
  | None => (Throw "Cannot read properties of undefined (reading 'blockHeight')", c)
  | Some prev => estimate_loop (S (Z.to_nat (toHeight - blockHeight prev))) toHeight key prev c
  end.

(** The table of running estimations is frozen, so it never stops a run; an
    error leaves the cached estimate as the result. *)
Definition checkAndProcessExecution (fromHeight toHeight : Z) (key : string) (c : cache) : option estimate * cache :=
  match getEstimateFeePerByteForBatch fromHeight toHeight key c with
  | (Ok e, c') => (Some e, c')
  | (Throw _, c') => (c !! key, c')
  end.

Definition calculateEstimateFeePerByteFull (latest : Z) (c : cache) : option estimate * cache :=
  checkAndProcessExecution (defaultStartBlockHeight cfg) latest cacheKeyFeeEstFull c.
Definition calculateEstimateFeePerByteQuick (latest : Z) (c : cache) : option estimate * cache :=
  checkAndProcessExecution (latest - coldStartBatchSize cfg) latest cacheKeyFeeEstQuick c.

(** The two readers use each other's key. *)
Definition getEstimateFeePerByteQuick (c : cache) : option estimate := c !! cacheKeyFeeEstFull.
Definition getEstimateFeePerByteFull (c : cache) : option estimate := c !! cacheKeyFeeEstQuick.

Inductive answer :=
| Unavailable (message : string)
| Available (e : estimate).

(** An estimate with all its fields that is not too old. *)
Definition valid_estimate (latest allowedLag : Z) (e : option estimate) : option estimate :=
  match e with
  | Some e => if match updated e, blockID e with Some _, Some _ => true | _, _ => false end
                 && (latest - blockHeight e <=? allowedLag)
              then Some e else None
  | None => None
  end.

Definition getEstimateFeePerByte (latest : Z) (c : cache) : answer :=
  if negb (quickAlgorithmEnabled cfg) && negb (fullAlgorithmEnabled cfg)
  then Unavailable "The dynamic fees algorithm has not been enabled."
  else match valid_estimate latest 15 (getEstimateFeePerByteFull c) with
       | Some e => Available e
       | None =>
           match valid_estimate latest 5 (getEstimateFeePerByteQuick c) with
           | Some e => Available e
           | None => Unavailable "The estimates are currently under processing. Please retry in 30 seconds."
           end
       end.

(** A new block: the full estimate, then the quick one; the quick one is
    announced. *)
Definition newBlockListener (latest : Z) (c : cache) : option (option estimate) * cache :=
  let c := if fullAlgorithmEnabled cfg then snd (calculateEstimateFeePerByteFull latest c) else c in
  if quickAlgorithmEnabled cfg
  then let '(e, c) := calculateEstimateFeePerByteQuick latest c in (Some e, c)
  else (None, c).
End Estimator.

(** ** Facts *)
Section Facts.
Variable cfg : config.
Variable genesisHeight : Z.
Variable getBlockByHeight : Z -> option block.
Variable now : Z.

Lemma calculateFeePerByte_total b : exists f, calculateFeePerByte b = Ok f.
Proof.
  unfold calculateFeePerByte. cbv zeta. destruct (Z.ltb_spec (calculateBlockSize b) 12800); [eauto|].
  destruct (merge_sort _ _) as [|d l] eqn:E; [|eauto]. exfalso.
  pose proof (merge_sort_Permutation priority_le ((fun t => (t, feePriority t)) <$> transactions b)) as Hp.
  rewrite E in Hp. apply Permutation_nil, fmap_nil_inv in Hp. unfold calculateBlockSize in *. rewrite Hp in *. simpl in *. lia.
Qed.

(** Every round asks for existing blocks after the genesis block. *)
Lemma batch_heights_range prevHeight h : 1 <= emaBatchSize cfg -> genesisHeight <= prevHeight ->
  h ∈ batch_heights cfg genesisHeight prevHeight -> genesisHeight < h <= prevHeight + 1.
Proof.
  intros He Hp. unfold batch_heights, finalEMABatchSize. intros (i & -> & Hi%elem_of_seqZ)%list_elem_of_fmap.
  destruct (Z.ltb_spec (prevHeight - genesisHeight) (emaBatchSize cfg)); lia.
Qed.

Lemma batch_heights_cons prevHeight : 1 <= emaBatchSize cfg -> genesisHeight <= prevHeight ->
  exists hs, batch_heights cfg genesisHeight prevHeight = (prevHeight + 1) :: hs.
Proof.
  intros He Hp. unfold batch_heights.
  assert (Hs : 0 < finalEMABatchSize cfg genesisHeight prevHeight)
    by (unfold finalEMABatchSize; destruct (Z.ltb_spec (prevHeight - genesisHeight) (emaBatchSize cfg)); lia).
  rewrite seqZ_cons by done. rewrite fmap_cons. eexists. f_equal. lia.
Qed.

Section Chain.
Variable toHeight : Z.
Hypothesis Hchain : forall h, genesisHeight < h <= toHeight -> exists b, getBlockByHeight h = Some b /\ height b = h.
Hypothesis Hema : 1 <= emaBatchSize cfg.

Lemma fetch_batch hs : (forall h, h ∈ hs -> genesisHeight < h <= toHeight) ->
  exists bs, mapM_result (fetch getBlockByHeight) hs = Ok bs /\ height <$> bs = hs.
Proof.
  induction hs as [|h hs IH]; intros Hh; [by exists []|].
  destruct (Hchain h) as (b & Hb & Eb); [apply Hh; by left|].
  destruct IH as (bs & Hbs & Ebs); [intros; apply Hh; by right|].
  exists (b :: bs). cbn [mapM_result].
  assert (fetch getBlockByHeight h = Ok b) as -> by (unfold fetch; by rewrite Hb). rewrite bind_ok, Hbs. split; [done|].
  rewrite fmap_cons. by rewrite Eb, Ebs.
Qed.

Lemma estimate_step prev : genesisHeight <= blockHeight prev < toHeight ->
  exists next, (mapM_result (fetch getBlockByHeight) (batch_heights cfg genesisHeight (blockHeight prev)) ≫= fun batch =>
                  getEstimateFeePerByteForBlock cfg now batch (est prev)) = Ok next /\
               blockHeight next = blockHeight prev + 1.
Proof.
  intros Hp. destruct (fetch_batch (batch_heights cfg genesisHeight (blockHeight prev))) as (bs & -> & Ebs).
  { intros h Hh%batch_heights_range; [lia|done|lia]. }
  destruct (batch_heights_cons (blockHeight prev) Hema) as (hs & Ehs); [lia|]. rewrite Ehs in Ebs.
  destruct bs as [|b bs]; [done|]. rewrite fmap_cons in Ebs. injection Ebs as Eb _.
  rewrite bind_ok. unfold getEstimateFeePerByteForBlock. cbv zeta.
  destruct (calculateFeePerByte_total b) as (f & ->). rewrite bind_ok. eexists. split; [done|]. done.
Qed.

(** One round: the blocks of the batch are fetched and the estimate of the
    next height is computed from them and the previous estimate. *)
Definition round (prev next : estimate) : Prop :=
  (mapM_result (fetch getBlockByHeight) (batch_heights cfg genesisHeight (blockHeight prev)) ≫= fun batch =>
     getEstimateFeePerByteForBlock cfg now batch (est prev)) = Ok next.

Lemma estimate_loop_ends fuel key prev c :
  genesisHeight <= blockHeight prev < toHeight -> toHeight - blockHeight prev <= Z.of_nat fuel ->
  exists e c', estimate_loop cfg genesisHeight getBlockByHeight now fuel toHeight key prev c = (Ok e, c') /\
               nsteps round (Z.to_nat (toHeight - blockHeight prev)) prev e /\
               blockHeight e = toHeight /\ c' !! key = Some e /\ forall k, k <> key -> c' !! k = c !! k.
Proof.
  revert prev c; induction fuel as [|fuel IH]; intros prev c Hp Hf; [lia|]. cbn [estimate_loop].
  destruct (estimate_step prev Hp) as (next & E & Hn). rewrite E.
  assert (Z.to_nat (toHeight - blockHeight prev) = S (Z.to_nat (toHeight - blockHeight next))) as -> by lia.
  destruct (Z.ltb_spec (blockHeight next) toHeight).
  - destruct (IH next (<[key := next]> c)) as (e & c' & Hl & Hr & He & Hk & Ho); [lia|lia|].
    exists e, c'. split; [done|]. split; [by apply (nsteps_l _ _ _ next)|]. split; [done|]. split; [done|].
    intros k Hne. rewrite Ho by done. by rewrite lookup_insert_ne.
  - exists next, (<[key := next]> c). split; [done|].
    replace (Z.to_nat (toHeight - blockHeight next)) with 0%nat by lia.
    split; [by apply nsteps_once|]. split; [lia|]. rewrite lookup_insert_eq. split; [done|].
    intros k Hne. by rewrite lookup_insert_ne.
Qed.

(** The starting point is never below the genesis block. *)
Lemma start_estimate_some fromHeight key c : 0 <= genesisHeight ->
  exists prev, start_estimate cfg genesisHeight fromHeight key c = Some prev /\ genesisHeight <= blockHeight prev.
Proof.
  intros Hg. unfold start_estimate. cbv zeta.
  assert (genesisHeight + 1 <= first_height cfg genesisHeight fromHeight) by (unfold first_height; lia).
  destruct (String.eqb key cacheKeyFeeEstQuick).
  - rewrite (proj2 (Z.ltb_lt _ _)) by lia. eexists. split; [done|]. cbn [blockHeight]. lia.
  - destruct (c !! key) as [e|]; destruct (_ <? _) eqn:E; apply Z.ltb_lt in E || apply Z.ltb_ge in E; try lia;
      eexists; (split; [done|]); cbn [blockHeight]; lia.
Qed.

(** The loop runs at least once: an estimate that has already reached the tip
    of the chain leads to a request for a block that does not exist, and the
    cached estimate stays. *)
Lemma estimate_at_tip fromHeight key c prev :
  getBlockByHeight (blockHeight prev + 1) = None ->
  start_estimate cfg genesisHeight fromHeight key c = Some prev -> genesisHeight <= blockHeight prev ->
  checkAndProcessExecution cfg genesisHeight getBlockByHeight now fromHeight toHeight key c = (c !! key, c).
Proof.
  intros Hb Hs Hp. unfold checkAndProcessExecution, getEstimateFeePerByteForBatch. rewrite Hs. cbn [estimate_loop].
  destruct (batch_heights_cons (blockHeight prev) Hema Hp) as (hs & ->). cbn [mapM_result].
  assert (exists e, fetch getBlockByHeight (blockHeight prev + 1) = Throw e) as (e & ->) by (unfold fetch; rewrite Hb; eauto). done.
Qed.

(** [C28] The fee computation ends, whatever is cached: the chain has every
    block from the one after genesis up to [toHeight], its tip, and none
    above.  From a starting point below the tip, exactly one round per block
    leads to the estimate for the tip, which is returned and cached under the
    key of the algorithm; from a starting point at or above the tip (a cached
    estimate that is already there) the cached estimate is returned and the
    cache stays.  No other cached estimate changes. *)
Theorem fee_estimation_ends fromHeight key c :
  0 <= genesisHeight -> (forall h, toHeight < h -> getBlockByHeight h = None) ->
  exists prev r c', start_estimate cfg genesisHeight fromHeight key c = Some prev /\
    checkAndProcessExecution cfg genesisHeight getBlockByHeight now fromHeight toHeight key c = (r, c') /\
    (forall k, k <> key -> c' !! k = c !! k) /\
    (blockHeight prev < toHeight ->
       exists e, nsteps round (Z.to_nat (toHeight - blockHeight prev)) prev e /\
         blockHeight e = toHeight /\ r = Some e /\ c' !! key = Some e) /\
    (toHeight <= blockHeight prev -> r = c !! key /\ c' = c).
Proof.
  intros Hg Htip. destruct (start_estimate_some fromHeight key c Hg) as (prev & Hs & Hp). exists prev.
  destruct (decide (blockHeight prev < toHeight)) as [Hlt|Hge].
  - destruct (estimate_loop_ends (S (Z.to_nat (toHeight - blockHeight prev))) key prev c)
      as (e & c' & El & Hr & He & Hk & Ho); [lia|lia|].
    exists (Some e), c'. unfold checkAndProcessExecution, getEstimateFeePerByteForBatch. rewrite Hs, El.
    split_and!; try done; [eauto|lia].
  - exists (c !! key), c. rewrite (estimate_at_tip fromHeight key c prev) by (auto; apply Htip; lia).
    split_and!; try done; lia.
Qed.
End Chain.
End Facts.

(** ** A short chain *)
Definition sample_config : config := Config true true 1 1 20 10 (f_ratio 3406 100000).
Definition sample_chain (h : Z) : option block :=
  if (0 <? h) && (h <=? 3) then Some (Block h "b" [Transaction 200000 100000 13000; Transaction 300000 100000 2000])
  else None.

Lemma fee_estimation_ends_witness :
  exists e c', checkAndProcessExecution sample_config 0 sample_chain 0 1 3 cacheKeyFeeEstFull ∅ = (Some e, c') /\
    blockHeight e = 3.
Proof.
  destruct (fee_estimation_ends sample_config 0 sample_chain 0 3) with
    (fromHeight := 1) (key := cacheKeyFeeEstFull) (c := ∅ : gmap string estimate)
    as (prev & r & c' & Hs & Hrun & _ & Hlt & _).
  - intros h Hh. unfold sample_chain. rewrite (proj2 (Z.ltb_lt 0 h)), (proj2 (Z.leb_le h 3)) by lia. eexists. split; [reflexivity|done].
  - vm_compute. discriminate.
  - lia.
  - intros h Hh. unfold sample_chain. rewrite (proj2 (Z.leb_gt h 3)) by lia. by rewrite andb_false_r.
  - vm_compute in Hs. injection Hs as <-. destruct Hlt as (e & _ & He & -> & _); [vm_compute; reflexivity|].
    exists e, c'. split; [exact Hrun|exact He].
Defined.

(** The quick estimate is served with the age allowed for the full one: an
    estimate of the quick algorithm that is 15 blocks old is valid. *)
Lemma quick_estimate_served_as_full :
  let e := Estimate (Fees f_zero f_zero f_zero) 85 (Some 0) (Some "b") in
  getEstimateFeePerByte sample_config 100 {[ cacheKeyFeeEstQuick := e ]} = Available e /\
  getEstimateFeePerByte sample_config 100 {[ cacheKeyFeeEstFull := e ]}
  = Unavailable "The estimates are currently under processing. Please retry in 30 seconds.".
Proof. vm_compute. done. Qed.
