(* ===== verification/TransactionStats.v ===== *)
(** * transaction-statistics: daily statistics

    [shared/buildTransactionStatistics.js], the queries of
    [shared/transactionStatistics.js] and the table schema.  A day's
    transactions are counted by type and amount range; the rows are stored in
    one database transaction.  Dates come from [moment] and amount ranges from
    [Math.log10], both parameters. *)
From stdpp Require Import sorting.
From S2P Require Import Prelude JsValue Database Engine Table World RequestAll BlockIndex.
Local Open Scope Z_scope.

Definition ANY : string := "any".
Definition UNAVAILABLE : string := "na".
Definition DATE_FORMAT_DAY : string := "YYYY-MM-DD".
Definition DATE_FORMAT_MONTH : string := "YYYY-MM".

Definition txStatisticsTableSchema : table :=
  mkTable "transaction_statistics" (Str "id") None
    [("amount_range", col "string");
     ("count", col "integer");
     ("date", col "integer");
     ("id", col "string");
     ("moduleCommand", col "string");
     ("volume", col "bigInteger");
     ("tokenID", coln "string" false)]
    [("date", "range"); ("tokenID", "key")]
    [].

(** ** Data *)

(** A transaction as the indexer returns it. *)
Record tx := Tx { moduleCommand : string; fee : val; params : obj }.

Record stat := Stat { count : Z; volume : Z; tokenID : string }.

(** Statistics by type and amount range. *)
Abbreviation stats := (gmap string (gmap string stat)).

(** [s.endsWith(suffix)] *)
Fixpoint endsWith (suffix s : string) : bool :=
  String.eqb s suffix || match s with "" => false | String _ s => endsWith suffix s end.

(** [BigNumber(x)] of the text or number a transaction carries. *)
Definition bignumber (v : val) : Z :=
  match v with
  | Num z | BigI z => z
  | Str s => default 0 (parse_Z s)
  | _ => 0
  end.

(** ** buildTransactionStatistics.js *)

Definition default_stat : stat := Stat 0 0 UNAVAILABLE.

Definition getTxStatsWithFallback (acc : stats) (mc range : string) : stat :=
  match acc !! mc with
  | Some ranges => default default_stat (ranges !! range)
  | None => default_stat
  end.

(** The fee plus every amount and fee among the parameters. *)
Definition getTxValue (t : tx) : Z :=
  foldl (fun total kv => if endsWith "Fee" (fst kv) || String.eqb (fst kv) "amount"
                         then total + bignumber (snd kv) else total)
    (bignumber (fee t)) (params t).

Section Build.
(** The range of a value: two powers of ten around it, by [Math.log10]. *)
Variable range_of : Z -> string.

Definition getRange (t : tx) : string := range_of (getTxValue t).

(** Every day has at least one row. *)
Definition initial_stats : stats :=
  {[ ANY := {[ getRange (Tx ANY (Str "0") [("amount", Str "0")]) := default_stat ]} ]}.

Definition count_tx (acc : stats) (t : tx) : stats :=
  let mc := moduleCommand t in
  let old := getTxStatsWithFallback acc mc (getRange t) in
  <[mc := <[getRange t :=
      Stat (count old + 1) (volume old + getTxValue t)
        (if truthy (prop (params t) "tokenID") then js_String (prop (params t) "tokenID") else UNAVAILABLE)]>
    (default ∅ (acc !! mc))]> acc.

Definition computeTransactionStats (transactions : list tx) : stats := foldl count_tx initial_stats transactions.

(** One row per type and range. *)
Definition transformStatsObjectToList (s : stats) : list obj :=
  '(mc, ranges) ← map_to_list s;
  (fun '(range, st) =>
     [("moduleCommand", Str mc); ("volume", Num (to_double (volume st))); ("count", Num (count st));
      ("range", Str range); ("tokenID", Str (tokenID st))]) <$> map_to_list ranges.

(** [Object.assign(statistic, { date, amount_range }); statistic.id = ...]: the
    rows are changed in place. *)
Definition complete_row (date : Z) (row : obj) : obj :=
  let row := spread row [("date", Num date); ("amount_range", prop row "range")] in
  set_prop row "id"
    (Str (string_of_Z date +:+ "-" +:+ js_String (prop row "moduleCommand") +:+ "-" +:+ js_String (prop row "amount_range"))).

Section Store.
Context {St : Type} `{SqlEngine St}.

(** The rows are stored in one transaction.  The query for an older row of the
    date is not awaited, so taking its first element throws and nothing is
    removed first. *)
Definition insertToDB (statsList : list obj) (date : Z) : M St Z :=
  let rows := complete_row date <$> statsList in
  startDBTransaction ≫= fun _ =>
  try_catch
    (write Trx (upsert txStatisticsTableSchema (Arr (Object <$> rows))) ≫= fun _ =>
     commitDBTransaction ≫= fun _ =>
     ret (foldl (fun acc row => match prop row "count" with Num n => acc + n | _ => acc end) 0 rows))
    (fun e => rollbackDBTransaction ≫= fun _ => throw e).

(** The transactions of a date, from the indexer: [requestIndexer] sends one
    request and [day_range] is the range of its timestamps by [moment]. *)
Definition fetchTransactions (requestIndexer : obj -> result val) (day_range : string) : result val :=
  let params := [("timestamp", Str day_range)] in
  answer ← requestIndexer (spread params [("limit", Num 1)]);
  txMeta ← get answer "meta";
  total ← (if truthy txMeta then get txMeta "total" else Ok (Num 1000));
  result ← requestAllData requestIndexer (spread params [("limit", Num 100)]) (number_or total 0);
  error ← get result "error";
  Ok (if truthy error then Arr [] else result).

(** A job of the statistics queue: [transactions] are those of the date. *)
Definition queueJob (date : option Z) (transactions : M St (list tx)) : M St Z :=
  match date with
  | None => throw "Missing date."
  | Some date =>
      if date =? 0 then throw "Missing date."
      else
        transactions ← transactions;
        insertToDB (transformStatsObjectToList (computeTransactionStats transactions)) date
  end.

(** The days that are computed again: today, those without rows, or all of
    them. [dates] are the starts of the last days by [moment]. *)
Definition fetchTransactionsForPastNDays (dates : list Z) (forceReload : bool) : M St (list Z) :=
  days ← map_each (imap pair dates) (fun '(i, date) =>
    shouldUpdate ← (if (i =? 0)%nat then ret true
             else rows ← read Auto (find txStatisticsTableSchema [("date", Num date); ("limit", Num 1)] (Arr [Str "id"]));
                  ret (match rows with [] => true | _ => false end));
    if shouldUpdate || forceReload
    then add_job "TransactionStats" (Object [("date", Num date)]) ≫= fun _ => ret [date]
    else ret []);
  ret (mjoin days).

Definition updateTodayStats (today : Z) : M St (list Z) := fetchTransactionsForPastNDays [today] true.

End Store.
End Build.

(** ** transactionStatistics.js *)

(** [result.filter(o => o.count > 0)] *)
Definition counted (rows : list obj) : list obj :=
  filter (fun row => match prop row "count" with Num n => 0 <? n | _ => false end = true) rows.

(** Adding up the counts under a key.  (The keys of the answer are sorted,
    which a map does not show.) *)
Definition distribution (key : string) (rows : list obj) : gmap string Z :=
  foldl (fun acc row =>
    match prop row "count" with
    | Num n => <[js_String (prop row key) := default 0 (acc !! js_String (prop row key)) + n]> acc
    | _ => acc
    end) ∅ (counted rows).

(** A point of the timeline of a token. *)
Record day_stat := DayStat { day : string; transactionCount : Z; day_volume : Z }.

Definition num (v : val) : Z := match v with Num n => n | _ => 0 end.

(** Rows are added up by formatted date. *)
Definition add_day (format : Z -> string) (acc : gmap string day_stat) (row : obj) : gmap string day_stat :=
  let d := format (num (prop row "date")) in
  let old := default (DayStat d 0 0) (acc !! d) in
  <[d := DayStat d (transactionCount old + num (prop row "count")) (day_volume old + num (prop row "volume"))]> acc.

Definition day_le (a b : day_stat) : Prop := String.leb (day a) (day b) = true.
#[export] Instance day_le_dec a b : Decision (day_le a b).
Proof. unfold day_le. apply _. Defined.

(** [Object.values(result).sort(by date).reverse()] *)
Definition timeline_of (format : Z -> string) (rows : list obj) : list day_stat :=
  reverse (merge_sort day_le
             (snd <$> map_to_list (foldl (add_day format) ∅ rows))).

Section Queries.
Context {St : Type} `{SqlEngine St}.
(** [moment.unix(date).format(dateFormat)] *)
Variable format : option string -> Z -> string.
(** [Date.parse(date) / 1000] *)
Variable date_parse : string -> Z.

(** The parameters of a query: [dateFrom] and [dateTo] are moments, here their
    seconds. *)
Record query := Query {
  q_limit : option Z;
  q_dateFrom : option Z;
  q_dateTo : option Z;
  q_dateFormat : option string;
  q_tokenIDs : list string;
}.

Definition is_empty_query (q : query) : bool :=
  match q with Query None None None None [] => true | _ => false end.

Definition getSelector (numTrxTypes : Z) (q : query) : obj :=
  let limit := match q_limit q with
               | Some l => if l =? 0 then 366 * (numTrxTypes + 1) else l
               | None => 366 * (numTrxTypes + 1)
               end in
  let page := [("sort", Str "date:desc"); ("limit", Num limit)] in
  if is_empty_query q then page
  else
    ("propBetweens", Arr [Object ([("property", Str "date")]
       ++ match q_dateFrom q with Some d => [("from", Num d)] | None => [] end
       ++ match q_dateTo q with Some d => [("to", Num d)] | None => [] end)]) :: page.

(** The rows of a token, and those without a token. *)
Definition of_token (numTrxTypes : Z) (q : query) (tokenID : string) : obj :=
  spread (getSelector numTrxTypes q)
    [("whereIn", Object [("property", Str "tokenID"); ("values", Arr [Str tokenID; Str UNAVAILABLE])])].

(** A result per token, none for the rows without a token. *)
Definition by_token {A} (q : query) (f : string -> M St A) : M St (gmap string A) :=
  answers ← map_each (q_tokenIDs q) (fun tokenID =>
    x ← f tokenID;
    ret (if decide (tokenID = UNAVAILABLE) then [] else [(tokenID, x)]));
  ret (foldl (fun acc '(k, x) => <[k := x]> acc) ∅ (mjoin answers)).

Definition getStatsTimeline (numTrxTypes : Z) (q : query) : M St (gmap string (list (day_stat * Z))) :=
  by_token q (fun tokenID =>
    rows ← read Auto (find txStatisticsTableSchema (of_token numTrxTypes q tokenID)
                        (Arr [Str "date"; Str "count"; Str "volume"]));
    ret ((fun d => (d, date_parse (day d))) <$> timeline_of (format (q_dateFormat q)) rows)).

Definition getDistributionByAmount (numTrxTypes : Z) (q : query) : M St (gmap string (gmap string Z)) :=
  by_token q (fun tokenID =>
    rows ← read Auto (find txStatisticsTableSchema (of_token numTrxTypes q tokenID)
                        (Arr [Str "amount_range"; Str "count"]));
    ret (distribution "amount_range" rows)).

Definition getDistributionByType (numTrxTypes : Z) (q : query) : M St (gmap string Z) :=
  rows ← read Auto (find txStatisticsTableSchema (getSelector numTrxTypes q) (Arr [Str "moduleCommand"; Str "count"]));
  ret (distribution "moduleCommand" rows).

Record statistics := Statistics {
  timeline : gmap string (list (day_stat * Z));
  distributionByType : gmap string Z;
  distributionByAmount : gmap string (gmap string Z);
  total_intervals : Z;
}.

(** [dateFrom], [dateTo] and the number of intervals since a date come from
    [moment]. *)
Definition getTransactionsStatistics (numTrxTypes : Z) (interval : string) (dateFrom dateTo : Z)
    (intervals_since : Z -> Z) : M St statistics :=
  let dateFormat := if String.eqb interval "day" then DATE_FORMAT_DAY else DATE_FORMAT_MONTH in
  tokens ← read Auto (find txStatisticsTableSchema [("distinct", Str "tokenID")] (Arr [Str "tokenID"]));
  let q := Query None (Some dateFrom) (Some dateTo) (Some dateFormat) ((fun row => js_String (prop row "tokenID")) <$> tokens) in
  timeline ← getStatsTimeline numTrxTypes q;
  distributionByType ← getDistributionByType numTrxTypes q;
  distributionByAmount ← getDistributionByAmount numTrxTypes q;
  first ← read Auto (find txStatisticsTableSchema [("sort", Str "date:asc"); ("limit", Num 1)] (Str "date"));
  ret (Statistics timeline distributionByType distributionByAmount
         (match first with
          | row :: _ => if truthy (prop row "date") then intervals_since (num (prop row "date")) else 0
          | [] => 0
          end)).

(** buildTransactionStatistics.js: statistics that differ from what the
    indexer counts are computed again. [total] is the indexer's count of the
    transactions of a type between the dates. *)
Definition validateTransactionStatistics (numTrxTypes : Z) (dates : list Z) (dateFrom dateTo : Z)
    (total : string -> M St Z) : M St (list Z) :=
  distributionByType ← getDistributionByType numTrxTypes (Query None (Some dateFrom) (Some dateTo) (Some DATE_FORMAT_DAY) []);
  verifyStatistics ← map_each (map_to_list distributionByType) (fun '(moduleCommand, count) =>
    t ← total moduleCommand; ret (t =? count));
  if forallb id verifyStatistics then ret [] else fetchTransactionsForPastNDays dates true.
End Queries.

(** ** Facts *)

(** The counts of one type, over all its ranges. *)
Definition sum_counts (m : gmap string stat) : Z := map_fold (fun _ st acc => count st + acc) 0 m.

Lemma sum_counts_insert_new m k v : m !! k = None -> sum_counts (<[k := v]> m) = count v + sum_counts m.
Proof. intros Hk. unfold sum_counts. rewrite map_fold_insert_L; [done| |done]. intros; lia. Qed.

Lemma sum_counts_insert m k v :
  sum_counts (<[k := v]> m) = sum_counts m - default 0 (count <$> m !! k) + count v.
Proof.
  destruct (m !! k) as [old|] eqn:E; simpl.
  - rewrite <- (insert_delete_id m k old E) at 2. rewrite <- insert_delete_eq.
    rewrite !sum_counts_insert_new by apply lookup_delete_eq. lia.
  - rewrite sum_counts_insert_new by done. lia.
Qed.

Section Facts.
Variable range_of : Z -> string.

Definition of_type (mc : string) (txs : list tx) : list tx := filter (fun t => moduleCommand t = mc) txs.
Definition of_kind (mc range : string) (txs : list tx) : list tx :=
  filter (fun t => moduleCommand t = mc /\ getRange range_of t = range) txs.
Definition total_value (txs : list tx) : Z := foldr (fun t acc => getTxValue t + acc) 0 txs.

Lemma count_tx_lookup acc t mc r :
  let old := getTxStatsWithFallback acc mc r in
  let new := getTxStatsWithFallback (count_tx range_of acc t) mc r in
  if bool_decide (moduleCommand t = mc /\ getRange range_of t = r)
  then count new = count old + 1 /\ volume new = volume old + getTxValue t
  else new = old.
Proof.
  cbv zeta. unfold count_tx, getTxStatsWithFallback. case_bool_decide as E.
  - destruct E as [<- <-]. by rewrite !lookup_insert_eq.
  - destruct (decide (moduleCommand t = mc)) as [<-|Hne].
    + rewrite lookup_insert_eq, lookup_insert_ne by tauto. by destruct (acc !! moduleCommand t).
    + by rewrite lookup_insert_ne.
Qed.

Lemma foldl_count_tx txs acc mc r :
  let old := getTxStatsWithFallback acc mc r in
  let new := getTxStatsWithFallback (foldl (count_tx range_of) acc txs) mc r in
  count new = count old + Z.of_nat (length (of_kind mc r txs)) /\ volume new = volume old + total_value (of_kind mc r txs).
Proof.
  cbv zeta. revert acc; induction txs as [|t txs IH]; intros acc; [unfold of_kind; simpl; lia|].
  cbn [foldl]. destruct (IH (count_tx range_of acc t)) as [-> ->]. pose proof (count_tx_lookup acc t mc r) as H. cbv zeta in H.
  unfold of_kind. rewrite filter_cons. case_bool_decide as E; destruct (decide _) as [|]; try tauto.
  - destruct H as [-> ->]. unfold total_value, of_kind. cbn [length foldr]. lia.
  - by rewrite H.
Qed.

(** The counts of one type. *)
Definition type_total (s : stats) (mc : string) : Z := sum_counts (default ∅ (s !! mc)).

Lemma type_total_count_tx acc t mc :
  type_total (count_tx range_of acc t) mc = type_total acc mc + if bool_decide (moduleCommand t = mc) then 1 else 0.
Proof.
  unfold type_total, count_tx. case_bool_decide as E; [subst mc; rewrite lookup_insert_eq|rewrite lookup_insert_ne by done; lia].
  cbn [default id]. rewrite sum_counts_insert. cbn [count]. unfold getTxStatsWithFallback.
  destruct (acc !! moduleCommand t) as [m|]; cbn [default id].
  - destruct (m !! getRange range_of t); simpl; lia.
  - rewrite lookup_empty. simpl. lia.
Qed.

Lemma type_total_compute txs mc :
  type_total (computeTransactionStats range_of txs) mc = Z.of_nat (length (of_type mc txs)).
Proof.
  unfold computeTransactionStats, of_type.
  assert (H : forall acc, type_total (foldl (count_tx range_of) acc txs) mc
    = type_total acc mc + Z.of_nat (length (filter (fun t => moduleCommand t = mc) txs))).
  { induction txs as [|t txs IH]; intros acc; [simpl; lia|]. cbn [foldl]. rewrite IH, type_total_count_tx, filter_cons.
    case_bool_decide; destruct (decide _); try done; simpl; lia. }
  rewrite H. unfold type_total, initial_stats. destruct (decide (ANY = mc)) as [<-|].
  - rewrite lookup_singleton_eq. cbn [default id]. unfold sum_counts. rewrite map_fold_singleton. simpl. lia.
  - rewrite lookup_singleton_ne by done. simpl. unfold sum_counts. rewrite map_fold_empty. lia.
Qed.

(** The positive count of a row under a key. *)
Definition row_count (key k : string) (row : obj) : Z :=
  match prop row "count" with
  | Num n => if (0 <? n) && bool_decide (js_String (prop row key) = k) then n else 0
  | _ => 0
  end.
Definition rows_count (key k : string) (rows : list obj) : Z := foldr (fun row acc => row_count key k row + acc) 0 rows.

Lemma distribution_lookup key rows k :
  default 0 (distribution key rows !! k) = rows_count key k rows /\
  forall n, distribution key rows !! k = Some n -> 0 < n.
Proof.
  unfold distribution.
  assert (H : forall acc : gmap string Z, (forall n, acc !! k = Some n -> 0 < n) ->
    let d := foldl (fun acc row =>
      match prop row "count" with
      | Num n => <[js_String (prop row key) := default 0 (acc !! js_String (prop row key)) + n]> acc
      | _ => acc
      end) acc (counted rows) in
    default 0 (d !! k) = default 0 (acc !! k) + rows_count key k rows /\ forall n, d !! k = Some n -> 0 < n).
  { induction rows as [|row rows IH]; intros acc Hacc; cbv zeta; [simpl; split; [lia|done]|].
    unfold counted. rewrite filter_cons. fold (counted rows). cbn [rows_count foldr]. fold (rows_count key k rows). unfold row_count.
    destruct (prop row "count") as [| | |n| | | | |] eqn:E; simpl (decide _); try (destruct (decide _); [done|]; by apply IH).
    destruct (decide _) as [Hn|Hn].
    - rewrite Hn. cbn [foldl andb]. rewrite E. apply Z.ltb_lt in Hn. case_bool_decide as Ek.
      + rewrite Ek. destruct (IH (<[k := default 0 (acc !! k) + n]> acc)) as [-> Hpos].
        * intros m. rewrite lookup_insert_eq. intros [= <-]. destruct (acc !! k) as [x|] eqn:Ex; simpl; [specialize (Hacc x eq_refl)|]; lia.
        * split; [rewrite lookup_insert_eq; simpl; lia|done].
      + destruct (IH (<[js_String (prop row key) := default 0 (acc !! js_String (prop row key)) + n]> acc)) as [-> Hpos].
        * intros m. rewrite lookup_insert_ne by done. apply Hacc.
        * split; [rewrite lookup_insert_ne by done; lia|done].
    - destruct (0 <? n); [done|]. cbn [andb]. by apply IH. }
  destruct (H ∅) as [Hd Hp]; [by intros n; rewrite lookup_empty|]. split; [|done].
  rewrite Hd, lookup_empty. done.
Qed.

Lemma rows_count_app key k l1 l2 : rows_count key k (l1 ++ l2) = rows_count key k l1 + rows_count key k l2.
Proof. unfold rows_count. induction l1 as [|r l1 IH]; [done|]. cbn [app foldr]. rewrite IH. lia. Qed.

Definition stat_row (mc : string) (rs : string * stat) : obj :=
  [("moduleCommand", Str mc); ("volume", Num (to_double (volume (snd rs)))); ("count", Num (count (snd rs)));
   ("range", Str (fst rs)); ("tokenID", Str (tokenID (snd rs)))].

(** A type's rows add up to its counts. *)
Lemma rows_count_ranges date mc k (l : list (string * stat)) :
  Forall (fun rs => 0 <= count (snd rs)) l ->
  rows_count "moduleCommand" k (complete_row date <$> (stat_row mc <$> l))
  = if bool_decide (mc = k) then foldr (fun rs acc => count (snd rs) + acc) 0 l else 0.
Proof.
  induction l as [|[r st] l IH]; [by case_bool_decide|]. intros [Hc Hl]%Forall_cons_1. rewrite !fmap_cons.
  cbn [rows_count foldr]. fold (rows_count "moduleCommand" k (complete_row date <$> (stat_row mc <$> l))). rewrite IH by done.
  unfold row_count. cbn in *. case_bool_decide; [|by rewrite andb_false_r]. destruct (Z.ltb_spec 0 (count st)); cbn [andb]; lia.
Qed.

(** The rows of all types: those of type [k] add up to its total. *)
Lemma rows_count_stats date k (s : stats) :
  (forall mc m r st, s !! mc = Some m -> m !! r = Some st -> 0 <= count st) ->
  rows_count "moduleCommand" k (complete_row date <$> transformStatsObjectToList s) = type_total s k.
Proof.
  intros Hpos. unfold transformStatsObjectToList.
  assert (Hl : forall l, (forall mc m r st, (mc, m) ∈ l -> m !! r = Some st -> 0 <= count st) ->
    rows_count "moduleCommand" k (complete_row date <$> (l ≫= fun '(mc, ranges) =>
      (fun '(range, st) => [("moduleCommand", Str mc); ("volume", Num (to_double (volume st))); ("count", Num (count st));
                            ("range", Str range); ("tokenID", Str (tokenID st))]) <$> map_to_list ranges))
    = foldr (uncurry (fun mc m acc => (if bool_decide (mc = k) then sum_counts m else 0) + acc)) 0 l).
  { induction l as [|[mc m] l IH]; [done|]. intros Hc. rewrite bind_cons, fmap_app, rows_count_app. cbn [foldr uncurry].
    rewrite IH by (intros; eapply Hc; [by right|done]). f_equal.
    erewrite (list_fmap_ext _ (stat_row mc)) by (by intros ? [] ?).
    rewrite rows_count_ranges.
    - case_bool_decide; [|done]. unfold sum_counts. rewrite map_fold_foldr. apply foldr_ext; [by intros [] ?|done..].
    - apply Forall_forall. intros [r st] Hin%elem_of_map_to_list. eapply Hc; [by left|done]. }
  rewrite Hl by (intros mc m r st Hin%elem_of_map_to_list; by eapply Hpos).
  rewrite <- map_fold_foldr. clear. unfold type_total. revert s. apply map_ind.
  - rewrite map_fold_empty, lookup_empty. unfold sum_counts. simpl. by rewrite map_fold_empty.
  - intros mc m s Hs IH. rewrite map_fold_insert_L; [|intros; lia|done]. rewrite IH. case_bool_decide as E.
    + subst mc. rewrite Hs, lookup_insert_eq. unfold sum_counts at 2. simpl. rewrite map_fold_empty. lia.
    + by rewrite lookup_insert_ne.
Qed.

Lemma compute_counts_nonneg txs mc m r st :
  computeTransactionStats range_of txs !! mc = Some m -> m !! r = Some st -> 0 <= count st.
Proof.
  intros Hm Hr. pose proof (foldl_count_tx txs (initial_stats range_of) mc r) as H. cbv zeta in H.
  unfold getTxStatsWithFallback at 1 in H. fold (computeTransactionStats range_of txs) in H. rewrite Hm, Hr in H. cbn [default id] in H.
  destruct H as [-> _].
  assert (count (getTxStatsWithFallback (initial_stats range_of) mc r) = 0); [|lia].
  unfold getTxStatsWithFallback, initial_stats.
  destruct (decide (ANY = mc)) as [<-|]; [rewrite lookup_singleton_eq|by rewrite lookup_singleton_ne].
  destruct (decide (getRange range_of (Tx ANY (Str "0") [("amount", Str "0")]) = r)) as [<-|];
    [by rewrite lookup_singleton_eq|by rewrite lookup_singleton_ne].
Qed.

(** [C29] The daily statistics count exactly: for every type and amount range
    the stored count is the number of the day's transactions of that kind and
    the volume is the sum of their values; and the distribution by type that
    is read back from the rows has, for every type, the number of
    transactions of the type, and no entries for types without any. *)
Theorem statistics_exact date txs mc :
  (forall r, let st := getTxStatsWithFallback (computeTransactionStats range_of txs) mc r in
             count st = Z.of_nat (length (of_kind mc r txs)) /\ volume st = total_value (of_kind mc r txs)) /\
  let d := distribution "moduleCommand" (complete_row date <$> transformStatsObjectToList (computeTransactionStats range_of txs)) in
  default 0 (d !! mc) = Z.of_nat (length (of_type mc txs)) /\ (forall n, d !! mc = Some n -> 0 < n).
Proof.
  split.
  - intros r. cbv zeta. unfold computeTransactionStats. destruct (foldl_count_tx txs (initial_stats range_of) mc r) as [-> ->].
    assert (getTxStatsWithFallback (initial_stats range_of) mc r = default_stat) as ->; [|done].
    unfold getTxStatsWithFallback, initial_stats.
    destruct (decide (ANY = mc)) as [<-|]; [rewrite lookup_singleton_eq|by rewrite lookup_singleton_ne].
    destruct (decide (getRange range_of (Tx ANY (Str "0") [("amount", Str "0")]) = r)) as [<-|];
      [by rewrite lookup_singleton_eq|by rewrite lookup_singleton_ne].
  - cbv zeta. destruct (distribution_lookup "moduleCommand"
      (complete_row date <$> transformStatsObjectToList (computeTransactionStats range_of txs)) mc) as [-> Hpos].
    split; [|done]. rewrite rows_count_stats by (intros; by eapply compute_counts_nonneg). apply type_total_compute.
Qed.
End Facts.
