(* ===== verification/Route.v ===== *)
(** * DEX prices: routes between tokens

    [dataService/dex/timestamp.js] and [dataService/dex/priceQuoter.js] of the
    indexer.  A token's price is the product of the weighted prices of the
    pools along a route, which a recursive SQL query finds.  The query is
    written as the list function it computes on the rows of the table [pool];
    MySQL's [DECIMAL] arithmetic is the class [DecimalArith]. *)
From stdpp Require Import sorting.
From S2P Require Import Prelude JsValue Database Engine Table World Schemas PoolAddress Chain Processors Dex FeeEstimator.
Local Open Scope Z_scope.

(** ** timestamp.js *)

Definition intervalToSecond (interval : string) : option Z :=
  list_to_map (M := gmap string Z)
    [("current", 0); ("1s", 1); ("1m", 60); ("3m", 180); ("5m", 300); ("15m", 900); ("30m", 1800);
     ("1h", 3600); ("2h", 7200); ("4h", 14400); ("6h", 21600); ("8h", 28800); ("12h", 43200);
     ("24h", 86400); ("1d", 86400); ("3d", 259200); ("7d", 604800); ("1w", 604800);
     ("1M", 2592000); ("30d", 2592000); ("1y", 31104000)] !! interval.

(** [blockTime % 0] is [NaN]. *)
Definition normalizeBlockTime (blockTime : Z) (interval : string) : val :=
  let second := default 1 (intervalToSecond interval) in
  if second =? 0 then NaN else Num (blockTime - Z.rem blockTime second).

(** ** The rows of the table of pools *)

(** MySQL's decimals: reading a cell, the product, the order, the weighted mean
    [SUM(price * liquidity) / SUM(liquidity)] ([None]: [NULL]), and the
    conversion to a number. *)
Class DecimalArith := {
  decimal : Type;
  dec_of_sql : sql -> decimal;
  dec_mul : decimal -> decimal -> decimal;
  dec_leb : decimal -> decimal -> bool;
  dec_weighted : list (decimal * Z) -> option decimal;
  dec_number : decimal -> double;
}.

Class DecimalOrder `{DecimalArith} := {
  dec_total : forall a b, dec_leb a b = true \/ dec_leb b a = true;
  dec_trans : forall a b c, dec_leb a b = true -> dec_leb b c = true -> dec_leb a c = true;
}.

Section Quoter.
Context `{DecimalArith}.

Record pool := Pool {
  p_token0 : string;
  p_token1 : string;
  p_feeHex : string;
  p_price : decimal;
  p_liquidity : Z;
}.

Definition sql_text (v : sql) : string := match v with SStr s => s | _ => "" end.

Definition pool_of_row (r : row) : pool :=
  Pool (sql_text (cell r "token0")) (sql_text (cell r "token1")) (sql_text (cell r "feeHex"))
    (dec_of_sql (cell r "price")) (default 0 (sql_num (cell r "liquidity"))).

(** A row of the common table expression [ShortestPath]. *)
Record route := Route {
  nextNode : string;
  totalPrice : decimal;
  totalLiquidity : Z;
  depth : Z;
  path : string;
}.

(** ** getRoute *)

(** [ORDER BY depth ASC, totalPrice ASC, totalLiquidity DESC] *)
Definition route_leb (a b : route) : bool :=
  if depth a =? depth b then
    if dec_leb (totalPrice a) (totalPrice b) && dec_leb (totalPrice b) (totalPrice a)
    then totalLiquidity b <=? totalLiquidity a
    else dec_leb (totalPrice a) (totalPrice b)
  else depth a <? depth b.

Definition route_le (a b : route) : Prop := route_leb a b = true.
#[export] Instance route_le_dec a b : Decision (route_le a b).
Proof. unfold route_le. apply _. Defined.

Section Query.
Variable pools : list pool.
Variable from : string.
Variable maxRecursion minLiquidity : Z.

Definition first_route (t : pool) : route :=
  Route (p_token1 t) (p_price t) (p_liquidity t) 1 (p_token0 t +:+ p_feeHex t +:+ p_token1 t).

Definition first_routes : list route :=
  first_route <$> filter (fun t => p_token0 t = from /\ minLiquidity <= p_liquidity t) pools.

Definition extend_route (sp : route) (t : pool) : route :=
  Route (p_token1 t) (dec_mul (totalPrice sp) (p_price t)) (totalLiquidity sp + p_liquidity t) (depth sp + 1)
    (path sp +:+ p_feeHex t +:+ p_token1 t).

(** One round of the recursive part. *)
Definition next_routes (level : list route) : list route :=
  sp ← filter (fun sp => depth sp < maxRecursion) level;
  extend_route sp <$> filter (fun t => p_token0 t = nextNode sp /\ minLiquidity <= p_liquidity t) pools.

(** The recursion adds rounds until one is empty, which happens when the depth
    reaches [maxRecursion]. *)
Fixpoint route_levels (n : nat) (level : list route) : list route :=
  match n with
  | O => []
  | S n => level ++ route_levels n (next_routes level)
  end.

Definition ShortestPath : list route := route_levels (S (Z.to_nat maxRecursion)) first_routes.

Definition route_query (to : string) (limit : Z) : list route :=
  take (Z.to_nat limit)
    (merge_sort route_le (filter (fun sp => nextNode sp = to /\ minLiquidity <= totalLiquidity sp) ShortestPath)).
End Query.

Section Store.
Context {St : Type} `{SqlEngine St} `{NodeApi}.
(** [config.dex.maxRouteLength], and the market's price. *)
Variable MAX_RECURSION : val.
Variable getKLYUSDPrice : result double.

Definition pools_of (s : St) : list pool := pool_of_row <$> (map_to_list (rows_of s poolTableSchema)).*2.

Definition getRoute (from to : string) (maxRecursion limit minLiquidity : val) (c : conn) : M St (list route) :=
  if negb (String.length from =? 16)%nat then throw "invalid from"
  else if negb (String.length to =? 16)%nat then throw "invalid to"
  else match maxRecursion, limit, minLiquidity with
       | Num m, Num l, Num min => read c (fun s => Ok (route_query (pools_of s) from m min to l))
       | Num _, Num _, _ => throw "invalid minLiquidity"
       | Num _, _, _ => throw "invalid limit"
       | _, _, _ => throw "invalid maxRecursion"
       end.

(** ** getPrice *)

Definition weighted_price (pools : list pool) (token0 token1 : string) : double :=
  match dec_weighted ((fun t => (p_price t, p_liquidity t)) <$>
                        filter (fun t => p_token0 t = token0 /\ p_token1 t = token1) pools) with
  | Some d => dec_number d
  | None => f_zero
  end.

Definition getWeightedPrice (token0 token1 : string) (c : conn) : M St double :=
  if negb (String.length token0 =? 16)%nat then throw "invalid token0"
  else if negb (String.length token1 =? 16)%nat then throw "invalid token1"
  else read c (fun s => Ok (weighted_price (pools_of s) token0 token1)).

Definition usdTokenId : string := "XUSDUSDUSDUSDUSD".

(** The loop over the pools of a path; every round makes it shorter. *)
Fixpoint price_loop (fuel : nat) (p : string) (price : double) (c : conn) : M St double :=
  match fuel with
  | O => throw never_returns
  | S fuel =>
      '(tokenIn, tokenOut, _) ← lift (decodeFirstPool p);
      weightedPrice ← getWeightedPrice tokenIn tokenOut c;
      let price := f_mul price weightedPrice in
      if hasMultiplePools p then price_loop fuel (skipToken p) price c else ret price
  end.

Definition getSWXTokenID : result string :=
  klyTokenId ← getKLYTokenID; Ok (js_substring 0 2 klyTokenId +:+ "55555500000000").
Definition getSWLTokenID : result string :=
  klyTokenId ← getKLYTokenID; Ok (js_substring 0 2 klyTokenId +:+ "55555500000001").

Definition f_one : double := f_of_Z 1.

Definition getPrice (base quote : string) (c : conn) : M St double :=
  if String.eqb base quote then ret f_one
  else
    klyTokenId ← lift getKLYTokenID;
    swlTokenId ← lift getSWLTokenID;
    swxTokenId ← lift getSWXTokenID;
    let _quote := if String.eqb quote usdTokenId then klyTokenId else quote in
    let along p :=
      price ← price_loop (S (String.length p)) p f_one c;
      if String.eqb quote usdTokenId then usd ← lift getKLYUSDPrice; ret (f_mul price usd) else ret price in
    if String.eqb base swlTokenId && String.eqb _quote klyTokenId
    then along (swlTokenId +:+ "000064" +:+ swxTokenId +:+ "000bb8" +:+ klyTokenId)
    else if String.eqb base klyTokenId && String.eqb _quote swlTokenId
    then along (klyTokenId +:+ "000bb8" +:+ swxTokenId +:+ "000064" +:+ swlTokenId)
    else
      route ← getRoute base _quote MAX_RECURSION (Num 1) (Num 1) c;
      match route with
      | [] => ret f_zero
      | r :: _ => along (path r)
      end.
End Store.

(** ** Routes *)

(** A chain of pools with enough liquidity from one token to another. *)
Fixpoint chain (pools : list pool) (min : Z) (a : string) (hops : list pool) (b : string) : Prop :=
  match hops with
  | [] => a = b
  | t :: hops => t ∈ pools /\ p_token0 t = a /\ min <= p_liquidity t /\ chain pools min (p_token1 t) hops b
  end.

(** The path of a chain as text. *)
Definition hop_text (t : pool) : string := p_feeHex t +:+ p_token1 t.
Fixpoint path_text (a : string) (hops : list pool) : string :=
  match hops with
  | [] => a
  | t :: hops => a +:+ p_feeHex t +:+ path_text (p_token1 t) hops
  end.

Definition is_route (pools : list pool) (min : Z) (from : string) (hops : list pool) (r : route) : Prop :=
  chain pools min from hops (nextNode r) /\ hops <> [] /\
  depth r = Z.of_nat (length hops) /\ path r = path_text from hops /\
  totalLiquidity r = foldr (fun t acc => p_liquidity t + acc) 0 hops.

Section Facts.
Variable pools : list pool.
Variable from : string.
Variable maxRecursion min : Z.

Lemma chain_snoc a hops t b c : chain pools min a hops b -> t ∈ pools -> p_token0 t = b -> min <= p_liquidity t ->
  p_token1 t = c -> chain pools min a (hops ++ [t]) c.
Proof.
  revert a; induction hops as [|u hops IH]; intros a; cbn [chain app].
  - by intros -> Ht <- Hm <-.
  - intros (Hu & Hu0 & Hum & Hc) Ht H0 Hm H1. eauto 6.
Qed.

Lemma chain_snoc_inv a hops t c : chain pools min a (hops ++ [t]) c ->
  chain pools min a hops (p_token0 t) /\ t ∈ pools /\ min <= p_liquidity t /\ p_token1 t = c.
Proof.
  revert a; induction hops as [|u hops IH]; intros a; cbn [chain app]; [by intros (Ht & -> & Hm & ->)|].
  intros (Hu & Hu0 & Hum & Hc). destruct (IH _ Hc) as (? & ? & ? & ?). done.
Qed.

Lemma chain_end a hops b c : chain pools min a hops b -> chain pools min a hops c -> b = c.
Proof.
  revert a; induction hops as [|u hops IH]; intros a; cbn [chain]; [by intros <- <-|].
  intros (_ & _ & _ & H1) (_ & _ & _ & H2). eauto.
Qed.

Lemma path_text_snoc a hops t : path_text a (hops ++ [t]) = path_text a hops +:+ hop_text t.
Proof.
  revert a; induction hops as [|u hops IH]; intros a; cbn [path_text app]; [done|].
  by rewrite IH, !string_app_assoc.
Qed.

Lemma liquidity_snoc hops t :
  foldr (fun t acc => p_liquidity t + acc) 0 (hops ++ [t]) = foldr (fun t acc => p_liquidity t + acc) 0 hops + p_liquidity t.
Proof. induction hops as [|u hops IH]; cbn [foldr app]; lia. Qed.

Lemma extend_is_route hops r t : is_route pools min from hops r -> t ∈ pools -> p_token0 t = nextNode r ->
  min <= p_liquidity t -> is_route pools min from (hops ++ [t]) (extend_route r t).
Proof.
  intros (Hc & Hne & Hd & Hp & Hl) Ht H0 Hm. repeat split; cbn [extend_route nextNode depth path totalLiquidity].
  - by eapply chain_snoc.
  - by destruct hops.
  - rewrite length_app. simpl. lia.
  - by rewrite path_text_snoc, <- Hp.
  - by rewrite liquidity_snoc, Hl.
Qed.

(** The first round has the chains of one pool. *)
Lemma first_routes_spec hops : length hops = 1%nat ->
  (exists b, chain pools min from hops b) -> exists r, r ∈ first_routes pools from min /\ is_route pools min from hops r.
Proof.
  destruct hops as [|t []]; try done. intros _ (b & Ht & H0 & Hm & Hb). exists (first_route t). split.
  - apply list_elem_of_fmap. exists t. by rewrite list_elem_of_filter.
  - cbn in Hb. subst b. repeat split; try done.
    + cbn. rewrite H0. done.
    + cbn. lia.
Qed.

Lemma first_routes_sound r : r ∈ first_routes pools from min -> exists hops, length hops = 1%nat /\ is_route pools min from hops r.
Proof.
  intros (t & -> & ((H0 & Hm) & Ht)%list_elem_of_filter)%list_elem_of_fmap. exists [t]. repeat split; try done.
  - cbn. by rewrite H0.
  - cbn. lia.
Qed.

Lemma next_routes_sound level n : 
  (forall r, r ∈ level -> exists hops, length hops = n /\ is_route pools min from hops r) ->
  forall r, r ∈ next_routes pools maxRecursion min level ->
    exists hops, length hops = S n /\ is_route pools min from hops r /\ Z.of_nat n < maxRecursion.
Proof.
  intros Hl r Hr. unfold next_routes in Hr. apply list_elem_of_bind in Hr as (sp & Hr & (Hd & Hsp)%list_elem_of_filter).
  apply list_elem_of_fmap in Hr as (t & -> & ((H0 & Hm) & Ht)%list_elem_of_filter).
  destruct (Hl _ Hsp) as (hops & Hn & Hroute). exists (hops ++ [t]). rewrite length_app. simpl. split; [lia|].
  split; [by apply extend_is_route|]. destruct Hroute as (_ & _ & Hd' & _). lia.
Qed.

(** The rounds of the recursion, one after the other. *)
Definition level (i : nat) : list route := Nat.iter i (next_routes pools maxRecursion min) (first_routes pools from min).

Lemma route_levels_elem n l r : r ∈ route_levels pools maxRecursion min n l <->
  exists i, (i < n)%nat /\ r ∈ Nat.iter i (next_routes pools maxRecursion min) l.
Proof.
  revert l; induction n as [|n IH]; intros l; cbn [route_levels]; [split; [by intros ?%not_elem_of_nil|intros (i & ? & _); lia]|].
  rewrite elem_of_app, IH. split.
  - intros [Hr|(i & Hi & Hr)]; [exists 0%nat; split; [lia|done]|]. exists (S i). split; [lia|]. by rewrite Nat.iter_succ_r.
  - intros ([|i] & Hi & Hr); [by left|]. right. exists i. rewrite <- Nat.iter_succ_r. split; [lia|done].
Qed.

Lemma level_sound i r : r ∈ level i ->
  exists hops, length hops = S i /\ is_route pools min from hops r /\ (i = 0%nat \/ Z.of_nat (S i) <= maxRecursion).
Proof.
  revert r; induction i as [|i IH]; intros r Hr.
  - apply first_routes_sound in Hr as (hops & Hn & Hh). exists hops. auto.
  - destruct (next_routes_sound (level i) (S i)) with r as (hops & Hn & Hh & Hd); [|done|].
    + intros r' Hr'. destruct (IH _ Hr') as (hops & ? & ? & _). by exists hops.
    + exists hops. split; [done|]. split; [done|]. right. lia.
Qed.

Lemma level_complete i hops b : length hops = S i -> chain pools min from hops b -> i = 0%nat \/ Z.of_nat (S i) <= maxRecursion ->
  exists r, r ∈ level i /\ is_route pools min from hops r.
Proof.
  revert hops b; induction i as [|i IH]; intros hops b Hn Hc Hm.
  - apply first_routes_spec; [done|by exists b].
  - destruct hops as [|t hops _] using rev_ind; [done|]. rewrite length_app in Hn. simpl in Hn.
    apply chain_snoc_inv in Hc as (Hc & Ht & Hmin & Hb).
    destruct (IH hops (p_token0 t)) as (r & Hr & Hroute); [lia|done|lia|].
    exists (extend_route r t).
    assert (Hnext : p_token0 t = nextNode r) by (destruct Hroute as (Hc' & _); by eapply chain_end).
    split; [|by apply extend_is_route].
    change (level (S i)) with (next_routes pools maxRecursion min (level i)). apply list_elem_of_bind. exists r. split.
    + apply list_elem_of_fmap. exists t. by rewrite list_elem_of_filter.
    + apply list_elem_of_filter. split; [|done]. destruct Hroute as (_ & _ & -> & _). lia.
Qed.

Lemma chain_liquidity a hops b : 0 <= min -> chain pools min a hops b -> hops <> [] ->
  min <= foldr (fun t acc => p_liquidity t + acc) 0 hops.
Proof.
  intros Hm. revert a; induction hops as [|t hops IH]; [done|]. intros a (_ & _ & Ht & Hc) _. cbn [foldr].
  destruct hops as [|u hops]; [simpl; lia|]. specialize (IH _ Hc). assert (u :: hops <> []) by done. specialize (IH H0). lia.
Qed.

(** What the query chooses from: the chains of pools up to the length. *)
Lemma candidates_spec to r : 1 <= maxRecursion -> 0 <= min ->
  r ∈ filter (fun sp => nextNode sp = to /\ min <= totalLiquidity sp) (ShortestPath pools from maxRecursion min) ->
  exists hops, is_route pools min from hops r /\ nextNode r = to /\ Z.of_nat (length hops) <= maxRecursion.
Proof.
  intros Hm1 Hm ((Hto & _) & (i & _ & Hr)%route_levels_elem)%list_elem_of_filter.
  destruct (level_sound i r Hr) as (hops & Hn & Hh & Hi). exists hops. split; [done|]. split; [done|]. rewrite Hn. lia.
Qed.

Lemma candidates_complete to hops : 1 <= maxRecursion -> 0 <= min ->
  chain pools min from hops to -> hops <> [] -> Z.of_nat (length hops) <= maxRecursion ->
  exists r, r ∈ filter (fun sp => nextNode sp = to /\ min <= totalLiquidity sp) (ShortestPath pools from maxRecursion min)
            /\ depth r = Z.of_nat (length hops).
Proof.
  intros Hm1 Hm Hc Hne Hlen. destruct (level_complete (length hops - 1) hops to) as (r & Hr & Hh).
  - destruct hops; [done|]. simpl. lia.
  - done.
  - lia.
  - exists r. destruct Hh as (Hc' & _ & Hd & Hp & Hl). split; [|done]. apply list_elem_of_filter. split; [split|].
    + by eapply chain_end.
    + rewrite Hl. by eapply chain_liquidity.
    + apply route_levels_elem. exists (length hops - 1)%nat. split; [lia|done].
Qed.
End Facts.

(** ** The order of the query *)
Section Order.
Context `{!DecimalOrder}.

#[local] Instance route_le_total : Total route_le.
Proof.
  intros a b. unfold route_le, route_leb. rewrite (Z.eqb_sym (depth b)). destruct (Z.eqb_spec (depth a) (depth b)).
  - pose proof (dec_total (totalPrice a) (totalPrice b)) as Ht.
    destruct (dec_leb (totalPrice a) (totalPrice b)), (dec_leb (totalPrice b) (totalPrice a)); cbn [andb];
      rewrite ?Z.leb_le; destruct Ht; try done; try lia; auto.
  - rewrite !Z.ltb_lt. lia.
Qed.

#[local] Instance route_le_trans : Transitive route_le.
Proof.
  intros a b c. unfold route_le, route_leb.
  destruct (Z.eqb_spec (depth a) (depth b)) as [Eab|], (Z.eqb_spec (depth b) (depth c)) as [Ebc|];
    destruct (Z.eqb_spec (depth a) (depth c)); try lia; rewrite ?Z.ltb_lt; try lia; try done.
  destruct (dec_leb (totalPrice a) (totalPrice b)) eqn:Hab, (dec_leb (totalPrice b) (totalPrice c)) eqn:Hbc;
    destruct (dec_leb (totalPrice b) (totalPrice a)) eqn:Hba, (dec_leb (totalPrice c) (totalPrice b)) eqn:Hcb;
    cbn [andb]; try done.
  all: destruct (dec_leb (totalPrice a) (totalPrice c)) eqn:Hac, (dec_leb (totalPrice c) (totalPrice a)) eqn:Hca; cbn [andb];
    rewrite ?Z.leb_le; try done; try lia.
  all: try (rewrite (dec_trans _ _ _ Hab Hbc) in Hac; discriminate).
  all: try (rewrite (dec_trans _ _ _ Hca Hab) in Hcb; discriminate).
  all: try (rewrite (dec_trans _ _ _ Hbc Hca) in Hba; discriminate).
Qed.

(** The first row of an ordered query is one of the rows and least. *)
Lemma first_row (l : list route) : merge_sort route_le l = [] \/
  exists r rest, merge_sort route_le l = r :: rest /\ r ∈ l /\ forall r', r' ∈ l -> depth r <= depth r'.
Proof.
  pose proof (Sorted_StronglySorted route_le _ (Sorted_merge_sort route_le l)) as Hs.
  pose proof (merge_sort_Permutation route_le l) as Hp.
  destruct (merge_sort route_le l) as [|r rest]; [by left|]. right. exists r, rest. split; [done|]. split.
  - rewrite <- Hp. by left.
  - intros r' Hr'. rewrite <- Hp in Hr'. apply elem_of_cons in Hr' as [->|Hr']; [done|].
    inversion_clear Hs as [|? ? _ Hall]. rewrite Forall_forall in Hall. specialize (Hall _ Hr').
    unfold route_le, route_leb in Hall. destruct (Z.eqb_spec (depth r) (depth r')); [lia|]. apply Z.ltb_lt in Hall. lia.
Qed.

(** The query for one route: none if there is no chain of pools within the
    length, and otherwise one with the fewest pools. *)
Lemma route_query_one pools from m min to : 1 <= m -> 0 <= min ->
  (route_query pools from m min to 1 = [] /\
   forall hops, chain pools min from hops to -> hops <> [] -> m < Z.of_nat (length hops)) \/
  exists r hops, route_query pools from m min to 1 = [r] /\ is_route pools min from hops r /\
    chain pools min from hops to /\ Z.of_nat (length hops) <= m /\
    forall hops', chain pools min from hops' to -> hops' <> [] -> (length hops <= length hops')%nat.
Proof.
  intros Hm1 Hm. unfold route_query. change (Z.to_nat 1) with 1%nat.
  set (l := filter _ (ShortestPath pools from m min)). destruct (first_row l) as [E|(r & rest & -> & Hr & Hmin)].
  - left. rewrite E. split; [done|]. intros hops Hc Hne. apply Z.nle_gt. intros Hlen.
    destruct (candidates_complete pools from m min to hops) as (r & Hr & _); try done.
    pose proof (merge_sort_Permutation route_le l) as Hp. rewrite E in Hp. fold l in Hr. rewrite <- Hp in Hr. by apply not_elem_of_nil in Hr.
  - right. destruct (candidates_spec pools from m min to r Hm1 Hm Hr) as (hops & Hh & Hto & Hlen).
    exists r, hops. split; [done|]. split; [done|]. pose proof Hh as (Hc & _ & Hd & _). rewrite Hto in Hc. split; [done|]. split; [done|].
    intros hops' Hc' Hne. destruct (Z.le_gt_cases (Z.of_nat (length hops')) m) as [Hle|]; [|lia].
    destruct (candidates_complete pools from m min to hops') as (r' & Hr' & Hd'); try done.
    specialize (Hmin _ Hr'). lia.
Qed.

(** ** The price along a path *)

(** The texts of a pool have the lengths of token ids and fees. *)
Definition well_sized (t : pool) : Prop :=
  String.length (p_token0 t) = 16%nat /\ String.length (p_token1 t) = 16%nat /\ String.length (p_feeHex t) = 6%nat.

Lemma path_text_length a hops : Forall well_sized hops -> String.length a = 16%nat ->
  String.length (path_text a hops) = (16 + 22 * length hops)%nat.
Proof.
  revert a; induction hops as [|t hops IH]; intros a Hw Ha; cbn [path_text length]; [lia|].
  apply Forall_cons_1 in Hw as [(_ & H1 & Hf) Hw]. rewrite !string_length_app, IH by done. lia.
Qed.

Lemma path_text_token a hops : String.length a = 16%nat -> String.substring 0 16 (path_text a hops) = a.
Proof.
  intros Ha. destruct hops as [|t hops]; cbn [path_text]; [rewrite <- Ha at 1; apply substring_all|by apply substring_prefix].
Qed.

Lemma read_fee s : String.length s = 6%nat -> exists f, read_uint_be 3 (utf8 s) = Ok f.
Proof. destruct s as [|a [|b [|c s]]]; try done. intros _. by eexists. Qed.

Lemma decode_path a t hops : String.length a = 16%nat -> well_sized t ->
  exists f, decodeFirstPool (path_text a (t :: hops)) = Ok (a, p_token1 t, f) /\
            skipToken (path_text a (t :: hops)) = path_text (p_token1 t) hops.
Proof.
  intros Ha (_ & H1 & Hf). cbn [path_text].
  assert (Hmid : String.length (a +:+ p_feeHex t) = 22%nat) by (rewrite string_length_app; lia).
  unfold decodeFirstPool, skipToken, js_substring, js_substring_from.
  change (ADDR_SIZE * 2)%nat with 16%nat. change (NEXT_OFFSET * 2)%nat with 22%nat.
  change (16 + 6 - 16)%nat with 6%nat. change (16 - 0)%nat with 16%nat. change (22 + 16 - 22)%nat with 16%nat.
  rewrite (substring_skip a _ 16) by done. rewrite (substring_prefix (p_feeHex t) _ 6) by done.
  destruct (read_fee _ Hf) as (f & ->). exists (string_of_Z f). rewrite bind_ok.
  rewrite (substring_prefix a) by done. rewrite <- string_app_assoc.
  rewrite !(substring_skip (a +:+ p_feeHex t) _ 22) by done. rewrite path_text_token by done. split; [done|].
  rewrite string_length_app, Hmid. replace (22 + String.length (path_text (p_token1 t) hops) - 22)%nat
    with (String.length (path_text (p_token1 t) hops)) by lia. apply substring_all.
Qed.

Section Price.
Context {St : Type} `{SqlEngine St} `{NodeApi}.
Variable MAX_RECURSION : val.
Variable getKLYUSDPrice : result double.

(** The product of the weighted prices of the hops. *)
Definition price_along (pools : list pool) (hops : list pool) (price : double) : double :=
  foldl (fun price t => f_mul price (weighted_price pools (p_token0 t) (p_token1 t))) price hops.

Lemma price_loop_path (pools : list pool) min a hops b fuel price c (w : world St) :
  pools_of (db c w) = pools -> chain pools min a hops b -> hops <> [] -> Forall well_sized hops -> (length hops <= fuel)%nat ->
  price_loop fuel (path_text a hops) price c w = (Ok (price_along pools hops price), w).
Proof.
  intros Hp. revert a fuel price; induction hops as [|t hops IH]; [done|].
  intros a [|fuel] price (_ & Ht0 & _ & Hc) _ Hw Hfuel; [simpl in Hfuel; lia|]. subst a.
  apply Forall_cons_1 in Hw as [Ht Hw]. pose proof Ht as (Hl0 & Hl1 & Hf). cbn [price_loop].
  destruct (decode_path (p_token0 t) t hops Hl0 Ht) as (f & -> & ->). rewrite lift_ok with (a := (p_token0 t, p_token1 t, f)) by done.
  cbv beta iota. unfold getWeightedPrice. rewrite Hl0, Hl1. cbn [Nat.eqb negb].
  rewrite (M_bind_ok _ _ w (weighted_price pools (p_token0 t) (p_token1 t)) w) by (apply read_ok; by rewrite Hp).
  unfold hasMultiplePools. rewrite path_text_length by (done || by constructor).
  change (MULTIPLE_POOLS_MIN_LENGTH * 2)%nat with 60%nat. cbn [length]. destruct hops as [|u hops].
  - cbn [length Nat.leb Nat.mul Nat.add]. done.
  - destruct (Nat.leb_spec 60 (16 + 22 * S (length (u :: hops)))) as [|Hlt]; [|simpl in Hlt; lia].
    rewrite IH; [done|done|done|done|]. simpl in *. lia.
Qed.

Lemma chain_sized pools min a hops b : Forall well_sized pools -> chain pools min a hops b -> Forall well_sized hops.
Proof.
  intros Hw. revert a; induction hops as [|t hops IH]; intros a; cbn [chain]; [by constructor|].
  intros (Ht & _ & _ & Hc). constructor; [|by eapply IH]. rewrite Forall_forall in Hw. by apply Hw.
Qed.

(** [C30] The price of a token ([getPrice]) is the product of the weighted
    prices along a route of pools with liquidity that has as few pools as any
    other, and it is zero only when no route within the allowed length exists
    (or a price on it is); for dollars the market's price is multiplied on.
    The computation always returns and changes nothing. *)
Theorem price_along_shortest_route base quote m kly swl swx usd c (w : world St) :
  MAX_RECURSION = Num m -> 1 <= m ->
  getKLYTokenID = Ok kly -> getSWLTokenID = Ok swl -> getSWXTokenID = Ok swx -> getKLYUSDPrice = Ok usd ->
  Forall well_sized (pools_of (db c w)) ->
  String.length base = 16%nat -> String.length quote = 16%nat -> String.length kly = 16%nat -> base <> quote ->
  let pools := pools_of (db c w) in
  let to := if String.eqb quote usdTokenId then kly else quote in
  let final price := if String.eqb quote usdTokenId then f_mul price usd else price in
  ~ (base = swl /\ to = kly) -> ~ (base = kly /\ to = swl) ->
  (getPrice MAX_RECURSION getKLYUSDPrice base quote c w = (Ok f_zero, w) /\
   forall hops, chain pools 1 base hops to -> hops <> [] -> m < Z.of_nat (length hops)) \/
  exists hops, chain pools 1 base hops to /\ hops <> [] /\ Z.of_nat (length hops) <= m /\
    (forall hops', chain pools 1 base hops' to -> hops' <> [] -> (length hops <= length hops')%nat) /\
    getPrice MAX_RECURSION getKLYUSDPrice base quote c w = (Ok (final (price_along pools hops f_one)), w).
Proof.
  intros -> Hm Hkly Hswl Hswx Husd Hw Hb Hq Hk Hne pools to final Hs1 Hs2. unfold getPrice.
  rewrite (proj2 (String.eqb_neq base quote)) by done.
  rewrite (lift_ok _ _ _ _ Hkly), (lift_ok _ _ _ _ Hswl), (lift_ok _ _ _ _ Hswx). cbv zeta. fold to.
  assert (String.eqb base swl && String.eqb to kly = false) as ->.
  { apply not_true_iff_false. intros [?%String.eqb_eq ?%String.eqb_eq]%andb_true_iff. by apply Hs1. }
  assert (String.eqb base kly && String.eqb to swl = false) as ->.
  { apply not_true_iff_false. intros [?%String.eqb_eq ?%String.eqb_eq]%andb_true_iff. by apply Hs2. }
  assert (Hto : String.length to = 16%nat) by (unfold to; by destruct (String.eqb quote usdTokenId)).
  unfold getRoute. rewrite Hb, Hto. cbn [Nat.eqb negb].
  rewrite (M_bind_ok _ _ w (route_query pools base m 1 to 1) w) by (by apply read_ok).
  destruct (route_query_one pools base m 1 to) as [[-> Hnone]|(r & hops & -> & Hr & Hc & Hlen & Hmin)]; [lia|lia| |].
  { left. by split. }
  right. exists hops. pose proof Hr as (_ & Hhops & _ & Hpath & _). split_and!; try done.
  assert (Hsz : Forall well_sized hops) by (by eapply chain_sized).
  rewrite Hpath. rewrite (M_bind_ok _ _ w (price_along pools hops f_one) w).
  - unfold final. destruct (String.eqb quote usdTokenId); [|done]. by rewrite (lift_ok _ _ _ _ Husd).
  - eapply price_loop_path; try done. rewrite path_text_length by done. lia.
Qed.
End Price.
End Order.
End Quoter.

(** ** A sample: two pools in a row *)

#[local] Instance sample_decimals : DecimalArith := {|
  decimal := Z;
  dec_of_sql v := default 0 (sql_num v);
  dec_mul := Z.mul;
  dec_leb := Z.leb;
  dec_weighted l :=
    let d := foldr (fun pl acc => snd pl + acc) 0 l in
    if d =? 0 then None else Some (foldr (fun pl acc => fst pl * snd pl + acc) 0 l / d);
  dec_number := f_of_Z;
|}.

#[local] Instance sample_decimal_order : DecimalOrder.
Proof. split; cbn; intros; rewrite ?Z.leb_le in *; lia. Qed.

Definition route_token (n : Z) : string := "000000010000000" +:+ string_of_Z n.

Definition sample_pool_row (a b price : Z) : obj :=
  [("token0", Str (route_token a)); ("token1", Str (route_token b)); ("fee", Num 3000); ("feeHex", Str "000bb8");
   ("liquidity", Num 10); ("price", Num price)].

Definition sample_pools : MemDB :=
  Eval vm_compute in
    match upsert poolTableSchema (Arr [Object (sample_pool_row 1 2 5); Object (sample_pool_row 2 3 7)]) (∅ : MemDB) with
    | Ok s => s
    | Throw _ => ∅
    end.

Definition sample_pool_list : list pool := Eval vm_compute in pools_of sample_pools.
Lemma sample_pools_of : pools_of sample_pools = sample_pool_list.
Proof. vm_cast_no_check (eq_refl sample_pool_list). Qed.

Lemma sample_sized : Forall well_sized (pools_of sample_pools).
Proof. rewrite sample_pools_of. repeat constructor. Qed.

Lemma price_along_shortest_route_witness :
  let w := mkWorld sample_pools sample_pools ∅ [] sample_pools in
  exists hops, chain (pools_of sample_pools) 1 (route_token 1) hops (route_token 3) /\ length hops = 2%nat /\
    fst (getPrice (H1 := sample_node) (Num 5) (Ok f_one) (route_token 1) (route_token 3) Auto w) = Ok (f_of_Z 35).
Proof.
  intros w.
  destruct (price_along_shortest_route (H2 := sample_node) (Num 5) (Ok f_one) (route_token 1) (route_token 3) 5
    "0400000000000000" "0455555500000001" "0455555500000000" f_one Auto w) as [[Hz _]|(hops & Hc & Hne & Hlen & Hmin & _)];
    try exact sample_sized; try reflexivity; try lia.
  - discriminate.
  - intros [E _]. discriminate E.
  - intros [E _]. discriminate E.
  - exfalso. apply (f_equal fst) in Hz. vm_compute in Hz. discriminate.
  - exists hops. split; [exact Hc|]. split; [|vm_compute; reflexivity].
    assert (length hops <= 2)%nat.
    { change (db Auto w) with sample_pools in Hmin. rewrite sample_pools_of in Hmin. refine (Hmin [_; _] _ _); [|discriminate]. cbn [chain]. split; [apply list_elem_of_further, list_elem_of_here|]. split; [reflexivity|].
      split; [vm_compute; discriminate|]. split; [apply list_elem_of_here|]. split; [reflexivity|].
      split; [vm_compute; discriminate|]. reflexivity. }
    destruct hops as [|t [|u [|]]]; [done| |done|simpl in *; lia].
    exfalso. change (db Auto w) with sample_pools in Hc. rewrite sample_pools_of in Hc. destruct Hc as (Ht & H0 & _ & H1). revert Ht H0 H1. intros Ht.
    apply list_elem_of_In in Ht. cbn in Ht. destruct Ht as [<-|[<-|[]]]; cbn; discriminate.
Defined.
