(* ===== verification/PriceIndex.v ===== *)
(** * The price index of the DEX

    [dataService/dex/priceIndexer.js], [klyPrices.js] and the price queries of
    [priceQuoter.js]: a tick price per token and time frame, candles made from
    the ticks, and the last prices.  Prices of KLY in dollars come from the
    market service, a parameter.  [Auto] stands for a call without [dbTrx]. *)
From Stdlib Require Import SpecFloat.
From stdpp Require Import sorting.
From S2P Require Import Prelude JsValue Database Engine Table World Schemas PoolAddress Chain Processors Dex Gateway.
From S2P Require Import FeeEstimator Route.
Local Open Scope Z_scope.

Section PriceIndex.
Context `{DecimalArith}.
Context {St : Type} `{SqlEngine St} `{NodeApi}.
(** [config.dex], [Number.prototype] as a value for the tables, and the market. *)
Variable MAX_RECURSION : val.
Variable TICK_TIMEFRAME LAST_PRICE_INTERVAL : string.
Variable config_ohlcTimeframes : list string.
Variable number_val : double -> val.
Variable getKLYUSDPrice : result double.
Variable getKLYUSDPriceAtTimestamp : val -> result val.
Variable getKLYUSDCandles : Z -> Z -> string -> result (list obj).

Definition MAX_PREVIOUS_KLYUSD_INDEX_BATCH : Z := 720.

Definition OHLC_TIMEFRAMES : list string :=
  filter (fun t => is_Some (intervalToSecond t)) config_ohlcTimeframes.

(** ** Queries of priceQuoter.js *)

(** Time and price of the ticks of a pair. *)
Definition tick_rows (s : St) (pair : string) : list (Z * sql) :=
  (fun r => (default 0 (sql_num (cell r "time")), cell r "value"))
    <$> (map_to_list (rows_of s (getTickPriceTableSchema pair))).*2.

(** [WHERE time = t LIMIT 1] *)
Definition lastPriceQuery (ticks : list (Z * sql)) (t : Z) : list sql :=
  take 1 (filter (fun r => fst r = t) ticks).*2.

(** [ORDER BY ABS(time - t) LIMIT 1] *)
Definition nearer (t : Z) (a b : Z * sql) : Prop := Z.abs (fst a - t) <= Z.abs (fst b - t).
#[export] Instance nearer_dec t a b : Decision (nearer t a b).
Proof. unfold nearer. apply _. Defined.

Definition nearestLastPriceQuery (ticks : list (Z * sql)) (t : Z) : list sql :=
  take 1 (merge_sort (nearer t) ticks).*2.

(** A time that is not a number makes the query fail. *)
Definition query_time (v : val) : result Z :=
  match v with Num t => Ok t | _ => Throw "Unknown column 'NaN' in 'where clause'" end.

Definition getLastPriceFromTickPriceTable (pair : string) (timestamp : val) (timeframe : string) : M St val :=
  match intervalToSecond timeframe with
  | None => throw "invalid timeframe"
  | Some second =>
      t ← lift (query_time timestamp);
      read Auto (fun s =>
        match lastPriceQuery (tick_rows s pair) (t - second) with
        | v :: _ => Ok (of_sql v)
        | [] => match nearestLastPriceQuery (tick_rows s pair) (t - second) with
                | v :: _ => Ok (of_sql v)
                | [] => Ok (Num 0)
                end
        end)
  end.

Definition normalize (time : val) (interval : string) : val :=
  match time with Num t => normalizeBlockTime t interval | _ => NaN end.

Definition getLastPrice (pair : string) (timestampSecond : val) : M St obj :=
  let timestamp := normalize timestampSecond LAST_PRICE_INTERVAL in
  prices ← map_each ["current"; "1h"; "24h"; "7d"; "30d"; "1y"] (fun timeframe =>
    v ← getLastPriceFromTickPriceTable pair timestamp timeframe; ret (timeframe, v));
  ret (("updatedOn", timestamp) :: prices).

(** [MIN(value)] and [MAX(value)] ignore [NULL]. *)
Definition best (better : decimal -> decimal -> bool) (vs : list sql) : val :=
  match foldl (fun acc v =>
          match v, acc with
          | SNull, _ => acc
          | _, None => Some v
          | _, Some u => if better (dec_of_sql v) (dec_of_sql u) then Some v else acc
          end) None vs with
  | Some v => of_sql v
  | None => Num 0
  end.

(** [COALESCE(value, 0)] *)
Definition coalesce0 (v : sql) : val := match v with SNull => Num 0 | _ => of_sql v end.

Definition value_at (ticks : list (Z * sql)) (t : Z) : val :=
  match filter (fun r => fst r = t) ticks with (_, v) :: _ => coalesce0 v | [] => Num 0 end.

Definition min_time (ticks : list (Z * sql)) : Z := foldr (fun r acc => Z.min (fst r) acc) (fst (hd (0, SNull) ticks)) ticks.
Definition max_time (ticks : list (Z * sql)) : Z := foldr (fun r acc => Z.max (fst r) acc) (fst (hd (0, SNull) ticks)) ticks.

(** One candle per [FLOOR(time / second)]. *)
Definition candles (second : Z) (ticks : list (Z * sql)) : list obj :=
  (fun open_time =>
     let group := filter (fun r => fst r / second = open_time) ticks in
     [("open", value_at group (min_time group)); ("high", best (fun a b => negb (dec_leb a b)) group.*2);
      ("low", best (fun a b => negb (dec_leb b a)) group.*2); ("close", value_at group (max_time group));
      ("open_time", Num (open_time * second))])
  <$> remove_dups ((fun r => fst r / second) <$> ticks).

Definition transformTickToOhlc (pair timeframe : string) (from to : val) (c : conn) : M St (list obj) :=
  f ← lift (query_time from);
  t ← lift (query_time to);
  read c (fun s =>
    Ok (candles (default 0 (intervalToSecond timeframe)) (filter (fun r => f <= fst r <= t) (tick_rows s pair)))).

(** ** Last prices *)

Definition updateLastPrice (baseTokenId pair : string) (time : val) (c : conn) : M St unit :=
  lastPriceAtTimestamp ← read c (find lastPriceTableSchema
    [("tokenId", Str baseTokenId); ("updatedOn", time); ("limit", Num 1)] (Arr [Str "updatedOn"]));
  match lastPriceAtTimestamp with
  | _ :: _ => ret tt
  | [] =>
      lastPrice ← getLastPrice pair time;
      if forallb (fun kv => truthy (snd kv)) lastPrice
      then write c (upsert lastPriceTableSchema (Object (("tokenId", Str baseTokenId) :: lastPrice)))
      else ret tt
  end.

(** The pair of two registered tokens; the lookup does not use the
    transaction. *)
Definition symbol_of (tokenId : string) : M St (option string) :=
  rows ← read Auto (find registeredDexTokenTableSchema [("tokenId", Str tokenId); ("limit", Num 1)] (Arr [Str "symbol"]));
  ret (match rows with row :: _ => Some (js_String (prop row "symbol")) | [] => None end).

(** Runs [f] for the pair of two tokens when both are registered. *)
Definition with_pair (baseTokenId quoteTokenId : string) (f : string -> M St unit) : M St unit :=
  base ← symbol_of baseTokenId;
  quote ← symbol_of quoteTokenId;
  match base, quote with
  | Some b, Some q => f (toLowerCase (b +:+ q))
  | _, _ => ret tt
  end.

Definition indexTokenLastPrice (timestamp : Z) (baseTokenId quoteTokenId : string) (c : conn) : M St unit :=
  klyTokenId ← lift getKLYTokenID;
  if negb (String.eqb quoteTokenId klyTokenId) then throw "quoting last price only supported on KLY"
  else with_pair baseTokenId quoteTokenId (fun pair =>
         updateLastPrice baseTokenId pair (normalizeBlockTime timestamp LAST_PRICE_INTERVAL) c).

(** ** Ticks and candles *)

Definition indexTokenTickPrice (timestamp : Z) (baseTokenId quoteTokenId : string) (c : conn) : M St unit :=
  with_pair baseTokenId quoteTokenId (fun pair =>
    let time := normalizeBlockTime timestamp TICK_TIMEFRAME in
    priceAtTimestamp ← read c (find (getTickPriceTableSchema pair) [("time", time); ("limit", Num 1)] (Arr [Str "time"]));
    match priceAtTimestamp with
    | _ :: _ => ret tt
    | [] =>
        value ← getPrice MAX_RECURSION getKLYUSDPrice baseTokenId quoteTokenId c;
        if SFeqb value f_zero then ret tt
        else write c (upsert (getTickPriceTableSchema pair) (Object [("time", time); ("value", number_val value)]))
    end).

Definition ohlc_row (time : val) (candle : obj) : obj :=
  [("time", time); ("open", prop candle "open"); ("high", prop candle "high"); ("low", prop candle "low");
   ("close", prop candle "close")].

(** The candle stored under [time] is made from the ticks since the time
    before. *)
Definition index_ohlc (pair : string) (timestamp : Z) (c : conn) (timeframe : string) : M St unit :=
  let time := normalizeBlockTime timestamp timeframe in
  let previousTime := match time, intervalToSecond timeframe with Num t, Some s => Num (t - s) | _, _ => NaN end in
  ohlcAtTimestamp ← read c (find (getOhlcTableSchema pair timeframe) [("time", time); ("limit", Num 1)] (Arr [Str "time"]));
  match ohlcAtTimestamp with
  | _ :: _ => ret tt
  | [] =>
      ohlc ← transformTickToOhlc pair timeframe previousTime time c;
      match ohlc with
      | candle :: _ => write c (upsert (getOhlcTableSchema pair timeframe) (Object (ohlc_row time candle)))
      | [] => ret tt
      end
  end.

Definition indexTokenOhlcPrice (timestamp : Z) (baseTokenId quoteTokenId : string) (c : conn) : M St unit :=
  with_pair baseTokenId quoteTokenId (fun pair => for_each OHLC_TIMEFRAMES (index_ohlc pair timestamp c)).

(** The transaction is not passed on. *)
Definition indexTokenPrice (timestamp : Z) (baseTokenId quoteTokenId : string) : M St unit :=
  indexTokenTickPrice timestamp baseTokenId quoteTokenId Auto ≫= fun _ =>
  indexTokenOhlcPrice timestamp baseTokenId quoteTokenId Auto ≫= fun _ =>
  indexTokenLastPrice timestamp baseTokenId quoteTokenId Auto.

(** ** KLY in dollars *)

Definition indexKLYUSDTickPrice (timestamp : Z) : M St unit :=
  let time := normalizeBlockTime timestamp TICK_TIMEFRAME in
  priceAtTimestamp ← read Auto (find (getTickPriceTableSchema "klyusd") [("time", time); ("limit", Num 1)] (Arr [Str "time"]));
  match priceAtTimestamp with
  | _ :: _ => ret tt
  | [] =>
      value ← lift (getKLYUSDPriceAtTimestamp time);
      if truthy value
      then write Auto (upsert (getTickPriceTableSchema "klyusd") (Object [("time", time); ("value", value)]))
      else ret tt
  end.

Definition indexKLYUSDOhlcPrice (timestamp : Z) : M St unit :=
  for_each OHLC_TIMEFRAMES (index_ohlc "klyusd" timestamp Auto).

Definition indexCurrentKLYUSDPrice (timestamp : Z) : M St unit :=
  indexKLYUSDTickPrice timestamp ≫= fun _ => indexKLYUSDOhlcPrice timestamp.

(** The history of the market for a window, unless its first candle is known. *)
Definition index_previous (t : table) (timeframe : string) (row : obj -> obj) (from to : Z) : M St unit :=
  klyCandles ← lift (getKLYUSDCandles from to timeframe);
  known ← (match klyCandles with
           | candle :: _ => read Auto (find t [("time", prop candle "start"); ("limit", Num 1)] (Arr [Str "time"]))
           | [] => ret []
           end);
  match known with
  | _ :: _ => ret tt
  | [] => for_each klyCandles (fun candle => write Auto (upsert t (Object (row candle))))
  end.

Definition indexPreviousKLYUSDTickPrice (from to : Z) : M St unit :=
  index_previous (getTickPriceTableSchema "klyusd") TICK_TIMEFRAME
    (fun candle => [("time", prop candle "start"); ("value", prop candle "open")]) from to.

Definition indexPreviousKLYUSDOhlcPrice (from to : Z) (timeframe : string) : M St unit :=
  index_previous (getOhlcTableSchema "klyusd" timeframe) timeframe
    (fun candle => spread [("time", prop candle "start")] candle) from to.

(** ** Reverting *)

Definition delete_after (t : table) (time : val) (c : conn) : M St unit :=
  write_count c (deleteByParams t [("propBetweens", Arr [Object [("property", Str "time"); ("greaterThan", time)]])])
    ≫= fun _ => ret tt.

Definition deleteTickPriceIndex (symbol : string) (timestamp : Z) (c : conn) : M St unit :=
  delete_after (getTickPriceTableSchema (toLowerCase symbol +:+ "kly")) (normalizeBlockTime timestamp TICK_TIMEFRAME) c.

Definition deleteOhlcPriceIndex (symbol : string) (timestamp : Z) (c : conn) : M St unit :=
  for_each OHLC_TIMEFRAMES (fun timeframe =>
    delete_after (getOhlcTableSchema (toLowerCase symbol +:+ "kly") timeframe) (normalizeBlockTime timestamp timeframe) c).

(** ** Entry points of the block index *)

Definition addPriceIndex (block : obj) : M St unit :=
  klyTokenId ← lift getKLYTokenID;
  registeredDexTokens ← read Auto (find registeredDexTokenTableSchema [] Undef);
  let timestamp := match prop block "timestamp" with Num t => t | _ => 0 end in
  for_each registeredDexTokens (fun token =>
    if bool_decide (prop token "tokenId" = Str klyTokenId) then ret tt
    else indexTokenPrice timestamp (js_String (prop token "tokenId")) klyTokenId) ≫= fun _ =>
  add_job "IndexCurrentKLYUSDPrice" (Object [("timestamp", prop block "timestamp")]) ≫= fun _ =>
  updateLastPrice klyTokenId "klyusd" (normalizeBlockTime timestamp LAST_PRICE_INTERVAL) Trx.

(** [for (let i = start; i < now; i += step)]: the values of [i].  A step of
    zero never ends. *)
Definition loop_values (start now step : Z) : option (list Z) :=
  if now <=? start then Some []
  else if step =? 0 then None
  else Some ((fun k => start + Z.of_nat k * step) <$> seq 0 (Z.to_nat ((now - start + step - 1) / step))).

(** The windows of the history of a time frame. *)
Definition history_windows (timeframe : string) (blockTimestamp currentTimestamp : Z) : option (list (Z * Z)) :=
  let step := default 0 (intervalToSecond timeframe) * MAX_PREVIOUS_KLYUSD_INDEX_BATCH in
  match loop_values blockTimestamp currentTimestamp step with
  | None => None
  | Some starts =>
      Some ((fun i => let from := i - Z.rem i (default 1 (intervalToSecond timeframe)) in (from, from + step - 1)) <$> starts)
  end.

Definition add_windows (queue timeframe : string) (extra : obj) (blockTimestamp currentTimestamp : Z) : M St unit :=
  match history_windows timeframe blockTimestamp currentTimestamp with
  | Some windows => for_each windows (fun '(from, to) => add_job queue (Object ([("from", Num from); ("to", Num to)] ++ extra)))
  | None => throw never_returns
  end.

Definition addGenesisPriceIndex (currentTimestamp : Z) (block : obj) : M St unit :=
  let blockTimestamp := match prop block "timestamp" with Num t => t | _ => 0 end in
  add_windows "IndexPreviousKLYUSDTickPrice" TICK_TIMEFRAME [] blockTimestamp currentTimestamp ≫= fun _ =>
  for_each OHLC_TIMEFRAMES (fun timeframe =>
    add_windows "IndexPreviousKLYUSDOhlcPrice" timeframe [("timeframe", Str timeframe)] blockTimestamp currentTimestamp).

Definition deletePriceIndex (block : obj) : M St unit :=
  klyTokenId ← lift getKLYTokenID;
  registeredDexTokens ← read Auto (find registeredDexTokenTableSchema [] (Arr [Str "tokenId"; Str "symbol"]));
  let timestamp := match prop block "timestamp" with Num t => t | _ => 0 end in
  for_each registeredDexTokens (fun token =>
    deleteTickPriceIndex (js_String (prop token "symbol")) timestamp Trx ≫= fun _ =>
    deleteOhlcPriceIndex (js_String (prop token "symbol")) timestamp Trx ≫= fun _ =>
    indexTokenLastPrice timestamp (js_String (prop token "tokenId")) klyTokenId Trx) ≫= fun _ =>
  updateLastPrice klyTokenId "klyusd" (normalizeBlockTime timestamp LAST_PRICE_INTERVAL) Trx.

(** ** The table of blocks is left alone *)

Context `{!SqlLaws St}.
#[local] Hint Resolve keeps_for_each : frame.

Lemma getWeightedPrice_keeps tn a b c : keeps tn (getWeightedPrice (St := St) a b c).
Proof. unfold getWeightedPrice. solve_frame. Qed.

Lemma price_loop_keeps tn fuel p price c : keeps tn (price_loop (St := St) fuel p price c).
Proof.
  revert p price; induction fuel as [|fuel IH]; intros p price; cbn [price_loop]; [solve_frame|].
  solve_frame; apply getWeightedPrice_keeps.
Qed.

#[local] Hint Resolve price_loop_keeps : frame.

Lemma getPrice_keeps tn base quote c : keeps tn (getPrice (St := St) MAX_RECURSION getKLYUSDPrice base quote c).
Proof. unfold getPrice, getRoute. solve_frame. Qed.

Lemma getLastPrice_keeps tn pair time : keeps tn (getLastPrice pair time).
Proof.
  unfold getLastPrice. apply keeps_bind; [|intros ?; solve_frame]. apply keeps_map_each. intros tf.
  unfold getLastPriceFromTickPriceTable. solve_frame.
Qed.

Lemma updateLastPrice_keeps token pair time c : keeps "blocks" (updateLastPrice token pair time c).
Proof. unfold updateLastPrice. solve_frame; apply getLastPrice_keeps. Qed.

Lemma with_pair_keeps tn base quote f : (forall pair, keeps tn (f pair)) -> keeps tn (with_pair base quote f).
Proof. intros Hf. unfold with_pair, symbol_of. solve_frame; apply Hf. Qed.

Lemma index_ohlc_keeps pair timestamp c timeframe : keeps "blocks" (index_ohlc pair timestamp c timeframe).
Proof. unfold index_ohlc, transformTickToOhlc. solve_frame. Qed.

Lemma indexTokenLastPrice_keeps timestamp base quote c : keeps "blocks" (indexTokenLastPrice timestamp base quote c).
Proof.
  unfold indexTokenLastPrice. solve_frame; apply with_pair_keeps; intros pair; apply updateLastPrice_keeps.
Qed.

Lemma indexTokenPrice_keeps timestamp base quote : keeps "blocks" (indexTokenPrice timestamp base quote).
Proof.
  unfold indexTokenPrice, indexTokenTickPrice, indexTokenOhlcPrice.
  apply keeps_bind; [|intros _; apply keeps_bind; [|intros _; apply indexTokenLastPrice_keeps]]; apply with_pair_keeps; intros pair.
  - solve_frame; apply getPrice_keeps.
  - apply keeps_for_each. intros tf. apply index_ohlc_keeps.
Qed.

#[local] Hint Resolve indexTokenLastPrice_keeps indexTokenPrice_keeps updateLastPrice_keeps : frame.

Lemma addPriceIndex_keeps block : keeps "blocks" (addPriceIndex block).
Proof. unfold addPriceIndex. solve_frame. Qed.

Lemma addGenesisPriceIndex_keeps now block : keeps "blocks" (addGenesisPriceIndex now block).
Proof. unfold addGenesisPriceIndex, add_windows. solve_frame. Qed.

Lemma deletePriceIndex_keeps block : keeps "blocks" (deletePriceIndex block).
Proof.
  unfold deletePriceIndex, deleteTickPriceIndex, deleteOhlcPriceIndex, delete_after.
  solve_frame.
Qed.
End PriceIndex.

(** ** The history of the dollar price *)

Lemma rem_shift b k s : 0 <= b -> 0 <= k -> 0 < s -> Z.rem (b + k * s) s = b mod s.
Proof. intros. rewrite Z.rem_mod_nonneg by nia. by rewrite Z.mod_add by lia. Qed.

Lemma history_windows_spec timeframe s b now : intervalToSecond timeframe = Some s -> 0 < s -> 0 <= b ->
  let S := s * MAX_PREVIOUS_KLYUSD_INDEX_BATCH in
  exists ws, history_windows timeframe b now = Some ws /\
    forall w, w ∈ ws <-> exists k, 0 <= k /\ k * S < now - b /\
                w = (b - b mod s + k * S, b - b mod s + k * S + S - 1).
Proof.
  intros Hs Hpos Hb S. assert (HS : 0 < S) by (unfold S, MAX_PREVIOUS_KLYUSD_INDEX_BATCH; lia).
  unfold history_windows, loop_values. rewrite Hs. cbn [default id]. fold S.
  destruct (Z.leb_spec now b) as [Hle|Hlt].
  - exists []. split; [done|]. intros w. split; [by intros ?%not_elem_of_nil|]. intros (k & Hk & Hlt & _). nia.
  - rewrite (proj2 (Z.eqb_neq S 0)) by lia. eexists. split; [done|]. intros w.
    set (n := (now - b + S - 1) / S).
    assert (Hn : forall k, 0 <= k -> k < n <-> k * S < now - b).
    { intros k Hk. unfold n. pose proof (Z.div_mod (now - b + S - 1) S ltac:(lia)).
      pose proof (Z.mod_pos_bound (now - b + S - 1) S HS). nia. }
    assert (Hrem : forall k, 0 <= k -> Z.rem (b + k * S) s = b mod s).
    { intros k Hk. replace (k * S) with (k * MAX_PREVIOUS_KLYUSD_INDEX_BATCH * s) by (unfold S; ring).
      apply rem_shift; unfold MAX_PREVIOUS_KLYUSD_INDEX_BATCH; lia. }
    rewrite <- list_fmap_compose, list_elem_of_fmap. split.
    + intros (i & -> & Hi%elem_of_seq). exists (Z.of_nat i). split; [lia|]. split; [apply Hn; lia|]. cbn [compose].
      rewrite Hrem by lia. f_equal; lia.
    + intros (k & Hk & Hlt' & ->). exists (Z.to_nat k). rewrite elem_of_seq. cbn [compose]. rewrite Z2Nat.id by done.
      rewrite Hrem by lia. split; [f_equal; lia|]. apply Hn in Hlt'; lia.
Qed.

(** [C31] The jobs that fill in the history of the dollar price, added with the
    genesis block, cover it exactly: the start of every candle from that of
    the genesis block to the last one completed lies in exactly one of the
    windows, whatever the time frame, so no candle is left out or fetched
    twice. *)
Theorem price_history_covered timeframe s b now t :
  intervalToSecond timeframe = Some s -> 0 < s -> 0 <= b ->
  (s | t) -> b - b mod s <= t -> t < now - now mod s ->
  exists ws w, history_windows timeframe b now = Some ws /\ w ∈ ws /\ fst w <= t <= snd w /\
    forall w', w' ∈ ws -> fst w' <= t <= snd w' -> w' = w.
Proof.
  intros Hs Hpos Hb [q ->] Hlo Hhi. destruct (history_windows_spec timeframe s b now Hs Hpos Hb) as (ws & Hws & Hspec).
  set (S := s * MAX_PREVIOUS_KLYUSD_INDEX_BATCH) in *.
  assert (HS : 0 < S) by (unfold S, MAX_PREVIOUS_KLYUSD_INDEX_BATCH; lia).
  set (nb := b - b mod s) in *. set (k := (q * s - nb) / S).
  pose proof (Z.div_mod (q * s - nb) S ltac:(lia)) as Hdm. fold k in Hdm. pose proof (Z.mod_pos_bound (q * s - nb) S HS).
  assert (Hk : 0 <= k) by (apply Z.div_pos; lia).
  pose proof (Z.mod_pos_bound b s Hpos). pose proof (Z.mod_pos_bound now s Hpos).
  assert (Hnow : now - now mod s = s * (now / s)) by (pose proof (Z.div_mod now s ltac:(lia)); lia).
  exists ws, (nb + k * S, nb + k * S + S - 1). split; [done|]. split; [|split].
  - apply Hspec. exists k. split; [done|]. split; [|done]. assert (q < now / s) by nia. unfold nb in *. nia.
  - cbn [fst snd]. lia.
  - intros w' (k' & Hk' & _ & ->)%Hspec. cbn [fst snd]. intros Hin. assert (k' = k) as -> by nia. done.
Qed.

Lemma price_history_covered_witness :
  exists ws w, history_windows "5m" 1000100 2000000 = Some ws /\ w ∈ ws /\ fst w <= 1500000 <= snd w /\
    forall w', w' ∈ ws -> fst w' <= 1500000 <= snd w' -> w' = w.
Proof.
  apply (price_history_covered "5m" 300 1000100 2000000 1500000); [reflexivity|lia|lia|exists 5000; reflexivity|vm_compute; discriminate|reflexivity].
Defined.
