(* ===== verification/TokenFactory.v ===== *)
(** * The token factory

    [dataService/tokenFactory/index.js] (the tokens created on chain, their
    availability and metadata) and the commands
    [transactionProcessor/tokenFactory/tokenCreate.js] and
    [factorySetAttributes.js].  The node's answer about a factory, the codec,
    the renderer of images and the answers of the application registry and of
    the gateway are the class [FactoryApi]; a request that saves or deletes a
    logo is recorded with the jobs under the name of the method. *)
From Stdlib Require Import Ascii.
From S2P Require Import Prelude JsValue Database Engine Table World Schemas KvStore Chain Stake.
From S2P Require Import PoolAddress Processors Dispatch Mapper Gateway Dex Route.
Local Open Scope Z_scope.

Class FactoryApi := {
  (** [invokeEndpoint({ endpoint: 'tokenFactory_getFactory', params: { tokenId } })] *)
  tokenFactory_getFactory : val -> result val;
  (** [codec.decode(factoryMetadataSchema, Buffer.from(attributes, 'hex'))] *)
  decode_metadata : val -> result obj;
  (** [pngBuffer.toString('hex')] after [svg2img] was called with the attribute. *)
  svg_png : val -> result string;
  (** [requestAppRegistry('blockchain.apps.meta.tokens', params)] *)
  registry_tokens : obj -> result val;
  (** [requestGateway(method, params)] *)
  gateway_answer : string -> obj -> result unit;
  (** [(await requestConnector('getNodeInfo')).chainID] *)
  node_chainID : result val;
  (** [config.serviceUrl] *)
  SERVICE_URL : string;
}.

(** [v.toLowerCase()] and [v.toUpperCase()] on a value. *)
Definition lower (v : val) : result string :=
  match v with
  | Str s => Ok (toLowerCase s)
  | _ => Throw "Cannot read properties of undefined (reading 'toLowerCase')"
  end.
Definition upper (v : val) : result string :=
  match v with
  | Str s => Ok (toUpperCase s)
  | _ => Throw "Cannot read properties of undefined (reading 'toUpperCase')"
  end.

(** The network a token belongs to, by the first byte of its id. *)
Definition network_of (tokenId : string) : string :=
  let p := js_substring 0 2 tokenId in
  if String.eqb p "00" then "mainnet"
  else if String.eqb p "01" then "testnet"
  else if String.eqb p "04" then "devnet"
  else "unknown".

(** [f.charAt(0).toUpperCase() + f.slice(1)] *)
Definition capitalized (s : string) : string :=
  match s with String c r => toUpperCase (String c EmptyString) +:+ r | EmptyString => EmptyString end.

Section TokenFactory.
Context {St : Type} `{SqlEngine St} `{NodeApi} `{FactoryApi}.

(** ** dataService/tokenFactory/index.js *)

(** Whether a row with this value in the column exists, outside of any
    transaction. *)
Definition exists_row (t : table) (column : string) (v : val) : M St bool :=
  rows ← read Auto (find t [(column, v); ("limit", Num 1)] (Arr [Str column]));
  ret (negb (Nat.eqb (length rows) 0)).

Definition isTokenAvailable (params : obj) : M St bool :=
  tokenNameExist ← exists_row tokenFactoryTableSchema "tokenName" (prop params "tokenName");
  symbol ← lift (upper (prop params "symbol"));
  symbolExist ← exists_row tokenFactoryTableSchema "symbol" (Str symbol);
  registryData ← lift (registry_tokens [("tokenName", prop params "tokenName")]);
  d ← lift (get registryData "data");
  registered ← lift (elements d);
  dexTokenExist ← exists_row registeredDexTokenTableSchema "symbol" (Str symbol);
  ret (negb (tokenNameExist || symbolExist || negb (Nat.eqb (length registered) 0) || dexTokenExist)).

(** The row of [token_factory] as the client sees it. *)
Definition factory_meta (chainID : val) (f : row) : obj :=
  let tokenID := sql_text (cell f "tokenID") in
  let tokenName := sql_text (cell f "tokenName") in
  let baseDenom := sql_text (cell f "baseDenom") in
  let symbol := sql_text (cell f "symbol") in
  let aliases s := Arr (if String.eqb s "" then [] else [Str (capitalized s)]) in
  [("chainID", chainID); ("chainName", Str "swaptoshi"); ("tokenID", Str tokenID);
   ("tokenName", Str tokenName); ("networkType", Str (network_of tokenID));
   ("description", Str (sql_text (cell f "description")));
   ("denomUnits", Arr [
      Object [("denom", Str (toLowerCase baseDenom)); ("decimals", Num 0); ("aliases", aliases baseDenom)];
      Object [("denom", Str (toLowerCase symbol));
              ("decimals", match cell f "decimal" with SInt z => Num z | _ => Num 0 end); ("aliases", aliases tokenName)]]);
   ("symbol", Str (toUpperCase symbol)); ("displayDenom", Str (toLowerCase symbol));
   ("baseDenom", Str (toLowerCase baseDenom));
   ("logo", Object [("png", Str (sql_text (cell f "logoPng"))); ("svg", Str (sql_text (cell f "logoSvg")))])].

(** [... WHERE 1 = 1 AND tf.tokenID IN (...) LIMIT ... OFFSET ...]: no ids
    mean no condition, and an offset needs a limit. *)
Definition page {A} (limit offset : val) (rs : list A) : result (list A) :=
  match limit, offset with
  | Undef, Undef => Ok rs
  | Num l, Undef => Ok (take (Z.to_nat l) rs)
  | Num l, Num o => Ok (take (Z.to_nat l) (drop (Z.to_nat o) rs))
  | _, _ => Throw "You have an error in your SQL syntax"
  end.

Definition factory_rows (s : St) (tokenIds : val) : list row :=
  let rs := (map_to_list (rows_of s tokenFactoryTableSchema)).*2 in
  match tokenIds with
  | Str ids => if String.eqb ids "" then rs
               else filter (fun r => sql_text (cell r "tokenID") ∈ split_on ","%char ids) rs
  | _ => rs
  end.

(** [accumulator.find(item => item.tokenID === current.tokenID)]: the first
    entry of every token is kept. *)
Definition keep_first (acc : list val) (current : val) : result (list val) :=
  id ← get current "tokenID";
  known ← js_find (fun item => prop_is item "tokenID" id) acc;
  Ok (match known with Some _ => acc | None => acc ++ [current] end).

Definition getTokenFactoriesMeta (params : obj) : M St obj :=
  chainID ← lift node_chainID;
  rows ← read Auto (fun s => page (prop params "limit") (prop params "offset") (factory_rows s (prop params "tokenIds")));
  registryData ← (if truthy (prop params "registry") then
                    r ← lift (registry_tokens [("tokenID", prop params "tokenIds")]);
                    d ← lift (get r "data"); lift (elements d)
                  else ret []);
  let factories := registryData ++ (Object ∘ factory_meta chainID <$> rows) in
  data ← lift (foldM keep_first [] factories);
  total ← read Auto (count tokenFactoryTableSchema [] Undef);
  ret [("data", Arr data);
       ("meta", Object [("count", Num (Z.of_nat (length factories)));
                        ("offset", if truthy (prop params "offset") then prop params "offset" else Num 0);
                        ("total", Num total)])].

(** ** tokenCreate.js *)

(** [factory.data.attributesArray.find(t => t.key === key)] *)
Definition attribute (factory : val) (key : string) : result (option val) :=
  d ← get factory "data";
  a ← get d "attributesArray";
  l ← elements a;
  js_find (fun t => prop_is t "key" (Str key)) l.

(** [requestGateway(method, params)] *)
Definition requestGateway (method : string) (params : obj) : M St unit :=
  add_job method (Object params) ≫= fun _ => lift (gateway_answer method params).

(** The vector image as it is stored and a rendering of it; the result are the
    two links. *)
Definition save_logo (symbol svgAttributes : val) : M St obj :=
  name ← lift (lower symbol);
  requestGateway "logo.save" [("fileName", Str (name +:+ ".svg")); ("data", Str (js_String svgAttributes))] ≫= fun _ =>
  png ← lift (svg_png svgAttributes);
  requestGateway "logo.save" [("fileName", Str (name +:+ ".png")); ("data", Str png)] ≫= fun _ =>
  let link ext := Str (SERVICE_URL +:+ "/static/img/logo/" +:+ name +:+ ext) in
  ret [("logoSvg", link ".svg"); ("logoPng", link ".png")].

Definition metadata_row (tokenId : val) (tokenName : val) : obj :=
  [("chainName", Str "swaptoshi"); ("network", Str (network_of (js_String tokenId)));
   ("tokenName", tokenName); ("tokenID", tokenId)].

(** What the application registry says about the token takes precedence. *)
Definition registry_overrides (registryData : val) : result obj :=
  d ← get registryData "data";
  l ← elements d;
  match l with
  | [] => Ok []
  | first :: _ =>
      tokenName ← get first "tokenName";
      description ← get first "description";
      baseDenom ← get first "baseDenom";
      symbol ← get first "symbol";
      logo ← get first "logo";
      png ← get logo "png";
      denomUnits ← get first "denomUnits";
      units ← elements denomUnits;
      displayDenom ← get first "displayDenom";
      decimal ← js_find (fun t => prop_is t "denom" displayDenom) units;
      decimals ← (match decimal with
                  | Some u => n ← get u "decimals"; Ok [("decimal", n)]
                  | None => Ok []
                  end);
      Ok ([("tokenName", tokenName); ("description", description); ("baseDenom", baseDenom); ("symbol", symbol);
           ("logoPng", png)] ++ decimals)
  end.

Definition factory_event (name : string) (tx : obj) (events : list val) : result val :=
  e ← parseSingleEvent events (Str "tokenFactory") (Str name) (prop tx "id");
  get e "data".

Definition tokenCreate_apply (blockHeader tx : obj) (events : list val) : M St unit :=
  when_successful tx (
    data ← lift (factory_event "factoryCreated" tx events);
    tokenId ← lift (get data "tokenId");
    onChainFactoryData ← lift (tokenFactory_getFactory tokenId);
    metadataAttribute ← lift (attribute onChainFactoryData "metadata");
    match metadataAttribute with
    | None => ret tt
    | Some a =>
        attributes ← lift (get a "attributes");
        metadata ← lift (decode_metadata attributes);
        available ← isTokenAvailable metadata;
        if negb available then ret tt
        else
          owner ← lift (get data "ownerAddress");
          supply ← lift (get data "amount");
          registryData ← lift (registry_tokens [("tokenID", tokenId)]);
          overrides ← lift (registry_overrides registryData);
          let param := spread (spread metadata [("tokenID", tokenId); ("owner", owner); ("supply", supply)]) overrides in
          svgAttribute ← lift (attribute onChainFactoryData "svg");
          match svgAttribute with
          | None => ret tt
          | Some svg =>
              svgAttributes ← lift (get svg "attributes");
              links ← save_logo (prop metadata "symbol") svgAttributes;
              t_upsert tokenFactoryTableSchema (Object (spread param links)) ≫= fun _ =>
              t_upsert tokenMetadataTableSchema (Object (metadata_row tokenId (prop metadata "tokenName")))
          end
    end).

(** [metadata.symbol], where [metadata] is the array that [find] returned. *)
Definition symbol_of_rows (metadata : list obj) : result val := get (Arr (Object <$> metadata)) "symbol".

Definition tokenCreate_revert (blockHeader tx : obj) (events : list val) : M St unit :=
  when_successful tx (
    data ← lift (factory_event "factoryCreated" tx events);
    tokenId ← lift (get data "tokenId");
    metadata ← read Auto (find tokenFactoryTableSchema [("tokenID", tokenId)] (Arr [Str "symbol"]));
    symbol ← lift (symbol_of_rows metadata);
    name ← lift (lower symbol);
    requestGateway "logo.delete" [("fileName", Str (name +:+ ".svg"))] ≫= fun _ =>
    requestGateway "logo.delete" [("fileName", Str (name +:+ ".png"))] ≫= fun _ =>
    t_deleteByPrimaryKey tokenFactoryTableSchema tokenId ≫= fun _ =>
    t_deleteByPrimaryKey tokenMetadataTableSchema tokenId).

(** ** factorySetAttributes.js *)
Definition set_svg (onChainFactoryData tokenId : val) : M St unit :=
  svgAttribute ← lift (attribute onChainFactoryData "svg");
  match svgAttribute with
  | None => ret tt
  | Some svg =>
      metadata ← read Auto (find tokenFactoryTableSchema [("tokenID", tokenId)] (Arr [Str "symbol"]));
      svgAttributes ← lift (get svg "attributes");
      symbol ← lift (symbol_of_rows metadata);
      links ← save_logo symbol svgAttributes;
      t_upsert tokenFactoryTableSchema (Object (("tokenID", tokenId) :: links))
  end.

Definition set_metadata (onChainFactoryData tokenId : val) : M St unit :=
  metadataAttribute ← lift (attribute onChainFactoryData "metadata");
  match metadataAttribute with
  | None => ret tt
  | Some a =>
      attributes ← lift (get a "attributes");
      metadata ← lift (decode_metadata attributes);
      t_upsert tokenFactoryTableSchema (Object (spread [("tokenID", tokenId)] metadata)) ≫= fun _ =>
      t_upsert tokenMetadataTableSchema (Object (metadata_row tokenId (prop metadata "tokenName")))
  end.

Definition factorySetAttributes_apply (blockHeader tx : obj) (events : list val) : M St unit :=
  when_successful tx (
    data ← lift (factory_event "factorySetAttributes" tx events);
    tokenId ← lift (get data "tokenId");
    onChainFactoryData ← lift (tokenFactory_getFactory tokenId);
    key ← lift (get data "key");
    if bool_decide (key = Str "svg") then set_svg onChainFactoryData tokenId
    else if bool_decide (key = Str "metadata") then set_metadata onChainFactoryData tokenId
    else ret tt).

Definition factorySetAttributes_revert (blockHeader tx : obj) (events : list val) : M St unit := ret tt.

(** The registration commands in front of the remaining processors. *)
Definition with_factory (rest : string -> string -> option (handler (St := St) * handler (St := St)))
    (module command : string) : option (handler (St := St) * handler (St := St)) :=
  if String.eqb module "tokenFactory" then
    assoc [("tokenCreate", (tokenCreate_apply, tokenCreate_revert));
           ("factorySetAttributes", (factorySetAttributes_apply, factorySetAttributes_revert))] command
  else rest module command.
End TokenFactory.

Section FactoryFrame.
Context {St : Type} `{SqlLaws St} `{NodeApi} `{FactoryApi}.

(** A block that creates a token cannot be deleted again: the revert of
    [tokenCreate] throws, whatever the index holds. *)
Lemma tokenCreate_revert_throws h tx ev data tokenId rows (w : world St) :
  prop tx "executionStatus" = SUCCESSFUL ->
  factory_event "factoryCreated" tx ev = Ok data -> get data "tokenId" = Ok tokenId ->
  find tokenFactoryTableSchema [("tokenID", tokenId)] (Arr [Str "symbol"]) (w_auto w) = Ok rows ->
  tokenCreate_revert h tx ev w = (Throw "Cannot read properties of undefined (reading 'toLowerCase')", w).
Proof.
  intros Htx Hd Ht Hf. unfold tokenCreate_revert, when_successful. rewrite bool_decide_eq_true_2 by done.
  rewrite (lift_ok _ _ _ _ Hd), (lift_ok _ _ _ _ Ht). by rewrite (M_bind_ok _ _ _ _ _ (read_ok Auto _ w _ Hf)).
Qed.

(** A block that changes the image of a token cannot be indexed. *)
Lemma set_svg_throws factory tokenId svg a rows (w : world St) :
  attribute factory "svg" = Ok (Some svg) -> get svg "attributes" = Ok a ->
  find tokenFactoryTableSchema [("tokenID", tokenId)] (Arr [Str "symbol"]) (w_auto w) = Ok rows ->
  set_svg factory tokenId w = (Throw "Cannot read properties of undefined (reading 'toLowerCase')", w).
Proof.
  intros Hs Ha Hf. unfold set_svg. rewrite (lift_ok _ _ _ _ Hs).
  rewrite (M_bind_ok _ _ _ _ _ (read_ok Auto _ w _ Hf)). by rewrite (lift_ok _ _ _ _ Ha).
Qed.

Lemma save_logo_keeps symbol a : keeps "blocks" (save_logo (St := St) symbol a).
Proof. unfold save_logo, requestGateway. solve_frame. Qed.

Lemma isTokenAvailable_keeps params : keeps "blocks" (isTokenAvailable (St := St) params).
Proof. unfold isTokenAvailable, exists_row. solve_frame. Qed.

Lemma with_factory_keeps rest m c p :
  (forall p, rest m c = Some p -> pair_keeps "blocks" p) ->
  with_factory (St := St) rest m c = Some p -> pair_keeps "blocks" p.
Proof.
  intros Hrest. unfold with_factory. destruct (String.eqb m "tokenFactory"); [|apply Hrest].
  pose proof save_logo_keeps. pose proof isTokenAvailable_keeps.
  intros Hp%assoc_elem. revert Hp. rewrite !elem_of_cons, elem_of_nil.
  intros [[= -> ->]|[[= -> ->]|[]]]; split; intros h tx ev; cbn [fst snd].
  all: unfold tokenCreate_apply, tokenCreate_revert, factorySetAttributes_apply, factorySetAttributes_revert,
    set_svg, set_metadata, requestGateway, when_successful, t_upsert, t_deleteByPrimaryKey; solve_frame.
Qed.
End FactoryFrame.
