(* ===== verification/TransactionQuery.v ===== *)
(** * Transactions of the data service

    [dataService/business/transactions.js], [business/pendingTransactions.js],
    [dataService/transactions.js] and [dataService/utils/account.js]: how a
    transaction is presented, the list of pending transactions and how its
    pages are merged with those of the index; also the revert of a cross-chain
    update ([submitSidechainCrossChainUpdate.js]), which looks up older
    transactions.  What the node answers is a parameter. *)
From S2P Require Import Prelude JsValue Database Engine Table World Schemas KvStore Chain Stake.
From S2P Require Import Balances Processors Dispatch Mapper DataQuery Regex.
From Stdlib Require Import Ascii.
Local Open Scope Z_scope.

(** [a - b], [Math.max(a, b)] and [arr.slice(0, n)] with numbers that may be
    missing. *)
Definition js_sub (a b : val) : val := match a, b with Num x, Num y => Num (x - y) | _, _ => NaN end.
Definition js_max (a b : val) : val := match a, b with Num x, Num y => Num (Z.max x y) | _, _ => NaN end.
Definition slice_to {A} (n : val) (l : list A) : list A :=
  match n with
  | Num z => if z <? 0 then take (length l - Z.to_nat (- z)) l else take (Z.to_nat z) l
  | Undef => l
  | _ => []
  end.

Section TransactionQuery.
Context {St : Type} `{SqlEngine St} `{NodeApi}.
Variable currentChainID : result val.
(** [getFinalizedHeight()] *)
Variable finalizedHeight : result Z.
(** [requestConnector('getTransactionsByIDs', { ids })] *)
Variable request_transactionsByIDs : list val -> result (list obj).
(** [getBlockByID] of [blocks.js] and [getEventsByHeight] of [events.js] *)
Variable getBlockByID : val -> M St obj.
Variable getEventsByHeight : val -> M St (list val).

(** ** utils/account.js *)
Definition getIndexedAccountInfo (params : obj) (columns : list string) : M St obj :=
  if negb (has_prop params "publicKey") || truthy (prop params "publicKey") then
    rows ← read Auto (find accountsTableSchema (spread [("limit", Num 1)] params) (Arr (Str <$> columns)));
    ret (match rows with account :: _ => account | [] => [] end)
  else ret [].

(** ** business/transactions.js *)
Definition getTransactionIDsByBlockID (blockID : val) : M St (list val) :=
  transactions ← read Auto (find transactionsTableSchema
    [("whereIn", Object [("property", Str "blockID"); ("values", Arr [blockID])])] (Arr [Str "id"]));
  ret ((fun t => prop t "id") <$> transactions).

Definition normalizeTransactions (txs : list obj) : list val := normalizeTransaction <$> txs.

Definition getTransactionsByIDs (ids : list val) : M St (list val) :=
  response ← lift (request_transactionsByIDs ids);
  ret (normalizeTransactions response).

(** [transaction.sender] and, for a transfer, [transaction.meta]. *)
Definition add_parties (transaction : obj) : M St obj :=
  senderAddress ← lift (getKlayr32AddressFromPublicKey (prop transaction "senderPublicKey"));
  senderAccount ← getIndexedAccountInfo [("address", senderAddress); ("limit", Num 1)] ["name"];
  let transaction := set_prop transaction "sender"
    (Object [("address", senderAddress); ("publicKey", prop transaction "senderPublicKey");
             ("name", prop senderAccount "name")]) in
  recipientAddress ← lift (get (prop transaction "params") "recipientAddress");
  if truthy recipientAddress then
    recipientAccount ← getIndexedAccountInfo [("address", recipientAddress); ("limit", Num 1)] ["publicKey"; "name"];
    ret (set_prop transaction "meta" (Object [("recipient", Object
      [("address", recipientAddress); ("publicKey", prop recipientAccount "publicKey");
       ("name", prop recipientAccount "name")])]))
  else ret transaction.

(** [a <= b] for a value that may be missing. *)
Definition le_val (a : val) (b : Z) : bool := match a with Num z => z <=? b | _ => false end.

Definition tx_block (info : obj) (finalized : Z) : val :=
  Object [("id", prop info "blockID"); ("height", prop info "height"); ("timestamp", prop info "timestamp");
          ("isFinal", Bool (le_val (prop info "height") finalized))].

Definition present_transaction (resultSet : list obj) (transaction : obj) : M St obj :=
  transaction ← add_parties transaction;
  let indexedTxInfo := default [] (list_find (fun info => prop info "id" = prop transaction "id") resultSet ≫= fun x => Some (snd x)) in
  finalized ← lift finalizedHeight;
  let transaction := set_prop transaction "block" (tx_block indexedTxInfo finalized) in
  ret (foldl (fun t key => set_prop t key (prop indexedTxInfo key)) transaction ["executionStatus"; "index"; "minFee"]).

Definition business_getTransactions (params : obj) : M St (list obj * obj) :=
  '(resultSet, data, total) ← findTransactions currentChainID getTransactionsByIDs params;
  data ← map_each data (fun t => present_transaction resultSet (as_obj t));
  ret (data, [("total", Num total); ("count", Num (Z.of_nat (length data))); ("offset", prop params "offset")]).

Definition format_in_block (block : obj) (index : Z) (transaction : obj) : M St obj :=
  transaction ← add_parties transaction;
  let transaction := set_prop transaction "block"
    (Object [("id", prop block "id"); ("height", prop block "height"); ("timestamp", prop block "timestamp");
             ("isFinal", prop block "isFinal")]) in
  rows ← read Auto (find transactionsTableSchema [("id", prop transaction "id"); ("limit", Num 1)]
                      (Arr [Str "executionStatus"]));
  let known := prop (default [] (head rows)) "executionStatus" in
  status ← (if truthy known then ret known
            else events ← getEventsByHeight (prop block "height"); lift (getTransactionExecutionStatus transaction events));
  ret (set_prop (set_prop transaction "executionStatus" status) "index" (Num index)).

Definition formatTransactionsInBlock (block : obj) : M St (list obj * obj) :=
  txs ← lift (elements (prop block "transactions"));
  transactions ← map_each (imap (fun i t => (Z.of_nat i, as_obj t)) txs) (fun '(i, t) => format_in_block block i t);
  let n := Num (Z.of_nat (length transactions)) in
  ret (transactions, [("offset", Num 0); ("count", n); ("total", n)]).

Definition getTransactionsByBlockID (blockID : val) : M St (list obj * obj) :=
  block ← getBlockByID blockID;
  formatTransactionsInBlock block.

(** ** business/pendingTransactions.js

    [pendingTransactionsList] is an argument and a result. *)
Definition formatPendingTransaction (transaction : obj) : M St obj :=
  let normalizedTransaction := as_obj (normalizeTransaction transaction) in
  senderAddress ← lift (getKlayr32AddressFromPublicKey (prop normalizedTransaction "senderPublicKey"));
  account ← getIndexedAccountInfo [("address", senderAddress)] ["name"];
  let normalizedTransaction := set_prop normalizedTransaction "sender"
    (Object [("address", senderAddress); ("publicKey", prop normalizedTransaction "senderPublicKey");
             ("name", if truthy (prop account "name") then prop account "name" else Null)]) in
  recipientAddress ← lift (get (prop normalizedTransaction "params") "recipientAddress");
  normalizedTransaction ←
    (if truthy recipientAddress then
       recipientAccount ← getIndexedAccountInfo [("address", recipientAddress)] ["publicKey"; "name"];
       ret (set_prop normalizedTransaction "meta" (Object [("recipient", Object
         [("address", recipientAddress); ("publicKey", prop recipientAccount "publicKey");
          ("name", prop recipientAccount "name")])]))
     else ret normalizedTransaction);
  indexAccountPublicKey (prop normalizedTransaction "senderPublicKey") ≫= fun _ =>
  ret (set_prop normalizedTransaction "executionStatus" (Str "pending")).

(** [requestConnector('getTransactionsFromPool')] *)
Variable request_pool : result (list obj).

Definition getPendingTransactionsFromNode : M St (list obj) :=
  response ← lift request_pool; map_each response formatPendingTransaction.

Definition loadAllPendingTransactions (pendingTransactionsList : list obj) : M St (list obj) :=
  try_catch getPendingTransactionsFromNode (fun _ => ret pendingTransactionsList).

Definition txPoolNewTransactionListener (pendingTransactionsList : list obj) (transaction : obj) : list obj :=
  pendingTransactionsList ++ [transaction].

Definition pending_validateParams (params : obj) : result obj :=
  if truthy (prop params "nonce") && negb (truthy (prop params "senderAddress"))
  then Throw "Nonce based retrieval is only possible along with senderAddress"
  else
    let given := filter (fun key => truthy (prop params key) = true)
                   ["id"; "address"; "senderAddress"; "recipientAddress"; "moduleCommand"] in
    let validatedParams := (fun key => (key, prop params key)) <$> given in
    if truthy (prop params "receivingChainID") then
      current ← currentChainID;
      Ok (validatedParams ++
          (if bool_decide (prop params "receivingChainID" = current) then [("currentChainTransactions", Bool true)]
           else [("receivingChainID", prop params "receivingChainID")]))
    else Ok validatedParams.

(** [!param || value === param], where the value is read only when needed. *)
Definition asks (o : obj) (key : string) (value : result val) : result bool :=
  if truthy (prop o key) then v ← value; Ok (bool_decide (v = prop o key)) else Ok true.

Definition pending_matches (o transaction : obj) : result bool :=
  let of_sender := get (prop transaction "sender") "address" in
  let of_params key := get (prop transaction "params") key in
  andR (asks o "id" (Ok (prop transaction "id")))
  (andR (asks o "senderAddress" of_sender)
  (andR (asks o "recipientAddress" (of_params "recipientAddress"))
  (andR (if truthy (prop o "address") then
           s ← of_sender;
           if bool_decide (s = prop o "address") then Ok true
           else r ← of_params "recipientAddress"; Ok (bool_decide (r = prop o "address"))
         else Ok true)
  (andR (asks o "moduleCommand" (Ok (prop transaction "moduleCommand")))
  (andR (asks o "receivingChainID" (of_params "receivingChainID"))
        (if truthy (prop o "currentChainTransactions") then c ← of_params "receivingChainID"; Ok (negb (truthy c))
         else Ok true)))))).

(** [Number(v) || d] *)
Definition number_default (v : val) (d : Z) : Z := match js_Number v with Num z => if z =? 0 then d else z | _ => d end.

Definition getPendingTransactions (pendingTransactionsList : list obj) (params : obj) : result (list obj * Z) :=
  if has_prop params "blockID" || has_prop params "timestamp" || has_prop params "height" then Ok ([], 0)
  else
    let offset := number_default (prop params "offset") 0 in
    let limit := number_default (prop params "limit") 10 in
    validatedParams ← pending_validateParams params;
    filteredPendingTxs ← js_filter (pending_matches validatedParams) pendingTransactionsList;
    Ok ((fun t => set_prop t "executionStatus" (Str "pending"))
          <$> take (Z.to_nat limit) (drop (Z.to_nat offset) filteredPendingTxs),
        Z.of_nat (length filteredPendingTxs)).

(** ** dataService/transactions.js *)
Definition isIncludePendingTransactions (executionStatus : val) : bool :=
  match executionStatus with Str s => bool_decide ("pending" ∈ split_on "," s) | _ => false end.

Definition mergeTransactions (pendingTransactionsList : list obj) (params : obj) : M St (list obj * obj) :=
  '(pending, numTotalPendingTx) ← lift (getPendingTransactions pendingTransactionsList params);
  let offset := prop params "offset" in
  let limit := prop params "limit" in
  let params := spread params
    [("limit", js_max (Num 1) (js_sub limit (Num (numTotalPendingTx - Z.of_nat (length pending)))));
     ("offset", js_max (Num 0) (js_sub offset (Num numTotalPendingTx)))] in
  '(data, total) ← try_catch
    ('(data, meta) ← business_getTransactions params; ret (data, default 0 (match prop meta "total" with Num t => Some t | _ => None end)))
    (fun e => if (length pending =? 0)%nat then throw e else ret ([], 0));
  let all := if bool_decide (Num (Z.of_nat (length pending)) = limit) then pending else slice_to limit (pending ++ data) in
  ret (all, [("count", Num (Z.of_nat (length all))); ("offset", offset); ("total", Num (numTotalPendingTx + total))]).

Definition getTransactions (pendingTransactionsList : list obj) (params : obj) : M St (list obj * obj) :=
  if isIncludePendingTransactions (prop params "executionStatus") then mergeTransactions pendingTransactionsList params
  else business_getTransactions params.

(** The answer to a request the node refused. *)
Definition node_error (what e : string) : obj :=
  if str_includes "ECONNREFUSED" e
  then [("data", Object [("error", Str "Unable to reach a network node.")]); ("status", Str "INTERNAL_SERVER_ERROR")]
  else [("data", Object [("error", Str (what +:+ e))]); ("status", Str "BAD_REQUEST")].

(** [requestConnector('postTransaction', { transaction })] and [business.dryRunTransactions] *)
Variable request_post : val -> result val.
Variable dryRun : obj -> result obj.

Definition postTransactions (params : obj) : obj :=
  match (response ← request_post (prop params "transaction"); get response "transactionId") with
  | Ok id => [("message", Str "Transaction payload was successfully passed to the network node."); ("transactionID", id)]
  | Throw e => node_error "Transaction payload was rejected by the network node: " e
  end.

Definition dryRunTransactions (params : obj) : obj :=
  match dryRun params with
  | Ok response => response
  | Throw e => node_error "Failed to dry run transaction: " e
  end.

(** ** interoperability/submitSidechainCrossChainUpdate.js *)
Definition MAINCHAIN_ID_text : string := "^[a-fA-F0-9]{2}000000$".
Definition MAINCHAIN_ID : regex := Eval vm_compute in regex_of MAINCHAIN_ID_text.
Definition isMainchain : result bool := id ← currentChainID; Ok (regex_test MAINCHAIN_ID (js_String id)).

Variable pendingTransactionsList : list obj.

(** [result.find(e => e.params.sendingChainID === tx.params.sendingChainID)] *)
Definition of_chain (sendingChainID : val) (l : list obj) : result (option obj) :=
  js_find (fun e => id ← get (prop e "params") "sendingChainID"; Ok (bool_decide (id = sendingChainID))) l.

(** The first height with a transaction of the command decides. *)
Fixpoint previous_ccu (tx : obj) (sendingChainID : val) (rows : list obj) : M St (option obj) :=
  match rows with
  | [] => ret None
  | row :: rows =>
      '(l, _) ← getTransactions pendingTransactionsList
        [("height", prop row "height"); ("moduleCommand", prop tx "moduleCommand"); ("executionStatus", SUCCESSFUL)];
      match l with
      | [] => previous_ccu tx sendingChainID rows
      | _ => lift (of_chain sendingChainID l)
      end
  end.

Definition below_height (blockHeader : obj) : val :=
  Arr [Object [("property", Str "height"); ("lowerThan", prop blockHeader "height")]].

Definition previous_registration (blockHeader : obj) (sendingChainID : val) : M St (option obj) :=
  mainchain ← lift isMainchain;
  let COMMAND := if mainchain : bool then "registerSidechain" else "registerMainchain" in
  '(l, _) ← getTransactions pendingTransactionsList
    [("moduleCommand", Str ("interoperability:" +:+ COMMAND)); ("executionStatus", SUCCESSFUL);
     ("propBetweens", below_height blockHeader)];
  lift (of_chain sendingChainID l).

Definition submitSidechainCrossChainUpdate_revert (blockHeader tx : obj) : M St unit :=
  when_successful tx (
    sendingChainID ← lift (get (prop tx "params") "sendingChainID");
    chainInfo ← lift (getChainInfo sendingChainID);
    prevTransaction ←
      (if bool_decide (prop chainInfo "status" = Str "activated") then
         resultSet ← read Auto (find ccuTableSchema
           [("sendingChainID", sendingChainID); ("propBetweens", below_height blockHeader); ("sort", Str "height:desc")]
           (Str "height"));
         previous_ccu tx sendingChainID resultSet
       else if bool_decide (prop chainInfo "status" = Str "registered") then previous_registration blockHeader sendingChainID
       else ret None);
    block ← lift (match prevTransaction with
                  | Some t => Ok (prop t "block")
                  | None => Throw "Cannot read properties of undefined (reading 'block')"
                  end);
    timestamp ← lift (get block "timestamp");
    height ← lift (get block "height");
    t_upsert blockchainAppsTableSchema (Object
      [("chainID", sendingChainID); ("status", prop chainInfo "status"); ("lastUpdated", timestamp);
       ("lastCertificateHeight", height)])).

(** The cross-chain updates in front of the remaining processors. *)
Definition with_ccu (rest : string -> string -> option (handler (St := St) * handler (St := St)))
    (module command : string) : option (handler (St := St) * handler (St := St)) :=
  if String.eqb module "interoperability" then
    assoc [("submitSidechainCrossChainUpdate",
            pair_of submitSidechainCrossChainUpdate_apply submitSidechainCrossChainUpdate_revert);
           ("submitMainchainCrossChainUpdate",
            pair_of submitSidechainCrossChainUpdate_apply submitSidechainCrossChainUpdate_revert)] command
  else rest module command.
End TransactionQuery.

(** ** What the merged list shows *)
Section Merged.
Context {St : Type} `{SqlLaws St} `{NodeApi}.
Variable currentChainID : result val.
Variable finalizedHeight : result Z.
Variable request_transactionsByIDs : list val -> result (list obj).

Definition as_pending (t : obj) : obj := set_prop t "executionStatus" (Str "pending").

(** The page of the merged list, cut from the pending transactions [pend] and
    those of the index. *)
Lemma merged_slice {A} (pend txs : list A) (l o : nat) :
  let d := take l (drop o pend) in
  let l' := Nat.max 1 (l - (length pend - length d)) in
  let o' := (o - length pend)%nat in
  exists k, (l - Nat.min o (length pend) <= k <= l)%nat /\
    (if (length d =? l)%nat then d else take l (d ++ take l' (drop o' txs))) = take k (take l (drop o (pend ++ txs))).
Proof.
  intros d l' o'. assert (Hd : length d = Nat.min l (length pend - o)) by (unfold d; rewrite length_take, length_drop; done).
  destruct (Nat.eqb_spec (length d) l) as [E|E].
  { exists l. split; [lia|]. rewrite take_take, Nat.min_id, drop_app, take_app_le by (rewrite length_drop; lia). done. }
  destruct (decide (length pend <= o)%nat) as [Ho|Ho].
  - exists (Nat.min l l'). split; [unfold l'; lia|].
    assert (d = []) as -> by (apply length_zero_iff_nil; lia).
    rewrite drop_app_ge by lia. cbn [app]. rewrite !take_take. f_equal; lia.
  - exists (Nat.min l (length d + l'))%nat. split; [unfold l'; lia|].
    assert (d = drop o pend) as Hdd by (unfold d; apply take_ge; rewrite length_drop; lia).
    rewrite drop_app_le by lia. replace o' with 0%nat by (unfold o'; lia). rewrite drop_0, <- Hdd.
    rewrite !take_take. replace (Nat.min (Nat.min l (length d + l')) l) with (Nat.min l (length d + l')) by lia.
    rewrite !take_app, !take_take. f_equal; [rewrite !take_ge; [done|lia..]|]. f_equal. lia.
Qed.

Lemma getPending_page L params v found (l o : nat) :
  has_prop params "blockID" || has_prop params "timestamp" || has_prop params "height" = false ->
  prop params "limit" = Num (Z.of_nat l) -> prop params "offset" = Num (Z.of_nat o) -> (0 < l)%nat ->
  pending_validateParams currentChainID params = Ok v -> js_filter (pending_matches v) L = Ok found ->
  getPendingTransactions currentChainID L params
  = Ok (take l (drop o (as_pending <$> found)), Z.of_nat (length (as_pending <$> found))).
Proof.
  intros Hno Hl Ho Hpos Hv Hf. unfold getPendingTransactions. rewrite Hno, Hv. cbn [mbind result_bind]. rewrite Hf.
  cbn [mbind result_bind]. rewrite Hl, Ho. unfold number_default. cbn [js_Number].
  rewrite length_fmap, fmap_take, fmap_drop. do 2 f_equal.
  replace (Z.of_nat l =? 0) with false by (symmetry; apply Z.eqb_neq; lia). rewrite Nat2Z.id.
  destruct (Z.eqb_spec (Z.of_nat o) 0) as [E|E]; [|by rewrite Nat2Z.id].
  by replace o with 0%nat by lia.
Qed.

(** A page of a request that includes pending transactions
    ([mergeTransactions]) starts where it should: its entries are the first
    ones of the page of the pending transactions followed by those of the
    index (when the index answers with that page of its list), none is out of place, and it lacks at most as many
    entries at its end as there are pending transactions on earlier pages; the
    first page is complete. *)
Theorem merged_page L params v found (txs : list obj) total meta (l o : nat) (w : world St) :
  has_prop params "blockID" || has_prop params "timestamp" || has_prop params "height" = false ->
  prop params "limit" = Num (Z.of_nat l) -> prop params "offset" = Num (Z.of_nat o) -> (0 < l)%nat ->
  pending_validateParams currentChainID params = Ok v -> js_filter (pending_matches v) L = Ok found ->
  let pend := as_pending <$> found in
  let l' := Nat.max 1 (l - (length pend - length (take l (drop o pend)))) in
  let o' := (o - length pend)%nat in
  business_getTransactions currentChainID finalizedHeight request_transactionsByIDs
    (spread params [("limit", Num (Z.of_nat l')); ("offset", Num (Z.of_nat o'))]) w
  = (Ok (take l' (drop o' txs), meta), w) -> prop meta "total" = Num total ->
  exists data k,
    mergeTransactions currentChainID finalizedHeight request_transactionsByIDs L params w
    = (Ok (data, [("count", Num (Z.of_nat (length data))); ("offset", Num (Z.of_nat o));
                  ("total", Num (Z.of_nat (length pend) + total))]), w) /\
    data = take k (take l (drop o (pend ++ txs))) /\
    (l - Nat.min o (length pend) <= k <= l)%nat /\
    (o = 0%nat -> data = take l (pend ++ txs)).
Proof.
  intros Hno Hl Ho Hpos Hv Hf pend l' o' Hb Ht.
  destruct (merged_slice pend txs l o) as (k & Hk & E).
  exists (take k (take l (drop o (pend ++ txs)))), k. split_and!; [|done|lia..|].
  - unfold mergeTransactions. rewrite (lift_ok _ _ _ _ (getPending_page L params v found l o Hno Hl Ho Hpos Hv Hf)).
    fold pend. cbn beta iota. rewrite Hl, Ho. cbn [js_sub js_max].
    replace (Z.max 1 (Z.of_nat l - (Z.of_nat (length pend) - Z.of_nat (length (take l (drop o pend)))))) with (Z.of_nat l').
    2:{ unfold l'. rewrite length_take, length_drop. lia. }
    replace (Z.max 0 (Z.of_nat o - Z.of_nat (length pend))) with (Z.of_nat o') by (unfold o'; lia).
    unfold try_catch, mbind at 2, eff_bind at 2. unfold mbind at 1, eff_bind at 1. rewrite Hb. cbn beta iota. rewrite Ht.
    cbn [default ret]. unfold ret. cbn beta iota.
    replace (bool_decide (Num (Z.of_nat (length (take l (drop o pend)))) = Num (Z.of_nat l)))
      with (length (take l (drop o pend)) =? l)%nat.
    2:{ destruct (Nat.eqb_spec (length (take l (drop o pend))) l) as [->|Hne]; [by rewrite bool_decide_eq_true_2|].
        rewrite bool_decide_eq_false_2; [done|]. intros [= Heq]. lia. }
    unfold slice_to. replace (Z.of_nat l <? 0) with false by (symmetry; apply Z.ltb_ge; lia). rewrite Nat2Z.id.
    unfold l', o'. by rewrite E.
  - intros ->. rewrite drop_0, take_take. f_equal. lia.
Qed.
End Merged.

(** Twelve transactions are indexed and two more are pending. *)
Definition sample_tx (n : Z) : obj :=
  [("id", Str ("tx" +:+ string_of_Z n)); ("senderPublicKey", Str "aa"); ("module", Str "token"); ("command", Str "transfer");
   ("params", Object [])].

Definition sample_tx_row (n : Z) : val :=
  Object [("id", Str ("tx" +:+ string_of_Z n)); ("height", Num n); ("moduleCommand", Str "token:transfer"); ("nonce", Num n);
          ("blockID", Str "b"); ("senderAddress", Str "kly"); ("recipientAddress", Str "kly"); ("receivingChainID", Str "c");
          ("size", Num 100); ("minFee", Num 1); ("fee", Num 1); ("timestamp", Num n); ("index", Num 0);
          ("executionStatus", Str "successful"); ("amount", Num 1)].

Definition sample_tx_ids : list Z := [1; 2; 3; 4; 5; 6; 7; 8; 9; 10; 11; 12].

Definition sample_tx_world : world MemDB :=
  let s := match foldM (fun s n => upsert transactionsTableSchema (sample_tx_row n) s) ∅ sample_tx_ids with
           | Ok s => s | Throw _ => ∅ end in
  mkWorld s s ∅ [] s.

(** The node knows every transaction it is asked for. *)
Definition sample_by_ids (ids : list val) : result (list obj) :=
  Ok ((fun id => ("id", id) :: tl (sample_tx 0)) <$> ids).

Definition sample_pending : list obj :=
  (fun n => set_prop (sample_tx n) "sender" (Object [("address", Str "kly")])) <$> [98; 99].

Definition sample_tx_params (limit offset : Z) : obj :=
  [("executionStatus", Str "successful,pending"); ("sort", Str "timestamp:asc"); ("limit", Num limit); ("offset", Num offset)].

Definition merged_ids (limit offset : Z) : list val :=
  match fst (mergeTransactions (H0 := sample_node) (Ok (Str "00000000")) (Ok 100) sample_by_ids sample_pending
               (sample_tx_params limit offset) sample_tx_world) with
  | Ok (data, _) => (fun t => prop t "id") <$> data
  | Throw e => [Str e]
  end.

(** With two transactions pending, the pages of five show the third to the
    sixth indexed transaction on the second page and go on with the ninth. *)
Lemma merged_pages_skip :
  (merged_ids 5 0, merged_ids 5 5, merged_ids 5 10)
  = ([Str "tx98"; Str "tx99"; Str "tx1"; Str "tx2"; Str "tx3"], [Str "tx4"; Str "tx5"; Str "tx6"],
     [Str "tx9"; Str "tx10"; Str "tx11"]).
Proof. vm_compute. reflexivity. Qed.

Definition sample_business (limit offset : Z) : list obj :=
  match fst (business_getTransactions (H0 := sample_node) (Ok (Str "00000000")) (Ok 100) sample_by_ids
               (sample_tx_params limit offset) sample_tx_world) with
  | Ok (data, _) => data
  | Throw _ => []
  end.

Lemma merged_page_witness :
  exists data k,
    mergeTransactions (H0 := sample_node) (Ok (Str "00000000")) (Ok 100) sample_by_ids sample_pending
      (sample_tx_params 5 5) sample_tx_world
    = (Ok (data, [("count", Num (Z.of_nat (length data))); ("offset", Num 5); ("total", Num 14)]), sample_tx_world) /\
    data = take k (take 5 (drop 5 ((as_pending <$> sample_pending) ++ sample_business 12 0))) /\
    (3 <= k <= 5)%nat /\ (5%nat = 0%nat -> data = take 5 ((as_pending <$> sample_pending) ++ sample_business 12 0)).
Proof.
  apply (merged_page (H1 := sample_node) (Ok (Str "00000000")) (Ok 100) sample_by_ids sample_pending (sample_tx_params 5 5)
           [] sample_pending (sample_business 12 0) 12
           [("total", Num 12); ("count", Num 3); ("offset", Num 3)] 5 5 sample_tx_world).
  all: first [reflexivity | lia | vm_compute; reflexivity].
Defined.

Section CcuFrame.
Context {St : Type} `{SqlLaws St} `{NodeApi}.
Variable currentChainID : result val.
Variable finalizedHeight : result Z.
Variable request_transactionsByIDs : list val -> result (list obj).
Variable pendingTransactionsList : list obj.

Lemma business_getTransactions_keeps params :
  keeps (St := St) "blocks" (business_getTransactions currentChainID finalizedHeight request_transactionsByIDs params).
Proof.
  assert (Hb : forall n ids, keeps (St := St) "blocks" (batches (getTransactionsByIDs request_transactionsByIDs) n ids)).
  { intros n. induction n as [|n IH]; intros ids; simpl; [apply keeps_ret|]. unfold getTransactionsByIDs at 1. solve_frame. }
  assert (Hp : forall rs t, keeps (St := St) "blocks" (present_transaction finalizedHeight rs t)).
  { intros rs t. unfold present_transaction, add_parties, getIndexedAccountInfo. solve_frame. }
  unfold business_getTransactions, findTransactions. solve_frame.
Qed.

Lemma with_ccu_keeps rest m c p :
  (forall p, rest m c = Some p -> pair_keeps "blocks" p) ->
  with_ccu (St := St) currentChainID finalizedHeight request_transactionsByIDs pendingTransactionsList rest m c = Some p ->
  pair_keeps "blocks" p.
Proof.
  intros Hrest. unfold with_ccu. destruct (String.eqb m "interoperability"); [|apply Hrest].
  pose proof business_getTransactions_keeps as Hb.
  assert (Hg : forall ps, keeps (St := St) "blocks"
    (getTransactions currentChainID finalizedHeight request_transactionsByIDs pendingTransactionsList ps)).
  { intros ps. unfold getTransactions, mergeTransactions. solve_frame. }
  assert (Hc : forall tx id rows, keeps (St := St) "blocks"
    (previous_ccu currentChainID finalizedHeight request_transactionsByIDs pendingTransactionsList tx id rows)).
  { intros tx id rows. induction rows as [|row rows IH]; simpl; [apply keeps_ret|]. solve_frame. }
  intros Hp%assoc_elem. revert Hp. rewrite !elem_of_cons, elem_of_nil.
  intros [[= -> ->]|[[= -> ->]|[]]]; split; intros h tx ev; cbn [fst snd pair_of].
  all: unfold submitSidechainCrossChainUpdate_apply, submitSidechainCrossChainUpdate_revert, previous_registration,
    when_successful, t_upsert; solve_frame.
Qed.
End CcuFrame.
