(* ===== verification/Genesis.v ===== *)
(** * The genesis assets

    [blockchain-connector/shared/sdk/genesisBlock.js] hands out the assets of
    the genesis block by module and page; [indexer/genesisBlock.js] of the
    indexer fetches and indexes them, and stores the balances of the accounts
    afterwards, in the background.  The list [genesisAccountBalances] of that
    file is the queue of that name in the world.  The formatted genesis block,
    the codec of NFT attributes and the answers of the DEX endpoints are
    parameters. *)
From S2P Require Import Prelude JsValue Database Engine Table World Schemas KvStore Chain Stake.
From S2P Require Import Rewards Balances Processors PoolAddress Dex Dispatch DexSpec BlockIndex.
From S2P Require Import TickMath LiquidityAmounts RequestAll Gateway Mapper TokenFactory.
Local Open Scope Z_scope.

(** ** sdk/genesisBlock.js *)
Section Connector.
(** [(await getGenesisBlockFormatted(true)).assets] *)
Variable genesis_assets : result (list val).

(** [moduleData.slice(offset, offset + limit)] when both are given. *)
Definition page_of (params : obj) (moduleData : val) : result val :=
  match prop params "offset", prop params "limit" with
  | Undef, _ => Ok moduleData
  | Num o, Num l =>
      if l =? 0 then Ok moduleData
      else match moduleData with
           | Arr xs => Ok (Arr (slice l o xs))
           | _ => Throw "moduleData.slice is not a function"
           end
  | _, _ => Ok moduleData
  end.

Definition getGenesisAssets (params : obj) : result (list val) :=
  assets ← genesis_assets;
  if negb (truthy (prop params "module")) && negb (truthy (prop params "subStore")) then Ok assets
  else
    assetByModule ← js_find (fun asset => prop_is asset "module" (prop params "module")) assets;
    if truthy (prop params "subStore") then
      let asset := default Undef assetByModule in
      let subStore := js_String (prop params "subStore") in
      data ← get asset "data";
      moduleData ← get data subStore;
      if negb (truthy moduleData) then Ok []
      else
        moduleData ← page_of params moduleData;
        Ok [Object (spread (as_obj asset) [("data", Object [(subStore, moduleData)])])]
    else Ok (option_list assetByModule).

Definition getGenesisAssetByModule (params : obj) : result val :=
  l ← getGenesisAssets params;
  data ← get (default (Object []) (head l)) "data";
  Ok (if truthy data then data else Object []).

(** [asset.data[subStoreKey].length] *)
Definition length_of (v : val) : val :=
  match v with Arr l => Num (Z.of_nat (length l)) | Str s => Num (Z.of_nat (String.length s)) | _ => Undef end.

Definition getGenesisAssetsLength (params : obj) : result obj :=
  genesisAssets ← getGenesisAssets params;
  foldM (fun acc asset =>
    module ← get asset "module";
    data ← get asset "data";
    let lengths := (fun kv => (fst kv, length_of (snd kv))) <$> as_obj data in
    let key := js_String module in
    match lengths with
    | [] => Ok acc
    | _ => Ok (set_prop acc key (Object (spread (as_obj (prop acc key)) lengths)))
    end) [] genesisAssets.
End Connector.

(** ** indexer/genesisBlock.js *)
Class GenesisApi := {
  (** The assets of the genesis block. *)
  genesis_block_assets : result (list val);
  (** [getGenesisHeight()] *)
  genesis_height : result Z;
  (** [codec.decode(dexNFTAttributeSchema, Buffer.from(attributes, 'hex'))],
      with its byte strings in hexadecimal. *)
  decode_nft_attribute : val -> result obj;
  (** [invokeEndpoint({ endpoint: 'dex_getTokenURI', params: { poolAddress, tokenId } })] *)
  dex_getTokenURI : string -> string -> result val;
}.

Definition INVALID_ED25519_KEY : val := Str "ffffffffffffffffffffffffffffffffffffffffffffffffffffffffffffffff".
Definition isGeneratorKeyValid (generatorKey : val) : bool := negb (bool_decide (generatorKey = INVALID_ED25519_KEY)).

Section Genesis.
Context {St : Type} `{SqlEngine St} `{NodeApi} `{Crypto} `{DexApi} `{FactoryApi} `{GenesisApi}.
Variable prefix : string.

(** [(await requestConnector('getGenesisAssetsLength', params))[module]]; a
    module without assets is missing. *)
Definition assets_length (params : obj) (module : string) : result val :=
  l ← getGenesisAssetsLength genesis_block_assets params;
  Ok (prop l module).

(** The entries of a sub store, fetched in pages of 1000. *)
Definition sub_store (module subStore : string) (n : val) : result (list val) :=
  data ← requestAll (getGenesisAssetByModule genesis_block_assets)
           [("module", Str module); ("subStore", Str subStore); ("limit", Num 1000)]
           (match n with Num z => Some z | _ => None end);
  v ← get data subStore;
  elements v.

(** [n > 0] *)
Definition positive (n : val) : bool := match n with Num z => 0 <? z | _ => false end.

(** *** Token module *)
Definition sum_locked (lockedBalances : list val) : result Z :=
  foldM (fun acc entry => a ← get entry "amount"; n ← js_BigInt a; Ok (acc + n)) 0 lockedBalances.

Definition add_locked (tokenID : string) (lockedBalances : list val) (changes : list (string * Z)) : result (list (string * Z)) :=
  foldM (fun acc entry => a ← get entry "amount"; n ← js_BigInt a; Ok (add_amount acc tokenID n)) changes lockedBalances.

Definition index_user (changes : list (string * Z)) (userInfo : val) : M St (list (string * Z)) :=
  address ← lift (get userInfo "address");
  tokenID ← lift (get userInfo "tokenID");
  availableBalance ← lift (get userInfo "availableBalance");
  l ← lift (get userInfo "lockedBalances");
  lockedBalances ← lift (elements l);
  totalLockedBalance ← lift (sum_locked lockedBalances);
  available ← lift (js_BigInt availableBalance);
  add_job "genesisAccountBalances"
    (Object [("address", address); ("tokenID", tokenID); ("balance", BigI (available + totalLockedBalance))]) ≫= fun _ =>
  lift (add_locked (js_String tokenID) lockedBalances changes).

Fixpoint index_users (changes : list (string * Z)) (users : list val) : M St (list (string * Z)) :=
  match users with
  | [] => ret changes
  | u :: users => changes ← index_user changes u; index_users changes users
  end.

Definition indexTokenModuleAssets : M St unit :=
  lengths ← lift (assets_length [("module", Str "token"); ("subStore", Str "userSubstore")] "token");
  totalUsers ← lift (get lengths "userSubstore");
  userSubStoreInfos ← lift (sub_store "token" "userSubstore" totalUsers);
  tokenIDLockedAmountChangeMap ← index_users [] userSubStoreInfos;
  updateTotalLockedAmounts prefix tokenIDLockedAmountChangeMap.

(** *** PoS module *)
Definition index_validator (height : Z) (validator : val) : M St obj :=
  generatorKey ← lift (get validator "generatorKey");
  (if isGeneratorKeyValid generatorKey then
     address ← lift (getKlayr32AddressFromPublicKey generatorKey);
     try_catch (write Auto (upsert accountsTableSchema (Object [("address", address); ("publicKey", generatorKey)])))
       (fun _ => indexAccountPublicKey generatorKey)
   else ret tt) ≫= fun _ =>
  address ← lift (get validator "address");
  commission ← lift (get validator "commission");
  ret [("address", address); ("commission", commission); ("height", Num height)].

Definition indexPosValidatorsInfo (numValidators : val) : M St unit :=
  if positive numValidators then
    validators ← lift (sub_store "pos" "validators" numValidators);
    genesisHeight ← lift genesis_height;
    commissionEntries ← map_each validators (index_validator genesisHeight);
    t_upsert commissionsTableSchema (Arr (Object <$> commissionEntries))
  else ret tt.

(** [allStakes], in the order of the stakers. *)
Definition stakes_of (staker : val) : result (list obj) :=
  stakerAddress ← get staker "address";
  s ← get staker "stakes";
  stakes ← elements s;
  mapM_result (fun stake =>
    validatorAddress ← get stake "validatorAddress";
    a ← get stake "amount"; amount ← js_BigInt a;
    Ok [("stakerAddress", stakerAddress); ("validatorAddress", validatorAddress); ("amount", BigI amount)]) stakes.

Definition indexPosStakesInfo (numStakers : val) : M St unit :=
  allStakes ← (if positive numStakers then
                 stakers ← lift (sub_store "pos" "stakers" numStakers);
                 ls ← lift (mapM_result stakes_of stakers);
                 let allStakes := List.concat ls in
                 t_upsert stakesTableSchema (Arr (Object <$> allStakes)) ≫= fun _ => ret allStakes
               else ret []);
  totals ← lift (stake_changes 1 allStakes 0 0);
  updateTotalStake prefix (fst totals) ≫= fun _ =>
  updateTotalSelfStake prefix (snd totals).

Definition indexPosModuleAssets : M St unit :=
  lengths ← lift (assets_length [("module", Str "pos")] "pos");
  numValidators ← lift (get lengths "validators");
  numStakers ← lift (get lengths "stakers");
  indexPosValidatorsInfo numValidators ≫= fun _ =>
  indexPosStakesInfo numStakers.

(** *** DEX module *)

(** [infos.find(t => t[key] === id)], which must exist. *)
Definition find_info (key : string) (id : val) (infos : list val) (missing : string) : result val :=
  found ← js_find (fun t => prop_is t key id) infos;
  match found with Some t => Ok t | None => Throw missing end.

Definition genesis_pool (infos : val) : result created_pool :=
  fee ← get infos "fee";
  feeHex ← write_uint_be 3 (js_parseInt fee);
  t0 ← get infos "token0"; t1 ← get infos "token1";
  poolAddress ← computePoolAddress (mkPoolKey (js_String t0) (js_String t1) fee);
  address ← getKlayr32AddressFromHexAddress (Buf poolAddress);
  cid ← computePoolId (Buf poolAddress);
  sp ← get infos "tickSpacing";
  slot0 ← get infos "slot0";
  tick ← get slot0 "tick";
  Ok (mkCreated t0 t1 fee (Str address) sp tick (to_hex feeHex) cid).

Definition index_pool (blockHeader : obj) (tokenSymbolSubstoreInfos : list val) (infos : val) : M St unit :=
  p ← lift (genesis_pool infos);
  let missing t := "error when indexing dex pools: data for token " +:+ js_String t
                   +:+ " is not found on tokenSymbolSubstore" in
  tok0 ← lift (find_info "tokenId" (cp_token0 p) tokenSymbolSubstoreInfos (missing (cp_token0 p)));
  tok1 ← lift (find_info "tokenId" (cp_token1 p) tokenSymbolSubstoreInfos (missing (cp_token1 p)));
  liquidity ← lift (get infos "liquidity");
  d0 ← lift (get tok0 "decimal");
  d1 ← lift (get tok1 "decimal");
  price ← lift (getPriceAtTick (cp_tick p) d0 d1 false);
  t_upsert poolTableSchema (Object (set_prop (pool_row blockHeader p false price) "liquidity" liquidity)) ≫= fun _ =>
  priceInverse ← lift (getPriceAtTick (cp_tick p) d0 d1 true);
  t_upsert poolTableSchema (Object (set_prop (pool_row blockHeader p true priceInverse) "liquidity" liquidity)).

Definition indexDexPoolInfo (numPools numTokens : val) (blockHeader : obj) : M St unit :=
  if positive numPools then
    poolSubstoreInfos ← lift (sub_store "dex" "poolSubstore" numPools);
    tokenSymbolSubstoreInfos ← lift (sub_store "dex" "tokenSymbolSubstore" numTokens);
    for_each poolSubstoreInfos (index_pool blockHeader tokenSymbolSubstoreInfos)
  else ret tt.

Definition index_token (infos : val) : M St unit :=
  symbol ← lift (get infos "symbol");
  name ← lift (lower symbol);
  tokenId ← lift (get infos "tokenId");
  let default_logo := Str (SERVICE_URL +:+ "/static/img/logo/" +:+ name +:+ ".svg") in
  logo ← try_catch
    (meta ← TokenFactory.getTokenFactoriesMeta [("tokenIds", tokenId); ("registry", Bool true)];
     data ← lift (elements (prop meta "data"));
     match data with
     | first :: _ => l ← lift (get first "logo"); lift (get l "svg")
     | [] => ret default_logo
     end)
    (fun _ => ret default_logo);
  decimal ← lift (get infos "decimal");
  t_upsert registeredDexTokenTableSchema
    (Object [("tokenId", tokenId); ("symbol", symbol); ("decimal", decimal); ("logo", logo)]).

Definition indexDexRegisteredTokenInfo (numTokens : val) : M St unit :=
  if positive numTokens then
    tokenSymbolSubstoreInfos ← lift (sub_store "dex" "tokenSymbolSubstore" numTokens);
    for_each tokenSymbolSubstoreInfos index_token
  else ret tt.

Definition index_tick (infos : val) : M St unit :=
  poolAddress ← lift (get infos "poolAddress");
  tick ← lift (get infos "tick");
  liquidityNet ← lift (get infos "liquidityNet");
  t_upsert tickTableSchema
    (Object [("poolAddress", poolAddress); ("tick", js_Number tick); ("liquidityNet", js_Number liquidityNet)]).

Definition indexDexTickInfo (numTick : val) : M St unit :=
  if positive numTick then
    tickSubstoreInfo ← lift (sub_store "dex" "tickInfoSubstore" numTick);
    for_each tickSubstoreInfo index_tick
  else ret tt.

Definition indexDexModuleAssets (blockHeader : obj) : M St unit :=
  lengths ← lift (assets_length [("module", Str "dex")] "dex");
  if truthy lengths then
    numTokens ← lift (get lengths "tokenSymbolSubstore");
    numPools ← lift (get lengths "poolSubstore");
    numTick ← lift (get lengths "tickInfoSubstore");
    indexDexRegisteredTokenInfo numTokens ≫= fun _ =>
    indexDexTickInfo numTick ≫= fun _ =>
    indexDexPoolInfo numPools numTokens blockHeader
  else ret tt.

(** *** Token factory module *)
Definition infos_attribute (infos : val) (key value : string) : result (option val) :=
  a ← get infos "attributesArray";
  l ← elements a;
  js_find (fun t => prop_is t key (Str value)) l.

Definition index_factory (supplySubstoreInfos : list val) (infos : val) : M St unit :=
  metadataAttribute ← lift (infos_attribute infos "key" "metadata");
  match metadataAttribute with
  | None => ret tt
  | Some a =>
      attributes ← lift (get a "attributes");
      metadata ← lift (decode_metadata attributes);
      available ← isTokenAvailable metadata;
      if negb available then ret tt
      else
        tokenId ← lift (get infos "tokenId");
        supply ← lift (find_info "tokenID" tokenId supplySubstoreInfos
          ("error indexing factory from genesis assets with tokenId " +:+ js_String tokenId +:+ ": supply info not found"));
        symbol ← lift (upper (prop metadata "symbol"));
        owner ← lift (get infos "owner");
        totalSupply ← lift (get supply "totalSupply");
        let param := spread metadata [("symbol", Str symbol); ("tokenID", tokenId); ("owner", owner);
                                      ("supply", js_Number totalSupply)] in
        svgAttribute ← lift (infos_attribute infos "key" "svg");
        match svgAttribute with
        | None => ret tt
        | Some svg =>
            svgAttributes ← lift (get svg "attributes");
            links ← save_logo (prop metadata "symbol") svgAttributes;
            t_upsert tokenFactoryTableSchema (Object (spread param links)) ≫= fun _ =>
            t_upsert tokenMetadataTableSchema (Object (metadata_row tokenId (prop metadata "tokenName")))
        end
  end.

Definition indexTokenFactoryInfo (numFactory : val) : M St unit :=
  if positive numFactory then
    factorySubstoreInfo ← lift (sub_store "tokenFactory" "factorySubstore" numFactory);
    lengths ← lift (assets_length [("module", Str "token")] "token");
    totalSupply ← lift (get lengths "supplySubstore");
    supplySubstoreInfos ← lift (sub_store "token" "supplySubstore" totalSupply);
    for_each factorySubstoreInfo (index_factory supplySubstoreInfos)
  else ret tt.

Definition indexTokenFactoryModuleAssets : M St unit :=
  lengths ← lift (assets_length [("module", Str "tokenFactory")] "tokenFactory");
  if truthy lengths then numFactory ← lift (get lengths "factorySubstore"); indexTokenFactoryInfo numFactory else ret tt.

(** *** NFT module: the positions of the DEX *)
Definition nft_pool (attribute infos : val) : result bool :=
  t0 ← prop_is infos "token0" (prop (as_obj attribute) "token0");
  t1 ← prop_is infos "token1" (prop (as_obj attribute) "token1");
  f ← prop_is infos "fee" (prop (as_obj attribute) "fee");
  Ok (t0 && t1 && f).

(** The amounts behind a position at the price of its pool. *)
Definition position_amounts (nftAttribute : obj) (pool : val) : result (Z * Z) :=
  slot0 ← get pool "slot0";
  p ← get slot0 "sqrtPriceX96"; sqrtPriceX96 ← js_BigInt p;
  tickLower ← js_BigInt (prop nftAttribute "tickLower");
  tickUpper ← js_BigInt (prop nftAttribute "tickUpper");
  liquidity ← js_BigInt (prop nftAttribute "liquidity");
  a ← getSqrtRatioAtTick tickLower;
  b ← getSqrtRatioAtTick tickUpper;
  getAmountsForLiquidity sqrtPriceX96 a b liquidity.

Definition genesis_tvl_row (blockHeader : obj) (nftID : string) (i : Z) (sender poolAddress : string) (amount : Z) (tokenId : val) : obj :=
  [("transactionId", Str ("genesisNFT_" +:+ nftID)); ("index", Num i); ("time", prop blockHeader "timestamp");
   ("sender", Str sender); ("poolAddress", Str poolAddress); ("amount", js_Number (Str (string_of_Z amount)));
   ("tokenId", tokenId)].

Definition index_position (blockHeader : obj) (poolSubstoreInfos : list val) (infos dexAttribute : val) : M St unit :=
  attributes ← lift (get dexAttribute "attributes");
  nftAttribute ← lift (decode_nft_attribute attributes);
  pool ← lift (computePoolAddress (mkPoolKey (js_String (prop nftAttribute "token0")) (js_String (prop nftAttribute "token1"))
                                     (prop nftAttribute "fee")));
  poolAddress ← lift (getKlayr32AddressFromHexAddress (Buf pool));
  n ← lift (get infos "nftID");
  let nftID := js_String n in
  tokenId ← lift (read_uint_be 8 (from_hex (js_substring_from 16 nftID)));
  metadata ← lift (dex_getMetadata poolAddress (string_of_Z tokenId));
  tokenURI ← lift (dex_getTokenURI poolAddress (string_of_Z tokenId));
  nft ← lift (decodeNFTId nftID);
  o ← lift (get infos "owner");
  owner ← lift (getKlayr32AddressFromHexAddress (Hex (js_String o)));
  md ← lift (get metadata "data");
  u ← lift (get tokenURI "data");
  uri ← lift (get u "tokenURI");
  row ← lift (position_row n nft (Str owner) md (prop nftAttribute "tickUpper") (prop nftAttribute "tickLower")
                (prop nftAttribute "liquidity") uri);
  t_upsert positionTableSchema (Object row) ≫= fun _ =>
  found ← lift (js_find (nft_pool (Object nftAttribute)) poolSubstoreInfos);
  poolInfo ← lift (match found with
                   | Some i => Ok i
                   | None => Throw ("error indexing genesis NFT with id " +:+ nftID +:+ ": poolAddress not found")
                   end);
  amounts ← lift (position_amounts nftAttribute poolInfo);
  t_upsert tvlTableSchema (Object (genesis_tvl_row blockHeader nftID 0 owner poolAddress (fst amounts) (prop nftAttribute "token0"))) ≫= fun _ =>
  t_upsert tvlTableSchema (Object (genesis_tvl_row blockHeader nftID 1 owner poolAddress (snd amounts) (prop nftAttribute "token1"))).

Definition indexNFTPositionInfo (numTokens numPools : val) (blockHeader : obj) : M St unit :=
  if positive numTokens then
    nftSubstoreInfos ← lift (sub_store "nft" "nftSubstore" numTokens);
    poolSubstoreInfos ← lift (sub_store "dex" "poolSubstore" numPools);
    for_each nftSubstoreInfos (fun infos =>
      dexAttribute ← lift (infos_attribute infos "module" "dex");
      match dexAttribute with
      | Some a => index_position blockHeader poolSubstoreInfos infos a
      | None => ret tt
      end)
  else ret tt.

Definition indexNFTModuleAssets (blockHeader : obj) : M St unit :=
  lengths ← lift (assets_length [("module", Str "nft")] "nft");
  if truthy lengths then
    numTokens ← lift (get lengths "nftSubstore");
    dexLengths ← lift (assets_length [("module", Str "dex")] "dex");
    if truthy dexLengths then
      numPools ← lift (get dexLengths "poolSubstore");
      indexNFTPositionInfo numTokens numPools blockHeader
    else ret tt
  else ret tt.

(** *** All modules *)

(** accountIndex.js: [redis.spop] removes [popped], which become jobs. *)
Definition spop (key : string) (popped : list string) : M St unit := fun w =>
  (Ok tt, mkWorld (w_trx w) (w_auto w)
            (<[key := default ∅ (w_redis w !! key) ∖ list_to_set popped]> (w_redis w)) (w_jobs w) (w_base w)).

Definition triggerAccountUpdates (publicKeys addresses : list string) : M St unit :=
  spop "PendingPublickeyUpdates" publicKeys ≫= fun _ =>
  for_each publicKeys (fun publicKey => add_job "AccountQueueByPublicKey" (Str publicKey)) ≫= fun _ =>
  spop "PendingAddressUpdates" addresses ≫= fun _ =>
  for_each addresses (fun address => add_job "AccountQueueByAddress" (Str address)).

Definition indexGenesisBlockAssets (publicKeys addresses : list string) (blockHeader : obj) : M St unit :=
  indexTokenModuleAssets ≫= fun _ =>
  indexPosModuleAssets ≫= fun _ =>
  indexTokenFactoryModuleAssets ≫= fun _ =>
  indexDexModuleAssets blockHeader ≫= fun _ =>
  indexNFTModuleAssets blockHeader ≫= fun _ =>
  triggerAccountUpdates publicKeys addresses.

(** One round of the background interval: the entries are taken from the front
    and a failing one goes to the end of the list.  [fuel] bounds the number
    of attempts; the result are the entries left. *)
Fixpoint store_balances (fuel : nat) (genesisAccountBalances : list val) : M St (list val) := fun w =>
  match fuel, genesisAccountBalances with
  | O, _ | _, [] => (Ok genesisAccountBalances, w)
  | S fuel, entry :: rest =>
      match write Auto (upsert accountBalancesTableSchema entry) w with
      | (Ok _, w') => store_balances fuel rest w'
      | (Throw _, w') => store_balances fuel (rest ++ [entry]) w'
      end
  end.
End Genesis.
