(* ===== verification/GenesisSpec.v ===== *)
(** * What indexing the genesis assets achieves *)
From S2P Require Import Prelude JsValue Database Engine Table World Schemas KvStore Chain Stake.
From S2P Require Import Rewards Balances Processors PoolAddress Dex Dispatch DexSpec BlockIndex BlockIndexSpec.
From S2P Require Import TickMath LiquidityAmounts RequestAll Gateway Mapper TokenFactory Genesis.
Local Open Scope Z_scope.

(** ** Fetching a sub store *)

(** The genesis block has the module [m] with the sub stores [data]. *)
Definition has_module (assets : list val) (m : string) (data : obj) : Prop :=
  exists a, js_find (fun asset => prop_is asset "module" (Str m)) assets = Ok (Some (Object a)) /\
    prop a "module" = Str m /\ prop a "data" = Object data.

Section SubStore.
Variable assets : list val.

Lemma getGenesisAssets_page m sub data params l o xs :
  has_module assets m data -> prop data sub = Arr xs -> m <> "" -> sub <> "" -> 0 < l ->
  prop params "module" = Str m -> prop params "subStore" = Str sub ->
  prop params "limit" = Num l -> prop params "offset" = Num o ->
  getGenesisAssetByModule (Ok assets) params = Ok (Object [(sub, Arr (slice l o xs))]).
Proof.
  intros (a & Hf & _ & Hd) Hs Hm Hsub Hl Hpm Hps Hpl Hpo.
  unfold getGenesisAssetByModule, getGenesisAssets, page_of. rewrite Hpm, Hps, Hpl, Hpo. cbn [mbind result_bind].
  replace (truthy (Str m)) with true by (symmetry; simpl; by rewrite (proj2 (String.eqb_neq m ""))).
  replace (truthy (Str sub)) with true by (symmetry; simpl; by rewrite (proj2 (String.eqb_neq sub ""))).
  cbn [negb andb]. rewrite Hf. cbn [mbind result_bind default from_option id get js_String].
  rewrite Hd. cbn [mbind result_bind get]. rewrite Hs. cbn [truthy negb mbind result_bind].
  replace (l =? 0) with false by (symmetry; apply Z.eqb_neq; lia). cbn [mbind result_bind as_obj head default from_option id].
  cbn [get]. unfold spread. cbn [foldl fst snd]. by rewrite prop_set_eq.
Qed.

Lemma sub_store_ok `{GenesisApi} m sub data xs :
  genesis_block_assets = Ok assets -> has_module assets m data -> prop data sub = Arr xs ->
  m <> "" -> sub <> "" -> sub <> "error" -> xs <> [] ->
  sub_store m sub (Num (Z.of_nat (length xs))) = Ok xs.
Proof.
  intros Ha Hm Hs Hm0 Hsub Herr Hne. unfold sub_store. rewrite Ha.
  assert (0 < Z.of_nat (length xs)) by (destruct xs; simpl; [done|lia]).
  rewrite (requestAll_take _ sub xs) by (try done; intros l o Hl Ho; by eapply getGenesisAssets_page).
  cbn [mbind result_bind get prop]. rewrite String.eqb_refl. cbn [mbind result_bind elements].
  rewrite take_ge; [done|]. simpl number_or. lia.
Qed.

Lemma lengths_get data k : k ∈ data.*1 ->
  prop ((fun kv => (fst kv, length_of (snd kv))) <$> data) k = length_of (prop data k).
Proof.
  induction data as [|[k' v] data IH]; simpl; [by intros ?%not_elem_of_nil|].
  destruct (String.eqb_spec k' k) as [->|Hne]; [done|]. intros [->|Hk]%elem_of_cons; [done|auto].
Qed.

Lemma truthy_Str s : s <> "" -> truthy (Str s) = true.
Proof. intros Hs. simpl. by rewrite (proj2 (String.eqb_neq s "")). Qed.

Lemma assets_length_module `{GenesisApi} m data k :
  genesis_block_assets = Ok assets -> has_module assets m data -> m <> "" ->
  NoDup (fst <$> data) -> k ∈ fst <$> data ->
  exists v, assets_length [("module", Str m)] m = Ok v /\ forall j, j ∈ fst <$> data -> get v j = Ok (length_of (prop data j)).
Proof.
  intros Ha (a & Hf & Hn & Hd) Hm Hnd Hk. unfold assets_length, getGenesisAssetsLength, getGenesisAssets. rewrite Ha.
  cbn [mbind result_bind prop]. cbn [String.eqb Ascii.eqb Bool.eqb]. rewrite truthy_Str by done. cbn [negb andb].
  rewrite Hf. cbn [mbind result_bind truthy]. change (option_list (Some (Object a))) with [Object a].
  cbn [foldM get]. rewrite Hn, Hd. cbn [mbind result_bind as_obj js_String].
  destruct data as [|kv data]; [by apply not_elem_of_nil in Hk|].
  set (lengths := _ <$> kv :: data). assert (Hkeys : fst <$> lengths = fst <$> kv :: data).
  { unfold lengths. rewrite <- list_fmap_compose. by apply list_fmap_ext. }
  unfold lengths at 1. cbn [fmap list_fmap]. cbn [mbind result_bind prop set_prop as_obj]. rewrite String.eqb_refl.
  eexists. split; [reflexivity|]. intros j Hj. cbn [get]. f_equal. rewrite prop_spread by (by rewrite Hkeys).
  rewrite decide_True by (by rewrite Hkeys). by apply lengths_get.
Qed.

Lemma assets_length_sub `{GenesisApi} m sub data xs :
  genesis_block_assets = Ok assets -> has_module assets m data -> m <> "" -> sub <> "" -> prop data sub = Arr xs ->
  exists v, assets_length [("module", Str m); ("subStore", Str sub)] m = Ok v /\ get v sub = Ok (Num (Z.of_nat (length xs))).
Proof.
  intros Ha (a & Hf & Hn & Hd) Hm Hsub Hs. unfold assets_length, getGenesisAssetsLength, getGenesisAssets, page_of. rewrite Ha.
  cbn [mbind result_bind prop]. cbn [String.eqb Ascii.eqb Bool.eqb]. rewrite !truthy_Str by done. cbn [negb andb].
  rewrite Hf. cbn [mbind result_bind default from_option id get js_String]. rewrite Hd. cbn [mbind result_bind get].
  rewrite Hs. cbn [truthy negb mbind result_bind foldM get as_obj]. set (a' := spread a _).
  assert (Hn' : prop a' "module" = Str m) by (unfold a', spread; cbn [foldl fst snd]; by rewrite prop_set_ne).
  assert (Hd' : prop a' "data" = Object [(sub, Arr xs)]) by apply prop_set_eq.
  rewrite !Hn', !Hd'. cbn [mbind result_bind as_obj fmap list_fmap js_String fst snd length_of prop set_prop].
  rewrite String.eqb_refl. eexists. split; [reflexivity|]. cbn [get]. f_equal. apply prop_set_eq.
Qed.
End SubStore.

(** ** Accounts and stakes of a genesis block *)
Definition zsum (l : list Z) : Z := foldr Z.add 0 l.

Record user := User { u_address : string; u_token : string; u_available : Z; u_locked : list Z }.

Definition locked_val (n : Z) : val := Object [("module", Str "pos"); ("amount", Str (string_of_Z n))].
Definition user_val (u : user) : val :=
  Object [("address", Str (u_address u)); ("tokenID", Str (u_token u)); ("availableBalance", Str (string_of_Z (u_available u)));
          ("lockedBalances", Arr (locked_val <$> u_locked u))].

(** What an account owns of its token, and the entry that waits to be stored. *)
Definition u_balance (u : user) : Z := u_available u + zsum (u_locked u).
Definition balance_entry (u : user) : val :=
  Object [("address", Str (u_address u)); ("tokenID", Str (u_token u)); ("balance", BigI (u_balance u))].

(** The amount of a token that is locked. *)
Definition locked_of (users : list user) (token : string) : Z :=
  zsum ((fun u => if String.eqb (u_token u) token then zsum (u_locked u) else 0) <$> users).

Definition change_of (l : list (string * Z)) (k : string) : Z :=
  zsum ((fun kx => if String.eqb (fst kx) k then snd kx else 0) <$> l).

Lemma change_of_add l k z k' : change_of (add_amount l k z) k' = change_of l k' + (if String.eqb k k' then z else 0).
Proof.
  unfold change_of. induction l as [|[j x] l IH]; cbn [add_amount]; [simpl; lia|].
  destruct (String.eqb_spec j k) as [->|Hne]; cbn [fmap list_fmap fst snd zsum foldr].
  - unfold zsum. destruct (String.eqb k k'); lia.
  - unfold zsum in IH |- *. rewrite IH. lia.
Qed.

Lemma keys_add_amount l k z j : j ∈ fst <$> (add_amount l k z) <-> j ∈ fst <$> l \/ j = k.
Proof.
  induction l as [|[i x] l IH]; cbn [add_amount fmap list_fmap fst].
  - rewrite list_elem_of_singleton, elem_of_nil. tauto.
  - destruct (String.eqb_spec i k) as [->|Hne]; cbn [fmap list_fmap fst]; rewrite !elem_of_cons; [tauto|]. rewrite IH. tauto.
Qed.

Lemma NoDup_add_amount l k z : NoDup (fst <$> l) -> NoDup (fst <$> (add_amount l k z)).
Proof.
  induction l as [|[i x] l IH]; cbn [add_amount fmap list_fmap fst].
  - intros _. apply NoDup_singleton.
  - intros [Hi Hnd]%NoDup_cons. destruct (String.eqb_spec i k) as [->|Hne]; cbn [fmap list_fmap fst].
    + by apply NoDup_cons.
    + apply NoDup_cons. split; [|auto]. rewrite keys_add_amount. naive_solver.
Qed.

(** The locked amounts of the users, added to [changes]. *)
Definition user_changes (changes : list (string * Z)) (u : user) : list (string * Z) :=
  foldl (fun acc n => add_amount acc (u_token u) n) changes (u_locked u).

Lemma user_changes_spec changes u :
  (NoDup (fst <$> changes) -> NoDup (fst <$> user_changes changes u)) /\
  (forall k, change_of (user_changes changes u) k
     = change_of changes k + (if String.eqb (u_token u) k then zsum (u_locked u) else 0)) /\
  forall k, k ∈ fst <$> user_changes changes u <-> k ∈ fst <$> changes \/ (k = u_token u /\ u_locked u <> []).
Proof.
  unfold user_changes. revert changes. induction (u_locked u) as [|n l IH]; intros changes; cbn [foldl].
  - split_and!; [done| |naive_solver]. intros k. destruct (String.eqb _ _); simpl; lia.
  - destruct (IH (add_amount changes (u_token u) n)) as (H1 & H2 & H3). split_and!.
    + intros Hnd. by apply H1, NoDup_add_amount.
    + intros k. rewrite H2, change_of_add. destruct (String.eqb _ _); simpl; unfold zsum; lia.
    + intros k. rewrite H3, keys_add_amount. naive_solver.
Qed.

Lemma users_changes_spec users changes :
  (NoDup (fst <$> changes) -> NoDup (fst <$> foldl user_changes changes users)) /\
  (forall k, change_of (foldl user_changes changes users) k = change_of changes k + locked_of users k) /\
  forall k, k ∈ fst <$> foldl user_changes changes users
    <-> k ∈ fst <$> changes \/ exists u, u ∈ users /\ k = u_token u /\ u_locked u <> [].
Proof.
  unfold locked_of. revert changes. induction users as [|u users IH]; intros changes; cbn [foldl].
  - split_and!; [done| |]; intros k; [simpl; lia|]. split; [auto|]. intros [?|(u & Hu & _)]; [done|by apply not_elem_of_nil in Hu].
  - destruct (user_changes_spec changes u) as (H1 & H2 & H3). destruct (IH (user_changes changes u)) as (H4 & H5 & H6).
    split_and!; [auto| |].
    + intros k. rewrite H5, H2, fmap_cons. unfold zsum. cbn [foldr]. lia.
    + intros k. rewrite H6, H3. setoid_rewrite elem_of_cons. naive_solver.
Qed.

Section GenesisSpec.
Context {St : Type} `{SqlLaws St} `{NodeApi} `{Crypto} `{DexApi} `{FactoryApi} `{GenesisApi}.
Variable prefix : string.

(** ** Token module *)
Definition with_jobs (w : world St) (js : list (string * val)) : world St :=
  mkWorld (w_trx w) (w_auto w) (w_redis w) (w_jobs w ++ js) (w_base w).

Lemma sum_locked_ok l acc :
  foldM (fun acc entry => a ← get entry "amount"; n ← js_BigInt a; Ok (acc + n)) acc (locked_val <$> l) = Ok (acc + zsum l).
Proof.
  revert acc. induction l as [|n l IH]; intros acc; [cbn; f_equal; lia|].
  rewrite fmap_cons. cbn [foldM]. change (get (locked_val n) "amount") with (Ok (Str (string_of_Z n))).
  rewrite bind_ok, js_BigInt_String, !bind_ok, IH. unfold zsum. cbn [foldr]. f_equal. lia.
Qed.

Lemma add_locked_ok token l changes :
  add_locked token (locked_val <$> l) changes = Ok (foldl (fun acc n => add_amount acc token n) changes l).
Proof.
  unfold add_locked. revert changes. induction l as [|n l IH]; intros changes; [done|].
  rewrite fmap_cons. cbn [foldM foldl]. change (get (locked_val n) "amount") with (Ok (Str (string_of_Z n))).
  by rewrite bind_ok, js_BigInt_String, !bind_ok, IH.
Qed.

Lemma index_user_ok changes u (w : world St) :
  index_user changes (user_val u) w
  = (Ok (user_changes changes u), with_jobs w [("genesisAccountBalances", balance_entry u)]).
Proof.
  unfold index_user. do 4 (erewrite lift_ok; [|reflexivity]). erewrite lift_ok; [|reflexivity].
  erewrite lift_ok; [|apply sum_locked_ok]. erewrite lift_ok; [|apply js_BigInt_String].
  unfold mbind, eff_bind, add_job. unfold lift. cbn [js_String]. by rewrite add_locked_ok.
Qed.

Lemma index_users_ok changes users (w : world St) :
  index_users changes (user_val <$> users) w
  = (Ok (foldl user_changes changes users),
     with_jobs w ((fun u => ("genesisAccountBalances", balance_entry u)) <$> users)).
Proof.
  revert changes w. induction users as [|u users IH]; intros changes w.
  - cbn. unfold with_jobs. rewrite app_nil_r. by destruct w.
  - rewrite fmap_cons. cbn [index_users]. rewrite (M_bind_ok _ _ _ _ _ (index_user_ok changes u w)), IH.
    unfold with_jobs. cbn. by rewrite <- app_assoc.
Qed.

Definition locked_key (token : string) : string := TOTAL_LOCKED +:+ token.

Lemma locked_key_inj a b : locked_key a = locked_key b -> a = b.
Proof. unfold locked_key, TOTAL_LOCKED. by intros [=]. Qed.

Lemma change_of_cons k z l token : change_of ((k, z) :: l) token = (if String.eqb k token then z else 0) + change_of l token.
Proof. done. Qed.

Lemma change_of_absent l k : k ∉ fst <$> l -> change_of l k = 0.
Proof.
  induction l as [|[j x] l IH]; [done|]. rewrite fmap_cons, change_of_cons. intros [Hj Hk]%not_elem_of_cons.
  rewrite (proj2 (String.eqb_neq j k)), IH by done. done.
Qed.

Lemma updateTotalLocked_ok changes (w : world St) m mc :
  NoDup (fst <$> changes) -> kv_ok prefix (w_trx w) m -> kv_ok prefix (w_auto w) mc ->
  (forall token, mc !! locked_key token = None) ->
  exists w' m', updateTotalLockedAmounts prefix changes w = (Ok tt, w') /\ kv_becomes prefix w w' m' /\
    w_jobs w' = w_jobs w /\
    (forall token, token ∈ fst <$> changes -> m' !! locked_key token = Some (BigI (change_of changes token))) /\
    (forall key, (forall token, token ∈ fst <$> changes -> key <> locked_key token) -> m' !! key = m !! key).
Proof.
  unfold updateTotalLockedAmounts. revert w m. induction changes as [|[k z] changes IH]; intros w m.
  { intros _ Hm _ _. exists w, m. split_and!; try done. intros token Ht. by apply not_elem_of_nil in Ht. }
  rewrite fmap_cons. intros [Hk Hnd]%NoDup_cons Hm Hmc Hnone. cbn [for_each fst snd].
  destruct (kv_write_total prefix w m (locked_key k) (0 + z) Hm) as (w1 & E1 & Hm1 & Hrest1 & Hauto1 & Hbase1).
  destruct (IH w1 (<[locked_key k := BigI (0 + z)]> m) Hnd Hm1) as (w2 & m2 & E2 & (Hm2 & Hrest2 & Hauto2 & Hbase2) & Hj2 & Hin & Hout);
    [by rewrite Hauto1|done|].
  exists w2, m2. split_and!.
  - erewrite M_bind_ok; [exact E2|]. erewrite M_bind_ok; [exact E1|].
    apply (committed_amount_ok prefix w mc); [done|]. right. split; [apply Hnone|done].
  - split_and!; [done| |congruence..]. intros tn Htn. by rewrite (Hrest2 tn Htn), (Hrest1 tn Htn).
  - rewrite Hj2. unfold write in E1. destruct (kv_set _ _ _ _); [|done]. injection E1 as <-. done.
  - intros token Ht. rewrite change_of_cons. destruct (String.eqb_spec k token) as [<-|Hne].
    + rewrite Hout, lookup_insert_eq, change_of_absent by (try done; intros t Ht' ->%locked_key_inj; done). do 2 f_equal. lia.
    + apply elem_of_cons in Ht as [->|Ht]; [done|]. by rewrite Hin.
  - intros key Hkey. rewrite Hout by (intros t Ht; apply Hkey; by right).
    rewrite lookup_insert_ne; [done|]. intros <-. apply (Hkey k); [by left|done].
Qed.

Lemma indexTokenModule_ok assets data users (w : world St) m mc :
  genesis_block_assets = Ok assets -> has_module assets "token" data ->
  prop data "userSubstore" = Arr (user_val <$> users) -> users <> [] ->
  kv_ok prefix (w_trx w) m -> kv_ok prefix (w_auto w) mc -> (forall token, mc !! locked_key token = None) ->
  exists w' m', indexTokenModuleAssets prefix w = (Ok tt, w') /\ kv_becomes prefix w w' m' /\
    w_jobs w' = w_jobs w ++ ((fun u => ("genesisAccountBalances", balance_entry u)) <$> users) /\
    (forall u, u ∈ users -> u_locked u <> [] -> m' !! locked_key (u_token u) = Some (BigI (locked_of users (u_token u)))) /\
    (forall key, (forall token, key <> locked_key token) -> m' !! key = m !! key).
Proof.
  intros Ha Hmod Hus Hne Hm Hmc Hnone. destruct (users_changes_spec users []) as (Hnd & Hsum & Hkeys).
  set (changes := foldl user_changes [] users) in *.
  set (w1 := with_jobs w ((fun u => ("genesisAccountBalances", balance_entry u)) <$> users)).
  destruct (updateTotalLocked_ok changes w1 m mc (Hnd NoDup_nil_2) Hm Hmc Hnone)
    as (w' & m' & E & Hb & Hj & Hin & Hout).
  exists w', m'. split_and!; [|exact Hb|exact Hj| |].
  - destruct (assets_length_sub assets "token" "userSubstore" data (user_val <$> users) Ha Hmod) as (v & Ev & Egv); [done..|].
    unfold indexTokenModuleAssets. rewrite (lift_ok _ _ _ _ Ev), (lift_ok _ _ _ _ Egv).
    erewrite lift_ok; [|eapply sub_store_ok; try done; by intros ?%fmap_nil_inv].
    erewrite M_bind_ok; [|apply index_users_ok]. exact E.
  - intros u Hu Hl. rewrite Hin by (apply Hkeys; right; by exists u). rewrite Hsum. done.
  - intros key Hkey. apply Hout. intros token _. apply Hkey.
Qed.

(** ** PoS module *)
Record validator := Validator { v_address : string; v_generatorKey : string; v_commission : Z }.
Definition validator_val (v : validator) : val :=
  Object [("address", Str (v_address v)); ("generatorKey", Str (v_generatorKey v)); ("commission", Num (v_commission v))].

(** Nothing is added to a queue. *)
Definition quiet {A} (m : M St A) : Prop := forall w, w_jobs (snd (m w)) = w_jobs w.

Lemma quiet_bind {A B} (m : M St A) (f : A -> M St B) : quiet m -> (forall a, quiet (f a)) -> quiet (m ≫= f).
Proof. intros Hm Hf w. unfold mbind, eff_bind. specialize (Hm w). destruct (m w) as [[a|e] w1]; [|done]. by rewrite Hf. Qed.

Lemma quiet_lift {A} (r : result A) : quiet (lift r).
Proof. done. Qed.

Lemma quiet_read {A} c (f : St -> result A) : quiet (read c f).
Proof. done. Qed.

Lemma quiet_write c (f : St -> result St) : quiet (write c f).
Proof. intros w. unfold write. destruct (f (db c w)); [|done]. by destruct c. Qed.

Lemma updateTotals_quiet dt ds : quiet (updateTotalStake prefix dt ≫= fun _ => updateTotalSelfStake prefix ds).
Proof.
  unfold updateTotalStake, updateTotalSelfStake, committed_amount.
  repeat first [apply quiet_bind; [|intros ?] | apply quiet_lift | apply quiet_read | apply quiet_write].
Qed.

Definition commission_obj (h : Z) (v : validator) : obj :=
  [("address", Str (v_address v)); ("commission", Num (v_commission v)); ("height", Num h)].

(** The changes an indexed validator may make: accounts outside the
    transaction. *)
Definition accounts_only (w w' : world St) : Prop :=
  w_trx w' = w_trx w /\ w_jobs w' = w_jobs w /\
  forall tn, tn <> tableName accountsTableSchema -> eng_table (w_auto w') tn = eng_table (w_auto w) tn.

Lemma index_validator_ok h v (w : world St) :
  (isGeneratorKeyValid (Str (v_generatorKey v)) = true ->
   exists a, klayr32_of_public_key (Str (v_generatorKey v)) = Ok (Str a)) ->
  exists w', index_validator h (validator_val v) w = (Ok (commission_obj h v), w') /\ accounts_only w w'.
Proof.
  intros Hkey. unfold index_validator. rewrite (lift_ok _ _ _ (Str (v_generatorKey v))) by reflexivity.
  destruct (isGeneratorKeyValid (Str (v_generatorKey v))).
  - destruct (Hkey eq_refl) as [a Ha].
    destruct (upsert_one accountsTableSchema [("address", Str a); ("publicKey", Str (v_generatorKey v))]
                [("address", Str a); ("publicKey", Str (v_generatorKey v))] (w_auto w)) as (s & E & _ & Hrest); [done..|].
    exists (set_db Auto s w). split.
    + erewrite M_bind_ok; [reflexivity|]. unfold getKlayr32AddressFromPublicKey. rewrite (lift_ok _ _ _ _ Ha).
      unfold try_catch. by rewrite (write_ok Auto _ w s E).
    + by split_and!.
  - exists w. split; [reflexivity|]. by split_and!.
Qed.

Lemma index_validators_ok h vs (w : world St) :
  (forall v, v ∈ vs -> isGeneratorKeyValid (Str (v_generatorKey v)) = true ->
   exists a, klayr32_of_public_key (Str (v_generatorKey v)) = Ok (Str a)) ->
  exists w', map_each (validator_val <$> vs) (index_validator h) w = (Ok (commission_obj h <$> vs), w') /\ accounts_only w w'.
Proof.
  revert w. induction vs as [|v vs IH]; intros w Hkey.
  - exists w. by split_and!.
  - destruct (index_validator_ok h v w) as (w1 & E1 & T1 & J1 & A1); [apply Hkey; by left|].
    destruct (IH w1) as (w2 & E2 & T2 & J2 & A2); [intros; apply Hkey; [by right|done]|].
    exists w2. split.
    + rewrite fmap_cons. cbn [map_each]. rewrite (M_bind_ok _ _ _ _ _ E1), (M_bind_ok _ _ _ _ _ E2). done.
    + split_and!; [congruence..|]. intros tn Htn. by rewrite A2, A1.
Qed.

(** A staker with the stakes on validators. *)
Definition staker : Type := string * list (string * Z).
Definition staker_val (st : staker) : val :=
  Object [("address", Str (fst st));
          ("stakes", Arr ((fun vn : string * Z => Object [("validatorAddress", Str (fst vn)); ("amount", Str (string_of_Z (snd vn)))])
                          <$> snd st))].

Definition stake : Type := string * string * Z.
Definition all_stakes (stakers : list staker) : list stake :=
  List.concat ((fun st : staker => (fun vn : string * Z => (fst st, fst vn, snd vn)) <$> snd st) <$> stakers).
Definition obj_of_stake (s : stake) : obj := stake_obj s.1.1 s.1.2 s.2.
Definition total_stake (l : list stake) : Z := zsum (snd <$> l).
Definition self_stake (l : list stake) : Z := zsum ((fun s : stake => if String.eqb s.1.1 s.1.2 then s.2 else 0) <$> l).

Lemma stakes_of_ok st : stakes_of (staker_val st) = Ok ((fun vn : string * Z => stake_obj (fst st) (fst vn) (snd vn)) <$> snd st).
Proof.
  unfold stakes_of. cbn -[mapM_result js_BigInt]. apply mapM_result_fmap. intros vn _. cbn -[js_BigInt].
  by rewrite js_BigInt_String.
Qed.

Lemma all_stakes_ok stakers :
  exists ls, mapM_result stakes_of (staker_val <$> stakers) = Ok ls /\ List.concat ls = obj_of_stake <$> all_stakes stakers.
Proof.
  eexists. split; [apply (mapM_result_fmap _ _ (fun st : staker => (fun vn : string * Z => stake_obj (fst st) (fst vn) (snd vn)) <$> snd st));
    intros st _; apply stakes_of_ok|].
  unfold all_stakes. induction stakers as [|st stakers IH]; [done|].
  rewrite !fmap_cons. cbn [List.concat]. rewrite fmap_app, IH. f_equal. by rewrite <- list_fmap_compose.
Qed.

Lemma stake_totals l t u :
  stake_changes 1 (obj_of_stake <$> l) t u = Ok (t + total_stake l, u + self_stake l).
Proof.
  unfold total_stake, self_stake. revert t u. induction l as [|[[a v] n] l IH]; intros t u; [cbn; do 2 f_equal; lia|].
  rewrite !fmap_cons. cbn [stake_changes]. change (js_BigInt (prop (obj_of_stake (a, v, n)) "amount")) with (Ok n).
  rewrite bind_ok, IH. change (prop (obj_of_stake (a, v, n)) "stakerAddress") with (Str a).
  change (prop (obj_of_stake (a, v, n)) "validatorAddress") with (Str v). unfold zsum. cbn [foldr fst snd].
  destruct (String.eqb_spec a v) as [->|Hne].
  - rewrite decide_True by done. do 2 f_equal; lia.
  - rewrite decide_False by (by intros [=]). do 2 f_equal; lia.
Qed.

(** The rows of [stakes] after inserting the stakes one after the other. *)
Definition insert_stakes (rs : rows) (l : list stake) : rows :=
  foldl (insert_row stakesTableSchema) rs (obj_of_stake <$> l).

Lemma staked_insert_stakes l rs a v :
  NoDup (fst <$> l) ->
  staked (insert_stakes rs l) a v
  = match list_find (fun s => fst s = (a, v)) l with Some (_, s) => s.2 | None => staked rs a v end.
Proof.
  unfold insert_stakes. revert rs. induction l as [|[[a' v'] n] l IH]; intros rs; [done|].
  rewrite !fmap_cons. intros [Hh Hnd]%NoDup_cons. cbn [foldl list_find fst snd]. rewrite IH by done.
  change (insert_row stakesTableSchema rs (obj_of_stake (a', v', n)))
    with (<[stake_key a' v' := stake_row a' v' n ∪ default (defaults stakesTableSchema) (rs !! stake_key a' v')]> rs).
  rewrite staked_insert. destruct (decide (a' = a /\ v' = v)) as [[-> ->]|Hd].
  - rewrite (decide_True (P := (a, v) = (a, v))) by done. cbn.
    destruct (list_find _ l) as [[i s]|] eqn:E; [|done].
    apply list_find_Some in E as (Hi & Hs & _). destruct Hh. rewrite <- Hs.
    apply list_elem_of_fmap. exists s. split; [done|]. by eapply list_elem_of_lookup_2.
  - rewrite (decide_False (P := (a', v') = (a, v))) by (intros [= -> ->]; by apply Hd). cbn.
    by destruct (list_find _ l) as [[i s]|].
Qed.

Lemma indexPosStakes_ok assets data stakers id (w : world St) m mc :
  genesis_block_assets = Ok assets -> has_module assets "pos" data -> prop data "stakers" = Arr (staker_val <$> stakers) ->
  kv_ok prefix (w_trx w) m -> kv_ok prefix (w_auto w) mc -> pos_token id ->
  mc !! total_key id = None -> mc !! self_key id = None ->
  exists w', indexPosStakesInfo prefix (Num (Z.of_nat (length stakers))) w = (Ok tt, w') /\
    kv_ok prefix (w_trx w') (<[self_key id := BigI (self_stake (all_stakes stakers))]>
                               (<[total_key id := BigI (total_stake (all_stakes stakers))]> m)) /\
    rows_of (w_trx w') stakesTableSchema = insert_stakes (rows_of (w_trx w) stakesTableSchema) (all_stakes stakers) /\
    w_jobs w' = w_jobs w.
Proof.
  intros Ha Hmod Hst Hm Hmc Hid Ht Hs.
  assert (exists w1, (if positive (Num (Z.of_nat (length stakers))) then
      stakers ← lift (sub_store "pos" "stakers" (Num (Z.of_nat (length stakers))));
      ls ← lift (mapM_result stakes_of stakers);
      t_upsert stakesTableSchema (Arr (Object <$> List.concat ls)) ≫= fun _ => ret (List.concat ls)
    else ret []) w = (Ok (obj_of_stake <$> all_stakes stakers), w1) /\
    rows_of (w_trx w1) stakesTableSchema = insert_stakes (rows_of (w_trx w) stakesTableSchema) (all_stakes stakers) /\
    (forall tn, tn <> tableName stakesTableSchema -> eng_table (w_trx w1) tn = eng_table (w_trx w) tn) /\
    w_auto w1 = w_auto w /\ w_jobs w1 = w_jobs w) as (w1 & E1 & Hr1 & Hrest1 & Ha1 & Hj1).
  { destruct stakers as [|st stakers]; [exists w; by split_and!|]. set (sts := st :: stakers) in *.
    destruct (all_stakes_ok sts) as (ls & Els & Hls).
    destruct (upsert_items stakesTableSchema (obj_of_stake <$> all_stakes sts) (obj_of_stake <$> all_stakes sts) (w_trx w))
      as (s1 & E & Hset & Hrest).
    { unfold mapRowsBySchema. apply mapM_result_fmap. intros [[a v] n] _. reflexivity. }
    { apply Forall_fmap, Forall_true. by intros [[a v] n]. }
    exists (set_db Trx s1 w). split_and!; [|exact Hset|exact Hrest|done..].
    change (positive (Num (Z.of_nat (length sts)))) with true. cbv iota.
    erewrite lift_ok; [|rewrite <- (length_fmap staker_val); by eapply sub_store_ok].
    rewrite (lift_ok _ _ _ _ Els), Hls. erewrite M_bind_ok; [reflexivity|]. by apply write_ok. }
  destruct (updateTotals_ok prefix w1 m mc id (total_stake (all_stakes stakers)) (self_stake (all_stakes stakers)) 0 0)
    as (w2 & E2 & Hm2 & Hrest2 & Ha2); [done| | |by right|by right|].
  { unfold kv_ok, rows_of in *. by rewrite Hrest1. }
  { by rewrite Ha1. }
  exists w2. split_and!; [|exact Hm2| |].
  - unfold indexPosStakesInfo. rewrite (M_bind_ok _ _ _ _ _ E1).
    rewrite (lift_ok _ _ _ _ (stake_totals (all_stakes stakers) 0 0)). exact E2.
  - unfold rows_of in *. by rewrite Hrest2.
  - rewrite <- Hj1. change w2 with (snd (Ok tt, w2)). rewrite <- E2. apply updateTotals_quiet.
Qed.

Definition stored_commission (h : Z) (v : validator) : obj :=
  [("address", Str (v_address v)); ("commission", Str (string_of_Z (v_commission v))); ("height", Str (string_of_Z h))].

(** The key of a validator has an address. *)
Definition key_decodes (v : validator) : Prop :=
  isGeneratorKeyValid (Str (v_generatorKey v)) = true ->
  exists a, klayr32_of_public_key (Str (v_generatorKey v)) = Ok (Str a).

Lemma indexPosValidators_ok assets data vs h (w : world St) :
  genesis_block_assets = Ok assets -> has_module assets "pos" data -> prop data "validators" = Arr (validator_val <$> vs) ->
  genesis_height = Ok h -> Forall key_decodes vs ->
  exists w', indexPosValidatorsInfo (Num (Z.of_nat (length vs))) w = (Ok tt, w') /\ w_jobs w' = w_jobs w /\
    (forall tn, tn <> tableName commissionsTableSchema -> eng_table (w_trx w') tn = eng_table (w_trx w) tn) /\
    (forall tn, tn <> tableName accountsTableSchema -> eng_table (w_auto w') tn = eng_table (w_auto w) tn).
Proof.
  intros Ha Hmod Hvs Hh Hkeys. destruct vs as [|v0 vs]; [exists w; by split_and!|]. set (l := v0 :: vs) in *.
  destruct (index_validators_ok h l w) as (w1 & E1 & T1 & J1 & A1).
  { intros v Hv. rewrite Forall_forall in Hkeys. by apply Hkeys. }
  destruct (upsert_items commissionsTableSchema (commission_obj h <$> l) (stored_commission h <$> l) (w_trx w1))
    as (s & E & _ & Hrest).
  { unfold mapRowsBySchema. by apply mapM_result_fmap. }
  { apply Forall_fmap, Forall_true. by intros v. }
  exists (set_db Trx s w1). split_and!; [|done| |exact A1].
  - unfold indexPosValidatorsInfo. change (positive (Num (Z.of_nat (length l)))) with true. cbv iota.
    erewrite lift_ok; [|rewrite <- (length_fmap validator_val); by eapply sub_store_ok].
    rewrite (lift_ok _ _ _ _ Hh), (M_bind_ok _ _ _ _ _ E1). by apply write_ok.
  - intros tn Htn. rewrite <- T1. by apply Hrest.
Qed.

(** ** Storing the balances *)
Definition balance_obj (u : user) : obj :=
  [("address", Str (u_address u)); ("tokenID", Str (u_token u)); ("balance", BigI (u_balance u))].
Definition balance_key (u : user) : list sql := [SStr (u_address u); SStr (u_token u)].

Lemma store_balances_rows users (w : world St) :
  exists w', store_balances (length users) (balance_entry <$> users) w = (Ok [], w') /\
    rows_of (w_auto w') accountBalancesTableSchema
    = foldl (insert_row accountBalancesTableSchema) (rows_of (w_auto w) accountBalancesTableSchema) (balance_obj <$> users).
Proof.
  revert w. induction users as [|u users IH]; intros w; [by exists w|]. rewrite !fmap_cons. cbn [length store_balances foldl].
  destruct (upsert_one accountBalancesTableSchema (balance_obj u) (balance_obj u) (w_auto w)) as (s & E & Hset & _); [done..|].
  destruct (IH (set_db Auto s w)) as (w' & E' & Hr). exists w'.
  change (balance_entry u) with (Object (balance_obj u)). rewrite (write_ok Auto _ w s E).
  split; [exact E'|]. rewrite Hr. cbn [set_db w_auto]. by rewrite Hset.
Qed.

Lemma balances_stored users rs u :
  NoDup (balance_key <$> users) -> u ∈ users ->
  exists r, foldl (insert_row accountBalancesTableSchema) rs (balance_obj <$> users) !! balance_key u = Some r /\
    cell r "balance" = SInt (u_balance u).
Proof.
  revert rs. induction users as [|u0 users IH]; intros rs; [by intros _ ?%not_elem_of_nil|].
  rewrite !fmap_cons. intros [Hh Hnd]%NoDup_cons [->|Hu]%elem_of_cons; cbn [foldl]; [|by apply IH].
  set (r := row_of (balance_obj u0) ∪ default (defaults accountBalancesTableSchema) (rs !! balance_key u0)).
  exists r. split; [|unfold r; rewrite cell_union_l; [done|apply elem_of_dom; by eexists]].
  change (insert_row accountBalancesTableSchema rs (balance_obj u0)) with (<[balance_key u0 := r]> rs).
  clear IH Hnd. revert Hh. generalize (<[balance_key u0 := r]> rs) (lookup_insert_eq rs (balance_key u0) r).
  induction users as [|u' users IH]; intros m Hm Hh; [done|]. rewrite !fmap_cons in *. apply not_elem_of_cons in Hh as [Hne Hh].
  cbn [foldl]. apply IH; [|done].
  change (insert_row accountBalancesTableSchema m (balance_obj u'))
    with (<[balance_key u' := row_of (balance_obj u') ∪ default (defaults accountBalancesTableSchema) (m !! balance_key u')]> m).
  by rewrite lookup_insert_ne.
Qed.

Lemma prop_key (o : obj) k xs : prop o k = Arr xs -> k ∈ fst <$> o.
Proof.
  intros E. destruct (decide (k ∈ fst <$> o)) as [?|Hn]; [done|]. by rewrite prop_not_key in E.
Qed.

Lemma indexPosModule_ok assets data vs stakers h id (w : world St) m mc :
  genesis_block_assets = Ok assets -> genesis_height = Ok h ->
  has_module assets "pos" data -> NoDup (fst <$> data) ->
  prop data "validators" = Arr (validator_val <$> vs) -> prop data "stakers" = Arr (staker_val <$> stakers) ->
  Forall key_decodes vs ->
  kv_ok prefix (w_trx w) m -> kv_ok prefix (w_auto w) mc -> pos_token id ->
  mc !! total_key id = None -> mc !! self_key id = None ->
  exists w', indexPosModuleAssets prefix w = (Ok tt, w') /\
    kv_ok prefix (w_trx w') (<[self_key id := BigI (self_stake (all_stakes stakers))]>
                               (<[total_key id := BigI (total_stake (all_stakes stakers))]> m)) /\
    rows_of (w_trx w') stakesTableSchema = insert_stakes (rows_of (w_trx w) stakesTableSchema) (all_stakes stakers) /\
    w_jobs w' = w_jobs w.
Proof.
  intros Ha Hh Hmod Hnd Hvs Hst Hkeys Hm Hmc Hid Ht Hs.
  destruct (assets_length_module assets "pos" data "validators" Ha Hmod) as (v & Ev & Hget); [done..|by eapply prop_key|].
  destruct (indexPosValidators_ok assets data vs h w Ha Hmod Hvs Hh Hkeys) as (w1 & E1 & J1 & T1 & A1).
  destruct (indexPosStakes_ok assets data stakers id w1 m mc Ha Hmod Hst) as (w2 & E2 & Hm2 & Hr2 & J2); try done.
  { unfold kv_ok, rows_of in *. by rewrite T1. }
  { unfold kv_ok, rows_of in *. by rewrite A1. }
  exists w2. split_and!; [|exact Hm2| |congruence].
  - unfold indexPosModuleAssets. rewrite (lift_ok _ _ _ _ Ev).
    rewrite (lift_ok _ _ _ _ (Hget "validators" (prop_key _ _ _ Hvs))), (lift_ok _ _ _ _ (Hget "stakers" (prop_key _ _ _ Hst))).
    rewrite Hvs, Hst. cbn [length_of]. rewrite !length_fmap. by rewrite (M_bind_ok _ _ _ _ _ E1).
  - rewrite Hr2. unfold rows_of. by rewrite T1.
Qed.

(** [C34] Indexing the genesis assets of the Token and PoS modules on a fresh
    index returns and accounts for everything: the total locked amount of each
    token, the total stake and the total self-stake are the sums over the
    genesis block, every stake has its row, and the balance of every account
    (available and locked) is queued once, whatever the number of pages the
    assets are fetched in; the background task then stores all of them. *)
Theorem genesis_assets_indexed assets tdata pdata users vs stakers h id (w : world St) m mc :
  genesis_block_assets = Ok assets -> genesis_height = Ok h ->
  has_module assets "token" tdata -> prop tdata "userSubstore" = Arr (user_val <$> users) -> users <> [] ->
  has_module assets "pos" pdata -> NoDup (fst <$> pdata) ->
  prop pdata "validators" = Arr (validator_val <$> vs) -> prop pdata "stakers" = Arr (staker_val <$> stakers) ->
  Forall key_decodes vs ->
  kv_ok prefix (w_trx w) m -> kv_ok prefix (w_auto w) mc -> pos_token id ->
  (forall token, mc !! locked_key token = None) -> mc !! total_key id = None -> mc !! self_key id = None ->
  NoDup (fst <$> all_stakes stakers) -> NoDup (balance_key <$> users) ->
  exists w' m', (indexTokenModuleAssets prefix ≫= fun _ => indexPosModuleAssets prefix) w = (Ok tt, w') /\
    kv_ok prefix (w_trx w') m' /\
    (forall u, u ∈ users -> u_locked u <> [] -> m' !! locked_key (u_token u) = Some (BigI (locked_of users (u_token u)))) /\
    m' !! total_key id = Some (BigI (total_stake (all_stakes stakers))) /\
    m' !! self_key id = Some (BigI (self_stake (all_stakes stakers))) /\
    (forall a v n, (a, v, n) ∈ all_stakes stakers -> staked (rows_of (w_trx w') stakesTableSchema) a v = n) /\
    w_jobs w' = w_jobs w ++ ((fun u => ("genesisAccountBalances", balance_entry u)) <$> users) /\
    forall w2 : world St, exists w3, store_balances (length users) (balance_entry <$> users) w2 = (Ok [], w3) /\
      forall u, u ∈ users -> exists r,
        rows_of (w_auto w3) accountBalancesTableSchema !! balance_key u = Some r /\ cell r "balance" = SInt (u_balance u).
Proof.
  intros Ha Hh Htok Hus Hne Hpos Hnd Hvs Hst Hkeys Hm Hmc Hid Hlk Ht Hs Hnds Hndu.
  destruct (indexTokenModule_ok assets tdata users w m mc Ha Htok Hus Hne Hm Hmc Hlk)
    as (w1 & m1 & E1 & (Hm1 & Hrest1 & Ha1 & _) & Hj1 & Hin1 & Hout1).
  destruct (indexPosModule_ok assets pdata vs stakers h id w1 m1 mc Ha Hh Hpos Hnd Hvs Hst Hkeys Hm1) as (w2 & E2 & Hm2 & Hr2 & Hj2);
    [by rewrite Ha1|done..|].
  eexists w2, _. split; [by rewrite (M_bind_ok _ _ _ _ _ E1)|]. split; [exact Hm2|]. split_and!.
  - intros u Hu Hl. rewrite !lookup_insert_ne by (unfold self_key, total_key, locked_key, TOTAL_SELF_STAKED, TOTAL_STAKED, TOTAL_LOCKED; by intros [=]).
    by apply Hin1.
  - rewrite lookup_insert_ne by (apply not_eq_sym, total_keys_differ). apply lookup_insert_eq.
  - apply lookup_insert_eq.
  - intros a v n Hin. rewrite Hr2, staked_insert_stakes by done.
    destruct (list_find (fun s => fst s = (a, v)) (all_stakes stakers)) as [[i s]|] eqn:E.
    + apply list_find_Some in E as (Hi & Hs' & _). apply list_elem_of_lookup_1 in Hin as [j Hj].
      pose proof (NoDup_lookup _ i j (a, v) Hnds) as Hij. rewrite !list_lookup_fmap, Hi, Hj in Hij. cbn in Hij.
      rewrite Hij in Hi by congruence. by assert (s = (a, v, n)) as -> by congruence.
    + apply list_find_None in E. rewrite Forall_forall in E. by destruct (E _ Hin).
  - by rewrite Hj2.
  - intros w0. destruct (store_balances_rows users w0) as (w3 & E3 & Hr3). exists w3. split; [done|].
    intros u Hu. rewrite Hr3. by apply balances_stored.
Qed.
End GenesisSpec.

(** Indexing the genesis assets leaves the blocks to the indexer, as
    [BlockIndexSpec] assumes. *)
Section GenesisFrame.
Context {St : Type} `{SqlLaws St} `{NodeApi} `{Crypto} `{DexApi} `{FactoryApi} `{GenesisApi}.
Variable prefix : string.

Lemma keeps_spop tn key l : keeps (St := St) tn (spop key l).
Proof. intros w. by split_and!. Qed.

Lemma index_users_keeps changes users : keeps (St := St) "blocks" (index_users changes users).
Proof.
  revert changes. induction users as [|u users IH]; intros changes; cbn [index_users]; [apply keeps_ret|].
  unfold index_user at 1. solve_frame.
Qed.

Lemma modules_keep header :
  keeps (St := St) "blocks" (indexTokenFactoryModuleAssets) /\ keeps (St := St) "blocks" (indexDexModuleAssets header) /\
  keeps (St := St) "blocks" (indexNFTModuleAssets header).
Proof.
  pose proof save_logo_keeps. pose proof isTokenAvailable_keeps.
  unfold indexTokenFactoryModuleAssets, indexTokenFactoryInfo, index_factory, indexDexModuleAssets,
    indexDexRegisteredTokenInfo, index_token, TokenFactory.getTokenFactoriesMeta, indexDexTickInfo, index_tick, indexDexPoolInfo,
    index_pool, indexNFTModuleAssets, indexNFTPositionInfo, index_position, t_upsert.
  split_and!; solve_frame.
Qed.

Lemma indexGenesisBlockAssets_keeps publicKeys addresses header :
  keeps (St := St) "blocks" (indexGenesisBlockAssets prefix publicKeys addresses header).
Proof.
  destruct (modules_keep header) as (? & ? & ?). pose proof index_users_keeps. pose proof keeps_spop.
  pose proof (kv_set_keeps (St := St) prefix).
  unfold indexGenesisBlockAssets, indexTokenModuleAssets, updateTotalLockedAmounts, indexPosModuleAssets,
    indexPosValidatorsInfo, index_validator, indexPosStakesInfo, updateTotalStake, updateTotalSelfStake, committed_amount,
    triggerAccountUpdates, indexAccountPublicKey, t_upsert.
  solve_frame.
Qed.
End GenesisFrame.

(** Two accounts with locked amounts, one validator and two stakers. *)
Definition sample_users : list user :=
  [User "kly1" "0400000100000000" 50 [10; 5]; User "kly2" "0400000100000000" 7 [3]].
Definition sample_validators : list validator := [Validator "kly1" "aa" 100].
Definition sample_stakers : list staker := [("kly1", [("kly1", 15)]); ("kly2", [("kly1", 3)])].
Definition sample_tdata : obj := [("userSubstore", Arr (user_val <$> sample_users))].
Definition sample_pdata : obj :=
  [("validators", Arr (validator_val <$> sample_validators)); ("stakers", Arr (staker_val <$> sample_stakers))].
Definition sample_assets : list val :=
  [Object [("module", Str "token"); ("data", Object sample_tdata)]; Object [("module", Str "pos"); ("data", Object sample_pdata)]].

Definition sample_genesis : GenesisApi := {|
  genesis_block_assets := Ok sample_assets;
  genesis_height := Ok 0;
  decode_nft_attribute _ := Ok [];
  dex_getTokenURI _ _ := Ok Undef;
|}.

#[local] Existing Instances sample_genesis sample_node.

Lemma genesis_assets_indexed_witness :
  exists w' m',
    (indexTokenModuleAssets "p" ≫= fun _ =>
     indexPosModuleAssets "p") empty_world = (Ok tt, w') /\
    kv_ok "p" (w_trx w') m' /\ m' !! locked_key "0400000100000000" = Some (BigI 18) /\
    m' !! total_key "0400000100000000" = Some (BigI 18) /\ m' !! self_key "0400000100000000" = Some (BigI 15).
Proof.
  destruct (genesis_assets_indexed "p" sample_assets sample_tdata sample_pdata
              sample_users sample_validators sample_stakers 0 "0400000100000000" empty_world ∅ ∅)
    as (w' & m' & E & Hm & Hl & Ht & Hs & _);
    [reflexivity | reflexivity | by eexists | reflexivity | discriminate | by eexists | | reflexivity | reflexivity
    | | apply kv_ok_empty | apply kv_ok_empty | by eexists | intros; apply lookup_empty | apply lookup_empty
    | apply lookup_empty | | |].
  - apply (bool_decide_unpack _). vm_compute. exact I.
  - repeat constructor. intros _. by eexists.
  - apply (bool_decide_unpack _). vm_compute. exact I.
  - apply (bool_decide_unpack _). vm_compute. exact I.
  - exists w', m'. split_and!; [exact E|exact Hm| |exact Ht|exact Hs].
    apply (Hl (User "kly1" "0400000100000000" 50 [10; 5])); [by left|done].
Defined.
