(* ===== verification/Validators.v ===== *)
(** * Validators and generators

    [dataService/business/pos/validators.js], [dataService/pos/validators.js],
    [dataService/business/generators.js], [dataService/generators.js] and
    [utils/array.js]: the cached list of validators with weight, rank and
    status, its queries, and its updates with every block.  The variables
    [validatorList] and [generatorsListCache] of the source are arguments and
    results; answers of the node, the collation of texts and the redis cache of
    names are parameters. *)
From Stdlib Require Import Ascii.
From stdpp Require Import sorting.
From S2P Require Import Prelude JsValue Database Engine Table World Schemas KvStore Chain Stake.
From S2P Require Import Balances Processors PoolAddress Mapper Gateway TransactionQuery.
Local Open Scope Z_scope.

(** ** utils/array.js *)

(** [arr.filter((v, i, a) => a.findIndex(t => t === v) === i)] *)
Fixpoint dropDuplicates (seen : list val) (arr : list val) : list val :=
  match arr with
  | [] => []
  | v :: arr => if bool_decide (v ∈ seen) then dropDuplicates seen arr else v :: dropDuplicates (v :: seen) arr
  end.

(** [x - y]: big integers only with each other, other values as numbers
    ([None]: [NaN]). *)
Definition js_minus (x y : val) : result (option Z) :=
  match x, y with
  | BigI a, BigI b => Ok (Some (a - b))
  | BigI _, _ | _, BigI _ => Throw "Cannot mix BigInt and other types, use explicit conversions"
  | _, _ => Ok (match js_Number x, js_Number y with Num a, Num b => Some (a - b) | _, _ => None end)
  end.

Section Sorting.
(** [String.prototype.localeCompare] *)
Variable localeCompare : string -> string -> Z.

Definition locale_val (x y : val) : result Z :=
  match x with
  | Str s => Ok (localeCompare s (js_String y))
  | _ => Throw "localeCompare is not a function"
  end.

(** A comparison that is not a number counts as equal. *)
Definition sortComparator (sortParam : string) (a b : obj) : result Z :=
  let sortProp := default "" (split_on ":" sortParam !! 0%nat) in
  let asc := bool_decide (split_on ":" sortParam !! 1%nat = Some "asc") in
  let x := if asc then prop a sortProp else prop b sortProp in
  let y := if asc then prop b sortProp else prop a sortProp in
  match js_Number (prop a sortProp), js_minus x y with
  | NaN, _ | _, Throw _ => locale_val x y
  | _, Ok d => Ok (default 0 d)
  end.
End Sorting.

(** [arr.sort(comparator)]: the sort is stable; it throws when a comparison
    does. *)
Definition sorts_before {A} (cmp : A -> A -> result Z) (a b : A) : Prop :=
  match cmp a b with Ok z => z <= 0 | Throw _ => True end.
#[export] Instance sorts_before_dec {A} (cmp : A -> A -> result Z) a b : Decision (sorts_before cmp a b).
Proof. unfold sorts_before. destruct (cmp a b); apply _. Defined.

Definition js_sort {A} (cmp : A -> A -> result Z) (l : list A) : result (list A) :=
  _ ← mapM_result (fun ab => cmp (fst ab) (snd ab)) (a ← l; b ← l; [(a, b)]);
  Ok (merge_sort (sorts_before cmp) l).

(** [item && pattern && item.toLowerCase().includes(pattern.toLowerCase())] *)
Definition isSubstringInArray (collection : list val) (pattern : string) : bool :=
  existsb (fun item => match item with
                       | Str s => negb (String.eqb s "") && negb (String.eqb pattern "")
                                  && str_includes (Gateway.toLowerCase pattern) (Gateway.toLowerCase s)
                       | _ => false
                       end) collection.

Section Validators.
Context {St : Type} `{SqlEngine St} `{NodeApi} `{Crypto}.
Variable localeCompare : string -> string -> Z.

(** ** business/pos/validators.js *)

(** [start <= height && height <= end]; a missing bound or height gives false. *)
Definition within (height : option Z) (period : val) : bool :=
  match height, period with
  | Some h, Object p =>
      match prop p "start", prop p "end" with Num s, Num e => (s <=? h) && (h <=? e) | _, _ => false end
  | _, _ => false
  end.

Definition some_period (height : option Z) (periods : val) : result bool :=
  l ← elements periods; Ok (existsb (within height) l).

(** The height of the last block in the cache. *)
Variable lastBlockHeight : option Z.

Definition verifyIfPunished (validator : obj) : result bool :=
  some_period lastBlockHeight (prop validator "reportMisbehaviorHeights").

(** The weight of a validator: its stake, at most ten times its own. *)
Definition weigh (validator : obj) : result obj :=
  punished ← (if truthy (prop validator "isBanned") then Ok true else verifyIfPunished validator);
  if punished : bool then Ok (set_prop validator "validatorWeight" (BigI 0))
  else
    self ← js_BigInt (prop validator "selfStake");
    total ← js_BigInt (prop validator "totalStake");
    let cap := self * 10 in
    Ok (set_prop (set_prop validator "totalStake" (BigI total)) "validatorWeight" (BigI (if cap <? total then cap else total))).

(** [requestConnector('getPosValidator', { address })] and [getAllPosValidators] *)
Variable request_validator : val -> result obj.
Variable request_all_validators : result (list obj).

Definition business_getPosValidators (addresses : list val) : result (list obj) :=
  mapM_result (fun address => validator ← request_validator address; weigh validator) addresses.

Definition getAllPosValidators : M St (list obj) :=
  rawValidators ← lift request_all_validators;
  map_each rawValidators (fun validator =>
    validator ← lift (weigh validator);
    account ← getIndexedAccountInfo [("address", prop validator "address")] ["publicKey"];
    ret (set_prop validator "publicKey" (match prop account "publicKey" with Undef => Null | k => k end))).

(** ** business/generators.js *)

(** [requestConnector('getGenerators')] and the cached name of an address *)
Variable request_generators : result (list obj).
Variable getNameByAddress : val -> val.

Definition getGeneratorsInfo : M St (list obj) :=
  generatorsList ← lift request_generators;
  map_each generatorsList (fun generator =>
    account ← getIndexedAccountInfo [("address", prop generator "address"); ("limit", Num 1)] ["name"; "publicKey"];
    let name := prop account "name" in
    ret (spread generator [("name", if truthy name then name else getNameByAddress (prop generator "address"));
                           ("publicKey", prop account "publicKey")])).

Definition getNumberOfGenerators : result Z :=
  constants ← getPosConstants;
  a ← get constants "numberActiveValidators";
  s ← get constants "numberStandbyValidators";
  match a, s with Num x, Num y => Ok (x + y) | _, _ => Throw "not a number" end.

Definition business_getGenerators (generatorsListCache : list obj) : M St (list obj) :=
  match generatorsListCache with [] => getGeneratorsInfo | _ => ret generatorsListCache end.

(** ** pos/validators.js *)
Definition getHexAddress (address : string) : result string :=
  if String.prefix "kly" address then b ← getAddressFromKlayr32Address address; Ok (to_hex b) else Ok address.

(** [Buffer.compare] *)
Fixpoint buffer_compare (a b : buffer) : Z :=
  match a, b with
  | [], [] => 0
  | [], _ => -1
  | _, [] => 1
  | x :: a, y :: b => if x <? y then -1 else if y <? x then 1 else buffer_compare a b
  end.

Definition hex_of (v : obj) : buffer := from_hex (js_String (prop v "hexAddress")).

Definition validatorComparator (a b : obj) : result Z :=
  wb ← js_BigInt (prop b "validatorWeight");
  wa ← js_BigInt (prop a "validatorWeight");
  if wb - wa =? 0 then Ok (buffer_compare (hex_of b) (hex_of a)) else Ok (wb - wa).

Definition with_hex (validator : obj) : result obj :=
  h ← getHexAddress (js_String (prop validator "address"));
  Ok (set_prop validator "hexAddress" (Str h)).

Definition sort_validators (l : list obj) : result (list obj) :=
  l ← mapM_result with_hex l;
  js_sort validatorComparator l.

Definition computeValidatorRank (validatorList : list obj) : result (list obj) :=
  l ← sort_validators validatorList;
  Ok (imap (fun i v => set_prop v "rank" (Num (Z.of_nat i + 1))) l).

(** [Transactions.convertKLYToBeddows('1000')] *)
Definition MIN_ELIGIBLE_VOTE_WEIGHT : Z := 1000 * 10 ^ 8.

(** [l.slice(l.length - n)] *)
Definition last_entries {A} (n : Z) (l : list A) : list A :=
  if Z.of_nat (length l) <? n then drop (Z.to_nat (2 * Z.of_nat (length l) - n)) l else drop (length l - Z.to_nat n) l.

Definition status_of (height : option Z) (active standBy : list val) (validator : obj) : result string :=
  if truthy (prop validator "isBanned") then Ok "banned"
  else
    punished ← some_period height (prop validator "punishmentPeriods");
    if punished : bool then Ok "punished"
    else if bool_decide (prop validator "address" ∈ active) then Ok "active"
    else if bool_decide (prop validator "address" ∈ standBy) then Ok "standby"
    else
      w ← js_BigInt (prop validator "validatorWeight");
      Ok (if MIN_ELIGIBLE_VOTE_WEIGHT <=? w then "standby" else "ineligible").

(** [latestBlock] is the height of [getLastBlock()]. *)
Definition computeValidatorStatus (latestBlock : option Z) (generatorsList validatorList : list obj) : result (list obj) :=
  constants ← getPosConstants;
  a ← get constants "numberActiveValidators";
  s ← get constants "numberStandbyValidators";
  let generators := (fun g => prop g "address") <$> generatorsList in
  generatorInfo ← sort_validators (filter (fun v => prop v "address" ∈ generators) validatorList);
  let addresses := (fun v => prop v "address") <$> generatorInfo in
  let active := match a with Num n => take (Z.to_nat n) addresses | _ => [] end in
  let standBy := match s with Num n => last_entries n addresses | _ => addresses end in
  mapM_result (fun v => st ← status_of latestBlock active standBy v; Ok (set_prop v "status" (Str st))) validatorList.

(** [utils/account.js] *)
Definition updateAccountInfo (params : obj) : M St unit :=
  let accountInfo := (fun c => (c, prop params c)) <$> filter (fun c => has_prop params c = true) (fst <$> Database.schema accountsTableSchema) in
  write Auto (upsert accountsTableSchema (Object accountInfo)).

(** The list is replaced before the accounts are updated. *)
Definition loadAllPosValidators (validatorList : list obj) : M St (list obj) :=
  loaded ← try_catch (l ← getAllPosValidators; ret (Some l)) (fun _ => ret None);
  match loaded with
  | None => ret validatorList
  | Some l =>
      try_catch
        (for_each l (fun v => updateAccountInfo [("address", prop v "address"); ("name", prop v "name"); ("isValidator", Bool true)]))
        (fun _ => ret tt) ≫= fun _ => ret l
  end.

Definition reloadValidatorCache (posRegistered : bool) (latestBlock : option Z) (generatorsListCache validatorList : list obj)
    : M St (list obj) :=
  if negb posRegistered then ret validatorList
  else
    l ← loadAllPosValidators validatorList;
    l ← lift (computeValidatorRank l);
    generatorsList ← business_getGenerators generatorsListCache;
    lift (computeValidatorStatus latestBlock generatorsList l).

(** [new Set(param.split(','))]; an absent parameter gives the empty set. *)
Definition param_set (params : obj) (key : string) : list string :=
  match prop params key with Str s => if String.eqb s "" then [] else split_on "," s | _ => [] end.

Definition wanted (params : obj) (key : string) (value : val) : bool :=
  match param_set params key with [] => true | l => bool_decide (value ∈ (Str <$> l)) end.

Definition validator_matches (params validator : obj) : bool :=
  wanted params "address" (prop validator "address")
  && wanted params "name" (prop validator "name")
  && wanted params "status" (prop validator "status")
  && match prop params "search" with
     | Str s => String.eqb s "" || isSubstringInArray [prop validator "name"; prop validator "address"; prop validator "publicKey"] s
     | _ => true
     end.

(** [x + y] for two numbers or two big integers *)
Definition js_plus (x y : val) : val :=
  match x, y with Num a, Num b => Num (a + b) | BigI a, BigI b => BigI (a + b) | _, _ => NaN end.

Definition with_rewards (validator : obj) : M St obj :=
  rows ← read Auto (find validatorsTableSchema [("address", prop validator "address"); ("limit", Num 1)]
                      (Arr (Str <$> ["generatedBlocks"; "totalCommission"; "totalSelfStakeRewards"])));
  let info := default [] (head rows) in
  let value key d := match prop info key with Undef => d | v => v end in
  let commission := value "totalCommission" (BigI 0) in
  let rewards := value "totalSelfStakeRewards" (BigI 0) in
  ret (spread validator [("generatedBlocks", value "generatedBlocks" (Num 0)); ("totalCommission", commission);
                         ("totalSelfStakeRewards", rewards); ("earnedRewards", js_plus commission rewards)]).

(** The parameters after [publicKey] was resolved, or [None] when it does not
    belong to the addresses asked for. *)
Definition resolve_public_key (params : obj) : result (option obj) :=
  if truthy (prop params "publicKey") then
    address ← getKlayr32AddressFromPublicKey (prop params "publicKey");
    if truthy (prop params "address") && negb (bool_decide (address ∈ (Str <$> param_set params "address"))) then Ok None
    else Ok (Some (set_prop params "address" address))
  else Ok (Some params).

(** [arr.slice(offset, offset + limit)] *)
Definition page_slice {A} (params : obj) (l : list A) : list A :=
  match prop params "offset", prop params "limit" with
  | Num o, Num n => take (Z.to_nat n) (drop (Z.to_nat o) l)
  | _, _ => []
  end.

(** The list of validators (ranked again when no entry of the answer has a
    rank), the page and its meta data. *)
Definition getPosValidators (validatorList : list obj) (params : obj) : M St (list obj * (list obj * obj)) :=
  resolved ← lift (resolve_public_key params);
  match resolved with
  | None => ret (validatorList, ([], [("count", Num 0); ("offset", Num 0); ("total", Num 0)]))
  | Some params =>
      (if truthy (prop params "publicKey") then indexAccountPublicKey (prop params "publicKey") else ret tt) ≫= fun _ =>
      data ← map_each (filter (fun v => validator_matches params v = true) validatorList) with_rewards;
      validatorList ← (if forallb (fun v => negb (truthy (prop v "rank"))) data
                       then lift (computeValidatorRank validatorList) else ret validatorList);
      sorted ← lift (js_sort (sortComparator localeCompare (js_String (prop params "sort"))) data);
      let paged := page_slice params sorted in
      ret (validatorList,
           (paged, [("count", Num (Z.of_nat (length paged))); ("offset", prop params "offset");
                    ("total", Num (Z.of_nat (length data)))]))
  end.

(** dataService/generators.js: the generators that are validators. *)
Definition getGenerators (generatorsList validatorList : list obj) (params : obj) : list obj * obj :=
  let data := generator ← generatorsList;
    match list_find (fun v => prop v "address" = prop generator "address") (reverse validatorList) with
    | Some (_, validator) =>
        if negb (has_prop params "search")
           || isSubstringInArray [prop generator "name"; prop generator "address"; prop generator "publicKey"]
                (match prop params "search" with Str s => s | _ => "" end)
        then [set_prop generator "status" (prop validator "status")] else []
    | None => []
    end in
  let paged := page_slice params data in
  (paged, [("total", Num (Z.of_nat (length data))); ("count", Num (Z.of_nat (length paged))); ("offset", prop params "offset")]).

(** *** Updates with every block *)

(** [(await getSchemas()).data.header.schema] decodes the first header of a
    misbehaviour report to its generator. *)
Variable decode_generator : val -> result val.

(** The validators a transaction concerns, and whether it reports
    misbehaviour. *)
Definition concerned (tx : obj) : result (list val * bool) :=
  if bool_decide (prop tx "module" = Str "pos") then
    let command := prop tx "command" in
    if bool_decide (command = Str "registerValidator" \/ command = Str "changeCommission")
    then a ← getKlayr32AddressFromPublicKey (prop tx "senderPublicKey"); Ok ([a], false)
    else if bool_decide (command = Str "stake") then
      s ← get (prop tx "params") "stakes";
      stakes ← elements s;
      l ← mapM_result (fun stake => get stake "validatorAddress") stakes;
      Ok (l, false)
    else if bool_decide (command = Str "reportMisbehavior") then
      header1 ← get (prop tx "params") "header1";
      a ← decode_generator header1; Ok ([a], true)
    else Ok ([], false)
  else Ok ([], false).

(** One answer of the node is taken over into the list. *)
Definition update_validator (deleted : bool) (validatorList : list obj) (validator : obj) : list obj :=
  match list_find (fun acc => prop acc "address" = prop validator "address") validatorList with
  | None => validatorList ++ [validator]
  | Some (i, old) =>
      if deleted then delete i validatorList
      else <[i := set_prop validator "status" (prop old "status")]> validatorList
  end.

(** The counters of the generator, kept only when they are set. *)
Definition count_block (deleted : bool) (block : obj) (validatorList : list obj) : result (list obj) :=
  match list_find (fun acc => prop acc "address" = prop block "generatorAddress") validatorList with
  | None => Ok validatorList
  | Some (i, v) =>
      if truthy (prop v "generatedBlocks") && truthy (prop v "rewards") then
        old ← js_BigInt (prop v "rewards");
        reward ← js_BigInt (prop block "reward");
        let sign := if deleted then -1 else 1 in
        let n := match prop v "generatedBlocks" with Num n => Num (n + sign) | _ => NaN end in
        Ok (<[i := set_prop (set_prop v "generatedBlocks" n) "rewards" (Str (string_of_Z (old + sign * reward)))]> validatorList)
      else Ok validatorList
  end.

(** The list after the transactions of a block, and whether no error ended the
    update (then statuses may be left as they were). *)
Definition update_validators (deleted : bool) (latestBlock : option Z) (generatorsListCache validatorList : list obj)
    (addresses : list val) (misbehavior : bool) : M St (list obj * bool) :=
  match addresses with
  | [] => ret (validatorList, true)
  | _ =>
      match business_getPosValidators addresses with
      | Throw _ => ret (validatorList, false)
      | Ok accounts =>
          let l := foldl (update_validator deleted) validatorList accounts in
          match computeValidatorRank l with
          | Throw _ => ret (l, false)
          | Ok l =>
              if misbehavior then
                try_catch (g ← business_getGenerators generatorsListCache;
                           l ← lift (computeValidatorStatus latestBlock g l); ret (l, true))
                  (fun _ => ret (l, false))
              else ret (l, true)
          end
      end
  end.

(** [deleted]: the event is [deleteBlock], not [newBlock]. *)
Definition updateValidatorCacheListener (deleted : bool) (latestBlock : option Z) (generatorsListCache validatorList : list obj)
    (block : obj) : M St (list obj) :=
  match prop block "transactions" with
  | Arr txs =>
      match mapM_result (fun tx => concerned (as_obj tx)) txs with
      | Throw _ => ret validatorList
      | Ok cs =>
          '(l, ok) ← update_validators deleted latestBlock generatorsListCache validatorList
                       (List.concat (fst <$> cs)) (existsb snd cs);
          ret (if ok : bool then match count_block deleted block l with Ok l' => l' | Throw _ => l end else l)
      end
  | _ => ret validatorList
  end.

(** ** transactionProcessor/pos/reportMisbehavior.js *)
Definition reportMisbehavior_apply (posRegistered : bool) (latestBlock : option Z) (generatorsListCache validatorList : list obj)
    (blockHeader tx : obj) : M St unit :=
  when_successful tx (_ ← reloadValidatorCache posRegistered latestBlock generatorsListCache validatorList; ret tt).
Definition reportMisbehavior_revert : bool -> option Z -> list obj -> list obj -> obj -> obj -> M St unit :=
  reportMisbehavior_apply.
End Validators.

(** ** Ranks *)
Lemma buffer_compare_anti a b : buffer_compare b a = - buffer_compare a b.
Proof.
  revert b. induction a as [|x a IH]; intros [|y b]; cbn [buffer_compare]; try done.
  destruct (Z.ltb_spec x y), (Z.ltb_spec y x); try lia. apply IH.
Qed.

Lemma buffer_compare_zero a b : buffer_compare a b = 0 -> a = b.
Proof.
  revert b. induction a as [|x a IH]; intros [|y b]; cbn [buffer_compare]; try done.
  destruct (Z.ltb_spec x y), (Z.ltb_spec y x); try lia. intros E. f_equal; [lia|auto].
Qed.

Lemma buffer_compare_trans a b c : buffer_compare a b <= 0 -> buffer_compare b c <= 0 -> buffer_compare a c <= 0.
Proof.
  revert b c. induction a as [|x a IH]; intros [|y b] [|z c]; cbn [buffer_compare]; try lia.
  destruct (Z.ltb_spec x y), (Z.ltb_spec y x), (Z.ltb_spec y z), (Z.ltb_spec z y), (Z.ltb_spec x z), (Z.ltb_spec z x); try lia.
  apply IH.
Qed.

(** The weight and the bytes of the address, and the order of the list: more
    weight first, then the greater address. *)
Definition rank_key : Type := Z * buffer.
Definition key_cmp (a b : rank_key) : Z :=
  if fst b - fst a =? 0 then buffer_compare (snd b) (snd a) else fst b - fst a.
Definition beats (a b : rank_key) : Prop := key_cmp a b < 0.
#[export] Instance beats_dec a b : Decision (beats a b).
Proof. unfold beats. apply _. Defined.

Lemma key_cmp_anti a b : key_cmp b a = - key_cmp a b.
Proof.
  unfold key_cmp. destruct (Z.eqb_spec (fst b - fst a) 0), (Z.eqb_spec (fst a - fst b) 0); try lia. apply buffer_compare_anti.
Qed.

Lemma key_cmp_zero a b : key_cmp a b = 0 -> a = b.
Proof.
  unfold key_cmp. destruct (Z.eqb_spec (fst b - fst a) 0) as [E|]; [|lia]. intros Hz%buffer_compare_zero.
  destruct a, b. cbn in *. subst. f_equal. lia.
Qed.

Lemma key_cmp_trans a b c : key_cmp a b <= 0 -> key_cmp b c <= 0 -> key_cmp a c <= 0.
Proof.
  unfold key_cmp. destruct (Z.eqb_spec (fst b - fst a) 0), (Z.eqb_spec (fst c - fst b) 0), (Z.eqb_spec (fst c - fst a) 0); try lia.
  intros H1 H2. by apply (buffer_compare_trans _ (snd b)).
Qed.

(** In a sorted list without ties an entry is beaten by those before it. *)
Lemma sorted_le (l : list rank_key) i j a b :
  StronglySorted (fun a b => key_cmp a b <= 0) l -> (i < j)%nat -> l !! i = Some a -> l !! j = Some b -> key_cmp a b <= 0.
Proof.
  intros Hs Hij Ha Hb. rewrite <- (take_drop j l) in Hs.
  apply (StronglySorted_app_1_elem_of _ _ _ a b Hs).
  - apply elem_of_take. eauto.
  - apply (list_elem_of_lookup_2 _ 0). by rewrite lookup_drop, Nat.add_0_r.
Qed.

Lemma sorted_position (l : list rank_key) i k :
  StronglySorted (fun a b => key_cmp a b <= 0) l -> NoDup l -> l !! i = Some k ->
  length (filter (fun u => beats u k) l) = i.
Proof.
  intros Hs Hnd Hi.
  assert (Hother : forall j u, l !! j = Some u -> beats u k <-> (j < i)%nat).
  { intros j u Hj. unfold beats. destruct (Nat.lt_trichotomy j i) as [Hlt|[->|Hgt]].
    - pose proof (sorted_le l j i u k Hs Hlt Hj Hi).
      assert (key_cmp u k <> 0); [|split; lia]. intros ->%key_cmp_zero. pose proof (NoDup_lookup _ _ _ _ Hnd Hi Hj). lia.
    - assert (u = k) as -> by congruence. pose proof (key_cmp_anti k k). split; lia.
    - pose proof (sorted_le l i j k u Hs Hgt Hi Hj). rewrite key_cmp_anti. split; lia. }
  rewrite <- (take_drop i l), filter_app, length_app, filter_all, filter_none.
  - cbn. rewrite length_take. apply lookup_lt_Some in Hi. lia.
  - intros u Hu. apply list_elem_of_lookup_1 in Hu as [j Hj]. rewrite lookup_drop in Hj. intros Hb%(Hother _ _ Hj). lia.
  - intros u Hu. apply elem_of_take in Hu as (j & Hj & Hlt). by apply (Hother j).
Qed.

Section Ranks.
Context `{NodeApi} `{Crypto}.

(** The key of a listed validator; its weight is a big integer. *)
Definition key_of (v : obj) : rank_key := (match prop v "validatorWeight" with BigI w => w | _ => 0 end, hex_of v).
Definition weighted (v : obj) : Prop := exists w, prop v "validatorWeight" = BigI w.

Lemma validatorComparator_key a b : weighted a -> weighted b -> validatorComparator a b = Ok (key_cmp (key_of a) (key_of b)).
Proof.
  intros [wa Ha] [wb Hb]. unfold validatorComparator, key_cmp, key_of. rewrite Ha, Hb. cbn [js_BigInt mbind result_bind fst snd].
  by destruct (_ =? 0).
Qed.

#[local] Instance validator_order_total : Total (sorts_before validatorComparator).
Proof.
  intros a b. unfold sorts_before, validatorComparator.
  destruct (js_BigInt (prop a "validatorWeight")) as [wa|], (js_BigInt (prop b "validatorWeight")) as [wb|];
    cbn [mbind result_bind]; auto.
  destruct (Z.eqb_spec (wb - wa) 0), (Z.eqb_spec (wa - wb) 0); try lia.
  pose proof (buffer_compare_anti (hex_of a) (hex_of b)). lia.
Qed.

Lemma sorted_keys l : Forall weighted l -> Sorted (sorts_before validatorComparator) l ->
  StronglySorted (fun a b => key_cmp a b <= 0) (key_of <$> l).
Proof.
  intros Hw Hs. apply Sorted_StronglySorted.
  { intros a b c. apply key_cmp_trans. }
  induction Hs as [|a l Hs IH Hhd]; [constructor|]. apply Forall_cons in Hw as [Ha Hw]. rewrite fmap_cons.
  constructor; [auto|]. destruct Hhd as [|b l Hab]; [constructor|]. apply Forall_cons in Hw as [Hb _]. constructor.
  unfold sorts_before in Hab. by rewrite validatorComparator_key in Hab.
Qed.

Lemma js_sort_keys l : Forall weighted l ->
  exists l', js_sort validatorComparator l = Ok l' /\ l' ≡ₚ l /\ StronglySorted (fun a b => key_cmp a b <= 0) (key_of <$> l').
Proof.
  intros Hw. exists (merge_sort (sorts_before validatorComparator) l).
  pose proof (merge_sort_Permutation (sorts_before validatorComparator) l) as Hp. split_and!; [|done|].
  - unfold js_sort.
    assert (Hall : forall ps, Forall (fun ab => weighted (fst ab) /\ weighted (snd ab)) ps ->
      exists zs, mapM_result (fun ab => validatorComparator (fst ab) (snd ab)) ps = Ok zs).
    { intros ps Hps. induction Hps as [|[a b] ps [Ha Hb] _ [zs IH]]; [by exists []|]. cbn [mapM_result fst snd].
      rewrite (validatorComparator_key a b Ha Hb), IH. by eexists. }
    destruct (Hall (a ← l; b ← l; [(a, b)])) as [zs ->]; [|done].
    rewrite Forall_forall in Hw. apply Forall_forall. intros ab Hab. apply list_elem_of_bind in Hab as (a & Hab & Ha).
    apply list_elem_of_bind in Hab as (b & Hab & Hb). rewrite list_elem_of_singleton in Hab. subst ab. split; auto.
  - apply sorted_keys; [by rewrite Hp|]. exact (Sorted_merge_sort _ l).
Qed.

Lemma length_filter_fmap {A B} (P : B -> Prop) `{forall x, Decision (P x)} (f : A -> B) (l : list A) :
  length (filter (fun x => P (f x)) l) = length (filter P (f <$> l)).
Proof.
  induction l as [|x l IH]; [done|]. rewrite fmap_cons. destruct (decide (P (f x))).
  - rewrite !filter_cons_True by done. cbn [length]. by rewrite IH.
  - by rewrite !filter_cons_False.
Qed.

(** The hexadecimal form of the address of a validator. *)
Definition hex_known (v : obj) (h : string) : Prop := getHexAddress (js_String (prop v "address")) = Ok h.

Lemma with_hex_list l hs : Forall2 hex_known l hs ->
  mapM_result with_hex l = Ok (zip_with (fun v h => set_prop v "hexAddress" (Str h)) l hs).
Proof.
  induction 1 as [|v h l hs Hv _ IH]; [done|]. cbn [mapM_result zip_with].
  assert (with_hex v = Ok (set_prop v "hexAddress" (Str h))) as -> by (unfold with_hex, hex_known in *; by rewrite Hv).
  cbn [mbind result_bind]. by rewrite IH.
Qed.

Lemma hex_addresses l hs : Forall2 hex_known l hs ->
  (fun v => prop v "address") <$> zip_with (fun v h => set_prop v "hexAddress" (Str h)) l hs = (fun v => prop v "address") <$> l.
Proof. induction 1 as [|v h l hs _ _ IH]; [done|]. cbn [zip_with]. rewrite !fmap_cons, IH. by rewrite prop_set_ne. Qed.

(** [C35] The rank of a validator ([computeValidatorRank]) is one more than the
    number of validators that beat it, by weight or, at the same weight, by the
    greater address: the ranks of a list are 1 to its length, each given once,
    and the list is in their order and has the same validators as before. *)
Theorem ranks_exact l hs :
  Forall2 hex_known l hs -> Forall weighted l -> NoDup (from_hex <$> hs) ->
  exists r, computeValidatorRank l = Ok r /\
    (fun v => prop v "address") <$> r ≡ₚ (fun v => prop v "address") <$> l /\
    (forall i v, r !! i = Some v -> prop v "rank" = Num (Z.of_nat i + 1) /\
       Z.of_nat (length (filter (fun u => beats (key_of u) (key_of v)) r)) = Z.of_nat i).
Proof.
  intros Hh Hw Hnd. set (lh := zip_with (fun v h => set_prop v "hexAddress" (Str h)) l hs).
  assert (Hwh : Forall weighted lh).
  { unfold lh. clear -Hh Hw. induction Hh as [|v h l hs _ _ IH]; [constructor|]. apply Forall_cons in Hw as [[w Hv] Hw].
    constructor; [|auto]. exists w. by rewrite prop_set_ne. }
  assert (Hkeys : hex_of <$> lh = from_hex <$> hs).
  { unfold lh. clear -Hh. induction Hh as [|v h l hs _ _ IH]; [done|]. cbn [zip_with]. rewrite !fmap_cons, IH. f_equal.
    unfold hex_of. by rewrite prop_set_eq. }
  destruct (js_sort_keys lh Hwh) as (l' & E & Hp & Hs).
  exists (imap (fun i v => set_prop v "rank" (Num (Z.of_nat i + 1))) l'). split_and!.
  - unfold computeValidatorRank, sort_validators. rewrite (with_hex_list l hs Hh). cbn [mbind result_bind]. fold lh. by rewrite E.
  - rewrite fmap_imap. rewrite (imap_ext _ (const (fun v => prop v "address"))) by (intros i v _; cbn; by rewrite prop_set_ne).
    rewrite imap_const. rewrite Hp. unfold lh. by rewrite (hex_addresses l hs Hh).
  - intros i v Hv. rewrite list_lookup_imap in Hv. destruct (l' !! i) as [u|] eqn:Hu; [|done]. injection Hv as <-.
    split; [apply prop_set_eq|]. f_equal. set (k := key_of (set_prop u _ _)).
    etrans; [exact (length_filter_fmap (fun x => beats x k) key_of _)|].
    assert (Hk : forall l0 : list obj, key_of <$> imap (fun i v => set_prop v "rank" (Num (Z.of_nat i + 1))) l0 = key_of <$> l0).
    { intros l0. rewrite fmap_imap, (imap_ext _ (const key_of)), imap_const; [done|].
      intros j x _. cbn. unfold key_of, hex_of. by rewrite !prop_set_ne. }
    rewrite Hk. apply sorted_position; [done| |].
    + apply (NoDup_fmap_1 snd). rewrite <- list_fmap_compose. change (snd ∘ key_of) with hex_of. by rewrite Hp, Hkeys.
    + rewrite list_lookup_fmap, Hu. cbn. unfold k, key_of, hex_of. by rewrite !prop_set_ne.
Qed.
End Ranks.

(** Three validators, two of them with the same weight. *)
Definition sample_validator (address : string) (weight : Z) : obj :=
  [("address", Str address); ("name", Str address); ("validatorWeight", BigI weight)].
Definition ranked_sample : list obj := [sample_validator "0a" 5; sample_validator "0b" 9; sample_validator "0c" 5].

Lemma ranks_exact_witness :
  exists r, computeValidatorRank (H1 := plain_crypto) ranked_sample = Ok r /\
    (fun v => prop v "rank") <$> r = [Num 1; Num 2; Num 3] /\
    (fun v => prop v "address") <$> r ≡ₚ [Str "0a"; Str "0b"; Str "0c"].
Proof.
  destruct (ranks_exact (H0 := plain_crypto) ranked_sample ["0a"; "0b"; "0c"]) as (r & E & Hp & Hr).
  - repeat constructor.
  - repeat constructor; by eexists.
  - apply (bool_decide_unpack _). vm_compute. exact I.
  - exists r. split_and!; [exact E| |exact Hp].
    assert (length r = 3%nat) as Hl.
    { apply (f_equal (fun m => match m with Ok l => length l | Throw _ => 0%nat end)) in E. rewrite <- E. reflexivity. }
    destruct r as [|a [|b [|c [|]]]]; try done. cbn.
    by rewrite (proj1 (Hr 0%nat a eq_refl)), (proj1 (Hr 1%nat b eq_refl)), (proj1 (Hr 2%nat c eq_refl)).
Defined.

(** Any answer of the node for a listed validator removes it from the list
    when the block is deleted, also when the transaction only changed a stake. *)
Lemma deleted_block_drops_validator :
  update_validator true [sample_validator "0a" 5; sample_validator "0b" 9] (sample_validator "0b" 7)
  = [sample_validator "0a" 5].
Proof. reflexivity. Qed.

(** The heights of reports are numbers without [start] and [end], so no
    validator ever counts as punished here. *)
Lemma reported_validator_keeps_weight h v (heights : list Z) :
  prop v "reportMisbehaviorHeights" = Arr (Num <$> heights) -> verifyIfPunished h v = Ok false.
Proof.
  intros E. unfold verifyIfPunished, some_period. rewrite E. cbn [elements mbind result_bind]. f_equal.
  clear E. induction heights as [|n l IH]; [done|]. rewrite fmap_cons. cbn [existsb]. rewrite IH. by destruct h.
Qed.
