(* ===== verification/Files.v ===== *)
(** * Files: framework/src/fs.js, the export's csvCache.js with helpers/file.js and helpers/s3.js

    A file system is a map from absolute paths to files and directories.  A
    path of the code is a text; relative ones start at the working directory
    of the process ([cwd]), as [path.resolve] of Node.js has it.  The module
    [ObjectStore] is the other driver of the caches, an object storage. *)
From stdpp Require Import sorting.
From Stdlib Require Import Ascii.
From S2P Require Import Prelude JsValue Database Json.
Local Open Scope Z_scope.

(** An absolute path: the names from the root on. *)
Abbreviation path := (list string).

(** One name of a path text: the empty name and the dot stay, two dots go up. *)
Definition path_step (p : path) (name : string) : path :=
  if String.eqb name "" || String.eqb name "." then p
  else if String.eqb name ".." then removelast p
  else p ++ [name].

Definition slash : ascii := "/".
Definition is_absolute (text : string) : bool := match text with String c _ => Ascii.eqb c slash | _ => false end.

(** [path.resolve(text)] *)
Definition resolve (cwd : path) (text : string) : path :=
  foldl path_step (if is_absolute text then [] else cwd) (split_on slash text).

(** The text of an absolute path. *)
Definition path_text (p : path) : string := "/" +:+ join "/" p.

Section Files.
(** What a file holds. *)
Context {C : Type}.
Variable cwd : path.

Inductive node :=
| File (content : C) (ctime : Z)
| Dir (ctime : Z).

Abbreviation disk := (gmap path node).

(** The time of the process. *)
Variable now : Z.

Definition at_path (text : string) (d : disk) : option node := d !! resolve cwd text.

(** [mkdir(dirPath)], with its missing parents. *)
Definition mkdir_at (p : path) (d : disk) : disk :=
  foldl (fun d n => let q := take n p in if decide (d !! q = None) then <[q := Dir now]> d else d) d (seq 0 (S (length p))).

Definition mkdir (dirPath : string) : eff disk unit := fun d =>
  let p := resolve cwd dirPath in
  if forallb (fun n => match d !! take n p with Some (File _ _) => false | _ => true end) (seq 0 (S (length p)))
  then (Ok tt, mkdir_at p d)
  else (Throw "EEXIST: file already exists", d).

Definition read_file (filePath : string) : eff disk C := fun d =>
  match at_path filePath d with
  | Some (File c _) => (Ok c, d)
  | Some (Dir _) => (Throw "EISDIR: illegal operation on a directory", d)
  | None => (Throw "ENOENT: no such file or directory", d)
  end.

Definition write_file (filePath : string) (content : C) : eff disk unit := fun d =>
  let p := resolve cwd filePath in
  match d !! removelast p, d !! p with
  | Some (Dir _), Some (Dir _) => (Throw "EISDIR: illegal operation on a directory", d)
  | Some (Dir _), _ => (Ok tt, <[p := File content now]> d)
  | Some (File _ _), _ => (Throw "ENOTDIR: not a directory", d)
  | None, _ => (Throw "ENOENT: no such file or directory", d)
  end.

(** [absoluteFilePath.startsWith(absoluteRootDir)] *)
Definition isFilePathInDirectory (filePath directory : string) : bool :=
  String.prefix (path_text (resolve cwd directory)) (path_text (resolve cwd filePath)).

(** [rm(deletePath)] without options: removes a file and tells whether it did. *)
Definition rm_file (deletePath : string) : eff disk bool := fun d =>
  match at_path deletePath d with
  | Some (File _ _) => (Ok true, delete (resolve cwd deletePath) d)
  | _ => (Ok false, d)
  end.

(** [rmdir(directoryPath)]: [force] and [recursive], so all below goes. *)
Definition rmdir (directoryPath : string) : eff disk bool := fun d =>
  (Ok true, filter (fun kv => ~ resolve cwd directoryPath `prefix_of` kv.1) d).

Definition fileExists (filePath : string) (d : disk) : bool := bool_decide (is_Some (at_path filePath d)).

(** [exists(filePath)], which also takes other values than texts. *)
Definition exists_ (filePath : val) (d : disk) : bool :=
  match filePath with Str s => fileExists s d | _ => false end.

Definition isFile (filePath : string) (d : disk) : bool :=
  exists_ (Str filePath) d && match at_path filePath d with Some (File _ _) => true | _ => false end.

Definition ctime_of (n : node) : Z := match n with File _ t | Dir t => t end.

Definition stats (filePath : string) (d : disk) : result Z :=
  match at_path filePath d with Some n => Ok (ctime_of n) | None => Throw "ENOENT: no such file or directory" end.

(** The entries of a directory. *)
Definition readdir (directoryPath : string) (d : disk) : result (list (path * node)) :=
  match at_path directoryPath d with
  | Some (Dir _) =>
      Ok (filter (fun kv => removelast kv.1 = resolve cwd directoryPath /\ kv.1 <> []) (map_to_list d))
  | Some (File _ _) => Throw "ENOTDIR: not a directory"
  | None => Throw "ENOENT: no such file or directory"
  end.

Definition is_dir (n : node) : bool := match n with Dir _ => true | _ => false end.

Definition newer (a b : path * node) : Prop := (ctime_of a.2 >= ctime_of b.2).
#[global] Instance newer_dec : RelDecision newer.
Proof. intros a b. unfold newer. apply _. Defined.

(** The directories in a directory, the newest first, and its files. *)
Definition getDirectories (directoryPath : string) (d : disk) : result (list path) :=
  readdir directoryPath d ≫= fun l : list (path * node) => Ok (fst <$> merge_sort newer (filter (fun kv => is_dir kv.2 = true) l)).

Definition getFiles (directoryPath : string) (d : disk) : result (list path) :=
  readdir directoryPath d ≫= fun l : list (path * node) => Ok (fst <$> filter (fun kv => is_dir kv.2 = false) l).

Definition getFilesAndDirs (directoryPath : string) (d : disk) : result (list path) :=
  subDirectories ← getDirectories directoryPath d;
  filesInDirectory ← getFiles directoryPath d;
  Ok (subDirectories ++ filesInDirectory).

(** [mv(oldName, newName)]: what is below moves along. *)
Definition moved (old new p : path) : path := new ++ drop (length old) p.

Definition has_children (p : path) (d : disk) : bool :=
  existsb (fun kv => bool_decide (p `prefix_of` kv.1 /\ p <> kv.1)) (map_to_list d).

(** What [rename] of the operating system refuses. *)
Definition rename_error (old new : path) (d : disk) : option string :=
  match d !! old, d !! removelast new, d !! new with
  | None, _, _ | _, None, _ => Some "ENOENT: no such file or directory"
  | _, Some (File _ _), _ | Some (Dir _), _, Some (File _ _) => Some "ENOTDIR: not a directory"
  | Some (File _ _), _, Some (Dir _) => Some "EISDIR: illegal operation on a directory"
  | Some _, Some _, _ =>
      if bool_decide (old `prefix_of` new /\ old <> new) then Some "EINVAL: invalid argument"
      else if bool_decide (old <> new) && has_children new d then Some "ENOTEMPTY: directory not empty"
      else None
  end.

Definition mv (oldName newName : string) : eff disk unit := fun d =>
  let old := resolve cwd oldName in
  let new := resolve cwd newName in
  match rename_error old new d with
  | Some e => (Throw e, d)
  | None =>
      (Ok tt, list_to_map ((fun kv => (moved old new kv.1, kv.2)) <$> filter (fun kv => old `prefix_of` kv.1) (map_to_list d))
              ∪ filter (fun kv => ~ old `prefix_of` kv.1) (delete new d))
  end.

(** ** export/shared/helpers/file.js and csvCache.js *)

(** [moment().endOf('day') - moment().startOf('day') + 1], on a day of 24 hours. *)
Definition DAY_IN_MILLISECS : Z := 24 * 60 * 60 * 1000.
Definition getDaysInMilliseconds (days : Z) : Z := days * DAY_IN_MILLISECS.

(** [list(dirPath, count, page)]: the page is an offset. *)
Definition list_files (dirPath : string) (count page : Z) (d : disk) : result (list path) :=
  readdir dirPath d ≫= fun l : list (path * node) => Ok (take (Z.to_nat count) (drop (Z.to_nat page) (fst <$> l))).

Definition purge (dirPath : string) (days : option Z) : eff disk unit := fun d =>
  match days with
  | None => (Throw "days cannot be undefined.", d)
  | Some days =>
      match getFiles dirPath d with
      | Throw e => (Throw e, d)
      | Ok files =>
          (Ok tt, foldl (fun d p => match d !! p with
                                    | Some (File _ t) => if t + getDaysInMilliseconds days <? now then delete p d else d
                                    | _ => d
                                    end) d files)
      end
  end.

(** A cache directory ([objectCacheFS]). *)
Record cache_params := CacheParams { driver : string; dirPath : string; retentionInDays : Z }.

Definition KNOWN_DRIVERS : list string := ["filesystem"; "s3-minio"].

(** [objectCache(params)] refuses drivers it does not know. *)
Definition check_driver (params : cache_params) : result unit :=
  if bool_decide (driver params ∈ KNOWN_DRIVERS) then Ok tt
  else Throw (driver params +:+ " driver not found. Use one of " +:+ join "," KNOWN_DRIVERS).

Definition in_cache (params : cache_params) (filename : string) : string := dirPath params +:+ "/" +:+ filename.

Definition cache_write (params : cache_params) (filename : string) (content : C) : eff disk unit :=
  write_file (in_cache params filename) content.
Definition cache_read (params : cache_params) (filename : string) : eff disk C :=
  if isFilePathInDirectory (in_cache params filename) (dirPath params) then read_file (in_cache params filename)
  else throw "Filepath is not allowed.".
Definition cache_fileExists (params : cache_params) (filename : string) (d : disk) : bool :=
  fileExists (in_cache params filename) d.
Definition cache_remove (params : cache_params) (filename : string) : eff disk bool := rm_file (in_cache params filename).
Definition cache_purge (params : cache_params) : eff disk unit := purge (dirPath params) (Some (retentionInDays params)).
Definition cache_isFile (params : cache_params) (filename : string) (d : disk) : bool := isFile (in_cache params filename) d.

(** [init({ dirPath })] *)
Definition cache_init (params : cache_params) : eff disk unit := mkdir (dirPath params).

End Files.

Arguments node : clear implicits.
Abbreviation disk C := (gmap path (node C)).

(** ** Paths and contents *)

(** A name that stands for an entry of a directory. *)
Definition plain_name (name : string) : bool :=
  negb (has_char slash name || String.eqb name "" || String.eqb name "." || String.eqb name "..").

Lemma resolve_entry cwd dir name : dir <> "" -> plain_name name = true ->
  resolve cwd (dir +:+ "/" +:+ name) = resolve cwd dir ++ [name].
Proof.
  intros Hdir Hname. unfold plain_name in Hname. apply negb_true_iff in Hname.
  apply orb_false_iff in Hname as [[[Hs He]%orb_false_iff Hd]%orb_false_iff Hdd].
  unfold resolve. change ("/" +:+ name) with (String slash name). rewrite split_on_app, (split_on_none _ name Hs), foldl_app.
  replace (is_absolute (dir +:+ String slash name)) with (is_absolute dir) by (by destruct dir).
  cbn [foldl]. unfold path_step at 1. by rewrite He, Hd, Hdd.
Qed.

Lemma join_entry sep p name : p <> [] -> join sep (p ++ [name]) = join sep p +:+ sep +:+ name.
Proof.
  induction p as [|a p IH]; [done|]. intros _. destruct p as [|b p]; [done|].
  change (a +:+ sep +:+ join sep ((b :: p) ++ [name]) = (a +:+ sep +:+ join sep (b :: p)) +:+ sep +:+ name).
  rewrite IH by done. by rewrite !string_app_assoc.
Qed.

Lemma prefix_app (s t : string) : String.prefix s (s +:+ t) = true.
Proof. induction s as [|a s IH]; [by destruct t|]. simpl. by destruct (Ascii.ascii_dec a a). Qed.

Lemma entry_in_directory cwd dir name : dir <> "" -> plain_name name = true ->
  isFilePathInDirectory cwd (dir +:+ "/" +:+ name) dir = true.
Proof.
  intros Hd Hn. unfold isFilePathInDirectory. rewrite resolve_entry by done. unfold path_text.
  destruct (resolve cwd dir) as [|a p]; [apply (prefix_app "/")|].
  rewrite join_entry by done. rewrite <- string_app_assoc. apply prefix_app.
Qed.

(** The check compares texts and not names: a path in a directory whose name
    only starts with the name of the allowed one passes. *)
Lemma sibling_directory_allowed :
  isFilePathInDirectory ["srv"] "./data/partials/../partials-old/secret.json" "./data/partials" = true
  /\ resolve ["srv"] "./data/partials/../partials-old/secret.json" = ["srv"; "data"; "partials-old"; "secret.json"].
Proof. by split. Qed.

(** ** Directories stay *)
Section SameDirs.
Context {C : Type} (cwd : path) (now : Z).

Definition same_dirs (d d' : disk C) : Prop := forall q t, d' !! q = Some (Dir t) <-> d !! q = Some (Dir t).

Lemma same_dirs_refl d : same_dirs d d.
Proof. done. Qed.

Lemma same_dirs_trans d1 d2 d3 : same_dirs d1 d2 -> same_dirs d2 d3 -> same_dirs d1 d3.
Proof. intros H1 H2 q t. by rewrite (H2 q t). Qed.

Lemma insert_file_dirs (d : disk C) p c t : (forall t', d !! p <> Some (Dir t')) -> same_dirs d (<[p := File c t]> d).
Proof.
  intros Hp q t'. destruct (decide (q = p)) as [->|Hne]; [|by rewrite lookup_insert_ne].
  rewrite lookup_insert_eq. split; [done|]. intros E. by destruct (Hp t').
Qed.

Lemma delete_file_dirs (d : disk C) p : (forall t', d !! p <> Some (Dir t')) -> same_dirs d (delete p d).
Proof.
  intros Hp q t'. destruct (decide (q = p)) as [->|Hne]; [|by rewrite lookup_delete_ne].
  rewrite lookup_delete_eq. split; [done|]. intros E. by destruct (Hp t').
Qed.

Lemma write_file_dirs fn c d : same_dirs d (snd (write_file cwd now fn c d)).
Proof.
  unfold write_file. set (p := resolve cwd fn).
  destruct (d !! removelast p) as [[? ?|?]|], (d !! p) as [[? ?|?]|] eqn:E; simpl; try apply same_dirs_refl;
    apply insert_file_dirs; intros t'; by rewrite E.
Qed.

Lemma rm_file_dirs fn d : same_dirs d (snd (rm_file cwd fn d)).
Proof.
  unfold rm_file, at_path. destruct (d !! resolve cwd fn) as [[? ?|?]|] eqn:E; simpl; try apply same_dirs_refl.
  apply delete_file_dirs. intros t'. by rewrite E.
Qed.

(** Expired files are removed, and nothing else. *)
Lemma purge_spec (dir : string) (days : option Z) (d : disk C) :
  let d' := snd (purge cwd now dir days d) in same_dirs d d' /\ forall q, d' !! q = d !! q \/ d' !! q = None.
Proof.
  unfold purge. destruct days as [days|]; [|by split; auto]. destruct (getFiles cwd dir d) as [l|m]; [|by split; auto]. simpl.
  revert d. induction l as [|p l IH]; intros d; simpl; [by split; auto|].
  destruct (d !! p) as [[c t|t]|] eqn:E; [|apply IH|apply IH].
  destruct (t + getDaysInMilliseconds days <? now); [|apply IH]. destruct (IH (delete p d)) as [Hd Hq]. split.
  - eapply same_dirs_trans; [|done]. apply delete_file_dirs. intros t'. by rewrite E.
  - intros q. destruct (Hq q) as [E'|E']; [|by right]. destruct (decide (q = p)) as [->|Hne].
    + right. by rewrite E', lookup_delete_eq.
    + left. by rewrite E', lookup_delete_ne.
Qed.
End SameDirs.

(** ** Creating directories *)
Section Mkdir.
Context {C : Type} (cwd : path) (now : Z).

Lemma take_prefix (p q : path) : q `prefix_of` p <-> q ∈ (fun n => take n p) <$> seq 0 (S (length p)).
Proof.
  rewrite list_elem_of_fmap. split.
  - intros [k ->]. exists (length q). rewrite take_app_length, elem_of_seq, length_app. split; [done|lia].
  - intros (n & -> & _). apply prefix_take.
Qed.

Lemma mkdir_at_lookup (p q : path) (d : disk C) :
  mkdir_at now p d !! q =
  match d !! q with Some n => Some n | None => if decide (q `prefix_of` p) then Some (Dir now) else None end.
Proof.
  assert (forall ns (d : disk C),
    foldl (fun d n => let q := take n p in if decide (d !! q = None) then <[q := Dir now]> d else d) d ns !! q
    = match d !! q with Some n => Some n | None => if decide (q ∈ (fun n => take n p) <$> ns) then Some (Dir now) else None end) as Hall.
  { induction ns as [|n ns IH]; intros d'; cbn [foldl]; [by destruct (d' !! q); rewrite ?decide_False by apply not_elem_of_nil|].
    rewrite IH. cbv zeta. destruct (decide (d' !! take n p = None)) as [Hnone|Hsome].
    - destruct (decide (take n p = q)) as [<-|Hne].
      + rewrite lookup_insert_eq, Hnone, decide_True; [done|]. left.
      + rewrite lookup_insert_ne by done. destruct (d' !! q); [done|]. apply decide_ext. rewrite fmap_cons, elem_of_cons. naive_solver.
    - destruct (d' !! q) eqn:Eq; [done|]. apply decide_ext. rewrite fmap_cons, elem_of_cons. naive_solver. }
  unfold mkdir_at. rewrite Hall. destruct (d !! q); [done|]. apply decide_ext. symmetry. apply take_prefix.
Qed.

(** A disk without files. *)
Definition only_dirs (d : disk C) : Prop := forall q c t, d !! q <> Some (File c t).

Lemma mkdir_only_dirs dir d : only_dirs d ->
  mkdir cwd now dir d = (Ok tt, mkdir_at now (resolve cwd dir) d) /\ only_dirs (mkdir_at now (resolve cwd dir) d).
Proof.
  intros Hd. split.
  - unfold mkdir. cbv zeta. rewrite (proj2 (forallb_forall _ _)); [done|]. intros n _.
    destruct (d !! take n (resolve cwd dir)) as [[c t|t]|] eqn:E; [|done|done]. by destruct (Hd _ _ _ E).
  - intros q c t. rewrite mkdir_at_lookup. destruct (d !! q) eqn:E; [intros [= ->]; by apply Hd in E|]. by destruct (decide _).
Qed.
End Mkdir.

Section CacheFacts.
Context {C : Type} (cwd : path) (now : Z) (params : cache_params).
Hypothesis dir_named : dirPath params <> "".

(** The directory of the cache exists and holds only files. *)
Definition cache_ready (d : disk C) : Prop :=
  (exists t, d !! resolve cwd (dirPath params) = Some (Dir t)) /\
  forall name t, plain_name name = true -> d !! (resolve cwd (dirPath params) ++ [name]) <> Some (Dir t).

Definition stored (d : disk C) (name : string) : option C :=
  match d !! (resolve cwd (dirPath params) ++ [name]) with Some (File c _) => Some c | _ => None end.

Lemma cache_fileExists_stored d name : cache_ready d -> plain_name name = true ->
  cache_fileExists cwd params name d = bool_decide (is_Some (stored d name)).
Proof.
  intros [_ Hf] Hn. unfold cache_fileExists, fileExists, at_path, in_cache, stored. rewrite resolve_entry by done.
  specialize (Hf name). destruct (d !! _) as [[c t|t]|]; [done| |done]. by destruct (Hf t Hn).
Qed.

Lemma cache_read_stored d name c : plain_name name = true -> stored d name = Some c ->
  cache_read cwd params name d = (Ok c, d).
Proof.
  intros Hn Hs. unfold cache_read, in_cache. rewrite entry_in_directory by done.
  unfold read_file, at_path. rewrite resolve_entry by done. unfold stored in Hs.
  destruct (d !! _) as [[? ?|?]|]; by simplify_eq.
Qed.

Lemma cache_write_ok d name c : cache_ready d -> plain_name name = true ->
  exists d', cache_write cwd now params name c d = (Ok tt, d') /\ cache_ready d' /\
    forall m, plain_name m = true -> stored d' m = if decide (m = name) then Some c else stored d m.
Proof.
  intros [[t Hdir] Hf] Hn. unfold cache_write, write_file, in_cache. rewrite resolve_entry by done.
  cbv zeta. set (r := resolve cwd (dirPath params)) in *. rewrite removelast_last.
  rewrite Hdir.
  assert (Hok : forall m, r ++ [m] <> r) by (intros m E%(f_equal length); rewrite length_app in E; simpl in E; lia).
  exists (<[r ++ [name] := File c now]> d). split; [|split].
  - destruct (d !! (r ++ [name])) as [[? ?|t']|] eqn:E; [done| |done]. by destruct (Hf name t' Hn).
  - split; [exists t; by rewrite lookup_insert_ne|]. intros m t' Hm. destruct (decide (m = name)) as [->|Hne].
    + by rewrite lookup_insert_eq.
    + rewrite lookup_insert_ne; [by apply Hf|]. by intros [_ [= <-]]%app_inj_2.
  - intros m Hm. unfold stored. fold r. destruct (decide (m = name)) as [->|Hne]; [by rewrite lookup_insert_eq|].
    rewrite lookup_insert_ne; [done|]. by intros [_ [= <-]]%app_inj_2.
Qed.

Lemma cache_ready_dirs d d' : same_dirs d d' -> cache_ready d -> cache_ready d'.
Proof. intros Hd [[t Hr] Hf]. split; [exists t; by apply Hd|]. intros name t' Hn E. apply Hd in E. by apply (Hf name t'). Qed.
End CacheFacts.

(** ** The object storage

    [export/shared/helpers/s3.js], the driver [s3-minio] behind [objectCacheS3]
    of [csvCache.js].  The client of the store ([minio]) is the interface
    [Minio]; what the lemmas need of it are the laws of [MinioLaws], which an
    in-memory store fulfils. *)
Module ObjectStore.

(** Requests of the client; objects are listed with their time of modification
    in milliseconds. *)
Class Minio (St : Type) := {
  bucketExists : string -> eff St bool;
  makeBucket : string -> eff St unit;
  putObject : string -> string -> string -> eff St unit;
  getObject : string -> string -> eff St string;
  removeObjects : string -> list string -> eff St unit;
  listObjects : string -> eff St (list (string * Z));
  statObject : string -> string -> eff St obj;
}.

Section Driver.
Context {St : Type} `{!Minio St}.
(** The time, in milliseconds *)
Variable now : Z.

(** [AWS_S3_BUCKET_NAME] and the store *)
Record store := mkStore { bucketName : string; remote : St }.
Abbreviation eff_store := (eff store).

Definition request_store {A} (f : string -> eff St A) : eff_store A := fun s =>
  let (r, s') := f (bucketName s) (remote s) in (r, mkStore (bucketName s) s').

Definition createDir : eff_store unit :=
  isExists ← request_store bucketExists;
  if isExists : bool then ret tt else request_store makeBucket.

Definition s3_init (name : string) : eff_store unit :=
  (if String.eqb name "" then ret tt else modify (fun s => mkStore name (remote s))) ≫= fun _ => createDir.

(** Objects are written as JSON, texts as they are; [Buffer.from] takes nothing else. *)
Definition s3_text (content : val) : result (option string) :=
  match content with
  | Object _ | Arr _ | Null => json_stringify content
  | Str s => Ok (Some s)
  | _ => Throw "The first argument must be of type string or an instance of Buffer, ArrayBuffer, or Array or an Array-like Object."
  end.
Definition s3_write (fileName : string) (content : val) : eff_store unit :=
  contentString ← lift (s3_text content);
  request_store (fun bucket => putObject bucket fileName (default "undefined" contentString)).

Definition s3_read (fileName : string) : eff_store val :=
  contentString ← request_store (fun bucket => getObject bucket fileName);
  ret (match json_parse contentString with Ok json => json | Throw _ => Str contentString end).

Definition s3_remove (files : list string) : eff_store unit := request_store (fun bucket => removeObjects bucket files).

Definition s3_list (count page : Z) : eff_store (list string) :=
  chunks ← request_store listObjects;
  ret (fst <$> take (Z.to_nat count) (drop (Z.to_nat page) chunks)).

(** Days of 24 hours *)
Definition filterEligibleFilesForPurging (files : list (string * Z)) (days : Z) : list string :=
  fst <$> filter (fun f => snd f <= now - getDaysInMilliseconds days) files.

Definition s3_purge (days : option Z) : eff_store Z :=
  match days with
  | None => throw "ValidationException: days cannot be undefined"
  | Some days =>
      fileInfoList ← request_store listObjects;
      let eligibleFiles := filterEligibleFilesForPurging fileInfoList days in
      s3_remove eligibleFiles ≫= fun _ => ret (Z.of_nat (length eligibleFiles))
  end.

Definition s3_exists (fileName : string) : eff_store bool :=
  try_catch (_ ← s3_read fileName; ret true) (fun _ => ret false).

(** [stats > 0] of an object is a comparison with [NaN]. *)
Definition object_above_zero (stats : obj) : bool := false.
Definition s3_isFile (filePath : string) : eff_store bool :=
  fileExists ← s3_exists filePath;
  if fileExists : bool then
    try_catch (stats ← request_store (fun bucket => statObject bucket filePath); ret (object_above_zero stats)) (fun _ => ret false)
  else ret false.
End Driver.
Arguments mkStore {St} _ _.
Arguments bucketName {St} _.
Arguments remote {St} _.

(** ** What the driver gives its users *)

(** Objects with their content and time *)
Abbreviation bucket := (gmap string (string * Z)).

(** A store without errors, as its documentation describes it *)
Class MinioLaws {St} `{!Minio St} (objects : St -> string -> option bucket) (now : Z) : Prop := {
  put_stores : forall b name text s m, objects s b = Some m ->
    exists s', putObject b name text s = (Ok tt, s') /\ objects s' b = Some (<[name := (text, now)]> m);
  get_finds : forall b name text t s m, objects s b = Some m -> m !! name = Some (text, t) -> exists s', getObject b name s = (Ok text, s');
  list_all : forall b s m, objects s b = Some m ->
    exists l s', listObjects b s = (Ok l, s') /\ objects s' b = Some m /\
      forall name t, (name, t) ∈ l <-> exists text, m !! name = Some (text, t);
  remove_all : forall b names s m, objects s b = Some m ->
    exists s', removeObjects b names s = (Ok tt, s') /\ objects s' b = Some (foldr delete m names);
}.

Section Spec.
Context {St : Type} `{!Minio St} (objects : St -> string -> option bucket) (now : Z) `{!MinioLaws objects now}.

Definition contents (s : store) : option bucket := objects (remote s) (bucketName s).

(** An object or a list that is written can be read again, as long as JSON keeps
    it. *)
Lemma s3_roundtrip name v s : is_Some (contents s) -> json_kept v -> (exists o, v = Object o) \/ (exists l, v = Arr l) ->
  exists s' s'', s3_write name v s = (Ok tt, s') /\ s3_read name s' = (Ok v, s'').
Proof.
  intros [m Hm] Hv Hk. destruct (json_roundtrip v Hv) as (text & E1 & E2).
  assert (s3_text v = Ok (Some text)) as Ht by (destruct Hk as [[o ->]|[l ->]]; exact E1).
  destruct (put_stores (bucketName s) name text (remote s) m Hm) as (r1 & P1 & O1).
  destruct (get_finds (bucketName s) name text now r1 _ O1 (lookup_insert_eq _ _ _)) as (r2 & G).
  exists (mkStore (bucketName s) r1), (mkStore (bucketName s) r2). unfold s3_write, s3_read, request_store, mbind, eff_bind, lift. rewrite Ht.
  cbn. rewrite P1, G. cbn. by rewrite E2.
Qed.

Lemma foldr_delete_lookup (b : bucket) names k : foldr delete b names !! k = if bool_decide (k ∈ names) then None else b !! k.
Proof.
  induction names as [|n names IH]; cbn; [by rewrite bool_decide_false by apply not_elem_of_nil|].
  destruct (decide (n = k)) as [->|Hn]; [by rewrite lookup_delete_eq, bool_decide_true by set_solver|].
  rewrite lookup_delete_ne, IH by done. by rewrite (bool_decide_ext (k ∈ n :: names) (k ∈ names)) by set_solver.
Qed.

(** A purge removes the objects that are too old, and only those. *)
Lemma s3_purge_exact days s m : contents s = Some m ->
  exists n s' m', s3_purge now (Some days) s = (Ok n, s') /\ contents s' = Some m' /\
    forall k, m' !! k = match m !! k with
                        | Some (text, t) => if bool_decide (t <= now - getDaysInMilliseconds days) then None else Some (text, t)
                        | None => None
                        end.
Proof.
  intros Hm. destruct (list_all (bucketName s) (remote s) m Hm) as (l & r1 & L & O1 & Hl).
  destruct (remove_all (bucketName s) (filterEligibleFilesForPurging now l days) r1 m O1) as (r2 & R & O2).
  eexists _, (mkStore (bucketName s) r2), _. split; [|split; [exact O2|]].
  - unfold s3_purge, s3_remove, request_store, mbind, eff_bind. rewrite L. cbn. rewrite R. done.
  - intros k. rewrite foldr_delete_lookup. unfold filterEligibleFilesForPurging. destruct (m !! k) as [[text t]|] eqn:E; [|by destruct (bool_decide _)].
    rewrite (bool_decide_ext _ (t <= now - getDaysInMilliseconds days)); [done|]. rewrite list_elem_of_fmap. split.
    + intros ([k' t'] & -> & [Ht (text' & Hk)%Hl]%list_elem_of_filter). cbn in *. by simplify_eq.
    + intros Ht. exists (k, t). split; [done|]. apply list_elem_of_filter. split; [done|]. apply Hl. eauto.
Qed.
End Spec.

(** Nothing counts as a file. *)
Lemma s3_isFile_never {St} `{!Minio St} name (s : store) : fst (s3_isFile name s) <> Ok true.
Proof.
  unfold s3_isFile, mbind, eff_bind. destruct (s3_exists name s) as [[[]|e] s1]; cbn; try done.
  unfold try_catch, mbind, eff_bind. destruct (request_store _ s1) as [[o|e] s2]; cbn; [done|].
  by destruct (String.eqb e never_returns).
Qed.

(** *** An in-memory store *)
Section Memory.
Variable now : Z.
Abbreviation memory := (gmap string bucket).

Definition in_bucket {A} (b : string) (f : bucket -> result A * bucket) : eff memory A := fun s =>
  match s !! b with
  | Some m => let (r, m') := f m in (r, <[b := m']> s)
  | None => (Throw "The specified bucket does not exist", s)
  end.

#[local] Instance memory_minio : Minio memory := {|
  bucketExists b := gets (fun s => bool_decide (is_Some (s !! b)));
  makeBucket b := modify (fun s => <[b := (∅ : bucket)]> s);
  putObject b name text := in_bucket b (fun m => (Ok tt, <[name := (text, now)]> m));
  getObject b name := in_bucket b (fun m => (match m !! name with Some (text, _) => Ok text | None => Throw "The specified key does not exist." end, m));
  removeObjects b names := in_bucket b (fun m => (Ok tt, foldr delete m names));
  listObjects b := in_bucket b (fun m => (Ok (prod_map id snd <$> map_to_list m), m));
  statObject b name := in_bucket b (fun m => (match m !! name with Some (text, _) => Ok [("size", Num (Z.of_nat (String.length text)))] | None => Throw "Not Found" end, m));
|}.

Lemma memory_laws : MinioLaws (fun (s : memory) b => s !! b) now.
Proof.
  split; cbn; unfold in_bucket.
  - intros b name text s m ->. eexists. split; [done|]. apply lookup_insert_eq.
  - intros b name text t s m -> ->. by eexists.
  - intros b s m E. rewrite E. eexists _, _. split; [done|]. split; [apply lookup_insert_eq|].
    intros name t. rewrite list_elem_of_fmap. split.
    + intros ([n [text t']] & [= -> ->] & Hin%elem_of_map_to_list). by exists text.
    + intros [text Ht]. exists (name, (text, t)). split; [done|]. by apply elem_of_map_to_list.
  - intros b names s m ->. eexists. split; [done|]. apply lookup_insert_eq.
Qed.

(** The bucket that was opened last is used by all caches. *)
Example caches_share_bucket :
  let s := remote (snd ((s3_init "partials" ≫= fun _ => s3_init "exports" ≫= fun _ => s3_write "day.json" (Arr [])) (mkStore "export" (∅ : memory)))) in
  (fun m : bucket => fst <$> map_to_list m) <$> s !! "partials" = Some [] /\
  (fun m : bucket => fst <$> map_to_list m) <$> s !! "exports" = Some ["day.json"].
Proof. vm_compute. by split. Qed.
End Memory.

End ObjectStore.
