(* ===== verification/Http.v ===== *)
(** * framework/src/http.js: requests over HTTP

    [axios] sends a request: it returns a response or rejects.  Since the code
    may send a request again, the answer depends on the number of the attempt.
    The cache of responses is the state. *)
From S2P Require Import Prelude JsValue RequestAll.
From Stdlib Require Import Ascii.
Local Open Scope Z_scope.

(** What [axios(config)] does: the response, or the error it throws. *)
Inductive axios_outcome :=
| Response (response : obj)
| Rejected (response : option obj) (code : val) (message : string).

Abbreviation http_cache := (gmap string obj).

Section Http.
Variable axios : nat -> obj -> axios_outcome.

Definition HTTP_OK : val := Num 200.

Definition _validateHttpResponse (response : obj) : bool := bool_decide (prop response "status" = HTTP_OK).

Definition performRequest (attempt : nat) (url : string) (params : obj) : obj :=
  match axios attempt (spread [("url", Str url)] params) with
  | Response r => r
  | Rejected (Some r) _ message => spread r [("message", Str message)]
  | Rejected None code message => [("status", code); ("message", Str message)]
  end.

(** [response.status.toString()[0]] *)
Definition status_digit (response : obj) : result string :=
  match prop response "status" with
  | Undef => Throw "Cannot read properties of undefined (reading 'toString')"
  | Null => Throw "Cannot read properties of null (reading 'toString')"
  | v => Ok (String.substring 0 1 (js_String v))
  end.

(** The [do ... while] loop: [retries] counts down after each attempt. *)
Fixpoint request_loop (n attempt : nat) (url : string) (params : obj) : result obj :=
  let response := performRequest attempt url params in
  digit ← status_digit response;
  if bool_decide (digit ∈ ["1"; "2"; "3"]) then Ok response
  else match n with
       | S (S m as n') => request_loop n' (S attempt) url params
       | _ => Ok response
       end.

Definition performRequestUntilSuccess (url : string) (params : obj) : result obj :=
  request_loop (Z.to_nat (number_or (prop params "retries") 0)) 0 url params.

(** [delete o[key]] *)
Definition without (o : obj) (key : string) : obj := filter (fun kv => kv.1 <> key) o.

(** [encodeURI]: the bytes of other characters than these are escaped. *)
Definition uri_chars : string :=
  "ABCDEFGHIJKLMNOPQRSTUVWXYZabcdefghijklmnopqrstuvwxyz0123456789;,/?:@&=+$-_.!~*'()#".
Definition upper_hex (n : nat) : string := default "" ((fun c => String c "") <$> String.get n "0123456789ABCDEF").
Fixpoint encodeURI (s : string) : string :=
  match s with
  | EmptyString => ""
  | String c s =>
      (if has_char c uri_chars then String c ""
       else "%" +:+ upper_hex (nat_of_ascii c / 16) +:+ upper_hex (nat_of_ascii c mod 16)) +:+ encodeURI s
  end.

Definition lower_get (v : val) : bool :=
  bool_decide (v ∈ [Str "get"; Str "GET"; Str "Get"; Str "gEt"; Str "geT"; Str "GEt"; Str "GeT"; Str "gET"]).

Definition cache_key (url : string) (params : obj) : option string :=
  match prop params "cacheTTL" with
  | Num ttl => if 0 <? ttl then Some (encodeURI url +:+ ":ttl=" +:+ string_of_Z ttl) else None
  | _ => None
  end.

Definition request (url : string) (params : obj) : eff http_cache obj :=
  let httpParams := without params "cacheTTL" in
  let httpParams := if truthy (prop httpParams "method") then httpParams else set_prop httpParams "method" (Str "get") in
  let key := if lower_get (prop httpParams "method") then cache_key url params else None in
  cached ← gets (fun c : http_cache => key ≫= fun k => c !! k);
  match cached with
  | Some response => ret response
  | None =>
      httpResponse ← lift (performRequestUntilSuccess url httpParams);
      if _validateHttpResponse httpResponse then
        let response := [("data", prop httpResponse "data"); ("headers", prop httpResponse "headers");
                         ("status", prop httpResponse "status"); ("statusText", prop httpResponse "statusText")] in
        match key with
        | Some k => modify (fun c => <[k := response]> c) ≫= fun _ => ret response
        | None => ret response
        end
      else ret httpResponse
  end.

Definition get_ (url : string) (params : obj) : eff http_cache obj := request url (spread params [("method", Str "get")]).
Definition head_ (url : string) (params : obj) : eff http_cache obj := request url (spread params [("method", Str "head")]).
Definition post_ (url : string) (params : obj) : eff http_cache obj := request url [("data", Object params); ("method", Str "post")].
Definition put_ (url : string) (params : obj) : eff http_cache obj := request url [("data", Object params); ("method", Str "put")].
Definition delete_ (url : string) (params : obj) : eff http_cache obj := request url (spread params [("method", Str "delete")]).
Definition connect_ (url : string) (params : obj) : eff http_cache obj := request url (spread params [("method", Str "connect")]).
Definition options_ (url : string) (params : obj) : eff http_cache obj := request url (spread params [("method", Str "options")]).
Definition trace_ (url : string) (params : obj) : eff http_cache obj := request url (spread params [("method", Str "trace")]).

(** ** Facts *)

(** Nothing but GET is cached. *)
Lemma post_uncached url params c :
  snd (post_ url params c) = c /\ fst (post_ url params c) = fst (post_ url params ∅).
Proof.
  unfold post_, request. cbn [prop without]. set (p := without _ _). change (lower_get (prop _ "method")) with false. cbn iota.
  unfold mbind, eff_bind, gets, lift. cbn. destruct (performRequestUntilSuccess url _) as [r|e]; [|done]. by destruct (_validateHttpResponse r).
Qed.

(** A request without a cache time neither reads nor writes the cache. *)
Lemma get_uncached url params c :
  prop (spread params [("method", Str "get")]) "cacheTTL" = Undef ->
  snd (get_ url params c) = c /\ fst (get_ url params c) = fst (get_ url params ∅).
Proof.
  intros Hn. unfold get_, request. set (p := spread _ _) in *. unfold cache_key. rewrite Hn.
  replace (if lower_get _ then None else None) with (@None string) by (by destruct (lower_get _)).
  cbn -[performRequestUntilSuccess without truthy lower_get].
  unfold mbind, eff_bind, gets, lift, modify. simpl.
  destruct (performRequestUntilSuccess _ _) as [r|e]; [|done]. by destruct (_validateHttpResponse r).
Qed.

Lemma request_loop_again url params n a d :
  status_digit (performRequest a url params) = Ok d -> d ∉ ["1"; "2"; "3"] ->
  request_loop (S (S n)) a url params = request_loop (S n) (S a) url params.
Proof. intros Hd Hn. cbn [request_loop]. by rewrite Hd, bind_ok, bool_decide_eq_false_2. Qed.

(** The answer with the first successful status is returned, and at most as
    many requests are sent as there are retries (at least one). *)
Lemma request_loop_first url params n k r : (k < Nat.max 1 n)%nat ->
  (forall i, (i < k)%nat -> exists d, status_digit (performRequest i url params) = Ok d /\ d ∉ ["1"; "2"; "3"]) ->
  performRequest k url params = r -> (exists d, status_digit r = Ok d /\ d ∈ ["1"; "2"; "3"]) ->
  request_loop n 0 url params = Ok r.
Proof.
  intros Hk Hfail Hr (d & Hd & Hin).
  enough (forall m a, (a + m = k)%nat -> (m < Nat.max 1 (n - a))%nat -> (a < Nat.max 1 n)%nat ->
            request_loop (n - a) a url params = Ok r) as H.
  { rewrite <- (Nat.sub_0_r n) at 1. apply (H k 0%nat); lia. }
  induction m as [|m IH]; intros a Ha Hm Hlt.
  - rewrite Nat.add_0_r in Ha. subst a. destruct (n - k)%nat as [|[|?]]; cbn [request_loop]; rewrite Hr, Hd, bind_ok;
      by rewrite bool_decide_eq_true_2.
  - destruct (Hfail a) as (d' & Hd' & Hnin); [lia|]. destruct (n - a)%nat as [|[|j]] eqn:E; [lia|lia|].
    rewrite (request_loop_again _ _ _ _ _ Hd' Hnin). replace (S j) with (n - S a)%nat by lia. apply IH; lia.
Qed.
End Http.

(** Cached answers are found by the address alone: a request with other
    parameters gets the answer to the first one. *)
Lemma cache_ignores_params :
  let axios := fun (_ : nat) (config : obj) =>
    Response [("status", Num 200); ("data", prop config "params")] in
  let ask n := get_ axios "http://host/api" [("params", Object [("page", Num n)]); ("cacheTTL", Num 1000)] in
  (fun r : result obj => match r with Ok o => prop o "data" | _ => Undef end) (fst ((ask 1 ≫= fun _ => ask 2) ∅))
  = Object [("page", Num 1)].
Proof. by vm_compute. Qed.
