(* ===== verification/Export.v ===== *)
(** * The export service: export/shared/transactionsExport.js and helpers

    A request for the history of an account schedules a job; the job builds a
    workbook out of the blocks, transactions and events of every day of an
    interval and stores it as a file that can be downloaded.  The entries of
    days that are over are kept in partial files. *)
From S2P Require Import Prelude JsValue Chain RequestAll Regex Files Http.
From Stdlib Require Import Ascii.
Local Open Scope Z_scope.

(** ** helpers/constants.js and config.js *)
Definition MODULE_TOKEN : val := Str "token".
Definition MODULE_LEGACY : val := Str "legacy".
Definition MODULE_POS : val := Str "pos".
Definition MODULE_FEE : val := Str "fee".
Definition MODULE_INTEROPERABILITY : val := Str "interoperability".
Definition TRANSFER : val := Str "token:transfer".
Definition TRANSFER_CROSS_CHAIN : val := Str "token:transferCrossChain".
Definition LENGTH_DEFAULT_TOPIC : nat := 2.
Definition CCM_TRANSFER_SUCCESSFUL : val := Num 0.
Definition baseURL : string := "/api/v3/export/download".
Definition partials : cache_params := CacheParams "filesystem" "./data/partials" 30.
Definition staticFiles : cache_params := CacheParams "filesystem" "./data/static" 30.

(** ** What the service talks to *)

(** The other services ([helpers/request.js]), HTTP and the cryptography package. *)
Class ExportApi := {
  requestIndexer : string -> obj -> result val;
  requestConnector : string -> obj -> result val;
  requestAppRegistry : string -> obj -> result val;
  axios : nat -> obj -> axios_outcome;
  (** [getKlayr32AddressFromPublicKey(Buffer.from(publicKey, 'hex'))] *)
  address_of_key : val -> result val;
}.

(** The dates of [moment] and [moment-range], in the format [YYYY-MM-DD]. *)
Class Calendar := {
  (** [getToday()] *)
  today : string;
  (** [getToday()] when the history of a day has been queried, which may be
      after midnight *)
  today_after : string -> string;
  (** [dateFromTimestamp], [timeFromTimestamp] *)
  utc_date : val -> string;
  utc_time : val -> string;
  (** [moment(timestamp * 1000).format(DATE_FORMAT)] *)
  local_date : val -> string;
  (** [moment(to).diff(moment(from)) < 0] *)
  date_before : string -> string -> bool;
  (** [Array.from(moment.range(from, to).by('day'))] *)
  days_of : string -> string -> list string;
  (** [startOf('day').unix()], [endOf('day').unix()] *)
  day_start : string -> Z;
  day_end : string -> Z;
  (** [endOf('day') <= moment(timestamp * 1000)] *)
  ends_by : string -> val -> bool;
}.

(** ** The workbook *)
Record entry := Entry {
  e_date : val; e_time : val; e_blockHeight : val; e_transactionID : val; e_moduleCommand : val;
  e_fee : val; e_txFeeTokenID : val; e_amount : val; e_amountTokenID : val;
  e_senderAddress : val; e_senderPublicKey : val; e_recipientAddress : val; e_recipientPublicKey : val;
  e_note : val; e_sendingChainID : val; e_receivingChainID : val }.

#[export] Instance entry_eq_dec : EqDecision entry.
Proof. solve_decision. Defined.

(** [excelFieldMappings.js]: the headers and, for an entry, the cells below them. *)
Definition transactionMappings : list (string * (entry -> val)) :=
  [("Date", e_date); ("Time", e_time); ("Block Height", e_blockHeight); ("Transaction ID", e_transactionID);
   ("Module:Command", e_moduleCommand); ("Transaction Fee", e_fee); ("Transaction Fee Token ID", e_txFeeTokenID);
   ("Amount", e_amount); ("Amount Token ID", e_amountTokenID); ("Sender Address", e_senderAddress);
   ("Sender Public Key", e_senderPublicKey); ("Recipient Address", e_recipientAddress);
   ("Recipient Public Key", e_recipientPublicKey); ("Note", e_note); ("Sending Chain ID", e_sendingChainID);
   ("Receiving Chain ID", e_receivingChainID)].

Definition metadataMappings : list (string * string) :=
  [("Chain ID", "chainID"); ("Chain Name", "chainName"); ("Note", "note");
   ("v4 Opening Balance", "openingBalanceAmount"); ("Token ID", "tokenID")].

Record sheet := Sheet { sheet_name : string; headers : list string; rows : list (list val) }.

Definition history_sheet (l : list entry) : sheet :=
  Sheet "Transaction History" (fst <$> transactionMappings) ((fun e => (fun m => snd m e) <$> transactionMappings) <$> l).
Definition metadata_sheet (l : list obj) : sheet :=
  Sheet "Metadata" (fst <$> metadataMappings) ((fun o => (fun m => prop o (snd m)) <$> metadataMappings) <$> l).

(** What the files of the service hold. *)
Inductive content :=
| Json (l : list entry)
| Xlsx (book : list sheet).

(** A job of the queue, and the state of the service. *)
Record job := Job { j_params : obj; j_isRescheduled : bool; j_attemptsMade : Z; j_attempts : Z }.

Record exporter := Exporter {
  publicKeyCache : gmap string val;
  noHistoryCache : gset string;
  jobScheduledCache : gset string;
  files : disk content;
  queue : list (obj * bool);
  (** jobs that will be given to the queue again when their time is over *)
  timeouts : list obj;
  tokenModuleData : option (list val);
  loadingAssets : bool }.

Definition set_keys (f : gmap string val -> gmap string val) (s : exporter) : exporter :=
  Exporter (f (publicKeyCache s)) (noHistoryCache s) (jobScheduledCache s) (files s) (queue s) (timeouts s) (tokenModuleData s) (loadingAssets s).
Definition set_noHistory (f : gset string -> gset string) (s : exporter) : exporter :=
  Exporter (publicKeyCache s) (f (noHistoryCache s)) (jobScheduledCache s) (files s) (queue s) (timeouts s) (tokenModuleData s) (loadingAssets s).
Definition set_scheduled (f : gset string -> gset string) (s : exporter) : exporter :=
  Exporter (publicKeyCache s) (noHistoryCache s) (f (jobScheduledCache s)) (files s) (queue s) (timeouts s) (tokenModuleData s) (loadingAssets s).
Definition set_files (d : disk content) (s : exporter) : exporter :=
  Exporter (publicKeyCache s) (noHistoryCache s) (jobScheduledCache s) d (queue s) (timeouts s) (tokenModuleData s) (loadingAssets s).
Definition set_queue (f : list (obj * bool) -> list (obj * bool)) (s : exporter) : exporter :=
  Exporter (publicKeyCache s) (noHistoryCache s) (jobScheduledCache s) (files s) (f (queue s)) (timeouts s) (tokenModuleData s) (loadingAssets s).
Definition set_timeouts (f : list obj -> list obj) (s : exporter) : exporter :=
  Exporter (publicKeyCache s) (noHistoryCache s) (jobScheduledCache s) (files s) (queue s) (f (timeouts s)) (tokenModuleData s) (loadingAssets s).
Definition set_genesis (data : option (list val)) (loading : bool) (s : exporter) : exporter :=
  Exporter (publicKeyCache s) (noHistoryCache s) (jobScheduledCache s) (files s) (queue s) (timeouts s) data loading.

(** A file operation of the service. *)
Definition on_files {A} (m : eff (disk content) A) : eff exporter A := fun s =>
  let '(r, d) := m (files s) in (r, set_files d s).

(** ** Exceptions

    The code tells exceptions apart by their class; a message starts with the
    class when the code throws one of its own. *)
Definition ValidationException (message : string) : string := "ValidationException: " +:+ message.
Definition NotFoundException (message : string) : string := "NotFoundException: " +:+ message.
Definition is_exception (class e : string) : bool := String.prefix (class +:+ ": ") e.
(** [s.slice(n)] *)
Fixpoint str_drop (n : nat) (s : string) : string :=
  match n, s with S n, String _ s => str_drop n s | _, _ => s end.
(** [err.message] *)
Definition message_of (e : string) : string :=
  if is_exception "ValidationException" e then str_drop 21 e
  else if is_exception "NotFoundException" e then str_drop 19 e
  else e.

(** [a || b] *)
Definition js_or (a b : val) : val := if truthy a then a else b.
(** [(sign * BigInt(v)).toString()] *)
Definition signed (sign : Z) (v : val) : result val := z ← js_BigInt v; Ok (Str (string_of_Z (sign * z))).
(** [o[i]] of an array. *)
Definition nth_val (l : list val) (i : nat) : val := default Undef (l !! i).
(** [const [x] = v] *)
Definition first_of (v : val) : result val := l ← elements v; Ok (nth_val l 0).
(** [v.a.b] *)
Definition get2 (v : val) (a b : string) : result val := x ← get v a; get x b.
(** [v && v.a && v.a.b] *)
Definition opt_path (v : val) (keys : list string) : result val :=
  foldM (fun x k => if truthy x then get x k else Ok x) v keys.

Section Exporter.
Context `{ExportApi} `{Calendar}.
(** The working directory and the clock of the process. *)
Variable cwd : path.
Variable now : Z.

(** ** helpers/transaction.js *)
Definition normalizeTransactionAmount (address : val) (tx currentChainID : val) : result val :=
  moduleCommand ← get tx "moduleCommand";
  executionStatus ← get tx "executionStatus";
  if negb (bool_decide (moduleCommand ∈ [TRANSFER; TRANSFER_CROSS_CHAIN])) || negb (bool_decide (executionStatus = Str "successful"))
  then Ok Null
  else
    params ← get tx "params";
    a ← get params "amount";
    amount ← js_BigInt a;
    receivingChainID ← get params "receivingChainID";
    if bool_decide (moduleCommand = TRANSFER_CROSS_CHAIN)
    then Ok (Str (string_of_Z ((if bool_decide (receivingChainID = currentChainID) then 1 else -1) * amount)))
    else
      recipientAddress ← get params "recipientAddress";
      senderAddress ← get2 tx "sender" "address";
      isSelfTokenTransferCredit ← get tx "isSelfTokenTransferCredit";
      isIncoming ← get tx "isIncomingCrossChainTransferTransaction";
      let isRecipient := bool_decide (address = recipientAddress) in
      let isSelfTransfer := bool_decide (senderAddress = recipientAddress) in
      let credit := (isRecipient && negb isSelfTransfer)
                    || (isRecipient && isSelfTransfer && truthy isSelfTokenTransferCredit) || truthy isIncoming in
      Ok (Str (string_of_Z ((if credit then 1 else -1) * amount))).

Definition normalizeTransactionFee (addressFromParams tx : val) : result val :=
  fee ← get tx "fee";
  txFee ← signed (-1) fee;
  moduleCommand ← get tx "moduleCommand";
  if negb (bool_decide (moduleCommand = TRANSFER)) then Ok txFee
  else
    isIncoming ← get tx "isIncomingCrossChainTransferTransaction";
    recipientAddress ← get2 tx "params" "recipientAddress";
    Ok (if bool_decide (addressFromParams = recipientAddress) || truthy isIncoming then Str "0" else txFee).

Definition normalizeMessageFee (tx : val) : result val :=
  messageFee ← get2 tx "params" "messageFee"; signed (-1) messageFee.

Definition checkIfSelfTokenTransfer (tx : val) : result bool :=
  moduleCommand ← get tx "moduleCommand";
  if bool_decide (moduleCommand = TRANSFER) then
    senderAddress ← get2 tx "sender" "address";
    recipientAddress ← get2 tx "params" "recipientAddress";
    Ok (bool_decide (senderAddress = recipientAddress))
  else Ok false.

(** ** helpers/event.js *)
Definition id_of_topic (prefix : string) (topic0 : val) : result val :=
  match topic0 with
  | Str t => Ok (if String.prefix prefix t && Nat.eqb (String.length t) (String.length prefix + LENGTH_ID)
                 then Str (String.substring (String.length prefix) LENGTH_ID t) else Null)
  | Undef => Throw "Cannot read properties of undefined (reading 'startsWith')"
  | Null => Throw "Cannot read properties of null (reading 'startsWith')"
  | _ => Throw "topic0.startsWith is not a function"
  end.
Definition getTransactionIDFromTopic0 : val -> result val := id_of_topic TX_ID.
Definition getCcmIDFromTopic0 : val -> result val := id_of_topic CCM_ID.

(** [e.topics[i]] *)
Definition topic (e : val) (i : nat) : result val :=
  ts ← get e "topics";
  match ts with
  | Arr l => Ok (nth_val l i)
  | Undef => Throw "Cannot read properties of undefined (reading '0')"
  | Null => Throw "Cannot read properties of null (reading '0')"
  | _ => Ok Undef
  end.

(** ** helpers/array.js *)
Fixpoint drop_seen (seen l : list entry) : list entry :=
  match l with
  | [] => []
  | e :: l => if decide (e ∈ seen) then drop_seen seen l else e :: drop_seen (seen ++ [e]) l
  end.
Definition dropDuplicatesDeep (l : list entry) : list entry := drop_seen [] l.

(** ** helpers/chain.js *)
Definition getNetworkStatus : result val := requestIndexer "network.status" [].
Definition export_getCurrentChainID : result val := status ← getNetworkStatus; get2 status "data" "chainID".

Definition resolveReceivingChainID (tx currentChainID : val) : result val :=
  moduleCommand ← get tx "moduleCommand";
  if bool_decide (moduleCommand = TRANSFER_CROSS_CHAIN) then get2 tx "params" "receivingChainID" else Ok currentChainID.

Definition resolveChainIDs (tx currentChainID : val) : result (val * val) :=
  moduleCommand ← get tx "moduleCommand";
  isIncoming ← get tx "isIncomingCrossChainTransferTransaction";
  if bool_decide (moduleCommand ∈ [TRANSFER; TRANSFER_CROSS_CHAIN]) || truthy isIncoming then
    sendingChainID ← get tx "sendingChainID";
    receivingChainID ← resolveReceivingChainID tx currentChainID;
    Ok (js_or sendingChainID currentChainID, receivingChainID)
  else Ok (currentChainID, currentChainID).

(** [chainIDs.add(id)] on a set in order of insertion. *)
Definition add_chain (ids : list val) (id : val) : list val :=
  if truthy id && negb (bool_decide (id ∈ ids)) then ids ++ [id] else ids.
Definition getUniqueChainIDs (txs : list entry) : list val :=
  foldl (fun ids tx => add_chain (add_chain ids (e_sendingChainID tx)) (e_receivingChainID tx)) [] txs.

Definition getBlocks (params : obj) : result val := requestIndexer "blocks" params.
Definition getTransactions (params : obj) : result val := requestIndexer "transactions" params.
Definition getEvents (params : obj) : result val :=
  requestIndexer "events" (spread [("sort", Str "height:asc"); ("order", Str "index:asc")] params).

(** [requestAllStandard] of [helpers/requestAll.js] *)
Definition requestAllStandard (fn : obj -> result val) (params : obj) (limit : val) : result (list val) :=
  let defaultMaxAmount := number_or limit 1000 in
  let oneRequestLimit := number_or (prop params "limit") 100 in
  firstRequest ← fn (page_params params oneRequestLimit 0);
  data ← get firstRequest "data";
  error ← get data "error";
  notFound ← match error with
             | Str e => Ok (negb (String.eqb e "") && str_includes "Not found" e)
             | _ => if truthy error then Throw "data.error.includes is not a function" else Ok false
             end;
  if notFound : bool then Ok []
  else
    meta ← get firstRequest "meta";
    total ← get meta "total";
    let maxAmount := match total with
                     | Num t => if (t =? 0) || (defaultMaxAmount <? t) then defaultMaxAmount else t
                     | _ => defaultMaxAmount
                     end in
    l ← elements data;
    if oneRequestLimit <? maxAmount
    then request_data_pages fn params oneRequestLimit (Z.to_nat (ceil_div maxAmount oneRequestLimit - 1)) 1 l
    else Ok l.

(** [(await request).meta.total] *)
Definition total_of (response : result val) : result val := r ← response; get2 r "meta" "total".

(** [getAddressFromParams] *)
Definition getAddressFromParams (params : obj) : result val :=
  if truthy (prop params "address") then Ok (prop params "address") else address_of_key (prop params "publicKey").

Definition getAllBlocksInAsc (params : obj) : result (list val) :=
  totalBlocks ← total_of (getBlocks [("generatorAddress", prop params "address"); ("timestamp", prop params "timestamp"); ("limit", Num 1)]);
  generatorAddress ← getAddressFromParams params;
  requestAllStandard getBlocks
    [("generatorAddress", generatorAddress); ("timestamp", prop params "timestamp"); ("sort", Str "height:asc")] totalBlocks.

Definition getAllTransactionsInAsc (params : obj) : result (list val) :=
  totalTransactions ← total_of (getTransactions [("address", prop params "address"); ("timestamp", prop params "timestamp"); ("limit", Num 1)]);
  address ← getAddressFromParams params;
  requestAllStandard getTransactions
    [("address", address); ("timestamp", prop params "timestamp"); ("sort", Str "height:asc"); ("order", Str "index:asc")]
    totalTransactions.

Definition getAllEventsInAsc (params : obj) : result (list val) :=
  totalEvents ← total_of (getEvents (spread params [("limit", Num 1)]));
  requestAllStandard getEvents params totalEvents.

Definition getFeeTokenID : result val := requestConnector "getFeeTokenID" [].
Definition export_getPosTokenID : result val := c ← requestConnector "getPosConstants" []; get c "posTokenID".

(** ** helpers/account.js *)
Definition cachePublicKey (publicKey : val) : eff exporter unit :=
  match address_of_key publicKey with
  | Ok (Str a) => modify (set_keys (fun c => <[a := publicKey]> c))
  | _ => ret tt
  end.

Definition getPublicKeyByAddress (address : val) : eff exporter val :=
  gets (fun s => match address with Str a => js_or (default Null (publicKeyCache s !! a)) Null | _ => Null end).

Definition checkIfAccountExists (address : val) : result bool :=
  response ← requestIndexer "token.account.exists" [("address", address)];
  isExists ← get2 response "data" "isExists"; Ok (truthy isExists).

(** [!!response.data.length] *)
Definition has_data (response : val) : result bool :=
  data ← get response "data";
  match data with
  | Arr l => Ok (negb (Nat.eqb (length l) 0))
  | Str s => Ok (negb (Nat.eqb (String.length s) 0))
  | _ => n ← get data "length"; Ok (truthy n)
  end.

Definition checkIfAccountHasTransactions (address : val) : result bool :=
  response ← requestIndexer "transactions" [("address", address); ("limit", Num 1)]; has_data response.

Definition checkIfAccountIsValidator (address : val) : result bool :=
  response ← requestIndexer "pos.validators" [("address", address); ("sort", Str "commission:asc")]; has_data response.

(** The genesis balances are loaded in the background: the first call starts
    it, and [genesis_assets_loaded] is what happens when it ends. *)
Definition getTokenBalancesAtGenesis : eff exporter (option (list val)) := fun s =>
  match tokenModuleData s with
  | None => (Ok None, set_genesis None true s)
  | Some l => (Ok (Some l), s)
  end.

Definition fetch_genesis_balances : result (list val) :=
  lengths ← requestConnector "getGenesisAssetsLength" [("module", MODULE_TOKEN); ("subStore", Str "userSubstore")];
  totalUsers ← get2 lengths "token" "userSubstore";
  response ← requestAll (requestConnector "getGenesisAssetByModule")
               [("module", MODULE_TOKEN); ("subStore", Str "userSubstore"); ("limit", Num 1000)]
               (match totalUsers with Num n => Some n | _ => None end);
  users ← get response "userSubstore"; elements users.

Definition genesis_assets_loaded : eff exporter unit := fun s =>
  match fetch_genesis_balances with
  | Ok l => (Ok tt, set_genesis (Some l) false s)
  | Throw _ => (Ok tt, set_genesis (tokenModuleData s) false s)
  end.

Definition opening_balance (e : val) : result (val * val) :=
  tokenID ← get e "tokenID";
  availableBalance ← get e "availableBalance";
  locked ← get e "lockedBalances";
  lockedBalances ← elements locked;
  totalLockedBalance ← foldM (fun total balInfo => a ← get balInfo "amount"; z ← js_BigInt a; Ok (total + z)) 0 lockedBalances;
  available ← js_BigInt availableBalance;
  Ok (tokenID, Str (string_of_Z (available + totalLockedBalance))).

Definition getOpeningBalances (address : val) : eff exporter (list (val * val)) :=
  balancesAtGenesis ← getTokenBalancesAtGenesis;
  balancesByAddress ← lift match balancesAtGenesis with
    | Some l => js_filter (fun e => prop_is e "address" address) l
    | None => l ← requestConnector "getTokenBalancesAtGenesis" [("address", address)]; elements l
    end;
  lift (mapM_result opening_balance balancesByAddress).

(** ** helpers/time.js and helpers/ready.js *)
Definition getDefaultStartDate : result string :=
  status ← getNetworkStatus;
  genesisHeight ← get2 status "data" "genesisHeight";
  response ← getBlocks [("height", genesisHeight)];
  data ← get response "data"; block ← first_of data;
  timestamp ← get block "timestamp"; Ok (local_date timestamp).

Definition standardizeIntervalFromParams (params : obj) : result string :=
  let interval := prop params "interval" in
  match interval with
  | Str s =>
      if String.eqb s "" then from ← getDefaultStartDate; Ok (from +:+ ":" +:+ today)
      else if has_char ":" s then
        let from := default "" (split_on ":" s !! 0%nat) in
        let to := default "" (split_on ":" s !! 1%nat) in
        if date_before to from then Throw (ValidationException ("Invalid interval supplied: " +:+ s +:+ "."))
        else Ok (from +:+ ":" +:+ to)
      else Ok (s +:+ ":" +:+ today)
  | _ =>
      if truthy interval then Throw "interval.includes is not a function"
      else from ← getDefaultStartDate; Ok (from +:+ ":" +:+ today)
  end.

(** [checkIfIndexReadyForInterval]; [indexStatus] is what [getIndexStatus]
    returns, and any error counts as not ready. *)
Definition index_ready (interval : string) : result bool :=
  r ← requestIndexer "index.status" [];
  indexStatus ← get r "data";
  percentageIndexed ← get indexStatus "percentageIndexed";
  if bool_decide (percentageIndexed = Num 100) then Ok true
  else
    let toDate := default "" (split_on ":" interval !! 1%nat) in
    early ← (if date_before toDate today then
               h ← get indexStatus "lastIndexedBlockHeight";
               response ← getBlocks [("height", h)];
               data ← get response "data"; lastIndexedBlock ← first_of data;
               t ← get lastIndexedBlock "timestamp"; Ok (ends_by toDate t)
             else Ok false);
    if early : bool then Ok true
    else
      chainLength ← get indexStatus "chainLength";
      numBlocksIndexed ← get indexStatus "numBlocksIndexed";
      match chainLength, numBlocksIndexed with
      | Num a, Num b => Ok (a - b <=? 10)
      | _, _ => Ok false
      end.

Definition checkIfIndexReadyForInterval (interval : string) : bool :=
  match index_ready interval with Ok b => b | Throw _ => false end.

(** ** helpers/file.js *)
Definition getPartialFilenameFromParams (params : obj) (day : string) : result string :=
  address ← getAddressFromParams params; Ok (js_String address +:+ "_" +:+ day +:+ ".json").

Definition getExcelFilenameFromParams (params : obj) (chainID : val) : result string :=
  address ← getAddressFromParams params;
  interval ← standardizeIntervalFromParams params;
  let from := default "undefined" (split_on ":" interval !! 0%nat) in
  let to := default "undefined" (split_on ":" interval !! 1%nat) in
  Ok ("transactions_" +:+ js_String chainID +:+ "_" +:+ js_String address +:+ "_" +:+ from +:+ "_" +:+ to +:+ ".xlsx").

Definition getExcelFileUrlFromParams (params : obj) (chainID : val) : result string :=
  filename ← getExcelFilenameFromParams params chainID; Ok (baseURL +:+ "?filename=" +:+ filename).

(** ** transactionsExport.js: the entries of the history *)

(** [dateFromTimestamp(block.timestamp)], [timeFromTimestamp(block.timestamp)] *)
Definition block_time (block : val) : result (val * val) :=
  t ← get block "timestamp"; Ok (Str (utc_date t), Str (utc_time t)).

Definition formatBlocks (blocks : list val) : result (list obj) :=
  mapM_result (fun block =>
    '(date, time) ← block_time block;
    height ← get block "height"; reward ← get block "reward";
    Ok [("blockHeight", height); ("date", date); ("time", time); ("blockReward", reward)]) blocks.

Definition getBlockchainAppsMeta (chainID : val) : result val :=
  match (r ← requestAppRegistry "blockchain.apps.meta" [("chainID", chainID)];
         data ← get r "data"; appMetadata ← first_of data;
         Ok (if decide (appMetadata = Undef) then Object [] else appMetadata)) with
  | Ok appMetadata => Ok appMetadata
  | Throw _ =>
      serviceURL ← requestIndexer "resolveMainchainServiceURL" [];
      response ← fst (get_ axios (js_String serviceURL +:+ "/api/v3/blockchain/apps/meta") [("chainID", chainID)] ∅);
      Ok (prop response "data")
  end.

Definition getChainInfo (chainID : val) : result obj :=
  meta ← getBlockchainAppsMeta chainID;
  chainName ← get meta "chainName";
  Ok [("chainID", chainID); ("chainName", chainName)].

Definition metadata_entry (chainInfo : obj) (currentChainID amount tokenID : val) : obj :=
  spread chainInfo [("note", Str ("Current Chain ID: " +:+ js_String currentChainID));
                    ("openingBalanceAmount", amount); ("tokenID", tokenID)].

Definition getMetadataEntries (params : obj) (chainID currentChainID : val) : eff exporter (list obj) :=
  chainInfo ← lift (getChainInfo chainID);
  metadataEntries ←
    (if bool_decide (chainID = currentChainID) then
       openingBalances ← getOpeningBalances (prop params "address");
       ret ((fun e => metadata_entry chainInfo currentChainID (snd e) (fst e)) <$> openingBalances)
     else ret []);
  ret (match metadataEntries with
       | [] => [metadata_entry chainInfo currentChainID Null Null]
       | _ => metadataEntries
       end).

(** [if (publicKey) cachePublicKey(publicKey)] *)
Definition cache_if_truthy (publicKey : val) : eff exporter unit :=
  if truthy publicKey then cachePublicKey publicKey else ret tt.

Definition formatTransaction (addressFromParams tx currentChainID txFeeTokenID : val) : eff exporter entry :=
  moduleCommand ← lift (get tx "moduleCommand");
  senderPublicKey ← lift (get tx "senderPublicKey");
  block ← lift (get tx "block");
  '(date, time) ← lift (block_time block);
  amount ← lift (normalizeTransactionAmount addressFromParams tx currentChainID);
  fee ← lift (normalizeTransactionFee addressFromParams tx);
  params ← lift (get tx "params");
  amountTokenID ← lift (get params "tokenID");
  senderAddress ← lift (get2 tx "sender" "address");
  recipient ← lift (get params "recipientAddress");
  let recipientAddress := js_or recipient Null in
  metaKey ← lift (opt_path tx ["meta"; "recipient"; "publicKey"]);
  recipientPublicKey ← (if truthy metaKey then ret metaKey else getPublicKeyByAddress recipientAddress);
  blockHeight ← lift (get block "height");
  data ← lift (get params "data");
  transactionID ← lift (get tx "id");
  '(sendingChainID, receivingChainID) ← lift (resolveChainIDs tx currentChainID);
  cache_if_truthy senderPublicKey ≫= fun _ =>
  cache_if_truthy recipientPublicKey ≫= fun _ =>
  ret (Entry date time blockHeight transactionID moduleCommand fee txFeeTokenID amount amountTokenID
         senderAddress senderPublicKey recipientAddress recipientPublicKey (js_or data Null) sendingChainID receivingChainID).

Definition getGeneratorFeeEntries (addressFromParams genFeeEvent tx block : val) : eff exporter (list entry) :=
  senderPublicKey ← lift (get2 tx "sender" "publicKey");
  cachePublicKey senderPublicKey ≫= fun _ =>
  data ← lift (get genFeeEvent "data");
  senderAddress ← lift (get data "senderAddress");
  generatorAddress ← lift (get data "generatorAddress");
  if negb (bool_decide (generatorAddress = addressFromParams)) then ret []
  else
    a ← lift (get data "generatorAmount");
    generatorAmount ← lift (js_BigInt a);
    if generatorAmount =? 0 then ret []
    else
      '(date, time) ← lift (block_time block);
      height ← lift (get block "height");
      id ← lift (get tx "id");
      feeTokenID ← lift getFeeTokenID;
      key ← getPublicKeyByAddress generatorAddress;
      chainID ← lift export_getCurrentChainID;
      ret [Entry date time height id Null Null Null (Str (string_of_Z generatorAmount)) feeTokenID
             senderAddress senderPublicKey generatorAddress key (Str "Generator Fee") chainID chainID].

Definition getOutgoingTransferCCEntries (addressFromParams transferCrossChainEvent : val)
    (ccmSendSuccessEvent : option val) (tx block : val) : eff exporter (list entry) :=
  currentChainID ← lift export_getCurrentChainID;
  senderPublicKey ← lift (get2 tx "sender" "publicKey");
  recipientPublicKey ← lift (opt_path tx ["meta"; "recipient"; "publicKey"]);
  cache_if_truthy senderPublicKey ≫= fun _ =>
  cache_if_truthy recipientPublicKey ≫= fun _ =>
  '(date, time) ← lift (block_time block);
  height ← lift (get block "height");
  id ← lift (get tx "id");
  moduleCommand ← lift (get tx "moduleCommand");
  fee ← lift (normalizeTransactionFee addressFromParams tx);
  feeTokenID ← lift getFeeTokenID;
  amount ← lift (normalizeTransactionAmount addressFromParams tx currentChainID);
  params ← lift (get tx "params");
  tokenID ← lift (get params "tokenID");
  recipientAddress ← lift (get params "recipientAddress");
  key ← (if truthy recipientPublicKey then ret recipientPublicKey else getPublicKeyByAddress recipientAddress);
  note ← lift (get params "data");
  receivingChainID ← lift (get2 transferCrossChainEvent "data" "receivingChainID");
  let transfer := Entry date time height id moduleCommand fee feeTokenID amount tokenID
                    addressFromParams senderPublicKey recipientAddress key note currentChainID receivingChainID in
  match ccmSendSuccessEvent with
  | None => ret [transfer]
  | Some e =>
      messageFee ← lift (normalizeMessageFee tx);
      messageFeeTokenID ← lift (get params "messageFeeTokenID");
      senderAddress ← lift (get2 tx "sender" "address");
      data ← lift (get e "data");
      ccmChainID ← lift (get2 data "ccm" "receivingChainID");
      ret [transfer; Entry date time height id Null Null Null messageFee messageFeeTokenID senderAddress senderPublicKey
                       Null Null (Str "Message Fee") currentChainID ccmChainID]
  end.

Definition getIncomingTransferCCEntries (addressFromParams ccmTransferEvent tx block : val) : eff exporter (list entry) :=
  data ← lift (get ccmTransferEvent "data");
  result ← lift (get data "result");
  if negb (bool_decide (result = CCM_TRANSFER_SUCCESSFUL)) then ret []
  else
    '(date, time) ← lift (block_time block);
    height ← lift (get block "height");
    id ← lift (get tx "id");
    amount ← lift (get data "amount");
    tokenID ← lift (get data "tokenID");
    senderAddress ← lift (get data "senderAddress");
    senderKey ← getPublicKeyByAddress senderAddress;
    recipientKey ← getPublicKeyByAddress addressFromParams;
    sendingChainID ← lift (get2 tx "params" "sendingChainID");
    receivingChainID ← lift (get data "receivingChainID");
    ret [Entry date time height id Null Null Null amount tokenID senderAddress senderKey addressFromParams recipientKey
           (Str "Incoming CCM from specified CCU transactionID") sendingChainID receivingChainID].

Definition getMessageFeeEntries (addressFromParams relayerFeeProcessedEvent tx block
    messageFeeTokenID sendingChainID receivingChainID : val) : eff exporter (list entry) :=
  a ← lift (get2 relayerFeeProcessedEvent "data" "relayerAmount");
  relayerAmount ← lift (js_BigInt a);
  if relayerAmount =? 0 then ret []
  else
    '(date, time) ← lift (block_time block);
    height ← lift (get block "height");
    id ← lift (get tx "id");
    moduleCommand ← lift (get tx "moduleCommand");
    key ← getPublicKeyByAddress addressFromParams;
    ret [Entry date time height id moduleCommand Null Null (Str (string_of_Z relayerAmount)) messageFeeTokenID
           Null Null addressFromParams key (Str "Message fee for relayer") sendingChainID receivingChainID].

Definition getLegacyAccountReclaimEntries (addressFromParams accountReclaimedEvent tx block : val) : eff exporter (list entry) :=
  '(date, time) ← lift (block_time block);
  height ← lift (get block "height");
  id ← lift (get tx "id");
  amount ← lift (get2 accountReclaimedEvent "data" "amount");
  feeTokenID ← lift getFeeTokenID;
  key ← getPublicKeyByAddress addressFromParams;
  chainID ← lift export_getCurrentChainID;
  ret [Entry date time height id Null Null Null amount feeTokenID Null Null addressFromParams key
         (Str "Legacy account balance reclaimed") chainID chainID].

Definition getPomEntries (addressFromParams tokenTransferEvent validatorPunishedEvent tx block : val) : eff exporter (list entry) :=
  punished ← lift (get2 validatorPunishedEvent "data" "address");
  let isPunishedValidator := bool_decide (addressFromParams = punished) in
  '(date, time) ← lift (block_time block);
  height ← lift (get block "height");
  id ← lift (get tx "id");
  data ← lift (get tokenTransferEvent "data");
  a ← lift (get data "amount");
  amount ← lift (signed (if isPunishedValidator then -1 else 1) a);
  posTokenID ← lift export_getPosTokenID;
  senderAddress ← lift (get data "senderAddress");
  senderKey ← getPublicKeyByAddress senderAddress;
  recipientAddress ← lift (get data "recipientAddress");
  recipientKey ← getPublicKeyByAddress recipientAddress;
  chainID ← lift export_getCurrentChainID;
  ret [Entry date time height id Null Null Null amount posTokenID senderAddress senderKey recipientAddress recipientKey
         (Str (if isPunishedValidator then "PoM punishment validator reward deduction" else "PoM successful report reward"))
         chainID chainID].

Definition getSharedRewardsAssignedEntries (addressFromParams rewardsAssignedEvent tx block : val) : eff exporter (list entry) :=
  recipientPublicKey ← lift (get2 tx "sender" "publicKey");
  cache_if_truthy recipientPublicKey ≫= fun _ =>
  data ← lift (get rewardsAssignedEvent "data");
  stakerAddress ← lift (get data "stakerAddress");
  let isStaker := bool_decide (addressFromParams = stakerAddress) in
  '(date, time) ← lift (block_time block);
  height ← lift (get block "height");
  id ← lift (get tx "id");
  a ← lift (get data "amount");
  amount ← lift (signed (if isStaker then 1 else -1) a);
  posTokenID ← lift export_getPosTokenID;
  validatorAddress ← lift (get data "validatorAddress");
  senderKey ← getPublicKeyByAddress validatorAddress;
  chainID ← lift export_getCurrentChainID;
  ret [Entry date time height id Null Null Null amount posTokenID validatorAddress senderKey stakerAddress recipientPublicKey
         (Str "Custodial shared rewards transfer to the staker") chainID chainID].

Definition getBlockRewardEntries (addressFromParams tokenMintedEvent : val) (tokenLockedEvent : option val) (block : val)
    : eff exporter (list entry) :=
  sharedReward ← lift match tokenLockedEvent with
                      | Some e => a ← get2 e "data" "amount"; js_BigInt a
                      | None => Ok 0
                      end;
  minted ← lift (get2 tokenMintedEvent "data" "amount");
  total ← lift (js_BigInt minted);
  '(date, time) ← lift (block_time block);
  height ← lift (get block "height");
  posTokenID ← lift export_getPosTokenID;
  generatorKey ← lift (get2 block "generator" "publicKey");
  chainID ← lift export_getCurrentChainID;
  cachePublicKey generatorKey ≫= fun _ =>
  let reward (amount : Z) (note : string) :=
    Entry date time height Null Null Null Null (Str (string_of_Z amount)) posTokenID Null Null addressFromParams generatorKey
      (Str note) chainID chainID in
  ret (reward (total - sharedReward) "Block generation reward (commission + self-stake)"
       :: match tokenLockedEvent with
          | Some _ => [reward sharedReward "Block generation reward (custodial shared rewards locked)"]
          | None => []
          end).

(** ** Going through the events of a day *)

Definition event_is (module name : val) (e : val) : result bool := andR (prop_is e "module" module) (prop_is e "name" name).

Definition is_before_ccc (ccmID e : val) : result bool :=
  andR (event_is MODULE_TOKEN (Str "beforeCCCExecution") e) (d ← get e "data"; prop_is d "ccmID" ccmID).

(** [let j = i - 1; while (j--)]: the events before the previous one, the last
    of them first.  At the first event [j] is negative, and the loop reads an
    element that does not exist. *)
Definition earlier_events (i : nat) (sortedEvents : list val) : result (list val) :=
  match i with
  | O => Throw "Cannot read properties of undefined (reading 'module')"
  | S j => Ok (reverse (take j sortedEvents))
  end.

(** The ID of the transaction of an event, and the events that were fetched to find it. *)
Definition event_transaction_id (sortedEvents : list val) (i : nat) (e topic0 : val) : result (val * list val) :=
  ccmID ← getCcmIDFromTopic0 topic0;
  if bool_decide (ccmID = Null) then id ← getTransactionIDFromTopic0 topic0; Ok (id, [])
  else
    earlier ← earlier_events i sortedEvents;
    prevEvent ← js_find (is_before_ccc ccmID) earlier;
    match prevEvent with
    | Some p => t ← topic p 0; id ← getTransactionIDFromTopic0 t; Ok (id, [])
    | None =>
        height ← get2 e "block" "height";
        eventsForHeight ← getEvents [("height", Str (js_String height))];
        data ← get eventsForHeight "data";
        otherNecessaryEvents ← elements data;
        found ← js_find (is_before_ccc ccmID) otherNecessaryEvents;
        match found with
        | Some p => t ← topic p 0; id ← getTransactionIDFromTopic0 t; Ok (id, otherNecessaryEvents)
        | None => Throw ("CCU transactionID cannot be determined for ccmID " +:+ js_String ccmID +:+ ".")
        end
    end.

(** The element with an ID of a list, or else of the answer to a request. *)
Definition in_list_or (l : list val) (request : obj -> result val) (id : val) : result val :=
  found ← js_find (fun t => prop_is t "id" id) l;
  match found with
  | Some t => Ok t
  | None => r ← request [("id", id)]; data ← get r "data"; first_of data
  end.

(** [s.endsWith(t)] *)
Definition ends_with (s t : string) : bool :=
  Nat.leb (String.length t) (String.length s)
  && String.eqb (String.substring (String.length s - String.length t) (String.length t) s) t.

Definition entry_of (m : eff exporter entry) : eff exporter (list entry) := e ← m; ret [e].
Definition when (b : bool) (m : eff exporter (list entry)) : eff exporter (list entry) := if b then m else ret [].

(** A token lock stands for a transaction; a transfer to oneself gets a second entry. *)
Definition lock_entries (addressFromParams e tx currentChainID txFeeTokenID : val) : eff exporter (list entry) :=
  isLock ← lift (event_is MODULE_TOKEN (Str "lock") e);
  moduleCommand ← lift (get tx "moduleCommand");
  when (isLock && negb (bool_decide (moduleCommand = TRANSFER_CROSS_CHAIN)))
    (debit ← entry_of (formatTransaction addressFromParams tx currentChainID txFeeTokenID);
     isSelf ← lift (checkIfSelfTokenTransfer tx);
     credit ← when isSelf
       (entry_of (formatTransaction addressFromParams
          (match tx with
           | Object o => Object (spread o [("fee", Null); ("isSelfTokenTransferCredit", Bool true)])
           | _ => tx
           end) currentChainID txFeeTokenID));
     ret (debit ++ credit)).

Definition ccm_send_success (tx : val) : result (option val) :=
  id ← get tx "id";
  height ← get2 tx "block" "height";
  allBlockEvents ← getAllEventsInAsc [("height", Str (js_String height))];
  js_find (fun ev => andR (event_is MODULE_INTEROPERABILITY (Str "ccmSendSuccess") ev)
                       (topics_include ev (TX_ID +:+ js_String id))) allBlockEvents.

(** The token of a message fee and the chains of the message, from the events at hand. *)
Definition relayer_fee_details (events : list val) (e ccmID : val) : result (val * val * val) :=
  before ← js_find (fun ev => andR (event_is MODULE_TOKEN (Str "beforeCCCExecution") ev)
                                (c ← get2 ev "data" "ccmID"; c' ← get2 e "data" "ccmID"; Ok (bool_decide (c = c')))) events;
  match before with
  | None => Throw ("messageFeeTokenID cannot be determined for ccmID " +:+ js_String ccmID +:+ ".")
  | Some b =>
      messageFeeTokenID ← get2 b "data" "messageFeeTokenID";
      t ← topic e 0;
      processed ← js_find (fun ev => andR (event_is MODULE_INTEROPERABILITY (Str "ccmProcessed") ev)
                                       (t' ← topic ev 0; Ok (bool_decide (t' = t)))) events;
      match processed with
      | None => Throw ("sendingChainID & receivingChainID cannot be determined for ccmID " +:+ js_String ccmID +:+ ".")
      | Some p =>
          ccm ← get2 p "data" "ccm";
          sendingChainID ← get ccm "sendingChainID";
          receivingChainID ← get ccm "receivingChainID";
          Ok (messageFeeTokenID, sendingChainID, receivingChainID)
      end
  end.

(** The events of a transaction or of a cross-chain message. *)
Definition transaction_event_entries (addressFromParams currentChainID txFeeTokenID : val) (events : list val)
    (e ccmID tx block : val) : eff exporter (list entry) :=
  l1 ← lock_entries addressFromParams e tx currentChainID txFeeTokenID;
  isGenFee ← lift (event_is MODULE_FEE (Str "generatorFeeProcessed") e);
  l2 ← when isGenFee (getGeneratorFeeEntries addressFromParams e tx block);
  isOut ← lift (andR (event_is MODULE_TOKEN (Str "transferCrossChain") e) (d ← get e "data"; prop_is d "senderAddress" addressFromParams));
  l3 ← when isOut (ccm ← lift (ccm_send_success tx); getOutgoingTransferCCEntries addressFromParams e ccm tx block);
  isIn ← lift (andR (event_is MODULE_TOKEN (Str "ccmTransfer") e)
                 (andR (d ← get e "data"; prop_is d "recipientAddress" addressFromParams)
                    (d ← get e "data"; c ← export_getCurrentChainID; prop_is d "receivingChainID" c)));
  l4 ← when isIn (getIncomingTransferCCEntries addressFromParams e tx block);
  isRelayer ← lift (event_is MODULE_FEE (Str "relayerFeeProcessed") e);
  l5 ← when isRelayer
    ('(messageFeeTokenID, sendingChainID, receivingChainID) ← lift (relayer_fee_details events e ccmID);
     getMessageFeeEntries addressFromParams e tx block messageFeeTokenID sendingChainID receivingChainID);
  isReclaim ← lift (andR (event_is MODULE_LEGACY (Str "accountReclaimed") e) (t ← topic e 2; Ok (bool_decide (t = addressFromParams))));
  l6 ← when isReclaim (getLegacyAccountReclaimEntries addressFromParams e tx block);
  isPom ← lift (event_is MODULE_POS (Str "validatorPunished") e);
  l7 ← when isPom
    (id ← lift (get tx "id");
     transfer ← lift (js_find (fun ev => andR (event_is MODULE_TOKEN (Str "transfer") ev)
       (t ← topic ev 0;
        match t with
        | Str s => Ok (ends_with s (js_String id))
        | Undef => Throw "Cannot read properties of undefined (reading 'endsWith')"
        | _ => Throw "event.topics[0].endsWith is not a function"
        end)) events);
     getPomEntries addressFromParams (default Undef transfer) e tx block);
  ret (l1 ++ l2 ++ l3 ++ l4 ++ l5 ++ l6 ++ l7).

(** A token mint of the generator of a block, with the lock that may follow it. *)
Definition mint_entries (addressFromParams : val) (sortedBlocks sortedEvents : list val) (i : nat) (e : val) : eff exporter (list entry) :=
  isMint ← lift (andR (event_is MODULE_TOKEN (Str "mint") e) (t ← topic e 1; Ok (bool_decide (t = addressFromParams))));
  when isMint
    (let nextEvent := nth_val sortedEvents (S i) in
     isLock ← lift (andR (event_is MODULE_TOKEN (Str "lock") nextEvent) (d ← get nextEvent "data"; prop_is d "address" addressFromParams));
     id ← lift (get2 e "block" "id");
     block ← lift (js_find (fun b => prop_is b "id" id) sortedBlocks);
     getBlockRewardEntries addressFromParams e (if isLock : bool then Some nextEvent else None) (default Undef block)).

Definition topic_length (topic0 : val) : result nat :=
  match topic0 with
  | Str t => Ok (String.length t)
  | Undef => Throw "Cannot read properties of undefined (reading 'length')"
  | Null => Throw "Cannot read properties of null (reading 'length')"
  | Arr l => Ok (length l)
  | _ => Ok 0%nat
  end.

(** The body of the loop over the events. *)
Definition event_entries (addressFromParams currentChainID txFeeTokenID : val)
    (sortedBlocks sortedTransactions sortedEvents : list val) (i : nat) (e : val) : eff exporter (list entry) :=
  topics ← lift (get e "topics");
  topic0 ← lift (first_of topics);
  lengthTopic0 ← lift (topic_length topic0);
  if Nat.eqb lengthTopic0 (LENGTH_ID + String.length TX_ID) || Nat.eqb lengthTopic0 (LENGTH_ID + String.length CCM_ID) then
    ccmID ← lift (getCcmIDFromTopic0 topic0);
    '(transactionID, otherNecessaryEvents) ← lift (event_transaction_id sortedEvents i e topic0);
    tx ← lift (in_list_or sortedTransactions getTransactions transactionID);
    blockID ← lift (get2 tx "block" "id");
    block ← lift (in_list_or sortedBlocks getBlocks blockID);
    let isID := match topic0 with Str t => String.prefix TX_ID t || String.prefix CCM_ID t | _ => false end in
    l ← when isID (transaction_event_entries addressFromParams currentChainID txFeeTokenID
                     (sortedEvents ++ otherNecessaryEvents) e ccmID tx block);
    isReward ← lift (event_is MODULE_POS (Str "rewardsAssigned") e);
    rewards ← when isReward (getSharedRewardsAssignedEntries addressFromParams e tx block);
    ret (l ++ rewards)
  else if Nat.eqb lengthTopic0 LENGTH_DEFAULT_TOPIC then mint_entries addressFromParams sortedBlocks sortedEvents i e
  else ret [].

Fixpoint entries_from (addressFromParams currentChainID txFeeTokenID : val) (sortedBlocks sortedTransactions sortedEvents : list val)
    (i : nat) (rest : list val) : eff exporter (list entry) :=
  match rest with
  | [] => ret []
  | e :: rest =>
      l ← event_entries addressFromParams currentChainID txFeeTokenID sortedBlocks sortedTransactions sortedEvents i e;
      ls ← entries_from addressFromParams currentChainID txFeeTokenID sortedBlocks sortedTransactions sortedEvents (S i) rest;
      ret (l ++ ls)
  end.

Definition getEntriesByChronology (params : obj) (sortedBlocks sortedTransactions sortedEvents : list val) : eff exporter (list entry) :=
  currentChainID ← lift export_getCurrentChainID;
  txFeeTokenID ← lift getFeeTokenID;
  addressFromParams ← lift (getAddressFromParams params);
  entries ← entries_from addressFromParams currentChainID txFeeTokenID sortedBlocks sortedTransactions sortedEvents 0 sortedEvents;
  ret (dropDuplicatesDeep entries).
(** ** The job *)

(** [JSON.parse(JSON.stringify(v))] of a cell; a missing property stays so. *)
Definition json_cell (v : val) : result val :=
  match v with
  | NaN => Ok Null
  | BigI _ => Throw "Do not know how to serialize a BigInt"
  | _ => Ok v
  end.

Definition json_entry (e : entry) : result entry :=
  date ← json_cell (e_date e); time ← json_cell (e_time e); height ← json_cell (e_blockHeight e);
  id ← json_cell (e_transactionID e); command ← json_cell (e_moduleCommand e); fee ← json_cell (e_fee e);
  feeToken ← json_cell (e_txFeeTokenID e); amount ← json_cell (e_amount e); token ← json_cell (e_amountTokenID e);
  sender ← json_cell (e_senderAddress e); senderKey ← json_cell (e_senderPublicKey e);
  recipient ← json_cell (e_recipientAddress e); recipientKey ← json_cell (e_recipientPublicKey e);
  note ← json_cell (e_note e); sending ← json_cell (e_sendingChainID e); receiving ← json_cell (e_receivingChainID e);
  Ok (Entry date time height id command fee feeToken amount token sender senderKey recipient recipientKey note sending receiving).

(** The history of one day, asked from the indexer. *)
Definition query_day (params : obj) (day : string) : eff exporter (list entry) :=
  let timestampRange := string_of_Z (day_start day) +:+ ":" +:+ string_of_Z (day_end day) in
  let timeBoxedParams := spread params [("timestamp", Str timestampRange)] in
  sortedBlocks ← lift (getAllBlocksInAsc timeBoxedParams);
  sortedTransactions ← lift (getAllTransactionsInAsc timeBoxedParams);
  sortedEvents ← lift (getAllEventsInAsc [("topic", prop timeBoxedParams "address"); ("timestamp", prop timeBoxedParams "timestamp")]);
  getEntriesByChronology timeBoxedParams sortedBlocks sortedTransactions sortedEvents.

(** [partials.write(filename, JSON.stringify(entries))], which is not awaited. *)
Definition write_partial (filename : string) (l : list entry) : eff exporter unit :=
  l ← lift (mapM_result json_entry l);
  modify (fun s => set_files (snd (cache_write cwd now partials filename (Json l) (files s))) s).

Definition read_partial (filename : string) : eff exporter (list entry) :=
  c ← on_files (cache_read cwd partials filename);
  match c with Json l => ret l | Xlsx _ => throw "Unexpected token in JSON" end.

(** The body of the loop over the days. *)
Definition export_day (params : obj) (day : string) : eff exporter (list entry) :=
  partialFilename ← lift (getPartialFilenameFromParams params day);
  noHistory ← gets (fun s => bool_decide (partialFilename ∈ noHistoryCache s));
  if noHistory : bool then ret []
  else
    exists_ ← gets (fun s => cache_fileExists cwd partials partialFilename (files s));
    if exists_ : bool then read_partial partialFilename
    else
      entriesForDay ← query_day params day;
      (if negb (String.eqb day (today_after day)) then
         match entriesForDay with
         | [] => modify (set_noHistory (fun c => {[partialFilename]} ∪ c))
         | _ => write_partial partialFilename entriesForDay
         end
       else ret tt) ≫= fun _ =>
      ret entriesForDay.

Definition rescheduleExportOnTimeout (params : obj) : eff exporter unit :=
  try_catch
    (currentChainID ← lift export_getCurrentChainID;
     excelFilename ← lift (getExcelFilenameFromParams params currentChainID);
     modify (set_scheduled (fun c => c ∖ {[excelFilename]})) ≫= fun _ =>
     _ ← lift (standardizeIntervalFromParams params);
     modify (set_queue (fun q => q ++ [(params, true)])))
    (fun _ => ret tt).

(** [config.queue.scheduleTransactionExport.options.defaultJobOptions.attempts] *)
Definition attempts : Z := 5.

(** All entries of the interval of a request. *)
Definition export_interval (params : obj) (interval : string) : eff exporter (list entry) :=
  let from := default "" (split_on ":" interval !! 0%nat) in
  let to := default "" (split_on ":" interval !! 1%nat) in
  l ← map_each (days_of from to) (export_day params);
  ret (concat l).

Definition write_workbook (filename : string) (book : list sheet) : eff exporter unit :=
  on_files (write_file cwd now (in_cache staticFiles filename) (Xlsx book)).

(** The entries of the job; the flag tells whether it will be scheduled again
    when its time is over. *)
Definition collect_entries (j : job) : eff exporter (list entry * bool) :=
  let params := j_params j in
  isAccountHasTransactions ← lift (checkIfAccountHasTransactions (prop params "address"));
  isAccountValidator ← lift (checkIfAccountIsValidator (prop params "address"));
  if (isAccountHasTransactions || isAccountValidator) : bool then
    interval ← lift (standardizeIntervalFromParams params);
    let last := negb (j_isRescheduled j) && (j_attemptsMade j =? j_attempts j - 1) in
    (if last then modify (set_timeouts (fun t => t ++ [params])) else ret tt) ≫= fun _ =>
    l ← export_interval params interval;
    ret (l, last)
  else ret ([], false).

Definition build_workbook (params : obj) (allEntriesForInterval : list entry) (timeout : bool) : eff exporter unit :=
  currentChainID ← lift export_getCurrentChainID;
  let uniqueChainIDs := getUniqueChainIDs allEntriesForInterval in
  metadataEntriesList ← map_each uniqueChainIDs (fun chainID => getMetadataEntries params chainID currentChainID);
  excelFilename ← lift (getExcelFilenameFromParams params currentChainID);
  write_workbook excelFilename [history_sheet allEntriesForInterval; metadata_sheet (concat metadataEntriesList)] ≫= fun _ =>
  modify (set_scheduled (fun c => c ∖ {[excelFilename]})) ≫= fun _ =>
  if timeout : bool then modify (set_timeouts (fun t => removelast t)) else ret tt.

Definition exportTransactions (j : job) : eff exporter unit :=
  '(allEntriesForInterval, timeout) ← collect_entries j;
  build_workbook (j_params j) allEntriesForInterval timeout.

(** ** Scheduling and downloading *)

Definition scheduled_response (address publicKey : val) (interval : string) : obj :=
  [("address", address); ("publicKey", publicKey); ("interval", Str interval)].

Definition export_response (data : obj) (ready : bool) (status : option string) : obj :=
  [("data", Object data); ("meta", Object [("ready", Bool ready)])]
  ++ match status with Some s => [("status", Str s)] | None => [] end.

Definition schedule_body (params : obj) (address : val) (requestInterval : string) : eff exporter obj :=
  let data := scheduled_response address (prop params "publicKey") requestInterval in
  currentChainID ← lift export_getCurrentChainID;
  excelFilename ← lift (getExcelFilenameFromParams params currentChainID);
  scheduled ← gets (fun s => bool_decide (excelFilename ∈ jobScheduledCache s));
  if scheduled : bool then ret (export_response data false None)
  else
    ready ← gets (fun s => cache_fileExists cwd staticFiles excelFilename (files s));
    if ready : bool then
      fileUrl ← lift (getExcelFileUrlFromParams params currentChainID);
      ret (export_response (data ++ [("fileName", Str excelFilename); ("fileUrl", Str fileUrl)]) true None)
    else
      isAccountExists ← lift (checkIfAccountExists address);
      if negb isAccountExists then throw (NotFoundException ("Account " +:+ js_String address +:+ " not found."))
      else if negb (checkIfIndexReadyForInterval requestInterval)
      then throw (ValidationException ("The blockchain index is not yet ready for the requested interval ("
                                       +:+ requestInterval +:+ "). Please retry later."))
      else
        modify (set_queue (fun q => q ++ [(spread params [("address", address)], false)])) ≫= fun _ =>
        modify (set_scheduled (fun c => {[excelFilename]} ∪ c)) ≫= fun _ =>
        ret (export_response data false (Some "ACCEPTED")).

Definition scheduleTransactionHistoryExport (params : obj) : eff exporter obj :=
  address ← lift (getAddressFromParams params);
  requestInterval ← lift (standardizeIntervalFromParams params);
  try_catch (schedule_body params address requestInterval)
    (fun e =>
       if is_exception "ValidationException" e then throw e
       else throw ("Unable to schedule transaction history export for " +:+ js_String address +:+ " ("
                   +:+ requestInterval +:+ ") due to: " +:+ message_of e)).

(** [xlsx.build(xlsx.parse(file)).toString('hex')] of [node-xlsx] *)
Variable xlsx_hex : list sheet -> string.

(** [filename.split(/_|\./g).at(-2)] *)
Definition end_date (filename : string) : string :=
  let parts := concat (split_on "." <$> split_on "_" filename) in
  default "" (reverse parts !! 1%nat).

(** The pattern of [regex.js] is the same as the one of the gateway. *)
Definition downloadTransactionHistory (filename : string) : eff exporter obj :=
  if negb (regex_test EXCEL_EXPORT_FILENAME filename)
  then throw (ValidationException ("Invalid filename (" +:+ filename +:+ ") supplied."))
  else
    isFile ← gets (fun s => cache_isFile cwd staticFiles filename (files s));
    if negb isFile then throw (NotFoundException ("Requested file (" +:+ filename +:+ ") does not exist."))
    else
      c ← on_files (read_file cwd (in_cache staticFiles filename));
      book ← lift match c with Xlsx b => Ok b | Json _ => Throw "Unsupported file" end;
      (if String.eqb (end_date filename) today
       then on_files (cache_remove cwd staticFiles filename) ≫= fun _ => ret tt else ret tt) ≫= fun _ =>
      ret [("data", Str (xlsx_hex book)); ("meta", Object [("filename", Str filename)])].

(** ** methods/controllers/export.js *)
Definition controller_error (e : string) : eff exporter obj :=
  if is_exception "NotFoundException" e
  then ret [("status", Num 404); ("data", Object [("error", Str (message_of e))])]
  else throw e.

Definition schedule_controller (params : obj) : eff exporter obj :=
  try_catch (scheduleTransactionHistoryExport params) controller_error.
Definition download_controller (filename : string) : eff exporter obj :=
  try_catch (downloadTransactionHistory filename) controller_error.

(** ** jobs/purge.js *)
Definition purge_job : eff exporter unit := fun s =>
  let d := snd (cache_purge cwd now partials (files s)) in
  (Ok tt, set_files (snd (cache_purge cwd now staticFiles d)) s).
End Exporter.
