(* ===== verification/ExportSpec.v ===== *)
(** * What the export guarantees

    The entries of a day do not depend on the state of the service except for
    the columns of public keys, which come from a cache ([query_day_agrees]).
    On this rests [export_returns_history]: whatever happened before, an export
    returns for every day the entries that asking the indexer for that day gave,
    at the time of the export or of an earlier one. *)
From S2P Require Import Prelude JsValue Chain RequestAll Regex Files Http Export.
From Stdlib Require Import Ascii.
Local Open Scope Z_scope.

(** ** Runs that differ in the cached public keys only *)

(** A cell that can be stored as JSON. *)
Definition cell_ok (v : val) : Prop := match v with BigI _ => False | _ => True end.

(** Two public keys: the same, or both from a cache. *)
Definition same_key (a b : val) : Prop := a = b \/ (cell_ok a /\ cell_ok b).

(** Two entries that agree in all other columns. *)
Definition similar (a b : entry) : Prop :=
  same_key (e_senderPublicKey a) (e_senderPublicKey b) /\ same_key (e_recipientPublicKey a) (e_recipientPublicKey b) /\
  e_date a = e_date b /\ e_time a = e_time b /\ e_blockHeight a = e_blockHeight b /\
  e_transactionID a = e_transactionID b /\ e_moduleCommand a = e_moduleCommand b /\ e_fee a = e_fee b /\
  e_txFeeTokenID a = e_txFeeTokenID b /\ e_amount a = e_amount b /\ e_amountTokenID a = e_amountTokenID b /\
  e_senderAddress a = e_senderAddress b /\ e_recipientAddress a = e_recipientAddress b /\ e_note a = e_note b /\
  e_sendingChainID a = e_sendingChainID b /\ e_receivingChainID a = e_receivingChainID b.

Section Agree.
Context `{ExportApi} `{Calendar}.

(** Public keys are texts ([Buffer.from(publicKey, 'hex')]). *)
Hypothesis keys_are_texts : forall v a, address_of_key v = Ok a -> exists t, v = Str t.

Definition keys_ok (s : exporter) : Prop := map_Forall (fun _ v => exists t, v = Str t) (publicKeyCache s).

(** Only public keys are cached. *)
Definition only_keys (s s' : exporter) : Prop := keys_ok s' /\ exists f, s' = set_keys f s.

(** Two computations that return related values, or throw the same error, from
    any two states. *)
Definition agree {A} (R : A -> A -> Prop) (m1 m2 : eff exporter A) : Prop :=
  forall s1 s2, keys_ok s1 -> keys_ok s2 ->
    only_keys s1 (snd (m1 s1)) /\ only_keys s2 (snd (m2 s2)) /\
    match fst (m1 s1), fst (m2 s2) with
    | Ok a, Ok b => R a b
    | Throw e, Throw e' => e = e'
    | _, _ => False
    end.

Lemma only_keys_refl s : keys_ok s -> only_keys s s.
Proof. intros Hs. split; [done|]. exists id. by destruct s. Qed.

Lemma only_keys_trans s1 s2 s3 : only_keys s1 s2 -> only_keys s2 s3 -> only_keys s1 s3.
Proof. intros [_ [f ->]] [H2 [g ->]]. split; [done|]. by exists (fun c => g (f c)). Qed.

Lemma agree_ret {A} (R : A -> A -> Prop) a b : R a b -> agree R (ret a) (ret b).
Proof. intros HR s1 s2 H1 H2. simpl. by auto using only_keys_refl. Qed.

Lemma agree_throw {A} (R : A -> A -> Prop) e : agree R (throw e) (throw e).
Proof. intros s1 s2 H1 H2. simpl. by auto using only_keys_refl. Qed.

Lemma agree_lift {A} (r : result A) : agree eq (lift r) (lift r).
Proof. intros s1 s2 H1 H2. simpl. destruct r; by auto using only_keys_refl. Qed.

Lemma agree_bind {A B} (R : A -> A -> Prop) (S : B -> B -> Prop) m1 m2 f1 f2 :
  agree R m1 m2 -> (forall a b, R a b -> agree S (f1 a) (f2 b)) -> agree S (m1 ≫= f1) (m2 ≫= f2).
Proof.
  intros Hm Hf s1 s2 H1 H2. destruct (Hm s1 s2 H1 H2) as (K1 & K2 & HR). unfold mbind, eff_bind.
  destruct (m1 s1) as [[a|e] t1], (m2 s2) as [[b|e'] t2]; simpl in *; try done.
  destruct (Hf a b HR t1 t2) as (L1 & L2 & HS); [by destruct K1|by destruct K2|].
  split; [by eapply only_keys_trans|]. split; [by eapply only_keys_trans|done].
Qed.

Lemma agree_if {A} (R : A -> A -> Prop) (b : bool) m1 m2 n1 n2 :
  agree R m1 m2 -> agree R n1 n2 -> agree R (if b then m1 else n1) (if b then m2 else n2).
Proof. by destruct b. Qed.

Lemma agree_getPublicKey a : agree same_key (getPublicKeyByAddress a) (getPublicKeyByAddress a).
Proof.
  intros s1 s2 H1 H2. simpl. split; [by apply only_keys_refl|]. split; [by apply only_keys_refl|]. right.
  assert (forall s, keys_ok s -> cell_ok match a with Str t => js_or (default Null (publicKeyCache s !! t)) Null | _ => Null end).
  { intros s Hs. destruct a; try exact I. unfold js_or. destruct (publicKeyCache s !! s0) as [v|] eqn:E; [|exact I].
    apply Hs in E as [t ->]. simpl. by destruct (negb _). }
  auto.
Qed.

Lemma cachePublicKey_keys v s : keys_ok s -> only_keys s (snd (cachePublicKey v s)) /\ fst (cachePublicKey v s) = Ok tt.
Proof.
  intros Hs. unfold cachePublicKey. destruct (address_of_key v) as [[ ]|] eqn:E; try (split; [by apply only_keys_refl|done]).
  split; [|done]. simpl. split; [|by eexists]. apply map_Forall_insert_2; [|done]. by eapply keys_are_texts.
Qed.

Lemma agree_cachePublicKey v v' : agree eq (cachePublicKey v) (cachePublicKey v').
Proof.
  intros s1 s2 H1 H2. destruct (cachePublicKey_keys v s1 H1) as [K1 E1], (cachePublicKey_keys v' s2 H2) as [K2 E2].
  by rewrite E1, E2.
Qed.

Lemma agree_cache_if_truthy v v' : agree eq (cache_if_truthy v) (cache_if_truthy v').
Proof.
  unfold cache_if_truthy. intros s1 s2 H1 H2. destruct (truthy v), (truthy v');
    [by apply agree_cachePublicKey|..|by apply agree_ret]; simpl.
  - destruct (cachePublicKey_keys v s1 H1) as [K1 E1]. rewrite E1. by auto using only_keys_refl.
  - destruct (cachePublicKey_keys v' s2 H2) as [K1 E1]. rewrite E1. by auto using only_keys_refl.
Qed.

Lemma same_key_refl v : same_key v v.
Proof. by left. Qed.
End Agree.

Create HintDb agree.
#[export] Hint Resolve agree_lift agree_throw agree_getPublicKey agree_cachePublicKey agree_cache_if_truthy same_key_refl : agree.

(** [solve_agree] goes through two runs of the same code. *)
Ltac solve_agree :=
  repeat first
    [ solve [eauto with agree]
    | match goal with
      | |- agree _ (ret _) (ret _) => apply agree_ret
      | |- agree _ (lift _ ≫= _) (lift _ ≫= _) => apply (agree_bind eq); [by apply agree_lift|intros ? ? <-]
      | |- agree _ (getPublicKeyByAddress _ ≫= _) (getPublicKeyByAddress _ ≫= _) =>
          apply (agree_bind same_key); [by apply agree_getPublicKey|intros ? ? ?]
      | |- agree _ ((if _ then ret _ else getPublicKeyByAddress _) ≫= _) _ =>
          apply (agree_bind same_key); [apply agree_if; [apply agree_ret; apply same_key_refl|by apply agree_getPublicKey]|intros ? ? ?]
      | |- agree _ (cachePublicKey _ ≫= _) _ => apply (agree_bind eq); [by apply agree_cachePublicKey|intros ? ? <-]
      | |- agree _ (cache_if_truthy _ ≫= _) _ => apply (agree_bind eq); [by apply agree_cache_if_truthy|intros ? ? <-]
      | |- agree _ (if ?b then _ else _) (if ?b then _ else _) => destruct b
      | |- agree _ (match ?x with _ => _ end) (match ?x with _ => _ end) => destruct x
      | |- Forall2 _ (match ?x with _ => _ end) _ => destruct x
      | |- Forall2 _ _ _ => constructor
      | |- similar _ _ => repeat split; simpl
      end
    | progress cbv beta zeta ].

Section EntriesAgree.
Context `{ExportApi} `{Calendar}.
Hypothesis keys_are_texts : forall v a, address_of_key v = Ok a -> exists t, v = Str t.

Lemma formatTransaction_agrees a tx c f : agree similar (formatTransaction a tx c f) (formatTransaction a tx c f).
Proof. unfold formatTransaction. solve_agree. Qed.

Abbreviation agrees m := (agree (Forall2 similar) m m).

Lemma getGeneratorFeeEntries_agrees a e tx b : agrees (getGeneratorFeeEntries a e tx b).
Proof. unfold getGeneratorFeeEntries. solve_agree. Qed.

Lemma getOutgoingTransferCCEntries_agrees a e c tx b : agrees (getOutgoingTransferCCEntries a e c tx b).
Proof. unfold getOutgoingTransferCCEntries. solve_agree. Qed.

Lemma getIncomingTransferCCEntries_agrees a e tx b : agrees (getIncomingTransferCCEntries a e tx b).
Proof. unfold getIncomingTransferCCEntries. solve_agree. Qed.

Lemma getMessageFeeEntries_agrees a e tx b f c d : agrees (getMessageFeeEntries a e tx b f c d).
Proof. unfold getMessageFeeEntries. solve_agree. Qed.

Lemma getLegacyAccountReclaimEntries_agrees a e tx b : agrees (getLegacyAccountReclaimEntries a e tx b).
Proof. unfold getLegacyAccountReclaimEntries. solve_agree. Qed.

Lemma getPomEntries_agrees a t e tx b : agrees (getPomEntries a t e tx b).
Proof. unfold getPomEntries. solve_agree. Qed.

Lemma getSharedRewardsAssignedEntries_agrees a e tx b : agrees (getSharedRewardsAssignedEntries a e tx b).
Proof. unfold getSharedRewardsAssignedEntries. solve_agree. Qed.

Lemma getBlockRewardEntries_agrees a e l b : agrees (getBlockRewardEntries a e l b).
Proof. unfold getBlockRewardEntries. solve_agree. Qed.

Lemma when_agrees b m : agrees m -> agrees (when b m).
Proof. intros Hm. destruct b; [done|]. by apply agree_ret. Qed.

Lemma entry_of_agrees m : agree similar m m -> agrees (entry_of m).
Proof. intros Hm. apply (agree_bind similar); [done|]. intros x y Hxy. apply agree_ret. by constructor. Qed.

(** Appending what two runs return. *)
Lemma agree_then m (f : list entry -> eff exporter (list entry)) :
  agrees m -> (forall l l', Forall2 similar l l' -> agree (Forall2 similar) (f l) (f l')) -> agrees (m ≫= f).
Proof. intros Hm Hf. by apply (agree_bind (Forall2 similar)). Qed.

Hint Resolve formatTransaction_agrees getGeneratorFeeEntries_agrees getOutgoingTransferCCEntries_agrees
  getIncomingTransferCCEntries_agrees getMessageFeeEntries_agrees getLegacyAccountReclaimEntries_agrees getPomEntries_agrees
  getSharedRewardsAssignedEntries_agrees getBlockRewardEntries_agrees : agree.

Ltac step_agree :=
  repeat first
    [ solve [eauto with agree]
    | match goal with
      | |- agree _ (lift _ ≫= _) (lift _ ≫= _) => apply (agree_bind eq); [by apply agree_lift|intros ? ? <-]
      | |- agree _ (when _ _ ≫= _) (when _ _ ≫= _) => apply (agree_bind (Forall2 similar)); [apply when_agrees|intros ? ? ?]
      | |- agree _ (entry_of _ ≫= _) (entry_of _ ≫= _) => apply (agree_bind (Forall2 similar)); [apply entry_of_agrees|intros ? ? ?]
      | |- agree _ (when _ _) (when _ _) => apply when_agrees
      | |- agree _ (entry_of _) (entry_of _) => apply entry_of_agrees
      | |- agree _ (ret _) (ret _) => apply agree_ret; repeat (apply Forall2_app; [done|]); done
      | |- agree _ (if ?b then _ else _) (if ?b then _ else _) => destruct b
      | |- agree _ (match ?x with _ => _ end) (match ?x with _ => _ end) => destruct x
      end
    | progress cbv beta zeta ].

Lemma lock_entries_agrees a e tx c f : agrees (lock_entries a e tx c f).
Proof. unfold lock_entries. step_agree. Qed.

Lemma transaction_event_entries_agrees a c f es e ccm tx b : agrees (transaction_event_entries a c f es e ccm tx b).
Proof.
  unfold transaction_event_entries. apply agree_then; [apply lock_entries_agrees|]. intros l l' Hl. step_agree.
Qed.

Lemma event_entries_agrees a c f bs txs es i e : agrees (event_entries a c f bs txs es i e).
Proof.
  unfold event_entries, mint_entries. pose proof transaction_event_entries_agrees. step_agree.
Qed.

Lemma entries_from_agrees a c f bs txs es i rest : agrees (entries_from a c f bs txs es i rest).
Proof.
  revert i. induction rest as [|e rest IH]; intros i; cbn [entries_from]; [by apply agree_ret|].
  apply agree_then; [apply event_entries_agrees|]. intros l l' Hl. apply (agree_bind (Forall2 similar)); [apply IH|].
  intros k k' Hk. apply agree_ret. by apply Forall2_app.
Qed.
End EntriesAgree.

(** ** Entries up to public keys and repetitions *)

Definition norm (v : val) : val := match v with NaN => Null | _ => v end.

Definition strip (e : entry) : entry :=
  Entry (norm (e_date e)) (norm (e_time e)) (norm (e_blockHeight e)) (norm (e_transactionID e)) (norm (e_moduleCommand e))
    (norm (e_fee e)) (norm (e_txFeeTokenID e)) (norm (e_amount e)) (norm (e_amountTokenID e)) (norm (e_senderAddress e)) Null
    (norm (e_recipientAddress e)) Null (norm (e_note e)) (norm (e_sendingChainID e)) (norm (e_receivingChainID e)).

Definition canon (l : list entry) : list entry := dropDuplicatesDeep (strip <$> l).

(** The entry can be stored as JSON. *)
Definition serializable (e : entry) : Prop := is_ok (json_entry e) = true.

Lemma similar_strip a b : similar a b -> strip a = strip b.
Proof. intros (_ & _ & ? & ? & ? & ? & ? & ? & ? & ? & ? & ? & ? & ? & ? & ?). unfold strip. congruence. Qed.

Lemma json_cell_ok v : is_ok (json_cell v) = true <-> cell_ok v.
Proof. by destruct v. Qed.

Lemma json_cell_norm v w : json_cell v = Ok w -> norm w = norm v.
Proof. destruct v; intros [= <-]; done. Qed.

Lemma json_entry_strip e e' : json_entry e = Ok e' -> strip e' = strip e.
Proof. intros E. unfold json_entry in E. inv_ok E. simplify_eq/=. unfold strip; simpl. f_equal; by apply json_cell_norm. Qed.

Lemma is_ok_bind {A B} (m : result A) (f : A -> result B) (P : Prop) :
  (forall a, m = Ok a -> is_ok (f a) = true <-> P) -> is_ok (m ≫= f) = true <-> is_ok m = true /\ P.
Proof. intros Hf. destruct m as [a|e]; simpl; [|naive_solver]. rewrite (Hf a) by done. naive_solver. Qed.

Lemma serializable_cells e : serializable e <->
  cell_ok (e_date e) /\ cell_ok (e_time e) /\ cell_ok (e_blockHeight e) /\ cell_ok (e_transactionID e) /\
  cell_ok (e_moduleCommand e) /\ cell_ok (e_fee e) /\ cell_ok (e_txFeeTokenID e) /\ cell_ok (e_amount e) /\
  cell_ok (e_amountTokenID e) /\ cell_ok (e_senderAddress e) /\ cell_ok (e_senderPublicKey e) /\
  cell_ok (e_recipientAddress e) /\ cell_ok (e_recipientPublicKey e) /\ cell_ok (e_note e) /\
  cell_ok (e_sendingChainID e) /\ cell_ok (e_receivingChainID e).
Proof.
  unfold serializable, json_entry. rewrite <- !json_cell_ok.
  do 15 (apply is_ok_bind; intros ? _). destruct (json_cell (e_receivingChainID e)); naive_solver.
Qed.

Lemma similar_serializable a b : similar a b -> serializable a <-> serializable b.
Proof.
  intros (K1 & K2 & E). destruct_and! E. rewrite !serializable_cells.
  assert (forall v w, same_key v w -> cell_ok v <-> cell_ok w) as HK by (intros v w [->|[? ?]]; done).
  rewrite (HK _ _ K1), (HK _ _ K2). repeat match goal with Hc : _ = _ |- _ => rewrite Hc; clear Hc end. done.
Qed.

Lemma drop_seen_elem x seen l : x ∈ drop_seen seen l <-> x ∈ l /\ x ∉ seen.
Proof.
  revert seen. induction l as [|e l IH]; intros seen; simpl; [set_solver|].
  destruct (decide (e ∈ seen)); rewrite ?elem_of_cons, IH; [set_solver|]. rewrite elem_of_app, list_elem_of_singleton.
  destruct (decide (x = e)); set_solver.
Qed.

Lemma drop_seen_fmap (f : entry -> entry) seen seen' l : (forall x, x ∈ seen -> f x ∈ seen') ->
  drop_seen seen' (f <$> drop_seen seen l) = drop_seen seen' (f <$> l).
Proof.
  revert seen seen'. induction l as [|e l IH]; intros seen seen' Hs; [done|]. cbn [drop_seen].
  destruct (decide (e ∈ seen)) as [Hin|Hn].
  - rewrite fmap_cons. cbn [drop_seen]. rewrite decide_True by auto. by apply IH.
  - rewrite !fmap_cons. cbn [drop_seen]. destruct (decide (f e ∈ seen')).
    + apply IH. intros x [Hx|Hx%list_elem_of_singleton]%elem_of_app; [auto|by subst].
    + f_equal. apply IH. intros x [Hx|Hx%list_elem_of_singleton]%elem_of_app; apply elem_of_app; [auto|subst; set_solver].
Qed.

Lemma canon_dedupe l : canon (dropDuplicatesDeep l) = canon l.
Proof. apply drop_seen_fmap. set_solver. Qed.

Lemma canon_similar l l' : Forall2 similar l l' -> canon l = canon l'.
Proof. intros Hl. unfold canon. f_equal. induction Hl as [|a b l l' Hab Hl IH]; [done|]. rewrite !fmap_cons. f_equal; [by apply similar_strip|done]. Qed.

Lemma canon_nil l : canon l = [] -> l = [].
Proof. destruct l as [|e l]; [done|]. unfold canon, dropDuplicatesDeep. rewrite fmap_cons. cbn [drop_seen]. by rewrite decide_False by set_solver. Qed.

Lemma dedupe_serializable l : Forall serializable (dropDuplicatesDeep l) <-> Forall serializable l.
Proof. rewrite !Forall_forall. unfold dropDuplicatesDeep. setoid_rewrite drop_seen_elem. set_solver. Qed.

Lemma mapM_json_canon l l' : mapM_result json_entry l = Ok l' -> canon l' = canon l.
Proof.
  intros E. unfold canon. f_equal. revert l' E. induction l as [|e l IH]; cbn [mapM_result]; intros l' E; [by simplify_eq|].
  inv_ok E. simplify_eq. rewrite !fmap_cons. f_equal; [by apply json_entry_strip|by apply IH].
Qed.

Lemma serializable_mapM l : Forall serializable l -> exists l', mapM_result json_entry l = Ok l'.
Proof.
  induction 1 as [|e l He Hl (l' & E)]; [by exists []|]. unfold serializable in He.
  destruct (json_entry e) as [e'|] eqn:Ee; [|done]. exists (e' :: l'). cbn [mapM_result]. by rewrite Ee, bind_ok, E.
Qed.

(** ** The history of a day *)

Section History.
Context `{ExportApi} `{Calendar}.
Hypothesis keys_are_texts : forall v a, address_of_key v = Ok a -> exists t, v = Str t.

Definition same_history (l l' : list entry) : Prop := canon l = canon l' /\ (Forall serializable l <-> Forall serializable l').

Lemma query_day_agrees params day : agree same_history (query_day params day) (query_day params day).
Proof.
  unfold query_day, getEntriesByChronology. cbv zeta.
  do 6 (apply (agree_bind eq); [apply agree_lift|intros ? ? <-]).
  apply (agree_bind (Forall2 similar)); [by apply entries_from_agrees|]. intros l l' Hl. apply agree_ret. split.
  - rewrite !canon_dedupe. by apply canon_similar.
  - rewrite !dedupe_serializable. clear -Hl. induction Hl as [|x y l l' Hxy Hl IH]; [by rewrite !Forall_nil|].
    rewrite !Forall_cons, IH. by rewrite (similar_serializable _ _ Hxy).
Qed.

(** The query of a day depends on the address only. *)
Lemma query_day_address params day : truthy (prop params "address") = true ->
  query_day params day = query_day [("address", prop params "address")] day.
Proof.
  intros Ha. unfold query_day, getAllBlocksInAsc, getAllTransactionsInAsc, getEntriesByChronology, getAddressFromParams, spread.
  cbn [foldl fst snd]. rewrite !prop_set_eq, !prop_set_ne by done. cbn [prop String.eqb Ascii.eqb Bool.eqb].
  by rewrite !Ha.
Qed.
End History.

(** An instant: the services as they answer then, the calendar and the clock. *)
Record env := Env { env_api : ExportApi; env_calendar : Calendar; env_now : Z }.

(** A service without files and cached keys. *)
Definition no_state : exporter := Exporter ∅ ∅ ∅ ∅ [] [] None false.

(** Asking the indexer for the history of an address on a day. *)
Definition fresh (e : env) (a day : string) : result (list entry) :=
  fst (query_day (H := env_api e) (H0 := env_calendar e) [("address", Str a)] day no_state).

(** The day was the current one when its history had been queried. *)
Definition current (e : env) (day : string) : Prop := day = today_after (Calendar := env_calendar e) day.

Definition keys_texts (e : env) : Prop := forall v a, address_of_key (ExportApi := env_api e) v = Ok a -> exists t, v = Str t.

Definition fname (a day : string) : string := a +:+ "_" +:+ day +:+ ".json".
Definition valid_name (a day : string) : Prop :=
  a <> "" /\ has_char "_" a = false /\ has_char "/" a = false /\ has_char "/" day = false.

Section Cache.
Variable cwd : path.

(** The instants so far *)
Implicit Types past : env -> Prop.

Definition cached_ok past (a day : string) (c : content) : Prop :=
  exists e l l0, past e /\ ~ current e day /\ c = Json l /\ fresh e a day = Ok l0 /\ canon l = canon l0.

(** What is cached is the history of its day and address as the indexer gave it
    some time, when the day was not the current one. *)
Definition export_inv past (s : exporter) : Prop :=
  cache_ready cwd partials (files s) /\ cache_ready cwd staticFiles (files s) /\ keys_ok s /\
  (forall a day c, valid_name a day -> stored cwd partials (files s) (fname a day) = Some c -> cached_ok past a day c) /\
  (forall a day, valid_name a day -> fname a day ∈ noHistoryCache s ->
     exists e, past e /\ ~ current e day /\ fresh e a day = Ok []).

Lemma export_inv_mono (past past' : env -> Prop) s : (forall e, past e -> past' e) -> export_inv past s -> export_inv past' s.
Proof.
  intros Hp (Hr & Hs & Hk & Hc & Hn). do 3 (split; [done|]). split.
  - intros a day c Hv Hst. destruct (Hc a day c Hv Hst) as (e & l & l0 & He & Hrest). exists e, l, l0. auto.
  - intros a day Hv Hin. destruct (Hn a day Hv Hin) as (e & He & Hrest). exists e. auto.
Qed.

Lemma fname_plain a day : valid_name a day -> plain_name (fname a day) = true.
Proof.
  intros (Hne & _ & Ha & Hd). unfold plain_name, fname. rewrite !has_char_app. fold slash in Ha, Hd. rewrite Ha, Hd.
  destruct a as [|c a]; [done|]. simpl.
  destruct (Ascii.eqb_spec c "."); [|done]. destruct a as [|c' a]; [done|]. simpl.
  destruct (Ascii.eqb_spec c' "."); [|done]. by destruct a.
Qed.

Lemma append_cancel (s t u : string) : s +:+ u = t +:+ u -> s = t.
Proof.
  revert t. induction s as [|a s IH]; intros [|b t] E; [done|..].
  - apply (f_equal String.length) in E. rewrite !string_length_app in E. simpl in E. lia.
  - apply (f_equal String.length) in E. rewrite !string_length_app in E. simpl in E. lia.
  - injection E as -> E. f_equal. by apply IH.
Qed.

Lemma fname_inj a day a' day' : valid_name a day -> valid_name a' day' -> fname a day = fname a' day' -> a = a' /\ day = day'.
Proof.
  intros (_ & Ha & _) (_ & Ha' & _) E. unfold fname in E.
  assert (Hs := E). apply (f_equal (split_on "_")) in Hs.
  change ("_" +:+ ?x) with (String "_" x) in Hs. rewrite !split_on_cons in Hs by done. injection Hs as <- _.
  split; [done|]. assert (forall u v, a +:+ u = a +:+ v -> u = v) as Hc by (clear; induction a; simpl; [done|]; intros u v [= E]; auto).
  apply Hc in E. injection E as E. by apply (append_cancel day day' ".json").
Qed.

Section Day.
Variable past : env -> Prop.
Variable e : env.
Let api : ExportApi := env_api e.
Let calendar : Calendar := env_calendar e.
#[local] Existing Instances api calendar.
Hypothesis texts : keys_texts e.
Hypothesis now_past : past e.

(** The outcome of an export compared with that of a fresh query. *)
Definition as_fresh (r r0 : result (list entry)) : Prop :=
  match r, r0 with
  | Ok l, Ok l0 => canon l = canon l0
  | Throw m, Throw m0 => m = m0
  | _, _ => False
  end.

(** The entries that asking for a day gave: now, or when they were cached. *)
Definition told (a day : string) (l : list entry) : Prop :=
  as_fresh (Ok l) (fresh e a day) \/
  exists e1, past e1 /\ ~ current e1 day /\ as_fresh (Ok l) (fresh e1 a day).

Lemma inv_only_keys s s' : only_keys s s' -> export_inv past s -> export_inv past s'.
Proof. intros [Hk [f ->]] (Hr & Hr' & _ & Hp & Hn). by split. Qed.

Lemma keys_ok_no_state : keys_ok no_state.
Proof. apply map_Forall_empty. Qed.

(** A fresh query returns the same from any state. *)
Lemma query_fresh a day s : keys_ok s ->
  let '(r, s') := query_day [("address", Str a)] day s in
  only_keys s s' /\
  match r, fresh e a day with
  | Ok l, Ok l0 => same_history l l0
  | Throw m, Throw m0 => m = m0
  | _, _ => False
  end.
Proof.
  intros Hs. destruct (query_day_agrees texts [("address", Str a)] day s no_state Hs keys_ok_no_state) as (Hk & _ & Hm).
  change (fst (query_day _ day no_state)) with (fresh e a day) in Hm.
  by destruct (query_day _ _ s) as [[l|m] s'], (fresh e a day) as [l0|m0].
Qed.

Lemma inv_no_history a day s : valid_name a day -> ~ current e day -> fresh e a day = Ok [] -> export_inv past s ->
  export_inv past (set_noHistory (fun c => {[fname a day]} ∪ c) s).
Proof.
  intros Hv Ho Hf (Hr & Hr' & Hk & Hp & Hn). do 4 (split; [done|]).
  intros a' day' Hv' [E%elem_of_singleton|Hin]%elem_of_union; [|by apply Hn].
  apply (fname_inj _ _ _ _ Hv' Hv) in E as [-> ->]. by exists e.
Qed.

Lemma inv_partial a day l l0 s : valid_name a day -> ~ current e day -> fresh e a day = Ok l0 -> canon l = canon l0 ->
  export_inv past s -> export_inv past (set_files (snd (cache_write cwd (env_now e) partials (fname a day) (Json l) (files s))) s).
Proof.
  intros Hv Ho Hf Hc (Hr & Hs & Hk & Hp & Hn).
  pose proof (write_file_dirs cwd (env_now e) (in_cache partials (fname a day)) (Json l) (files s)) as Hdirs.
  destruct (cache_write_ok cwd (env_now e) partials ltac:(done) (files s) (fname a day) (Json l) Hr (fname_plain _ _ Hv))
    as (d' & Ew & Hr' & Hst'). unfold cache_write in Ew. unfold cache_write. rewrite Ew in *. cbn [snd] in *.
  split; [done|]. split; [by apply (cache_ready_dirs _ _ _ _ Hdirs)|]. split; [done|]. split; [|done].
  intros a' day' c Hv'. cbn [files set_files].
  rewrite Hst' by (by apply fname_plain). destruct (decide (fname a' day' = fname a day)) as [E|E]; [|by apply Hp].
  apply (fname_inj _ _ _ _ Hv' Hv) in E as [-> ->]. intros [= <-]. by exists e, l, l0.
Qed.

(** A day that is not cached. *)
Definition query_and_store (params : obj) (day fn : string) : eff exporter (list entry) :=
  entriesForDay ← query_day params day;
  (if negb (String.eqb day (today_after day)) then
     match entriesForDay with
     | [] => modify (set_noHistory (fun c => {[fn]} ∪ c))
     | _ => write_partial cwd (env_now e) fn entriesForDay
     end
   else ret tt) ≫= fun _ => ret entriesForDay.

Definition known (a day : string) : Prop := exists l0, fresh e a day = Ok l0 /\ Forall serializable l0.
Definition day_spec (a day : string) (s : exporter) (out : result (list entry) * exporter) : Prop :=
  export_inv past (snd out) /\ tokenModuleData (snd out) = tokenModuleData s /\
  (known a day -> exists l, fst out = Ok l /\ told a day l).

Lemma query_and_store_spec params a day s :
  prop params "address" = Str a -> valid_name a day -> export_inv past s ->
  day_spec a day s (query_and_store params day (fname a day) s).
Proof.
  intros Ha Hv Hinv. unfold query_and_store.
  rewrite query_day_address, Ha by (rewrite Ha; simpl; destruct Hv; by destruct (String.eqb_spec a "")).
  pose proof (query_fresh a day s (proj1 (proj2 (proj2 Hinv)))) as Hq. unfold mbind at 1, eff_bind at 1.
  destruct (query_day [("address", Str a)] day s) as [[l|m] s1]; destruct Hq as [Hk1 Hf]; apply (inv_only_keys _ _ Hk1) in Hinv;
    assert (Hg : tokenModuleData s1 = tokenModuleData s) by (by destruct Hk1 as [_ [f ->]]); unfold day_spec, known, told;
    destruct (fresh e a day) as [l0|m0] eqn:Ef; try done.
  2:{ split; [done|]. split; [done|]. by intros (l1 & ? & _). }
  destruct Hf as [Hc Hs]. assert (as_fresh (Ok l) (Ok l0)) as Hl by done.
  destruct (String.eqb_spec day (today_after day)) as [Htd|Htd]; cbn [negb]; [by eauto 10|].
  destruct l as [|x l].
  - symmetry in Hc. apply canon_nil in Hc as ->. split; [by apply inv_no_history|]. split; [done|]. by eauto.
  - unfold write_partial, mbind, eff_bind, lift. destruct (mapM_result json_entry (x :: l)) as [l'|m] eqn:Em.
    + split; [|by eauto 10]. apply (inv_partial a day l' l0); try done. rewrite <- Hc. by apply mapM_json_canon.
    + split; [done|]. split; [done|]. intros (l1 & [= <-] & Hser). apply Hs in Hser. apply serializable_mapM in Hser as (l' & E).
      by rewrite E in Em.
Qed.

Lemma export_day_spec params a day s :
  prop params "address" = Str a -> valid_name a day -> export_inv past s ->
  day_spec a day s (export_day cwd (env_now e) params day s).
Proof.
  intros Ha Hv Hinv. pose proof (query_and_store_spec params a day s Ha Hv Hinv) as Hquery.
  unfold export_day, getPartialFilenameFromParams, getAddressFromParams. rewrite Ha.
  replace (truthy (Str a)) with true by (simpl; destruct Hv; by destruct (String.eqb_spec a "")).
  unfold mbind at 1, eff_bind at 1, lift. cbn [mbind result_bind js_String]. fold (fname a day).
  assert (Hi := Hinv). destruct Hi as (Hr & _ & Hk & Hp & Hn). unfold gets, mbind at 1, eff_bind at 1.
  case_bool_decide as Hno.
  { destruct (Hn a day Hv Hno) as (e1 & He1 & Hc1 & Hf). do 2 (split; [done|]). intros _. exists []. split; [done|].
    right. exists e1. by rewrite Hf. }
  unfold mbind at 1, eff_bind at 1. rewrite cache_fileExists_stored by (done || by apply fname_plain).
  case_bool_decide as Hst; [|exact Hquery].
  destruct Hst as [c Hst]. destruct (Hp _ _ _ Hv Hst) as (e1 & l & l0 & He1 & Hc1 & -> & Hf & Hc).
  unfold read_partial, on_files, mbind, eff_bind.
  rewrite (cache_read_stored cwd partials ltac:(done) _ _ _ (fname_plain _ _ Hv) Hst).
  replace (set_files (files s) s) with s by (by destruct s). do 2 (split; [done|]). intros _. exists l. split; [done|].
  right. exists e1. by rewrite Hf.
Qed.

(** All days of an interval, one after the other. *)
Lemma export_days_spec params a days s :
  prop params "address" = Str a -> Forall (valid_name a) days -> export_inv past s ->
  let out := map_each days (export_day cwd (env_now e) params) s in
  export_inv past (snd out) /\ tokenModuleData (snd out) = tokenModuleData s /\
  (Forall (known a) days -> exists ls, fst out = Ok ls /\ Forall2 (told a) days ls).
Proof.
  intros Ha Hv. revert s. induction days as [|day days IH]; intros s Hinv; cbn [map_each].
  { split; [done|]. split; [done|]. intros _. by exists []. }
  apply Forall_cons in Hv as [Hv Hvs].
  destruct (export_day_spec params a day s Ha Hv Hinv) as (Hinv1 & Hg1 & Hf). unfold mbind, eff_bind.
  destruct (export_day cwd (env_now e) params day s) as [[l|m] s1]; cbn [fst snd] in *.
  2:{ do 2 (split; [done|]). intros [Hk _]%Forall_cons. by destruct (Hf Hk) as (? & ? & _). }
  specialize (IH Hvs s1 Hinv1). destruct (map_each days _ s1) as [[ls|m] s2]; cbn [fst snd] in *; destruct IH as (Hinv2 & Hg2 & IH).
  - split; [done|]. split; [simpl; congruence|]. intros [Hk Hrest]%Forall_cons. destruct (IH Hrest) as (ls' & [= <-] & Hls).
    destruct (Hf Hk) as (l' & [= <-] & Hl). exists (l :: ls). split; [done|]. by constructor.
  - split; [done|]. split; [simpl; congruence|]. intros [_ Hrest]%Forall_cons. by destruct (IH Hrest) as (ls' & ? & _).
Qed.
End Day.

(** ** Operations that leave the cached histories alone *)
Definition partials_dir : path := resolve cwd (dirPath partials).
Definition static_dir : path := resolve cwd (dirPath staticFiles).

Definition quiet (s s' : exporter) : Prop :=
  publicKeyCache s' ⊆ publicKeyCache s /\ noHistoryCache s' ⊆ noHistoryCache s /\ same_dirs (files s) (files s') /\
  forall name, files s' !! (partials_dir ++ [name]) = files s !! (partials_dir ++ [name])
               \/ files s' !! (partials_dir ++ [name]) = None.

Lemma quiet_refl s : quiet s s.
Proof. repeat split; auto. Qed.

Lemma quiet_trans s1 s2 s3 : quiet s1 s2 -> quiet s2 s3 -> quiet s1 s3.
Proof.
  intros (K1 & N1 & D1 & F1) (K2 & N2 & D2 & F2). split; [by transitivity (publicKeyCache s2)|].
  split; [set_solver|]. split; [by eapply same_dirs_trans|]. intros name. destruct (F2 name) as [->|?]; [apply F1|by right].
Qed.

Lemma quiet_inv (past : env -> Prop) s s' : quiet s s' -> export_inv past s -> export_inv past s'.
Proof.
  unfold quiet, partials_dir. intros (K & N & D & F) (Hr & Hs & Hk & Hp & Hn).
  split; [by eapply cache_ready_dirs|]. split; [by eapply cache_ready_dirs|]. split; [|split].
  - intros k v Hv. eapply Hk, lookup_weaken; eauto.
  - intros a day c Hv Hst. apply Hp; [done|]. unfold stored in *.
    destruct (F (fname a day)) as [E|E]; rewrite E in Hst; [done|discriminate].
  - intros a day Hv Hin. apply Hn; [done|set_solver].
Qed.

Definition calm {A} (m : eff exporter A) : Prop := forall s, quiet s (snd (m s)).

Lemma calm_ret {A} (a : A) : calm (ret a).
Proof. intros s. apply quiet_refl. Qed.
Lemma calm_lift {A} (r : result A) : calm (lift r).
Proof. intros s. apply quiet_refl. Qed.
Lemma calm_throw {A} m : calm (throw (A := A) m).
Proof. intros s. apply quiet_refl. Qed.
Lemma calm_gets {A} (f : exporter -> A) : calm (gets f).
Proof. intros s. apply quiet_refl. Qed.
Lemma calm_scheduled f : calm (modify (set_scheduled f)).
Proof. intros s. repeat split; by auto. Qed.
Lemma calm_queue f : calm (modify (set_queue f)).
Proof. intros s. repeat split; by auto. Qed.
Lemma calm_timeouts f : calm (modify (set_timeouts f)).
Proof. intros s. repeat split; by auto. Qed.

Lemma calm_bind {A B} (m : eff exporter A) (f : A -> eff exporter B) : calm m -> (forall a, calm (f a)) -> calm (m ≫= f).
Proof.
  intros Hm Hf s. unfold mbind, eff_bind. specialize (Hm s). destruct (m s) as [[a|m'] s1]; simpl in *; [|done].
  eapply quiet_trans; [done|apply Hf].
Qed.

Lemma calm_lift_bind {A B} (r : result A) (f : A -> eff exporter B) : (forall a, r = Ok a -> calm (f a)) -> calm (lift r ≫= f).
Proof. intros Hf s. destruct r as [a|m]; [by apply Hf|apply quiet_refl]. Qed.

Lemma calm_try {A} (m : eff exporter A) h : calm m -> (forall x, calm (h x)) -> calm (try_catch m h).
Proof.
  intros Hm Hh s. unfold try_catch. specialize (Hm s). destruct (m s) as [[a|x] s1]; simpl in *; [done|].
  destruct (String.eqb x never_returns); [done|]. eapply quiet_trans; [done|apply Hh].
Qed.

Lemma calm_map_each {A B} (l : list A) (f : A -> eff exporter B) : (forall a, calm (f a)) -> calm (map_each l f).
Proof.
  intros Hf. induction l as [|x l IH]; simpl; [apply calm_ret|]. apply calm_bind; [done|]. intros y.
  apply calm_bind; [done|]. intros ys. apply calm_ret.
Qed.

(** The files of the two directories are different ones. *)
Lemma dirs_differ fn name : static_dir ++ [fn] <> partials_dir ++ [name].
Proof.
  unfold static_dir, partials_dir, resolve. simpl. unfold path_step; simpl. intros E.
  apply app_inj_2 in E as [E _]; [|done]. apply app_inj_2 in E as [_ E]; [|done]. discriminate E.
Qed.

Lemma quiet_files s d' : same_dirs (files s) d' ->
  (forall name, d' !! (partials_dir ++ [name]) = files s !! (partials_dir ++ [name])) -> quiet s (set_files d' s).
Proof. intros Hd Hp. split; [done|]. split; [done|]. split; [done|]. intros name. by left. Qed.

Lemma calm_write_workbook now fn book : plain_name fn = true -> calm (write_workbook cwd now fn book).
Proof.
  intros Hfn s. pose proof (write_file_dirs cwd now (in_cache staticFiles fn) (Xlsx book) (files s)) as Hd.
  unfold write_workbook, on_files. destruct (write_file _ _ _ _ _) as [r d'] eqn:E. apply quiet_files; [done|].
  intros name. unfold write_file, in_cache in E. rewrite resolve_entry in E by done. fold static_dir in E.
  pose proof (dirs_differ fn name).
  destruct (files s !! removelast _) as [[? ?|?]|], (files s !! (static_dir ++ [fn])) as [[? ?|?]|]; simplify_eq; try done;
    by rewrite lookup_insert_ne.
Qed.

Lemma calm_remove fn : plain_name fn = true -> calm (on_files (cache_remove cwd staticFiles fn)).
Proof.
  intros Hfn s. pose proof (rm_file_dirs cwd (in_cache staticFiles fn) (files s)) as Hd.
  unfold on_files, cache_remove. destruct (rm_file _ _ _) as [r d'] eqn:E. apply quiet_files; [done|].
  intros name. unfold rm_file, at_path, in_cache in E. rewrite resolve_entry in E by done. fold static_dir in E.
  pose proof (dirs_differ fn name). destruct (files s !! (static_dir ++ [fn])) as [[? ?|?]|]; simplify_eq; try done.
  by rewrite lookup_delete_ne.
Qed.

Lemma calm_read_file fn : calm (on_files (read_file cwd fn)).
Proof.
  intros s. unfold on_files, read_file. assert (quiet s (set_files (files s) s)) by (destruct s; apply quiet_refl).
  by destruct (at_path cwd fn (files s)) as [[? ?|?]|].
Qed.

Lemma has_char_elem c s : c ∉ String.list_ascii_of_string s -> has_char c s = false.
Proof.
  induction s as [|a s IH]; [done|]. simpl. rewrite not_elem_of_cons. intros [Ha Hs]. rewrite (IH Hs).
  by destruct (Ascii.eqb_spec a c); [subst|].
Qed.

(** The names that can be downloaded are entries of a directory. *)
Lemma export_filename_plain fn : regex_test EXCEL_EXPORT_FILENAME fn = true -> plain_name fn = true.
Proof.
  intros Hfn. unfold plain_name. rewrite has_char_elem by (by apply (regex_test_avoids slash EXCEL_EXPORT_FILENAME)).
  destruct (String.eqb_spec fn "") as [->|]; [by vm_compute in Hfn|].
  destruct (String.eqb_spec fn ".") as [->|]; [by vm_compute in Hfn|].
  by destruct (String.eqb_spec fn "..") as [->|]; [vm_compute in Hfn|].
Qed.

Create HintDb calm.

Section CalmOperations.
Context `{ExportApi} `{Calendar}.

Hint Resolve calm_ret calm_lift calm_throw calm_gets calm_scheduled calm_queue calm_timeouts calm_read_file : calm.

Ltac solve_calm :=
  repeat first
    [ solve [eauto with calm]
    | apply calm_bind; [|intros ?]
    | apply calm_try; [|intros ?]
    | apply calm_map_each; intros ?
    | match goal with
      | |- calm (if ?b then _ else _) => destruct b eqn:?
      | |- calm (match ?x with _ => _ end) => destruct x
      end
    | progress cbv beta zeta ].

Lemma calm_genesis : calm getTokenBalancesAtGenesis.
Proof. intros s. unfold getTokenBalancesAtGenesis. by destruct (tokenModuleData s); repeat split; auto. Qed.

Lemma calm_genesis_loaded : calm genesis_assets_loaded.
Proof. intros s. unfold genesis_assets_loaded. by destruct fetch_genesis_balances; repeat split; auto. Qed.

Hint Resolve calm_genesis : calm.

Lemma calm_metadata params id c : calm (getMetadataEntries params id c).
Proof. unfold getMetadataEntries, getOpeningBalances. solve_calm. Qed.

Lemma calm_reschedule params : calm (rescheduleExportOnTimeout params).
Proof. unfold rescheduleExportOnTimeout. solve_calm. Qed.

Lemma calm_schedule params : calm (scheduleTransactionHistoryExport cwd params).
Proof. unfold scheduleTransactionHistoryExport, schedule_body. solve_calm. Qed.

Lemma calm_download hex fn : calm (downloadTransactionHistory cwd hex fn).
Proof.
  unfold downloadTransactionHistory. destruct (regex_test EXCEL_EXPORT_FILENAME fn) eqn:E; [|apply calm_throw].
  apply export_filename_plain in E. pose proof (calm_remove fn E). solve_calm.
Qed.
End CalmOperations.

Lemma calm_purge (now : Z) : calm (purge_job cwd now).
Proof.
  intros s. unfold purge_job, cache_purge. cbn [snd].
  destruct (purge_spec cwd now (dirPath partials) (Some (retentionInDays partials)) (files s)) as [D1 F1].
  set (d1 := snd (purge cwd now (dirPath partials) _ (files s))) in *.
  destruct (purge_spec cwd now (dirPath staticFiles) (Some (retentionInDays staticFiles)) d1) as [D2 F2].
  split; [done|]. split; [done|]. split; [by eapply same_dirs_trans|]. intros name. cbn [files set_files].
  destruct (F2 (partials_dir ++ [name])) as [->|?]; [apply F1|by right].
Qed.

(** ** The service over time *)

Definition from_of (interval : string) : string := default "" (split_on ":" interval !! 0%nat).
Definition to_of (interval : string) : string := default "" (split_on ":" interval !! 1%nat).

Section Job.
Variable past : env -> Prop.
Variable e : env.
Let api : ExportApi := env_api e.
Let calendar : Calendar := env_calendar e.
#[local] Existing Instances api calendar.
Hypothesis texts : keys_texts e.
Hypothesis now_past : past e.

(** A job for an address, with days and files that have plain names. *)
Record job_ok (j : job) (a : string) : Prop := {
  job_address : prop (j_params j) "address" = Str a;
  job_days : forall interval day, standardizeIntervalFromParams (j_params j) = Ok interval ->
    day ∈ days_of (from_of interval) (to_of interval) -> valid_name a day;
  job_file : forall chainID fn, export_getCurrentChainID = Ok chainID ->
    getExcelFilenameFromParams (j_params j) chainID = Ok fn -> plain_name fn = true }.

Lemma calm_build_workbook j a all timeout : job_ok j a -> calm (build_workbook cwd (env_now e) (j_params j) all timeout).
Proof.
  intros Hj. unfold build_workbook. cbv zeta. apply calm_lift_bind. intros c Hc.
  apply calm_bind; [apply calm_map_each; intros id; apply calm_metadata|]. intros ms.
  apply calm_lift_bind. intros fn Hfn.
  apply calm_bind; [by apply calm_write_workbook, (job_file _ _ Hj c _ Hc)|]. intros _.
  apply calm_bind; [apply calm_scheduled|]. intros _. destruct timeout; [apply calm_timeouts|apply calm_ret].
Qed.

Lemma job_days_ok j a interval : job_ok j a -> standardizeIntervalFromParams (j_params j) = Ok interval ->
  Forall (valid_name a) (days_of (from_of interval) (to_of interval)).
Proof. intros Hj Hi. apply Forall_forall; intros day Hd; by eapply job_days in Hd. Qed.

(** Setting a timer changes nothing else. *)
Lemma timer_ok (b : bool) params s : exists s1,
  (if b then modify (set_timeouts (fun t => t ++ [params])) else ret tt) s = (Ok tt, s1) /\ quiet s s1 /\ tokenModuleData s1 = tokenModuleData s.
Proof. destruct b; eexists; (split; [reflexivity|]); (split; [|done]); [apply (calm_timeouts (fun t => t ++ [params]))|apply quiet_refl]. Qed.

Lemma collect_entries_inv j a s : job_ok j a -> export_inv past s -> export_inv past (snd (collect_entries cwd (env_now e) j s)).
Proof.
  intros Hj Hinv. unfold collect_entries. cbv zeta.
  destruct (checkIfAccountHasTransactions _) as [b1|m]; [|done]. rewrite (lift_ok _ _ _ b1) by done.
  destruct (checkIfAccountIsValidator _) as [b2|m]; [|done]. rewrite (lift_ok _ _ _ b2) by done.
  destruct (b1 || b2); [|done]. destruct (standardizeIntervalFromParams (j_params j)) as [interval|m] eqn:Ei; [|done].
  rewrite (lift_ok _ _ _ interval) by done. pose proof (job_days_ok _ _ _ Hj Ei) as Hv.
  destruct (timer_ok (negb (j_isRescheduled j) && (j_attemptsMade j =? j_attempts j - 1)) (j_params j) s) as (s1 & E1 & Hq & _).
  rewrite (M_bind_ok _ _ _ _ _ E1). apply (quiet_inv _ _ _ Hq) in Hinv.
  destruct (export_days_spec past e texts now_past (j_params j) a _ s1 (job_address _ _ Hj) Hv Hinv) as [Hinv2 _].
  unfold export_interval. fold (from_of interval) (to_of interval). unfold mbind, eff_bind.
  by destruct (map_each _ _ s1) as [[ls|m] s2].
Qed.

Lemma exportTransactions_inv j a s : job_ok j a -> export_inv past s -> export_inv past (snd (exportTransactions cwd (env_now e) j s)).
Proof.
  intros Hj Hinv. apply (collect_entries_inv _ _ _ Hj) in Hinv. unfold exportTransactions, mbind, eff_bind.
  destruct (collect_entries cwd (env_now e) j s) as [[[all t]|m] s1]; [|done].
  eapply quiet_inv; [by eapply calm_build_workbook|done].
Qed.
End Job.

(** What can happen to the service: jobs, requests, the background work, caches
    that forget, and the passing of time, in which the services may come to
    answer anything, about past days too. *)
Inductive step : env * exporter -> env * exporter -> Prop :=
| step_export e s j a : job_ok e j a ->
    step (e, s) (e, snd (exportTransactions (H := env_api e) (H0 := env_calendar e) cwd (env_now e) j s))
| step_timeout e s params :
    step (e, s) (e, snd (rescheduleExportOnTimeout (H := env_api e) (H0 := env_calendar e) params s))
| step_schedule e s params :
    step (e, s) (e, snd (scheduleTransactionHistoryExport (H := env_api e) (H0 := env_calendar e) cwd params s))
| step_download e s hex fn :
    step (e, s) (e, snd (downloadTransactionHistory (H0 := env_calendar e) cwd hex fn s))
| step_genesis e s : step (e, s) (e, snd (genesis_assets_loaded (H := env_api e) s))
| step_purge e s : step (e, s) (e, snd (purge_job cwd (env_now e) s))
| step_forget e s f g : (forall c, f c ⊆ c) -> (forall c, g c ⊆ c) -> step (e, s) (e, set_keys f (set_noHistory g s))
| step_time e e' s : keys_texts e' -> step (e, s) (e', s).

(** The service starts with its two directories and empty caches. *)
Definition started (s : exporter) : Prop :=
  cache_ready cwd partials (files s) /\ cache_ready cwd staticFiles (files s) /\
  (forall name, stored cwd partials (files s) name = None) /\ publicKeyCache s = ∅ /\ noHistoryCache s = ∅.

Definition after_init (now : Z) : exporter :=
  set_files (snd (cache_init cwd now staticFiles (snd (cache_init cwd now partials ∅)))) no_state.

Lemma started_after_init now : started (after_init now).
Proof.
  unfold after_init, cache_init. destruct (mkdir_only_dirs (C := content) cwd now (dirPath partials) ∅) as [-> H1]; [by intros q c t|].
  destruct (mkdir_only_dirs cwd now (dirPath staticFiles) _ H1) as [E H2]. cbn [snd]. rewrite E. cbn [snd].
  fold partials_dir static_dir in *. set (d := mkdir_at now static_dir (mkdir_at now partials_dir ∅)) in *.
  assert (Hd : forall q, d !! q = if decide (q `prefix_of` partials_dir \/ q `prefix_of` static_dir) then Some (Dir now) else None).
  { intros q. unfold d. rewrite !mkdir_at_lookup, lookup_empty. destruct (decide (q `prefix_of` partials_dir)).
    - by rewrite decide_True by auto.
    - apply decide_ext. naive_solver. }
  assert (Hlen : length partials_dir = length static_dir) by (unfold partials_dir, static_dir, resolve, path_step; simpl; by rewrite !length_app).
  assert (Hlong : forall q name, length q = length partials_dir -> ~ ((q ++ [name]) `prefix_of` partials_dir \/ (q ++ [name]) `prefix_of` static_dir)).
  { intros q name Hq [Hp%prefix_length|Hp%prefix_length]; rewrite length_app in Hp; simpl in Hp; lia. }
  split; [|split; [|split; [|done]]].
  - split; [exists now; cbn [files set_files]; fold partials_dir; rewrite Hd, decide_True; auto|].
    intros name t _. cbn [files set_files]. fold partials_dir. rewrite Hd, decide_False by (by apply Hlong). done.
  - split; [exists now; cbn [files set_files]; fold static_dir; rewrite Hd, decide_True; auto|].
    intros name t _. cbn [files set_files]. fold static_dir. rewrite Hd, decide_False by (by apply Hlong). done.
  - intros name. unfold stored. cbn [files set_files]. fold partials_dir. by rewrite Hd, decide_False by (by apply Hlong).
Qed.

(** An instant between two moments of a run *)
Definition earlier (x y : env * exporter) (e : env) : Prop := exists s, rtc step x (e, s) /\ rtc step (e, s) y.

Lemma step_inv x y (past : env -> Prop) : step x y -> keys_texts x.1 -> past x.1 -> past y.1 -> export_inv past x.2 ->
  keys_texts y.1 /\ export_inv past y.2.
Proof.
  intros Hs Ht Hx Hy Hinv. destruct Hs; cbn [fst snd] in *; split; try done.
  - by eapply exportTransactions_inv.
  - eapply quiet_inv; [apply calm_reschedule|done].
  - eapply quiet_inv; [apply calm_schedule|done].
  - eapply quiet_inv; [apply calm_download|done].
  - eapply quiet_inv; [apply calm_genesis_loaded|done].
  - eapply quiet_inv; [apply calm_purge|done].
  - eapply quiet_inv; [|done]. unfold quiet; simpl. by auto 10 using same_dirs_refl.
Qed.

Lemma run_inv x y : keys_texts x.1 -> started x.2 -> rtc step x y -> keys_texts y.1 /\ export_inv (earlier x y) y.2.
Proof.
  intros Ht (Hr & Hs & Hp & Hk & Hn). revert y.
  apply (rtc_ind_r (fun y => keys_texts y.1 /\ export_inv (earlier x y) y.2)); [|intros y z Hxy Hyz [IHt IH]].
  - split; [done|]. do 2 (split; [done|]). split; [unfold keys_ok; rewrite Hk; apply map_Forall_empty|]. split.
    + intros a day c _ E. by rewrite Hp in E.
    + intros a day _. rewrite Hn. set_solver.
  - apply (step_inv y z); [done|done|..].
    + destruct y as [e s]. exists s. split; [done|by apply rtc_once].
    + destruct z as [e s]. exists s. split; [by eapply rtc_r|done].
    + eapply export_inv_mono; [|done]. intros e (s & H1 & H2). exists s. split; [done|by eapply rtc_r].
Qed.

Section Result.
Variables (e : env) (j : job) (a chain : string).
Let api : ExportApi := env_api e.
Let calendar : Calendar := env_calendar e.
#[local] Existing Instances api calendar.

(** The services answer what the workbook needs beyond the entries. *)
Definition metadata_known (genesis : option (list val)) : Prop :=
  export_getCurrentChainID = Ok (Str chain) /\ (forall id, is_ok (getChainInfo id) = true) /\
  forall s, tokenModuleData s = genesis -> is_ok (fst (getOpeningBalances (Str a) s)) = true.

(** Every day can be queried. *)
Definition days_known (days : list string) : Prop := Forall (known e a) days.

Lemma opening_balances_genesis v s : tokenModuleData (snd (getOpeningBalances v s)) = tokenModuleData s.
Proof.
  unfold getOpeningBalances, getTokenBalancesAtGenesis, mbind, eff_bind. destruct (tokenModuleData s) as [l|] eqn:E; simpl.
  - by destruct (js_filter _ l).
  - by destruct (result_bind _ _ _ _).
Qed.

Lemma metadata_ok params ids s : prop params "address" = Str a -> metadata_known (tokenModuleData s) ->
  exists l s', map_each ids (fun id => getMetadataEntries params id (Str chain)) s = (Ok l, s').
Proof.
  intros Ha (_ & Hc & Ho). remember (tokenModuleData s) as g eqn:Hg. symmetry in Hg. revert s Hg.
  induction ids as [|id ids IH]; intros s Hg; cbn [map_each]; [by exists [], s|].
  assert (exists l s', getMetadataEntries params id (Str chain) s = (Ok l, s') /\ tokenModuleData s' = g) as (l & s1 & E & Hg1).
  { unfold getMetadataEntries. specialize (Hc id). destruct (getChainInfo id) as [c|]; [|done].
    rewrite (lift_ok _ _ _ c) by done. rewrite Ha. case_bool_decide; [|unfold mbind, eff_bind; simpl; eauto].
    specialize (Ho s Hg). pose proof (opening_balances_genesis (Str a) s) as Hs. unfold mbind, eff_bind.
    destruct (getOpeningBalances (Str a) s) as [[b|] s1]; [|done]. simpl in *. rewrite Hg in Hs. eauto. }
  rewrite (M_bind_ok _ _ _ _ _ E). destruct (IH s1 Hg1) as (ls & s2 & E2). rewrite (M_bind_ok _ _ _ _ _ E2). eauto.
Qed.

Lemma build_workbook_ok all t s : job_ok e j a -> metadata_known (tokenModuleData s) ->
  is_ok (standardizeIntervalFromParams (j_params j)) = true -> a <> "" -> cache_ready cwd staticFiles (files s) ->
  exists fn meta s', getExcelFilenameFromParams (j_params j) (Str chain) = Ok fn /\
    build_workbook cwd (env_now e) (j_params j) all t s = (Ok tt, s') /\
    stored cwd staticFiles (files s') fn = Some (Xlsx [history_sheet all; meta]).
Proof.
  intros Hj Hm Hi Ha Hr. assert (Hchain := proj1 Hm).
  destruct (getExcelFilenameFromParams (j_params j) (Str chain)) as [fn|] eqn:Ef.
  2:{ unfold getExcelFilenameFromParams, getAddressFromParams in Ef. rewrite (job_address _ _ _ Hj) in Ef.
      replace (truthy (Str a)) with true in Ef by (simpl; by destruct (String.eqb_spec a "")).
      by destruct (standardizeIntervalFromParams (j_params j)). }
  assert (Hfn := job_file _ _ _ Hj _ _ Hchain Ef). unfold build_workbook. rewrite (lift_ok _ _ _ (Str chain)) by done. cbv zeta.
  destruct (metadata_ok (j_params j) (getUniqueChainIDs all) s (job_address _ _ _ Hj) Hm) as (ms & s1 & E1).
  assert (Hr1 : cache_ready cwd staticFiles (files s1)).
  { pose proof (calm_map_each (getUniqueChainIDs all) (fun id => getMetadataEntries (j_params j) id (Str chain))
      (fun id => calm_metadata _ _ _) s) as (_ & _ & Hd & _). rewrite E1 in Hd. by eapply cache_ready_dirs. }
  rewrite (M_bind_ok _ _ _ _ _ E1), (lift_ok _ _ _ fn) by done.
  destruct (cache_write_ok cwd (env_now e) staticFiles ltac:(done) (files s1) fn
    (Xlsx [history_sheet all; metadata_sheet (concat ms)]) Hr1 Hfn) as (d' & Ew & _ & Hst).
  unfold write_workbook, on_files, mbind at 1, eff_bind at 1. unfold cache_write in Ew. rewrite Ew.
  exists fn, (metadata_sheet (concat ms)). destruct t; eexists; (split; [done|]); (split; [reflexivity|]);
    cbn [files set_files set_scheduled set_timeouts]; rewrite Hst by done; by rewrite decide_True.
Qed.
End Result.
End Cache.


(** ** A small chain to try the export on *)

Definition sample_days : list string := ["2024-01-01"; "2024-01-02"; "2024-01-03"; "2024-01-04"].
Fixpoint position (x : string) (l : list string) : Z :=
  match l with [] => 0 | y :: l => if String.eqb x y then 0 else 1 + position x l end.
Definition day_number (day : string) : Z := position day sample_days.

Definition sample_calendar (now : string) : Calendar := {|
  today := now;
  today_after _ := now;
  utc_date v := match v with Num t => default "" (sample_days !! Z.to_nat (t / 86400)) | _ => "Invalid date" end;
  utc_time _ := "10:00:00";
  local_date _ := "2024-01-01";
  date_before x y := day_number x <? day_number y;
  days_of from to := take (Z.to_nat (day_number to + 1 - day_number from)) (drop (Z.to_nat (day_number from)) sample_days);
  day_start day := 86400 * day_number day;
  day_end day := 86400 * day_number day + 86399;
  ends_by _ _ := true |}.

Definition id_text (c : ascii) : string := String.string_of_list_ascii (replicate 64 c).
Definition alice : string := "kly1alice".
Definition bob : string := "kly2bob".

Definition sample_transfer (c : ascii) (sender recipient : string) (day : Z) : val :=
  Object [("id", Str (id_text c)); ("moduleCommand", TRANSFER); ("executionStatus", Str "successful"); ("fee", Str "100");
          ("senderPublicKey", Str (sender +:+ "-key"));
          ("sender", Object [("address", Str sender); ("publicKey", Str (sender +:+ "-key"))]);
          ("params", Object [("tokenID", Str "0400000000000000"); ("amount", Str "500"); ("recipientAddress", Str recipient); ("data", Str "")]);
          ("block", Object [("id", Str "block"); ("height", Num 10); ("timestamp", Num (86400 * day))])].
Definition sample_event (module name : string) (topics : list val) (data : obj) : val :=
  Object [("module", Str module); ("name", Str name); ("topics", Arr topics); ("data", Object data);
          ("block", Object [("id", Str "block"); ("height", Num 10)])].
Definition lock_event (c : ascii) (address : string) : val := sample_event "token" "lock" [Str (TX_ID +:+ id_text c); Str address] [].
Definition sample_block : val :=
  Object [("id", Str "block"); ("height", Num 10); ("timestamp", Num 0); ("generator", Object [("publicKey", Str "generator-key")])].

Definition listed (l : list val) : result val :=
  Ok (Object [("data", Arr l); ("meta", Object [("total", Num (Z.of_nat (length l)))])]).

(** The transactions are [txs], and [events] gives the events of a day. *)
Definition sample_api (txs : list val) (events : string -> list val) : ExportApi := {|
  requestIndexer method params :=
    if String.eqb method "network.status" then Ok (Object [("data", Object [("chainID", Str "04000000"); ("genesisHeight", Num 0)])])
    else if String.eqb method "transactions" then listed txs
    else if String.eqb method "blocks" then listed [sample_block]
    else if String.eqb method "events" then listed (events (js_String (prop params "timestamp")))
    else if String.eqb method "token.account.exists" then Ok (Object [("data", Object [("isExists", Bool (bool_decide (prop params "address" = Str alice)))])])
    else if String.eqb method "index.status" then Ok (Object [("data", Object [("percentageIndexed", Num 100)])])
    else listed [];
  requestConnector method params :=
    if String.eqb method "getFeeTokenID" then Ok (Str "0400000000000000")
    else if String.eqb method "getPosConstants" then Ok (Object [("posTokenID", Str "0400000000000000")])
    else if String.eqb method "getTokenBalancesAtGenesis" then Ok (Arr [])
    else Throw "unknown";
  requestAppRegistry _ _ := listed [Object [("chainName", Str "swaptoshi")]];
  axios _ _ := Rejected None (Str "ECONNREFUSED") "";
  address_of_key v := match v with Str s => Ok (Str s) | _ => Throw "invalid key" end |}.

Definition sample_events (timestamp : string) : list val :=
  if String.eqb timestamp "0:86399" then [lock_event "a" alice]
  else if String.eqb timestamp "172800:259199" then [lock_event "b" alice] else [].
Definition chain_api : ExportApi := sample_api [sample_transfer "a" alice bob 0; sample_transfer "b" bob alice 2] sample_events.

Definition sample_env (now : string) : env := Env chain_api (sample_calendar now) 0.

Definition sample_start : exporter := after_init ["srv"] 0.

Definition sample_job (from to : string) : job :=
  Job [("address", Str alice); ("interval", Str (from +:+ ":" +:+ to))] false 0 attempts.

(** The job in the state after another one for the first two days. *)
Definition sample_later : exporter :=
  snd (exportTransactions (H := chain_api) (H0 := sample_calendar "2024-01-02") ["srv"] 0 (sample_job "2024-01-01" "2024-01-02") sample_start).

(** The conditions on a concrete job are checked by evaluation. *)
Ltac check_job :=
  split; [done| |];
    [ intros interval day Hi Hd; vm_compute in Hi; injection Hi as <-; vm_compute in Hd;
      repeat (apply elem_of_cons in Hd as [->|Hd]; [done|]); by apply elem_of_nil in Hd
    | intros chainID fn [= <-]; vm_compute; by intros [= <-] ].

Lemma sample_later_reachable : rtc (step ["srv"]) (sample_env "2024-01-02", sample_start) (sample_env "2024-01-03", sample_later).
Proof.
  eapply rtc_l; [eapply (step_export _ _ _ (sample_job "2024-01-01" "2024-01-02") alice); check_job|].
  apply rtc_once, step_time. intros v a; destruct v; simpl; eauto; discriminate.
Qed.


(** ** Where the export deviates from its intent *)

Section Deviations.
Context `{ExportApi} `{Calendar}.

Lemma copy_without_fee_fails address chainID feeToken s o : prop o "fee" = Null ->
  exists m, formatTransaction address (Object o) chainID feeToken s = (Throw m, s).
Proof.
  intros Hfee. unfold formatTransaction. cbn [get]. do 3 (rewrite (lift_ok _ _ _ _ eq_refl)).
  destruct (block_time (prop o "block")) as [[date time]|m]; [|by exists m]. rewrite (lift_ok _ _ _ _ eq_refl).
  destruct (normalizeTransactionAmount _ _ _) as [amount|m]; [|by exists m]. rewrite (lift_ok _ _ _ _ eq_refl).
  unfold normalizeTransactionFee. cbn [get]. rewrite Hfee. by eexists.
Qed.

(** A token transfer to oneself is never exported: the second entry is built
    from a copy of the transaction without a fee, which cannot be converted. *)
Lemma self_transfer_fails address e o chainID feeToken s :
  event_is MODULE_TOKEN (Str "lock") e = Ok true -> prop o "moduleCommand" = TRANSFER ->
  checkIfSelfTokenTransfer (Object o) = Ok true ->
  exists m s', lock_entries address e (Object o) chainID feeToken s = (Throw m, s').
Proof.
  intros He Hm Hself. unfold lock_entries. rewrite (lift_ok _ _ _ true) by done. cbn [get].
  rewrite (lift_ok _ _ _ TRANSFER) by (by rewrite Hm).
  replace (true && negb (bool_decide (TRANSFER = TRANSFER_CROSS_CHAIN))) with true by done. cbn [when].
  destruct (formatTransaction address (Object o) chainID feeToken s) as [[d|m] s1] eqn:E1.
  2:{ exists m, s1. apply M_bind_throw. by apply M_bind_throw. }
  rewrite (M_bind_ok _ _ s [d] s1) by (unfold entry_of; by rewrite (M_bind_ok _ _ _ _ _ E1)).
  rewrite (lift_ok _ _ _ true) by done. cbn [when].
  destruct (copy_without_fee_fails address chainID feeToken s1 (spread o [("fee", Null); ("isSelfTokenTransferCredit", Bool true)]))
    as (m & E2); [unfold spread; simpl; by rewrite prop_set_ne, prop_set_eq|].
  exists m, s1. apply M_bind_throw. unfold entry_of. by apply M_bind_throw.
Qed.

(** An event of a cross-chain message that is the first of its day makes the
    search for its transaction read before the start of the list. *)
Lemma first_ccm_event_fails events e ccm : String.length ccm = LENGTH_ID ->
  exists m, event_transaction_id events 0 e (Str (CCM_ID +:+ ccm)) = Throw m.
Proof.
  intros Hl. unfold event_transaction_id, getCcmIDFromTopic0, id_of_topic. rewrite prefix_app, string_length_app, Hl.
  simpl. eauto.
Qed.

(** A block reward that is the last event of a day has no event after it to
    look at. *)
Lemma last_mint_fails address blocks events e s :
  event_is MODULE_TOKEN (Str "mint") e = Ok true -> topic e 1 = Ok address ->
  exists m s', mint_entries address blocks (events ++ [e]) (length events) e s = (Throw m, s').
Proof.
  intros He Ht. unfold mint_entries, andR. rewrite He. cbn [mbind result_bind]. rewrite Ht. cbn [mbind result_bind].
  rewrite bool_decide_eq_true_2 by done. rewrite (lift_ok _ _ _ true) by done. cbn [when].
  unfold nth_val. rewrite lookup_ge_None_2 by (rewrite length_app; simpl; lia). simpl. eauto.
Qed.

(** The answer for an account that does not exist is an error without a status:
    the exception that stands for 404 is replaced before the controller sees it. *)
Lemma missing_account_not_404 cwd params s a interval chain fn :
  getAddressFromParams params = Ok a -> standardizeIntervalFromParams params = Ok interval ->
  export_getCurrentChainID = Ok chain -> getExcelFilenameFromParams params chain = Ok fn ->
  fn ∉ jobScheduledCache s -> cache_fileExists cwd staticFiles fn (files s) = false -> checkIfAccountExists a = Ok false ->
  fst (schedule_controller cwd params s) =
  Throw ("Unable to schedule transaction history export for " +:+ js_String a +:+ " (" +:+ interval
         +:+ ") due to: Account " +:+ js_String a +:+ " not found.").
Proof.
  intros Ha Hi Hc Hf Hj Hs He.
  assert (E : schedule_body cwd params a interval s = (Throw (NotFoundException ("Account " +:+ js_String a +:+ " not found.")), s)).
  { unfold schedule_body. cbv zeta. rewrite (lift_ok _ _ _ _ Hc), (lift_ok _ _ _ _ Hf). unfold mbind at 1, eff_bind at 1, gets.
    rewrite bool_decide_eq_false_2 by done. unfold mbind at 1, eff_bind at 1. rewrite Hs. by rewrite (lift_ok _ _ _ _ He). }
  unfold schedule_controller, try_catch at 1, scheduleTransactionHistoryExport.
  rewrite (lift_ok _ _ _ _ Ha), (lift_ok _ _ _ _ Hi). unfold try_catch. rewrite E.
  replace (String.eqb (NotFoundException _) never_returns) with false by done.
  replace (is_exception "ValidationException" (NotFoundException _)) with false by done.
  change (message_of (NotFoundException ?m)) with m. done.
Qed.
End Deviations.

(** A day that lies ahead is remembered as one without history: an export that
    reaches into the future hides the entries of that day once it has come. *)
Lemma future_day_lost :
  let s := snd (exportTransactions (H := sample_api [sample_transfer "a" alice bob 0] (fun _ => []))
                  (H0 := sample_calendar "2024-01-01") ["srv"] 0 (sample_job "2024-01-01" "2024-01-03") sample_start) in
  fst (export_day (H := chain_api) (H0 := sample_calendar "2024-01-03") ["srv"] 0 (j_params (sample_job "2024-01-03" "2024-01-03")) "2024-01-03" s) = Ok []
  /\ exists entry, fresh (sample_env "2024-01-03") alice "2024-01-03" = Ok [entry].
Proof. split; [by vm_compute|]. eexists. by vm_compute. Qed.

(** A day that ends while its history is queried is cached as it was before its
    end: the entries that came later are not exported. *)
Lemma midnight_day_lost :
  let before := {| today := "2024-01-03"; today_after _ := "2024-01-04"; utc_date := utc_date (Calendar := sample_calendar "2024-01-03");
    utc_time _ := "10:00:00"; local_date _ := "2024-01-01"; date_before := date_before (Calendar := sample_calendar "2024-01-03");
    days_of := days_of (Calendar := sample_calendar "2024-01-03"); day_start := day_start (Calendar := sample_calendar "2024-01-03");
    day_end := day_end (Calendar := sample_calendar "2024-01-03"); ends_by _ _ := true |} in
  let s := snd (exportTransactions (H := sample_api [sample_transfer "a" alice bob 0] (fun _ => [])) (H0 := before) ["srv"] 0
                  (sample_job "2024-01-03" "2024-01-03") sample_start) in
  fst (export_day (H := chain_api) (H0 := sample_calendar "2024-01-04") ["srv"] 0 (j_params (sample_job "2024-01-03" "2024-01-03")) "2024-01-03" s) = Ok []
  /\ exists entry, fresh (sample_env "2024-01-04") alice "2024-01-03" = Ok [entry].
Proof. split; [by vm_compute|]. eexists. by vm_compute. Qed.
