(* ===== verification/Service.v ===== *)
(** * The state of the data service and what it keeps of the node

    [shared/utils/request.js], [shared/constants.js], [utils/pos.js],
    [utils/token.js], [dataService/utils], [dataService/knownAccounts.js],
    [dataService/blocks.js] and the small queries of [dataService/business]:
    network, dynamic reward, authentication, legacy accounts, validators,
    schemas, fee estimates and the calls passed on to the node ([invoke.js]).

    A request of a client runs on a [service]: the database and redis sets
    ([world]), the module variables of the source files, the redis caches and
    the cache of HTTP responses.  Other services answer through [rpc]; since a
    node moves on between two requests, the answer depends on the requests made
    before, which the service records. *)
From S2P Require Import Prelude JsValue Database Engine Search Table World Schemas KvStore Chain PoolAddress.
From S2P Require Import Stake Processors Regex Gateway DataQuery TransactionQuery Http Export.
From Stdlib Require Import Ascii.
Local Open Scope Z_scope.

(** ** Exceptions

    The classes of [framework/src/exceptions] put their name in front of the
    message, as [String(err)] does. *)
Definition exception (name msg : string) : string := name +:+ ": " +:+ msg.
Definition instance_of (name e : string) : bool := String.prefix (name +:+ ": ") e.
Definition exception_names : list string :=
  ["ValidationException"; "InvalidParamsException"; "NotFoundException"; "ServiceUnavailableException"].

(** [err.message] *)
Definition err_message (e : string) : string :=
  match list_find (fun n => instance_of n e = true) exception_names with
  | Some (_, n) => js_slice (String.length n + 2) e
  | None => e
  end.

(** [String(err)] *)
Definition err_text (e : string) : string :=
  if existsb (fun n => instance_of n e) exception_names then e else "Error: " +:+ e.

(** ** Texts and objects *)

(** [v.key = x] on the value of a variable *)
Definition to_obj (v : val) : result obj :=
  match v with
  | Object o => Ok o
  | Undef | Null => Throw "Cannot set properties of undefined"
  | _ => Ok []
  end.

(** [s.padEnd(n, '0')] *)
Definition padEnd (n : nat) (s : string) : string := s +:+ String.concat "" (replicate (n - String.length s) "0").

(** A method of texts on a value that may be none. *)
Definition as_text (v : val) : result string :=
  match v with
  | Str s => Ok s
  | Undef => Throw "Cannot read properties of undefined"
  | Null => Throw "Cannot read properties of null"
  | _ => Throw "is not a function"
  end.

(** [a < b] on numbers *)
Definition js_less (a b : val) : bool :=
  match js_Number a, js_Number b with Num x, Num y => x <? y | _, _ => false end.

(** [v.key = x] *)
Definition with_prop (v : val) (key : string) (x : val) : result val :=
  match v with
  | Object o => Ok (Object (set_prop o key x))
  | Undef | Null => Throw ("Cannot set properties of " +:+ js_String v)
  | _ => Ok v
  end.

(** [[...new Set(l)]] *)
Fixpoint unique (seen l : list val) : list val :=
  match l with
  | [] => []
  | v :: l => if bool_decide (v ∈ seen) then unique seen l else v :: unique (v :: seen) l
  end.

(** What other services answer to the requests that came after [calls] others. *)
Class Rpc := {
  rpc : nat -> string -> obj -> result val;
  clock : nat -> Z;
}.

(** Packages and settings the code reads. *)
Class Packages := {
  (** [validator.validate(schema, data)] of [@klayr/validator] *)
  validate : val -> val -> result unit;
  (** [util.inspect] *)
  inspect : val -> string;
  (** [getLegacyAddressFromPublicKey] of [@klayr/cryptography] *)
  legacy_address : val -> result val;
  (** the hex form of [getRandomBytes(n)]: the [i]th draw after [calls] requests *)
  random_bytes : nat -> nat -> nat -> string;
  (** codes of [http-status-codes] *)
  BAD_REQUEST : val;
  NOT_FOUND : val;
  (** [process.env] *)
  process_env : string -> option string;
  (** the outcomes of [axios] *)
  axios : nat -> obj -> axios_outcome;
}.

Section Service.
Context {St : Type}.

Record service := mkService {
  sv_world : world St;
  sv_vars : obj;
  sv_cache : gmap string val;
  sv_http : http_cache;
  sv_calls : list (string * obj);
}.

Definition on_world {A} (m : M St A) : eff service A := fun s =>
  let (r, w) := m (sv_world s) in (r, mkService w (sv_vars s) (sv_cache s) (sv_http s) (sv_calls s)).

Definition on_http {A} (m : eff http_cache A) : eff service A := fun s =>
  let (r, h) := m (sv_http s) in (r, mkService (sv_world s) (sv_vars s) (sv_cache s) h (sv_calls s)).

(** A variable of a module and its assignment. *)
Definition var (name : string) : eff service val := gets (fun s => prop (sv_vars s) name).
Definition assign (name : string) (v : val) : eff service unit :=
  modify (fun s => mkService (sv_world s) (set_prop (sv_vars s) name v) (sv_cache s) (sv_http s) (sv_calls s)).

(** [CacheRedis(name).get(key)] and [set]; a missing key gives [undefined]. *)
Definition cache_get (cache key : string) : eff service val :=
  gets (fun s => default Undef (sv_cache s !! (cache +:+ ":" +:+ key))).
Definition cache_set (cache key : string) (v : val) : eff service unit :=
  modify (fun s => mkService (sv_world s) (sv_vars s) (<[cache +:+ ":" +:+ key := v]> (sv_cache s)) (sv_http s) (sv_calls s)).

Context `{SqlEngine St} `{NodeApi} `{Crypto} `{Rpc} `{Packages}.

(** [process.env[name]] where an empty text counts as none *)
Definition env_text (name : string) : option string :=
  match process_env name with Some s => if String.eqb s "" then None else Some s | None => None end.

(** ** utils/request.js *)
Definition requestRpc (service_ method : string) (params : obj) : eff service val := fun s =>
  let name := service_ +:+ "." +:+ method in
  let s' := mkService (sv_world s) (sv_vars s) (sv_cache s) (sv_http s) (sv_calls s ++ [(name, params)]) in
  (data ← rpc (length (sv_calls s)) name params;
   match data with
   | Object o => if truthy (prop o "error") then message ← get (prop o "error") "message"; Throw (js_String message) else Ok data
   | _ => Ok data
   end, s').

Definition requestConnector (method : string) (params : obj) : eff service val := requestRpc "connector" method params.
Definition requestFeeEstimator (method : string) (params : obj) : eff service val := requestRpc "fees" method params.

(** ** constants.js

    What the node says once and the service keeps. *)

(** [if (!variable) variable = await request()] *)
Definition kept (name : string) (request : eff service val) : eff service val :=
  v ← var name;
  if truthy v then ret v else v ← request; assign name v ≫= fun _ => ret v.

(** The same with [typeof variable !== 'number']. *)
Definition kept_number (name : string) (request : eff service val) : eff service val :=
  v ← var name;
  if String.eqb (typeof v) "number" then ret v else v ← request; assign name v ≫= fun _ => ret v.

Definition updateFinalizedHeight : eff service unit :=
  status ← requestConnector "getNetworkStatus" [];
  latest ← lift (get status "finalizedHeight");
  assign "finalizedHeight" latest.

Definition getFinalizedHeight : eff service val :=
  v ← var "finalizedHeight";
  (if String.eqb (typeof v) "number" then ret tt else updateFinalizedHeight) ≫= fun _ =>
  var "finalizedHeight".

Definition getGenesisHeight : eff service val := kept_number "genesisHeight" (requestConnector "getGenesisHeight" []).

Definition getCurrentHeight : eff service val :=
  kept_number "currentHeight" (status ← requestConnector "getNetworkStatus" []; lift (get status "height")).

Definition getGenesisConfig : eff service val := kept "genesisConfig" (requestConnector "getGenesisConfig" []).

(** [`${a.name}`] *)
Definition name_of (v : val) : result string := n ← get v "name"; Ok (js_String n).

Definition resolveModuleCommands (systemMeta : list val) : result (list val) :=
  l ← mapM_result (fun module =>
    commands ← get module "commands"; commands ← elements commands;
    mapM_result (fun command =>
      m ← name_of module; c ← name_of command; Ok (Str (m +:+ ":" +:+ c))) commands) systemMeta;
  Ok (concat l).

(** [response.modules] *)
Definition metadata_modules : eff service (list val) :=
  response ← requestConnector "getSystemMetadata" [];
  modules ← lift (get response "modules"); lift (elements modules).

Definition getAvailableModuleCommands : eff service val :=
  kept "moduleCommands" (modules ← metadata_modules; l ← lift (resolveModuleCommands modules); ret (Arr l)).

Definition getRegisteredModules : eff service val :=
  kept "registeredModules" (modules ← metadata_modules; l ← lift (mapM_result (fun m => get m "name") modules); ret (Arr l)).

Definition getSystemMetadata : eff service val := kept "systemMetadata" (requestConnector "getSystemMetadata" []).
Definition getRegisteredEndpoints : eff service val := kept "registeredEndpoints" (requestConnector "getRegisteredEndpoints" []).
Definition getEngineEndpoints : eff service val := kept "engineEndpoints" (requestConnector "getEngineEndpoints" []).

Definition getAllRegisteredEndpoints : eff service val :=
  kept "allRegisteredEndpoints"
    (registered ← getRegisteredEndpoints;
     engine ← getEngineEndpoints;
     engine ← lift (elements engine);
     names ← lift (mapM_result (fun e => get e "name") engine);
     ret (Arr (names ++ match registered with Arr l => l | v => [v] end))).

(** [nodeInfoListener(payload)] *)
Definition nodeInfoListener (payload : obj) : eff service unit :=
  assign "genesisHeight" (prop payload "genesisHeight") ≫= fun _ =>
  assign "genesisConfig" (prop payload "genesis") ≫= fun _ =>
  assign "currentHeight" (prop payload "height") ≫= fun _ =>
  assign "finalizedHeight" (prop payload "finalizedHeight").

(** ** business/network.js *)
Definition getNetworkStatus : eff service obj :=
  status ← requestConnector "getNetworkStatus" [];
  status ← lift (to_obj status);
  commands ← getAvailableModuleCommands;
  modules ← getRegisteredModules;
  let status := set_prop (set_prop status "moduleCommands" commands) "registeredModules" modules in
  now ← gets (fun s => clock (length (sv_calls s)));
  ret [("data", Object status);
       ("meta", Object [("lastUpdate", Num (now / 1000)); ("lastBlockHeight", prop status "height");
                        ("lastBlockID", prop status "lastBlockID")])].

Definition peer_filters : list string :=
  ["ip"; "httpPort"; "wsPort"; "os"; "version"; "networkVersion"; "height"; "broadhash"].

(** [activeFilters] *)
Definition active_filters (params : obj) : list string :=
  filter (fun p => has_prop params p && truthy (prop params p) = true) peer_filters.

Definition peer_matches (params peer : obj) : bool :=
  forallb (fun p => bool_decide (prop params p = prop peer p)) (active_filters params).

Definition SORT_text : string := "^.+:(asc|desc)$".
Definition SORT : regex := Eval vm_compute in regex_of SORT_text.

(** [sortBy(array, p)].  The comparators answer [true] or [false], which is
    never negative, so that [sort] finds the array in order already. *)
Definition sort_peers {A} (peers : list A) (sort : string) : list A :=
  match split_on ":" sort with
  | _ :: "asc" :: _ => reverse peers
  | _ => peers
  end.

Definition lower_state (params : obj) : string :=
  if truthy (prop params "state") then toLowerCase (js_String (prop params "state")) else "undefined".

Definition getNetworkPeers (params : obj) : eff service obj :=
  let state := lower_state params in
  peers ← (if String.eqb state "connected" then requestConnector "getNetworkConnectedPeers" []
           else if String.eqb state "disconnected" then requestConnector "getNetworkDisconnectedPeers" []
           else requestConnector "getNetworkPeers" []);
  peers ← lift (elements peers);
  let filteredPeers := filter (fun peer => peer_matches params (as_obj peer) = true) peers in
  let filteredPeers := match prop params "sort" with
    | Str sort => if regex_test SORT sort then sort_peers filteredPeers sort else filteredPeers
    | _ => filteredPeers
    end in
  let paged := truthy (prop params "offset") || truthy (prop params "limit") in
  let params := if paged && negb (truthy (prop params "offset")) then set_prop params "offset" (Num 0) else params in
  let sortedPeers :=
    if paged then
      match prop params "offset", js_or (prop params "limit") (Num (Z.of_nat (length filteredPeers))) with
      | Num o, Num l => take (Z.to_nat l) (drop (Z.to_nat o) filteredPeers)
      | _, _ => []
      end
    else filteredPeers in
  ret [("data", Arr sortedPeers);
       ("meta", Object [("count", Num (Z.of_nat (length sortedPeers))); ("offset", prop params "offset");
                        ("total", Num (Z.of_nat (length filteredPeers)))])].

Definition getNetworkConnectedPeers (params : obj) : eff service obj :=
  getNetworkPeers (spread params [("state", Str "connected")]).
Definition getNetworkDisconnectedPeers (params : obj) : eff service obj :=
  getNetworkPeers (spread params [("state", Str "disconnected")]).

Definition getNetworkPeersStatistics : eff service obj :=
  response ← requestConnector "getNetworkPeersStatistics" [];
  ret [("data", response); ("meta", Object [])].

(** ** business/dynamicReward *)
Definition getAnnualInflation (params : obj) : eff service obj :=
  data ← requestConnector "getAnnualInflation" [("height", prop params "height")];
  ret [("data", data); ("meta", Object [])].

(** [rewardTokenID]; a text has no property [error]. *)
Definition getRewardTokenID : eff service val :=
  kept "rewardTokenID"
    (response ← requestConnector "getRewardTokenID" [];
     error ← lift (get response "error");
     if truthy error then message ← lift (get error "message"); throw (js_String message) else ret response).

Definition getRewardConstants : eff service obj :=
  id ← getRewardTokenID; ret [("data", Object [("rewardTokenID", id)]); ("meta", Object [])].

Definition getDefaultRewardAtHeight (params : obj) : eff service obj :=
  response ← requestConnector "getDefaultRewardAtHeight" [("height", prop params "height")];
  id ← getRewardTokenID;
  reward ← lift (get response "reward");
  ret [("data", Object [("defaultReward", reward); ("tokenID", id)]); ("meta", Object [])].

(** ** business/auth, legacy and validator *)
Definition indexed_account (params : obj) (columns : list string) : eff service obj :=
  on_world (getIndexedAccountInfo params columns).

(** [accountInfo && accountInfo.name ? accountInfo.name : null] *)
Definition account_meta (address : val) (accountInfo : obj) : val :=
  Object [("address", address); ("name", js_or (prop accountInfo "name") Null);
          ("publicKey", js_or (prop accountInfo "publicKey") Null)].

Definition getAuthAccountInfo (params : obj) : eff service obj :=
  let address := prop params "address" in
  response ← requestConnector "getAuthAccount" [("address", address)];
  accountInfo ← indexed_account [("address", address); ("limit", Num 1)] ["name"; "publicKey"];
  ret [("data", parseToJSONCompatObj response); ("meta", account_meta address accountInfo)].

Definition getAuthMultiSigRegMsgSchema : eff service val :=
  modules ← getRegisteredModules;
  modules ← lift (elements modules);
  if bool_decide (Str "auth" ∈ modules) then
    msg ← requestConnector "getAuthMultiSigRegMsgSchema" [];
    schema ← lift (get msg "schema");
    ret (Object [("moduleCommand", Str "auth:registerMultisignature"); ("param", Str "signatures"); ("schema", schema)])
  else ret Null.

Definition getLegacyAccountInfo (params : obj) : eff service obj :=
  let publicKey := prop params "publicKey" in
  response ← requestConnector "getLegacyAccount" [("publicKey", publicKey)];
  legacy ← lift (legacy_address publicKey);
  balance ← lift (get response "balance");
  address ← lift (getKlayr32AddressFromPublicKey publicKey);
  ret [("data", Object [("legacyAddress", legacy); ("balance", balance)]);
       ("meta", Object [("address", address); ("publicKey", publicKey)])].

Definition validateBLSKey (params : obj) : eff service obj :=
  response ← requestConnector "validateBLSKey"
    [("blsKey", prop params "blsKey"); ("proofOfPossession", prop params "proofOfPossession")];
  valid ← lift (get response "valid");
  ret [("data", Object [("isValid", valid)]); ("meta", Object [])].

Definition getValidator (params : obj) : eff service obj :=
  let address := prop params "address" in
  rows ← on_world (read Auto (find validatorsTableSchema [("address", address); ("limit", Num 1)]
                                (Arr [Str "proofOfPossession"])));
  info ← requestConnector "getValidator" [("address", address)];
  accountInfo ← indexed_account [("address", address); ("limit", Num 1)] ["name"; "publicKey"];
  ret [("data", Object (spread (as_obj info) [("proofOfPossession", prop (default [] (head rows)) "proofOfPossession")]));
       ("meta", account_meta address accountInfo)].

(** ** business/schemas.js *)
Definition getSchemasFromNode : eff service (val * val * list val) :=
  systemMetadata ← requestConnector "getSystemMetadata" [];
  schemas ← requestConnector "getSchema" [];
  authMsg ← getAuthMultiSigRegMsgSchema;
  ret (schemas, systemMetadata, if truthy authMsg then [authMsg] else []).

(** [module[key].map(x => ({ module: module.name, <a>: x.<a>, schema: x.data }))] *)
Definition module_schemas (key a : string) (module : val) : result (list val) :=
  l ← get module key; l ← elements l;
  mapM_result (fun x =>
    m ← get module "name"; n ← get x a; d ← get x "data";
    Ok (Object [("module", m); (a, n); ("schema", d)])) l.

Definition command_schemas (module : val) : result (list val) :=
  l ← get module "commands"; l ← elements l;
  mapM_result (fun command =>
    m ← name_of module; c ← name_of command; params ← get command "params";
    Ok (Object [("moduleCommand", Str (m +:+ ":" +:+ c)); ("schema", params)])) l.

Definition getAllSchemas : eff service val :=
  allSchemas ← var "allSchemas";
  if truthy allSchemas then ret allSchemas
  else
    (* the variable is an object before the node has answered *)
    assign "allSchemas" (Object []) ≫= fun _ =>
    '(schemas, systemMetadata, messages) ← getSchemasFromNode;
    modules ← lift (get systemMetadata "modules"); modules ← lift (elements modules);
    events ← lift (mapM_result (module_schemas "events" "name") modules);
    assets ← lift (mapM_result (module_schemas "assets" "version") modules);
    commands ← lift (mapM_result command_schemas modules);
    let all := spread
      ([("assets", Arr (concat assets)); ("commands", Arr (concat commands)); ("events", Arr (concat events))])
      ((fun kv => (kv.1, Object [("schema", kv.2)])) <$> as_obj schemas) in
    let all := Object (set_prop all "messages" (Arr messages)) in
    assign "allSchemas" all ≫= fun _ => ret all.

Definition getSchemas : eff service obj :=
  response ← getAllSchemas;
  ret [("data", if truthy response then response else Object []); ("meta", Object [])].

(** ** business/feeEstimates.js *)
Definition defaultFeeEstimates : obj := [("low", Num 0); ("med", Num 0); ("high", Num 0); ("minFeePerByte", Num 1000)].

Definition setFeeEstimates (payload : val) : eff service unit :=
  if truthy payload && negb (bool_decide (as_obj payload = []))
     && negb (bool_decide (prop (as_obj payload) "status" = Str "SERVICE_UNAVAILABLE"))
  then assign "feeEstimates" payload else ret tt.

Definition getFeeEstimates : eff service val := var "feeEstimates".

Definition getFeeEstimatesFromFeeEstimator : eff service val :=
  try_catch (response ← requestFeeEstimator "estimates" []; setFeeEstimates response) (fun _ => ret tt) ≫= fun _ =>
  getFeeEstimates.

(** [feeEstimates[key] = await requestConnector(method)] *)
Definition init_estimate (key method : string) : eff service unit :=
  v ← requestConnector method [];
  feeEstimates ← getFeeEstimates;
  assign "feeEstimates" (Object (set_prop (as_obj feeEstimates) key v)).

Definition initFeeEstimates : eff service unit :=
  init_estimate "feeTokenID" "getFeeTokenID" ≫= fun _ => init_estimate "minFeePerByte" "getMinFeePerByte".

(** ** business/invoke.js *)
Definition default_methods : list string :=
  ["dynamicReward_getExpectedValidatorRewards"; "token_hasUserAccount"; "token_getInitializationFees";
   "interoperability_getMinimumMessageFee"; "txpool_getTransactionsFromPool"; "pos_getExpectedSharedRewards";
   "dex"; "tokenFactory"].

Definition INVOKE_ALLOWED_METHODS : list string :=
  match env_text "INVOKE_ALLOWED_METHODS" with Some s => split_on "," s | None => default_methods end.

(** [list.includes(x)] *)
Definition list_includes (v x : val) : result bool := l ← elements v; Ok (bool_decide (x ∈ l)).

Definition checkIfEndpointRegistered (endpoint : val) : eff service bool :=
  all ← getAllRegisteredEndpoints; lift (list_includes all endpoint).

(** [l.find(x => x.name === name)] *)
Definition find_named (l : val) (name : val) : result val :=
  l ← elements l; found ← js_find (fun x => prop_is x "name" name) l; Ok (default Undef found).

(** The schema of the parameters an endpoint takes. *)
Definition request_schema (endpoint : string) : eff service val :=
  registeredEndpoints ← getRegisteredEndpoints;
  registered ← lift (list_includes registeredEndpoints (Str endpoint));
  if registered : bool then
    metadata ← getSystemMetadata;
    let parts := split_on "_" endpoint in
    let part i := default Undef (Str <$> parts !! i) in
    modules ← lift (get metadata "modules");
    module ← lift (find_named modules (part 0%nat));
    endpoints ← lift (get module "endpoints");
    endpointInfo ← lift (find_named endpoints (part 1%nat));
    lift (get endpointInfo "request")
  else
    engineEndpoints ← getEngineEndpoints;
    endpointInfo ← lift (find_named engineEndpoints (Str endpoint));
    lift (get endpointInfo "request").

Definition validateEndpointParams (params : obj) : eff service unit :=
  endpoint ← lift (as_text (prop params "endpoint"));
  schema ← request_schema endpoint;
  if truthy schema then lift (validate schema (prop params "params"))
  else if has_prop params "params" then
    match prop params "params" with
    | Undef | Null => throw "Cannot convert undefined or null to object"
    | Object [] | Num _ | NaN | Bool _ | BigI _ => ret tt
    | _ => throw "Endpoint does not support request parameters."
    end
  else ret tt.

Definition checkIfEndpointInvocationAllowed (endpoint : val) : result bool :=
  if bool_decide ("*" ∈ INVOKE_ALLOWED_METHODS) then Ok true
  else match INVOKE_ALLOWED_METHODS with
       | [] => Ok false
       | l => e ← as_text endpoint; Ok (existsb (fun allowed => String.prefix allowed e) l)
       end.

Definition invokeEndpoint (params : obj) : eff service obj :=
  let endpoint := prop params "endpoint" in
  isEndpointAllowed ← lift (checkIfEndpointInvocationAllowed endpoint);
  if negb isEndpointAllowed then
    throw (exception "ValidationException" ("Proxy invocation of endpoint '" +:+ js_String endpoint +:+ "' is not allowed."))
  else
    isRegisteredEndpoint ← checkIfEndpointRegistered endpoint;
    if negb isRegisteredEndpoint then
      throw (exception "ValidationException" ("Endpoint '" +:+ js_String endpoint +:+ "' is not registered."))
    else
      try_catch (validateEndpointParams params) (fun error =>
        throw (exception "ValidationException" ("Invalid params supplied for endpoint '" +:+ js_String endpoint +:+ "': "
          +:+ String "010" (inspect (prop params "params") +:+ "." +:+ String "010" ("Error: " +:+ err_text error))))) ≫= fun _ =>
      try_catch (data ← requestConnector "invokeEndpoint" params; ret [("data", data); ("meta", Object params)])
        (fun err => throw (exception "ServiceUnavailableException"
          ("Node is not reachable at the moment." +:+ String "010" ("Error: " +:+ err_message err)))).

(** ** utils/validator.js, utils/account.js, knownAccounts.js *)
Definition getAddressByName (name : val) : eff service val :=
  if truthy name then
    address ← cache_get "validator" (js_String name);
    ret (if truthy address then address else Null)
  else ret Null.

(** The account is updated with the name on the side; its failure is not seen. *)
Definition getNameByAddress (address : val) : eff service val :=
  if truthy address then
    name ← cache_get "validator" (js_String address);
    if truthy name then
      try_catch (on_world (write Auto (upsert accountsTableSchema (Object [("address", address); ("name", name)]))))
        (fun _ => ret tt) ≫= fun _ => ret name
    else ret Null
  else ret Null.

Definition ADDRESS_KLAYR32_text : string := "^kly[a-hjkm-z2-9]{38}$".
Definition ADDRESS_KLAYR32 : regex := Eval vm_compute in regex_of ADDRESS_KLAYR32_text.

Definition validateKlayr32Address (address : val) : bool :=
  match address with Str s => regex_test ADDRESS_KLAYR32 s | _ => false end.

Definition parseAddress (address : val) : val :=
  match address with Str s => Str (toUpperCase s) | _ => Str "" end.

Definition getCachedAccountBy (key : string) (value : val) : eff service val :=
  rows ← on_world (read Auto (find accountsTableSchema [(key, value); ("limit", Num 1)]
                                (Arr (Str <$> ["address"; "name"; "publicKey"]))));
  ret (match rows with
       | r :: _ => Object [("address", prop r "address"); ("name", prop r "name"); ("publicKey", prop r "publicKey")]
       | [] => Null
       end).

(** [false], [null] or an address *)
Definition confirmAddress (address : val) : eff service val :=
  if validateKlayr32Address address then
    account ← getCachedAccountBy "address" (parseAddress address);
    ret (if truthy account then prop (as_obj account) "address" else account)
  else ret (Bool false).

Definition getKlayr32Address (address : string) : result string :=
  if String.prefix "kly" address then Ok address else getKlayr32AddressFromAddress (from_hex address).

(** [config.networks.KLAYR] *)
Definition networks_KLAYR : list obj :=
  let devnet := default "http://devnet-service.klayrdev.net:9901" (env_text "DEVNET_MAINCHAIN_URL") in
  [[("name", Str "mainnet"); ("chainID", Str "00000000"); ("serviceURL", Str "https://service.klayr.xyz");
    ("snapshotURL", Str "https://snapshots.klayr.xyz/mainnet/service.sql.gz")];
   [("name", Str "testnet"); ("chainID", Str "01000000"); ("serviceURL", Str "https://testnet-service.klayr.xyz");
    ("snapshotURL", Str "https://snapshots.klayr.xyz/testnet/service.sql.gz")];
   [("name", Str "betanet"); ("chainID", Str "02000000"); ("serviceURL", Str "https://betanet-service.klayr.xyz");
    ("snapshotURL", Str "https://snapshots.klayr.xyz/betanet/service.sql.gz")];
   [("name", Str "devnet"); ("chainID", Str "04000000"); ("serviceURL", Str devnet)]].

Definition LENGTH_NETWORK_ID : nat := 2.
Definition LENGTH_CHAIN_ID : nat := 8.
Definition LENGTH_TOKEN_ID : nat := 16.

(** [s.substring(0, n)] *)
Definition first_chars (n : nat) (s : string) : string := String.substring 0 n s.

Definition resolveNetworkByChainID (chainID : string) : val :=
  let networkID := first_chars LENGTH_NETWORK_ID chainID in
  match list_find (fun n => String.prefix networkID (js_String (prop n "chainID")) = true) networks_KLAYR with
  | Some (_, network) => prop network "name"
  | None => Null
  end.

Definition getAccountKnowledge (address : val) : eff service val :=
  knowledge ← var "knowledge";
  k ← lift (get knowledge (js_String address));
  ret (if truthy k then k else Object []).

Definition staticUrl : string := default "https://static-data.klayr.xyz" (env_text "KLAYR_STATIC").

Definition reloadAccountKnowledge : eff service unit :=
  try_catch
    (status ← getNetworkStatus;
     chainID ← lift (get (prop status "data") "chainID");
     chainID ← lift (as_text chainID);
     match resolveNetworkByChainID chainID with
     | Str networkName =>
         res ← on_http (get_ axios (staticUrl +:+ "/known_" +:+ networkName +:+ ".json") []);
         if bool_decide (prop res "status" = Num 200) && truthy (prop res "data")
            && String.eqb (typeof (prop res "data")) "object"
         then assign "knowledge" (prop res "data") else ret tt
     | _ => ret tt
     end)
    (fun _ => ret tt).

End Service.

(** Packages and another service for the examples. *)
Definition sample_packages : Packages := {|
  validate _ _ := Ok tt;
  inspect v := js_String v;
  legacy_address pk := Ok pk;
  random_bytes calls i n := "00";
  BAD_REQUEST := Num 400;
  NOT_FOUND := Num 404;
  process_env _ := None;
  axios _ _ := Rejected None (Num 500) "no network";
|}.

(** The services answer from a table of requests. *)
Definition sample_rpc (answers : list (string * val)) : Rpc := {|
  rpc _ name _ := match prop answers name with Undef => Throw ("no answer to " +:+ name) | v => Ok v end;
  clock _ := 0;
|}.

Definition sample_service {St} (w : world St) (vars : obj) : service := mkService w vars ∅ ∅ [].
