(* ===== verification/BlockQuery.v ===== *)
(** * Blocks and events of the data service

    [dataService/business/events.js] with its caches, [normalizeBlock] and the
    requests for blocks of [dataService/business/blocks.js], and
    [dataService/blocks.js], which keeps the last block.  The caches hold JSON
    texts; that an entry may be evicted is left out.  The query
    [DataQuery.getBlocks] of the index is a parameter here. *)
From S2P Require Import Prelude JsValue Database Json Engine Search Table World Schemas KvStore Chain PoolAddress.
From S2P Require Import Stake Processors Gateway DataQuery TransactionQuery Validators Http Export Service.
From Stdlib Require Import Ascii.
Local Open Scope Z_scope.

(** [JSON.stringify(v)] as a cache entry *)
Definition json_text (v : val) : result val :=
  s ← json_stringify v; Ok (match s with Some s => Str s | None => Undef end).

(** [eventStr ? JSON.parse(eventStr) : eventStr] *)
Definition stored_event (row : obj) : result val :=
  let eventStr := prop row "eventStr" in
  if truthy eventStr then json_parse (js_String eventStr) else Ok eventStr.

(** ** Filters of an event query *)

(** [id.length === LENGTH_ID ? TX_ID.concat(id) : id] *)
Definition tx_topic (id : string) : val :=
  Str (if (String.length id =? LENGTH_ID)%nat then TX_ID +:+ id else id).

(** [params[key].push(x)] *)
Definition push_to (params : obj) (key : string) (x : val) : obj :=
  set_prop params key (Arr (match prop params key with Arr l => l ++ [x] | _ => [x] end)).

(** The join with the topics of an event and the test of a topic. *)
Definition with_topics (params : obj) (alias : string) (values : list val) : obj :=
  push_to
    (push_to params "leftOuterJoin" (Object
       [("targetTable", Str ("event_topics as " +:+ alias)); ("leftColumn", Str "events.id");
        ("rightColumn", Str (alias +:+ ".eventID"))]))
    "whereIn" (Object [("property", Str (alias +:+ ".topic")); ("values", Arr values)]).

Definition by_transaction (params : obj) : result obj :=
  if truthy (prop params "transactionID") then
    id ← as_text (prop params "transactionID");
    Ok (with_topics (omit params "transactionID") "eventTopicsForTxID" [tx_topic id])
  else Ok params.

Definition topics_of (t : string) : list val :=
  if (String.length t =? LENGTH_ID)%nat then [Str (TX_ID +:+ t); Str (CCM_ID +:+ t)] else [Str t].

Definition by_topic (params : obj) : result obj :=
  if truthy (prop params "topic") then
    topic ← as_text (prop params "topic");
    Ok (with_topics (omit params "topic") "eventTopicsForTopic" (mjoin (topics_of <$> split_on "," topic)))
  else Ok params.

(** The height a block of the index must have to agree with [params.height]. *)
Definition height_agrees (params : obj) (height : val) : bool :=
  negb (has_prop params "height") || bool_decide (js_Number (prop params "height") = height)
  || let '(low, high) := match prop params "height" with
       | Str s => match split_on ":" s with
                  | from :: to :: _ => (js_Number (Str from), js_Number (Str to))
                  | _ => (js_Number (Str s), js_Number (Str s))
                  end
       | v => (js_Number v, js_Number v)
       end in
     negb (num_gt low height) && negb (num_gt height high).

Section BlockQuery.
Context {St : Type} `{SqlEngine St} `{NodeApi} `{Crypto} `{Rpc} `{Packages}.

(** ** business/events.js *)
Definition getEventsByHeightFromNode (height : val) : eff (service (St := St)) val :=
  events ← requestConnector "getEventsByHeight" [("height", height)];
  ret (parseToJSONCompatObj events).

(** [config.isPersistEvents]; the configuration has the setting as
    [config.db.isPersistEvents]. *)
Definition config_isPersistEvents : val := Undef.

Definition stored_events (params : obj) : eff (service (St := St)) (list val) :=
  rows ← on_world (read Auto (find eventsTableSchema params (Arr [Str "eventStr"])));
  lift (mapM_result stored_event rows).

Definition getEventsByHeight (height : val) : eff (service (St := St)) val :=
  let remember events := text ← lift (json_text events); cache_set "events" (js_String height) text in
  cachedEvents ← cache_get "events" (js_String height);
  if truthy cachedEvents then lift (json_parse (js_String cachedEvents))
  else
    dbEvents ← (if truthy config_isPersistEvents then stored_events [("height", height)] else ret []);
    match dbEvents with
    | _ :: _ => remember (Arr dbEvents) ≫= fun _ => ret (Arr dbEvents)
    | [] =>
        eventsFromNode ← getEventsByHeightFromNode height;
        remember eventsFromNode ≫= fun _ => ret eventsFromNode
    end.

Definition getEventsByBlockID (blockID : val) : eff (service (St := St)) val :=
  cachedEvents ← cache_get "eventsByBlockID" (js_String blockID);
  if truthy cachedEvents then lift (json_parse (js_String cachedEvents))
  else
    dbEvents ← stored_events [("blockID", blockID)];
    match dbEvents with
    | _ :: _ =>
        text ← lift (json_text (Arr dbEvents));
        cache_set "eventsByBlockID" (js_String blockID) text ≫= fun _ => ret (Arr dbEvents)
    | [] => ret (Arr [])
    end.

Definition cacheEventsByBlockID (blockID events : val) : eff (service (St := St)) unit :=
  text ← lift (json_text events); cache_set "eventsByBlockID" (js_String blockID) text.

Definition deleteEventsFromCache (height : val) : eff (service (St := St)) unit := cache_set "events" (js_String height) Undef.
Definition deleteEventsFromCacheByBlockID (blockID : val) : eff (service (St := St)) unit :=
  cache_set "eventsByBlockID" (js_String blockID) Undef.

Definition by_sender (params : obj) : eff (service (St := St)) obj :=
  if truthy (prop params "senderAddress") then
    rows ← on_world (read Auto (find transactionsTableSchema [("senderAddress", prop params "senderAddress")] (Arr [Str "id"])));
    ids ← lift (mapM_result (fun row => as_text (prop row "id")) rows);
    ret (with_topics (omit params "senderAddress") "eventTopicsForSenderAddress" (tx_topic <$> ids))
  else ret params.

Definition by_block (params : obj) : eff (service (St := St)) obj :=
  if has_prop params "blockID" then
    let blockID := prop params "blockID" in
    let params := omit params "blockID" in
    rows ← on_world (read Auto (find blocksTableSchema [("id", blockID); ("limit", Num 1)] (Arr [Str "height"])));
    let height := prop (default [] (head rows)) "height" in
    if negb (truthy height) then throw (exception "NotFoundException" ("Invalid blockID: " +:+ js_String blockID))
    else if negb (height_agrees params height) then
      throw (exception "NotFoundException" ("Invalid combination of blockID: " +:+ js_String blockID +:+
               " and height: " +:+ js_String (prop params "height")))
    else ret (set_prop params "height" height)
  else ret params.

(** The event of a row of the index with its block. *)
Definition present_event (row : obj) : eff (service (St := St)) val :=
  stored ← (if is_persist_events && truthy (prop row "eventStr")
            then lift (json_parse (js_String (prop row "eventStr"))) else ret Undef);
  event ← (if truthy stored then ret stored
           else eventsFromCache ← getEventsByHeight (prop row "height");
                lift (l ← elements eventsFromCache;
                      found ← js_find (fun entry => prop_is entry "index" (prop row "index")) l;
                      Ok (default Undef found)));
  rows ← on_world (read Auto (find blocksTableSchema [("height", prop row "height"); ("limit", Num 1)]
                                (Arr [Str "id"; Str "timestamp"])));
  let block := default [] (head rows) in
  ret (parseToJSONCompatObj (Object (spread (as_obj event)
    [("block", Object [("id", prop block "id"); ("height", prop row "height"); ("timestamp", prop block "timestamp")])]))).

Definition event_query (params : obj) : eff (service (St := St)) obj :=
  params ← lift (normalizeRanges params);
  let params := set_prop (set_prop params "leftOuterJoin" (Arr [])) "whereIn" (Arr []) in
  params ← lift (by_transaction params);
  params ← by_sender params;
  params ← by_block params;
  params ← lift (by_topic params);
  ret (omit params "topic").

Definition getEvents (params : obj) : eff (service (St := St)) obj :=
  params ← event_query params;
  eventsInfo ← on_world (read Auto (find eventsTableSchema params (Arr [Str "eventStr"; Str "height"; Str "index"])));
  data ← map_each eventsInfo present_event;
  total ← on_world (read Auto (count eventsTableSchema (omit (omit params "order") "sort") Undef));
  ret [("data", Arr data);
       ("meta", Object [("count", Num (Z.of_nat (length data))); ("offset", prop params "offset"); ("total", Num total)])].

(** ** business/blocks.js *)

(** The generator of a block *)
Definition block_generator (address : val) : eff (service (St := St)) val :=
  info ← indexed_account [("address", address); ("limit", Num 1)] ["publicKey"; "name"];
  name ← (if truthy (prop info "name") then ret (prop info "name") else getNameByAddress address);
  ret (Object [("address", address); ("publicKey", prop info "publicKey"); ("name", name)]).

Definition num_le (a b : val) : bool := match a, b with Num x, Num y => x <=? y | _, _ => false end.

Definition is_reward_event (e : val) : result bool :=
  m ← get e "module"; n ← get e "name";
  Ok (bool_decide (m ∈ [Str "reward"; Str "dynamicReward"]) && bool_decide (n = Str "rewardMinted")).

(** [{ numberOfEvents, reward }] *)
Definition events_and_reward (block : obj) (isDeletedBlock : bool) : eff (service (St := St)) (val * val) :=
  rows ← on_world (read Auto (find blocksTableSchema [("height", prop block "height"); ("limit", Num 1)]
                                (Arr [Str "numberOfEvents"; Str "reward"])));
  match rows with
  | dbResponse :: _ => ret (prop dbResponse "numberOfEvents", prop dbResponse "reward")
  | [] =>
      events ← (if isDeletedBlock then getEventsByBlockID (prop block "id") else getEventsByHeight (prop block "height"));
      events ← lift (elements events);
      rewardEvent ← lift (js_find is_reward_event events);
      reward ← (match rewardEvent with Some e => lift (get2 e "data" "amount") | None => ret Null end);
      ret (Num (Z.of_nat (length events)), reward)
  end.

(** The sums over the transactions of a block. *)
Record totals := mkTotals { t_size : val; t_forged : Z; t_burnt : Z; t_network : Z }.

Definition add_tx (t : totals) (txn : obj) : result totals :=
  fee ← js_BigInt (prop txn "fee");
  minFee ← js_BigInt (prop txn "minFee");
  Ok (mkTotals (js_plus (t_size t) (prop txn "size")) (t_forged t + fee) (t_burnt t + minFee) (t_network t + (fee - minFee))).

Definition number_of_assets (block : obj) : eff (service (St := St)) val :=
  genesisHeight ← getGenesisHeight;
  if bool_decide (prop block "height" = genesisHeight) then
    response ← requestConnector "getGenesisAssetsLength" []; ret (Num (Z.of_nat (length (as_obj response))))
  else assets ← lift (elements (prop block "assets")); ret (Num (Z.of_nat (length assets))).

Definition normalizeBlock (originalBlock : val) (isDeletedBlock : bool) : eff (service (St := St)) val :=
  header ← lift (get originalBlock "header");
  transactions ← lift (get originalBlock "transactions");
  assets ← lift (get originalBlock "assets");
  let block := spread (as_obj header) [("transactions", transactions); ("assets", assets)] in
  block ← (if truthy (prop block "generatorAddress")
           then g ← block_generator (prop block "generatorAddress"); ret (set_prop block "generator" g) else ret block);
  finalized ← getFinalizedHeight;
  txs ← lift (elements transactions);
  let block := spread block [("isFinal", Bool (num_le (prop block "height") finalized));
                             ("numberOfTransactions", Num (Z.of_nat (length txs)))] in
  numberOfAssets ← number_of_assets block;
  '(numberOfEvents, reward) ← events_and_reward block isDeletedBlock;
  forged ← lift (js_BigInt (js_or reward (Str "0")));
  let txs := normalizeTransaction <$> (as_obj <$> txs) in
  t ← lift (foldM (fun t txn => add_tx t (as_obj txn)) (mkTotals (Num 0) forged 0 0) txs);
  ret (parseToJSONCompatObj (Object (spread block
    [("numberOfAssets", numberOfAssets); ("numberOfEvents", numberOfEvents); ("size", t_size t); ("reward", reward);
     ("totalForged", BigI (t_forged t)); ("totalBurnt", BigI (t_burnt t)); ("networkFee", BigI (t_network t));
     ("transactions", Arr txs)]))).

Definition normalizeBlocks (blocks : list val) : eff (service (St := St)) (list val) :=
  map_each blocks (fun b => normalizeBlock b false).

Definition getBlockByHeight (height : val) : eff (service (St := St)) val :=
  response ← requestConnector "getBlockByHeight" [("height", height)]; normalizeBlock response false.

Definition getBlockByID (id : val) : eff (service (St := St)) val :=
  response ← requestConnector "getBlockByID" [("id", id)]; normalizeBlock response false.

Definition getBlocksByIDs (ids : list val) : eff (service (St := St)) (list val) :=
  response ← requestConnector "getBlocksByIDs" [("ids", Arr ids)];
  response ← lift (elements response); normalizeBlocks response.

Definition business_getLastBlock : eff (service (St := St)) val :=
  response ← requestConnector "getLastBlock" [];
  latestBlock ← normalizeBlock response false;
  assign "latestBlock" latestBlock ≫= fun _ =>
  (if truthy (prop (as_obj latestBlock) "id")
   then text ← lift (json_text latestBlock); cache_set "latestBlock" "latestBlock" text else ret tt) ≫= fun _ =>
  ret latestBlock.

(** ** dataService/blocks.js *)
Definition setLastBlock (block : val) : eff (service (St := St)) unit :=
  text ← lift (json_text block); cache_set "lastBlock" "lastBlock" text.

Definition getLastBlock : eff (service (St := St)) val :=
  lastBlockString ← cache_get "lastBlock" "lastBlock";
  if truthy lastBlockString then lift (json_parse (js_String lastBlockString)) else ret (Object []).

(** [height - genesisHeight + 1] *)
Definition getTotalNumberOfBlocks : eff (service (St := St)) val :=
  lastBlock ← getLastBlock;
  height ← lift (get lastBlock "height");
  genesisHeight ← getGenesisHeight;
  ret (js_plus (js_sub height genesisHeight) (Num 1)).

(** [DataQuery.getBlocks] *)
Variable business_getBlocks : obj -> eff (service (St := St)) (list val * obj).

Definition getBlocksFromServer (params : obj) : eff (service (St := St)) (list val * obj) :=
  '(data, meta) ← business_getBlocks params;
  for_each data setLastBlock ≫= fun _ => ret (data, meta).

Definition getBlocksTotal (params : obj) (data : list val) (meta : obj) : eff (service (St := St)) val :=
  let n := Num (Z.of_nat (length data)) in
  if truthy (prop params "generatorAddress") then ret (if has_prop meta "total" then prop meta "total" else Null)
  else if truthy (prop params "blockID") || negb (bool_decide (js_Number (prop params "height") = NaN)) then ret n
  else
    timestamp ← lift (timestamp_range_given params);
    if range_given params "height" || timestamp then ret (prop meta "total")
    else total ← getTotalNumberOfBlocks; ret (js_or total n).

Definition formatBlock (blockInfo : obj) (isDeletedBlock : bool) : eff (service (St := St)) (list val * obj) :=
  response ← normalizeBlock (Object
    [("header", js_or (prop blockInfo "header") (Object [])); ("assets", js_or (prop blockInfo "assets") (Arr []));
     ("transactions", js_or (prop blockInfo "transactions") (Arr []))]) isDeletedBlock;
  total ← getBlocksTotal [] [response] [];
  ret ([response], [("count", Num 1); ("offset", Num 0); ("total", total)]).

Definition getBlocks (params : obj) : eff (service (St := St)) (list val * obj) :=
  '(data, meta) ← getBlocksFromServer params;
  total ← getBlocksTotal params data meta;
  ret (data, [("count", Num (Z.of_nat (length data)));
              ("offset", Num (number_default (prop params "offset") 0)); ("total", total)]).

Definition performLastBlockUpdate (newBlock : val) : eff (service (St := St)) unit :=
  try_catch (setLastBlock newBlock) (fun _ => ret tt).

End BlockQuery.

(** ** What [parseToJSONCompatObj] does to a property *)
Definition compat_field (v : val) : val :=
  match v with BigI z => Str (string_of_Z z) | _ => parseToJSONCompatObj v end.

Lemma compat_object o : parseToJSONCompatObj (Object o) = Object ((fun kv => (kv.1, compat_field kv.2)) <$> o).
Proof. cbn. f_equal. induction o as [|[k v] o IH]; [done|]. rewrite fmap_cons. by f_equal. Qed.

Lemma compat_array l : parseToJSONCompatObj (Arr l) = Arr (parseToJSONCompatObj <$> l).
Proof. done. Qed.

Lemma prop_fmap (f : val -> val) (o : obj) k : f Undef = Undef -> prop ((fun kv => (kv.1, f kv.2)) <$> o) k = f (prop o k).
Proof. intros Hf. induction o as [|[k' v] o IH]; [done|]. rewrite fmap_cons. simpl. by destruct (String.eqb k' k). Qed.

(** A value JSON keeps has no big integer to convert. *)
Lemma compat_kept v : json_kept v -> parseToJSONCompatObj v = v.
Proof.
  induction v as [| |b|z| |z|s|l IH|o IH] using val_ind'; intros Hk; inversion Hk as [| | | |? Hl|? Ho Hn]; subst; try done.
  - rewrite compat_array. f_equal. clear Hk. induction IH as [|v l Hv _ IHl]; [done|].
    apply Forall_cons in Hl as [? ?]. rewrite fmap_cons, Hv, IHl; done.
  - rewrite compat_object. f_equal. clear Hk Hn. induction IH as [|[k v] o Hv _ IHo]; [done|].
    apply Forall_cons in Ho as [Hkv ?]. cbn [snd] in *. rewrite fmap_cons, IHo by done. cbn [fst snd]. repeat f_equal.
    unfold compat_field. rewrite Hv by done. by inversion Hkv.
Qed.

(** The same for a property of an object. *)
Lemma compat_field_kept o key : Forall (fun kv => json_kept kv.2) o -> compat_field (prop o key) = prop o key.
Proof.
  induction 1 as [|[k v] o Hv _ IH]; [done|]. simpl. destruct (String.eqb k key); [|done].
  cbn [snd] in Hv. unfold compat_field. rewrite compat_kept by done. by inversion Hv.
Qed.

(** ** The totals of a block *)
Section Totals.
Context {St : Type} `{SqlEngine St} `{NodeApi} `{Crypto} `{Rpc} `{Packages}.

Definition sum (l : list Z) : Z := foldr Z.add 0 l.
(** The amount a transaction states under a name. *)
Definition amount_is (key : string) (txn : val) (z : Z) : Prop := js_BigInt (prop (as_obj txn) key) = Ok z.

Lemma add_txs txs t t' :
  foldM (fun t txn => add_tx t (as_obj txn)) t txs = Ok t' ->
  exists fees minFees, Forall2 (amount_is "fee") txs fees /\ Forall2 (amount_is "minFee") txs minFees /\
    t_forged t' = t_forged t + sum fees /\ t_burnt t' = t_burnt t + sum minFees /\
    t_network t' = t_network t + (sum fees - sum minFees).
Proof.
  revert t. induction txs as [|x txs IH]; intros t E.
  { injection E as <-. exists [], []. cbn. repeat split; [constructor..|lia|lia|lia]. }
  cbn [foldM] in E. inv_ok E. unfold add_tx in Ha. inv_ok Ha. injection Ha as <-.
  destruct (IH _ E) as (fees & mins & Hf & Hm & E1 & E2 & E3). cbn in E1, E2, E3.
  exists (a0 :: fees), (a1 :: mins). split; [by constructor|]. split; [by constructor|].
  rewrite E1, E2, E3. unfold sum. cbn. lia.
Qed.

(** The totals of a block that is presented add up: its transactions are
    those of the node, counted; the total forged is the reward of the block
    plus the fees of the transactions, the total burnt the sum of their
    minimum fees, and the network fee what is left of the fees. *)
Theorem block_totals original deleted (s s' : service (St := St)) block :
  normalizeBlock original deleted s = (Ok block, s') ->
  exists txs reward forged fees minFees b,
    block = Object b /\ elements (prop (as_obj original) "transactions") = Ok txs /\
    js_BigInt (js_or reward (Str "0")) = Ok forged /\ prop b "reward" = compat_field reward /\
    Forall2 (amount_is "fee") (normalizeTransaction <$> (as_obj <$> txs)) fees /\
    Forall2 (amount_is "minFee") (normalizeTransaction <$> (as_obj <$> txs)) minFees /\
    prop b "numberOfTransactions" = Num (Z.of_nat (length txs)) /\
    prop b "totalForged" = Str (string_of_Z (forged + sum fees)) /\
    prop b "totalBurnt" = Str (string_of_Z (sum minFees)) /\
    prop b "networkFee" = Str (string_of_Z (sum fees - sum minFees)) /\
    prop b "transactions" = parseToJSONCompatObj (Arr (normalizeTransaction <$> (as_obj <$> txs))).
Proof.
  intros E. unfold normalizeBlock in E. inv_M E.
  destruct a6 as [numberOfEvents reward]. inv_M E.
  apply lift_inv in Ha0 as [Ht _], Ha4 as [Htxs _], Ha7 as [Hr _], Ha8 as [Ha8 _].
  destruct (add_txs _ _ _ Ha8) as (fees & mins & Hf & Hm & E1 & E2 & E3). cbn in E1, E2, E3.
  rewrite compat_object in E. apply ret_inv in E as [<- _].
  exists a4, reward, a6, fees, mins. eexists. split; [done|].
  assert (prop (as_obj original) "transactions" = a0) as ->.
  { destruct original; try discriminate; injection Ht as <-; try done; discriminate. }
  rewrite !(prop_fmap compat_field) by done.
  rewrite !prop_spread by (apply (bool_decide_unpack _); vm_compute; exact I).
  cbn -[string_of_Z parseToJSONCompatObj sum Z.add Z.sub]. rewrite E1, E2, E3. by repeat split.
Qed.
End Totals.

(** ** Stored events *)
Section StoredEvents.
Context {St : Type} `{SqlEngine St} `{NodeApi} `{Crypto} `{Rpc} `{Packages}.

(** An event that the indexer stores is presented as it was: when events
    are persisted, the query of a row that has the text [event_row] writes for
    an event returns every property of the event, with its block added, and
    asks nobody. *)
Theorem persisted_event_returned block o row r (s : service (St := St)) blocks :
  is_persist_events = true -> json_kept (Object o) -> event_row block (Object o) = Ok row ->
  prop r "eventStr" = prop row "eventStr" ->
  find blocksTableSchema [("height", prop r "height"); ("limit", Num 1)] (Arr [Str "id"; Str "timestamp"])
    (w_auto (sv_world s)) = Ok blocks ->
  exists event, present_event r s = (Ok (Object event), s) /\
    (forall key, key <> "block" -> prop event key = prop o key) /\
    prop event "block" = compat_field (Object
      [("id", prop (default [] (head blocks)) "id"); ("height", prop r "height");
       ("timestamp", prop (default [] (head blocks)) "timestamp")]).
Proof.
  intros Hp Hk Hrow Hr Hb. destruct (json_roundtrip _ Hk) as (t & Et & Ep).
  assert (prop row "eventStr" = Str t) as Hrt.
  { unfold event_row in Hrow. inv_ok Hrow. rewrite Hp, orb_true_r in Hrow. inv_ok Hrow.
    rewrite Et in Ha3. injection Ha3 as <-. injection Hrow as <-. done. }
  assert (truthy (Str t) = true) as Htt by (destruct t; [discriminate|done]).
  unfold present_event. rewrite Hr, Hrt, Hp, Htt. cbn [andb js_String]. rewrite Ep.
  eexists. split.
  - rewrite (M_bind_ok _ _ _ (Object o) s) by done. cbn [truthy].
    rewrite (M_bind_ok _ _ _ (Object o) s) by done.
    rewrite (M_bind_ok _ _ _ blocks s); [by rewrite compat_object|].
    unfold on_world. rewrite (read_ok _ _ _ blocks) by done. by destruct s.
  - inversion Hk as [| | | | |? Ho Hn]; subst. split; [intros key Hkey|]; rewrite (prop_fmap compat_field) by done;
      rewrite prop_spread by (apply NoDup_singleton); case_decide as Hd.
    + by apply list_elem_of_singleton in Hd.
    + by apply compat_field_kept.
    + done.
    + by destruct Hd; left.
Qed.
End StoredEvents.

(** ** Examples *)
Definition persisting_node : NodeApi := {|
  klayr32_of_public_key pk := Ok pk; request_pos_constants := Ok Null; request_format_transaction _ _ := Ok Null;
  request_mainchain_id := Ok Null; request_chain_account _ := Ok Null; is_persist_events := true |}.

Definition sample_event : obj :=
  [("id", Str "e1"); ("name", Str "transfer"); ("module", Str "token"); ("index", Num 0);
   ("topics", Arr [Str "04"]); ("data", Object [("amount", Str "100"); ("note", Str "a\b")])].

Definition sample_event_row : obj :=
  Eval vm_compute in match event_row (H := persisting_node) [("height", Num 7); ("id", Str "b7")] (Object sample_event) with
                     | Ok row => row | Throw _ => [] end.

Definition sample_blocks_service : service (St := MemDB) := sample_service (mkWorld ∅ ∅ ∅ [] ∅) [].

Lemma sample_event_kept : json_kept (Object sample_event).
Proof.
  repeat match goal with
         | |- Forall _ _ => constructor
         | |- json_kept _ => constructor
         | |- NoDup _ => apply (bool_decide_unpack _); vm_compute; exact I
         | |- _ < _ => lia
         | |- _ => progress (cbn beta iota delta [snd])
         end.
Qed.

Lemma persisted_event_returned_witness :
  exists event, present_event (H0 := persisting_node) (H2 := sample_rpc [])
      sample_event_row sample_blocks_service = (Ok (Object event), sample_blocks_service) /\
    (forall key, key <> "block" -> prop event key = prop sample_event key) /\
    prop event "block" = Object [("id", Undef); ("height", Num 7); ("timestamp", Undef)].
Proof.
  apply (persisted_event_returned (H0 := persisting_node) [("height", Num 7); ("id", Str "b7")] sample_event
           sample_event_row sample_event_row sample_blocks_service []).
  - done.
  - apply sample_event_kept.
  - vm_compute. reflexivity.
  - done.
  - vm_compute. reflexivity.
Defined.

(** A block with two transactions, not in the index. *)
Definition sample_block : val :=
  let tx fee minFee := Object [("module", Str "token"); ("command", Str "transfer"); ("size", Num 100);
                               ("fee", BigI fee); ("minFee", BigI minFee)] in
  Object [("header", Object [("height", Num 7); ("id", Str "b7")]); ("assets", Arr []);
          ("transactions", Arr [tx 500 300; tx 40 40])].

Definition sample_block_rpc : Rpc := sample_rpc
  [("connector.getNetworkStatus", Object [("finalizedHeight", Num 6)]); ("connector.getGenesisHeight", Num 0);
   ("connector.getEventsByHeight", Arr [Object [("module", Str "dynamicReward"); ("name", Str "rewardMinted");
                                               ("data", Object [("amount", Str "1000")])]])].

Definition sample_presented : obj :=
  Eval vm_compute in match (normalizeBlock (H2 := sample_block_rpc) sample_block false sample_blocks_service).1 with
                     | Ok (Object b) => b | _ => [] end.

Lemma block_totals_witness :
  (normalizeBlock (H2 := sample_block_rpc) sample_block false sample_blocks_service).1 = Ok (Object sample_presented) /\
  exists forged fees minFees : Z,
    prop sample_presented "totalForged" = Str (string_of_Z (forged + fees)) /\
    prop sample_presented "totalBurnt" = Str (string_of_Z minFees) /\
    prop sample_presented "networkFee" = Str (string_of_Z (fees - minFees)).
Proof.
  assert ((normalizeBlock (H2 := sample_block_rpc) sample_block false sample_blocks_service).1 = Ok (Object sample_presented))
    as E1 by (vm_compute; reflexivity).
  split; [exact E1|].
  destruct (normalizeBlock (H2 := sample_block_rpc) sample_block false sample_blocks_service) as [r s'] eqn:E.
  cbn [fst] in E1. subst r.
  destruct (block_totals _ _ _ _ _ E)
    as (txs & reward & forged & fees & mins & b & [= <-] & _ & _ & _ & _ & _ & _ & F1 & F2 & F3 & _).
  by exists forged, (sum fees), (sum mins).
Defined.

(** ** Deviations *)
Section Deviations.
Context {St : Type} `{SqlEngine St} `{NodeApi} `{Crypto} `{Rpc} `{Packages}.

(** Events the indexer stored are not used for a height that is not cached:
    the node is asked. *)
Lemma stored_events_not_used height (s : service (St := St)) :
  cache_get "events" (js_String height) s = (Ok Undef, s) ->
  sv_calls (getEventsByHeight height s).2 = sv_calls s ++ [("connector.getEventsByHeight", [("height", height)])].
Proof.
  intros Hc. unfold getEventsByHeight.
  rewrite (M_bind_ok _ _ _ _ _ Hc). cbn [truthy].
  rewrite (M_bind_ok _ _ _ [] s) by done.
  unfold getEventsByHeightFromNode, requestConnector, requestRpc, mbind, eff_bind, lift, cache_set, modify, ret.
  cbn -[rpc json_text].
  destruct (rpc _ _ _) as [[]|]; cbn -[json_text]; try done.
  all: try (destruct (json_text _); done).
  destruct (truthy _); [destruct (get _ _); done|]. cbn -[json_text]. destruct (json_text _); done.
Qed.

(** The answer to any query becomes the last block: after a request for an old
    block it is what [getLastBlock] returns. *)
Lemma asked_block_becomes_last business_getBlocks params b meta (s s1 : service (St := St)) :
  json_kept b -> truthy b = true -> business_getBlocks params s = (Ok ([b], meta), s1) ->
  exists s', getBlocksFromServer business_getBlocks params s = (Ok ([b], meta), s') /\
    getLastBlock s' = (Ok b, s').
Proof.
  intros Hk Hb E. destruct (json_roundtrip b Hk) as (t & Et & Ep).
  eexists. split.
  - unfold getBlocksFromServer. rewrite (M_bind_ok _ _ _ _ _ E). cbn [for_each].
    unfold setLastBlock, json_text, lift, mbind, eff_bind. rewrite Et. cbn. reflexivity.
  - unfold getLastBlock, cache_get, gets, mbind, eff_bind. cbn -[String.append]. rewrite lookup_insert_eq. cbn.
    replace (String.eqb t "") with false.
    + unfold lift. cbn. by rewrite Ep.
    + symmetry. apply String.eqb_neq. intros ->. discriminate.
Qed.
End Deviations.
