(* ===== verification/AccountQuery.v ===== *)
(** * Token, proof-of-stake and interoperability queries

    The files of [dataService/business/token], [pos] and [interoperability]:
    balances, stakes, rewards and unlocks of an account, the applications on
    other chains and the channels to them.  The constants of a module are kept
    in a variable of the service once the node has answered. *)
From S2P Require Import Prelude JsValue Database Engine Search Table World Schemas KvStore Chain PoolAddress.
From S2P Require Import Stake Processors Regex Gateway DataQuery TransactionQuery Validators Http Export Service.
From S2P Require Import BlockQuery.
From Stdlib Require Import Ascii.
Local Open Scope Z_scope.

(** [`*`] and [`********`] *)
Definition PATTERN_ANY_TOKEN_ID : string := "*".
Definition PATTERN_ANY_CHAIN_TOKEN_ID : string := "********".

(** [s.substring(n)] *)
Definition substring_from (n : nat) (s : string) : string := js_slice n s.

(** The [orSearch] of a search by name, address or public key. *)
Definition name_search (search : val) : val :=
  Arr [Object [("property", Str "name"); ("pattern", search)];
       Object [("property", Str "address"); ("pattern", search)];
       Object [("property", Str "publicKey"); ("pattern", search)]].

Section AccountQuery.
Context {St : Type} `{SqlEngine St} `{NodeApi} `{Crypto} `{Rpc} `{Packages}.
Abbreviation eff_service := (eff (service (St := St))).

Definition from_table {A} (f : St -> result A) : eff_service A := on_world (read Auto f).

(** ** token *)
Definition getAvailableTokenIDs (params : obj) : eff_service obj :=
  tokenInfos ← from_table (find accountBalancesTableSchema (spread params [("distinct", Str "tokenID")]) (Arr [Str "tokenID"]));
  total ← from_table (count accountBalancesTableSchema [("distinct", Str "tokenID")] Undef);
  ret [("data", Object [("tokenIDs", Arr ((fun t => prop t "tokenID") <$> tokenInfos))]);
       ("meta", Object [("count", Num (Z.of_nat (length tokenInfos))); ("offset", prop params "offset"); ("total", Num total)])].

(** [if (!address && params.name) ...; if (!address && params.publicKey) ...] *)
Definition resolve_address (params : obj) : eff_service val :=
  let address := prop params "address" in
  address ← (if negb (truthy address) && truthy (prop params "name") then getAddressByName (prop params "name") else ret address);
  if negb (truthy address) && truthy (prop params "publicKey")
  then lift (getKlayr32AddressFromPublicKey (prop params "publicKey")) else ret address.

(** The first token of the list for which the address has an account. *)
Fixpoint has_any_account (address : val) (tokenIDs : list val) : eff_service val :=
  match tokenIDs with
  | [] => ret (Bool false)
  | tokenID :: tokenIDs =>
      response ← requestConnector "tokenHasUserAccount" [("address", address); ("tokenID", tokenID)];
      isExists ← lift (get response "exists");
      if truthy isExists then ret isExists else has_any_account address tokenIDs
  end.

Definition tokenHasUserAccount (params : obj) : eff_service obj :=
  address ← resolve_address params;
  isExists ←
    (if truthy address then
       tokenIDs ← (if truthy (prop params "tokenID") then ret [prop params "tokenID"]
                   else available ← getAvailableTokenIDs []; ids ← lift (get (prop available "data") "tokenIDs"); lift (elements ids));
       has_any_account address tokenIDs
     else ret (Bool false));
  ret [("data", Object [("isExists", isExists)]); ("meta", Object [])].

Definition getTokenBalances (params : obj) : eff_service obj :=
  let address := prop params "address" in
  let tokenID := prop params "tokenID" in
  if truthy tokenID && negb (truthy address) then
    throw (exception "InvalidParamsException" "TokenID based retrieval is only possible along with address.")
  else
    tokensInfo ←
      (if truthy tokenID then
         response ← requestConnector "getTokenBalance" [("address", address); ("tokenID", tokenID)];
         ret [Object (spread (as_obj response) [("tokenID", tokenID)])]
       else
         response ← requestConnector "getTokenBalances" [("address", address)];
         balances ← lift (get response "balances");
         if truthy balances then lift (elements balances) else ret []);
    let data := if has_prop params "offset" && has_prop params "limit" then page_slice params tokensInfo else tokensInfo in
    ret [("data", Arr data);
         ("meta", Object [("address", address); ("count", Num (Z.of_nat (length data))); ("offset", prop params "offset");
                          ("total", Num (Z.of_nat (length tokensInfo)))])].

Definition getTokenConstants : eff_service obj :=
  kept_ ← var "token/moduleConstants";
  constants ← (match kept_ with
    | Object (_ :: _) => ret kept_
    | _ =>
        fees ← requestConnector "getTokenInitializationFees" [];
        user ← lift (get fees "userAccount");
        escrow ← lift (get fees "escrowAccount");
        let c := Object [("extraCommandFees", Object [("userAccountInitializationFee", user);
                                                      ("escrowAccountInitializationFee", escrow)])] in
        assign "token/moduleConstants" c ≫= fun _ => ret c
    end);
  ret [("data", constants); ("meta", Object [])].

(** The lists a supported token belongs to: all tokens, a chain, or itself. *)
Definition classify_token (acc : bool * list val * list val) (tokenID : val) : result (bool * list val * list val) :=
  let '(all, exact, pattern) := acc in
  if bool_decide (tokenID = Str PATTERN_ANY_TOKEN_ID) then Ok (true, exact, pattern)
  else id ← as_text tokenID;
    if String.eqb (substring_from LENGTH_CHAIN_ID id) PATTERN_ANY_CHAIN_TOKEN_ID then Ok (all, exact, pattern ++ [tokenID])
    else Ok (all, exact ++ [tokenID], pattern).

Definition getTokenSummary : eff_service obj :=
  escrow ← requestConnector "getEscrowedAmounts" [];
  escrowedAmounts ← lift (get escrow "escrowedAmounts");
  supply ← requestConnector "getTotalSupply" [];
  totalSupply ← lift (get supply "totalSupply");
  supported ← requestConnector "getSupportedTokens" [];
  ids ← lift (get supported "supportedTokens"); ids ← lift (elements ids);
  '(all, exact, pattern) ← lift (foldM classify_token (false, [], []) ids);
  ret [("data", Object
         [("escrowedAmounts", escrowedAmounts);
          ("supportedTokens", Object [("isSupportAllTokens", Bool all); ("exactTokenIDs", Arr (unique [] exact));
                                      ("patternTokenIDs", Arr (unique [] pattern))]);
          ("totalSupply", totalSupply)]);
       ("meta", Object [])].

(** The parameters of the query over balances and accounts. *)
Definition top_balances_query (params : obj) : obj :=
  let search := prop params "search" in
  let q := set_prop (omit (omit params "search") "tokenID") "account_balances.tokenID" (prop params "tokenID") in
  let q := set_prop q "leftOuterJoin" (Object [("targetTable", Str "accounts");
                                               ("leftColumn", Str "account_balances.address");
                                               ("rightColumn", Str "accounts.address")]) in
  if truthy search then
    set_prop q "orSearch" (Arr ((fun c => Object [("property", Str c); ("pattern", search)]) <$>
      ["account_balances.address"; "accounts.address"; "accounts.name"; "accounts.publicKey"]))
  else q.

Definition present_balance (tokenInfo : obj) : eff_service val :=
  knowledge ← getAccountKnowledge (prop tokenInfo "address");
  balance ← lift (js_BigInt (prop tokenInfo "balance"));
  ret (Object [("address", prop tokenInfo "address"); ("publicKey", prop tokenInfo "publicKey");
               ("name", prop tokenInfo "name"); ("balance", Str (string_of_Z balance)); ("knowledge", knowledge)]).

Definition getTokenTopBalances (params : obj) : eff_service obj :=
  let q := top_balances_query params in
  tokenInfos ← from_table (find accountBalancesTableSchema q
    (Arr (Str <$> ["account_balances.balance"; "account_balances.address"; "accounts.publicKey"; "accounts.name"])));
  filtered ← map_each tokenInfos present_balance;
  total ← from_table (count accountBalancesTableSchema q (Arr [Str "account_balances.address"]));
  ret [("data", Object [(js_String (prop params "tokenID"), Arr filtered)]);
       ("meta", Object [("count", Num (Z.of_nat (length filtered))); ("offset", prop q "offset"); ("total", Num total)])].

(** ** pos *)
Definition getPosConstants : eff_service obj :=
  v ← var "posModuleConstants";
  try_catch
    (constants ← (match v with
                  | Undef => c ← requestConnector "getPosConstants" []; assign "posModuleConstants" c ≫= fun _ => ret c
                  | _ => ret v
                  end);
     ret [("data", constants); ("meta", Object [])])
    (fun e => throw ("Unable to fetch the PoS constants from connector due to: " +:+ err_message e)).

Definition getPosTokenID : eff_service val :=
  constants ← getPosConstants; lift (get (prop constants "data") "posTokenID").

(** The validator whose stakers are asked for: the query and the properties
    of [meta.validator] known from the request. *)
Definition stakers_validator (params : obj) : eff_service (obj * obj) :=
  let '(params, meta) :=
    if truthy (prop params "address")
    then (set_prop (omit params "address") "validatorAddress" (prop params "address"), [("address", prop params "address")])
    else (params, []) in
  '(params, meta) ←
    (if truthy (prop params "publicKey") then
       let publicKey := prop params "publicKey" in
       address ← lift (getKlayr32AddressFromPublicKey publicKey);
       on_world (indexAccountPublicKey publicKey) ≫= fun _ =>
       ret (set_prop (omit params "publicKey") "validatorAddress" address,
            spread meta [("address", address); ("publicKey", publicKey)])
     else ret (params, meta));
  if truthy (prop params "name") then
    let name := prop params "name" in
    account ← indexed_account [("name", name)] ["address"];
    ret (set_prop (omit params "name") "validatorAddress" (prop account "address"), set_prop meta "name" name)
  else ret (params, meta).

Definition stakers_meta (validator : obj) (count offset total : val) : val :=
  Object [("validator", Object validator); ("count", count); ("offset", offset); ("total", total)].

(** The accounts a search finds, by address. *)
Definition staker_names (search : val) : eff_service obj :=
  rows ← from_table (find accountsTableSchema [("orSearch", name_search search)] (Arr [Str "name"; Str "address"]));
  ret (foldl (fun names row => set_prop names (js_String (prop row "address")) (prop row "name")) [] rows).

Definition getStakers (params : obj) : eff_service obj :=
  let offset := prop params "offset" in
  '(params, validator) ← stakers_validator params;
  if negb (truthy (prop params "validatorAddress")) then
    ret [("data", Object [("stakers", Arr [])]); ("meta", stakers_meta validator (Num 0) offset (Num 0))]
  else
    names ← (if truthy (prop params "search") then staker_names (prop params "search") else ret []);
    let filter_ := if truthy (prop params "search")
      then [("whereIn", Object [("property", Str "stakerAddress"); ("values", Arr (Str <$> (fst <$> names)))])] else [] in
    let q := spread filter_
      [("validatorAddress", prop params "validatorAddress");
       ("propBetweens", Arr [Object [("property", Str "amount"); ("greaterThan", BigI 0)]]);
       ("limit", prop params "limit"); ("offset", prop params "offset"); ("sort", Str "amount:desc");
       ("order", Str "stakerAddress:asc")] in
    stakes ← from_table (find stakesTableSchema q (Arr [Str "stakerAddress"; Str "amount"]));
    stakers ← map_each stakes (fun stake =>
      let known := prop names (js_String (prop stake "stakerAddress")) in
      name ← (if truthy known then ret known
              else account ← indexed_account [("address", prop stake "stakerAddress")] ["name"]; ret (prop account "name"));
      ret (Object [("address", prop stake "stakerAddress"); ("amount", prop stake "amount"); ("name", name)]));
    account ← indexed_account [("address", prop params "validatorAddress")] ["name"; "publicKey"];
    let validator :=
      [("address", js_or (prop validator "address") (prop params "validatorAddress"));
       ("name", js_or (prop validator "name") (prop account "name"));
       ("publicKey", js_or (prop validator "publicKey") (js_or (prop account "publicKey") Null))] in
    total ← from_table (count stakesTableSchema q Undef);
    ret [("data", Object [("stakers", Arr stakers)]);
         ("meta", stakers_meta validator (Num (Z.of_nat (length stakers))) (prop params "offset") (Num total))].

(** As [resolve_address], and the public key is queued for the index. *)
Definition resolve_and_index (params : obj) : eff_service val :=
  let address := prop params "address" in
  address ← (if negb (truthy address) && truthy (prop params "name") then getAddressByName (prop params "name") else ret address);
  if negb (truthy address) && truthy (prop params "publicKey") then
    address ← lift (getKlayr32AddressFromPublicKey (prop params "publicKey"));
    on_world (indexAccountPublicKey (prop params "publicKey")) ≫= fun _ => ret address
  else ret address.

Definition normalizeStake (stake : val) : val := parseToJSONCompatObj stake.

(** A stake with the name of its validator; none when the search misses it. *)
Definition present_stake (search : obj) (stake : val) : eff_service (list val) :=
  let stake := normalizeStake stake in
  validatorAddress ← lift (get stake "validatorAddress");
  account ← indexed_account (spread search [("address", validatorAddress); ("isValidator", Bool true)]) ["name"];
  amount ← lift (get stake "amount");
  ret (if truthy (prop account "name")
       then [Object [("address", validatorAddress); ("amount", amount); ("name", prop account "name")]] else []).

Definition getStakes (params : obj) : eff_service obj :=
  address ← resolve_and_index params;
  stakerInfo ← requestConnector "getStaker" [("address", address)];
  stakes ← lift (get stakerInfo "stakes"); stakes ← lift (elements stakes);
  let search := if truthy (prop params "search") then [("orSearch", name_search (prop params "search"))] else [] in
  presented ← map_each stakes (present_stake search);
  account ← indexed_account [("address", address)] ["name"];
  let stakes := mjoin presented in
  ret [("data", Object [("stakes", Arr stakes)]);
       ("meta", Object [("staker", Object [("address", address); ("name", js_or (prop account "name") Null);
                                           ("publicKey", js_or (prop account "publicKey") (js_or (prop params "publicKey") Null))]);
                        ("count", Num (Z.of_nat (length stakes)))])].

Definition empty_page (data : val) : obj :=
  [("data", data); ("meta", Object [("count", Num 0); ("offset", Num 0); ("total", Num 0)])].

(** [timestamp + (expectedUnlockableHeight - height) * blockTime] *)
Definition js_times (a b : val) : val := match a, b with Num x, Num y => Num (x * y) | _, _ => NaN end.
Definition expected_unlock_time (timestamp height blockTime unlockableHeight : val) : val :=
  js_plus timestamp (js_times (js_sub unlockableHeight height) blockTime).

Definition present_unlock (params : obj) (timestamp height blockTime tokenID : val) (unlock : obj) : list val :=
  let isLocked := Bool (negb (truthy (prop unlock "unlockable"))) in
  if bool_decide (prop params "isLocked" = Undef) || bool_decide (prop params "isLocked" = isLocked) then
    let rem := omit unlock "unlockable" in
    [Object (spread rem [("isLocked", isLocked);
       ("expectedUnlockTime", expected_unlock_time timestamp height blockTime (prop rem "expectedUnlockableHeight"));
       ("tokenID", tokenID)])]
  else [].

Definition getPosUnlocks (params : obj) : eff_service obj :=
  address ← (if truthy (prop params "name") then getAddressByName (prop params "name") else ret (prop params "address"));
  address ← (if truthy (prop params "publicKey") then lift (getKlayr32AddressFromPublicKey (prop params "publicKey")) else ret address);
  if negb (truthy address) then ret (empty_page (Object []))
  else
    response ← requestConnector "getPosPendingUnlocks" [("address", address)];
    pending ← lift (get response "pendingUnlocks");
    status ← getNetworkStatus;
    lastBlockID ← lift (get (prop status "data") "lastBlockID");
    blockTime ← lift (get2 (prop status "data") "genesis" "blockTime");
    block ← getBlockByID lastBlockID;
    height ← lift (get block "height"); timestamp ← lift (get block "timestamp");
    tokenID ← getPosTokenID;
    pending ← lift (match pending with Undef => Ok [] | v => elements v end);
    let unlocks := mjoin ((fun u => present_unlock params timestamp height blockTime tokenID (as_obj u)) <$> pending) in
    account ← indexed_account [("address", address); ("limit", Num 1)] ["name"; "publicKey"];
    (if negb (truthy (prop account "publicKey")) && truthy (prop params "publicKey")
     then on_world (indexAccountPublicKey (prop params "publicKey")) else ret tt) ≫= fun _ =>
    let page := page_slice params unlocks in
    ret [("data", Object [("address", address); ("publicKey", js_or (prop account "publicKey") Null);
                          ("name", js_or (prop account "name") Null); ("pendingUnlocks", Arr page)]);
         ("meta", Object [("count", Num (Z.of_nat (length page))); ("offset", prop params "offset");
                          ("total", Num (Z.of_nat (length unlocks)))])].

Definition paged_answer (params : obj) (l : list val) : obj :=
  let page := page_slice params l in
  [("data", Arr page);
   ("meta", Object [("count", Num (Z.of_nat (length page))); ("offset", prop params "offset");
                    ("total", Num (Z.of_nat (length l)))])].

Definition getPosLockedRewards (params : obj) : eff_service obj :=
  if negb (has_prop params "address" || has_prop params "name" || has_prop params "publicKey") then
    throw (exception "InvalidParamsException" "One of the params (address, name or publicKey) is required.")
  else
    let address := prop params "address" in
    address ← (if negb (truthy address) && truthy (prop params "name") then
                 rows ← from_table (find validatorsTableSchema [("name", prop params "name"); ("limit", Num 1)] (Arr [Str "address"]));
                 ret (match rows with r :: _ => prop r "address" | [] => address end)
               else ret address);
    address ← (if negb (truthy address) && truthy (prop params "publicKey")
               then lift (getKlayr32AddressFromPublicKey (prop params "publicKey")) else ret address);
    tokenID ← getRewardTokenID;
    if negb (truthy address) || negb (truthy tokenID) then ret (empty_page (Arr []))
    else
      response ← requestConnector "getPosLockedReward" [("tokenID", tokenID); ("address", address)];
      reward ← lift (get response "reward");
      ret (paged_answer params [Object [("reward", reward); ("tokenID", tokenID)]]).

Definition getPosClaimableRewards (params : obj) : eff_service obj :=
  address ← resolve_and_index params;
  if negb (truthy address) then ret (empty_page (Arr []))
  else
    response ← requestConnector "getPosClaimableRewards" [("address", address)];
    rewards ← lift (get response "rewards"); rewards ← lift (elements rewards);
    ret (paged_answer params rewards).

(** ** interoperability *)
Definition getMainchainID : eff_service val := requestConnector "getMainchainID" [].

Definition getChainAccount (params : obj) : eff_service val := requestConnector "getChainAccount" [("chainID", prop params "chainID")].

Definition getKLYTokenID : eff_service val :=
  kept "klyTokenID"
    (mainchainID ← getMainchainID; id ← lift (as_text mainchainID);
     ret (Str (padEnd LENGTH_TOKEN_ID (first_chars LENGTH_NETWORK_ID id)))).

Definition token_of_network (suffix : string) : eff_service val :=
  kly ← getKLYTokenID; id ← lift (as_text kly); ret (Str (first_chars LENGTH_NETWORK_ID id +:+ suffix)).
Definition getSWXTokenID : eff_service val := token_of_network "55555500000000".
Definition getSWLTokenID : eff_service val := token_of_network "55555500000001".

(** The parameters of the query over the applications. *)
Definition apps_query (params : obj) : result obj :=
  let q := set_prop params "whereIn" (Arr []) in
  q ← (if truthy (prop q "chainID") then
         chainID ← as_text (prop q "chainID");
         Ok (push_to (omit q "chainID") "whereIn"
               (Object [("property", Str "chainID"); ("values", Arr (Str <$> split_on "," chainID))]))
       else Ok q);
  let q := if truthy (prop q "search")
    then set_prop (omit q "search") "search" (Object [("property", Str "chainName"); ("pattern", prop q "search")]) else q in
  if truthy (prop q "status") then
    status ← as_text (prop q "status");
    Ok (push_to (omit q "status") "whereIn" (Object [("property", Str "status"); ("values", Arr (Str <$> split_on "," status))]))
  else Ok q.

(** An application with the amounts held in escrow for it. *)
Definition present_app (escrowedAmounts : list val) (klyTokenID : val) (chainID : string) (app : obj) : result val :=
  escrow ← js_filter (fun e => prop_is e "escrowChainID" (prop app "chainID")) escrowedAmounts;
  entry ← js_find (fun e => prop_is e "tokenID" klyTokenID) escrow;
  escrowedKLY ← (match entry with Some e => get e "amount" | None => Ok (Str "0") end);
  Ok (Object (spread app
    [("escrowedKLY", escrowedKLY);
     ("escrow", Arr (match escrow with
                     | [] => [Object [("tokenID", Str (padEnd LENGTH_TOKEN_ID (first_chars LENGTH_NETWORK_ID chainID)));
                                      ("amount", Str "0")]]
                     | _ => escrow
                     end))])).

Definition getBlockchainApps (params : obj) : eff_service obj :=
  q ← lift (apps_query params);
  total ← from_table (count blockchainAppsTableSchema q Undef);
  apps ← from_table (find blockchainAppsTableSchema (spread q [("limit", js_or (prop q "limit") (Num total))])
                       (Arr (Str <$> (fst <$> Database.schema blockchainAppsTableSchema))));
  status ← getNetworkStatus;
  chainID ← lift (get (prop status "data") "chainID");
  response ← requestConnector "getEscrowedAmounts" [];
  escrowedAmounts ← lift (get response "escrowedAmounts");
  klyTokenID ← getKLYTokenID;
  data ← lift (match apps with
               | [] => Ok []
               | _ => amounts ← elements escrowedAmounts; id ← as_text chainID; mapM_result (present_app amounts klyTokenID id) apps
               end);
  ret [("data", Arr data);
       ("meta", Object [("count", Num (Z.of_nat (length data))); ("offset", prop q "offset"); ("total", Num total)])].

Definition getBlockchainAppsStatistics : eff_service obj :=
  cache ← var "blockchainAppsStatsCache"; ret [("data", cache); ("meta", Object [])].

(** utils/pos.js and utils/token.js over the table with the given prefix *)
Variable kv_prefix : string.

Definition getStakeInfo (keyPrefix : string) : eff_service obj :=
  rows ← from_table (kv_getByPattern kv_prefix (Str keyPrefix));
  let value := prop (default [] (head rows)) "value" in
  tokenID ← getPosTokenID;
  ret [("tokenID", tokenID); ("amount", Str (if truthy value then js_String value else "0"))].

Definition getTotalStaked : eff_service obj := getStakeInfo TOTAL_STAKED.
Definition getTotalSelfStaked : eff_service obj := getStakeInfo TOTAL_SELF_STAKED.

(** [key.split(prefix).pop()] *)
Fixpoint after_last (p s : string) : string :=
  match s with
  | EmptyString => s
  | String _ s' => if str_includes p s' then after_last p s'
                   else if String.prefix p s then substring_from (String.length p) s else s
  end.

Definition getTotalLocked : eff_service val :=
  rows ← from_table (kv_getByPattern kv_prefix (Str TOTAL_LOCKED));
  ret (Arr ((fun row => Object [("tokenID", Str (after_last TOTAL_LOCKED (js_String (prop row "key"))));
                                ("amount", Str (js_String (prop row "value")))]) <$> rows)).

Definition reloadBlockchainAppsStats : eff_service unit :=
  try_catch
    (activated ← from_table (count blockchainAppsTableSchema [("status", Str "activated")] Undef);
     registered ← from_table (count blockchainAppsTableSchema [("status", Str "registered")] Undef);
     terminated ← from_table (count blockchainAppsTableSchema [("status", Str "terminated")] Undef);
     response ← requestConnector "getTotalSupply" [];
     supplies ← lift (get response "totalSupply"); first ← lift (first_of supplies);
     totalSupply ← lift (get first "totalSupply");
     status ← getNetworkStatus;
     height ← lift (get (prop status "data") "height");
     inflation ← getAnnualInflation [("height", height)];
     rate ← lift (get (prop inflation "data") "rate");
     staked ← getTotalStaked;
     assign "blockchainAppsStatsCache" (Object
       [("registered", Num registered); ("activated", Num activated); ("terminated", Num terminated);
        ("totalSupplyKLY", totalSupply); ("totalStakedKLY", prop staked "amount"); ("currentAnnualInflationRate", rate)]))
    (fun _ => ret tt).

Definition getInteroperabilityConstants : eff_service obj :=
  v ← var "interoperability/moduleConstants";
  constants ← (match v with
    | Undef =>
        response ← requestConnector "getChainRegistrationFee" [];
        fee ← lift (get response "fee");
        let c := Object [("chainRegistrationFee", fee)] in
        assign "interoperability/moduleConstants" c ≫= fun _ => ret c
    | _ => ret v
    end);
  ret [("data", constants); ("meta", Object [])].

(** chain.js *)
Definition getCurrentChainID : eff_service val :=
  v ← var "chainID";
  (if truthy v then ret tt
   else status ← getNetworkStatus;
        id ← lift (get (prop status "data") "chainID");
        if truthy id then assign "chainID" id else ret tt) ≫= fun _ =>
  var "chainID".

Definition isMainchain : eff_service bool :=
  id ← getCurrentChainID; ret (regex_test MAINCHAIN_ID (js_String id)).

(** channel.js *)
Definition resolveMainchainServiceURL : eff_service val :=
  match env_text "MAINCHAIN_SERVICE_URL" with
  | Some url => ret (Str url)
  | None =>
      chainID ← getCurrentChainID; id ← lift (as_text chainID);
      let mainchainID := padEnd LENGTH_CHAIN_ID (first_chars LENGTH_NETWORK_ID id) in
      ret (match filter (fun n => prop n "chainID" = Str mainchainID) networks_KLAYR with
           | n :: _ => prop n "serviceURL"
           | [] => Undef
           end)
  end.

Definition channel_of_mainchain (inputChainID : val) : eff_service val :=
  serviceURL ← resolveMainchainServiceURL;
  response ← on_http (post_ axios (js_String serviceURL +:+ "/api/v3/invoke")
    [("endpoint", Str "interoperability_getChannel"); ("params", Object [("chainID", inputChainID)])]);
  error ← lift (get (prop response "data") "error");
  if truthy error then
    throw (exception "ValidationException" ("Channel info is not available for the chain: " +:+ js_String inputChainID +:+ "."))
  else lift (get (prop response "data") "data").

Definition resolveChannelInfo (inputChainID : val) : eff_service val :=
  currentChainID ← getCurrentChainID;
  if bool_decide (inputChainID = currentChainID) then
    throw (exception "ValidationException"
      "Channel info cannot be determined when receivingChainID and currentChainID are same.")
  else
    try_catch
      (here ← isMainchain;
       let there := regex_test MAINCHAIN_ID (js_String inputChainID) in
       direct ← (if here && negb there then ret true else here ← isMainchain; ret (negb here && there));
       if direct : bool then requestConnector "getChannel" [("chainID", inputChainID)]
       else channel_of_mainchain inputChainID)
      (fun error => throw (exception "ValidationException"
        ("Error while retrieving channel info for the chain: " +:+ js_String inputChainID +:+ "."
         +:+ String "010" ("Error: " +:+ err_text error)))).

End AccountQuery.
