(* ===== verification/EstimateFees.v ===== *)
(** * Fee estimates of a transaction

    [dataService/business/transactionsEstimateFees.js] with
    [transactionsDryRun.js] and [parseInputBySchema] of [utils/parser.js]: the
    transaction of a client is validated, completed with mock values, and the
    node says what it costs.  A [Buffer] is the array of its bytes. *)
From S2P Require Import Prelude JsValue Database Engine Search Table World Schemas KvStore Chain PoolAddress.
From S2P Require Import Stake Processors Regex Gateway DataQuery TransactionQuery Validators Http Export Service.
From S2P Require Import BlockQuery AccountQuery.
From Stdlib Require Import Ascii.
Local Open Scope Z_scope.
Set Warnings "-register-all".

(** ** utils/parser.js *)
Definition buffer_val (b : buffer) : val := Arr (Num <$> b).

(** A value that is not an object is read by [scalar] from the value, the data
    type and the format of the schema. *)
Section ParseInput.
Variable scalar : val -> val -> val -> result val.

(** The schema of a property and that of its items; a missing schema has no
    fields unless the value is an object. *)
Definition property_schema (schema : val) (key : string) : result val :=
  properties ← get schema "properties"; get properties key.
Definition inner_schema (property currValue : val) : result val :=
  let p := if truthy property then property else Object [] in
  dataType ← get p "dataType"; format ← get p "format";
  Ok (if String.eqb (typeof currValue) "object" then property else Object [("dataType", dataType); ("format", format)]).

Fixpoint parse_by (input schema : val) {struct input} : result val :=
  schemaType ← get schema "type"; schemaDataType ← get schema "dataType"; items ← get schema "items";
  format ← get schema "format";
  let parse_property key currValue :=
    property ← property_schema schema key;
    let p := if truthy property then property else Object [] in
    type ← get p "type"; itemsSchema ← get p "items";
    if bool_decide (type = Str "array") then
      match currValue with
      | Arr l =>
          l ← (fix go l := match l with
                | [] => Ok []
                | x :: l => y ← parse_by x itemsSchema; ys ← go l; Ok (y :: ys)
                end) l;
          Ok (Arr l)
      | _ => Throw "currValue.map is not a function"
      end
    else inner ← inner_schema property currValue; parse_by currValue inner in
  match input with
  | Object o =>
      if bool_decide (schemaType = Str "object") then
        o ← (fix go o := match o with
              | [] => Ok []
              | (key, currValue) :: o => v ← parse_property key currValue; r ← go o; Ok ((key, v) :: r)
              end) o;
        Ok (Object o)
      else if bool_decide (schemaType = Str "array") then Throw "input.map is not a function" else Ok input
  | Arr l =>
      if bool_decide (schemaType = Str "object") then
        o ← (fix go (i : nat) l := match l with
              | [] => Ok []
              | currValue :: l =>
                  let key := string_of_Z (Z.of_nat i) in
                  v ← parse_property key currValue; r ← go (S i) l; Ok ((key, v) :: r)
              end) 0%nat l;
        Ok (Object o)
      else if bool_decide (schemaType = Str "array") then
        l ← (fix go l := match l with
              | [] => Ok []
              | x :: l => y ← parse_by x items; ys ← go l; Ok (y :: ys)
              end) l;
        Ok (Arr l)
      else Ok input
  | Null =>
      if bool_decide (schemaType ∈ [Str "object"; Str "array"]) then Throw "Cannot convert undefined or null to object" else Ok Null
  | _ => scalar input schemaDataType format
  end.
End ParseInput.

Section EstimateFees.
Context {St : Type} `{SqlEngine St} `{NodeApi} `{Crypto} `{Rpc} `{Packages}.
Abbreviation eff_service := (eff (service (St := St))).

Definition parse_scalar (input dataType format : val) : result val :=
  let ty_is ty := bool_decide (dataType = Str ty) in
  if ty_is "string" then Ok (Str (js_String input))
  else if ty_is "boolean" then Ok (Bool (truthy input))
  else if ty_is "bytes" then
    s ← as_text input;
    if bool_decide (format = Str "klayr32") then b ← getAddressFromKlayr32Address s; Ok (buffer_val b)
    else Ok (buffer_val (from_hex s))
  else if ty_is "uint32" || ty_is "sint32" then Ok (js_Number input)
  else if ty_is "uint64" || ty_is "sint64" then z ← js_BigInt input; Ok (BigI z)
  else Ok input.

Definition parseInputBySchema (input schema : val) : result val := parse_by parse_scalar input schema.

(** ** transactionsDryRun.js *)
Definition verify_status (result_ : val) : result string :=
  if bool_decide (result_ = Num (-1)) then Ok "invalid"
  else if bool_decide (result_ = Num 0) then Ok "pending"
  else if bool_decide (result_ = Num 1) then Ok "valid"
  else Throw "Cannot read properties of undefined (reading 'toLowerCase')".

Definition business_dryRunTransactions (params : obj) : eff_service obj :=
  response ← requestConnector "dryRunTransaction"
    ((fun key => (key, prop params key)) <$> ["transaction"; "skipVerify"; "skipDecode"; "strict"]);
  result_ ← lift (get response "result");
  status ← lift (verify_status result_);
  ret [("data", Object (spread (as_obj response) [("status", Str status)])); ("meta", Object [])].

(** ** transactionsEstimateFees.js *)
Definition DEFAULT_MESSAGE_FEE : val := Str "10000000".
Definition DEFAULT_MESSAGE_FEE_TOKEN_ID : val := Str "0000000000000000".
Definition LENGTH_BYTE_SIGNATURE : nat := 64.
Definition LENGTH_BYTE_ID : nat := 32.
Definition DEFAULT_NUM_OF_SIGNATURES : nat := 1.

Definition BUFFER_BYTES_LENGTH : Z :=
  match process_env "ESTIMATES_BUFFER_BYTES_LENGTH" with Some s => number_default (Str s) 0 | None => 0 end.

(** [mockOptionalProperties(inputObject, optionalProps)] with the default values *)
Definition mockOptionalProperties (inputObject : obj) (defaults : list (string * val)) : obj :=
  foldl (fun o kv => if has_prop o kv.1 then o else set_prop o kv.1 kv.2) inputObject defaults.

Definition filterOptionalProps (inputObject : obj) (optionalProps : list string) : obj := foldl omit inputObject optionalProps.

Definition OPTIONAL_TRANSACTION_PROPERTIES : list string := ["fee"; "signatures"; "id"].
Definition OPTIONAL_TRANSACTION_PARAMS_PROPERTIES : list string := ["messageFee"; "messageFeeTokenID"].

(** [defaultValue()] of the properties of a transaction *)
Definition mock_values (calls numberOfSignatures : nat) : list (string * val) :=
  [("fee", Str "0");
   ("signatures", Arr ((fun i => Str (random_bytes calls i LENGTH_BYTE_SIGNATURE)) <$> seq 0 numberOfSignatures));
   ("id", Str (random_bytes calls numberOfSignatures LENGTH_BYTE_ID))].

Definition is_command (transaction : obj) (module command : string) : bool :=
  bool_decide (prop transaction "module" = Str module) && bool_decide (prop transaction "command" = Str command).

Definition mockTransaction (_transaction : obj) (numberOfSignatures : nat) : eff_service obj :=
  let txWithRequiredProps := filterOptionalProps _transaction OPTIONAL_TRANSACTION_PROPERTIES in
  calls ← gets (fun s => length (sv_calls s));
  let mocked := mockOptionalProperties txWithRequiredProps (mock_values calls numberOfSignatures) in
  channelInfo ← (if is_command mocked "token" "transferCrossChain"
                 then id ← lift (get (prop mocked "params") "receivingChainID"); resolveChannelInfo id
                 else ret (Object []));
  messageFeeTokenID ← lift (get channelInfo "messageFeeTokenID");
  let params := if truthy messageFeeTokenID
    then Object (mockOptionalProperties
           (filterOptionalProps (as_obj (prop mocked "params")) OPTIONAL_TRANSACTION_PARAMS_PROPERTIES)
           [("messageFee", Str "0"); ("messageFeeTokenID", messageFeeTokenID)])
    else prop mocked "params" in
  ret (spread mocked [("params", params)]).

(** [v.length] of an array *)
Definition array_length (v : val) : result nat := l ← elements v; Ok (length l).

Definition getNumberOfSignatures (address : val) : eff_service nat :=
  try_catch
    (info ← requestConnector "getAuthAccount" [("address", address)];
     mandatory ← lift (get info "mandatoryKeys"); mandatory ← lift (array_length mandatory);
     optional ← lift (get info "optionalKeys"); optional ← lift (array_length optional);
     ret (match (mandatory + optional)%nat with O => DEFAULT_NUM_OF_SIGNATURES | n => n end))
    (fun _ => ret DEFAULT_NUM_OF_SIGNATURES).

Definition CCM_SENT_FAILED_ERROR_MESSAGE (code : val) : string :=
  js_String (match prop
    [("1", Str "Receiving chain is not active."); ("11", Str "Failed to pay message fee.");
     ("12", Str "Invalid params provided."); ("13", Str "Invalid CCM format.");
     ("14", Str "Sending chain cannot be the receiving chain.")] (js_String code) with Undef => Str "" | v => v end).

(** [events.find(event => event.name === name)] *)
Definition find_event (data : val) (name : string) : result (option val) :=
  events ← get data "events"; l ← elements events; js_find (fun e => prop_is e "name" (Str name)) l.

(** The encoded message of a cross-chain transfer; [None] is [null]. *)
Definition getCcmBuffer (transaction : obj) : eff_service (option buffer) :=
  if negb (is_command transaction "token" "transferCrossChain") then ret None
  else
    response ← business_dryRunTransactions [("transaction", Object transaction); ("skipVerify", Bool true)];
    sent ← lift (find_event (prop response "data") "ccmSendSuccess");
    match sent with
    | Some event =>
        ccm ← lift (get2 event "data" "ccm");
        encoded ← requestConnector "encodeCCM" [("ccm", ccm)];
        text ← lift (as_text encoded);
        ret (Some (from_hex text))
    | None =>
        response ← business_dryRunTransactions [("transaction", Object transaction); ("skipVerify", Bool false)];
        let dryRunResult := prop response "data" in
        errorMessage ← lift (get dryRunResult "errorMessage");
        if truthy errorMessage then throw (exception "ValidationException" (js_String errorMessage))
        else
          failed ← lift (find_event dryRunResult "ccmSentFailed");
          match failed with
          | Some event => code ← lift (get event "code"); throw (exception "ValidationException" (CCM_SENT_FAILED_ERROR_MESSAGE code))
          | None => ret (Some [])
          end
    end.

(** [BigInt(minFee) + BigInt(Math.round(Number(perByte) * Number(BigInt(size))))] *)
Definition dynamic_fee (perByte : val) (minFee : Z) (size : val) : result val :=
  n ← js_BigInt size;
  extra ← js_BigInt (match js_times (js_Number perByte) (Num (to_double n)) with Num z => Num (to_double z) | v => v end);
  Ok (BigI (minFee + extra)).

Definition calcDynamicFeeEstimates (estimatePerByte : val) (minFee : Z) (size : val) : result obj :=
  low ← get estimatePerByte "low"; low ← dynamic_fee low minFee size;
  med ← get estimatePerByte "med"; med ← dynamic_fee med minFee size;
  high ← get estimatePerByte "high"; high ← dynamic_fee high minFee size;
  Ok [("low", low); ("medium", med); ("high", high)].

(** [additionalFees] *)
Record additional := mkAdditional { af_fee : obj; af_params : obj; af_total : Z }.
Definition no_additional : additional := mkAdditional [] [] 0.

(** [{ fee: { <name>: amount }, total: total + BigInt(amount) }] *)
Definition with_fee (name : string) (amount : val) (a : additional) : result additional :=
  z ← js_BigInt amount; Ok (mkAdditional [(name, amount)] (af_params a) (af_total a + z)).

Definition fees_transfer (params : val) : eff_service additional :=
  tokenID ← lift (get params "tokenID");
  recipient ← lift (get params "recipientAddress");
  response ← tokenHasUserAccount [("tokenID", tokenID); ("address", recipient)];
  isExists ← lift (get (prop response "data") "isExists");
  if truthy isExists then ret no_additional
  else
    constants ← getTokenConstants;
    amount ← lift (get2 (prop constants "data") "extraCommandFees" "userAccountInitializationFee");
    lift (with_fee "userAccountInitializationFee" amount no_additional).

(** [(await HTTP.get(url)).data] *)
Definition http_data (url : string) : eff_service val :=
  response ← on_http (get_ axios url []); ret (prop response "data").

(** The service of another chain, from its off-chain metadata. *)
Definition receiving_service (receivingChainID : val) : eff_service string :=
  mainchainServiceURL ← resolveMainchainServiceURL;
  meta ← http_data (js_String mainchainServiceURL +:+ "/api/v3/blockchain/apps/meta?chainID=" +:+ js_String receivingChainID);
  let data := match meta with Object o => prop o "data" | _ => Undef end in
  if negb (truthy data) || bool_decide (data = Arr []) then
    throw (exception "ValidationException"
      ("Application off-chain metadata is not available for the chain: " +:+ js_String receivingChainID +:+ "."))
  else
    app ← lift (first_of data);
    urls ← lift (get app "serviceURLs"); url ← lift (first_of urls);
    http ← lift (get url "http");
    ret (js_String http).

Definition fees_cross_chain (params : val) : eff_service additional :=
  tokenID ← lift (get params "tokenID");
  receivingChainID ← lift (get params "receivingChainID");
  recipient ← lift (get params "recipientAddress");
  url ← receiving_service receivingChainID;
  constants ← http_data (url +:+ "/api/v3/token/constants");
  extraCommandFees ← lift (get2 constants "data" "extraCommandFees");
  currentChainID ← getCurrentChainID;
  id ← lift (as_text tokenID);
  fees ←
    (if String.prefix (js_String currentChainID) id then
       response ← requestConnector "tokenHasEscrowAccount" [("tokenID", tokenID); ("escrowChainID", receivingChainID)];
       exists_ ← lift (get response "exists");
       if truthy exists_ then ret no_additional
       else amount ← lift (get extraCommandFees "escrowAccountInitializationFee");
            lift (with_fee "escrowAccountInitializationFee" amount no_additional)
     else ret no_additional);
  account ← http_data (url +:+ "/api/v3/token/account/exists?tokenID=" +:+ id +:+ "&address=" +:+ js_String recipient);
  isExists ← lift (get2 account "data" "isExists");
  if truthy isExists then ret fees
  else amount ← lift (get extraCommandFees "userAccountInitializationFee");
       ret (mkAdditional (af_fee fees)
              [("messageFee", Object [("userAccountInitializationFee", amount)])] (af_total fees)).

Definition calcAdditionalFees (transaction : obj) : eff_service additional :=
  let module := prop transaction "module" in
  if bool_decide (module = Str "token") then
    if is_command transaction "token" "transfer" then fees_transfer (prop transaction "params")
    else if is_command transaction "token" "transferCrossChain" then fees_cross_chain (prop transaction "params")
    else _ ← lift (get (prop transaction "params") "tokenID"); ret no_additional
  else if is_command transaction "pos" "registerValidator" then
    constants ← getPosConstants;
    amount ← lift (get (prop constants "data") "validatorRegistrationFee");
    lift (with_fee "validatorRegistrationFee" amount no_additional)
  else if is_command transaction "interoperability" "registerMainchain"
          || is_command transaction "interoperability" "registerSidechain" then
    constants ← getInteroperabilityConstants;
    amount ← lift (get (prop constants "data") "chainRegistrationFee");
    lift (with_fee "chainRegistrationFee" amount no_additional)
  else ret no_additional.

(** The transaction as it is after its validation, which completes the
    parameters of the object it was given. *)
Definition complete_params (transaction : obj) : obj :=
  if is_command transaction "token" "transferCrossChain" then
    set_prop transaction "params" (Object (mockOptionalProperties (as_obj (prop transaction "params"))
      [("messageFee", DEFAULT_MESSAGE_FEE); ("messageFeeTokenID", DEFAULT_MESSAGE_FEE_TOKEN_ID)]))
  else transaction.

Definition check_balance (transaction : obj) : eff_service unit :=
  tokenID ← lift (get (prop transaction "params") "tokenID");
  if truthy tokenID then
    senderAddress ← lift (getKlayr32AddressFromPublicKey (prop transaction "senderPublicKey"));
    balances ← getTokenBalances [("address", senderAddress); ("tokenID", tokenID)];
    balanceInfo ← lift (first_of (prop balances "data"));
    available ← lift (get balanceInfo "availableBalance"); available ← lift (js_BigInt available);
    amount ← lift (get (prop transaction "params") "amount"); amount ← lift (js_BigInt amount);
    if available <? amount then
      throw (exception "ValidationException" (js_String senderAddress +:+ " has insufficient balance for "
        +:+ js_String tokenID +:+ " to send the transaction."))
    else ret tt
  else ret tt.

Definition module_command (transaction : obj) : string :=
  js_String (prop transaction "module") +:+ ":" +:+ js_String (prop transaction "command").

(** The checks of a transaction whose parameters are complete *)
Definition check_transaction (transaction : obj) : eff_service unit :=
  check_balance transaction ≫= fun _ =>
  allSchemas ← getSchemas;
  commands ← lift (get (prop allSchemas "data") "commands"); commands ← lift (elements commands);
  txCommand ← lift (js_find (fun e => prop_is e "moduleCommand" (Str (module_command transaction))) commands);
  let schema := match txCommand with Some (Object c) => prop c "schema" | _ => Undef end in
  if negb (truthy schema) then
    throw (exception "ValidationException" (module_command transaction +:+ " is not a valid transaction."))
  else
    try_catch
      (parsedTxParams ← lift (parseInputBySchema (prop transaction "params") schema);
       lift (validate schema parsedTxParams))
      (fun err => throw (exception "ValidationException" (err_text err))).

(** [key in params] throws on a value that is no object. *)
Definition can_complete (transaction : obj) : bool :=
  negb (is_command transaction "token" "transferCrossChain")
  || match prop transaction "params" with Object _ | Arr _ => true | _ => false end.

Definition validateTransactionParams (transaction : obj) : eff_service obj :=
  (if can_complete transaction then ret tt else throw "Cannot use 'in' operator") ≫= fun _ =>
  let transaction := complete_params transaction in
  check_transaction transaction ≫= fun _ => ret transaction.

Definition validateUserHasTokenAccount (tokenID address : val) : eff_service unit :=
  response ← tokenHasUserAccount [("tokenID", tokenID); ("address", address)];
  isExists ← lift (get (prop response "data") "isExists");
  if truthy isExists then ret tt
  else throw (exception "ValidationException" (js_String address +:+ " has no balance for tokenID: " +:+ js_String tokenID
         +:+ ", necessary to make this transaction. Please top-up the account with some balance and retry.")).

Definition format_transaction (transaction : obj) (additionalFee : Z) : eff_service val :=
  requestConnector "formatTransaction" [("transaction", Object transaction); ("additionalFee", Str (string_of_Z additionalFee))].

(** [BigInt(BUFFER_BYTES_LENGTH * minFeePerByte)] *)
Definition buffer_fee (minFeePerByte : val) : result Z := js_BigInt (js_times (Num BUFFER_BYTES_LENGTH) minFeePerByte).

(** The fees of the response with those of the buffer bytes, if there are any *)
Definition with_buffer (fees : obj) (minFeePerByte : val) : result obj :=
  if BUFFER_BYTES_LENGTH =? 0 then Ok fees
  else z ← buffer_fee minFeePerByte; Ok (spread fees [("bufferBytes", BigI z)]).

(** What a cross-chain transfer adds: the fee of its message, the formatted
    transaction with it, and the breakdown of the fee. *)
Definition message_fee (senderAddress feeEstimatePerByte formatted : val) (trxWithMockProps params : obj) (fees : additional)
    : eff_service (obj * val * obj) :=
  receivingChainID ← lift (get (Object params) "receivingChainID");
  channelInfo ← resolveChannelInfo receivingChainID;
  messageFeeTokenID ← lift (get channelInfo "messageFeeTokenID");
  validateUserHasTokenAccount messageFeeTokenID senderAddress ≫= fun _ =>
  minFee ← lift (get formatted "minFee");
  ccmBuffer ← getCcmBuffer (spread (as_obj formatted) [("fee", minFee)]);
  ccmLength ← lift (match ccmBuffer with
                    | Some b => Ok (Z.of_nat (length b))
                    | None => Throw "Cannot read properties of null (reading 'length')"
                    end);
  perByte ← lift (get channelInfo "minReturnFeePerByte"); perByte ← lift (js_BigInt perByte);
  let ccmByteFee := ccmLength * perByte in
  let messageFee := prop (af_params fees) "messageFee" in
  totalMessageFee ← (if truthy messageFee then
                       amount ← lift (get messageFee "userAccountInitializationFee"); amount ← lift (js_BigInt amount);
                       ret (ccmByteFee + amount)
                     else ret ccmByteFee);
  formatted ← format_transaction
    (spread trxWithMockProps
       [("params", Object (spread (as_obj (prop trxWithMockProps "params"))
          [("messageFeeTokenID", messageFeeTokenID); ("messageFee", Str (string_of_Z totalMessageFee))]))])
    (af_total fees);
  minFeePerByte ← lift (get feeEstimatePerByte "minFeePerByte");
  additionalFees ← lift (with_buffer (as_obj messageFee) minFeePerByte);
  ret ([("messageFee", Object [("tokenID", messageFeeTokenID); ("amount", BigI totalMessageFee)])], formatted,
       [("params", Object [("messageFee", Object [("ccmByteFee", BigI ccmByteFee); ("additionalFees", Object additionalFees)])])]).

(** The answer for a formatted transaction *)
Definition estimate_answer (feeEstimatePerByte feeTokenID : val) (additionalFees : additional) (txParams : obj)
    (formattedTransaction : val) (breakdown : obj) : result val :=
  minFee ← get formattedTransaction "minFee"; size ← get formattedTransaction "size";
  minFeePerByte ← get feeEstimatePerByte "minFeePerByte";
  minFee ← js_BigInt minFee; buffer ← buffer_fee minFeePerByte;
  let estimatedMinFee := minFee + buffer in
  bytes ← js_BigInt size; perByte ← js_BigInt minFeePerByte;
  fees ← with_buffer (af_fee additionalFees) minFeePerByte;
  let res := Object
    [("data", Object [("transaction", Object
        [("params", Object txParams);
         ("fee", Object [("tokenID", feeTokenID); ("minimum", Str (string_of_Z estimatedMinFee))])])]);
     ("meta", Object [("breakdown", Object (spread breakdown
        [("fee", Object [("minimum", Object [("byteFee", Str (string_of_Z (bytes * perByte))); ("additionalFees", Object fees)])])]))])] in
  low ← get feeEstimatePerByte "low"; med ← get feeEstimatePerByte "med"; high ← get feeEstimatePerByte "high";
  if negb (bool_decide (low = Num 0)) || negb (bool_decide (med = Num 0)) || negb (bool_decide (high = Num 0)) then
    _ ← calcDynamicFeeEstimates feeEstimatePerByte estimatedMinFee size;
    (* the response has no property [transaction] of its own *)
    Throw "Cannot read properties of undefined (reading 'fee')"
  else Ok (parseToJSONCompatObj res).

(** The estimate for a transaction that was validated *)
Definition estimate_validated (senderAddress feeEstimatePerByte feeTokenID : val) (transaction : obj) : eff_service val :=
  numberOfSignatures ← getNumberOfSignatures senderAddress;
  trxWithMockProps ← mockTransaction transaction numberOfSignatures;
  additionalFees ← calcAdditionalFees trxWithMockProps;
  formattedTransaction ← format_transaction trxWithMockProps (af_total additionalFees);
  '(txParams, formattedTransaction, breakdown) ←
    (if is_command transaction "token" "transferCrossChain" then
       message_fee senderAddress feeEstimatePerByte formattedTransaction trxWithMockProps
         (as_obj (prop transaction "params")) additionalFees
     else ret ([], formattedTransaction, []));
  lift (estimate_answer feeEstimatePerByte feeTokenID additionalFees txParams formattedTransaction breakdown).

Definition estimateTransactionFees (params : obj) : eff_service val :=
  senderPublicKey ← lift (get (prop params "transaction") "senderPublicKey");
  senderAddress ← lift (getKlayr32AddressFromPublicKey senderPublicKey);
  feeEstimatePerByte ← getFeeEstimates;
  feeTokenID ← lift (get feeEstimatePerByte "feeTokenID");
  validateUserHasTokenAccount feeTokenID senderAddress ≫= fun _ =>
  transaction ← validateTransactionParams (as_obj (prop params "transaction"));
  estimate_validated senderAddress feeEstimatePerByte feeTokenID transaction.

End EstimateFees.

(** ** What an estimate depends on *)
Section Estimate.
Context {St : Type} `{SqlEngine St} `{NodeApi} `{Crypto} `{Rpc} `{Packages}.

Definition strip (t : obj) : obj := filterOptionalProps t OPTIONAL_TRANSACTION_PROPERTIES.

(** The values a transaction is completed with before the node sees it, outside
    of its parameters. *)
Record mocked_outside (t tx : obj) (n : nat) : Prop := {
  mocked_rest : forall key, key ∉ ["fee"; "signatures"; "id"; "params"] -> prop tx key = prop t key;
  mocked_fee : prop tx "fee" = Str "0";
  mocked_signatures : exists l, prop tx "signatures" = Arr l /\ length l = n;
}.

(** Two values agree in the properties of an object, except for the fee of a
    message and its token. *)
Definition agree (p q : val) : Prop :=
  forall key, key ∉ OPTIONAL_TRANSACTION_PARAMS_PROPERTIES -> prop (as_obj p) key = prop (as_obj q) key.

(** The parameters of the client, which a cross-chain transfer has with a fee
    for its message. *)
Definition params_kept (t tx : obj) : Prop :=
  if is_command t "token" "transferCrossChain" then
    agree (prop tx "params") (prop t "params") /\
    exists p token fee, prop tx "params" = Object p /\ prop p "messageFeeTokenID" = token /\ prop p "messageFee" = Str (string_of_Z fee)
  else prop tx "params" = prop t "params".

Record mocked (t tx : obj) (n : nat) : Prop := {
  mocked_all : mocked_outside t tx n;
  mocked_inside : params_kept t tx;
}.

Lemma prop_omit o key k : k <> key -> prop (omit o key) k = prop o k.
Proof.
  intros Hk. unfold omit. induction o as [|[j v] o IH]; [done|]. rewrite filter_cons. simpl.
  case_decide as Hd; simpl; [by rewrite IH|]. rewrite IH. destruct (String.eqb_spec j k) as [Ej|]; [|done].
  destruct (decide (j = key)); [congruence|]. by destruct Hd.
Qed.

Lemma has_omit o key : has_prop (omit o key) key = false.
Proof.
  unfold omit, has_prop. induction o as [|[j v] o IH]; [done|]. rewrite filter_cons. simpl.
  case_decide as Hd; simpl; [|done]. rewrite IH. destruct (String.eqb_spec j key); [|done]. by destruct Hd.
Qed.

Lemma has_omit_ne o key k : k <> key -> has_prop (omit o key) k = has_prop o k.
Proof.
  intros Hk. unfold omit, has_prop. induction o as [|[j v] o IH]; [done|]. rewrite filter_cons. simpl.
  case_decide as Hd; simpl; rewrite IH; [done|]. destruct (String.eqb_spec j k) as [Ej|]; [|done].
  destruct (decide (j = key)); [congruence|]. by destruct Hd.
Qed.

Lemma strip_omits t : strip t = omit (omit (omit t "fee") "signatures") "id".
Proof. done. Qed.

Lemma prop_strip t key : key ∉ OPTIONAL_TRANSACTION_PROPERTIES -> prop (strip t) key = prop t key.
Proof. intros Hk. unfold OPTIONAL_TRANSACTION_PROPERTIES in Hk. rewrite strip_omits, !prop_omit; [done|set_solver..]. Qed.

Lemma has_strip t key : key ∈ OPTIONAL_TRANSACTION_PROPERTIES -> has_prop (strip t) key = false.
Proof.
  intros Hk. rewrite strip_omits. apply elem_of_cons in Hk as [-> | Hk].
  - rewrite has_omit_ne, has_omit_ne by done. apply has_omit.
  - apply elem_of_cons in Hk as [-> | Hk]; [rewrite has_omit_ne by done; apply has_omit|].
    apply list_elem_of_singleton in Hk as ->. apply has_omit.
Qed.

Lemma mock_strip t calls n : mockOptionalProperties (strip t) (mock_values calls n) = spread (strip t) (mock_values calls n).
Proof.
  unfold mockOptionalProperties, mock_values, spread. cbn [foldl fst snd].
  rewrite (has_strip t "fee") by set_solver.
  rewrite has_prop_set_ne by done. rewrite (has_strip t "signatures") by set_solver.
  rewrite !has_prop_set_ne by done. by rewrite (has_strip t "id") by set_solver.
Qed.

Lemma mocked_params t tx n p : mocked_outside t tx n -> mocked_outside t (spread tx [("params", p)]) n.
Proof.
  intros [Hr Hf Hs].
  assert (forall key, key <> "params" -> prop (spread tx [("params", p)]) key = prop tx key) as Hp.
  { intros key Hk. apply prop_set_ne. by apply not_eq_sym. }
  split; [intros key Hk; rewrite Hp; [by apply Hr|set_solver]|by rewrite Hp|].
  by rewrite Hp.
Qed.

Lemma complete_rest t key : key <> "params" -> prop (complete_params t) key = prop t key.
Proof. intros Hk. unfold complete_params. destruct (is_command _ _ _); [|done]. apply prop_set_ne. by apply not_eq_sym. Qed.

Lemma complete_command t : is_command (complete_params t) "token" "transferCrossChain" = is_command t "token" "transferCrossChain".
Proof. unfold is_command. by rewrite !complete_rest. Qed.

(** *** Parameters *)
Lemma prop_mockOptional o ds key : key ∉ ds.*1 -> prop (mockOptionalProperties o ds) key = prop o key.
Proof.
  unfold mockOptionalProperties. revert o. induction ds as [|[k v] ds IH]; intros o Hk; [done|].
  rewrite fmap_cons, not_elem_of_cons in Hk. cbn [foldl fst snd]. rewrite IH by tauto.
  destruct (has_prop o k); [done|]. apply prop_set_ne. cbn [fst] in Hk. tauto || (intros ->; tauto).
Qed.

Lemma prop_filterOptional o ks key : key ∉ ks -> prop (filterOptionalProps o ks) key = prop o key.
Proof.
  unfold filterOptionalProps. revert o. induction ks as [|k ks IH]; intros o Hk; [done|].
  apply not_elem_of_cons in Hk as [Hk Hks]. cbn [foldl]. rewrite IH by done. by apply prop_omit.
Qed.

Lemma agree_mocked o ds : ds.*1 = OPTIONAL_TRANSACTION_PARAMS_PROPERTIES -> agree (Object (mockOptionalProperties o ds)) (Object o).
Proof. intros Hd key Hk. apply prop_mockOptional. by rewrite Hd. Qed.

Lemma agree_trans p q r : agree p q -> agree q r -> agree p r.
Proof. intros Hpq Hqr key Hk. by rewrite Hpq, Hqr. Qed.

Lemma agree_complete t : agree (prop (complete_params t) "params") (prop t "params").
Proof.
  unfold complete_params. destruct (is_command _ _ _); [|done]. rewrite prop_set_eq.
  intros key Hk. by apply prop_mockOptional.
Qed.

Lemma complete_other t : is_command t "token" "transferCrossChain" = false -> prop (complete_params t) "params" = prop t "params".
Proof. intros Hc. unfold complete_params. by rewrite Hc. Qed.

Lemma mockTransaction_params t n (s : service (St := St)) tx s' : mockTransaction t n s = (Ok tx, s') ->
  agree (prop tx "params") (prop t "params") /\
  (is_command t "token" "transferCrossChain" = false -> prop tx "params" = prop t "params").
Proof.
  unfold mockTransaction. fold (strip t). intros E. inv_M E. apply ret_inv in E as [<- _].
  assert (forall key, key ∉ OPTIONAL_TRANSACTION_PROPERTIES -> prop (mockOptionalProperties (strip t) (mock_values a n)) key = prop t key) as Hp.
  { intros key Hk. rewrite prop_mockOptional by exact Hk. by apply prop_strip. }
  unfold is_command in Ha0. rewrite !Hp in Ha0 by set_solver.
  change (prop (spread ?o [("params", ?p)]) "params") with (prop (set_prop o "params" p) "params"). rewrite prop_set_eq, Hp by set_solver.
  split.
  - destruct (truthy a1); [|done]. intros key Hk. cbn [as_obj]. rewrite prop_mockOptional by exact Hk. by apply prop_filterOptional.
  - intros Hc. unfold is_command in Hc. rewrite Hc in Ha0. apply ret_inv in Ha0 as [<- ->]. apply lift_inv in Ha1 as [[= <-] _]. done.
Qed.

Lemma mockTransaction_inv t n (s : service (St := St)) tx s' : mockTransaction t n s = (Ok tx, s') -> mocked_outside t tx n.
Proof.
  unfold mockTransaction. fold (strip t). intros E. inv_M E. apply ret_inv in E as [<- _]. apply mocked_params.
  unfold gets in Ha. injection Ha as <- <-. rewrite mock_strip.
  assert (NoDup (mock_values (length (sv_calls s)) n).*1) as Hn by (apply (bool_decide_unpack _); vm_compute; exact I).
  split; [intros key Hk| |]; rewrite prop_spread by done.
  - rewrite decide_False by set_solver. apply prop_strip. set_solver.
  - done.
  - eexists. split; [cbn; reflexivity|]. by rewrite length_fmap, length_seq.
Qed.

(** The last request was that for the fee of a transaction. *)
Definition priced (s : service (St := St)) (tx : obj) (additionalFee : Z) (answer : val) : Prop :=
  let request := [("transaction", Object tx); ("additionalFee", Str (string_of_Z additionalFee))] in
  exists calls, sv_calls s = calls ++ [("connector.formatTransaction", request)] /\
    rpc (length calls) "connector.formatTransaction" request = Ok answer.

Lemma format_priced tx fee (s : service (St := St)) v s' : format_transaction tx fee s = (Ok v, s') -> priced s' tx fee v.
Proof.
  unfold format_transaction, requestConnector, requestRpc, priced. intros E.
  exists (sv_calls s). injection E as E <-. split; [done|]. inv_ok E. etransitivity; [exact Ha|].
  destruct a; try congruence. destruct (truthy (prop o "error")); [|congruence]. inv_ok E. discriminate.
Qed.

Lemma lifts_keep {A} (r : result A) (s s' : service (St := St)) a : lift r s = (Ok a, s') -> s' = s.
Proof. by intros [_ ->]%lift_inv. Qed.

Lemma message_fee_priced sender perByte formatted trx params fees (s : service (St := St)) p v b s' :
  message_fee sender perByte formatted trx params fees s = (Ok (p, v, b), s') ->
  exists token fee, priced s' (spread trx [("params", Object (spread (as_obj (prop trx "params"))
    [("messageFeeTokenID", token); ("messageFee", Str (string_of_Z fee))]))]) (af_total fees) v.
Proof.
  unfold message_fee. intros E. inv_M E. apply ret_inv in E as [[= _ <- _] ->].
  apply lifts_keep in Ha10, Ha11. subst. eexists _, _. by eapply format_priced.
Qed.

Lemma message_params_kept t trx token fee : is_command t "token" "transferCrossChain" = true ->
  agree (prop trx "params") (prop t "params") ->
  params_kept t (spread trx [("params", Object (spread (as_obj (prop trx "params"))
    [("messageFeeTokenID", token); ("messageFee", Str (string_of_Z fee))]))]).
Proof.
  intros Hc Ha. unfold params_kept. rewrite Hc. set (q := spread (as_obj (prop trx "params")) _).
  change (prop (spread trx [("params", Object q)]) "params") with (prop (set_prop trx "params" (Object q)) "params"). rewrite prop_set_eq.
  assert (forall key, key ∉ OPTIONAL_TRANSACTION_PARAMS_PROPERTIES -> prop q key = prop (as_obj (prop trx "params")) key) as Hq.
  { intros key Hk. unfold q, spread. cbn [foldl fst snd]. rewrite !prop_set_ne; [done|..]; intros <-; apply Hk; set_solver. }
  split; [intros key Hk; cbn [as_obj]; rewrite Hq by done; by apply Ha|].
  exists q, token, fee. split; [done|]. unfold q, spread. cbn [foldl fst snd]. split; [|apply prop_set_eq].
  rewrite prop_set_ne by done. apply prop_set_eq.
Qed.

(** The minimum fee of an answer. *)
Definition minimum_of (r : val) : result val :=
  data ← get r "data"; transaction ← get data "transaction"; fee ← get transaction "fee"; get fee "minimum".

Lemma answer_minimum e id fees txParams formatted breakdown r :
  estimate_answer e id fees txParams formatted breakdown = Ok r ->
  exists minFee buffer, js_BigInt (prop (as_obj formatted) "minFee") = Ok minFee /\
    buffer_fee (prop (as_obj e) "minFeePerByte") = Ok buffer /\ minimum_of r = Ok (Str (string_of_Z (minFee + buffer))).
Proof.
  unfold estimate_answer. intros E. inv_ok E. exists a2, a3.
  assert (forall v key x, get v key = Ok x -> prop (as_obj v) key = x) as Hget.
  { intros v key x Hg. destruct v; by simplify_eq/=. }
  split; [by rewrite (Hget _ _ _ Ha)|]. split.
  - by rewrite (Hget _ _ _ Ha1).
  - destruct (_ || _); [inv_ok E; discriminate|]. injection E as <-. done.
Qed.

(** Transactions that differ in what the client says about fee, signatures and
    identifier *)
Lemma strip_prop t t' key : strip t = strip t' -> key ∉ OPTIONAL_TRANSACTION_PROPERTIES -> prop t key = prop t' key.
Proof. intros E Hk. by rewrite <- (prop_strip t), E, prop_strip. Qed.

Lemma omit_set o key k v : k <> key -> omit (set_prop o k v) key = set_prop (omit o key) k v.
Proof.
  intros Hk. unfold omit. induction o as [|[j w] o IH]; simpl.
  - rewrite filter_cons_True by done. done.
  - destruct (String.eqb_spec j k) as [->|Hj].
    + rewrite !filter_cons_True by done. simpl. by rewrite String.eqb_refl.
    + destruct (decide (j = key)) as [->|Hj'].
      * rewrite !filter_cons_False by (simpl; tauto). done.
      * rewrite !filter_cons_True by done. simpl. destruct (String.eqb_spec j k); [done|]. by rewrite IH.
Qed.

Lemma strip_complete t t' : strip t = strip t' -> strip (complete_params t) = strip (complete_params t').
Proof.
  intros E. unfold complete_params, is_command.
  rewrite (strip_prop t t' "module" E), (strip_prop t t' "command" E), (strip_prop t t' "params" E) by set_solver.
  destruct (_ && _); [|done]. rewrite !strip_omits, !omit_set by done. by rewrite <- !strip_omits, E.
Qed.

Lemma mock_depends t t' n : strip t = strip t' -> mockTransaction (St := St) t n = mockTransaction t' n.
Proof. intros E. unfold mockTransaction. fold (strip t) (strip t'). by rewrite E. Qed.

Lemma check_depends t t' : strip t = strip t' -> check_transaction (St := St) t = check_transaction t'.
Proof.
  intros E. unfold check_transaction, check_balance, module_command.
  by rewrite (strip_prop t t' "module" E), (strip_prop t t' "command" E), (strip_prop t t' "params" E),
    (strip_prop t t' "senderPublicKey" E) by set_solver.
Qed.

Lemma can_complete_depends t t' : strip t = strip t' -> can_complete t = can_complete t'.
Proof.
  intros E. unfold can_complete, is_command.
  by rewrite (strip_prop t t' "module" E), (strip_prop t t' "command" E), (strip_prop t t' "params" E) by set_solver.
Qed.

Lemma validate_inv t (s : service (St := St)) t1 s' : validateTransactionParams t s = (Ok t1, s') -> t1 = complete_params t.
Proof. unfold validateTransactionParams. intros E. inv_M E. by apply ret_inv in E as [<- _]. Qed.

Lemma estimate_depends t t' (s : service (St := St)) :
  strip t = strip t' ->
  estimateTransactionFees [("transaction", Object t)] s = estimateTransactionFees [("transaction", Object t')] s.
Proof.
  intros E. pose proof (strip_complete _ _ E) as Ec.
  assert (forall a e f, estimate_validated (St := St) a e f (complete_params t) = estimate_validated a e f (complete_params t')) as Hk.
  { intros a e f. unfold estimate_validated, mockTransaction, is_command.
    change (filterOptionalProps ?x OPTIONAL_TRANSACTION_PROPERTIES) with (strip x). rewrite Ec.
    by rewrite (strip_prop _ _ "module" Ec), (strip_prop _ _ "command" Ec), (strip_prop _ _ "params" Ec) by set_solver. }
  unfold estimateTransactionFees, validateTransactionParams.
  change (get (prop [("transaction", Object ?x)] "transaction") ?k) with (@Ok val (prop x k)).
  change (as_obj (prop [("transaction", Object ?x)] "transaction")) with x.
  rewrite (strip_prop t t' "senderPublicKey" E) by set_solver.
  rewrite (can_complete_depends _ _ E), (check_depends _ _ Ec).
  unfold mbind, eff_bind.
  repeat (case_match; simplify_eq/=; try done).
  match goal with Hr : ret (complete_params _) _ = _ |- _ => apply ret_inv in Hr as [<- ->] end. by rewrite Hk.
Qed.

(** [C37] The fee estimate is what the node asks for the transaction as it
    will be sent.  When an estimate is returned, the last request was for the
    fee of a transaction with the properties and the parameters of that of the
    client except for mock values: no fee, as many signatures as the account
    has keys (one if that is unknown), an identifier, and, in the parameters of
    a cross-chain transfer only, the fee of its message and the token of that
    fee.  The minimum is the fee the node answered plus that of the buffer
    bytes, and any other fee, signatures or identifier in the client's
    transaction would have given the same answer. *)
Theorem estimate_is_node_fee t (s s' : service (St := St)) r :
  estimateTransactionFees [("transaction", Object t)] s = (Ok r, s') ->
  (exists tx additionalFee answer minFee buffer n (s1 s2 : service (St := St)),
     priced s' tx additionalFee answer /\ mocked t tx n /\
     (exists address, klayr32_of_public_key (prop t "senderPublicKey") = Ok address /\
                      getNumberOfSignatures address s1 = (Ok n, s2)) /\
     js_BigInt (prop (as_obj answer) "minFee") = Ok minFee /\
     buffer_fee (prop (as_obj (prop (sv_vars s) "feeEstimates")) "minFeePerByte") = Ok buffer /\
     minimum_of r = Ok (Str (string_of_Z (minFee + buffer)))) /\
  forall t', strip t' = strip t -> estimateTransactionFees [("transaction", Object t')] s = (Ok r, s').
Proof.
  intros E. split; [|intros t' Et; by rewrite (estimate_depends t' t s Et)].
  unfold estimateTransactionFees in E. inv_M E. unfold estimate_validated in E. inv_M E.
  destruct a9 as [[txParams formatted] breakdown]. apply lift_inv in E as [E ->].
  apply lift_inv in Ha as [[= <-] ->], Ha0 as [Haddr ->], Ha2 as [Hid ->].
  unfold getFeeEstimates, var, gets in Ha1. injection Ha1 as <- <-.
  destruct (answer_minimum _ _ _ _ _ _ _ E) as (minFee & buffer & Hm & Hb & Hr).
  apply validate_inv in Ha4 as ->.
  change (as_obj (prop [("transaction", Object t)] "transaction")) with t in *. apply mockTransaction_inv in Ha6 as Hmock.
  assert (exists tx, priced w9 tx (af_total a7) formatted /\ mocked t tx a5) as (tx & Hp & Htx).
  { apply mockTransaction_params in Ha6 as [Hag Hsame]. pose proof (agree_trans _ _ _ Hag (agree_complete t)) as Hag'.
    assert (mocked_outside t a6 a5) as Ht.
    { destruct Hmock as [Hrest Hf Hs]. split; [|done|done]. intros key Hk. rewrite Hrest by done.
      apply complete_rest. set_solver. }
    rewrite complete_command in Ha9, Hsame. destruct (is_command t _ _) eqn:Ec.
    - destruct (message_fee_priced _ _ _ _ _ _ _ _ _ _ _ Ha9) as (token & fee & Hq). eexists. split; [exact Hq|].
      split; [by apply mocked_params|by apply message_params_kept].
    - apply ret_inv in Ha9 as [[= _ <- _] ->]. exists a6. split; [by eapply format_priced|]. split; [done|].
      unfold params_kept. rewrite Ec, Hsame by done. by apply complete_other. }
  exists tx, (af_total a7), formatted, minFee, buffer, a5, w4, w5. split_and!; try done. by exists a0.
Qed.
End Estimate.

(** ** Examples and deviations *)
Definition sample_transfer : obj :=
  [("module", Str "token"); ("command", Str "transfer"); ("nonce", Str "0"); ("fee", Str "7");
   ("senderPublicKey", Str "sender"); ("signatures", Arr []);
   ("params", Object [("tokenID", Str "0400000000000000"); ("amount", Str "10"); ("recipientAddress", Str "recipient")])].

Definition sample_estimate_rpc : Rpc := sample_rpc
  [("connector.tokenHasUserAccount", Object [("exists", Bool true)]);
   ("connector.getTokenBalance", Object [("availableBalance", Str "1000")]);
   ("connector.getSystemMetadata", Object [("modules", Arr [Object
      [("name", Str "token"); ("events", Arr []); ("assets", Arr []);
       ("commands", Arr [Object [("name", Str "transfer"); ("params", Object [("type", Str "object"); ("properties", Object [])])]])]])]);
   ("connector.getSchema", Object []);
   ("connector.getAuthAccount", Object [("mandatoryKeys", Arr [Str "k1"]); ("optionalKeys", Arr [Str "k2"; Str "k3"])]);
   ("connector.formatTransaction", Object [("minFee", Str "150"); ("size", Num 120)])].

Definition sample_estimates : service (St := MemDB) :=
  sample_service (mkWorld ∅ ∅ ∅ [] ∅) [("feeEstimates", Object (spread defaultFeeEstimates [("feeTokenID", Str "0400000000000000")]))].

Abbreviation sample_run t :=
  (estimateTransactionFees (H0 := sample_node) (H1 := plain_crypto) (H2 := sample_estimate_rpc) (H3 := sample_packages)
    [("transaction", Object t)] sample_estimates).

Definition sample_estimate : val :=
  Eval vm_compute in match (sample_run sample_transfer).1 with Ok r => r | Throw _ => Undef end.

Lemma estimate_is_node_fee_witness :
  (sample_run sample_transfer).1 = Ok sample_estimate /\ minimum_of sample_estimate = Ok (Str "150") /\
  forall t', strip t' = strip sample_transfer -> (sample_run t').1 = Ok sample_estimate.
Proof.
  assert ((sample_run sample_transfer).1 = Ok sample_estimate) as E1 by (vm_compute; reflexivity).
  split; [exact E1|]. split; [reflexivity|]. intros t' Ht.
  destruct (sample_run sample_transfer) as [r s'] eqn:E. cbn [fst] in E1. subst r.
  destruct (estimate_is_node_fee (H0 := sample_node) (H1 := plain_crypto) (H2 := sample_estimate_rpc)
              (H3 := sample_packages) _ _ _ _ E) as [_ Hd].
  by rewrite (Hd t' Ht).
Defined.

Section Deviation.
Context {St : Type} `{SqlEngine St} `{NodeApi} `{Crypto} `{Rpc} `{Packages}.

(** Once the fee estimator reports a fee above the minimum, no estimate is
    returned any more: the priority fees are assigned to a property of
    [undefined]. *)
Lemma priority_fees_fail e id fees txParams formatted breakdown r low :
  get e "low" = Ok low -> low <> Num 0 -> estimate_answer e id fees txParams formatted breakdown <> Ok r.
Proof.
  intros Hl Hn E. unfold estimate_answer in E. inv_ok E. rewrite Hl in Ha7. injection Ha7 as <-.
  rewrite (bool_decide_eq_false_2 (low = Num 0)) in E by done. cbn [negb orb] in E. inv_ok E. discriminate.
Qed.
End Deviation.
