(* ===== verification/Controllers.v ===== *)
(** * Controllers of the data service

    [methods/dataService/controllers]: what a method of the indexer answers,
    with the status that an exception of a known class becomes. *)
From S2P Require Import Prelude JsValue Database Engine Search Table World Schemas KvStore Chain PoolAddress.
From S2P Require Import Stake Processors Gateway DataQuery TransactionQuery Validators Http Export Service.
From S2P Require Import BlockQuery AccountQuery EstimateFees.
Local Open Scope Z_scope.

Section Controllers.
Context {St : Type} `{SqlEngine St} `{NodeApi} `{Crypto} `{Rpc} `{Packages}.
Abbreviation eff_service := (eff (service (St := St))).

(** [if (response.data) res.data = response.data], the same for [meta] *)
Definition passed_on (data : val) (call : eff_service obj) : eff_service obj :=
  response ← call;
  ret [("data", js_or (prop response "data") data); ("meta", js_or (prop response "meta") (Object []))].

(** The answer to an exception of a class with a status; others are thrown on. *)
Definition status_of_exception (statuses : list (string * val)) (e : string) : option val :=
  match list_find (fun s => instance_of s.1 e = true) statuses with Some (_, s) => Some s.2 | None => None end.

Definition with_status (statuses : list (string * val)) (call : eff_service obj) : eff_service obj :=
  try_catch call (fun e =>
    match status_of_exception statuses e with
    | Some status => ret [("status", status); ("data", Object [("error", Str (err_message e))])]
    | None => throw e
    end).

Definition invalid_params : list (string * val) := [("InvalidParamsException", Str "INVALID_PARAMS")].

(** ** auth.js, legacy.js, validator.js, chain.js *)
Definition ctl_getAuthAccountInfo (params : obj) : eff_service obj := passed_on (Object []) (getAuthAccountInfo params).
Definition ctl_getLegacyAccountInfo (params : obj) : eff_service obj := passed_on (Object []) (getLegacyAccountInfo params).
Definition ctl_getValidator (params : obj) : eff_service obj := passed_on (Object []) (getValidator params).
Definition ctl_validateBLSKey (params : obj) : eff_service obj := passed_on (Object []) (validateBLSKey params).
Definition ctl_resolveMainchainServiceURL : eff_service val := resolveMainchainServiceURL.

(** ** pos.js *)
Definition ctl_getPosConstants : eff_service obj := passed_on (Object []) getPosConstants.
Definition ctl_getPosUnlocks (params : obj) : eff_service obj := passed_on (Object []) (getPosUnlocks params).
Definition ctl_getStakes (params : obj) : eff_service obj := passed_on (Object []) (getStakes params).
Definition ctl_getStakers (params : obj) : eff_service obj := passed_on (Object []) (getStakers params).
Definition ctl_getPosClaimableRewards (params : obj) : eff_service obj := passed_on (Arr []) (getPosClaimableRewards params).
Definition ctl_getPosLockedRewards (params : obj) : eff_service obj :=
  with_status invalid_params (passed_on (Arr []) (getPosLockedRewards params)).

(** ** token.js *)
Definition ctl_getTokenBalances (params : obj) : eff_service obj :=
  with_status invalid_params (passed_on (Arr []) (getTokenBalances params)).
Definition ctl_getTokenTopBalances (params : obj) : eff_service obj := passed_on (Object []) (getTokenTopBalances params).
Definition ctl_getTokenSummary : eff_service obj := passed_on (Object []) getTokenSummary.
Definition ctl_tokenHasUserAccount (params : obj) : eff_service obj := passed_on (Object []) (tokenHasUserAccount params).
Definition ctl_getTokenConstants : eff_service obj := passed_on (Object []) getTokenConstants.
Definition ctl_getAvailableTokenIDs (params : obj) : eff_service obj := passed_on (Object []) (getAvailableTokenIDs params).

(** ** network.js *)
Variable kv_prefix : string.

Definition ctl_getNetworkStatus : eff_service obj := passed_on (Object []) getNetworkStatus.
Definition ctl_getNetworkStatistics : eff_service obj :=
  stats ← passed_on (Object []) getNetworkPeersStatistics;
  locked ← getTotalLocked kv_prefix;
  staked ← getTotalStaked kv_prefix;
  self ← getTotalSelfStaked kv_prefix;
  data ← lift (to_obj (prop stats "data"));
  ret (set_prop stats "data" (Object (spread data
    [("totalLocked", locked); ("totalStaked", Object staked); ("totalSelfStaked", Object self)]))).
Definition ctl_getNetworkPeers (params : obj) : eff_service obj := passed_on (Arr []) (getNetworkPeers params).
Definition ctl_getNetworkConnectedPeers (params : obj) : eff_service obj := passed_on (Arr []) (getNetworkConnectedPeers params).
Definition ctl_getNetworkDisconnectedPeers (params : obj) : eff_service obj := passed_on (Arr []) (getNetworkDisconnectedPeers params).
Definition ctl_getNetworkPeersStatistics : eff_service obj := passed_on (Object []) getNetworkPeersStatistics.

(** ** dynamicReward.js *)
Definition ctl_getDefaultRewardAtHeight (params : obj) : eff_service obj := passed_on (Object []) (getDefaultRewardAtHeight params).
Definition ctl_getAnnualInflation (params : obj) : eff_service obj := passed_on (Object []) (getAnnualInflation params).
Definition ctl_getRewardConstants : eff_service obj := passed_on (Object []) getRewardConstants.

(** ** invoke.js *)
Definition ctl_invokeEndpoint (params : obj) : eff_service obj :=
  with_status [("ValidationException", BAD_REQUEST); ("ServiceUnavailableException", Str "SERVICE_UNAVAILABLE")]
    (passed_on (Object []) (invokeEndpoint params)).

(** ** events.js, blocks.js and transactions.js *)
Definition ctl_getEvents (params : obj) : eff_service obj :=
  with_status [("NotFoundException", NOT_FOUND)] (passed_on (Object []) (getEvents params)).

Definition ctl_getBlocks (business_getBlocks : obj -> eff_service (list val * obj)) (params : obj) : eff_service obj :=
  with_status [("ValidationException", BAD_REQUEST)]
    ('(data, meta) ← getBlocks business_getBlocks params;
     ret [("data", Arr data); ("meta", Object meta); ("links", Object [])]).

Definition ctl_estimateTransactionFees (params : obj) : eff_service obj :=
  with_status [("ValidationException", BAD_REQUEST)]
    (passed_on (Object []) (response ← estimateTransactionFees params; lift (to_obj response))).

(** The addresses of a query of transactions that are no addresses *)
Definition unknown_address (params : obj) : eff_service bool :=
  answers ← map_each (filter (fun item => typeof (prop params item) = "string") ["senderAddress"; "recipientAddress"; "address"])
    (fun item => confirmAddress (prop params item));
  ret (bool_decide (Bool false ∈ answers)).

Definition ctl_getTransactions (dataService_getTransactions : obj -> eff_service (list obj * obj)) (params : obj) : eff_service obj :=
  with_status [("ValidationException", BAD_REQUEST); ("InvalidParamsException", Str "INVALID_PARAMS")]
    (unknown ← unknown_address params;
     if unknown : bool then ret [("status", NOT_FOUND); ("data", Object [("error", Str "Not found.")])]
     else
       '(data, meta) ← dataService_getTransactions (spread [("sort", Str "timestamp:desc")] params);
       ret [("data", Arr (Object <$> data));
            ("meta", Object [("count", Num (Z.of_nat (length data))); ("offset", js_or (prop meta "offset") (Num 0));
                             ("total", js_or (prop meta "total") (prop meta "count"))]);
            ("link", Object [])]).

(** ** blockchainApps.js *)

(** On a sidechain the request is passed to the service of the mainchain. *)
Definition ctl_getBlockchainApps (params : obj) : eff_service val :=
  main ← isMainchain;
  if main : bool then o ← getBlockchainApps params; ret (Object o)
  else
    serviceURL ← resolveMainchainServiceURL;
    response ← on_http (request axios (js_String serviceURL +:+ "/api/v3/blockchain/apps") params);
    ret (prop response "data").

(** A call whose promise is not awaited: its outcome is not seen. *)
Definition not_awaited {A} (m : eff_service A) : eff_service unit := fun s => (Ok tt, (m s).2).

(** The request is not awaited: the promise has no property [data]. *)
Definition ctl_getBlockchainAppsStatistics : eff_service val :=
  main ← isMainchain;
  if main : bool then o ← getBlockchainAppsStatistics; ret (Object o)
  else
    serviceURL ← resolveMainchainServiceURL;
    not_awaited (on_http (get_ axios (js_String serviceURL +:+ "/api/v3/blockchain/apps/statistics") [])) ≫= fun _ =>
    ret Undef.

(** On a sidechain nobody gets the statistics of the applications. *)
Lemma statistics_lost_on_sidechain (s s' : service (St := St)) url :
  isMainchain s = (Ok false, s') -> (exists s2, resolveMainchainServiceURL s' = (Ok url, s2)) ->
  exists s3, ctl_getBlockchainAppsStatistics s = (Ok Undef, s3).
Proof.
  intros Hm [s2 Hu]. unfold ctl_getBlockchainAppsStatistics. rewrite (M_bind_ok _ _ _ _ _ Hm). cbn iota.
  rewrite (M_bind_ok _ _ _ _ _ Hu). unfold not_awaited, mbind, eff_bind. by eexists.
Qed.
End Controllers.
