(* ===== verification/Registry.v ===== *)
(** * The application registry

    [blockchain-app-registry]: a copy of the files of the registry repository
    on disk, an index of the applications and tokens they describe, the job
    that keeps both up to date with GitHub, the job that cleans the directory,
    and the queries of clients.

    The state is that of a service ([Service.service]: tables, variables,
    requests made) with a disk and the signals that were dispatched.  GitHub
    and the archives it sends are the class [GitHub]. *)
From S2P Require Import Prelude JsValue Database Json Engine Search Table World Schemas KvStore Chain PoolAddress.
From S2P Require Import Stake Processors BlockIndex Regex Mapper Gateway DataQuery TransactionQuery Validators Files Http Export.
From S2P Require Import Service AccountQuery.
From Stdlib Require Import Ascii.
Local Open Scope Z_scope.
Set Warnings "-register-all".

(** ** config.js and database/schema *)
Definition application_metadata : table :=
  mkTable "application_metadata" (Arr [Str "network"; Str "chainName"]) None
    [("chainName", col "string");
     ("displayName", col "string");
     ("chainID", col "string");
     ("network", col "string");
     ("isDefault", cold "boolean" (Some false) (Bool false));
     ("appDirName", col "string")]
    [("chainID", "key"); ("chainName", "key"); ("network", "key"); ("isDefault", "key")]
    [].

Definition token_metadata : table :=
  mkTable "token_metadata" (Arr [Str "tokenID"]) None
    [("chainName", col "string");
     ("network", col "string");
     ("tokenName", col "string");
     ("tokenID", col "string")]
    [("chainName", "key"); ("tokenName", "key"); ("network", "key")]
    [].

Definition supportedNetworks : list string := ["mainnet"; "testnet"; "devnet"].
Definition APP_JSON : string := "app.json".
Definition NATIVETOKENS_JSON : string := "nativetokens.json".
Definition KNOWN_CONFIG_FILES : list string := [APP_JSON; NATIVETOKENS_JSON].
Definition ALLOWED_FILE_EXTENSIONS : list string := [".png"; ".svg"].
Definition CHAIN_ID_PREFIX_NETWORK_MAP : obj :=
  [("00", Str "mainnet"); ("01", Str "testnet"); ("04", Str "devnet")].

(** ** constants.js *)
Definition COMMIT_HASH_UNTIL_LAST_SYNC : string := "commitHashUntilLastSync".

Definition knownMainchainIDs : list string := padEnd LENGTH_CHAIN_ID <$> (CHAIN_ID_PREFIX_NETWORK_MAP.*1).

(** [buffer.toString('base64')] backwards: other characters are skipped, and
    the text ends at the first [=]. *)
Definition base64_value (c : ascii) : option Z :=
  let n := Z.of_nat (nat_of_ascii c) in
  if (65 <=? n) && (n <=? 90) then Some (n - 65)
  else if (97 <=? n) && (n <=? 122) then Some (n - 71)
  else if (48 <=? n) && (n <=? 57) then Some (n + 4)
  else if (n =? 43) || (n =? 45) then Some 62
  else if (n =? 47) || (n =? 95) then Some 63
  else None.

Fixpoint base64_values (s : list ascii) : list Z :=
  match s with
  | [] => []
  | c :: s => if Ascii.eqb c "=" then []
              else match base64_value c with Some n => n :: base64_values s | None => base64_values s end
  end.

Fixpoint base64_bytes (l : list Z) : list Z :=
  match l with
  | a :: b :: c :: d :: l => (a * 4 + b / 16) :: (b mod 16 * 16 + c / 4) :: (c mod 4 * 64 + d) :: base64_bytes l
  | [a; b; c] => [a * 4 + b / 16; b mod 16 * 16 + c / 4]
  | [a; b] => [a * 4 + b / 16]
  | _ => []
  end.

(** [Buffer.from(s, 'base64').toString('utf-8')]; a text is the bytes of its
    UTF-8 form. *)
Definition from_base64 (s : string) : string :=
  String.string_of_list_ascii ((fun b => ascii_of_nat (Z.to_nat b)) <$> base64_bytes (base64_values (String.list_ascii_of_string s))).

(** [path.dirname] and [path.join] of absolute paths *)
Definition path_dirname (p : string) : string := path_text (removelast (resolve [] p)).
Definition path_join (p q : string) : string := path_text (resolve [] (p +:+ "/" +:+ q)).

(** [l.slice(-n)] *)
Definition last_n {A} (n : nat) (l : list A) : list A := drop (length l - n) l.

(** The texts of an array joined with commas; [undefined] is the empty text. *)
Definition join_commas (l : list val) : string :=
  join "," ((fun v => match v with Undef | Null => "" | _ => js_String v end) <$> l).

(** What GitHub answers after [n] requests of the service, and the host. *)
Class GitHub := {
  (** [octokit.request(route, params)] *)
  octokit : nat -> string -> obj -> result val;
  (** a request of [http] or [https]: status code, message and body *)
  https_request : nat -> string -> obj -> result (Z * string * string);
  (** [tar.extract({ cwd })] of the body of a response *)
  tar_extract : string -> string -> disk string -> disk string;
  (** [__dirname] of the service *)
  service_dir : string;
  (** [String.prototype.localeCompare] *)
  localeCompare : string -> string -> Z;
}.

Section Registry.
Context {St : Type} `{SqlEngine St} `{Rpc} `{Packages} `{GitHub}.

Record registry := mkRegistry {
  rg_service : service (St := St);
  rg_disk : disk string;
  rg_signals : list val;
}.

Abbreviation eff_registry := (eff registry).

Definition on_service {A} (m : eff (service (St := St)) A) : eff_registry A := fun s =>
  let (r, v) := m (rg_service s) in (r, mkRegistry v (rg_disk s) (rg_signals s)).
Definition on_disk {A} (m : eff (disk string) A) : eff_registry A := fun s =>
  let (r, d) := m (rg_disk s) in (r, mkRegistry (rg_service s) d (rg_signals s)).
Definition look {A} (f : disk string -> result A) : eff_registry A := fun s => (f (rg_disk s), s).

(** The time files get; all paths of the service are absolute. *)
Definition calls_made : eff_registry nat := gets (fun s => length (sv_calls (rg_service s))).
Definition in_table {A} (c : conn) (f : St -> result A) : eff_registry A := on_service (on_world (read c f)).

Definition request_made (name : string) (params : obj) : eff_registry unit :=
  on_service (modify (fun s => mkService (sv_world s) (sv_vars s) (sv_cache s) (sv_http s) (sv_calls s ++ [(name, params)]))).

(** ** utils/request.js and chain.js *)
Definition requestIndexer (method : string) (params : obj) : eff_registry val :=
  n ← calls_made;
  request_made ("indexer." +:+ method) params ≫= fun _ => lift (rpc n ("indexer." +:+ method) params).

Definition isMainchain : eff_registry bool :=
  chainID ← on_service (var "chainID");
  (if truthy chainID then ret tt
   else answer ← requestIndexer "network.status" [];
        networkStatus ← lift (get answer "data");
        chainID ← lift (get networkStatus "chainID");
        on_service (assign "chainID" chainID)) ≫= fun _ =>
  chainID ← on_service (var "chainID");
  ret (regex_test MAINCHAIN_ID (js_String chainID)).

(** ** config.js *)
Definition dataDir : string := service_dir +:+ "/data".
Definition appRegistryRepo : string := default "https://github.com/klayrhq/app-registry" (env_text "GITHUB_APP_REGISTRY_REPO").
Definition branch : string := default "main" (env_text "GITHUB_APP_REGISTRY_REPO_BRANCH").
Definition appRegistryRepoName : string := List.last (split_on "/" appRegistryRepo) "".
Definition defaultApps : list string :=
  ["klayr_mainchain"] ++ split_on "," (default "undefined" (process_env "DEFAULT_APPS")).

(** ** metadata.js *)
Definition app_columns : val := Arr (Str <$> ["network"; "chainID"; "chainName"]).

Definition meta_list_params (params : obj) : result obj :=
  let params := if truthy (prop params "search")
    then set_prop (omit params "search") "search"
           (Object [("property", Str "chainName"); ("pattern", prop params "search")])
    else params in
  if truthy (prop params "network") then
    network ← as_text (prop params "network");
    Ok (set_prop (omit params "network") "whereIn"
          (Arr [Object [("property", Str "network"); ("values", Arr (Str <$> split_on "," network))]]))
  else Ok params.

Definition getBlockchainAppsMetaList (params : obj) : eff_registry obj :=
  params ← lift (meta_list_params params);
  let limit := prop params "limit" in
  let offset := prop params "offset" in
  defaultApps ← in_table Auto (find application_metadata (spread params [("isDefault", Bool true)]) app_columns);
  data ← (if js_less (Num (Z.of_nat (length defaultApps))) limit then
            let limit := js_sub limit (Num (Z.of_nat (length defaultApps))) in
            total ← in_table Auto (count application_metadata (spread params [("isDefault", Bool true)]) Undef);
            let offset := js_max (js_sub offset (Num total)) (Num 0) in
            nonDefaultApps ← in_table Auto (find application_metadata
              (spread params [("limit", limit); ("offset", offset); ("isDefault", Bool false)]) app_columns);
            ret (defaultApps ++ nonDefaultApps)
          else ret defaultApps);
  total ← in_table Auto (count application_metadata params Undef);
  ret [("data", Arr (Object <$> data));
       ("meta", Object [("count", Num (Z.of_nat (length data))); ("offset", prop params "offset"); ("total", Num total)])].

Definition readMetadataFromClonedRepo (network appDirName filename : string) : eff_registry val :=
  let filepath := dataDir +:+ "/" +:+ appRegistryRepoName +:+ "/" +:+ network +:+ "/" +:+ appDirName +:+ "/" +:+ filename in
  metadataStr ← on_disk (read_file [] filepath);
  lift (json_parse metadataStr).

(** The networks of the chains asked for. *)
Definition networks_of (chainIDs : list string) : val :=
  Str (join_commas (unique [] ((fun id => prop CHAIN_ID_PREFIX_NETWORK_MAP (first_chars 2 id)) <$> chainIDs))).

Definition where_in (property : string) (values : list string) : val :=
  Object [("property", Str property); ("values", Arr (Str <$> values))].
Definition push_where (params : obj) (entry : val) : obj :=
  set_prop params "whereIn" (Arr (as_array (prop params "whereIn") ++ [entry])).

(** [const { key, ...remParams } = params; remParams.whereIn.push({ property: key, values: key.split(',') })] *)
Definition split_where (key : string) (params : obj) : result obj :=
  if truthy (prop params key) then
    text ← as_text (prop params key);
    Ok (push_where (omit params key) (where_in key (split_on "," text)))
  else Ok params.

Definition metadata_params (params : obj) : result obj :=
  let params := set_prop params "whereIn" (Arr []) in
  params ← (if truthy (prop params "chainID") then
              text ← as_text (prop params "chainID");
              let chainIDs := split_on "," text in
              let params := push_where (omit params "chainID") (where_in "chainID" chainIDs) in
              Ok (if has_prop params "network" then params else set_prop params "network" (networks_of chainIDs))
            else Ok params);
  params ← split_where "network" params;
  Ok (if truthy (prop params "search") then
        set_prop (omit params "search") "orSearch"
          (Arr [Object [("property", Str "chainName"); ("pattern", prop params "search")];
                Object [("property", Str "displayName"); ("pattern", prop params "search")]])
      else params).

(** [blockchainApp && blockchainApp.length > 0 ? blockchainApp[0].data.status : 'unregistered'] *)
Definition registered_status (blockchainApp : val) : result val :=
  match blockchainApp with
  | Arr (app :: _) => data ← get app "data"; get data "status"
  | Str (String _ _) => Throw "Cannot read properties of undefined (reading 'status')"
  | _ => Ok (Str "unregistered")
  end.

Definition present_metadata (appMetadata : obj) : eff_registry val :=
  appMeta ← readMetadataFromClonedRepo (js_String (prop appMetadata "network")) (js_String (prop appMetadata "appDirName")) APP_JSON;
  appMeta ← lift (with_prop appMeta "isDefault" (prop appMetadata "isDefault"));
  mainchain ← isMainchain;
  chainID ← lift (get appMeta "chainID");
  if (mainchain : bool) && bool_decide (chainID ∈ Str <$> knownMainchainIDs)
  then lift (with_prop appMeta "status" (Str "activated"))
  else
    blockchainApp ← requestIndexer "blockchain.apps" [("chainID", chainID)];
    status ← lift (registered_status blockchainApp);
    lift (with_prop appMeta "status" status).

Definition metadata_columns : val := Arr (Str <$> ["network"; "appDirName"; "isDefault"]).

Definition getBlockchainAppsMetadata (params : obj) : eff_registry obj :=
  params ← lift (metadata_params params);
  let limit := js_times (prop params "limit") (Num (Z.of_nat (length supportedNetworks))) in
  let isDefault := prop params "isDefault" in
  data ← (if bool_decide (isDefault = Bool false) then ret []
          else in_table Auto (find application_metadata
                 (spread params [("limit", limit); ("isDefault", Bool true)]) metadata_columns));
  data ← (if negb (bool_decide (isDefault = Bool true)) && js_less (Num (Z.of_nat (length data))) (prop params "limit") then
            offset ← (if has_prop params "isDefault" then ret (Object [("params", Object params)])
                      else totalDefaultApps ← in_table Auto (count application_metadata
                             (spread params [("limit", limit); ("isDefault", Bool true)]) Undef);
                           let rest := js_sub (prop params "offset") (Num totalDefaultApps) in
                           ret (if js_less (Num 0) rest then rest else Num 0));
            nonDefaultApps ← in_table Auto (find application_metadata
              (spread params [("offset", offset); ("limit", limit); ("isDefault", Bool false)]) metadata_columns);
            ret (data ++ nonDefaultApps)
          else ret data);
  apps ← map_each (slice_to (prop params "limit") data) present_metadata;
  total ← in_table Auto (count application_metadata params Undef);
  ret [("data", Arr apps);
       ("meta", Object [("count", Num (Z.of_nat (length apps))); ("offset", prop params "offset"); ("total", Num total)])].

(** The tables keep token identifiers in lower case; the search by name and the
    identifiers of a chain share one parameter. *)
Definition token_params (params : obj) : result obj :=
  let params := set_prop params "whereIn" (Arr []) in
  let params := if truthy (prop params "search")
    then set_prop (omit params "search") "search"
           (Object [("property", Str "chainName"); ("pattern", prop params "search")])
    else params in
  params ← split_where "tokenName" params;
  params ← split_where "tokenID" params;
  let params := if truthy (prop params "chainID")
    then set_prop (omit params "chainID") "search"
           (Object [("property", Str "tokenID"); ("startsWith", prop params "chainID")])
    else params in
  split_where "network" params.

Definition token_columns : val := Arr (Str <$> ["network"; "tokenID"; "chainName"]).

(** [s.substring(0, LENGTH_CHAIN_ID)] *)
Definition chain_of (tokenID : val) : result string := s ← as_text tokenID; Ok (first_chars LENGTH_CHAIN_ID s).

(** [uniqueChainMap]: the last row of every chain, in the order the chains
    appear. *)
Definition unique_chains (tokens : list obj) : result (list (string * val)) :=
  foldM (fun acc tokenMeta => id ← chain_of (prop tokenMeta "tokenID"); Ok (set_prop acc id (Object tokenMeta))) [] tokens.

(** The tokens of a file that were asked for, with their chain. *)
Definition present_tokens (wanted : list val) (chainID : string) (tokenMeta : obj) (tokens : val) : result (list val) :=
  l ← elements tokens;
  found ← mapM_result (fun token =>
    id ← get token "tokenID";
    Ok (if bool_decide (id ∈ wanted)
        then [Object (spread (as_obj token) [("chainID", Str chainID); ("chainName", prop tokenMeta "chainName");
                                             ("network", prop tokenMeta "network")])]
        else [])) l;
  Ok (concat found).

Definition chain_tokens (wanted : list val) (entry : string * val) : eff_registry (list val) :=
  let chainID := entry.1 in
  let tokenMeta := as_obj entry.2 in
  rows ← in_table Auto (find application_metadata
    [("network", prop tokenMeta "network"); ("chainID", Str chainID)] (Arr [Str "appDirName"]));
  match rows with
  | [] => ret []
  | metadata :: _ =>
      parsedTokenMeta ← readMetadataFromClonedRepo (js_String (prop tokenMeta "network"))
        (js_String (prop metadata "appDirName")) NATIVETOKENS_JSON;
      tokens ← lift (get parsedTokenMeta "tokens");
      lift (present_tokens wanted chainID tokenMeta tokens)
  end.

Definition getBlockchainAppsTokenMetadata (params : obj) : eff_registry obj :=
  params ← lift (token_params params);
  let noFactory := prop params "noFactory" in
  let restParams := omit params "noFactory" in
  tokensResultSet ← in_table Auto (find token_metadata restParams token_columns);
  chains ← lift (unique_chains tokensResultSet);
  let resultTokenIDs := unique [] ((fun t => prop t "tokenID") <$> tokensResultSet) in
  data ← map_each chains (chain_tokens resultTokenIDs);
  total ← in_table Auto (count token_metadata restParams Undef);
  factory ← (if negb (truthy noFactory) && negb (bool_decide (resultTokenIDs = [])) then
               answer ← requestIndexer "factory.token.meta" [("tokenIds", Str (join_commas resultTokenIDs))];
               data ← lift (get answer "data"); lift (elements data)
             else ret []);
  let data := concat data ++ factory in
  ret [("data", Arr data);
       ("meta", Object [("count", Num (Z.of_nat (length data))); ("offset", prop restParams "offset"); ("total", Num total)])].

(** The tokens of the entries, a file at a time; [processed] are the chains
    already read. *)
Fixpoint resolve_tokens (wanted : list val) (processed : list string) (entries : list obj) : eff_registry (list val) :=
  match entries with
  | [] => ret []
  | entry :: entries =>
      chainID ← lift (chain_of (prop entry "tokenID"));
      if bool_decide (chainID ∈ processed) then resolve_tokens wanted processed entries
      else
        rows ← in_table Auto (find application_metadata [("chainID", Str chainID); ("limit", Num 1)] (Arr [Str "appDirName"]));
        match rows with
        | [] => throw "Cannot read properties of undefined (reading 'appDirName')"
        | requestedAppInfo :: _ =>
            parsedTokenMeta ← readMetadataFromClonedRepo (js_String (prop entry "network"))
              (js_String (prop requestedAppInfo "appDirName")) NATIVETOKENS_JSON;
            tokens ← lift (get parsedTokenMeta "tokens");
            found ← lift (present_tokens wanted chainID entry tokens);
            rest ← resolve_tokens wanted (chainID :: processed) entries;
            ret (found ++ rest)
        end
  end.

Definition resolveTokenMetaInfo (tokenInfoFromDB : list obj) : eff_registry (list val) :=
  resolve_tokens (unique [] ((fun t => prop t "tokenID") <$> tokenInfoFromDB)) [] tokenInfoFromDB.

(** [response && response.data && response.data.data && response.data.data.supportedTokens] *)
Definition supported_tokens (response : obj) : val :=
  match prop response "data" with
  | Object body => match prop body "data" with Object data => prop data "supportedTokens" | _ => Undef end
  | _ => Undef
  end.

Fixpoint first_supported (serviceURLs : list val) : eff_registry val :=
  match serviceURLs with
  | [] => throw "Failed to retrieve supported tokens from service URLs."
  | serviceURL :: serviceURLs =>
      http ← lift (get serviceURL "http");
      response ← on_service (on_http (request axios (js_String http +:+ "/api/v3/token/summary") []));
      let supportedTokens := supported_tokens response in
      if truthy supportedTokens then ret supportedTokens else first_supported serviceURLs
  end.

Definition getSupportedTokensFromServiceURLs (serviceURLs : val) : eff_registry val :=
  l ← lift (elements serviceURLs); first_supported l.

(** The page of tokens of a search, and their number. *)
Definition token_page (searchParams : obj) : eff_registry (list val * Z) :=
  tokensResultSet ← in_table Auto (find token_metadata searchParams token_columns);
  total ← in_table Auto (count token_metadata searchParams Undef);
  tokensMeta ← resolveTokenMetaInfo tokensResultSet;
  ret (tokensMeta, total).

Definition getAllTokensMetaInNetworkByChainID (chainID limit offset sort : val) : eff_registry (list val * Z) :=
  id ← lift (as_text chainID);
  token_page [("search", Object [("property", Str "tokenID"); ("startsWith", Str (first_chars 2 id))]);
              ("limit", limit); ("offset", offset); ("sort", sort)].

Definition getTokensMetaByTokenIDs (patternTokenIDs exactTokenIDs limit offset sort : val) : eff_registry (list val * Z) :=
  patterns ← lift (elements patternTokenIDs);
  orSearch ← lift (mapM_result (fun e =>
    id ← chain_of e; Ok (Object [("property", Str "tokenID"); ("startsWith", Str id)])) patterns);
  token_page [("whereIn", Arr [Object [("property", Str "tokenID"); ("values", exactTokenIDs)]]);
              ("orSearch", Arr orSearch); ("limit", limit); ("offset", offset); ("sort", sort)].

Definition getBlockchainAppsTokensSupportedMetadata (params : obj) : eff_registry obj :=
  let chainID := prop params "chainID" in
  let limit := prop params "limit" in
  let offset := prop params "offset" in
  let sort := prop params "sort" in
  let empty := [("data", Arr []); ("meta", Object [])] in
  rows ← in_table Auto (find application_metadata [("chainID", chainID); ("limit", Num 1)]
           (Arr (Str <$> ["network"; "chainName"; "appDirName"])));
  match rows with
  | [] => ret empty
  | requestedAppInfo :: _ =>
      meta ← readMetadataFromClonedRepo (js_String (prop requestedAppInfo "network"))
        (js_String (prop requestedAppInfo "appDirName")) APP_JSON;
      serviceURLs ← lift (get meta "serviceURLs");
      try_catch
        (info ← getSupportedTokensFromServiceURLs serviceURLs;
         isSupportAllTokens ← lift (get info "isSupportAllTokens");
         exactTokenIDs ← lift (get info "exactTokenIDs");
         patternTokenIDs ← lift (get info "patternTokenIDs");
         '(tokensMeta, total) ← (if truthy isSupportAllTokens
            then getAllTokensMetaInNetworkByChainID chainID limit offset sort
            else getTokensMetaByTokenIDs patternTokenIDs exactTokenIDs limit offset sort);
         ret [("data", Arr tokensMeta);
              ("meta", Object [("count", Num (Z.of_nat (length tokensMeta))); ("offset", offset); ("total", Num total)])])
        (fun _ => ret empty)
  end.

(** ** metadataIndex.js *)
Definition indexTokensMeta (chainName network : val) (tokens : val) : eff_registry unit :=
  l ← lift (elements tokens);
  rows ← lift (mapM_result (fun token =>
    tokenName ← get token "tokenName"; id ← get token "tokenID"; id ← as_text id;
    Ok (Object [("chainName", chainName); ("network", network); ("tokenName", tokenName);
                ("tokenID", Str (toLowerCase id))])) l);
  on_service (on_world (write Trx (upsert token_metadata (Arr rows)))).

Definition app_row (appMeta : obj) : obj :=
  [("chainID", prop appMeta "chainID"); ("displayName", prop appMeta "displayName");
   ("chainName", prop appMeta "chainName"); ("network", prop appMeta "networkType");
   ("isDefault", Bool (bool_decide (prop appMeta "chainName" ∈ Str <$> defaultApps)));
   ("appDirName", prop appMeta "appDirName")].

Definition indexAppMeta (appMeta : obj) : eff_registry unit :=
  on_service (on_world (write Trx (upsert application_metadata (Object (app_row appMeta))))).

(** [const [network, app, filename] = filePath.split('/').slice(-3)] *)
Definition file_parts (filePath : string) : result (string * string * option string) :=
  match last_n 3 (split_on "/" filePath) with
  | network :: app :: rest =>
      if String.eqb network "" || String.eqb app "" then Throw "Require both 'network' and 'app'."
      else Ok (network, app, head rest)
  | _ => Throw "Require both 'network' and 'app'."
  end.

(** The object of a JSON file; spreading anything else gives no fields. *)
Definition read_object (filePath : string) : eff_registry obj :=
  text ← on_disk (read_file [] filePath);
  v ← lift (json_parse text);
  ret (as_obj v).

Definition indexMetadataFromFile (filePath : string) : eff_registry unit :=
  '(network, app, filename) ← lift (file_parts filePath);
  let oldAppJsonPath := dataDir +:+ "/" +:+ appRegistryRepoName +:+ "/" +:+ network +:+ "/" +:+ app +:+ "/" +:+ APP_JSON in
  let downloadedAppJsonPath := path_dirname filePath +:+ "/" +:+ APP_JSON in
  downloaded ← look (fun d => Ok (exists_ [] (Str downloadedAppJsonPath) d));
  appMeta ← read_object (if downloaded : bool then downloadedAppJsonPath else oldAppJsonPath);
  let appMeta := set_prop appMeta "appDirName" (Str app) in
  (if bool_decide (filename = Some APP_JSON) then indexAppMeta appMeta else ret tt) ≫= fun _ =>
  if bool_decide (filename = Some NATIVETOKENS_JSON) then
    tokenMeta ← read_object filePath;
    indexTokensMeta (prop appMeta "chainName") (Str network) (prop tokenMeta "tokens")
  else ret tt.

Definition deleteAppMeta (appMeta : obj) : eff_registry unit :=
  on_service (on_world (write_count Trx (deleteByParams application_metadata
    [("network", prop appMeta "networkType"); ("chainName", prop appMeta "chainName")]))) ≫= fun _ => ret tt.

Definition deleteTokensMeta (tokenIDs : list val) : eff_registry unit :=
  for_each tokenIDs (fun tokenID =>
    id ← lift (as_text tokenID);
    on_service (on_world (write_count Trx (deleteByParams token_metadata [("tokenID", Str (toLowerCase id))]))) ≫= fun _ =>
    ret tt).

Definition deleteIndexedMetadataFromFile (filePath : string) : eff_registry unit :=
  '(network, app, filename) ← lift (file_parts filePath);
  appMeta ← read_object (path_dirname filePath +:+ "/" +:+ APP_JSON);
  (if bool_decide (filename = Some APP_JSON) then deleteAppMeta appMeta else ret tt) ≫= fun _ =>
  if bool_decide (filename = Some NATIVETOKENS_JSON) then
    text ← on_disk (read_file [] filePath);
    v ← lift (json_parse text);
    tokens ← lift (get v "tokens");
    l ← lift (elements tokens);
    tokenIDs ← lift (mapM_result (fun token => get token "tokenID") l);
    deleteTokensMeta tokenIDs
  else ret tt.

Definition indexAllBlockchainAppsMeta : eff_registry unit :=
  let repoPath := path_join dataDir appRegistryRepoName in
  for_each supportedNetworks (fun network =>
    allAvailableApps ← look (getDirectories [] (path_join repoPath network));
    for_each allAvailableApps (fun app =>
      allFilesFromApp ← look (getFiles [] (path_text app));
      for_each allFilesFromApp (fun file =>
        if bool_decide (List.last file "" ∈ KNOWN_CONFIG_FILES) then indexMetadataFromFile (path_text file) else ret tt))).

(** ** utils/chain.js *)
Definition resolveChainNameByNetworkAppDir (network appDirName : string) : eff_registry val :=
  rows ← in_table Auto (find application_metadata [("network", Str network); ("appDirName", Str appDirName)] (Arr [Str "chainName"]));
  let chainName := prop (default [] (head rows)) "chainName" in
  ret (if bool_decide (chainName = Undef) then Str "" else chainName).

(** ** utils/download.js *)
Definition HTTP_NOT_FOUND : Z := 404.

Definition download_failed (status : Z) (message : string) : string :=
  "Download failed with HTTP status code: " +:+ string_of_Z status +:+ " (" +:+ message +:+ ").".

(** Nobody listens to the error of a request that cannot be sent: the promise
    is never settled. *)
Definition downloadAndExtractTarball (url directoryPath : string) : eff_registry unit :=
  if String.eqb url "" || String.eqb directoryPath ""
  then throw ("Invalid url or directoryPath. url: " +:+ url +:+ " directoryPath:" +:+ directoryPath)
  else
    n ← calls_made;
    request_made url [] ≫= fun _ =>
    match https_request n url [] with
    | Throw _ => throw never_returns
    | Ok (status, message, body) =>
        if status =? 200 then on_disk (modify (tar_extract body directoryPath))
        else throw (if status =? HTTP_NOT_FOUND then exception "NotFoundException" (download_failed status message)
                    else download_failed status message)
    end.

Definition downloadFile (url : string) (headers : obj) (filePath : string) : eff_registry unit :=
  if String.eqb url "" || String.eqb filePath ""
  then throw ("Invalid url or filePath. url: " +:+ url +:+ " filePath:" +:+ filePath)
  else
    n ← calls_made;
    now ← gets (fun s => clock (length (sv_calls (rg_service s))));
    request_made url headers ≫= fun _ =>
    '(status, message, body) ← lift (https_request n url [("method", Str "GET"); ("headers", Object headers)]);
    if status =? 200 then
      uncaught (data ← lift (json_parse body);
                content ← lift (get data "content");
                content ← lift (as_text content);
                on_disk (write_file [] now filePath (from_base64 content)))
    else throw (download_failed status message).

(** ** utils/downloadRepository.js *)
Definition getRepoInfoFromURL (url : string) : val * val :=
  let parts := split_on "/" url in
  (default Undef (Str <$> parts !! 3%nat), default Undef (Str <$> parts !! 4%nat)).

Definition owner : string := js_String (getRepoInfoFromURL appRegistryRepo).1.
Definition repo : string := js_String (getRepoInfoFromURL appRegistryRepo).2.

Definition octokit_request (route : string) : eff_registry val :=
  let params := [("owner", Str owner); ("repo", Str repo); ("ref", Str branch)] in
  n ← calls_made;
  request_made route params ≫= fun _ => lift (octokit n route params).

Definition getLatestCommitHash : eff_registry val :=
  result_ ← octokit_request ("GET /repos/" +:+ owner +:+ "/" +:+ repo +:+ "/commits/" +:+ branch);
  data ← lift (get result_ "data");
  lift (get data "sha").

Definition last_synced : eff_registry val := in_table Trx (kv_get "default" COMMIT_HASH_UNTIL_LAST_SYNC).

Definition getCommitInfo : eff_registry (val * val) :=
  lastSyncedCommitHash ← last_synced;
  latestCommitHash ← getLatestCommitHash;
  ret (lastSyncedCommitHash, latestCommitHash).

Definition getRepoDownloadURL : eff_registry val :=
  octokit_request ("GET /repos/" +:+ owner +:+ "/" +:+ repo +:+ "/tarball/" +:+ branch).

Definition getFileDownloadURLAndHeaders (file : string) : result (string * obj) :=
  if String.eqb file "" then Throw "getFileDownloadURLAndHeaders requires a filename as a parameter."
  else
    let url := "https://api.github.com/repos/" +:+ owner +:+ "/" +:+ repo +:+ "/contents/" +:+ file +:+ "?ref=" +:+ branch in
    let headers := [("User-Agent", Str "GitHub-File-Downloader")] in
    Ok (url, match env_text "GITHUB_ACCESS_TOKEN" with
             | Some token => set_prop headers "Authorization" (Str ("token " +:+ token))
             | None => headers
             end).

Definition getDiff (lastSyncedCommitHash latestCommitHash : val) : eff_registry val :=
  octokit_request ("GET /repos/" +:+ owner +:+ "/" +:+ repo +:+ "/compare/"
    +:+ js_String lastSyncedCommitHash +:+ "..." +:+ js_String latestCommitHash).

Definition isMetadataFile (filePath : string) : bool :=
  negb (String.eqb filePath "") && (ends_with filePath APP_JSON || ends_with filePath NATIVETOKENS_JSON).

Definition filterMetaConfigFilesByNetwork (network : string) (filesChanged : list string) : list string :=
  filter (fun file => String.prefix network file && (ends_with file APP_JSON || ends_with file NATIVETOKENS_JSON) = true) filesChanged.

(** The directories of the files, each once. *)
Definition getUniqueNetworkAppDirPairs (files : list string) : list (string * string) :=
  (fun kv => kv.2) <$> foldl (fun (acc : list (string * (string * string))) file =>
    let parts := split_on "/" file in
    let network := default "undefined" (parts !! 0%nat) in
    let appDirName := default "undefined" (parts !! 1%nat) in
    let key := network +:+ "/" +:+ appDirName in
    if existsb (fun kv => String.eqb kv.1 key) acc then acc else acc ++ [(key, (network, appDirName))]) [] files.

Definition buildEventPayload (allFilesModified : list string) : eff_registry val :=
  entries ← map_each supportedNetworks (fun networkType =>
    appsUpdated ← map_each (getUniqueNetworkAppDirPairs (filterMetaConfigFilesByNetwork networkType allFilesModified))
      (fun pair => resolveChainNameByNetworkAppDir pair.1 pair.2);
    ret (networkType, Arr appsUpdated));
  ret (Object entries).

(** [groupedFiles]: the files of the networks, of each application. *)
Abbreviation grouped := (list (string * list (string * list obj))).

Fixpoint push_at {A} (f : list A -> list A) (key : string) (l : list (string * list A)) : list (string * list A) :=
  match l with
  | [] => [(key, f [])]
  | (k, v) :: l => if String.eqb k key then (k, f v) :: l else (k, v) :: push_at f key l
  end.

Definition group_file (groupedFiles : grouped) (fileInfo : obj) : result grouped :=
  filename ← as_text (prop fileInfo "filename");
  Ok (match last_n 3 (split_on "/" filename) with
      | [network; appName; fileName] =>
          if bool_decide (network ∈ supportedNetworks) && isMetadataFile fileName
          then push_at (push_at (fun files => files ++ [fileInfo]) appName) network groupedFiles
          else groupedFiles
      | _ => groupedFiles
      end).

Definition groupFilesByNetworkAndApp (fileInfos : list obj) : result grouped :=
  sorted ← js_sort (fun first second => locale_val localeCompare (prop first "filename") (prop second "filename")) fileInfos;
  foldM group_file [] sorted.

Definition getModifiedFileNames (groupedFiles : grouped) : list string :=
  network ← groupedFiles; app ← network.2; (fun file => js_String (prop file "filename")) <$> app.2.

Definition now_ : eff_registry Z := gets (fun s => clock (length (sv_calls (rg_service s)))).
Definition make_dir (dir : string) : eff_registry unit := now ← now_; on_disk (mkdir [] now dir).

(** What the loop over the files collects: the files to delete and those to
    move into place once the transaction is committed. *)
Record plan := mkPlan { to_delete : list string; to_move : list (string * string) }.

Definition process_file (appDirPath tempDownloadDir : string) (p : plan) (modifiedFile : obj) : eff_registry plan :=
  remoteFilePath ← lift (as_text (prop modifiedFile "filename"));
  let localFilePath := path_join appDirPath remoteFilePath in
  let status := prop modifiedFile "status" in
  (if bool_decide (status ∈ [Str "removed"; Str "modified"; Str "changed"])
   then deleteIndexedMetadataFromFile localFilePath else ret tt) ≫= fun _ =>
  if bool_decide (status = Str "removed") then ret (mkPlan (to_delete p ++ [localFilePath]) (to_move p))
  else
    let tempFilePath := path_join tempDownloadDir remoteFilePath in
    make_dir (path_dirname tempFilePath) ≫= fun _ =>
    '(url, headers) ← lift (getFileDownloadURLAndHeaders remoteFilePath);
    downloadFile url headers tempFilePath ≫= fun _ =>
    indexMetadataFromFile tempFilePath ≫= fun _ =>
    ret (mkPlan (to_delete p) (to_move p ++ [(tempFilePath, localFilePath)])).

Fixpoint process_files (appDirPath tempDownloadDir : string) (p : plan) (files : list obj) : eff_registry plan :=
  match files with
  | [] => ret p
  | file :: files => p ← process_file appDirPath tempDownloadDir p file; process_files appDirPath tempDownloadDir p files
  end.

(** The files change on disk after the transaction is committed. *)
Definition carry_out (tempDownloadDir : string) (p : plan) : eff_registry unit :=
  for_each (to_delete p) (fun filePath => on_disk (rm_file [] filePath) ≫= fun _ => ret tt) ≫= fun _ =>
  for_each (to_move p) (fun ft => make_dir (path_dirname ft.2) ≫= fun _ => on_disk (mv [] ft.1 ft.2)) ≫= fun _ =>
  on_disk (rmdir [] tempDownloadDir) ≫= fun _ => ret tt.

Definition own_trx (isCustomDBTrx : bool) (m : M St unit) : eff_registry unit :=
  if isCustomDBTrx then on_service (on_world m) else ret tt.

Definition set_synced (latestCommitHash : val) : eff_registry unit :=
  on_service (on_world (write Trx (kv_set "default" COMMIT_HASH_UNTIL_LAST_SYNC latestCommitHash))).

Definition sync_body (isCustomDBTrx : bool) : eff_registry unit :=
  let appDirPath := path_join dataDir repo in
  '(lastSyncedCommitHash, latestCommitHash) ← getCommitInfo;
  if bool_decide (lastSyncedCommitHash = latestCommitHash) then own_trx isCustomDBTrx rollbackDBTransaction
  else
    let tempDownloadDir := path_join appDirPath "temp-downloads" in
    exists_temp ← look (fun d => Ok (exists_ [] (Str tempDownloadDir) d));
    (if exists_temp : bool then on_disk (rmdir [] tempDownloadDir) ≫= fun _ => ret tt else ret tt) ≫= fun _ =>
    make_dir tempDownloadDir ≫= fun _ =>
    diffInfo ← getDiff lastSyncedCommitHash latestCommitHash;
    data ← lift (get diffInfo "data");
    files ← lift (get data "files"); files ← lift (elements files);
    groupedFiles ← lift (groupFilesByNetworkAndApp (as_obj <$> files));
    p ← process_files appDirPath tempDownloadDir (mkPlan [] []) (network ← groupedFiles; app ← network.2; app.2);
    set_synced latestCommitHash ≫= fun _ =>
    own_trx isCustomDBTrx commitDBTransaction ≫= fun _ =>
    carry_out tempDownloadDir p ≫= fun _ =>
    if bool_decide (groupedFiles = []) then ret tt
    else
      eventPayload ← buildEventPayload (getModifiedFileNames groupedFiles);
      modify (fun s => mkRegistry (rg_service s) (rg_disk s) (rg_signals s ++ [eventPayload])).

(** [isCustomDBTrx]: the function opens its own transaction. *)
Definition syncWithRemoteRepo (isCustomDBTrx : bool) : eff_registry unit :=
  own_trx isCustomDBTrx startDBTransaction ≫= fun _ =>
  try_catch (sync_body isCustomDBTrx)
    (fun e => own_trx isCustomDBTrx rollbackDBTransaction ≫= fun _ => throw e).

Definition downloadRepositoryToFS : eff_registry unit :=
  let appDirPath := path_join dataDir repo in
  lastSyncedCommitHash ← last_synced;
  present ← look (fun d => Ok (exists_ [] (Str appDirPath) d));
  if truthy lastSyncedCommitHash && (present : bool) then syncWithRemoteRepo false
  else
    directory ← look (fun d => Ok (exists_ [] (Str dataDir) d));
    (if negb directory then make_dir dataDir
     else if present : bool then on_disk (rmdir [] appDirPath) ≫= fun _ => ret tt else ret tt) ≫= fun _ =>
    result_ ← getRepoDownloadURL;
    url ← lift (get result_ "url");
    downloadAndExtractTarball (if truthy url then js_String url else "") dataDir ≫= fun _ =>
    dirs ← look (getDirectories [] dataDir);
    (match dirs with
     | [] => throw "The oldPath argument must be of type string"
     | oldDir :: _ => on_disk (mv [] (path_text oldDir) appDirPath)
     end) ≫= fun _ =>
    latestCommitHash ← getLatestCommitHash;
    set_synced latestCommitHash.

(** ** init.js, jobs/metadata.js and status.js *)
Definition init : eff_registry unit :=
  on_service (on_world startDBTransaction) ≫= fun _ =>
  try_catch
    (downloadRepositoryToFS ≫= fun _ =>
     indexAllBlockchainAppsMeta ≫= fun _ =>
     on_service (on_world commitDBTransaction))
    (fun _ => on_service (on_world rollbackDBTransaction)).

Definition update_application_metadata : eff_registry unit :=
  try_catch (syncWithRemoteRepo true) (fun _ => ret tt).

(** [status.isReady], kept once it is true *)
Definition getStatus : eff_registry bool :=
  isReady ← on_service (var "isReady");
  if truthy isReady then ret true
  else
    appMetaList ← getBlockchainAppsMetaList [("limit", Num 10); ("offset", Num 0)];
    l ← lift (elements (prop appMetaList "data"));
    let ready := negb (Nat.eqb (length l) 0) in
    on_service (assign "isReady" (Bool ready)) ≫= fun _ => ret ready.

(** ** jobs/deleteNonMetadata.js *)
Definition removeDirectoryIfEmpty (dirPath : string) : eff (disk string) unit :=
  files ← (fun d => (getFilesAndDirs [] dirPath d, d));
  if Nat.eqb (length files) 0 then rmdir [] dirPath ≫= fun _ => ret tt else ret tt.

Definition kept_file (filePath : string) : bool :=
  existsb (fun ending => ends_with filePath ending) ALLOWED_FILE_EXTENSIONS || isMetadataFile filePath.

(** Directories are nested no deeper than there are entries on the disk. *)
Fixpoint clean (fuel : nat) (dirPath : string) : eff (disk string) unit :=
  match fuel with
  | O => throw never_returns
  | S fuel =>
      contents ← (fun d => (getFilesAndDirs [] dirPath d, d));
      for_each contents (fun p =>
        let filePath := path_text p in
        isDirectory ← (fun d => (match at_path [] filePath d with
                                 | Some n => Ok (is_dir n)
                                 | None => Throw "ENOENT: no such file or directory"
                                 end, d));
        if isDirectory : bool then clean fuel filePath ≫= fun _ => removeDirectoryIfEmpty filePath
        else if kept_file filePath then ret tt
        else rm_file [] filePath ≫= fun _ => ret tt)
  end.

Definition removeEmptyDirectoriesAndNonMetaFiles (dirPath : string) : eff (disk string) unit := fun d =>
  clean (S (size d)) dirPath d.

Definition delete_non_metadata_files : eff_registry unit :=
  try_catch (on_disk (removeEmptyDirectoriesAndNonMetaFiles dataDir)) (fun _ => ret tt).

(** ** methods/controllers/metadata.js *)
Definition registry_answer (response : obj) : obj :=
  [("data", js_or (prop response "data") (Arr [])); ("meta", js_or (prop response "meta") (Object []))].

Definition ctl_getBlockchainAppsMetaList (params : obj) : eff_registry obj :=
  response ← getBlockchainAppsMetaList params; ret (registry_answer response).
Definition ctl_getBlockchainAppsMetadata (params : obj) : eff_registry obj :=
  response ← getBlockchainAppsMetadata params; ret (registry_answer response).
Definition ctl_getBlockchainAppsTokenMetadata (params : obj) : eff_registry obj :=
  try_catch (response ← getBlockchainAppsTokenMetadata params; ret (registry_answer response))
    (fun err => if instance_of "InvalidParamsException" err
                then ret [("status", BAD_REQUEST); ("data", Object [("error", Str (err_message err))])]
                else throw err).
Definition ctl_getBlockchainAppsTokensSupportedMetadata (params : obj) : eff_registry obj :=
  response ← getBlockchainAppsTokensSupportedMetadata params; ret (registry_answer response).

End Registry.
