(* ===== verification/RegistrySpec.v ===== *)
(** * What the application registry guarantees

    The index changes only together with the commit it is said to be at
    ([sync_atomic]), a page of applications is a page of the defaults followed
    by the others ([meta_list_page]); the cleaning job is in [RegistryClean]. *)
From stdpp Require Import sorting.
From S2P Require Import Prelude JsValue Database Json Engine Search Table World Schemas KvStore Chain PoolAddress.
From S2P Require Import Stake Processors BlockIndex Regex Mapper Gateway DataQuery TransactionQuery Validators Files Http Export.
From S2P Require Import Service AccountQuery Registry.
From Stdlib Require Import Ascii Btauto.
Local Open Scope Z_scope.
Set Warnings "-register-all".

Section Sync.
Context {St : Type} `{SqlLaws St} `{Rpc} `{Packages} `{GitHub}.
Abbreviation registry_ := (registry (St := St)).

Definition world_of (s : registry_) : world St := sv_world (rg_service s).
Definition committed (s : registry_) : St := w_auto (world_of s).

(** Nothing is committed, and the open transaction leaves the key value store
    alone. *)
Definition uncommitted (s s' : registry_) : Prop :=
  committed s' = committed s /\
  rows_of (w_trx (world_of s')) keyValueStoreSchema = rows_of (w_trx (world_of s)) keyValueStoreSchema /\
  w_base (world_of s') = w_base (world_of s).

#[local] Instance uncommitted_preorder : PreOrder uncommitted.
Proof. split; [intros s; by split_and!|]. intros s1 s2 s3 (? & ? & ?) (? & ? & ?). split_and!; congruence. Qed.

Abbreviation quiet := (steps uncommitted).

Lemma quiet_disk {A} (m : eff (disk string) A) : quiet (on_disk m).
Proof. intros s. unfold on_disk. destruct (m (rg_disk s)). by split_and!. Qed.

Lemma quiet_table {A} c (f : St -> result A) : quiet (in_table c f).
Proof. by intros s. Qed.

Lemma quiet_upsert (t : table) v : tableName t <> tableName keyValueStoreSchema ->
  quiet (on_service (on_world (write Trx (upsert t v)))).
Proof.
  intros Ht s. unfold on_service, on_world, write. cbn [db].
  destruct (upsert t v _) as [w|e] eqn:E; [|by split_and!]. split_and!; [done| |done]. by eapply upsert_frame.
Qed.

Lemma quiet_delete (t : table) p : tableName t <> tableName keyValueStoreSchema ->
  quiet (on_service (on_world (write_count Trx (deleteByParams t p)))).
Proof.
  intros Ht s. unfold on_service, on_world, write_count. cbn [db].
  destruct (deleteByParams t p _) as [[w n]|e] eqn:E; [|by split_and!]. split_and!; [done| |done]. by eapply deleteByParams_frame.
Qed.

Lemma quiet_request name params : quiet (request_made name params).
Proof. by intros s. Qed.

Ltac quiet_step :=
  first
    [ apply steps_bind; [apply _| |intros ?]
    | apply steps_pure; apply _
    | apply quiet_disk | apply quiet_table | apply quiet_request
    | apply quiet_upsert; done | apply quiet_delete; done
    | apply steps_for_each; [apply _|intros ?] | apply steps_map_each; [apply _|intros ?]
    | apply steps_if | case_match | done ].
Ltac solve_quiet := repeat quiet_step.

Lemma quiet_index filePath : quiet (indexMetadataFromFile filePath).
Proof. unfold indexMetadataFromFile, read_object, indexAppMeta, indexTokensMeta. solve_quiet. Qed.

Lemma quiet_delete_file filePath : quiet (deleteIndexedMetadataFromFile filePath).
Proof. unfold deleteIndexedMetadataFromFile, read_object, deleteAppMeta, deleteTokensMeta. solve_quiet. Qed.

Lemma quiet_uncaught {A} (m : eff registry_ A) : quiet m -> quiet (uncaught m).
Proof. intros Hm s. unfold uncaught. specialize (Hm s). by destruct (m s) as [[]]. Qed.

Lemma quiet_download url headers filePath : quiet (downloadFile url headers filePath).
Proof. unfold downloadFile, calls_made. repeat first [apply quiet_uncaught|quiet_step]. Qed.

Lemma quiet_process dir temp p files : quiet (process_files dir temp p files).
Proof.
  revert p. induction files as [|f files IH]; intros p; cbn [process_files]; [solve_quiet|].
  apply steps_bind; [apply _| |intros; apply IH]. unfold process_file, make_dir, now_.
  repeat first [apply quiet_delete_file|apply quiet_download|apply quiet_index|quiet_step].
Qed.
Lemma quiet_carry temp p : quiet (carry_out temp p).
Proof. unfold carry_out, make_dir, now_. solve_quiet. Qed.

Lemma quiet_payload files : quiet (buildEventPayload files).
Proof. unfold buildEventPayload, resolveChainNameByNetworkAppDir. solve_quiet. Qed.

Lemma quiet_octokit route : quiet (octokit_request route).
Proof. unfold octokit_request, calls_made. solve_quiet. Qed.

Lemma quiet_signal f : quiet (modify (fun s : registry_ => mkRegistry (rg_service s) (rg_disk s) (f s))).
Proof. by intros s. Qed.

(** The commit GitHub reports next. *)
Definition latest_commit (s : registry_) : result val := fst (getLatestCommitHash s).

(** It depends on the requests made so far only. *)
Lemma latest_commit_calls s s' :
  sv_calls (rg_service s) = sv_calls (rg_service s') -> latest_commit s = latest_commit s'.
Proof.
  intros E. unfold latest_commit, getLatestCommitHash, octokit_request, calls_made, request_made, on_service, modify, gets, lift.
  unfold mbind, eff_bind. cbn. rewrite E. destruct (octokit _ _ _) as [v|e]; [|done]. destruct (get v "data") as [d|e]; done.
Qed.

Lemma quiet_latest : quiet getLatestCommitHash.
Proof. unfold getLatestCommitHash. repeat first [apply quiet_octokit|quiet_step]. Qed.

(** A quiet step of a computation fails, or the rest runs. *)
Lemma bind_cases {A B} (m : eff registry_ A) (f : A -> eff registry_ B) s r s' :
  quiet m -> (m ≫= f) s = (r, s') ->
  (uncommitted s s' /\ exists e, r = Throw e) \/ exists a s1, uncommitted s s1 /\ f a s1 = (r, s').
Proof.
  intros Hm. specialize (Hm s). unfold mbind, eff_bind. destruct (m s) as [[a|e] s1]; intros E.
  - right. by exists a, s1.
  - left. injection E as <- <-. eauto.
Qed.

(** Where the stored hash stands after a run from [m]. *)
Definition at_commit (m : gmap string val) (s s' : registry_) : Prop :=
  exists commit, latest_commit s = Ok commit /\ default Undef (m !! COMMIT_HASH_UNTIL_LAST_SYNC) <> commit /\
    kv_ok "default" (committed s') (<[COMMIT_HASH_UNTIL_LAST_SYNC := commit]> m).

(** What follows the comparison of the hashes: the processed files are
    committed with the new hash, or nothing is. *)
Abbreviation sync_files old commit := (
  let appDirPath := path_join dataDir repo in
  let tempDownloadDir := path_join appDirPath "temp-downloads" in
  exists_temp ← look (fun d => Ok (exists_ [] (Str tempDownloadDir) d));
  (if exists_temp : bool then on_disk (rmdir [] tempDownloadDir) ≫= fun _ => ret tt else ret tt) ≫= fun _ =>
  make_dir tempDownloadDir ≫= fun _ =>
  diffInfo ← getDiff old commit;
  data ← lift (get diffInfo "data");
  files ← lift (get data "files"); files ← lift (elements files);
  groupedFiles ← lift (groupFilesByNetworkAndApp (as_obj <$> files));
  p ← process_files appDirPath tempDownloadDir (mkPlan [] []) (network ← groupedFiles; app ← network.2; app.2);
  set_synced commit ≫= fun _ =>
  own_trx true commitDBTransaction ≫= fun _ =>
  carry_out tempDownloadDir p ≫= fun _ =>
  if bool_decide (groupedFiles = []) then ret tt
  else
    eventPayload ← buildEventPayload (getModifiedFileNames groupedFiles);
    modify (fun s => mkRegistry (rg_service s) (rg_disk s) (rg_signals s ++ [eventPayload]))).

(** One quiet step of [E], the steps before it in [U]. *)
Ltac quiet_next E U :=
  apply bind_cases in E;
    [ let U' := fresh in let e := fresh in let a := fresh in let s1 := fresh in
      destruct E as [[U' [e ->]]|(a & s1 & U' & E)];
      [left; split; [by etransitivity|by eexists]|];
      pose proof (transitivity U U') as U''; clear U U'; rename U'' into U
    | unfold make_dir, now_, getDiff; repeat first [apply quiet_octokit|apply quiet_process|quiet_step] ].

Lemma sync_files_cases old commit s r s' :
  sync_files old commit s = (r, s') ->
  (uncommitted s s' /\ exists e, r = Throw e) \/
  exists s1 s2 s3, uncommitted s s1 /\ set_synced commit s1 = (Ok tt, s2) /\
    own_trx true commitDBTransaction s2 = (Ok tt, s3) /\ uncommitted s3 s'.
Proof.
  cbv zeta. intros E. assert (uncommitted s s) as U by reflexivity.
  do 9 quiet_next E U. rename H23 into s1.
  destruct (set_synced commit s1) as [[[]|e] s2] eqn:Es.
  - right. rewrite (M_bind_ok _ _ _ _ _ Es) in E.
    destruct (own_trx true commitDBTransaction s2) as [[[]|e] s3] eqn:Ec; [|discriminate].
    rewrite (M_bind_ok _ _ _ _ _ Ec) in E. exists s1, s2, s3. split_and!; [done..|].
    match type of E with ?m s3 = _ => assert (quiet m) as Hq end.
    { repeat first [apply quiet_carry|apply quiet_payload|apply quiet_signal|quiet_step]. }
    specialize (Hq s3). by rewrite E in Hq.
  - left. rewrite (M_bind_throw _ _ _ _ _ Es) in E. injection E as <- <-.
    assert (s2 = s1) as ->; [|by eauto]. unfold set_synced, on_service, on_world, write in Es.
    destruct (kv_set _ _ _ _); [discriminate|]. injection Es as _ <-. by destruct s1 as [[]].
Qed.

Lemma sync_body_cases s m r s' :
  kv_ok "default" (committed s) m -> w_trx (world_of s) = committed s -> w_base (world_of s) = committed s ->
  (forall c, latest_commit s = Ok c -> storable c = true) ->
  sync_body true s = (r, s') ->
  (committed s' = committed s /\ (r = Ok tt -> latest_commit s = Ok (default Undef (m !! COMMIT_HASH_UNTIL_LAST_SYNC))))
  \/ at_commit m s s'.
Proof.
  intros Hm Ht Hb Hc. unfold sync_body, getCommitInfo. cbv zeta.
  set (old := default Undef _). intros E.
  assert (last_synced s = (Ok old, s)) as Hl.
  { unfold last_synced, in_table, on_service, on_world, read. cbn [db]. fold (world_of s). rewrite Ht.
    rewrite (kv_get_ok _ _ _ m) by done. by destruct s as [[]]. }
  pose proof (quiet_latest s) as U. unfold latest_commit in *.
  destruct (getLatestCommitHash s) as [[c|e] s1] eqn:Eg; cbn [fst snd] in *; cycle 1.
  { rewrite (M_bind_throw _ _ _ e s1) in E by (rewrite (M_bind_ok _ _ _ _ _ Hl); by apply M_bind_throw).
    injection E as <- <-. left. by split; [apply U|]. }
  rewrite (M_bind_ok _ _ _ (old, c) s1) in E
    by (rewrite (M_bind_ok _ _ _ _ _ Hl); by rewrite (M_bind_ok _ _ _ _ _ Eg)).
  case_bool_decide as Hold.
  { unfold own_trx, on_service, on_world, rollbackDBTransaction in E. injection E as <- <-. left.
    split; [apply U|]. by rewrite Hold. }
  apply sync_files_cases in E as [[U2 [e ->]]|(s2 & s3 & s4 & U2 & Es & Ec & U3)].
  - left. split; [|done]. etransitivity; [apply U2|apply U].
  - right. exists c. split; [unfold latest_commit; by rewrite Eg|]. split; [done|].
    assert (kv_ok "default" (w_trx (world_of s2)) m) as Hm2.
    { unfold kv_ok. rewrite (proj1 (proj2 U2)), (proj1 (proj2 U)), Ht. exact Hm. }
    destruct (kv_set_ok "default" COMMIT_HASH_UNTIL_LAST_SYNC c _ m Hm2) as (t & Et & Hok & _).
    rewrite readback_storable in Hok by by apply Hc.
    unfold set_synced, on_service, on_world in Es. fold (world_of s2) in Es.
    rewrite (write_ok Trx _ _ t) in Es by done. injection Es as <-.
    unfold own_trx, on_service, on_world, commitDBTransaction in Ec. injection Ec as <-.
    rewrite (proj1 U3). unfold kv_ok, rows_of in Hok |- *.
    change (committed _) with (eng_commit (w_base (world_of s2)) t (w_auto (world_of s2))).
    destruct U as (Ua & _ & Ub), U2 as (Ua2 & _ & Ub2). unfold committed in *.
    rewrite commit_table; [exact Hok|]. by rewrite Ub2, Ub, Hb, Ua2, Ua.
Qed.

(** [C18] The committed index changes only together with the commit it is said to be
    at.  Whatever goes wrong on the way, after a run of the job the committed
    database is the one before, or its stored hash is the commit GitHub
    reported, which was a new one; and a run without an error leaves the stored
    hash at the reported commit. *)
Theorem sync_atomic s m r s' :
  kv_ok "default" (committed s) m ->
  (forall c, latest_commit s = Ok c -> storable c = true) ->
  syncWithRemoteRepo true s = (r, s') ->
  (committed s' = committed s \/ at_commit m s s') /\
  (r = Ok tt -> exists commit, latest_commit s = Ok commit /\
     kv_get "default" COMMIT_HASH_UNTIL_LAST_SYNC (committed s') = Ok commit).
Proof.
  intros Hm Hc. unfold syncWithRemoteRepo. set (s0 := snd (own_trx true startDBTransaction s)).
  rewrite (M_bind_ok _ _ _ tt s0) by done. unfold try_catch.
  destruct (sync_body true s0) as [r1 s1] eqn:E. intros Er.
  assert (committed s' = committed s1 /\ (r = Ok tt -> r1 = Ok tt)) as [Hs1 Hr1].
  { destruct r1 as [[]|e]; [by injection Er as <- <-|]. destruct (String.eqb e never_returns); [by injection Er as <- <-|].
    cbn in Er. by injection Er as <- <-. }
  rewrite <- (latest_commit_calls s0 s eq_refl) in Hc |- *. unfold at_commit. rewrite <- (latest_commit_calls s0 s eq_refl).
  destruct (sync_body_cases s0 m r1 s1 Hm eq_refl eq_refl Hc E) as [[Hu Hok]|(c & Hl & Hne & Hk)].
  - split; [left; by rewrite Hs1, Hu|]. intros ->. exists (default Undef (m !! COMMIT_HASH_UNTIL_LAST_SYNC)).
    split; [exact (Hok (Hr1 eq_refl))|]. rewrite Hs1, Hu. by apply kv_get_ok.
  - split; [right; exists c; by rewrite Hs1|]. intros _. exists c. split; [done|].
    rewrite Hs1, (kv_get_ok _ _ _ _ Hk). by rewrite lookup_insert_eq.
Qed.
End Sync.

(** ** Pages of applications *)
Section Pages.
Context {St : Type} `{SqlLaws St} `{Rpc} `{Packages} `{GitHub}.

(** What the gateway lets a client ask for; a text that is given is not empty. *)
Record list_filter := mkFilter { f_chainName : option string; f_search : option string; f_network : option string; f_desc : bool }.

Definition given (key : string) (v : option string) : obj := match v with Some s => [(key, Str s)] | None => [] end.
Definition sort_text (desc : bool) : string := if desc then "chainName:desc" else "chainName:asc".

Definition list_request (f : list_filter) (limit offset : Z) : obj :=
  given "chainName" (f_chainName f) ++ given "network" (f_network f) ++ given "search" (f_search f) ++
  [("limit", Num limit); ("offset", Num offset); ("sort", Str (sort_text (f_desc f)))].

(** The applications a filter selects, among the defaults or the others. *)
Definition listed (f : list_filter) (isDefault : bool) : list clause :=
  KWhere (Object (given "chainName" (f_chainName f) ++ [("isDefault", Bool isDefault)]))
  :: match f_network f with Some t => [KWhereIn (Str "network") (Arr (Str <$> split_on "," t))] | None => [] end
  ++ match f_search f with Some t => [KWhereOp "chainName" "like" (Str ("%" +:+ escapeUserInput t +:+ "%"))] | None => [] end.

Definition not_empty (v : option string) : Prop := v <> Some "".
Definition filter_ok (f : list_filter) : Prop := not_empty (f_chainName f) /\ not_empty (f_search f) /\ not_empty (f_network f).

Definition by_name (f : list_filter) : list clause := [KOrderBy "chainName" (Str (if f_desc f then "desc" else "asc"))].
Definition shown (r : row) : val :=
  Object (project [KSelect app_columns; KSelect (Str "chainName")] r).

(** The parameters of one of the two queries. *)
Definition apps_params (f : list_filter) (limit offset : Z) (isDefault : bool) : obj :=
  given "chainName" (f_chainName f) ++
  [("limit", Num limit); ("offset", Num offset); ("sort", Str (sort_text (f_desc f)))] ++
  match f_search f with
  | Some t => [("search", Object [("property", Str "chainName"); ("pattern", Str t)])]
  | None => []
  end ++
  match f_network f with
  | Some t => [("whereIn", Arr [Object [("property", Str "network"); ("values", Arr (Str <$> split_on "," t))]])]
  | None => []
  end ++ [("isDefault", Bool isDefault)].

(** The query they become. *)
Definition apps_query (f : list_filter) (limit offset : Z) (isDefault : bool) : list clause :=
  [KSelect app_columns; KWhereNotNull "chainName"; KSelect (Str "chainName");
   KOrderBy "chainName" (Str (if f_desc f then "desc" else "asc")); KLimit (Num limit)]
  ++ (if offset =? 0 then [] else [KOffset (Num offset)]) ++ listed f isDefault.

Lemma apps_query_built f limit offset isDefault : filter_ok f -> 0 < limit -> 0 <= offset ->
  queryBuilder (apps_params f limit offset isDefault) app_columns false = Ok (apps_query f limit offset isDefault).
Proof.
  destruct f as [[[|cn0 cn]|] [[|s0 s]|] [[|n0 n]|] []]; intros (H5 & H6 & H7) Hl Ho; cbn in H5, H6, H7; try done;
    destruct limit as [|l|l]; try lia; destruct offset as [|o|o]; try lia; reflexivity.
Qed.

Lemma apps_count_built f limit offset isDefault : filter_ok f ->
  queryBuilder (apps_params f limit offset isDefault) (Arr [Str "network"]) true = Ok (KCount "network" :: listed f isDefault).
Proof.
  destruct f as [[[|cn0 cn]|] [[|s0 s]|] [[|n0 n]|] []]; intros (H5 & H6 & H7); cbn in H5, H6, H7; try done; reflexivity.
Qed.

Lemma apps_query_facts f limit offset isDefault : 0 <= offset ->
  let q := apps_query f limit offset isDefault in
  supported q = true /\ order_of q = order_of (by_name f) /\ limit_of q = Some (Z.to_nat limit) /\
  offset_of q = Z.to_nat offset /\ selected q = selected [KSelect app_columns; KSelect (Str "chainName")] /\
  forall r, Engine.matches q r = Engine.matches (listed f isDefault) r && bool_decide (cell r "chainName" <> SNull).
Proof.
  intros Ho. destruct f as [cn [s|] [n|] desc], offset as [|o|o]; try lia; cbv zeta;
    (split_and!; [done..|]; intros r; unfold Engine.matches; cbn; btauto).
Qed.
Lemma matching_apps f limit offset isDefault (rs : Engine.rows) : 0 <= offset -> table_ok application_metadata rs ->
  matching (apps_query f limit offset isDefault) rs = matching (listed f isDefault) rs.
Proof.
  intros Ho Hrs. destruct (apps_query_facts f limit offset isDefault Ho) as (_ & _ & _ & _ & _ & Hm).
  unfold matching. apply filter_same. intros r ((k & r') & -> & Hr)%list_elem_of_fmap. cbn [snd].
  apply elem_of_map_to_list in Hr. destruct (Hrs k r' Hr) as (<- & _ & Hk).
  rewrite Hm, bool_decide_eq_true_2, andb_true_r; [done|]. rewrite Forall_forall in Hk. apply Hk. right. by left.
Qed.

(** One of the two queries, and how many applications it could have found. *)
Lemma apps_found f isDefault (s : St) : filter_ok f -> table_ok application_metadata (rows_of s application_metadata) ->
  forall limit offset, 0 < limit -> 0 <= offset ->
  exists l, l ≡ₚ matching (listed f isDefault) (rows_of s application_metadata) /\
    StronglySorted (row_le (by_name f)) l /\
    find application_metadata (apps_params f limit offset isDefault) app_columns s
    = Ok (project [KSelect app_columns; KSelect (Str "chainName")] <$> take (Z.to_nat limit) (drop (Z.to_nat offset) l)).
Proof.
  intros Hf Hrs limit offset Hl Ho.
  destruct (apps_query_facts f limit offset isDefault Ho) as (Hsup & Hord & Hlim & Hoff & Hsel & _).
  destruct (select_law application_metadata _ s Hsup) as (l & Hp & Hs & E). exists l.
  rewrite matching_apps in Hp by done. split; [done|]. split.
  - unfold row_le in *. by rewrite Hord in Hs.
  - unfold find. cbn [truthy app_columns]. rewrite apps_query_built by done. cbn [mbind result_bind]. rewrite E.
    unfold take_limit. rewrite Hlim, Hoff. f_equal. apply list_fmap_ext. intros _ r _. unfold project. by rewrite Hsel.
Qed.

Lemma apps_counted f isDefault limit offset (s : St) : filter_ok f ->
  count application_metadata (apps_params f limit offset isDefault) Undef s
  = Ok (Z.of_nat (length (matching (listed f isDefault) (rows_of s application_metadata)))).
Proof.
  intros Hf. unfold count. cbn [truthy]. change (hd Undef _) with (Str "network"). rewrite apps_count_built by done.
  cbn [mbind result_bind]. rewrite count_law by (by destruct f as [? [] [] ?]). done.
Qed.

(** A page of two lists, one after the other. *)
Lemma page_app {A} (l o : nat) (xs ys : list A) :
  take l (drop o (xs ++ ys))
  = take l (drop o xs) ++ take (l - length (take l (drop o xs))) (drop (o - length xs) ys).
Proof.
  rewrite drop_app, take_app, length_take.
  by replace (l - l `min` length (drop o xs))%nat with (l - length (drop o xs))%nat by lia.
Qed.

(** All applications the filter selects. *)
Definition listed_all (f : list_filter) : list clause :=
  match listed f true with
  | _ :: rest => KWhere (Object (given "chainName" (f_chainName f))) :: rest
  | [] => []
  end.

Lemma request_params f limit offset : filter_ok f ->
  exists p, meta_list_params (list_request f limit offset) = Ok p /\
    prop p "limit" = Num limit /\ prop p "offset" = Num offset /\
    spread p [("isDefault", Bool true)] = apps_params f limit offset true /\
    (forall l o, spread p [("limit", Num l); ("offset", Num o); ("isDefault", Bool false)] = apps_params f l o false) /\
    queryBuilder p (Arr [Str "network"]) true = Ok (KCount "network" :: listed_all f).
Proof.
  destruct f as [[[|cn0 cn]|] [[|s0 s]|] [[|n0 n]|] []]; intros (H5 & H6 & H7); cbn in H5, H6, H7; try done;
    (eexists; split; [reflexivity|]; split_and!; reflexivity).
Qed.

(** A page of the list of applications is a page of the default applications
    followed by the others, both in the order asked for: nothing is skipped or
    shown twice where the defaults end.  The query changes nothing. *)
Theorem meta_list_page f limit offset (s : registry (St := St)) :
  filter_ok f -> 0 < limit -> 0 <= offset ->
  let rs := rows_of (committed s) application_metadata in
  table_ok application_metadata rs ->
  exists defaults others : list row,
    defaults ≡ₚ matching (listed f true) rs /\ StronglySorted (row_le (by_name f)) defaults /\
    others ≡ₚ matching (listed f false) rs /\ StronglySorted (row_le (by_name f)) others /\
    let page := take (Z.to_nat limit) (drop (Z.to_nat offset) (defaults ++ others)) in
    getBlockchainAppsMetaList (list_request f limit offset) s =
      (Ok [("data", Arr (shown <$> page));
           ("meta", Object [("count", Num (Z.of_nat (length page))); ("offset", Num offset);
                            ("total", Num (count_matching (listed_all f) rs))])], s).
Proof.
  intros Hf Hl Ho rs Hrs. destruct (request_params f limit offset Hf) as (p & Ep & Epl & Epo & Epd & Epn & Epc).
  destruct (apps_found f true (committed s) Hf Hrs limit offset Hl Ho) as (D & HD & SD & ED).
  set (page1 := take (Z.to_nat limit) (drop (Z.to_nat offset) D)) in *.
  assert (forall A (g : St -> result A) a, g (committed s) = Ok a -> in_table Auto g s = (Ok a, s)) as Htab.
  { intros A g a Eg. unfold in_table, on_service, on_world, read. cbn [db]. fold (world_of s) (committed s).
    rewrite Eg. by destruct s as [[]]. }
  assert (count application_metadata p Undef (committed s) = Ok (count_matching (listed_all f) rs)) as Htotal.
  { unfold count. cbn [truthy]. change (hd Undef _) with (Str "network"). rewrite Epc. cbn [mbind result_bind].
    by rewrite count_law by (by destruct f as [? [] [] ?]). }
  unfold getBlockchainAppsMetaList. rewrite Ep. setoid_rewrite lift_ok; [|reflexivity..]. cbv zeta.
  rewrite Epl, Epo, Epd. setoid_rewrite (M_bind_ok _ _ _ _ _ (Htab _ _ _ ED)). rewrite !length_fmap.
  assert (length page1 <= Z.to_nat limit)%nat as Hle by (unfold page1; rewrite length_take; lia).
  unfold js_less. cbn [js_Number]. destruct (Z.ltb_spec (Z.of_nat (length page1)) limit) as [Hlt|Hge].
  - destruct (apps_found f false (committed s) Hf Hrs (limit - Z.of_nat (length page1)) (Z.max (offset - Z.of_nat (length D)) 0))
      as (N & HN & SN & EN); [lia..|].
    exists D, N. split_and!; [done..|]. cbv zeta. rewrite page_app. fold page1.
    replace (Z.to_nat (limit - Z.of_nat (length page1))) with (Z.to_nat limit - length page1)%nat in EN by lia.
    replace (Z.to_nat (Z.max (offset - Z.of_nat (length D)) 0)) with (Z.to_nat offset - length D)%nat in EN by lia.
    pose proof (apps_counted f true limit offset (committed s) Hf) as EC. rewrite <- (Permutation_length HD) in EC.
    rewrite <- Epn in EN. erewrite M_bind_ok; cycle 1.
    { rewrite (M_bind_ok _ _ _ _ _ (Htab _ _ _ EC)). cbn [js_sub js_max].
      rewrite (M_bind_ok _ _ _ _ _ (Htab _ _ _ EN)). rewrite <- fmap_app. reflexivity. }
    rewrite (M_bind_ok _ _ _ _ _ (Htab _ _ _ Htotal)), length_fmap, <- list_fmap_compose. done.
  - destruct (apps_found f false (committed s) Hf Hrs 1 0) as (N & HN & SN & _); [lia..|].
    exists D, N. split_and!; [done..|]. cbv zeta. rewrite page_app. fold page1.
    replace (Z.to_nat limit - length page1)%nat with 0%nat by lia. rewrite take_0, app_nil_r.
    rewrite (M_bind_ok (ret _) _ s _ s eq_refl), (M_bind_ok _ _ _ _ _ (Htab _ _ _ Htotal)), length_fmap, <- list_fmap_compose. done.
Qed.
End Pages.

(** ** A run *)
Definition sample_app (name : string) (isDefault : bool) : obj :=
  [("chainName", Str name); ("displayName", Str name); ("chainID", Str "00000000"); ("network", Str "mainnet");
   ("isDefault", Bool isDefault); ("appDirName", Str name)].

Definition sample_apps : MemDB :=
  match upsert application_metadata (Arr (Object <$> [sample_app "swap" false; sample_app "klayr_mainchain" true; sample_app "dex" false])) ∅
  with Ok s => s | Throw _ => ∅ end.

Definition sample_registry (db : MemDB) (d : disk string) : registry (St := MemDB) :=
  mkRegistry (sample_service (mkWorld db db ∅ [] db) []) d [].

Lemma sample_apps_ok : table_ok application_metadata (rows_of sample_apps application_metadata).
Proof.
  assert (map_Forall (fun k r => row_in application_metadata k r) (rows_of sample_apps application_metadata)) as Hm; [|exact Hm].
  apply (bool_decide_unpack _). vm_compute. exact I.
Qed.

(** Three applications, the default one first: the second page of one entry
    shows the first of the others. *)
Lemma meta_list_page_witness :
  exists data meta,
    getBlockchainAppsMetaList (list_request (mkFilter None None (Some "mainnet,testnet") false) 2 1) (sample_registry sample_apps ∅)
    = (Ok [("data", Arr data); ("meta", meta)], sample_registry sample_apps ∅) /\ length data = 2%nat.
Proof.
  destruct (meta_list_page (mkFilter None None (Some "mainnet,testnet") false) 2 1 (sample_registry sample_apps ∅))
    as (D & N & HD & _ & HN & _ & E); [done|lia|lia|apply sample_apps_ok|].
  eexists _, _. split; [exact E|]. rewrite length_fmap, length_take, length_drop, length_app.
  rewrite (Permutation_length HD), (Permutation_length HN). vm_compute. reflexivity.
Defined.

(** GitHub with one commit after the stored one, which adds an application. *)
Definition json_of (v : val) : string := match json_stringify v with Ok (Some s) => s | _ => "" end.
Definition sample_github : GitHub := {|
  octokit _ route _ :=
    Ok (Object [("data", Object [("sha", Str "c2");
                                 ("files", Arr [Object [("filename", Str "mainnet/dex/app.json"); ("status", Str "added")]])])]);
  https_request _ _ _ :=
    let file := json_of (Object [("chainName", Str "dex"); ("chainID", Str "00000001"); ("networkType", Str "mainnet")]) in
    let base64 := String.string_of_list_ascii (to_base64_chars ((fun c => Z.of_nat (nat_of_ascii c)) <$> String.list_ascii_of_string file)) in
    Ok (200, "OK", json_of (Object [("content", Str base64)]));
  tar_extract _ _ d := d;
  service_dir := "/srv";
  localeCompare a b := match String.compare a b with Lt => -1 | Eq => 0 | Gt => 1 end;
|}.

Definition sample_disk : disk string :=
  list_to_map ((fun p => (p, Dir 0)) <$> [[]; ["srv"]; ["srv"; "data"]; ["srv"; "data"; "app-registry"]]).
Definition synced_at (commit : string) : MemDB :=
  match kv_set "default" COMMIT_HASH_UNTIL_LAST_SYNC (Str commit) sample_apps with Ok s => s | Throw _ => ∅ end.

Abbreviation sample_sync s :=
  (syncWithRemoteRepo (H0 := sample_rpc []) (H1 := sample_packages) (H2 := sample_github) true s).

(** The run downloads the file, indexes it, moves it into place and reports it. *)
Example sample_sync_run :
  let s' := (sample_sync (sample_registry (synced_at "c1") sample_disk)).2 in
  kv_get "default" COMMIT_HASH_UNTIL_LAST_SYNC (committed s') = Ok (Str "c2") /\
  rg_signals s' = [Object [("mainnet", Arr [Str "dex"]); ("testnet", Arr []); ("devnet", Arr [])]] /\
  match rg_disk s' !! ["srv"; "data"; "app-registry"; "mainnet"; "dex"; "app.json"] with Some (File _ _) => True | _ => False end /\
  rg_disk s' !! ["srv"; "data"; "app-registry"; "temp-downloads"] = None.
Proof. vm_compute. done. Qed.

Lemma synced_ok : kv_ok "default" (synced_at "c1") {[COMMIT_HASH_UNTIL_LAST_SYNC := Str "c1"]}.
Proof.
  destruct (kv_set_ok "default" COMMIT_HASH_UNTIL_LAST_SYNC (Str "c1") sample_apps ∅) as (s' & E & Hok & _).
  - exact (kv_ok_empty "default").
  - unfold synced_at. rewrite E. exact Hok.
Qed.

Lemma sync_atomic_witness :
  let s := sample_registry (synced_at "c1") sample_disk in
  at_commit (H2 := sample_packages) (H3 := sample_github) {[COMMIT_HASH_UNTIL_LAST_SYNC := Str "c1"]} s (sample_sync s).2 \/
  committed (sample_sync s).2 = committed s.
Proof.
  intros s. destruct (sync_atomic (H1 := sample_rpc []) (H2 := sample_packages) (H3 := sample_github) s
    {[COMMIT_HASH_UNTIL_LAST_SYNC := Str "c1"]} (sample_sync s).1 (sample_sync s).2) as [[Hc|Hc] _].
  - exact synced_ok.
  - intros c Hc. vm_compute in Hc. by injection Hc as <-.
  - apply surjective_pairing.
  - by right.
  - by left.
Defined.

(** The files of two applications that are not defaults. *)
Definition sample_files : disk string :=
  list_to_map ((fun name => (["srv"; "data"; "app-registry"; "mainnet"; name; "app.json"],
                             File (json_of (Object [("chainName", Str name); ("chainID", Str "00000001")])) 0)) <$> ["swap"; "dex"]).

Abbreviation sample_metadata params :=
  (getBlockchainAppsMetadata (H0 := sample_rpc [("indexer.network.status", Object [("data", Object [("chainID", Str "00000000")])]);
                                                ("indexer.blockchain.apps", Object [("data", Arr [Object [("status", Str "activated")]])])])
     (H1 := sample_packages) (H2 := sample_github) params (sample_registry sample_apps sample_files)).

Definition names_and_status (answer : result obj) : list (val * val) :=
  match answer with
  | Ok o => (fun app => (prop (as_obj app) "chainName", prop (as_obj app) "status")) <$> match prop o "data" with Arr l => l | _ => [] end
  | Throw _ => []
  end.

(** A request for applications that are not defaults ignores its offset: the
    second page is the first again.  And the status of an application that the
    indexer knows as activated is reported as unregistered, because the answer
    of the indexer is an object and has no length. *)
Example nondefault_offset_ignored :
  let request offset := [("isDefault", Bool false); ("limit", Num 1); ("offset", Num offset); ("sort", Str "chainName:asc")] in
  names_and_status (sample_metadata (request 0)).1 = [(Str "dex", Str "unregistered")] /\
  names_and_status (sample_metadata (request 1)).1 = [(Str "dex", Str "unregistered")].
Proof. vm_compute. done. Qed.
