(* ===== verification/RegistryClean.v ===== *)
(** * The job that cleans the data directory of the registry

    [jobs/deleteNonMetadata.js] walks through a directory tree, removes files
    that are neither metadata nor pictures and directories that are left
    empty.  On a disk that is a tree the walk ends, and what stays below the
    directory are the files to keep and the directories that lead to them. *)
From stdpp Require Import sorting.
From S2P Require Import Prelude JsValue Json Files Export Registry.
Local Open Scope Z_scope.
Set Warnings "-register-all".

Abbreviation disk_ := (disk string).

(** Entries have a directory above them and names that mean themselves. *)
Record tree (d : disk_) : Prop := {
  tree_parent q n : d !! q = Some n -> q <> [] -> exists t, d !! removelast q = Some (Dir t);
  tree_plain q n : d !! q = Some n -> Forall (fun x => plain_name x = true) q;
}.

Lemma resolve_path p : Forall (fun x => plain_name x = true) p -> resolve [] (path_text p) = p.
Proof.
  intros Hp. assert (forall acc, foldl path_step acc p = acc ++ p) as Hf.
  { induction p as [|x p IH]; intros acc; [by rewrite app_nil_r|]. apply Forall_cons in Hp as [Hx Hp].
    cbn [foldl]. rewrite IH by done. unfold path_step. unfold plain_name in Hx.
    apply negb_true_iff, orb_false_iff in Hx as [[[_ ->]%orb_false_iff ->]%orb_false_iff ->]. cbn [orb]. by rewrite <- app_assoc. }
  unfold resolve, path_text. cbn [is_absolute String.app]. change ("/" +:+ join "/" p) with ("" +:+ String slash (join "/" p)).
  rewrite split_on_app. cbn [split_on app foldl path_step String.eqb orb]. destruct p as [|x p]; [done|].
  change "/" with (String slash ""). rewrite split_join; [|by apply (Forall_impl _ _ _ Hp); intros y Hy; unfold plain_name in Hy; by destruct (has_char slash y)|done].
  apply Hf.
Qed.

(** [q] is, or leads to, a file to keep. *)
Definition live (d : disk_) (q : path) : bool :=
  existsb (fun kv => bool_decide (q `prefix_of` kv.1) && match kv.2 with File _ _ => kept_file (path_text kv.1) | Dir _ => false end)
    (map_to_list d).

Lemma live_spec d q : live d q = true <->
  exists q' c t, q `prefix_of` q' /\ d !! q' = Some (File c t) /\ kept_file (path_text q') = true.
Proof.
  unfold live. rewrite existsb_exists. split.
  - intros ([q' n] & Hin%list_elem_of_In & [Hp Hn]%andb_true_iff). apply elem_of_map_to_list in Hin. cbn in *.
    destruct n as [c t|t]; [|done]. exists q', c, t. by apply bool_decide_eq_true in Hp.
  - intros (q' & c & t & Hp & Hd & Hk). exists (q', File c t). split; [by apply list_elem_of_In, elem_of_map_to_list|].
    cbn. by rewrite bool_decide_eq_true_2.
Qed.

Lemma live_up d p q : p `prefix_of` q -> live d q = true -> live d p = true.
Proof.
  rewrite !live_spec. intros Hp (q' & c & t & Hq & Hrest). exists q', c, t. split; [by etransitivity|done].
Qed.

(** Only what lies below counts. *)
Lemma live_below d d' q : (forall q', q `prefix_of` q' -> d' !! q' = d !! q') -> live d' q = live d q.
Proof.
  intros E. apply eq_bool_prop_intro. rewrite !Is_true_true, !live_spec.
  split; intros (q' & c & t & Hp & Hd & Hk); exists q', c, t; (split_and!; [done| |done]); [by rewrite <- E|by rewrite E].
Qed.

(** What is not alive is removed among the paths [K]: at or below [c], or
    strictly below [p]. *)
Definition thinned (K : path -> Prop) `{forall q, Decision (K q)} (d d' : disk_) : Prop :=
  forall q, d' !! q = if decide (K q) then if live d q then d !! q else None else d !! q.
Abbreviation swept c := (thinned (fun q => c `prefix_of` q)).
Abbreviation cleaned p := (thinned (fun q => p `prefix_of` q /\ q <> p)).

Lemma parent_prefix (q : path) : removelast q `prefix_of` q.
Proof. rewrite removelast_firstn_len. apply prefix_take. Qed.

Lemma removelast_neq (q : path) : q <> [] -> removelast q <> q.
Proof.
  intros Hq E. apply (f_equal length) in E. rewrite removelast_firstn_len, length_take in E. destruct q; [done|]. cbn in E. lia.
Qed.

Lemma thinned_some K `{forall q, Decision (K q)} d d' q n : thinned K d d' -> d' !! q = Some n -> d !! q = Some n.
Proof. intros Hs Hq. rewrite Hs in Hq. destruct (decide _); [by destruct (live d q)|done]. Qed.

Lemma thinned_tree K `{forall q, Decision (K q)} d d' :
  (forall q, K (removelast q) -> K q) -> tree d -> thinned K d d' -> tree d'.
Proof.
  intros HK [Hp Hn] Hs. split.
  - intros q n Hq Hne. pose proof (thinned_some _ _ _ _ _ Hs Hq) as Hd. destruct (Hp q n Hd Hne) as [t Ht].
    exists t. rewrite Hs in Hq |- *. destruct (decide (K (removelast q))) as [Hk|]; [|done].
    rewrite decide_True in Hq by auto. destruct (live d q) eqn:Hl; [|done].
    by rewrite (live_up d _ q (parent_prefix q) Hl).
  - intros q n Hq. by eapply Hn, thinned_some.
Qed.

Lemma swept_tree c d d' : tree d -> swept c d d' -> tree d'.
Proof. apply thinned_tree. intros q Hq. etransitivity; [exact Hq|apply parent_prefix]. Qed.

Lemma cleaned_tree p d d' : tree d -> cleaned p d d' -> tree d'.
Proof.
  apply thinned_tree. intros q [Hq Hne]. split; [etransitivity; [exact Hq|apply parent_prefix]|].
  intros ->. apply Hne, (anti_symm prefix); [apply parent_prefix|exact Hq].
Qed.

(** Every directory above an entry exists. *)
Lemma tree_above d q n i : tree d -> d !! q = Some n -> (i < length q)%nat -> exists t, d !! take i q = Some (Dir t).
Proof.
  intros Ht Hq Hi. remember (length q - i)%nat as k eqn:Hk. revert i Hi Hk.
  induction k as [|k IH]; intros i Hi Hk; [lia|]. destruct (decide (S i = length q)) as [E|E].
  - replace (take i q) with (removelast q) by (rewrite removelast_firstn_len; f_equal; lia).
    apply (tree_parent d Ht q n Hq). intros ->. cbn in *. lia.
  - destruct (IH (S i)) as [t Ht']; [lia..|].
    replace (take i q) with (removelast (take (S i) q)) by (by apply removelast_firstn; lia).
    apply (tree_parent d Ht _ _ Ht'). destruct q; [cbn in Hi; lia|done].
Qed.

(** The names of an entry are fewer than the entries. *)
Lemma tree_depth d q n : tree d -> d !! q = Some n -> (length q < size d)%nat.
Proof.
  intros Ht Hq. rewrite <- size_dom. set (X := list_to_set ((fun i => take i q) <$> seq 0 (S (length q))) : gset path).
  assert (X ⊆ dom d) as Hsub.
  { intros p Hp. apply elem_of_list_to_set, list_elem_of_fmap in Hp as (i & -> & Hi%elem_of_seq). apply elem_of_dom.
    destruct (decide (i < length q)%nat) as [Hlt|]; [destruct (tree_above d q n i Ht Hq Hlt) as [t ->]; by eexists|].
    rewrite take_ge by lia. by eexists. }
  apply subseteq_size in Hsub. unfold X in Hsub. rewrite size_list_to_set, length_fmap, length_seq in Hsub; [lia|].
  apply NoDup_fmap_2_strong; [|apply NoDup_seq]. intros i j Hi%elem_of_seq Hj%elem_of_seq E.
  apply (f_equal length) in E. rewrite !length_take in E. lia.
Qed.

(** The entries of a directory. *)
Definition child (d : disk_) (p c : path) : Prop := is_Some (d !! c) /\ removelast c = p /\ c <> [].

Lemma contents_spec d p t : tree d -> d !! p = Some (Dir t) ->
  exists l, getFilesAndDirs [] (path_text p) d = Ok l /\ NoDup l /\ forall c, c ∈ l <-> child d p c.
Proof.
  intros Ht Hp. pose proof (resolve_path p (tree_plain d Ht p _ Hp)) as Hr.
  assert (readdir [] (path_text p) d = Ok (filter (fun kv : path * node string => removelast kv.1 = p /\ kv.1 <> []) (map_to_list d))) as Er.
  { unfold readdir, at_path. by rewrite Hr, Hp. }
  set (entries := filter _ (map_to_list d)) in Er. unfold getFilesAndDirs, getDirectories, getFiles. rewrite Er.
  cbn [mbind result_bind]. eexists. split; [reflexivity|].
  assert (NoDup entries.*1) as Hnd.
  { apply NoDup_fmap_fst.
    - intros q n1 n2 [_ H1%elem_of_map_to_list]%list_elem_of_filter [_ H2%elem_of_map_to_list]%list_elem_of_filter. congruence.
    - apply NoDup_filter, NoDup_map_to_list. }
  assert ((merge_sort newer (filter (fun kv => is_dir kv.2 = true) entries)).*1
          ++ (filter (fun kv => is_dir kv.2 = false) entries).*1 ≡ₚ entries.*1) as Hperm.
  { rewrite <- fmap_app. apply fmap_Permutation. rewrite merge_sort_Permutation.
    clear. induction entries as [|[q n] l IH]; [done|]. destruct n as [c t|t].
    - rewrite filter_cons_False by done. rewrite filter_cons_True by done. rewrite <- Permutation_middle. by constructor.
    - rewrite filter_cons_True by done. rewrite filter_cons_False by done. cbn. by constructor. }
  split; [by rewrite Hperm|]. intros c. rewrite Hperm. unfold entries, child.
  rewrite list_elem_of_fmap. setoid_rewrite list_elem_of_filter. setoid_rewrite elem_of_map_to_list'. split.
  - intros ([q n] & -> & [Hq1 Hq2] & Hq). cbn in *. split; [by eexists|done].
  - intros ([n Hn] & H1 & H2). exists (c, n). done.
Qed.

(** One entry of a directory, and the directory. *)
Definition visit (n : nat) (c : path) : eff disk_ unit :=
  let filePath := path_text c in
  isDirectory ← (fun d => (match at_path [] filePath d with
                           | Some n => Ok (is_dir n)
                           | None => Throw "ENOENT: no such file or directory"
                           end, d));
  if isDirectory : bool then clean n filePath ≫= fun _ => removeDirectoryIfEmpty filePath
  else if kept_file filePath then ret tt
  else rm_file [] filePath ≫= fun _ => ret tt.

Lemma clean_visits n p : clean (S n) (path_text p) =
  (contents ← (fun d => (getFilesAndDirs [] (path_text p) d, d)); for_each contents (visit n)).
Proof. reflexivity. Qed.

Lemma file_leaf d c ct t q n : tree d -> d !! c = Some (File ct t) -> c `prefix_of` q -> d !! q = Some n -> q = c.
Proof.
  intros Ht Hc Hp Hq. destruct (decide (length c < length q)%nat) as [Hl|Hl].
  - destruct (tree_above d q n (length c) Ht Hq Hl) as [t' Ht']. destruct Hp as [k ->]. rewrite take_app_length in Ht'. congruence.
  - symmetry. apply prefix_length_eq; [done|lia].
Qed.

Lemma visit_file n c ct t d : tree d -> d !! c = Some (File ct t) -> exists d', visit n c d = (Ok tt, d') /\ swept c d d'.
Proof.
  intros Ht Hc. pose proof (resolve_path c (tree_plain d Ht c _ Hc)) as Hr.
  unfold visit. cbv zeta. unfold mbind, eff_bind, at_path. rewrite Hr, Hc. cbn [is_dir].
  destruct (kept_file (path_text c)) eqn:Hk.
  - exists d. split; [done|]. intros q. destruct (decide _) as [Hp|]; [|done]. destruct (live d q) eqn:Hl; [done|].
    destruct (d !! q) as [m|] eqn:Hq; [|done]. pose proof (file_leaf d c _ _ q m Ht Hc Hp Hq) as ->.
    rewrite (proj2 (live_spec d c)) in Hl; [done|]. by exists c, ct, t.
  - unfold rm_file, at_path. rewrite Hr, Hc. exists (delete c d). split; [done|]. intros q.
    destruct (decide _) as [Hp|Hp]; [|apply lookup_delete_ne; intros ->; by apply Hp].
    destruct (live d q) eqn:Hl.
    + apply live_spec in Hl as (q' & c' & t' & Hq & Hd & Hk').
      assert (q' = c) as -> by (eapply file_leaf; [done..|by etransitivity|done]). congruence.
    + destruct (decide (q = c)) as [->|Hne]; [apply lookup_delete_eq|]. rewrite lookup_delete_ne by done.
      destruct (d !! q) as [m|] eqn:Hq; [|done]. by pose proof (file_leaf d c _ _ q m Ht Hc Hp Hq).
Qed.

(** A directory that leads to a file to keep has an entry that does. *)
Lemma live_child d c t : tree d -> d !! c = Some (Dir t) -> live d c = true -> exists c1, child d c c1 /\ c `prefix_of` c1 /\ live d c1 = true.
Proof.
  intros Ht Hc (q & ct & t' & Hp & Hq & Hk)%live_spec. destruct Hp as [[|x k] ->]; [rewrite app_nil_r in Hq; congruence|].
  assert (c ++ [x] `prefix_of` c ++ x :: k) as Hpre by (exists k; by rewrite <- app_assoc).
  exists (c ++ [x]). split_and!; [|by eexists|].
  - split; [|split; [apply removelast_last|by destruct c]]. destruct k as [|y k]; [by eexists|].
    destruct (tree_above d _ _ (length (c ++ [x])) Ht Hq) as [t1 Ht1]; [rewrite !length_app; cbn; lia|].
    replace (c ++ x :: y :: k) with ((c ++ [x]) ++ y :: k) in Ht1 by (by rewrite <- app_assoc).
    rewrite take_app_length in Ht1. by eexists.
  - apply live_spec. by exists (c ++ x :: k), ct, t'.
Qed.

Lemma visit_dir n c t d d1 : tree d -> d !! c = Some (Dir t) ->
  clean n (path_text c) d = (Ok tt, d1) -> cleaned c d d1 -> exists d', visit n c d = (Ok tt, d') /\ swept c d d'.
Proof.
  intros Ht Hc Ecl Hcl. pose proof (resolve_path c (tree_plain d Ht c _ Hc)) as Hr.
  assert (d1 !! c = Some (Dir t)) as Hc1 by (rewrite Hcl, decide_False by tauto; done).
  pose proof (cleaned_tree _ _ _ Ht Hcl) as Ht1. destruct (contents_spec d1 c t Ht1 Hc1) as (l & El & _ & Hl).
  assert (visit n c d = removeDirectoryIfEmpty (path_text c) d1) as ->.
  { unfold visit. cbv zeta. unfold mbind at 1, eff_bind at 1, at_path. rewrite Hr, Hc. cbn [is_dir].
    by rewrite (M_bind_ok _ _ _ _ _ Ecl). }
  unfold removeDirectoryIfEmpty. rewrite (M_bind_ok _ _ _ l d1) by (by rewrite El).
  destruct l as [|c1 l]; cbn [length Nat.eqb].
  - eexists. split; [reflexivity|]. unfold rmdir. cbn [snd fst]. intros q. rewrite Hr.
    destruct (decide (c `prefix_of` q)) as [Hp|Hp].
    + rewrite (proj2 (map_lookup_filter_None _ _ _)) by (right; intros m _ Hn; by apply Hn).
      destruct (live d q) eqn:Hlq; [|done]. exfalso. pose proof (live_up d c q Hp Hlq) as Hlc.
      destruct (live_child d c t Ht Hc Hlc) as (c1 & (Hs & Hrem & Hne) & Hpre & Hl1).
      apply (not_elem_of_nil c1), Hl. split; [|done]. rewrite Hcl, decide_True, Hl1; [done|].
      split; [done|]. intros ->. by apply (removelast_neq c).
    + rewrite map_lookup_filter. rewrite Hcl, decide_False by tauto. destruct (d !! q) as [m|]; [|done]. cbn. by rewrite option_guard_True.
  - exists d1. split; [done|]. intros q. destruct (proj1 (Hl c1) (list_elem_of_here _ _)) as ([m Hm] & Hrem & Hne).
    assert (live d c = true) as Hlc.
    { apply (live_up d c c1); [rewrite <- Hrem; apply parent_prefix|]. rewrite Hcl in Hm. destruct (decide _) as [_|Hd].
      - by destruct (live d c1).
      - exfalso. apply Hd. split; [rewrite <- Hrem; apply parent_prefix|]. intros ->. by apply (removelast_neq c). }
    rewrite Hcl. destruct (decide (q = c)) as [->|Hq].
    + rewrite decide_False by tauto. rewrite decide_True by done. by rewrite Hlc.
    + destruct (decide (c `prefix_of` q)); [by rewrite decide_True|by rewrite decide_False by tauto].
Qed.

(** The entries of one directory lie apart. *)
Lemma siblings_apart (c c' q : path) : c <> [] -> c' <> [] -> removelast c = removelast c' ->
  c `prefix_of` q -> c' `prefix_of` q -> c = c'.
Proof.
  intros Hc Hc' E Hq Hq'.
  assert (forall x : path, x <> [] -> length x = S (length (removelast x))) as Hlen.
  { intros x Hx. rewrite removelast_firstn_len, length_take. destruct x; [done|]. cbn. lia. }
  pose proof (Hlen c Hc) as L. pose proof (Hlen c' Hc') as L'. rewrite E, <- L' in L.
  destruct (prefix_weak_total _ _ _ Hq Hq'); [|symmetry]; apply prefix_length_eq; auto; lia.
Qed.

Lemma sweep_all (f : path -> eff disk_ unit) p cs d :
  tree d -> NoDup cs -> (forall c, c ∈ cs -> removelast c = p /\ c <> []) ->
  (forall c d1, c ∈ cs -> tree d1 -> (forall q, c `prefix_of` q -> d1 !! q = d !! q) ->
     exists d2, f c d1 = (Ok tt, d2) /\ swept c d1 d2) ->
  exists d', for_each cs f d = (Ok tt, d') /\
    (forall q, (forall c, c ∈ cs -> ~ c `prefix_of` q) -> d' !! q = d !! q) /\
    (forall c q, c ∈ cs -> c `prefix_of` q -> d' !! q = if live d q then d !! q else None).
Proof.
  revert d. induction cs as [|c cs IH]; intros d Ht Hnd Hcs Hf.
  { exists d. split_and!; [done..|]. by intros c q ?%not_elem_of_nil. }
  apply NoDup_cons in Hnd as [Hni Hnd]. destruct (Hf c d) as (d2 & E & Hs); [by left|done..|].
  assert (forall c' q, c' ∈ cs -> c' `prefix_of` q -> d2 !! q = d !! q) as Hsame.
  { intros c' q Hc' Hq. rewrite Hs, decide_False; [done|]. intros Hcq. apply Hni.
    destruct (Hcs c) as [E1 N1]; [by left|]. destruct (Hcs c') as [E2 N2]; [by right|].
    by rewrite (siblings_apart c c' q) by congruence. }
  destruct (IH d2) as (d' & E' & Hout & Hin).
  - by eapply swept_tree.
  - done.
  - intros c' Hc'. apply Hcs. by right.
  - intros c' d1 Hc' Ht1 Hd1. apply Hf; [by right|done|]. intros q Hq. by rewrite Hd1, (Hsame c').
  - exists d'. cbn [for_each]. rewrite (M_bind_ok _ _ _ _ _ E). split; [done|]. split.
    + intros q Hq. rewrite Hout by (intros c' Hc'; apply Hq; by right). rewrite Hs, decide_False; [done|]. apply Hq. by left.
    + intros c' q [->|Hc']%elem_of_cons Hq.
      * rewrite Hout; [by rewrite Hs, decide_True|]. intros c' Hc' Hq'. apply Hni. destruct (Hcs c) as [E1 N1]; [by left|].
        destruct (Hcs c') as [E2 N2]; [by right|]. by rewrite (siblings_apart c c' q) by congruence.
      * rewrite (Hin c' q Hc' Hq), (Hsame c' q Hc' Hq). rewrite (live_below d d2 q); [done|].
        intros q' Hq'. apply (Hsame c'); [done|by etransitivity].
Qed.

Lemma clean_cleaned n p t d : tree d -> d !! p = Some (Dir t) ->
  (forall q m, p `prefix_of` q -> d !! q = Some m -> (length q < length p + n)%nat) ->
  exists d', clean n (path_text p) d = (Ok tt, d') /\ cleaned p d d'.
Proof.
  revert p t d. induction n as [|n IH]; intros p t d Ht Hp Hdepth.
  { exfalso. specialize (Hdepth p _ (reflexivity p) Hp). lia. }
  destruct (contents_spec d p t Ht Hp) as (l & El & Hnd & Hl).
  destruct (sweep_all (visit n) p l d) as (d' & E & Hout & Hin).
  - done.
  - done.
  - intros c (_ & Hc)%Hl. done.
  - intros c d1 Hc%Hl Ht1 Hd1. destruct Hc as ([m Hm] & Hrem & Hne). rewrite <- Hd1 in Hm by done.
    destruct m as [ct tm|tm]; [by eapply visit_file|].
    destruct (IH c tm d1 Ht1 Hm) as (d2 & E2 & Hc2).
    + intros q k Hq Hk. rewrite Hd1 in Hk by done. specialize (Hdepth q k).
      rewrite <- Hrem in Hdepth. rewrite removelast_firstn_len, length_take in Hdepth.
      assert (take (Nat.pred (length c)) c `prefix_of` q) as Hpre by (etransitivity; [apply prefix_take|done]).
      specialize (Hdepth Hpre Hk). destruct c; [done|]. cbn in *. lia.
    + by eapply visit_dir.
  - exists d'. rewrite clean_visits. rewrite (M_bind_ok _ _ _ l d) by (by rewrite El). split; [done|].
    intros q. destruct (decide _) as [[Hpq Hne]|Hno].
    + destruct Hpq as [[|x k] ->]; [by rewrite app_nil_r in Hne|]. set (c := p ++ [x]).
      assert (c `prefix_of` p ++ x :: k) as Hpre by (exists k; unfold c; by rewrite <- app_assoc).
      destruct (decide (c ∈ l)) as [Hc|Hc]; [by apply (Hin c)|]. rewrite Hout.
      * destruct (d !! (p ++ x :: k)) as [m|] eqn:Hd; [|by destruct (live d _)]. exfalso. apply Hc, Hl. split.
        -- destruct k as [|y k]; [unfold c; by eexists|].
           destruct (tree_above d _ _ (length c) Ht Hd) as [t1 Ht1]; [unfold c; rewrite !length_app; cbn; lia|].
           replace (p ++ x :: y :: k) with (c ++ y :: k) in Ht1 by (unfold c; by rewrite <- app_assoc).
           rewrite take_app_length in Ht1. by eexists.
        -- unfold c. split; [apply removelast_last|by destruct p].
      * intros c' Hc' Hq. apply Hc. destruct (proj1 (Hl c') Hc') as (_ & Hrem & Hne').
        rewrite (siblings_apart c c' (p ++ x :: k)); [done|unfold c; by destruct p|done|unfold c; by rewrite removelast_last|done..].
    + apply Hout. intros c (_ & Hrem & Hne)%Hl Hq. apply Hno. split; [rewrite <- Hrem; etransitivity; [apply parent_prefix|exact Hq]|].
      intros ->. apply (removelast_neq c Hne). apply (anti_symm prefix); [apply parent_prefix|]. by rewrite Hrem.
Qed.

(** [C33] On a disk whose entries lie in directories and have plain names, the job
    that cleans a directory of the registry ends without an error, and below
    the directory it leaves exactly the files to keep (metadata files and
    pictures), unchanged, and the directories that lead to one of them; nothing
    else on the disk changes. *)
Theorem clean_keeps_metadata p t d : tree d -> d !! p = Some (Dir t) ->
  exists d', removeEmptyDirectoriesAndNonMetaFiles (path_text p) d = (Ok tt, d') /\
    forall q, d' !! q = if decide (p `prefix_of` q /\ q <> p) then if live d q then d !! q else None else d !! q.
Proof.
  intros Ht Hp. apply (clean_cleaned _ p t d Ht Hp). intros q m Hq Hm. pose proof (tree_depth d q m Ht Hm). lia.
Qed.

(** Of two directories the one without metadata is removed. *)
Definition sample_disk : disk_ :=
  list_to_map [([], Dir 0); (["data"], Dir 0); (["data"; "a"], Dir 0); (["data"; "a"; "readme.md"], File "text" 0);
               (["data"; "b"], Dir 0); (["data"; "b"; "app.json"], File "{}" 0); (["data"; "b"; "notes.txt"], File "n" 0)].

Lemma sample_disk_tree : tree sample_disk.
Proof.
  split; intros q n Hq; apply elem_of_map_to_list in Hq; vm_compute in Hq;
    repeat (apply elem_of_cons in Hq as [[= -> ->]|Hq]; [|]); try (by apply elem_of_nil in Hq); try (intros _; eexists; reflexivity); try done;
    repeat constructor.
Qed.

Lemma clean_keeps_metadata_witness :
  exists d', removeEmptyDirectoriesAndNonMetaFiles (path_text ["data"]) sample_disk = (Ok tt, d') /\
    d' !! ["data"; "b"; "app.json"] = Some (File "{}" 0) /\ d' !! ["data"; "a"] = None /\ d' !! ["data"; "b"; "notes.txt"] = None.
Proof.
  destruct (clean_keeps_metadata ["data"] 0 sample_disk sample_disk_tree eq_refl) as (d' & E & Hd).
  exists d'. split; [exact E|]. rewrite !Hd. vm_compute. repeat split.
Defined.
