(* ===== verification/Market.v ===== *)
(** * The market service

    [services/market/shared]: the prices of the sources ([binance], [bitrue],
    [exchangeratesapi]), the prices of the target pairs computed from them, and
    what the service answers.  What the sources send is the class [Exchanges].
    The caches of Redis hold the prices themselves: their texts are written with
    [JSON.stringify] and only read with [JSON.parse]. *)
From S2P Require Import Prelude JsValue FeeEstimator Database World Engine Table Gateway Http Service.
From Stdlib Require Import Ascii SpecFloat.
Local Open Scope Z_scope.

(** ** Numbers *)

(** The double nearest to a quotient of positive integers. *)
Definition f_quotient (p q : positive) : double := SFdiv 53 1024 (S754_finite false p 0) (S754_finite false q 0).

Fixpoint read_digits (s : string) (acc : Z) (n : Z) : Z * Z * string :=
  match s with
  | String c r =>
      let d := Z.of_N (N_of_ascii c) - 48 in
      if (0 <=? d) && (d <=? 9) then read_digits r (acc * 10 + d) (n + 1) else (acc, n, s)
  | EmptyString => (acc, n, s)
  end.
Definition read_sign (s : string) : bool * string :=
  match s with String "-" r => (true, r) | String "+" r => (false, r) | _ => (false, s) end.

(** [Number(text)] of a decimal literal; anything else is [NaN]. *)
Definition number_of_text (s : string) : double :=
  if String.eqb s "" then f_zero
  else
    let '(neg, s) := read_sign s in
    let '(ip, ni, rest) := read_digits s 0 0 in
    let '(mantissa, nf, rest) := match rest with String "." r => read_digits r ip 0 | _ => (ip, 0, rest) end in
    let exponent :=
      match rest with
      | EmptyString => Some 0
      | String c r =>
          if Ascii.eqb c "e" || Ascii.eqb c "E" then
            let '(neg, r) := read_sign r in
            let '(e, n, rest) := read_digits r 0 0 in
            if (0 <? n) && String.eqb rest "" then Some (if neg : bool then - e else e) else None
          else None
      end in
    match exponent with
    | Some e =>
        if ni + nf =? 0 then S754_nan
        else
          let k := e - nf in
          let d := match mantissa with
                   | Z.pos m => if 0 <=? k then f_quotient (Z.to_pos (Z.pos m * 10 ^ k)) 1 else f_quotient m (Z.to_pos (10 ^ (- k)))
                   | _ => f_zero
                   end in
          if neg : bool then SFopp d else d
    | None => S754_nan
    end.

Fixpoint zeros (n : nat) : string := match n with O => "" | S n => String "0" (zeros n) end.

(** The digits of [n] with a point before the last [d] of them *)
Definition with_point (d : nat) (n : Z) : string :=
  let s := string_of_Z n in
  let s := zeros (S d - String.length s) +:+ s in
  String.substring 0 (String.length s - d) s +:+ "." +:+ String.substring (String.length s - d) d s.

(** The outcome of a request *)
Inductive answered (A : Type) := Refused (e : string) | Answered (status : Z) (data : A) | NoAnswer.
Arguments Refused {A}.
Arguments Answered {A}.
Arguments NoAnswer {A}.

Section Market.

(** [String(x)] of numbers from 10^21 on *)
Variable exponential : double -> string.

(** [x.toFixed(d)] for a positive [d]: the nearest multiple of 10^-d, of two the
    one farther from zero. *)
Definition toFixed (d : nat) (x : double) : string :=
  match x with
  | S754_nan => "NaN"
  | S754_infinity s => if s then "-Infinity" else "Infinity"
  | S754_zero _ => with_point d 0
  | S754_finite s m e =>
      let scaled := 2 * Z.pos m * 10 ^ Z.of_nat d in
      let n := if 0 <=? e then (scaled * 2 ^ e + 1) / 2 else (scaled + 2 ^ (- e)) / (2 * 2 ^ (- e)) in
      if 10 ^ 21 * 10 ^ Z.of_nat d <=? n then exponential x else (if s then "-" else "") +:+ with_point d n
  end.

(** ** Prices *)
Inductive rate := Text (s : string) | Number (d : double) | Missing.
Definition to_number (r : rate) : double :=
  match r with Text s => number_of_text s | Number d => d | Missing => S754_nan end.

Record price := Price {
  code : string;
  from_ : string;
  to_ : string;
  price_rate : rate;
  updateTimestamp : Z;
  sources : list string;
}.
Record ticker := Ticker { symbol : string; ticker_price : rate }.

(** What the sources answer after [n] requests. *)
Class Exchanges := {
  (** the tickers of [/ticker/price]; [None] when the body is not a list *)
  binance_tickers : nat -> answered (option (list ticker));
  (** [data.last] of [ccxt]'s [fetchTicker] *)
  bitrue_last : nat -> result rate;
  (** [response.data.rates] of a base currency *)
  exchange_rates : nat -> string -> answered (option (list (string * rate)));
  (** [fetchOHLCV(symbol, interval, since, limit)] of [ccxt] *)
  ohlcv : nat -> string -> string -> string -> val -> Z -> result (list (Z * list rate));
  market_clock : nat -> Z;
}.

(** ** config.js *)
Context `{Packages}.
Definition supportedFiatCurrencies : list string :=
  split_on "," (default "EUR,USD,CHF,GBP,RUB,PLN,JPY,AUD,GBP,INR" (env_text "SERVICE_MARKET_FIAT_CURRENCIES")).
Definition targetPairs : list string :=
  split_on "," (default "KLY_BTC,KLY_EUR,KLY_USD,KLY_CHF,KLY_PLN,KLY_JPY,KLY_AUD,KLY_GBP,KLY_INR,BTC_EUR,BTC_USD,BTC_CHF"
                  (env_text "SERVICE_MARKET_TARGET_PAIRS")).

(** ** utils/priceUpdater.js *)
Definition formatCalculatedRate (targetCurrency : string) (rate_ : double) : rate :=
  Text (if bool_decide (targetCurrency ∈ supportedFiatCurrencies) then toFixed 4 rate_ else toFixed 8 rate_).

(** ** market/priceUpdater.js *)

(** [list.sort((a, b) => a.sources.length - b.sources.length)], which is stable *)
Fixpoint insert_price (p : price) (l : list price) : list price :=
  match l with
  | [] => [p]
  | q :: r => if (length (sources p) <? length (sources q))%nat then p :: l else q :: insert_price p r
  end.
Definition sort_prices (l : list price) : list price := foldl (fun l p => insert_price p l) [] l.

(** The prices of all sources, with the source in front of the code; a source
    without prices is left out. *)
Definition flatten_sources (rawPricesBySource : list (string * option (list price))) : list price :=
  concat ((fun sp => match sp.2 with
                     | Some prices => (fun item => Price (sp.1 +:+ "_" +:+ code item) (from_ item) (to_ item) (price_rate item)
                                                     (updateTimestamp item) (sources item)) <$> prices
                     | None => []
                     end) <$> rawPricesBySource).

(** [const [a, b] = pair.split('_')]; a missing part is printed as a text. *)
Definition part (i : nat) (s : string) : string := default "undefined" (split_on "_" s !! i).

Definition source_of (p : price) : option string := head (sources p).

(** The prices that one price of a source adds to the target pair *)
Definition pair_prices (targetPair : string) (sourcePrices : list price) (rps : price) : list price :=
  let tpSource := part 0 targetPair in
  let tpTarget := part 1 targetPair in
  if ends_with ("_" +:+ targetPair) (code rps)
  then [Price targetPair (from_ rps) (to_ rps) (formatCalculatedRate tpTarget (to_number (price_rate rps))) (updateTimestamp rps) (sources rps)]
  else
    let intermediateTarget := part 2 (code rps) in
    let matching rpt := ends_with ("_" +:+ tpTarget) (code rpt) && str_includes ("_" +:+ intermediateTarget +:+ "_") (code rpt)
                        && negb (String.eqb (code rps) (code rpt)) && negb (bool_decide (source_of rps = source_of rpt)) in
    (fun rpt => Price targetPair tpSource tpTarget
                  (formatCalculatedRate tpTarget (f_mul (to_number (price_rate rps)) (to_number (price_rate rpt))))
                  (Z.min (updateTimestamp rps) (updateTimestamp rpt)) (sources rps ++ sources rpt))
    <$> filter (fun rpt => matching rpt = true) sourcePrices.

Definition target_prices (sourcePrices : list price) (targetPair : string) : list price :=
  foldl (fun l rps => sort_prices (l ++ pair_prices targetPair sourcePrices rps)) []
    (filter (fun p => str_includes ("_" +:+ part 0 targetPair +:+ "_") (code p) = true) sourcePrices).

(** The object of final prices; a pair that is named twice has one entry. *)
Definition calcTargetPairPrices (rawPricesBySource : list (string * option (list price))) (pair_ : string) : list price :=
  target_prices (flatten_sources rawPricesBySource) pair_.

(** ** The state: the caches, the requests made and whether the service is ready *)
Record market := mkMarket {
  binance_prices : gmap string price;
  bitrue_prices : option (list price);
  exchangeratesapi_prices : gmap string price;
  market_prices : gmap string (list price);
  requests : nat;
  isReady : bool;
}.
Abbreviation eff_market := (eff market).
Context `{Exchanges}.

Definition set_binance (m : gmap string price) : eff_market unit :=
  modify (fun s => mkMarket m (bitrue_prices s) (exchangeratesapi_prices s) (market_prices s) (requests s) (isReady s)).
Definition set_bitrue (l : list price) : eff_market unit :=
  modify (fun s => mkMarket (binance_prices s) (Some l) (exchangeratesapi_prices s) (market_prices s) (requests s) (isReady s)).
Definition set_exchange (m : gmap string price) : eff_market unit :=
  modify (fun s => mkMarket (binance_prices s) (bitrue_prices s) m (market_prices s) (requests s) (isReady s)).
Definition set_prices (m : gmap string (list price)) : eff_market unit :=
  modify (fun s => mkMarket (binance_prices s) (bitrue_prices s) (exchangeratesapi_prices s) m (requests s) (isReady s)).
(** The number of a request *)
Definition request_number : eff_market nat := fun s =>
  (Ok (requests s), mkMarket (binance_prices s) (bitrue_prices s) (exchangeratesapi_prices s) (market_prices s) (S (requests s)) (isReady s)).
Definition market_now : eff_market Z := gets (fun s => market_clock (requests s)).

(** ** sources/common.js *)
Definition validateEntries (entries : option (list price)) (allowRefreshAfter : Z) : eff_market bool :=
  now ← market_now;
  ret (match entries with
       | None => true
       | Some l => existsb (fun entry => updateTimestamp entry <=? (now - allowRefreshAfter) / 1000) l
       end).

(** ** sources/binance.js *)
Definition binance_symbolMap : list (string * string) :=
  [("BTC_EUR", "BTCEUR"); ("BTC_GBP", "BTCGBP"); ("BTC_RUB", "BTCRUB"); ("ETH_EUR", "ETHEUR"); ("ETH_RUB", "ETHRUB");
   ("ETH_GBP", "ETHGBP"); ("USDT_RUB", "USDTRUB"); ("EUR_USDT", "EURUSDT")].
Definition binance_allowRefreshAfter : Z := 60000.

Definition fetchAllMarketTickers : eff_market (option (list ticker)) :=
  n ← request_number;
  match binance_tickers n with
  | Answered status data =>
      if status =? 200 then ret data
      else throw (exception "ServiceUnavailableException" "Data from Binance is currently unavailable")
  | NoAnswer => throw (exception "ServiceUnavailableException" "Data from Binance is currently unavailable")
  | Refused e => throw e
  end.

Definition filterTickers (tickers : list ticker) : list ticker := filter (fun t => symbol t ∈ binance_symbolMap.*2) tickers.

(** A symbol without a ticker is read from [undefined]. *)
Definition standardizeTickers (now : Z) (tickers : list ticker) : result (list price) :=
  mapM_result (fun kv : string * string =>
    match filter (fun t => symbol t = kv.2) tickers with
    | currentTicker :: _ => Ok (Price kv.1 (part 0 kv.1) (part 1 kv.1) (ticker_price currentTicker) (now / 1000) ["binance"])
    | [] => Throw "Cannot read properties of undefined (reading 'price')"
    end) binance_symbolMap.

(** [null] unless every price is there *)
Definition binance_getFromCache : eff_market (option (list price)) :=
  m ← gets binance_prices;
  ret (mapM (fun itemCode => m !! ("binance_" +:+ itemCode)) binance_symbolMap.*1).

Definition store_prices (prefix : string) (l : list price) (m : gmap string price) : gmap string price :=
  foldl (fun m item => <[prefix +:+ code item := item]> m) m l.

Definition binance_reload : eff_market unit :=
  entries ← binance_getFromCache;
  stale ← validateEntries entries binance_allowRefreshAfter;
  if stale : bool then
    tickers ← fetchAllMarketTickers;
    match tickers with
    | Some tickers =>
        now ← market_now;
        transformedPrices ← lift (standardizeTickers now (filterTickers tickers));
        m ← gets binance_prices;
        set_binance (store_prices "binance_" transformedPrices m)
    | None => ret tt
    end
  else ret tt.

(** ** sources/bitrue.js *)
Definition bitrue_allowRefreshAfter : Z := 60000.
Definition bitrue_getFromCache : eff_market (option (list price)) := gets bitrue_prices.
Definition bitrue_reload : eff_market unit :=
  entries ← bitrue_getFromCache;
  stale ← validateEntries entries bitrue_allowRefreshAfter;
  if stale : bool then
    n ← request_number;
    last ← lift (bitrue_last n);
    now ← market_now;
    set_bitrue [Price "KLY_USD" "KLY" "USD" last (now / 1000) ["bitrue"]]
  else ret tt.

(** ** sources/exchangeratesapi.js *)
Definition baseCurrencies : list string := supportedFiatCurrencies ++ ["BTC"].
Definition exchange_allowRefreshAfter : Z := 28800000.
Definition accessKey : option string := env_text "EXCHANGERATESAPI_IO_API_KEY".

(** The keys of [symbolMap], each pair of currencies in their order; a key that
    comes again keeps its place. *)
Fixpoint currency_pairs (l : list string) : list string :=
  match l with [] => [] | base :: rest => ((fun target => base +:+ "_" +:+ target) <$> rest) ++ currency_pairs rest end.
Definition exchange_symbols : list string := foldl (fun seen k => if bool_decide (k ∈ seen) then seen else seen ++ [k]) [] (currency_pairs baseCurrencies).

(** [o[key] = v]: a key that is there keeps its place *)
Fixpoint assoc_set {A} (key : string) (v : A) (l : list (string * A)) : list (string * A) :=
  match l with
  | [] => [(key, v)]
  | (k, w) :: l => if String.eqb k key then (k, v) :: l else (k, w) :: assoc_set key v l
  end.

(** The rates by base currency, in the order of the answers; any error ends the
    collection and its value is taken for the rates. *)
Definition fetchAllCurrencyConversionRates : eff_market (list (string * option (list (string * rate)))) :=
  try_catch
    (foldl (fun acc baseCurrency =>
       rates ← acc;
       n ← request_number;
       match exchange_rates n baseCurrency with
       | Answered _ data => ret (assoc_set baseCurrency data rates)
       | NoAnswer => ret rates
       | Refused e => throw e
       end) (ret []) baseCurrencies)
    (fun _ => ret []).

(** Only the rates of the first base currency are taken. *)
Definition standardizeCurrencyConversionRates (now : Z) (rawConversionRates : list (string * option (list (string * rate)))) : list price :=
  match omap (fun r => (fun rates => (r.1, rates)) <$> r.2) rawConversionRates with
  | (baseCur, rates) :: _ =>
      (fun tr => let symbol := baseCur +:+ "_" +:+ tr.1 in
                 Price symbol (part 0 symbol) (part 1 symbol) tr.2 (now / 1000) ["exchangeratesapi"]) <$> rates
  | [] => []
  end.

Definition exchange_getFromCache : eff_market (list price) :=
  m ← gets exchangeratesapi_prices;
  ret (omap (fun itemCode => m !! ("exchangeratesapi_" +:+ itemCode)) exchange_symbols).

Definition exchange_reload : eff_market unit :=
  match accessKey with
  | None => ret tt
  | Some _ =>
      cached ← exchange_getFromCache;
      stale ← validateEntries (Some cached) exchange_allowRefreshAfter;
      if bool_decide (cached = []) || stale then
        currencyConversionRates ← fetchAllCurrencyConversionRates;
        now ← market_now;
        m ← gets exchangeratesapi_prices;
        set_exchange (store_prices "exchangeratesapi_" (standardizeCurrencyConversionRates now currencyConversionRates) m)
      else ret tt
  end.

(** [jobs/binance.js], [jobs/bitrue.js]: an unavailable source is only logged *)
Definition reloadMarketPrices (reload : eff_market unit) : eff_market unit :=
  try_catch reload (fun err => if instance_of "ServiceUnavailableException" err then ret tt else throw err).

(** ** market/priceUpdater.js: the job *)
Definition getRawPricesBySource : eff_market (list (string * option (list price))) :=
  binance ← binance_getFromCache; bitrue ← bitrue_getFromCache; exchangeratesapi ← exchange_getFromCache;
  ret [("binance", binance); ("bitrue", bitrue); ("exchangeratesapi", Some exchangeratesapi)].

Definition updatePricesCache (prices : string -> list price) : eff_market unit :=
  m ← gets market_prices;
  set_prices (foldl (fun m p => <[p := prices p]> m) m targetPairs).

Definition updatePrices : eff_market bool :=
  rawPricesBySource ← getRawPricesBySource;
  updatePricesCache (calcTargetPairPrices rawPricesBySource) ≫= fun _ => ret true.

(** ** market/market.js *)
Definition getMarketPricesFromCache : eff_market (list (string * list price)) :=
  m ← gets market_prices;
  ret (foldl (fun acc p => match m !! p with
                           | Some l => if bool_decide (p ∈ acc.*1) then acc else acc ++ [(p, l)]
                           | None => acc
                           end) [] targetPairs).

(** The first price of each pair, with the number of prices *)
Definition getMarketPrices : eff_market (list price * nat) :=
  pricesByPairs ← getMarketPricesFromCache;
  let data := omap (fun pl => head pl.2) pricesByPairs in
  match data with
  | [] => throw (exception "ServiceUnavailableException" "Service is not ready yet")
  | _ => ret (data, length data)
  end.

(** [market/status.js] and the controller of [prices] *)
Definition getStatus : eff_market bool :=
  ready ← gets isReady;
  if ready : bool then ret true
  else
    prices ← getMarketPrices;
    let ready := negb (Nat.eqb (length prices.1) 0) in
    modify (fun s => mkMarket (binance_prices s) (bitrue_prices s) (exchangeratesapi_prices s) (market_prices s) (requests s) ready) ≫= fun _ =>
    ret ready.

Definition ctl_getMarketPrices : eff_market (string + list price * nat) :=
  try_catch (prices ← getMarketPrices; ret (inr prices))
    (fun err => if instance_of "ServiceUnavailableException" err then ret (inl (err_message err)) else throw err).

(** ** candlestick *)
Record candle := Candle { start : Z; candle_values : list rate }.

Definition candles_of (exchange : string) (params : obj) : eff_market (list candle) :=
  symbol ← lift (as_text (prop params "symbol"));
  let symbol := if String.eqb (toLowerCase symbol) "klyusd" then "KLYUSDT" else symbol in
  n ← request_number;
  let since := match js_Number (prop params "start") with Num z => Num (z * 1000) | _ => NaN end in
  data ← lift (ohlcv n exchange symbol (js_String (prop params "interval")) since 720);
  ret ((fun t : Z * list rate => Candle (t.1 / 1000) t.2) <$> data).

(** The first exchange that answers; neither the end of the interval nor its
    errors are looked at. *)
Definition getCandleStick (params : obj) : eff_market (list candle) :=
  try_catch (candles_of "coinex" params)
    (fun _ => try_catch (candles_of "bitrue" params) (fun _ => throw "All market source not available at the moment")).
End Market.
