(* ===== verification/MarketSpec.v ===== *)
(** * What the market service answers

    The price of a pair is one that a source has of it directly, if any has,
    and otherwise one composed of the prices of two sources
    ([market_prices_served]). *)
From S2P Require Import Prelude JsValue FeeEstimator Database World Engine Table Gateway Http Service Market.
From Stdlib Require Import Ascii SpecFloat.
Local Open Scope Z_scope.

Section Spec.
Variable exponential : double -> string.
Context `{Packages} `{Exchanges}.

(** ** The order of prices *)
Definition key (p : price) : nat := length (sources p).
Definition keys_12 (l : list price) : Prop := Forall (fun p => key p = 1%nat \/ key p = 2%nat) l.
Abbreviation ones l := (filter (fun p => key p = 1%nat) l).
Abbreviation twos l := (filter (fun p => key p = 2%nat) l).

Lemma insert_one p a b : key p = 1%nat -> Forall (fun q => key q = 1%nat) a -> Forall (fun q => key q = 2%nat) b ->
  insert_price p (a ++ b) = a ++ p :: b.
Proof.
  intros Hp Ha Hb. induction Ha as [|q a Hq Ha IH]; cbn [app insert_price].
  - destruct Hb as [|q b Hq Hb]; [done|]. cbn [insert_price]. unfold key in *. by rewrite Hp, Hq.
  - unfold key in Hp, Hq. rewrite Hp, Hq. cbn. by rewrite IH.
Qed.

Lemma insert_two p l : key p = 2%nat -> keys_12 l -> insert_price p l = l ++ [p].
Proof.
  intros Hp Hl. induction Hl as [|q l Hq Hl IH]; [done|]. cbn [insert_price app]. rewrite IH.
  unfold key in *. rewrite Hp. by destruct Hq as [-> | ->].
Qed.

Lemma ones_all l : Forall (fun q => key q = 1%nat) (ones l).
Proof. apply Forall_forall. by intros q [? _]%list_elem_of_filter. Qed.
Lemma twos_all l : Forall (fun q => key q = 2%nat) (twos l).
Proof. apply Forall_forall. by intros q [? _]%list_elem_of_filter. Qed.

Lemma ordered_keys l : keys_12 (ones l ++ twos l).
Proof. apply Forall_app; split; (eapply Forall_impl; [first [apply ones_all|apply twos_all]|cbn; intros; lia]). Qed.

Lemma sort_ordered l : keys_12 l -> sort_prices l = ones l ++ twos l.
Proof.
  unfold sort_prices. induction l as [|p l IH] using rev_ind; [done|]. intros [Hl Hp]%Forall_app.
  rewrite foldl_app, IH by done. cbn [foldl]. rewrite !filter_app. apply Forall_singleton in Hp as [Hp|Hp].
  - rewrite insert_one; [|done|apply ones_all|apply twos_all].
    rewrite filter_cons_True, filter_nil, filter_cons_False, filter_nil, app_nil_r by (done || lia). by rewrite <- app_assoc.
  - rewrite insert_two; [|done|].
    + rewrite filter_cons_False, filter_nil, filter_cons_True, filter_nil, app_nil_r by (done || lia). by rewrite app_assoc.
    + apply ordered_keys.
Qed.

(** ** The prices of a target pair *)
Definition one_source (l : list price) : Prop := Forall (fun p => key p = 1%nat) l.

Definition is_direct (pair_ : string) (p : price) : bool := ends_with ("_" +:+ pair_) (code p).
Definition candidates (sp : list price) (pair_ : string) : list price :=
  filter (fun p => str_includes ("_" +:+ part 0 pair_ +:+ "_") (code p) = true) sp.

(** The prices that the sources have of the pair, in the order of the sources,
    and those composed of two. *)
Definition direct (sp : list price) (pair_ : string) : list price :=
  (fun p => Price pair_ (from_ p) (to_ p) (formatCalculatedRate exponential (part 1 pair_) (to_number (price_rate p))) (updateTimestamp p) (sources p))
  <$> filter (fun p => is_direct pair_ p = true) (candidates sp pair_).
Definition composed (sp : list price) (pair_ : string) : list price :=
  concat (pair_prices exponential pair_ sp <$> filter (fun p => is_direct pair_ p = false) (candidates sp pair_)).

Lemma pair_prices_direct pair_ sp p : is_direct pair_ p = true -> key p = 1%nat ->
  ones (pair_prices exponential pair_ sp p)
  = [Price pair_ (from_ p) (to_ p) (formatCalculatedRate exponential (part 1 pair_) (to_number (price_rate p))) (updateTimestamp p) (sources p)] /\
  twos (pair_prices exponential pair_ sp p) = [].
Proof.
  intros Hd Hk. unfold pair_prices. fold (is_direct pair_ p). rewrite Hd. unfold key in *.
  rewrite filter_cons_True, filter_nil by done. rewrite filter_cons_False, filter_nil; [done|]. cbn. lia.
Qed.

Lemma pair_prices_composed pair_ sp p : is_direct pair_ p = false -> key p = 1%nat -> one_source sp ->
  ones (pair_prices exponential pair_ sp p) = [] /\ twos (pair_prices exponential pair_ sp p) = pair_prices exponential pair_ sp p.
Proof.
  intros Hd Hk Hsp. assert (Forall (fun q => key q = 2%nat) (pair_prices exponential pair_ sp p)) as Htwo.
  { unfold pair_prices. fold (is_direct pair_ p). rewrite Hd. apply Forall_fmap, Forall_forall. intros q [_ Hq]%list_elem_of_filter.
    unfold one_source in Hsp. rewrite Forall_forall in Hsp. specialize (Hsp _ Hq). unfold key in *. cbn. rewrite length_app. lia. }
  induction Htwo as [|q l Hq Hl [IH1 IH2]]; [done|]. rewrite filter_cons_False, filter_cons_True, IH1, IH2 by (done || lia). done.
Qed.

Lemma pair_prices_keys pair_ sp p : key p = 1%nat -> one_source sp -> keys_12 (pair_prices exponential pair_ sp p).
Proof.
  intros Hk Hsp. apply Forall_forall. intros q Hq. destruct (is_direct pair_ p) eqn:Hd.
  - unfold pair_prices in Hq. fold (is_direct pair_ p) in Hq. rewrite Hd in Hq. apply list_elem_of_singleton in Hq as ->. by left.
  - right. destruct (pair_prices_composed pair_ sp p Hd Hk Hsp) as [_ E]. rewrite <- E in Hq. by apply list_elem_of_filter in Hq as [? _].
Qed.

Lemma candidates_one sp pair_ : one_source sp -> one_source (candidates sp pair_).
Proof.
  unfold one_source. rewrite !Forall_forall. intros Hsp p [_ Hp]%list_elem_of_filter. by apply Hsp.
Qed.

Lemma filter_id {A} (P : A -> Prop) `{forall x, Decision (P x)} l : Forall P l -> filter P l = l.
Proof. induction 1 as [|x l Hx _ IH]; [done|]. by rewrite filter_cons_True, IH. Qed.

Lemma filter_excluded {A} (P Q : A -> Prop) `{forall x, Decision (P x)} l : (forall x, Q x -> ~ P x) -> Forall Q l -> filter P l = [].
Proof. intros Hn. induction 1 as [|x l Hx _ IH]; [done|]. rewrite filter_cons_False; [done|by apply Hn]. Qed.

Lemma split_ordered l : ones (ones l ++ twos l) = ones l /\ twos (ones l ++ twos l) = twos l.
Proof.
  rewrite !filter_app, (filter_id (fun q => key q = 1%nat) (ones l) (ones_all l)), (filter_id (fun q => key q = 2%nat) (twos l) (twos_all l)).
  rewrite (filter_excluded (fun q => key q = 1%nat) (fun q => key q = 2%nat) (twos l)); [|by intros x ->|apply twos_all].
  rewrite (filter_excluded (fun q => key q = 2%nat) (fun q => key q = 1%nat) (ones l)); [|by intros x ->|apply ones_all]. by rewrite app_nil_r.
Qed.

(** Sorting after each price is sorting once. *)
Lemma target_prices_all sp pair_ : one_source sp ->
  let all := concat (pair_prices exponential pair_ sp <$> candidates sp pair_) in
  target_prices exponential sp pair_ = ones all ++ twos all.
Proof.
  intros Hsp. cbn. unfold target_prices. fold (candidates sp pair_).
  pose proof (candidates_one sp pair_ Hsp) as Hc.
  induction (candidates sp pair_) as [|p l IH] using rev_ind; [done|]. apply Forall_app in Hc as [Hl [Hp _]%Forall_cons].
  rewrite foldl_app, IH, fmap_app, concat_app by done. cbn [foldl]. set (all := concat _). cbn [fmap list_fmap concat]. rewrite app_nil_r.
  rewrite sort_ordered; [|apply Forall_app; split; [apply ordered_keys|apply pair_prices_keys; [exact Hp|exact Hsp]]].
  rewrite filter_app, (filter_app (fun q => key q = 2%nat)). destruct (split_ordered all) as [-> ->].
  by rewrite !filter_app.
Qed.

Lemma target_prices_split sp pair_ : one_source sp -> target_prices exponential sp pair_ = direct sp pair_ ++ composed sp pair_.
Proof.
  intros Hsp. rewrite target_prices_all by done. unfold direct, composed. assert (one_source (candidates sp pair_)) as Hc by (by apply candidates_one).
  f_equal; induction Hc as [|p l Hp Hl IH]; [done| |done|]; rewrite fmap_cons; cbn [concat]; rewrite filter_app, IH.
  - destruct (is_direct pair_ p) eqn:Hd.
    + rewrite filter_cons_True, fmap_cons by done. by destruct (pair_prices_direct pair_ sp p Hd Hp) as [-> _].
    + rewrite filter_cons_False by congruence. by destruct (pair_prices_composed pair_ sp p Hd Hp Hsp) as [-> _].
  - destruct (is_direct pair_ p) eqn:Hd.
    + rewrite filter_cons_False by congruence. by destruct (pair_prices_direct pair_ sp p Hd Hp) as [_ ->].
    + rewrite filter_cons_True, fmap_cons by done. by destruct (pair_prices_composed pair_ sp p Hd Hp Hsp) as [_ ->].
Qed.

(** ** The caches through the jobs *)
Abbreviation cached_one m := (map_Forall (fun _ p => key p = 1%nat) m).
Record single (s : market) : Prop := {
  single_binance : cached_one (binance_prices s);
  single_bitrue : forall l, bitrue_prices s = Some l -> one_source l;
  single_exchange : cached_one (exchangeratesapi_prices s);
}.

Definition keeps {A} (m : eff market A) : Prop := forall s, single s -> single (snd (m s)).

Lemma priced_ret {A} (a : A) : keeps (ret a).
Proof. by intros s. Qed.
Lemma priced_throw {A} e : keeps (throw (A := A) e).
Proof. by intros s. Qed.
Lemma keeps_gets {A} (f : market -> A) : keeps (gets f).
Proof. by intros s. Qed.
Lemma priced_bind {A B} (m : eff market A) (f : A -> eff market B) : keeps m -> (forall a, keeps (f a)) -> keeps (m ≫= f).
Proof.
  intros Hm Hf s Hs. unfold mbind, eff_bind. specialize (Hm s Hs). destruct (m s) as [[a|e] s']; cbn in *; [by apply Hf|done].
Qed.
Lemma priced_lift {A B} (r : result A) (f : A -> eff market B) : (forall a, r = Ok a -> keeps (f a)) -> keeps (lift r ≫= f).
Proof. intros Hf s Hs. unfold mbind, eff_bind, lift. destruct r as [a|e]; [exact (Hf a eq_refl s Hs)|done]. Qed.
Lemma keeps_catch {A} (m : eff market A) h : keeps m -> (forall e, keeps (h e)) -> keeps (try_catch m h).
Proof.
  intros Hm Hh s Hs. unfold try_catch. specialize (Hm s Hs). destruct (m s) as [[a|e] s']; cbn in *; [done|].
  destruct (String.eqb e never_returns); [done|]. by apply Hh.
Qed.
Lemma keeps_request : keeps request_number.
Proof. by intros s []. Qed.

Create HintDb keeps.
#[local] Hint Resolve priced_ret priced_throw keeps_gets keeps_request : keeps.

Lemma store_one prefix l m : one_source l -> cached_one m -> cached_one (store_prices prefix l m).
Proof.
  intros Hl. unfold store_prices. revert m. induction Hl as [|p l Hp Hl IH]; intros m Hm; [done|]. apply IH. by apply map_Forall_insert_2.
Qed.

Lemma standardized_one now tickers l : standardizeTickers now tickers = Ok l -> one_source l.
Proof.
  unfold standardizeTickers. generalize binance_symbolMap. intros m. revert l. induction m as [|kv m IH]; intros l; [intros [= <-]; constructor|].
  cbn [mapM_result]. destruct (filter _ _) as [|t ts]; [done|]. cbn [mbind result_bind].
  destruct (mapM_result _ m) as [l'|e]; [|done]. cbn. intros [= <-]. constructor; [done|by apply IH].
Qed.

Lemma rates_one now raw : one_source (standardizeCurrencyConversionRates now raw).
Proof.
  unfold standardizeCurrencyConversionRates. destruct (omap _ raw) as [|[b rates] l]; [constructor|].
  apply Forall_fmap, Forall_forall. done.
Qed.

Lemma binance_job_keeps : keeps (reloadMarketPrices binance_reload).
Proof.
  apply keeps_catch; [|intros e; destruct (instance_of _ e); auto with keeps]. unfold binance_reload, binance_getFromCache, validateEntries, market_now.
  repeat (apply priced_bind; [solve [auto with keeps | repeat (apply priced_bind; auto with keeps)]|intros ?]).
  match goal with |- keeps (if ?b then _ else _) => destruct b; [|auto with keeps] end.
  apply priced_bind.
  { unfold fetchAllMarketTickers. apply priced_bind; [auto with keeps|intros n]. destruct (binance_tickers n) as [e|st d|]; auto with keeps.
    destruct (st =? 200); auto with keeps. }
  intros [tickers|]; [|auto with keeps]. apply priced_bind; [auto with keeps|intros now].
  apply priced_lift. intros l Hl%standardized_one s [Hb Ht He]. split; [by apply store_one|done|done].
Qed.

Lemma bitrue_job_keeps : keeps (reloadMarketPrices bitrue_reload).
Proof.
  apply keeps_catch; [|intros e; destruct (instance_of _ e); auto with keeps]. unfold bitrue_reload, bitrue_getFromCache, validateEntries, market_now.
  repeat (apply priced_bind; [solve [auto with keeps | repeat (apply priced_bind; auto with keeps)]|intros ?]).
  match goal with |- keeps (if ?b then _ else _) => destruct b; [|auto with keeps] end.
  apply priced_bind; [auto with keeps|intros n]. apply priced_lift. intros last _. apply priced_bind; [auto with keeps|intros now].
  intros s [Hb Ht He]. split; [done| |done]. intros l [= <-]. by constructor.
Qed.

Lemma exchange_job_keeps : keeps exchange_reload.
Proof.
  unfold exchange_reload, exchange_getFromCache, validateEntries, market_now. destruct accessKey as [k|]; [|auto with keeps].
  repeat (apply priced_bind; [solve [auto with keeps | repeat (apply priced_bind; auto with keeps)]|intros ?]).
  match goal with |- keeps (if ?b then _ else _) => destruct b; [|auto with keeps] end.
  apply priced_bind.
  { apply keeps_catch; [|auto with keeps]. generalize baseCurrencies. intros l. induction l as [|c l IH] using rev_ind; [apply priced_ret|].
    rewrite foldl_app. cbn [foldl]. apply priced_bind; [exact IH|]. intros rates. apply priced_bind; [auto with keeps|intros n].
    destruct (exchange_rates n c); auto with keeps. }
  intros rates. apply priced_bind; [auto with keeps|intros now]. intros s [Hb Ht He]. split; [done|done|]. apply store_one; [apply rates_one|done].
Qed.

Lemma prices_job_keeps : keeps (updatePrices exponential).
Proof. intros s []. by split. Qed.

(** The jobs of the service, and entries of the caches that expire. *)
Inductive job := BinanceJob | BitrueJob | ExchangeJob | PricesJob | Expiry (binance exchange prices : gset string) (bitrue : bool).

Definition expire (b e p : gset string) (t : bool) (s : market) : market :=
  mkMarket (filter (fun kv => kv.1 ∉ b) (binance_prices s)) (if t then None else bitrue_prices s)
    (filter (fun kv => kv.1 ∉ e) (exchangeratesapi_prices s)) (filter (fun kv => kv.1 ∉ p) (market_prices s)) (requests s) (isReady s).

Definition run_job (s : market) (j : job) : market :=
  match j with
  | BinanceJob => snd (reloadMarketPrices binance_reload s)
  | BitrueJob => snd (reloadMarketPrices bitrue_reload s)
  | ExchangeJob => snd (exchange_reload s)
  | PricesJob => snd (updatePrices exponential s)
  | Expiry b e p t => expire b e p t s
  end.
Definition empty_market : market := mkMarket ∅ None ∅ ∅ 0 false.

Lemma filter_one (ks : gset string) (m : gmap string price) : cached_one m -> cached_one (filter (fun kv => kv.1 ∉ ks) m).
Proof. intros Hm k p [Hk _]%map_lookup_filter_Some. exact (Hm _ _ Hk). Qed.

Lemma job_keeps s j : single s -> single (run_job s j).
Proof.
  intros Hs. destruct j as [| | | |b e p t]; cbn [run_job].
  - by apply binance_job_keeps.
  - by apply bitrue_job_keeps.
  - by apply exchange_job_keeps.
  - by apply prices_job_keeps.
  - destruct Hs as [Hb Ht He]. split; cbn; [by apply filter_one| |by apply filter_one].
    destruct t; [done|exact Ht].
Qed.

Lemma jobs_keep js : single (foldl run_job empty_market js).
Proof.
  induction js as [|j js IH] using rev_ind; [split; cbn; [apply map_Forall_empty|done|apply map_Forall_empty]|].
  rewrite foldl_app. by apply job_keeps.
Qed.

(** The prices the job works with *)
Definition raw_prices (s : market) : list price :=
  flatten_sources [("binance", mapM (fun c => binance_prices s !! ("binance_" +:+ c)) binance_symbolMap.*1); ("bitrue", bitrue_prices s);
                   ("exchangeratesapi", Some (omap (fun c => exchangeratesapi_prices s !! ("exchangeratesapi_" +:+ c)) exchange_symbols))].

Lemma flatten_one l : Forall (fun sp => match sp.2 with Some ps => one_source ps | None => True end) l -> one_source (flatten_sources l).
Proof.
  intros Hl. unfold flatten_sources, one_source. apply Forall_concat, Forall_fmap. eapply Forall_impl; [exact Hl|].
  intros [src [ps|]] Hps; cbn in *; [|constructor]. apply Forall_fmap. eapply Forall_impl; [exact Hps|]. done.
Qed.

Lemma raw_prices_one s : single s -> one_source (raw_prices s).
Proof.
  intros [Hb Ht He]. apply flatten_one.
  apply Forall_cons; split; [|apply Forall_cons; split; [|apply Forall_cons; split; [|constructor]]]; cbn [snd].
  - match goal with |- match ?o with _ => _ end => destruct o as [l|] eqn:E; [|done] end. apply mapM_Some in E. unfold one_source. apply Forall_forall. intros p Hp.
    apply list_elem_of_lookup in Hp as [i Hi]. destruct (Forall2_lookup_r _ _ _ _ _ E Hi) as (c & _ & Hc). exact (Hb _ _ Hc).
  - destruct (bitrue_prices s) as [l|] eqn:E; [by apply Ht|done].
  - unfold one_source. apply Forall_forall. intros p Hp. apply list_elem_of_omap in Hp as (c & _ & Hc). exact (He _ _ Hc).
Qed.

(** ** What is served *)
Lemma stored_prices (f : string -> list price) l (m : gmap string (list price)) p : p ∈ l -> foldl (fun m p => <[p := f p]> m) m l !! p = Some (f p).
Proof.
  induction l as [|q l IH] using rev_ind; [set_solver|]. intros Hp. rewrite foldl_app. cbn [foldl].
  destruct (decide (q = p)) as [->|Hne]; [by rewrite lookup_insert_eq|]. rewrite lookup_insert_ne by done. apply IH. set_solver.
Qed.

Lemma collected (m : gmap string (list price)) (f : string -> list price) l : NoDup l -> (forall p, p ∈ l -> m !! p = Some (f p)) ->
  foldl (fun acc p => match m !! p with
                      | Some x => if bool_decide (p ∈ acc.*1) then acc else acc ++ [(p, x)]
                      | None => acc
                      end) [] l = (fun p => (p, f p)) <$> l.
Proof.
  induction l as [|q l IH] using rev_ind; [done|]. intros (Hl & Hd & _)%NoDup_app Hm. rewrite foldl_app, IH by (done || set_solver).
  cbn [foldl]. rewrite (Hm q) by set_solver. rewrite bool_decide_eq_false_2; [by rewrite fmap_app|].
  rewrite <- list_fmap_compose. intros (x & -> & Hx)%list_elem_of_fmap. apply (Hd x Hx). cbn. set_solver.
Qed.

Lemma heads (f g : string -> list price) (l : list string) : (forall p, f p = g p) ->
  omap (fun pl : string * list price => head pl.2) ((fun p => (p, f p)) <$> l) = omap (fun p => head (g p)) l.
Proof.
  intros Hfg. induction l as [|p l IH]; [done|]. rewrite fmap_cons. cbn [omap list_omap snd]. rewrite Hfg, <- IH. done.
Qed.

Definition served (s : market) : list price := omap (fun p => head (direct (raw_prices s) p ++ composed (raw_prices s) p)) targetPairs.

(** [C38] Whatever jobs ran and whatever expired before, after the prices were
    updated the service answers for every target pair with the first price that
    a source has of it, or, if none has, with the first one composed of the
    prices of two sources; a pair with neither is left out, and without any
    price the service says that it is not ready. *)
Theorem market_prices_served js : NoDup targetPairs ->
  let s := foldl run_job empty_market js in
  exists s', updatePrices exponential s = (Ok true, s') /\
    getMarketPrices s'
    = (match served s with
       | [] => Throw (exception "ServiceUnavailableException" "Service is not ready yet")
       | l => Ok (l, length l)
       end, s').
Proof.
  intros Hd s. pose proof (raw_prices_one s (jobs_keep js)) as Hone. eexists. split; [reflexivity|].
  unfold getMarketPrices, getMarketPricesFromCache, mbind, eff_bind, gets, ret. cbn [fst snd market_prices set_prices modify].
  rewrite (collected _ (calcTargetPairPrices exponential _) targetPairs Hd (stored_prices _ _ _)).
  rewrite (heads _ (fun p => direct (raw_prices s) p ++ composed (raw_prices s) p)).
  - fold (served s). by destruct (served s).
  - intros p. by apply target_prices_split.
Qed.
End Spec.

(** ** Samples *)
Definition no_exponent (_ : double) : string := "".
#[local] Existing Instance sample_packages.

(** Numbers are doubles: 1.005 is a little less than it looks. *)
Example rounded_rates :
  toFixed no_exponent 2 (number_of_text "1.005") = "1.00" /\ toFixed no_exponent 4 (number_of_text "0.05") = "0.0500" /\
  toFixed no_exponent 8 (f_mul (number_of_text "0.05") (number_of_text "1.6e-5")) = "0.00000080" /\
  toFixed no_exponent 4 (number_of_text "-63512.34567") = "-63512.3457" /\ toFixed no_exponent 4 (number_of_text "n/a") = "NaN".
Proof. vm_compute. by split_and!. Qed.

(** A market where [bitrue] has KLY in dollars and [binance] euros in USDT. *)
#[local] Instance sample_exchanges : Exchanges := {|
  binance_tickers _ := Answered 200 (Some ((fun kv : string * string => Ticker kv.2 (Text "1.25")) <$> binance_symbolMap));
  bitrue_last _ := Ok (Text "0.05");
  exchange_rates _ _ := NoAnswer;
  ohlcv _ _ _ _ _ _ := Throw "not used";
  market_clock _ := 5000000;
|}.

Definition sample_jobs : list job := [BinanceJob; BitrueJob; ExchangeJob; PricesJob].

Lemma market_prices_served_witness :
  let s := foldl (run_job no_exponent) empty_market sample_jobs in
  NoDup targetPairs /\
  exists s', updatePrices no_exponent s = (Ok true, s') /\
    (code <$> served no_exponent s) = ["KLY_USD"; "BTC_EUR"] /\
    getMarketPrices s' = (Ok (served no_exponent s, 2%nat), s').
Proof.
  assert (NoDup targetPairs) as Hd by (apply (bool_decide_unpack (NoDup targetPairs)); vm_compute; exact I).
  split; [exact Hd|]. destruct (market_prices_served no_exponent sample_jobs Hd) as (s' & Hu & Hg).
  exists s'. split; [exact Hu|]. split; [vm_compute; reflexivity|]. rewrite Hg.
  assert (length (served no_exponent (foldl (run_job no_exponent) empty_market sample_jobs)) = 2%nat) as Hl by (vm_compute; reflexivity).
  destruct (served _ _) as [|p l]; [discriminate Hl|]. change (length (p :: l) = 2%nat) in Hl. cbn zeta. rewrite Hl. reflexivity.
Defined.

(** A price in USDT does not count as one in dollars, so that there is no price
    of KLY in euros although [binance] has euros in USDT. *)
Example no_price_through_usdt :
  composed no_exponent (raw_prices (foldl (run_job no_exponent) empty_market sample_jobs)) "KLY_EUR" = [].
Proof. vm_compute. reflexivity. Qed.
