(* ===== verification/DexQueryText.v ===== *)
(** * The texts of the DEX queries

    The statements that [dataService/dex/methods], [priceSparkLine.js] and
    [dataService/tokenFactory] send to MySQL as text, with what they put into
    them as parameters. *)
From S2P Require Import Prelude JsValue.

(** [value ? `${text}${value}` : '']: a condition on an optional number *)
Definition bound (text : string) (value : val) : string :=
  if truthy value then text +:+ js_String value else "".

Definition tokens_search (searchTerm : string) : string :=
  "WHERE
					v.tokenName LIKE '%" +:+
  searchTerm +:+
  "%' OR
					v.tokenId LIKE '%" +:+
  searchTerm +:+
  "%' OR
					v.symbol LIKE '%" +:+
  searchTerm +:+
  "%'".

Definition tokens_compact_query (searchCondition limitQuery offsetQuery : string) : string :=
  "
				SELECT *
				FROM (
					SELECT 
						COALESCE(tm.tokenID, tf.tokenID) AS tokenId,
						COALESCE(rdt.symbol, tf.symbol) AS symbol,
						COALESCE(tm.tokenName, tf.tokenName) AS tokenName,
						COALESCE(rdt.logo, tf.logoSvg) AS logo,
						COALESCE(rdt.decimal, tf.decimal) AS `decimal`
					FROM registered_dex_token AS rdt
					LEFT JOIN token_metadata AS tm ON rdt.tokenId = tm.tokenID
					LEFT JOIN token_factory AS tf ON rdt.tokenId = tf.tokenID
				) AS v
				" +:+
  searchCondition +:+
  "
				" +:+
  limitQuery +:+
  " " +:+
  offsetQuery +:+
  ";
				".

Definition tokens_full_search (searchTerm : string) : string :=
  "WHERE 
					v.tokenName LIKE '%" +:+
  searchTerm +:+
  "%' 
					OR v.tokenId LIKE '%" +:+
  searchTerm +:+
  "%' 
					OR v.symbol LIKE '%" +:+
  searchTerm +:+
  "%'".

Definition tokens_query (klyTokenId current current_or_1 window_or_1 changeWindow : string) (start end_ : val)
  (searchCondition sortBy sortOrder limitQuery offsetQuery : string) : string :=
  "
			SELECT 
				*
			FROM 
				(
					SELECT 
						ROW_NUMBER() OVER (ORDER BY totalTvlUSD DESC) AS rank,
						tokenId,
						symbol,
						tokenName,
						logo,
						`decimal`,
						COALESCE(volume, 0) AS volume,
						COALESCE(volumeUSD, 0) AS volumeUSD,
						COALESCE(feeGrowth, 0) AS feeGrowth,
						COALESCE(feeGrowthUSD, 0) AS feeGrowthUSD,
						COALESCE(swapCount, 0) AS swapCount,
						poolCount,
						totalTvl,
						totalTvlUSD,
						price,
						priceUSD,
						priceChange,
						priceChangeUSD
					FROM (
						SELECT 
							rdt.tokenId, 
							COALESCE(rdt.symbol, tf.symbol) AS symbol, 
							COALESCE(tm.tokenName, tf.tokenName) AS tokenName, 
							COALESCE(rdt.logo, tf.logoSvg) AS logo, 
							COALESCE(rdt.decimal, tf.decimal) AS `decimal`, 
							vol.volume AS volume, 
							vol.volume * pr.priceUSD AS volumeUSD, 
							vol.feeGrowth AS feeGrowth, 
							vol.feeGrowth * pr.priceUSD AS feeGrowthUSD, 
							vol.swapCount AS swapCount, 
							COUNT(pool.poolAddress) AS poolCount, 
							COALESCE(vl.amount, 0) AS totalTvl, 
							COALESCE(vl.amount * pr.priceUSD, 0) AS totalTvlUSD, 
							COALESCE(CASE WHEN rdt.tokenId = '" +:+
  klyTokenId +:+
  "' THEN 1 ELSE lp.current END, 0) AS price, 
							pr.priceUSD AS priceUSD, 
							COALESCE((lp.current - lp." +:+
  changeWindow +:+
  ") / lp." +:+
  changeWindow +:+
  " * 100, 0) AS priceChange, 
							CASE WHEN rdt.tokenId = '" +:+
  klyTokenId +:+
  "' THEN COALESCE((lp.current - lp." +:+
  changeWindow +:+
  ") / lp." +:+
  changeWindow +:+
  " * 100, 0) ELSE COALESCE(((lp.current * " +:+
  current_or_1 +:+
  ") - (lp." +:+
  changeWindow +:+
  " * " +:+
  window_or_1 +:+
  ")) / (lp." +:+
  changeWindow +:+
  " * " +:+
  window_or_1 +:+
  ") * 100, 0) END AS priceChangeUSD 
						FROM 
							registered_dex_token rdt 
							LEFT JOIN (
								SELECT
									t.tokenId,
									COALESCE((CASE WHEN t.tokenId = '" +:+
  klyTokenId +:+
  "' THEN 1 ELSE lp.current END) * " +:+
  current +:+
  ", 0) AS priceUSD
								FROM
									registered_dex_token t
									LEFT JOIN last_price lp ON t.tokenId = lp.tokenId
							) AS pr ON rdt.tokenId = pr.tokenId
							LEFT JOIN (
								SELECT 
									t.tokenId, 
									v.height, 
									v.index, 
									COUNT(DISTINCT CONCAT(v.height, '_', v.index)) AS swapCount, 
									SUM(CASE WHEN p.token0 = t.tokenId THEN ABS(v.amount0) ELSE ABS(v.amount1) END) / POWER(10, t.decimal) AS volume, 
									SUM(CASE WHEN p.token0 = t.tokenId THEN v.feeGrowth0 ELSE v.feeGrowth1 END) / POWER(10, t.decimal) AS feeGrowth
								FROM 
									registered_dex_token t 
									JOIN pool p ON p.inverted = false 
									AND (t.tokenId = p.token0 OR t.tokenId = p.token1) 
									LEFT JOIN volume v ON p.poolAddress = v.poolAddress 
								WHERE 
									1 = 1 " +:+
  bound "AND v.time >= " start +:+
  " " +:+
  bound "AND v.time <= " end_ +:+
  "
								GROUP BY 
									t.tokenId
							) AS vol ON rdt.tokenId = vol.tokenId 
							LEFT JOIN token_metadata AS tm ON rdt.tokenId = tm.tokenID 
							LEFT JOIN token_factory AS tf ON rdt.tokenId = tf.tokenID 
							LEFT JOIN (
								SELECT 
									tvl.tokenId, 
									SUM(amount) / POWER(10, t.decimal) as amount 
								FROM 
									tvl 
								LEFT JOIN registered_dex_token t ON t.tokenId = tvl.tokenId
								GROUP BY 
									tokenId
								) AS vl ON vl.tokenId = rdt.tokenId 
							LEFT JOIN last_price lp ON rdt.tokenId = lp.tokenId 
							LEFT JOIN pool ON pool.token0 = rdt.tokenId 
						GROUP BY 
							rdt.tokenId
					) vv
				) v 
			" +:+
  searchCondition +:+
  "
			ORDER BY 
				" +:+
  sortBy +:+
  " " +:+
  sortOrder +:+
  " 
			" +:+
  limitQuery +:+
  " " +:+
  offsetQuery +:+
  ";".

Definition pools_search (searchTerm : string) : string :=
  "AND (
					pool.poolAddress LIKE '%" +:+
  searchTerm +:+
  "%'
					OR pool.token0 LIKE '%" +:+
  searchTerm +:+
  "%'
					OR pool.token1 LIKE '%" +:+
  searchTerm +:+
  "%'
					OR pool.fee LIKE '%" +:+
  searchTerm +:+
  "%'
				)".

Definition pools_query (klyTokenId current : string) (start end_ : val)
  (searchCondition sortBy sortOrder limitQuery offsetQuery : string) : string :=
  "
			WITH token_volume AS (
					SELECT
						t.tokenId,
						t.symbol,
						t.decimal,
						t.logo,
						v.height,
						v.index,
						COUNT(DISTINCT CONCAT(v.height, '_', v.index)) AS swapCount,
						SUM(CASE WHEN p.token0 = t.tokenId THEN ABS(v.amount0) ELSE ABS(v.amount1) END) / POWER(10, t.decimal) AS volume,
						SUM(CASE WHEN p.token0 = t.tokenId THEN v.feeGrowth0 ELSE v.feeGrowth1 END) / POWER(10, t.decimal) AS feeGrowth,
						(CASE WHEN t.tokenId = '" +:+
  klyTokenId +:+
  "' THEN 1 ELSE lp.current END) AS price,
						COALESCE((CASE WHEN t.tokenId = '" +:+
  klyTokenId +:+
  "' THEN 1 ELSE lp.current END) * " +:+
  current +:+
  ", 0) AS priceUSD
					FROM
						registered_dex_token t
						JOIN pool p ON p.inverted = false
						AND (t.tokenId = p.token0 OR t.tokenId = p.token1)
						LEFT JOIN volume v ON p.poolAddress = v.poolAddress
						LEFT JOIN last_price lp ON t.tokenId = lp.tokenId
					WHERE
						1 = 1 " +:+
  bound "AND v.time >= " start +:+
  " " +:+
  bound "AND v.time <= " end_ +:+
  "
					GROUP BY
						t.tokenId
				),
				token_tvl AS (
					SELECT
						tvl.tokenId,
						SUM(amount) / POWER(10, t.decimal) as amount
					FROM tvl
					LEFT JOIN registered_dex_token t ON t.tokenId = tvl.tokenId
					GROUP BY tokenId
				)
			SELECT
				pool.poolAddress,
				token0,
				vol0.decimal AS token0Decimal,
				vol0.symbol AS token0Symbol,
				vol0.logo AS token0Logo,
				token1,
				vol1.decimal AS token1Decimal,
				vol1.symbol AS token1Symbol,
				vol1.logo AS token1Logo,
				fee,
				liquidity,
				pool.price,
				tick,
				vol0.feeGrowth AS feeGrowth0,
				vol0.feeGrowth * vol0.priceUSD AS feeGrowth0USD,
				vol1.feeGrowth AS feeGrowth1,
				vol1.feeGrowth * vol1.priceUSD AS feeGrowth1USD,
				vol0.price AS token0Price,
				vol0.price * vol0.priceUSD AS token0PriceUSD,
				vol1.price AS token1Price,
				vol1.price * vol0.priceUSD AS token1PriceUSD,
				vol0.volume AS volumeToken0,
				vol0.volume * vol0.priceUSD AS volumeToken0USD,
				vol1.volume AS volumeToken1,
				vol1.volume * vol1.priceUSD AS volumeToken1USD,
				COUNT(DISTINCT CONCAT(v.height, '_', v.index)) AS swapCount,
				tvl0.amount AS totalTvlToken0,
				tvl0.amount * vol0.priceUSD AS totalTvlToken0USD,
				tvl1.amount AS totalTvlToken1,
				tvl1.amount * vol1.priceUSD AS totalTvlToken1USD,
				pos.positionCount
			FROM pool
				LEFT JOIN token_volume AS vol0 ON pool.token0 = vol0.tokenId
				LEFT JOIN token_volume AS vol1 ON pool.token1 = vol1.tokenId
				LEFT JOIN volume AS v ON v.poolAddress = pool.poolAddress
				LEFT JOIN token_tvl AS tvl0 ON pool.token0 = tvl0.tokenId
				LEFT JOIN token_tvl AS tvl1 ON pool.token1 = tvl1.tokenId
				LEFT JOIN (
					SELECT
						collectionId,
						COUNT(collectionId) AS positionCount
					FROM position
					GROUP BY
						collectionId
				) AS pos ON pool.collectionId = pos.collectionId
			WHERE
				inverted = false
				" +:+
  searchCondition +:+
  "
			GROUP BY pool.poolAddress
			ORDER BY " +:+
  sortBy +:+
  " " +:+
  sortOrder +:+
  "
			" +:+
  limitQuery +:+
  " " +:+
  offsetQuery +:+
  ";".

Definition ticks_query (poolAddress : string) : string :=
  "
		SELECT 
			t.tick,
			t.liquidityNet 
		FROM 
			tick AS t
		WHERE 
			t.poolAddress = '" +:+
  poolAddress +:+
  "' 
		ORDER BY 
			t.tick ASC".

Definition positions_search (searchTerm : string) : string :=
  "WHERE
					pool.poolAddress LIKE '%" +:+
  searchTerm +:+
  "%' OR
					pos.tokenId LIKE '%" +:+
  searchTerm +:+
  "%' OR
					pos.owner LIKE '%" +:+
  searchTerm +:+
  "%'".

Definition positions_query (searchCondition sortBy sortOrder limitQuery offsetQuery : string) : string :=
  "
        SELECT 
            pool.poolAddress,
			pool.tick AS poolTick,
			pool.fee,
			t0.tokenId AS token0,
			t0.symbol AS token0Symbol,
			t0.logo AS token0Logo,
			t0.decimal AS token0Decimal,
			t1.tokenId AS token1,
			t1.symbol AS token1Symbol,
			t1.logo AS token1Logo,
			t1.decimal AS token1Decimal,
            pos.tokenId,
            pos.owner,
            pos.collectionId,
            pos.tickLower,
            pos.tickUpper,
            pos.liquidity,
			pos.tokenURI,
			CASE WHEN pos.liquidity = 0 THEN 0 WHEN pos.tickLower < pool.tick AND pool.tick < pos.tickUpper THEN 2 ELSE 1 END AS status
        FROM position pos
            LEFT JOIN pool ON pool.inverted = false AND pool.collectionId = pos.collectionId
			LEFT JOIN registered_dex_token t0 ON t0.tokenId = pool.token0
			LEFT JOIN registered_dex_token t1 ON t1.tokenId = pool.token1
        " +:+
  searchCondition +:+
  "
		ORDER BY " +:+
  sortBy +:+
  " " +:+
  sortOrder +:+
  "
        " +:+
  limitQuery +:+
  " " +:+
  offsetQuery +:+
  ";".

Definition position_pool_query (tokenId : string) : string :=
  "
        SELECT 
            pool.poolAddress
        FROM position pos
            LEFT JOIN pool ON pool.inverted = false AND pool.collectionId = pos.collectionId
        WHERE
            pos.tokenId = '" +:+
  tokenId +:+
  "'
        LIMIT 1;".

Definition position_metadata_query (tokenId : string) : string :=
  "
        SELECT 
			COALESCE(pos.name, '') AS name,
            COALESCE(pos.description, '') AS description,
            COALESCE(pos.image, '') AS image
        FROM position pos
		WHERE pos.tokenId = '" +:+
  tokenId +:+
  "'
		LIMIT 1;".

Definition tick_price_query (includeConversion : bool) (pair joinQuery : string) (interval start end_ limit offset : val) : string :=
  "
            SELECT *
            FROM (
                SELECT
                    base.time,
                    base.value * " +:+
  (if includeConversion then "quote.value" else "1") +:+
  " AS value
                FROM
                    tick_" +:+
  pair +:+
  " AS base
                    " +:+
  joinQuery +:+
  "
                WHERE
					1 = 1
                    " +:+
  (if truthy interval then "AND MOD(base.time, " +:+ js_String interval +:+ ") = 0" else "") +:+
  "
					" +:+
  bound "AND base.time >= " start +:+
  " 
					" +:+
  bound "AND base.time <= " end_ +:+
  " 
                ORDER BY
                    base.time DESC
				" +:+
  bound "LIMIT " limit +:+
  "
				" +:+
  bound "OFFSET " offset +:+
  "
                ) AS latest_entries
            ORDER BY time ASC;
    ".

Definition ohlc_query (includeConversion : bool) (tableName timeframe : string) (start end_ limit offset : val) : string :=
  "
    SELECT *
	FROM (
		SELECT 
			ohlc1.time, 
			ohlc1.open * " +:+
  (if includeConversion then "ohlc2.open" else "1") +:+
  " AS open,
			ohlc1.high * " +:+
  (if includeConversion then "ohlc2.high" else "1") +:+
  " AS high,
			ohlc1.low * " +:+
  (if includeConversion then "ohlc2.low" else "1") +:+
  " AS low,
			ohlc1.close * " +:+
  (if includeConversion then "ohlc2.close" else "1") +:+
  " AS close
		FROM 
			" +:+
  tableName +:+
  " AS ohlc1 
			" +:+
  (if includeConversion then "JOIN ohlc_klyusd_" +:+ timeframe +:+ " AS ohlc2 ON ohlc1.time = ohlc2.time" else "") +:+
  " 
		WHERE 1 = 1 
			" +:+
  bound "AND ohlc1.time >= " start +:+
  " 
			" +:+
  bound "AND ohlc1.time <= " end_ +:+
  " 
		ORDER BY time DESC 
		" +:+
  bound "LIMIT " limit +:+
  "
		" +:+
  bound "OFFSET " offset +:+
  "
	) AS ohlc
	ORDER BY time ASC;".

Definition base_token_query (symbol : string) : string :=
  "SELECT tokenId FROM registered_dex_token t WHERE tokenId LIKE '%" +:+
  symbol +:+
  "%' OR symbol LIKE '%" +:+
  symbol +:+
  "%' LIMIT 1".

Definition statistics_query (klyTokenId current_or_0 : string) (start end_ : val) : string :=
  "
        SELECT
            COALESCE(SUM(vol.volume * vol.priceUSD), 0) AS totalVolumeUSD,
            COALESCE(SUM(vol.feeGrowth * vol.priceUSD), 0) AS totalFeeGrowthUSD,
            COALESCE(SUM(vol.swapCount), 0) AS swapCount,
            COALESCE((SELECT COUNT(DISTINCT poolAddress) FROM pool WHERE 1 = 1 " +:+
  bound "AND created >= " start +:+
  " " +:+
  bound "AND created <= " end_ +:+
  "), 0) AS totalPoolCount,
            COALESCE(SUM(vl.amount * vol.priceUSD), 0) AS totalTvlUSD
        FROM
            registered_dex_token rdt
        LEFT JOIN (
            SELECT
                t.tokenId,
                p.poolAddress,
                COUNT(DISTINCT CONCAT(v.height, '_', v.index)) AS swapCount,
                SUM(CASE WHEN p.token0 = t.tokenId THEN ABS(v.amount0) ELSE ABS(v.amount1) END) / POWER(10, t.decimal) AS volume,
                SUM(CASE WHEN p.token0 = t.tokenId THEN v.feeGrowth0 ELSE v.feeGrowth1 END) / POWER(10, t.decimal) AS feeGrowth,
                COALESCE((CASE WHEN t.tokenId = '" +:+
  klyTokenId +:+
  "' THEN 1 ELSE lp.current END) * " +:+
  current_or_0 +:+
  ", 0) AS priceUSD
            FROM
                registered_dex_token t
                JOIN pool p ON p.inverted = false
                AND (t.tokenId = p.token0 OR t.tokenId = p.token1)
                LEFT JOIN volume v ON p.poolAddress = v.poolAddress
                LEFT JOIN last_price lp ON t.tokenId = lp.tokenId
            WHERE
                1 = 1 " +:+
  bound "AND v.time >= " start +:+
  " " +:+
  bound "AND v.time <= " end_ +:+
  "
            GROUP BY
                tokenId
        ) AS vol ON rdt.tokenId = vol.tokenId
        LEFT JOIN (
            SELECT
                tvl.tokenId,
                poolAddress,
                SUM(amount) / POWER(10, t.decimal) as amount
            FROM tvl
            LEFT JOIN registered_dex_token t ON t.tokenId = tvl.tokenId
            WHERE
                1 = 1 " +:+
  bound "AND time >= " start +:+
  " " +:+
  bound "AND time <= " end_ +:+
  "
            GROUP BY
                tokenId
        ) AS vl ON rdt.tokenId = vl.tokenId;".

Definition sparkline_query (includeConversion : bool) (pair joinQuery limitQuery : string) (interval start end_ : val) : string :=
  "
            SELECT *
            FROM (
                SELECT
                    base.time,
                    base.value * " +:+
  (if includeConversion then "quote.value" else "1") +:+
  " AS value
                FROM
                    tick_" +:+
  pair +:+
  " AS base
                    " +:+
  joinQuery +:+
  "
                WHERE
                    MOD(base.time, " +:+
  js_String interval +:+
  ") = 0
					" +:+
  bound "AND base.time >= " start +:+
  " 
					" +:+
  bound "AND base.time <= " end_ +:+
  "
                ORDER BY
                    base.time DESC
                " +:+
  limitQuery +:+
  "
                ) AS latest_entries
            ORDER BY time ASC;
    ".

Definition factory_statistics_query (current_or_0 : string) : string :=
  "
		SELECT
			COALESCE(COUNT(tf.tokenID), 0) AS tokenCreated,
			COALESCE(SUM(tf.supply * lp.current), 0) AS totalMarketCap,
			COALESCE(SUM(tf.supply * lp.current * " +:+
  current_or_0 +:+
  "), 0) AS totalMarketCapUSD
		FROM
			token_factory AS tf
		JOIN
			last_price AS lp ON tf.tokenID = lp.tokenId;
	".

Definition factories_query (current_or_0 searchQuery limitClause offsetClause : string) : string :=
  "
		SELECT
			tf.tokenID,
			tf.owner,
			tf.supply,
			lp.current AS price,
			lp.current * " +:+
  current_or_0 +:+
  " AS priceUSD,
			(tf.supply * lp.current) / POWER(10, tf.decimal) AS marketCap,
			(tf.supply * lp.current * " +:+
  current_or_0 +:+
  ") / POWER(10, tf.decimal) AS marketCapUSD
		FROM
			token_factory AS tf
		JOIN
			last_price AS lp ON tf.tokenID = lp.tokenId
		WHERE
			1 = 1 " +:+
  searchQuery +:+
  "
		" +:+
  limitClause +:+
  "
		" +:+
  offsetClause +:+
  ";
	".
