(* ===== verification/DexQuery.v ===== *)
(** * DEX queries of the data service

    [dataService/dex/methods], [klyPrices.js], the statistics of
    [dataService/tokenFactory] and their controllers.  A query is sent to MySQL
    as a text ([DexQueryText]); what MySQL answers to a text is the class
    [RawSql]. *)
From S2P Require Import Prelude JsValue Database Json Engine Search Table World Schemas KvStore Chain PoolAddress.
From S2P Require Import FeeEstimator Stake Processors Dex Gateway DataQuery Route TransactionQuery Validators Http Export Service.
From S2P Require Import BlockQuery AccountQuery Controllers DexQueryText.
From Stdlib Require Import Ascii QArith.
Local Open Scope Z_scope.

(** The answer to a statement over a database. *)
Class RawSql (St : Type) := raw_sql : string -> St -> result val.

(** [result] of a query without a transaction is already the list of rows. *)
Definition parseQueryResult (result : val) : val :=
  match result with Arr [Arr rows; Arr _] => Arr rows | v => v end.

(** [s.trim()] on ASCII text *)
Definition is_space (c : ascii) : bool :=
  let n := N_of_ascii c in ((9 <=? n)%N && (n <=? 13)%N) || (n =? 32)%N.
Fixpoint trim_start (s : string) : string :=
  match s with String c r => if is_space c then trim_start r else s | EmptyString => s end.
Definition js_trim (s : string) : string := rev_string (trim_start (rev_string (trim_start s))).

(** [limit === -1 ? '' : `LIMIT ${limit || 10}`] and the same for the offset *)
Definition offset_of (params : obj) : val := js_or (prop params "offset") (Num 0).
Definition limit_query (params : obj) : string :=
  if bool_decide (prop params "limit" = Num (-1)) then "" else "LIMIT " +:+ js_String (js_or (prop params "limit") (Num 10)).
Definition offset_query (params : obj) : string :=
  if bool_decide (prop params "limit" = Num (-1)) then "" else "OFFSET " +:+ js_String (offset_of params).

Definition search_term (params : obj) : result string :=
  if truthy (prop params "search") then s ← as_text (prop params "search"); Ok (js_trim s) else Ok "".
Definition search_condition (condition : string -> string) (searchTerm : string) : string :=
  if String.eqb searchTerm "" then "" else condition searchTerm.

Definition sort_order (params : obj) : string := if bool_decide (prop params "sortOrder" = Str "asc") then "ASC" else "DESC".

(** [params.sortBy && allowed.includes(params.sortBy)] *)
Definition allowed_sort (allowed : list string) (params : obj) : option string :=
  match prop params "sortBy" with
  | Str s => if bool_decide (s <> "" /\ s ∈ allowed) then Some s else None
  | _ => None
  end.

Definition token_columns : list string :=
  ["tokenId"; "symbol"; "tokenName"; "decimal"; "volume"; "volumeUSD"; "feeGrowth"; "feeGrowthUSD"; "txCount"; "poolCount";
   "totalTvl"; "totalTvlUSD"; "price"; "priceUSD"; "priceChange"; "priceChangeUSD"].
Definition tokens_sort (params : obj) : string :=
  match allowed_sort token_columns params with Some s => "v." +:+ s | None => "v.totalTvlUSD" end.

Definition pool_columns : list string :=
  ["poolAddress"; "token0"; "token1"; "fee"; "liquidity"; "price"; "feeGrowth0"; "feeGrowth0USD"; "feeGrowth1"; "feeGrowth1USD";
   "token0Price"; "token0PriceUSD"; "token1Price"; "token1PriceUSD"; "tick"; "volumeToken0"; "volumeToken0USD"; "volumeToken1";
   "volumeToken1USD"; "swapCount"; "totalTvlToken0"; "totalTvlToken0USD"; "totalTvlToken1"; "totalTvlToken1USD"; "positionCount"].
Definition pools_sort (params : obj) : string :=
  match allowed_sort pool_columns params with
  | Some s => if bool_decide (s ∈ ["poolAddress"; "price"]) then "pool." +:+ s else s
  | None => "pool.poolAddress"
  end.

Definition position_columns : list string :=
  ["poolAddress"; "token0"; "token1"; "tokenId"; "owner"; "collectionId"; "tickLower"; "priceLower"; "tickUpper"; "priceUpper";
   "liquidity"; "status"].
Definition positions_sort (params : obj) : string :=
  match allowed_sort position_columns params with
  | Some s => if bool_decide (s ∈ ["poolAddress"; "token0"; "token1"]) then "pool." +:+ s
              else if bool_decide (s ∈ ["status"]) then "status" else "pos." +:+ s
  | None => "status"
  end.

(** [v[0]] and [v.length] *)
Definition index_0 (v : val) : result val :=
  match v with
  | Arr l => Ok (hd Undef l)
  | Str (String c _) => Ok (Str (String c ""))
  | v => get v "0"
  end.
Definition js_length (v : val) : result val :=
  match v with
  | Arr l => Ok (Num (Z.of_nat (length l)))
  | Str s => Ok (Num (Z.of_nat (String.length s)))
  | v => get v "length"
  end.

(** A response; [total] is kept apart since that of the pools is half a count. *)
Record answer := mkAnswer { a_data : val; a_meta : obj; a_total : option Q }.

Section Queries.
Context {St : Type} `{SqlEngine St} `{NodeApi} `{Crypto} `{Rpc} `{Packages} `{RawSql St}.
Abbreviation eff_service := (eff (service (St := St))).

Definition rawQuery (query : string) : eff_service val :=
  result ← on_world (read Auto (raw_sql query)); ret (parseQueryResult result).

Definition count_rows (t : table) : eff_service Z := on_world (read Auto (count t [] Undef)).

(** ** klyPrices.js *)
Definition requestMarket (method : string) (params : obj) : eff_service val := requestRpc "market" method params.

Definition lastPriceInterval : string := default "5m" (env_text "DEX_LAST_PRICE_UPDATE_INTERVAL").

Definition KLYUSD_columns : val :=
  Arr [Str "tokenId"; Str "updatedOn"; Str "current"; Str "1h"; Str "24h"; Str "7d"; Str "30d"; Str "1y"].

(** The lifetime is the time that has passed in the interval; Redis refuses 0
    and anything that is not a number. *)
Definition getKLYUSDLastPrice : eff_service val :=
  klyTokenId ← getKLYTokenID;
  cache ← cache_get "redis" "klyusd_last_price";
  if truthy cache then text ← lift (as_text cache); lift (json_parse text)
  else
    lastPrice ← on_world (read Auto (find lastPriceTableSchema [("tokenId", klyTokenId); ("limit", Num 1)] KLYUSD_columns));
    let first := match lastPrice with r :: _ => Object r | [] => Undef end in
    text ← lift (json_stringify first);
    now ← gets (fun s => clock (length (sv_calls s)));
    match intervalToSecond lastPriceInterval with
    | Some ttl =>
        if (ttl =? 0) || ((now / 1000) mod ttl =? 0) then throw "ERR invalid expire time in 'set' command"
        else cache_set "redis" "klyusd_last_price" (Str (default "" text)) ≫= fun _ => ret first
    | None => throw "ERR value is not an integer or out of range"
    end.

Definition candlestick (interval : string) (start end_ : val) : eff_service val :=
  requestMarket "candlestick" [("symbol", Str "KLYUSDT"); ("interval", Str interval); ("start", start); ("end", end_)].
Definition getKLYUSDPriceAtTimestamp (timestamp : val) : eff_service val :=
  market ← candlestick "1m" timestamp timestamp;
  first ← lift (index_0 market);
  if truthy first then lift (get first "open") else ret Undef.
Definition getKLYUSDCandles (start end_ : val) (interval : string) : eff_service val := candlestick interval start end_.

(** ** methods/getDEXTokens.js, getPools.js, getPoolTicks.js *)

(** [`${value || d}`] *)
Definition text_or (value : val) (d : Z) : string := js_String (js_or value (Num d)).

Definition getDEXTokens_query (params : obj) : eff_service string :=
  searchTerm ← lift (search_term params);
  if bool_decide (prop params "compact" = Bool true)
  then ret (tokens_compact_query (search_condition tokens_search searchTerm) (limit_query params) (offset_query params))
  else
    klyusdprice ← getKLYUSDLastPrice;
    klyTokenId ← getKLYTokenID;
    let changeWindow := js_String (js_or (prop params "changeWindow") (Str "24h")) in
    current ← lift (get klyusdprice "current");
    window ← lift (get klyusdprice changeWindow);
    ret (tokens_query (js_String klyTokenId) (js_String current) (text_or current 1) (text_or window 1) changeWindow
           (prop params "start") (prop params "end") (search_condition tokens_full_search searchTerm)
           (tokens_sort params) (sort_order params) (limit_query params) (offset_query params)).

(** The rows with their number, the offset and the total *)
Definition rows_answer (rows : val) (offset : val) (total : Q) : eff_service answer :=
  count ← lift (js_length rows);
  ret (mkAnswer rows [("count", count); ("offset", offset)] (Some total)).

Definition getDEXTokens (params : obj) : eff_service answer :=
  query ← getDEXTokens_query params;
  tokens ← rawQuery query;
  total ← count_rows registeredDexTokenTableSchema;
  rows_answer tokens (offset_of params) (inject_Z total).

Definition getPools_query (params : obj) : eff_service string :=
  klyusdprice ← getKLYUSDLastPrice;
  klyTokenId ← getKLYTokenID;
  searchTerm ← lift (search_term params);
  current ← lift (get klyusdprice "current");
  ret (pools_query (js_String klyTokenId) (js_String current) (prop params "start") (prop params "end")
         (search_condition pools_search searchTerm) (pools_sort params) (sort_order params) (limit_query params) (offset_query params)).

Definition getPools (params : obj) : eff_service answer :=
  query ← getPools_query params;
  pools ← rawQuery query;
  total ← count_rows poolTableSchema;
  rows_answer pools (offset_of params) (Qmake total 2).

Definition getPoolTicks (params : obj) : eff_service answer :=
  ticks ← rawQuery (ticks_query (js_String (prop params "poolAddress")));
  ret (mkAnswer ticks [] None).

(** ** methods/position.js *)
Definition getPositions_query (params : obj) : result string :=
  searchTerm ← search_term params;
  Ok (positions_query (search_condition positions_search searchTerm) (positions_sort params) (sort_order params)
        (limit_query params) (offset_query params)).

Definition getPositions (params : obj) : eff_service answer :=
  query ← lift (getPositions_query params);
  positions ← rawQuery query;
  total ← count_rows positionTableSchema;
  rows_answer positions (offset_of params) (inject_Z total).

Definition getPositionValue (params : obj) : eff_service answer :=
  tokenId ← lift (as_text (prop params "tokenId"));
  nft ← lift (decodeNFTId tokenId);
  rows ← rawQuery (position_pool_query tokenId);
  position ← lift (index_0 rows);
  poolAddress ← lift (get position "poolAddress");
  value ← invokeEndpoint [("endpoint", Str "dex_getPosition");
    ("params", Object [("poolAddress", poolAddress); ("tokenId", Str (string_of_Z (PoolAddress.index nft)))])];
  ret (mkAnswer (prop value "data") [] None).

Definition getPositionMetadata (params : obj) : eff_service answer :=
  metadata ← rawQuery (position_metadata_query (js_String (prop params "tokenId")));
  first ← lift (index_0 metadata);
  ret (mkAnswer first [] None).

(** ** methods/price.js *)

(** [includeConversion] and [pair] *)
Definition price_pair (base quote : string) : bool * string :=
  let base := toLowerCase base in
  let quote := toLowerCase quote in
  let includeConversion := negb (String.eqb base "kly") && String.eqb quote "usd" in
  (includeConversion, base +:+ if includeConversion then "kly" else quote).

Definition join_query (includeConversion : bool) : string :=
  if includeConversion then "LEFT JOIN tick_klyusd AS quote ON base.time = quote.time" else "".

Definition getTickPrice (params : obj) : eff_service answer :=
  base ← lift (as_text (prop params "base")); quote ← lift (as_text (prop params "quote"));
  let '(includeConversion, pair_) := price_pair base quote in
  let offset := offset_of params in
  ticks ← rawQuery (tick_price_query includeConversion pair_ (join_query includeConversion) (prop params "interval")
    (prop params "start") (prop params "end") (js_or (prop params "limit") (Num 100)) offset);
  total ← count_rows (getTickPriceTableSchema pair_);
  rows_answer ticks offset (inject_Z total).

Definition getOhlcPrice (params : obj) : eff_service answer :=
  base ← lift (as_text (prop params "base")); quote ← lift (as_text (prop params "quote"));
  let '(includeConversion, pair_) := price_pair base quote in
  let timeframe := js_String (prop params "timeframe") in
  match intervalToSecond timeframe with
  | None => throw "invalid timeframe"
  | Some _ =>
      let offset := offset_of params in
      let t := getOhlcTableSchema pair_ timeframe in
      ohlc ← rawQuery (ohlc_query includeConversion (tableName t) timeframe
        (prop params "start") (prop params "end") (js_or (prop params "limit") (Num 100)) offset);
      total ← count_rows t;
      rows_answer ohlc offset (inject_Z total)
  end.

(** ** methods/statistics.js and the statistics of the token factory *)
Definition first_row (query : string) : eff_service answer :=
  rows ← rawQuery query; first ← lift (index_0 rows); ret (mkAnswer first [] None).

Definition getDEXStatisticSummary (params : obj) : eff_service answer :=
  klyusdprice ← getKLYUSDLastPrice;
  klyTokenId ← getKLYTokenID;
  current ← lift (get klyusdprice "current");
  first_row (statistics_query (js_String klyTokenId) (text_or current 0) (prop params "start") (prop params "end")).

Definition getFactoryStatistics : eff_service answer :=
  klyusdprice ← getKLYUSDLastPrice;
  current ← lift (get klyusdprice "current");
  first_row (factory_statistics_query (text_or current 0)).

Definition clause (word : string) (value : val) : string :=
  match value with Undef => "" | v => word +:+ js_String v end.

Definition getTokenFactories (params : obj) : eff_service answer :=
  klyusdprice ← getKLYUSDLastPrice;
  tokenIdsString ← lift (if truthy (prop params "tokenIds")
                         then ids ← as_text (prop params "tokenIds"); Ok (join "," ((fun id => "'" +:+ id +:+ "'") <$> split_on "," ids))
                         else Ok "");
  let searchQuery := if String.eqb tokenIdsString "" then "" else "AND tf.tokenID IN (" +:+ tokenIdsString +:+ ")" in
  current ← lift (get klyusdprice "current");
  factories ← rawQuery (factories_query (text_or current 0) searchQuery (clause "LIMIT " (prop params "limit"))
    (clause "OFFSET " (prop params "offset")));
  total ← count_rows tokenFactoryTableSchema;
  rows_answer factories (prop params "offset") (inject_Z total).

(** ** methods/quote.js *)
Section Quotes.
Context `{DecimalArith}.
Variable MAX_RECURSION : val.
Variable getKLYUSDPrice : result double.

(** The first token whose id or symbol contains the text *)
Definition token_like (symbol : val) : eff_service val :=
  rows ← rawQuery (base_token_query (js_String symbol)); lift (index_0 rows).

(** [getRoute(from, to, maxRecursion = 5, limit = 1, minLiquidity = 1)] *)
Definition if_undefined (v d : val) : val := match v with Undef => d | v => v end.
Definition route_between (from to maxRecursion limit : val) : eff_service (list route) :=
  match from, to with
  | Str from, Str to => on_world (getRoute from to (if_undefined maxRecursion (Num 5)) (if_undefined limit (Num 1)) (Num 1) Auto)
  | Str from, _ => throw (if (String.length from =? 16)%nat then "invalid to" else "invalid from")
  | _, _ => throw "invalid from"
  end.

(** The path of the request, or that of the route between two tokens *)
Definition swap_path (params : obj) : eff_service val :=
  if truthy (prop params "base") && truthy (prop params "quote") then
    baseToken ← token_like (prop params "base");
    quoteToken ← token_like (prop params "quote");
    if truthy baseToken && truthy quoteToken then
      from ← lift (get baseToken "tokenId"); to ← lift (get quoteToken "tokenId");
      route ← route_between from to (js_or (prop params "recursion") (Num 5)) (Num 1);
      match route with r :: _ => ret (Str (path r)) | [] => ret (prop params "path") end
    else ret (prop params "path")
  else ret (prop params "path").

Definition quoteSwapMethod (params : obj) : eff_service answer :=
  path ← swap_path params;
  if negb (truthy path) then throw "path not available"
  else
    quoted ← (if truthy (prop params "amountIn") then
                quote ← invokeEndpoint [("endpoint", Str "dex_quoteExactInput");
                  ("params", Object [("path", path); ("amountIn", prop params "amountIn")])];
                amount ← lift (get (prop quote "data") "amountOut"); ret (Object quote, amount)
              else if truthy (prop params "amountOut") then
                quote ← invokeEndpoint [("endpoint", Str "dex_quoteExactOutput");
                  ("params", Object [("path", path); ("amountOut", prop params "amountOut")])];
                amount ← lift (get (prop quote "data") "amountIn"); ret (Object quote, amount)
              else ret (Undef, Str ""));
    let '(quote, amount) := (quoted : val * val) in
    data ← lift (get quote "data");
    sqrtPriceX96AfterList ← lift (get data "sqrtPriceX96AfterList");
    initializedTicksCrossedList ← lift (get data "initializedTicksCrossedList");
    ret (mkAnswer (Object [("amount", amount); ("sqrtPriceX96AfterList", sqrtPriceX96AfterList);
      ("initializedTicksCrossedList", initializedTicksCrossedList); ("path", path)]) [] None).

(** [{ data: { price } }] *)
Definition quotePriceMethod (params : obj) : eff_service double :=
  base ← lift (as_text (prop params "baseTokenId")); quote ← lift (as_text (prop params "quoteTokenId"));
  on_world (getPrice MAX_RECURSION getKLYUSDPrice base quote Auto).

Definition getRouteMethod (params : obj) : eff_service (list route) :=
  route_between (prop params "tokenIn") (prop params "tokenOut") (prop params "recursion") (prop params "limit").
End Quotes.

(** ** priceSparkLine.js: the checks, the query and the values of the line *)
Definition is_type (type : string) (v : val) : bool := String.eqb (typeof v) type.
Definition sparkline_data (params : obj) : eff_service val :=
  let interval := prop params "interval" in let limit := prop params "limit" in
  let start := prop params "start" in let end_ := prop params "end" in
  match prop params "base", prop params "quote" with
  | Str base, Str quote =>
      if negb (is_type "number" interval) then throw "invalid interval"
      else if negb (is_type "number" limit) then throw "invalid limit"
      else if negb (is_type "undefined" start) && negb (is_type "number" start) then throw "invalid start"
      else if negb (is_type "undefined" end_) && negb (is_type "number" end_) then throw "invalid end"
      else
        let '(includeConversion, pair_) := price_pair base quote in
        let limitQuery := if bool_decide (limit = Num (-1)) then "" else "LIMIT " +:+ js_String limit in
        prices ← rawQuery (sparkline_query includeConversion pair_ (join_query includeConversion) limitQuery interval start end_);
        prices ← lift (elements prices);
        values ← lift (mapM_result (fun t => get t "value") prices);
        ret (Arr values)
  | Str _, _ => throw "invalid quote"
  | _, _ => throw "invalid base"
  end.

(** ** controllers/dex.js and controllers/tokenFactory.js *)

(** [if (response.data) res.data = response.data]; [meta] is always an object *)
Definition passed_answer (m : eff_service answer) : eff_service answer :=
  response ← m; ret (mkAnswer (js_or (a_data response) (Object [])) (a_meta response) (a_total response)).

Definition ctl_getDEXTokens (params : obj) : eff_service answer := passed_answer (getDEXTokens (spread params [("compact", Bool false)])).
Definition ctl_getDEXTokensCompact (params : obj) : eff_service answer := passed_answer (getDEXTokens (spread params [("compact", Bool true)])).
Definition ctl_getPools (params : obj) : eff_service answer := passed_answer (getPools params).
Definition ctl_getPoolTicks (params : obj) : eff_service answer := passed_answer (getPoolTicks params).
Definition ctl_getPositions (params : obj) : eff_service answer := passed_answer (getPositions params).
Definition ctl_getPositionValue (params : obj) : eff_service answer := passed_answer (getPositionValue params).
Definition ctl_getPositionMetadata (params : obj) : eff_service answer := passed_answer (getPositionMetadata params).
Definition ctl_getTickPrice (params : obj) : eff_service answer := passed_answer (getTickPrice params).
Definition ctl_getOhlcPrice (params : obj) : eff_service answer := passed_answer (getOhlcPrice params).
Definition ctl_getDEXStatisticSummary (params : obj) : eff_service answer := passed_answer (getDEXStatisticSummary params).
Definition ctl_quoteSwap `{DecimalArith} (params : obj) : eff_service answer := passed_answer (quoteSwapMethod params).
Definition ctl_getRoute `{DecimalArith} (params : obj) : eff_service (list route) := getRouteMethod params.
Definition ctl_getFactoryStatistics : eff_service answer := passed_answer getFactoryStatistics.
Definition ctl_getTokenFactories (params : obj) : eff_service answer := passed_answer (getTokenFactories params).
End Queries.
