(* ===== verification/DexQuerySpec.v ===== *)
(** * Searches of the DEX queries

    The search of a client is written into the text of a statement.  As long as
    it has neither a quote nor a backslash it only changes what is between
    quotes ([dex_search_confined]); with a quote it changes the statement
    ([search_changes_statement]). *)
From S2P Require Import Prelude JsValue Database Json Engine Search Table World Schemas KvStore Chain PoolAddress.
From S2P Require Import FeeEstimator Stake Processors Dex Gateway DataQuery Route TransactionQuery Validators Http Export Service.
From S2P Require Import BlockQuery AccountQuery Controllers DexQueryText DexQuery.
From Stdlib Require Import Ascii DecimalString.
Local Open Scope Z_scope.
Set Warnings "-register-all".

(** ** Statements without the contents of their literals *)
Inductive lexer := Plain | Quoted | Escaped.

(** What MySQL reads: a quote opens and closes a literal, in which a backslash
    escapes the next character.  The contents of literals are dropped. *)
Fixpoint skeleton (l : lexer) (s : string) : string * lexer :=
  match s with
  | EmptyString => ("", l)
  | String c r =>
      let kept l := let '(o, l) := skeleton l r in (String c o, l) in
      match l with
      | Plain => kept (if Ascii.eqb c "'" then Quoted else Plain)
      | Quoted => if Ascii.eqb c "'" then kept Plain else if Ascii.eqb c "\" then skeleton Escaped r else skeleton Quoted r
      | Escaped => skeleton Quoted r
      end
  end.

Definition tidy (s : string) : bool := all_chars (fun c => negb (Ascii.eqb c "'") && negb (Ascii.eqb c "\")) s.

Lemma skeleton_app l a b :
  skeleton l (a +:+ b) = let '(o, l) := skeleton l a in let '(o', l) := skeleton l b in (o +:+ o', l).
Proof.
  revert l. induction a as [|c a IH]; intros l.
  - change ("" +:+ b) with b. cbn [skeleton]. by destruct (skeleton l b).
  - change (String c a +:+ b) with (String c (a +:+ b)). destruct l; cbn [skeleton].
    + rewrite IH. destruct (skeleton _ a) as [o l]. by destruct (skeleton l b).
    + destruct (Ascii.eqb c "'"); [rewrite IH; destruct (skeleton _ a) as [o l]; by destruct (skeleton l b)|].
      destruct (Ascii.eqb c "\"); apply IH.
    + apply IH.
Qed.

Lemma tidy_cons c s : tidy (String c s) = true -> Ascii.eqb c "'" = false /\ Ascii.eqb c "\" = false /\ tidy s = true.
Proof. unfold tidy. cbn [all_chars]. intros [[?%negb_true_iff ?%negb_true_iff]%andb_prop ?]%andb_prop. done. Qed.

Lemma skeleton_plain s : tidy s = true -> skeleton Plain s = (s, Plain).
Proof. induction s as [|c s IH]; [done|]. intros (H1 & _ & Hs)%tidy_cons. cbn [skeleton]. by rewrite H1, IH. Qed.

Lemma skeleton_quoted s : tidy s = true -> skeleton Quoted s = ("", Quoted).
Proof. induction s as [|c s IH]; [done|]. intros (H1 & H2 & Hs)%tidy_cons. cbn [skeleton]. by rewrite H1, H2, IH. Qed.

Lemma tidy_app a b : tidy (a +:+ b) = tidy a && tidy b.
Proof. unfold tidy. induction a as [|c a IH]; [done|].
  change (String c a +:+ b) with (String c (a +:+ b)). cbn [all_chars]. by rewrite IH, andb_assoc. Qed.

(** ** Tidy parameters *)
Lemma tidy_uint d : tidy (NilEmpty.string_of_uint d) = true.
Proof. by induction d. Qed.

Lemma tidy_number z : tidy (string_of_Z z) = true.
Proof.
  unfold string_of_Z. destruct (Z.to_int z) as [d|d]; cbn [NilZero.string_of_int].
  - destruct d; [done|apply (tidy_uint _)..].
  - change (tidy ("-" +:+ NilZero.string_of_uint d) = true). rewrite tidy_app. destruct d; [done|apply (tidy_uint _)..].
Qed.

Definition optional_number (v : val) : Prop := v = Undef \/ exists z, v = Num z.

Lemma tidy_val v : optional_number v -> tidy (js_String v) = true.
Proof. intros [->|[z ->]]; [done|apply tidy_number]. Qed.

Lemma tidy_bound text v : tidy text = true -> optional_number v -> tidy (bound text v) = true.
Proof. intros Ht Hv. unfold bound. destruct (truthy v); [|done]. by rewrite tidy_app, Ht, tidy_val. Qed.

(** The columns to sort by are texts of the code, whatever the request says. *)
Lemma allowed_tidy cols params s : forallb tidy cols = true -> allowed_sort cols params = Some s -> tidy s = true.
Proof.
  intros Hc. unfold allowed_sort. destruct (prop params "sortBy") as [| | | | | |t| |]; try done.
  case_bool_decide as Ht; [|done]. intros [= <-]. rewrite forallb_forall in Hc. apply Hc, list_elem_of_In, Ht.
Qed.

Lemma tokens_sort_tidy params : tidy (tokens_sort params) = true.
Proof.
  unfold tokens_sort. destruct (allowed_sort _ params) as [s|] eqn:E; [|done].
  rewrite tidy_app. by rewrite (allowed_tidy token_columns params s eq_refl E).
Qed.

Lemma pools_sort_tidy params : tidy (pools_sort params) = true.
Proof.
  unfold pools_sort. destruct (allowed_sort _ params) as [s|] eqn:E; [|done].
  destruct (bool_decide _); rewrite ?tidy_app; by rewrite (allowed_tidy pool_columns params s eq_refl E).
Qed.

Lemma positions_sort_tidy params : tidy (positions_sort params) = true.
Proof.
  unfold positions_sort. destruct (allowed_sort _ params) as [s|] eqn:E; [|done].
  destruct (bool_decide _); [|destruct (bool_decide _); [done|]]; rewrite tidy_app; by rewrite (allowed_tidy position_columns params s eq_refl E).
Qed.

Lemma sort_order_tidy params : tidy (sort_order params) = true.
Proof. unfold sort_order. by destruct (bool_decide _). Qed.

Lemma or_number v d : optional_number v -> optional_number (js_or v (Num d)).
Proof. intros Hv. unfold js_or. destruct (truthy v); [done|]. right. by exists d. Qed.

Lemma limit_tidy params : optional_number (prop params "limit") -> tidy (limit_query params) = true.
Proof.
  intros Hl. unfold limit_query. destruct (bool_decide _); [done|]. rewrite tidy_app. by rewrite tidy_val by by apply or_number.
Qed.

Lemma offset_tidy params : optional_number (prop params "offset") -> tidy (offset_query params) = true.
Proof.
  intros Hl. unfold offset_query. destruct (bool_decide _); [done|]. rewrite tidy_app. by rewrite tidy_val by by apply or_number.
Qed.

Lemma tidy_list s : tidy s = forallb (fun c => negb (Ascii.eqb c "'") && negb (Ascii.eqb c "\")) (String.list_ascii_of_string s).
Proof. unfold tidy. induction s as [|c s IH]; [done|]. cbn [all_chars String.list_ascii_of_string forallb]. by rewrite IH. Qed.

Lemma tidy_rev s : tidy s = true -> tidy (rev_string s) = true.
Proof.
  rewrite !tidy_list. unfold rev_string. rewrite String.list_ascii_of_string_of_list_ascii, !forallb_forall.
  intros Hs c Hc. by apply Hs, list_elem_of_In, elem_of_reverse, list_elem_of_In.
Qed.

Lemma tidy_trim_start s : tidy s = true -> tidy (trim_start s) = true.
Proof. induction s as [|c s IH]; [done|]. intros Hs. cbn [trim_start]. destruct (is_space c); [|done]. by apply IH; apply tidy_cons in Hs as (_ & _ & ?). Qed.

Lemma tidy_trim s : tidy s = true -> tidy (js_trim s) = true.
Proof. intros Hs. unfold js_trim. by apply tidy_rev, tidy_trim_start, tidy_rev, tidy_trim_start. Qed.

(** ** The queries *)

Definition reads (l : lexer) (s o : string) (l' : lexer) : Prop := skeleton l s = (o, l').

Lemma reads_app l l1 l2 a b o o' : reads l a o l1 -> reads l1 b o' l2 -> reads l (a +:+ b) (o +:+ o') l2.
Proof. unfold reads. rewrite skeleton_app. by intros -> ->. Qed.

Lemma reads_plain s : tidy s = true -> reads Plain s s Plain.
Proof. apply skeleton_plain. Qed.

Lemma reads_quoted s : tidy s = true -> reads Quoted s "" Quoted.
Proof. apply skeleton_quoted. Qed.

(** Reads a statement from left to right. *)
Ltac read_statement :=
  lazymatch goal with
  | |- reads _ (_ +:+ _) _ _ => eapply reads_app; [read_statement|read_statement]
  | |- reads _ (String _ _) _ _ => vm_compute; reflexivity
  | |- reads Plain _ _ _ => apply reads_plain; auto with tidy
  | |- reads Quoted _ _ _ => apply reads_quoted; auto with tidy
  end.

Create HintDb tidy.
#[export] Hint Resolve tokens_sort_tidy pools_sort_tidy positions_sort_tidy sort_order_tidy limit_tidy offset_tidy tidy_bound tidy_trim tidy_val : tidy.
#[export] Hint Extern 5 (tidy _ = true) => reflexivity : tidy.

(** Two texts are the same statement up to what is between quotes, and every
    quote is closed. *)
Definition same_statement (qa qb : string) : Prop :=
  skeleton Plain qa = skeleton Plain qb /\ (skeleton Plain qa).2 = Plain.

(** What is read is the same for all tidy searches. *)
Lemma confined (q : string -> string) : (exists o, forall t, tidy t = true -> reads Plain (q t) o Plain) ->
  forall a b, tidy a = true -> tidy b = true -> same_statement (q a) (q b).
Proof. intros (o & Ho) a b Ha%Ho Hb%Ho. unfold same_statement, reads in *. by rewrite Ha, Hb. Qed.

Lemma positions_confined sortBy sortOrder limitQuery offsetQuery :
  tidy sortBy = true -> tidy sortOrder = true -> tidy limitQuery = true -> tidy offsetQuery = true ->
  forall a b, tidy a = true -> tidy b = true ->
  same_statement (positions_query (positions_search a) sortBy sortOrder limitQuery offsetQuery)
    (positions_query (positions_search b) sortBy sortOrder limitQuery offsetQuery).
Proof.
  intros. apply (confined (fun t => positions_query (positions_search t) sortBy sortOrder limitQuery offsetQuery)); [|done..].
  eexists. intros t Ht. unfold positions_query, positions_search. read_statement.
Qed.

Lemma pools_confined klyTokenId current start end_ sortBy sortOrder limitQuery offsetQuery :
  tidy klyTokenId = true -> tidy current = true -> optional_number start -> optional_number end_ ->
  tidy sortBy = true -> tidy sortOrder = true -> tidy limitQuery = true -> tidy offsetQuery = true ->
  forall a b, tidy a = true -> tidy b = true ->
  same_statement (pools_query klyTokenId current start end_ (pools_search a) sortBy sortOrder limitQuery offsetQuery)
    (pools_query klyTokenId current start end_ (pools_search b) sortBy sortOrder limitQuery offsetQuery).
Proof.
  intros. apply (confined (fun t => pools_query klyTokenId current start end_ (pools_search t) sortBy sortOrder limitQuery offsetQuery)); [|done..].
  eexists. intros t Ht. unfold pools_query, pools_search. read_statement.
Qed.

Lemma tokens_compact_confined limitQuery offsetQuery : tidy limitQuery = true -> tidy offsetQuery = true ->
  forall a b, tidy a = true -> tidy b = true ->
  same_statement (tokens_compact_query (tokens_search a) limitQuery offsetQuery)
    (tokens_compact_query (tokens_search b) limitQuery offsetQuery).
Proof.
  intros. apply (confined (fun t => tokens_compact_query (tokens_search t) limitQuery offsetQuery)); [|done..].
  eexists. intros t Ht. unfold tokens_compact_query, tokens_search. read_statement.
Qed.

Lemma tokens_confined klyTokenId current c1 w1 changeWindow start end_ sortBy sortOrder limitQuery offsetQuery :
  tidy klyTokenId = true -> tidy current = true -> tidy c1 = true -> tidy w1 = true ->
  tidy changeWindow = true -> optional_number start -> optional_number end_ ->
  tidy sortBy = true -> tidy sortOrder = true -> tidy limitQuery = true -> tidy offsetQuery = true ->
  forall a b, tidy a = true -> tidy b = true ->
  same_statement (tokens_query klyTokenId current c1 w1 changeWindow start end_ (tokens_full_search a) sortBy sortOrder limitQuery offsetQuery)
    (tokens_query klyTokenId current c1 w1 changeWindow start end_ (tokens_full_search b) sortBy sortOrder limitQuery offsetQuery).
Proof.
  intros. apply (confined (fun t => tokens_query klyTokenId current c1 w1 changeWindow start end_ (tokens_full_search t)
    sortBy sortOrder limitQuery offsetQuery)); [|done..].
  eexists. intros t Ht. unfold tokens_query, tokens_full_search. read_statement.
Qed.

Section Methods.
Context {St : Type} `{SqlEngine St} `{NodeApi} `{Crypto} `{Rpc} `{Packages} `{RawSql St}.
Abbreviation service_ := (service (St := St)).

Definition with_search (params : obj) (t : string) : obj := set_prop params "search" (Str t).

(** A search that is not blank and has neither quotes nor backslashes *)
Definition searchable (t : string) : Prop := tidy t = true /\ js_trim t <> "".

(** The numbers of a request are numbers, which the gateway sees to. *)
Record plain_request (params : obj) : Prop := {
  plain_limit : optional_number (prop params "limit");
  plain_offset : optional_number (prop params "offset");
  plain_start : optional_number (prop params "start");
  plain_end : optional_number (prop params "end");
  plain_window : tidy (js_String (js_or (prop params "changeWindow") (Str "24h"))) = true;
}.

(** What the service keeps of the price and of the token of the chain is tidy. *)
Definition prices_tidy (s : service_) : Prop :=
  forall price s', getKLYUSDLastPrice s = (Ok price, s') ->
    (forall key v, get price key = Ok v -> tidy (js_String v) = true) /\
    (forall kly s'', getKLYTokenID s' = (Ok kly, s'') -> tidy (js_String kly) = true).

Lemma search_kept params t : searchable t -> search_term (with_search params t) = Ok (js_trim t).
Proof.
  intros [_ Ht]. unfold search_term, with_search. rewrite prop_set_eq. cbn [truthy].
  destruct (String.eqb_spec t "") as [->|_]; [done|reflexivity].
Qed.

Lemma prop_search params t key : key <> "search" -> prop (with_search params t) key = prop params key.
Proof. intros Hk. unfold with_search. by rewrite prop_set_ne. Qed.

Lemma condition_used f t : searchable t -> search_condition f (js_trim t) = f (js_trim t).
Proof. intros [_ Ht]. unfold search_condition. by destruct (String.eqb_spec (js_trim t) ""). Qed.

(** The other clauses do not see the search. *)
Lemma clauses_kept params t :
  limit_query (with_search params t) = limit_query params /\ offset_query (with_search params t) = offset_query params /\
  sort_order (with_search params t) = sort_order params /\ tokens_sort (with_search params t) = tokens_sort params /\
  pools_sort (with_search params t) = pools_sort params /\ positions_sort (with_search params t) = positions_sort params.
Proof.
  unfold limit_query, offset_query, offset_of, sort_order, tokens_sort, pools_sort, positions_sort, allowed_sort.
  by rewrite !prop_search.
Qed.

(** Both requests send the same statement or fail in the same way. *)
Definition agree (ra rb : result string * service_) : Prop :=
  ra.2 = rb.2 /\ match ra.1, rb.1 with Ok qa, Ok qb => same_statement qa qb | Throw e, Throw e' => e = e' | _, _ => False end.

Lemma refused_alike e s : agree (Throw e, s) (Throw e, s).
Proof. done. Qed.

Lemma pools_agree params a b s : plain_request params -> prices_tidy s -> searchable a -> searchable b ->
  agree (getPools_query (with_search params a) s) (getPools_query (with_search params b) s).
Proof.
  intros [Hl Ho Hs He _] Hp Ha Hb. unfold getPools_query, mbind, eff_bind.
  destruct (getKLYUSDLastPrice s) as [[price|e] s1] eqn:Ep; [|done]. destruct (Hp _ _ Ep) as [Hprice Hkly].
  destruct (getKLYTokenID s1) as [[kly|e] s2] eqn:Ek; [|done]. unfold lift, ret. rewrite !search_kept by done.
  destruct (get price "current") as [current|e] eqn:Ec; [|done].
  destruct (clauses_kept params a) as (-> & -> & -> & _ & -> & _). destruct (clauses_kept params b) as (-> & -> & -> & _ & -> & _).
  rewrite !condition_used, !prop_search by done. split; [done|]. cbn [fst].
  destruct Ha, Hb. apply pools_confined; eauto with tidy.
Qed.

Lemma tokens_agree params a b s : plain_request params -> prices_tidy s -> searchable a -> searchable b ->
  agree (getDEXTokens_query (with_search params a) s) (getDEXTokens_query (with_search params b) s).
Proof.
  intros [Hl Ho Hs He Hw] Hp Ha Hb. unfold getDEXTokens_query, mbind, eff_bind, lift. rewrite !search_kept by done.
  destruct (clauses_kept params a) as (-> & -> & -> & -> & _). destruct (clauses_kept params b) as (-> & -> & -> & -> & _).
  rewrite !prop_search, !condition_used by done. pose proof (proj1 Ha) as Ta. pose proof (proj1 Hb) as Tb.
  destruct (bool_decide _); [split; [done|]; apply tokens_compact_confined; eauto with tidy|].
  destruct (getKLYUSDLastPrice s) as [[price|e] s1] eqn:Ep; [|done]. destruct (Hp _ _ Ep) as [Hprice Hkly].
  destruct (getKLYTokenID s1) as [[kly|e] s2] eqn:Ek; [|done]. unfold ret.
  destruct (get price "current") as [current|e] eqn:Ec; [|done]. 
  destruct (get price (js_String (js_or (prop params "changeWindow") (Str "24h")))) as [window|e] eqn:Ew; [|done].
  split; [done|]. cbn [fst]. assert (forall v key d, get price key = Ok v -> tidy (text_or v d) = true) as Hor.
  { intros v key d Hv. unfold text_or, js_or. destruct (truthy v); [by eapply Hprice|apply tidy_number]. }
  apply tokens_confined; eauto with tidy.
Qed.

(** [C24] The search of a client stays what it is, a text to search for: as long as it
    has neither a quote nor a backslash, the queries for tokens, pools and
    positions send MySQL the same statement whatever the search is, up to what
    is between quotes, and close every quote.  Sort columns and directions are
    always texts of the code. *)
Theorem dex_search_confined params a b s : plain_request params -> prices_tidy s -> searchable a -> searchable b ->
  agree (getDEXTokens_query (with_search params a) s) (getDEXTokens_query (with_search params b) s) /\
  agree (getPools_query (with_search params a) s) (getPools_query (with_search params b) s) /\
  exists qa qb, getPositions_query (with_search params a) = Ok qa /\ getPositions_query (with_search params b) = Ok qb /\
    same_statement qa qb.
Proof.
  intros Hr Hp Ha Hb. split_and!; [by apply tokens_agree|by apply pools_agree|].
  unfold getPositions_query. rewrite !search_kept by done. cbn [mbind result_bind]. eexists _, _. split_and!; [reflexivity..|].
  destruct (clauses_kept params a) as (-> & -> & -> & _ & _ & ->). destruct (clauses_kept params b) as (-> & -> & -> & _ & _ & ->).
  rewrite !condition_used by done. destruct Hr, Ha, Hb. apply positions_confined; eauto with tidy.
Qed.
End Methods.

(** ** Samples *)
#[local] Existing Instance sample_packages.
#[local] Existing Instance sample_node.
#[local] Existing Instance plain_crypto.
#[local] Instance chain_rpc : Rpc := sample_rpc [("connector.getMainchainID", Str "00000000")].

Definition cached_price : service (St := MemDB) :=
  mkService (mkWorld ∅ ∅ ∅ [] ∅)  []
    {["redis:klyusd_last_price" := Str (match json_stringify (Object [("current", Str "0.012"); ("24h", Str "0.011")]) with Ok (Some t) => t | _ => "" end)]}
    ∅ [].

Lemma prop_tidy (o : obj) key : Forall (fun kv => tidy (js_String kv.2) = true) o -> tidy (js_String (prop o key)) = true.
Proof. induction 1 as [|[k v] o Hv _ IH]; [done|]. cbn [prop]. by destruct (String.eqb _ _). Qed.

Lemma cached_price_tidy : prices_tidy cached_price.
Proof.
  intros price s' E. assert (price = Object [("current", Str "0.012"); ("24h", Str "0.011")]) as ->.
  { apply (f_equal fst) in E. assert ((getKLYUSDLastPrice cached_price).1 = Ok (Object [("current", Str "0.012"); ("24h", Str "0.011")])) as Hv
      by (vm_compute; reflexivity). rewrite Hv in E. by injection E. }
  apply (f_equal snd) in E. cbn [snd] in E. subst s'. split.
  - intros key v Hv. cbn [get] in Hv. assert (v = prop [("current", Str "0.012"); ("24h", Str "0.011")] key) as -> by congruence.
    apply prop_tidy. by repeat constructor.
  - intros kly s'' E%(f_equal fst). assert ((getKLYTokenID (getKLYUSDLastPrice cached_price).2).1 = Ok (Str "0000000000000000")) as Hv
      by (vm_compute; reflexivity). rewrite Hv in E. by injection E as <-.
Qed.

Lemma dex_search_confined_witness :
  agree (getPools_query (with_search [("limit", Num 5)] " kly ") cached_price) (getPools_query (with_search [("limit", Num 5)] "usd%") cached_price) /\
  exists qa qb, getPositions_query (with_search [("limit", Num 5)] " kly ") = Ok qa /\
    getPositions_query (with_search [("limit", Num 5)] "usd%") = Ok qb /\ same_statement qa qb.
Proof.
  apply (dex_search_confined [("limit", Num 5)] " kly " "usd%" cached_price).
  - constructor; [by right; exists 5|by left..|done].
  - exact cached_price_tidy.
  - by split; [done|].
  - by split; [done|].
Defined.

(** A search with quotes is part of the statement: this one matches every
    position, and both statements are complete. *)
Lemma search_changes_statement :
  let query t := getPositions_query (with_search [] t) in
  exists qa qb, query "kly" = Ok qa /\ query "kly' OR '' LIKE '" = Ok qb /\
    (skeleton Plain qa).2 = Plain /\ (skeleton Plain qb).2 = Plain /\ (skeleton Plain qa).1 <> (skeleton Plain qb).1.
Proof. eexists _, _. split_and!; [reflexivity..|]. vm_compute. discriminate. Qed.
