(* ===== verification/ConnectorTables.v ===== *)
(** * Constants of the connector

    The tables of [blockchain-connector/shared/sdk/constants]: the names of
    modules and events ([names.js]), the topics of every event
    ([eventTopics.js]) and the endpoints of the node's engine with the schemas
    of their parameters ([endpoints.js]). *)
From S2P Require Import Prelude JsValue.
Local Open Scope Z_scope.

(** ** names.js *)

(** Generic *)
Definition EVENT_NAME_COMMAND_EXECUTION_RESULT : string := "commandExecutionResult".

(** Auth *)
Definition MODULE_NAME_AUTH : string := "auth".
Definition EVENT_NAME_MULTISIGNATURE_REGISTERED : string := "multisignatureRegistration".
Definition EVENT_NAME_INVALID_SIGNATURE : string := "invalidSignature".

(** Validators *)
Definition MODULE_NAME_VALIDATORS : string := "validators".
Definition EVENT_NAME_GENERATOR_KEY_REGISTRATION : string := "generatorKeyRegistration".
Definition EVENT_NAME_BLS_KEY_REGISTRATION : string := "blsKeyRegistration".

(** Token *)
Definition MODULE_NAME_TOKEN : string := "token".
Definition EVENT_NAME_TRANSFER : string := "transfer".
Definition EVENT_NAME_TRANSFER_CROSS_CHAIN : string := "transferCrossChain".
Definition EVENT_NAME_CCM_TRANSFER : string := "ccmTransfer".
Definition EVENT_NAME_MINT : string := "mint".
Definition EVENT_NAME_BURN : string := "burn".
Definition EVENT_NAME_LOCK : string := "lock".
Definition EVENT_NAME_UNLOCK : string := "unlock".
Definition EVENT_NAME_INITIALIZE_TOKEN : string := "initializeToken".
Definition EVENT_NAME_INITIALIZE_USER_ACCOUNT : string := "initializeUserAccount".
Definition EVENT_NAME_INITIALIZE_ESCROW_ACCOUNT : string := "initializeEscrowAccount".
Definition EVENT_NAME_RECOVER : string := "recover".
Definition EVENT_NAME_BEFORE_CCC_EXECUTION : string := "beforeCCCExecution".
Definition EVENT_NAME_BEFORE_CCM_FORWARDING : string := "beforeCCMForwarding".
Definition EVENT_NAME_ALL_TOKENS_SUPPORTED : string := "allTokensSupported".
Definition EVENT_NAME_ALL_TOKENS_SUPPORT_REMOVED : string := "allTokensSupportRemoved".
Definition EVENT_NAME_ALL_TOKENS_FROM_CHAIN_SUPPORTED : string := "allTokensFromChainSupported".
Definition EVENT_NAME_ALL_TOKENS_FROM_CHAIN_SUPPORT_REMOVED : string := "allTokensFromChainSupportRemoved".
Definition EVENT_NAME_TOKEN_ID_SUPPORTED : string := "tokenIDSupported".
Definition EVENT_NAME_TOKEN_ID_SUPPORT_REMOVED : string := "tokenIDSupportRemoved".

(** Fee *)
Definition MODULE_NAME_FEE : string := "fee".
Definition EVENT_NAME_FEE_PROCESSED : string := "generatorFeeProcessed".
Definition EVENT_NAME_INSUFFICIENT_FEE : string := "insufficientFee".
Definition EVENT_NAME_RELAYER_FEE_PROCESSED : string := "relayerFeeProcessed".

(** Interoperability *)
Definition MODULE_NAME_INTEROPERABILITY : string := "interoperability".
Definition EVENT_NAME_INVALID_CERTIFICATE_SIGNATURE : string := "invalidCertificateSignature".
Definition EVENT_NAME_INVALID_REGISTRATION_SIGNATURE : string := "invalidRegistrationSignature".
Definition EVENT_NAME_CHAIN_ACCOUNT_UPDATED : string := "chainAccountUpdated".
Definition EVENT_NAME_CCM_SEND_SUCCESS : string := "ccmSendSuccess".
Definition EVENT_NAME_CCM_SENT_FAILED : string := "ccmSentFailed".
Definition EVENT_NAME_CCM_PROCESSED : string := "ccmProcessed".
Definition EVENT_NAME_TERMINATED_STATE_CREATED : string := "terminatedStateCreated".
Definition EVENT_NAME_TERMINATED_OUTBOX_CREATED : string := "terminatedOutboxCreated".

(** PoS *)
Definition MODULE_NAME_POS : string := "pos".
Definition EVENT_NAME_VALIDATOR_REGISTERED : string := "validatorRegistered".
Definition EVENT_NAME_VALIDATOR_STAKED : string := "validatorStaked".
Definition EVENT_NAME_VALIDATOR_PUNISHED : string := "validatorPunished".
Definition EVENT_NAME_VALIDATOR_BANNED : string := "validatorBanned".
Definition EVENT_NAME_COMMISSION_CHANGE : string := "commissionChange".
Definition EVENT_NAME_REWARDS_ASSIGNED : string := "rewardsAssigned".

(** Random *)
Definition MODULE_NAME_RANDOM : string := "random".

(** (Dynamic) Block Rewards *)
Definition MODULE_NAME_BLOCK_REWARDS : string := "reward".
Definition MODULE_NAME_DYNAMIC_BLOCK_REWARDS : string := "dynamicReward".
Definition EVENT_NAME_REWARD_MINTED : string := "rewardMinted".

(** Legacy *)
Definition MODULE_NAME_LEGACY : string := "legacy".
Definition EVENT_NAME_ACCOUNT_RECLAIMED : string := "accountReclaimed".
Definition EVENT_NAME_KEYS_REGISTERED : string := "keysRegistered".

(** Dex *)
Definition MODULE_NAME_DEX : string := "dex".
Definition EVENT_NAME_POOL_CREATED : string := "poolCreated".
Definition EVENT_NAME_TREASURIFY : string := "treasurify".
Definition EVENT_NAME_INCREASE_OBSERVATION_CARDINALITY_NEXT : string := "increaseObservationCardinalityNext".
Definition EVENT_NAME_POOL_INITIALIZED : string := "poolInitialized".
Definition EVENT_NAME_DEX_MINT : string := "mint".
Definition EVENT_NAME_COLLECT : string := "collect".
Definition EVENT_NAME_DEX_BURN : string := "burn".
Definition EVENT_NAME_COLLECT_PROTOCOL : string := "collectProtocol".
Definition EVENT_NAME_SWAP : string := "swap".
Definition EVENT_NAME_FLASH : string := "flash".
Definition EVENT_NAME_INCREASE_LIQUIDITY : string := "increaseLiquidity".
Definition EVENT_NAME_DECREASE_LIQUIDITY : string := "decreaseLiquidity".
Definition EVENT_NAME_TOKEN_URI_CREATED : string := "tokenURICreated".
Definition EVENT_NAME_COLLECT_POSITION : string := "collectPosition".
Definition EVENT_NAME_TOKEN_URI_DESTROYED : string := "tokenURIDestroyed".
Definition EVENT_NAME_TOKEN_REGISTERED : string := "tokenRegistered".

(** NFT *)
Definition MODULE_NAME_NFT : string := "nft".
Definition EVENT_NAME_NFT_TRANSFER : string := "transfer".
Definition EVENT_NAME_NFT_CREATE : string := "create".
Definition EVENT_NAME_NFT_SET_ATTRIBUTE : string := "setAttributes".

(** Token Factory *)
Definition MODULE_NAME_TOKEN_FACTORY : string := "tokenFactory".
Definition EVENT_NAME_AIRDROP_CREATED : string := "airdropCreated".
Definition EVENT_NAME_AIRDROP_DISTRIBUTED : string := "airdropDistributed".
Definition EVENT_NAME_AIRDROP_RECIPIENTS_CHANGED : string := "airdropRecipientsChanged".
Definition EVENT_NAME_TOKEN_FACTORY_CREATED : string := "factoryCreated".
Definition EVENT_NAME_TOKEN_FACTORY_SET_ATTRIBUTES : string := "factorySetAttributes".
Definition EVENT_NAME_TOKEN_FACTORY_OWNER_CHANGED : string := "factoryOwnerChanged".
Definition EVENT_NAME_ICO_CREATED : string := "icoCreated".
Definition EVENT_NAME_ICO_DEPOSIT : string := "icoDeposit".
Definition EVENT_NAME_ICO_PRICE_CHANGED : string := "icoPriceChanged".
Definition EVENT_NAME_ICO_SWAP : string := "icoSwap".
Definition EVENT_NAME_ICO_TREASURIFY : string := "icoTreasurify".
Definition EVENT_NAME_ICO_WITHDRAW : string := "icoWithdraw".
Definition EVENT_NAME_VESTED_TOKEN_LOCKED : string := "vestedTokenLocked".
Definition EVENT_NAME_VESTED_TOKEN_UNLOCKED : string := "vestedTokenUnlocked".

(** Fee Conversion *)
Definition MODULE_NAME_FEE_CONVERSION : string := "feeConversion".
Definition EVENT_NAME_FEE_CONVERTED : string := "feeConverted".

(** Liquid POS *)
Definition MODULE_NAME_LIQUID_POS : string := "liquidPos".
Definition EVENT_NAME_LST_MINT : string := "liquidStakingTokenMint".
Definition EVENT_NAME_LST_BURN : string := "liquidStakingTokenBurn".

(** Governance *)
Definition MODULE_NAME_GOVERNANCE : string := "governance".
Definition EVENT_NAME_TREASURY_BLOCK_REWARD_TAX : string := "treasuryBlockRewardTax".
Definition EVENT_NAME_TREASURY_MINT : string := "treasuryMint".
Definition EVENT_NAME_CONFIG_UPDATED : string := "configUpdated".
Definition EVENT_NAME_DELEGATED_VOTE_REVOKED : string := "delegatedVoteRevoked".
Definition EVENT_NAME_PROPOSAL_ACTIVE : string := "proposalActive".
Definition EVENT_NAME_PROPOSAL_CREATED : string := "proposalCreated".
Definition EVENT_NAME_PROPOSAL_EXECUTED : string := "proposalExecuted".
Definition EVENT_NAME_PROPOSAL_OUTCOME : string := "proposalOutcome".
Definition EVENT_NAME_PROPOSAL_QUORUM_CHECKED : string := "proposalQuorumChecked".
Definition EVENT_NAME_PROPOSAL_SET_ATTRIBUTES : string := "proposalSetAttributes".
Definition EVENT_NAME_PROPOSAL_VOTED : string := "proposalVoted".
Definition EVENT_NAME_VOTE_BOOSTED : string := "voteBoosted".
Definition EVENT_NAME_VOTE_CHANGED : string := "voteChanged".
Definition EVENT_NAME_VOTE_DELEGATED : string := "voteDelegated".

(** ** eventTopics.js *)
Definition COMMAND_EXECUTION_RESULT_TOPICS : list string := ["transactionID"].

Definition topics_dex : list (string * list string) :=
  [(EVENT_NAME_POOL_CREATED, ["transactionID"; "poolAddress"]);
   (EVENT_NAME_TREASURIFY, ["transactionID"; "poolAddress"; "treasuryAddress"]);
   (EVENT_NAME_INCREASE_OBSERVATION_CARDINALITY_NEXT, ["transactionID"; "poolAddress"]);
   (EVENT_NAME_POOL_INITIALIZED, ["transactionID"; "poolAddress"]);
   (EVENT_NAME_DEX_MINT, ["transactionID"; "poolAddress"; "recipientAddress"]);
   (EVENT_NAME_COLLECT, ["transactionID"; "poolAddress"; "recipientAddress"]);
   (EVENT_NAME_DEX_BURN, ["transactionID"; "poolAddress"; "senderAddress"]);
   (EVENT_NAME_COLLECT_PROTOCOL, ["transactionID"; "poolAddress"; "treasuryAddress"]);
   (EVENT_NAME_SWAP, ["transactionID"; "poolAddress"; "senderAddress"]);
   (EVENT_NAME_FLASH, ["transactionID"; "poolAddress"; "recipientAddress"]);
   (EVENT_NAME_INCREASE_LIQUIDITY, ["transactionID"; "poolAddress"; "senderAddress"]);
   (EVENT_NAME_DECREASE_LIQUIDITY, ["transactionID"; "poolAddress"; "senderAddress"]);
   (EVENT_NAME_TOKEN_URI_CREATED, ["transactionID"; "senderAddress"]);
   (EVENT_NAME_COLLECT_POSITION, ["transactionID"; "poolAddress"; "recipientAddress"]);
   (EVENT_NAME_TOKEN_URI_DESTROYED, ["transactionID"; "poolAddress"; "senderAddress"]);
   (EVENT_NAME_TOKEN_REGISTERED, ["transactionID"; "tokenID"])].

Definition topics_nft : list (string * list string) :=
  [(EVENT_NAME_NFT_TRANSFER, ["transactionID"; "senderAddress"; "recipientAddress"]);
   (EVENT_NAME_NFT_CREATE, ["transactionID"; "recipientAddress"; "NFTID"]);
   (EVENT_NAME_NFT_SET_ATTRIBUTE, ["transactionID"; "NFTID"])].

Definition topics_token_factory : list (string * list string) :=
  [(EVENT_NAME_AIRDROP_CREATED, ["transactionID"; "providerAddress"]);
   (EVENT_NAME_AIRDROP_DISTRIBUTED, ["transactionID"; "recipientAddress"; "senderAddress"]);
   (EVENT_NAME_AIRDROP_RECIPIENTS_CHANGED, ["transactionID"; "recipientAddress"]);
   (EVENT_NAME_TOKEN_FACTORY_CREATED, ["transactionID"; "senderAddress"]);
   (EVENT_NAME_TOKEN_FACTORY_SET_ATTRIBUTES, ["transactionID"; "ownerAddress"; "tokenID"]);
   (EVENT_NAME_TOKEN_FACTORY_OWNER_CHANGED, ["transactionID"; "ownerAddress"]);
   (EVENT_NAME_ICO_CREATED, ["transactionID"; "providerAddress"]);
   (EVENT_NAME_ICO_DEPOSIT, ["transactionID"; "poolAddress"]);
   (EVENT_NAME_ICO_PRICE_CHANGED, ["transactionID"; "poolAddress"]);
   (EVENT_NAME_ICO_SWAP, ["transactionID"; "poolAddress"; "providerAddress"; "recipientAddress"]);
   (EVENT_NAME_ICO_TREASURIFY, ["transactionID"; "poolAddress"; "leftOverAddress"]);
   (EVENT_NAME_ICO_WITHDRAW, ["transactionID"; "poolAddress"]);
   (EVENT_NAME_VESTED_TOKEN_LOCKED, ["transactionID"; "recipientAddress"]);
   (EVENT_NAME_VESTED_TOKEN_UNLOCKED, ["transactionID"; "senderAddress"])].

Definition topics_fee_conversion : list (string * list string) :=
  [(EVENT_NAME_FEE_CONVERTED, ["transactionID"; "senderAddress"])].

Definition topics_liquid_pos : list (string * list string) :=
  [(EVENT_NAME_LST_BURN, ["transactionID"; "senderAddress"]);
   (EVENT_NAME_LST_MINT, ["transactionID"; "senderAddress"])].

Definition topics_governance : list (string * list string) :=
  [(EVENT_NAME_TREASURY_BLOCK_REWARD_TAX, ["defaultTopic"; "treasuryAddress"; "generatorAddress"]);
   (EVENT_NAME_TREASURY_MINT, ["defaultTopic"; "treasuryAddress"]);
   (EVENT_NAME_CONFIG_UPDATED, ["defaultTopic"; "storePrefix"]);
   (EVENT_NAME_DELEGATED_VOTE_REVOKED, ["defaultTopic"; "senderAddress"; "delegateeAddress"]);
   (EVENT_NAME_PROPOSAL_ACTIVE, ["defaultTopic"; "authorAddress"]);
   (EVENT_NAME_PROPOSAL_CREATED, ["defaultTopic"; "senderAddress"]);
   (EVENT_NAME_PROPOSAL_EXECUTED, ["defaultTopic"; "authorAddress"]);
   (EVENT_NAME_PROPOSAL_OUTCOME, ["defaultTopic"; "authorAddress"]);
   (EVENT_NAME_PROPOSAL_QUORUM_CHECKED, ["defaultTopic"; "authorAddress"]);
   (EVENT_NAME_PROPOSAL_SET_ATTRIBUTES, ["defaultTopic"; "authorAddress"]);
   (EVENT_NAME_PROPOSAL_VOTED, ["defaultTopic"; "senderAddress"]);
   (EVENT_NAME_VOTE_BOOSTED, ["defaultTopic"; "senderAddress"]);
   (EVENT_NAME_VOTE_CHANGED, ["defaultTopic"; "senderAddress"]);
   (EVENT_NAME_VOTE_DELEGATED, ["defaultTopic"; "senderAddress"; "delegateeAddress"])].

Definition topics_auth : list (string * list string) :=
  [(EVENT_NAME_MULTISIGNATURE_REGISTERED, ["transactionID"; "senderAddress"]);
   (EVENT_NAME_INVALID_SIGNATURE, ["transactionID"; "senderAddress"])].

Definition topics_validators : list (string * list string) :=
  [(EVENT_NAME_GENERATOR_KEY_REGISTRATION, ["defaultTopic"; "validatorAddress"]);
   (EVENT_NAME_BLS_KEY_REGISTRATION, ["defaultTopic"; "validatorAddress"])].

Definition topics_token : list (string * list string) :=
  [(EVENT_NAME_TRANSFER, ["defaultTopic"; "senderAddress"; "recipientAddress"]);
   (EVENT_NAME_TRANSFER_CROSS_CHAIN, ["defaultTopic"; "senderAddress"; "recipientAddress"; "receivingChainID"]);
   (EVENT_NAME_CCM_TRANSFER, ["transactionID"; "senderAddress"; "recipientAddress"]);
   (EVENT_NAME_MINT, ["defaultTopic"; "address"]);
   (EVENT_NAME_BURN, ["defaultTopic"; "address"]);
   (EVENT_NAME_LOCK, ["transactionID"; "address"]);
   (EVENT_NAME_UNLOCK, ["transactionID"; "address"]);
   (EVENT_NAME_INITIALIZE_TOKEN, ["defaultTopic"; "tokenID"]);
   (EVENT_NAME_INITIALIZE_USER_ACCOUNT, ["transactionID"; "userAccountAddress"]);
   (EVENT_NAME_INITIALIZE_ESCROW_ACCOUNT, ["defaultTopic"; "chainID"]);
   (EVENT_NAME_RECOVER, ["defaultTopic"; "address"]);
   (EVENT_NAME_BEFORE_CCC_EXECUTION, ["defaultTopic"; "relayerAddress"; "messageFeeTokenID"]);
   (EVENT_NAME_BEFORE_CCM_FORWARDING, ["defaultTopic"; "sendingChainID"; "receivingChainID"]);
   (EVENT_NAME_ALL_TOKENS_SUPPORTED, ["defaultTopic"]);
   (EVENT_NAME_ALL_TOKENS_SUPPORT_REMOVED, ["defaultTopic"]);
   (EVENT_NAME_ALL_TOKENS_FROM_CHAIN_SUPPORTED, ["defaultTopic"; "chainID"]);
   (EVENT_NAME_ALL_TOKENS_FROM_CHAIN_SUPPORT_REMOVED, ["defaultTopic"; "chainID"]);
   (EVENT_NAME_TOKEN_ID_SUPPORTED, ["defaultTopic"; "tokenID"]);
   (EVENT_NAME_TOKEN_ID_SUPPORT_REMOVED, ["defaultTopic"; "tokenID"])].

Definition topics_fee : list (string * list string) :=
  [(EVENT_NAME_FEE_PROCESSED, ["transactionID"; "senderAddress"; "generatorAddress"]);
   (EVENT_NAME_INSUFFICIENT_FEE, ["transactionID"]);
   (EVENT_NAME_RELAYER_FEE_PROCESSED, ["ccmID"; "relayerAddress"])].

Definition topics_interoperability : list (string * list string) :=
  [(EVENT_NAME_INVALID_CERTIFICATE_SIGNATURE, ["transactionID"; "chainID"]);
   (EVENT_NAME_INVALID_REGISTRATION_SIGNATURE, ["transactionID"; "chainID"]);
   (EVENT_NAME_CHAIN_ACCOUNT_UPDATED, ["transactionID"; "sendingChainID"]);
   (EVENT_NAME_CCM_SEND_SUCCESS, ["transactionID"; "sendingChainID"; "receivingChainID"; "sentCCMID"]);
   (EVENT_NAME_CCM_SENT_FAILED, ["transactionID"]);
   (EVENT_NAME_CCM_PROCESSED, ["transactionID"; "sendingChainID"; "receivingChainID"]);
   (EVENT_NAME_TERMINATED_STATE_CREATED, ["transactionID"; "chainID"]);
   (EVENT_NAME_TERMINATED_OUTBOX_CREATED, ["transactionID"; "chainID"])].

Definition topics_pos : list (string * list string) :=
  [(EVENT_NAME_VALIDATOR_REGISTERED, ["transactionID"; "validatorAddress"]);
   (EVENT_NAME_VALIDATOR_STAKED, ["transactionID"; "stakerAddress"; "validatorAddress"]);
   (EVENT_NAME_VALIDATOR_PUNISHED, ["transactionID"; "validatorAddress"]);
   (EVENT_NAME_VALIDATOR_BANNED, ["transactionID"; "validatorAddress"]);
   (EVENT_NAME_COMMISSION_CHANGE, ["transactionID"; "validatorAddress"]);
   (EVENT_NAME_REWARDS_ASSIGNED, ["transactionID"; "stakerAddress"])].

Definition topics_random : list (string * list string) :=
  [].

Definition topics_block_rewards : list (string * list string) :=
  [(EVENT_NAME_REWARD_MINTED, ["defaultTopic"; "generatorAddress"])].

Definition topics_dynamic_block_rewards : list (string * list string) :=
  [(EVENT_NAME_REWARD_MINTED, ["defaultTopic"; "generatorAddress"])].

Definition topics_legacy : list (string * list string) :=
  [(EVENT_NAME_ACCOUNT_RECLAIMED, ["transactionID"; "legacyAddress"; "newAddress"]);
   (EVENT_NAME_KEYS_REGISTERED, ["transactionID"; "validatorAddress"; "generatorKey"; "blsKey"])].

Definition EVENT_TOPIC_MAPPINGS_BY_MODULE : list (string * list (string * list string)) :=
  [(MODULE_NAME_DEX, topics_dex);
   (MODULE_NAME_NFT, topics_nft);
   (MODULE_NAME_TOKEN_FACTORY, topics_token_factory);
   (MODULE_NAME_FEE_CONVERSION, topics_fee_conversion);
   (MODULE_NAME_LIQUID_POS, topics_liquid_pos);
   (MODULE_NAME_GOVERNANCE, topics_governance);
   (MODULE_NAME_AUTH, topics_auth);
   (MODULE_NAME_VALIDATORS, topics_validators);
   (MODULE_NAME_TOKEN, topics_token);
   (MODULE_NAME_FEE, topics_fee);
   (MODULE_NAME_INTEROPERABILITY, topics_interoperability);
   (MODULE_NAME_POS, topics_pos);
   (MODULE_NAME_RANDOM, topics_random);
   (MODULE_NAME_BLOCK_REWARDS, topics_block_rewards);
   (MODULE_NAME_DYNAMIC_BLOCK_REWARDS, topics_dynamic_block_rewards);
   (MODULE_NAME_LEGACY, topics_legacy)].

(** ** endpoints.js *)
Definition encryptedObjectSchema : val :=
  Object [("type", Str "object");
    ("required", Arr [Str "version"; Str "ciphertext"; Str "kdf"; Str "kdfparams"; Str "cipher"; Str "cipherparams"]);
    ("properties", Object [("version", Object [("type", Str "string")]);
        ("ciphertext", Object [("type", Str "string"); ("format", Str "hex")]);
        ("kdf", Object [("type", Str "string"); ("enum", Arr [Str "argon2id"; Str "PBKDF2"])]);
        ("kdfparams", Object [("type", Str "object");
            ("properties", Object [("parallelism", Object [("type", Str "integer")]);
                ("iterations", Object [("type", Str "integer")]);
                ("memoriSize", Object [("type", Str "integer")]);
                ("salt", Object [("type", Str "string"); ("format", Str "hex")])])]);
        ("cipher", Object [("type", Str "string"); ("enum", Arr [Str "aes-256-gcm"])]);
        ("cipherparams", Object [("type", Str "object");
            ("properties", Object [("iv", Object [("type", Str "string"); ("format", Str "hex")]);
                ("tag", Object [("type", Str "string"); ("format", Str "hex")])])])])].

Definition plainKeysObjectSchema : val :=
  Object [("type", Str "object");
    ("required", Arr [Str "generatorKey"; Str "generatorPrivateKey"; Str "blsKey"; Str "blsPrivateKey"]);
    ("properties", Object [("generatorKey", Object [("type", Str "string"); ("format", Str "hex"); ("minLength", Num 64); ("maxLength", Num 64)]);
        ("generatorPrivateKey", Object [("type", Str "string");
            ("format", Str "hex");
            ("minLength", Num 128);
            ("maxLength", Num 128)]);
        ("blsKey", Object [("type", Str "string"); ("format", Str "hex"); ("minLength", Num 96); ("maxLength", Num 96)]);
        ("blsPrivateKey", Object [("type", Str "string"); ("format", Str "hex"); ("minLength", Num 64); ("maxLength", Num 64)])])].

Definition endpoints_legacy : list obj :=
  [[("name", Str "legacy_getTransactionByID");
    ("request", Object [("$id", Str "/klayr/legacy/getTransactionByIDRequest");
        ("type", Str "object");
        ("required", Arr [Str "id"]);
        ("properties", Object [("id", Object [("type", Str "string");
                ("format", Str "hex");
                ("minLength", Num 64);
                ("maxLength", Num 64)])])])];
   [("name", Str "legacy_getTransactionsByBlockID");
    ("request", Object [("$id", Str "/klayr/legacy/getTransactionsByBlockIDRequest");
        ("type", Str "object");
        ("required", Arr [Str "id"]);
        ("properties", Object [("id", Object [("type", Str "string");
                ("format", Str "hex");
                ("minLength", Num 64);
                ("maxLength", Num 64)])])])];
   [("name", Str "legacy_getBlockByID");
    ("request", Object [("$id", Str "/klayr/legacy/getBlockByIDRequest");
        ("type", Str "object");
        ("required", Arr [Str "id"]);
        ("properties", Object [("id", Object [("type", Str "string");
                ("format", Str "hex");
                ("minLength", Num 64);
                ("maxLength", Num 64)])])])];
   [("name", Str "legacy_getBlockByHeight");
    ("request", Object [("$id", Str "/klayr/legacy/getBlockByHeightRequest");
        ("type", Str "object");
        ("required", Arr [Str "height"]);
        ("properties", Object [("height", Object [("type", Str "integer"); ("minimum", Num 0)])])])];
   [("name", Str "legacy_getLegacyBrackets");
    ("request", Null)]].

Definition endpoints_chain_blocks : list obj :=
  [[("name", Str "chain_getBlockByID");
    ("request", Object [("$id", Str "/klayr/chain/getBlockByIDRequest");
        ("type", Str "object");
        ("required", Arr [Str "id"]);
        ("properties", Object [("id", Object [("type", Str "string");
                ("format", Str "hex");
                ("minLength", Num 64);
                ("maxLength", Num 64)])])])];
   [("name", Str "chain_getBlocksByIDs");
    ("request", Object [("$id", Str "/klayr/chain/getBlocksByIDsRequest");
        ("type", Str "object");
        ("required", Arr [Str "ids"]);
        ("properties", Object [("ids", Object [("type", Str "array");
                ("items", Object [("type", Str "string");
                    ("format", Str "hex");
                    ("minLength", Num 64);
                    ("maxLength", Num 64)])])])])];
   [("name", Str "chain_getBlockByHeight");
    ("request", Object [("$id", Str "/klayr/chain/getBlockByHeightRequest");
        ("type", Str "object");
        ("required", Arr [Str "height"]);
        ("properties", Object [("height", Object [("type", Str "integer"); ("minimum", Num 0)])])])];
   [("name", Str "chain_getBlocksByHeightBetween");
    ("request", Object [("$id", Str "/klayr/chain/getBlocksByHeightBetweenRequest");
        ("type", Str "object");
        ("required", Arr [Str "from"; Str "to"]);
        ("properties", Object [("from", Object [("type", Str "integer"); ("minimum", Num 0)]);
            ("to", Object [("type", Str "integer"); ("minimum", Num 0)])])])]].

Definition endpoints_chain : list obj :=
  [[("name", Str "chain_getTransactionByID");
    ("request", Object [("$id", Str "/klayr/chain/getTransactionByIDRequest");
        ("type", Str "object");
        ("required", Arr [Str "id"]);
        ("properties", Object [("id", Object [("type", Str "string");
                ("format", Str "hex");
                ("minLength", Num 64);
                ("maxLength", Num 64)])])])];
   [("name", Str "chain_getTransactionsByIDs");
    ("request", Object [("$id", Str "/klayr/chain/getTransactionsByIDsRequest");
        ("type", Str "object");
        ("required", Arr [Str "ids"]);
        ("properties", Object [("ids", Object [("type", Str "array");
                ("items", Object [("type", Str "string");
                    ("format", Str "hex");
                    ("minLength", Num 64);
                    ("maxLength", Num 64)])])])])];
   [("name", Str "chain_getTransactionsByHeight");
    ("request", Object [("$id", Str "/klayr/chain/getTransactionsByHeightRequest");
        ("type", Str "object");
        ("required", Arr [Str "height"]);
        ("properties", Object [("height", Object [("type", Str "integer"); ("minimum", Num 0)])])])];
   [("name", Str "chain_getAssetsByHeight");
    ("request", Object [("$id", Str "/klayr/chain/getAssetsByHeightRequest");
        ("type", Str "object");
        ("required", Arr [Str "height"]);
        ("properties", Object [("height", Object [("type", Str "integer"); ("minimum", Num 0)])])])];
   [("name", Str "chain_getLastBlock");
    ("request", Null)];
   [("name", Str "chain_getEvents");
    ("request", Object [("$id", Str "/klayr/chain/getEventsRequest");
        ("type", Str "object");
        ("required", Arr [Str "height"]);
        ("properties", Object [("height", Object [("type", Str "integer"); ("minimum", Num 0)])])])];
   [("name", Str "chain_proveEvents");
    ("request", Object [("$id", Str "/node/endpoint/proveEventsRequestSchema");
        ("type", Str "object");
        ("required", Arr [Str "height"; Str "queries"]);
        ("properties", Object [("height", Object [("type", Str "integer"); ("minimum", Num 0)]);
            ("queries", Object [("type", Str "array");
                ("items", Object [("type", Str "string"); ("format", Str "hex")])])])])];
   [("name", Str "chain_getGeneratorList");
    ("request", Null)];
   [("name", Str "chain_areHeadersContradicting");
    ("request", Object [("$id", Str "/modules/bft/areHeadersContradictingRequest");
        ("type", Str "object");
        ("required", Arr [Str "header1"; Str "header2"]);
        ("properties", Object [("header1", Object [("type", Str "string"); ("format", Str "hex")]);
            ("header2", Object [("type", Str "string"); ("format", Str "hex")])])])]].

Definition endpoints_consensus : list obj :=
  [[("name", Str "consensus_getBFTParameters");
    ("request", Object [("$id", Str "/klayr/chain/getBFTParametersRequest");
        ("type", Str "object");
        ("required", Arr [Str "height"]);
        ("properties", Object [("height", Object [("type", Str "integer"); ("minimum", Num 0)])])])];
   [("name", Str "consensus_getBFTParametersActiveValidators");
    ("request", Object [("$id", Str "/klayr/chain/getBFTParametersActiveValidatorsRequest");
        ("type", Str "object");
        ("required", Arr [Str "height"]);
        ("properties", Object [("height", Object [("type", Str "integer"); ("minimum", Num 0)])])])];
   [("name", Str "consensus_getBFTHeights");
    ("request", Null)]].

Definition endpoints_state : list obj :=
  [[("name", Str "state_prove");
    ("request", Object [("$id", Str "/node/endpoint/stateProveRequestSchema");
        ("type", Str "object");
        ("required", Arr [Str "queryKeys"]);
        ("properties", Object [("queryKeys", Object [("type", Str "array"); ("items", Object [("dataType", Str "string")])])])])]].

Definition endpoints_system : list obj :=
  [[("name", Str "system_getNodeInfo");
    ("request", Null)];
   [("name", Str "system_getMetadata");
    ("request", Null)];
   [("name", Str "system_getSchema");
    ("request", Null)];
   [("name", Str "system_getMetricsReport");
    ("request", Object [("$id", Str "/klayr/system/getMetricsReportRequest");
        ("type", Str "object");
        ("required", Arr []);
        ("properties", Object [("inString", Object [("type", Str "boolean")])])])]].

Definition endpoints_txpool : list obj :=
  [[("name", Str "txpool_postTransaction");
    ("request", Object [("$id", Str "/klayr/postTransaction");
        ("title", Str "Transactions");
        ("type", Str "object");
        ("required", Arr [Str "transaction"]);
        ("properties", Object [("transaction", Object [("type", Str "string"); ("format", Str "hex")])])])];
   [("name", Str "txpool_getTransactionsFromPool");
    ("request", Object [("$id", Str "/generator/getTransactionsFromPool");
        ("type", Str "object");
        ("properties", Object [("address", Object [("type", Str "string"); ("format", Str "klayr32")])])])];
   [("name", Str "txpool_dryRunTransaction");
    ("request", Object [("$id", Str "/klayr/dryRunTransaction");
        ("title", Str "Transactions");
        ("type", Str "object");
        ("required", Arr [Str "transaction"]);
        ("properties", Object [("transaction", Object [("type", Str "string"); ("format", Str "hex")]);
            ("skipVerify", Object [("type", Str "boolean"); ("default", Bool false)]);
            ("strict", Object [("type", Str "boolean"); ("default", Bool false)])])])]].

Definition endpoints_generator : list obj :=
  [[("name", Str "generator_getStatus");
    ("request", Null)];
   [("name", Str "generator_setStatus");
    ("request", Object [("$id", Str "/klayr/setStatusRequest");
        ("title", Str "Set block generation status");
        ("type", Str "object");
        ("required", Arr [Str "address"; Str "height"; Str "maxHeightGenerated"; Str "maxHeightPrevoted"]);
        ("properties", Object [("address", Object [("type", Str "string"); ("format", Str "klayr32")]);
            ("height", Object [("type", Str "integer"); ("minimum", Num 0)]);
            ("maxHeightGenerated", Object [("type", Str "integer"); ("minimum", Num 0)]);
            ("maxHeightPrevoted", Object [("type", Str "integer"); ("minimum", Num 0)])])])];
   [("name", Str "generator_updateStatus");
    ("request", Object [("$id", Str "/klayr/updateStatusRequest");
        ("title", Str "Update block generation status");
        ("type", Str "object");
        ("required", Arr [Str "address";
            Str "password";
            Str "enable";
            Str "height";
            Str "maxHeightGenerated";
            Str "maxHeightPrevoted"]);
        ("properties", Object [("address", Object [("type", Str "string"); ("format", Str "klayr32")]);
            ("password", Object [("type", Str "string")]);
            ("enable", Object [("type", Str "boolean")]);
            ("height", Object [("type", Str "integer")]);
            ("maxHeightGenerated", Object [("type", Str "integer")]);
            ("maxHeightPrevoted", Object [("type", Str "integer")])])])];
   [("name", Str "generator_estimateSafeStatus");
    ("request", Object [("$id", Str "/generator/estimateSafeStatusRequest");
        ("type", Str "object");
        ("required", Arr [Str "timeShutdown"]);
        ("properties", Object [("timeShutdown", Object [("type", Str "integer")])])])];
   [("name", Str "generator_setKeys");
    ("request", Object [("$id", Str "/generator/setKeysRequest");
        ("type", Str "object");
        ("required", Arr [Str "address"; Str "type"; Str "data"]);
        ("properties", Object [("address", Object [("type", Str "string"); ("format", Str "klayr32")])]);
        ("oneOf", Arr [Object [("type", Str "object");
              ("properties", Object [("type", Object [("const", Str "plain")]); ("data", plainKeysObjectSchema)])];
            Object [("type", Str "object");
              ("properties", Object [("type", Object [("const", Str "encrypted")]); ("data", encryptedObjectSchema)])]])])];
   [("name", Str "generator_getAllKeys");
    ("request", Null)];
   [("name", Str "generator_hasKeys");
    ("request", Object [("$id", Str "/generator/hasKeysRequest");
        ("type", Str "object");
        ("required", Arr [Str "address"]);
        ("properties", Object [("address", Object [("type", Str "string"); ("format", Str "klayr32")])])])]].

Definition endpoints_network : list obj :=
  [[("name", Str "network_getConnectedPeers");
    ("request", Null)];
   [("name", Str "network_getDisconnectedPeers");
    ("request", Null)];
   [("name", Str "network_getStats");
    ("request", Null)]].

Definition engineEndpoints : list obj :=
  endpoints_legacy ++ endpoints_chain_blocks ++ endpoints_chain ++ endpoints_consensus ++ endpoints_state ++ endpoints_system ++ endpoints_txpool ++ endpoints_generator ++ endpoints_network.
