(* ===== verification/ConnectorPool.v ===== *)
(** * The pool of API clients of the connector

    [blockchain-connector/shared/sdk/client.js] without the requests: the pool
    of connections to the node, the listener of the server's pings, the
    replacement of dead clients.  A client is an object that the pool, timers
    and signals refer to, so that clients live in a store and are referred to
    by their key.  Where the source awaits, anything may happen in between:
    each function is split at its awaits, what it still has to do is a [task],
    and [handle] runs one event.  A run is any sequence of events. *)
From S2P Require Import Prelude.
Local Open Scope Z_scope.

(** ** State *)
Record client := mkClient {
  poolIndex : option nat;
  isAlive : bool;
  lastPingAt : option Z;
  pingTimeout : option nat;
}.

(** What follows the call of [instantiateNewClient] that is awaited. *)
Inductive task :=
| InitPush
| Refill (index : nat)
| Replace (poolIndex : nat).

Record pool := mkPool {
  now : Z;
  clients : gmap nat client;
  (** [clientPool] *)
  clientPool : list (option nat);
  (** timers that are set: the client and [now] of their callback *)
  timers : gmap nat (nat * Z);
  (** the next key of the store and of the timers *)
  next : nat;
  attempts : nat;
  success : nat;
  fail : nat;
  tasks : list task;
  isReInstantiateIntervalRunning : bool;
  (** resets dispatched by the ping timers *)
  pingResets : nat;
  (** resets dispatched and not handled yet: the client and whether it is the
      client of the event subscription *)
  resets : list (nat * bool);
  (** indices of dispatched [newApiClient] signals *)
  newApiClients : list nat;
  eventSubscriptionClientResets : nat;
}.

Section Pool.
(** [MAX_CLIENT_POOL_SIZE] and [WS_SERVER_PING_THRESHOLD] *)
Variable MAX_CLIENT_POOL_SIZE : nat.
Variable WS_SERVER_PING_THRESHOLD : Z.

Definition initial : pool := mkPool 0 ∅ [] ∅ 0 0 0 0 [] false 0 [] [] 0.

Definition set_clients (m : gmap nat client) (s : pool) : pool :=
  mkPool (now s) m (clientPool s) (timers s) (next s) (attempts s) (success s) (fail s) (tasks s)
    (isReInstantiateIntervalRunning s) (pingResets s) (resets s) (newApiClients s) (eventSubscriptionClientResets s).

Definition set_slots (l : list (option nat)) (s : pool) : pool :=
  mkPool (now s) (clients s) l (timers s) (next s) (attempts s) (success s) (fail s) (tasks s)
    (isReInstantiateIntervalRunning s) (pingResets s) (resets s) (newApiClients s) (eventSubscriptionClientResets s).

Definition set_resets (l : list (nat * bool)) (s : pool) : pool :=
  mkPool (now s) (clients s) (clientPool s) (timers s) (next s) (attempts s) (success s) (fail s) (tasks s)
    (isReInstantiateIntervalRunning s) (pingResets s) l (newApiClients s) (eventSubscriptionClientResets s).

(** ** pingListener *)
Definition pingListener (c : nat) (s : pool) : pool :=
  match clients s !! c with
  | None => s
  | Some apiClient =>
      let cleared := match pingTimeout apiClient with Some t => delete t (timers s) | None => timers s end in
      mkPool (now s)
        (<[c := mkClient (poolIndex apiClient) (isAlive apiClient) (Some (now s)) (Some (next s))]> (clients s))
        (clientPool s) (<[next s := (c, now s)]> cleared) (S (next s))
        (attempts s) (success s) (fail s) (tasks s) (isReInstantiateIntervalRunning s) (pingResets s) (resets s)
        (newApiClients s) (eventSubscriptionClientResets s)
  end.

(** The callback of the timer, which compares the [now] of the listener that
    set it with the last ping. *)
Definition ping_timer (t : nat) (s : pool) : pool :=
  match timers s !! t with
  | None => s
  | Some (c, then_) =>
      let s1 := mkPool (now s) (clients s) (clientPool s) (delete t (timers s)) (next s) (attempts s) (success s) (fail s)
        (tasks s) (isReInstantiateIntervalRunning s) (pingResets s) (resets s) (newApiClients s) (eventSubscriptionClientResets s) in
      match clients s !! c with
      | None => s1
      | Some apiClient =>
          let timeSinceLastPing := match lastPingAt apiClient with Some p => then_ - p | None => 0 end in
          if timeSinceLastPing =? 0 then s1
          else
            mkPool (now s1)
              (<[c := mkClient (poolIndex apiClient) false (lastPingAt apiClient) (pingTimeout apiClient)]> (clients s1))
              (clientPool s1) (timers s1) (next s1) (attempts s1) (success s1) (fail s1) (tasks s1)
              (isReInstantiateIntervalRunning s1) (S (pingResets s1)) (resets s1 ++ [(c, false)])
              (newApiClients s1) (eventSubscriptionClientResets s1)
      end
  end.

(** ** instantiateNewClient *)
Definition instantiate (k : task) (s : pool) : pool :=
  mkPool (now s) (clients s) (clientPool s) (timers s) (next s) (S (attempts s)) (success s) (fail s) (tasks s ++ [k])
    (isReInstantiateIntervalRunning s) (pingResets s) (resets s) (newApiClients s) (eventSubscriptionClientResets s).

(** The client is there, with the pool index it gets right away, or the
    promise is rejected. *)
Definition instantiated (index : nat) (rest : list task) (s : pool) : nat * pool :=
  (next s,
   mkPool (now s) (<[next s := mkClient (Some index) true None None]> (clients s)) (clientPool s) (timers s) (S (next s))
     (attempts s) (S (success s)) (fail s) rest (isReInstantiateIntervalRunning s) (pingResets s) (resets s)
     (newApiClients s) (eventSubscriptionClientResets s)).

Definition rejected (rest : list task) (s : pool) : pool :=
  mkPool (now s) (clients s) (clientPool s) (timers s) (next s) (attempts s) (success s) (S (fail s)) rest
    (isReInstantiateIntervalRunning s) (pingResets s) (resets s) (newApiClients s) (eventSubscriptionClientResets s).

(** [clientPool[index] = client; if (client) Signals.get('newApiClient').dispatch(index)] *)
Definition put_client (index : nat) (c : option nat) (s : pool) : pool :=
  mkPool (now s) (clients s) (<[index := c]> (clientPool s)) (timers s) (next s) (attempts s) (success s) (fail s) (tasks s)
    (isReInstantiateIntervalRunning s) (pingResets s) (resets s)
    (match c with Some _ => newApiClients s ++ [index] | None => newApiClients s end) (eventSubscriptionClientResets s).

(** ** initClientPool *)

(** One round of the loop up to its await. *)
Definition init_round (s : pool) : pool :=
  if (MAX_CLIENT_POOL_SIZE <=? length (clientPool s))%nat then s else instantiate InitPush s.

(** ** The interval that replaces nulls *)
Fixpoint null_from (i : nat) (l : list (option nat)) : option nat :=
  match l with
  | [] => None
  | None :: _ => Some i
  | Some _ :: l => null_from (S i) l
  end.

(** The loop goes on at [index], up to its next await or its end. *)
Definition refill_from (index : nat) (s : pool) : pool :=
  match null_from index (drop index (clientPool s)) with
  | Some i => instantiate (Refill i) s
  | None => mkPool (now s) (clients s) (clientPool s) (timers s) (next s) (attempts s) (success s) (fail s) (tasks s)
              false (pingResets s) (resets s) (newApiClients s) (eventSubscriptionClientResets s)
  end.

Definition refill_interval (s : pool) : pool :=
  if isReInstantiateIntervalRunning s then s
  else refill_from 0
    (mkPool (now s) (clients s) (clientPool s) (timers s) (next s) (attempts s) (success s) (fail s) (tasks s)
       true (pingResets s) (resets s) (newApiClients s) (eventSubscriptionClientResets s)).

(** ** getApiClient *)
Definition checkIsClientAlive (c : option nat) (s : pool) : bool :=
  match c ≫= fun c => clients s !! c with Some apiClient => isAlive apiClient | None => false end.

(** The client at the index that was drawn; a dead one is to be reset and the
    caller waits. *)
Definition getApiClient (index : nat) (s : pool) : option nat * pool :=
  match clientPool s !! index with
  | Some (Some c) =>
      if checkIsClientAlive (Some c) s then (Some c, s) else (None, set_resets (resets s ++ [(c, false)]) s)
  | _ => (None, s)
  end.

(** ** resetApiClient, up to the new client *)
Definition resetApiClient (c : nat) (isEventSubscriptionClient : bool) (s : pool) : pool :=
  match clients s !! c with
  | None => s
  | Some apiClient =>
      if now s - default 0 (lastPingAt apiClient) <? WS_SERVER_PING_THRESHOLD then s
      else
        let s := if isEventSubscriptionClient
          then mkPool (now s) (clients s) (clientPool s) (timers s) (next s) (attempts s) (success s) (fail s) (tasks s)
                 (isReInstantiateIntervalRunning s) (pingResets s) (resets s) (newApiClients s) (S (eventSubscriptionClientResets s))
          else s in
        match poolIndex apiClient with
        | Some index =>
            instantiate (Replace index)
              (set_clients (<[c := mkClient (poolIndex apiClient) false (lastPingAt apiClient) (pingTimeout apiClient)]> (clients s)) s)
        | None => s
        end
  end.

(** What follows the await: the new client ([ok]) or its error. *)
Definition run_task (k : task) (rest : list task) (ok : bool) (s : pool) : pool :=
  match k with
  | InitPush =>
      if ok then
        let '(c, s) := instantiated (length (clientPool s)) rest s in
        init_round (set_slots (clientPool s ++ [Some c]) s)
      else rejected rest s
  | Refill index =>
      let s := if ok then let '(c, s) := instantiated index rest s in put_client index (Some c) s
               else put_client index None (rejected rest s) in
      refill_from (S index) s
  | Replace index =>
      if ok then let '(c, s) := instantiated index rest s in put_client index (Some c) s
      else put_client index None (rejected rest s)
  end.

Inductive event :=
| Tick (ms : Z)
| Ping (c : nat)
| Timer (t : nat)
| Disconnected (c : nat)
| Init
| Interval
| GetApiClient (index : nat)
| Liveness (c : nat)
| HandleReset
| Settled (i : nat) (ok : bool).

Definition handle (e : event) (s : pool) : pool :=
  match e with
  | Tick ms => mkPool (now s + Z.max 0 ms) (clients s) (clientPool s) (timers s) (next s) (attempts s) (success s) (fail s)
                 (tasks s) (isReInstantiateIntervalRunning s) (pingResets s) (resets s) (newApiClients s) (eventSubscriptionClientResets s)
  | Ping c => pingListener c s
  | Timer t => ping_timer t s
  | Disconnected c =>
      match clients s !! c with
      | Some a => set_clients (<[c := mkClient (poolIndex a) false (lastPingAt a) (pingTimeout a)]> (clients s)) s
      | None => s
      end
  | Init => init_round s
  | Interval => refill_interval s
  | GetApiClient index => snd (getApiClient index s)
  | Liveness c => set_resets (resets s ++ [(c, true)]) s
  | HandleReset =>
      match resets s with
      | (c, isEvent) :: l => resetApiClient c isEvent (set_resets l s)
      | [] => s
      end
  | Settled i ok =>
      match tasks s !! i with
      | Some k => run_task k (delete i (tasks s)) ok s
      | None => s
      end
  end.

Definition run (l : list event) (s : pool) : pool := foldl (fun s e => handle e s) s l.
Definition reachable (s : pool) : Prop := exists l, s = run l initial.

(** ** Invariants *)

(** Clients are where their index says, what is awaited knows its slot, every
    attempt is settled or awaited, and a timer of a client is its last one and
    was set by the last ping. *)
Record wf (cl : gmap nat client) (l : list (option nat)) (tm : gmap nat (nat * Z)) (nx at_ su fa : nat) (tk : list task) : Prop := {
  wf_slots i c : l !! i = Some (Some c) -> exists a, cl !! c = Some a /\ poolIndex a = Some i;
  wf_index c a : cl !! c = Some a -> exists i, poolIndex a = Some i /\ (i < length l)%nat;
  wf_tasks i : Refill i ∈ tk \/ Replace i ∈ tk -> (i < length l)%nat;
  wf_stats : at_ = (su + fa + length tk)%nat;
  wf_size : size cl = su;
  wf_timers t c z : tm !! t = Some (c, z) -> exists a, cl !! c = Some a /\ lastPingAt a = Some z /\ pingTimeout a = Some t;
  wf_fresh c : cl !! c <> None -> (c < nx)%nat;
}.

Definition inv (s : pool) : Prop :=
  wf (clients s) (clientPool s) (timers s) (next s) (attempts s) (success s) (fail s) (tasks s) /\ pingResets s = 0%nat.

Lemma inv_initial : inv initial.
Proof. split; [|done]. split; try done. intros i [Hi|Hi]; by apply elem_of_nil in Hi. Qed.

(** A client keeps its index and its pings. *)
Lemma inv_dead c a s : inv s -> clients s !! c = Some a ->
  inv (set_clients (<[c := mkClient (poolIndex a) false (lastPingAt a) (pingTimeout a)]> (clients s)) s).
Proof.
  intros [W Hp] Hc. split; [|done]. cbn. destruct W as [W1 W2 W3 W4 W5 W6 W7]. split; try done.
  - intros i c' (a' & Hc' & Hi)%W1. destruct (decide (c' = c)) as [->|Hn].
    + rewrite lookup_insert_eq. eexists. split; [done|]. simplify_eq. done.
    + rewrite lookup_insert_ne by done. eauto.
  - intros c' a'. rewrite lookup_insert. case_decide; [intros [= <-]; cbn; eauto|eauto].
  - rewrite map_size_insert_Some by eauto. done.
  - intros t c' z (a' & Hc' & Hz & Ht)%W6. destruct (decide (c' = c)) as [->|Hn].
    + rewrite lookup_insert_eq. eexists. split; [done|]. simplify_eq. done.
    + rewrite lookup_insert_ne by done. eauto.
  - intros c'. rewrite lookup_insert. case_decide as E; [intros _; subst; apply W7; congruence|apply W7].
Qed.

Lemma inv_ping c s : inv s -> inv (pingListener c s).
Proof.
  intros [W Hp]. unfold pingListener. destruct (clients s !! c) as [a|] eqn:Hc; [|by split].
  split; [|done]. cbn. destruct W as [W1 W2 W3 W4 W5 W6 W7]. split; try done.
  - intros i c' (a' & Hc' & Hi)%W1. destruct (decide (c' = c)) as [->|Hn].
    + rewrite lookup_insert_eq. eexists. split; [done|]. simplify_eq. done.
    + rewrite lookup_insert_ne by done. eauto.
  - intros c' a'. rewrite lookup_insert. case_decide; [intros [= <-]; cbn; eauto|eauto].
  - rewrite map_size_insert_Some by eauto. done.
  - intros t c' z. rewrite lookup_insert. case_decide as E.
    { intros [= <- <-]. rewrite lookup_insert_eq. eexists. split; [done|]. by subst. }
    intros Ht. assert (timers s !! t = Some (c', z) /\ pingTimeout a <> Some t) as [Ht' Hne].
    { destruct (pingTimeout a) as [t0|]; [|done]. apply lookup_delete_Some in Ht as [??]. split; congruence. }
    apply W6 in Ht' as (a' & Hc' & Hz & Hpt). rewrite lookup_insert_ne; [eauto|]. intros ->. congruence.
  - intros c'. rewrite lookup_insert. case_decide as E; [intros _; subst; specialize (W7 c'); rewrite Hc in W7; naive_solver lia|].
    intros Hn%W7. lia.
Qed.

(** The comparison in the callback never finds a difference. *)
Lemma inv_timer t s : inv s -> inv (ping_timer t s).
Proof.
  intros [W Hp]. unfold ping_timer. destruct (timers s !! t) as [[c z]|] eqn:Ht; [|by split].
  destruct (wf_timers _ _ _ _ _ _ _ _ W _ _ _ Ht) as (a & Hc & Hz & Hpt). rewrite Hc, Hz.
  rewrite (proj2 (Z.eqb_eq _ _)) by lia. split; [|done]. cbn. destruct W as [W1 W2 W3 W4 W5 W6 W7]. split; try done.
  intros t' c' z' [? Ht']%lookup_delete_Some. eauto.
Qed.

Lemma inv_instantiate k s : inv s -> (forall i, k = Refill i \/ k = Replace i -> (i < length (clientPool s))%nat) ->
  inv (instantiate k s).
Proof.
  intros [W Hp] Hk. split; [|done]. cbn. destruct W as [W1 W2 W3 W4 W5 W6 W7]. split; try done.
  - intros i. rewrite !elem_of_app, !list_elem_of_singleton. naive_solver.
  - rewrite length_app. cbn. lia.
Qed.

Lemma null_from_lt i l j : null_from i l = Some j -> (j < i + length l)%nat.
Proof.
  revert i. induction l as [|[c|] l IH]; intros i; cbn; [done| |intros [= ->]; lia].
  intros Hj%IH. lia.
Qed.

Lemma inv_refill_from i s : inv s -> inv (refill_from i s).
Proof.
  intros Hs. unfold refill_from. destruct (null_from _ _) as [j|] eqn:E; [|exact Hs].
  apply inv_instantiate; [done|]. intros k [[= ->]|[=]].
  destruct (decide (i <= length (clientPool s))%nat); [|by rewrite drop_ge in E by lia].
  apply null_from_lt in E. rewrite length_drop in E. lia.
Qed.

(** A settled task leaves the list. *)
Lemma inv_settled s i k index :
  inv s -> tasks s !! i = Some k -> (index < length (clientPool s))%nat ->
  let '(c, s') := instantiated index (delete i (tasks s)) s in inv (put_client index (Some c) s').
Proof.
  intros [W Hp] Hk Hi. cbn. split; [|done]. cbn. destruct W as [W1 W2 W3 W4 W5 W6 W7].
  assert (clients s !! next s = None) as Hn by (destruct (clients s !! next s) eqn:E; [specialize (W7 (next s)); rewrite E in W7; naive_solver lia|done]).
  pose proof (lookup_lt_Some _ _ _ Hk) as Hlt. split.
  - intros j c. rewrite list_lookup_insert. case_decide as E.
    + destruct E as [-> _]. intros [= <-]. rewrite lookup_insert_eq. eauto.
    + intros (a & Hc & Ha)%W1. rewrite lookup_insert_ne by congruence. eauto.
  - intros c a. rewrite length_insert, lookup_insert. case_decide; [intros [= <-]; cbn; eauto|eauto].
  - intros j. rewrite length_insert. intros Hj. apply W3.
    destruct Hj as [Hj|Hj]; [left|right]; (eapply elem_of_sublist; [exact Hj|apply sublist_delete]).
  - rewrite length_delete by eauto. lia.
  - rewrite map_size_insert_None by done. lia.
  - intros t c z (a & Hc & Ha)%W6. rewrite lookup_insert_ne by congruence. eauto.
  - intros c. rewrite lookup_insert. case_decide; [intros _; lia|]. intros Hc%W7. lia.
Qed.

(** The same when the client is pushed. *)
Lemma inv_pushed s i k :
  inv s -> tasks s !! i = Some k ->
  let '(c, s') := instantiated (length (clientPool s)) (delete i (tasks s)) s in inv (set_slots (clientPool s' ++ [Some c]) s').
Proof.
  intros [W Hp] Hk. cbn. split; [|done]. cbn. destruct W as [W1 W2 W3 W4 W5 W6 W7].
  assert (clients s !! next s = None) as Hn by (destruct (clients s !! next s) eqn:E; [specialize (W7 (next s)); rewrite E in W7; naive_solver lia|done]).
  pose proof (lookup_lt_Some _ _ _ Hk) as Hlt. split.
  - intros j c. rewrite lookup_snoc_Some. intros [[_ (a & Hc & Ha)%W1]|[-> [= <-]]].
    + rewrite lookup_insert_ne by congruence. eauto.
    + rewrite lookup_insert_eq. eauto.
  - intros c a. rewrite length_app, lookup_insert. cbn. case_decide; [intros [= <-]; cbn; eauto with lia|].
    intros (j & Hj & Hl)%W2. eauto with lia.
  - intros j. rewrite length_app. cbn. intros Hj. enough (j < length (clientPool s))%nat by lia. apply W3.
    destruct Hj as [Hj|Hj]; [left|right]; (eapply elem_of_sublist; [exact Hj|apply sublist_delete]).
  - rewrite length_delete by eauto. lia.
  - rewrite map_size_insert_None by done. lia.
  - intros t c z (a & Hc & Ha)%W6. rewrite lookup_insert_ne by congruence. eauto.
  - intros c. rewrite lookup_insert. case_decide; [intros _; lia|]. intros Hc%W7. lia.
Qed.

Lemma inv_rejected s i k : inv s -> tasks s !! i = Some k -> inv (rejected (delete i (tasks s)) s).
Proof.
  intros [W Hp] Hk. split; [|done]. cbn. destruct W as [W1 W2 W3 W4 W5 W6 W7].
  pose proof (lookup_lt_Some _ _ _ Hk) as Hlt. split; try done.
  - intros j Hj. apply W3. destruct Hj as [Hj|Hj]; [left|right]; (eapply elem_of_sublist; [exact Hj|apply sublist_delete]).
  - rewrite length_delete by eauto. lia.
Qed.

Lemma inv_put_null index s : inv s -> inv (put_client index None s).
Proof.
  intros [W Hp]. split; [|done]. cbn. destruct W as [W1 W2 W3 W4 W5 W6 W7]. split; try done.
  - intros j c. rewrite list_lookup_insert. case_decide; [done|apply W1].
  - intros c a. rewrite length_insert. apply W2.
  - intros j. rewrite length_insert. apply W3.
Qed.

Lemma inv_init_round s : inv s -> inv (init_round s).
Proof. intros Hs. unfold init_round. case_match; [done|]. apply inv_instantiate; [done|]. naive_solver. Qed.

Lemma inv_task s i k ok : inv s -> tasks s !! i = Some k -> inv (run_task k (delete i (tasks s)) ok s).
Proof.
  intros Hs Hk. assert (forall j, k = Refill j \/ k = Replace j -> (j < length (clientPool s))%nat) as Hj.
  { intros j Hj. apply (wf_tasks _ _ _ _ _ _ _ _ (proj1 Hs)). apply list_elem_of_lookup_2 in Hk. by destruct Hj as [<-|<-]; auto. }
  destruct k as [|j|j]; cbn [run_task].
  - destruct ok; [|by eapply inv_rejected]. apply inv_init_round. exact (inv_pushed s i _ Hs Hk).
  - apply inv_refill_from. destruct ok; [exact (inv_settled s i _ j Hs Hk (Hj _ (or_introl eq_refl)))|].
    apply inv_put_null. by eapply inv_rejected.
  - destruct ok; [exact (inv_settled s i _ j Hs Hk (Hj _ (or_intror eq_refl)))|].
    apply inv_put_null. by eapply inv_rejected.
Qed.

Lemma inv_reset c b s : inv s -> inv (resetApiClient c b s).
Proof.
  intros Hs. unfold resetApiClient. destruct (clients s !! c) as [a|] eqn:Hc; [|done].
  case_match; [done|]. destruct (wf_index _ _ _ _ _ _ _ _ (proj1 Hs) _ _ Hc) as (i & Ei & Hi).
  pose proof (inv_dead c a s Hs Hc) as Hd. rewrite Ei in Hd |- *. apply inv_instantiate.
  - by destruct b.
  - intros j [[=]|[= ->]]. by destruct b.
Qed.

Lemma inv_handle e s : inv s -> inv (handle e s).
Proof.
  intros Hs. destruct e as [ms|c|t|c| | |i|c| |i ok]; cbn [handle].
  - exact Hs.
  - by apply inv_ping.
  - by apply inv_timer.
  - destruct (clients s !! c) eqn:Hc; [by apply inv_dead|done].
  - by apply inv_init_round.
  - unfold refill_interval. case_match; [done|]. by apply inv_refill_from.
  - unfold getApiClient. destruct (clientPool s !! i) as [[c|]|]; [|done..]. by case_match.
  - exact Hs.
  - destruct (resets s) as [|[c b] l]; [done|]. by apply inv_reset.
  - destruct (tasks s !! i) as [k|] eqn:Hk; [by apply inv_task|done].
Qed.

Lemma inv_run l s : inv s -> inv (run l s).
Proof. revert s. induction l as [|e l IH]; intros s Hs; [done|]. by apply IH, inv_handle. Qed.

Lemma inv_reachable s : reachable s -> inv s.
Proof. intros [l ->]. apply inv_run, inv_initial. Qed.

(** [C13] The pool is consistent whatever happens in which order: a slot is empty or
    has a client that carries the index of the slot, every attempt to connect
    succeeded, failed or is awaited, a request gets a living client of the slot
    that was drawn, and there is no event, however late, at which a ping timer
    finds that pings are missing. *)
Theorem client_pool_consistent s : reachable s ->
  (forall i c, clientPool s !! i = Some (Some c) -> exists a, clients s !! c = Some a /\ poolIndex a = Some i) /\
  attempts s = (success s + fail s + length (tasks s))%nat /\ size (clients s) = success s /\
  (forall i c s', getApiClient i s = (Some c, s') ->
     s' = s /\ clientPool s !! i = Some (Some c) /\ exists a, clients s !! c = Some a /\ isAlive a = true /\ poolIndex a = Some i) /\
  pingResets s = 0%nat.
Proof.
  intros Hs%inv_reachable. destruct (proj1 Hs) as [W1 _ _ W4 W5 _ _]. split_and!; [done..| |apply Hs].
  intros i c s'. unfold getApiClient, checkIsClientAlive. destruct (clientPool s !! i) as [[c'|]|] eqn:E; [|done..].
  destruct (W1 _ _ E) as (a & Hc & Ha). cbn. rewrite Hc. destruct (isAlive a) eqn:Hl; [|done].
  intros [= <- <-]. eauto 10.
Qed.
End Pool.

(** A pool of two clients: one is lost and replaced. *)
Definition sample_events : list event :=
  [Init; Settled 0 true; Settled 0 true; Ping 0; Tick 5000; Disconnected 0; GetApiClient 0; HandleReset; Settled 0 true].

Lemma client_pool_consistent_witness :
  let s := run 2 4000 sample_events initial in
  pingResets s = 0%nat /\ attempts s = 3%nat /\ clientPool s = [Some 3%nat; Some 1%nat].
Proof.
  intros s. destruct (client_pool_consistent 2 4000 s) as (_ & _ & _ & _ & Hp); [by exists sample_events|].
  split; [exact Hp|]. vm_compute. done.
Defined.

(** Every request that meets a dead client asks for its reset, so that one dead
    client can be reset twice: the second new client takes the slot, and the
    first stays connected outside of the pool. *)
Example reset_twice_leaks :
  let s := run 2 4000 [Init; Settled 0 true; Settled 0 true; Tick 5000; Disconnected 0; GetApiClient 0; GetApiClient 0;
                       HandleReset; HandleReset; Settled 0 true; Settled 0 true] initial in
  clientPool s = [Some 3%nat; Some 1%nat] /\ (isAlive <$> clients s !! 2%nat) = Some true /\ size (clients s) = 4%nat.
Proof. vm_compute. done. Qed.

(** No ping for a minute, and the timer fires: nothing happens. *)
Example missed_pings_unnoticed :
  let s := run 1 4000 [Init; Settled 0 true; Ping 0; Tick 60000; Timer 1] initial in
  (isAlive <$> clients s !! 0%nat) = Some true /\ resets s = [].
Proof. vm_compute. done. Qed.
