(* ===== verification/Connector.v ===== *)
(** * The blockchain connector

    [blockchain-connector/shared]: requests to the node with their retries
    ([sdk/client.js]), what the service keeps of the node ([endpoints_1.js],
    [fee.js], [token.js], [pos.js], [interoperability.js], ...), the schemas and
    the formats of blocks, transactions and events ([schema.js], [formatter.js],
    [encoder.js], [utils/parser.js]), the cache of blocks ([cache.js]) and the
    blocks and transactions read through it ([endpoints.js], [blocks.js],
    [transactions.js]), and the genesis block ([blocksUtils.js],
    [genesisBlock.js], [utils/download.js]).  [ConnectorPool] has the pool of API
    clients, [ConnectorEvents] the peers and the events.

    An operation runs on a [connector]: the database of the cache, the module
    variables, the redis cache and the requests made ([service]), the files, the
    blocks that wait to be cached and the dispatched signals.  A [Buffer] is the
    object that [JSON.stringify] writes for it. *)
From S2P Require Import Prelude ConnectorPool JsValue Database Json Engine Search Table World Schemas KvStore Chain PoolAddress.
From S2P Require Import Stake Processors BlockIndex Regex Mapper Gateway DataQuery TransactionQuery Validators Files Http Export.
From S2P Require Import Service AccountQuery EstimateFees Dispatch Genesis ConnectorTables.
From Stdlib Require Import Ascii.
Local Open Scope Z_scope.
Set Warnings "-register-all".

(** ** database/schema *)
Definition cacheBlockSchema : table :=
  mkTable "blocks" (Str "id") None
    [("id", coln "string" false);
     ("block", coln "json" false);
     ("timestamp", coln "integer" false)]
    [("timestamp", "range")]
    [].

Definition cacheTrxIDToBlockIDSchema : table :=
  mkTable "transactions" (Str "transactionID") None
    [("transactionID", coln "string" false);
     ("blockID", coln "string" false)]
    [("blockID", "key")]
    [].

(** ** Buffers and utils/parser.js *)
Definition buffer_object (b : buffer) : val := Object [("type", Str "Buffer"); ("data", Arr (Num <$> b))].

(** The bytes of a buffer; anything else is none ([Buffer.isBuffer]). *)
Fixpoint number_list (l : list val) : option buffer :=
  match l with
  | [] => Some []
  | Num z :: l => b ← number_list l; Some (z :: b)
  | _ => None
  end.
Definition as_buffer (v : val) : option buffer :=
  match v with
  | Object [("type", Str "Buffer"); ("data", Arr l)] => number_list l
  | _ => None
  end.

(** [parseToJSONCompatObj]: buffers become hexadecimal texts, big integers
    decimal ones, except a zero that is the argument itself or in an array. *)
Fixpoint toJSONCompat (v : val) : val :=
  match v with
  | Undef | Null | Bool _ | NaN | Num _ | Str _ => v
  | BigI z => if z =? 0 then v else Str (string_of_Z z)
  | Arr l => Arr ((fix go l := match l with
                     | [] => []
                     | x :: l => toJSONCompat x :: go l
                     end) l)
  | Object o =>
      match as_buffer v with
      | Some b => Str (PoolAddress.to_hex b)
      | None => Object ((fix go o := match o with
                     | [] => []
                     | (k, x) :: o =>
                         (k, match x with
                             | BigI z => Str (string_of_Z z)
                             | _ => toJSONCompat x
                             end) :: go o
                     end) o)
      end
  end.

(** What the node and the host answer after [n] requests. *)
Class Node := {
  (** the pool and the index drawn each time the [n]th request looks for a
      client, or the error of [initClientPool]; other requests, timers and
      signals change the pool in between *)
  client_polls : nat -> list (result (pool * nat));
  (** [apiClient._channel.invoke(endpoint, params)] of the client the pool gives *)
  channel_invoke : nat -> string -> obj -> result val;
  (** a request of [http] or [https]: status code, message and body *)
  http_get : nat -> string -> result (Z * string * string);
  (** [tar.extract({ cwd })] of a file *)
  untar : string -> path -> disk string -> disk string;
  (** the working directory *)
  work_dir : path;
}.

(** [@klayr/codec], [@klayr/transactions] *)
Class Codec := {
  codec_encode : val -> val -> result buffer;
  codec_decode : val -> buffer -> result val;
  codec_decodeJSON : val -> buffer -> result val;
  computeMinFee : obj -> val -> obj -> result val;
}.

Section Connector.
Context {St : Type} `{SqlEngine St} `{Crypto} `{Rpc} `{Packages} `{Node} `{Codec}.

(** [schema.format === 'klayr32' && input.startsWith('kly')] *)
Definition input_scalar (input dataType format : val) : result val :=
  let ty_is ty := bool_decide (dataType = Str ty) in
  if ty_is "string" then Ok (Str (js_String input))
  else if ty_is "boolean" then Ok (Bool (truthy input))
  else if ty_is "bytes" then
    s ← as_text input;
    if bool_decide (format = Str "klayr32") && String.prefix "kly" s
    then b ← getAddressFromKlayr32Address s; Ok (buffer_object b)
    else Ok (buffer_object (from_hex s))
  else if ty_is "uint32" || ty_is "sint32" then Ok (js_Number input)
  else if ty_is "uint64" || ty_is "sint64" then z ← js_BigInt input; Ok (BigI z)
  else Ok input.

Definition parseInput (input schema : val) : result val := parse_by input_scalar input schema.

(** ** The state *)
Record connector := mkConnector {
  cn_service : service (St := St);
  cn_disk : disk string;
  cn_waitlist : list val;
  cn_signals : list (string * list val);
}.

Abbreviation eff_connector := (eff connector).

Definition on_sv {A} (m : eff (service (St := St)) A) : eff_connector A := fun s =>
  let (r, v) := m (cn_service s) in (r, mkConnector v (cn_disk s) (cn_waitlist s) (cn_signals s)).
Definition on_files {A} (m : eff (disk string) A) : eff_connector A := fun s =>
  let (r, d) := m (cn_disk s) in (r, mkConnector (cn_service s) d (cn_waitlist s) (cn_signals s)).
Definition set_waitlist (l : list val) : eff_connector unit :=
  modify (fun s => mkConnector (cn_service s) (cn_disk s) l (cn_signals s)).

(** [Signals.get(name).dispatch(...args)] *)
Definition dispatch (name : string) (args : list val) : eff_connector unit :=
  modify (fun s => mkConnector (cn_service s) (cn_disk s) (cn_waitlist s) (cn_signals s ++ [(name, args)])).

(** A module variable: its name is prefixed by its file where files share it. *)
Definition variable (name : string) : eff_connector val := on_sv (var name).
Definition set_variable (name : string) (v : val) : eff_connector unit := on_sv (assign name v).

(** [if (!variable) variable = await request(); return variable] *)
Definition keep (name : string) (request : eff_connector val) : eff_connector val :=
  v ← variable name;
  if truthy v then ret v else v ← request; set_variable name v ≫= fun _ => ret v.

(** The same with [isForceUpdate ||] in front. *)
Definition keep_fresh (name : string) (isForceUpdate : bool) (request : eff_connector val) : eff_connector val :=
  v ← variable name;
  if negb isForceUpdate && truthy v then ret v else v ← request; set_variable name v ≫= fun _ => ret v.

Definition now_ : eff_connector Z := gets (fun s => clock (length (sv_calls (cn_service s)))).

(** ** config.js *)
Definition env_is (name value : string) : bool :=
  String.eqb (toLowerCase (default "undefined" (process_env name))) value.
(** [Number(process.env[name]) || d], for settings that count something *)
Definition env_number (name : string) (d : Z) : Z :=
  match js_Number (match process_env name with Some s => Str s | None => Undef end) with
  | Num z => if z =? 0 then d else z
  | _ => d
  end.

Definition isUseHttpApi : bool := env_is "USE_KLAYR_HTTP_API" "true".
Definition isBlockCachingEnabled : bool := negb (env_is "ENABLE_BLOCK_CACHING" "false").
Definition expiryInHours : Z := env_number "EXPIRY_IN_HOURS" 12.
Definition NUM_REQUEST_RETRIES : nat := Z.to_nat (env_number "ENDPOINT_INVOKE_MAX_RETRIES" 3).
Definition klayrWs : string := default "ws://127.0.0.1:7887" (env_text "KLAYR_APP_WS").

(** [s.replace(pattern, replacement)]: the first occurrence *)
Fixpoint replace_first (pattern replacement s : string) : string :=
  if String.prefix pattern s then replacement +:+ String.substring (String.length pattern) (String.length s) s
  else match s with EmptyString => "" | String c s => String c (replace_first pattern replacement s) end.
Definition klayrHttp : string := default (replace_first "ws" "http" klayrWs) (env_text "KLAYR_APP_HTTP").

(** ** sdk/client.js *)

(** [TIMEOUT_REGEX.test(message)] *)
Definition is_timeout (message : string) : bool :=
  str_includes "ETIMEDOUT" message || str_includes "Response not received in" message.

Definition is2XXResponse (response : obj) : bool := String.prefix "2" (js_String (prop response "status")).

Definition isSuccessResponse (response : obj) : result bool :=
  if is2XXResponse response then r ← get (prop response "data") "result"; Ok (truthy r) else Ok false.

Definition buildHTTPResponse (response : obj) : result val :=
  success ← isSuccessResponse response;
  if success : bool then get (prop response "data") "result"
  else
    let data := prop response "data" in
    if truthy data && truthy (prop (as_obj data) "error") then
      message ← get (prop (as_obj data) "error") "message"; Throw (js_String message)
    else Throw (js_String (prop response "status") +:+ ": " +:+ js_String (prop response "message")).

(** [waitForIt(getApiClient)]: the pool is asked until a client is alive, and
    errors are passed over; without a client the wait has no end. *)
Fixpoint wait_for_client (polls : list (result (pool * nat))) : result nat :=
  match polls with
  | [] => Throw never_returns
  | Ok (s, index) :: polls =>
      match fst (ConnectorPool.getApiClient index s) with
      | Some apiClient => Ok apiClient
      | None => wait_for_client polls
      end
  | Throw _ :: polls => wait_for_client polls
  end.

(** [await getApiClient()]: only the error of the first call is thrown. *)
Definition await_client (polls : list (result (pool * nat))) : result nat :=
  match polls with
  | Throw e :: _ => Throw e
  | _ => wait_for_client polls
  end.

(** One pass through the loop; [requestCount] is the number of recorded calls. *)
Definition attempt (endpoint : string) (params : obj) : eff_connector val :=
  n ← gets (fun s => length (sv_calls (cn_service s)));
  on_sv (modify (fun s => mkService (sv_world s) (sv_vars s) (sv_cache s) (sv_http s) (sv_calls s ++ [(endpoint, params)]))) ≫= fun _ =>
  if isUseHttpApi then
    response ← on_sv (on_http (post_ axios (klayrHttp +:+ "/rpc")
      [("jsonrpc", Str "2.0"); ("id", Num (Z.of_nat n + 1)); ("method", Str endpoint); ("params", Object params)]));
    lift (buildHTTPResponse response)
  else _ ← lift (await_client (client_polls n)); lift (channel_invoke n endpoint params).

Definition timed_out (endpoint : string) (params : obj) : result string :=
  match params with
  | [] => Ok ("Invocation timed out for '" +:+ endpoint +:+ "'.")
  | _ => text ← json_stringify (Object params);
         Ok ("Invocation timed out for '" +:+ endpoint +:+ "' with params:" +:+ newline +:+ default "undefined" text +:+ ".")
  end.

(** [retriesLeft] counts down after each timeout; at zero the loop throws. *)
Fixpoint invoke_loop (retriesLeft : nat) (endpoint : string) (params : obj) : eff_connector val :=
  try_catch (attempt endpoint params) (fun err =>
    if is_timeout (err_message err) then
      match retriesLeft with
      | O => message ← lift (timed_out endpoint params); throw (exception "TimeoutException" message)
      | S n => invoke_loop n endpoint params
      end
    else throw err).

Definition invokeEndpoint (endpoint : string) (params : obj) : eff_connector val :=
  invoke_loop NUM_REQUEST_RETRIES endpoint params.

(** ** sdk/endpoints_1.js *)

(** The variable is set before the schema of cross-chain messages is asked for. *)
Definition getSchemas : eff_connector val :=
  schema ← variable "schema";
  (if truthy schema then ret tt
   else
     schema ← invokeEndpoint "system_getSchema" [];
     set_variable "schema" schema ≫= fun _ =>
     response ← invokeEndpoint "interoperability_getCCMSchema" [];
     ccm ← lift (get response "schema");
     schema ← lift (with_prop schema "ccm" ccm);
     set_variable "schema" schema) ≫= fun _ =>
  variable "schema".

Definition getRegisteredEndpoints : eff_connector val :=
  keep "registeredEndpoints" (invokeEndpoint "app_getRegisteredEndpoints" []).
Definition getRegisteredEvents : eff_connector val :=
  keep "registeredEvents" (invokeEndpoint "app_getRegisteredEvents" []).

Definition getNodeInfo (isForceUpdate : bool) : eff_connector val :=
  keep_fresh "nodeInfo" isForceUpdate
    (nodeInfo ← invokeEndpoint "system_getNodeInfo" [];
     dispatch "systemNodeInfo" [nodeInfo] ≫= fun _ => ret nodeInfo).

Definition getSystemMetadata : eff_connector val := keep "metadata" (invokeEndpoint "system_getMetadata" []).

Definition getRegisteredModules : eff_connector val :=
  keep "registeredModules"
    (systemMetadata ← getSystemMetadata;
     modules ← lift (get systemMetadata "modules"); modules ← lift (elements modules);
     names ← lift (mapM_result (fun module => get module "name") modules);
     ret (Arr names)).

Definition getEngineEndpoints : val := Arr (Object <$> engineEndpoints).

(** ** sdk/schema.js *)
Definition setSchemas (schemas : val) : eff_connector unit := set_variable "schema.schemas" schemas.
Definition setMetadata (metadata : val) : eff_connector unit := set_variable "schema.metadata" metadata.

Definition schema_of (name : string) : eff_connector val :=
  schemas ← variable "schema.schemas"; lift (get schemas name).
Definition getEventSchema : eff_connector val := schema_of "event".
Definition getTransactionSchema : eff_connector val := schema_of "transaction".
Definition getCCMSchema : eff_connector val := schema_of "ccm".

(** [metadata.modules.find(m => m.name === module)] *)
Definition module_metadata (module : val) : eff_connector val :=
  metadata ← variable "schema.metadata";
  modules ← lift (get metadata "modules"); modules ← lift (elements modules);
  found ← lift (js_find (fun m => prop_is m "name" module) modules);
  ret (default Undef found).

Definition getTransactionParamsSchema (transaction : obj) : eff_connector val :=
  moduleMetadata ← module_metadata (prop transaction "module");
  commands ← lift (get moduleMetadata "commands"); commands ← lift (elements commands);
  found ← lift (js_find (fun c => prop_is c "name" (prop transaction "command")) commands);
  lift (get (default Undef found) "params").

Definition getBlockAssetDataSchemaByModule (module : val) : eff_connector val :=
  moduleMetadata ← module_metadata module;
  assets ← lift (get moduleMetadata "assets"); assets ← lift (elements assets);
  lift (get (match assets with [] | Undef :: _ => Object [] | a :: _ => a end) "data").

(** The entries of [eventSchemaLookup], which is filled at the first use. *)
Definition event_schemas (metadata : val) : result obj :=
  modules ← get metadata "modules"; modules ← elements modules;
  foldM (fun acc module =>
    name ← get module "name";
    events ← get module "events"; events ← elements events;
    foldM (fun acc moduleEvent =>
      event ← get moduleEvent "name"; data ← get moduleEvent "data";
      Ok (set_prop acc (js_String name +:+ "_" +:+ js_String event) data)) acc events) [] modules.

Definition getDataSchemaByEvent (event : obj) : eff_connector val :=
  if bool_decide (prop event "name" = Str EVENT_NAME_COMMAND_EXECUTION_RESULT) then schema_of "standardEvent"
  else
    lookup ← variable "schema.eventSchemaLookup";
    lookup ← (match as_obj lookup with
              | [] =>
                  metadata ← variable "schema.metadata";
                  l ← lift (event_schemas metadata);
                  set_variable "schema.eventSchemaLookup" (Object l) ≫= fun _ => ret l
              | l => ret l
              end);
    ret (js_or (prop lookup (js_String (prop event "module") +:+ "_" +:+ js_String (prop event "name"))) Null).

(** ** sdk/fee.js *)
Definition cacheMinFeePerByte : eff_connector unit :=
  response ← invokeEndpoint "fee_getMinFeePerByte" [];
  error ← lift (get response "error");
  if truthy error then throw (js_String error)
  else v ← lift (get response "minFeePerByte"); set_variable "minFeePerByte" v.

Definition cacheFeeTokenID : eff_connector unit :=
  response ← invokeEndpoint "fee_getFeeTokenID" [];
  error ← lift (get response "error");
  if truthy error then throw (js_String error)
  else v ← lift (get response "tokenID"); set_variable "feeTokenID" v.

Definition cacheFeeConstants : eff_connector unit :=
  try_catch
    (minFeePerByte ← variable "minFeePerByte";
     (if bool_decide (minFeePerByte = Undef) then cacheMinFeePerByte else ret tt) ≫= fun _ =>
     feeTokenID ← variable "feeTokenID";
     if bool_decide (feeTokenID = Undef) then cacheFeeTokenID else ret tt)
    (fun _ => ret tt).

Definition getFeeTokenID : eff_connector val := variable "feeTokenID".
Definition getMinFeePerByte : eff_connector val := variable "minFeePerByte".

(** ** sdk/formatter.js *)

(** [transaction] of [formatTransaction]: a text is decoded. *)
Definition decoded_transaction (txSchema transaction : val) : result obj :=
  match transaction with
  | Str s => v ← codec_decode txSchema (from_hex s); Ok (as_obj v)
  | v => Ok (as_obj v)
  end.

(** [transaction.params] in hexadecimal *)
Definition encoded_params (txParamsSchema params : val) : result val :=
  if String.eqb (typeof params) "object" then
    match as_buffer params with
    | Some b => Ok (Str (PoolAddress.to_hex b))
    | None => parsed ← parseInput params txParamsSchema;
              b ← codec_encode txParamsSchema parsed; Ok (Str (PoolAddress.to_hex b))
    end
  else Ok params.

Definition formatTransaction (transaction additionalFee : val) : eff_connector val :=
  txSchema ← getTransactionSchema;
  transaction ← lift (decoded_transaction txSchema transaction);
  txParamsSchema ← getTransactionParamsSchema transaction;
  params ← lift (encoded_params txParamsSchema (prop transaction "params"));
  let transaction := if String.eqb (typeof (prop transaction "params")) "object" then set_prop transaction "params" params else transaction in
  schemaCompliantTransaction ← lift (parseInput (Object transaction) txSchema);
  hex ← lift (as_text params);
  let bytes := from_hex hex in
  schemaCompliantTransactionParams ← lift (codec_decode txParamsSchema bytes);
  signatures ← lift (elements (prop transaction "signatures"));
  let nonEmptySignatureCount := Z.of_nat (length (filter (fun s => truthy s = true) signatures)) in
  minFeePerByte ← getMinFeePerByte;
  additionalFee ← lift (js_BigInt additionalFee);
  transactionMinFee ← lift (computeMinFee
    (spread (as_obj schemaCompliantTransaction) [("params", schemaCompliantTransactionParams)]) txParamsSchema
    [("minFeePerByte", js_or minFeePerByte Null);
     ("numberOfSignatures", Num nonEmptySignatureCount);
     ("numberOfEmptySignatures", Num (Z.of_nat (length signatures) - nonEmptySignatureCount));
     ("additionalFee", BigI additionalFee)]);
  transactionBuffer ← lift (codec_encode txSchema (Object (spread (as_obj schemaCompliantTransaction)
    [("fee", js_or (prop (as_obj schemaCompliantTransaction) "fee") transactionMinFee)])));
  params ← lift (codec_decodeJSON txParamsSchema bytes);
  ret (toJSONCompat (Object (spread transaction
    [("params", params); ("size", Num (Z.of_nat (length transactionBuffer))); ("minFee", transactionMinFee)]))).

Definition format_asset (asset : val) : eff_connector val :=
  data ← lift (get asset "data");
  match data with
  | Str s =>
      let assetModule := prop (as_obj asset) "module" in
      schema ← getBlockAssetDataSchemaByModule assetModule;
      formatted ← (if truthy schema then lift (codec_decodeJSON schema (from_hex s)) else ret data);
      ret (Object [("module", assetModule); ("data", formatted)])
  | _ => ret asset
  end.

Definition formatBlock (block : val) : eff_connector val :=
  header ← lift (get block "header");
  assets ← lift (get block "assets"); assets ← lift (elements assets);
  blockAssets ← map_each assets format_asset;
  transactions ← lift (get block "transactions"); transactions ← lift (elements transactions);
  blockTransactions ← map_each transactions (fun t => formatTransaction t (Num 0));
  ret (toJSONCompat (Object [("header", header); ("assets", Arr blockAssets); ("transactions", Arr blockTransactions)])).

(** [eventData[prop] = getKlayr32Address(eventData[prop].toString('hex'))]: the
    decoded JSON has addresses as texts. *)
Definition format_address (eventData : obj) (key : string) : result obj :=
  if ends_with key "Address" then
    s ← as_text (prop eventData key);
    a ← getKlayr32Address s; Ok (set_prop eventData key (Str a))
  else Ok eventData.

(** The data of an event; [None] when decoding failed. *)
Definition event_data (event : obj) : eff_connector (option val) :=
  eventDataSchema ← getDataSchemaByEvent event;
  if truthy eventDataSchema then
    match prop event "data" with
    | Str s =>
        match codec_decodeJSON eventDataSchema (from_hex s) with
        | Throw _ => ret None
        | Ok data =>
            properties ← lift (get eventDataSchema "properties");
            properties ← lift (to_obj properties);
            o ← lift (foldM format_address (as_obj data) (properties.*1));
            ret (Some (Object o))
        end
    | _ => ret None
    end
  else ret (Some (Object [("data", prop event "data")])).

(** The names of the topics of an event, if the tables have them. *)
Definition topic_names (event : obj) : option (list string) :=
  if bool_decide (prop event "name" = Str EVENT_NAME_COMMAND_EXECUTION_RESULT) then Some COMMAND_EXECUTION_RESULT_TOPICS
  else
    events ← Dispatch.assoc EVENT_TOPIC_MAPPINGS_BY_MODULE (js_String (prop event "module"));
    Dispatch.assoc events (js_String (prop event "name")).

Definition is_address_topic (name : string) : bool :=
  ends_with (toLowerCase name) "address" && negb (str_includes "legacy" name).

Definition format_topic (topics : list string) (index : nat) (topic : val) : result val :=
  if is_address_topic (default "" (topics !! index)) then
    s ← as_text topic; a ← getKlayr32Address s; Ok (Str a)
  else Ok topic.

Definition format_topics (event : obj) : result val :=
  match topic_names event with
  | None => Ok (prop event "topics")
  | Some names =>
      topics ← elements (prop event "topics");
      l ← mapM_result (fun it => format_topic names (fst it) (snd it)) (imap pair topics);
      Ok (Arr l)
  end.

Definition formatEvent (event : obj) (skipDecode : bool) : eff_connector val :=
  eventSchema ← getEventSchema;
  schemaCompliantEvent ← lift (parseInput (Object event) eventSchema);
  eventBuffer ← lift (codec_encode eventSchema schemaCompliantEvent);
  let eventID := sha256 eventBuffer in
  eventData ← (if skipDecode then ret (Some (prop event "data")) else event_data event);
  match eventData with
  | None => ret (Object [("data", prop event "data")])
  | Some eventData =>
      eventTopics ← lift (format_topics event);
      ret (toJSONCompat (Object (spread event
        [("data", eventData); ("topics", eventTopics); ("id", buffer_object eventID)])))
  end.

(** [parseToJSONCompatObj] of a formatted value changes nothing more. *)
Definition formatResponse (endpoint : string) (response : val) : eff_connector val :=
  if bool_decide (endpoint ∈ ["app_getBlockByHeight"; "app_getBlockByID"; "app_getLastBlock"]) then
    b ← formatBlock response; ret (toJSONCompat b)
  else if bool_decide (endpoint ∈ ["app_getBlocksByHeightBetween"; "app_getBlocksByIDs"]) then
    blocks ← lift (elements response);
    l ← map_each blocks (fun block => b ← formatBlock block; ret (toJSONCompat b)); ret (Arr l)
  else if bool_decide (endpoint ∈ ["app_getTransactionByID"]) then
    t ← formatTransaction response (Num 0); ret (toJSONCompat t)
  else if bool_decide (endpoint ∈ ["getTransactionsByIDs"; "getTransactionsFromPool"]) then
    transactions ← lift (elements response);
    l ← map_each transactions (fun t => t ← formatTransaction t (Num 0); ret (toJSONCompat t)); ret (Arr l)
  else ret response.

Definition formatAPIClientEventPayload (eventName : string) (payload : val) : eff_connector val :=
  if bool_decide (eventName ∈ ["app_newBlock"; "app_deleteBlock"; "app_chainForked"]) then
    block ← lift (get payload "block"); b ← formatBlock block; ret (toJSONCompat b)
  else if String.eqb eventName "app_newTransaction" then
    transaction ← lift (get payload "transaction"); t ← formatTransaction transaction (Num 0); ret (toJSONCompat t)
  else ret payload.

(** ** sdk/encoder.js *)

(** [try { validator.validate(schema, v) } catch (err) { throw new InvalidParamsException(err) }] *)
Definition validated (schema v : val) : eff_connector unit :=
  match validate schema v with
  | Ok _ => ret tt
  | Throw err => throw (exception "InvalidParamsException" (err_text err))
  end.

Definition encodeTransaction (transaction : obj) : eff_connector val :=
  txParamsSchema ← getTransactionParamsSchema transaction;
  txSchema ← getTransactionSchema;
  parsedTxParams ← lift (parseInput (prop transaction "params") txParamsSchema);
  parsedTx ← lift (parseInput (Object transaction) txSchema);
  validated txParamsSchema parsedTxParams ≫= fun _ =>
  txParamsBuffer ← lift (codec_encode txParamsSchema parsedTxParams);
  let tx := Object (spread (as_obj parsedTx) [("params", buffer_object txParamsBuffer)]) in
  validated txSchema tx ≫= fun _ =>
  txBuffer ← lift (codec_encode txSchema tx);
  ret (Str (PoolAddress.to_hex txBuffer)).

Definition encodeCCM (ccm : val) : eff_connector val :=
  ccmSchema ← getCCMSchema;
  parsedCCM ← lift (parseInput ccm ccmSchema);
  validated ccmSchema parsedCCM ≫= fun _ =>
  ccmBuffer ← lift (codec_encode ccmSchema parsedCCM);
  ret (Str (PoolAddress.to_hex ccmBuffer)).

(** ** sdk/cache.js *)
Definition in_cache_db {A} (f : St -> result A) : eff_connector A := on_sv (on_world (read Auto f)).
Definition to_cache_db (f : St -> result St) : eff_connector unit := on_sv (on_world (write Auto f)).

Definition header_of (block : val) (key : string) : result val := h ← get block "header"; get h key.

(** The callers do not await it; it runs to its end here before they go on. *)
Definition cacheBlocksIfEnabled (blocks : val) : eff_connector unit :=
  if negb isBlockCachingEnabled || negb (String.eqb (typeof blocks) "object") then ret tt
  else
    try_catch
      (let blockList := match blocks with Arr l => l | v => [v] end in
       networkStatus ← getNodeInfo false;
       for_each blockList (fun block =>
         height ← lift (header_of block "height");
         finalizedHeight ← lift (get networkStatus "finalizedHeight");
         if js_less finalizedHeight height
         then waitlist ← gets cn_waitlist; set_waitlist (waitlist ++ [block]) else ret tt))
      (fun _ => ret tt).

(** What is stored for a block. *)
Definition cache_block (block : val) : eff_connector unit :=
  transactions ← lift (get block "transactions"); transactions ← lift (elements transactions);
  for_each transactions (fun transaction =>
    transactionID ← lift (get transaction "id");
    blockID ← lift (header_of block "id");
    to_cache_db (upsert cacheTrxIDToBlockIDSchema (Object [("transactionID", transactionID); ("blockID", blockID)]))) ≫= fun _ =>
  id ← lift (header_of block "id");
  timestamp ← lift (header_of block "timestamp");
  to_cache_db (upsert cacheBlockSchema (Object [("id", id); ("timestamp", timestamp); ("block", block)])).

(** The [while] loop: a block is taken from the list, or there is one error
    more, of which the fifth ends it. *)
Fixpoint cache_loop (fuel numErrors : nat) : eff_connector unit :=
  waitlist ← gets cn_waitlist;
  match waitlist, fuel with
  | [], _ => ret tt
  | _, O => throw never_returns
  | block :: rest, S fuel =>
      set_waitlist rest ≫= fun _ =>
      failed ← try_catch (cache_block block ≫= fun _ => ret false)
        (fun _ => _ ← lift (header_of block "id");
                  waitlist ← gets cn_waitlist; set_waitlist (block :: waitlist) ≫= fun _ => ret true);
      if failed : bool then if (3 <? numErrors)%nat then ret tt else cache_loop fuel (S numErrors)
      else cache_loop fuel numErrors
  end.

Definition cacheBlocksFromWaitlist : eff_connector unit :=
  waitlist ← gets cn_waitlist; cache_loop (length waitlist + 5) 0.

Definition getBlockByIDFromCache (id : val) : eff_connector val :=
  resultSet ← in_cache_db (find cacheBlockSchema [("id", id); ("limit", Num 1)] (Arr [Str "block"]));
  match resultSet with
  | [] => ret Null
  | row :: _ => text ← lift (as_text (prop row "block")); lift (json_parse text)
  end.

Definition getTransactionByIDFromCache (transactionID : val) : eff_connector val :=
  resultSet ← in_cache_db (find cacheTrxIDToBlockIDSchema
    [("transactionID", transactionID); ("limit", Num 1)] (Arr [Str "blockID"]));
  match resultSet with
  | [] => ret Null
  | row :: _ =>
      block ← getBlockByIDFromCache (prop row "blockID");
      if negb (truthy block) then ret Null
      else
        transactions ← lift (get block "transactions"); transactions ← lift (elements transactions);
        found ← lift (js_find (fun tx => prop_is tx "id" transactionID) transactions);
        ret (default Undef found)
  end.

(** [moment().subtract(hours, 'hours').unix()] *)
Definition hours_ago (hours : Z) : eff_connector Z := now ← now_; ret (now / 1000 - hours * 3600).

Definition cacheCleanup (expiryInHours : Z) : eff_connector unit :=
  to ← hours_ago expiryInHours;
  resultSet ← in_cache_db (find cacheBlockSchema
    [("propBetweens", Arr [Object [("property", Str "timestamp"); ("to", Num to)]])] (Str "id"));
  let blockIDs := Arr ((fun e => prop e "id") <$> resultSet) in
  on_sv (on_world (write_count Auto (deleteByParams cacheTrxIDToBlockIDSchema
    [("whereIn", Object [("property", Str "blockID"); ("values", blockIDs)])]))) ≫= fun _ =>
  on_sv (on_world (write_count Auto (deleteByPrimaryKey cacheBlockSchema blockIDs))) ≫= fun _ => ret tt.

(** [jobs/cacheCleanup.js] *)
Definition cache_cleanup_job : eff_connector unit :=
  try_catch (if isBlockCachingEnabled then cacheCleanup expiryInHours else ret tt) (fun _ => ret tt).

(** ** utils/download.js and utils/fs.js *)
Definition looks {A} (f : disk string -> result A) : eff_connector A := fun s => (f (cn_disk s), s).
Definition exists_path (p : val) : eff_connector bool := looks (fun d => Ok (exists_ work_dir p d)).

(** Nobody listens to the errors of the request and of the file that is
    written: they end the process. *)
Definition downloadFile (url dirPath : string) : eff_connector unit :=
  n ← gets (fun s => length (sv_calls (cn_service s)));
  now ← now_;
  on_sv (modify (fun s => mkService (sv_world s) (sv_vars s) (sv_cache s) (sv_http s) (sv_calls s ++ [(url, [])]))) ≫= fun _ =>
  match http_get n url with
  | Throw _ => throw never_returns
  | Ok (status, message, body) =>
      if status =? 200 then
        let fileName := List.last (split_on "/" url) "" in
        uncaught (on_files (write_file work_dir now (dirPath +:+ "/" +:+ fileName) body))
      else
        let errMessage := "Download failed with HTTP status code: " +:+ string_of_Z status +:+ " (" +:+ message +:+ ")" in
        throw (if status =? 404 then exception "NotFoundException" errMessage else errMessage)
  end.

Definition verifyFileChecksum (filePath checksumPath : string) : eff_connector bool :=
  file ← exists_path (Str filePath);
  checksum ← exists_path (Str checksumPath);
  if negb file || negb checksum then ret false
  else
    text ← on_files (read_file work_dir checksumPath);
    let expectedChecksum := hd "" (split_on " " text) in
    content ← on_files (read_file work_dir filePath);
    ret (String.eqb (PoolAddress.to_hex (sha256 (utf8 content))) expectedChecksum).

Definition extractTarBall (filePath directoryPath : string) : eff_connector unit :=
  content ← on_files (read_file work_dir filePath);
  on_files (modify (untar content (resolve work_dir directoryPath))).

(** ** sdk/blocksUtils.js *)
Definition genesisBlockUrl_setting : string := default "" (env_text "GENESIS_BLOCK_URL").
Definition connector_networks : list obj :=
  [[("name", Str "mainnet"); ("chainID", Str "00000000");
    ("genesisBlockUrl", Str "https://downloads.klayr.xyz/klayr/mainnet/genesis_block.json.tar.gz")];
   [("name", Str "testnet"); ("chainID", Str "01000000");
    ("genesisBlockUrl", Str "https://downloads.klayr.xyz/klayr/testnet/genesis_block.json.tar.gz")];
   [("name", Str "betanet"); ("chainID", Str "02000000");
    ("genesisBlockUrl", Str "https://downloads.klayr.xyz/klayr/betanet/genesis_block.json.tar.gz")]].

(** [genesisBlock], which is [{ header: {} }] at first *)
Definition loadedGenesisBlock : eff_connector val :=
  v ← variable "genesisBlock"; ret (js_or v (Object [("header", Object [])])).
Definition getGenesisBlockId : eff_connector val := block ← loadedGenesisBlock; lift (header_of block "id").

Definition loadConfig : eff_connector unit :=
  nodeInfo ← getNodeInfo false;
  chainID ← lift (get nodeInfo "chainID");
  let set url :=
    set_variable "genesisBlockUrl" url ≫= fun _ =>
    set_variable "genesisBlockFilePath" (Str ("./data/" +:+ js_String chainID +:+ "/genesis_block.json")) in
  if negb (String.eqb genesisBlockUrl_setting "") then set (Str genesisBlockUrl_setting)
  else match filter (fun c => prop c "chainID" = chainID) connector_networks with
       | networkConfig :: _ => set (prop networkConfig "genesisBlockUrl")
       | [] => ret tt
       end.

(** [path.dirname] of a path with a slash *)
Definition dir_name (p : string) : string := join "/" (removelast (split_on "/" p)).

Definition download_attempt (genesisBlockUrl directoryPath genesisFilePath : string) : eff_connector bool :=
  there ← exists_path (Str directoryPath);
  (if there : bool then ret tt else now ← now_; on_files (mkdir work_dir now directoryPath)) ≫= fun _ =>
  downloadFile genesisBlockUrl directoryPath ≫= fun _ =>
  downloadFile (genesisBlockUrl +:+ ".SHA256") directoryPath ≫= fun _ =>
  isValidGenesisBlock ← verifyFileChecksum genesisFilePath (genesisFilePath +:+ ".SHA256");
  if isValidGenesisBlock : bool then
    (if ends_with genesisFilePath ".tar.gz" then extractTarBall genesisFilePath directoryPath else ret tt) ≫= fun _ => ret true
  else on_files (rmdir work_dir directoryPath) ≫= fun _ => ret false.

(** The [do ... while (retries-- > 0)] loop, after which the process exits. *)
Fixpoint download_loop (retries : nat) (genesisBlockUrl directoryPath genesisFilePath : string) : eff_connector unit :=
  valid ← try_catch (download_attempt genesisBlockUrl directoryPath genesisFilePath) (fun err =>
    if instance_of "NotFoundException" err
    then set_variable "isGenesisBlockURLNotFound" (Bool true) ≫= fun _ => throw err
    else ret false);
  if valid : bool then ret tt
  else match retries with
       | O => throw never_returns
       | S retries => download_loop retries genesisBlockUrl directoryPath genesisFilePath
       end.

Definition downloadAndValidateGenesisBlock : eff_connector unit :=
  filePath ← variable "genesisBlockFilePath"; filePath ← lift (as_text filePath);
  url ← variable "genesisBlockUrl"; url ← lift (as_text url);
  let directoryPath := dir_name filePath in
  let genesisFileName := List.last (split_on "/" url) "" in
  download_loop 2 url directoryPath (directoryPath +:+ "/" +:+ genesisFileName).

Definition getGenesisBlockFromFS : eff_connector val :=
  notFound ← variable "isGenesisBlockURLNotFound";
  if truthy notFound then throw (exception "NotFoundException" "")
  else
    url ← variable "genesisBlockUrl"; filePath ← variable "genesisBlockFilePath";
    (if truthy url && truthy filePath then ret tt else loadConfig) ≫= fun _ =>
    id ← getGenesisBlockId;
    (if truthy id then ret tt
     else
       filePath ← variable "genesisBlockFilePath";
       there ← exists_path filePath;
       (if there : bool then ret tt else downloadAndValidateGenesisBlock) ≫= fun _ =>
       text ← uncaught (filePath ← variable "genesisBlockFilePath"; p ← lift (as_text filePath); on_files (read_file work_dir p));
       block ← lift (json_parse text);
       formattedBlock ← formatBlock block;
       set_variable "genesisBlock" formattedBlock) ≫= fun _ =>
    loadedGenesisBlock.

(** ** sdk/genesisBlock.js *)
Definition getGenesisHeight : eff_connector val :=
  keep "genesisHeight" (nodeInfo ← getNodeInfo false; lift (get nodeInfo "genesisHeight")).

Definition genesis_from_node : eff_connector val :=
  height ← getGenesisHeight;
  try_catch (invokeEndpoint "chain_getBlockByHeight" [("height", height)])
    (fun err => if is_timeout (err_message err)
                then throw (exception "TimeoutException" "Request timed out when calling 'getGenesisBlock'.")
                else throw err).

Definition getGenesisBlock (isIncludeAssets : bool) : eff_connector val :=
  try_catch
    (block ← getGenesisBlockFromFS;
     assets ← lift (get block "assets");
     ret (Object (spread (as_obj block) [("assets", if isIncludeAssets then assets else Arr [])])))
    (fun _ => genesis_from_node).

Definition getGenesisBlockFormatted (includeAssets : bool) : eff_connector val :=
  rawGenesisBlock ← getGenesisBlock includeAssets; formatBlock rawGenesisBlock.

Definition getGenesisBlockID : eff_connector val :=
  keep "genesisBlockID" (genesisBlock ← getGenesisBlock false; lift (header_of genesisBlock "id")).

Definition getGenesisConfig : eff_connector val :=
  try_catch (keep "genesisConfig" (nodeInfo ← getNodeInfo false; lift (get nodeInfo "genesis")))
    (fun err => if is_timeout (err_message err)
                then throw (exception "TimeoutException" "Request timed out when calling 'getGenesisConfig'.")
                else throw err).

(** The assets by module, sub store and page are [Genesis.getGenesisAssets]. *)
Definition with_genesis_assets {A} (f : result (list val) -> result A) : eff_connector A :=
  genesisBlock ← getGenesisBlockFormatted true;
  assets ← lift (get genesisBlock "assets");
  lift (f (elements assets)).
Definition genesisAssets (params : obj) : eff_connector (list val) :=
  with_genesis_assets (fun assets => Genesis.getGenesisAssets assets params).
Definition genesisAssetByModule (params : obj) : eff_connector val :=
  with_genesis_assets (fun assets => Genesis.getGenesisAssetByModule assets params).
Definition genesisAssetsLength (params : obj) : eff_connector obj :=
  with_genesis_assets (fun assets => Genesis.getGenesisAssetsLength assets params).

(** ** sdk/endpoints.js *)
Definition node_getConnectedPeers : eff_connector val := invokeEndpoint "network_getConnectedPeers" [].
Definition node_getDisconnectedPeers : eff_connector val := invokeEndpoint "network_getDisconnectedPeers" [].
Definition getGeneratorStatus : eff_connector val := invokeEndpoint "generator_getStatus" [].
Definition updateGeneratorStatus (generatorConfig : obj) : eff_connector val := invokeEndpoint "generator_updateStatus" generatorConfig.
Definition node_getLastBlock : eff_connector val := invokeEndpoint "chain_getLastBlock" [].

Definition node_getBlockByHeight (height : val) (includeGenesisAssets : bool) : eff_connector val :=
  gHeight ← getGenesisHeight;
  if bool_decide (js_Number height = gHeight) && negb (bool_decide (gHeight = NaN)) then getGenesisBlock includeGenesisAssets
  else
    block ← invokeEndpoint "chain_getBlockByHeight" [("height", height)];
    cacheBlocksIfEnabled block ≫= fun _ => ret block.

(** An element of the list that is flattened. *)
Definition flat_item (v : val) : list val := match v with Arr l => l | v => [v] end.

Definition node_getBlocksByHeightBetween (from to : val) : eff_connector (list val) :=
  gHeight ← getGenesisHeight;
  if js_less from gHeight
  then throw ("'from' cannot be lower than the genesis height (" +:+ js_String gHeight +:+ ").")
  else
    let at_genesis := bool_decide (js_Number from = gHeight) && negb (bool_decide (gHeight = NaN)) in
    first ← (if at_genesis then node_getBlockByHeight gHeight false else ret (Arr []));
    let from := if at_genesis then match js_Number from with Num z => Num (z + 1) | v => v end else from in
    rest ← (if negb (js_less to from) && negb (bool_decide (js_Number from = NaN)) && negb (bool_decide (js_Number to = NaN))
            then invokeEndpoint "chain_getBlocksByHeightBetween" [("from", from); ("to", to)] else ret (Arr []));
    let blocks := flat_item first ++ flat_item rest in
    cacheBlocksIfEnabled (Arr blocks) ≫= fun _ => ret blocks.

Definition node_getBlockByID (id : val) (includeGenesisAssets : bool) : eff_connector val :=
  genesisBlockId ← getGenesisBlockID;
  if bool_decide (id = genesisBlockId) then getGenesisBlock includeGenesisAssets
  else
    blockFromCache ← try_catch (getBlockByIDFromCache id) (fun _ => ret Null);
    if truthy blockFromCache then ret blockFromCache
    else
      block ← invokeEndpoint "chain_getBlockByID" [("id", id)];
      cacheBlocksIfEnabled block ≫= fun _ => ret block.

(** [l.splice(i, 0, x)] *)
Definition splice_in {A} (i : nat) (x : A) (l : list A) : list A := take i l ++ x :: drop i l.

(** Without the id of the genesis block the list of ids gets shorter, so that
    there are at most as many recursive calls as ids. *)
Fixpoint blocks_by_ids (fuel : nat) (ids : list val) : eff_connector (list val) :=
  genesisBlockId ← getGenesisBlockID;
  match list_find (fun id => id = genesisBlockId) ids, fuel with
  | Some (genesisBlockIndex, _), S fuel =>
      let remainingIDs := filter (fun id => id <> genesisBlockId) ids in
      genesisBlock ← node_getBlockByID genesisBlockId false;
      match remainingIDs with
      | [] => ret [genesisBlock]
      | _ => remainingBlocks ← blocks_by_ids fuel remainingIDs;
             ret (splice_in genesisBlockIndex genesisBlock remainingBlocks)
      end
  | Some _, O => throw never_returns
  | None, _ =>
      if isBlockCachingEnabled then map_each ids (fun id => node_getBlockByID id false)
      else blocks ← invokeEndpoint "chain_getBlocksByIDs" [("ids", Arr ids)]; lift (elements blocks)
  end.

Definition node_getBlocksByIDs (ids : list val) : eff_connector (list val) := blocks_by_ids (length ids) ids.

Definition node_getEventsByHeight (height : val) : eff_connector val := invokeEndpoint "chain_getEvents" [("height", height)].

Definition node_getTransactionByID (id : val) : eff_connector val :=
  transactionFromCache ← try_catch (getTransactionByIDFromCache id) (fun _ => ret Null);
  if truthy transactionFromCache then ret transactionFromCache
  else invokeEndpoint "chain_getTransactionByID" [("id", id)].

Definition node_getTransactionsByIDs (ids : list val) : eff_connector (list val) :=
  if isBlockCachingEnabled then map_each ids node_getTransactionByID
  else l ← invokeEndpoint "chain_getTransactionsByIDs" [("ids", Arr ids)]; lift (elements l).

Definition node_getTransactionsFromPool : eff_connector val := invokeEndpoint "txpool_getTransactionsFromPool" [].
Definition postTransaction (transaction : val) : eff_connector val := invokeEndpoint "txpool_postTransaction" [("transaction", transaction)].
Definition node_dryRunTransaction (transaction skipVerify strict : val) : eff_connector val :=
  invokeEndpoint "txpool_dryRunTransaction" [("transaction", transaction); ("skipVerify", skipVerify); ("strict", strict)].
Definition getGenerators : eff_connector val := invokeEndpoint "chain_getGeneratorList" [].
Definition getBFTParameters (height : val) : eff_connector val := invokeEndpoint "consensus_getBFTParameters" [("height", height)].

(** ** sdk/blocks.js *)
Definition getLastBlock : eff_connector val := block ← node_getLastBlock; formatBlock block.
Definition getBlockByHeight (height : val) (includeGenesisAssets : bool) : eff_connector val :=
  block ← node_getBlockByHeight height includeGenesisAssets; formatBlock block.
Definition getBlocksByHeightBetween (from to : val) : eff_connector (list val) :=
  blocks ← node_getBlocksByHeightBetween from to; map_each blocks formatBlock.
Definition getBlockByID (id : val) : eff_connector val := block ← node_getBlockByID id false; formatBlock block.
Definition getBlocksByIDs (ids : list val) : eff_connector (list val) :=
  blocks ← node_getBlocksByIDs ids; map_each blocks formatBlock.

(** ** sdk/transactions.js *)
Definition getTransactionByID (id : val) : eff_connector val :=
  transaction ← node_getTransactionByID id; formatTransaction transaction (Num 0).
Definition getTransactionsByIDs (ids : list val) : eff_connector (list val) :=
  transactions ← node_getTransactionsByIDs ids; map_each transactions (fun t => formatTransaction t (Num 0)).

Definition getTransactionsFromPool : eff_connector (list val) :=
  transactions ← node_getTransactionsFromPool; transactions ← lift (elements transactions);
  formattedTransactions ← map_each transactions (fun t => try_catch (formatTransaction t (Num 0)) (fun _ => ret Null));
  ret (filter (fun t => truthy t = true) formattedTransactions).

Definition dryRunTransaction (params : obj) : eff_connector val :=
  encodedTransaction ← (match prop params "transaction" with
                        | Object o => encodeTransaction o
                        | v => ret v
                        end);
  response ← node_dryRunTransaction encodedTransaction (prop params "skipVerify") (prop params "strict");
  events ← lift (get response "events"); events ← lift (elements events);
  events ← map_each events (fun event => formatEvent (as_obj event) (truthy (prop params "skipDecode")));
  lift (with_prop response "events" (Arr events)).

(** ** sdk/invoke.js, auth.js, legacy.js, validators.js *)
Definition invokeEndpointProxy (endpoint : string) (params : obj) : eff_connector val :=
  response ← invokeEndpoint endpoint params; formatResponse endpoint response.
Definition getAuthAccount (address : val) : eff_connector val := invokeEndpoint "auth_getAuthAccount" [("address", address)].
Definition getAuthMultiSigRegMsgSchema : eff_connector val := invokeEndpoint "auth_getMultiSigRegMsgSchema" [].
Definition getLegacyAccount (publicKey : val) : eff_connector val := invokeEndpoint "legacy_getLegacyAccount" [("publicKey", publicKey)].
Definition validateBLSKey (blsKey proofOfPossession : val) : eff_connector val :=
  invokeEndpoint "validators_validateBLSKey" [("blsKey", blsKey); ("proofOfPossession", proofOfPossession)].
Definition getValidator (address : val) : eff_connector val := invokeEndpoint "validators_getValidator" [("address", address)].

(** ** sdk/interoperability.js *)
Definition getChainAccount (chainID : val) : eff_connector val := invokeEndpoint "interoperability_getChainAccount" [("chainID", chainID)].

Definition getMainchainID : eff_connector val :=
  keep "mainchainID"
    (nodeInfo ← getNodeInfo false;
     chainID ← lift (get nodeInfo "chainID");
     response ← invokeEndpoint "interoperability_getMainchainID" [("chainID", chainID)];
     error ← lift (get response "error");
     unregistered ← (if truthy error then
                       message ← lift (get error "message"); m ← lift (as_text message);
                       ret (str_includes "not registered to bus" m)
                     else ret false);
     if unregistered : bool then ret chainID else lift (get response "mainchainID")).

Definition isMainchain : eff_connector bool :=
  isThisMainchain ← variable "isThisMainchain";
  match isThisMainchain with
  | Bool b => ret b
  | _ =>
      nodeInfo ← getNodeInfo false;
      chainID ← lift (get nodeInfo "chainID");
      mainchainID ← getMainchainID;
      let b := bool_decide (chainID = mainchainID) in
      set_variable "isThisMainchain" (Bool b) ≫= fun _ => ret b
  end.

Definition getChannel (chainID : val) : eff_connector val := invokeEndpoint "interoperability_getChannel" [("chainID", chainID)].
Definition getRegistrationFee : eff_connector val :=
  keep "registrationFee" (invokeEndpoint "interoperability_getRegistrationFee" []).

(** ** sdk/dynamicReward.js *)
Definition cacheRegisteredRewardModule : eff_connector unit :=
  registeredModules ← getRegisteredModules;
  modules ← lift (elements registeredModules);
  let found := default Undef (List.find (fun m => bool_decide (m ∈ [Str "dynamicReward"; Str "reward"])) modules) in
  set_variable "registeredRewardModule" found ≫= fun _ =>
  if truthy found then ret tt else throw "Unable to determine registered reward module.".

Definition reward_endpoint (name : string) (params : obj) : eff_connector val :=
  module ← variable "registeredRewardModule"; invokeEndpoint (js_String module +:+ "_" +:+ name) params.

Definition getRewardTokenID : eff_connector val :=
  keep "rewardTokenID" (response ← reward_endpoint "getRewardTokenID" []; lift (get response "tokenID")).
Definition getAnnualInflation (height : val) : eff_connector val := reward_endpoint "getAnnualInflation" [("height", height)].
Definition getDefaultRewardAtHeight (height : val) : eff_connector val := reward_endpoint "getDefaultRewardAtHeight" [("height", height)].

(** ** sdk/token.js *)
Definition getTokenBalances (address : val) : eff_connector val := invokeEndpoint "token_getBalances" [("address", address)].
Definition getTokenBalance (address tokenID : val) : eff_connector val :=
  invokeEndpoint "token_getBalance" [("address", address); ("tokenID", tokenID)].
Definition getEscrowedAmounts (isForceUpdate : bool) : eff_connector val :=
  keep_fresh "escrowedAmounts" isForceUpdate (invokeEndpoint "token_getEscrowedAmounts" []).
Definition getSupportedTokens (isForceUpdate : bool) : eff_connector val :=
  keep_fresh "supportedTokens" isForceUpdate (invokeEndpoint "token_getSupportedTokens" []).
Definition getTotalSupply (isForceUpdate : bool) : eff_connector val :=
  keep_fresh "totalSupply" isForceUpdate (invokeEndpoint "token_getTotalSupply" []).

(** [if (response.error) throw new Error(response.error)] *)
Definition without_error (response : val) : eff_connector val :=
  error ← lift (get response "error"); if truthy error then throw (js_String error) else ret response.

Definition getTokenInitializationFees : eff_connector val :=
  keep "initializationFees" (response ← invokeEndpoint "token_getInitializationFees" []; without_error response).
Definition tokenHasUserAccount (address tokenID : val) : eff_connector val :=
  invokeEndpoint "token_hasUserAccount" [("address", address); ("tokenID", tokenID)].
Definition tokenHasEscrowAccount (tokenID escrowChainID : val) : eff_connector val :=
  invokeEndpoint "token_hasEscrowAccount" [("tokenID", tokenID); ("escrowChainID", escrowChainID)].

Definition updateTokenInfo : eff_connector unit :=
  getEscrowedAmounts true ≫= fun _ =>
  main ← isMainchain;
  supportedTokens ← variable "supportedTokens";
  (if negb main || negb (truthy supportedTokens) then getSupportedTokens true ≫= fun _ => ret tt else ret tt) ≫= fun _ =>
  getTotalSupply true ≫= fun _ => ret tt.

Definition getTokenBalancesAtGenesis (address : val) : eff_connector (list val) :=
  assets ← genesisAssetByModule [("module", Str MODULE_NAME_TOKEN); ("subStore", Str "userSubstore")];
  balancesAtGenesis ← lift (get assets "userSubstore"); balancesAtGenesis ← lift (elements balancesAtGenesis);
  ret (filter (fun e => prop (as_obj e) "address" = address) balancesAtGenesis).

(** ** sdk/pos.js *)
Definition KEY_NOT_EXIST_text : string := "^Key [a-f0-9]+ does not exist\.$".
Definition KEY_NOT_EXIST : regex := Eval vm_compute in regex_of KEY_NOT_EXIST_text.

Definition getPosValidator (address : val) : eff_connector val := invokeEndpoint "pos_getValidator" [("address", address)].

Definition getAllPosValidators (isForceReload : bool) : eff_connector val :=
  allPosValidators ← variable "allPosValidators";
  if truthy allPosValidators && negb isForceReload then ret allPosValidators
  else
    response ← invokeEndpoint "pos_getAllValidators" [];
    match prop (as_obj response) "validators" with
    | Arr _ => set_variable "allPosValidators" response ≫= fun _ => ret response
    | _ => ret response
    end.

(** The listener of [reloadAllPosValidators] *)
Definition reloadAllPosValidators : eff_connector unit :=
  try_catch (getAllPosValidators true ≫= fun _ => ret tt) (fun _ => ret tt).

Definition getPosValidatorsByStake (limit : val) : eff_connector val := invokeEndpoint "pos_getValidatorsByStake" [("limit", limit)].

Definition getPosConstants : eff_connector val :=
  posModuleConstants ← variable "posModuleConstants";
  if bool_decide (posModuleConstants = Undef) then
    response ← invokeEndpoint "pos_getConstants" [];
    response ← without_error response;
    set_variable "posModuleConstants" response ≫= fun _ => ret response
  else ret posModuleConstants.

Definition getPosPendingUnlocks (address : val) : eff_connector val := invokeEndpoint "pos_getPendingUnlocks" [("address", address)].

Definition getStaker (address : val) : eff_connector val :=
  staker ← invokeEndpoint "pos_getStaker" [("address", address)];
  error ← lift (get staker "error");
  unknown ← (if truthy error then message ← lift (get error "message"); ret (regex_test KEY_NOT_EXIST (js_String message)) else ret false);
  ret (if unknown : bool then Object [("stakes", Arr []); ("pendingUnlocks", Arr [])] else staker).

Definition getPosClaimableRewards (address : val) : eff_connector val := invokeEndpoint "pos_getClaimableRewards" [("address", address)].
Definition getPosLockedReward (address tokenID : val) : eff_connector val :=
  invokeEndpoint "pos_getLockedReward" [("address", address); ("tokenID", tokenID)].

(** [const { key = [] } = block.assets.find(asset => asset.module === 'pos').data] of the genesis block *)
Definition pos_genesis (key : string) : eff_connector val :=
  genesisHeight ← getGenesisHeight;
  block ← getBlockByHeight genesisHeight true;
  assets ← lift (get block "assets"); assets ← lift (elements assets);
  asset ← lift (js_find (fun asset => prop_is asset "module" (Str MODULE_NAME_POS)) assets);
  data ← lift (get (default Undef asset) "data");
  v ← lift (get data key);
  ret (match v with Undef => Arr [] | v => v end).
Definition getPoSGenesisStakers : eff_connector val := pos_genesis "stakers".
Definition getPoSGenesisValidators : eff_connector val := pos_genesis "validators".

(** ** sdk/index.js *)
Definition init : eff_connector unit :=
  schemas ← getSchemas; setSchemas schemas ≫= fun _ =>
  metadata ← getSystemMetadata; setMetadata metadata ≫= fun _ =>
  getNodeInfo true ≫= fun _ =>
  cacheRegisteredRewardModule ≫= fun _ =>
  cacheFeeConstants ≫= fun _ =>
  updateTokenInfo ≫= fun _ =>
  getTokenInitializationFees ≫= fun _ =>
  getRewardTokenID ≫= fun _ =>
  getPosConstants ≫= fun _ =>
  getAllPosValidators false ≫= fun _ =>
  getGenesisBlock false ≫= fun _ =>
  dispatch "genesisBlockDownloaded" [].

(** ** status.js *)
Definition getStatus : eff_connector bool :=
  isReady ← variable "isReady";
  if truthy isReady then ret true
  else
    networkStatus ← getNodeInfo false;
    names ← lift (match networkStatus with
                  | Undef | Null => Throw "Cannot convert undefined or null to object"
                  | Object o => Ok (o.*1)
                  | _ => Ok ["length"]
                  end);
    let ready := negb (Nat.eqb (length names) 0) in
    set_variable "isReady" (Bool ready) ≫= fun _ => ret ready.

End Connector.
