(* ===== verification/ConnectorEvents.v ===== *)
(** * Peers and events of the connector

    [shared/geolocation.js], [sdk/peerCache.js], [sdk/network.js],
    [shared/nodeStatus.js], [sdk/events.js], [events/] and
    [methods/proxy/allEndpoints.js].  What an interval does is one definition
    (a tick); a payload handed to the broker is the signal of that name with
    [connector.] in front. *)
From S2P Require Import Prelude JsValue Database Json Engine Search Table World Schemas KvStore Chain PoolAddress.
From S2P Require Import Stake Processors BlockIndex Regex Mapper Gateway DataQuery TransactionQuery Validators Files Http Export.
From S2P Require Import RequestAll Service AccountQuery EstimateFees ConnectorTables Connector.
From Stdlib Require Import Ascii.
Local Open Scope Z_scope.
Set Warnings "-register-all".

(** ** events/proxy/allEvents.js *)
Definition upper (c : ascii) : ascii :=
  let n := nat_of_ascii c in if (97 <=? n)%nat && (n <=? 122)%nat then ascii_of_nat (n - 32) else c.
Definition capitalize (word : string) : string :=
  match word with String c s => String (upper c) s | EmptyString => "" end.
Definition toCamelCase (words : list string) : string :=
  match words with
  | [] => ""
  | w :: ws => toLowerCase w +:+ String.concat "" (capitalize <$> ws)
  end.

(** ** sdk/peerCache.js *)
Definition refactorPeer (orgPeer : val) (state : string) : result obj :=
  match orgPeer with
  | Object o =>
      height ← (match prop o "options" with Undef => Ok Undef | options => get options "height" end);
      let peer := omit (omit o "ipAddress") "options" in
      Ok (set_prop (set_prop (set_prop peer "state" (Str state)) "height" height) "ip" (prop o "ipAddress"))
  | Undef | Null => Throw "Cannot destructure 'orgPeer' as it is undefined."
  | _ => Ok [("state", Str state); ("height", Undef); ("ip", Undef)]
  end.

(** [if (elem) stats[elem] = (stats[elem] || 0) + 1] *)
Definition tally_one (stats : obj) (elem : val) : obj :=
  if truthy elem then
    let key := js_String elem in
    set_prop stats key (Num (number_or (prop stats key) 0 + 1))
  else stats.
Definition tally (l : list val) : obj := foldl tally_one [] l.

(** The kernel version of a linux host is cut to its first two parts. *)
Definition mapped_os (elem : val) : result val :=
  match elem with
  | Str s =>
      if String.prefix "linux" s then
        match split_on "." s with
        | a :: b :: _ => Ok (Str (a +:+ "." +:+ hd "" (split_on "-" b)))
        | _ => Throw "Cannot read properties of undefined (reading 'split')"
        end
      else Ok elem
  | _ => Ok elem
  end.

Definition statistics_of (peers connected disconnected : list val) : result obj :=
  let field key := (fun elem => prop (as_obj elem) key) <$> connected in
  os ← mapM_result mapped_os (field "os");
  Ok [("basic", Object [("totalPeers", Num (Z.of_nat (length peers)));
                        ("connectedPeers", Num (Z.of_nat (length connected)));
                        ("disconnectedPeers", Num (Z.of_nat (length disconnected)))]);
      ("height", Object (tally (field "height")));
      ("coreVer", Object (tally (field "version")));
      ("networkVersion", Object (tally (field "networkVersion")));
      ("os", Object (tally os))].

Section Events.
Context {St : Type} `{SqlEngine St} `{Crypto} `{Rpc} `{Packages} `{Node} `{Codec}.
Abbreviation eff_connector := (eff (connector (St := St))).

(** ** geolocation.js *)
Definition freegeoAddress : string := default "https://geoip.klayr.xyz/json" (env_text "GEOIP_JSON").

(** [None] when the promise is never settled, since the address is not one of HTTP. *)
Definition getFromHttp (ip : val) : eff_connector (option obj) :=
  if str_includes "http" freegeoAddress then
    body ← on_sv (on_http (request axios (freegeoAddress +:+ "/" +:+ js_String ip) [])); ret (Some body)
  else ret None.

Definition refreshData (key : string) (ip : val) : eff_connector unit :=
  try_catch
    (data ← getFromHttp ip;
     match data with
     | Some body => on_sv (cache_set "geodata" key (prop body "data"))
     | None => ret tt
     end)
    (fun _ => ret tt).

(** A miss starts a refresh, and the caller gets nothing yet. *)
Definition requestData (requestedIp : val) : eff_connector val :=
  let key := "geoip:" +:+ js_String requestedIp in
  geodata ← on_sv (cache_get "geodata" key);
  (if truthy geodata then ret tt else refreshData key requestedIp) ≫= fun _ => ret geodata.

(** ** peerCache.js, continued *)
Definition stored_list (name : string) : eff_connector (list val) :=
  v ← variable name; ret (match v with Arr l => l | _ => [] end).
Definition addLocation (ipAddress : val) : eff_connector val := try_catch (requestData ipAddress) (fun _ => ret (Object [])).

Definition peers_in_state (peers : val) (state : string) : result (list obj) :=
  l ← elements peers; mapM_result (fun p => refactorPeer p state) l.

Definition located_peers : eff_connector (list val) :=
  connectedPeers ← node_getConnectedPeers;
  connected ← lift (peers_in_state connectedPeers "connected");
  disconnectedPeers ← node_getDisconnectedPeers;
  disconnected ← lift (peers_in_state disconnectedPeers "disconnected");
  map_each (connected ++ disconnected) (fun peer =>
    location ← addLocation (prop peer "ip");
    ret (Object (set_prop peer "location" location))).

Definition refreshStatistics : eff_connector obj :=
  peers ← stored_list "peerStore.peers";
  connected ← stored_list "peerStore.connected";
  disconnected ← stored_list "peerStore.disconnected";
  lift (statistics_of peers connected disconnected).

Definition in_state (state : string) (peers : list val) : list val :=
  filter (fun o => prop (as_obj o) "state" = Str state) peers.

Definition reload : eff_connector unit :=
  try_catch
    (peers ← located_peers;
     set_variable "peerStore.peers" (Arr peers) ≫= fun _ =>
     set_variable "peerStore.connected" (Arr (in_state "connected" peers)) ≫= fun _ =>
     set_variable "peerStore.disconnected" (Arr (in_state "disconnected" peers)) ≫= fun _ =>
     statistics ← refreshStatistics;
     set_variable "peerStore.statistics" (Object statistics) ≫= fun _ =>
     dispatch "peerReload" [Arr peers])
    (fun _ => ret tt).

(** ** network.js *)
Definition network_getGenesisConfig : eff_connector val :=
  keep "network.genesisConfig" (networkStatus ← getNodeInfo false; lift (get networkStatus "genesis")).
Definition getNetworkStatus : eff_connector val := getNodeInfo false.
Definition getNetworkPeers : eff_connector (list val) := stored_list "peerStore.peers".
Definition getNetworkConnectedPeers : eff_connector (list val) := stored_list "peerStore.connected".
Definition getNetworkDisconnectedPeers : eff_connector (list val) := stored_list "peerStore.disconnected".
Definition getNetworkPeersStatistics : eff_connector val := variable "peerStore.statistics".

(** ** nodeStatus.js *)

(** One round: an error leaves the promise unsettled, as no other round is
    scheduled. *)
Definition sync_round : eff_connector bool :=
  nodeInfo ← uncaught (getNodeInfo true);
  syncing ← uncaught (lift (get nodeInfo "syncing"));
  if truthy syncing then ret false else dispatch "nodeIsSynced" [] ≫= fun _ => ret true.

(** The rounds of [waitForNodeToFinishSync], as many as are given; [false] is
    still waiting. *)
Fixpoint waitForNodeToFinishSync (rounds : nat) : eff_connector bool :=
  match rounds with
  | O => ret false
  | S rounds => synced ← sync_round; if synced : bool then ret true else waitForNodeToFinishSync rounds
  end.

(** ** events.js *)
Definition EVENT_CHAIN_BLOCK_NEW : string := "chain_newBlock".
Definition EVENT_CHAIN_VALIDATORS_CHANGE : string := "chain_validatorsChanged".
Definition events : list string :=
  ["chain_forked"; EVENT_CHAIN_BLOCK_NEW; "chain_deleteBlock"; EVENT_CHAIN_VALIDATORS_CHANGE; "txpool_newTransaction"].

(** [p.catch(err => logError(...))] *)
Definition logged (m : eff_connector unit) : eff_connector unit := try_catch m (fun _ => ret tt).

(** [(height - genesisHeight) % roundLength === 1] *)
Definition starts_round (height genesisHeight roundLength : val) : bool :=
  match js_sub (js_Number height) (js_Number genesisHeight), js_Number roundLength with
  | Num d, Num r => negb (r =? 0) && (Z.rem d r =? 1)
  | _, _ => false
  end.

(** The interval of [emitEngineEvents], which polls over HTTP. *)
Definition engine_tick (roundLength : val) : eff_connector unit :=
  latestNodeInfo ← getNodeInfo true;
  syncing ← lift (get latestNodeInfo "syncing");
  height ← lift (get latestNodeInfo "height");
  genesisHeight ← lift (get latestNodeInfo "genesisHeight");
  last ← variable "lastBlockHeightEvent";
  if negb (truthy syncing) && (negb (truthy last) || js_less last height) then
    set_variable "lastBlockHeightEvent" height ≫= fun _ =>
    newBlock ← node_getBlockByHeight height false;
    header ← lift (get newBlock "header");
    dispatch EVENT_CHAIN_BLOCK_NEW [Object [("blockHeader", header)]] ≫= fun _ =>
    logged updateTokenInfo ≫= fun _ =>
    if starts_round height genesisHeight roundLength then
      bftParameters ← getBFTParameters height;
      nextValidators ← lift (get bftParameters "validators");
      dispatch EVENT_CHAIN_VALIDATORS_CHANGE
        [Object [("nextValidators", nextValidators);
                 ("certificateThreshold", prop (as_obj bftParameters) "certificateThreshold");
                 ("precommitThreshold", prop (as_obj bftParameters) "precommitThreshold")]]
    else ret tt
  else ret tt.

Definition is_number (v : val) : bool := String.eqb (typeof v) "number".

(** With the clients of the pool; [clientIndex] is the index of the client that
    [getApiClient] gives.  Answers with the events it subscribes to. *)
Definition subscribeToAllRegisteredEvents (newClientPoolIndex clientIndex : val) : eff_connector (list val) :=
  eventSubscribeClientPoolIndex ← variable "eventSubscribeClientPoolIndex";
  if is_number eventSubscribeClientPoolIndex && negb (bool_decide (eventSubscribeClientPoolIndex = newClientPoolIndex))
  then ret []
  else
    set_variable "eventsCounter" (Num 0) ≫= fun _ =>
    set_variable "eventSubscribeClientPoolIndex" clientIndex ≫= fun _ =>
    registeredEvents ← getRegisteredEvents;
    registered ← lift (elements registeredEvents);
    ret (registered ++ (Str <$> events)).

(** The handler of a subscribed event. *)
Definition on_event (event : string) (payload : val) : eff_connector unit :=
  (if String.prefix "chain_" event then
     eventsCounter ← variable "eventsCounter";
     set_variable "eventsCounter" (match js_Number eventsCounter with Num z => Num (z + 1) | v => v end) ≫= fun _ =>
     logged (getNodeInfo true ≫= fun _ => ret tt) ≫= fun _ =>
     logged updateTokenInfo
   else ret tt) ≫= fun _ =>
  dispatch event [payload].

Definition getEventsByHeight (height : val) : eff_connector (list val) :=
  chainEvents ← node_getEventsByHeight height; chainEvents ← lift (elements chainEvents);
  map_each chainEvents (fun event => formatEvent (as_obj event) false).

(** The interval of [ensureAPIClientLiveness]: without a chain event since the
    last tick the subscribed client is reset, or the events are subscribed to. *)
Definition liveness_tick (clientIndex : val) : eff_connector unit :=
  eventsCounter ← variable "eventsCounter";
  match eventsCounter with
  | Num n =>
      if 0 <? n then set_variable "eventsCounter" (Num 0)
      else
        index ← variable "eventSubscribeClientPoolIndex";
        if is_number index then dispatch "resetApiClient" [index; Bool true]
        else logged (subscribeToAllRegisteredEvents Null clientIndex ≫= fun _ => ret tt)
  | _ =>
      set_variable "eventsCounter" (Num 0) ≫= fun _ =>
      index ← variable "eventSubscribeClientPoolIndex";
      if is_number index then dispatch "resetApiClient" [index; Bool true]
      else logged (subscribeToAllRegisteredEvents Null clientIndex ≫= fun _ => ret tt)
  end.

(** Counts the intervals that were started. *)
Definition ensureAPIClientLiveness : eff_connector unit :=
  if isUseHttpApi then ret tt
  else
    synced ← variable "isNodeSynced"; downloaded ← variable "isGenesisBlockDownloaded";
    if truthy synced && truthy downloaded then
      n ← variable "livenessIntervals"; set_variable "livenessIntervals" (Num (number_or n 0 + 1))
    else ret tt.
Definition nodeIsSyncedListener : eff_connector unit := set_variable "isNodeSynced" (Bool true) ≫= fun _ => ensureAPIClientLiveness.
Definition genesisBlockDownloadedListener : eff_connector unit :=
  set_variable "isGenesisBlockDownloaded" (Bool true) ≫= fun _ => ensureAPIClientLiveness.
Definition eventSubscriptionClientResetListener : eff_connector unit := set_variable "eventSubscribeClientPoolIndex" Null.

(** ** events/controller/blockchain.js *)
Definition EMPTY_TREE_ROOT_HASH : val := Str "e3b0c44298fc1c149afbf4c8996fb92427ae41e4649b934ca495991b7852b855".

(** [cb(payload)] of the event [name] *)
Definition broadcast (name : string) (payload : val) : eff_connector unit := dispatch ("connector." +:+ name) [payload].

Definition event_formatBlock (payload : obj) : eff_connector val :=
  formatBlock (Object [("header", prop payload "blockHeader"); ("assets", js_or (prop payload "assets") (Arr []));
                       ("transactions", js_or (prop payload "transactions") (Arr []))]).

Definition txpoolNewTransactionListener (payload : val) : eff_connector unit :=
  try_catch
    (transaction ← lift (get payload "transaction");
     transaction ← formatTransaction transaction (Num 0);
     broadcast "txpoolNewTransaction" (Object (spread (as_obj payload) [("transaction", transaction)])))
    (fun _ => ret tt).

(** The transactions and assets of a new block; a failing request leaves them
    empty. *)
Definition block_content (blockHeader : val) : eff_connector (val * val) :=
  transactionRoot ← lift (get blockHeader "transactionRoot");
  assetRoot ← lift (get blockHeader "assetRoot");
  if bool_decide (transactionRoot = EMPTY_TREE_ROOT_HASH) && bool_decide (assetRoot = EMPTY_TREE_ROOT_HASH)
  then ret (Arr [], Arr [])
  else try_catch
    (block ← node_getBlockByID (prop (as_obj blockHeader) "id") false;
     transactions ← lift (get block "transactions");
     ret (transactions, prop (as_obj block) "assets"))
    (fun _ => ret (Arr [], Arr [])).

Definition chainNewBlockListener (payload : val) : eff_connector unit :=
  try_catch
    (blockHeader ← lift (get payload "blockHeader");
     '(transactions, assets) ← block_content blockHeader;
     formatted ← event_formatBlock [("blockHeader", blockHeader); ("assets", assets); ("transactions", transactions)];
     broadcast "chainNewBlock" formatted ≫= fun _ =>
     l ← lift (elements transactions);
     if existsb (fun t => bool_decide (prop (as_obj t) "module" = Str MODULE_NAME_POS)) l
     then reloadAllPosValidators else ret tt)
    (fun _ => ret tt).

Definition chainDeleteBlockListener (payload : val) : eff_connector unit :=
  try_catch (formatted ← event_formatBlock (as_obj payload);
             broadcast "chainDeleteBlock" formatted ≫= fun _ => reloadAllPosValidators)
    (fun _ => ret tt).

(** The other controllers pass the payload on. *)
Definition passed_event (name : string) (payload : val) : eff_connector unit := broadcast name payload.

(** ** events/proxy/allEvents.js: the listener of an event of the node *)
Definition event_listener (regEvent : string) (payload : val) : eff_connector unit :=
  let signalName := toCamelCase (split_on "_" regEvent) in
  (if ends_with regEvent "Block"
   then header ← lift (get payload "blockHeader"); id ← lift (get header "id"); ret tt else ret tt) ≫= fun _ =>
  dispatch signalName [payload] ≫= fun _ =>
  broadcast regEvent payload.

(** ** methods/proxy/allEndpoints.js

    [endpoints.js] does not export [invokeEndpointProxy]. *)
Definition proxy_controller (endpoint : string) (params : obj) : eff_connector val :=
  throw "endpoints.invokeEndpointProxy is not a function".
Definition exportAllEndpoints : eff_connector (list (val * (obj -> eff_connector val))) :=
  registeredEndpoints ← getRegisteredEndpoints;
  l ← lift (elements registeredEndpoints);
  ret ((fun e => (e, proxy_controller (js_String e))) <$> l).
End Events.
