(* ===== verification/ConnectorSpec.v ===== *)
(** * What the connector guarantees

    A request is retried exactly after timeouts ([invokeEndpoint_outcome]), and
    the cache of blocks is a pair of maps from ids to blocks and from
    transactions to their blocks ([block_cache_refines]). *)
From S2P Require Import Prelude ConnectorPool JsValue Database Json Engine Search Table World Schemas KvStore Chain PoolAddress.
From S2P Require Import Stake Processors BlockIndex Regex Mapper Gateway DataQuery TransactionQuery Validators Files Http Export.
From S2P Require Import Service AccountQuery EstimateFees ConnectorTables Connector.
From Stdlib Require Import Ascii.
Local Open Scope Z_scope.
Set Warnings "-register-all".

(** ** Requests *)
Section Requests.
Context {St : Type} `{SqlEngine St} `{Crypto} `{Rpc} `{Packages} `{Node} `{Codec}.
Abbreviation connector_ := (connector (St := St)).

Definition calls (s : connector_) : list (string * obj) := sv_calls (cn_service s).

(** The state after [k] more attempts. *)
Definition attempted (k : nat) (endpoint : string) (params : obj) (s : connector_) : connector_ :=
  let v := cn_service s in
  mkConnector (mkService (sv_world v) (sv_vars v) (sv_cache v) (sv_http v) (sv_calls v ++ replicate k (endpoint, params)))
    (cn_disk s) (cn_waitlist s) (cn_signals s).

Definition timeout (r : result val) : bool :=
  match r with Throw e => negb (String.eqb e never_returns) && is_timeout (err_message e) | Ok _ => false end.

Lemma attempted_S k endpoint params s :
  attempted k endpoint params (attempted 1 endpoint params s) = attempted (S k) endpoint params s.
Proof. unfold attempted. cbn. by rewrite <- app_assoc. Qed.

Lemma attempted_calls k endpoint params s : length (calls (attempted k endpoint params s)) = (length (calls s) + k)%nat.
Proof. unfold calls, attempted. cbn. by rewrite length_app, length_replicate. Qed.

(** The answer to the [n]th request: of the node over HTTP, or of the channel of
    the client that was waited for. *)
Definition reply (n : nat) (endpoint : string) (params : obj) : result val :=
  if isUseHttpApi then
    response ← fst (post_ axios (klayrHttp +:+ "/rpc")
      [("jsonrpc", Str "2.0"); ("id", Num (Z.of_nat n + 1)); ("method", Str endpoint); ("params", Object params)] ∅);
    buildHTTPResponse response
  else _ ← await_client (client_polls n); channel_invoke n endpoint params.

Lemma attempt_outcome endpoint params s :
  attempt endpoint params s = (reply (length (calls s)) endpoint params, attempted 1 endpoint params s).
Proof.
  destruct s as [[w vars cache http cs] disk wl sg]. unfold attempt, reply, calls, mbind, eff_bind, gets, modify, lift, on_sv, on_http.
  cbn -[post_ buildHTTPResponse await_client Z.of_nat Z.add]. destruct isUseHttpApi; cbn -[post_ buildHTTPResponse await_client Z.of_nat Z.add].
  - destruct (post_uncached axios (klayrHttp +:+ "/rpc") [("jsonrpc", Str "2.0"); ("id", Num (Z.of_nat (length cs) + 1));
      ("method", Str endpoint); ("params", Object params)] http) as [Hc Hr].
    destruct (post_ _ _ _ http) as [r c]. cbn [fst snd] in Hc, Hr. subst c. rewrite <- Hr. by destruct r.
  - by destruct (await_client _).
Qed.

Lemma invoke_loop_outcome endpoint params n s :
  let answer i := reply (length (calls s) + i) endpoint params in
  exists k r, (k <= n)%nat /\ (forall i, (i < k)%nat -> timeout (answer i) = true) /\
    invoke_loop n endpoint params s = (r, attempted (S k) endpoint params s) /\
    (timeout (answer k) = false /\ r = answer k \/
     timeout (answer k) = true /\ k = n /\
       r = (message ← timed_out endpoint params; Throw (exception "TimeoutException" message))).
Proof.
  revert s. induction n as [|n IH]; intros s answer; cbn [invoke_loop]; unfold try_catch;
    rewrite attempt_outcome; assert (reply (length (calls s)) endpoint params = answer 0%nat) as ->
    by (unfold answer; by rewrite Nat.add_0_r).
  - exists 0%nat. destruct (answer 0%nat) as [v|e] eqn:E; [eexists; naive_solver lia|].
    cbn [timeout]. destruct (String.eqb e never_returns); [eexists; cbn; naive_solver lia|].
    destruct (is_timeout (err_message e)); [|eexists; cbn; naive_solver lia].
    eexists. split_and!; [lia|naive_solver lia| |right; split_and!; [done|done|reflexivity]].
    unfold mbind, eff_bind, lift, throw. by destruct (timed_out endpoint params).
  - destruct (answer 0%nat) as [v|e] eqn:E.
    { exists 0%nat. eexists. split_and!; [lia|naive_solver lia|done|left; by rewrite E]. }
    destruct (timeout (answer 0%nat)) eqn:Et; rewrite E in Et; cbn [timeout] in Et.
    + apply andb_prop in Et as [Hn Ht]. apply negb_true_iff in Hn. rewrite Hn, Ht.
      destruct (IH (attempted 1 endpoint params s)) as (k & r & Hk & Hi & Hr & Ho).
      setoid_rewrite attempted_calls in Hi. rewrite attempted_calls in Ho. rewrite attempted_S in Hr.
      assert (forall i, reply (length (calls s) + 1 + i) endpoint params = answer (S i)) as Hs.
      { intros i. unfold answer. f_equal. lia. }
      rewrite !Hs in Ho. exists (S k), r. split_and!; [lia| |done|].
      * intros [|i] Hlt; [rewrite E; cbn; by rewrite Hn, Ht|]. rewrite <- Hs. apply Hi. lia.
      * destruct Ho as [Ho|(Ho1 & -> & Ho2)]; [by left|by right].
    + exists 0%nat. destruct (String.eqb e never_returns) eqn:En.
      { eexists. split_and!; [lia|naive_solver lia|done|]. left. rewrite E. cbn. by rewrite En. }
      cbn in Et. rewrite Et. eexists. split_and!; [lia|naive_solver lia|done|]. left. rewrite E. cbn. by rewrite En, Et.
Qed.

Lemma timed_out_ends endpoint params : timed_out endpoint params <> Throw never_returns.
Proof.
  unfold timed_out. destruct params as [|kv params]; [done|]. pose proof (stringify_ends (Object (kv :: params))) as Hs.
  destruct (json_stringify _); cbn; congruence.
Qed.

(** The [n]th request ends: over HTTP it is answered; otherwise the pool can be
    made, a client is found alive some time, and its channel answers. *)
Definition finds_client (poll : result (pool * nat)) : Prop :=
  match poll with Ok (s, index) => fst (ConnectorPool.getApiClient index s) <> None | Throw _ => False end.
Definition request_ends (n : nat) (endpoint : string) (params : obj) : Prop :=
  if isUseHttpApi then reply n endpoint params <> Throw never_returns
  else head (client_polls n) <> Some (Throw never_returns) /\ Exists finds_client (client_polls n) /\
       channel_invoke n endpoint params <> Throw never_returns.

Lemma wait_ends polls : Exists finds_client polls -> exists c, wait_for_client polls = Ok c.
Proof.
  induction 1 as [[[s i]|e] polls Hp|[[s i]|e] polls Hp IH]; cbn [wait_for_client finds_client] in *; [|done| |done].
  - destruct (fst _); [by eexists|done].
  - destruct (fst _); [by eexists|done].
Qed.

Lemma reply_ends n endpoint params : request_ends n endpoint params -> reply n endpoint params <> Throw never_returns.
Proof.
  unfold request_ends, reply. destruct isUseHttpApi; [done|]. intros (Hh & He & Hc). destruct (wait_ends _ He) as [c Ec].
  destruct (client_polls n) as [|[[s i]|e] polls]; cbn [await_client]; [done|by rewrite Ec|]. intros [= ->]. by apply Hh.
Qed.

(** [C25] A request to the node, over HTTP or over a client of the pool, is sent again only
    after a timeout, at most [NUM_REQUEST_RETRIES] times; its result is the
    first answer that is not a timeout, or the exception for timeouts when
    there was none, and nothing but the count of requests changes.  Over the
    pool each attempt first waits for a client that is alive.  The request
    ends when each of its attempts does: when its wait finds a client alive
    some time and the channel of that client answers. *)
Theorem invokeEndpoint_outcome endpoint params s :
  let n := length (calls s) in
  let answer i := reply (n + i) endpoint params in
  exists k r, (k <= NUM_REQUEST_RETRIES)%nat /\ (forall i, (i < k)%nat -> timeout (answer i) = true) /\
    invokeEndpoint endpoint params s = (r, attempted (S k) endpoint params s) /\
    (timeout (answer k) = false /\ r = answer k \/
     timeout (answer k) = true /\ k = NUM_REQUEST_RETRIES /\
       r = (message ← timed_out endpoint params; Throw (exception "TimeoutException" message))) /\
    ((forall i, (i <= NUM_REQUEST_RETRIES)%nat -> request_ends (n + i) endpoint params) -> r <> Throw never_returns).
Proof.
  intros n answer. destruct (invoke_loop_outcome endpoint params NUM_REQUEST_RETRIES s) as (k & r & Hk & Hi & E & Ho).
  exists k, r. split_and!; [done..|]. intros He. destruct Ho as [[_ ->]|(_ & _ & ->)]; [by apply reply_ends, He|].
  pose proof (timed_out_ends endpoint params). destruct (timed_out endpoint params); cbn; [done|congruence].
Qed.
End Requests.

(** ** The cache of blocks *)
Section Cache.
Context {St : Type} `{SqlLaws St} `{Crypto} `{Rpc} `{Packages} `{Node} `{Codec}.
Abbreviation connector_ := (connector (St := St)).

Definition cache_db (s : connector_) : St := w_auto (sv_world (cn_service s)).
Abbreviation block_rows d := (rows_of d cacheBlockSchema).
Abbreviation tx_rows d := (rows_of d cacheTrxIDToBlockIDSchema).

Definition block_record (id : string) (ts : Z) (text : string) : row :=
  row_of [("id", Str id); ("block", Str text); ("timestamp", Num ts)].
Definition tx_record (tid id : string) : row := row_of [("transactionID", Str tid); ("blockID", Str id)].

(** The tables hold the blocks [B] with their timestamps and the blocks [T] of
    the transactions. *)
Definition holds_blocks (rs : Engine.rows) (B : gmap string (Z * val)) : Prop :=
  table_ok cacheBlockSchema rs /\
  forall id, match B !! id with
        | Some (ts, block) => json_kept block /\
            exists text old, json_stringify block = Ok (Some text) /\ rs !! [SStr id] = Some (block_record id ts text ∪ old)
        | None => rs !! [SStr id] = None
        end.
Definition holds_txs (rs : Engine.rows) (T : gmap string string) : Prop :=
  table_ok cacheTrxIDToBlockIDSchema rs /\
  forall tid, match T !! tid with
         | Some id => exists old, rs !! [SStr tid] = Some (tx_record tid id ∪ old)
         | None => rs !! [SStr tid] = None
         end.
Definition cached (d : St) (B : gmap string (Z * val)) (T : gmap string string) : Prop :=
  holds_blocks (block_rows d) B /\ holds_txs (tx_rows d) T.

Lemma block_cells id ts text old :
  let r := block_record id ts text ∪ old in
  cell r "id" = SStr id /\ cell r "block" = SStr text /\ cell r "timestamp" = SInt ts.
Proof. split_and!; (rewrite cell_union_l; [reflexivity|]); apply elem_of_dom; eexists; reflexivity. Qed.

Lemma tx_cells tid id old :
  let r := tx_record tid id ∪ old in cell r "transactionID" = SStr tid /\ cell r "blockID" = SStr id.
Proof. split_and!; (rewrite cell_union_l; [reflexivity|]); apply elem_of_dom; eexists; reflexivity. Qed.

(** *** Reading *)
Ltac one_row :=
  match goal with |- context [option_list (Some ?r)] => change (option_list (Some r)) with [r] end;
  rewrite fmap_cons; cbn beta iota.

Lemma find_block id B T (d : St) : cached d B T ->
  find cacheBlockSchema [("id", Str id); ("limit", Num 1)] (Arr [Str "block"]) d
  = Ok ((fun r => [("block", of_sql (cell r "block"))]) <$> option_list (block_rows d !! [SStr id])).
Proof.
  intros [[Hok _] _]. unfold find. simpl.
  rewrite (select_key cacheBlockSchema d _ [Str id]); [done|done| |done|done|].
  - constructor; [|constructor]. exists (coln "string" false). split; [by left|done].
  - intros r. unfold Engine.matches. simpl. by rewrite !andb_true_r.
Qed.

Lemma find_tx tid B T (d : St) : cached d B T ->
  find cacheTrxIDToBlockIDSchema [("transactionID", Str tid); ("limit", Num 1)] (Arr [Str "blockID"]) d
  = Ok ((fun r => [("blockID", of_sql (cell r "blockID"))]) <$> option_list (tx_rows d !! [SStr tid])).
Proof.
  intros [_ [Hok _]]. unfold find. simpl.
  rewrite (select_key cacheTrxIDToBlockIDSchema d _ [Str tid]); [done|done| |done|done|].
  - constructor; [|constructor]. exists (coln "string" false). split; [by left|done].
  - intros r. unfold Engine.matches. simpl. by rewrite !andb_true_r.
Qed.

Lemma in_cache_ok {A} (f : St -> result A) s a : f (cache_db s) = Ok a -> in_cache_db f s = (Ok a, s).
Proof.
  intros E. unfold in_cache_db, on_sv, on_world, read. cbn [db]. fold (cache_db s). rewrite E. by destruct s as [[]].
Qed.

Lemma block_from_cache id B T s : cached (cache_db s) B T ->
  getBlockByIDFromCache (Str id) s = (Ok (match B !! id with Some (_, block) => block | None => Null end), s).
Proof.
  intros Hc. unfold getBlockByIDFromCache.
  rewrite (M_bind_ok _ _ _ _ _ (in_cache_ok _ _ _ (find_block id B T _ Hc))).
  destruct Hc as [[_ HB] _]. specialize (HB id). destruct (B !! id) as [[ts block]|].
  - destruct HB as (Hk & text & old & Ht & ->). one_row.
    destruct (block_cells id ts text old) as (_ & -> & _). cbn.
    destruct (json_roundtrip block Hk) as (t & Et & Ep). assert (t = text) as -> by congruence.
    unfold mbind, eff_bind, lift. cbn. by rewrite Ep.
  - rewrite HB. done.
Qed.

(** The transaction of a block, as [find] gives it. *)
Definition tx_of (block : val) (tid : string) : result val :=
  if truthy block then
    transactions ← get block "transactions"; transactions ← elements transactions;
    found ← js_find (fun tx => prop_is tx "id" (Str tid)) transactions;
    Ok (default Undef found)
  else Ok Null.

Lemma tx_from_cache tid B T s : cached (cache_db s) B T ->
  getTransactionByIDFromCache (Str tid) s
  = (match T !! tid ≫= (fun id => B !! id) with Some (_, block) => tx_of block tid | None => Ok Null end, s).
Proof.
  intros Hc. unfold getTransactionByIDFromCache.
  rewrite (M_bind_ok _ _ _ _ _ (in_cache_ok _ _ _ (find_tx tid B T _ Hc))).
  pose proof Hc as [_ [_ HT]]. specialize (HT tid). destruct (T !! tid) as [id|]; cbn [mbind option_bind].
  - destruct HT as (old & ->). one_row. destruct (tx_cells tid id old) as [_ ->].
    change (prop [("blockID", of_sql (SStr id))] "blockID") with (Str id).
    rewrite (M_bind_ok _ _ _ _ _ (block_from_cache id B T s Hc)). destruct (B !! id) as [[ts block]|]; [|done].
    unfold tx_of. destruct (truthy block); [|done]. cbn [negb]. unfold mbind, eff_bind, lift, ret. cbn.
    destruct (get block "transactions") as [v|e]; [|done]. cbn. destruct (elements v) as [l|e]; [|done]. cbn.
    by destruct (js_find _ l).
  - rewrite HT. done.
Qed.

(** *** Writing *)

(** A block that the node answers with: JSON with an id, a timestamp and
    transactions that have ids. *)
Record good_block (block : val) (id : string) (ts : Z) (tids : list string) : Prop := {
  good_json : json_kept block;
  good_id : header_of block "id" = Ok (Str id);
  good_timestamp : header_of block "timestamp" = Ok (Num ts);
  good_txs : exists txs, get block "transactions" = Ok (Arr txs) /\ Forall2 (fun tx tid => get tx "id" = Ok (Str tid)) txs tids;
}.

Lemma to_cache_ok f s d : f (cache_db s) = Ok d ->
  exists s', to_cache_db f s = (Ok tt, s') /\ cache_db s' = d /\ cn_waitlist s' = cn_waitlist s.
Proof.
  intros E. unfold to_cache_db, on_sv, on_world, write. cbn [db]. fold (cache_db s). rewrite E. eexists. by split_and!.
Qed.

Lemma put_tx tid id B T s : cached (cache_db s) B T ->
  exists s', to_cache_db (upsert cacheTrxIDToBlockIDSchema (Object [("transactionID", Str tid); ("blockID", Str id)])) s = (Ok tt, s') /\
    cached (cache_db s') B (<[tid := id]> T) /\ cn_waitlist s' = cn_waitlist s.
Proof.
  intros [HB [Hok HT]].
  destruct (upsert_one cacheTrxIDToBlockIDSchema [("transactionID", Str tid); ("blockID", Str id)]
    [("transactionID", Str tid); ("blockID", Str id)] (cache_db s) eq_refl eq_refl) as (d & E & Hset & Hrest).
  destruct (to_cache_ok _ s d E) as (s' & Es & <- & Hw). unfold insert_row in Hset. fold (tx_record tid id) in Hset.
  exists s'. split_and!; [done| |done]. split.
  - unfold rows_of. rewrite Hrest by done. exact HB.
  - split; rewrite Hset; [by apply table_ok_insert|].
    intros tid'. change (Engine.key_of _ _) with [SStr tid]. destruct (decide (tid = tid')) as [<-|Hne].
    + rewrite !lookup_insert_eq. by eexists.
    + rewrite !lookup_insert_ne by congruence. apply HT.
Qed.

Lemma put_txs_loop block id txs tids B T s : header_of block "id" = Ok (Str id) ->
  Forall2 (fun tx tid => get tx "id" = Ok (Str tid)) txs tids -> cached (cache_db s) B T ->
  exists s', for_each txs (fun transaction =>
      transactionID ← lift (get transaction "id");
      blockID ← lift (header_of block "id");
      to_cache_db (upsert cacheTrxIDToBlockIDSchema (Object [("transactionID", transactionID); ("blockID", blockID)]))) s = (Ok tt, s') /\
    cached (cache_db s') B (foldl (fun T tid => <[tid := id]> T) T tids) /\ cn_waitlist s' = cn_waitlist s.
Proof.
  intros Hid Hl. revert T s. induction Hl as [|tx tid txs tids Htx Hl IH]; intros T s Hc; [by exists s|].
  cbn [for_each foldl]. destruct (put_tx tid id B T s Hc) as (s1 & E1 & Hc1 & Hw1).
  destruct (IH _ s1 Hc1) as (s2 & E2 & Hc2 & Hw2). exists s2. split_and!; [|done|congruence].
  rewrite (M_bind_ok _ _ s tt s1); [exact E2|]. rewrite (lift_ok _ _ _ _ Htx), (lift_ok _ _ _ _ Hid). exact E1.
Qed.

Definition put_txs (T : gmap string string) (id : string) (tids : list string) : gmap string string :=
  foldl (fun T tid => <[tid := id]> T) T tids.

Lemma cast_json block text : json_kept block -> json_stringify block = Ok (Some text) -> Database.cast block "json" = Ok (Str text).
Proof. intros Hj E. destruct Hj; cbn [Database.cast String.eqb Ascii.eqb Bool.eqb]; by rewrite E. Qed.

Lemma cache_block_ok block id ts tids B T s : good_block block id ts tids -> cached (cache_db s) B T ->
  exists s', cache_block block s = (Ok tt, s') /\
    cached (cache_db s') (<[id := (ts, block)]> B) (put_txs T id tids) /\ cn_waitlist s' = cn_waitlist s.
Proof.
  intros [Hj Hid Hts (txs & Htxs & Hl)] Hc. destruct (put_txs_loop block id txs tids B T s Hid Hl Hc) as (s1 & E1 & Hc1 & Hw1).
  destruct (json_roundtrip block Hj) as (text & Etext & _).
  destruct (upsert_one cacheBlockSchema [("id", Str id); ("timestamp", Num ts); ("block", block)]
    [("id", Str id); ("block", Str text); ("timestamp", Num ts)] (cache_db s1)) as (d & E & Hset & Hrest); [|done|].
  { unfold mapRowBySchema. cbn -[json_stringify Database.cast]. rewrite (cast_json _ _ Hj Etext). reflexivity. }
  destruct (to_cache_ok _ s1 d E) as (s2 & E2 & <- & Hw2). unfold insert_row in Hset. fold (block_record id ts text) in Hset.
  exists s2. split_and!; [| |congruence].
  - unfold cache_block. rewrite (lift_ok _ _ _ _ Htxs), (lift_ok (elements (Arr txs)) _ _ txs eq_refl), (M_bind_ok _ _ _ _ _ E1).
    rewrite (lift_ok _ _ _ _ Hid), (lift_ok _ _ _ _ Hts). exact E2.
  - destruct Hc1 as [[Hok HB] HT]. split.
    + split; rewrite Hset; [by apply table_ok_insert|].
      intros id'. change (Engine.key_of _ _) with [SStr id]. destruct (decide (id = id')) as [<-|Hne].
      * rewrite !lookup_insert_eq. split; [done|]. by do 2 eexists.
      * rewrite !lookup_insert_ne by congruence. apply HB.
    + unfold rows_of. rewrite Hrest by done. exact HT.
Qed.
(** *** The waitlist *)
Record entry := mkEntry { e_block : val; e_id : string; e_ts : Z; e_txs : list string }.
Definition good_entry (e : entry) : Prop := good_block (e_block e) (e_id e) (e_ts e) (e_txs e).
Definition put_entry (c : gmap string (Z * val) * gmap string string) (e : entry) : gmap string (Z * val) * gmap string string :=
  (<[e_id e := (e_ts e, e_block e)]> (fst c), put_txs (snd c) (e_id e) (e_txs e)).

Lemma cache_loop_ok es fuel n c s :
  Forall good_entry es -> cn_waitlist s = e_block <$> es -> (length es <= fuel)%nat -> cached (cache_db s) (fst c) (snd c) ->
  exists s', cache_loop fuel n s = (Ok tt, s') /\ cn_waitlist s' = [] /\
    let c' := foldl put_entry c es in cached (cache_db s') (fst c') (snd c').
Proof.
  intros Hg. revert fuel c s. induction Hg as [|e es He Hg IH]; intros fuel c s Hw Hf Hc.
  { exists s. split_and!; [|done|done]. destruct fuel; cbn [cache_loop]; rewrite (M_bind_ok (gets cn_waitlist) _ s (cn_waitlist s) s eq_refl), Hw; done. }
  destruct fuel as [|fuel]; [cbn in Hf; lia|]. cbn [cache_loop]. rewrite (M_bind_ok (gets cn_waitlist) _ s (cn_waitlist s) s eq_refl), Hw, fmap_cons.
  set (s0 := snd (set_waitlist (e_block <$> es) s)). rewrite (M_bind_ok (set_waitlist _) _ s tt s0 eq_refl).
  destruct (cache_block_ok _ _ _ _ (fst c) (snd c) s0 He) as (s1 & E1 & Hc1 & Hw1); [exact Hc|].
  rewrite (M_bind_ok _ _ s0 false s1).
  - cbn [foldl]. apply (IH fuel (put_entry c e) s1); [exact Hw1|cbn in Hf; lia|exact Hc1].
  - unfold try_catch. by rewrite (M_bind_ok _ _ _ _ _ E1).
Qed.

(** *** Cleaning *)
Lemma block_row_inv rs B k r : holds_blocks rs B -> rs !! k = Some r ->
  exists id ts block text old, k = [SStr id] /\ B !! id = Some (ts, block) /\ r = block_record id ts text ∪ old.
Proof.
  intros [Hok HB] Hr. pose proof (Hok _ _ Hr) as (Hk & Hty & Hn).
  pose proof (row_typed_cell cacheBlockSchema r "id" (coln "string" false) Hty ltac:(by left)) as Hc.
  change (Engine.key_of cacheBlockSchema r) with [cell r "id"] in Hk. subst k. apply Forall_cons in Hn as [Hn _].
  destruct (cell r "id") as [| |id|]; try done. specialize (HB id). destruct (B !! id) as [[ts block]|] eqn:E; [|congruence].
  destruct HB as (_ & text & old & _ & Hr'). exists id, ts, block, text, old. split_and!; congruence.
Qed.

Lemma tx_row_inv rs T k r : holds_txs rs T -> rs !! k = Some r ->
  exists tid id old, k = [SStr tid] /\ T !! tid = Some id /\ r = tx_record tid id ∪ old.
Proof.
  intros [Hok HT] Hr. pose proof (Hok _ _ Hr) as (Hk & Hty & Hn).
  pose proof (row_typed_cell cacheTrxIDToBlockIDSchema r "transactionID" (coln "string" false) Hty ltac:(by left)) as Hc.
  change (Engine.key_of cacheTrxIDToBlockIDSchema r) with [cell r "transactionID"] in Hk. subst k. apply Forall_cons in Hn as [Hn _].
  destruct (cell r "transactionID") as [| |tid|]; try done. specialize (HT tid). destruct (T !! tid) as [id|] eqn:E; [|congruence].
  destruct HT as (old & Hr'). exists tid, id, old. split_and!; congruence.
Qed.

Definition expired (to : Z) (B : gmap string (Z * val)) (id : string) : Prop := exists ts block, B !! id = Some (ts, block) /\ ts <= to.

Lemma sql_le_int a b : sql_test "<=" (SInt a) (SInt b) = (a <=? b).
Proof. unfold sql_test. cbn. unfold Z.leb. by destruct (a ?= b). Qed.

Lemma match_old r to ts : cell r "timestamp" = SInt ts ->
  Engine.matches [KSelect (Str "id"); KWhere (Object []); KWhereOp "timestamp" "<=" (Num to)] r = (ts <=? to).
Proof.
  intros E. change (sql_test "<=" (cell r "timestamp") (SInt to) && true = (ts <=? to)). by rewrite E, sql_le_int, andb_true_r.
Qed.

Definition id_text (r : row) : string := match cell r "id" with SStr s => s | _ => "" end.

Lemma find_expired to B T (d : St) : cached d B T ->
  exists found ids, find cacheBlockSchema [("propBetweens", Arr [Object [("property", Str "timestamp"); ("to", Num to)]])] (Str "id") d = Ok found /\
    (fun e => prop e "id") <$> found = Str <$> ids /\ forall id, id ∈ ids <-> expired to B id.
Proof.
  intros [HB _]. set (q := [KSelect (Str "id"); KWhere (Object []); KWhereOp "timestamp" "<=" (Num to)]).
  destruct (select_law cacheBlockSchema q d eq_refl) as (l & Hl & _ & E).
  exists (project q <$> l), (id_text <$> l). split_and!.
  - exact E.
  - rewrite <- !list_fmap_compose. apply list_fmap_ext. intros i r Hi. cbn.
    apply list_elem_of_lookup_2 in Hi. rewrite Hl in Hi. unfold Engine.matching in Hi.
    apply list_elem_of_filter in Hi as [_ ([k r'] & -> & Hr)%list_elem_of_fmap].
    apply elem_of_map_to_list in Hr. destruct (block_row_inv _ _ _ _ HB Hr) as (id & ts & b & text & old & _ & _ & E').
    cbn [snd]. rewrite E'. unfold id_text. by destruct (block_cells id ts text old) as (-> & _ & _).
  - intros id. rewrite list_elem_of_fmap. split.
    + intros (r & -> & Hr). rewrite Hl in Hr. apply list_elem_of_filter in Hr as [Hm ([k r'] & -> & Hr)%list_elem_of_fmap].
      apply elem_of_map_to_list in Hr. destruct (block_row_inv _ _ _ _ HB Hr) as (id & ts & b & text & old & _ & HBi & E').
      cbn [snd] in *. subst r'. destruct (block_cells id ts text old) as (Hid & _ & Hts). unfold id_text. rewrite Hid.
      exists ts, b. split; [done|]. unfold q in Hm. rewrite (match_old _ _ _ Hts) in Hm. by apply Z.leb_le.
    + intros (ts & b & HBi & Hle). pose proof (proj2 HB id) as Hr. rewrite HBi in Hr. destruct Hr as (_ & text & old & _ & Hr).
      destruct (block_cells id ts text old) as (Hid & _ & Hts). exists (block_record id ts text ∪ old).
      split; [unfold id_text; by rewrite Hid|]. rewrite Hl. apply list_elem_of_filter. split.
      * unfold q. rewrite (match_old _ _ _ Hts). by apply Z.leb_le.
      * apply list_elem_of_fmap. eexists (_, _). split; [reflexivity|]. by apply elem_of_map_to_list.
Qed.
Lemma match_in r (ids : list string) id : cell r "blockID" = SStr id ->
  Engine.matches [KSelect (Str "transactionID"); KWhere (Object []); KWhereIn (Str "blockID") (Arr (Str <$> ids))] r
  = bool_decide (id ∈ ids).
Proof.
  intros E. change (existsb (fun v => sql_test "=" (cell r "blockID") (to_sql v)) (Str <$> ids) && true = bool_decide (id ∈ ids)).
  rewrite andb_true_r. apply eq_true_iff_eq. rewrite bool_decide_eq_true, existsb_exists, E. split.
  - intros (v & (i & -> & Hi)%list_elem_of_In%list_elem_of_fmap & <-%sql_test_eq_str). done.
  - intros Hi. exists (Str id). split; [by apply list_elem_of_In, list_elem_of_fmap_2|by apply sql_test_eq_str].
Qed.

Lemma delete_txs ids B T (d : St) : cached d B T ->
  exists d' n, deleteByParams cacheTrxIDToBlockIDSchema [("whereIn", Object [("property", Str "blockID"); ("values", Arr (Str <$> ids))])] d = Ok (d', n) /\
    cached d' B (filter (fun ti => snd ti ∉ ids) T).
Proof.
  intros [HB HT]. set (q := [KSelect (Str "transactionID"); KWhere (Object []); KWhereIn (Str "blockID") (Arr (Str <$> ids))]).
  destruct (delete_law cacheTrxIDToBlockIDSchema q d eq_refl) as (d' & E & Hset & Hrest). exists d'. eexists. split; [exact E|].
  split; [unfold rows_of; by rewrite Hrest by done|]. split; rewrite Hset; [by apply table_ok_filter, HT|].
  intros tid. pose proof (proj2 HT tid) as Hr. destruct (T !! tid) as [id|] eqn:Et.
  - destruct Hr as (old & Hr). destruct (tx_cells tid id old) as [_ Hid]. destruct (decide (id ∈ ids)) as [Hi|Hi].
    + rewrite (proj2 (map_lookup_filter_None _ _ _)); [|right; intros x Hx; cbn; assert (x = id) as -> by congruence; tauto].
      apply map_lookup_filter_None. right. intros r Hr'. cbn [snd]. assert (r = tx_record tid id ∪ old) as -> by congruence.
      unfold q. rewrite (match_in _ _ _ Hid), bool_decide_eq_true_2; done.
    + rewrite (proj2 (map_lookup_filter_Some _ _ _ id)) by done. exists old. apply map_lookup_filter_Some. split; [done|].
      cbn [snd]. unfold q. by rewrite (match_in _ _ _ Hid), bool_decide_eq_false_2.
  - rewrite (proj2 (map_lookup_filter_None _ _ _)) by (by left). apply map_lookup_filter_None. by left.
Qed.

Lemma delete_blocks ids B T (d : St) : cached d B T ->
  exists d' n, deleteByPrimaryKey cacheBlockSchema (Arr (Str <$> ids)) d = Ok (d', n) /\
    cached d' (filter (fun ib => fst ib ∉ ids) B) T.
Proof.
  intros [HB HT]. destruct (delete_keys cacheBlockSchema "id" (coln "string" false) ids d eq_refl) as (d' & n & E & Hset & Hrest);
    [by left|done|apply HB|].
  exists d', n. split; [exact E|]. split; [|unfold rows_of; by rewrite Hrest by done].
  split; rewrite Hset; [by apply table_ok_filter, HB|].
  intros id. pose proof (proj2 HB id) as Hr. destruct (B !! id) as [[ts block]|] eqn:Eb.
  - destruct Hr as (Hk & text & old & Et & Hr). destruct (decide (id ∈ ids)) as [Hi|Hi].
    + rewrite (proj2 (map_lookup_filter_None _ _ _)); [|right; intros x Hx; cbn; tauto].
      apply map_lookup_filter_None. right. intros r Hr'. cbn [fst]. intros Hn. apply Hn, list_elem_of_fmap. by exists id.
    + rewrite (proj2 (map_lookup_filter_Some _ _ _ (ts, block))) by done. split; [done|]. exists text, old. split; [done|].
      apply map_lookup_filter_Some. split; [done|]. cbn [fst]. by intros (i & [= ->] & Hi')%list_elem_of_fmap.
  - rewrite (proj2 (map_lookup_filter_None _ _ _)) by (by left). apply map_lookup_filter_None. by left.
Qed.

Lemma delete_cached f s d n : f (cache_db s) = Ok (d, n) ->
  exists s', on_sv (on_world (write_count Auto f)) s = (Ok n, s') /\ cache_db s' = d.
Proof. intros E. unfold on_sv, on_world, write_count. cbn [db]. fold (cache_db s). rewrite E. eexists. by split. Qed.

(** What is left after the blocks up to a time were removed. *)
Definition recent_blocks (to : Z) (B : gmap string (Z * val)) : gmap string (Z * val) := filter (fun ib => to < fst (snd ib)) B.
Definition is_expired (to : Z) (B : gmap string (Z * val)) (id : string) : bool :=
  match B !! id with Some (ts, _) => ts <=? to | None => false end.
Definition recent_txs (to : Z) (B : gmap string (Z * val)) (T : gmap string string) : gmap string string :=
  filter (fun ti => is_expired to B (snd ti) = false) T.

Lemma expired_dec to B id : is_expired to B id = true <-> expired to B id.
Proof.
  unfold is_expired, expired. destruct (B !! id) as [[ts b]|]; [rewrite Z.leb_le|]; naive_solver.
Qed.

Lemma cleanup_ok hours B T s : cached (cache_db s) B T ->
  let to := clock (length (calls s)) / 1000 - hours * 3600 in
  exists s', cacheCleanup hours s = (Ok tt, s') /\ cached (cache_db s') (recent_blocks to B) (recent_txs to B T).
Proof.
  intros Hc to. destruct (find_expired to B T _ Hc) as (found & ids & Ef & Eids & Hids).
  destruct (delete_txs ids B T _ Hc) as (d1 & n1 & E1 & Hc1). destruct (delete_cached _ s _ _ E1) as (s1 & Es1 & <-).
  destruct (delete_blocks ids _ _ _ Hc1) as (d2 & n2 & E2 & Hc2). destruct (delete_cached _ s1 _ _ E2) as (s2 & Es2 & <-).
  exists s2. split.
  - unfold cacheCleanup. rewrite (M_bind_ok (hours_ago hours) _ s to s eq_refl).
    rewrite (M_bind_ok _ _ _ _ _ (in_cache_ok _ _ _ Ef)), Eids, (M_bind_ok _ _ _ _ _ Es1), (M_bind_ok _ _ _ _ _ Es2). done.
  - replace (recent_blocks to B) with (filter (fun ib : string * (Z * val) => fst ib ∉ ids) B).
    2:{ unfold recent_blocks. apply map_filter_ext. intros id [ts b] Hb. cbn. rewrite Hids. split.
        - intros Hn. destruct (Z.lt_ge_cases to ts); [done|]. destruct Hn. by exists ts, b.
        - intros Hlt (ts' & b' & Hb' & Hle). assert (ts' = ts) by congruence. lia. }
    replace (recent_txs to B T) with (filter (fun ti : string * string => snd ti ∉ ids) T); [done|].
    apply map_filter_ext. intros tid id _. cbn. rewrite Hids, <- expired_dec. by destruct (is_expired to B id).
Qed.

(** [C20] The cache of blocks implements two maps, from ids to blocks and from
    transactions to the ids of their blocks: a lookup gives exactly the block
    that was stored, a transaction is looked up in its block, the loop over the
    waiting blocks ends with all of them stored and none left, and cleaning
    removes exactly the blocks up to the given time and the transactions of
    those blocks. *)
Theorem block_cache_refines s B T : cached (cache_db s) B T ->
  (forall id, getBlockByIDFromCache (Str id) s = (Ok (match B !! id with Some (_, block) => block | None => Null end), s)) /\
  (forall tid, getTransactionByIDFromCache (Str tid) s
     = (match T !! tid ≫= (fun id => B !! id) with Some (_, block) => tx_of block tid | None => Ok Null end, s)) /\
  (forall es, Forall good_entry es -> cn_waitlist s = e_block <$> es ->
     exists s', cacheBlocksFromWaitlist s = (Ok tt, s') /\ cn_waitlist s' = [] /\
       let c := foldl put_entry (B, T) es in cached (cache_db s') (fst c) (snd c)) /\
  (forall hours, let to := clock (length (calls s)) / 1000 - hours * 3600 in
     exists s', cacheCleanup hours s = (Ok tt, s') /\ cached (cache_db s') (recent_blocks to B) (recent_txs to B T)).
Proof.
  intros Hc. split_and!; [intros id; by apply (block_from_cache id B T)|intros tid; by apply (tx_from_cache tid B T)| |
    intros hours; by apply cleanup_ok].
  intros es Hes Hw. unfold cacheBlocksFromWaitlist. rewrite (M_bind_ok (gets cn_waitlist) _ s (cn_waitlist s) s eq_refl).
  apply (cache_loop_ok es _ 0 (B, T)); [done..| |done]. rewrite Hw, length_fmap. lia.
Qed.
End Cache.

(** ** Blocks by their ids *)
Section ByIds.
Context {St : Type} `{SqlLaws St} `{Crypto} `{Rpc} `{Packages} `{Node} `{Codec}.
Abbreviation connector_ := (connector (St := St)).
Context (gid : string) (g : obj) (d : St) (B : gmap string (Z * val)) (T : gmap string string).

Definition has_id (block : val) (id : string) : Prop := header_of block "id" = Ok (Str id).

(** The genesis block is loaded, and the cache is as it was. *)
Definition settled (s : connector_) : Prop :=
  let v := prop (sv_vars (cn_service s)) in
  v "genesisBlockID" = Str gid /\ v "genesisBlock" = Object g /\
  truthy (v "isGenesisBlockURLNotFound") = false /\ truthy (v "genesisBlockUrl") = true /\ truthy (v "genesisBlockFilePath") = true /\
  cache_db s = d.

(** Blocks are cached under their ids, and a block that the node answers with
    is the one of the id in the request; requests end, with any answer. *)
Hypothesis caching : isBlockCachingEnabled = true.
Hypothesis gid_text : gid <> "".
Hypothesis g_id : has_id (Object g) gid.
Hypothesis d_cached : cached d B T.
Hypothesis B_ids : forall id ts block, B !! id = Some (ts, block) -> has_id block id /\ truthy block = true.
Hypothesis node_settles : forall n endpoint params, reply n endpoint params <> Throw never_returns.
Hypothesis node_blocks : forall n id block, reply n "chain_getBlockByID" [("id", Str id)] = Ok block -> has_id block id.

(** The block of an id is there: in the file of the genesis block, in the cache,
    or at the node. *)
Definition there (id : string) : Prop :=
  id = gid \/ is_Some (B !! id) \/ forall n, exists block, reply n "chain_getBlockByID" [("id", Str id)] = Ok block.

(** A result that is right, or an error, which is none where the call is sure to
    succeed. *)
Definition gives {A} (r : result A) (right : A -> Prop) (sure : Prop) : Prop :=
  match r with Ok a => right a | Throw e => e <> never_returns /\ ~ sure end.

Lemma variable_ok name (s : connector_) : variable name s = (Ok (prop (sv_vars (cn_service s)) name), s).
Proof. by destruct s as [[]]. Qed.

Lemma genesis_id_kept s : settled s -> getGenesisBlockID s = (Ok (Str gid), s).
Proof.
  intros (Hid & _). unfold getGenesisBlockID, keep. rewrite (M_bind_ok _ _ _ _ _ (variable_ok _ s)), Hid.
  cbn. by rewrite (proj2 (String.eqb_neq _ _) gid_text).
Qed.

Definition genesis_answer : val := Object (spread g [("assets", Arr [])]).

Lemma genesis_answer_id : has_id genesis_answer gid.
Proof.
  unfold has_id, genesis_answer, header_of in *. cbn [get] in *. unfold spread. cbn [foldl fst snd].
  by rewrite prop_set_ne.
Qed.

Lemma genesis_block_kept s : settled s -> getGenesisBlock false s = (Ok genesis_answer, s).
Proof.
  intros (_ & Hg & Hnf & Hurl & Hfp & _).
  assert (loadedGenesisBlock s = (Ok (Object g), s)) as Hl.
  { unfold loadedGenesisBlock. rewrite (M_bind_ok _ _ _ _ _ (variable_ok _ s)), Hg. done. }
  assert (getGenesisBlockFromFS s = (Ok (Object g), s)) as Hfs.
  { unfold getGenesisBlockFromFS. rewrite (M_bind_ok _ _ _ _ _ (variable_ok _ s)), Hnf, (M_bind_ok _ _ _ _ _ (variable_ok _ s)).
    rewrite (M_bind_ok _ _ _ _ _ (variable_ok _ s)), Hurl, Hfp. rewrite (M_bind_ok (ret tt) _ s tt s eq_refl).
    rewrite (M_bind_ok _ _ s (Str gid) s); [|unfold getGenesisBlockId; rewrite (M_bind_ok _ _ _ _ _ Hl); unfold lift; by rewrite g_id].
    cbn [truthy]. rewrite (proj2 (String.eqb_neq _ _) gid_text). cbn [negb]. by rewrite (M_bind_ok (ret tt) _ s tt s eq_refl). }
  unfold getGenesisBlock, try_catch. rewrite (M_bind_ok _ _ _ _ _ Hfs). done.
Qed.

Lemma get_not_never v key e : get v key = Throw e -> e <> never_returns.
Proof. destruct v; cbn; try done; intros [= <-]; done. Qed.

Lemma settled_attempted k endpoint params s : settled s -> settled (attempted k endpoint params s).
Proof. done. Qed.

(** A request that is answered, whatever the answer. *)
Lemma invoke_settles endpoint params s : settled s ->
  exists r s', invokeEndpoint endpoint params s = (r, s') /\ r <> Throw never_returns /\ settled s'.
Proof.
  intros Hs. destruct (invoke_loop_outcome endpoint params NUM_REQUEST_RETRIES s) as (k & r & _ & _ & E & Ho).
  exists r. eexists. split_and!; [exact E| |done]. destruct Ho as [[_ ->]|(_ & _ & ->)]; [apply node_settles|].
  pose proof (timed_out_ends endpoint params). destruct (timed_out endpoint params); cbn; [done|congruence].
Qed.

Lemma node_answers id s : settled s -> id <> gid -> B !! id = None ->
  exists r s', invokeEndpoint "chain_getBlockByID" [("id", Str id)] s = (r, s') /\
    gives r (fun block => has_id block id) (there id) /\ settled s'.
Proof.
  intros Hs Hg HB. destruct (invoke_loop_outcome "chain_getBlockByID" [("id", Str id)] NUM_REQUEST_RETRIES s) as (k & r & _ & _ & E & Ho).
  destruct (invoke_settles "chain_getBlockByID" [("id", Str id)] s Hs) as (r' & s' & E' & Hn & Hs').
  unfold invokeEndpoint in *. assert (r = r') as <- by congruence. exists r, s'. split_and!; [done| |done].
  destruct r as [block|e]; cbn [gives].
  - destruct Ho as [[_ Er]|(_ & _ & Er)]; [by eapply node_blocks|]. by destruct (timed_out _ _).
  - split; [congruence|]. intros [->|[Hc|Ha]]; [done|rewrite HB in Hc; by destruct Hc|].
    destruct (Ha (length (calls s) + k)%nat) as [block Eb]. rewrite Eb in Ho. destruct Ho as [[_ ?]|[? _]]; done.
Qed.

Lemma node_info_settles s : settled s ->
  exists r s', getNodeInfo false s = (r, s') /\ r <> Throw never_returns /\ settled s'.
Proof.
  intros Hs. unfold getNodeInfo, keep_fresh. rewrite (M_bind_ok _ _ _ _ _ (variable_ok _ s)). cbn [negb andb].
  destruct (truthy _); [by eexists _, _|]. destruct (invoke_settles "system_getNodeInfo" [] s Hs) as ([v|e] & s1 & E & Hr & Hs1).
  - rewrite (M_bind_ok _ _ s v (snd (dispatch "systemNodeInfo" [v] s1))).
    2:{ rewrite (M_bind_ok _ _ _ _ _ E). done. }
    eexists _, _. split_and!; [reflexivity|done|]. destruct Hs1 as (A1 & A2 & A3 & A4 & A5 & A6). unfold settled. cbn.
    rewrite !prop_set_ne by done. by split_and!.
  - eexists _, _. split_and!; [rewrite (M_bind_throw _ _ s e s1); [reflexivity|]|done|done]. by rewrite (M_bind_throw _ _ _ _ _ E).
Qed.
Lemma header_not_never block key e : header_of block key = Throw e -> e <> never_returns.
Proof.
  unfold header_of. destruct (get block "header") as [h|e'] eqn:E; cbn; [apply get_not_never|].
  intros [= <-]. by apply get_not_never in E.
Qed.

Lemma waitlist_step networkStatus block s : settled s ->
  exists r s', (height ← lift (header_of block "height");
    finalizedHeight ← lift (get networkStatus "finalizedHeight");
    if js_less finalizedHeight height
    then waitlist ← gets cn_waitlist; set_waitlist (waitlist ++ [block]) else ret tt) s = (r, s') /\
    r <> Throw never_returns /\ settled s'.
Proof.
  intros Hs. unfold mbind, eff_bind, lift.
  destruct (header_of block "height") as [h|e] eqn:E; [|eexists _, _; split_and!; [reflexivity|intros [= ->]; by apply header_not_never in E|done]].
  destruct (get networkStatus _) as [f|e] eqn:Ef; [|eexists _, _; split_and!; [reflexivity|intros [= ->]; by apply get_not_never in Ef|done]].
  destruct (js_less f h); eexists _, _; by split_and!.
Qed.

Lemma for_each_settles {A} (l : list A) f s :
  (forall x s, settled s -> exists r s', f x s = (r, s') /\ r <> Throw never_returns /\ settled s') -> settled s ->
  exists r s', for_each l f s = (r, s') /\ r <> Throw never_returns /\ settled s'.
Proof.
  intros Hf. revert s. induction l as [|x l IH]; intros s Hs; [by eexists _, _|].
  cbn [for_each]. destruct (Hf x s Hs) as ([[]|e] & s1 & E & Hr & Hs1).
  - rewrite (M_bind_ok _ _ _ _ _ E). by apply IH.
  - rewrite (M_bind_throw _ _ _ _ _ E). eexists _, _. by split_and!; [reflexivity|congruence|].
Qed.

(** Whatever goes wrong while a block is put on the waitlist is caught. *)
Lemma caching_settles block s : settled s -> exists s', cacheBlocksIfEnabled block s = (Ok tt, s') /\ settled s'.
Proof.
  intros Hs. unfold cacheBlocksIfEnabled. destruct (_ || _); [by eexists|]. unfold try_catch.
  destruct (node_info_settles s Hs) as ([v|e] & s1 & E & Hr & Hs1).
  - rewrite (M_bind_ok _ _ _ _ _ E).
    match goal with |- context [for_each ?l ?f s1] =>
      destruct (for_each_settles l f s1 (waitlist_step v) Hs1) as ([[]|e] & s2 & -> & Hr2 & Hs2) end; [by eexists|].
    destruct (String.eqb_spec e never_returns) as [->|_]; [done|]. by eexists.
  - rewrite (M_bind_throw _ _ _ _ _ E). destruct (String.eqb_spec e never_returns) as [->|_]; [done|]. by eexists.
Qed.

Lemma block_by_id id s : settled s ->
  exists r s', node_getBlockByID (Str id) false s = (r, s') /\ gives r (fun block => has_id block id) (there id) /\ settled s'.
Proof.
  intros Hs. unfold node_getBlockByID. rewrite (M_bind_ok _ _ _ _ _ (genesis_id_kept s Hs)).
  case_bool_decide as Hid.
  { injection Hid as ->. eexists _, _. split_and!; [by apply genesis_block_kept|apply genesis_answer_id|done]. }
  assert (cached (cache_db s) B T) as Hc by (by destruct Hs as (_ & _ & _ & _ & _ & ->)).
  rewrite (M_bind_ok _ _ s (match B !! id with Some (_, block) => block | None => Null end) s);
    [|unfold try_catch; by rewrite (block_from_cache id B T s Hc)].
  destruct (B !! id) as [[ts block]|] eqn:EB.
  { destruct (B_ids _ _ _ EB) as [Hb ->]. by eexists _, _. }
  cbn [truthy]. destruct (node_answers id s Hs) as ([block|e] & s1 & E1 & Hb & Hs1); [congruence|done|..].
  - destruct (caching_settles block s1 Hs1) as (s2 & E2 & Hs2).
    exists (Ok block), s2. split_and!; [|done|done]. rewrite (M_bind_ok _ _ _ _ _ E1). by rewrite (M_bind_ok _ _ _ _ _ E2).
  - exists (Throw e), s1. split_and!; [|done|done]. by rewrite (M_bind_throw _ _ _ _ _ E1).
Qed.

Definition ordered (ids : list string) (blocks : list val) : Prop := Forall2 has_id blocks ids.

Lemma blocks_each ids s : settled s ->
  exists r s', map_each (Str <$> ids) (fun id => node_getBlockByID id false) s = (r, s') /\
    gives r (ordered ids) (Forall there ids) /\ settled s'.
Proof.
  revert s. induction ids as [|id ids IH]; intros s Hs; [eexists _, _; split_and!; [done|constructor|done]|].
  rewrite fmap_cons. cbn [map_each]. destruct (block_by_id id s Hs) as ([block|e] & s1 & E1 & Hb & Hs1).
  - rewrite (M_bind_ok _ _ _ _ _ E1). destruct (IH s1 Hs1) as ([blocks|e] & s2 & E2 & Hbs & Hs2).
    + exists (Ok (block :: blocks)), s2. split_and!; [by rewrite (M_bind_ok _ _ _ _ _ E2)|by constructor|done].
    + exists (Throw e), s2. split_and!; [by rewrite (M_bind_throw _ _ _ _ _ E2)| |done].
      destruct Hbs as [He Hn]. split; [done|]. by intros [_ Hf]%Forall_cons.
  - exists (Throw e), s1. split_and!; [by rewrite (M_bind_throw _ _ _ _ _ E1)| |done].
    destruct Hb as [He Hn]. split; [done|]. by intros [Hf _]%Forall_cons.
Qed.

Lemma blocks_without_genesis fuel ids s : gid ∉ ids -> settled s ->
  exists r s', blocks_by_ids fuel (Str <$> ids) s = (r, s') /\ gives r (ordered ids) (Forall there ids) /\ settled s'.
Proof.
  intros Hn Hs. destruct (blocks_each ids s Hs) as (r & s1 & E & Hb & Hs1). exists r, s1. split_and!; [|done|done].
  rewrite <- E. destruct fuel; cbn [blocks_by_ids]; rewrite (M_bind_ok _ _ _ _ _ (genesis_id_kept s Hs)), caching;
    (destruct (list_find _ _) as [[i x]|] eqn:Ef; [|done]); apply list_find_Some in Ef as (Hi & -> & _);
    apply list_elem_of_lookup_2, list_elem_of_fmap in Hi as (y & [= <-] & Hy); done.
Qed.

Lemma other_ids (l r : list string) : gid ∉ l -> gid ∉ r -> filter (fun id => id <> Str gid) (Str <$> l ++ gid :: r) = Str <$> l ++ r.
Proof.
  assert (forall k : list string, gid ∉ k -> filter (fun id => id <> Str gid) (Str <$> k) = Str <$> k) as Hk.
  { induction k as [|x k IH]; [done|]. intros Hn. rewrite fmap_cons, filter_cons_True, IH; [done|set_solver|set_solver]. }
  intros Hl Hr. by rewrite !fmap_app, fmap_cons, filter_app, filter_cons_False, !Hk by tauto.
Qed.

Lemma first_genesis (l r : list string) : gid ∉ l -> list_find (fun id => id = Str gid) (Str <$> l ++ gid :: r) = Some (length l, Str gid).
Proof.
  intros Hl. apply list_find_Some. rewrite fmap_app. split_and!; [|done|].
  - rewrite lookup_app_r, length_fmap, Nat.sub_diag by (by rewrite length_fmap). done.
  - intros j y Hj Hlt ->. rewrite lookup_app_l in Hj by (by rewrite length_fmap).
    by apply list_elem_of_lookup_2, list_elem_of_fmap in Hj as (z & [= <-] & Hz).
Qed.

(** [C17] With the cache of blocks switched on and the genesis block loaded, a request for
    the blocks of several ids, the id of the genesis block at most once among
    them, ends; when it succeeds, the blocks are those of the ids in their
    order, whether a block comes from the cache, from the file of the genesis
    block or from the node, and it does succeed when each block is in one of
    these places.  The node may answer a request with any error, over HTTP or
    the pool of clients; the block it answers with is assumed to be the one
    asked for. *)
Theorem blocks_in_order ids s : settled s -> NoDup (filter (fun id => id = gid) ids) ->
  exists r s', node_getBlocksByIDs (Str <$> ids) s = (r, s') /\ gives r (ordered ids) (Forall there ids) /\ settled s'.
Proof.
  intros Hs Hnd. unfold node_getBlocksByIDs. destruct (decide (gid ∈ ids)) as [Hin|]; [|by apply blocks_without_genesis].
  apply list_elem_of_split in Hin as (l & r & ->). rewrite filter_app, filter_cons_True in Hnd by done.
  assert (gid ∉ l /\ gid ∉ r) as [Hl Hr].
  { apply NoDup_app in Hnd as (_ & Hd & [Hr _]%NoDup_cons). split; intros Hi.
    - apply (Hd gid); [by apply list_elem_of_filter|by left].
    - by apply Hr, list_elem_of_filter. }
  rewrite length_fmap, length_app. cbn [length]. rewrite Nat.add_succ_r. cbn [blocks_by_ids].
  rewrite (M_bind_ok _ _ _ _ _ (genesis_id_kept s Hs)), first_genesis, other_ids by done.
  destruct (block_by_id gid s Hs) as ([block|e] & s1 & E1 & Hb & Hs1); [|by destruct Hb as [_ []]; left].
  rewrite (M_bind_ok _ _ _ _ _ E1).
  destruct (blocks_without_genesis (length l + length r) (l ++ r) s1) as (rest & s2 & E2 & Hbs & Hs2); [set_solver|done|].
  destruct (l ++ r) as [|x k] eqn:Elr.
  - apply app_eq_nil in Elr as [-> ->]. exists (Ok [block]), s1. split_and!; [done|by constructor|done].
  - rewrite fmap_cons in E2 |- *. destruct rest as [blocks|e]; cbn [gives] in Hbs.
    + rewrite <- Elr in Hbs. apply Forall2_app_inv_r in Hbs as (bl & br & Hbl & Hbr & ->).
      exists (Ok (bl ++ block :: br)), s2. split_and!; [|apply Forall2_app; [done|by constructor]|done].
      rewrite (M_bind_ok _ _ _ _ _ E2). unfold splice_in, ret.
      by rewrite <- (Forall2_length _ _ _ Hbl), take_app_length, drop_app_length.
    + exists (Throw e), s2. split_and!; [by rewrite (M_bind_throw _ _ _ _ _ E2)| |done].
      destruct Hbs as [He Hn]. split; [done|]. rewrite <- Elr in Hn. rewrite Forall_app, Forall_cons.
      intros (? & _ & ?). apply Hn. by apply Forall_app.
Qed.
End ByIds.

(** ** Samples *)
Definition sample_block (id : string) (height : Z) (tids : list string) : val :=
  Object [("header", Object [("id", Str id); ("height", Num height); ("timestamp", Num (height * 10))]);
          ("transactions", Arr ((fun tid => Object [("id", Str tid)]) <$> tids))].

(** A node whose first answers are timeouts, asked through a pool whose only
    client is found dead once before it was replaced. *)
Definition dead_then_alive : list (result (pool * nat)) :=
  let at_ alive := mkPool 0 {[0%nat := mkClient (Some 0%nat) alive None None]} [Some 0%nat] ∅ 1 1 1 0 [] false 0 [] [] 0 in
  [Ok (at_ false, 0%nat); Ok (at_ true, 0%nat)].
Definition slow_node (slow : nat) : Node := {|
  client_polls _ := dead_then_alive;
  channel_invoke n endpoint params :=
    if (n <? slow)%nat then Throw "Response not received in 10000ms"
    else if String.eqb endpoint "chain_getBlockByID" then Ok (sample_block (js_String (prop params "id")) 7 [])
    else Ok (Object [("finalizedHeight", Num 5)]);
  http_get _ _ := Throw "not used";
  untar _ _ d := d;
  work_dir := [];
|}.

Definition sample_connector (vars : obj) (waitlist : list val) : connector (St := MemDB) :=
  mkConnector (mkService (mkWorld ∅ ∅ ∅ [] ∅) vars ∅ ∅ []) ∅ waitlist [].

Lemma empty_cached : cached (St := MemDB) ∅ ∅ ∅.
Proof. split; (split; [by intros k r|done]). Qed.

Definition no_codec : Codec := {|
  codec_encode _ _ := Throw "not used";
  codec_decode _ _ := Throw "not used";
  codec_decodeJSON _ _ := Throw "not used";
  computeMinFee _ _ _ := Throw "not used";
|}.

Definition sample_settled : connector (St := MemDB) :=
  sample_connector [("genesisBlockID", Str "g"); ("genesisBlock", sample_block "g" 0 []);
                    ("genesisBlockUrl", Str "https://genesis"); ("genesisBlockFilePath", Str "./data/genesis_block.json")] [].

#[local] Existing Instance sample_packages.
#[local] Existing Instance no_codec.
#[local] Existing Instance plain_crypto.
#[local] Instance no_rpc : Rpc := sample_rpc [].

Example invokeEndpoint_retried :
  let s := sample_connector [] [] in
  invokeEndpoint (H3 := slow_node 2) "system_getNodeInfo" [] s
  = (Ok (Object [("finalizedHeight", Num 5)]), attempted 3 "system_getNodeInfo" [] s) /\
  (forall i, request_ends (H3 := slow_node 2) i "system_getNodeInfo" []).
Proof. split; [vm_compute; reflexivity|]. intros i. split; [done|]. split; [right; left; done|]. cbn. by destruct i as [|[|]]. Qed.

Lemma block_cache_refines_witness :
  exists s', cacheBlocksFromWaitlist (sample_connector [] [sample_block "b1" 7 ["t1"; "t2"]]) = (Ok tt, s') /\
    cn_waitlist s' = [] /\
    cached (cache_db s') {["b1" := (70, sample_block "b1" 7 ["t1"; "t2"])]} (<["t2" := "b1"]> {["t1" := "b1"]}).
Proof.
  destruct (block_cache_refines (sample_connector [] [sample_block "b1" 7 ["t1"; "t2"]]) ∅ ∅ empty_cached) as (_ & _ & Hw & _).
  apply (Hw [mkEntry (sample_block "b1" 7 ["t1"; "t2"]) "b1" 70 ["t1"; "t2"]]); [|reflexivity].
  constructor; [|constructor]. constructor; [|reflexivity|reflexivity|eexists; split; [reflexivity|by repeat constructor]].
  repeat first [apply NoDup_nil_2 | apply NoDup_cons; split; [set_solver|] | constructor]; done.
Defined.

Lemma quick_reply n endpoint params :
  reply (H3 := slow_node 0) n endpoint params =
    Ok (if String.eqb endpoint "chain_getBlockByID" then sample_block (js_String (prop params "id")) 7 [] else Object [("finalizedHeight", Num 5)]).
Proof.
  unfold reply. change isUseHttpApi with false. cbn iota. change (await_client _) with (Ok 0%nat). cbn.
  by destruct (String.eqb endpoint _).
Qed.

Lemma blocks_in_order_witness :
  exists blocks s', node_getBlocksByIDs (H3 := slow_node 0) (Str <$> ["a"; "g"; "b"]) sample_settled = (Ok blocks, s') /\
    ordered ["a"; "g"; "b"] blocks.
Proof.
  destruct (blocks_in_order (H3 := sample_packages) (H4 := slow_node 0) "g" (match sample_block "g" 0 [] with Object o => o | _ => [] end) ∅ ∅ ∅
    eq_refl ltac:(done) eq_refl empty_cached ltac:(done)
    ltac:(intros n e p; by rewrite quick_reply) ltac:(intros n id block; rewrite quick_reply; intros [= <-]; done)
    ["a"; "g"; "b"] sample_settled) as ([blocks|e] & s' & E & Hb & _).
  - by split_and!.
  - repeat constructor. set_solver.
  - exists blocks, s'. split; [exact E|exact Hb].
  - destruct Hb as [_ Hn]. destruct Hn. constructor; [right; right; intros n; eexists; apply quick_reply|]. constructor; [by left|].
    constructor; [right; right; intros n; eexists; apply quick_reply|constructor].
Defined.
