(* ===== verification/Indexer.v ===== *)
(** * The indexer service: its status, jobs, messages and events

    [shared/indexer/indexStatus.js], [shared/dataService/indexStatus.js],
    [shared/messageProcessor.js], [shared/init.js], [events/blockchain.js],
    [jobs] and [status.js] of the indexer: the parts that put the block index
    and the data service together. *)
From S2P Require Import Prelude JsValue Database Json Engine Search Table World Schemas KvStore Chain PoolAddress.
From S2P Require Import FeeEstimator Stake Balances Processors Dex Gateway DataQuery Route TransactionQuery Validators Files Http Export Service.
From S2P Require Import Genesis BlockIndex AccountQuery BlockQuery Controllers Market Snapshot.
From Stdlib Require Import SpecFloat.
Local Open Scope Z_scope.

(** [Math.floor(x)] *)
Definition js_floor (x : double) : double := match x with S754_finite _ _ _ => f_of_Z (f_floor x) | x => x end.

(** [a >= b] and [Math.min(a, b)] on numbers *)
Definition js_ge (a b : val) : bool := match a, b with Num x, Num y => y <=? x | _, _ => false end.
Definition js_min (a b : val) : val := match a, b with Num x, Num y => Num (Z.min x y) | _, _ => NaN end.

(** What [getIndexStatus] answers *)
Record index_status := mkStatus { status_data : obj; percentageIndexed : double; status_lastUpdate : Z }.

(** Signals inside of the service and events for the message broker *)
Inductive message :=
| Signal (name : string) (payload : val)
| Event (name : string) (payload : val)
| IndexStatus (status : index_status).

(** [{ data, meta }] *)
Definition data_meta (data : list val) (meta : obj) : val := Object [("data", Arr data); ("meta", Object meta)].

Section Indexer.
Context {St : Type} `{SqlEngine St} `{NodeApi} `{Crypto} `{Rpc} `{Packages} `{Remote}.
(** The prefix of the key value store, the working directory and [toString] of
    numbers from 10^21 on *)
Variable prefix : string.
Variable cwd : list string.
Variable exponential : double -> string.

(** The process with the variables of its modules and the messages it sent *)
Record indexer := mkIndexer {
  ix_host : host (St := St);
  generatorsListCache : list obj;
  validatorList : list obj;
  indexStatsCache : obj;
  isIndexingInProgress : bool;
  lastUpdate : Z;
  isIndexReady : bool;
  localPreviousBlockId : val;
  serviceTasks : list (string * bool);
  statusReady : bool;
  sent : list message;
}.
Abbreviation eff_indexer := (eff indexer).
Abbreviation eff_service := (eff (service (St := St))).

Definition ix_service (s : indexer) : service (St := St) := h_service (ix_host s).

Definition on_host {A} (m : eff (host (St := St)) A) : eff_indexer A := fun s =>
  let (r, h) := m (ix_host s) in
  (r, mkIndexer h (generatorsListCache s) (validatorList s) (indexStatsCache s) (isIndexingInProgress s) (lastUpdate s) (isIndexReady s)
        (localPreviousBlockId s) (serviceTasks s) (statusReady s) (sent s)).
Definition serving {A} (m : eff_service A) : eff_indexer A := on_host (on_service m).

Definition set_generators (l : list obj) : eff_indexer unit := modify (fun s =>
  mkIndexer (ix_host s) l (validatorList s) (indexStatsCache s) (isIndexingInProgress s) (lastUpdate s) (isIndexReady s)
    (localPreviousBlockId s) (serviceTasks s) (statusReady s) (sent s)).
Definition set_validators (l : list obj) : eff_indexer unit := modify (fun s =>
  mkIndexer (ix_host s) (generatorsListCache s) l (indexStatsCache s) (isIndexingInProgress s) (lastUpdate s) (isIndexReady s)
    (localPreviousBlockId s) (serviceTasks s) (statusReady s) (sent s)).
Definition set_stats (o : obj) (now : Z) : eff_indexer unit := modify (fun s =>
  mkIndexer (ix_host s) (generatorsListCache s) (validatorList s) o (isIndexingInProgress s) now (isIndexReady s)
    (localPreviousBlockId s) (serviceTasks s) (statusReady s) (sent s)).
Definition set_progress (b : bool) (now : Z) : eff_indexer unit := modify (fun s =>
  mkIndexer (ix_host s) (generatorsListCache s) (validatorList s) (indexStatsCache s) b now (isIndexReady s)
    (localPreviousBlockId s) (serviceTasks s) (statusReady s) (sent s)).
Definition setIndexReadyStatus (b : bool) : eff_indexer unit := modify (fun s =>
  mkIndexer (ix_host s) (generatorsListCache s) (validatorList s) (indexStatsCache s) (isIndexingInProgress s) (lastUpdate s) b
    (localPreviousBlockId s) (serviceTasks s) (statusReady s) (sent s)).
Definition set_previous (v : val) : eff_indexer unit := modify (fun s =>
  mkIndexer (ix_host s) (generatorsListCache s) (validatorList s) (indexStatsCache s) (isIndexingInProgress s) (lastUpdate s) (isIndexReady s)
    v (serviceTasks s) (statusReady s) (sent s)).
Definition set_tasks (l : list (string * bool)) (ready : bool) : eff_indexer unit := modify (fun s =>
  mkIndexer (ix_host s) (generatorsListCache s) (validatorList s) (indexStatsCache s) (isIndexingInProgress s) (lastUpdate s) (isIndexReady s)
    (localPreviousBlockId s) l ready (sent s)).
Definition send (m : message) : eff_indexer unit := modify (fun s =>
  mkIndexer (ix_host s) (generatorsListCache s) (validatorList s) (indexStatsCache s) (isIndexingInProgress s) (lastUpdate s) (isIndexReady s)
    (localPreviousBlockId s) (serviceTasks s) (statusReady s) (sent s ++ [m])).
Definition getCurrentTimestamp : eff_indexer Z := gets (fun s => clock (length (sv_calls (ix_service s))) / 1000).

(** ** indexer/indexStatus.js *)
Definition getIndexReadyStatus : eff_indexer bool := gets isIndexReady.

(** [(Math.floor((numBlocksIndexed / chainLength) * 10000) / 100).toFixed(2)] *)
Definition percentage_text (numBlocksIndexed : Z) (chainLength : val) : string :=
  match chainLength with
  | Num len => toFixed exponential 2 (f_div (js_floor (f_mul (f_ratio numBlocksIndexed len) (f_of_Z 10000))) (f_of_Z 100))
  | _ => "NaN"
  end.

Definition getIndexStats : eff_service obj :=
  try_catch
    (currentChainHeight ← getCurrentHeight;
     genesisHeight ← getGenesisHeight;
     numBlocksIndexed ← on_world (read Auto (count blocksTableSchema [] Undef));
     rows ← on_world (read Auto (find blocksTableSchema [("sort", Str "height:desc"); ("limit", Num 1)] (Arr [Str "height"])));
     let chainLength := js_plus (js_sub currentChainHeight genesisHeight) (Num 1) in
     ret [("currentChainHeight", currentChainHeight); ("genesisHeight", genesisHeight); ("numBlocksIndexed", Num numBlocksIndexed);
          ("lastIndexedBlock", Object (default [] (head rows))); ("chainLength", chainLength);
          ("percentage", Str (percentage_text numBlocksIndexed chainLength))])
    (fun _ => ret [("error", Bool true)]).

Definition validateIndexReadiness (strict : bool) : eff_service bool :=
  stats ← getIndexStats;
  let chainLength := prop stats "chainLength" in
  let chainLenToConsider := if strict then chainLength else js_sub chainLength (Num 1) in
  ret (js_ge (prop stats "numBlocksIndexed") chainLenToConsider).

Definition checkIndexReadiness : eff_indexer unit :=
  isReady ← getIndexReadyStatus;
  if isReady : bool then ret tt
  else
    valid ← serving (validateIndexReadiness false);
    if valid : bool then setIndexReadyStatus true ≫= fun _ => send (Signal "blockIndexReady" (Bool true)) else ret tt.

(** ** dataService/indexStatus.js *)
Definition getIndexStatus : eff_indexer index_status :=
  stats ← gets indexStatsCache;
  inProgress ← gets isIndexingInProgress;
  updated ← gets lastUpdate;
  let lastIndexedBlock := match prop stats "lastIndexedBlock" with Undef => Object [] | b => b end in
  height ← lift (get lastIndexedBlock "height");
  ret (mkStatus
    [("genesisHeight", prop stats "genesisHeight"); ("lastBlockHeight", prop stats "currentChainHeight"); ("lastIndexedBlockHeight", height);
     ("chainLength", prop stats "chainLength"); ("numBlocksIndexed", prop stats "numBlocksIndexed"); ("isIndexingInProgress", Bool inProgress)]
    (match prop stats "percentage" with Str p => number_of_text p | _ => S754_nan end) updated).

Definition indexStatUpdateListener (indexStats : obj) : eff_indexer unit :=
  now ← getCurrentTimestamp;
  set_stats indexStats now ≫= fun _ =>
  indexStatus ← getIndexStatus;
  send (IndexStatus indexStatus).

Definition indexingProgressListener (numJobsInProgress : Z) : eff_indexer unit :=
  now ← getCurrentTimestamp; set_progress (0 <? numJobsInProgress) now.

Definition isBlockchainFullyIndexed : eff_indexer bool :=
  stats ← gets indexStatsCache;
  ret (match prop stats "percentage" with Str p => SFeqb (number_of_text p) (f_of_Z 100) | _ => false end).

(** [reportIndexStatus] with the listener of its signal *)
Definition reportIndexStatus : eff_indexer unit :=
  indexStats ← serving getIndexStats;
  send (Signal "indexStatUpdate" (Object indexStats)) ≫= fun _ =>
  indexStatUpdateListener indexStats.

(** [jobs/dataService/indexStatus.js] *)
Definition reloadLiveIndexingJobCount (nv : node_view) : eff_indexer unit :=
  send (Signal "numJobsInProgressUpdate" (Num (nv_liveJobs nv))) ≫= fun _ =>
  indexingProgressListener (nv_liveJobs nv).

(** ** Pruning *)

(** [propBetweens: [{ property: 'height', from, to }]] *)
Definition height_between (bounds : obj) : obj := [("propBetweens", Arr [Object (("property", Str "height") :: bounds)])].
Definition LAST_DELETED_EVENTS_HEIGHT : string := "lastDeletedEventsHeight".

(** [indexer/utils/events.js] *)
Definition deleteEventStrTillHeight (toHeight : val) : eff_service unit :=
  fromHeight ← on_world (read Auto (kv_get prefix LAST_DELETED_EVENTS_HEIGHT));
  on_world startDBTransaction ≫= fun _ =>
  try_catch
    (from ← (if truthy fromHeight then ret (js_plus fromHeight (Num 1)) else getGenesisHeight);
     _ ← on_world (write_count Trx (update eventsTableSchema (height_between [("from", from); ("to", toHeight)]) [("eventStr", Null)]));
     on_world (write Trx (kv_set prefix LAST_DELETED_EVENTS_HEIGHT toHeight)) ≫= fun _ =>
     on_world commitDBTransaction)
    (fun _ => on_world rollbackDBTransaction).

(** A job whose errors are only logged *)
Definition logged_job (m : eff_indexer unit) : eff_indexer unit := try_catch m (fun _ => ret tt).

(** [jobs/indexer/events.js] *)
Definition deleteSerializedEvents : eff_indexer unit :=
  logged_job
    (if is_persist_events then ret tt
     else
       status ← getIndexStatus;
       finalizedHeight ← serving getFinalizedHeight;
       let lastIndexedBlockHeight := prop (status_data status) "lastIndexedBlockHeight" in
       let genesisHeight := prop (status_data status) "genesisHeight" in
       let deleteTillHeight := js_min (js_or (js_or lastIndexedBlockHeight genesisHeight) (Num 0)) finalizedHeight in
       serving (deleteEventStrTillHeight deleteTillHeight)).

(** [shared/jobs/deleteFinalizedCCUMetadata.js] and its job *)
Definition deleteFinalizedCCUMetadata (height : val) : eff_service unit :=
  _ ← on_world (write_count Auto (deleteByParams ccuTableSchema (height_between [("to", height)]))); ret tt.
Definition job_deleteFinalizedCCUMetadata : eff_indexer unit :=
  logged_job (finalizedHeight ← serving getFinalizedHeight; serving (deleteFinalizedCCUMetadata finalizedHeight)).

(** ** Generators and validators *)
Definition isPosModuleRegistered : eff_indexer bool :=
  v ← serving (v ← var "isPosRegistered";
     match v with
     | Undef =>
         modules ← metadata_modules;
         names ← lift (mapM_result (fun m => get m "name") modules);
         let registered := Bool (bool_decide (Str "pos" ∈ names)) in
         assign "isPosRegistered" registered ≫= fun _ => ret registered
     | v => ret v
     end);
  ret (truthy v).

(** The list of [key] in an answer of the connector *)
Definition answered_list (method : string) (params : obj) (key : string) : eff_service (list obj) :=
  response ← requestConnector method params;
  l ← lift (get response key); l ← lift (elements l); ret (as_obj <$> l).

Definition generators_info : eff_service (list obj) :=
  generatorsList ← answered_list "getGenerators" [] "list";
  map_each generatorsList (fun generator =>
    account ← on_world (getIndexedAccountInfo [("address", prop generator "address"); ("limit", Num 1)] ["name"; "publicKey"]);
    name ← (if truthy (prop account "name") then ret (prop account "name") else getNameByAddress (prop generator "address"));
    ret (spread generator [("name", name); ("publicKey", prop account "publicKey")])).

Definition reloadGeneratorsCache : eff_indexer unit := l ← serving generators_info; set_generators l.
Definition cached_generators : eff_indexer (list obj) :=
  l ← gets generatorsListCache;
  (match l with [] => reloadGeneratorsCache | _ => ret tt end) ≫= fun _ => gets generatorsListCache.

(** The height of the last block, if it is known *)
Definition last_height : eff_service (option Z) :=
  block ← getLastBlock; height ← lift (get block "height");
  ret (match height with Num h => Some h | _ => None end).

(** The list is replaced before the names are cached and the accounts updated. *)
Definition load_validators : eff_indexer unit :=
  try_catch
    (height ← serving last_height;
     raw ← serving (answered_list "getAllPosValidators" [] "validators");
     l ← serving (on_world (getAllPosValidators height (Ok raw)));
     set_validators l ≫= fun _ =>
     for_each l (fun v =>
       serving (cache_set "validator" (js_String (prop v "address")) (prop v "name") ≫= fun _ =>
                cache_set "validator" (js_String (prop v "name")) (prop v "address") ≫= fun _ =>
                on_world (updateAccountInfo [("address", prop v "address"); ("name", prop v "name"); ("isValidator", Bool true)]))))
    (fun _ => ret tt).

Definition reload_validators : eff_indexer unit :=
  registered ← isPosModuleRegistered;
  if registered : bool then
    load_validators ≫= fun _ =>
    l ← gets validatorList;
    ranked ← lift (computeValidatorRank l);
    set_validators ranked ≫= fun _ =>
    height ← serving last_height;
    generators ← cached_generators;
    l ← lift (computeValidatorStatus height generators ranked);
    set_validators l
  else ret tt.

Definition getAllValidators : eff_indexer (list obj) :=
  l ← gets validatorList;
  (match l with [] => reload_validators | _ => ret tt end) ≫= fun _ => gets validatorList.

Definition generators_page (params : obj) : eff_indexer (list obj * obj) :=
  generators ← cached_generators;
  validators ← getAllValidators;
  ret (getGenerators generators validators params).

(** [shared/jobs/validateValidatorsCache.js] *)
Fixpoint ranks_agree (byStake cached : list obj) : bool :=
  match byStake, cached with
  | v :: byStake, c :: cached => bool_decide (prop v "address" = prop c "address") && ranks_agree byStake cached
  | [], _ => true
  | _, [] => false
  end.
Definition validateValidatorCache : eff_indexer unit :=
  validatorsByStake ← serving (answered_list "getPosValidatorsByStake" [("limit", Num (-1))] "validators");
  cachedValidators ← getAllValidators;
  if ranks_agree validatorsByStake cachedValidators then ret tt else reload_validators.

(** [jobs/dataService] *)
Definition when_pos (m : eff_indexer unit) : eff_indexer unit :=
  registered ← isPosModuleRegistered; if registered : bool then logged_job m else ret tt.
Definition job_refreshValidators : eff_indexer unit := when_pos reload_validators.
Definition job_validateValidatorRank : eff_indexer unit := when_pos validateValidatorCache.
Definition job_blockchainAppsStats : eff_indexer unit := logged_job (serving (reloadBlockchainAppsStats prefix)).
Definition job_knownAccounts : eff_indexer unit := logged_job (serving reloadAccountKnowledge).

(** [jobs/indexer/updateAccounts.js]; the lists are what [redis.spop] gave. *)
Definition job_accountUpdates (publicKeys addresses : list string) : eff_indexer unit :=
  logged_job (serving (on_world (triggerAccountUpdates publicKeys addresses))).
Definition job_accountBalanceUpdates (getTokenBalances : obj -> result val) (popped : list string) : eff_indexer unit :=
  logged_job (_ ← serving (on_world (triggerAccountsBalanceUpdate getTokenBalances popped)); ret tt).

(** ** messageProcessor.js *)
Definition newBlockProcessor (nv : node_view) (block : obj) : eff_indexer unit :=
  response ← serving (formatBlock block false);
  let newBlock := hd Undef (fst response) in
  serving (on_world (indexNewBlock nv (as_obj newBlock))) ≫= fun _ =>
  serving (performLastBlockUpdate newBlock) ≫= fun _ =>
  send (Signal "newBlock" (data_meta (fst response) (snd response))).

Definition deleteBlockProcessor (header : val) : eff_indexer unit :=
  response ← serving (formatBlock [("header", header)] true);
  serving (on_world (scheduleBlockDeletion header)) ≫= fun _ =>
  send (Signal "deleteBlock" (data_meta (fst response) (snd response))).

Definition newRoundProcessor : eff_indexer unit :=
  reload_validators ≫= fun _ =>
  reloadGeneratorsCache ≫= fun _ =>
  limit ← lift getNumberOfGenerators;
  generators ← generators_page [("limit", Num limit); ("offset", Num 0)];
  send (Signal "newRound" (data_meta (Object <$> fst generators) (snd generators))).

Definition txPoolNewTransactionProcessor (transaction : obj) : eff_indexer unit :=
  formattedTransaction ← serving (on_world (formatPendingTransaction transaction));
  send (Signal "txPoolNewTransaction"
    (data_meta [Object formattedTransaction] [("count", Num 1); ("total", Num 1); ("offset", Num 0)])).

(** The processors of the three message queues.  A job of a queue has its data,
    the number of attempts made and that of attempts allowed. *)
Definition process_account (data : obj) : eff_indexer unit :=
  _ ← lift (get (prop data "account") "address");
  serving (on_world (add_job "AccountQueueByAddress" (prop data "account"))).

Definition process_block (nv : node_view) (data : obj) : eff_indexer unit :=
  serving (on_world (addHeightToIndexBlocksQueue nv (prop data "height"))).

Definition process_event (nv : node_view) (data : obj) (attemptsMade attempts : Z) : eff_indexer unit :=
  if truthy (prop data "isNewBlock") then newBlockProcessor nv (as_obj (prop data "block"))
  else if truthy (prop data "isDeleteBlock") then
    try_catch (deleteBlockProcessor (prop data "header"))
      (fun _ => if attemptsMade =? attempts - 1 then serving (on_world (add_job "Event" (Object data))) else ret tt)
  else if truthy (prop data "isNewRound") then newRoundProcessor
  else if truthy (prop data "isTxPoolNewTransaction") then txPoolNewTransactionProcessor (as_obj (prop data "transaction"))
  else ret tt.

(** ** events/blockchain.js: the listeners that pass signals on to the broker *)

(** [payload && Array.isArray(payload.data)] *)
Definition payload_data (payload : val) : option (list val) :=
  match payload with Object o => match prop o "data" with Arr l => Some l | _ => None end | _ => None end.

Definition reloadAllPendingTransactions : eff_service unit :=
  try_catch
    (response ← requestConnector "getTransactionsFromPool" [];
     response ← lift (elements response);
     l ← on_world (getPendingTransactionsFromNode (Ok (as_obj <$> response)));
     assign "pendingTransactionsList" (Arr (Object <$> l)))
    (fun _ => ret tt).

Definition newBlockListener (payload : val) : eff_indexer unit :=
  logged_job
    match payload_data payload with
    | Some data =>
        id ← lift (get (hd Undef data) "id");
        set_previous id ≫= fun _ =>
        serving reloadAllPendingTransactions ≫= fun _ =>
        send (Event "block.new" payload)
    | None => ret tt
    end.

Definition newTransactionsListener (nv : node_view) (payload : val) : eff_indexer unit :=
  logged_job
    match payload_data payload with
    | Some data =>
        let block := hd Undef data in
        numberOfTransactions ← lift (get block "numberOfTransactions");
        if negb (js_less (Num 0) numberOfTransactions) then ret tt
        else
          formatted ← serving (on_world (formatTransactionsInBlock
            (fun height => match height with Num h => lift (nv_events nv h) | _ => lift (Throw "no such block") end) (as_obj block)));
          send (Event "transactions.new" (data_meta (Object <$> fst formatted) (snd formatted)))
    | None => ret tt
    end.

Definition pass_data (event : string) (payload : val) : eff_indexer unit :=
  match payload_data payload with Some _ => send (Event event payload) | None => ret tt end.
Definition txPoolListener (payload : val) : eff_indexer unit := send (Event "transactions.new" payload).
Definition deleteBlockListener (payload : val) : eff_indexer unit := pass_data "block.delete" payload.
Definition deleteTransactionsListener (payload : val) : eff_indexer unit := pass_data "transactions.delete" payload.

Definition generatorsChangeListener : eff_indexer unit :=
  logged_job
    (reloadGeneratorsCache ≫= fun _ =>
     generators ← generators_page [("limit", Num 103); ("offset", Num 0)];
     send (Event "generators.change" (data_meta (Object <$> fst generators) (snd generators)))).

Definition newRoundListener (payload : val) : eff_indexer unit := send (Event "round.change" payload).
Definition indexStatusListener (payload : val) : eff_indexer unit := send (Event "index.ready" payload).

(** ** status.js *)
Definition initial_tasks : list (string * bool) :=
  (fun name => (name, false)) <$> ["isBlockchainIndexReady"; "isGeneratorsListReady"; "isTransactionsEndpointReady";
                                   "isEventsEndpointReady"; "isNetworkStatusEndpointReady"; "isSchemasEndpointReady"].
Definition isIndexerServiceReady (tasks : list (string * bool)) : bool := forallb snd tasks.
Definition set_task (name : string) (value : bool) : eff_indexer unit :=
  tasks ← gets serviceTasks;
  ready ← gets statusReady;
  set_tasks ((fun t => if String.eqb (fst t) name then (name, value) else t) <$> tasks) ready.
Definition ready_if (name : string) (condition : bool) : eff_indexer unit := if condition then set_task name true else ret tt.

(** [v.data.length] is not zero; [Object.getOwnPropertyNames(v.data).length] *)
Definition some_data (o : obj) : bool := match prop o "data" with Arr (_ :: _) | Object (_ :: _) => true | _ => false end.

(** [dataService.getTransactions({ limit: 1 })]; below an unknown height nothing is final. *)
Definition first_transaction : eff_service (list obj * obj) :=
  finalized ← getFinalizedHeight;
  calls ← gets (fun s => length (sv_calls s));
  on_world (business_getTransactions (Throw "not asked for")
    (Ok (match finalized with Num z => z | _ => -1 end))
    (fun ids => response ← rpc calls "connector.getTransactionsByIDs" [("ids", Arr ids)]; l ← elements response; Ok (as_obj <$> (l : list val)))
    [("limit", Num 1)]).

Definition indexer_getStatus : eff_indexer bool :=
  ready ← gets statusReady;
  if ready : bool then ret true
  else
    indexReady ← getIndexReadyStatus;
    set_task "isBlockchainIndexReady" indexReady ≫= fun _ =>
    events ← serving (getEvents [("limit", Num 1); ("sort", Str "timestamp:desc")]);
    ready_if "isEventsEndpointReady" (some_data events) ≫= fun _ =>
    generators ← generators_page [("limit", Num 1); ("offset", Num 0)];
    ready_if "isGeneratorsListReady" (negb (Nat.eqb (length (fst generators)) 0)) ≫= fun _ =>
    networkStatus ← serving getNetworkStatus;
    ready_if "isNetworkStatusEndpointReady" (some_data networkStatus) ≫= fun _ =>
    transactions ← serving first_transaction;
    ready_if "isTransactionsEndpointReady" (negb (Nat.eqb (length (fst transactions)) 0)) ≫= fun _ =>
    schemas ← serving getSchemas;
    ready_if "isSchemasEndpointReady" (some_data schemas) ≫= fun _ =>
    tasks ← gets serviceTasks;
    (if isIndexerServiceReady tasks then set_tasks tasks true else ret tt) ≫= fun _ =>
    gets statusReady.

(** ** shared/init.js: the start of the service, up to the queues *)
Definition indexer_init : eff_indexer unit :=
  _ ← serving getPosConstants;
  _ ← serving getTokenConstants;
  _ ← serving getRewardConstants;
  serving initFeeEstimates ≫= fun _ =>
  (if snapshot_enable then logged_job (on_host (initSnapshot cwd)) else ret tt) ≫= fun _ =>
  reportIndexStatus ≫= fun _ =>
  _ ← serving getFeeEstimatesFromFeeEstimator;
  ret tt.
End Indexer.
