(* ===== verification/IndexerSpec.v ===== *)
(** * When the index is complete

    The service announces once that its index is ready.  It decides so by
    counting rows; that the count says which blocks are there rests on the
    invariant of the index of blocks ([BlockIndexSpec]). *)
From S2P Require Import Prelude JsValue Database Json Engine Search Table World Schemas KvStore Chain PoolAddress.
From S2P Require Import FeeEstimator Stake Balances Processors Dex Gateway DataQuery Route TransactionQuery Validators Files Http Export Service.
From S2P Require Import Genesis BlockIndex BlockIndexSpec AccountQuery BlockQuery Controllers Market Snapshot Indexer.
Local Open Scope Z_scope.

(** ** Heights and their number *)
Lemma size_below (rs : Engine.rows) (lo hi : Z) :
  (forall k r, rs !! k = Some r -> exists h, k = [SInt h] /\ lo <= h < hi) -> Z.of_nat (base.size rs) <= Z.max 0 (hi - lo).
Proof.
  intros Hk. set (l := (fun i : nat => [SInt (lo + Z.of_nat i)]) <$> seq 0 (Z.to_nat (hi - lo))).
  assert (dom rs ⊆ (list_to_set l : gset (list sql))) as Hd.
  { intros k [r Hr]%elem_of_dom. destruct (Hk k r Hr) as (h & -> & Hh). apply elem_of_list_to_set. unfold l.
    apply list_elem_of_fmap. exists (Z.to_nat (h - lo)). split; [do 2 f_equal; lia|]. apply elem_of_seq. lia. }
  apply subseteq_size in Hd. rewrite size_dom in Hd. rewrite size_list_to_set in Hd.
  - unfold l in Hd. rewrite length_fmap, length_seq in Hd. lia.
  - apply NoDup_fmap_2; [|apply NoDup_seq]. intros i j [= E]. lia.
Qed.

Lemma size_above (rs : Engine.rows) (lo hi : Z) :
  (forall h, lo <= h < hi -> indexed rs h) -> hi - lo <= Z.of_nat (base.size rs).
Proof.
  intros Hk. set (l := (fun i : nat => [SInt (lo + Z.of_nat i)]) <$> seq 0 (Z.to_nat (hi - lo))).
  assert ((list_to_set l : gset (list sql)) ⊆ dom rs) as Hd.
  { intros k (i & -> & Hi%elem_of_seq)%elem_of_list_to_set%list_elem_of_fmap. apply elem_of_dom, Hk. lia. }
  apply subseteq_size in Hd. rewrite size_dom in Hd. rewrite size_list_to_set in Hd.
  - unfold l in Hd. rewrite length_fmap, length_seq in Hd. lia.
  - apply NoDup_fmap_2; [|apply NoDup_seq]. intros i j [= E]. lia.
Qed.

(** Every block above genesis and below the tip is there, and so is the genesis
    block or the tip. *)
Definition complete (g tip : Z) (rs : Engine.rows) : Prop :=
  (forall h, g < h < tip -> indexed rs h) /\ (indexed rs g \/ indexed rs tip).

Section Complete.
Variable height_of : string -> Z.
Variable g : Z.

Lemma chain_down rs b h : chain_ok height_of g rs -> indexed rs b -> g < h <= b -> indexed rs h.
Proof.
  intros (_ & _ & Hcont) Hb Hh. assert (forall n : nat, g < b - Z.of_nat n -> indexed rs (b - Z.of_nat n)) as Hdown.
  { induction n as [|n IH]; intros Hn; [by rewrite Z.sub_0_r|].
    replace (b - Z.of_nat (S n)) with (b - Z.of_nat n - 1) by lia. apply Hcont; [apply IH; lia|lia]. }
  replace h with (b - Z.of_nat (Z.to_nat (b - h))) by lia. apply Hdown. lia.
Qed.

Lemma chain_keys rs (P : Z -> Prop) : chain_ok height_of g rs -> (forall h, indexed rs h -> P h) ->
  forall k r, rs !! k = Some r -> exists h, k = [SInt h] /\ P h.
Proof. intros (_ & Hr & _) HP k r E. destruct (Hr k r E) as (h & i & -> & _). exists h. split; [done|]. apply HP. by exists r. Qed.

Lemma count_complete rs tip : chain_ok height_of g rs -> g < tip -> tip - g <= Z.of_nat (base.size rs) <-> complete g tip rs.
Proof.
  intros Hc Hg. split.
  - intros Hn.
    assert (forall h, indexed rs h -> g <= h) as Hlow by (intros h Hh; by apply Hc). split.
    + intros h Hh. destruct (decide (indexed rs h)) as [?|Hnot]; [done|]. exfalso.
      pose proof (size_below rs g h (chain_keys rs _ Hc (fun b Hb => conj (Hlow b Hb) (match Z.lt_ge_cases b h with
        | or_introl L => L | or_intror G => False_ind _ (Hnot (chain_down rs b h Hc Hb (conj (proj1 Hh) G))) end)))). lia.
    + destruct (decide (indexed rs g)) as [?|Hg0]; [by left|]. destruct (decide (indexed rs tip)) as [?|Ht]; [by right|]. exfalso.
      assert (forall b, indexed rs b -> g + 1 <= b < tip) as Hb.
      { intros b Hb. pose proof (Hlow b Hb). destruct (Z.eq_dec b g) as [->|]; [done|]. split; [lia|].
        destruct (Z.lt_ge_cases b tip) as [|Hge]; [done|]. destruct Ht. eapply chain_down; [done|exact Hb|lia]. }
      pose proof (size_below rs (g + 1) tip (chain_keys rs _ Hc Hb)). lia.
  - intros [Hmid [Hgen|Htip]].
    + apply size_above. intros h Hh. destruct (Z.eq_dec h g) as [->|]; [done|]. apply Hmid. lia.
    + pose proof (size_above rs (g + 1) (tip + 1)) as Hs. cut (tip + 1 - (g + 1) <= Z.of_nat (base.size rs)); [lia|]. apply Hs.
      intros h Hh. destruct (Z.eq_dec h tip) as [->|]; [done|]. apply Hmid. lia.
Qed.
End Complete.

(** ** The readiness check *)
Section Ready.
Context {St : Type} `{SqlLaws St} `{NodeApi} `{Crypto} `{Rpc} `{Packages} `{Remote}.
Variable exponential : double -> string.
Variable height_of : string -> Z.
Variable g : Z.

Lemma kept_number_world name m (v : service (St := St)) :
  (forall v, sv_world (snd (m v)) = sv_world v) -> sv_world (snd (kept_number name m v)) = sv_world v.
Proof.
  intros Hm. unfold kept_number, var, mbind, eff_bind, gets. destruct (String.eqb _ "number"); [done|]. specialize (Hm v).
  by destruct (m v) as [[a|e] v1].
Qed.

Lemma current_world (v : service (St := St)) : sv_world (snd (getCurrentHeight v)) = sv_world v.
Proof.
  apply kept_number_world. intros v1. unfold mbind, eff_bind, lift, requestConnector, requestRpc. by destruct (_ ≫= _).
Qed.

Lemma genesis_world (v : service (St := St)) : sv_world (snd (getGenesisHeight v)) = sv_world v.
Proof. by apply kept_number_world. Qed.

Lemma filter_true {A} (P : A -> Prop) `{forall x, Decision (P x)} (l : list A) : (forall x, P x) -> filter P l = l.
Proof. intros HP. induction l as [|x l IH]; [done|]. rewrite filter_cons_True by done. by rewrite IH. Qed.

Lemma count_blocks (w : world St) : read Auto (count blocksTableSchema [] Undef) w = (Ok (Z.of_nat (base.size (committed w))), w).
Proof.
  unfold read, count. cbn. rewrite count_law by done. unfold count_matching, matching. rewrite filter_true by done.
  rewrite length_fmap. unfold committed. by rewrite length_map_to_list.
Qed.

Lemma last_block_found (w : world St) : exists l,
  read Auto (find blocksTableSchema [("sort", Str "height:desc"); ("limit", Num 1)] (Arr [Str "height"])) w = (Ok l, w).
Proof.
  unfold read, find. cbn. match goal with |- context [eng_select ?t ?q ?s] => destruct (select_law t q s eq_refl) as (l & _ & _ & ->) end.
  by eexists.
Qed.

(** The statistics of an index with a known tip *)
Lemma stats_known v cur v1 v2 : getCurrentHeight v = (Ok (Num cur), v1) -> getGenesisHeight v1 = (Ok (Num g), v2) ->
  exists last p, getIndexStats exponential v =
    (Ok [("currentChainHeight", Num cur); ("genesisHeight", Num g);
         ("numBlocksIndexed", Num (Z.of_nat (base.size (committed (sv_world v))))); ("lastIndexedBlock", last);
         ("chainLength", Num (cur - g + 1)); ("percentage", p)], v2) /\ sv_world v2 = sv_world v.
Proof.
  intros Hc Hg. pose proof (current_world v) as W1. rewrite Hc in W1. pose proof (genesis_world v1) as W2. rewrite Hg in W2.
  cbn [snd] in W1, W2. rewrite W1 in W2. unfold getIndexStats, try_catch, mbind, eff_bind. rewrite Hc, Hg.
  unfold on_world at 1. rewrite W2, count_blocks. cbn [sv_world]. unfold on_world at 1. cbn [sv_world].
  destruct (last_block_found (sv_world v)) as [l ->]. eexists _, _. split.
  - unfold ret. f_equal. destruct v2. cbn in *. by rewrite W2.
  - done.
Qed.

Lemma readiness_exact v cur v1 v2 : chain_ok height_of g (committed (sv_world v)) ->
  getCurrentHeight v = (Ok (Num cur), v1) -> getGenesisHeight v1 = (Ok (Num g), v2) ->
  exists b : bool, validateIndexReadiness exponential false v = (Ok b, v2) /\ sv_world v2 = sv_world v /\
    (g < cur -> b = true <-> complete g cur (committed (sv_world v))) /\ (cur <= g -> b = true).
Proof.
  intros Hok Hc Hg. destruct (stats_known v cur v1 v2 Hc Hg) as (last & p & E & Hw).
  eexists. split; [unfold validateIndexReadiness, mbind, eff_bind; rewrite E; reflexivity|]. split; [done|].
  cbn [js_ge js_sub prop]. cbn. rewrite Z.leb_le. split; [|lia].
  intros Hlt. rewrite <- (count_complete height_of g _ cur Hok Hlt). lia.
Qed.

(** The state with another state of the service inside *)
Definition with_service (v : service (St := St)) (s : indexer (St := St)) : indexer (St := St) := snd (serving (fun _ => (Ok tt, v)) s).
(** The state that says that the index is ready, after the signal *)
Definition announced (s : indexer (St := St)) : indexer (St := St) :=
  snd (send (Signal "blockIndexReady" (Bool true)) (snd (setIndexReadyStatus true s))).

(** [C3] The index is announced as ready exactly when it is complete.  The
    committed index is a chain (the invariant of the index of blocks) and the
    node reports the heights [cur] of its tip and [g] of genesis.  With the tip
    above genesis, a check of an index that is not announced yet finds it ready
    if and only if every block above genesis and below the tip is committed,
    together with the genesis block or the tip (the one block that is not
    required is the one that is being indexed); with the tip at genesis it
    always does.  A check that finds it ready changes the flag and sends one
    signal, any other check leaves both alone; besides, only the remembered
    heights of the service may change, not the database; and a check after the
    announcement does nothing at all. *)
Theorem index_ready_exact (s : indexer (St := St)) (cur : Z) v1 v2 :
  chain_ok height_of g (committed (sv_world (ix_service s))) ->
  getCurrentHeight (ix_service s) = (Ok (Num cur), v1) -> getGenesisHeight v1 = (Ok (Num g), v2) ->
  sv_world v2 = sv_world (ix_service s) /\
  (isIndexReady s = true -> checkIndexReadiness exponential s = (Ok tt, s)) /\
  (isIndexReady s = false -> exists ready : bool,
     checkIndexReadiness exponential s = (Ok tt, if ready then announced (with_service v2 s) else with_service v2 s) /\
     (g < cur -> ready = true <-> complete g cur (committed (sv_world (ix_service s)))) /\ (cur <= g -> ready = true)).
Proof.
  intros Hok Hc Hg. destruct (readiness_exact (ix_service s) cur v1 v2 Hok Hc Hg) as (b & Eb & Hw & Hb).
  unfold checkIndexReadiness, getIndexReadyStatus, mbind, eff_bind, gets. split; [done|]. split; intros ->; [done|].
  exists b. split; [|done]. unfold serving, on_host, on_service. change (h_service (ix_host s)) with (ix_service s).
  rewrite Eb. by destruct b.
Qed.
End Ready.

(** ** The statements of the indexer keep its tables in order *)

(** [increment] or [decrement] *)
Definition how (up : bool) : string := if up then "increment" else "decrement".
Definition change (up : bool) (t : table) (params : obj) : op := if up then OIncrement t params else ODecrement t params.

(** The table layer casts the values of every column: none is of type [text] or
    [decimal], for which values are passed on as they are. *)
Definition all_cast (t : table) : bool := forallb (fun cc => cast_type (ctype (snd cc))) (Database.schema t).

(** The statements the indexer runs on its tables, with arbitrary values.  Rows
    are inserted into tables without uncast columns and deleted from any table;
    the deletions have queries of the forms that the laws of the engine cover.
    Counters are moved by any amount; two columns are set to constants. *)
Inductive statement : op -> Prop :=
| s_upsert t rows : t ∈ static_tables -> all_cast t = true -> statement (OUpsert t rows)
| s_delete t params : t ∈ static_tables -> query_ok params (primaryKey t) = true -> statement (ODeleteByParams t params)
| s_delete_key t ids : t ∈ static_tables -> supported1 (KWhereIn (primaryKey t) (Arr (as_array ids))) = true ->
    statement (ODeleteByPrimaryKey t ids)
| s_validator up column amount address : column ∈ ["generatedBlocks"; "totalCommission"; "totalSelfStakeRewards"] ->
    statement (change up validatorsTableSchema (validator_param (how up) column amount address))
| s_stake up stake amount : statement (change up stakesTableSchema (stake_param (how up) stake amount))
| s_supply up tokenId amount : statement (change up tokenFactoryTableSchema (supply_param (how up) tokenId amount))
| s_position up liquidity tokenId : statement (change up positionTableSchema (position_param (how up) liquidity tokenId))
| s_final finalizedHeight : statement (OUpdate blocksTableSchema
    [("isFinal", Bool false);
     ("propBetweens", Arr [Object [("property", Str "height"); ("lowerThanEqualTo", Num finalizedHeight)]])]
    [("isFinal", Bool true)])
| s_event_text fromHeight toHeight : statement (OUpdate eventsTableSchema
    (height_between [("from", fromHeight); ("to", toHeight)]) [("eventStr", Null)]).

(** Fourteen of the twenty-two tables *)
Lemma cast_tables : tableName <$> filter (fun t => all_cast t = true) static_tables =
  ["account_balances"; "accounts"; "blockchain_apps"; "blocks"; "ccu"; "commissions"; "event_topics"; "multisignature";
   "registered_dex_token"; "stakes"; "token_metadata"; "transactions"; "validators"; "key_value_store"].
Proof. vm_compute. reflexivity. Qed.

Ltac in_static := unfold static_tables; repeat first [apply list_elem_of_here|apply list_elem_of_further].

Lemma js_Number_cases v : js_Number v = NaN \/ exists z, js_Number v = Num z.
Proof. destruct v; simpl; repeat case_match; eauto. Qed.

Lemma statement_ok o : statement o -> op_table o ∈ static_tables /\ op_ok o = true.
Proof.
  intros [t rows Ht Hc|t params Ht Hq|t ids Ht Hs|up c n a Hc|up st n|up i n|up l i|h|f t]; cbn [op_table op_ok].
  - auto.
  - auto.
  - auto.
  - repeat (apply elem_of_cons in Hc as [->|Hc]; [destruct up; (split; [in_static|reflexivity])|]).
    by apply not_elem_of_nil in Hc.
  - destruct up; (split; [in_static|reflexivity]).
  - destruct up; (split; [in_static|reflexivity]).
  - unfold position_param. destruct (js_Number_cases l) as [->|[z ->]]; destruct up; (split; [in_static|reflexivity]).
  - split; [in_static|reflexivity].
  - split; [in_static|]. cbn. reflexivity.
Qed.

(** [C4] Any sequence of successful statements of the indexer, with arbitrary
    values, keeps its tables in order: upserts of anything into the tables
    without [text] and [decimal] columns ([cast_tables]), deletions from any
    table by parameters or keys (with the query forms of the engine), the
    increments and decrements of validators, stakes, token supplies and
    positions by any amount, and the updates of [isFinal] and [eventStr].
    Every row of every table stays under its own primary key, with no null in
    the key and every column holding a value of its declared type.  (The
    updates of pools and last prices and the upserts into the other eight
    tables are not among them: they pass values on without a cast and rely on
    the conversions of MySQL.) *)
Theorem statements_preserve_tables {St : Type} `{SqlLaws St} (ops : list op) (s s' : St) :
  Forall statement ops -> db_ok static_tables s ->
  foldM (fun s o => run_op o s) s ops = Ok s' -> db_ok static_tables s'.
Proof.
  intros Hops Hs E. apply (operations_preserve_tables static_tables ops s s'); try done.
  - apply static_tables_names.
  - apply static_tables_wf.
  - eapply Forall_impl; [exact Hops|]. apply statement_ok.
Qed.

Definition sample_statements : list op :=
  [OUpsert blocksTableSchema
     (Arr [Object [("id", Str "b1"); ("height", Num 1); ("reward", Str "100")];
           Object [("id", Str "b2"); ("height", Str "2"); ("isFinal", Bool true)]]);
   OUpsert validatorsTableSchema (Object [("address", Str "v"); ("generatedBlocks", Num 1)]);
   change true validatorsTableSchema (validator_param "increment" "totalCommission" 5 (Str "v"));
   ODeleteByPrimaryKey blocksTableSchema (Num 2)].

Lemma statements_preserve_tables_witness :
  exists s', foldM (fun s o => run_op o s) (∅ : MemDB) sample_statements = Ok s' /\ db_ok static_tables s' /\
    base.size (rows_of s' blocksTableSchema) = 1%nat.
Proof.
  assert (is_ok (foldM (fun s o => run_op o s) (∅ : MemDB) sample_statements) = true) as Hrun by (vm_compute; reflexivity).
  assert (match foldM (fun s o => run_op o s) (∅ : MemDB) sample_statements with
          | Ok s' => base.size (rows_of s' blocksTableSchema) | Throw _ => 0%nat end = 1%nat) as Hsize by (vm_compute; reflexivity).
  destruct (foldM (fun s o => run_op o s) (∅ : MemDB) sample_statements) as [s'|e] eqn:E; [|discriminate Hrun].
  exists s'. split; [reflexivity|]. split; [|exact Hsize].
  apply (statements_preserve_tables sample_statements (∅ : MemDB) s'); [|apply db_ok_empty|exact E].
  unfold sample_statements. repeat apply Forall_cons_2; [..|apply Forall_nil_2].
  - apply s_upsert; [in_static|vm_compute; reflexivity].
  - apply s_upsert; [in_static|vm_compute; reflexivity].
  - apply (s_validator true). by right; left.
  - apply s_delete_key; [in_static|reflexivity].
Defined.

(** ** Samples *)
#[local] Instance silent_rpc : Rpc := sample_rpc [].
Definition small_numbers (_ : double) : string := "".

(** A node at height 3, of which genesis and two blocks are indexed *)
Definition sample_indexer (js : list job) : indexer (St := MemDB) :=
  mkIndexer (mkHost (sample_service (sample_world js) [("currentHeight", Num 3); ("genesisHeight", Num 0)]) ∅ [] 0 "")
    [] [] [] false 0 false Undef initial_tasks false [].

Lemma index_ready_exact_witness :
  let s := sample_indexer [JIndex 0; JIndex 0; JIndex 0] in
  exists s', checkIndexReadiness small_numbers s = (Ok tt, s') /\ isIndexReady s' = true /\
    sent s' = [Signal "blockIndexReady" (Bool true)] /\ complete 0 3 (committed (sv_world (ix_service s))).
Proof.
  intros s. destruct (index_ready_exact small_numbers sample_height 0 s 3 (ix_service s) (ix_service s)
    (sample_chain [JIndex 0; JIndex 0; JIndex 0]) eq_refl eq_refl) as (_ & _ & Hr).
  destruct (Hr eq_refl) as (ready & E & Hc & _).
  assert (ready = true) as R.
  { transitivity (isIndexReady (snd (checkIndexReadiness small_numbers s))); [rewrite E; by destruct ready|vm_compute; reflexivity]. }
  rewrite R in E. exists (announced (with_service (ix_service s) s)). split; [exact E|]. split; [reflexivity|].
  split; [reflexivity|]. apply Hc; [lia|exact R].
Defined.

(** With only two blocks the index is not ready, and nothing is announced. *)
Example not_ready :
  let s := snd (checkIndexReadiness small_numbers (sample_indexer [JIndex 0; JIndex 0])) in isIndexReady s = false /\ sent s = [].
Proof. vm_compute. by split. Qed.

(** The percentage is rounded down, and only an index with as many blocks as the
    chain counts as fully indexed; one that is ahead of the node does not. *)
Example percentages :
  percentage_text small_numbers 999999 (Num 1000000) = "99.99" /\ percentage_text small_numbers 1000000 (Num 1000000) = "100.00" /\
  percentage_text small_numbers 1 (Num 3) = "33.33" /\ percentage_text small_numbers 2 (Num 1) = "200.00" /\
  percentage_text small_numbers 5 NaN = "NaN".
Proof. vm_compute. by split_and!. Qed.

(** The message for an account puts the whole object into the queue, where a
    text is expected: the account that is stored is called [[object Object]]. *)
Lemma account_message_misread (s : indexer (St := MemDB)) (address : string) :
  let account := Object [("address", Str address)] in
  let s' := snd (process_account [("account", account)] s) in
  w_jobs (sv_world (ix_service s')) = w_jobs (sv_world (ix_service s)) ++ [("AccountQueueByAddress", account)] /\
  is_Some (rows_of (w_auto (snd (updateAccountInfoAddr account empty_world))) accountsTableSchema !! [SStr "[object Object]"]).
Proof. split; [done|]. exists (<["address" := SStr "[object Object]"]> (defaults accountsTableSchema)). vm_compute. reflexivity. Qed.
