(* ===== verification/GatewayServer.v ===== *)
(** * The servers of the gateway

    [gateway/shared/moleculer-io] (JSON-RPC over sockets),
    [shared/moleculer-web/methods.js] (errors of HTTP requests),
    [shared/ready.js], [shared/status.js], and the rate limit and the events of
    [app.js].  The broker of [moleculer] is the class [Broker]. *)
From S2P Require Import Prelude JsValue Regex Mapper GatewaySources Gateway Json Database Table Chain PoolAddress Stake Validators Files Http Export Service BlockQuery DexQuery Connector.
From Stdlib Require Import Ascii.
Local Open Scope Z_scope.

(** An error with a code and a text, or one whose message is an object (those
    of the hooks of [registerRpcApi.js]). *)
Inductive failure :=
| Failure (code : val) (message : string)
| Structured (code : Z) (message : val).

(** [ctx.call], the visibility of an action ([undefined] or a text), and the
    globs and messages of [moleculer] *)
Class Broker := {
  broker_call : nat -> string -> val -> failure + val;
  action_visibility : string -> failure + val;
  glob_match : string -> string -> bool;
  not_found_message : string -> string;
}.

(** ** Envelopes *)
Definition METHOD_NOT_FOUND : Z := -32601.
Definition SERVER_ERROR : Z := -32000.

Definition addJsonRpcEnvelope (id result : val) : val := Object [("jsonrpc", Str "2.0"); ("result", result); ("id", id)].
Definition addErrorEnvelope (id code message : val) : val :=
  Object [("jsonrpc", Str "2.0"); ("error", Object [("code", code); ("message", message); ("data", Undef)]); ("id", id)].

Definition translateHttpToRpcCode (code : val) : Z :=
  if bool_decide (code = Num 404) then METHOD_NOT_FOUND
  else if bool_decide (code = Num 400) then INVALID_REQUEST
  else SERVER_ERROR.

(** What the catch block answers *)
Definition failure_envelope (id : val) (f : failure) : val :=
  match f with
  | Failure code message =>
      addErrorEnvelope id (Num (translateHttpToRpcCode code))
        (Str (if negb (truthy code) || bool_decide (code = Num 500) then "Server error: " +:+ message else message))
  | Structured code message => addErrorEnvelope id (Num code) message
  end.

(** ** util.js *)

(** [finally { return false }] overrides the result of the test. *)
Definition safeTestRegex (r : regex) (action : string) : bool := false.

(** [checkWhitelist(action, whitelist)] for masks that are texts *)
Definition checkWhitelist `{Broker} (action : string) (whitelist : list string) : bool := existsb (glob_match action) whitelist.

(** The named members of the parameters of a request; [null] has none at all. *)
Definition own_params (v : val) : option obj :=
  match v with
  | Null => None
  | Object o => Some o
  | Arr l => Some (imap (fun i x => (string_of_Z (Z.of_nat i), x)) l)
  | Str s => Some (imap (fun i c => (string_of_Z (Z.of_nat i), Str (String c ""))) (String.list_ascii_of_string s))
  | _ => Some []
  end.

Section Sockets.
Context `{Broker} `{FastestValidator} `{DateCasts} `{Packages}.
(** The endpoints of the namespace *)
Variable methods : list (string * endpoint).

(** The cache of answers, the calls to services, what was answered to the
    callback of the client and what was emitted to it *)
Record gateway := mkGateway {
  rpc_cache : gmap string string;
  g_calls : list (string * val);
  acks : list val;
  emitted : list (string * val);
}.
Abbreviation eff_gateway := (eff gateway).

Definition call_service (action : string) (params : val) : eff_gateway (failure + val) := fun g =>
  (Ok (broker_call (length (g_calls g)) action params),
   mkGateway (rpc_cache g) (g_calls g ++ [(action, params)]) (acks g) (emitted g)).
Definition store_answer (key text : string) : eff_gateway unit :=
  modify (fun g => mkGateway (<[key := text]> (rpc_cache g)) (g_calls g) (acks g) (emitted g)).
Definition respond_with (v : val) : eff_gateway unit :=
  modify (fun g => mkGateway (rpc_cache g) (g_calls g) (acks g ++ [v]) (emitted g)).
Definition socket_emit (event : string) (v : val) : eff_gateway unit :=
  modify (fun g => mkGateway (rpc_cache g) (g_calls g) (acks g) (emitted g ++ [(event, v)])).

Definition rpcCache_enable : bool := negb (env_is "ENABLE_REQUEST_CACHING" "false").
Definition jsonRpcStrictMode : bool := bool_decide (env_text "JSON_RPC_STRICT_MODE" = Some "true").
Definition enableRateLimit : bool := env_is "WS_RATE_LIMIT_ENABLE" "true".

(** The call to the service with the hook after it *)
Definition fresh_answer (action method : string) (params : obj) : eff_gateway (failure + val) :=
  answer ← call_service action (Object params);
  match answer with
  | inl f => ret (inl f)
  | inr data =>
      match rpc_onAfterCall (aget (rpc_methodPaths methods) method) data with
      | RpcOk v => ret (inr (js_or v data))
      | RpcError code message => ret (inl (Structured code message))
      | RpcThrow message => ret (inl (Failure Undef message))
      end
  end.

(** An error inside of the action, with its message *)
Definition guarded (m : eff_gateway (failure + val)) : eff_gateway (failure + val) := fun g =>
  match m g with
  | (Ok a, g') => (Ok a, g')
  | (Throw e, g') => (Ok (inl (Failure Undef e)), g')
  end.

(** Answers that hold something are kept for some seconds. *)
Definition cached_answer (action method : string) (params : obj) : eff_gateway (failure + val) :=
  text ← lift (json_stringify (Object params));
  let key := method +:+ ":" +:+ default "undefined" text in
  cached ← gets (fun g => rpc_cache g !! key);
  match cached with
  | Some text => v ← lift (json_parse text); ret (inr v)
  | None =>
      res ← fresh_answer action method params;
      match res with
      | inr (Object o) =>
          (if isValidNonEmptyResponse o then
             text ← lift (json_stringify (Object o)); store_answer key (default "undefined" text)
           else ret tt) ≫= fun _ => ret res
      | _ => ret res
      end
  end.

(** The action [call] of the service, for a namespace with aliases, a whitelist
    and the policy [restrict] *)
Definition action_call (method : string) (params : val) : eff_gateway (failure + val) :=
  match aget (rpc_aliases methods) method with
  | None | Some "" => ret (inl (Failure (Num 404) (not_found_message method)))
  | Some action =>
      if negb (checkWhitelist action (whitelist methods)) then ret (inl (Failure (Num 404) (not_found_message action)))
      else
        match action_visibility action with
        | inl f => ret (inl f)
        | inr visibility =>
            if negb (bool_decide (visibility = Undef \/ visibility = Null \/ visibility = Str "published"))
            then ret (inl (Failure (Num 404) (not_found_message action)))
            else
              match own_params params with
              | None => ret (inl (Failure Undef "Cannot convert undefined or null to object"))
              | Some params =>
                  match rpc_onBeforeCall (rpc_methodPaths methods) method params with
                  | RpcError code message => ret (inl (Structured code message))
                  | RpcThrow message => ret (inl (Failure Undef message))
                  | RpcOk params => guarded (if rpcCache_enable then cached_answer action method params else fresh_answer action method params)
                  end
              end
        end
  end.

(** One request.  With a callback a successful answer is sent right away, and
    nothing is returned. *)
Definition performClientRequest (callback : bool) (jsonRpcInput id : val) : eff_gateway (option val) :=
  if jsonRpcStrictMode && negb (bool_decide (field jsonRpcInput "jsonrpc" = Str "2.0"))
  then ret (Some (addErrorEnvelope id (Num INVALID_REQUEST)
         (Str ("Client input error: The given data is not a proper JSON-RPC 2.0 request: " +:+ inspect jsonRpcInput))))
  else
    match field jsonRpcInput "method" with
    | Str method =>
        if String.eqb method "" then
          ret (Some (addErrorEnvelope id (Num INVALID_REQUEST) (Str ("Client input error: Missing method in the request " +:+ inspect jsonRpcInput))))
        else
          res ← action_call method (field jsonRpcInput "params");
          match res with
          | inr v =>
              if callback then respond_with (addJsonRpcEnvelope id v) ≫= fun _ => ret None
              else ret (Some (addJsonRpcEnvelope id v))
          | inl f => ret (Some (failure_envelope id f))
          end
    | _ => ret (Some (addErrorEnvelope id (Num INVALID_REQUEST) (Str ("Client input error: Missing method in the request " +:+ inspect jsonRpcInput))))
    end.

(** [requests.indexOf(request)]: objects are equal only to themselves. *)
Definition index_of (requests : list val) (i : nat) (request : val) : nat :=
  match request with
  | Object _ | Arr _ => i
  | v => default i (fst <$> list_find (fun w => w = v) requests)
  end.
Definition request_id (requests : list val) (i : nat) (request : val) : val :=
  js_or (field request "id") (Num (Z.of_nat (index_of requests i request) + 1)).

(** One entry of a batch; reading [error] of no response fails. *)
Definition answer_request (callback : bool) (requests : list val) (i : nat) (request : val) : eff_gateway val :=
  _ ← lift (get request "id");
  response ← performClientRequest callback request (request_id requests i request);
  match response with
  | Some v => ret v
  | None => throw "Cannot read properties of undefined (reading 'error')"
  end.

(** [socketOnError] picks the members of an error from the envelope: only
    [jsonrpc] is one. Without a callback the call of [respond] fails. *)
Definition socketOnError (callback : bool) : eff_gateway unit :=
  if callback then respond_with (Object [("jsonrpc", Str "2.0")]) else throw "respond is not a function".

(** The handler of an event.  [allowed] tells what the rate limiter says; an
    error that is thrown here rejects the promise of the handler, which nothing
    catches.  The requests of a batch are taken one after another; the code has
    two of them under way at a time and puts their answers in the same order. *)
Definition handle_requests (allowed callback : bool) (requests : val) : eff_gateway unit :=
  if enableRateLimit && negb allowed then throw "rate limit"
  else
    let '(single, requests) := match requests with Arr l => (false, l) | v => (true, [v]) end in
    try_catch
      (data ← map_each (imap (fun i r => (i, r)) requests) (fun '(i, r) => answer_request callback requests i r);
       let response := if single : bool then hd Undef data else Arr data in
       if callback then respond_with response else socket_emit "request" response)
      (fun _ => socketOnError callback).
End Sockets.

(** ** moleculer-web/methods.js: what an HTTP request ends with *)

(** [actions.rest]: the answer was sent, there was no route, or an error *)
Inductive rest_outcome := Sent | NoRoute | RestError (e : string).
Inductive http_end := Done | Served404 | ErrorAnswer (status : Z) (body : val).

(** [httpHandler] with [onError] of the settings *)
Definition error_body (message : string) : val :=
  Object [("error", Bool true); ("message", Str ("Server error: " +:+ message))].
Definition httpHandler (outcome : rest_outcome) : http_end :=
  match outcome with
  | Sent => Done
  | NoRoute => Served404
  | RestError e =>
      if instance_of "ValidationException" e then ErrorAnswer 400 (error_body (err_message e))
      else if instance_of "NotFoundException" e then ErrorAnswer 404 (error_body (err_message e))
      else ErrorAnswer 500 (error_body (if String.eqb (err_message e) "" then "Internal server error" else err_message e))
  end.

(** ** ready.js *)
Definition services_watched : list string := ["indexer"; "connector"; "fees"; "market"; "app-registry"; "statistics"].
Definition currentSvcStatus : list (string * val) := (fun s => (s, Bool false)) <$> services_watched.

Section Ready.
Context `{Packages}.
(** The answer to [${microservice}.status], or an error *)
Variable service_status : string -> result val.

Definition updateSvcStatus (status : list (string * val)) : list (string * val) :=
  (fun kv => (kv.1, match (res ← service_status kv.1; get res "isReady") with Ok v => v | Throw _ => Bool false end)) <$> status.

Definition brokerDependencies : list string :=
  split_on "," ("indexer,connector" +:+ "," +:+ default "" (env_text "GATEWAY_DEPENDENCIES")).

Definition getReady (status : list (string * val)) : result obj :=
  if existsb (fun kv => negb (truthy kv.2) && bool_decide (kv.1 ∈ brokerDependencies)) status
  then Throw "Service Unavailable"
  else Ok [("services", Object (filter (fun kv => truthy kv.2 = true) status))].

Definition gateway_getIndexStatus (status : list (string * val)) : val := prop status "indexer".

(** ** status.js *)

(** The key of the first greatest number *)
Fixpoint most_common (version : list (string * val)) : option (string * Z) :=
  match version with
  | [] => None
  | (k, v) :: rest =>
      match v, most_common rest with
      | Num n, Some (k', n') => if n' <=? n then Some (k, n) else Some (k', n')
      | Num n, None => Some (k, n)
      | _, r => r
      end
  end.
Definition networkNodeVersion (networkStatistics : val) : result (option string) :=
  data ← get networkStatistics "data";
  coreVer ← get data "coreVer";
  networkVersion ← get data "networkVersion";
  let version := match coreVer with Object (_ :: _) => coreVer | _ => networkVersion end in
  Ok (fst <$> most_common (as_obj version)).
End Ready.

(** ** app.js: the key of the rate limiter *)
Definition client_index (n numKnownProxies : Z) : Z := Z.max (n - numKnownProxies - 1) 0.

(** [trim] of the addresses in the header; the address of the connection is
    used without the header or known proxies. *)
Definition rate_limit_key (enableXForwardedFor : bool) (numKnownProxies : Z) (xForwardedFor : option string) (remoteAddress : string)
    : option string :=
  match xForwardedFor with
  | Some header =>
      if enableXForwardedFor && negb (String.eqb header "") && (0 <? numKnownProxies) then
        let clientIPs := js_trim <$> split_on "," header in
        clientIPs !! Z.to_nat (client_index (Z.of_nat (length clientIPs)) numKnownProxies)
      else Some remoteAddress
  | None => Some remoteAddress
  end.

(** ** app.js: events of the services and what clients of [/blockchain] get *)
Inductive event_payload := Mapped (definition : val) | Passed.
Definition socket_events : list (string * (string * event_payload)) :=
  [("block.new", ("new.block", Mapped (src_definition source_blocks)));
   ("transactions.new", ("new.transactions", Mapped (src_definition source_transactions)));
   ("block.delete", ("delete.block", Mapped (src_definition source_blocks)));
   ("transactions.delete", ("delete.transactions", Mapped (src_definition source_transactions)));
   ("round.change", ("update.round", Passed));
   ("generators.change", ("update.generators", Mapped (src_definition source_generators)));
   ("update.fee_estimates", ("update.fee_estimates", Mapped (src_definition source_fees)));
   ("metadata.change", ("update.metadata", Passed));
   ("update.index.status", ("update.index.status", Mapped (src_definition source_indexStatus)))].

(** [broker.call('gateway.broadcast', { namespace, event, args })] *)
Definition sendSocketIoEvent `{DateCasts} (event : string) (payload : val) : result (option val) :=
  match aget socket_events event with
  | None => Ok None
  | Some (name, p) =>
      data ← (match p with Mapped definition => mapper payload definition | Passed => Ok payload end);
      Ok (Some (Object [("namespace", Str "/blockchain"); ("event", Str name); ("args", Arr [data])]))
  end.
