(* ===== verification/GatewayServerSpec.v ===== *)
(** * Answers over sockets

    What a client gets for its JSON-RPC requests ([rpc_requests_answered]),
    where a batch with a callback loses answers, and what the key of the rate
    limiter depends on. *)
From S2P Require Import Prelude JsValue Regex Mapper GatewaySources Gateway Json Database Table Chain PoolAddress Stake Validators Files Http.
From S2P Require Import Export Service BlockQuery DexQuery Connector GatewayApi GatewayServer.
Local Open Scope Z_scope.

Section Spec.
Context `{Broker} `{FastestValidator} `{DateCasts} `{Packages}.
Variable methods : list (string * endpoint).

(** The answer to a request: always with its id.  A request without the version
    (in strict mode) or without the name of a method is invalid; for any other
    the answer is the result or the failure of its own method with its own
    parameters, called in some state of the gateway. *)
Definition well_formed (request : val) : bool :=
  negb (jsonRpcStrictMode && negb (bool_decide (field request "jsonrpc" = Str "2.0"))) &&
  match field request "method" with Str method => negb (String.eqb method "") | _ => false end.

Inductive answer_to (request id : val) : val -> Prop :=
| answer_result method v g g' : well_formed request = true -> field request "method" = Str method ->
    action_call methods method (field request "params") g = (Ok (inr v), g') -> answer_to request id (addJsonRpcEnvelope id v)
| answer_failure method f g g' : well_formed request = true -> field request "method" = Str method ->
    action_call methods method (field request "params") g = (Ok (inl f), g') -> answer_to request id (failure_envelope id f)
| answer_invalid message : well_formed request = false -> answer_to request id (addErrorEnvelope id (Num INVALID_REQUEST) message).

(** Nothing is sent to the client. *)
Definition silent (g g' : gateway) : Prop := acks g' = acks g /\ emitted g' = emitted g.

Definition mute {A} (m : eff gateway A) : Prop := forall g, exists a g', m g = (Ok a, g') /\ silent g g'.

Lemma silent_trans g1 g2 g3 : silent g1 g2 -> silent g2 g3 -> silent g1 g3.
Proof. unfold silent. intros [-> ->] [-> ->]. done. Qed.

(** Steps that may fail but send nothing *)
Definition hushed {A} (m : eff gateway A) : Prop := forall g, silent g (snd (m g)).

Lemma hushed_bind {A B} (m : eff gateway A) (f : A -> eff gateway B) : hushed m -> (forall a, hushed (f a)) -> hushed (m ≫= f).
Proof.
  intros Hm Hf g. specialize (Hm g). unfold mbind, eff_bind. destruct (m g) as [[a|e] g1]; [|exact Hm].
  eapply silent_trans; [exact Hm|apply Hf].
Qed.

Lemma hushed_ret {A} (a : A) : hushed (ret a).
Proof. done. Qed.

Lemma hushed_lift {A} (r : result A) : hushed (lift r).
Proof. done. Qed.

Lemma hushed_gets {A} (f : gateway -> A) : hushed (gets f).
Proof. done. Qed.

Lemma hushed_call action params : hushed (call_service action params).
Proof. done. Qed.

Lemma hushed_store key text : hushed (store_answer key text).
Proof. done. Qed.

Create HintDb hushed.
Hint Resolve hushed_bind hushed_ret hushed_lift hushed_gets hushed_call hushed_store : hushed.

Lemma fresh_hushed action method params : hushed (fresh_answer methods action method params).
Proof.
  unfold fresh_answer. apply hushed_bind; [auto with hushed|]. intros [f|data]; [auto with hushed|].
  destruct (rpc_onAfterCall _ data); auto with hushed.
Qed.

Lemma cached_hushed action method params : hushed (cached_answer methods action method params).
Proof.
  unfold cached_answer. apply hushed_bind; [auto with hushed|]. intros text. apply hushed_bind; [auto with hushed|].
  intros [t|]; [auto with hushed|]. apply hushed_bind; [apply fresh_hushed|].
  intros [f|v]; [auto with hushed|]. destruct v; try (by auto with hushed).
  apply hushed_bind; [|auto with hushed]. destruct (isValidNonEmptyResponse _); auto with hushed.
Qed.

(** ** One request *)
Lemma mute_ret {A} (a : A) : mute (ret a).
Proof. intros g. by exists a, g. Qed.

Lemma guarded_mute m : hushed m -> mute (guarded m).
Proof.
  intros Hm g. specialize (Hm g). unfold guarded. destruct (m g) as [[a|e] g']; [by exists a, g'|]. by exists (inl (Failure Undef e)), g'.
Qed.

Lemma action_mute method params : mute (action_call methods method params).
Proof.
  unfold action_call. destruct (aget _ method) as [[|c action]|]; try apply mute_ret.
  destruct (negb _); [apply mute_ret|]. destruct (action_visibility _) as [f|v]; [apply mute_ret|].
  destruct (negb _); [apply mute_ret|]. destruct (own_params params) as [o|]; [|apply mute_ret].
  destruct (rpc_onBeforeCall _ _ _) as [p|code m|m]; try apply mute_ret. apply guarded_mute.
  destruct rpcCache_enable; [apply cached_hushed|apply fresh_hushed].
Qed.

Lemma invalid_rejected callback input id g : well_formed input = false -> exists message,
  performClientRequest methods callback input id g = (Ok (Some (addErrorEnvelope id (Num INVALID_REQUEST) message)), g).
Proof.
  unfold well_formed, performClientRequest. destruct (jsonRpcStrictMode && negb _); [by eexists|]. cbn.
  destruct (field input "method") as [| | | | | |method| |]; try by eexists.
  destruct (String.eqb method ""); [by eexists|done].
Qed.

Lemma valid_performed callback input id : well_formed input = true -> exists method, field input "method" = Str method /\
  performClientRequest methods callback input id =
  (res ← action_call methods method (field input "params");
   match res with
   | inr v => if callback then respond_with (addJsonRpcEnvelope id v) ≫= fun _ => ret None else ret (Some (addJsonRpcEnvelope id v))
   | inl f => ret (Some (failure_envelope id f))
   end).
Proof.
  unfold well_formed, performClientRequest. destruct (jsonRpcStrictMode && negb _); [done|]. cbn.
  destruct (field input "method") as [| | | | | |method| |]; try done. exists method. split; [done|].
  by destruct (String.eqb method "").
Qed.

(** Without a callback an answer is returned; with one, errors are returned and
    results are sent. *)
Lemma request_answered callback input id g : exists v g1, answer_to input id v /\ silent g g1 /\
  (performClientRequest methods callback input id g = (Ok (Some v), g1) /\ (callback = true -> field v "error" <> Undef) \/
   callback = true /\ field v "error" = Undef /\ performClientRequest methods callback input id g = (Ok None, snd (respond_with v g1))).
Proof.
  destruct (well_formed input) eqn:Hw.
  2: { destruct (invalid_rejected callback input id g Hw) as (message & E). eexists _, g.
       split; [by apply (answer_invalid _ _ message)|]. split; [done|]. left. by rewrite E. }
  destruct (valid_performed callback input id Hw) as (method & Hm & ->).
  destruct (action_mute method (field input "params") g) as (res & g1 & E & Hs). unfold mbind, eff_bind. rewrite E.
  destruct res as [f|v].
  - exists (failure_envelope id f), g1. split; [by eapply answer_failure|]. split; [done|]. left. split; [done|]. by destruct f.
  - exists (addJsonRpcEnvelope id v), g1. split; [by eapply answer_result|]. split; [done|].
    destruct callback; [by right|by left].
Qed.

(** ** Batches *)
Definition readable (request : val) : Prop := request <> Undef /\ request <> Null.

Lemma readable_id request : readable request -> exists v, get request "id" = Ok v.
Proof. intros [Hu Hn]. destruct request; try done; by eexists. Qed.

Lemma entry_answered requests i request g : readable request -> exists v g1,
  answer_request methods false requests i request g = (Ok v, g1) /\ answer_to request (request_id requests i request) v /\ silent g g1.
Proof.
  intros Hr. destruct (readable_id _ Hr) as [x Hx]. unfold answer_request, mbind, eff_bind, lift. rewrite Hx.
  destruct (request_answered false request (request_id requests i request) g) as (v & g1 & Hv & Hs & [[-> _]|[? _]]); [|done].
  by exists v, g1.
Qed.

Lemma entries_answered requests (l : list (nat * val)) g : Forall (fun ir => readable ir.2) l -> exists data g1,
  map_each l (fun '(i, r) => answer_request methods false requests i r) g = (Ok data, g1) /\
  Forall2 (fun ir v => answer_to ir.2 (request_id requests ir.1 ir.2) v) l data /\ silent g g1.
Proof.
  revert g. induction l as [|[i r] l IH]; intros g Hl; [by exists [], g|]. apply Forall_cons in Hl as [Hr Hl].
  destruct (entry_answered requests i r g Hr) as (v & g1 & E1 & Hv & S1). destruct (IH g1 Hl) as (data & g2 & E2 & Hd & S2).
  exists (v :: data), g2. split.
  - cbn [map_each]. unfold mbind, eff_bind. rewrite E1, E2. done.
  - split; [by constructor|by eapply silent_trans].
Qed.

Definition entries (requests : val) : list val := match requests with Arr l => l | v => [v] end.
Definition is_batch (requests : val) : bool := match requests with Arr _ => true | _ => false end.
Definition response_of (requests : val) (data : list val) : val := if is_batch requests then Arr data else hd Undef data.

Lemma numbered_readable requests : Forall readable requests -> Forall (fun ir => readable ir.2) (imap (fun i (r : val) => (i, r)) requests).
Proof.
  intros Hr. apply Forall_forall. intros [i r] (j & r' & [= -> ->] & E)%elem_of_lookup_imap. cbn.
  rewrite Forall_forall in Hr. by eapply Hr, list_elem_of_lookup_2.
Qed.

Lemma batch_answered requests g : Forall readable requests -> exists data g1,
  map_each (imap (fun i r => (i, r)) requests) (fun '(i, r) => answer_request methods false requests i r) g = (Ok data, g1) /\
  silent g g1 /\ length data = length requests /\
  forall i r, requests !! i = Some r -> exists v, data !! i = Some v /\ answer_to r (request_id requests i r) v.
Proof.
  intros Hr. destruct (entries_answered requests _ g (numbered_readable _ Hr)) as (data & g1 & E & Hd & Hs).
  exists data, g1. split; [done|]. split; [done|]. split; [by rewrite <- (Forall2_length _ _ _ Hd), length_imap|].
  intros i r Hi. destruct (Forall2_lookup_l _ _ _ i (i, r) Hd) as (v & Hv & He); [|by exists v].
  by rewrite list_lookup_imap, Hi.
Qed.

(** What follows the first call of a callback: after a result the handler fails
    while it reads the missing response and calls the callback again, with an
    envelope that holds only the version. *)
Definition after_answer (v : val) : list val :=
  if bool_decide (field v "error" = Undef) then [Object [("jsonrpc", Str "2.0")]] else [].

Lemma single_with_callback r g : readable r -> exists v g', try_catch
   (data ← map_each (imap (fun i r => (i, r)) [r]) (fun '(i, r') => answer_request methods true [r] i r'); respond_with (hd Undef data))
   (fun _ => socketOnError true) g = (Ok tt, g') /\
   acks g' = acks g ++ v :: after_answer v /\ emitted g' = emitted g /\ answer_to r (request_id [r] 0 r) v.
Proof.
  intros Hrd. destruct (readable_id _ Hrd) as [x Hx].
  destruct (request_answered true r (request_id [r] 0 r) g) as (v & g1 & Hv & [Hs1 Hs2] & Hcase). exists v.
  unfold try_catch, answer_request, mbind, eff_bind, lift, after_answer. cbn [imap map_each]. unfold mbind, eff_bind. rewrite Hx.
  destruct Hcase as [[E Herr]|(_ & Herr & E)]; rewrite E; cbn.
  - exists (snd (respond_with v g1)). rewrite bool_decide_eq_false_2 by auto. cbn. by rewrite Hs1, Hs2.
  - exists (snd (respond_with (Object [("jsonrpc", Str "2.0")]) (snd (respond_with v g1)))).
    rewrite bool_decide_eq_true_2 by done. split_and!; [done|cbn; by rewrite Hs1, <- app_assoc|exact Hs2|exact Hv].
Qed.

Lemma all_without_callback (single : bool) l g : Forall readable l -> exists data g', try_catch
   (data ← map_each (imap (fun i r => (i, r)) l) (fun '(i, r) => answer_request methods false l i r);
    let response := if single then hd Undef data else Arr data in
    socket_emit "request" response) (fun _ => socketOnError false) g = (Ok tt, g') /\
   acks g' = acks g /\ emitted g' = emitted g ++ [("request", if single then hd Undef data else Arr data)] /\ length data = length l /\
   forall i r, l !! i = Some r -> exists v, data !! i = Some v /\ answer_to r (request_id l i r) v.
Proof.
  intros Hl. destruct (batch_answered l g Hl) as (data & g1 & E & [Hs1 Hs2] & Hlen & Hd).
  exists data, (snd (socket_emit "request" (if single then hd Undef data else Arr data) g1)). split.
  - unfold try_catch, mbind, eff_bind. rewrite E. done.
  - split_and!; [exact Hs1|cbn; by rewrite Hs2|done|done].
Qed.

(** [C21] Requests over a socket that the rate limiter lets pass and none of
    which is [null] or [undefined].  Without a callback there is exactly one
    message to the client; it holds, for a single request, its answer and, for
    a batch, the answers in the order of the requests, each with the id of its
    request and with what its own method gave for its own parameters, a result
    or an error, or with the error of an invalid request.  With a callback and
    a single request, the callback is called first with the answer; it is
    called exactly once for an error, and for a result once more with an
    envelope that holds only the version (a socket uses the first call).
    Requests that the rate limiter stops are not answered at all.  Batches with
    a callback are not covered: they lose answers, as the example
    [batch_with_callback_loses_answers] shows. *)
Theorem rpc_requests_answered (allowed : bool) (requests : val) (g : gateway) :
  (enableRateLimit = true -> allowed = false -> forall callback,
     exists e, handle_requests methods allowed callback requests g = (Throw e, g)) /\
  (enableRateLimit && negb allowed = false -> Forall readable (entries requests) ->
   (exists data g', handle_requests methods allowed false requests g = (Ok tt, g') /\
     acks g' = acks g /\ emitted g' = emitted g ++ [("request", response_of requests data)] /\
     length data = length (entries requests) /\
     forall i r, entries requests !! i = Some r -> exists v, data !! i = Some v /\ answer_to r (request_id (entries requests) i r) v) /\
   (is_batch requests = false -> exists v g', handle_requests methods allowed true requests g = (Ok tt, g') /\
     acks g' = acks g ++ v :: after_answer v /\ emitted g' = emitted g /\
     answer_to requests (request_id [requests] 0 requests) v)).
Proof.
  split.
  { intros Hl Hall callback. unfold handle_requests. rewrite Hl, Hall. by eexists. }
  intros Ha Hr. unfold handle_requests. rewrite Ha. split.
  - destruct requests; first [exact (all_without_callback true _ g Hr) | exact (all_without_callback false _ g Hr)].
  - intros Hb. destruct requests; try discriminate Hb; apply single_with_callback; by inversion Hr.
Qed.

(** An entry that cannot be read and no callback: the handler itself fails,
    which nothing catches. *)
Lemma null_request_unhandled allowed g : enableRateLimit = false ->
  handle_requests methods allowed false (Arr [Null]) g = (Throw "respond is not a function", g).
Proof. intros Hr. unfold handle_requests. by rewrite Hr. Qed.
End Spec.

(** ** The key of the rate limiter *)

(** Each known proxy appends one address; what the client sends itself comes
    before.  With anything sent by the client the key is the last of that, not
    the address that the first proxy saw. *)
Lemma rate_key_chosen_by_client (forged seen : list string) : forged <> [] -> seen <> [] ->
  (forged ++ seen) !! Z.to_nat (client_index (Z.of_nat (length (forged ++ seen))) (Z.of_nat (length seen))) = last forged.
Proof.
  intros Hf Hs. unfold client_index. rewrite length_app, Nat2Z.inj_add. destruct forged as [|x l] using rev_ind; [done|].
  rewrite length_app, last_snoc. cbn [length]. rewrite <- (assoc_L (++)).
  replace (Z.to_nat _) with (length l) by lia. rewrite lookup_app_r by lia. by rewrite Nat.sub_diag.
Qed.

Example rate_key_forged : rate_limit_key true 1 (Some "10.9.8.7, 203.0.113.5") "10.0.0.1" = Some "10.9.8.7".
Proof. vm_compute. reflexivity. Qed.

(** ** Samples *)
#[local] Instance no_checks : FastestValidator := fun _ _ => [].
#[local] Instance plain_dates : DateCasts := {| isodate := Ok; epoch := Ok; datetime := Ok |}.
#[local] Existing Instance sample_packages.
#[local] Instance index_broker : Broker := {|
  broker_call _ _ _ := inr (Object [("data", Object [("genesisHeight", Num 7)]); ("meta", Object [("lastUpdate", Num 1)])]);
  action_visibility _ := inr Undef;
  glob_match := String.eqb;
  not_found_message a := "Service '" +:+ a +:+ "' is not found.";
|}.

Definition index_methods : list (string * endpoint) := [("indexStatus", api_indexStatus)].
Definition status_request (id : Z) : val := Object [("jsonrpc", Str "2.0"); ("method", Str "get.index.status"); ("id", Num id)].
Definition unknown_request : val := Object [("method", Str "get.nothing")].
Definition fresh_gateway : gateway := mkGateway ∅ [] [] [].

Lemma rpc_requests_answered_witness :
  let requests := Arr [status_request 4; unknown_request] in
  Forall readable (entries requests) /\
  exists data g', handle_requests index_methods true false requests fresh_gateway = (Ok tt, g') /\
    emitted g' = [("request", Arr data)] /\ length data = 2%nat /\
    (exists v, data !! 0%nat = Some v /\ answer_to index_methods (status_request 4) (Num 4) v) /\ exists v, data !! 1%nat = Some v /\ answer_to index_methods unknown_request (Num 2) v.
Proof.
  assert (Forall readable [status_request 4; unknown_request]) as Hr by (repeat constructor; discriminate).
  split; [exact Hr|].
  destruct (proj2 (rpc_requests_answered index_methods true (Arr [status_request 4; unknown_request]) fresh_gateway) (andb_false_r _) Hr)
    as [(data & g' & E & _ & He & Hl & Hd) _].
  exists data, g'. split; [exact E|]. split; [exact He|]. split; [exact Hl|]. split; [exact (Hd 0%nat _ eq_refl)|exact (Hd 1%nat _ eq_refl)].
Defined.

(** A batch with a callback: the first result is sent alone, and the callback is
    then called with no answer at all (here for requests that finish one after
    the other; a socket uses the first call of a callback only). *)
Example batch_with_callback_loses_answers :
  let g := snd (handle_requests index_methods true true (Arr [status_request 4; status_request 5]) fresh_gateway) in
  (fun v => (field v "id", field (field (field v "result") "data") "genesisHeight")) <$> acks g = [(Num 4, Num 7); (Undef, Undef)].
Proof. vm_compute. reflexivity. Qed.
