(* ===== verification/Microservice.v ===== *)
(** * A service and its jobs

    [framework/src/microservice.js]: how a service registers its methods and
    events and schedules its jobs; the job tables [jobs/**] of all services with
    their settings in [config.js]; and what [app.js] of the indexer registers.
    The parser of definitions ([fastest-validator]) and of cron patterns
    ([node-cron]) are the interface [Definitions]. *)
From S2P Require Import Prelude JsValue Json Database Table FeeEstimator Market Gateway Methods Chain Stake Validators Files Http Service Connector.
From Stdlib Require Import SpecFloat.
Local Open Scope Z_scope.

(** ** Jobs *)

(** A job: interval in seconds, cron pattern, and which functions it has *)
Record job := mkJob {
  job_name : string;
  interval : option double;
  schedule : option string;
  has_init : bool;
  has_controller : bool;
}.

(** Numbers and texts as conditions *)
Definition number_truthy (d : double) : bool :=
  match d with S754_zero _ | S754_nan => false | _ => true end.
Definition set_interval (j : job) : bool := match interval j with Some d => number_truthy d | None => false end.
Definition set_schedule (j : job) : bool := match schedule j with Some s => negb (String.eqb s "") | None => false end.

Definition is_integer (d : double) : bool :=
  match d with
  | S754_zero _ => true
  | S754_finite _ _ _ => SFeqb d (f_of_Z (f_floor d))
  | _ => false
  end.

(** What the packages say of a definition *)
Class Definitions := {
  method_valid : method_def -> bool;
  params_compile : list (string * val) -> bool;
  event_valid : string -> bool;
  job_valid : job -> bool;
  cron_valid : string -> bool;
}.

(** [jobSchema]: names and patterns are texts here, so what is left to check is
    that an interval is a whole number. *)
Class JobSchema `{Definitions} : Prop :=
  job_schema : forall j, job_valid j = match interval j with Some d => is_integer d | None => true end.

(** What runs a job later *)
Inductive timer := Every (name : string) (seconds : double) | Cron (name pattern : string).

(** [setInterval(f, seconds * 1000)] of Node.js: a delay that is below one or does not
    fit in 31 bits becomes one millisecond. *)
Definition timer_delay (seconds : double) : Z :=
  let ms := f_mul seconds (f_of_Z 1000) in
  match ms with
  | S754_finite _ _ _ => let n := f_floor ms in if (1 <=? n) && (n <=? 2147483647) then n else 1
  | _ => 1
  end.

(** ** microservice.js *)

(** [moleculerConfig.actions], the events that were added and the jobs that wait; then what the broker and the timers were told, and the jobs whose
    promise was rejected *)
Record micro := mkMicro {
  actions : list (string * method_def);
  event_names : list string;
  jobsToBeScheduled : list job;
  timers : list timer;
  inits : list string;
  rejected : list string;
}.
Abbreviation eff_micro := (eff micro).

Definition new_service : micro := mkMicro [] [] [] [] [] [].

(** [actions[name] = action] *)
Fixpoint set_action (l : list (string * method_def)) (name : string) (m : method_def) : list (string * method_def) :=
  match l with
  | [] => [(name, m)]
  | (k, x) :: l => if String.eqb k name then (k, m) :: l else (k, x) :: set_action l name m
  end.

Section Micro.
Context `{Definitions}.

Definition addMethod (item : method_def) : eff_micro bool :=
  if negb (method_valid item) then ret false
  else if negb (match md_params item with [] => true | params => params_compile params end) then ret false
  else
    modify (fun s => mkMicro (set_action (actions s) (md_name item) item) (event_names s) (jobsToBeScheduled s) (timers s) (inits s) (rejected s)) ≫= fun _ =>
    ret true.

Definition addEvent (name : string) : eff_micro bool :=
  if negb (event_valid name) then ret false
  else
    modify (fun s => mkMicro (actions s) (event_names s ++ [name]) (jobsToBeScheduled s) (timers s) (inits s) (rejected s)) ≫= fun _ =>
    ret true.

(** What the controller of an event calls with its data *)
Inductive sent := Broadcast (event : string) (data target : val) | Emit (event : string) (data target : val).
Definition event_sender (name : string) (broadcast target data : val) : sent :=
  if bool_decide (broadcast = Bool true) then Broadcast name data target else Emit name data target.

Definition addJob (j : job) : eff_micro unit :=
  modify (fun s => mkMicro (actions s) (event_names s) (jobsToBeScheduled s ++ [j]) (timers s) (inits s) (rejected s)).

Definition add_timer (t : timer) : eff_micro unit :=
  modify (fun s => mkMicro (actions s) (event_names s) (jobsToBeScheduled s) (timers s ++ [t]) (inits s) (rejected s)).
Definition run_init (name : string) : eff_micro unit :=
  modify (fun s => mkMicro (actions s) (event_names s) (jobsToBeScheduled s) (timers s) (inits s ++ [name]) (rejected s)).
Definition reject (name : string) : eff_micro unit :=
  modify (fun s => mkMicro (actions s) (event_names s) (jobsToBeScheduled s) (timers s) (inits s) (rejected s ++ [name])).

Definition scheduleJob (j : job) : eff_micro bool :=
  if negb (job_valid j) then ret false
  else if negb (has_init j) && negb (has_controller j) then ret false
  else if has_controller j && negb (set_schedule j) && negb (set_interval j) then ret false
  else if (set_schedule j || set_interval j) && negb (has_controller j) then ret false
  else
    (if has_init j then run_init (job_name j) else ret tt) ≫= fun _ =>
    (if set_interval j then add_timer (Every (job_name j) (default f_zero (interval j)))
     else if set_schedule j then
       let pattern := default "" (schedule j) in
       if cron_valid pattern then add_timer (Cron (job_name j) pattern) else throw (pattern +:+ " is not a valid cron expression")
     else ret tt) ≫= fun _ =>
    ret true.

(** Jobs are taken from the end, and nothing waits for [scheduleJob]: an error
    rejects its promise only. *)
Fixpoint schedule_stack (stack : list job) : eff_micro unit :=
  match stack with
  | [] => ret tt
  | j :: stack => try_catch (_ ← scheduleJob j; ret tt) (fun _ => reject (job_name j)) ≫= fun _ => schedule_stack stack
  end.
Definition scheduleJobs : eff_micro unit :=
  stack ← gets jobsToBeScheduled;
  modify (fun s => mkMicro (actions s) (event_names s) [] (timers s) (inits s) (rejected s)) ≫= fun _ =>
  schedule_stack (rev stack).

(** [addMethods], [addEvents], [addJobs] of a folder: file by file *)
Fixpoint each {A B} (l : list A) (f : A -> eff_micro B) : eff_micro unit :=
  match l with [] => ret tt | a :: l => f a ≫= fun _ => each l f end.
Definition addMethods (files : list (list method_def)) : eff_micro unit := each files (fun items => each items addMethod).
Definition addEvents (files : list (list string)) : eff_micro unit := each files (fun items => each items addEvent).
Definition addJobs (files : list (list job)) : eff_micro unit := each files (fun items => each items addJob).

(** [run()]: the jobs are scheduled once the broker has started. *)
Definition run (started : result unit) : eff_micro unit := lift started ≫= fun _ => scheduleJobs.
End Micro.

(** ** Settings of jobs *)
Section Settings.
Context `{Packages}.

(** [Number(process.env[name]) || d] *)
Definition interval_setting (name : string) (d : Z) : double :=
  let n := match process_env name with Some text => number_of_text text | None => S754_nan end in
  if number_truthy n then n else f_of_Z d.
(** [process.env[name] || pattern] *)
Definition schedule_setting (name pattern : string) : string := default pattern (env_text name).

Definition registry_job_deleteNonMetadataFiles : double * string := (interval_setting "JOB_INTERVAL_DELETE_NON_METADATA_FILES" 0, schedule_setting "JOB_SCHEDULE_DELETE_NON_METADATA_FILES" "0 0 * * *").
Definition registry_job_updateApplicationMetadata : double * string := (interval_setting "JOB_INTERVAL_UPDATE_METADATA" 0, schedule_setting "JOB_SCHEDULE_UPDATE_METADATA" "*/10 * * * *").

Definition connector_job_cacheCleanup : double * string := (interval_setting "JOB_INTERVAL_CACHE_CLEANUP" 0, schedule_setting "JOB_SCHEDULE_CACHE_CLEANUP" "0 */12 * * *").
Definition connector_job_refreshPeers : double * string := (interval_setting "JOB_INTERVAL_REFRESH_PEERS" 60, schedule_setting "JOB_SCHEDULE_REFRESH_PEERS" "").

Definition coordinator_job_indexMissingBlocks : double * string := (interval_setting "JOB_INTERVAL_INDEX_MISSING_BLOCKS" 0, schedule_setting "JOB_SCHEDULE_INDEX_MISSING_BLOCKS" "*/5 * * * *").

Definition export_job_purgeCache : double * string := (interval_setting "JOB_INTERVAL_CACHE_PURGE" 0, schedule_setting "JOB_SCHEDULE_CACHE_PURGE" "45 4 * * *").

Definition gateway_job_updateReadinessStatus : double * string := (interval_setting "JOB_INTERVAL_UPDATE_READINESS_STATUS" 0, schedule_setting "JOB_SCHEDULE_UPDATE_READINESS_STATUS" "* * * * *").

Definition market_job_refreshPricesBitrue : double * string := (interval_setting "JOB_INTERVAL_REFRESH_PRICES_BITRUE" 0, schedule_setting "JOB_SCHEDULE_REFRESH_PRICES_BITRUE" "* * * * *").
Definition market_job_refreshPricesBinance : double * string := (interval_setting "JOB_INTERVAL_REFRESH_PRICES_BINANCE" 0, schedule_setting "JOB_SCHEDULE_REFRESH_PRICES_BINANCE" "* * * * *").
Definition market_job_refreshPricesBittrex : double * string := (interval_setting "JOB_INTERVAL_REFRESH_PRICES_BITTREX" 0, schedule_setting "JOB_SCHEDULE_REFRESH_PRICES_BITTREX" "* * * * *").
Definition market_job_refreshPricesExchangeratesapi : double * string := (interval_setting "JOB_INTERVAL_REFRESH_PRICES_EXCHANGERATESAPI" 0, schedule_setting "JOB_SCHEDULE_REFRESH_PRICES_EXCHANGERATESAPI" "* * * * *").
Definition market_job_refreshPricesKraken : double * string := (interval_setting "JOB_INTERVAL_REFRESH_PRICES_KRAKEN" 0, schedule_setting "JOB_SCHEDULE_REFRESH_PRICES_KRAKEN" "* * * * *").
Definition market_job_updatePrices : double * string := (interval_setting "JOB_INTERVAL_UPDATE_PRICES" 5, schedule_setting "JOB_SCHEDULE_UPDATE_PRICES" "").

Definition statistics_job_refreshTransactionStats : double * string := (interval_setting "JOB_INTERVAL_REFRESH_TRANSACTION_STATS" 0, schedule_setting "JOB_SCHEDULE_REFRESH_TRANSACTION_STATS" "*/30 * * * *").
Definition statistics_job_verifyTransactionStats : double * string := (interval_setting "JOB_INTERVAL_VERIFY_TRANSACTION_STATS" 0, schedule_setting "JOB_SCHEDULE_VERIFY_TRANSACTION_STATS" "15 */3 * * *").

Definition indexer_job_deleteSerializedEvents : double * string := (interval_setting "JOB_INTERVAL_DELETE_SERIALIZED_EVENTS" 0, schedule_setting "JOB_SCHEDULE_DELETE_SERIALIZED_EVENTS" "*/5 * * * *").
Definition indexer_job_refreshValidators : double * string := (interval_setting "JOB_INTERVAL_REFRESH_VALIDATORS" 0, schedule_setting "JOB_SCHEDULE_REFRESH_VALIDATORS" "*/5 * * * *").
Definition indexer_job_validateValidatorsRank : double * string := (interval_setting "JOB_INTERVAL_VALIDATE_VALIDATORS_RANK" 0, schedule_setting "JOB_SCHEDULE_VALIDATE_VALIDATORS_RANK" "4-59/15 * * * *").
Definition indexer_job_refreshLiveIndexingJobCount : double * string := (interval_setting "JOB_INTERVAL_REFRESH_INDEX_STATUS" 10, schedule_setting "JOB_SCHEDULE_REFRESH_INDEX_STATUS" "").
Definition indexer_job_refreshBlockchainAppsStats : double * string := (interval_setting "JOB_INTERVAL_REFRESH_BLOCKCHAIN_APPS_STATS" 0, schedule_setting "JOB_SCHEDULE_REFRESH_BLOCKCHAIN_APPS_STATS" "*/15 * * * *").
Definition indexer_job_refreshAccountsKnowledge : double * string := (interval_setting "JOB_INTERVAL_REFRESH_ACCOUNT_KNOWLEDGE" 0, schedule_setting "JOB_SCHEDULE_REFRESH_ACCOUNT_KNOWLEDGE" "*/15 * * * *").
Definition indexer_job_deleteFinalizedCCUMetadata : double * string := (interval_setting "JOB_INTERVAL_DELETE_FINALIZED_CCU_METADATA" 0, schedule_setting "JOB_SCHEDULE_DELETE_FINALIZED_CCU_METADATA" "0 2 * * *").
Definition indexer_job_triggerAccountUpdates : double * string := (interval_setting "JOB_INTERVAL_TRIGGER_ACCOUNT_UPDATES" 0, schedule_setting "JOB_SCHEDULE_TRIGGER_ACCOUNT_UPDATES" "*/15 * * * *").
Definition indexer_job_triggerAccountBalanceUpdates : double * string := (interval_setting "JOB_INTERVAL_TRIGGER_ACCOUNT_BALANCE_UPDATES" 10, schedule_setting "JOB_SCHEDULE_TRIGGER_ACCOUNT_BALANCE_UPDATES" "").



(** A job with a controller and its settings *)
Definition configured (name : string) (setting : double * string) (init : bool) : job :=
  mkJob name (Some (fst setting)) (Some (snd setting)) init true.

Definition job_delete_non_metadata_files : job := configured "delete.non.metadata.files" registry_job_deleteNonMetadataFiles false.
Definition job_update_application_metadata : job := configured "update.application.metadata" registry_job_updateApplicationMetadata false.
Definition job_cache_cleanup : job := configured "cache.cleanup" connector_job_cacheCleanup false.
Definition job_refresh_peers : job := configured "refresh.peers" connector_job_refreshPeers true.
Definition job_index_missing_blocks : job := configured "index.missing.blocks" coordinator_job_indexMissingBlocks false.
Definition job_job_purge_cache : job := configured "job.purge.cache" export_job_purgeCache false.
Definition job_update_price_sparkline_5min : job := mkJob "update.price.sparkline.5min" (Some f_zero) (Some "0,5,10,15,20,25,30,35,40,45,50,55 * * * *") true true.
Definition job_update_price_sparkline_15min : job := mkJob "update.price.sparkline.15min" (Some f_zero) (Some "0,15,30,45 * * * *") true true.
Definition job_update_price_sparkline_1hour : job := mkJob "update.price.sparkline.1hour" (Some f_zero) (Some "0 * * * *") true true.
Definition job_update_price_sparkline_6hour : job := mkJob "update.price.sparkline.6hour" (Some f_zero) (Some "0 0,6,12,18 * * *") true true.
Definition job_update_price_sparkline_1day : job := mkJob "update.price.sparkline.1day" (Some f_zero) (Some "0 0 * * *") true true.
Definition job_update_readiness_status : job := configured "update.readiness.status" gateway_job_updateReadinessStatus true.
Definition job_prices_retrieve_binance : job := configured "prices.retrieve.binance" market_job_refreshPricesBinance true.
Definition job_prices_retrieve_bitrue : job := configured "prices.retrieve.bitrue" market_job_refreshPricesBitrue true.
Definition job_prices_retrieve_exchangeratesapi : job := configured "prices.retrieve.exchangeratesapi" market_job_refreshPricesExchangeratesapi true.
Definition job_update_prices : job := configured "update.prices" market_job_updatePrices true.
Definition job_refresh_transactions_statistics : job := configured "refresh.transactions.statistics" statistics_job_refreshTransactionStats true.
Definition job_verify_transactions_statistics : job := configured "verify.transactions.statistics" statistics_job_verifyTransactionStats false.
Definition job_refresh_blockchain_apps_statistics : job := configured "refresh.blockchain.apps.statistics" indexer_job_refreshBlockchainAppsStats true.
Definition job_refresh_live_indexing_job_count : job := configured "refresh.live.indexing.job.count" indexer_job_refreshLiveIndexingJobCount true.
Definition job_refresh_accounts_knowledge : job := configured "refresh.accounts.knowledge" indexer_job_refreshAccountsKnowledge true.
Definition job_refresh_validators : job := configured "refresh.validators" indexer_job_refreshValidators true.
Definition job_validate_validator_rank : job := configured "validate.validator.rank" indexer_job_validateValidatorsRank false.
Definition job_job_delete_finalized_ccu_metadata : job := configured "job.delete.finalized.ccu.metadata" indexer_job_deleteFinalizedCCUMetadata false.
Definition job_delete_serializedEvents : job := configured "delete.serializedEvents" indexer_job_deleteSerializedEvents false.
Definition job_trigger_account_updates : job := configured "trigger.account.updates" indexer_job_triggerAccountUpdates false.
Definition job_trigger_account_balance_updates : job := configured "trigger.account.balance.updates" indexer_job_triggerAccountBalanceUpdates false.
Definition job_job_1 : job := mkJob "job.1" None (Some "* * * * *") false true.

(** The folders [jobs] of the services, file by file *)
Definition jobs_registry : list (list job) := [[job_delete_non_metadata_files]; [job_update_application_metadata]].
Definition jobs_connector : list (list job) := [[job_cache_cleanup]; [job_refresh_peers]].
Definition jobs_coordinator : list (list job) := [[job_index_missing_blocks]].
Definition jobs_export : list (list job) := [[job_job_purge_cache]].
Definition jobs_gateway : list (list job) := [[job_update_price_sparkline_5min; job_update_price_sparkline_15min; job_update_price_sparkline_1hour; job_update_price_sparkline_6hour; job_update_price_sparkline_1day]; [job_update_readiness_status]].
Definition jobs_market : list (list job) := [[job_prices_retrieve_binance]; [job_prices_retrieve_bitrue]; [job_prices_retrieve_exchangeratesapi]; [job_update_prices]].
Definition jobs_statistics : list (list job) := [[job_refresh_transactions_statistics; job_verify_transactions_statistics]].
Definition jobs_indexer_dataService : list (list job) := [[job_refresh_blockchain_apps_statistics]; [job_refresh_live_indexing_job_count]; [job_refresh_accounts_knowledge]; [job_refresh_validators; job_validate_validator_rank]].
Definition jobs_indexer_indexer : list (list job) := [[job_job_delete_finalized_ccu_metadata]; [job_delete_serializedEvents]; [job_trigger_account_updates; job_trigger_account_balance_updates]].
Definition jobs_template : list (list job) := [[job_job_1]].
Definition service_jobs : list (string * list (list job)) := [
   ("app-registry", jobs_registry);
   ("connector", jobs_connector);
   ("coordinator", jobs_coordinator);
   ("export", jobs_export);
   ("gateway", jobs_gateway);
   ("market", jobs_market);
   ("statistics", jobs_statistics);
   ("indexer", jobs_indexer_dataService ++ jobs_indexer_indexer);
   ("template", jobs_template)].

(** The variables that hold intervals *)
Definition interval_variables : list string := [
   "JOB_INTERVAL_DELETE_NON_METADATA_FILES";
   "JOB_INTERVAL_UPDATE_METADATA";
   "JOB_INTERVAL_CACHE_CLEANUP";
   "JOB_INTERVAL_REFRESH_PEERS";
   "JOB_INTERVAL_INDEX_MISSING_BLOCKS";
   "JOB_INTERVAL_CACHE_PURGE";
   "JOB_INTERVAL_UPDATE_READINESS_STATUS";
   "JOB_INTERVAL_REFRESH_PRICES_BITRUE";
   "JOB_INTERVAL_REFRESH_PRICES_BINANCE";
   "JOB_INTERVAL_REFRESH_PRICES_BITTREX";
   "JOB_INTERVAL_REFRESH_PRICES_EXCHANGERATESAPI";
   "JOB_INTERVAL_REFRESH_PRICES_KRAKEN";
   "JOB_INTERVAL_UPDATE_PRICES";
   "JOB_INTERVAL_REFRESH_TRANSACTION_STATS";
   "JOB_INTERVAL_VERIFY_TRANSACTION_STATS";
   "JOB_INTERVAL_DELETE_SERIALIZED_EVENTS";
   "JOB_INTERVAL_REFRESH_VALIDATORS";
   "JOB_INTERVAL_VALIDATE_VALIDATORS_RANK";
   "JOB_INTERVAL_REFRESH_INDEX_STATUS";
   "JOB_INTERVAL_REFRESH_BLOCKCHAIN_APPS_STATS";
   "JOB_INTERVAL_REFRESH_ACCOUNT_KNOWLEDGE";
   "JOB_INTERVAL_DELETE_FINALIZED_CCU_METADATA";
   "JOB_INTERVAL_TRIGGER_ACCOUNT_UPDATES";
   "JOB_INTERVAL_TRIGGER_ACCOUNT_BALANCE_UPDATES"].
End Settings.
(** ** blockchain-indexer/app.js *)
Section IndexerApp.
Context `{Definitions} `{Packages}.

Definition isDataRetrievalModeEnabled : bool := negb (env_is "ENABLE_DATA_RETRIEVAL_MODE" "false").
Definition isIndexingModeEnabled : bool := negb (env_is "ENABLE_INDEXING_MODE" "false").

(** The files of [methods/dataService/modules] *)
Definition module_files : list (string * list method_def) := [
   ("auth", methods_indexer_auth); ("dex", methods_indexer_dex); ("dynamicReward", methods_indexer_dynamicReward);
   ("legacy", methods_indexer_legacy); ("pos", methods_indexer_pos); ("token", methods_indexer_token);
   ("tokenFactory", methods_indexer_tokenFactory); ("validators", methods_indexer_validators)].

Definition dataService_files : list (list method_def) := [
   methods_indexer_blockchainApps; methods_indexer_blocks; methods_indexer_chain; methods_indexer_events; methods_indexer_generators;
   methods_indexer_indexStatus; methods_indexer_invoke; methods_indexer_network; methods_indexer_nftStorage; methods_indexer_transactions].

(** [events/blockchain.js] *)
Definition indexer_events : list string :=
  ["block.new"; "transactions.new"; "block.delete"; "transactions.delete"; "generators.change"; "round.change"; "index.ready"; "update.index.status"].

(** A module of the node without a file has no methods of its own. *)
Definition add_module (module : string) : eff_micro unit :=
  let module := if String.eqb module "reward" then "dynamicReward" else module in
  match aget module_files module with Some methods => each methods addMethod | None => ret tt end.

(** What the service registers before it runs, for the modules of the node *)
Definition indexer_app (registeredModules : list string) : eff_micro unit :=
  addMethods [methods_indexer_status] ≫= fun _ =>
  (if isDataRetrievalModeEnabled then
     addJobs jobs_indexer_dataService ≫= fun _ =>
     addMethods dataService_files ≫= fun _ =>
     each registeredModules add_module
   else ret tt) ≫= fun _ =>
  if isIndexingModeEnabled then
    addMethods [methods_indexer_indexer] ≫= fun _ =>
    addEvents [indexer_events] ≫= fun _ =>
    addJobs jobs_indexer_indexer
  else ret tt.
End IndexerApp.
