(* ===== verification/MicroserviceSpec.v ===== *)
(** * Jobs and methods of a running service

    Every job of every service runs on the timer that its settings name
    ([services_run_their_jobs]); the indexer offers the methods of its tables
    ([indexer_offers_methods]); and what becomes of intervals that are not whole
    or not positive. *)
From S2P Require Import Prelude JsValue Json Database Table FeeEstimator Market Gateway Methods Chain Stake Validators Files Http Service Connector Microservice.
From Stdlib Require Import SpecFloat Ascii.
Local Open Scope Z_scope.

Section Jobs.
Context `{Definitions} `{!JobSchema} `{Packages}.

(** An interval that is set counts; the cron pattern is used only without one. *)
Definition timer_of (j : job) : timer :=
  if set_interval j then Every (job_name j) (default f_zero (interval j)) else Cron (job_name j) (default "" (schedule j)).

(** A job that [scheduleJob] takes *)
Definition schedulable (j : job) : Prop :=
  match interval j with Some d => is_integer d | None => true end = true /\ has_controller j = true /\
  set_interval j || set_schedule j = true /\ (set_interval j = false -> cron_valid (default "" (schedule j)) = true).

Lemma scheduleJob_schedulable j s : schedulable j -> scheduleJob j s =
  (Ok true, mkMicro (actions s) (event_names s) (jobsToBeScheduled s) (timers s ++ [timer_of j])
     (inits s ++ if has_init j then [job_name j] else []) (rejected s)).
Proof.
  intros (Hi & Hc & Hs & Hcron). unfold scheduleJob, timer_of. rewrite job_schema, Hi, Hc. cbn.
  rewrite andb_false_r. destruct (set_interval j); cbn.
  - rewrite !andb_false_r. by destruct (has_init j); cbn; rewrite ?app_nil_r.
  - cbn in Hs. rewrite Hs, (Hcron eq_refl). by destruct (has_init j); cbn; rewrite ?app_nil_r.
Qed.

Definition init_names (l : list job) : list string := l ≫= fun j => if has_init j then [job_name j] else [].

Lemma schedule_stack_all l s : Forall schedulable l -> schedule_stack l s =
  (Ok tt, mkMicro (actions s) (event_names s) (jobsToBeScheduled s) (timers s ++ (timer_of <$> l)) (inits s ++ init_names l) (rejected s)).
Proof.
  intros Hl. revert s. induction Hl as [|j l Hj _ IH]; intros s.
  - cbn. rewrite !app_nil_r. by destruct s.
  - cbn [schedule_stack]. unfold mbind, eff_bind, try_catch. rewrite (scheduleJob_schedulable _ _ Hj). cbn. rewrite IH. cbn.
    by rewrite <- !app_assoc.
Qed.

(** ** Adding *)
Lemma each_addJob l s : each l addJob s =
  (Ok tt, mkMicro (actions s) (event_names s) (jobsToBeScheduled s ++ l) (timers s) (inits s) (rejected s)).
Proof.
  revert s. induction l as [|j l IH]; intros s; cbn.
  - rewrite app_nil_r. by destruct s.
  - unfold mbind, eff_bind. cbn. rewrite IH. cbn. by rewrite <- app_assoc.
Qed.

Lemma addJobs_all files s : addJobs files s =
  (Ok tt, mkMicro (actions s) (event_names s) (jobsToBeScheduled s ++ concat files) (timers s) (inits s) (rejected s)).
Proof.
  unfold addJobs. revert s. induction files as [|l files IH]; intros s.
  - cbn. rewrite app_nil_r. by destruct s.
  - cbn [each]. unfold mbind, eff_bind. rewrite each_addJob, IH. cbn. by rewrite <- app_assoc.
Qed.

Lemma run_schedules files s : jobsToBeScheduled s = [] -> Forall schedulable (concat files) ->
  (addJobs files ≫= fun _ => run (Ok tt)) s =
  (Ok tt, mkMicro (actions s) (event_names s) [] (timers s ++ (timer_of <$> rev (concat files)))
     (inits s ++ init_names (rev (concat files))) (rejected s)).
Proof.
  intros Hs Hf. unfold mbind, eff_bind, run, scheduleJobs. rewrite addJobs_all, Hs. cbn.
  unfold mbind, eff_bind. cbn. rewrite schedule_stack_all; [done|]. by apply Forall_rev.
Qed.

(** ** Settings *)

(** Every interval that the environment sets is a whole number. *)
Definition whole_intervals : Prop := Forall (fun name =>
  forall text, process_env name = Some text -> number_truthy (number_of_text text) = true -> is_integer (number_of_text text) = true)
  interval_variables.

(** Every cron pattern in use can be read. *)
Definition readable_patterns (l : list job) : Prop :=
  Forall (fun j => set_interval j = false -> cron_valid (default "" (schedule j)) = true) l.

Lemma interval_setting_cases name d :
  (exists text, process_env name = Some text /\ number_truthy (number_of_text text) = true /\ interval_setting name d = number_of_text text) \/
  interval_setting name d = f_of_Z d.
Proof.
  unfold interval_setting. destruct (process_env name) as [text|]; [|by right].
  destruct (number_truthy (number_of_text text)) eqn:E; [left|by right]. by exists text.
Qed.

Lemma schedule_setting_set name pattern : pattern <> "" -> String.eqb (schedule_setting name pattern) "" = false.
Proof.
  unfold schedule_setting, env_text. intros Hp. apply String.eqb_neq. destruct (process_env name) as [text|]; cbn; [|done].
  destruct (String.eqb_spec text ""); cbn; done.
Qed.

(** Jobs as the tables have them: with a fixed pattern, or with settings whose
    defaults have an interval or a pattern *)
Inductive well_set : job -> Prop :=
| well_fixed name i pattern init :
    match i with Some d => negb (number_truthy d) && is_integer d | None => true end = true -> pattern <> "" ->
    well_set (mkJob name i (Some pattern) init true)
| well_configured job init name d sname pattern :
    name ∈ interval_variables -> is_integer (f_of_Z d) = true -> number_truthy (f_of_Z d) || negb (String.eqb pattern "") = true ->
    well_set (configured job (interval_setting name d, schedule_setting sname pattern) init).

Lemma well_set_schedulable j : whole_intervals -> well_set j ->
  (set_interval j = false -> cron_valid (default "" (schedule j)) = true) -> schedulable j.
Proof.
  intros Hw Hj Hc. unfold whole_intervals in Hw. rewrite Forall_forall in Hw.
  destruct Hj as [name i pattern init Hi Hp|job init name d sname pattern Hin Hd Hset];
    repeat split; try exact Hc; unfold set_interval, set_schedule; cbn.
  - destruct i as [d|]; [|done]. by apply andb_true_iff in Hi as [_ ?].
  - apply String.eqb_neq in Hp. by rewrite Hp, orb_true_r.
  - destruct (interval_setting_cases name d) as [(text & Ht & Hn & ->)| ->]; [by eapply Hw|done].
  - destruct (interval_setting_cases name d) as [(text & Ht & Hn & ->)| ->]; [by rewrite Hn|].
    apply orb_true_iff in Hset as [->|Hp%negb_true_iff%String.eqb_neq]; [done|].
    by rewrite (schedule_setting_set _ _ Hp), orb_true_r.
Qed.

Lemma services_well_set : Forall (fun service => Forall well_set (concat (snd service))) service_jobs.
Proof.
  unfold service_jobs.
  repeat (apply Forall_cons; split; [cbn; repeat (apply Forall_cons; split;
    [first [apply well_configured; [apply (bool_decide_eq_true_1 _)|..]; vm_compute; reflexivity
           |apply well_fixed; [vm_compute; reflexivity|discriminate]]|]); apply Forall_nil_2|]).
  apply Forall_nil_2.
Qed.

Lemma services_schedulable name files : (name, files) ∈ service_jobs -> whole_intervals -> readable_patterns (concat files) ->
  Forall schedulable (concat files).
Proof.
  intros Hin Hw Hp. pose proof services_well_set as Hs. rewrite Forall_forall in Hs. specialize (Hs _ Hin). cbn in Hs.
  apply Forall_forall. intros j Hj. unfold readable_patterns in Hp. rewrite Forall_forall in Hs, Hp.
  apply well_set_schedulable; auto.
Qed.

Lemma job_names_distinct : Forall (fun service => NoDup (job_name <$> concat (snd service))) service_jobs.
Proof. repeat (apply Forall_cons; split; [apply (bool_decide_eq_true_1 _); vm_compute; reflexivity|]). apply Forall_nil_2. Qed.

(** [C40] Every job of every service runs: as long as the intervals that the
    environment sets are whole numbers and the cron patterns in use can be read,
    once a service has started each of its jobs has exactly one timer, with the
    interval when one is set and with the cron pattern otherwise, its first run
    was started when it has one, and no job is refused or left waiting. *)
Theorem services_run_their_jobs name files : (name, files) ∈ service_jobs -> whole_intervals -> readable_patterns (concat files) ->
  exists s, (addJobs files ≫= fun _ => run (Ok tt)) new_service = (Ok tt, s) /\
    timers s = timer_of <$> rev (concat files) /\ inits s = init_names (rev (concat files)) /\
    rejected s = [] /\ jobsToBeScheduled s = [] /\ NoDup (job_name <$> concat files).
Proof.
  intros Hin Hw Hp. rewrite (run_schedules files new_service eq_refl (services_schedulable _ _ Hin Hw Hp)).
  eexists. split; [done|]. cbn. repeat split.
  pose proof job_names_distinct as Hd. rewrite Forall_forall in Hd. exact (Hd _ Hin).
Qed.
End Jobs.

(** ** Methods of the indexer *)
Section Methods.
Context `{Definitions} `{Packages}.
Hypothesis methods_valid : forall m, method_valid m = true.
Hypothesis params_valid : forall params, params_compile params = true.
Hypothesis events_valid : forall e, event_valid e = true.

Definition offers (s : micro) (name : string) : Prop := name ∈ fst <$> actions s.

Lemma set_action_names l name m : fst <$> set_action l name m = (fst <$> l) \/ fst <$> set_action l name m = (fst <$> l) ++ [name].
Proof.
  induction l as [|[k x] l IH]; [by right|]. cbn. destruct (String.eqb_spec k name) as [->|]; [by left|]. cbn.
  destruct IH as [-> | ->]; [by left|by right].
Qed.

Lemma set_action_offers l name m k : k ∈ fst <$> set_action l name m <-> k = name \/ k ∈ fst <$> l.
Proof.
  induction l as [|[k' x] l IH]; cbn; [set_solver|]. destruct (String.eqb_spec k' name) as [->|]; cbn; set_solver.
Qed.

(** A step that adds the names [added] to the methods, whatever it is run on *)
Definition adds {A} (m : eff micro A) (added : string -> Prop) : Prop :=
  forall s, exists a s', m s = (Ok a, s') /\ forall k, offers s' k <-> added k \/ offers s k.

Lemma adds_ret {A} (a : A) : adds (ret a) (fun _ => False).
Proof. intros s. exists a, s. split; [done|]. tauto. Qed.

Lemma adds_bind {A B} (m : eff micro A) (f : A -> eff micro B) p q : adds m p -> (forall a, adds (f a) q) -> adds (m ≫= f) (fun k => p k \/ q k).
Proof.
  intros Hm Hf s. destruct (Hm s) as (a & s1 & E1 & H1). destruct (Hf a s1) as (b & s2 & E2 & H2).
  exists b, s2. split; [unfold mbind, eff_bind; by rewrite E1|]. intros k. rewrite H2, H1. tauto.
Qed.

Lemma adds_iff {A} (m : eff micro A) (p q : string -> Prop) : (forall k, p k <-> q k) -> adds m p -> adds m q.
Proof. intros Hpq Hm s. destruct (Hm s) as (a & s' & E & Hs). exists a, s'. split; [done|]. intros k. by rewrite Hs, Hpq. Qed.

Lemma addMethod_adds m : adds (addMethod m) (fun k => k = md_name m).
Proof.
  intros s. unfold addMethod. rewrite methods_valid. cbn.
  assert (match md_params m with [] => true | params => params_compile params end = true) as -> by (destruct (md_params m); [done|apply params_valid]).
  cbn. eexists _, _. split; [done|]. intros k. apply set_action_offers.
Qed.

Lemma each_adds {A B} (l : list A) (f : A -> eff micro B) (p : A -> string -> Prop) :
  (forall a, adds (f a) (p a)) -> adds (each l f) (fun k => exists a, a ∈ l /\ p a k).
Proof.
  intros Hf. induction l as [|a l IH]; cbn [each].
  - eapply adds_iff; [|apply adds_ret]. intros k. setoid_rewrite elem_of_nil. firstorder.
  - eapply adds_iff; [|apply adds_bind; [apply Hf|intros _; apply IH]]. intros k. cbn. setoid_rewrite elem_of_cons. naive_solver.
Qed.

Lemma each_mute {A B} (l : list A) (f : A -> eff micro B) : (forall a, adds (f a) (fun _ => False)) -> adds (each l f) (fun _ => False).
Proof. intros Hf. eapply adds_iff; [|apply (each_adds l f (fun _ _ => False)), Hf]. cbn. firstorder. Qed.

Definition names (l : list method_def) : list string := md_name <$> l.

Lemma methods_added l : adds (each l addMethod) (fun k => k ∈ names l).
Proof.
  eapply adds_iff; [|apply (each_adds l _ (fun m k => k = md_name m)), addMethod_adds]. intros k. unfold names. rewrite list_elem_of_fmap. naive_solver.
Qed.

Lemma elem_of_concat {A} (x : A) (ls : list (list A)) : x ∈ concat ls <-> exists l, l ∈ ls /\ x ∈ l.
Proof.
  induction ls as [|l ls IH]; cbn; [setoid_rewrite elem_of_nil; firstorder|].
  rewrite elem_of_app, IH. setoid_rewrite elem_of_cons. naive_solver.
Qed.

Lemma addMethods_added files : adds (addMethods files) (fun k => k ∈ names (concat files)).
Proof.
  eapply adds_iff; [|apply (each_adds files _ (fun l k => k ∈ names l)); intros; apply methods_added]. intros k. cbn. unfold names. rewrite list_elem_of_fmap.
  setoid_rewrite list_elem_of_fmap. setoid_rewrite elem_of_concat. naive_solver.
Qed.

Lemma addJobs_mute files : adds (addJobs files) (fun _ => False).
Proof. apply each_mute. intros l. apply each_mute. intros j s. eexists _, _. split; [done|]. cbn. tauto. Qed.

Lemma addEvents_mute files : adds (addEvents files) (fun _ => False).
Proof.
  apply each_mute. intros l. apply each_mute. intros e s. unfold addEvent. rewrite events_valid. eexists _, _. split; [done|]. cbn. tauto.
Qed.

(** ** The start of the indexer *)
Definition module_name (module : string) : string := if String.eqb module "reward" then "dynamicReward" else module.

Lemma module_added module : adds (add_module module) (fun k => exists l, aget module_files (module_name module) = Some l /\ k ∈ names l).
Proof.
  unfold add_module. fold (module_name module). destruct (aget module_files (module_name module)) as [l|].
  - eapply adds_iff; [|apply methods_added]. naive_solver.
  - eapply adds_iff; [|apply adds_ret]. naive_solver.
Qed.

(** The methods that the indexer offers: its status, in the mode for data
    retrieval those of the data service and of every module of the node that has
    methods, and in the mode for indexing those for the coordinator *)
Lemma indexer_offers modules : exists s, indexer_app modules new_service = (Ok tt, s) /\ forall k, offers s k <->
  k ∈ names methods_indexer_status \/
  isDataRetrievalModeEnabled = true /\
    (k ∈ names (concat dataService_files) \/
     exists module l, module ∈ modules /\ aget module_files (module_name module) = Some l /\ k ∈ names l) \/
  isIndexingModeEnabled = true /\ k ∈ names methods_indexer_indexer.
Proof.
  assert (adds (indexer_app modules) (fun k => k ∈ names (concat [methods_indexer_status]) \/
    ((if isDataRetrievalModeEnabled then
        False \/ k ∈ names (concat dataService_files) \/
        exists module, module ∈ modules /\ exists l, aget module_files (module_name module) = Some l /\ k ∈ names l
      else False) \/
     (if isIndexingModeEnabled then k ∈ names (concat [methods_indexer_indexer]) \/ False \/ False else False)))) as Ha.
  { unfold indexer_app. apply adds_bind; [apply addMethods_added|]. intros _. apply adds_bind.
    - destruct isDataRetrievalModeEnabled; [|apply adds_ret].
      apply adds_bind; [apply addJobs_mute|]. intros _. apply adds_bind; [apply addMethods_added|]. intros _.
      apply each_adds. intros module. apply module_added.
    - intros _. destruct isIndexingModeEnabled; [|apply adds_ret].
      apply adds_bind; [apply addMethods_added|]. intros _. apply adds_bind; [apply addEvents_mute|]. intros _. apply addJobs_mute. }
  destruct (Ha new_service) as ([] & s & E & Hs). exists s. split; [exact E|]. intros k. rewrite Hs.
  assert (offers new_service k <-> False) as -> by (unfold offers; cbn; set_solver).
  cbn [concat]. rewrite !app_nil_r. generalize (names methods_indexer_status) (names (concat dataService_files)) (names methods_indexer_indexer).
  intros l1 l2 l3. clear. destruct isDataRetrievalModeEnabled, isIndexingModeEnabled; naive_solver.
Qed.

Lemma tables_complete : Forall (fun m => md_name (snd m) ∈
  names (methods_indexer_status ++ concat dataService_files ++ concat (snd <$> module_files) ++ methods_indexer_indexer)) methods_indexer.
Proof. apply (bool_decide_eq_true_1 _). vm_compute. reflexivity. Qed.

Lemma module_file_found l : l ∈ snd <$> module_files -> exists module, module ∈ fst <$> module_files /\ aget module_files module = Some l.
Proof.
  intros ([module l'] & -> & Hin)%list_elem_of_fmap. exists module. split; [apply list_elem_of_fmap; by exists (module, l')|].
  unfold module_files in Hin. repeat (apply elem_of_cons in Hin as [[= -> ->]|Hin]; [reflexivity|]). by apply not_elem_of_nil in Hin.
Qed.

(** On a node with all modules that have methods, every method of the tables is
    offered: what the gateway forwards to the indexer is found. *)
Lemma indexer_offers_methods modules m : isDataRetrievalModeEnabled = true -> isIndexingModeEnabled = true ->
  (forall module, module ∈ fst <$> module_files -> exists module', module' ∈ modules /\ module_name module' = module) ->
  m ∈ methods_indexer -> exists s, indexer_app modules new_service = (Ok tt, s) /\ offers s (md_name (snd m)).
Proof.
  intros Hd Hi Hm Hin. destruct (indexer_offers modules) as (s & E & Hs). exists s. split; [exact E|]. apply Hs.
  pose proof tables_complete as Ht. rewrite Forall_forall in Ht. specialize (Ht _ Hin). revert Ht. unfold names. rewrite !fmap_app, !elem_of_app.
  intros [Ht|[Ht|[Ht|Ht]]]; [by left|by right; left; split; [|left]| |by right; right].
  right; left. split; [done|]. right. apply list_elem_of_fmap in Ht as (d & Hk & (l & Hl & Hdl)%elem_of_concat).
  destruct (module_file_found _ Hl) as (module & Hmod & Ha). destruct (Hm _ Hmod) as (module' & Hin' & Hn).
  exists module', l. rewrite Hn. split; [done|]. split; [done|]. rewrite Hk. apply list_elem_of_fmap. by exists d.
Qed.
End Methods.

(** ** Samples *)

(** A reader of definitions that checks what the schemas say *)
#[local] Instance plain_definitions : Definitions := {|
  method_valid _ := true;
  params_compile _ := true;
  event_valid _ := true;
  job_valid j := match interval j with Some d => is_integer d | None => true end;
  cron_valid pattern := (length (split_on " "%char pattern) =? 5)%nat;
|}.
#[local] Instance plain_schema : JobSchema.
Proof. by intros j. Qed.

Definition with_env (env : list (string * string)) : Packages := {|
  Service.validate _ _ := Ok tt;
  inspect _ := "";
  legacy_address _ := Throw "";
  random_bytes _ _ _ := "";
  BAD_REQUEST := Num 400;
  NOT_FOUND := Num 404;
  process_env name := aget env name;
  axios _ _ := Rejected None Undef "";
|}.

Definition interval_is (seconds : string) : Packages := with_env [("JOB_INTERVAL_UPDATE_PRICES", seconds)].

Definition started_market `{Packages} : micro := snd ((addJobs jobs_market ≫= fun _ => run (Ok tt)) new_service).

Lemma services_run_their_jobs_witness :
  let _ := interval_is "30" in
  exists s, (addJobs jobs_market ≫= fun _ => run (Ok tt)) new_service = (Ok tt, s) /\
    timers s = [Every "update.prices" (f_of_Z 30); Cron "prices.retrieve.exchangeratesapi" "* * * * *";
                Cron "prices.retrieve.bitrue" "* * * * *"; Cron "prices.retrieve.binance" "* * * * *"] /\ rejected s = [].
Proof.
  intros env. destruct (services_run_their_jobs (H1 := env) "market" jobs_market) as (s & E & Ht & _ & Hr & _).
  - do 5 right. left.
  - repeat (constructor; [intros text Ht; vm_compute in Ht; first [discriminate Ht|injection Ht as <-; intros _; vm_compute; reflexivity]|]). constructor.
  - apply (bool_decide_eq_true_1 _). vm_compute. reflexivity.
  - exists s. split; [exact E|]. split; [|exact Hr]. rewrite Ht. vm_compute. reflexivity.
Defined.

(** An interval that is not whole: the job is refused, also its pattern. *)
Example fractional_interval_refused : let _ := interval_is "0.5" in
  timers started_market = [Cron "prices.retrieve.exchangeratesapi" "* * * * *"; Cron "prices.retrieve.bitrue" "* * * * *";
                           Cron "prices.retrieve.binance" "* * * * *"].
Proof. vm_compute. reflexivity. Qed.

(** A negative interval is taken, and the job runs every millisecond; so does
    one with an interval of more than 24 days. *)
Example negative_interval_taken : let _ := interval_is "-5" in
  head (timers started_market) = Some (Every "update.prices" (f_of_Z (-5))) /\
  timer_delay (f_of_Z (-5)) = 1 /\ timer_delay (f_of_Z 2147484) = 1 /\ timer_delay (f_of_Z 30) = 30000 /\ timer_delay (f_of_Z 2147483) = 2147483000.
Proof. vm_compute. repeat split; reflexivity. Qed.
