(* ===== verification/FeeChain.v ===== *)
(** * What the fee estimator knows of the chain

    [fee-estimator/shared/utils/chain.js], [feeConstants.js], [status.js] and
    [events/feeEstimates.js]: constants that are asked for once, the latest
    block, and a cache of blocks by height that signals of new and deleted
    blocks keep up to date ([fee_blocks_current]).  What the connector answers
    is a parameter. *)
From S2P Require Import Prelude JsValue Database Json.
Local Open Scope Z_scope.

(** The variables of the modules, the cache, and the requests so far *)
Record fee_chain := mkFeeChain {
  fc_vars : obj;
  fc_blocks : gmap string string;
  fc_calls : list (string * obj);
}.
Abbreviation eff_chain := (eff fee_chain).

Section Chain.
(** What the connector answers after some requests *)
Variable connector : nat -> string -> obj -> result val.

Definition chain_request (method : string) (params : obj) : eff_chain val := fun s =>
  (connector (length (fc_calls s)) method params, mkFeeChain (fc_vars s) (fc_blocks s) (fc_calls s ++ [(method, params)])).

Definition chain_var (name : string) : eff_chain val := gets (fun s => prop (fc_vars s) name).
Definition chain_assign (name : string) (v : val) : eff_chain unit :=
  modify (fun s => mkFeeChain (set_prop (fc_vars s) name v) (fc_blocks s) (fc_calls s)).

(** [isObject(block) && 'assets' in block && 'header' in block && ...] *)
Definition isValidBlock (block : val) : bool :=
  match block with
  | Object o => has_prop o "assets" && has_prop o "header" && has_prop o "transactions"
  | _ => false
  end.

Definition setLatestBlock (block : val) : eff_chain unit :=
  if isValidBlock block then chain_assign "latestBlock" block else ret tt.

Definition is_object_type (v : val) : bool := match v with Null | Arr _ | Object _ => true | _ => false end.
Definition is_number_type (v : val) : bool := match v with Num _ | NaN => true | _ => false end.

(** [if (!known(x)) x = await request; return x] *)
Definition ask_once (known : val -> bool) (name : string) (ask : eff_chain val) : eff_chain val :=
  v ← chain_var name;
  if known v then ret v
  else v ← ask; chain_assign name v ≫= fun _ => ret v.

Definition getLatestBlock : eff_chain val := ask_once is_object_type "latestBlock" (chain_request "getLastBlock" []).
Definition getBlockTime : eff_chain val :=
  ask_once is_number_type "blockTime"
    (nodeInfo ← chain_request "getNodeInfo" []; genesis ← lift (get nodeInfo "genesis"); lift (get genesis "blockTime")).
Definition getGenesisHeight : eff_chain val := ask_once is_number_type "genesisHeight" (chain_request "getGenesisHeight" []).

(** feeConstants.js *)
Definition getFeeTokenID : eff_chain val := ask_once truthy "feeTokenID" (chain_request "getFeeTokenID" []).
Definition getMinFeePerByte : eff_chain val := ask_once truthy "minFeePerByte" (chain_request "getMinFeePerByte" []).
Definition getFeeConstants : eff_chain val :=
  feeTokenID ← getFeeTokenID; minFeePerByte ← getMinFeePerByte;
  ret (Object [("feeTokenID", feeTokenID); ("minFeePerByte", minFeePerByte)]).

(** ** Blocks by height *)
Definition block_height_key (block : val) : result string :=
  header ← get block "header"; height ← get header "height"; Ok (js_String height).

Definition cacheBlockByHeight (block : val) : eff_chain unit :=
  try_catch
    (if isValidBlock block then
       _ ← getBlockTime;
       key ← lift (block_height_key block);
       text ← lift (json_stringify block);
       modify (fun s => mkFeeChain (fc_vars s) (<[key := default "undefined" text]> (fc_blocks s)) (fc_calls s))
     else ret tt)
    (fun _ => ret tt).

Definition emptyCacheBlockByHeight (block : val) : eff_chain unit :=
  try_catch
    (if isValidBlock block then
       key ← lift (block_height_key block);
       modify (fun s => mkFeeChain (fc_vars s) (delete key (fc_blocks s)) (fc_calls s))
     else ret tt)
    (fun _ => ret tt).

Definition getBlockByHeight (height : Z) : eff_chain val :=
  cached ← gets (fun s => fc_blocks s !! string_of_Z height);
  match cached with
  | Some text => if String.eqb text "" then
                   block ← chain_request "getBlockByHeight" [("height", Num height)]; cacheBlockByHeight block ≫= fun _ => ret block
                 else lift (json_parse text)
  | None => block ← chain_request "getBlockByHeight" [("height", Num height)]; cacheBlockByHeight block ≫= fun _ => ret block
  end.

(** The listeners of the signals [newBlock] and [deleteBlock] *)
Definition on_newBlock (block : val) : eff_chain unit := setLatestBlock block ≫= fun _ => cacheBlockByHeight block.
Definition on_deleteBlock (block : val) : eff_chain unit := emptyCacheBlockByHeight block.
End Chain.

(** ** status.js and events/feeEstimates.js *)

(** [isReady] of the status, once the estimates (or the answer that there are
    none) were asked for *)
Definition fee_isReady (isReady : bool) (fees : obj) : bool :=
  if isReady then true else negb (bool_decide ((fst <$> fees) = [])).

(** Estimates are passed on to the broker unless there are none. *)
Definition newFeeEstimateListener (restData : result obj) : option obj :=
  match restData with
  | Ok o => if negb (bool_decide ((fst <$> o) = [])) && negb (bool_decide (prop o "status" = Str "SERVICE_UNAVAILABLE")) then Some o else None
  | Throw _ => None
  end.

(** ** The cache follows the chain *)

(** A block of the chain at its height *)
Definition block_at (h : Z) (b : val) : Prop := isValidBlock b = true /\ block_height_key b = Ok (string_of_Z h) /\ json_kept b.

(** Every request comes back, with an answer or an error. *)
Definition returns (connector : nat -> string -> obj -> result val) : Prop := forall n m p, connector n m p <> Throw never_returns.

(** The connector answers from the chain. *)
Definition serves (connector : nat -> string -> obj -> result val) (chain : gmap Z val) : Prop := returns connector /\
  forall n h, match chain !! h with
              | Some b => connector n "getBlockByHeight" [("height", Num h)] = Ok b
              | None => exists e, connector n "getBlockByHeight" [("height", Num h)] = Throw e
              end.

(** What can happen: a block is added and announced, the block at some height is
    removed and announced, a block is asked for, a cached block expires.  Other
    questions may be answered in any way. *)
Inductive fee_step : gmap Z val * fee_chain -> gmap Z val * fee_chain -> Prop :=
| step_new connector chain s h b : returns connector -> block_at h b -> chain !! h = None ->
    fee_step (chain, s) (<[h := b]> chain, snd (on_newBlock connector b s))
| step_delete chain s h b : block_at h b -> chain !! h = Some b ->
    fee_step (chain, s) (delete h chain, snd (on_deleteBlock b s))
| step_ask connector chain s h : serves connector chain ->
    fee_step (chain, s) (chain, snd (getBlockByHeight connector h s))
| step_expire chain s key : fee_step (chain, s) (chain, mkFeeChain (fc_vars s) (delete key (fc_blocks s)) (fc_calls s)).

(** Only blocks of the chain are cached, under their heights. *)
Definition cache_current (st : gmap Z val * fee_chain) : Prop :=
  (forall h b, fst st !! h = Some b -> block_at h b) /\
  forall key text, fc_blocks (snd st) !! key = Some text ->
    exists h b, key = string_of_Z h /\ fst st !! h = Some b /\ json_stringify b = Ok (Some text).

Section Current.
Variable connector : nat -> string -> obj -> result val.
Hypothesis Hreturns : returns connector.

Lemma get_returns v key e : get v key = Throw e -> e <> never_returns.
Proof. destruct v; cbn; try done; by intros [= <-]. Qed.

Lemma getBlockTime_returns s e : fst (getBlockTime connector s) = Throw e -> e <> never_returns.
Proof.
  unfold getBlockTime, ask_once, chain_var, chain_assign, chain_request, mbind, eff_bind, gets, lift. cbn.
  destruct (is_number_type _); [done|]. destruct (connector _ _ _) as [v|e1] eqn:E; cbn; [|intros [= <-] ->; by apply Hreturns in E].
  destruct (get v "genesis") as [g|e1] eqn:Eg; cbn; [|intros [= <-]; by apply get_returns in Eg].
  destruct (get g "blockTime") as [t|e1] eqn:Et; cbn; [done|intros [= <-]; by apply get_returns in Et].
Qed.

Lemma getBlockTime_blocks s : fc_blocks (snd (getBlockTime connector s)) = fc_blocks s.
Proof.
  unfold getBlockTime, ask_once, chain_var, chain_assign, chain_request, mbind, eff_bind, gets, lift. cbn.
  destruct (is_number_type _); [done|]. destruct (connector _ _ _) as [v|]; [|done]. cbn.
  destruct (get v "genesis") as [g|]; [|done]. cbn. by destruct (get g "blockTime").
Qed.

(** Caching a block never fails; it stores the text of the block under its
    height or leaves the cache alone. *)
Lemma cacheBlock_cases h b s : block_at h b -> exists s', cacheBlockByHeight connector b s = (Ok tt, s') /\
  (fc_blocks s' = fc_blocks s \/ exists text, json_stringify b = Ok (Some text) /\ fc_blocks s' = <[string_of_Z h := text]> (fc_blocks s)).
Proof.
  intros (Hv & Hk & Hj). unfold cacheBlockByHeight. rewrite Hv. unfold try_catch, mbind, eff_bind.
  pose proof (getBlockTime_blocks s) as Ht. pose proof (getBlockTime_returns s) as Hn.
  destruct (getBlockTime connector s) as [[v|e] s1]; cbn in Ht, Hn.
  2: { specialize (Hn e eq_refl). apply String.eqb_neq in Hn. rewrite Hn. exists s1. auto. }
  cbn. rewrite Hk. cbn. destruct (json_roundtrip b Hj) as (text & E & _). rewrite E. cbn. eexists. split; [done|]. right.
  exists text. cbn. by rewrite Ht.
Qed.

Lemma setLatestBlock_blocks b s : fst (setLatestBlock b s) = Ok tt /\ fc_blocks (snd (setLatestBlock b s)) = fc_blocks s.
Proof. unfold setLatestBlock. by destruct (isValidBlock b). Qed.

(** ** Answers *)
Lemma cached_block_read chain s h text : cache_current (chain, s) -> fc_blocks s !! string_of_Z h = Some text ->
  exists b, chain !! h = Some b /\ json_parse text = Ok b /\ String.eqb text "" = false.
Proof.
  intros [Hb Hc] E. destruct (Hc _ _ E) as (h' & b & <-%string_of_Z_inj & Hin & Et). exists b. split; [done|].
  destruct (Hb _ _ Hin) as (_ & _ & Hj). destruct (json_roundtrip b Hj) as (t & E1 & E2). rewrite E1 in Et. injection Et as ->.
  split; [done|]. apply String.eqb_neq. intros ->. by vm_compute in E2.
Qed.

Lemma getBlockByHeight_current chain s h : cache_current (chain, s) -> serves connector chain ->
  exists s', getBlockByHeight connector h s = (match chain !! h with Some b => Ok b | None => fst (getBlockByHeight connector h s) end, s') /\
    (forall e, chain !! h = None -> fst (getBlockByHeight connector h s) <> Ok e) /\ cache_current (chain, s').
Proof.
  intros Hs Hc. pose proof Hs as [Hb Hcur]. cbn in Hcur.
  assert (forall s', fc_blocks s' = fc_blocks s -> cache_current (chain, s')) as Hsame by (intros s' E; split; [exact Hb|cbn; by rewrite E]).
  unfold getBlockByHeight, mbind, eff_bind, gets, lift. destruct (fc_blocks s !! string_of_Z h) as [text|] eqn:E.
  - destruct (cached_block_read _ _ _ _ Hs E) as (b & Hin & Hp & Hne). rewrite Hne, Hin, Hp. exists s. split; [done|]. by split.
  - unfold chain_request. destruct Hc as [_ Hc]. specialize (Hc (length (fc_calls s)) h). destruct (chain !! h) as [b|] eqn:Hin.
    + rewrite Hc. set (s1 := mkFeeChain _ _ _). destruct (cacheBlock_cases h b s1 (Hb _ _ Hin)) as (s' & -> & Hcase). exists s'.
      split; [done|]. split; [done|]. destruct Hcase as [Hsm|(text & Ht & Hsm)]; [by apply Hsame|]. split; [exact Hb|].
      intros key t. cbn. rewrite Hsm. intros [[<- <-]|[_ Hk]]%lookup_insert_Some; [by exists h, b|by apply Hcur].
    + destruct Hc as [e ->]. eexists. split; [done|]. split; [done|]. by apply Hsame.
Qed.
End Current.

Lemma fee_step_current st st' : fee_step st st' -> cache_current st -> cache_current st'.
Proof.
  intros [connector chain s h b Hret Hat Hno|chain s h b Hat Hin|connector chain s h Hserve|chain s key] Hs; pose proof Hs as [Hb Hc]; cbn in Hb, Hc.
  - unfold on_newBlock, mbind, eff_bind. destruct (setLatestBlock_blocks b s) as [E1 E2].
    destruct (setLatestBlock b s) as [r s1]. cbn in E1, E2. subst r.
    destruct (cacheBlock_cases connector Hret h b s1 Hat) as (s' & -> & Hcase). split; cbn.
    + intros h' b' [[<- <-]|[_ Hk]]%lookup_insert_Some; auto.
    + assert (forall key text, fc_blocks s !! key = Some text -> exists h' b', key = string_of_Z h' /\
        (<[h:=b]> chain : gmap Z val) !! h' = Some b' /\ json_stringify b' = Ok (Some text)) as Hold.
      { intros key text (h' & b' & -> & Hk & Ht)%Hc. exists h', b'. split; [done|]. split; [|done].
        rewrite lookup_insert_ne; [done|]. intros ->. congruence. }
      intros key text. destruct Hcase as [->|(t & Ht & ->)]; rewrite E2; [by apply Hold|].
      intros [[<- <-]|[_ Hk]]%lookup_insert_Some; [|by apply Hold]. exists h, b. by rewrite lookup_insert_eq.
  - destruct Hat as (Hv & Hk & _). unfold on_deleteBlock, emptyCacheBlockByHeight. rewrite Hv, Hk.
    unfold try_catch, mbind, eff_bind. cbn. split; cbn.
    + intros h' b' [_ Hd]%lookup_delete_Some. auto.
    + intros key text [Hne (h' & b' & -> & Hd & Ht)%Hc]%lookup_delete_Some. exists h', b'. split; [done|]. split; [|done].
      rewrite lookup_delete_ne; [done|]. congruence.
  - destruct (getBlockByHeight_current connector (proj1 Hserve) chain s h Hs Hserve) as (s' & -> & _ & Hs'). exact Hs'.
  - split; [exact Hb|]. cbn. intros key' text [_ Hd]%lookup_delete_Some. by apply Hc.
Qed.

Lemma fee_steps_current st st' : rtc fee_step st st' -> cache_current st -> cache_current st'.
Proof. induction 1; [done|]. intros. eauto using fee_step_current. Qed.

(** Whatever blocks were added, removed, asked for and expired before, the fee
    estimator works with the blocks of the current chain: a block that was
    removed is never used again. *)
Lemma fee_blocks_current chain0 chain s connector h :
  (forall h b, chain0 !! h = Some b -> block_at h b) -> rtc fee_step (chain0, mkFeeChain [] ∅ []) (chain, s) -> serves connector chain ->
  match chain !! h with
  | Some b => fst (getBlockByHeight connector h s) = Ok b
  | None => exists e, fst (getBlockByHeight connector h s) = Throw e
  end.
Proof.
  intros Hb Hr Hserve. assert (cache_current (chain, s)) as Hs.
  { apply (fee_steps_current _ _ Hr). split; [exact Hb|]. cbn. intros key text. by rewrite lookup_empty. }
  destruct (getBlockByHeight_current connector (proj1 Hserve) chain s h Hs Hserve) as (s' & E & Hno & _). destruct (chain !! h) as [b|]; [by rewrite E|].
  destruct (fst (getBlockByHeight connector h s)) as [v|e] eqn:Ef; [|by exists e]. by destruct (Hno v eq_refl).
Qed.

(** ** Readiness *)

(** The answer that there are no estimates makes the service ready, too. *)
Example ready_without_estimates :
  fee_isReady false [("data", Object [("error", Str "The estimates are currently under processing. Please retry in 30 seconds.")]);
                     ("status", Str "SERVICE_UNAVAILABLE")] = true.
Proof. reflexivity. Qed.
